(* ===== verification/_CoqProject ===== *)
-Q . S2P
Prelude.v
Decimals.v
Money.v
Epochs.v
PosTypes.v
KdsTypes.v
EdgeDb.v
DiningRepo.v
Policies.v
Dining.v
DiningSpec.v
Billing.v
CashShift.v
CashShiftRepo.v
CashShiftSpec.v
Payment.v
PaymentSpec.v
Leases.v
Folios.v
FolioSpec.v
Kds.v
KdsSpec.v
KitchenSpec.v
Json.v
JsonSpec.v
AuditTrail.v
AuditTrailSpec.v
Recipes.v
RecipesSpec.v
Kardex.v
KardexSpec.v
Ingestion.v
IngestionSpec.v
DeliverySpec.v
EdgeSync.v
SyncSpec.v
Dispatch.v
DispatchSpec.v
Scale4.v
Procurement.v
ProcurementSpec.v
ReceiptSpec.v
Finance.v
FinanceSpec.v
PayablesSpec.v
JsonText.v
Buffers.v
SecureStore.v
TrustedTime.v
EdgeSecurity.v
Tokens.v
Iam.v
Enrollment.v
Triples.v
IamSample.v
LockoutSpec.v
IamFrames.v
BruteForce.v
SecureStoreSpec.v
TrustedTimeSpec.v
SecurityAuditSpec.v
EnrollmentSpec.v
SessionSpec.v
Doubles.v
FiscalTypes.v
Cfdi.v
Tfd.v
Pac.v
Invoicing.v
Drafts.v
InvoicingSample.v
DraftsSpec.v
InvoicingFrames.v
InvoicingSpec.v
