(* ===== verification/Prelude.v ===== *)
(** * TridentPOS: a verified model of the point-of-sale core

    TridentPOS runs a restaurant from an edge computer: waiters open accounts on tables, add
    and cancel lines, split and settle bills, and cashiers run shifts that end in a blind
    count and a frozen Corte Z.  The code under src/packages is TypeScript; the domain
    services (pos) work through repository ports whose adapters (pos-edge-runtime) write one
    SQLite connection (edge), and events leave through a transactional outbox.  The kitchen
    follows the dishes on screens and printers; fiscal folios come from leases that the cloud
    grants to the edge; the cloud (PostgreSQL) keeps a hash-chained audit trail and the stock
    ledger that produced dishes and wastes deplete, applies the events of the edge, buys from
    suppliers, keeps what is owed and due, and has invoices stamped by a certification
  service (PAC) of the tax authority.  Staff sign in at the edge with badges and PINs,
    also while the cloud cannot be reached, and stations join the edge with one-time pairing
    tokens.  This library models these parts and proves what they promise.

    ** Files

    - [Prelude]: this file; results, the state-and-exception monad, record update, sums,
      JavaScript strings, tactics.
    - [Decimals], [Money] (core/src/money.ts): decimal digits of naturals; scaled bigints,
      [roundDiv], decimal strings, line arithmetic, the Money value object.
    - [Epochs] (core/src/folio-contracts.ts): epoch identifiers of folio blocks.
    - [PosTypes] (pos/src/types.ts, cash-shift-types.ts, payment-types.ts, errors.ts): the
      entities, one Module per interface, and the error type.
    - [EdgeDb] (edge/src/db, the schemas of pos-edge-runtime): tables, the connection,
      transactions and durability modes, [enqueue], [executeWithOutbox], the audit trail.
    - [DiningRepo] (pos/src/ports.ts, dining-sqlite-repository.ts): the repository ports, the
      laws [DiningLaws] they promise, and the SQLite adapter, which is an instance of them.
    - [Policies] (pos/src/policies.ts): cancellation, transfer and bill-splitting policies.
    - [Dining] (pos/src/dining-service.ts): every command of DiningDomainService.
    - [DiningSpec]: the abstract dining room, the refinement, seating and concurrency.
    - [Billing]: account totals against the stored lines.
    - [CashShift] (cash-shift-service.ts, cash-shift-strategy.ts), [CashShiftRepo]
      (cash-shift-sqlite-repository.ts), [CashShiftSpec]: shifts, their adapter, the ledger
      machine and its invariants.
    - [Payment] (payment-service.ts, payment-sqlite-repository.ts), [PaymentSpec]: tenders,
      the atomic settlement, and a server that interleaves them with every other request.
    - [Leases] (database/src/leases.ts), [Folios] (edge/src/db/folio-persistence.ts),
      [FolioSpec]: the cloud's leases of folio ranges, the lease a node consumes, and the
      system of one cloud with any number of nodes, zombies included.
    - [KdsTypes], [Kds] (kds-service.ts, kds-sqlite-repository.ts, kds-runtime.ts,
      printer-queue-runner.ts, escpos-formatter.ts), [KdsSpec], [KitchenSpec]: tickets, their
      life cycle, the published screens and the print queue.
    - [Json] (core/src/canonicalize.ts), [JsonSpec]: canonical JSON against a recursive
      reference.
    - [AuditTrail] (core/src/redaction.ts, hash-chain.ts, database/src/audit.ts),
      [AuditTrailSpec]: redaction, chains, checkpoints and the cloud logger.
    - [Recipes] (inventory/src), [RecipesSpec]: recipe explosion and costing.
    - [Kardex] (PostgresCloudInventoryService of cloud-server/src/index.ts), [KardexSpec]:
      wastes, depletion of produced orders, quarantine and the stock ledger.
    - [Ingestion] (database/src/outbox/ingested-idempotency-engine.ts, the keys and DTOs of
      core/src/sync-contracts.ts), [IngestionSpec], [DeliverySpec]: the cloud's ingestion of
      edge events, the history it applies, and delivery in any order.
    - [EdgeSync] (markSynced and the queries of edge/src/db/outbox-persistence.ts, flushOutbox
      of sync/src/edge-client.ts), [SyncSpec]: the edge's acknowledgements, and the system of
      edge, network and cloud.
    - [Dispatch] (database/src/outbox/cloud-integration-outbox.ts), [DispatchSpec]: the
      integration outbox of the cloud, its claims, retries and dead letters.
    - [Scale4]: exact arithmetic on decimal strings, shared by the numerics of procurement
      and finance.
    - [Procurement] (procurement/src, PostgresProcurementService of cloud-server/src/index.ts),
      [ProcurementSpec], [ReceiptSpec]: suppliers, purchase orders and receipts; the books
      they keep, and retries of receipts.
    - [Finance] (finance/src, PostgresFinanceService of cloud-server/src/index.ts),
      [FinanceSpec]: payables, receivables, their transactions and cash reconciliation;
      payables and receivables are two instances of the class [Finance.Obligation], and
      [FinanceSpec.ObligationLaws] is what the ledger's theorems use of them.
    - [PayablesSpec]: procurement and finance as one system, joined by the events of receipts
      in the integration outbox.
    - [JsonText], [Buffers]: JSON.stringify and JSON.parse on texts; bytes, UTF-8 and base64url.
    - [SecureStore] (edge/src/enrollment/secure-store.ts), [SecureStoreSpec]: the sealed files of
      secrets and the fingerprint pins of stations.
    - [TrustedTime] (edge/src/iam/trusted-time.ts), [TrustedTimeSpec]: the signed clock of the
      edge, its anchor, and the lock that a clock set back causes.
    - [EdgeSecurity] (edge/src/db/enrollment-persistence.ts, iam-persistence.ts, hashing and
      redaction of edge/src/security/crypto.ts): the tables of devices, credentials, tokens,
      throttling and security events, and their repositories; [SecurityAuditSpec]: the chain
      of security events.
    - [Tokens] (edge/src/iam/session-token.ts, the pairing and station tokens of crypto.ts):
      signing, parsing and checking of tokens.
    - [Iam] (edge/src/iam/lockout-manager.ts, offline-iam-service.ts, core/src/iam): sign-in by
      badge and PIN, sessions, cloud tokens and supervisor elevation.  A sign-in is two steps,
      parted where it awaits Argon2.  [Triples] are rules for what a program leaves alone,
      [IamFrames] those of the service, [IamSample] a service that runs in the witnesses;
      [LockoutSpec], [BruteForce], [SessionSpec] are its theorems.
    - [Enrollment] (edge/src/enrollment/pairing-store.ts, enrollment-server.ts),
      [EnrollmentSpec]: pairing, enrolment and rotation of stations.
    - [Doubles]: the JavaScript numbers that amounts of invoices pass through.
    - [FiscalTypes] (billing/src/types.ts, rfc-validator.ts, invoice-lifecycle.ts,
      tax-calculator.ts), [Cfdi] (cfdi-xml.ts, csd-signer.ts), [Tfd] (xml-validator.ts), [Pac]
      (pac-connector.ts): rows and taxes, the document and its seal, the certificate that the
      PAC answers, and what the PAC may be used for.
    - [Invoicing], [Drafts] (PostgresBillingService of cloud-server/src/index.ts): stamping and
      cancelling, two transactions each with the call of the PAC between them; the issuer and
      drafts.  [InvoicingFrames] says what the transactions leave alone, [InvoicingSample] is a
      service that runs; [DraftsSpec], [InvoicingSpec] are the theorems.

    ** How the code is represented

    A method that can throw and write is a program of the monad [M S PosError]: it takes the
    state, and returns it with a result or an error; the state survives a throw unless a
    transaction restores it, as in the source.  A synchronous method is one program; a
    Promise that is awaited is the program itself, and [PosTypes.MaybePromise] keeps a promise
    that is not awaited apart, because one of the findings rests on that difference.  Ports are type
    classes over the state [S]; services are Sections generic in [S] and in the ports, so
    that the theorems of the dining service hold of any repository satisfying [DiningLaws],
    and SQLite is one instance ([SqliteDiningLaws]).

    The database is a record of tables ([EdgeDb.Db]).  A table only read by primary key is a
    [gmap] from that key; a table that is listed is a list in rowid order, and ORDER BY is a
    stable insertion sort.  Primary, UNIQUE and REFERENCES constraints are tests that throw,
    the version guards of UPDATE statements are [update_cas].  Clocks and random identifiers
    are arguments of the operations that draw them.  Amounts are bigints in the source and
    [Z] here; no width is lost in the services.

    The cloud services work on PostgreSQL.  A method runs in one transaction that takes
    advisory locks before it reads, so runs that touch the same rows are serial; it is one
    step on the tables ([Leases], [AuditTrail], [Kardex], [Procurement] and [Finance] say which
    lock makes it so), and
    [withTenantTransaction] restores the tables on a throw.

    Most loops run over a list or over the digits of a number and need no fuel.  Six
    recursions have it: the draining of the reordering buffer, with the rows it still holds
    ([IngestionSpec.drain_ends]); the stack machine of [Json.canonicalize], for which [Json.turns] is
    exact; the passes of the print queue ([KitchenSpec]), bounded by the attempts left;
    the recursion through sub-recipes, for which one more than the number of recipes is
    enough ([RecipesSpec.explosion_is_unfolding]); [JsonText.parse], whose every step
    reads a character of the text, so that [JsonText.parse_fuel] is more than it can use; and
    [Cfdi.removeAll], which also reads a character at every step and gets the length of the
    text.  Running out of fuel is a separate result, except in the last, and the theorems
    exclude it, so each theorem about a result also says that there is one.

    ** What is proved

    - Money: [roundDiv] is exact half-away-from-zero division; decimal strings round-trip;
      line amounts are within half a ten-thousandth; splits conserve every amount.
    - Dining: commands refine an abstract machine [DiningSpec.dstep]; an open account holds
      its table; closed accounts are final; versions serialise edits, so no update is lost;
      stored totals equal the sums of the stored lines, bill splits and tenders apart.
    - Cash shifts: requests refine [CashShiftSpec.ledger_step]; one open shift per station;
      the count and the Corte Z agree with the movements; shifts only move forward.
    - Payments: with tenders interleaved await by await with everything else, no account is
      overpaid, retries write nothing, and a settlement is all or nothing.
    - Transactions: a mutation and its events commit together or not at all.
    - Folios: however grants, installations, consumptions, revocations and zombies
      interleave, no folio is issued twice; a lease drains in order to its end.
    - Kitchen: as long as comandas do not reuse line identifiers, tickets stay well formed and
      screens rebuilt from events equal the tables; a ticket is transmitted at most the
      configured number of times; the queue drains.
    - Audit: canonical texts determine values; logged streams verify, as long as the columns do
      not rewrite what was hashed; a checkpoint accepts no other slice without a SHA-256 collision; redacted metadata holds no secret.
    - Stock: every aggregate is a gap-free running balance; retries write nothing; an order is
      depleted once and as a whole, and where recipes have unit yields by what
      (consumed / yield) * quantity requires; explosion equals the unfolding of the recipe.
    - Synchronisation: every stream is applied exactly once and in order; the order of delivery
      does not matter; a retry is answered with its receipt; a row the edge marks SYNCED is
      applied in the cloud.
    - Integration outbox: an event is published once or given up with exactly one dead letter
      after six failures; a claim is exclusive for its two minutes.
    - Procurement: orders, receipts, lines and events agree; statuses tell what was received;
      no order is exceeded unless a receipt names an item twice; retries of receipts are
      answered with what was stored.
    - Finance: balances are totals less transactions; nothing is paid, reversed or reconciled
      twice; retries of payments write nothing; payables are exactly those of receipts with a
      positive total, however often and in whatever order their events are delivered.
    - Sign-in: sessions come from sign-ins that gave the PIN, and last twelve hours of the
      trusted clock; the lockout refines a small lock machine, and one station's sequential
      guesses at sign-in are bounded by it; a restart resumes from the last signed time; the security
      audit is one chain that verifies.
    - Enrolment: a pairing token enrols one station, once; a secret survives its sealed file
      exactly when it is UTF-8.
    - Invoicing: totals added with doubles are the exact sums of the lines; however requests
      and late answers interleave, an operation submits one document, a submission without
      an answer is repeated only with a licence, and every UUID of an invoice is that of a
      certificate of a recorded document.
    - Findings: theorems exhibit behaviour the code does not intend
      ([DiningSpec.dining_pins_unchecked_in_production],
      [PaymentSpec.late_cash_sale_escapes_count], [SyncSpec.late_corte_z_waits_forever],
      [BruteForce.parallel_guesses_escape_lockout],
      [BruteForce.supervisor_guesses_are_unlimited], [SecureStoreSpec.secret_survives_iff_utf8],
      [EnrollmentSpec.station_tokens_survive_one_rotation],
      [InvoicingSpec.two_keys_stamp_one_invoice_twice],
      [InvoicingSpec.late_answer_revives_a_cancelled_invoice],
      [InvoicingSpec.refused_stamping_stays_in_flight],
      [InvoicingSpec.stamped_without_subscribers_is_not_recorded]), and
      examples run more ([DiningSpec.closing_as_open_is_no_step],
      [KitchenSpec.reused_line_id_breaks_the_tables],
      [AuditTrailSpec.array_strings_are_not_masked],
      [AuditTrailSpec.capital_actor_breaks_the_chain],
      [KardexSpec.yield_is_divided_twice], [KardexSpec.empty_order_is_published_again],
      [IngestionSpec.capital_letters_break_retries],
      [DispatchSpec.unanswered_claims_are_not_counted],
      [ProcurementSpec.one_receipt_can_exceed_the_order], [FinanceSpec.free_receipt_is_refused],
      [Cfdi.printed_lines_do_not_add_up]).

    ** What is not modelled

    Messages of errors; faults of the database drivers themselves and the 64-bit range of
    INTEGER columns; strings with code units above 255; interleavings inside one operation of
    the shift service (its awaits are on a synchronous adapter) and print runs that overlap;
    foreign keys to catalogue tables and row-level security, which the WHERE clauses repeat;
    SHA-256, HMAC, Ed25519, AES-GCM, Argon2, the printer transport, the modifier resolver and
    the policies of prices, credit and due dates, which are arguments.

    The rest of the repository is left out for what it is: HTTP routing and DTO serialisation
    (fastify-app.ts, the HTTP side of the cloud server) hand their requests to the services
    above, and only the transaction around the mutating dining routes is modelled
    ([DiningSpec.serve]); sockets, timers, checkpoints and catalogue deltas of synchronisation
    move rows whose meaning is in [Ingestion] and [EdgeSync]; certificates, TLS, the client of
    a station and its discovery are calls of node:crypto, node:tls and mDNS; the cloud
    database layer and its migrations are SQL, repeated in the tables of each component;
    of invoicing, the tax schemes and the batches of global invoices (rows that arrive from
    elsewhere), the getters, the error sanitizer, the XML parser and the vault of keys, which
    are arguments, and the mock connectors; the inbox of event consumers; loyalty and delivery
    are services over interfaces without an implementation that keeps state; the front ends
    render. *)
From stdpp Require Export base tactics list strings gmap sorting.
From Stdlib Require Export ZArith Lia.
From Stdlib Require Import Ascii String.
Open Scope string_scope.
Open Scope list_scope.
Open Scope Z_scope.


(** * Results and the state-and-exception monad

    A TypeScript function that can throw is a value of [result E A].  A method
    that also writes the database is a [M S E A]: the state *survives* a throw,
    as it does in the source, unless a transaction restores it. *)

Inductive result (E A : Type) : Type :=
| Ok (a : A)
| Err (e : E).
Arguments Ok {E A} _.
Arguments Err {E A} _.

Definition result_map {E A B} (f : A → B) (r : result E A) : result E B :=
  match r with Ok a => Ok (f a) | Err e => Err e end.

Definition result_bind {E A B} (r : result E A) (k : A → result E B) : result E B :=
  match r with Ok a => k a | Err e => Err e end.

Lemma result_bind_ok {E A B} (r : result E A) (k : A → result E B) b : result_bind r k = Ok b ↔ ∃ a, r = Ok a ∧ k a = Ok b.
Proof. destruct r; naive_solver. Qed.
Lemma result_map_ok {E A B} (f : A → B) (r : result E A) b : result_map f r = Ok b ↔ ∃ a, r = Ok a ∧ b = f a.
Proof. destruct r; naive_solver. Qed.

Definition M (S E A : Type) : Type := S → S * result E A.

#[export] Instance M_ret S E : MRet (M S E) := λ A a s, (s, Ok a).
#[export] Instance M_bind S E : MBind (M S E) := λ A B k m s,
  match m s with (s', Ok a) => k a s' | (s', Err e) => (s', Err e) end.
#[export] Instance M_throw S E : MThrow E (M S E) := λ A e s, (s, Err e).

(** [if (b) throw e;] *)
Definition throw_when {S E} (b : bool) (e : E) : M S E unit :=
  if b then mthrow e else mret tt.

(** [const x = f(db);] for a read-only query *)
Definition gets {S E A} (f : S → A) : M S E A := λ s, (s, Ok (f s)).

(** one write statement *)
Definition modify {S E} (f : S → S) : M S E unit := λ s, (f s, Ok tt).

(** [if (!x) throw e;] followed by uses of [x] as non-null *)
Definition require {S E A} (o : option A) (e : E) : M S E A :=
  match o with Some a => mret a | None => mthrow e end.

Definition lift {S E A} (r : result E A) : M S E A :=
  λ s, (s, r).

(** [for (const x of l) { f(x); }] *)
Fixpoint for_each {S E A} (f : A → M S E unit) (l : list A) : M S E unit :=
  match l with
  | [] => mret tt
  | x :: l' => f x ;; for_each f l'
  end.

(** ** Reasoning about runs of the monad *)

Ltac destruct_exists :=
  repeat match goal with
  | H : ∃ _, _ |- _ => destruct H as [? H]
  | H : _ ∧ _ |- _ => destruct H as [? H]
  end.

Section monad_laws.
Context {S E : Type}.
Implicit Types s : S.

Lemma bind_ok {A B} (m : M S E A) (k : A → M S E B) s s' b :
  (m ≫= k) s = (s', Ok b) ↔ ∃ a s1, m s = (s1, Ok a) ∧ k a s1 = (s', Ok b).
Proof.
  unfold mbind, M_bind. destruct (m s) as [s1 [a|e]]; split;
    intros; destruct_exists; simplify_eq; eauto.
Qed.

Lemma bind_err {A B} (m : M S E A) (k : A → M S E B) s s' e :
  (m ≫= k) s = (s', Err e) ↔
  m s = (s', Err e) ∨ ∃ a s1, m s = (s1, Ok a) ∧ k a s1 = (s', Err e).
Proof.
  unfold mbind, M_bind. destruct (m s) as [s1 [a|e']]; split;
    intros; destruct_or?; destruct_exists; simplify_eq; eauto 6.
Qed.

Lemma bind_run_ok {A B} (m : M S E A) (k : A → M S E B) s s1 a :
  m s = (s1, Ok a) → (m ≫= k) s = k a s1.
Proof. intros H. unfold mbind, M_bind. by rewrite H. Qed.

Lemma bind_run_err {A B} (m : M S E A) (k : A → M S E B) s s1 e :
  m s = (s1, Err e) → (m ≫= k) s = (s1, Err e).
Proof. intros H. unfold mbind, M_bind. by rewrite H. Qed.

Lemma run_ret {A} (a : A) s : (mret a : M S E A) s = (s, Ok a).
Proof. done. Qed.

Lemma run_throw {A} (e : E) s : (mthrow e : M S E A) s = (s, Err e).
Proof. done. Qed.

Lemma bind_ret {A B} (a : A) (k : A → M S E B) s : (mret a ≫= k) s = k a s.
Proof. done. Qed.

Lemma bind_throw {A B} (e : E) (k : A → M S E B) s :
  ((mthrow e : M S E A) ≫= k) s = (s, Err e).
Proof. done. Qed.

Lemma bind_gets {A B} (f : S → A) (k : A → M S E B) s : (gets f ≫= k) s = k (f s) s.
Proof. done. Qed.

Lemma bind_modify {B} (f : S → S) (k : unit → M S E B) s :
  (modify f ≫= k) s = k tt (f s).
Proof. done. Qed.

Lemma bind_throw_when {B} b e (k : unit → M S E B) s :
  (throw_when b e ≫= k) s = if b then (s, Err e) else k tt s.
Proof. by destruct b. Qed.

Lemma bind_require {A B} (o : option A) e (k : A → M S E B) s :
  (require o e ≫= k) s = match o with Some a => k a s | None => (s, Err e) end.
Proof. by destruct o. Qed.

Lemma bind_lift {A B} (r : result E A) (k : A → M S E B) s :
  (lift r ≫= k) s = match r with Ok a => k a s | Err e => (s, Err e) end.
Proof. by destruct r. Qed.

Lemma bind_assoc {A B C} (m : M S E A) (k : A → M S E B) (h : B → M S E C) s :
  ((m ≫= k) ≫= h) s = (m ≫= λ a, k a ≫= h) s.
Proof. unfold mbind, M_bind. by destruct (m s) as [? [?|?]]. Qed.

Lemma bind_ext {A B} (m m' : M S E A) (k k' : A → M S E B) s :
  (∀ s, m s = m' s) → (∀ a s, k a s = k' a s) → (m ≫= k) s = (m' ≫= k') s.
Proof. intros Hm Hk. unfold mbind, M_bind. rewrite Hm. by destruct (m' s) as [? [?|?]]. Qed.

Lemma run_for_each_nil {A} (f : A → M S E unit) s : for_each f [] s = (s, Ok tt).
Proof. done. Qed.

Lemma run_for_each_cons {A} (f : A → M S E unit) x l s :
  for_each f (x :: l) s = (f x ≫= λ _, for_each f l) s.
Proof. done. Qed.
End monad_laws.

Create Rewrite HintDb mrun.
#[export] Hint Rewrite @run_ret @run_throw @bind_ret @bind_throw @bind_gets @bind_modify
  @bind_throw_when @bind_require @bind_lift @bind_assoc : mrun.

(** [mrun] executes the read-only prefix of a monadic program applied to a state,
    leaving its guards as nested [if]s and [match]es. *)
Ltac mrun := repeat (progress (autorewrite with mrun; cbv beta)).
Tactic Notation "mrun" "in" hyp(H) :=
  repeat (progress (autorewrite with mrun in H; cbv beta in H)).

(** [minv H] inverts a successful run [H : m s = (s', Ok a)] into its steps: guards
    become negated conditions, reads are resolved, writes stay as sub-runs. *)
Ltac minv_step H :=
  lazymatch type of H with
  | (mret _) _ = (_, Ok _) => rewrite run_ret in H; injection H as ? ?
  | (mthrow _) _ = (_, Ok _) => rewrite run_throw in H; discriminate H
  | (modify _) _ = _ => unfold modify in H; injection H as ? ?
  | (gets _) _ = _ => unfold gets in H; injection H as ? ?
  | (throw_when ?b _ ≫= _) _ = _ =>
      rewrite bind_throw_when in H;
      let Hb := fresh "Hguard" in
      destruct b eqn:Hb; [discriminate H|]
  | (mret _ ≫= _) _ = _ => rewrite bind_ret in H
  | (mthrow _ ≫= _) _ = _ => rewrite bind_throw in H
  | (gets _ ≫= _) _ = _ => rewrite bind_gets in H
  | (modify _ ≫= _) _ = _ => rewrite bind_modify in H
  | (require (Some _) _ ≫= _) _ = _ => rewrite bind_require in H
  | (require ?o _ ≫= _) _ = _ =>
      rewrite bind_require in H;
      let x := fresh "found" in let Hb := fresh "Hfound" in
      destruct o as [x|] eqn:Hb; [|discriminate H]
  | (lift ?r ≫= _) _ = _ =>
      rewrite bind_lift in H;
      let x := fresh "val" in let Hb := fresh "Hval" in
      destruct r as [x|] eqn:Hb; [|discriminate H]
  | ((_ ≫= _) ≫= _) _ = _ => rewrite bind_assoc in H
  | (_ ≫= _) _ = (_, Ok _) =>
      apply bind_ok in H;
      let x := fresh "r" in let s := fresh "s" in let Hs := fresh "Hstep" in
      destruct H as (x & s & Hs & H)
  | (if ?b then _ else _) _ = _ =>
      let Hb := fresh "Hcond" in destruct b eqn:Hb
  | (match ?o with Some _ => _ | None => _ end) _ = _ =>
      let Hb := fresh "Hopt" in destruct o eqn:Hb
  | (match ?p with (_, _) => _ end) _ = _ => destruct p as [? ?]
  | (_, Ok _) = (_, Ok _) => injection H as ? ?
  | (_, Err _) = (_, Ok _) => discriminate H
  end; cbv beta in H || idtac.
Ltac minv H := repeat (minv_step H); subst.

(** [run_head H E] runs the first step [m] of [H : (m ≫= k) s = _], recorded as [E], into
    the case where it succeeds and the case where its error is the result *)
Ltac run_head H E :=
  lazymatch type of H with
  | (?m ≫= _) ?s = _ =>
      let s1 := fresh "s" in let a := fresh "r" in let e := fresh "e" in
      destruct (m s) as [s1 [a|e]] eqn:E;
      [ rewrite (bind_run_ok _ _ _ _ _ E) in H
      | rewrite (bind_run_err _ _ _ _ _ E) in H; injection H as ? ? ]
  end.

(** * Record update

    [r <| proj := v |>] is the object spread [{ ...r, proj: v }].  A record type
    opens the notation by an [Eta] instance that rebuilds a value from its
    projections. *)

Class Eta (R : Type) := eta : R → R.
Class Setter {R T : Type} (proj : R → T) := set : (T → T) → R → R.
#[global] Arguments set {R T} proj {_} f r : simpl nomatch.

Ltac solve_setter :=
  lazymatch goal with
  | |- @Setter ?R ?T ?proj =>
      let i := constr:(_ : Eta R) in
      let f := fresh "f" in let r := fresh "r" in
      refine (fun f r => _);
      let b := eval hnf in (@eta R i r) in
      lazymatch b with
      | context C [proj r] => let t := context C [f (proj r)] in exact t
      end
  end.
#[global] Hint Extern 1 (Setter _) => solve_setter : typeclass_instances.

Declare Scope record_scope.
Open Scope record_scope.
Notation "r <| proj := v |>" := (set proj (λ _, v) r)
  (at level 1, left associativity) : record_scope.
Notation "r <| proj ::= f |>" := (set proj f r)
  (at level 1, left associativity) : record_scope.

(** * Sums and list facts shared by the components *)

(** [l.reduce((acc, x) => acc + f(x), 0n)], as a mathematical sum; the source's
    left folds are related to it by [foldl_sumZ]. *)
Definition sumZ {A} (f : A → Z) (l : list A) : Z := foldr (λ x acc, f x + acc) 0 l.

Section sums.
Context {A : Type}.
Implicit Types (f g : A → Z) (l : list A).

Lemma foldl_sumZ f l z : foldl (λ acc x, acc + f x) z l = z + sumZ f l.
Proof.
  revert z. induction l as [|x l IH]; intros z; simpl; [lia|]. rewrite IH. unfold sumZ; simpl; lia.
Qed.

Lemma sumZ_nil f : sumZ f [] = 0.
Proof. done. Qed.

Lemma sumZ_cons f x l : sumZ f (x :: l) = f x + sumZ f l.
Proof. done. Qed.

Lemma sumZ_app f l1 l2 : sumZ f (l1 ++ l2) = sumZ f l1 + sumZ f l2.
Proof. induction l1 as [|x l1 IH]; simpl; rewrite ?sumZ_cons, ?sumZ_nil; [done|]. simpl. rewrite IH. lia. Qed.

Lemma sumZ_snoc f l x : sumZ f (l ++ [x]) = sumZ f l + f x.
Proof. rewrite sumZ_app, sumZ_cons, sumZ_nil. lia. Qed.

Lemma sumZ_ext f g l : (∀ x, x ∈ l → f x = g x) → sumZ f l = sumZ g l.
Proof.
  induction l as [|x l IH]; intros H; [done|]. rewrite !sumZ_cons.
  rewrite (H x), IH by set_solver. done.
Qed.

Lemma sumZ_add f g l : sumZ (λ x, f x + g x) l = sumZ f l + sumZ g l.
Proof. induction l as [|x l IH]; [done|]. rewrite !sumZ_cons, IH. lia. Qed.

Lemma sumZ_sub f g l : sumZ (λ x, f x - g x) l = sumZ f l - sumZ g l.
Proof. induction l as [|x l IH]; [done|]. rewrite !sumZ_cons, IH. lia. Qed.

Lemma sumZ_nonneg f l : (∀ x, x ∈ l → 0 ≤ f x) → 0 ≤ sumZ f l.
Proof.
  induction l as [|x l IH]; intros H; [done|]. rewrite sumZ_cons.
  pose proof (H x ltac:(set_solver)). assert (0 ≤ sumZ f l) by (apply IH; set_solver). lia.
Qed.

Lemma sumZ_permutation f l1 l2 : l1 ≡ₚ l2 → sumZ f l1 = sumZ f l2.
Proof. induction 1; rewrite ?sumZ_cons; lia. Qed.

Lemma sumZ_filter_split f (P : A → Prop) `{!∀ x, Decision (P x)} l :
  sumZ f l = sumZ f (filter P l) + sumZ f (filter (λ x, ¬ P x) l).
Proof.
  induction l as [|x l IH]; [done|]. rewrite sumZ_cons, !filter_cons.
  repeat case_decide; try done; rewrite ?sumZ_cons; lia.
Qed.

Lemma sumZ_if f (P : A → Prop) `{!∀ x, Decision (P x)} l :
  sumZ (λ x, if decide (P x) then f x else 0) l = sumZ f (filter P l).
Proof.
  induction l as [|x l IH]; [done|]. rewrite sumZ_cons, filter_cons, IH.
  case_decide; [by rewrite sumZ_cons | lia].
Qed.
End sums.

#[global] Instance sumZ_proper {A} (f : A → Z) : Proper ((≡ₚ) ==> (=)) (sumZ f).
Proof. intros l1 l2. apply sumZ_permutation. Qed.

Lemma sumZ_fmap {A B} (f : B → Z) (g : A → B) l : sumZ f (g <$> l) = sumZ (λ x, f (g x)) l.
Proof. induction l as [|x l IH]; [done|]. by rewrite fmap_cons, !sumZ_cons, IH. Qed.

Create Rewrite HintDb sums.
#[export] Hint Rewrite @sumZ_nil @sumZ_cons @sumZ_app @sumZ_fmap @foldl_sumZ : sums.

Lemma filter_none {A} (P : A → Prop) `{!∀ x, Decision (P x)} l : (∀ x, x ∈ l → ¬ P x) → filter P l = [].
Proof.
  induction l as [|x l IH]; intros Hl; [done|]. rewrite filter_cons, decide_False by (apply Hl; set_solver).
  apply IH. set_solver.
Qed.

Lemma filter_all {A} (P : A → Prop) `{!∀ x, Decision (P x)} (l : list A) : (∀ x, x ∈ l → P x) → filter P l = l.
Proof.
  induction l as [|x l IH]; intros Hl; [done|]. rewrite filter_cons_True by (apply Hl; by left). f_equal. apply IH. intros y Hy. apply Hl. by right.
Qed.

Lemma filter_ext_elem {A} (P Q : A → Prop) `{!∀ x, Decision (P x), !∀ x, Decision (Q x)} (l : list A) :
  (∀ x, x ∈ l → P x ↔ Q x) → filter P l = filter Q l.
Proof.
  induction l as [|x l IH]; intros Hl; [done|]. rewrite !filter_cons, IH by (intros y Hy; apply Hl; by right).
  pose proof (Hl x ltac:(by left)). destruct (decide (P x)), (decide (Q x)); tauto.
Qed.

Lemma NoDup_snoc {A} (l : list A) x : NoDup l → x ∉ l → NoDup (l ++ [x]).
Proof. intros Hl Hx. apply NoDup_app. split_and!; [done|set_solver|apply NoDup_singleton]. Qed.

Lemma NoDup_fmap_unique {A B} (f : A → B) (l : list A) x y : NoDup (f <$> l) → x ∈ l → y ∈ l → f x = f y → x = y.
Proof.
  intros Hn [i Hi]%list_elem_of_lookup [j Hj]%list_elem_of_lookup Hf.
  assert (i = j) as ->; [|congruence]. eapply NoDup_lookup; [exact Hn|..]; rewrite list_lookup_fmap, ?Hi, ?Hj; simpl; by rewrite ?Hf.
Qed.

Lemma list_fmap_eq_Forall2 {A B C} (f : A → C) (g : B → C) (l : list A) (k : list B) : Forall2 (λ x y, f x = g y) l k → f <$> l = g <$> k.
Proof. induction 1 as [|x y l k Hxy _ IH]; [done|]. rewrite !fmap_cons. by f_equal. Qed.

Lemma NoDup_fmap_filter {A B} (f : A → B) (P : A → Prop) `{!∀ x, Decision (P x)} l :
  NoDup (f <$> l) → NoDup (f <$> filter P l).
Proof.
  induction l as [|x l IH]; [done|]. rewrite fmap_cons, filter_cons. intros [Hx Hl]%NoDup_cons.
  case_decide; [|auto]. rewrite fmap_cons. apply NoDup_cons. split; [|auto].
  intros (y & Hy & [_ Hin]%list_elem_of_filter)%list_elem_of_fmap. apply Hx. rewrite Hy.
  by apply list_elem_of_fmap_2.
Qed.

(** [bool_decide] conditions as propositions, for guards inverted by [minv]. *)
Ltac simpl_guards :=
  repeat match goal with
  | H : bool_decide _ = true |- _ => apply bool_decide_eq_true in H
  | H : bool_decide _ = false |- _ => apply bool_decide_eq_false in H
  | H : negb _ = true |- _ => apply negb_true_iff in H
  | H : negb _ = false |- _ => apply negb_false_iff in H
  | H : _ || _ = false |- _ => apply orb_false_iff in H as [? ?]
  | H : _ && _ = true |- _ => apply andb_true_iff in H as [? ?]
  | H : (_ =? _) = true |- _ => apply Z.eqb_eq in H
  | H : (_ =? _) = false |- _ => apply Z.eqb_neq in H
  | H : (_ <? _) = true |- _ => apply Z.ltb_lt in H
  | H : (_ <? _) = false |- _ => apply Z.ltb_ge in H
  | H : (_ <=? _) = true |- _ => apply Z.leb_le in H
  | H : (_ <=? _) = false |- _ => apply Z.leb_gt in H
  | H : ¬ (?a ≠ ?b) |- _ => apply dec_stable in H
  end.

(** * JavaScript strings

    A string is modelled by its sequence of code units below 256 ([ascii]). *)

(** the whitespace [String.prototype.trim] strips among those code units:
    TAB, LF, VT, FF, CR, SPACE and NO-BREAK SPACE *)
Definition is_js_space (c : ascii) : bool :=
  let n := N_of_ascii c in
  ((9 <=? n) && (n <=? 13) || (n =? 32) || (n =? 160))%N.

Fixpoint trim_start (s : string) : string :=
  match s with
  | EmptyString => EmptyString
  | String c s' => if is_js_space c then trim_start s' else s
  end.

Fixpoint trim_end (s : string) : string :=
  match s with
  | EmptyString => EmptyString
  | String c s' =>
      match trim_end s' with
      | EmptyString => if is_js_space c then EmptyString else String c EmptyString
      | s'' => String c s''
      end
  end.

(** [s.trim()] *)
Definition trim (s : string) : string := trim_end (trim_start s).

(** [!s || s.trim() === ''] *)
Definition blank (s : string) : bool := bool_decide (trim s = "").

(** [!s] for a [string | null | undefined] *)
Definition truthy (o : option string) : option string :=
  match o with Some "" => None | o => o end.

(** JavaScript errors that are not domain errors *)
Inductive JsError : Type :=
| RangeError (message : string)
| TypeError (message : string)
| PlainError (message : string).

#[global] Instance JsError_eq_dec : EqDecision JsError.
Proof. solve_decision. Defined.
#[global] Instance result_eq_dec {E A} `{EqDecision E, EqDecision A} : EqDecision (result E A).
Proof. solve_decision. Defined.

(** * ORDER BY and sort *)

(** [ORDER BY key ASC]: an insertion sort, stable in rowid order; TEXT compares bytewise *)
Definition insertBy {A} (key : A → string) (x : A) : list A → list A :=
  fix go l :=
    match l with
    | [] => [x]
    | y :: l' => if String.leb (key x) (key y) then x :: y :: l' else y :: go l'
    end.

Definition orderBy {A} (key : A → string) (l : list A) : list A := foldr (insertBy key) [] l.

Lemma insertBy_permutation {A} (key : A → string) x l : insertBy key x l ≡ₚ x :: l.
Proof.
  induction l as [|y l IH]; simpl; [done|]. destruct (String.leb _ _); [done|].
  rewrite IH. by constructor.
Qed.

Lemma orderBy_permutation {A} (key : A → string) l : orderBy key l ≡ₚ l.
Proof.
  induction l as [|x l IH]; simpl; [done|]. by rewrite insertBy_permutation, IH.
Qed.

Lemma elem_of_orderBy {A} (key : A → string) x l : x ∈ orderBy key l ↔ x ∈ l.
Proof. by rewrite orderBy_permutation. Qed.

(** [ORDER BY key ASC] over an INTEGER column, stable in rowid order *)
Definition insertAsc {A} (key : A → Z) (x : A) : list A → list A :=
  fix go l := match l with [] => [x] | y :: l' => if key x <=? key y then x :: y :: l' else y :: go l' end.
Definition orderAsc {A} (key : A → Z) (l : list A) : list A := foldr (insertAsc key) [] l.

(** [ORDER BY key DESC] *)
Definition insertDesc {A} (key : A → Z) (x : A) : list A → list A :=
  fix go l := match l with [] => [x] | y :: l' => if key y <=? key x then x :: y :: l' else y :: go l' end.
Definition orderByDesc {A} (key : A → Z) (l : list A) : list A := foldr (insertDesc key) [] l.

Lemma insertAsc_permutation {A} (key : A → Z) x l : insertAsc key x l ≡ₚ x :: l.
Proof. induction l as [|y l IH]; simpl; [done|]. case_match; [done|]. rewrite IH. by constructor. Qed.
Lemma orderAsc_permutation {A} (key : A → Z) l : orderAsc key l ≡ₚ l.
Proof. induction l as [|x l IH]; simpl; [done|]. by rewrite insertAsc_permutation, IH. Qed.
Lemma elem_of_orderAsc {A} (key : A → Z) x l : x ∈ orderAsc key l ↔ x ∈ l.
Proof. by rewrite orderAsc_permutation. Qed.

Lemma leb_cons c s d t :
  String.leb (String c s) (String d t) = match Ascii.compare c d with Lt => true | Eq => String.leb s t | Gt => false end.
Proof. unfold String.leb. cbn [String.compare]. by destruct (Ascii.compare c d). Qed.

#[export] Instance leb_trans : Transitive (λ s t, String.leb s t = true).
Proof.
  intros s. induction s as [|c s IH]; intros [|d t] [|e u] H1 H2; try done. rewrite leb_cons in *. unfold Ascii.compare in *.
  destruct (N.compare_spec (N_of_ascii c) (N_of_ascii d)), (N.compare_spec (N_of_ascii d) (N_of_ascii e)),
    (N.compare_spec (N_of_ascii c) (N_of_ascii e)); try done; try lia. by eapply IH.
Qed.

Lemma leb_refl s : String.leb s s = true.
Proof. by destruct (String.leb_total s s). Qed.

Section sorted.
Context {A : Type} (key : A → string).
Definition key_le (x y : A) : Prop := String.leb (key x) (key y) = true.

Lemma insertBy_sorted x l : StronglySorted key_le l → StronglySorted key_le (insertBy key x l).
Proof.
  induction 1 as [|y l Hl IH Hy]; [by repeat constructor|]. simpl. destruct (String.leb (key x) (key y)) eqn:E.
  - constructor; [by constructor|]. constructor; [done|]. eapply Forall_impl; [exact Hy|]. intros z Hz. by eapply leb_trans.
  - constructor; [done|]. rewrite insertBy_permutation. constructor; [|done]. unfold key_le.
    destruct (String.leb_total (key x) (key y)); [congruence|done].
Qed.
Lemma orderBy_sorted l : StronglySorted key_le (orderBy key l).
Proof. induction l as [|x l IH]; [constructor|]. by apply insertBy_sorted. Qed.
Lemma orderBy_id l : StronglySorted key_le l → orderBy key l = l.
Proof.
  induction 1 as [|x l _ IH Hx]; [done|]. unfold orderBy in *. cbn [foldr]. rewrite IH. destruct Hx as [|y l Hx _]; [done|].
  simpl. by rewrite Hx.
Qed.
End sorted.

Lemma StronglySorted_filter {A} (R : A → A → Prop) (P : A → Prop) `{!∀ x, Decision (P x)} l :
  StronglySorted R l → StronglySorted R (filter P l).
Proof.
  induction 1 as [|x l _ IH Hx]; [constructor|]. rewrite filter_cons. case_decide; [|done]. constructor; [done|].
  apply Forall_forall. intros y [_ Hy]%list_elem_of_filter. rewrite Forall_forall in Hx. by apply Hx.
Qed.

Lemma orderAsc_id {A} (key : A → Z) l : StronglySorted (λ x y, key x <= key y) l → orderAsc key l = l.
Proof.
  induction 1 as [|x l _ IH Hx]; [done|]. unfold orderAsc in *. cbn [foldr]. rewrite IH. destruct Hx as [|y l Hx _]; [done|].
  simpl. by rewrite (proj2 (Z.leb_le _ _) Hx).
Qed.

Lemma orderByDesc_reverse {A} (key : A → Z) l : StronglySorted (λ x y, key x < key y) l → orderByDesc key l = reverse l.
Proof.
  induction 1 as [|x l Hl IH Hx]; [done|]. unfold orderByDesc in *. cbn [foldr]. rewrite IH, reverse_cons.
  assert (Hr : Forall (λ y, key x < key y) (reverse l)) by by apply Forall_reverse. clear -Hr.
  induction Hr as [|y l' Hy _ IHr]; [done|]. simpl. destruct (Z.leb_spec (key y) (key x)); [lia|]. f_equal. exact IHr.
Qed.

Lemma seqZ_snoc n : 0 <= n → seqZ 1 n ++ [n + 1] = seqZ 1 (n + 1).
Proof. intros Hn. rewrite seqZ_app by lia. by replace (1 + n) with (n + 1) by lia. Qed.
