(* ===== verification/Decimals.v ===== *)
(** Decimal strings of natural numbers: [BigInt.prototype.toString] and [BigInt(s)]
    on digit strings, [padStart], and the digit tests of the source's regular
    expressions.  Used by the money primitive (Money.v) and by the epoch
    identifiers (Epochs.v). *)
From S2P Require Import Prelude.
From Stdlib Require Import Ascii String DecimalString DecimalN.

(** the character class [\d] *)
Definition is_digit (c : ascii) : bool :=
  let n := N_of_ascii c in ((48 <=? n) && (n <=? 57))%N.

Fixpoint all_digits (s : string) : bool :=
  match s with
  | EmptyString => true
  | String c s' => is_digit c && all_digits s'
  end.

(** longest prefix of digits, and the rest *)
Fixpoint span_digits (s : string) : string * string :=
  match s with
  | EmptyString => (EmptyString, EmptyString)
  | String c s' =>
      if is_digit c then let '(d, r) := span_digits s' in (String c d, r) else (EmptyString, s)
  end.

(** [n.toString()] for a non-negative bigint *)
Definition toString (n : N) : string := NilEmpty.string_of_uint (N.to_uint n).

(** [BigInt(s)] for a string of digits ([BigInt('')] is [0n]) *)
Definition BigInt_of_digits (s : string) : option N :=
  N.of_uint <$> NilEmpty.uint_of_string s.

(** [s.padStart(n, '0')] *)
Definition padStart0 (n : nat) (s : string) : string :=
  Nat.iter (n - String.length s) (String "0") s.

Lemma BigInt_toString n : BigInt_of_digits (toString n) = Some n.
Proof. unfold BigInt_of_digits, toString. rewrite NilEmpty.usu. simpl. by rewrite Unsigned.of_to. Qed.

Lemma BigInt_zero_prefix s : BigInt_of_digits (String "0" s) = BigInt_of_digits s.
Proof.
  unfold BigInt_of_digits. simpl. by destruct (NilEmpty.uint_of_string s).
Qed.

Lemma BigInt_padStart0 n s : BigInt_of_digits (padStart0 n s) = BigInt_of_digits s.
Proof.
  unfold padStart0. induction (n - String.length s)%nat as [|k IH]; [done|].
  simpl. by rewrite BigInt_zero_prefix.
Qed.

Lemma string_of_uint_digits d : all_digits (NilEmpty.string_of_uint d) = true.
Proof. induction d; simpl; try done. Qed.

Lemma toString_digits n : all_digits (toString n) = true.
Proof. apply string_of_uint_digits. Qed.

Lemma toString_nonempty n : toString n ≠ "".
Proof. intros H. pose proof (BigInt_toString n) as Hn. rewrite H in Hn.
  destruct n as [|p]; [by vm_compute in H|]. by vm_compute in Hn.
Qed.

Lemma padStart0_digits n s : all_digits s = true → all_digits (padStart0 n s) = true.
Proof. intros H. unfold padStart0. by induction (n - String.length s)%nat. Qed.

Lemma all_digits_BigInt s : all_digits s = true → is_Some (BigInt_of_digits s).
Proof.
  intros H. unfold BigInt_of_digits. rewrite fmap_is_Some.
  induction s as [|c s IH]; [by eexists|]. simpl in H. apply andb_true_iff in H as [Hc Hs].
  destruct (IH Hs) as [d Hd].
  assert (Hcases : c ∈ ["0";"1";"2";"3";"4";"5";"6";"7";"8";"9"]%char).
  { clear -Hc. destruct c as [[] [] [] [] [] [] [] []]; vm_compute in Hc; try discriminate Hc;
      repeat constructor. }
  simpl. rewrite Hd. clear -Hcases.
  repeat (apply elem_of_cons in Hcases as [->|Hcases]; [by eexists|]). by apply not_elem_of_nil in Hcases.
Qed.

(** splitting a digit string followed by a non-digit *)
Lemma span_digits_app d r :
  all_digits d = true → (∀ c r', r = String c r' → is_digit c = false) →
  span_digits (d +:+ r) = (d, r).
Proof.
  intros Hd Hr. induction d as [|c d IH]; simpl in *.
  - destruct r as [|c r']; [done|]. simpl. by rewrite (Hr c r' eq_refl).
  - apply andb_true_iff in Hd as [-> Hd]. by rewrite IH.
Qed.

Lemma span_digits_spec s d r : span_digits s = (d, r) → s = d +:+ r ∧ all_digits d = true.
Proof.
  revert d r. induction s as [|c s IH]; intros d r; simpl; [by intros [= <- <-]|].
  destruct (is_digit c) eqn:Hc; [|by intros [= <- <-]].
  destruct (span_digits s) as [d' r'] eqn:Hs. intros [= <- <-].
  destruct (IH d' r' eq_refl) as [-> Hd]. simpl. by rewrite Hc.
Qed.

(** four fractional digits: printing below 10000 always gives exactly four *)
Lemma padStart0_length4 n : (n < 10000)%N → String.length (padStart0 4 (toString n)) = 4%nat.
Proof.
  intros H. assert (Hall : forallb (λ k, Nat.eqb (String.length (padStart0 4 (toString (N.of_nat k)))) 4)
    (seq 0 (N.to_nat 10000)) = true) by (vm_compute; reflexivity).
  rewrite forallb_forall in Hall. specialize (Hall (N.to_nat n)).
  rewrite N2Nat.id in Hall. apply Nat.eqb_eq, Hall, in_seq. lia.
Qed.

(** ** Strings without white space *)

Fixpoint noSpace (s : string) : bool :=
  match s with EmptyString => true | String c s' => negb (is_js_space c) && noSpace s' end.

Lemma noSpace_app a b : noSpace (a +:+ b) = noSpace a && noSpace b.
Proof. induction a as [|c a IH]; [done|]. change (String c a +:+ b) with (String c (a +:+ b)). cbn [noSpace]. by rewrite IH, andb_assoc. Qed.

Lemma trim_noSpace s : noSpace s = true → trim s = s.
Proof.
  intros Hs. unfold trim. assert (Hstart : trim_start s = s).
  { destruct s as [|c s]; [done|]. cbn [noSpace] in Hs. apply andb_true_iff in Hs as [Hc _]. apply negb_true_iff in Hc. cbn [trim_start]. by rewrite Hc. }
  rewrite Hstart. clear Hstart. induction s as [|c s IH]; [done|]. cbn [noSpace] in Hs. apply andb_true_iff in Hs as [Hc Hs].
  apply negb_true_iff in Hc. cbn [trim_end]. rewrite (IH Hs). destruct s; [by rewrite Hc|done].
Qed.

Lemma digits_noSpace s : all_digits s = true → noSpace s = true.
Proof.
  induction s as [|c s IH]; [done|]. cbn [all_digits noSpace]. intros [Hc Hs]%andb_true_iff. rewrite (IH Hs), andb_true_r.
  revert Hc. unfold is_digit, is_js_space. clear. destruct c as [[] [] [] [] [] [] [] []]; vm_compute; done.
Qed.
