(* ===== verification/Money.v ===== *)
(** The monetary primitive of packages/core/src/money.ts: scale-4 fixed point on
    [bigint], half-away-from-zero division, the canonical decimal-string format,
    the line-item arithmetic and the [Money] value object.

    A [bigint] is a [Z]; its [/] and [%] truncate toward zero ([Z.quot], [Z.rem]). *)
From S2P Require Import Prelude Decimals.
From Stdlib Require Import Ascii String.

(* money.ts:8-9 SCALE_FACTOR *)
Definition SCALE_FACTOR : Z := 10000.
(* money.ts:15-15 MIN_SCALE4_BIGINT *)
Definition MIN_SCALE4_BIGINT : Z := -999999999999.
(* money.ts:16-16 MAX_SCALE4_BIGINT *)
Definition MAX_SCALE4_BIGINT : Z := 999999999999.

(** the body of [roundDiv] after its zero test *)
(* money.ts:28-33 roundDiv *)
Definition roundDivNonZero (a b : Z) : Z :=
  let sign := if negb (Bool.eqb (a <? 0) (b <? 0)) then -1 else 1 in
  let absA := if a <? 0 then -a else a in
  let absB := if b <? 0 then -b else b in
  let halfB := Z.quot absB 2 in
  let quotient := Z.quot (absA + halfB) absB in
  sign * quotient.

(* money.ts:24-34 roundDiv *)
Definition roundDiv (a b : Z) : result JsError Z :=
  if b =? 0 then Err (RangeError "Division by zero") else Ok (roundDivNonZero a b).

(* money.ts:40-46 scaledBigIntToDecimalString *)
Definition scaledBigIntToDecimalString (scaled : Z) : string :=
  let sign := if scaled <? 0 then "-" else "" in
  let abs := if scaled <? 0 then -scaled else scaled in
  let whole := Z.quot abs SCALE_FACTOR in
  let fraction := Z.rem abs SCALE_FACTOR in
  sign +:+ toString (Z.to_N whole) +:+ "." +:+ padStart0 4 (toString (Z.to_N fraction)).

(** [isNegative = str.startsWith('-')] and [clean = isNegative ? str.slice(1) : str] *)
(* money.ts:59-60 decimalStringToScaledBigInt *)
Definition strip_minus (s : string) : bool * string :=
  match s with
  | String c r => if ascii_dec c "-" then (true, r) else (false, s)
  | EmptyString => (false, s)
  end.

(** /^-?\d+\.\d{4}$/ *)
(* money.ts:18-18 DECIMAL_STRING_REGEX *)
Definition DECIMAL_STRING_REGEX (s : string) : bool :=
  let '(w, r) := span_digits (strip_minus s).2 in
  negb (bool_decide (w = "")) &&
  match r with
  | String c f => if ascii_dec c "." then all_digits f && Nat.eqb (String.length f) 4 else false
  | EmptyString => false
  end.

(** [s.slice(0, i)] and [s.slice(i + 1)] for [i = s.indexOf('.')] *)
(* money.ts:61-63 decimalStringToScaledBigInt *)
Fixpoint split_dot (s : string) : string * string :=
  match s with
  | EmptyString => (EmptyString, EmptyString)
  | String c s' =>
      if ascii_dec c "." then (EmptyString, s')
      else let '(w, f) := split_dot s' in (String c w, f)
  end.

(* money.ts:82-84 isValidScale4Range *)
Definition isValidScale4Range (amountScale4 : Z) : bool :=
  (MIN_SCALE4_BIGINT <=? amountScale4) && (amountScale4 <=? MAX_SCALE4_BIGINT).

(* money.ts:52-77 decimalStringToScaledBigInt *)
Definition decimalStringToScaledBigInt (str : string) : result JsError Z :=
  if negb (DECIMAL_STRING_REGEX str) then Err (TypeError "Invalid canonical decimal string format")
  else
    let '(isNegative, clean) := strip_minus str in
    let '(wholeStr, fracStr) := split_dot clean in
    match BigInt_of_digits wholeStr, BigInt_of_digits fracStr with
    | Some whole, Some fraction =>
        let scaled := Z.of_N whole * SCALE_FACTOR + Z.of_N fraction in
        let res := if isNegative then -scaled else scaled in
        if (res <? MIN_SCALE4_BIGINT) || (MAX_SCALE4_BIGINT <? res)
        then Err (RangeError "exceeds canonical scale-4 range") else Ok res
    | _, _ => Err (PlainError "SyntaxError")
    end.

(* money.ts:89-91 calculateLineSubtotal *)
Definition calculateLineSubtotal (unitPriceScale4 quantityScale4 : Z) : Z :=
  roundDivNonZero (unitPriceScale4 * quantityScale4) SCALE_FACTOR.

(* money.ts:93-98 calculateNetSubtotal *)
Definition calculateNetSubtotal (lineSubtotalScale4 discountAmountScale4 : Z) : Z :=
  lineSubtotalScale4 - discountAmountScale4.

(* money.ts:100-102 calculateTaxAmount *)
Definition calculateTaxAmount (netSubtotalScale4 taxRateScale4 : Z) : Z :=
  roundDivNonZero (netSubtotalScale4 * taxRateScale4) SCALE_FACTOR.

(* money.ts:104-106 calculateLineTotal *)
Definition calculateLineTotal (netSubtotalScale4 taxAmountScale4 : Z) : Z :=
  netSubtotalScale4 + taxAmountScale4.

(** the value object; its constructor is private and checks the range *)
Module Money.
(* money.ts:111-112 Money *)
Record t := Build { amountScale4 : Z }.

(* money.ts:114-121 Money.constructor *)
Definition new (amount : Z) : result JsError t :=
  if negb (isValidScale4Range amount)
  then Err (RangeError "exceeds canonical scale-4 range") else Ok (Build amount).

(* money.ts:123-125 Money.fromScale4 *)
Definition fromScale4 (amount : Z) : result JsError t := new amount.
(* money.ts:127-129 Money.fromDecimalString *)
Definition fromDecimalString (str : string) : result JsError t :=
  result_bind (decimalStringToScaledBigInt str) new.
(* money.ts:131-133 Money.zero *)
Definition zero : result JsError t := new 0.
(* money.ts:135-137 Money.plus *)
Definition plus (m other : t) : result JsError t := new (amountScale4 m + amountScale4 other).
(* money.ts:139-141 Money.minus *)
Definition minus (m other : t) : result JsError t := new (amountScale4 m - amountScale4 other).
(* money.ts:143-145 Money.times *)
Definition times (m : t) (quantityScale4 : Z) : result JsError t :=
  new (calculateLineSubtotal (amountScale4 m) quantityScale4).
(* money.ts:147-149 Money.divide *)
Definition divide (m : t) (divisor : Z) : result JsError t :=
  result_bind (roundDiv (amountScale4 m) divisor) new.
(* money.ts:151-153 Money.toDecimalString *)
Definition toDecimalString (m : t) : string := scaledBigIntToDecimalString (amountScale4 m).
(* money.ts:155-157 Money.equals *)
Definition equals (m other : t) : bool := amountScale4 m =? amountScale4 other.
(* money.ts:171-175 Money.compare *)
Definition compare (m other : t) : Z :=
  if amountScale4 m <? amountScale4 other then -1
  else if amountScale4 other <? amountScale4 m then 1 else 0.
End Money.

(** ** Lemmas *)

Lemma roundDiv_nonzero a b : b ≠ 0 → roundDiv a b = Ok (roundDivNonZero a b).
Proof. intros H. unfold roundDiv. by rewrite (proj2 (Z.eqb_neq b 0) H). Qed.

(** the division of magnitudes, before the sign is put back *)
Lemma magnitude_div_spec A B :
  0 <= A → 0 < B →
  let q := Z.quot (A + Z.quot B 2) B in
  0 <= q ∧ 2 * Z.abs (A - B * q) <= B ∧ (2 * Z.abs (A - B * q) = B → A < B * q).
Proof.
  intros HA HB q. subst q.
  rewrite (Z.quot_div_nonneg B 2) by lia.
  rewrite Z.quot_div_nonneg by (try apply Z.add_nonneg_nonneg; try apply Z.div_pos; lia).
  pose proof (Z.div_mod B 2 ltac:(lia)). pose proof (Z.mod_pos_bound B 2 ltac:(lia)).
  set (h := B / 2) in *.
  pose proof (Z.div_mod (A + h) B ltac:(lia)). pose proof (Z.mod_pos_bound (A + h) B ltac:(lia)).
  assert (0 <= (A + h) / B) by (apply Z.div_pos; lia). lia.
Qed.

Lemma roundDivNonZero_spec a b :
  b ≠ 0 →
  2 * Z.abs (a - roundDivNonZero a b * b) <= Z.abs b ∧
  (2 * Z.abs (a - roundDivNonZero a b * b) = Z.abs b → Z.abs a < Z.abs (roundDivNonZero a b * b)).
Proof.
  intros Hb. unfold roundDivNonZero.
  destruct (Z.ltb_spec a 0), (Z.ltb_spec b 0); simpl.
  - pose proof (magnitude_div_spec (-a) (-b)) as Hq. cbv zeta in Hq.
    set (q := Z.quot _ _) in *. lia.
  - pose proof (magnitude_div_spec (-a) b) as Hq. cbv zeta in Hq.
    set (q := Z.quot _ _) in *. lia.
  - pose proof (magnitude_div_spec a (-b)) as Hq. cbv zeta in Hq.
    set (q := Z.quot _ _) in *. lia.
  - pose proof (magnitude_div_spec a b) as Hq. cbv zeta in Hq.
    set (q := Z.quot _ _) in *. lia.
Qed.

(** the two conditions of half-away-from-zero rounding leave one integer *)
Lemma half_away_unique a b r1 r2 :
  b ≠ 0 →
  2 * Z.abs (a - r1 * b) <= Z.abs b → (2 * Z.abs (a - r1 * b) = Z.abs b → Z.abs a < Z.abs (r1 * b)) →
  2 * Z.abs (a - r2 * b) <= Z.abs b → (2 * Z.abs (a - r2 * b) = Z.abs b → Z.abs a < Z.abs (r2 * b)) →
  r1 = r2.
Proof.
  intros Hb H1 H1' H2 H2'. destruct (decide (r1 = r2)) as [|Hne]; [done|exfalso].
  assert (Hd : Z.abs b <= Z.abs ((r1 - r2) * b)) by (rewrite Z.abs_mul; nia).
  assert (Hfar : ∀ r, Z.abs a < Z.abs (r * b) → Z.abs b <= Z.abs (r * b)).
  { intros r Hr. rewrite Z.abs_mul in *. nia. }
  pose proof (Hfar r1). pose proof (Hfar r2). lia.
Qed.

(** ** Decimal strings *)

Lemma split_dot_digits w f :
  all_digits w = true → split_dot (w +:+ String "." f) = (w, f).
Proof.
  induction w as [|c w IH]; [done|]. simpl. intros [Hc Hw]%andb_true_iff.
  destruct (ascii_dec c "."); [by subst|]. by rewrite IH.
Qed.

(** the regular expression, as a decomposition of the string *)
Lemma DECIMAL_STRING_REGEX_spec s :
  DECIMAL_STRING_REGEX s = true ↔
  ∃ w f, (strip_minus s).2 = w +:+ String "." f ∧ w ≠ "" ∧
         all_digits w = true ∧ all_digits f = true ∧ String.length f = 4%nat.
Proof.
  unfold DECIMAL_STRING_REGEX. set (c := (strip_minus s).2). split.
  - destruct (span_digits c) as [w r] eqn:Hs. apply span_digits_spec in Hs as [-> Hw].
    intros [Hne Hr]%andb_true_iff. destruct r as [|d f]; [done|].
    destruct (ascii_dec d "."); [subst d|done]. apply andb_true_iff in Hr as [Hf Hl].
    exists w, f. simpl_guards. apply Nat.eqb_eq in Hl. done.
  - intros (w & f & -> & Hne & Hw & Hf & Hl).
    rewrite span_digits_app; [|done|by intros ? ? [= <- <-]].
    rewrite bool_decide_eq_false_2 by done. simpl. by rewrite Hf, Hl.
Qed.

Lemma digits_not_minus w r :
  w ≠ "" → all_digits w = true → strip_minus (w +:+ r) = (false, w +:+ r).
Proof.
  destruct w as [|c w]; [done|]. simpl. intros _ [Hc _]%andb_true_iff.
  destruct (ascii_dec c "-"); [by subst|done].
Qed.

(** parsing a sign, a whole part and four fractional digits *)
Lemma decimalString_parse neg w f whole fraction :
  w ≠ "" → all_digits w = true → all_digits f = true → String.length f = 4%nat →
  BigInt_of_digits w = Some whole → BigInt_of_digits f = Some fraction →
  let v := Z.of_N whole * SCALE_FACTOR + Z.of_N fraction in
  let r := if (neg : bool) then -v else v in
  decimalStringToScaledBigInt ((if neg then "-" else "") +:+ w +:+ String "." f) =
  if isValidScale4Range r then Ok r else Err (RangeError "exceeds canonical scale-4 range").
Proof.
  intros Hne Hw Hf Hl Bw Bf v r. unfold decimalStringToScaledBigInt.
  set (s := (if neg then "-" else "") +:+ w +:+ String "." f).
  assert (Hs : strip_minus s = (neg, w +:+ String "." f)).
  { destruct neg; subst s; [done|]. exact (digits_not_minus w (String "." f) Hne Hw). }
  rewrite (proj2 (DECIMAL_STRING_REGEX_spec s)) by (rewrite Hs; naive_solver).
  rewrite Hs. simpl negb. cbv iota. rewrite split_dot_digits by done. rewrite Bw, Bf.
  fold v. fold r. unfold isValidScale4Range.
  rewrite !Z.ltb_antisym.
  by destruct (_ <=? _), (_ <=? _).
Qed.

Lemma parse_print x :
  decimalStringToScaledBigInt (scaledBigIntToDecimalString x) =
  if isValidScale4Range x then Ok x else Err (RangeError "exceeds canonical scale-4 range").
Proof.
  unfold scaledBigIntToDecimalString. set (abs := if x <? 0 then -x else x).
  assert (Habs : 0 <= abs) by (subst abs; destruct (Z.ltb_spec x 0); lia).
  assert (0 <= Z.quot abs SCALE_FACTOR) by (apply Z.quot_pos; unfold SCALE_FACTOR; lia).
  pose proof (Z.rem_bound_pos abs SCALE_FACTOR Habs ltac:(unfold SCALE_FACTOR; lia)) as Hrem.
  assert (Hlt : (Z.to_N (Z.rem abs SCALE_FACTOR) < 10000)%N) by (unfold SCALE_FACTOR in *; lia).
  pose proof (decimalString_parse (x <? 0) (toString (Z.to_N (Z.quot abs SCALE_FACTOR)))
    (padStart0 4 (toString (Z.to_N (Z.rem abs SCALE_FACTOR)))) _ _
    (toString_nonempty _) (toString_digits _) (padStart0_digits _ _ (toString_digits _))
    (padStart0_length4 _ Hlt) (BigInt_toString _)
    (eq_trans (BigInt_padStart0 _ _) (BigInt_toString _))) as Hp. cbv zeta in Hp.
  rewrite !Z2N.id in Hp by lia.
  replace (Z.quot abs SCALE_FACTOR * SCALE_FACTOR + Z.rem abs SCALE_FACTOR) with abs in Hp
    by (rewrite Z.mul_comm; apply Z.quot_rem; unfold SCALE_FACTOR; lia).
  assert (Hx : (if x <? 0 then -abs else abs) = x) by (subst abs; destruct (x <? 0); lia).
  by rewrite Hx in Hp.
Qed.

Lemma isValidScale4Range_spec z :
  isValidScale4Range z = true ↔ MIN_SCALE4_BIGINT <= z <= MAX_SCALE4_BIGINT.
Proof. unfold isValidScale4Range. rewrite andb_true_iff, !Z.leb_le. done. Qed.

(** ** Properties *)

(** [roundDiv] is exact half-away-from-zero division.  A zero divisor throws;
    otherwise the returned quotient is an integer nearest to a/b, at most half a
    divisor away, and on an exact tie it is the one of larger magnitude.  No other
    integer satisfies these two conditions. *)
Theorem roundDiv_half_away_from_zero a b :
  (b = 0 → roundDiv a b = Err (RangeError "Division by zero")) ∧
  (b ≠ 0 → ∀ q, roundDiv a b = Ok q ↔
     2 * Z.abs (a - q * b) <= Z.abs b ∧
     (2 * Z.abs (a - q * b) = Z.abs b → Z.abs a < Z.abs (q * b))).
Proof.
  split; [by intros ->|]. intros Hb q. rewrite roundDiv_nonzero by done.
  pose proof (roundDivNonZero_spec a b Hb) as [H1 H2]. split.
  - by intros [= <-].
  - intros [H3 H4]. f_equal. by apply (half_away_unique a b).
Qed.

(** one concrete division of each kind: a tie, a negative tie, a zero divisor *)
Lemma roundDiv_half_away_from_zero_witness :
  roundDiv 5 2 = Ok 3 ∧ roundDiv (-5) 2 = Ok (-3) ∧ roundDiv 7 0 = Err (RangeError "Division by zero").
Proof.
  split_and!.
  - by apply (proj2 (roundDiv_half_away_from_zero 5 2)).
  - by apply (proj2 (roundDiv_half_away_from_zero (-5) 2)).
  - by apply (proj1 (roundDiv_half_away_from_zero 7 0)).
Defined.

(** Canonical decimal strings are a faithful wire format.  Printing any scaled
    amount and parsing it back gives the amount, or a range error exactly when it is
    outside the DECIMAL(12,4) range; and whatever string the parser accepts denotes
    an in-range amount whose canonical reprint parses to the same amount. *)
Theorem decimal_string_round_trip :
  (∀ x, decimalStringToScaledBigInt (scaledBigIntToDecimalString x) =
        if isValidScale4Range x then Ok x else Err (RangeError "exceeds canonical scale-4 range")) ∧
  (∀ s z, decimalStringToScaledBigInt s = Ok z →
     DECIMAL_STRING_REGEX s = true ∧ MIN_SCALE4_BIGINT <= z <= MAX_SCALE4_BIGINT ∧
     decimalStringToScaledBigInt (scaledBigIntToDecimalString z) = Ok z).
Proof.
  split; [exact parse_print|]. intros s z Hs.
  destruct (DECIMAL_STRING_REGEX s) eqn:Hre; unfold decimalStringToScaledBigInt in Hs; rewrite Hre in Hs;
    [|discriminate Hs].
  assert (Hz : isValidScale4Range z = true).
  { simpl negb in Hs. cbv iota in Hs. destruct (strip_minus s) as [neg clean].
    destruct (split_dot clean) as [w f]. destruct (BigInt_of_digits w), (BigInt_of_digits f); try discriminate Hs.
    set (r := if neg then _ else _) in Hs. destruct (_ || _) eqn:Ho in Hs; [discriminate|].
    injection Hs as <-. simpl_guards. by apply isValidScale4Range_spec. }
  rewrite parse_print, Hz. by rewrite isValidScale4Range_spec in Hz.
Qed.

Lemma decimal_string_round_trip_witness :
  MIN_SCALE4_BIGINT <= -12345 <= MAX_SCALE4_BIGINT ∧
  decimalStringToScaledBigInt (scaledBigIntToDecimalString (-12345)) = Ok (-12345).
Proof.
  assert (H : decimalStringToScaledBigInt "-1.2345" = Ok (-12345)) by (vm_compute; reflexivity).
  exact (proj2 (proj2 decimal_string_round_trip "-1.2345" (-12345) H)).
Defined.

(** every [Money] the private constructor lets out is in range *)
Lemma Money_new_spec z m :
  Money.new z = Ok m ↔ m = Money.Build z ∧ MIN_SCALE4_BIGINT <= z <= MAX_SCALE4_BIGINT.
Proof.
  unfold Money.new. rewrite <- isValidScale4Range_spec. destruct (isValidScale4Range z); simpl; naive_solver.
Qed.
