(* ===== verification/Epochs.v ===== *)
(** Folio protocol contracts of packages/core/src/folio-contracts.ts: folio types,
    block-size policy, and the epoch identifiers [ep_<n>] with their numeric order.

    A JavaScript [number] that the code keeps integral is a [Z]; [parseInt] of a
    digit string rounds to a double, and the double is a safe integer exactly when
    the mathematical value is at most 2^53 - 1, which is how the model tests it. *)
From S2P Require Import Prelude Decimals.
From Stdlib Require Import Ascii String DecimalString DecimalN DecimalFacts.

(* folio-contracts.ts:7-14 FolioType *)
Inductive FolioType := TICKET | CORTE_X | CORTE_Z | FACTURA.
#[global] Instance FolioType_eq_dec : EqDecision FolioType.
Proof. solve_decision. Defined.

(* folio-contracts.ts:41-41 DEFAULT_BLOCK_SIZE *)
Definition DEFAULT_BLOCK_SIZE : Z := 500.
(* folio-contracts.ts:42-42 MIN_BLOCK_SIZE *)
Definition MIN_BLOCK_SIZE : Z := 10.
(* folio-contracts.ts:43-43 MAX_BLOCK_SIZE *)
Definition MAX_BLOCK_SIZE : Z := 5000.
(* folio-contracts.ts:45-45 GREENFIELD_INITIAL_RANGE_START *)
Definition GREENFIELD_INITIAL_RANGE_START : Z := 1.

Definition MAX_SAFE_INTEGER : Z := 2 ^ 53 - 1.

(** [Number.isSafeInteger(n)] for an integral [n] *)
Definition isSafeInteger (n : Z) : bool := (-MAX_SAFE_INTEGER <=? n) && (n <=? MAX_SAFE_INTEGER).

(** the capture group of EPOCH_REGEX: [ep_], then digits without a leading zero *)
(* folio-contracts.ts:60-60 EPOCH_REGEX *)
Definition EPOCH_REGEX_exec (s : string) : option string :=
  match s with
  | String e (String p (String u (String d r))) =>
      if ascii_dec e "e" then if ascii_dec p "p" then if ascii_dec u "_" then
        if is_digit d && negb (bool_decide (d = "0"%char)) && all_digits r
        then Some (String d r) else None
      else None else None else None
  | _ => None
  end.

(* folio-contracts.ts:65-67 isValidEpochId *)
Definition isValidEpochId (epochId : string) : bool :=
  match EPOCH_REGEX_exec epochId with Some _ => true | None => false end.

(* folio-contracts.ts:73-85 parseEpochNumber *)
Definition parseEpochNumber (epochId : string) : result JsError Z :=
  match EPOCH_REGEX_exec epochId with
  | None => Err (PlainError "Malformed epochId")
  | Some d =>
      match BigInt_of_digits d with
      | None => Err (PlainError "Malformed epochId")
      | Some n =>
          let num := Z.of_N n in
          if negb (isSafeInteger num) || (num <=? 0)
          then Err (PlainError "Invalid epoch number") else Ok num
      end
  end.

(* folio-contracts.ts:90-97 formatEpochId *)
Definition formatEpochId (generationNumber : Z) : result JsError string :=
  if negb (isSafeInteger generationNumber) || (generationNumber <=? 0)
  then Err (PlainError "Cannot format invalid epoch generation number")
  else Ok ("ep_" +:+ toString (Z.to_N generationNumber)).

(* folio-contracts.ts:104-108 compareEpochs *)
Definition compareEpochs (a b : string) : result JsError Z :=
  result_bind (parseEpochNumber a) (λ numA,
  result_bind (parseEpochNumber b) (λ numB, Ok (numA - numB))).

(* folio-contracts.ts:115-121 nextEpochId *)
Definition nextEpochId (priorEpochId : option string) : result JsError string :=
  match truthy priorEpochId with
  | None => Ok "ep_1"
  | Some prior => result_bind (parseEpochNumber prior) (λ currentNum, formatEpochId (currentNum + 1))
  end.

(** ** Lemmas *)

(** a printed positive number has no leading zero *)
Lemma toString_head_nonzero n c s :
  n ≠ 0%N → toString n = String c s → c ≠ "0"%char.
Proof.
  intros Hn Hs ->.
  assert (Hnorm : Decimal.unorm (N.to_uint n) = N.to_uint n).
  { rewrite <- Unsigned.to_of, Unsigned.of_to. done. }
  unfold toString in Hs. destruct (N.to_uint n) as [| d | | | | | | | | |] eqn:Hu; try discriminate Hs.
  simpl in Hnorm.
  destruct (Decimal.nzhead d) eqn:Hd; unfold Decimal.unorm in Hnorm; simpl in Hnorm; rewrite ?Hd in Hnorm;
    try discriminate Hnorm; [|by apply DecimalFacts.nzhead_nonzero in Hd].
  injection Hnorm as <-. apply Hn. rewrite <- (Unsigned.of_to n), Hu. done.
Qed.

Lemma parse_format n :
  0 < n → isSafeInteger n = true → parseEpochNumber ("ep_" +:+ toString (Z.to_N n)) = Ok n.
Proof.
  intros Hpos Hsafe. unfold parseEpochNumber.
  assert (He : EPOCH_REGEX_exec ("ep_" +:+ toString (Z.to_N n)) = Some (toString (Z.to_N n))).
  { destruct (toString (Z.to_N n)) as [|c s] eqn:Hs; [by apply toString_nonempty in Hs|].
    assert (Hd : all_digits (String c s) = true) by (rewrite <- Hs; apply toString_digits).
    apply toString_head_nonzero in Hs as Hc; [|lia]. clear Hs.
    assert (is_digit c = true ∧ all_digits s = true) as [Hd1 Hds] by (by apply andb_true_iff). clear Hd. change ((if is_digit c && negb (bool_decide (c = "0"%char)) &&
      all_digits s then Some (String c s) else None) = Some (String c s)).
    by rewrite Hd1, Hds, bool_decide_eq_false_2. }
  rewrite He, BigInt_toString, Z2N.id by lia. rewrite Hsafe. simpl.
  by rewrite (proj2 (Z.leb_gt n 0)).
Qed.

Lemma parseEpochNumber_ok s n : parseEpochNumber s = Ok n → 0 < n ∧ isSafeInteger n = true.
Proof.
  unfold parseEpochNumber. destruct (EPOCH_REGEX_exec s) as [d|]; [|done].
  destruct (BigInt_of_digits d) as [m|]; [|done]. destruct (_ || _) eqn:Ho; [done|].
  intros [= <-]. simpl_guards. auto.
Qed.

Lemma formatEpochId_ok n s :
  formatEpochId n = Ok s ↔ 0 < n ∧ isSafeInteger n = true ∧ s = "ep_" +:+ toString (Z.to_N n).
Proof.
  unfold formatEpochId. destruct (isSafeInteger n) eqn:Hs; simpl; [|naive_solver].
  destruct (Z.leb_spec n 0); naive_solver lia.
Qed.

(** The epoch sequence is strictly monotone and non-lexical.  An identifier
    produced for generation n parses back to n; comparing two generated identifiers
    compares their numbers; and the successor of a valid epoch is greater than it,
    failing only when the number would leave the safe-integer range. *)
Theorem epoch_ids_ordered :
  (∀ n s, formatEpochId n = Ok s → parseEpochNumber s = Ok n) ∧
  (∀ m n s t, formatEpochId m = Ok s → formatEpochId n = Ok t → compareEpochs s t = Ok (m - n)) ∧
  (∀ s n, parseEpochNumber s = Ok n → n < MAX_SAFE_INTEGER →
     ∃ t, nextEpochId (Some s) = Ok t ∧ compareEpochs t s = Ok 1).
Proof.
  assert (Hrt : ∀ n s, formatEpochId n = Ok s → parseEpochNumber s = Ok n).
  { intros n s (Hp & Hs & ->)%formatEpochId_ok. by apply parse_format. }
  split_and!; [done| |].
  - intros m n s t Hm Hn. unfold compareEpochs. by rewrite (Hrt _ _ Hm), (Hrt _ _ Hn).
  - intros s n Hs Hlt. pose proof (parseEpochNumber_ok _ _ Hs) as [Hpos Hsafe].
    assert (Hf : formatEpochId (n + 1) = Ok ("ep_" +:+ toString (Z.to_N (n + 1)))).
    { apply formatEpochId_ok. unfold isSafeInteger in *. simpl_guards. split_and!; [lia| |done].
      apply andb_true_iff; rewrite !Z.leb_le; lia. }
    exists ("ep_" +:+ toString (Z.to_N (n + 1))). split.
    + unfold nextEpochId. destruct s; [done|]. simpl. by rewrite Hs.
    + unfold compareEpochs. rewrite (Hrt _ _ Hf), Hs. simpl. f_equal. lia.
Qed.

Lemma epoch_ids_ordered_witness :
  compareEpochs "ep_10" "ep_9" = Ok 1 ∧ nextEpochId (Some "ep_9") = Ok "ep_10".
Proof.
  split; [|reflexivity].
  exact (proj1 (proj2 epoch_ids_ordered) 10 9 "ep_10" "ep_9" eq_refl eq_refl).
Defined.
