(* ===== verification/PosTypes.v ===== *)
(** Domain data of packages/pos: the entities of types.ts, cash-shift-types.ts and
    payment-types.ts as records (one Module per entity, its fields named as in the
    source), their status enumerations, and the domain errors of errors.ts.

    A [bigint] and an integral [number] are [Z]; [T | null] and an optional field are
    [option T], [undefined] and [null] being identified where the code does so with
    [??]; an ISO timestamp is the string the code stores.  Error messages are not
    modelled: an error is its class, code, HTTP status and conflict data. *)
From S2P Require Import Prelude.

(** ** Dining room (types.ts) *)

(* types.ts:6-6 MesaStatus *)
Inductive MesaStatus := DISPONIBLE | OCUPADA | EN_CUENTA | BLOQUEADA.
(* types.ts:8-8 AccountType *)
Inductive AccountType := COMEDOR | MOSTRADOR | RAPPI | UBER | DOMICILIO.
(* types.ts:10-10 CuentaStatus *)
Inductive CuentaStatus := ABIERTA | IMPRESA | PAGADA | ANULADA.
(* types.ts:12-12 CuentaItemStatus *)
Inductive CuentaItemStatus := ORDENADO | EN_COCINA | PREPARADO | ENTREGADO | CANCELADO.

#[global] Instance MesaStatus_eq_dec : EqDecision MesaStatus.
Proof. solve_decision. Defined.
#[global] Instance AccountType_eq_dec : EqDecision AccountType.
Proof. solve_decision. Defined.
#[global] Instance CuentaStatus_eq_dec : EqDecision CuentaStatus.
Proof. solve_decision. Defined.
#[global] Instance CuentaItemStatus_eq_dec : EqDecision CuentaItemStatus.
Proof. solve_decision. Defined.

Module Mesa.
(* types.ts:14-25 Mesa *)
Record t := mk {
  id : string; roomName : string; tableNumber : string; status : MesaStatus;
  currentAccountId : option string; posX : option Z; posY : option Z;
  capacity : option Z; version : Z; updatedAt : string }.
#[global] Instance eta_t : Eta t := λ m,
  mk (id m) (roomName m) (tableNumber m) (status m) (currentAccountId m) (posX m)
     (posY m) (capacity m) (version m) (updatedAt m).
#[global] Instance eq_dec : EqDecision t.
Proof. solve_decision. Defined.
End Mesa.

Module Modificador.
(* types.ts:27-33 CuentaItemModificador *)
Record t := mk {
  id : string; cuentaItemId : string; modifierId : string;
  modifierNameSnapshot : string; modifierPriceApplied : Z }.
#[global] Instance eta_t : Eta t := λ m,
  mk (id m) (cuentaItemId m) (modifierId m) (modifierNameSnapshot m) (modifierPriceApplied m).
#[global] Instance eq_dec : EqDecision t.
Proof. solve_decision. Defined.
End Modificador.

Module CuentaItem.
(** [requiresWasteRecord?: boolean] is read through [Boolean(...)]: absent is false *)
(* types.ts:35-54 CuentaItem *)
Record t := mk {
  id : string; cuentaId : string; productId : string; productNameSnapshot : string;
  unitPriceApplied : Z; quantity : Z; taxRateApplied : Z; taxAmountApplied : Z;
  discountAmountApplied : Z; subtotal : Z; total : Z; status : CuentaItemStatus;
  cancellationReason : option string; cancelledByUserId : option string;
  cancelledAt : option string; requiresWasteRecord : bool; createdAt : string;
  modifiers : list Modificador.t }.
#[global] Instance eta_t : Eta t := λ i,
  mk (id i) (cuentaId i) (productId i) (productNameSnapshot i) (unitPriceApplied i)
     (quantity i) (taxRateApplied i) (taxAmountApplied i) (discountAmountApplied i)
     (subtotal i) (total i) (status i) (cancellationReason i) (cancelledByUserId i)
     (cancelledAt i) (requiresWasteRecord i) (createdAt i) (modifiers i).
#[global] Instance eq_dec : EqDecision t.
Proof. solve_decision. Defined.
End CuentaItem.

Module Cuenta.
(* types.ts:56-79 Cuenta *)
Record t := mk {
  id : string; folioNumber : option Z; epochId : string; mesaId : option string;
  accountType : AccountType; status : CuentaStatus; subtotal : Z; taxTotal : Z;
  discountsTotal : Z; tipsTotal : Z; totalAmount : Z; openedByUserId : string;
  currentWaiterUserId : option string; guestCount : option Z; openedAt : string;
  printedAt : option string; closedAt : option string; version : Z;
  updatedAt : string; parentCuentaId : option string; splitSequence : option Z;
  items : list CuentaItem.t }.
#[global] Instance eta_t : Eta t := λ c,
  mk (id c) (folioNumber c) (epochId c) (mesaId c) (accountType c) (status c) (subtotal c)
     (taxTotal c) (discountsTotal c) (tipsTotal c) (totalAmount c) (openedByUserId c)
     (currentWaiterUserId c) (guestCount c) (openedAt c) (printedAt c) (closedAt c)
     (version c) (updatedAt c) (parentCuentaId c) (splitSequence c) (items c).
#[global] Instance eq_dec : EqDecision t.
Proof. solve_decision. Defined.
End Cuenta.

(** ** Cash shifts (cash-shift-types.ts) *)

(* cash-shift-types.ts:6-6 TurnoCajaStatus *)
Inductive TurnoCajaStatus := ABIERTO | CERRADO_ARQUEO | CORTE_Z_EMITIDO.
(* cash-shift-types.ts:8-9 MovimientoCajaType *)
Inductive MovimientoCajaType := INGRESO | EGRESO | VENTA_EFECTIVO | DEVOLUCION_EFECTIVO | FONDO_INICIAL.
(* cash-shift-types.ts:11-11 CorteCajaType *)
Inductive CorteCajaType := CORTE_X_TIPO | CORTE_Z_TIPO.

#[global] Instance TurnoCajaStatus_eq_dec : EqDecision TurnoCajaStatus.
Proof. solve_decision. Defined.
#[global] Instance MovimientoCajaType_eq_dec : EqDecision MovimientoCajaType.
Proof. solve_decision. Defined.
#[global] Instance CorteCajaType_eq_dec : EqDecision CorteCajaType.
Proof. solve_decision. Defined.

Module TurnoCaja.
(* cash-shift-types.ts:13-32 TurnoCaja *)
Record t := mk {
  id : string; organizationId : string; branchId : string; stationId : string;
  responsibleUserId : string; openedByUserId : string; shiftNumber : Z;
  openingCashFloat : Z; closingDeclaredCash : option Z; calculatedCashTotal : option Z;
  cashDifference : option Z; status : TurnoCajaStatus; assignmentStrategy : string;
  participatingOperators : list string; openedAt : string; closedAt : option string;
  version : Z; updatedAt : string }.
#[global] Instance eta_t : Eta t := λ s,
  mk (id s) (organizationId s) (branchId s) (stationId s) (responsibleUserId s)
     (openedByUserId s) (shiftNumber s) (openingCashFloat s) (closingDeclaredCash s)
     (calculatedCashTotal s) (cashDifference s) (status s) (assignmentStrategy s)
     (participatingOperators s) (openedAt s) (closedAt s) (version s) (updatedAt s).
#[global] Instance eq_dec : EqDecision t.
Proof. solve_decision. Defined.
End TurnoCaja.

Module MovimientoCaja.
(* cash-shift-types.ts:34-43 MovimientoCaja *)
Record t := mk {
  id : string; turnoCajaId : string; operatorUserId : string;
  movementType : MovimientoCajaType; amount : Z; reason : string;
  referenceId : option string; createdAt : string }.
#[global] Instance eta_t : Eta t := λ m,
  mk (id m) (turnoCajaId m) (operatorUserId m) (movementType m) (amount m) (reason m)
     (referenceId m) (createdAt m).
#[global] Instance eq_dec : EqDecision t.
Proof. solve_decision. Defined.
End MovimientoCaja.

Module ArqueoCiego.
(* cash-shift-types.ts:45-53 ArqueoCiego *)
Record t := mk {
  id : string; turnoCajaId : string; performedByUserId : string; declaredCash : Z;
  calculatedCash : Z; difference : Z; createdAt : string }.
#[global] Instance eq_dec : EqDecision t.
Proof. solve_decision. Defined.
End ArqueoCiego.

Module OperatorBreakdown.
(* cash-shift-types.ts:55-62 OperatorBreakdown *)
Record t := mk {
  operatorUserId : string; totalIngresos : Z; totalEgresos : Z;
  totalVentasEfectivo : Z; netCash : Z; movementsCount : Z }.
#[global] Instance eta_t : Eta t := λ o,
  mk (operatorUserId o) (totalIngresos o) (totalEgresos o) (totalVentasEfectivo o)
     (netCash o) (movementsCount o).
#[global] Instance eq_dec : EqDecision t.
Proof. solve_decision. Defined.
End OperatorBreakdown.

Module CorteCaja.
(* cash-shift-types.ts:64-78 CorteCaja *)
Record t := mk {
  id : string; turnoCajaId : string; tipoCorte : CorteCajaType; generatedByUserId : string;
  openingCashFloat : Z; totalIngresos : Z; totalEgresos : Z; totalVentasEfectivo : Z;
  totalCalculado : Z; totalDeclarado : option Z; diferencia : option Z;
  desgloseOperadores : list OperatorBreakdown.t; generatedAt : string }.
#[global] Instance eq_dec : EqDecision t.
Proof. solve_decision. Defined.
End CorteCaja.

(** the same breakdown on the wire, amounts as decimal strings *)
Module OperatorBreakdownDTO.
(* cash-shift-types.ts:94-101 CorteZGeneradoEventPayload.desgloseOperadores *)
Record t := mk {
  operatorUserId : string; totalIngresos : string; totalEgresos : string;
  totalVentasEfectivo : string; netCash : string; movementsCount : Z }.
#[global] Instance eq_dec : EqDecision t.
Proof. solve_decision. Defined.
End OperatorBreakdownDTO.

Module CorteZGenerado.
(* cash-shift-types.ts:80-104 CorteZGeneradoEventPayload *)
Record t := mk {
  shiftId : string; organizationId : string; branchId : string; stationId : string;
  responsibleUserId : string; shiftNumber : Z; openingCashFloat : string;
  totalIngresos : string; totalEgresos : string; totalVentasEfectivo : string;
  totalCalculado : string; totalDeclarado : string; diferencia : string;
  desgloseOperadores : list OperatorBreakdownDTO.t; openedAt : string;
  closedAt : option string }.
#[global] Instance eq_dec : EqDecision t.
Proof. solve_decision. Defined.
End CorteZGenerado.

(** ** Payments (payment-types.ts, core payment-contracts.ts) *)

(* payment-contracts.ts:16-17 PaymentMethod *)
Inductive PaymentMethod := EFECTIVO | TARJETA | TRANSFERENCIA.
#[global] Instance PaymentMethod_eq_dec : EqDecision PaymentMethod.
Proof. solve_decision. Defined.

Module Pago.
(* payment-types.ts:12-25 Pago *)
Record t := mk {
  id : string; cuentaId : string; turnoCajaId : string; operatorUserId : string;
  paymentMethod : PaymentMethod; amount : Z; tipAmount : Z; cashGiven : option Z;
  changeDue : option Z; referenceAuthCode : option string; clientOpId : string;
  createdAt : string }.
#[global] Instance eta_t : Eta t := λ p,
  mk (id p) (cuentaId p) (turnoCajaId p) (operatorUserId p) (paymentMethod p) (amount p)
     (tipAmount p) (cashGiven p) (changeDue p) (referenceAuthCode p) (clientOpId p) (createdAt p).
#[global] Instance eq_dec : EqDecision t.
Proof. solve_decision. Defined.
End Pago.

Module FormaPago.
(* payment-contracts.ts:103-109 formasPago *)
Record t := mk { method : PaymentMethod; amount : string; reference : option string }.
#[global] Instance eq_dec : EqDecision t.
Proof. solve_decision. Defined.
End FormaPago.

Module CuentaPagada.
(** [montos] is flattened; [impuestos] is a list of (rate, amount) *)
(* payment-contracts.ts:84-115 CuentaPagadaEventPayload *)
Record t := mk {
  organizacionId : string; sucursalId : string; estacionId : string; cuentaId : string;
  folioVenta : option Z; montos_subtotal : string; montos_taxTotal : string;
  montos_discountsTotal : string; montos_total : string;
  impuestos : list (string * string); propina : string; formasPago : list FormaPago.t;
  meseroId : option string; clienteId : option string; settledAt : string }.
#[global] Instance eq_dec : EqDecision t.
Proof. solve_decision. Defined.
End CuentaPagada.

(** ** Errors (errors.ts) *)

(** [currentSnapshot: unknown]: the aggregate the conflict was detected on *)
Inductive Snapshot :=
| SnapMesa (m : option Mesa.t)
| SnapCuenta (c : option Cuenta.t)
| SnapTurno (s : option TurnoCaja.t).

(** [DomainError] and [OCCConflictError] are the classes of errors.ts; [SqliteError]
    is an exception of the SQLite driver (a violated constraint); [FolioError] the class of
    folio-persistence.ts, with the code of its subclasses; [Js] a language error thrown by
    the core package. *)
(* errors.ts:5-46 DomainError, OCCConflictError *)
Inductive PosError :=
| DomainError (code : string) (statusCode : Z)
| OCCConflictError (aggregateId : string) (expectedVersion actualVersion : Z) (currentSnapshot : Snapshot)
| SqliteError (constraint : string)
| FolioError (code : option string)
| Js (e : JsError).

#[global] Instance Snapshot_eq_dec : EqDecision Snapshot.
Proof. solve_decision. Defined.
#[global] Instance PosError_eq_dec : EqDecision PosError.
Proof. solve_decision. Defined.

(* errors.ts:48-53 ShiftAlreadyOpenError *)
Definition ShiftAlreadyOpenError : PosError := DomainError "SHIFT_ALREADY_OPEN" 409.
(* errors.ts:55-60 ShiftNotFoundError *)
Definition ShiftNotFoundError : PosError := DomainError "SHIFT_NOT_FOUND" 404.
(* errors.ts:62-71 ShiftInvalidStatusError *)
Definition ShiftInvalidStatusError : PosError := DomainError "SHIFT_INVALID_STATUS" 400.
(* errors.ts:73-82 ShiftLockedError *)
Definition ShiftLockedError : PosError := DomainError "SHIFT_LOCKED" 409.
(* errors.ts:84-93 UnauthorizedShiftOperatorError *)
Definition UnauthorizedShiftOperatorError : PosError := DomainError "UNAUTHORIZED_SHIFT_OPERATOR" 403.
(* errors.ts:95-100 InvalidCashMovementError *)
Definition InvalidCashMovementError : PosError := DomainError "INVALID_CASH_MOVEMENT" 400.
(* errors.ts:102-107 InvalidOperatorPinError *)
Definition InvalidOperatorPinError : PosError := DomainError "INVALID_OPERATOR_PIN" 401.
(* errors.ts:109-114 PaymentValidationError *)
Definition PaymentValidationError : PosError := DomainError "PAYMENT_VALIDATION_ERROR" 400.
(* errors.ts:116-124 AccountNotPayableError *)
Definition AccountNotPayableError : PosError := DomainError "ACCOUNT_NOT_PAYABLE" 400.
(* errors.ts:127-136 ShiftNotOpenError *)
Definition ShiftNotOpenError : PosError := DomainError "SHIFT_NOT_OPEN" 400.
(** the code a request handler answers 500 for when a repository lacks the synchronous methods *)
Definition SYNC_UNSUPPORTED : PosError := DomainError "SYNC_UNSUPPORTED" 500.

(* errors.ts:34-45 OCCConflictError.code *)
Definition errorCode (e : PosError) : string :=
  match e with
  | DomainError code _ => code
  | OCCConflictError _ _ _ _ => "OCC_CONFLICT"
  | SqliteError _ => "SQLITE"
  | FolioError code => default "FOLIO" code
  | Js _ => "JS"
  end.

(** ** PIN validation (cash-shift-ports.ts)

    [validatePin] may return a boolean or a promise of one.  A caller that awaits it
    sees the boolean; a caller that uses the returned value as a condition sees a
    promise object, which JavaScript takes as true. *)
Inductive MaybePromise := Sync (b : bool) | Promise (b : bool).

Definition awaited (p : MaybePromise) : bool := match p with Sync b | Promise b => b end.
Definition js_truthy (p : MaybePromise) : bool := match p with Sync b => b | Promise _ => true end.

(* cash-shift-ports.ts:34-36 IamPinValidatorPort *)
Class IamPinValidatorPort := {
  validatePin : string → string → option string → MaybePromise
}.
