(* ===== verification/KdsTypes.v ===== *)
(** Kitchen display data: the entities of packages/pos/src/kds-types.ts and the tables of
    pos-edge-runtime/src/kds-schema.ts they are stored in.

    The four tables are listed, so each is the list of its rows in rowid order.
    [modifiers_snapshot] holds [JSON.stringify] of the modifiers and is only ever read
    back with [JSON.parse]; it is modelled by the list itself. *)
From S2P Require Import Prelude.

Module KdsEstacionType.
(* kds-types.ts:10-10 KdsEstacionType *)
Inductive t := COCINA | BARRA.
#[global] Instance eq_dec : EqDecision t.
Proof. solve_decision. Defined.
End KdsEstacionType.

Module KdsEstacionStatus.
(* kds-types.ts:12-12 KdsEstacionStatus *)
Inductive t := ACTIVA | INACTIVA.
#[global] Instance eq_dec : EqDecision t.
Proof. solve_decision. Defined.
End KdsEstacionStatus.

Module KdsTicketStatus.
(* kds-types.ts:14-14 KdsTicketStatus *)
Inductive t := PENDIENTE | EN_PREPARACION | LISTO | ENTREGADO.
#[global] Instance eq_dec : EqDecision t.
Proof. solve_decision. Defined.
End KdsTicketStatus.

Module KdsPartidaStatus.
(* kds-types.ts:16-16 KdsTicketPartidaStatus *)
Inductive t := PENDIENTE | EN_PREPARACION | LISTO.
#[global] Instance eq_dec : EqDecision t.
Proof. solve_decision. Defined.
End KdsPartidaStatus.

Module UrgencyLevel.
(* kds-types.ts:18-18 UrgencyLevel *)
Inductive t := NORMAL | ALTA | URGENTE.
#[global] Instance eq_dec : EqDecision t.
Proof. solve_decision. Defined.
Definition name (u : t) : string :=
  match u with NORMAL => "NORMAL" | ALTA => "ALTA" | URGENTE => "URGENTE" end.
End UrgencyLevel.

Module PrintJobStatus.
(* kds-types.ts:20-20 PrintJobStatus *)
Inductive t := PENDING | QUEUED | PRINTING | PRINTED | FAILED.
#[global] Instance eq_dec : EqDecision t.
Proof. solve_decision. Defined.
End PrintJobStatus.

Module PrinterStatus.
(* kds-types.ts:22-22 PrinterStatus *)
Inductive t := ONLINE | OFFLINE | UNKNOWN.
#[global] Instance eq_dec : EqDecision t.
Proof. solve_decision. Defined.
End PrinterStatus.

Module KdsEstacion.
(* kds-types.ts:24-30 KdsEstacion *)
Record t := mk {
  id : string; name : string; stationType : KdsEstacionType.t; status : KdsEstacionStatus.t;
  createdAt : string }.
End KdsEstacion.

Module ImpresoraRed.
(* kds-types.ts:32-41 ImpresoraRed *)
Record t := mk {
  id : string; name : string; host : string; port : Z; kdsEstacionId : option string;
  status : PrinterStatus.t; lastSeenAt : option string; createdAt : string }.
#[global] Instance eta_t : Eta t := λ r,
  mk (id r) (name r) (host r) (port r) (kdsEstacionId r) (status r) (lastSeenAt r) (createdAt r).
End ImpresoraRed.

Module KdsModificador.
(* kds-types.ts:43-46 KdsTicketPartidaModificadorSnapshot *)
Record t := mk { modifierId : string; modifierNameSnapshot : string }.
End KdsModificador.

Module KdsPartida.
(** the entity; a row of [kds_ticket_partidas] has the same columns *)
(* kds-types.ts:52-62 KdsTicketPartida *)
Record t := mk {
  id : string; kdsTicketId : string; productId : string; productNameSnapshot : string;
  quantity : Z; comments : option string; modifiers : list KdsModificador.t;
  status : KdsPartidaStatus.t; createdAt : string }.
#[global] Instance eta_t : Eta t := λ p,
  mk (id p) (kdsTicketId p) (productId p) (productNameSnapshot p) (quantity p) (comments p)
     (modifiers p) (status p) (createdAt p).
End KdsPartida.

Module KdsPartidaWire.
(* kds-types.ts:68-78 KdsTicketPartidaWireDto *)
Record t := mk {
  id : string; kdsTicketId : string; productId : string; productNameSnapshot : string;
  quantity : string; comments : option string; modifiers : list KdsModificador.t;
  status : KdsPartidaStatus.t; createdAt : string }.
End KdsPartidaWire.

(** a ticket over a representation [P] of its lines: the entity, its wire form, and the
    table row, whose lines are in the other table *)
Module KdsTicketOf.
(* kds-types.ts:80-97 KdsTicket *)
Record t (P : Type) := mk {
  id : string; cuentaId : string; mesaReference : string; kdsEstacionId : string;
  urgencyLevel : UrgencyLevel.t; status : KdsTicketStatus.t; printStatus : PrintJobStatus.t;
  printAttempts : Z; printerId : option string; lastPrintError : option string;
  aggregateSequenceNumber : Z; createdAt : string; updatedAt : string;
  completedAt : option string; preparationTimeMinutes : option Z; partidas : P }.
#[global] Arguments mk {P}.
#[global] Arguments id {P} _.
#[global] Arguments cuentaId {P} _.
#[global] Arguments mesaReference {P} _.
#[global] Arguments kdsEstacionId {P} _.
#[global] Arguments urgencyLevel {P} _.
#[global] Arguments status {P} _.
#[global] Arguments printStatus {P} _.
#[global] Arguments printAttempts {P} _.
#[global] Arguments printerId {P} _.
#[global] Arguments lastPrintError {P} _.
#[global] Arguments aggregateSequenceNumber {P} _.
#[global] Arguments createdAt {P} _.
#[global] Arguments updatedAt {P} _.
#[global] Arguments completedAt {P} _.
#[global] Arguments preparationTimeMinutes {P} _.
#[global] Arguments partidas {P} _.
#[global] Instance eta_t {P} : Eta (t P) := λ k,
  mk (id k) (cuentaId k) (mesaReference k) (kdsEstacionId k) (urgencyLevel k) (status k)
     (printStatus k) (printAttempts k) (printerId k) (lastPrintError k)
     (aggregateSequenceNumber k) (createdAt k) (updatedAt k) (completedAt k)
     (preparationTimeMinutes k) (partidas k).
(** the same columns with other lines *)
Definition withPartidas {P Q} (k : t P) (q : Q) : t Q :=
  mk (id k) (cuentaId k) (mesaReference k) (kdsEstacionId k) (urgencyLevel k) (status k)
     (printStatus k) (printAttempts k) (printerId k) (lastPrintError k)
     (aggregateSequenceNumber k) (createdAt k) (updatedAt k) (completedAt k)
     (preparationTimeMinutes k) q.
End KdsTicketOf.

(* kds-types.ts:80-97 KdsTicket *)
Definition KdsTicket : Type := KdsTicketOf.t (list KdsPartida.t).
(* kds-types.ts:102-119 KdsTicketWireDto *)
Definition KdsTicketWire : Type := KdsTicketOf.t (list KdsPartidaWire.t).
(* kds-sqlite-repository.ts:46-62 KdsTicketRow *)
Definition KdsTicketRow : Type := KdsTicketOf.t unit.

Module EnviarComandaItem.
(** [Q] is [bigint] in the domain and a decimal string on the wire *)
(* kds-types.ts:122-129 EnviarComandaItemInput *)
Record t (Q : Type) := mk {
  id : string; productId : string; productNameSnapshot : string; quantity : Q;
  comments : option string; modifiers : option (list KdsModificador.t) }.
#[global] Arguments mk {Q}.
#[global] Arguments id {Q} _.
#[global] Arguments productId {Q} _.
#[global] Arguments productNameSnapshot {Q} _.
#[global] Arguments quantity {Q} _.
#[global] Arguments comments {Q} _.
#[global] Arguments modifiers {Q} _.
End EnviarComandaItem.

Module EnviarComanda.
(* kds-types.ts:132-139 EnviarComandaInput *)
Record t := mk {
  id : string; cuentaId : string; mesaReference : string; kdsEstacionId : string;
  urgencyLevel : option UrgencyLevel.t; items : list (EnviarComandaItem.t Z) }.
End EnviarComanda.

(* kds-types.ts:145-172 KdsDomainEvent *)
Inductive KdsDomainEvent (T : Type) :=
| ComandaEnviadaACocina (kdsEstacionId : string) (ticket : T) (emittedAt : string)
| OrdenProduccionIniciadaEnKDS (kdsEstacionId : string) (ticket : T) (emittedAt : string)
| OrdenProduccionConfirmadaEnKDS (kdsEstacionId ordenProduccionId completedAt : string)
    (tiempoPreparacionMinutos : Z) (ticket : T) (emittedAt : string).
#[global] Arguments ComandaEnviadaACocina {T} _ _ _.
#[global] Arguments OrdenProduccionIniciadaEnKDS {T} _ _ _.
#[global] Arguments OrdenProduccionConfirmadaEnKDS {T} _ _ _ _ _ _.

Module KdsDb.
(* kds-schema.ts:17-65 KDS_EDGE_SQLITE_SCHEMA *)
Record t := mk {
  kds_estaciones : list KdsEstacion.t;
  impresoras_red : list ImpresoraRed.t;
  kds_tickets : list KdsTicketRow;
  kds_ticket_partidas : list KdsPartida.t }.
#[global] Instance eta_t : Eta t := λ d,
  mk (kds_estaciones d) (impresoras_red d) (kds_tickets d) (kds_ticket_partidas d).
Definition empty : t := mk [] [] [] [].
End KdsDb.
