(* ===== verification/EdgeDb.v ===== *)
(** The edge SQLite connection of packages/edge/src/db: the tables the POS writes, the
    transaction and durability boundaries of edge-database.ts, the transactional
    outbox (outbox-persistence.ts) and the local audit trail
    (local-audit-persistence.ts), with the table schemas of pos-edge-runtime's
    schema.ts and cash-shift-schema.ts, the lease table of folio-persistence.ts and
    the kitchen tables of kds-schema.ts.

    A table whose rows are only looked up by primary key is a [gmap] from that key to
    the remaining columns; a table that is listed is the list of its rows in rowid
    order.  Constraints the code relies on (primary keys, UNIQUE, REFERENCES under
    [foreign_keys = ON], CHECK) are tests that throw [SqliteError].  Failures of the
    native driver itself (a COMMIT, ROLLBACK or PRAGMA that fails, a closed handle) and
    the 64-bit range of an INTEGER column are not modelled. *)
From S2P Require Import Prelude Epochs PosTypes KdsTypes.
From Stdlib Require Import Ascii String.

(** ** Rows *)

Module MesaRow.
(* schema.ts:8-19 mesas *)
Record t := mk {
  room_name : string; table_number : string; status : MesaStatus;
  current_account_id : option string; pos_x : option Z; pos_y : option Z;
  capacity : option Z; version : Z; updated_at : string }.
#[global] Instance eta_t : Eta t := λ r,
  mk (room_name r) (table_number r) (status r) (current_account_id r) (pos_x r) (pos_y r)
     (capacity r) (version r) (updated_at r).
#[global] Instance eq_dec : EqDecision t.
Proof. solve_decision. Defined.
End MesaRow.

Module CuentaRow.
(* schema.ts:21-43 cuentas *)
Record t := mk {
  folio_number : option Z; epoch_id : string; mesa_id : option string;
  account_type : AccountType; status : CuentaStatus; subtotal : Z; tax_total : Z;
  discounts_total : Z; tips_total : Z; total_amount : Z; opened_by_user_id : string;
  current_waiter_user_id : option string; guest_count : option Z; opened_at : string;
  printed_at : option string; closed_at : option string; parent_cuenta_id : option string;
  split_sequence : option Z; version : Z; updated_at : string }.
#[global] Instance eq_dec : EqDecision t.
Proof. solve_decision. Defined.
End CuentaRow.

Module CuentaItemRow.
(* schema.ts:45-63 cuenta_items *)
Record t := mk {
  id : string; cuenta_id : string; product_id : string; product_name_snapshot : string;
  unit_price_applied : Z; quantity : Z; tax_rate_applied : Z; tax_amount_applied : Z;
  discount_amount_applied : Z; subtotal : Z; total : Z; status : CuentaItemStatus;
  cancellation_reason : option string; cancelled_by_user_id : option string;
  cancelled_at : option string; requires_waste_record : bool; created_at : string }.
#[global] Instance eq_dec : EqDecision t.
Proof. solve_decision. Defined.
End CuentaItemRow.

Module ModificadorRow.
(* schema.ts:65-71 cuenta_item_modificadores *)
Record t := mk {
  id : string; cuenta_item_id : string; modifier_id : string;
  modifier_name_snapshot : string; modifier_price_applied : Z }.
#[global] Instance eq_dec : EqDecision t.
Proof. solve_decision. Defined.
End ModificadorRow.

Module TurnoCajaRow.
(* cash-shift-schema.ts:7-25 turnos_caja *)
Record t := mk {
  organization_id : string; branch_id : string; station_id : string;
  responsible_user_id : string; opened_by_user_id : string; shift_number : Z;
  opening_cash_float : Z; closing_declared_cash : option Z; calculated_cash_total : option Z;
  cash_difference : option Z; status : TurnoCajaStatus; assignment_strategy : string;
  opened_at : string; closed_at : option string; version : Z; updated_at : string }.
#[global] Instance eta_t : Eta t := λ r,
  mk (organization_id r) (branch_id r) (station_id r) (responsible_user_id r)
     (opened_by_user_id r) (shift_number r) (opening_cash_float r) (closing_declared_cash r)
     (calculated_cash_total r) (cash_difference r) (status r) (assignment_strategy r)
     (opened_at r) (closed_at r) (version r) (updated_at r).
#[global] Instance eq_dec : EqDecision t.
Proof. solve_decision. Defined.
End TurnoCajaRow.

Module OperadorRow.
(** the row's own random id is not modelled: nothing reads it *)
(* cash-shift-schema.ts:27-34 turnos_caja_operadores *)
Record t := mk {
  turno_caja_id : string; operator_user_id : string; added_by_user_id : string;
  added_at : string }.
#[global] Instance eq_dec : EqDecision t.
Proof. solve_decision. Defined.
End OperadorRow.

Module CorteRow.
(* cash-shift-schema.ts:57-71 cortes_caja *)
Record t := mk {
  id : string; turno_caja_id : string; tipo_corte : CorteCajaType;
  generated_by_user_id : string; opening_cash_float : Z; total_ingresos : Z;
  total_egresos : Z; total_ventas_efectivo : Z; total_calculado : Z;
  total_declarado : option Z; diferencia : option Z;
  desglose_operadores_json : list OperatorBreakdownDTO.t; generated_at : string }.
#[global] Instance eq_dec : EqDecision t.
Proof. solve_decision. Defined.
End CorteRow.

(* folio-persistence.ts:14-14 LocalLeaseStatus *)
Inductive LocalLeaseStatus := LEASE_ACTIVE | LEASE_EXHAUSTED | LEASE_REVOKED.
#[global] Instance LocalLeaseStatus_eq_dec : EqDecision LocalLeaseStatus.
Proof. solve_decision. Defined.

Module LocalLease.
(** a row without its primary key [folio_type] *)
(* folio-persistence.ts:23-31 LocalFolioLeaseRecord *)
Record t := mk {
  epochId : string; fencingToken : string; rangeStart : Z; rangeEnd : Z; currentFolio : Z;
  status : LocalLeaseStatus }.
#[global] Instance eta_t : Eta t := λ r,
  mk (epochId r) (fencingToken r) (rangeStart r) (rangeEnd r) (currentFolio r) (status r).
End LocalLease.

(** the JSON payloads enqueued on the outbox, one constructor per producer *)
Inductive OutboxPayload :=
| OpenCuentaPayload (cuentaId : string) (mesaId : option string) (accountType : AccountType)
| AddItemPayload (cuentaId itemId productId quantity total : string)
| CloseCuentaPayload (cuentaId : string) (status : CuentaStatus) (totalAmount : string)
| CuentaPagadaPayload (p : CuentaPagada.t)
| CorteZPayload (p : CorteZGenerado.t).
#[global] Instance OutboxPayload_eq_dec : EqDecision OutboxPayload.
Proof. solve_decision. Defined.

(* outbox-persistence.ts:34-34 EdgeOutboxRecord.status *)
Inductive OutboxStatus := PENDING | SYNCED | FAILED.
#[global] Instance OutboxStatus_eq_dec : EqDecision OutboxStatus.
Proof. solve_decision. Defined.

Module OutboxRecord.
(* outbox-persistence.ts:24-41 EdgeOutboxRecord *)
Record t := mk {
  id : string; organizationId : string; branchId : string; aggregateType : string;
  aggregateId : string; action : string; clientOpId : string;
  aggregateSequenceNumber : Z; payload : OutboxPayload; status : OutboxStatus;
  receiptToken : option string; receiptVerifiedAt : option string; retryCount : Z;
  createdAt : string; syncedAt : option string; lastError : option string }.
#[global] Instance eq_dec : EqDecision t.
Proof. solve_decision. Defined.
End OutboxRecord.

Module EnqueueInput.
(** [id] is [input.id ?? crypto.randomUUID()]: the identifier the call stores *)
(* outbox-persistence.ts:43-53 EnqueueOutboxInput *)
Record t := mk {
  id : string; organizationId : string; branchId : string; aggregateType : string;
  aggregateId : string; action : string; clientOpId : string;
  aggregateSequenceNumber : Z; payload : OutboxPayload }.
End EnqueueInput.

(** the [details] objects recorded in the audit trail *)
Inductive AuditDetails :=
| PagoDetails (cuentaId pagoId turnoCajaId : string) (paymentMethod : PaymentMethod)
    (amount tipAmount remainingBalance : string) (accountSettled : bool) (clientOpId : string)
| CashDifferenceDetails (shiftId stationId : string) (shiftNumber : Z)
    (declaredCash calculatedCash cashDifference : string).
#[global] Instance AuditDetails_eq_dec : EqDecision AuditDetails.
Proof. solve_decision. Defined.

Module AuditRecord.
(* local-audit-persistence.ts:10-23 LocalAuditTrailRecord *)
Record t := mk {
  id : string; organizationId : string; branchId : string; actorId : string;
  stationId : string; action : string; aggregateType : string; aggregateId : string;
  details : AuditDetails; reason : option string; createdAt : string; isSynced : bool }.
#[global] Instance eq_dec : EqDecision t.
Proof. solve_decision. Defined.
End AuditRecord.

(** ** Tables and connection *)

Module Db.
(* schema.ts:7-96 POS_EDGE_SQLITE_SCHEMA *)
Record t := mk {
  mesas : gmap string MesaRow.t;
  cuentas : gmap string CuentaRow.t;
  cuenta_items : list CuentaItemRow.t;
  cuenta_item_modificadores : list ModificadorRow.t;
  pagos : list Pago.t;
  turnos_caja : gmap string TurnoCajaRow.t;
  turnos_caja_operadores : list OperadorRow.t;
  movimientos_caja : list MovimientoCaja.t;
  arqueos_ciegos : list ArqueoCiego.t;
  cortes_caja : list CorteRow.t;
  outbox_queue : list OutboxRecord.t;
  local_audit_trail : list AuditRecord.t;
  local_folio_leases : gmap string LocalLease.t;
  kds : KdsDb.t }.
#[global] Instance eta_t : Eta t := λ d,
  mk (mesas d) (cuentas d) (cuenta_items d) (cuenta_item_modificadores d) (pagos d)
     (turnos_caja d) (turnos_caja_operadores d) (movimientos_caja d) (arqueos_ciegos d)
     (cortes_caja d) (outbox_queue d) (local_audit_trail d) (local_folio_leases d)
     (kds d).
Definition empty : t := mk ∅ ∅ [] [] [] ∅ [] [] [] [] [] [] ∅ KdsDb.empty.
End Db.

(* edge types.ts:48-48 DurabilityMode *)
Inductive DurabilityMode := NORMAL | FULL.
#[global] Instance DurabilityMode_eq_dec : EqDecision DurabilityMode.
Proof. solve_decision. Defined.

Module Edge.
(** the state of an open [EdgeDatabaseService] *)
(* edge-database.ts:29-37 EdgeDatabaseService *)
Record t := mk { db : Db.t; inTransaction : bool; currentDurabilityMode : DurabilityMode }.
#[global] Instance eta_t : Eta t := λ s, mk (db s) (inTransaction s) (currentDurabilityMode s).
Definition initial : t := mk Db.empty false NORMAL.
End Edge.

Abbreviation Tx := (M Edge.t PosError).

(** a SELECT and a mutation statement on the connection *)
Definition query {A} (f : Db.t → A) : Tx A := gets (λ s, f (Edge.db s)).
Definition exec (f : Db.t → Db.t) : Tx unit := modify (λ s, s <| Edge.db ::= f |>).

(* edge-database.ts:204-247 runInDurabilityMode *)
Definition runInDurabilityMode {A} (mode : DurabilityMode) (fn : Tx A) : Tx A := λ s,
  let priorMode := Edge.currentDurabilityMode s in
  let s1 := if decide (mode = priorMode) then s else s <| Edge.currentDurabilityMode := mode |> in
  let '(s2, result) := fn s1 in
  let s3 := if decide (Edge.currentDurabilityMode s2 = priorMode) then s2
            else s2 <| Edge.currentDurabilityMode := priorMode |> in
  (s3, result).

(** BEGIN; fn; COMMIT or ROLLBACK.  BEGIN inside a transaction is an error of the driver,
    raised before [fn] runs. *)
(* edge-database.ts:263-309 executeTx *)
Definition executeTx {A} (fn : Tx A) : Tx A := λ s,
  if Edge.inTransaction s
  then (s, Err (SqliteError "cannot start a transaction within a transaction"))
  else
    match fn (s <| Edge.inTransaction := true |>) with
    | (s', Ok result) => (s' <| Edge.inTransaction := false |>, Ok result)
    | (s', Err opErr) => (s' <| Edge.db := Edge.db s |> <| Edge.inTransaction := false |>, Err opErr)
    end.

(* edge-database.ts:259-316 runInTransaction *)
Definition runInTransaction {A} (fn : Tx A) (durabilityMode : option DurabilityMode) : Tx A := λ s,
  match durabilityMode with
  | Some mode =>
      if decide (mode = Edge.currentDurabilityMode s) then executeTx fn s
      else runInDurabilityMode mode (executeTx fn) s
  | None => executeTx fn s
  end.

(** the result of an UPDATE guarded by [WHERE id = ? AND version = ?]: whether a row changed *)
Definition update_cas {R} (table : gmap string R) (version : R → Z) (id : string)
    (expectedVersion : Z) (f : R → R) : option (gmap string R) :=
  match table !! id with
  | Some r => if version r =? expectedVersion then Some (<[id := f r]> table) else None
  | None => None
  end.

(** ** Outbox *)

(** the characters [0-9a-f] under the [i] flag *)
Definition is_hex (c : ascii) : bool :=
  let n := N_of_ascii c in
  ((48 <=? n) && (n <=? 57) || (97 <=? n) && (n <=? 102) || (65 <=? n) && (n <=? 70))%N.

Fixpoint matches (pat : list (ascii → bool)) (s : string) : bool :=
  match pat, s with
  | [], EmptyString => true
  | p :: pat', String c s' => p c && matches pat' s'
  | _, _ => false
  end.

(* sync-contracts.ts:88-96 isValidUuidV4 *)
Definition isValidUuidV4 (val : string) : bool :=
  let hyphen c := bool_decide (c = "-"%char) in
  let four c := bool_decide (c = "4"%char) in
  let variant c := bool_decide (c ∈ ["8";"9";"a";"b";"A";"B"]%char) in
  let hex n := replicate n is_hex in
  matches (hex 8%nat ++ [hyphen] ++ hex 4%nat ++ [hyphen; four] ++ hex 3%nat ++
           [hyphen; variant] ++ hex 3%nat ++ [hyphen] ++ hex 12%nat) val.

(** INSERT ... RETURNING: the stored row, [created_at] being SQLite's clock *)
(* outbox-persistence.ts:110-169 enqueue *)
Definition enqueue (createdAt : string) (input : EnqueueInput.t) : Tx OutboxRecord.t :=
  let clientOpId := EnqueueInput.clientOpId input in
  let seq := EnqueueInput.aggregateSequenceNumber input in
  throw_when (negb (isValidUuidV4 clientOpId))
    (Js (PlainError "clientOpId must be a valid UUIDv4")) ;;
  throw_when (negb (isSafeInteger seq) || (seq <? 1))
    (Js (PlainError "aggregateSequenceNumber must be a safe positive integer >= 1")) ;;
  rows ← query Db.outbox_queue;
  throw_when (bool_decide (EnqueueInput.id input ∈ (OutboxRecord.id <$> rows)))
    (SqliteError "outbox_queue.id") ;;
  throw_when (bool_decide (clientOpId ∈ (OutboxRecord.clientOpId <$> rows)))
    (SqliteError "outbox_queue.client_op_id") ;;
  let row := OutboxRecord.mk (EnqueueInput.id input) (EnqueueInput.organizationId input)
    (EnqueueInput.branchId input) (EnqueueInput.aggregateType input)
    (EnqueueInput.aggregateId input) (EnqueueInput.action input) clientOpId seq
    (EnqueueInput.payload input) PENDING None None 0 createdAt None None in
  exec (λ d, d <| Db.outbox_queue ::= (λ l, l ++ [row]) |>) ;;
  mret row.

(* outbox-persistence.ts:175-188 executeWithOutbox *)
Definition executeWithOutbox {A} (createdAt : string) (mutationFn : Tx A)
    (eventsFactory : A → list EnqueueInput.t) : Tx A :=
  runInTransaction (
    result ← mutationFn;
    for_each (λ event, enqueue createdAt event ;; mret tt) (eventsFactory result) ;;
    mret result) None.

(** ** Audit trail *)

(** [id] and [createdAt] are the values the call stores, given or drawn *)
(* local-audit-persistence.ts:70-109 recordAudit *)
Definition recordAudit (r : AuditRecord.t) : Tx AuditRecord.t :=
  rows ← query Db.local_audit_trail;
  throw_when (bool_decide (AuditRecord.id r ∈ (AuditRecord.id <$> rows)))
    (SqliteError "local_audit_trail.id") ;;
  exec (λ d, d <| Db.local_audit_trail ::= (λ l, l ++ [r]) |>) ;;
  mret r.

(** ** Lemmas *)

Lemma bind_query {A B} (f : Db.t → A) (k : A → Tx B) s :
  (query f ≫= k) s = k (f (Edge.db s)) s.
Proof. done. Qed.

Lemma bind_exec {B} (f : Db.t → Db.t) (k : unit → Tx B) s :
  (exec f ≫= k) s = k tt (s <| Edge.db ::= f |>).
Proof. done. Qed.

Lemma run_query {A} (f : Db.t → A) s : query f s = (s, Ok (f (Edge.db s))).
Proof. done. Qed.

Lemma run_exec (f : Db.t → Db.t) s : exec f s = (s <| Edge.db ::= f |>, Ok tt).
Proof. done. Qed.

#[export] Hint Rewrite @bind_query @bind_exec @run_query @run_exec : mrun.

(** [txinv H] inverts a successful run of statements on the connection *)
Ltac txinv H := unfold query, exec in H; minv H.

Lemma update_cas_Some {R} (table : gmap string R) version id v f table' :
  update_cas table version id v f = Some table' ↔
  ∃ r, table !! id = Some r ∧ version r = v ∧ table' = <[id := f r]> table.
Proof.
  unfold update_cas. destruct (table !! id) as [r|]; [|naive_solver].
  destruct (Z.eqb_spec (version r) v); naive_solver.
Qed.

Lemma update_cas_None {R} (table : gmap string R) version id v f :
  update_cas table version id v f = None ↔ ∀ r, table !! id = Some r → version r ≠ v.
Proof.
  unfold update_cas. destruct (table !! id) as [r|]; [|naive_solver].
  destruct (Z.eqb_spec (version r) v); naive_solver.
Qed.

(** *** Transactions *)

(** a transaction either commits what [fn] did or leaves the tables as they were *)
Lemma executeTx_spec {A} (fn : Tx A) s s' res :
  Edge.inTransaction s = false → executeTx fn s = (s', res) →
  ∃ s1, fn (s <| Edge.inTransaction := true |>) = (s1, res) ∧
    Edge.inTransaction s' = false ∧
    Edge.currentDurabilityMode s' = Edge.currentDurabilityMode s1 ∧
    Edge.db s' = match res with Ok _ => Edge.db s1 | Err _ => Edge.db s end.
Proof.
  intros Htx. unfold executeTx. rewrite Htx.
  destruct (fn _) as [s1 [a|e]] eqn:Hfn; intros [= <- <-]; exists s1; done.
Qed.

Lemma executeTx_nested {A} (fn : Tx A) s :
  Edge.inTransaction s = true →
  executeTx fn s = (s, Err (SqliteError "cannot start a transaction within a transaction")).
Proof. intros H. unfold executeTx. by rewrite H. Qed.

Lemma runInTransaction_None {A} (fn : Tx A) : runInTransaction fn None = executeTx fn.
Proof. done. Qed.

(** the connection [fn] sees inside [runInTransaction fn dm] *)
Definition tx_entry (dm : option DurabilityMode) (s : Edge.t) : Edge.t :=
  match dm with
  | Some mode => s <| Edge.currentDurabilityMode := mode |> <| Edge.inTransaction := true |>
  | None => s <| Edge.inTransaction := true |>
  end.

Lemma Edge_eta s : Edge.mk (Edge.db s) (Edge.inTransaction s) (Edge.currentDurabilityMode s) = s.
Proof. by destruct s. Qed.

Lemma runInTransaction_spec {A} (fn : Tx A) dm s s' res :
  Edge.inTransaction s = false → runInTransaction fn dm s = (s', res) →
  ∃ s1, fn (tx_entry dm s) = (s1, res) ∧ Edge.inTransaction s' = false ∧
    (dm ≠ None → Edge.currentDurabilityMode s1 = Edge.currentDurabilityMode (tx_entry dm s) →
     Edge.currentDurabilityMode s' = Edge.currentDurabilityMode s) ∧
    Edge.db s' = match res with Ok _ => Edge.db s1 | Err _ => Edge.db s end.
Proof.
  intros Htx. unfold runInTransaction, tx_entry. destruct dm as [mode|].
  - destruct (decide (mode = Edge.currentDurabilityMode s)) as [->|Hne].
    + intros (s1 & Hfn & Hin & Hmode & Hdb)%executeTx_spec; [|done].
      destruct s as [d t m]. simpl in *. exists s1. split_and!; try done. intros _ ?. congruence.
    + unfold runInDurabilityMode. rewrite decide_False by done.
      destruct (executeTx fn _) as [s2 r] eqn:He.
      apply executeTx_spec in He as (s1 & Hfn & Hin & Hmode & Hdb); [|done].
      intros [= <- <-]. exists s1. split; [exact Hfn|].
      case_decide; simpl; split_and!; done.
  - intros (s1 & Hfn & Hin & Hmode & Hdb)%executeTx_spec; [|done]. exists s1. by split_and!.
Qed.

Lemma runInTransaction_err {A} (fn : Tx A) dm s s' e :
  Edge.inTransaction s = false → runInTransaction fn dm s = (s', Err e) →
  Edge.db s' = Edge.db s ∧ Edge.inTransaction s' = false.
Proof. intros Htx (s1 & _ & ? & _ & ?)%runInTransaction_spec; done. Qed.

(** a transaction that succeeds ran its body on the same tables *)
Lemma runInTransaction_ok {A} (fn : Tx A) dm s s' a :
  runInTransaction fn dm s = (s', Ok a) →
  Edge.inTransaction s = false ∧
  ∃ s1, fn (tx_entry dm s) = (s1, Ok a) ∧ Edge.db s' = Edge.db s1 ∧ Edge.inTransaction s' = false.
Proof.
  intros Hrun. destruct (Edge.inTransaction s) eqn:Htx.
  - exfalso. unfold runInTransaction in Hrun.
    assert (Hno : ∀ u u' b, Edge.inTransaction u = true → executeTx fn u ≠ (u', Ok b)).
    { intros u u' b Hu He. by rewrite executeTx_nested in He. }
    destruct dm as [mode|]; [|by eapply Hno]. case_decide; [by eapply Hno|].
    unfold runInDurabilityMode in Hrun. destruct (executeTx fn _) as [u r] eqn:He.
    injection Hrun as _ ->. revert He. apply Hno. by case_decide.
  - split; [done|]. apply runInTransaction_spec in Hrun as (s1 & ? & ? & _ & ?); [|done]. by exists s1.
Qed.

Lemma tx_entry_db dm s : Edge.db (tx_entry dm s) = Edge.db s.
Proof. by destruct dm. Qed.

(** *** Programs that only read, and programs whose failure writes nothing *)

Definition readonly {A} (m : Tx A) : Prop := ∀ s s' r, m s = (s', r) → s' = s.
Definition atomic {A} (m : Tx A) : Prop :=
  ∀ s s' e, Edge.inTransaction s = false → m s = (s', Err e) → Edge.db s' = Edge.db s.

Lemma readonly_query {A} (f : Db.t → A) : readonly (query f).
Proof. by intros s s' r [= <- _]. Qed.
Lemma readonly_ret {A} (a : A) : readonly (mret a).
Proof. by intros s s' r [= <- _]. Qed.
Lemma readonly_throw {A} (e : PosError) : readonly (mthrow e : Tx A).
Proof. by intros s s' r [= <- _]. Qed.
Lemma readonly_throw_when b e : readonly (throw_when b e).
Proof. destruct b; [apply readonly_throw|apply readonly_ret]. Qed.
Lemma readonly_require {A} (o : option A) e : readonly (require o e).
Proof. destruct o; [apply readonly_ret|apply readonly_throw]. Qed.
Lemma readonly_lift {A} (r : result PosError A) : readonly (lift r).
Proof. by intros s s' r' [= <- _]. Qed.
Lemma readonly_bind {A B} (m : Tx A) (k : A → Tx B) :
  readonly m → (∀ a, readonly (k a)) → readonly (m ≫= k).
Proof.
  intros Hm Hk s s' r. unfold mbind, M_bind. destruct (m s) as [s1 [a|e]] eqn:He; apply Hm in He as ->.
  - apply Hk.
  - by intros [= <- _].
Qed.

Lemma atomic_readonly {A} (m : Tx A) : readonly m → atomic m.
Proof. intros Hm s s' e _ He. by apply Hm in He as ->. Qed.
Lemma atomic_bind {A B} (m : Tx A) (k : A → Tx B) : readonly m → (∀ a, atomic (k a)) → atomic (m ≫= k).
Proof.
  intros Hm Hk s s' e Htx [He|(a & s1 & Ha & He)]%bind_err; [by apply Hm in He as ->|].
  apply Hm in Ha as ->. by eapply Hk.
Qed.
Lemma atomic_bind_ret {A B} (m : Tx A) (f : A → B) : atomic m → atomic (m ≫= λ a, mret (f a)).
Proof. intros Hm s s' e Htx [He|(a & s1 & Ha & He)]%bind_err; [by eapply Hm|discriminate He]. Qed.
Lemma atomic_tx {A} (fn : Tx A) dm : atomic (runInTransaction fn dm).
Proof. by intros s s' e Htx [? _]%runInTransaction_err. Qed.

Create HintDb effects.
#[export] Hint Resolve readonly_query readonly_ret readonly_throw readonly_throw_when readonly_require
  readonly_lift atomic_tx : effects.

(** [solve_atomic] proves [readonly] and [atomic] by following the program *)
Ltac solve_atomic :=
  repeat first
    [ solve [auto with effects]
    | match goal with
      | |- atomic (_ ≫= λ _, mret _) => apply atomic_bind_ret
      | |- atomic (_ ≫= _) => apply atomic_bind; [|intros ?]
      | |- readonly (_ ≫= _) => apply readonly_bind; [|intros ?]
      | |- readonly (match ?x with _ => _ end) => destruct x
      | |- atomic (match ?x with _ => _ end) => destruct x
      | |- atomic _ => apply atomic_readonly
      end ].

(** programs that leave the connection outside a transaction *)
Definition settled {A} (m : Tx A) : Prop :=
  ∀ s s' r, Edge.inTransaction s = false → m s = (s', r) → Edge.inTransaction s' = false.

Lemma settled_readonly {A} (m : Tx A) : readonly m → settled m.
Proof. intros Hm s s' r Htx He. by apply Hm in He as ->. Qed.
Lemma settled_tx {A} (fn : Tx A) dm : settled (runInTransaction fn dm).
Proof. by intros s s' r Htx (? & _ & ? & _)%runInTransaction_spec. Qed.
Lemma settled_bind {A B} (m : Tx A) (k : A → Tx B) : settled m → (∀ a, settled (k a)) → settled (m ≫= k).
Proof.
  intros Hm Hk s s' r Htx. unfold mbind, M_bind. destruct (m s) as [s1 [a|e]] eqn:He.
  - apply Hk. by eapply Hm.
  - intros [= <- _]. by eapply Hm.
Qed.

#[export] Hint Resolve settled_tx : effects.

Ltac solve_settled :=
  repeat first
    [ solve [auto with effects]
    | match goal with
      | |- settled (_ ≫= _) => apply settled_bind; [|intros ?]
      | |- settled (match ?x with _ => _ end) => destruct x
      | |- settled _ => apply settled_readonly; solve [solve_atomic]
      end ].

(** *** Outbox *)

(** the row [enqueue] stores for an event *)
Definition outbox_row (createdAt : string) (e : EnqueueInput.t) : OutboxRecord.t :=
  OutboxRecord.mk (EnqueueInput.id e) (EnqueueInput.organizationId e) (EnqueueInput.branchId e)
    (EnqueueInput.aggregateType e) (EnqueueInput.aggregateId e) (EnqueueInput.action e)
    (EnqueueInput.clientOpId e) (EnqueueInput.aggregateSequenceNumber e)
    (EnqueueInput.payload e) PENDING None None 0 createdAt None None.

Definition valid_event (e : EnqueueInput.t) : Prop :=
  isValidUuidV4 (EnqueueInput.clientOpId e) = true ∧
  1 <= EnqueueInput.aggregateSequenceNumber e <= MAX_SAFE_INTEGER.

Lemma enqueue_ok createdAt e s s' r :
  enqueue createdAt e s = (s', Ok r) →
  r = outbox_row createdAt e ∧ valid_event e ∧
  EnqueueInput.id e ∉ (OutboxRecord.id <$> Db.outbox_queue (Edge.db s)) ∧
  EnqueueInput.clientOpId e ∉ (OutboxRecord.clientOpId <$> Db.outbox_queue (Edge.db s)) ∧
  s' = s <| Edge.db ::= (λ d, d <| Db.outbox_queue ::= (λ l, l ++ [outbox_row createdAt e]) |>) |>.
Proof.
  unfold enqueue. cbv zeta. intros H. txinv H. simpl_guards. unfold valid_event, isSafeInteger in *.
  simpl_guards. split_and!; try done; lia.
Qed.

(** keys of the outbox table *)
Definition outbox_keys (d : Db.t) : Prop :=
  NoDup (OutboxRecord.id <$> Db.outbox_queue d) ∧ NoDup (OutboxRecord.clientOpId <$> Db.outbox_queue d).

Lemma enqueue_all_ok createdAt events s s' :
  for_each (λ event, enqueue createdAt event ;; mret tt) events s = (s', Ok tt) →
  Forall valid_event events ∧
  (outbox_keys (Edge.db s) → outbox_keys (Edge.db s')) ∧
  s' = s <| Edge.db ::= (λ d, d <| Db.outbox_queue ::= (λ l, l ++ (outbox_row createdAt <$> events)) |>) |>.
Proof.
  revert s. induction events as [|e events IH]; intros s H; simpl in H.
  - injection H as <-. split_and!; [constructor|done|].
    destruct s as [[] ? ?]; unfold set; simpl. by rewrite app_nil_r.
  - minv H. match goal with He : enqueue _ _ _ = _ |- _ =>
      apply enqueue_ok in He as (-> & Hv & Hid & Hop & ->) end.
    apply IH in H as (Hall & Hkeys & ->). split_and!; [by constructor| |].
    + intros [H1 H2]. apply Hkeys. unfold outbox_keys. simpl. rewrite !fmap_app. simpl.
      split; by apply NoDup_snoc.
    + destruct s as [[] ? ?]; unfold set; simpl. by rewrite <- app_assoc.
Qed.

(** ** Properties *)

(** the transactional outbox is atomic.  Outside a transaction, running a mutation
    with its events either commits both, the tables being those the mutation left with
    one PENDING row appended per event in order, every event well formed and the row and
    client-operation keys still unique; or, whatever failed (the mutation, an invalid
    event, a duplicated client operation), leaves every table as it was.  In both cases
    the connection is out of the transaction; and inside another transaction nothing
    runs at all. *)
Theorem executeWithOutbox_atomic {A} createdAt (mutationFn : Tx A) eventsFactory s s' res :
  executeWithOutbox createdAt mutationFn eventsFactory s = (s', res) →
  if Edge.inTransaction s
  then s' = s ∧ res = Err (SqliteError "cannot start a transaction within a transaction")
  else Edge.inTransaction s' = false ∧
    match res with
    | Err _ => Edge.db s' = Edge.db s
    | Ok a => ∃ s1, mutationFn (s <| Edge.inTransaction := true |>) = (s1, Ok a) ∧
        Edge.db s' = (Edge.db s1) <| Db.outbox_queue ::= (λ l, l ++ (outbox_row createdAt <$> eventsFactory a)) |> ∧
        Forall valid_event (eventsFactory a) ∧
        (outbox_keys (Edge.db s1) → outbox_keys (Edge.db s'))
    end.
Proof.
  unfold executeWithOutbox. rewrite runInTransaction_None. destruct (Edge.inTransaction s) eqn:Htx.
  - rewrite executeTx_nested by done. by intros [= <- <-].
  - intros (s2 & Hfn & Hin & _ & Hdb)%executeTx_spec; [|done]. split; [done|].
    destruct res as [a|e]; [|done]. minv Hfn. eexists. split; [eassumption|].
    match goal with He : for_each _ _ _ = (_, Ok ?u) |- _ =>
      destruct u; apply enqueue_all_ok in He as (Hv & Hk & ->) end.
    rewrite Hdb. by split_and!.
Qed.

Definition example_op : string := "6ba7b810-9dad-41d1-80b4-00c04fd430c8".
Definition example_event : EnqueueInput.t :=
  EnqueueInput.mk "o1" "org" "br" "CUENTA" "c1" "CLOSE_CUENTA" example_op 2 (CloseCuentaPayload "c1" PAGADA "1.0000").

(** a mutation with one event on a fresh connection *)
Lemma executeWithOutbox_atomic_witness :
  let fn : Tx unit := exec (λ d, d <| Db.mesas := ∅ |>) in
  let '(s', res) := executeWithOutbox "t" fn (λ _, [example_event]) Edge.initial in
  res = Ok tt ∧ Edge.inTransaction s' = false ∧
  (OutboxRecord.clientOpId <$> Db.outbox_queue (Edge.db s')) = [example_op].
Proof.
  cbv zeta. destruct (executeWithOutbox _ _ _ _) as [s' res] eqn:He.
  assert (Hr : res = Ok tt) by (vm_compute in He; congruence). subst res.
  pose proof (executeWithOutbox_atomic _ _ _ _ _ _ He) as (Hin & s1 & Hfn & Hdb & _).
  split; [done|]. split; [exact Hin|]. rewrite Hdb. injection Hfn as <-. reflexivity.
Defined.
