(* ===== verification/DiningRepo.v ===== *)
(** The dining-room and account persistence ports (packages/pos/src/ports.ts), their
    laws, and the SQLite adapter of pos-edge-runtime's dining-sqlite-repository.ts.

    The ports are type classes over the state type; an optional method is an [option].
    [DiningLaws] states what a client may rely on: reads are pure and return the stored
    aggregate, a successful save is a compare-and-swap on the version that touches one
    aggregate.  The SQLite instance at the end of the file satisfies it. *)
From S2P Require Import Prelude PosTypes EdgeDb.

(** ** Ports *)

(* ports.ts:12-19 DiningRoomRepositoryPort *)
Class DiningRoomRepositoryPort (S : Type) := {
  getMesaById : string → M S PosError (option Mesa.t);
  saveMesa : Mesa.t → Z → M S PosError Mesa.t;
  listMesas : M S PosError (list Mesa.t);
  getMesaByIdSync : option (string → M S PosError (option Mesa.t));
  saveMesaSync : option (Mesa.t → Z → M S PosError Mesa.t);
  listMesasSync : option (M S PosError (list Mesa.t)) }.

(* ports.ts:21-28 AccountRepositoryPort *)
Class AccountRepositoryPort (S : Type) := {
  getCuentaById : string → M S PosError (option Cuenta.t);
  saveCuenta : Cuenta.t → Z → M S PosError Cuenta.t;
  listOpenCuentas : M S PosError (list Cuenta.t);
  getCuentaByIdSync : option (string → M S PosError (option Cuenta.t));
  saveCuentaSync : option (Cuenta.t → Z → M S PosError Cuenta.t);
  listOpenCuentasSync : option (M S PosError (list Cuenta.t)) }.

(** the columns of an account, without its lines *)
Definition header (c : Cuenta.t) : Cuenta.t := c <| Cuenta.items := [] |>.

(** what a stored account reads back as: an absent guest count is 1 *)
Definition stored (c : Cuenta.t) : Cuenta.t :=
  header c <| Cuenta.guestCount := Some (default 1 (Cuenta.guestCount c)) |>.

(** ... and when it replaces [old]: who opened it and when are not updated *)
Definition stored_over (old c : Cuenta.t) : Cuenta.t :=
  stored c <| Cuenta.openedByUserId := Cuenta.openedByUserId old |>
           <| Cuenta.openedAt := Cuenta.openedAt old |>.

Definition upd {V} (f : string → option V) (k : string) (v : V) : string → option V :=
  λ k', if decide (k' = k) then Some v else f k'.

Class DiningLaws (S : Type) `{DiningRoomRepositoryPort S, AccountRepositoryPort S} := {
  mesaOf : S → string → option Mesa.t;
  headerOf : S → string → option Cuenta.t;
  getMesa_law : ∃ get, getMesaByIdSync = Some get ∧ ∀ id s, get id s = (s, Ok (mesaOf s id));
  saveMesa_law : ∃ save, saveMesaSync = Some save ∧ ∀ m v s s' r,
    save m v s = (s', Ok r) →
    r = m ∧ (∀ id, mesaOf s' id = upd (mesaOf s) (Mesa.id m) m id) ∧
    (∀ id, headerOf s' id = headerOf s id) ∧
    match mesaOf s (Mesa.id m) with Some old => v = Mesa.version old ∧ v ≠ 0 | None => v = 0 end;
  getCuenta_law : ∃ get, getCuentaByIdSync = Some get ∧ ∀ id s,
    ∃ c, get id s = (s, Ok c) ∧ header <$> c = headerOf s id;
  saveCuenta_law : ∃ save, saveCuentaSync = Some save ∧ ∀ c v s s' r,
    save c v s = (s', Ok r) →
    r = c ∧ (∀ id, mesaOf s' id = mesaOf s id) ∧
    match headerOf s (Cuenta.id c) with
    | Some old => v = Cuenta.version old ∧ v ≠ 0 ∧
        ∀ id, headerOf s' id = upd (headerOf s) (Cuenta.id c) (stored_over old c) id
    | None => v = 0 ∧ ∀ id, headerOf s' id = upd (headerOf s) (Cuenta.id c) (stored c) id
    end;
  mesaOf_id : ∀ s id m, mesaOf s id = Some m → Mesa.id m = id;
  headerOf_id : ∀ s id c, headerOf s id = Some c → Cuenta.id c = id }.

(** ** The SQLite adapter *)

Module SqliteDining.

(** *** Tables *)

(* dining-sqlite-repository.ts:140-151 getMesaByIdSync, row mapping *)
Definition rowToMesa (id : string) (row : MesaRow.t) : Mesa.t :=
  Mesa.mk id (MesaRow.room_name row) (MesaRow.table_number row) (MesaRow.status row)
    (MesaRow.current_account_id row) (MesaRow.pos_x row) (MesaRow.pos_y row)
    (MesaRow.capacity row) (MesaRow.version row) (MesaRow.updated_at row).

(* dining-sqlite-repository.ts:166-179 saveMesaSync, column values *)
Definition mesaToRow (m : Mesa.t) : MesaRow.t :=
  MesaRow.mk (Mesa.roomName m) (Mesa.tableNumber m) (Mesa.status m) (Mesa.currentAccountId m)
    (Mesa.posX m) (Mesa.posY m) (Mesa.capacity m) (Mesa.version m) (Mesa.updatedAt m).

Definition selectMesa (d : Db.t) (id : string) : option Mesa.t := rowToMesa id <$> Db.mesas d !! id.

(* dining-sqlite-repository.ts:130-152 getMesaByIdSync *)
Definition getMesaByIdSync (id : string) : Tx (option Mesa.t) := query (λ d, selectMesa d id).

(* dining-sqlite-repository.ts:158-208 saveMesaSync *)
Definition saveMesaSync (mesa : Mesa.t) (expectedVersion : Z) : Tx Mesa.t :=
  if expectedVersion =? 0 then
    existing ← getMesaByIdSync (Mesa.id mesa);
    throw_when (bool_decide (is_Some existing)) (DomainError "DUPLICATE_MESA" 409) ;;
    exec (λ d, d <| Db.mesas ::= <[Mesa.id mesa := mesaToRow mesa]> |>) ;;
    mret mesa
  else
    changed ← query (λ d, update_cas (Db.mesas d) MesaRow.version (Mesa.id mesa) expectedVersion
                            (λ _, mesaToRow mesa));
    match changed with
    | None =>
        current ← getMesaByIdSync (Mesa.id mesa);
        mthrow (OCCConflictError (Mesa.id mesa) expectedVersion
                  (match current with Some c => Mesa.version c | None => 0 end) (SnapMesa current))
    | Some table => exec (λ d, d <| Db.mesas := table |>) ;; mret mesa
    end.

(** ORDER BY table_number; tables with equal numbers come in no particular order *)
(* dining-sqlite-repository.ts:214-231 listMesasSync *)
Definition listMesasSync : Tx (list Mesa.t) :=
  query (λ d, orderBy Mesa.tableNumber ((λ '(id, r), rowToMesa id r) <$> map_to_list (Db.mesas d))).

(** *** Accounts *)

(* dining-sqlite-repository.ts:274-280 getCuentaByIdSync, modifier mapping *)
Definition rowToModificador (m : ModificadorRow.t) : Modificador.t :=
  Modificador.mk (ModificadorRow.id m) (ModificadorRow.cuenta_item_id m)
    (ModificadorRow.modifier_id m) (ModificadorRow.modifier_name_snapshot m)
    (ModificadorRow.modifier_price_applied m).

(* dining-sqlite-repository.ts:267-302 getCuentaByIdSync, item mapping *)
Definition rowToItem (mods : list ModificadorRow.t) (r : CuentaItemRow.t) : CuentaItem.t :=
  CuentaItem.mk (CuentaItemRow.id r) (CuentaItemRow.cuenta_id r) (CuentaItemRow.product_id r)
    (CuentaItemRow.product_name_snapshot r) (CuentaItemRow.unit_price_applied r)
    (CuentaItemRow.quantity r) (CuentaItemRow.tax_rate_applied r)
    (CuentaItemRow.tax_amount_applied r) (CuentaItemRow.discount_amount_applied r)
    (CuentaItemRow.subtotal r) (CuentaItemRow.total r) (CuentaItemRow.status r)
    (CuentaItemRow.cancellation_reason r) (CuentaItemRow.cancelled_by_user_id r)
    (CuentaItemRow.cancelled_at r) (CuentaItemRow.requires_waste_record r)
    (CuentaItemRow.created_at r)
    (rowToModificador <$> filter (λ m, ModificadorRow.cuenta_item_id m = CuentaItemRow.id r) mods).

(* dining-sqlite-repository.ts:256-264 getCuentaByIdSync, items query *)
Definition selectItems (d : Db.t) (id : string) : list CuentaItemRow.t :=
  orderBy CuentaItemRow.created_at (filter (λ r, CuentaItemRow.cuenta_id r = id) (Db.cuenta_items d)).

(* dining-sqlite-repository.ts:304-334 getCuentaByIdSync, row mapping *)
Definition rowToCuenta (id : string) (row : CuentaRow.t) (items : list CuentaItem.t) : Cuenta.t :=
  Cuenta.mk id (CuentaRow.folio_number row) (CuentaRow.epoch_id row) (CuentaRow.mesa_id row)
    (CuentaRow.account_type row) (CuentaRow.status row) (CuentaRow.subtotal row)
    (CuentaRow.tax_total row) (CuentaRow.discounts_total row) (CuentaRow.tips_total row)
    (CuentaRow.total_amount row) (CuentaRow.opened_by_user_id row)
    (CuentaRow.current_waiter_user_id row) (Some (default 1 (CuentaRow.guest_count row)))
    (CuentaRow.opened_at row) (CuentaRow.printed_at row) (CuentaRow.closed_at row)
    (CuentaRow.version row) (CuentaRow.updated_at row) (CuentaRow.parent_cuenta_id row)
    (CuentaRow.split_sequence row) items.

Definition selectCuenta (d : Db.t) (id : string) : option Cuenta.t :=
  match Db.cuentas d !! id with
  | None => None
  | Some row => Some (rowToCuenta id row (rowToItem (Db.cuenta_item_modificadores d) <$> selectItems d id))
  end.

(* dining-sqlite-repository.ts:241-335 getCuentaByIdSync *)
Definition getCuentaByIdSync (id : string) : Tx (option Cuenta.t) := query (λ d, selectCuenta d id).

(* dining-sqlite-repository.ts:357-377 saveCuentaSync, INSERT values *)
Definition cuentaToRow (c : Cuenta.t) : CuentaRow.t :=
  CuentaRow.mk (Cuenta.folioNumber c) (Cuenta.epochId c) (Cuenta.mesaId c) (Cuenta.accountType c)
    (Cuenta.status c) (Cuenta.subtotal c) (Cuenta.taxTotal c) (Cuenta.discountsTotal c)
    (Cuenta.tipsTotal c) (Cuenta.totalAmount c) (Cuenta.openedByUserId c)
    (Cuenta.currentWaiterUserId c) (Some (default 1 (Cuenta.guestCount c))) (Cuenta.openedAt c)
    (Cuenta.printedAt c) (Cuenta.closedAt c) (Cuenta.parentCuentaId c) (Cuenta.splitSequence c)
    (Cuenta.version c) (Cuenta.updatedAt c).

(** the UPDATE sets every column but opened_by_user_id and opened_at *)
(* dining-sqlite-repository.ts:385-412 saveCuentaSync, UPDATE *)
Definition updateCuentaRow (c : Cuenta.t) (old : CuentaRow.t) : CuentaRow.t :=
  CuentaRow.mk (Cuenta.folioNumber c) (Cuenta.epochId c) (Cuenta.mesaId c) (Cuenta.accountType c)
    (Cuenta.status c) (Cuenta.subtotal c) (Cuenta.taxTotal c) (Cuenta.discountsTotal c)
    (Cuenta.tipsTotal c) (Cuenta.totalAmount c) (CuentaRow.opened_by_user_id old)
    (Cuenta.currentWaiterUserId c) (Some (default 1 (Cuenta.guestCount c))) (CuentaRow.opened_at old)
    (Cuenta.printedAt c) (Cuenta.closedAt c) (Cuenta.parentCuentaId c) (Cuenta.splitSequence c)
    (Cuenta.version c) (Cuenta.updatedAt c).

(* dining-sqlite-repository.ts:455-471 persistItemsAndModifiers, INSERT values *)
Definition itemToRow (i : CuentaItem.t) : CuentaItemRow.t :=
  CuentaItemRow.mk (CuentaItem.id i) (CuentaItem.cuentaId i) (CuentaItem.productId i)
    (CuentaItem.productNameSnapshot i) (CuentaItem.unitPriceApplied i) (CuentaItem.quantity i)
    (CuentaItem.taxRateApplied i) (CuentaItem.taxAmountApplied i)
    (CuentaItem.discountAmountApplied i) (CuentaItem.subtotal i) (CuentaItem.total i)
    (CuentaItem.status i) (CuentaItem.cancellationReason i) (CuentaItem.cancelledByUserId i)
    (CuentaItem.cancelledAt i) (CuentaItem.requiresWasteRecord i) (CuentaItem.createdAt i).

(** the DO UPDATE SET list: account, product and creation time are kept *)
(* dining-sqlite-repository.ts:442-454 persistItemsAndModifiers, ON CONFLICT *)
Definition updateItemRow (i : CuentaItem.t) (old : CuentaItemRow.t) : CuentaItemRow.t :=
  CuentaItemRow.mk (CuentaItemRow.id old) (CuentaItemRow.cuenta_id old) (CuentaItemRow.product_id old)
    (CuentaItemRow.product_name_snapshot old) (CuentaItem.unitPriceApplied i) (CuentaItem.quantity i)
    (CuentaItem.taxRateApplied i) (CuentaItem.taxAmountApplied i)
    (CuentaItem.discountAmountApplied i) (CuentaItem.subtotal i) (CuentaItem.total i)
    (CuentaItem.status i) (CuentaItem.cancellationReason i) (CuentaItem.cancelledByUserId i)
    (CuentaItem.cancelledAt i) (CuentaItem.requiresWasteRecord i) (CuentaItemRow.created_at old).

Definition upsertItemRow (i : CuentaItem.t) (rows : list CuentaItemRow.t) : list CuentaItemRow.t :=
  if decide (CuentaItem.id i ∈ (CuentaItemRow.id <$> rows))
  then (λ r, if decide (CuentaItemRow.id r = CuentaItem.id i) then updateItemRow i r else r) <$> rows
  else rows ++ [itemToRow i].

(* dining-sqlite-repository.ts:475-487 persistItemsAndModifiers, modifier upsert *)
Definition upsertModificadorRow (m : Modificador.t) (rows : list ModificadorRow.t) : list ModificadorRow.t :=
  if decide (Modificador.id m ∈ (ModificadorRow.id <$> rows))
  then (λ r, if decide (ModificadorRow.id r = Modificador.id m)
             then ModificadorRow.mk (ModificadorRow.id r) (ModificadorRow.cuenta_item_id r)
                    (ModificadorRow.modifier_id r) (Modificador.modifierNameSnapshot m)
                    (Modificador.modifierPriceApplied m)
             else r) <$> rows
  else rows ++ [ModificadorRow.mk (Modificador.id m) (Modificador.cuentaItemId m)
                  (Modificador.modifierId m) (Modificador.modifierNameSnapshot m)
                  (Modificador.modifierPriceApplied m)].

(** an inserted line must reference an existing account, an inserted modifier an existing line *)
Definition persistItem (item : CuentaItem.t) : Tx unit :=
  d ← query id;
  throw_when (bool_decide (CuentaItem.id item ∉ (CuentaItemRow.id <$> Db.cuenta_items d) ∧
                           Db.cuentas d !! CuentaItem.cuentaId item = None))
    (SqliteError "FOREIGN KEY constraint failed") ;;
  exec (λ d, d <| Db.cuenta_items ::= upsertItemRow item |>).

Definition persistModificador (m : Modificador.t) : Tx unit :=
  d ← query id;
  throw_when (bool_decide (Modificador.id m ∉ (ModificadorRow.id <$> Db.cuenta_item_modificadores d) ∧
                           Modificador.cuentaItemId m ∉ (CuentaItemRow.id <$> Db.cuenta_items d)))
    (SqliteError "FOREIGN KEY constraint failed") ;;
  exec (λ d, d <| Db.cuenta_item_modificadores ::= upsertModificadorRow m |>).

(* dining-sqlite-repository.ts:432-490 persistItemsAndModifiers *)
Definition persistItemsAndModifiers (items : list CuentaItem.t) : Tx unit :=
  for_each (λ item, persistItem item ;; for_each persistModificador (CuentaItem.modifiers item)) items.

(* dining-sqlite-repository.ts:341-426 saveCuentaSync *)
Definition saveCuentaSync (cuenta : Cuenta.t) (expectedVersion : Z) : Tx Cuenta.t :=
  if expectedVersion =? 0 then
    existing ← getCuentaByIdSync (Cuenta.id cuenta);
    throw_when (bool_decide (is_Some existing)) (DomainError "DUPLICATE_CUENTA" 409) ;;
    exec (λ d, d <| Db.cuentas ::= <[Cuenta.id cuenta := cuentaToRow cuenta]> |>) ;;
    persistItemsAndModifiers (Cuenta.items cuenta) ;;
    mret cuenta
  else
    changed ← query (λ d, update_cas (Db.cuentas d) CuentaRow.version (Cuenta.id cuenta)
                            expectedVersion (updateCuentaRow cuenta));
    match changed with
    | None =>
        current ← getCuentaByIdSync (Cuenta.id cuenta);
        mthrow (OCCConflictError (Cuenta.id cuenta) expectedVersion
                  (match current with Some c => Cuenta.version c | None => 0 end) (SnapCuenta current))
    | Some table =>
        exec (λ d, d <| Db.cuentas := table |>) ;;
        persistItemsAndModifiers (Cuenta.items cuenta) ;;
        mret cuenta
    end.

Definition isOpenStatus (st : CuentaStatus) : bool :=
  match st with ABIERTA | IMPRESA => true | _ => false end.

(* dining-sqlite-repository.ts:492-505 listOpenCuentasSync *)
Definition listOpenCuentasSync : Tx (list Cuenta.t) :=
  query (λ d,
    let rows := filter (λ '(_, r), isOpenStatus (CuentaRow.status r) = true) (map_to_list (Db.cuentas d)) in
    omap (λ '(id, _), selectCuenta d id) (orderBy (λ '(_, r), CuentaRow.opened_at r) rows)).

End SqliteDining.

(* dining-sqlite-repository.ts:90-96 SqliteDiningRoomRepository *)
#[export] Instance SqliteDiningRoomRepository : DiningRoomRepositoryPort Edge.t := {
  getMesaById := SqliteDining.getMesaByIdSync;
  saveMesa := SqliteDining.saveMesaSync;
  listMesas := SqliteDining.listMesasSync;
  getMesaByIdSync := Some SqliteDining.getMesaByIdSync;
  saveMesaSync := Some SqliteDining.saveMesaSync;
  listMesasSync := Some SqliteDining.listMesasSync }.

(* dining-sqlite-repository.ts:90-96 SqliteDiningRoomRepository *)
#[export] Instance SqliteAccountRepository : AccountRepositoryPort Edge.t := {
  getCuentaById := SqliteDining.getCuentaByIdSync;
  saveCuenta := SqliteDining.saveCuentaSync;
  listOpenCuentas := SqliteDining.listOpenCuentasSync;
  getCuentaByIdSync := Some SqliteDining.getCuentaByIdSync;
  saveCuentaSync := Some SqliteDining.saveCuentaSync;
  listOpenCuentasSync := Some SqliteDining.listOpenCuentasSync }.

(** ** Lemmas *)

Module SqliteDiningFacts.
Import SqliteDining.

Lemma run_getMesa id s : getMesaByIdSync id s = (s, Ok (selectMesa (Edge.db s) id)).
Proof. done. Qed.

Lemma run_getCuenta id s : getCuentaByIdSync id s = (s, Ok (selectCuenta (Edge.db s) id)).
Proof. done. Qed.

Lemma selectMesa_id d id m : selectMesa d id = Some m → Mesa.id m = id.
Proof. unfold selectMesa. destruct (_ !! _); [|done]. by intros [= <-]. Qed.

Lemma rowToMesa_mesaToRow m : rowToMesa (Mesa.id m) (mesaToRow m) = m.
Proof. by destruct m. Qed.

Lemma selectMesa_insert d id m :
  selectMesa (d <| Db.mesas ::= <[Mesa.id m := mesaToRow m]> |>) id = upd (selectMesa d) (Mesa.id m) m id.
Proof.
  unfold selectMesa, upd. simpl. destruct (decide (id = Mesa.id m)) as [->|Hne].
  - rewrite lookup_insert_eq. simpl. by rewrite rowToMesa_mesaToRow.
  - by rewrite lookup_insert_ne.
Qed.

(** header of the stored account, without reading its lines *)
Definition selectHeader (d : Db.t) (id : string) : option Cuenta.t :=
  (λ row, rowToCuenta id row []) <$> Db.cuentas d !! id.

Lemma selectHeader_spec d id : header <$> selectCuenta d id = selectHeader d id.
Proof. unfold selectCuenta, selectHeader. by destruct (_ !! _). Qed.

Lemma selectHeader_id d id c : selectHeader d id = Some c → Cuenta.id c = id.
Proof. unfold selectHeader. destruct (_ !! _); [|done]. by intros [= <-]. Qed.

Lemma selectHeader_insert d c row id :
  selectHeader (d <| Db.cuentas ::= <[Cuenta.id c := row]> |>) id =
  upd (selectHeader d) (Cuenta.id c) (rowToCuenta (Cuenta.id c) row []) id.
Proof.
  unfold selectHeader, upd. simpl. destruct (decide (id = Cuenta.id c)) as [->|Hne].
  - by rewrite lookup_insert_eq.
  - by rewrite lookup_insert_ne.
Qed.

Lemma rowToCuenta_cuentaToRow c : rowToCuenta (Cuenta.id c) (cuentaToRow c) [] = stored c.
Proof. by destruct c. Qed.

Lemma rowToCuenta_updateCuentaRow c old :
  rowToCuenta (Cuenta.id c) (updateCuentaRow c old) [] =
  stored_over (rowToCuenta (Cuenta.id c) old []) c.
Proof. by destruct c. Qed.

(** a successful save writes one row of [mesas] *)
Lemma saveMesa_ok m v s s' r :
  saveMesaSync m v s = (s', Ok r) →
  r = m ∧ s' = s <| Edge.db ::= (λ d, d <| Db.mesas ::= <[Mesa.id m := mesaToRow m]> |>) |> ∧
  match selectMesa (Edge.db s) (Mesa.id m) with
  | Some old => v = Mesa.version old ∧ v ≠ 0
  | None => v = 0
  end.
Proof.
  unfold saveMesaSync, getMesaByIdSync. intros H. destruct (Z.eqb_spec v 0) as [->|Hv].
  - txinv H. simpl_guards. split_and!; [done..|].
    destruct (selectMesa (Edge.db s) (Mesa.id r)); [by destruct Hguard|done].
  - txinv H. split; [done|].
    match goal with Hc : update_cas _ _ _ _ _ = Some _ |- _ => apply update_cas_Some in Hc as (old & Hl & Hver & ->) end.
    split; [done|]. unfold selectMesa. rewrite Hl. simpl. done.
Qed.

(** what [#persistItemsAndModifiers] may change *)
Definition lines_only (d d' : Db.t) : Prop :=
  d' = d <| Db.cuenta_items := Db.cuenta_items d' |>
         <| Db.cuenta_item_modificadores := Db.cuenta_item_modificadores d' |>.

#[export] Instance lines_only_preorder : PreOrder lines_only.
Proof.
  split.
  - by intros [].
  - intros [] [] [] H1 H2; injection H1 as; injection H2 as; subst; reflexivity.
Qed.

Definition only_lines {A} (m : Tx A) : Prop :=
  ∀ s s' r, m s = (s', r) →
    lines_only (Edge.db s) (Edge.db s') ∧ s' = s <| Edge.db := Edge.db s' |>.

Lemma only_lines_exec f : (∀ d, lines_only d (f d)) → only_lines (exec f).
Proof. intros Hf [d ? ?] s' r [= <- <-]. split; [apply Hf|done]. Qed.

Lemma only_lines_ret {A} (a : A) : only_lines (mret a).
Proof. intros [] s' r [= <- <-]. split; done. Qed.

Lemma only_lines_bind {A B} (m : Tx A) (k : A → Tx B) :
  only_lines m → (∀ a, only_lines (k a)) → only_lines (m ≫= k).
Proof.
  intros Hm Hk s s' r. unfold mbind, M_bind. destruct (m s) as [s1 [a|e]] eqn:He.
  - intros H. destruct (Hm _ _ _ He) as [H1 H1']. destruct (Hk _ _ _ _ H) as [H2 H2'].
    split; [by etrans|]. rewrite H2', H1'. done.
  - intros [= <- <-]. by apply (Hm _ _ _ He).
Qed.

Lemma only_lines_query {A} (f : Db.t → A) : only_lines (query f).
Proof. intros [] s' r [= <- <-]. done. Qed.

Lemma only_lines_throw_when b e : only_lines (throw_when b e).
Proof. intros [] s' r. destruct b; intros [= <- <-]; done. Qed.

Lemma only_lines_for_each {A} (f : A → Tx unit) l : (∀ x, only_lines (f x)) → only_lines (for_each f l).
Proof.
  intros Hf. induction l as [|x l IH]; simpl; [apply only_lines_ret|by apply only_lines_bind].
Qed.

Lemma only_lines_persist items : only_lines (persistItemsAndModifiers items).
Proof.
  apply only_lines_for_each. intros item. apply only_lines_bind; [|intros _; apply only_lines_for_each; intros m];
    (apply only_lines_bind; [apply only_lines_query|intros d]);
    (apply only_lines_bind; [apply only_lines_throw_when|intros _]);
    apply only_lines_exec; by intros [].
Qed.

(** a successful save writes one row of [cuentas], then the lines *)
Lemma saveCuenta_ok c v s s' r :
  saveCuentaSync c v s = (s', Ok r) →
  ∃ row, let s1 := s <| Edge.db ::= (λ d, d <| Db.cuentas ::= <[Cuenta.id c := row]> |>) |> in
  r = c ∧ persistItemsAndModifiers (Cuenta.items c) s1 = (s', Ok tt) ∧
  match Db.cuentas (Edge.db s) !! Cuenta.id c with
  | Some old => v = CuentaRow.version old ∧ v ≠ 0 ∧ row = updateCuentaRow c old
  | None => v = 0 ∧ row = cuentaToRow c
  end.
Proof.
  unfold saveCuentaSync, getCuentaByIdSync. intros H. destruct (Z.eqb_spec v 0) as [->|Hv].
  - txinv H. simpl_guards. exists (cuentaToRow r). split; [done|].
    match goal with Hp : persistItemsAndModifiers _ _ = (_, Ok ?u) |- _ => destruct u end.
    split; [eassumption|]. revert Hguard. unfold selectCuenta.
    destruct (_ !! _); [intros []; by eexists|done].
  - txinv H. match goal with Hc : update_cas _ _ _ _ _ = Some _ |- _ =>
      apply update_cas_Some in Hc as (old & Hl & Hver & ->) end.
    exists (updateCuentaRow r old). split; [done|].
    match goal with Hp : persistItemsAndModifiers _ _ = (_, Ok ?u) |- _ => destruct u end.
    split; [eassumption|]. by rewrite Hl.
Qed.

Lemma lines_only_select d d' id :
  lines_only d d' → selectMesa d' id = selectMesa d id ∧ selectHeader d' id = selectHeader d id.
Proof. intros ->. done. Qed.

End SqliteDiningFacts.

(** the adapter keeps the ports' promises *)
#[export] Program Instance SqliteDiningLaws : DiningLaws Edge.t := {|
  mesaOf s := SqliteDining.selectMesa (Edge.db s);
  headerOf s := SqliteDiningFacts.selectHeader (Edge.db s) |}.
Next Obligation. by eexists. Qed.
Next Obligation.
  eexists. split; [done|]. intros m v s s' r Hs.
  apply SqliteDiningFacts.saveMesa_ok in Hs as (-> & -> & Hv). split_and!; try done.
  intros id. apply SqliteDiningFacts.selectMesa_insert.
Qed.
Next Obligation.
  eexists. split; [done|]. intros id s. eexists. split; [done|]. apply SqliteDiningFacts.selectHeader_spec.
Qed.
Next Obligation.
  eexists. split; [done|]. intros c v s s' r Hs.
  apply SqliteDiningFacts.saveCuenta_ok in Hs as (row & -> & Hp & Hrow).
  apply SqliteDiningFacts.only_lines_persist in Hp as [Hl _]. split; [done|].
  assert (Hsel := λ id, SqliteDiningFacts.lines_only_select _ _ id Hl). simpl in Hsel.
  split; [intros id; by destruct (Hsel id) as [-> _]|].
  unfold SqliteDiningFacts.selectHeader at 1.
  destruct (Db.cuentas (Edge.db s) !! Cuenta.id c) as [old|]; simpl.
  - destruct Hrow as (Hv & Hnz & ->). split_and!; [done..|]. intros id.
    destruct (Hsel id) as [_ ->]. rewrite SqliteDiningFacts.selectHeader_insert.
    by rewrite SqliteDiningFacts.rowToCuenta_updateCuentaRow.
  - destruct Hrow as (Hv & ->). split; [done|]. intros id.
    destruct (Hsel id) as [_ ->]. rewrite SqliteDiningFacts.selectHeader_insert.
    by rewrite SqliteDiningFacts.rowToCuenta_cuentaToRow.
Qed.
Next Obligation. intros s id m. apply SqliteDiningFacts.selectMesa_id. Qed.
Next Obligation. intros s id c. apply SqliteDiningFacts.selectHeader_id. Qed.
