(* ===== verification/Policies.v ===== *)
(** The Product Owner policies of packages/pos/src/policies.ts: item cancellation
    (DEC-010), table transfer (DEC-011) and bill splitting (DEC-015).

    [bigint] division truncates toward zero ([Z.quot]).  A policy's refusal reason is a
    message and is not modelled. *)
From S2P Require Import Prelude PosTypes.
From Stdlib Require Import Ascii.

(** ** DEC-010: cancellation of a line *)

Module CancellationContext.
(* policies.ts:14-20 CancellationContext *)
Record t := mk {
  operatorUserId : string; kitchenStatus : string;
  hasSupervisorAuthorization : bool; reason : string }.
End CancellationContext.

Module CancellationResult.
(* policies.ts:22-26 CancellationResult *)
Record t := mk { allowed : bool; requiresWasteRecord : bool }.
End CancellationResult.

(* policies.ts:28-30 CancellationPolicy *)
Class CancellationPolicy := {
  canCancelItem : CuentaItem.t → CancellationContext.t → CancellationResult.t }.

(** the string value of a status *)
Definition itemStatusName (s : CuentaItemStatus) : string :=
  match s with
  | ORDENADO => "ORDENADO" | EN_COCINA => "EN_COCINA" | PREPARADO => "PREPARADO"
  | ENTREGADO => "ENTREGADO" | CANCELADO => "CANCELADO"
  end.

(** [toUpperCase] on ASCII letters; no other character maps into the names compared below *)
Definition upper (c : ascii) : ascii :=
  let n := N_of_ascii c in
  if ((97 <=? n) && (n <=? 122))%N then ascii_of_N (n - 32) else c.

Fixpoint toUpperCase (s : string) : string :=
  match s with EmptyString => EmptyString | String c s' => String (upper c) (toUpperCase s') end.

(* policies.ts:44-48 KdsStateBasedCancellationPolicy, isUnstarted *)
Definition isUnstarted (status : string) : bool :=
  bool_decide (status ∈ ["SIN_INICIAR"; "PENDIENTE"; "RECIBIDO"; "ORDENADO"]).

(* policies.ts:58-63 KdsStateBasedCancellationPolicy, isInProgressOrDelivered *)
Definition isInProgressOrDelivered (status : string) : bool :=
  bool_decide (status ∈ ["EN_PREPARACION"; "EN_COCINA"; "PREPARADO"; "LISTO"; "ENTREGADO"]).

(* policies.ts:32-96 KdsStateBasedCancellationPolicy *)
Definition kdsCanCancelItem (item : CuentaItem.t) (context : CancellationContext.t) : CancellationResult.t :=
  if blank (CancellationContext.reason context) then CancellationResult.mk false false
  else
    let status := toUpperCase (CancellationContext.kitchenStatus context) in
    if isUnstarted status then CancellationResult.mk true false
    else if isInProgressOrDelivered status then
      if negb (CancellationContext.hasSupervisorAuthorization context)
      then CancellationResult.mk false false
      else CancellationResult.mk true true
    else if negb (CancellationContext.hasSupervisorAuthorization context)
    then CancellationResult.mk false false
    else CancellationResult.mk true true.

#[export] Instance KdsStateBasedCancellationPolicy : CancellationPolicy := {| canCancelItem := kdsCanCancelItem |}.

(** ** DEC-011: transfers *)

Module TransferContext.
(** [targetWaiterUserId] is always given by the service *)
(* policies.ts:102-107 TransferValidationContext *)
Record t := mk {
  operatorUserId : string; targetWaiterUserId : string; targetWaiterPinProvided : bool;
  reason : option string }.
End TransferContext.

(* policies.ts:114-121 TransferValidationRule *)
Class TransferValidationRule := {
  validateTransfer : Mesa.t → Mesa.t → Cuenta.t → TransferContext.t → bool }.

(* policies.ts:123-163 ReceivingWaiterPinTransferValidationRule *)
Definition pinValidateTransfer (sourceMesa targetMesa : Mesa.t) (cuenta : Cuenta.t)
    (context : TransferContext.t) : bool :=
  if bool_decide (Cuenta.status cuenta ≠ ABIERTA) && bool_decide (Cuenta.status cuenta ≠ IMPRESA)
  then false
  else if bool_decide (Mesa.id sourceMesa = Mesa.id targetMesa) &&
          bool_decide (Some (TransferContext.targetWaiterUserId context) = Cuenta.currentWaiterUserId cuenta)
  then false
  else if bool_decide (Mesa.id sourceMesa ≠ Mesa.id targetMesa) &&
          bool_decide (Mesa.status targetMesa ≠ DISPONIBLE)
  then false
  else if negb (TransferContext.targetWaiterPinProvided context) then false
  else true.

#[export] Instance ReceivingWaiterPinTransferValidationRule : TransferValidationRule :=
  {| validateTransfer := pinValidateTransfer |}.

(** ** DEC-015: bill splitting *)

Module SplitPartitionPlan.
(* policies.ts:169-173 SplitPartitionPlan *)
Record t := mk { partitionId : string; itemIds : option (list string); ratioScale4 : option Z }.
End SplitPartitionPlan.

(* policies.ts:175-180 BillSplitProrationStrategy *)
Class BillSplitProrationStrategy := {
  prorateSplit : string → Cuenta.t → list SplitPartitionPlan.t → result PosError (list Cuenta.t) }.

(** the five amounts of a sub-account *)
Module Amounts.
Record t := mk { subtotal : Z; taxTotal : Z; discountsTotal : Z; tipsTotal : Z; totalAmount : Z }.
#[global] Instance eta_t : Eta t := λ a,
  mk (subtotal a) (taxTotal a) (discountsTotal a) (tipsTotal a) (totalAmount a).
Definition zero : t := mk 0 0 0 0 0.
Definition of_cuenta (c : Cuenta.t) : t :=
  mk (Cuenta.subtotal c) (Cuenta.taxTotal c) (Cuenta.discountsTotal c) (Cuenta.tipsTotal c) (Cuenta.totalAmount c).
Definition map2 (f : Z → Z → Z) (a b : t) : t :=
  mk (f (subtotal a) (subtotal b)) (f (taxTotal a) (taxTotal b)) (f (discountsTotal a) (discountsTotal b))
     (f (tipsTotal a) (tipsTotal b)) (f (totalAmount a) (totalAmount b)).
Definition map (f : Z → Z) (a : t) : t :=
  mk (f (subtotal a)) (f (taxTotal a)) (f (discountsTotal a)) (f (tipsTotal a)) (f (totalAmount a)).
Definition add := map2 Z.add.
Definition sub := map2 Z.sub.
End Amounts.

(* policies.ts:355-377 splitByRatio, subCuentas.push *)
Definition newSubCuenta (originalCuenta : Cuenta.t) (p : SplitPartitionPlan.t) (i : Z) (now : string)
    (a : Amounts.t) (items : list CuentaItem.t) : Cuenta.t :=
  Cuenta.mk (SplitPartitionPlan.partitionId p) None (Cuenta.epochId originalCuenta)
    (Cuenta.mesaId originalCuenta) (Cuenta.accountType originalCuenta) ABIERTA
    (Amounts.subtotal a) (Amounts.taxTotal a) (Amounts.discountsTotal a) (Amounts.tipsTotal a)
    (Amounts.totalAmount a) (Cuenta.openedByUserId originalCuenta)
    (Cuenta.currentWaiterUserId originalCuenta) (Some 1) now None None 1 now
    (Some (Cuenta.id originalCuenta)) (Some (i + 1)) items.

Definition ratioOf (p : SplitPartitionPlan.t) : Z := default 10000 (SplitPartitionPlan.ratioScale4 p).

(** the loop over the partitions from index [i], with the running sums *)
(* policies.ts:323-378 splitByRatio, loop *)
Fixpoint ratioLoop (originalCuenta : Cuenta.t) (totalRatio : Z) (now : string) (i : Z)
    (running : Amounts.t) (partitions : list SplitPartitionPlan.t) : list Cuenta.t :=
  match partitions with
  | [] => []
  | [p] => [newSubCuenta originalCuenta p i now (Amounts.sub (Amounts.of_cuenta originalCuenta) running) []]
  | p :: ps =>
      let a := Amounts.map (λ x, Z.quot (x * ratioOf p) totalRatio) (Amounts.of_cuenta originalCuenta) in
      newSubCuenta originalCuenta p i now a [] ::
      ratioLoop originalCuenta totalRatio now (i + 1) (Amounts.add running a) ps
  end.

(* policies.ts:302-381 splitByRatio *)
Definition splitByRatio (originalCuenta : Cuenta.t) (partitions : list SplitPartitionPlan.t) (now : string)
    : result PosError (list Cuenta.t) :=
  let totalRatio := foldl (λ sum p, sum + ratioOf p) 0 partitions in
  if totalRatio <=? 0 then Err (DomainError "INVALID_SPLIT_RATIO" 400)
  else Ok (ratioLoop originalCuenta totalRatio now 0 Amounts.zero partitions).

Definition itemIdsOf (p : SplitPartitionPlan.t) : list string := default [] (SplitPartitionPlan.itemIds p).

(** the set of assigned identifiers, [None] when one is assigned twice *)
(* policies.ts:211-224 splitByItems, assignedItemIds *)
Definition assignItems (partitions : list SplitPartitionPlan.t) : option (gset string) :=
  foldl (λ acc id, assigned ← acc; if decide (id ∈ assigned) then None else Some ({[id]} ∪ assigned))
    (Some ∅) (mjoin (itemIdsOf <$> partitions)).

(** [new Map(activeItems.map((i) => [i.id, i]))]: a later entry replaces an earlier one *)
(* policies.ts:234-234 splitByItems, itemMap *)
Definition itemMap (activeItems : list CuentaItem.t) : gmap string CuentaItem.t :=
  foldl (λ m i, <[CuentaItem.id i := i]> m) ∅ activeItems.

(* policies.ts:240-297 splitByItems, loop *)
Fixpoint itemsLoop (originalCuenta : Cuenta.t) (items : gmap string CuentaItem.t)
    (totalOriginalSubtotal : Z) (now : string) (i runningTips : Z)
    (partitions : list SplitPartitionPlan.t) : list Cuenta.t :=
  match partitions with
  | [] => []
  | p :: ps =>
      let isLast := match ps with [] => true | _ => false end in
      let partItems := omap (λ id, items !! id) (itemIdsOf p) in
      let partSubtotal := foldl (λ acc it, acc + CuentaItem.subtotal it) 0 partItems in
      let partTax := foldl (λ acc it, acc + CuentaItem.taxAmountApplied it) 0 partItems in
      let partItemDiscounts := foldl (λ acc it, acc + CuentaItem.discountAmountApplied it) 0 partItems in
      let proratedTips :=
        if 0 <? totalOriginalSubtotal then
          if isLast then Cuenta.tipsTotal originalCuenta - runningTips
          else Z.quot (Cuenta.tipsTotal originalCuenta * partSubtotal) totalOriginalSubtotal
        else 0 in
      let runningTips' :=
        if (0 <? totalOriginalSubtotal) && negb isLast then runningTips + proratedTips else runningTips in
      let partTotalAmount := partSubtotal - partItemDiscounts + partTax + proratedTips in
      newSubCuenta originalCuenta p i now
        (Amounts.mk partSubtotal partTax partItemDiscounts proratedTips partTotalAmount) partItems ::
      itemsLoop originalCuenta items totalOriginalSubtotal now (i + 1) runningTips' ps
  end.

Definition isActive (i : CuentaItem.t) : Prop := CuentaItem.status i ≠ CANCELADO.
#[export] Instance isActive_dec i : Decision (isActive i).
Proof. unfold isActive. apply _. Defined.

(* policies.ts:205-300 splitByItems *)
Definition splitByItems (originalCuenta : Cuenta.t) (partitions : list SplitPartitionPlan.t) (now : string)
    : result PosError (list Cuenta.t) :=
  let activeItems := filter isActive (Cuenta.items originalCuenta) in
  match assignItems partitions with
  | None => Err (DomainError "DUPLICATE_SPLIT_ITEM" 400)
  | Some assignedItemIds =>
      if decide (size assignedItemIds ≠ length activeItems)
      then Err (DomainError "INCOMPLETE_ITEM_SPLIT" 400)
      else Ok (itemsLoop originalCuenta (itemMap activeItems)
                 (foldl (λ sum item, sum + CuentaItem.subtotal item) 0 activeItems) now 0 0 partitions)
  end.

Definition isByItems (partitions : list SplitPartitionPlan.t) : bool :=
  existsb (λ p, negb (bool_decide (itemIdsOf p = []))) partitions.

(* policies.ts:182-203 ProportionalBillSplitStrategy.prorateSplit *)
Definition proportionalSplit (now : string) (originalCuenta : Cuenta.t)
    (partitions : list SplitPartitionPlan.t) : result PosError (list Cuenta.t) :=
  if decide (length partitions < 2)%nat then Err (DomainError "INVALID_SPLIT_PARTITIONS" 400)
  else if isByItems partitions then splitByItems originalCuenta partitions now
  else splitByRatio originalCuenta partitions now.

#[export] Instance ProportionalBillSplitStrategy : BillSplitProrationStrategy :=
  {| prorateSplit := proportionalSplit |}.

(** ** Lemmas *)

Lemma kdsCanCancelItem_spec item ctx :
  let check := kdsCanCancelItem item ctx in
  let status := toUpperCase (CancellationContext.kitchenStatus ctx) in
  (CancellationResult.allowed check = true ↔
   blank (CancellationContext.reason ctx) = false ∧
   (isUnstarted status = true ∨ CancellationContext.hasSupervisorAuthorization ctx = true)) ∧
  CancellationResult.requiresWasteRecord check =
    (CancellationResult.allowed check && negb (isUnstarted status)).
Proof.
  unfold kdsCanCancelItem. destruct (blank _); simpl; [naive_solver|].
  destruct (isUnstarted _); simpl; [naive_solver|].
  destruct (isInProgressOrDelivered _), (CancellationContext.hasSupervisorAuthorization ctx); simpl; naive_solver.
Qed.

Lemma pinValidateTransfer_spec src dst c ctx :
  pinValidateTransfer src dst c ctx = true ↔
  (Cuenta.status c = ABIERTA ∨ Cuenta.status c = IMPRESA) ∧
  ¬ (Mesa.id src = Mesa.id dst ∧ Some (TransferContext.targetWaiterUserId ctx) = Cuenta.currentWaiterUserId c) ∧
  (Mesa.id src ≠ Mesa.id dst → Mesa.status dst = DISPONIBLE) ∧
  TransferContext.targetWaiterPinProvided ctx = true.
Proof.
  unfold pinValidateTransfer. rewrite <- !bool_decide_and.
  repeat case_bool_decide; destruct (TransferContext.targetWaiterPinProvided ctx); simpl; split;
    intros; destruct_and?; split_and?; try done; try tauto;
    destruct (Cuenta.status c); destruct (Mesa.status dst); naive_solver.
Qed.

(** one of the five amounts *)
Record amount_field (fa : Amounts.t → Z) : Prop := {
  field_zero : fa Amounts.zero = 0;
  field_add : ∀ a b, fa (Amounts.add a b) = fa a + fa b;
  field_sub : ∀ a b, fa (Amounts.sub a b) = fa a - fa b;
  field_map : ∀ g a, fa (Amounts.map g a) = g (fa a) }.

Definition amount_fields : list (Amounts.t → Z) :=
  [Amounts.subtotal; Amounts.taxTotal; Amounts.discountsTotal; Amounts.tipsTotal; Amounts.totalAmount].

Lemma amount_fields_spec fa : fa ∈ amount_fields → amount_field fa.
Proof. unfold amount_fields. rewrite !elem_of_cons, elem_of_nil. intros H; destruct_or?; subst; done. Qed.

(** the loop seen on one amount [x] *)
Fixpoint shares (x totalRatio running : Z) (ratios : list Z) : list Z :=
  match ratios with
  | [] => []
  | [_] => [x - running]
  | r :: rs => let q := Z.quot (x * r) totalRatio in q :: shares x totalRatio (running + q) rs
  end.

Lemma of_newSubCuenta c p i now a items : Amounts.of_cuenta (newSubCuenta c p i now a items) = a.
Proof. by destruct a. Qed.

Lemma ratioLoop_shares fa c tr now i running ps :
  amount_field fa →
  (λ sub, fa (Amounts.of_cuenta sub)) <$> ratioLoop c tr now i running ps =
  shares (fa (Amounts.of_cuenta c)) tr (fa running) (ratioOf <$> ps).
Proof.
  intros Hf. revert i running. induction ps as [|p ps IH]; intros i running; [done|].
  destruct ps as [|p' ps].
  - simpl. rewrite of_newSubCuenta. by rewrite (field_sub _ Hf).
  - change (ratioLoop c tr now i running (p :: p' :: ps)) with
      (newSubCuenta c p i now (Amounts.map (λ x, Z.quot (x * ratioOf p) tr) (Amounts.of_cuenta c)) [] ::
       ratioLoop c tr now (i + 1)
         (Amounts.add running (Amounts.map (λ x, Z.quot (x * ratioOf p) tr) (Amounts.of_cuenta c))) (p' :: ps)).
    rewrite fmap_cons, IH, of_newSubCuenta, (field_add _ Hf), (field_map _ Hf). done.
Qed.

Lemma shares_sum x tr running rs : rs ≠ [] → running + sumZ id (shares x tr running rs) = x.
Proof.
  revert running. induction rs as [|r rs IH]; intros running Hne; [done|].
  destruct rs as [|r' rs]; [unfold sumZ; simpl; unfold id; lia|].
  change (shares x tr running (r :: r' :: rs)) with
    (Z.quot (x * r) tr :: shares x tr (running + Z.quot (x * r) tr) (r' :: rs)).
  rewrite sumZ_cons. specialize (IH (running + Z.quot (x * r) tr) ltac:(done)). unfold id at 1. lia.
Qed.

Lemma shares_length x tr running rs : length (shares x tr running rs) = length rs.
Proof.
  revert running. induction rs as [|r [|r' rs] IH]; intros running; [done..|].
  simpl in *. f_equal. apply IH.
Qed.

(** every share is within [n] units of the exact proportion, and none is negative *)
Lemma shares_bounds n x tr running rs :
  0 <= x → 0 < tr → Forall (λ r, 0 <= r) rs →
  running * tr <= x * (tr - sumZ id rs) < (running + n) * tr + 1 → 0 <= n →
  Forall2 (λ s r, 0 <= s ∧ x * r - tr < s * tr <= x * r + (n + Z.of_nat (length rs)) * tr) (shares x tr running rs) rs.
Proof.
  intros Hx Htr. revert running n. induction rs as [|r rs IH]; intros running n Hrs Hrun Hn; [constructor|].
  apply Forall_cons in Hrs as [Hr Hrs].
  destruct rs as [|r' rs].
  - constructor; [|constructor]. unfold sumZ in Hrun. simpl in Hrun. unfold id in Hrun. simpl length. nia.
  - change (shares x tr running (r :: r' :: rs)) with
      (Z.quot (x * r) tr :: shares x tr (running + Z.quot (x * r) tr) (r' :: rs)).
    rewrite sumZ_cons in Hrun. unfold id at 1 3 in Hrun.
    pose proof (Z.quot_rem (x * r) tr ltac:(lia)) as Hq.
    pose proof (Z.rem_bound_pos (x * r) tr ltac:(nia) ltac:(lia)) as Hrem.
    assert (Hq0 : 0 <= Z.quot (x * r) tr) by (apply Z.quot_pos; nia).
    set (q := Z.quot (x * r) tr) in *. constructor.
    + split; [lia|]. split; nia.
    + specialize (IH (running + q) (n + 1) Hrs).
      replace (n + Z.of_nat (length (r :: r' :: rs))) with (n + 1 + Z.of_nat (length (r' :: rs)))
        by (simpl length; lia).
      apply IH; [|lia]. nia.
Qed.

(** the identity fields of the sub-accounts *)
Lemma ratioLoop_length c tr now i running ps : length (ratioLoop c tr now i running ps) = length ps.
Proof.
  revert i running. induction ps as [|p [|p' ps] IH]; intros; [done..|]. simpl in *. f_equal. apply IH.
Qed.

Lemma ratioLoop_fields c tr now i running ps :
  Forall2 (λ sub p, Cuenta.id sub = SplitPartitionPlan.partitionId p ∧ Cuenta.status sub = ABIERTA ∧
    Cuenta.version sub = 1 ∧ Cuenta.mesaId sub = Cuenta.mesaId c ∧
    Cuenta.parentCuentaId sub = Some (Cuenta.id c) ∧ Cuenta.items sub = [])
    (ratioLoop c tr now i running ps) ps.
Proof.
  revert i running. induction ps as [|p [|p' ps] IH]; intros; [constructor|by repeat constructor|].
  constructor; [done|]. apply IH.
Qed.

Lemma splitByRatio_ok c ps now subs :
  splitByRatio c ps now = Ok subs →
  0 < sumZ ratioOf ps ∧ subs = ratioLoop c (sumZ ratioOf ps) now 0 Amounts.zero ps.
Proof.
  unfold splitByRatio. rewrite foldl_sumZ. replace (0 + sumZ ratioOf ps) with (sumZ ratioOf ps) by lia.
  destruct (Z.leb_spec (sumZ ratioOf ps) 0); [done|]. by intros [= <-].
Qed.

Lemma proportionalSplit_ratio now c ps subs :
  proportionalSplit now c ps = Ok subs → isByItems ps = false →
  (2 <= length ps)%nat ∧ splitByRatio c ps now = Ok subs.
Proof. unfold proportionalSplit. case_decide; [done|]. intros Hs Hi. rewrite Hi in Hs. split; [lia|done]. Qed.

Lemma proportionalSplit_items now c ps subs :
  proportionalSplit now c ps = Ok subs → isByItems ps = true →
  (2 <= length ps)%nat ∧ splitByItems c ps now = Ok subs.
Proof. unfold proportionalSplit. case_decide; [done|]. intros Hs Hi. rewrite Hi in Hs. split; [lia|done]. Qed.

(** ** Splitting by ratio *)

(** A split by ratio creates and loses no money.  Each of the five amounts of the
    sub-accounts (subtotal, taxes, discounts, tips, total) sums to the original's; and
    when the ratios and the amount are not negative, every share is non-negative and
    within one unit per partition of the exact proportion amount * ratio / total ratio. *)
Theorem ratio_split_conserves now c ps subs :
  proportionalSplit now c ps = Ok subs → isByItems ps = false →
  length subs = length ps ∧
  ∀ fa, fa ∈ amount_fields →
    let amount sub := fa (Amounts.of_cuenta sub) in
    let totalRatio := sumZ ratioOf ps in
    sumZ amount subs = amount c ∧
    (0 <= amount c → Forall (λ p, 0 <= ratioOf p) ps →
     Forall2 (λ sub p, 0 <= amount sub ∧
        Z.abs (amount sub * totalRatio - amount c * ratioOf p) <= Z.of_nat (length ps) * totalRatio) subs ps).
Proof.
  intros Hs Hi. apply proportionalSplit_ratio in Hs as [Hlen Hs]; [|done].
  apply splitByRatio_ok in Hs as [Htr ->]. split; [apply ratioLoop_length|].
  intros fa Hfa%amount_fields_spec. cbv zeta.
  pose proof (ratioLoop_shares fa c (sumZ ratioOf ps) now 0 Amounts.zero ps Hfa) as Hsh.
  rewrite (field_zero _ Hfa) in Hsh. split.
  - rewrite <- (sumZ_fmap id (λ sub, fa (Amounts.of_cuenta sub))), Hsh.
    apply (shares_sum _ _ 0). by destruct ps.
  - intros Hx Hrs.
    pose proof (shares_bounds 0 (fa (Amounts.of_cuenta c)) (sumZ ratioOf ps) 0 (ratioOf <$> ps) Hx Htr) as Hb.
    rewrite sumZ_fmap in Hb. unfold id in Hb. rewrite <- Hsh, length_fmap in Hb.
    rewrite Forall_fmap, Forall2_fmap in Hb. change (λ p, ratioOf p) with ratioOf in Hb.
    assert (Hrun : 0 * sumZ ratioOf ps <= fa (Amounts.of_cuenta c) * (sumZ ratioOf ps - sumZ ratioOf ps) <
                   (0 + 0) * sumZ ratioOf ps + 1) by lia.
    specialize (Hb Hrs Hrun ltac:(lia)).
    assert (sumZ ratioOf ps <= Z.of_nat (length ps) * sumZ ratioOf ps) by nia.
    eapply Forall2_impl; [exact Hb|]. simpl. intros sub p. lia.
Qed.

(** an account of 100.0000 split in three *)
Definition example_cuenta : Cuenta.t :=
  Cuenta.mk "c1" None "ep_1" None COMEDOR ABIERTA 862069 137931 0 0 1000000 "u1" (Some "u1") (Some 2)
    "2026-01-01T00:00:00.000Z" None None 3 "2026-01-01T00:00:00.000Z" None None [].
Definition example_plan (id : string) : SplitPartitionPlan.t := SplitPartitionPlan.mk id None None.

Lemma ratio_split_conserves_witness :
  let ps := [example_plan "a"; example_plan "b"; example_plan "d"] in
  ∃ subs, proportionalSplit "t" example_cuenta ps = Ok subs ∧
    (Cuenta.totalAmount <$> subs) = [333333; 333333; 333334] ∧
    sumZ Cuenta.totalAmount subs = 1000000 ∧
    Forall (λ sub, 0 <= Cuenta.totalAmount sub) subs.
Proof.
  eexists. split; [reflexivity|]. split; [reflexivity|].
  destruct (ratio_split_conserves "t" example_cuenta [example_plan "a"; example_plan "b"; example_plan "d"] _
    eq_refl eq_refl) as [_ Hf].
  destruct (Hf Amounts.totalAmount ltac:(unfold amount_fields; set_solver)) as [Hsum Hb].
  split; [exact Hsum|]. eapply Forall2_Forall_l; [apply Hb; [done|by repeat constructor]|].
  apply Forall_true. intros p sub. tauto.
Defined.

(** ** Splitting by items *)

Definition assignStep (acc : option (gset string)) (id : string) : option (gset string) :=
  assigned ← acc; if decide (id ∈ assigned) then None else Some ({[id]} ∪ assigned).

Lemma assignStep_None ids : foldl assignStep None ids = None.
Proof. by induction ids. Qed.

Lemma foldl_assign ids S S' :
  foldl assignStep (Some S) ids = Some S' →
  NoDup ids ∧ (∀ x, x ∈ ids → x ∉ S) ∧ size S' = (size S + length ids)%nat.
Proof.
  revert S. induction ids as [|x ids IH]; intros S; simpl.
  - intros [= <-]. split_and!; [constructor|set_solver|lia].
  - case_decide as Hx; [by rewrite assignStep_None|].
    intros (Hnd & Hnew & Hsz)%IH. split_and!.
    + constructor; [intros Hin; apply Hnew in Hin; set_solver|done].
    + intros y [->|Hy]%elem_of_cons; [done|]. apply Hnew in Hy. set_solver.
    + rewrite Hsz, size_union by set_solver. rewrite size_singleton. lia.
Qed.

Lemma assignItems_Some ps S :
  assignItems ps = Some S →
  NoDup (mjoin (itemIdsOf <$> ps)) ∧ size S = length (mjoin (itemIdsOf <$> ps)).
Proof. intros (H1 & _ & H3)%foldl_assign. by rewrite size_empty in H3. Qed.

Lemma foldl_itemMap_lookup l (m : gmap string CuentaItem.t) k i :
  NoDup (CuentaItem.id <$> l) → (∀ j, j ∈ l → m !! CuentaItem.id j = None) →
  foldl (λ m i, <[CuentaItem.id i := i]> m) m l !! k = Some i ↔
  (i ∈ l ∧ CuentaItem.id i = k) ∨ m !! k = Some i.
Proof.
  revert m. induction l as [|j l IH]; intros m Hnd Hm; simpl; [set_solver|].
  rewrite fmap_cons in Hnd. apply NoDup_cons in Hnd as [Hj Hnd].
  rewrite IH; [|done|].
  - rewrite lookup_insert_Some, elem_of_cons. split.
    + intros [[Hi Hk]|[[Hk Hi]|[Hk Hi]]]; [by left; auto|by left; subst; auto|by right].
    + intros [[[->|Hi] Hk]|Hi]; [by right; left|by left|]. right. right. split; [|done].
      intros <-. rewrite Hm in Hi; [done|set_solver].
  - intros j' Hj'. rewrite lookup_insert_ne; [apply Hm; set_solver|].
    intros Heq. apply Hj. rewrite Heq. by apply list_elem_of_fmap_2.
Qed.

Lemma itemMap_lookup l k i :
  NoDup (CuentaItem.id <$> l) → itemMap l !! k = Some i ↔ i ∈ l ∧ CuentaItem.id i = k.
Proof.
  intros Hnd. unfold itemMap. rewrite foldl_itemMap_lookup by done. rewrite lookup_empty. naive_solver.
Qed.

Lemma omap_itemMap l ids :
  NoDup (CuentaItem.id <$> l) → ids ≡ₚ (CuentaItem.id <$> l) → omap (λ id, itemMap l !! id) ids ≡ₚ l.
Proof.
  intros Hnd Hp. rewrite Hp. clear Hp ids.
  assert (H : ∀ l', l' ⊆ l → omap (λ id, itemMap l !! id) (CuentaItem.id <$> l') = l').
  { induction l' as [|i l' IH]; intros Hsub; [done|]. simpl.
    rewrite (proj2 (itemMap_lookup l (CuentaItem.id i) i Hnd)) by set_solver.
    f_equal. apply IH. set_solver. }
  by rewrite H.
Qed.

(** identifiers without repetition, as many as the items and all among them, name each once *)
Lemma exact_assignment (ids names : list string) :
  NoDup ids → length ids = length names → (∀ x, x ∈ ids → x ∈ names) → ids ≡ₚ names.
Proof.
  intros Hnd Hlen Hsub. apply submseteq_length_Permutation; [|lia]. by apply NoDup_submseteq.
Qed.

Lemma itemsLoop_items c m T now i rt ps :
  mjoin (Cuenta.items <$> itemsLoop c m T now i rt ps) = omap (λ id, m !! id) (mjoin (itemIdsOf <$> ps)).
Proof.
  revert i rt. induction ps as [|p ps IH]; intros i rt; [done|].
  simpl. rewrite omap_app. f_equal. apply IH.
Qed.

(** the amounts of a sub-account are those of its lines *)
Definition sub_of_items (sub : Cuenta.t) : Prop :=
  Cuenta.subtotal sub = sumZ CuentaItem.subtotal (Cuenta.items sub) ∧
  Cuenta.taxTotal sub = sumZ CuentaItem.taxAmountApplied (Cuenta.items sub) ∧
  Cuenta.discountsTotal sub = sumZ CuentaItem.discountAmountApplied (Cuenta.items sub) ∧
  Cuenta.totalAmount sub =
    Cuenta.subtotal sub - Cuenta.discountsTotal sub + Cuenta.taxTotal sub + Cuenta.tipsTotal sub.

Lemma itemsLoop_amounts c m T now i rt ps : Forall sub_of_items (itemsLoop c m T now i rt ps).
Proof.
  revert i rt. induction ps as [|p ps IH]; intros i rt; constructor; [|apply IH].
  unfold sub_of_items. simpl. rewrite !foldl_sumZ. split_and!; lia.
Qed.

Lemma itemsLoop_cons2 c m T now i rt p p' ps :
  ∃ sub q, itemsLoop c m T now i rt (p :: p' :: ps) =
      sub :: itemsLoop c m T now (i + 1) (if 0 <? T then rt + q else rt) (p' :: ps) ∧
    Cuenta.tipsTotal sub = if 0 <? T then q else 0.
Proof.
  cbn [itemsLoop]. destruct (0 <? T).
  - eexists _, _. split; reflexivity.
  - eexists _, 0. split; reflexivity.
Qed.

Lemma itemsLoop_tips c m T now i rt ps :
  ps ≠ [] → (T <= 0 → rt = 0) →
  rt + sumZ Cuenta.tipsTotal (itemsLoop c m T now i rt ps) = if 0 <? T then Cuenta.tipsTotal c else 0.
Proof.
  revert i rt. induction ps as [|p [|p' ps] IH]; intros i rt Hne Hrt; [done| |].
  - unfold sumZ. simpl. destruct (Z.ltb_spec 0 T); lia.
  - destruct (itemsLoop_cons2 c m T now i rt p p' ps) as (sub & q & -> & Hq).
    rewrite sumZ_cons, Hq. specialize (IH (i + 1) (if 0 <? T then rt + q else rt) ltac:(done)).
    destruct (Z.ltb_spec 0 T); [specialize (IH ltac:(lia))|specialize (IH Hrt)]; lia.
Qed.

Lemma itemsLoop_length c m T now i rt ps : length (itemsLoop c m T now i rt ps) = length ps.
Proof. revert i rt. induction ps as [|p ps IH]; intros; [done|]. simpl. f_equal. apply IH. Qed.

Lemma sumZ_mjoin {A} (f : A → Z) (l : list (list A)) : sumZ f (mjoin l) = sumZ (sumZ f) l.
Proof. induction l as [|x l IH]; [done|]. simpl. by rewrite sumZ_app, IH. Qed.

(** a split by items distributes exactly the active lines.  When the active lines
    have distinct identifiers and the plan names no other line, the lines of the
    sub-accounts are together a permutation of the active ones, so that subtotal, taxes
    and discounts add up to those of the active lines; each sub-account's total is
    subtotal - discounts + taxes + tips of its own lines; and the tips add up to the
    original's, provided the lines carry a positive subtotal (otherwise they are 0). *)
Theorem items_split_conserves now c ps subs :
  proportionalSplit now c ps = Ok subs → isByItems ps = true →
  let active := filter isActive (Cuenta.items c) in
  NoDup (CuentaItem.id <$> active) →
  (∀ id, id ∈ mjoin (itemIdsOf <$> ps) → id ∈ (CuentaItem.id <$> active)) →
  length subs = length ps ∧ mjoin (Cuenta.items <$> subs) ≡ₚ active ∧ Forall sub_of_items subs ∧
  sumZ Cuenta.subtotal subs = sumZ CuentaItem.subtotal active ∧
  sumZ Cuenta.taxTotal subs = sumZ CuentaItem.taxAmountApplied active ∧
  sumZ Cuenta.discountsTotal subs = sumZ CuentaItem.discountAmountApplied active ∧
  sumZ Cuenta.tipsTotal subs = (if 0 <? sumZ CuentaItem.subtotal active then Cuenta.tipsTotal c else 0) ∧
  sumZ Cuenta.totalAmount subs =
    sumZ (λ i, CuentaItem.subtotal i - CuentaItem.discountAmountApplied i + CuentaItem.taxAmountApplied i) active
    + sumZ Cuenta.tipsTotal subs.
Proof.
  intros Hs Hi active Hnd Hsub. apply proportionalSplit_items in Hs as [Hlen Hs]; [|done].
  unfold splitByItems in Hs. fold active in Hs.
  destruct (assignItems ps) as [S|] eqn:Ha; [|discriminate Hs]. case_decide as Hsz; [discriminate Hs|].
  injection Hs as <-. apply assignItems_Some in Ha as [Hids Hcount].
  rewrite foldl_sumZ, Z.add_0_l. set (subs := itemsLoop _ _ _ _ _ _ _).
  assert (Hperm : mjoin (Cuenta.items <$> subs) ≡ₚ active).
  { unfold subs. rewrite itemsLoop_items. apply omap_itemMap; [done|].
    apply exact_assignment; [done| |done]. rewrite length_fmap. lia. }
  assert (Hall : Forall sub_of_items subs) by apply itemsLoop_amounts.
  assert (Hsum : ∀ (fs : Cuenta.t → Z) (fi : CuentaItem.t → Z),
    (∀ sub, sub_of_items sub → fs sub = sumZ fi (Cuenta.items sub)) → sumZ fs subs = sumZ fi active).
  { intros fs fi Hf. rewrite <- Hperm, sumZ_mjoin, sumZ_fmap. apply sumZ_ext.
    intros sub Hin. rewrite Forall_forall in Hall. auto. }
  assert (Htips : sumZ Cuenta.tipsTotal subs =
    if 0 <? sumZ CuentaItem.subtotal active then Cuenta.tipsTotal c else 0).
  { unfold subs. rewrite <- (itemsLoop_tips c (itemMap active) (sumZ CuentaItem.subtotal active) now 0 0 ps);
      [lia|by destruct ps|done]. }
  split_and!; [apply itemsLoop_length|done|done| | | |done|].
  1-3: apply Hsum; unfold sub_of_items; tauto.
  rewrite (sumZ_ext _ (λ sub, (Cuenta.subtotal sub - Cuenta.discountsTotal sub + Cuenta.taxTotal sub)
                               + Cuenta.tipsTotal sub)).
  - rewrite sumZ_add. f_equal. apply Hsum. intros sub (H1 & H2 & H3 & _).
    by rewrite H1, H2, H3, sumZ_add, sumZ_sub.
  - intros sub Hin. rewrite Forall_forall in Hall. by apply Hall in Hin as (_ & _ & _ & ->).
Qed.

Definition example_item (id : string) (subtotal : Z) : CuentaItem.t :=
  CuentaItem.mk id "c1" "p" "Taco" subtotal 10000 1600 (subtotal * 16 / 100) 0 subtotal
    (subtotal + subtotal * 16 / 100) ORDENADO None None None false "2026-01-01T00:00:00.000Z" [].

Definition example_cuenta_items : Cuenta.t :=
  example_cuenta <| Cuenta.items := [example_item "i1" 500000; example_item "i2" 300000] |>
                 <| Cuenta.tipsTotal := 80001 |>.
Definition example_plan_items : list SplitPartitionPlan.t :=
  [SplitPartitionPlan.mk "a" (Some ["i2"]) None; SplitPartitionPlan.mk "b" (Some ["i1"]) None].

Lemma items_split_conserves_witness :
  ∃ subs, proportionalSplit "t" example_cuenta_items example_plan_items = Ok subs ∧
    sumZ Cuenta.tipsTotal subs = 80001 ∧ (Cuenta.tipsTotal <$> subs) = [30000; 50001].
Proof.
  eexists. split; [reflexivity|]. split; [|reflexivity].
  destruct (items_split_conserves "t" example_cuenta_items example_plan_items _ eq_refl eq_refl)
    as (_ & _ & _ & _ & _ & _ & Htips & _).
  - apply (bool_decide_eq_true_1 _). reflexivity.
  - intros id Hid. simpl in Hid |- *. set_solver.
  - rewrite Htips. reflexivity.
Defined.
