(* ===== verification/Dining.v ===== *)
(** The dining-room and account service of packages/pos/src/dining-service.ts: one
    definition per operation of [DiningDomainService], over any repositories, PIN
    validator and policies.

    The clock and the identifiers the code draws are arguments ([now], one per
    [new Date()] that may differ).  The service never awaits [validatePin]: the returned
    value is used as a condition ([js_truthy]). *)
From S2P Require Import Prelude Money PosTypes DiningRepo Policies.

(** ** Inputs *)

Module CreateMesaInput.
(* dining-service.ts:41-48 CreateMesaInput *)
Record t := mk {
  id : string; roomName : string; tableNumber : string; posX : option Z; posY : option Z;
  capacity : option Z }.
End CreateMesaInput.

Module OpenCuentaInput.
(* dining-service.ts:50-58 OpenCuentaInput *)
Record t := mk {
  id : string; mesaId : option string; epochId : string; accountType : AccountType;
  openedByUserId : string; currentWaiterUserId : option string; guestCount : option Z }.
End OpenCuentaInput.

Module AddItemModifierInput.
(* dining-service.ts:60-65 AddItemModifierInput *)
Record t := mk {
  id : string; modifierId : string; modifierNameSnapshot : string; modifierPriceApplied : Z }.
End AddItemModifierInput.

Module AddItemInput.
(* dining-service.ts:67-76 AddItemInput *)
Record t := mk {
  id : string; productId : string; productNameSnapshot : string; unitPriceApplied : Z;
  quantity : Z; taxRateApplied : Z; discountAmountApplied : option Z;
  modifiers : option (list AddItemModifierInput.t) }.
End AddItemInput.

Module CancelItemInput.
(* dining-service.ts:78-87 CancelItemInput *)
Record t := mk {
  cuentaId : string; itemId : string; expectedVersion : Z; operatorUserId : string;
  operatorPin : string; supervisorPin : option string; kitchenStatus : option string;
  reason : string }.
End CancelItemInput.

Module TransferCuentaInput.
(* dining-service.ts:89-98 TransferCuentaInput *)
Record t := mk {
  cuentaId : string; expectedVersion : Z; sourceMesaId : string; targetMesaId : string;
  sourceWaiterUserId : string; targetWaiterUserId : string; targetWaiterPin : string;
  reason : option string }.
End TransferCuentaInput.

Module CancelCuentaInput.
(* dining-service.ts:100-107 CancelCuentaInput *)
Record t := mk {
  cuentaId : string; expectedVersion : Z; reason : string; requestedByUserId : string;
  requestedByPin : string; managerPin : option string }.
End CancelCuentaInput.

Module SplitCuentaInput.
(* dining-service.ts:109-115 SplitCuentaInput *)
Record t := mk {
  cuentaId : string; expectedVersion : Z; partitions : list SplitPartitionPlan.t;
  performedByUserId : string; operatorPin : string }.
End SplitCuentaInput.

Module ReassignWaiterInput.
(* dining-service.ts:117-124 ReassignWaiterInput *)
Record t := mk {
  cuentaId : string; expectedVersion : Z; newWaiterUserId : string; requestingUserId : string;
  requestingPin : string; reason : option string }.
End ReassignWaiterInput.

Module ChangeGuestCountInput.
(* dining-service.ts:126-132 ChangeGuestCountInput *)
Record t := mk {
  cuentaId : string; expectedVersion : Z; guestCount : Z; performedByUserId : string;
  operatorPin : option string }.
End ChangeGuestCountInput.

Module RequestCheckInput.
(* dining-service.ts:134-140 RequestCheckInput *)
Record t := mk {
  cuentaId : string; expectedVersion : Z; requestedByUserId : string;
  operatorPin : option string; nextFolioNumber : option Z }.
End RequestCheckInput.

Module LiberarMesaInput.
(* dining-service.ts:142-147 LiberarMesaInput *)
Record t := mk { mesaId : string; expectedVersion : Z; performedByUserId : string; force : bool }.
End LiberarMesaInput.

Module MergeTablesInput.
(* dining-service.ts:149-154 MergeTablesInput *)
Record t := mk {
  primaryMesaId : string; secondaryMesaIds : list string; operatorUserId : string;
  operatorPin : option string }.
End MergeTablesInput.

(** ** Pure calculations *)

Module ItemFinancials.
(* dining-service.ts:197-201 calculateItemFinancials, result *)
Record t := mk { subtotal : Z; taxAmount : Z; total : Z }.
End ItemFinancials.

(* dining-service.ts:192-208 calculateItemFinancials *)
Definition calculateItemFinancials (unitPriceScale4 quantityScale4 taxRateScale4 discountAmountScale4 : Z)
    : ItemFinancials.t :=
  let subtotal := calculateLineSubtotal unitPriceScale4 quantityScale4 in
  let netSubtotal := calculateNetSubtotal subtotal discountAmountScale4 in
  let taxAmount := calculateTaxAmount netSubtotal taxRateScale4 in
  let total := calculateLineTotal netSubtotal taxAmount in
  ItemFinancials.mk subtotal taxAmount total.

Module CuentaTotals.
(* dining-service.ts:216-221 recalculateCuentaTotals, result *)
Record t := mk { subtotal : Z; taxTotal : Z; discountsTotal : Z; totalAmount : Z }.
End CuentaTotals.

(** the loop's four accumulators *)
Definition totalsStep (acc : Z * Z * Z * Z) (item : CuentaItem.t) : Z * Z * Z * Z :=
  let '(subtotal, taxTotal, discountsTotal, lineTotalSum) := acc in
  if decide (CuentaItem.status item ≠ CANCELADO) then
    (subtotal + CuentaItem.subtotal item, taxTotal + CuentaItem.taxAmountApplied item,
     discountsTotal + CuentaItem.discountAmountApplied item, lineTotalSum + CuentaItem.total item)
  else acc.

(* dining-service.ts:213-244 recalculateCuentaTotals *)
Definition recalculateCuentaTotals (items : list CuentaItem.t) (tipsTotal : Z) : CuentaTotals.t :=
  let '(subtotal, taxTotal, discountsTotal, lineTotalSum) := foldl totalsStep (0, 0, 0, 0) items in
  CuentaTotals.mk subtotal taxTotal discountsTotal (lineTotalSum + tipsTotal).

Definition isOpen (c : Cuenta.t) : bool :=
  bool_decide (Cuenta.status c = ABIERTA) || bool_decide (Cuenta.status c = IMPRESA).

(** ** The service *)

Section DiningDomainService.
Context {S : Type} `{!DiningRoomRepositoryPort S} `{!AccountRepositoryPort S}.
Context `{!IamPinValidatorPort} `{!CancellationPolicy} `{!BillSplitProrationStrategy} `{!TransferValidationRule}.

(** *** Tables *)

(* dining-service.ts:263-275 createMesaSync, mesa *)
Definition newMesa (now : string) (input : CreateMesaInput.t) : Mesa.t :=
  Mesa.mk (CreateMesaInput.id input) (CreateMesaInput.roomName input)
    (CreateMesaInput.tableNumber input) DISPONIBLE None (CreateMesaInput.posX input)
    (CreateMesaInput.posY input) (CreateMesaInput.capacity input) 1 now.

(* dining-service.ts:250-278 createMesaSync *)
Definition createMesaSync (now : string) (input : CreateMesaInput.t) : M S PosError Mesa.t :=
  getMesa ← require getMesaByIdSync SYNC_UNSUPPORTED;
  save ← require saveMesaSync SYNC_UNSUPPORTED;
  existing ← getMesa (CreateMesaInput.id input);
  throw_when (bool_decide (is_Some existing)) (DomainError "DUPLICATE_MESA" 409) ;;
  save (newMesa now input) 0.

(* dining-service.ts:280-305 createMesa *)
Definition createMesa (now : string) (input : CreateMesaInput.t) : M S PosError Mesa.t :=
  match getMesaByIdSync (S := S), saveMesaSync (S := S) with
  | Some _, Some _ => createMesaSync now input
  | _, _ =>
      existing ← getMesaById (CreateMesaInput.id input);
      throw_when (bool_decide (is_Some existing)) (DomainError "DUPLICATE_MESA" 409) ;;
      saveMesa (newMesa now input) 0
  end.

(* dining-service.ts:346-352 openCuentaSync, occupiedMesa *)
Definition occupiedMesa (mesa : Mesa.t) (cuentaId now : string) : Mesa.t :=
  mesa <| Mesa.status := OCUPADA |> <| Mesa.currentAccountId := Some cuentaId |>
       <| Mesa.version := Mesa.version mesa + 1 |> <| Mesa.updatedAt := now |>.

(* dining-service.ts:530-536 closeCuentaSync, freedMesa *)
Definition freedMesa (mesa : Mesa.t) (now : string) : Mesa.t :=
  mesa <| Mesa.status := DISPONIBLE |> <| Mesa.currentAccountId := None |>
       <| Mesa.version := Mesa.version mesa + 1 |> <| Mesa.updatedAt := now |>.

(** *** Opening an account *)

(* dining-service.ts:357-379 openCuentaSync, cuenta *)
Definition newCuenta (now : string) (input : OpenCuentaInput.t) : Cuenta.t :=
  Cuenta.mk (OpenCuentaInput.id input) None (OpenCuentaInput.epochId input)
    (OpenCuentaInput.mesaId input) (OpenCuentaInput.accountType input) ABIERTA 0 0 0 0 0
    (OpenCuentaInput.openedByUserId input)
    (Some (default (OpenCuentaInput.openedByUserId input) (OpenCuentaInput.currentWaiterUserId input)))
    (Some (default 1 (OpenCuentaInput.guestCount input))) now None None 1 now None None [].

(* dining-service.ts:325-355 openCuentaSync, table *)
Definition occupyTable (nowMesa : string) (input : OpenCuentaInput.t) : M S PosError (option Mesa.t) :=
  match truthy (OpenCuentaInput.mesaId input) with
  | None => mret None
  | Some mesaId =>
      getMesa ← require getMesaByIdSync SYNC_UNSUPPORTED;
      save ← require saveMesaSync SYNC_UNSUPPORTED;
      found ← getMesa mesaId;
      mesa ← require found (DomainError "MESA_NOT_FOUND" 404);
      throw_when (bool_decide (Mesa.status mesa ≠ DISPONIBLE)) (DomainError "MESA_NOT_AVAILABLE" 409) ;;
      saved ← save (occupiedMesa mesa (OpenCuentaInput.id input) nowMesa) (Mesa.version mesa);
      mret (Some saved)
  end.

(* dining-service.ts:311-383 openCuentaSync *)
Definition openCuentaSync (nowMesa now : string) (input : OpenCuentaInput.t)
    : M S PosError (Cuenta.t * option Mesa.t) :=
  getCuenta ← require getCuentaByIdSync SYNC_UNSUPPORTED;
  save ← require saveCuentaSync SYNC_UNSUPPORTED;
  existingCuenta ← getCuenta (OpenCuentaInput.id input);
  throw_when (bool_decide (is_Some existingCuenta)) (DomainError "DUPLICATE_CUENTA" 409) ;;
  updatedMesa ← occupyTable nowMesa input;
  savedCuenta ← save (newCuenta now input) 0;
  mret (savedCuenta, updatedMesa).

(** *** Lines *)

(* dining-service.ts:428-434 addItemToCuentaSync, modifiers *)
Definition newModificador (itemId : string) (modifier : AddItemModifierInput.t) : Modificador.t :=
  Modificador.mk (AddItemModifierInput.id modifier) itemId (AddItemModifierInput.modifierId modifier)
    (AddItemModifierInput.modifierNameSnapshot modifier) (AddItemModifierInput.modifierPriceApplied modifier).

(* dining-service.ts:419-451 addItemToCuentaSync, newItem *)
Definition newItem (now cuentaId : string) (itemInput : AddItemInput.t) : CuentaItem.t :=
  let discount := default 0 (AddItemInput.discountAmountApplied itemInput) in
  let f := calculateItemFinancials (AddItemInput.unitPriceApplied itemInput)
             (AddItemInput.quantity itemInput) (AddItemInput.taxRateApplied itemInput) discount in
  CuentaItem.mk (AddItemInput.id itemInput) cuentaId (AddItemInput.productId itemInput)
    (AddItemInput.productNameSnapshot itemInput) (AddItemInput.unitPriceApplied itemInput)
    (AddItemInput.quantity itemInput) (AddItemInput.taxRateApplied itemInput)
    (ItemFinancials.taxAmount f) discount (ItemFinancials.subtotal f) (ItemFinancials.total f)
    ORDENADO None None None false now
    (newModificador (AddItemInput.id itemInput) <$> default [] (AddItemInput.modifiers itemInput)).

(* dining-service.ts:453-465 addItemToCuentaSync, updatedCuenta *)
Definition withItems (cuenta : Cuenta.t) (updatedItems : list CuentaItem.t) (now : string) : Cuenta.t :=
  let totals := recalculateCuentaTotals updatedItems (Cuenta.tipsTotal cuenta) in
  cuenta <| Cuenta.subtotal := CuentaTotals.subtotal totals |>
         <| Cuenta.taxTotal := CuentaTotals.taxTotal totals |>
         <| Cuenta.discountsTotal := CuentaTotals.discountsTotal totals |>
         <| Cuenta.totalAmount := CuentaTotals.totalAmount totals |>
         <| Cuenta.version := Cuenta.version cuenta + 1 |>
         <| Cuenta.updatedAt := now |>
         <| Cuenta.items := updatedItems |>.

(** [if (cuenta.version !== expectedVersion) throw new OCCConflictError(...)] *)
Definition check_version (cuenta : Cuenta.t) (cuentaId : string) (expectedVersion : Z) : M S PosError unit :=
  throw_when (negb (Cuenta.version cuenta =? expectedVersion))
    (OCCConflictError cuentaId expectedVersion (Cuenta.version cuenta) (SnapCuenta (Some cuenta))).

(* dining-service.ts:389-468 addItemToCuentaSync *)
Definition addItemToCuentaSync (now cuentaId : string) (expectedVersion : Z) (itemInput : AddItemInput.t)
    : M S PosError Cuenta.t :=
  getCuenta ← require getCuentaByIdSync SYNC_UNSUPPORTED;
  save ← require saveCuentaSync SYNC_UNSUPPORTED;
  found ← getCuenta cuentaId;
  cuenta ← require found (DomainError "CUENTA_NOT_FOUND" 404);
  throw_when (bool_decide (Cuenta.status cuenta ≠ ABIERTA)) (DomainError "INVALID_ACCOUNT_STATUS" 400) ;;
  check_version cuenta cuentaId expectedVersion ;;
  save (withItems cuenta (Cuenta.items cuenta ++ [newItem now cuentaId itemInput]) now) expectedVersion.

(** *** Closing *)

(* dining-service.ts:519-539 closeCuentaSync, table *)
Definition releaseTable (savedCuenta : Cuenta.t) (cuentaId now : string) : M S PosError (option Mesa.t) :=
  match truthy (Cuenta.mesaId savedCuenta) with
  | None => mret None
  | Some mesaId =>
      getMesa ← require getMesaByIdSync SYNC_UNSUPPORTED;
      save ← require saveMesaSync SYNC_UNSUPPORTED;
      found ← getMesa mesaId;
      match found with
      | Some mesa =>
          if bool_decide (Mesa.currentAccountId mesa = Some cuentaId) then
            saved ← save (freedMesa mesa now) (Mesa.version mesa); mret (Some saved)
          else mret None
      | None => mret None
      end
  end.

(* dining-service.ts:478-542 closeCuentaSync *)
Definition closeCuentaSync (now cuentaId : string) (expectedVersion : Z) (closedStatus : CuentaStatus)
    : M S PosError (Cuenta.t * option Mesa.t) :=
  getCuenta ← require getCuentaByIdSync SYNC_UNSUPPORTED;
  save ← require saveCuentaSync SYNC_UNSUPPORTED;
  found ← getCuenta cuentaId;
  cuenta ← require found (DomainError "CUENTA_NOT_FOUND" 404);
  throw_when (negb (isOpen cuenta)) (DomainError "INVALID_ACCOUNT_STATUS" 400) ;;
  check_version cuenta cuentaId expectedVersion ;;
  savedCuenta ← save (cuenta <| Cuenta.status := closedStatus |> <| Cuenta.closedAt := Some now |>
                             <| Cuenta.version := Cuenta.version cuenta + 1 |>
                             <| Cuenta.updatedAt := now |>) expectedVersion;
  updatedMesa ← releaseTable savedCuenta cuentaId now;
  mret (savedCuenta, updatedMesa).

(** *** DEC-010: cancelling a line *)

(* dining-service.ts:634-642 cancelItemSync, updatedItem *)
Definition cancelledItem (item : CuentaItem.t) (input : CancelItemInput.t) (requiresWasteRecord : bool)
    (now : string) : CuentaItem.t :=
  item <| CuentaItem.status := CANCELADO |>
       <| CuentaItem.cancellationReason := Some (CancelItemInput.reason input) |>
       <| CuentaItem.cancelledByUserId := Some (CancelItemInput.operatorUserId input) |>
       <| CuentaItem.cancelledAt := Some now |>
       <| CuentaItem.requiresWasteRecord := requiresWasteRecord |>.

(* dining-service.ts:608-617 cancelItemSync, supervisor *)
Definition supervisorAuthorization (input : CancelItemInput.t) : M S PosError bool :=
  match truthy (CancelItemInput.supervisorPin input) with
  | None => mret false
  | Some pin =>
      let hasSupervisorAuthorization :=
        js_truthy (validatePin "supervisor" pin None) ||
        js_truthy (validatePin (CancelItemInput.operatorUserId input) pin None) in
      throw_when (negb hasSupervisorAuthorization) (DomainError "INVALID_SUPERVISOR_PIN" 401) ;;
      mret hasSupervisorAuthorization
  end.

(** [if (!this.#pinValidator.validatePin(userId, pin)) throw ...], without [await] *)
Definition check_pin (userId pin code : string) : M S PosError unit :=
  throw_when (negb (js_truthy (validatePin userId pin None))) (DomainError code 401).

(* dining-service.ts:556-666 cancelItemSync *)
Definition cancelItemSync (now : string) (input : CancelItemInput.t)
    : M S PosError (Cuenta.t * CuentaItem.t * bool) :=
  getCuenta ← require getCuentaByIdSync SYNC_UNSUPPORTED;
  save ← require saveCuentaSync SYNC_UNSUPPORTED;
  throw_when (blank (CancelItemInput.reason input)) (DomainError "MISSING_REASON" 400) ;;
  check_pin (CancelItemInput.operatorUserId input) (CancelItemInput.operatorPin input) "INVALID_OPERATOR_PIN" ;;
  found ← getCuenta (CancelItemInput.cuentaId input);
  cuenta ← require found (DomainError "CUENTA_NOT_FOUND" 404);
  check_version cuenta (CancelItemInput.cuentaId input) (CancelItemInput.expectedVersion input) ;;
  at_item ← require (list_find (λ i, CuentaItem.id i = CancelItemInput.itemId input) (Cuenta.items cuenta))
              (DomainError "ITEM_NOT_FOUND" 404);
  let '(itemIndex, item) := (at_item : nat * CuentaItem.t) in
  throw_when (bool_decide (CuentaItem.status item = CANCELADO)) (DomainError "ITEM_ALREADY_CANCELLED" 400) ;;
  let kitchenStatus := default (itemStatusName (CuentaItem.status item)) (CancelItemInput.kitchenStatus input) in
  hasSupervisorAuthorization ← supervisorAuthorization input;
  let check := canCancelItem item (CancellationContext.mk (CancelItemInput.operatorUserId input)
                 kitchenStatus hasSupervisorAuthorization (CancelItemInput.reason input)) in
  throw_when (negb (CancellationResult.allowed check)) (DomainError "CANCELLATION_DISALLOWED" 403) ;;
  let updatedItem := cancelledItem item input (CancellationResult.requiresWasteRecord check) now in
  savedCuenta ← save (withItems cuenta (<[itemIndex := updatedItem]> (Cuenta.items cuenta)) now)
                  (CancelItemInput.expectedVersion input);
  mret (savedCuenta, updatedItem, CancellationResult.requiresWasteRecord check).

(** *** DEC-011: transferring an account *)

(* dining-service.ts:680-787 transferCuentaSync *)
Definition transferCuentaSync (now : string) (input : TransferCuentaInput.t)
    : M S PosError (Cuenta.t * Mesa.t * Mesa.t) :=
  getCuenta ← require getCuentaByIdSync SYNC_UNSUPPORTED;
  saveC ← require saveCuentaSync SYNC_UNSUPPORTED;
  getMesa ← require getMesaByIdSync SYNC_UNSUPPORTED;
  saveM ← require saveMesaSync SYNC_UNSUPPORTED;
  check_pin (TransferCuentaInput.targetWaiterUserId input) (TransferCuentaInput.targetWaiterPin input)
    "INVALID_TARGET_WAITER_PIN" ;;
  found ← getCuenta (TransferCuentaInput.cuentaId input);
  cuenta ← require found (DomainError "CUENTA_NOT_FOUND" 404);
  check_version cuenta (TransferCuentaInput.cuentaId input) (TransferCuentaInput.expectedVersion input) ;;
  foundSource ← getMesa (TransferCuentaInput.sourceMesaId input);
  sourceMesa ← require foundSource (DomainError "SOURCE_MESA_NOT_FOUND" 404);
  foundTarget ← getMesa (TransferCuentaInput.targetMesaId input);
  targetMesa ← require foundTarget (DomainError "TARGET_MESA_NOT_FOUND" 404);
  throw_when (negb (validateTransfer sourceMesa targetMesa cuenta
    (TransferContext.mk (TransferCuentaInput.sourceWaiterUserId input)
       (TransferCuentaInput.targetWaiterUserId input) true (TransferCuentaInput.reason input))))
    (DomainError "TRANSFER_DISALLOWED" 403) ;;
  savedSourceMesa ← saveM (freedMesa sourceMesa now) (Mesa.version sourceMesa);
  savedTargetMesa ← saveM (occupiedMesa targetMesa (Cuenta.id cuenta) now) (Mesa.version targetMesa);
  savedCuenta ← saveC (cuenta <| Cuenta.mesaId := Some (Mesa.id targetMesa) |>
    <| Cuenta.currentWaiterUserId := Some (TransferCuentaInput.targetWaiterUserId input) |>
    <| Cuenta.version := Cuenta.version cuenta + 1 |> <| Cuenta.updatedAt := now |>)
    (TransferCuentaInput.expectedVersion input);
  mret (savedCuenta, savedSourceMesa, savedTargetMesa).

(** *** DEC-013: cancelling an account *)

(* dining-service.ts:851-870 cancelCuentaSync, manager PIN *)
Definition managerAuthorization (cuenta : Cuenta.t) (input : CancelCuentaInput.t) : M S PosError unit :=
  if bool_decide (Cuenta.status cuenta = IMPRESA) then
    managerPin ← require (truthy (CancelCuentaInput.managerPin input)) (DomainError "MANAGER_PIN_REQUIRED" 403);
    throw_when (negb (js_truthy (validatePin "manager" managerPin None) ||
                      js_truthy (validatePin "gerente" managerPin None) ||
                      js_truthy (validatePin (CancelCuentaInput.requestedByUserId input) managerPin None)))
      (DomainError "INVALID_MANAGER_PIN" 401)
  else mret tt.

(* dining-service.ts:801-899 cancelCuentaSync *)
Definition cancelCuentaSync (now : string) (input : CancelCuentaInput.t)
    : M S PosError (Cuenta.t * option Mesa.t) :=
  getCuenta ← require getCuentaByIdSync SYNC_UNSUPPORTED;
  save ← require saveCuentaSync SYNC_UNSUPPORTED;
  getMesa ← require getMesaByIdSync SYNC_UNSUPPORTED;
  saveM ← require saveMesaSync SYNC_UNSUPPORTED;
  throw_when (blank (CancelCuentaInput.reason input)) (DomainError "MISSING_REASON" 400) ;;
  check_pin (CancelCuentaInput.requestedByUserId input) (CancelCuentaInput.requestedByPin input)
    "INVALID_OPERATOR_PIN" ;;
  found ← getCuenta (CancelCuentaInput.cuentaId input);
  cuenta ← require found (DomainError "CUENTA_NOT_FOUND" 404);
  throw_when (bool_decide (Cuenta.status cuenta = PAGADA)) (DomainError "INVALID_ACCOUNT_STATUS" 400) ;;
  throw_when (bool_decide (Cuenta.status cuenta = ANULADA)) (DomainError "ALREADY_CANCELLED" 400) ;;
  check_version cuenta (CancelCuentaInput.cuentaId input) (CancelCuentaInput.expectedVersion input) ;;
  managerAuthorization cuenta input ;;
  savedCuenta ← save (cuenta <| Cuenta.status := ANULADA |> <| Cuenta.closedAt := Some now |>
                             <| Cuenta.version := Cuenta.version cuenta + 1 |>
                             <| Cuenta.updatedAt := now |>) (CancelCuentaInput.expectedVersion input);
  updatedMesa ← releaseTable savedCuenta (Cuenta.id savedCuenta) now;
  mret (savedCuenta, updatedMesa).

(** *** DEC-015: splitting an account *)

(* dining-service.ts:980-993 splitCuentaSync, table *)
Definition linkTableToFirst (cuenta : Cuenta.t) (subCuentas : list Cuenta.t) (now : string)
    : M S PosError (option Mesa.t) :=
  match truthy (Cuenta.mesaId cuenta), getMesaByIdSync, saveMesaSync with
  | Some mesaId, Some getMesa, Some save =>
      found ← getMesa mesaId;
      match found, subCuentas with
      | Some mesa, first :: _ =>
          saved ← save (mesa <| Mesa.currentAccountId := Some (Cuenta.id first) |>
                             <| Mesa.version := Mesa.version mesa + 1 |>
                             <| Mesa.updatedAt := now |>) (Mesa.version mesa);
          mret (Some saved)
      | _, _ => mret None
      end
  | _, _, _ => mret None
  end.

(** [nowSplit] is the strategy's clock, [now] the service's *)
(* dining-service.ts:912-1000 splitCuentaSync *)
Definition splitCuentaSync (nowSplit now : string) (input : SplitCuentaInput.t)
    : M S PosError (Cuenta.t * list Cuenta.t * option Mesa.t) :=
  getCuenta ← require getCuentaByIdSync SYNC_UNSUPPORTED;
  save ← require saveCuentaSync SYNC_UNSUPPORTED;
  check_pin (SplitCuentaInput.performedByUserId input) (SplitCuentaInput.operatorPin input)
    "INVALID_OPERATOR_PIN" ;;
  found ← getCuenta (SplitCuentaInput.cuentaId input);
  cuenta ← require found (DomainError "CUENTA_NOT_FOUND" 404);
  throw_when (negb (isOpen cuenta)) (DomainError "INVALID_ACCOUNT_STATUS" 400) ;;
  check_version cuenta (SplitCuentaInput.cuentaId input) (SplitCuentaInput.expectedVersion input) ;;
  subCuentas ← lift (prorateSplit nowSplit cuenta (SplitCuentaInput.partitions input));
  let sumTotalAmount := foldl (λ sum c, sum + Cuenta.totalAmount c) 0 subCuentas in
  throw_when (negb (sumTotalAmount =? Cuenta.totalAmount cuenta)) (DomainError "SPLIT_INVARIANT_VIOLATION" 500) ;;
  for_each (λ sub, save sub 0 ;; mret tt) subCuentas ;;
  savedOriginal ← save (cuenta <| Cuenta.status := ANULADA |> <| Cuenta.closedAt := Some now |>
                               <| Cuenta.version := Cuenta.version cuenta + 1 |>
                               <| Cuenta.updatedAt := now |>) (SplitCuentaInput.expectedVersion input);
  updatedMesa ← linkTableToFirst cuenta subCuentas now;
  mret (savedOriginal, subCuentas, updatedMesa).

(** *** Operational commands *)

(** [if (input.operatorPin) { ... }]: an absent or empty PIN is not checked *)
Definition check_optional_pin (userId : string) (pin : option string) : M S PosError unit :=
  match truthy pin with
  | None => mret tt
  | Some p => check_pin userId p "INVALID_OPERATOR_PIN"
  end.

(* dining-service.ts:1014-1058 reassignWaiterSync *)
Definition reassignWaiterSync (now : string) (input : ReassignWaiterInput.t) : M S PosError Cuenta.t :=
  getCuenta ← require getCuentaByIdSync SYNC_UNSUPPORTED;
  save ← require saveCuentaSync SYNC_UNSUPPORTED;
  check_pin (ReassignWaiterInput.requestingUserId input) (ReassignWaiterInput.requestingPin input)
    "INVALID_OPERATOR_PIN" ;;
  found ← getCuenta (ReassignWaiterInput.cuentaId input);
  cuenta ← require found (DomainError "CUENTA_NOT_FOUND" 404);
  throw_when (negb (isOpen cuenta)) (DomainError "INVALID_ACCOUNT_STATUS" 400) ;;
  check_version cuenta (ReassignWaiterInput.cuentaId input) (ReassignWaiterInput.expectedVersion input) ;;
  save (cuenta <| Cuenta.currentWaiterUserId := Some (ReassignWaiterInput.newWaiterUserId input) |>
               <| Cuenta.version := Cuenta.version cuenta + 1 |>
               <| Cuenta.updatedAt := now |>) (ReassignWaiterInput.expectedVersion input).

(* dining-service.ts:1060-1110 changeGuestCountSync *)
Definition changeGuestCountSync (now : string) (input : ChangeGuestCountInput.t) : M S PosError Cuenta.t :=
  getCuenta ← require getCuentaByIdSync SYNC_UNSUPPORTED;
  save ← require saveCuentaSync SYNC_UNSUPPORTED;
  throw_when (ChangeGuestCountInput.guestCount input <? 1) (DomainError "INVALID_GUEST_COUNT" 400) ;;
  check_optional_pin (ChangeGuestCountInput.performedByUserId input) (ChangeGuestCountInput.operatorPin input) ;;
  found ← getCuenta (ChangeGuestCountInput.cuentaId input);
  cuenta ← require found (DomainError "CUENTA_NOT_FOUND" 404);
  throw_when (negb (isOpen cuenta)) (DomainError "INVALID_ACCOUNT_STATUS" 400) ;;
  check_version cuenta (ChangeGuestCountInput.cuentaId input) (ChangeGuestCountInput.expectedVersion input) ;;
  save (cuenta <| Cuenta.guestCount := Some (ChangeGuestCountInput.guestCount input) |>
               <| Cuenta.version := Cuenta.version cuenta + 1 |>
               <| Cuenta.updatedAt := now |>) (ChangeGuestCountInput.expectedVersion input).

(* dining-service.ts:1173-1185 requestCheckSync, table *)
Definition markTableInCheck (savedCuenta : Cuenta.t) (now : string) : M S PosError (option Mesa.t) :=
  match truthy (Cuenta.mesaId savedCuenta) with
  | None => mret None
  | Some mesaId =>
      getMesa ← require getMesaByIdSync SYNC_UNSUPPORTED;
      save ← require saveMesaSync SYNC_UNSUPPORTED;
      found ← getMesa mesaId;
      match found with
      | Some mesa =>
          saved ← save (mesa <| Mesa.status := EN_CUENTA |> <| Mesa.version := Mesa.version mesa + 1 |>
                             <| Mesa.updatedAt := now |>) (Mesa.version mesa);
          mret (Some saved)
      | None => mret None
      end
  end.

(** [clockSeconds] is [Math.floor(Date.now() / 1000)] *)
(* dining-service.ts:1112-1188 requestCheckSync *)
Definition requestCheckSync (now : string) (clockSeconds : Z) (input : RequestCheckInput.t)
    : M S PosError (Cuenta.t * option Mesa.t) :=
  getCuenta ← require getCuentaByIdSync SYNC_UNSUPPORTED;
  save ← require saveCuentaSync SYNC_UNSUPPORTED;
  getMesa ← require getMesaByIdSync SYNC_UNSUPPORTED;
  saveM ← require saveMesaSync SYNC_UNSUPPORTED;
  check_optional_pin (RequestCheckInput.requestedByUserId input) (RequestCheckInput.operatorPin input) ;;
  found ← getCuenta (RequestCheckInput.cuentaId input);
  cuenta ← require found (DomainError "CUENTA_NOT_FOUND" 404);
  throw_when (negb (isOpen cuenta)) (DomainError "INVALID_ACCOUNT_STATUS" 400) ;;
  check_version cuenta (RequestCheckInput.cuentaId input) (RequestCheckInput.expectedVersion input) ;;
  let folioNumber := default (default clockSeconds (RequestCheckInput.nextFolioNumber input))
                       (Cuenta.folioNumber cuenta) in
  savedCuenta ← save (cuenta <| Cuenta.folioNumber := Some folioNumber |> <| Cuenta.status := IMPRESA |>
      <| Cuenta.printedAt := Some (default now (Cuenta.printedAt cuenta)) |>
      <| Cuenta.version := Cuenta.version cuenta + 1 |> <| Cuenta.updatedAt := now |>)
      (RequestCheckInput.expectedVersion input);
  updatedMesa ← markTableInCheck savedCuenta now;
  mret (savedCuenta, updatedMesa).

(* dining-service.ts:1190-1237 liberarMesaSync *)
Definition liberarMesaSync (now : string) (input : LiberarMesaInput.t) : M S PosError Mesa.t :=
  getMesa ← require getMesaByIdSync SYNC_UNSUPPORTED;
  save ← require saveMesaSync SYNC_UNSUPPORTED;
  getCuenta ← require getCuentaByIdSync SYNC_UNSUPPORTED;
  found ← getMesa (LiberarMesaInput.mesaId input);
  mesa ← require found (DomainError "MESA_NOT_FOUND" 404);
  throw_when (negb (Mesa.version mesa =? LiberarMesaInput.expectedVersion input))
    (OCCConflictError (LiberarMesaInput.mesaId input) (LiberarMesaInput.expectedVersion input)
       (Mesa.version mesa) (SnapMesa (Some mesa))) ;;
  if bool_decide (Mesa.status mesa = DISPONIBLE) then mret mesa
  else
    match truthy (Mesa.currentAccountId mesa), LiberarMesaInput.force input with
    | Some accountId, false =>
        account ← getCuenta accountId;
        match account with
        | Some cuenta => throw_when (isOpen cuenta) (DomainError "TABLE_HAS_ACTIVE_ACCOUNT" 409)
        | None => mret tt
        end
    | _, _ => mret tt
    end ;;
    save (freedMesa mesa now) (LiberarMesaInput.expectedVersion input).

(* dining-service.ts:1330-1340 mergeTablesHook *)
Definition mergeTablesHook (input : MergeTablesInput.t) : M S PosError unit :=
  mthrow (DomainError "TABLE_MERGE_NOT_SPECIFIED" 501).

End DiningDomainService.

(** *** Salón read model

    [getTime] is [new Date(iso).getTime()] ([None] for an invalid date), [toISOString] is
    [new Date(ms).toISOString()]. *)

Module AttentionSignal.
(* types.ts:81-85 AttentionSignal *)
Record t := mk { flagged : bool; reason : option string; elapsedMinutes : Z }.
End AttentionSignal.

Module MesaSummary.
(* types.ts:87-101 MesaSummary *)
Record t := mk {
  id : string; roomName : string; tableNumber : string; status : MesaStatus;
  currentAccountId : option string; assignedWaiterUserId : option string; guestCount : Z;
  subtotal : Z; totalAmount : Z; openedAt : option string; attentionSignal : AttentionSignal.t;
  version : Z; updatedAt : string }.
End MesaSummary.

Module SalonReadModel.
(* types.ts:103-115 SalonRoomSummary, SalonReadModel *)
Record t := mk {
  rooms : list (string * list MesaSummary.t); totalTables : Z; occupiedTables : Z;
  inCheckTables : Z; availableTables : Z; generatedAt : string }.
End SalonReadModel.

Section salon.
Context {S : Type} `{!DiningRoomRepositoryPort S} `{!AccountRepositoryPort S}.
Context (getTime : string → option Z) (toISOString : Z → string).

(* dining-service.ts:1269-1288 getSalonReadModelSync, attention signal *)
Definition attention (mesa : Mesa.t) (cuenta : option Cuenta.t) (nowMs : Z) : AttentionSignal.t :=
  let openedAtMs :=
    match cuenta ≫= λ c, truthy (Some (Cuenta.openedAt c)) with
    | Some openedAt => default 0 (getTime openedAt)
    | None => 0
    end in
  let elapsedMinutes := if 0 <? openedAtMs then Z.max 0 ((nowMs - openedAtMs) / 60000) else 0 in
  if bool_decide (Mesa.status mesa = EN_CUENTA)
  then AttentionSignal.mk true (Some "PRECUENTA_IMPRESA") elapsedMinutes
  else if bool_decide (Mesa.status mesa = OCUPADA) && (60 <? elapsedMinutes)
  then AttentionSignal.mk true (Some "LONG_OCCUPATION") elapsedMinutes
  else AttentionSignal.mk false None elapsedMinutes.

(* dining-service.ts:1290-1304 getSalonReadModelSync, summary *)
Definition mesaSummary (mesa : Mesa.t) (cuenta : option Cuenta.t) (nowMs : Z) : MesaSummary.t :=
  MesaSummary.mk (Mesa.id mesa) (Mesa.roomName mesa) (Mesa.tableNumber mesa) (Mesa.status mesa)
    (Mesa.currentAccountId mesa)
    (match cuenta with
     | Some c => Some (default (Cuenta.openedByUserId c) (Cuenta.currentWaiterUserId c))
     | None => None
     end)
    (default (if bool_decide (Mesa.status mesa = DISPONIBLE) then 0 else 1) (cuenta ≫= Cuenta.guestCount))
    (from_option Cuenta.subtotal 0 cuenta) (from_option Cuenta.totalAmount 0 cuenta)
    (Cuenta.openedAt <$> cuenta) (attention mesa cuenta nowMs) (Mesa.version mesa) (Mesa.updatedAt mesa).

(** [roomMap.get(name) ?? []], push, [roomMap.set]: rooms keep the order of their first table *)
(* dining-service.ts:1306-1308 getSalonReadModelSync, grouping *)
Fixpoint pushRoom (name : string) (summary : MesaSummary.t)
    (rooms : list (string * list MesaSummary.t)) : list (string * list MesaSummary.t) :=
  match rooms with
  | [] => [(name, [summary])]
  | (n, l) :: rooms' =>
      if decide (n = name) then (n, l ++ [summary]) :: rooms' else (n, l) :: pushRoom name summary rooms'
  end.

Definition countStatus (st : MesaStatus) (mesas : list Mesa.t) : Z :=
  Z.of_nat (length (filter (λ m, Mesa.status m = st) mesas)).

(** an invalid [nowIso] makes [toISOString] throw a RangeError *)
(* dining-service.ts:1243-1324 getSalonReadModelSync *)
Definition getSalonReadModelSync (nowIso : option string) (clockMs : Z) : M S PosError SalonReadModel.t :=
  listMesas ← require listMesasSync SYNC_UNSUPPORTED;
  listOpen ← require listOpenCuentasSync SYNC_UNSUPPORTED;
  mesas ← listMesas;
  openCuentas ← listOpen;
  nowMs ← require (match truthy nowIso with Some iso => getTime iso | None => Some clockMs end)
            (Js (RangeError "Invalid time value"));
  let cuentaMap : gmap string Cuenta.t := foldl (λ m c, <[Cuenta.id c := c]> m) ∅ openCuentas in
  let cuentaOf mesa := truthy (Mesa.currentAccountId mesa) ≫= λ id, cuentaMap !! id in
  let rooms := foldl (λ rooms mesa, pushRoom (Mesa.roomName mesa) (mesaSummary mesa (cuentaOf mesa) nowMs) rooms)
                 [] mesas in
  mret (SalonReadModel.mk rooms (Z.of_nat (length mesas)) (countStatus OCUPADA mesas)
          (countStatus EN_CUENTA mesas) (countStatus DISPONIBLE mesas) (toISOString nowMs)).
End salon.
