(* ===== verification/DiningSpec.v ===== *)
(** An abstract specification of the dining room and the proof that the service
    implements it.

    The abstract state keeps, for a table, its status, the account it shows and its
    version; for an account, its status, its table and its version.  [dstep] is the state
    machine the product promises on it.  [command_refines] shows that every command of
    [DiningDomainService] that succeeds is a step of that machine, against any
    repositories that satisfy [DiningLaws]; the invariants are proved on the machine. *)
From S2P Require Import Prelude Money PosTypes EdgeDb DiningRepo Policies Dining.

(** ** The abstract machine *)

Module ATable.
Record t := mk { status : MesaStatus; account : option string; version : Z }.
#[global] Instance eta_t : Eta t := λ x, mk (status x) (account x) (version x).
End ATable.

Module AAccount.
Record t := mk { status : CuentaStatus; table : option string; version : Z }.
#[global] Instance eta_t : Eta t := λ x, mk (status x) (table x) (version x).
End AAccount.

Module Floor.
Record t := mk { tables : string → option ATable.t; accounts : string → option AAccount.t }.
End Floor.

Definition open_status (st : CuentaStatus) : Prop := st = ABIERTA ∨ st = IMPRESA.
Definition closed_status (st : CuentaStatus) : Prop := st = PAGADA ∨ st = ANULADA.

Definition same {V} (f g : string → option V) : Prop := ∀ k, f k = g k.

Definition freed (t : ATable.t) : ATable.t := ATable.mk DISPONIBLE None (ATable.version t + 1).

(** the tables after account [a] leaves table [ot] *)
Definition released (tables tables' : string → option ATable.t) (a : string) (ot : option string) : Prop :=
  match ot with
  | None => same tables' tables
  | Some t =>
      match tables t with
      | Some x => if decide (ATable.account x = Some a) then same tables' (upd tables t (freed x))
                  else same tables' tables
      | None => same tables' tables
      end
  end.

(** the tables after the check of an account at table [ot] is printed *)
Definition in_check (tables tables' : string → option ATable.t) (ot : option string) : Prop :=
  match ot with
  | None => same tables' tables
  | Some t =>
      match tables t with
      | Some x => same tables' (upd tables t (ATable.mk EN_CUENTA (ATable.account x) (ATable.version x + 1)))
      | None => same tables' tables
      end
  end.

Inductive dstep (f f' : Floor.t) : Prop :=
| create_table t
    (Hnew : Floor.tables f t = None)
    (Ht : same (Floor.tables f') (upd (Floor.tables f) t (ATable.mk DISPONIBLE None 1)))
    (Ha : same (Floor.accounts f') (Floor.accounts f))
| open_account a ot
    (Hnew : Floor.accounts f a = None) (Hnamed : a ≠ "")
    (Ht : match ot with
          | None => same (Floor.tables f') (Floor.tables f)
          | Some t => ∃ x, Floor.tables f t = Some x ∧ ATable.status x = DISPONIBLE ∧
              same (Floor.tables f') (upd (Floor.tables f) t (ATable.mk OCUPADA (Some a) (ATable.version x + 1)))
          end)
    (Ha : same (Floor.accounts f') (upd (Floor.accounts f) a (AAccount.mk ABIERTA ot 1)))
| edit_account a x
    (Hold : Floor.accounts f a = Some x)
    (Ht : same (Floor.tables f') (Floor.tables f))
    (Ha : same (Floor.accounts f') (upd (Floor.accounts f) a
            (AAccount.mk (AAccount.status x) (AAccount.table x) (AAccount.version x + 1))))
| print_account a x
    (Hold : Floor.accounts f a = Some x) (Hopen : open_status (AAccount.status x))
    (Ht : in_check (Floor.tables f) (Floor.tables f') (AAccount.table x))
    (Ha : same (Floor.accounts f') (upd (Floor.accounts f) a
            (AAccount.mk IMPRESA (AAccount.table x) (AAccount.version x + 1))))
| close_account a x st
    (Hold : Floor.accounts f a = Some x) (Hopen : open_status (AAccount.status x))
    (Hst : closed_status st)
    (Ht : released (Floor.tables f) (Floor.tables f') a (AAccount.table x))
    (Ha : same (Floor.accounts f') (upd (Floor.accounts f) a
            (AAccount.mk st (AAccount.table x) (AAccount.version x + 1))))
| settle_account a x
    (Hold : Floor.accounts f a = Some x) (Hopen : open_status (AAccount.status x))
    (Ht : same (Floor.tables f') (Floor.tables f))
    (Ha : same (Floor.accounts f') (upd (Floor.accounts f) a
            (AAccount.mk PAGADA (AAccount.table x) (AAccount.version x + 1))))
| transfer_account a x src dst xs xd
    (Hold : Floor.accounts f a = Some x) (Hopen : open_status (AAccount.status x))
    (Hne : src ≠ dst) (Hdst : dst ≠ "") (Hat : AAccount.table x = Some src)
    (Hs : Floor.tables f src = Some xs) (Hd : Floor.tables f dst = Some xd)
    (Hfree : ATable.status xd = DISPONIBLE)
    (Ht : same (Floor.tables f') (upd (upd (Floor.tables f) src (freed xs)) dst
            (ATable.mk OCUPADA (Some a) (ATable.version xd + 1))))
    (Ha : same (Floor.accounts f') (upd (Floor.accounts f) a
            (AAccount.mk (AAccount.status x) (Some dst) (AAccount.version x + 1))))
| release_table t x
    (Hold : Floor.tables f t = Some x)
    (Hidle : ∀ a y, ATable.account x = Some a → a ≠ "" → Floor.accounts f a = Some y →
             closed_status (AAccount.status y))
    (Ht : same (Floor.tables f') (upd (Floor.tables f) t (freed x)))
    (Ha : same (Floor.accounts f') (Floor.accounts f))
| stutter
    (Ht : same (Floor.tables f') (Floor.tables f))
    (Ha : same (Floor.accounts f') (Floor.accounts f)).

(** an open account that names a table is the one that table shows, and the table is
    not offered as available; a shown account has a name *)
Definition seated (f : Floor.t) : Prop :=
  (∀ a x t, Floor.accounts f a = Some x → open_status (AAccount.status x) → AAccount.table x = Some t →
     ∃ y, Floor.tables f t = Some y ∧ ATable.account y = Some a ∧ ATable.status y ≠ DISPONIBLE) ∧
  Floor.accounts f "" = None.

Lemma open_not_closed st : open_status st → closed_status st → False.
Proof. unfold open_status, closed_status. intros [->| ->] [H|H]; discriminate. Qed.

Ltac floor_cases :=
  repeat match goal with
  | H : same ?g' _ |- context [?g' _] => rewrite H
  | H : same ?g' _, H' : context [?g' _] |- _ => rewrite H in H'
  | H : upd _ _ _ _ = Some _ |- _ => unfold upd in H
  | |- context [upd _ _ _ _] => unfold upd
  | H : context [decide (?a = ?b)] |- _ => destruct (decide (a = b)); simplify_eq/=
  | |- context [decide (?a = ?b)] => destruct (decide (a = b)); simplify_eq/=
  end.

Lemma seated_step f f' : dstep f f' → seated f → seated f'.
Proof.
  intros Hstep [Hseat Hnone]. split.
  2: { destruct Hstep; rewrite Ha; floor_cases; congruence. }
  assert (Hclosed := open_not_closed).
  intros b z u Hb Hopen' Hu. destruct Hstep; rewrite Ha in Hb; try rewrite Ht.
  - destruct (Hseat b z u) as (y & Hy & Hcur & Hocc); [done..|]. floor_cases; naive_solver.
  - floor_cases.
    + destruct Ht as (x & Hx & Hfree & Ht). rewrite Ht. floor_cases; naive_solver.
    + destruct (Hseat b z u) as (y & Hy & Hcur & Hocc); [done..|].
      destruct ot as [t|]; [|exists y; by rewrite Ht].
      destruct Ht as (x & Hx & Hfree & Ht). rewrite Ht. floor_cases; naive_solver.
  - floor_cases; eauto.
  - assert (∃ y, Floor.tables f u = Some y ∧ ATable.account y = Some b ∧ ATable.status y ≠ DISPONIBLE)
      as (y & Hy & Hcur & Hocc) by (floor_cases; eauto).
    destruct (AAccount.table x) as [t|]; simpl in Ht; [|rewrite Ht; eauto].
    destruct (Floor.tables f t) as [w|] eqn:Hw; rewrite Ht; [|eauto].
    floor_cases; naive_solver.
  - floor_cases; [naive_solver|].
    destruct (Hseat b z u) as (y & Hy & Hcur & Hocc); [done..|].
    destruct (AAccount.table x) as [t|]; simpl in Ht; [|rewrite Ht; eauto].
    destruct (Floor.tables f t) as [w|] eqn:Hw; [|rewrite Ht; eauto].
    destruct (decide (ATable.account w = Some a)); rewrite Ht; [|eauto].
    floor_cases; naive_solver.
  - floor_cases; [|eauto]. destruct Hopen'; discriminate.
  - assert (b ≠ a → ∃ y, Floor.tables f u = Some y ∧ ATable.account y = Some b ∧
                         ATable.status y ≠ DISPONIBLE ∧ u ≠ src ∧ u ≠ dst) as Hother.
    { intros Hba. floor_cases. destruct (Hseat b z u) as (y & Hy & Hcur & Hocc); [done..|].
      destruct (Hseat a x src) as (y' & Hy' & Hcur' & _); [done..|]. naive_solver. }
    floor_cases; naive_solver.
  - destruct (Hseat b z u) as (y & Hy & Hcur & Hocc); [done..|].
    floor_cases; [|eauto]. destruct (Hclosed _ Hopen'). apply (Hidle b z); congruence.
  - eauto.
Qed.

(** versions only grow, and a closed account is frozen up to line edits *)
Lemma closed_step f f' a x :
  dstep f f' → Floor.accounts f a = Some x →
  ∃ x', Floor.accounts f' a = Some x' ∧
    (x' = x ∨ AAccount.version x' = AAccount.version x + 1) ∧
    (closed_status (AAccount.status x) → AAccount.status x' = AAccount.status x ∧ AAccount.table x' = AAccount.table x).
Proof.
  intros Hstep Hx. pose proof open_not_closed.
  destruct Hstep; rewrite Ha; floor_cases; eexists; (split; [done|]); simpl; naive_solver.
Qed.

(** ** Commands of the service *)

Inductive Command :=
| CreateMesa (now : string) (input : CreateMesaInput.t)
| OpenCuenta (nowMesa now : string) (input : OpenCuentaInput.t)
| AddItem (now cuentaId : string) (expectedVersion : Z) (input : AddItemInput.t)
| CancelItem (now : string) (input : CancelItemInput.t)
| CloseCuenta (now cuentaId : string) (expectedVersion : Z) (closedStatus : CuentaStatus)
| CancelCuenta (now : string) (input : CancelCuentaInput.t)
| TransferCuenta (now : string) (input : TransferCuentaInput.t)
| ReassignWaiter (now : string) (input : ReassignWaiterInput.t)
| ChangeGuestCount (now : string) (input : ChangeGuestCountInput.t)
| RequestCheck (now : string) (clockSeconds : Z) (input : RequestCheckInput.t)
| LiberarMesa (now : string) (input : LiberarMesaInput.t).

Definition discard {S A} (m : M S PosError A) : M S PosError unit := m ;; mret tt.

Section refinement.
Context {S : Type} {DR : DiningRoomRepositoryPort S} {AR : AccountRepositoryPort S} {DL : DiningLaws S}.
Context `{!IamPinValidatorPort}.
Implicit Types s : S.

Definition run (c : Command) : M S PosError unit :=
  match c with
  | CreateMesa now i => discard (createMesaSync now i)
  | OpenCuenta nowMesa now i => discard (openCuentaSync nowMesa now i)
  | AddItem now id v i => discard (addItemToCuentaSync now id v i)
  | CancelItem now i => discard (cancelItemSync now i)
  | CloseCuenta now id v st => discard (closeCuentaSync now id v st)
  | CancelCuenta now i => discard (cancelCuentaSync now i)
  | TransferCuenta now i => discard (transferCuentaSync now i)
  | ReassignWaiter now i => discard (reassignWaiterSync now i)
  | ChangeGuestCount now i => discard (changeGuestCountSync now i)
  | RequestCheck now k i => discard (requestCheckSync now k i)
  | LiberarMesa now i => discard (liberarMesaSync now i)
  end.

(** the abstraction function *)
Definition view_mesa (m : Mesa.t) : ATable.t :=
  ATable.mk (Mesa.status m) (Mesa.currentAccountId m) (Mesa.version m).
Definition view_cuenta (c : Cuenta.t) : AAccount.t :=
  AAccount.mk (Cuenta.status c) (truthy (Cuenta.mesaId c)) (Cuenta.version c).
Definition view (s : S) : Floor.t :=
  Floor.mk (λ t, view_mesa <$> mesaOf s t) (λ a, view_cuenta <$> headerOf s a).
Arguments view : simpl never.

(** what the product asks of a caller: accounts are named, an account is closed as paid or
    cancelled, a transfer names the account's own table and a different one, and tables
    are not released by force *)
Definition admissible (c : Command) (s : S) : Prop :=
  match c with
  | OpenCuenta _ _ i => OpenCuentaInput.id i ≠ ""
  | CloseCuenta _ _ _ st => closed_status st
  | TransferCuenta _ i =>
      TransferCuentaInput.sourceMesaId i ≠ TransferCuentaInput.targetMesaId i ∧
      TransferCuentaInput.targetMesaId i ≠ "" ∧
      ∀ x, Floor.accounts (view s) (TransferCuentaInput.cuentaId i) = Some x →
           AAccount.table x = Some (TransferCuentaInput.sourceMesaId i)
  | LiberarMesa _ i => LiberarMesaInput.force i = false
  | _ => True
  end.

(** *** The ports seen through the abstraction *)

Definition reads_mesa (get : string → M S PosError (option Mesa.t)) : Prop :=
  ∀ id s s' r, get id s = (s', Ok r) →
    s' = s ∧ Floor.tables (view s) id = view_mesa <$> r ∧ (∀ m, r = Some m → Mesa.id m = id).

Definition reads_cuenta (get : string → M S PosError (option Cuenta.t)) : Prop :=
  ∀ id s s' r, get id s = (s', Ok r) →
    s' = s ∧ Floor.accounts (view s) id = view_cuenta <$> r ∧ (∀ c, r = Some c → Cuenta.id c = id).

Definition writes_mesa (save : Mesa.t → Z → M S PosError Mesa.t) : Prop :=
  ∀ m v s s' r, save m v s = (s', Ok r) →
    r = m ∧ same (Floor.accounts (view s')) (Floor.accounts (view s)) ∧
    same (Floor.tables (view s')) (upd (Floor.tables (view s)) (Mesa.id m) (view_mesa m)) ∧
    (∀ x, Floor.tables (view s) (Mesa.id m) = Some x → v = ATable.version x) ∧
    (v = 0 → Floor.tables (view s) (Mesa.id m) = None).

Definition writes_cuenta (save : Cuenta.t → Z → M S PosError Cuenta.t) : Prop :=
  ∀ c v s s' r, save c v s = (s', Ok r) →
    r = c ∧ same (Floor.tables (view s')) (Floor.tables (view s)) ∧
    same (Floor.accounts (view s')) (upd (Floor.accounts (view s)) (Cuenta.id c) (view_cuenta c)) ∧
    (∀ x, Floor.accounts (view s) (Cuenta.id c) = Some x → v = AAccount.version x) ∧
    (v = 0 → Floor.accounts (view s) (Cuenta.id c) = None).

Lemma port_getMesa : ∃ get, getMesaByIdSync = Some get ∧ reads_mesa get.
Proof.
  destruct getMesa_law as (get & Hget & Hlaw). exists get. split; [done|].
  intros id s s' r Hr. rewrite Hlaw in Hr. injection Hr as <- <-. split_and!; [done..|].
  intros m. apply mesaOf_id.
Qed.

Lemma port_getCuenta : ∃ get, getCuentaByIdSync = Some get ∧ reads_cuenta get.
Proof.
  destruct getCuenta_law as (get & Hget & Hlaw). exists get. split; [done|].
  intros id s s' r Hr. destruct (Hlaw id s) as (c & Hc & Hh). rewrite Hc in Hr.
  injection Hr as <- <-. split_and!; [done| |].
  - simpl. rewrite <- Hh. by destruct c.
  - intros x ->. apply (headerOf_id s id (header x)). by rewrite <- Hh.
Qed.

Lemma port_saveMesa : ∃ save, saveMesaSync = Some save ∧ writes_mesa save.
Proof.
  destruct saveMesa_law as (save & Hsave & Hlaw). exists save. split; [done|].
  intros m v s s' r Hr. apply Hlaw in Hr as (-> & Hm & Hh & Hv). split_and!; [done|..]; simpl.
  - intros a. simpl. by rewrite Hh.
  - intros t. simpl. rewrite Hm. unfold upd. by case_decide.
  - destruct (mesaOf s (Mesa.id m)); simpl; naive_solver.
  - destruct (mesaOf s (Mesa.id m)); simpl; naive_solver.
Qed.

Lemma port_saveCuenta : ∃ save, saveCuentaSync = Some save ∧ writes_cuenta save.
Proof.
  destruct saveCuenta_law as (save & Hsave & Hlaw). exists save. split; [done|].
  intros c v s s' r Hr. apply Hlaw in Hr as (-> & Hm & Hc). split_and!; [done|..]; simpl.
  - intros t. simpl. by rewrite Hm.
  - destruct (headerOf s (Cuenta.id c)); [destruct Hc as (_ & _ & Hc)|destruct Hc as (_ & Hc)];
      intros a; simpl; rewrite Hc; unfold upd; by case_decide.
  - destruct (headerOf s (Cuenta.id c)); simpl; naive_solver.
  - destruct (headerOf s (Cuenta.id c)); simpl; naive_solver.
Qed.

(** *** Inverting a run of the service *)

(** names the four ports and resolves their [require]s in [H] *)
Ltac open_ports H :=
  let gm := fresh "gm" in let gc := fresh "gc" in let sm := fresh "sm" in let sc := fresh "sc" in
  let E1 := fresh "Egm" in let E2 := fresh "Egc" in let E3 := fresh "Esm" in let E4 := fresh "Esc" in
  destruct port_getMesa as (gm & E1 & ?); destruct port_getCuenta as (gc & E2 & ?);
  destruct port_saveMesa as (sm & E3 & ?); destruct port_saveCuenta as (sc & E4 & ?);
  rewrite ?E1, ?E2, ?E3, ?E4 in H.

(** replaces port calls by what they say of the view *)
Ltac resolve_ports :=
  repeat match goal with
  | L : reads_mesa ?g, H : ?g _ _ = (_, Ok _) |- _ =>
      let E := fresh "Htable" in apply L in H as (? & E & ?); simplify_eq/=
  | L : reads_cuenta ?g, H : ?g _ _ = (_, Ok _) |- _ =>
      let E := fresh "Haccount" in apply L in H as (? & E & ?); simplify_eq/=
  | L : writes_mesa ?g, H : ?g _ _ _ = (_, Ok _) |- _ =>
      let E1 := fresh "Haccounts" in let E2 := fresh "Htables" in
      apply L in H as (? & E1 & E2 & ? & ?); simplify_eq/=
  | L : writes_cuenta ?g, H : ?g _ _ _ = (_, Ok _) |- _ =>
      let E1 := fresh "Htables" in let E2 := fresh "Haccounts" in
      apply L in H as (? & E1 & E2 & ? & ?); simplify_eq/=
  | H : ∀ m, Some ?x = Some m → _ |- _ => specialize (H x eq_refl)
  end;
  repeat match goal with
  | H : Cuenta.id ?c = ?k, H' : context [Cuenta.id ?c] |- _ =>
      lazymatch H' with H => fail | _ => rewrite H in H' end
  | H : Mesa.id ?c = ?k, H' : context [Mesa.id ?c] |- _ =>
      lazymatch H' with H => fail | _ => rewrite H in H' end
  end.

Lemma truthy_Some o t : truthy o = Some t → o = Some t ∧ t ≠ "".
Proof. destruct o as [[|c u]|]; simpl; intros; simplify_eq; done. Qed.

Lemma releaseTable_view c a now s s' r :
  releaseTable c a now s = (s', Ok r) →
  same (Floor.accounts (view s')) (Floor.accounts (view s)) ∧
  released (Floor.tables (view s)) (Floor.tables (view s')) a (truthy (Cuenta.mesaId c)).
Proof.
  unfold releaseTable. intros Hrun. destruct (truthy (Cuenta.mesaId c)) as [t|] eqn:Ht; simpl.
  - open_ports Hrun. minv Hrun; resolve_ports; simpl_guards; rewrite Htable; simpl.
    + split; [done|]. by rewrite decide_True.
    + split; [done|]. by rewrite decide_False.
    + done.
  - by minv Hrun.
Qed.

Lemma createMesa_refines now i s s' r :
  createMesaSync now i s = (s', Ok r) → dstep (view s) (view s').
Proof.
  unfold createMesaSync. intros Hrun. open_ports Hrun. minv Hrun. resolve_ports.
  apply (create_table _ _ (CreateMesaInput.id i)); [|done..].
  match goal with Hz : 0 = 0 → _ |- _ => by apply Hz end.
Qed.

Lemma addItem_refines now id v i s s' r :
  addItemToCuentaSync now id v i s = (s', Ok r) → dstep (view s) (view s').
Proof.
  unfold addItemToCuentaSync, check_version. intros Hrun. open_ports Hrun. minv Hrun. resolve_ports.
  exact (edit_account (view s) (view s') _ _ Haccount Htables Haccounts).
Qed.

(** the authorisation checks write nothing *)
Lemma supervisorAuthorization_reads i s s' r : supervisorAuthorization i s = (s', Ok r) → s' = s.
Proof. unfold supervisorAuthorization. destruct (truthy _); intros Hrun; by minv Hrun. Qed.

Lemma check_optional_pin_reads u p s s' r :
  check_optional_pin (S := S) u p s = (s', Ok r) → s' = s.
Proof.
  unfold check_optional_pin, check_pin, throw_when.
  destruct (truthy _); [destruct (negb _)|]; intros Hrun; by minv Hrun.
Qed.

Lemma managerAuthorization_reads c i s s' r : managerAuthorization c i s = (s', Ok r) → s' = s.
Proof.
  unfold managerAuthorization. destruct (bool_decide _); intros Hrun; minv Hrun; [|done].
  unfold throw_when in Hrun. destruct (negb _); by minv Hrun.
Qed.

Ltac resolve_checks :=
  repeat match goal with
  | H : supervisorAuthorization _ _ = (_, Ok _) |- _ => apply supervisorAuthorization_reads in H; subst
  | H : check_optional_pin _ _ _ = (_, Ok _) |- _ => apply check_optional_pin_reads in H; subst
  | H : managerAuthorization _ _ _ = (_, Ok _) |- _ => apply managerAuthorization_reads in H; subst
  | H : releaseTable _ _ _ _ = (_, Ok _) |- _ =>
      let E1 := fresh "Hrel_accounts" in let E2 := fresh "Hrel_tables" in
      apply releaseTable_view in H as [E1 E2]
  end.

(** [invert_run H] decomposes a successful run of the service into facts about the view *)
Ltac invert_run H := open_ports H; minv H; resolve_ports; resolve_checks; resolve_ports.

Lemma isOpen_spec c : negb (isOpen c) = false → open_status (Cuenta.status c).
Proof.
  unfold isOpen, open_status. intros Ho. apply negb_false_iff, orb_true_iff in Ho.
  destruct Ho; simpl_guards; auto.
Qed.

Lemma same_trans {V} (f g h : string → option V) : same f g → same g h → same f h.
Proof. intros H1 H2 k. by rewrite H1, H2. Qed.

Lemma same_released f f1 g a ot : same f1 f → released f1 g a ot → released f g a ot.
Proof.
  intros Hs. unfold released. destruct ot as [t|]; [|intros Hr k; by rewrite Hr].
  rewrite <- (Hs t). destruct (f1 t); [|intros Hr k; by rewrite Hr].
  case_decide; intros Hr k; rewrite Hr; unfold upd; [case_decide; [done|]|]; by rewrite Hs.
Qed.

Lemma cancelItem_refines now i s s' r :
  cancelItemSync now i s = (s', Ok r) → dstep (view s) (view s').
Proof.
  unfold cancelItemSync, check_version, check_pin. intros Hrun. invert_run Hrun.
  exact (edit_account (view s) (view s') _ _ Haccount Htables Haccounts).
Qed.

Lemma reassignWaiter_refines now i s s' r :
  reassignWaiterSync now i s = (s', Ok r) → dstep (view s) (view s').
Proof.
  unfold reassignWaiterSync, check_version, check_pin. intros Hrun. invert_run Hrun.
  exact (edit_account (view s) (view s') _ _ Haccount Htables Haccounts).
Qed.

Lemma changeGuestCount_refines now i s s' r :
  changeGuestCountSync now i s = (s', Ok r) → dstep (view s) (view s').
Proof.
  unfold changeGuestCountSync, check_version. intros Hrun. invert_run Hrun.
  exact (edit_account (view s) (view s') _ _ Haccount Htables Haccounts).
Qed.

Lemma closeCuenta_refines now id v st s s' r :
  closed_status st → closeCuentaSync now id v st s = (s', Ok r) → dstep (view s) (view s').
Proof.
  unfold closeCuentaSync, check_version. intros Hst Hrun. invert_run Hrun.
  apply (close_account (view s) _ _ _ st Haccount); [by apply isOpen_spec|done| |].
  - exact (same_released _ _ _ _ _ Htables Hrel_tables).
  - exact (same_trans _ _ _ Hrel_accounts Haccounts).
Qed.

Lemma cancelCuenta_refines now i s s' r :
  cancelCuentaSync now i s = (s', Ok r) → dstep (view s) (view s').
Proof.
  unfold cancelCuentaSync, check_version, check_pin. intros Hrun. invert_run Hrun. simpl_guards.
  apply (close_account (view s) _ _ _ ANULADA Haccount).
  - simpl. unfold open_status. destruct (Cuenta.status found); auto; done.
  - by right.
  - exact (same_released _ _ _ _ _ Htables Hrel_tables).
  - exact (same_trans _ _ _ Hrel_accounts Haccounts).
Qed.

Lemma same_upd {V} (f f1 g : string → option V) k v :
  same f1 f → same g (upd f1 k v) → same g (upd f k v).
Proof. intros H1 H2 j. rewrite H2. unfold upd. case_decide; [done|apply H1]. Qed.

Lemma openCuenta_refines nowMesa now i s s' r :
  OpenCuentaInput.id i ≠ "" →
  openCuentaSync nowMesa now i s = (s', Ok r) → dstep (view s) (view s').
Proof.
  unfold openCuentaSync, occupyTable. intros Hid Hrun.
  destruct (truthy (OpenCuentaInput.mesaId i)) as [t|] eqn:Ht; invert_run Hrun; simpl_guards.
  - assert (Hnew : Floor.accounts (view s) (OpenCuentaInput.id i) = None).
    { simpl. rewrite Haccount. destruct r0; [by destruct Hguard|done]. }
    apply (open_account (view s) (view s') _ (Some t) Hnew Hid).
    + exists (view_mesa found). split_and!; [done..|]. exact (same_trans _ _ _ Htables0 Htables).
    + rewrite <- Ht. exact (same_upd _ _ _ _ _ Haccounts Haccounts0).
  - assert (Hnew : Floor.accounts (view s) (OpenCuentaInput.id i) = None).
    { simpl. rewrite Haccount. destruct r0; [by destruct Hguard|done]. }
    apply (open_account (view s) (view s') _ None Hnew Hid); [exact Htables|].
    rewrite <- Ht. exact Haccounts.
Qed.

Lemma markTableInCheck_view c now s s' r :
  markTableInCheck c now s = (s', Ok r) →
  same (Floor.accounts (view s')) (Floor.accounts (view s)) ∧
  in_check (Floor.tables (view s)) (Floor.tables (view s')) (truthy (Cuenta.mesaId c)).
Proof.
  unfold markTableInCheck. intros Hrun. destruct (truthy (Cuenta.mesaId c)) as [t|] eqn:Ht; simpl.
  - invert_run Hrun; rewrite Htable; simpl; [|done]. split; [exact Haccounts|exact Htables].
  - by minv Hrun.
Qed.

Lemma same_in_check f f1 g ot : same f1 f → in_check f1 g ot → in_check f g ot.
Proof.
  intros Hs. unfold in_check. destruct ot as [t|]; [|intros Hr k; by rewrite Hr].
  rewrite <- (Hs t). destruct (f1 t); intros Hr k; rewrite Hr; unfold upd; [case_decide; [done|]|]; by rewrite Hs.
Qed.

Lemma requestCheck_refines now k i s s' r :
  requestCheckSync now k i s = (s', Ok r) → dstep (view s) (view s').
Proof.
  unfold requestCheckSync, check_version. intros Hrun. invert_run Hrun.
  match goal with Hm : markTableInCheck _ _ _ = _ |- _ => apply markTableInCheck_view in Hm as [Hma Hmt] end.
  apply (print_account (view s) (view s') _ _ Haccount); [by apply isOpen_spec| |].
  - exact (same_in_check _ _ _ _ Htables Hmt).
  - exact (same_trans _ _ _ Hma Haccounts).
Qed.

Lemma transfer_refines now i s s' r :
  admissible (TransferCuenta now i) s →
  transferCuentaSync now i s = (s', Ok r) → dstep (view s) (view s').
Proof.
  unfold transferCuentaSync, check_version, check_pin. intros (Hne & Hnamed & Hown) Hrun. invert_run Hrun.
  match goal with Hv : negb (pinValidateTransfer _ _ _ _) = false |- _ =>
    apply negb_false_iff, pinValidateTransfer_spec in Hv as (Hopen & _ & Hfree & _) end.
  repeat match goal with Hi : Mesa.id _ = _ |- _ => rewrite Hi in * end.
  eapply (transfer_account (view s) (view s') _ _ _ _ _ _ Haccount Hopen Hne Hnamed (Hown _ Haccount)
            Htable0 Htable (Hfree Hne)).
  - intros k. change (Floor.tables (view s') k) with (view_mesa <$> mesaOf s' k).
    rewrite (Htables1 k), (Htables k). unfold upd. case_decide; [done|]. exact (Htables0 k).
  - apply (same_upd _ _ _ _ _ (same_trans _ _ _ Haccounts Haccounts0)).
    intros k. change (Floor.accounts (view s') k) with (view_cuenta <$> headerOf s' k).
    rewrite (Haccounts1 k). unfold upd. case_decide; [|done]. f_equal. unfold view_cuenta. simpl.
    by destruct (TransferCuentaInput.targetMesaId i).
Qed.

Lemma liberarMesa_refines now i s s' r :
  LiberarMesaInput.force i = false →
  liberarMesaSync now i s = (s', Ok r) → dstep (view s) (view s').
Proof.
  unfold liberarMesaSync. intros Hforce Hrun. rewrite Hforce in Hrun. open_ports Hrun. minv Hrun; resolve_ports.
  - by apply stutter.
  - assert (s1 = s ∧ ∀ a y, Mesa.currentAccountId found = Some a → a ≠ "" →
              Floor.accounts (view s) a = Some y → closed_status (AAccount.status y)) as [-> Hidle].
    { destruct (truthy (Mesa.currentAccountId found)) as [a|] eqn:Ha.
      - apply truthy_Some in Ha as [Ha _]. unfold throw_when in *.
        match goal with Hm : (gc a ≫= _) _ = _ |- _ => minv Hm end; resolve_ports; (split; [done|]);
          intros b y Hb _ Hy; assert (b = a) as -> by congruence; simpl in Hy; rewrite Haccount in Hy; [|done].
        injection Hy as <-. simpl. unfold isOpen, closed_status in *.
        destruct (Cuenta.status _); try done; auto.
      - match goal with Hm : mret tt _ = _ |- _ => minv Hm end. split; [done|]. intros a y Hcur Hne.
        exfalso. rewrite Hcur in Ha. by destruct a. }
    apply (release_table (view s) (view s') _ _ Htable Hidle); [exact Htables|exact Haccounts].
Qed.

(** every admissible command that succeeds is a step of the abstract machine *)
Lemma run_refines c s s' :
  admissible c s → run c s = (s', Ok tt) → dstep (view s) (view s').
Proof.
  intros Hadm Hrun.
  destruct c; unfold run, discard in Hrun; apply bind_ok in Hrun as (r & s1 & Hop & Hret);
    rewrite run_ret in Hret; injection Hret as ->;
    [ by eapply createMesa_refines | by eapply openCuenta_refines | by eapply addItem_refines
    | by eapply cancelItem_refines | by eapply closeCuenta_refines | by eapply cancelCuenta_refines
    | by eapply transfer_refines | by eapply reassignWaiter_refines | by eapply changeGuestCount_refines
    | by eapply requestCheck_refines | by eapply liberarMesa_refines ].
Qed.

(** a session: each command either succeeds or leaves the state as it was, as it does
    inside [runInTransaction] *)
Inductive session : S → list (Command * bool) → S → Prop :=
| session_nil s : session s [] s
| session_ok s c s1 l s' :
    admissible c s → run c s = (s1, Ok tt) → session s1 l s' → session s ((c, true) :: l) s'
| session_rejected s c s1 e l s' :
    run c s = (s1, Err e) → session s l s' → session s ((c, false) :: l) s'.

Lemma session_invariant (P : Floor.t → Prop) s l s' :
  (∀ f f', dstep f f' → P f → P f') → session s l s' → P (view s) → P (view s').
Proof. intros Hstep. induction 1; eauto using run_refines. Qed.

(** *** Optimistic concurrency *)

(** the account a command edits, and the version its caller has seen *)
Definition target (c : Command) : option (string * Z) :=
  match c with
  | AddItem _ id v _ | CloseCuenta _ id v _ => Some (id, v)
  | CancelItem _ i => Some (CancelItemInput.cuentaId i, CancelItemInput.expectedVersion i)
  | CancelCuenta _ i => Some (CancelCuentaInput.cuentaId i, CancelCuentaInput.expectedVersion i)
  | TransferCuenta _ i => Some (TransferCuentaInput.cuentaId i, TransferCuentaInput.expectedVersion i)
  | ReassignWaiter _ i => Some (ReassignWaiterInput.cuentaId i, ReassignWaiterInput.expectedVersion i)
  | ChangeGuestCount _ i => Some (ChangeGuestCountInput.cuentaId i, ChangeGuestCountInput.expectedVersion i)
  | RequestCheck _ _ i => Some (RequestCheckInput.cuentaId i, RequestCheckInput.expectedVersion i)
  | CreateMesa _ _ | OpenCuenta _ _ _ | LiberarMesa _ _ => None
  end.

(** a run that stops before writing anything *)
Definition rejected {A} (m : M S PosError A) s (conflict : PosError → Prop) : Prop :=
  ∃ e, m s = (s, Err e) ∧ (conflict e ∨ ∃ code status, e = DomainError code status).

Lemma rejected_bind {A B} (m : M S PosError A) (k : A → M S PosError B) s C :
  rejected m s C → rejected (m ≫= k) s C.
Proof. intros (e & He & HC). exists e. split; [by apply bind_run_err|done]. Qed.

Lemma rejected_throw_when {A} b code st (k : unit → M S PosError A) s C :
  (b = false → rejected (k tt) s C) → rejected (throw_when b (DomainError code st) ≫= k) s C.
Proof.
  intros Hk. destruct b; [|by apply Hk]. eexists. split; [by rewrite bind_throw_when|eauto].
Qed.

Lemma rejected_require {A B} (o : option A) code st (k : A → M S PosError B) s C :
  (∀ a, o = Some a → rejected (k a) s C) → rejected (require o (DomainError code st) ≫= k) s C.
Proof.
  intros Hk. destruct o; [by apply Hk|]. eexists. split; [by rewrite bind_require|eauto].
Qed.

Lemma rejected_check_version {A} (k : unit → M S PosError A) c id v s :
  Cuenta.version c ≠ v →
  rejected (check_version c id v ≫= k) s (λ e, ∃ snap, e = OCCConflictError id v (Cuenta.version c) snap).
Proof.
  intros Hv. eexists. split.
  - unfold check_version. rewrite bind_throw_when. by rewrite (proj2 (Z.eqb_neq _ _) Hv).
  - left. by eexists.
Qed.

Lemma rejected_optional_pin {A} u p (k : unit → M S PosError A) s C :
  rejected (k tt) s C → rejected (check_optional_pin u p ≫= k) s C.
Proof.
  intros Hk. unfold check_optional_pin, check_pin. destruct (truthy p); [|done].
  by apply rejected_throw_when.
Qed.

(** the account read is the one whose version is stale *)
Lemma rejected_getCuenta {A} get id x (k : option Cuenta.t → M S PosError A) s C :
  getCuentaByIdSync = Some get → Floor.accounts (view s) id = Some x →
  (∀ c, Cuenta.version c = AAccount.version x → rejected (k (Some c)) s C) → rejected (get id ≫= k) s C.
Proof.
  intros Hget Hx Hk. destruct getCuenta_law as (get' & Hget' & Hlaw).
  assert (get' = get) as -> by congruence. destruct (Hlaw id s) as (c & Hc & Hh).
  simpl in Hx. rewrite <- Hh in Hx. destruct c as [c|]; [|done]. injection Hx as <-.
  destruct (Hk c eq_refl) as (e & He & HC). exists e. split; [|done].
  by rewrite (bind_run_ok _ _ _ _ _ Hc).
Qed.

Ltac reject :=
  repeat first
    [ match goal with Hc : Cuenta.version ?c = _ |- rejected (check_version ?c _ _ ≫= _) _ _ =>
        rewrite <- Hc; apply rejected_check_version; congruence end
    | eapply rejected_getCuenta; [eassumption|eassumption|intros ? ?]
    | apply rejected_optional_pin
    | apply rejected_require; intros ? ?; simplify_eq
    | apply rejected_throw_when; intros ? ].

Lemma stale_rejected c id v x s :
  target c = Some (id, v) → Floor.accounts (view s) id = Some x → AAccount.version x ≠ v →
  rejected (run c) s (λ e, ∃ snap, e = OCCConflictError id v (AAccount.version x) snap).
Proof.
  intros Ht Hx Hv.
  destruct port_getMesa as (gm & E1 & _), port_getCuenta as (gc & E2 & _),
    port_saveMesa as (sm & E3 & _), port_saveCuenta as (sc & E4 & _).
  destruct c; simpl in Ht; try discriminate Ht; injection Ht as <- <-; simpl;
    unfold discard; apply rejected_bind;
    unfold addItemToCuentaSync, cancelItemSync, closeCuentaSync, cancelCuentaSync, transferCuentaSync,
      reassignWaiterSync, changeGuestCountSync, requestCheckSync, check_pin, SYNC_UNSUPPORTED;
    rewrite ?E1, ?E2, ?E3, ?E4; reject.
Qed.

(** a run replaced account [id], seen at version [v], by one at version [v + 1] *)
Definition consumed (id : string) (v : Z) s s' : Prop :=
  ∃ x x', Floor.accounts (view s) id = Some x ∧ AAccount.version x = v ∧
    Floor.accounts (view s') id = Some x' ∧ AAccount.version x' = v + 1.

Lemma consumed_upd id v s s1 s' c c' :
  Floor.accounts (view s) id = Some (view_cuenta c) → negb (Cuenta.version c =? v) = false →
  same (Floor.accounts (view s1)) (upd (Floor.accounts (view s)) id (view_cuenta c')) →
  same (Floor.accounts (view s')) (Floor.accounts (view s1)) →
  Cuenta.version c' = Cuenta.version c + 1 → consumed id v s s'.
Proof.
  intros Hc Hv H1 H2 Hv'. simpl_guards. exists (view_cuenta c), (view_cuenta c').
  split; [done|]. split; [done|]. split; [|simpl; lia]. rewrite (H2 id), (H1 id).
  unfold upd. by rewrite decide_True.
Qed.

Lemma same_refl {V} (f : string → option V) : same f f.
Proof. done. Qed.

(** a command that succeeds consumed exactly the version its caller had seen *)
Lemma success_consumes_version c id v s s' :
  target c = Some (id, v) → run c s = (s', Ok tt) → consumed id v s s'.
Proof.
  intros Ht Hrun.
  destruct c; simpl in Ht; try discriminate Ht; injection Ht as <- <-; simpl in Hrun;
    unfold discard in Hrun; apply bind_ok in Hrun as (r & s1 & Hrun & Hret);
    rewrite run_ret in Hret; injection Hret as ->;
    unfold addItemToCuentaSync, cancelItemSync, closeCuentaSync, cancelCuentaSync, transferCuentaSync,
      reassignWaiterSync, changeGuestCountSync, requestCheckSync, check_pin, check_version in Hrun;
    invert_run Hrun.
  all: try match goal with Hm : markTableInCheck _ _ _ = _ |- _ => apply markTableInCheck_view in Hm as [Hrel_accounts _] end.
  all: eapply consumed_upd; [exact Haccount|eassumption| | | ].
  all: try match goal with Hu : same _ (upd _ _ _) |- same _ (upd _ _ _) =>
    first [exact Hu | exact (same_upd _ _ _ _ _ (same_trans _ _ _ Haccounts Haccounts0) Hu)] end.
  all: try first [exact Hrel_accounts | apply same_refl].
  all: done.
Qed.

End refinement.

(** ** The service over SQLite, one transaction per request *)

Section served.
Context `{!IamPinValidatorPort}.
Implicit Types s : Edge.t.

(** a request as the LAN API serves it: the command and its outbox events in one transaction *)
Definition serve (createdAt : string) (c : Command) (events : list EnqueueInput.t) : Tx unit :=
  executeWithOutbox createdAt (run c) (λ _, events).

(** the states reached from [s] by requests that satisfy [ok], whatever their outcome *)
Inductive requests (ok : Command → Edge.t → Prop) (s : Edge.t) : Edge.t → Prop :=
| served_none : requests ok s s
| served_request s1 s2 createdAt c events res :
    requests ok s s1 → ok c s1 → serve createdAt c events s1 = (s2, res) → requests ok s s2.

(** ... by admissible requests *)
Definition served : Edge.t → Edge.t → Prop := requests admissible.

Lemma view_db s s' : Edge.db s' = Edge.db s → view s' = view s.
Proof. intros Hdb. unfold view. simpl. by rewrite Hdb. Qed.

Lemma admissible_db c s s' : Edge.db s' = Edge.db s → admissible c s → admissible c s'.
Proof. intros Hdb%view_db. unfold admissible. by rewrite Hdb. Qed.

(** enqueuing events changes neither tables nor accounts *)
Lemma serve_ok createdAt c events s s' r :
  Edge.inTransaction s = false → serve createdAt c events s = (s', Ok r) →
  ∃ s1, run c (s <| Edge.inTransaction := true |>) = (s1, Ok tt) ∧ view s' = view s1 ∧
    Edge.db s' = (Edge.db s1) <| Db.outbox_queue ::= (λ l, l ++ (outbox_row createdAt <$> events)) |>.
Proof.
  intros Htx. unfold serve, executeWithOutbox. rewrite runInTransaction_None.
  intros (s2 & Hfn & _ & _ & Hdb)%executeTx_spec; [|done]. minv Hfn.
  match goal with He : for_each _ _ _ = (_, Ok ?u), Hr : run _ _ = (?s1, Ok ?r) |- _ =>
    destruct u, r; apply enqueue_all_ok in He as (_ & _ & ->); exists s1; split; [exact Hr|] end.
  split; [|exact Hdb]. unfold view. simpl. by rewrite Hdb.
Qed.

Lemma serve_err createdAt c events s s' e :
  Edge.inTransaction s = false → serve createdAt c events s = (s', Err e) →
  Edge.db s' = Edge.db s ∧ Edge.inTransaction s' = false.
Proof. unfold serve, executeWithOutbox. apply runInTransaction_err. Qed.

Lemma serve_tx createdAt c events s s' res :
  Edge.inTransaction s = false → serve createdAt c events s = (s', res) → Edge.inTransaction s' = false.
Proof. unfold serve, executeWithOutbox. by intros Htx (? & _ & ? & _)%runInTransaction_spec. Qed.

Lemma serve_step createdAt c events s s' res :
  Edge.inTransaction s = false → admissible c s → serve createdAt c events s = (s', res) →
  match res with Ok _ => dstep (view s) (view s') | Err _ => Edge.db s' = Edge.db s end.
Proof.
  intros Htx Hadm Hs. destruct res as [r|e]; [|by apply serve_err in Hs as [? _]].
  apply serve_ok in Hs as (s1 & Hrun & -> & _); [|done].
  refine (run_refines c _ s1 _ Hrun). by apply (admissible_db c s).
Qed.

Lemma served_tx ok s s' : Edge.inTransaction s = false → requests ok s s' → Edge.inTransaction s' = false.
Proof. induction 2; eauto using serve_tx. Qed.

Lemma served_invariant (P : Floor.t → Prop) s s' :
  (∀ f f', dstep f f' → P f → P f') → Edge.inTransaction s = false →
  served s s' → P (view s) → P (view s').
Proof.
  intros Hstep Htx Hs. induction Hs as [|s1 s2 t c ev res Hs IH Hadm Hserve]; [done|]. intros HP.
  apply serve_step in Hserve; [|by eapply served_tx|done].
  destruct res; [by eauto|]. rewrite (view_db _ _ Hserve). auto.
Qed.

(** account [a] at [x] or later *)
Definition account_since (a : string) (x : AAccount.t) (f : Floor.t) : Prop :=
  ∃ x', Floor.accounts f a = Some x' ∧ AAccount.version x <= AAccount.version x' ∧
    (closed_status (AAccount.status x) →
     AAccount.status x' = AAccount.status x ∧ AAccount.table x' = AAccount.table x).

Lemma account_since_step a x f f' : dstep f f' → account_since a x f → account_since a x f'.
Proof.
  intros Hstep (x' & Hx & Hv & Hc). destruct (closed_step _ _ _ _ Hstep Hx) as (x2 & Hx2 & Hv2 & Hc2).
  exists x2. split; [done|]. split; [destruct Hv2 as [->|]; lia|].
  intros Hcl. destruct (Hc Hcl) as [E1 E2]. rewrite E1, E2 in Hc2. auto.
Qed.

Lemma view_account s a c :
  SqliteDining.selectCuenta (Edge.db s) a = Some c → Floor.accounts (view s) a = Some (view_cuenta c).
Proof.
  intros Hc. simpl. rewrite <- SqliteDiningFacts.selectHeader_spec, Hc. by destruct c.
Qed.

Lemma view_account_inv s a x :
  Floor.accounts (view s) a = Some x →
  ∃ c, SqliteDining.selectCuenta (Edge.db s) a = Some c ∧ x = view_cuenta c.
Proof.
  simpl. rewrite <- SqliteDiningFacts.selectHeader_spec.
  destruct (SqliteDining.selectCuenta _ a) as [c|]; [|done]. intros [= <-]. exists c. by destruct c.
Qed.

Lemma isOpen_status c : isOpen c = true ↔ open_status (Cuenta.status c).
Proof. unfold isOpen, open_status. rewrite orb_true_iff, !bool_decide_eq_true. done. Qed.

Lemma initial_seated : seated (view Edge.initial).
Proof. split; [|done]. intros a x t Ha. discriminate Ha. Qed.

(** ** Properties *)

(** C37: refinement.  A request (any command but a bill split or a tender) that the LAN API
    serves over SQLite in one transaction changes no table of the database when it is refused
    for any reason; and when it succeeds it is a step of the abstract dining-room machine,
    provided it is [admissible]: an opened account has a name, an account is closed as paid or
    cancelled, a transfer names the account's own table and another one, and no table is
    released by force.  The API does not test all of that: closing an account as ABIERTA is
    served and is no step ([closing_as_open_is_no_step]). *)
Theorem request_refines_floor createdAt c events s s' res :
  Edge.inTransaction s = false → serve createdAt c events s = (s', res) →
  match res with Ok _ => admissible c s → dstep (view s) (view s') | Err _ => Edge.db s' = Edge.db s end.
Proof.
  intros Htx Hs. destruct res as [r|e]; [|by apply serve_err in Hs as [? _]].
  intros Hadm. exact (serve_step _ _ _ _ _ (Ok r) Htx Hadm Hs).
Qed.

(** C1: seating.  In every state reached from an empty database by admissible requests, an
    open account that names a table is the account that table shows, the table is not
    offered as available, and no other open account names it. *)
Theorem open_account_holds_its_table s a c t :
  served Edge.initial s →
  SqliteDining.selectCuenta (Edge.db s) a = Some c → isOpen c = true → truthy (Cuenta.mesaId c) = Some t →
  ∃ m, SqliteDining.selectMesa (Edge.db s) t = Some m ∧ Mesa.currentAccountId m = Some a ∧
    Mesa.status m ≠ DISPONIBLE ∧
    ∀ b c', SqliteDining.selectCuenta (Edge.db s) b = Some c' → isOpen c' = true →
      truthy (Cuenta.mesaId c') = Some t → b = a.
Proof.
  intros Hs Hc Ho Ht.
  assert (seated (view s)) as [Hseat _].
  { exact (served_invariant seated Edge.initial s seated_step eq_refl Hs initial_seated). }
  destruct (Hseat a _ t (view_account _ _ _ Hc) (proj1 (isOpen_status c) Ho) Ht) as (y & Hy & Hcur & Hst).
  simpl in Hy. destruct (SqliteDining.selectMesa (Edge.db s) t) as [m|] eqn:Hm; [|done]. injection Hy as <-.
  exists m. split_and!; [done..|]. intros b c' Hc' Ho' Ht'.
  destruct (Hseat b _ t (view_account _ _ _ Hc') (proj1 (isOpen_status c') Ho') Ht') as (y & Hy & Hcur' & _).
  simpl in *. rewrite Hm in Hy. injection Hy as <-. simpl in *. congruence.
Qed.

(** A paid or cancelled account stays what it is.  Whatever admissible requests follow,
    the account still exists with the same status and table, and its version never
    decreases. *)
Theorem closed_account_is_final s s' a c :
  Edge.inTransaction s = false → served s s' →
  SqliteDining.selectCuenta (Edge.db s) a = Some c → closed_status (Cuenta.status c) →
  ∃ c', SqliteDining.selectCuenta (Edge.db s') a = Some c' ∧ Cuenta.status c' = Cuenta.status c ∧
    truthy (Cuenta.mesaId c') = truthy (Cuenta.mesaId c) ∧ Cuenta.version c <= Cuenta.version c'.
Proof.
  intros Htx Hs Hc Hcl.
  assert (account_since a (view_cuenta c) (view s')) as (x' & Hx & Hv & Hf).
  { apply (served_invariant _ s s' (account_since_step a (view_cuenta c)) Htx Hs).
    exists (view_cuenta c). split; [by apply view_account|]. done. }
  apply view_account_inv in Hx as (c' & Hc' & ->). exists c'.
  destruct (Hf Hcl) as [E1 E2]. done.
Qed.

(** C39: optimistic concurrency.  A command that edits account [id] seen at version [v]
    succeeds only on an account stored at exactly [v], which it leaves at [v + 1]; on any
    other stored version it stops before writing anything, with the version conflict or
    an earlier domain error. *)
Theorem command_consumes_version c id v s s' res x :
  target c = Some (id, v) → SqliteDining.selectCuenta (Edge.db s) id = Some x →
  run c s = (s', res) →
  match res with
  | Ok _ => Cuenta.version x = v ∧
      ∃ x', SqliteDining.selectCuenta (Edge.db s') id = Some x' ∧ Cuenta.version x' = v + 1
  | Err e => Cuenta.version x ≠ v →
      s' = s ∧ ((∃ snap, e = OCCConflictError id v (Cuenta.version x) snap) ∨ ∃ code st, e = DomainError code st)
  end.
Proof.
  intros Ht Hx Hrun. apply view_account in Hx. destruct res as [[]|e].
  - destruct (success_consumes_version _ _ _ _ _ Ht Hrun) as (y & y' & Hy & Hv & Hy' & Hv').
    assert (y = view_cuenta x) as -> by congruence. split; [done|].
    apply view_account_inv in Hy' as (x' & Hx' & ->). by exists x'.
  - intros Hne. destruct (stale_rejected _ _ _ _ _ Ht Hx Hne) as (e' & He & HC).
    assert (s' = s ∧ e = e') as [-> ->] by (rewrite He in Hrun; injection Hrun; auto). by split.
Qed.

(** No lost update.  Once a request that edits account [id] at version [v] has been
    served, no later request based on the same version can succeed, whatever admissible
    requests were served in between. *)
Theorem no_lost_update c1 c2 id v t1 ev1 t2 ev2 s s1 s2 s3 res :
  target c1 = Some (id, v) → target c2 = Some (id, v) → Edge.inTransaction s = false →
  serve t1 c1 ev1 s = (s1, Ok tt) → served s1 s2 → serve t2 c2 ev2 s2 = (s3, res) →
  Edge.db s3 = Edge.db s2 ∧ ∃ e, res = Err e.
Proof.
  intros Ht1 Ht2 Htx H1 Hs H2. pose proof (serve_tx _ _ _ _ _ _ Htx H1) as Htx1.
  pose proof (served_tx _ _ _ Htx1 Hs) as Htx2.
  destruct res as [r|e]; [exfalso|apply serve_err in H2 as [? _]; eauto].
  apply serve_ok in H1 as (u1 & Hr1 & Hview1 & _); [|done]. apply serve_ok in H2 as (u2 & Hr2 & _); [|done].
  destruct (success_consumes_version _ _ _ _ _ Ht1 Hr1) as (_ & x & _ & _ & Hx & Hv).
  destruct (success_consumes_version _ _ _ _ _ Ht2 Hr2) as (y & _ & Hy & Hv' & _).
  rewrite <- Hview1 in Hx.
  assert (account_since id x (view s2)) as (x' & Hx' & Hge & _).
  { apply (served_invariant _ s1 s2 (account_since_step id x) Htx1 Hs). exists x. done. }
  change (Floor.accounts (view s2) id = Some y) in Hy.
  assert (x' = y) as -> by congruence. lia.
Qed.
End served.

(** ** PIN validation *)

(** the production validator: an [async] method over the offline IAM service, whose
    [authenticateWithPin] throws, refuses ([None]) or opens a session for a user *)
(* offline-iam-pin-validator.ts:9-28 OfflineIamPinValidatorAdapter *)
Definition OfflineIamPinValidatorAdapter
    (authenticateWithPin : string → string → string → result JsError (option string)) : IamPinValidatorPort :=
  {| validatePin userId pin stationId := Promise
       (match authenticateWithPin userId pin (default "POS-DEFAULT-STATION" stationId) with
        | Ok (Some sessionUserId) => bool_decide (sessionUserId = userId)
        | _ => false
        end) |}.

(** the validator of fastify-app.ts when none is configured *)
(* fastify-app.ts:312-314 failClosedPinValidator *)
Definition failClosedPinValidator : IamPinValidatorPort := {| validatePin _ _ _ := Sync false |}.

Definition accept_all : IamPinValidatorPort := {| validatePin _ _ _ := Sync true |}.

Section pins.
Context {S : Type} {DR : DiningRoomRepositoryPort S} {AR : AccountRepositoryPort S}.
Context (V W : IamPinValidatorPort).
Hypothesis same_truth : ∀ u p st, js_truthy (@validatePin V u p st) = js_truthy (@validatePin W u p st).

Lemma check_pin_ext u p code (s : S) : @check_pin S V u p code s = @check_pin S W u p code s.
Proof. unfold check_pin. by rewrite same_truth. Qed.

Lemma check_optional_pin_ext u p (s : S) : @check_optional_pin S V u p s = @check_optional_pin S W u p s.
Proof. unfold check_optional_pin. destruct (truthy p); [apply check_pin_ext|done]. Qed.

Lemma supervisorAuthorization_ext i (s : S) :
  @supervisorAuthorization S V i s = @supervisorAuthorization S W i s.
Proof. unfold supervisorAuthorization. destruct (truthy _); [|done]. by rewrite !same_truth. Qed.

Lemma managerAuthorization_ext c i (s : S) :
  @managerAuthorization S V c i s = @managerAuthorization S W c i s.
Proof.
  unfold managerAuthorization. destruct (bool_decide _); [|done]. apply bind_ext; [done|].
  intros p s'. by rewrite !same_truth.
Qed.

Ltac same_run :=
  repeat first
    [ reflexivity
    | apply check_pin_ext | apply check_optional_pin_ext | apply supervisorAuthorization_ext
    | apply managerAuthorization_ext
    | apply bind_ext; [intros ?|intros ? ?]
    | case_match ].

(** commands see a validator only through the truth of what it returns *)
Lemma run_pins c (s : S) : @run S DR AR V c s = @run S DR AR W c s.
Proof. destruct c; simpl; unfold discard, run; same_run. Qed.
End pins.

(** The PIN checks of the dining service are not checks in production.  The service
    uses the value [validatePin] returns as a condition without awaiting it; the production
    validator returns a promise, which is always true as a condition.  So whatever the IAM
    service answers, and even if it always fails, every command of the dining room behaves
    exactly as if every PIN were right. *)
Theorem dining_pins_unchecked_in_production authenticateWithPin c s :
  @run _ _ _ (OfflineIamPinValidatorAdapter authenticateWithPin) c s = @run _ _ _ accept_all c s.
Proof. by apply run_pins. Qed.

(** ** Witnesses: a table is created, an account opened on it, a line added, the account paid *)

#[local] Instance example_pins : IamPinValidatorPort := {| validatePin _ pin _ := Sync (bool_decide (pin = "1234")) |}.

Definition example_mesa : Command := CreateMesa "t0" (CreateMesaInput.mk "m1" "Salon" "1" None None (Some 4)).
Definition example_open : Command :=
  OpenCuenta "t1" "t1" (OpenCuentaInput.mk "c1" (Some "m1") "EPOCH-2026-00001" COMEDOR "u1" None (Some 2)).
Definition example_add : Command :=
  AddItem "t2" "c1" 1 (AddItemInput.mk "i1" "p1" "Taco" 250000 20000 1600 None None).
Definition example_close : Command := CloseCuenta "t3" "c1" 2 PAGADA.

Definition after (s : Edge.t) (c : Command) : Edge.t := (serve "t" c [] s).1.
Definition example_opened : Edge.t := after (after Edge.initial example_mesa) example_open.
Definition example_added : Edge.t := after example_opened example_add.
Definition example_closed : Edge.t := after example_added example_close.

Lemma served_after s s1 c : served s s1 → admissible c s1 → served s (after s1 c).
Proof.
  intros Hs Hadm. unfold after. destruct (serve "t" c [] s1) as [s2 res] eqn:E.
  by eapply served_request.
Qed.

Lemma served_opened : served Edge.initial example_opened.
Proof. apply served_after; [apply served_after; [constructor|done]|done]. Qed.

Lemma served_closed : served example_opened example_closed.
Proof. apply served_after; [apply served_after; [constructor|done]|]. by left. Qed.

Lemma request_refines_floor_witness : dstep (view example_added) (view example_closed).
Proof.
  exact (request_refines_floor "t" example_close [] example_added example_closed (Ok tt)
           ltac:(vm_compute; reflexivity) ltac:(vm_compute; reflexivity) (or_introl eq_refl)).
Defined.

(** the route passes any status on: closed as ABIERTA, the account stays open and its table is
    offered as available *)
Example closing_as_open_is_no_step : let s' := after example_added (CloseCuenta "t3" "c1" 2 ABIERTA) in
  (serve "t" (CloseCuenta "t3" "c1" 2 ABIERTA) [] example_added).2 = Ok tt ∧
  Mesa.status <$> SqliteDining.selectMesa (Edge.db s') "m1" = Some DISPONIBLE ∧ ¬ dstep (view example_added) (view s').
Proof.
  split; [by vm_compute|]. split; [by vm_compute|]. intros Hstep. apply seated_step in Hstep as [Hseat _].
  - destruct (Hseat "c1" (AAccount.mk ABIERTA (Some "m1") 3) "m1") as (y & Hy & _ & Hst); [by vm_compute|by left|done|].
    vm_compute in Hy. injection Hy as <-. by apply Hst.
  - apply (served_invariant seated Edge.initial); [exact seated_step|done| |exact initial_seated].
    apply served_after; [exact served_opened|exact I].
Qed.

Lemma open_account_holds_its_table_witness :
  ∃ m, SqliteDining.selectMesa (Edge.db example_opened) "m1" = Some m ∧
    Mesa.currentAccountId m = Some "c1" ∧ Mesa.status m ≠ DISPONIBLE.
Proof.
  destruct (open_account_holds_its_table example_opened "c1" _ "m1" served_opened
              ltac:(vm_compute; reflexivity) ltac:(vm_compute; reflexivity) ltac:(vm_compute; reflexivity))
    as (m & Hm & Hc & Hs & _).
  exists m. split; [exact Hm|]. split; [exact Hc|exact Hs].
Defined.

Definition paid_cuenta : option Cuenta.t := SqliteDining.selectCuenta (Edge.db example_closed) "c1".

Lemma closed_account_is_final_witness :
  ∃ c c', paid_cuenta = Some c ∧ Cuenta.status c = PAGADA ∧
    SqliteDining.selectCuenta (Edge.db (after example_closed example_close)) "c1" = Some c' ∧
    Cuenta.status c' = PAGADA.
Proof.
  eexists. 
  destruct (closed_account_is_final example_closed (after example_closed example_close) "c1" _
              ltac:(vm_compute; reflexivity) ltac:(apply served_after; [constructor|by left])
              ltac:(vm_compute; reflexivity) ltac:(left; vm_compute; reflexivity)) as (c' & Hc' & Hst & _).
  exists c'. split; [vm_compute; reflexivity|]. split; [reflexivity|]. split; [exact Hc'|]. rewrite Hst. reflexivity.
Defined.

Lemma command_consumes_version_witness :
  ∃ x', SqliteDining.selectCuenta (Edge.db (run example_add example_opened).1) "c1" = Some x' ∧
        Cuenta.version x' = 2.
Proof.
  pose proof (command_consumes_version example_add "c1" 1 example_opened (run example_add example_opened).1
    (Ok tt) _ eq_refl ltac:(vm_compute; reflexivity) ltac:(vm_compute; reflexivity)) as [_ Hx].
  exact Hx.
Defined.

(** two waiters add a line to the account they both saw at version 1 *)
Lemma no_lost_update_witness :
  ∃ e, (serve "t" example_add [] example_added).2 = Err e.
Proof.
  destruct (no_lost_update example_add example_add "c1" 1 "t" [] "t" [] example_opened example_added example_added
    (serve "t" example_add [] example_added).1 (serve "t" example_add [] example_added).2
    eq_refl eq_refl ltac:(vm_compute; reflexivity) ltac:(vm_compute; reflexivity) (served_none _ _)
    ltac:(vm_compute; reflexivity)) as [_ He].
  exact He.
Defined.
