(* ===== verification/Billing.v ===== *)
(** The money of an account: rounding of a line's amounts, the account totals as sums of
    its active lines, and the invariant that the stored totals of every account agree with
    its stored lines while the dining service runs over SQLite (dining-service.ts,
    dining-sqlite-repository.ts). *)
From S2P Require Import Prelude Money PosTypes EdgeDb DiningRepo Policies Dining DiningSpec.

(** ** Totals as sums *)

(** [f] summed over the lines that are not cancelled *)
Definition active_sum (f : CuentaItem.t → Z) (items : list CuentaItem.t) : Z := sumZ f (filter isActive items).

Lemma totals_fold items a b c d :
  foldl totalsStep (a, b, c, d) items =
  (a + active_sum CuentaItem.subtotal items, b + active_sum CuentaItem.taxAmountApplied items,
   c + active_sum CuentaItem.discountAmountApplied items, d + active_sum CuentaItem.total items).
Proof.
  unfold active_sum. revert a b c d. induction items as [|i items IH]; intros a b c d.
  - unfold sumZ. simpl. f_equal; [f_equal; [f_equal|]|]; lia.
  - cbn [foldl]. unfold totalsStep at 2. rewrite filter_cons.
    destruct (decide (CuentaItem.status i ≠ CANCELADO)) as [Ha|Ha]; rewrite IH.
    + rewrite (decide_True (P := isActive i)) by done. rewrite !sumZ_cons. f_equal; [f_equal; [f_equal|]|]; lia.
    + by rewrite (decide_False (P := isActive i)) by done.
Qed.

Lemma recalculate_spec items tips :
  recalculateCuentaTotals items tips =
  CuentaTotals.mk (active_sum CuentaItem.subtotal items) (active_sum CuentaItem.taxAmountApplied items)
    (active_sum CuentaItem.discountAmountApplied items) (active_sum CuentaItem.total items + tips).
Proof. unfold recalculateCuentaTotals. rewrite totals_fold. f_equal; lia. Qed.

#[global] Instance active_sum_proper f : Proper ((≡ₚ) ==> (=)) (active_sum f).
Proof. intros l1 l2 Hl. unfold active_sum. by rewrite Hl. Qed.

Lemma active_sum_app f l1 l2 : active_sum f (l1 ++ l2) = active_sum f l1 + active_sum f l2.
Proof. unfold active_sum. by rewrite filter_app, sumZ_app. Qed.

(** cancelling the line at position [n] removes it from every sum *)
Lemma active_sum_cancel f items n item i :
  items !! n = Some item → isActive item → ¬ isActive i →
  active_sum f (<[n := i]> items) = active_sum f items - f item.
Proof.
  intros Hn Ha Hi. unfold active_sum. revert n Hn. induction items as [|x items IH]; intros [|n] Hn; simplify_eq/=.
  - rewrite !filter_cons, decide_False, decide_True, sumZ_cons by done. lia.
  - rewrite !filter_cons. case_decide; rewrite ?sumZ_cons, IH by done; lia.
Qed.

(** the header amounts agree with the lines *)
Definition balanced (c : Cuenta.t) : Prop :=
  Cuenta.subtotal c = active_sum CuentaItem.subtotal (Cuenta.items c) ∧
  Cuenta.taxTotal c = active_sum CuentaItem.taxAmountApplied (Cuenta.items c) ∧
  Cuenta.discountsTotal c = active_sum CuentaItem.discountAmountApplied (Cuenta.items c) ∧
  Cuenta.totalAmount c = active_sum CuentaItem.total (Cuenta.items c) + Cuenta.tipsTotal c.

Lemma withItems_balanced c items now : balanced (withItems c items now).
Proof. unfold balanced, withItems. rewrite recalculate_spec. done. Qed.

(** ** Lines on disk *)

Module LineRows.
Import SqliteDining.

Definition upsertAll (items : list CuentaItem.t) (rows : list CuentaItemRow.t) : list CuentaItemRow.t :=
  foldl (λ rows i, upsertItemRow i rows) rows items.

(** an upserted item agrees with the row it replaces on the columns the upsert keeps *)
Definition agrees (i : CuentaItem.t) (rows : list CuentaItemRow.t) : Prop :=
  ∀ r, r ∈ rows → CuentaItemRow.id r = CuentaItem.id i → updateItemRow i r = itemToRow i.

Lemma upsertItemRow_ids i rows :
  CuentaItemRow.id <$> upsertItemRow i rows =
  if decide (CuentaItem.id i ∈ (CuentaItemRow.id <$> rows)) then CuentaItemRow.id <$> rows
  else (CuentaItemRow.id <$> rows) ++ [CuentaItem.id i].
Proof.
  unfold upsertItemRow. case_decide; [|by rewrite fmap_app].
  rewrite <- list_fmap_compose. apply list_fmap_ext. intros k r _. simpl. by case_decide.
Qed.

Lemma upsertItemRow_NoDup i rows :
  NoDup (CuentaItemRow.id <$> rows) → NoDup (CuentaItemRow.id <$> upsertItemRow i rows).
Proof. rewrite upsertItemRow_ids. case_decide; [done|]. intros. by apply NoDup_snoc. Qed.

Lemma elem_of_upsertItemRow i rows r :
  agrees i rows →
  r ∈ upsertItemRow i rows ↔ (r ∈ rows ∧ CuentaItemRow.id r ≠ CuentaItem.id i) ∨ r = itemToRow i.
Proof.
  intros Hag. unfold upsertItemRow. case_decide as Hin.
  - rewrite list_elem_of_fmap. split.
    + intros (x & -> & Hx). case_decide; [right; by apply Hag|by left].
    + intros [[Hr Hne]| ->]; [exists r; by rewrite decide_False|].
      apply list_elem_of_fmap in Hin as (x & Hid & Hx). exists x.
      rewrite decide_True by done. split; [|done]. symmetry. by apply Hag.
  - rewrite elem_of_app, list_elem_of_singleton. split; [|intros [[]|]; auto].
    intros [Hr|]; [|by right]. left. split; [done|]. intros Heq. apply Hin. rewrite <- Heq.
    by apply list_elem_of_fmap_2.
Qed.

Lemma upsertAll_spec items rows :
  NoDup (CuentaItemRow.id <$> rows) → NoDup (CuentaItem.id <$> items) → Forall (λ i, agrees i rows) items →
  NoDup (CuentaItemRow.id <$> upsertAll items rows) ∧
  ∀ r, r ∈ upsertAll items rows ↔
    (r ∈ rows ∧ CuentaItemRow.id r ∉ (CuentaItem.id <$> items)) ∨ r ∈ (itemToRow <$> items).
Proof.
  revert rows. induction items as [|i items IH]; intros rows Hrows Hitems Hag.
  - split; [done|]. intros r. simpl. set_solver.
  - change (upsertAll (i :: items) rows) with (upsertAll items (upsertItemRow i rows)).
    rewrite fmap_cons in *. apply NoDup_cons in Hitems as [Hi Hitems]. apply Forall_cons in Hag as [Hag Hags].
    destruct (IH (upsertItemRow i rows)) as [Hn Hm]; [by apply upsertItemRow_NoDup|done|..].
    { apply Forall_forall. intros j Hj x Hx Hid. apply elem_of_upsertItemRow in Hx; [|done].
      destruct Hx as [[Hx _]| ->].
      - by apply (proj1 (Forall_forall _ _) Hags j Hj).
      - destruct Hi. rewrite list_elem_of_fmap. exists j. split; [|done]. done. }
    split; [done|]. intros r. rewrite Hm, (elem_of_upsertItemRow i rows r Hag), !fmap_cons, !elem_of_cons.
    split; [|intros [[Hr Hne]|[->|Hr]]].
    + intros [[[[Hr Hne]| ->] Hnot]|Hr]; [|by right; left|by right; right].
      left. split; [done|]. intros [|]; done.
    + left. split; [|set_solver]. left. split; [done|]. set_solver.
    + left. split; [by right|done].
    + by right.
Qed.

Definition account_rows (id : string) (rows : list CuentaItemRow.t) : list CuentaItemRow.t :=
  filter (λ r, CuentaItemRow.cuenta_id r = id) rows.

(** [items] is a new version of the lines of account [id] stored in [rows] *)
Record revises (id : string) (rows : list CuentaItemRow.t) (items : list CuentaItem.t) : Prop := {
  revises_ids : NoDup (CuentaItem.id <$> items);
  revises_owner : Forall (λ i, CuentaItem.cuentaId i = id) items;
  revises_agrees : Forall (λ i, agrees i rows) items;
  revises_covers : ∀ r, r ∈ rows → CuentaItemRow.cuenta_id r = id → CuentaItemRow.id r ∈ (CuentaItem.id <$> items) }.

(** a revised account has exactly the revised lines, and other accounts keep theirs *)
Lemma upsertAll_account_rows id rows items :
  NoDup (CuentaItemRow.id <$> rows) → revises id rows items →
  account_rows id (upsertAll items rows) ≡ₚ itemToRow <$> items ∧
  ∀ id', id' ≠ id → account_rows id' (upsertAll items rows) ≡ₚ account_rows id' rows.
Proof.
  intros Hrows [Hids Hown Hag Hcov]. destruct (upsertAll_spec items rows Hrows Hids Hag) as [Hn Hm].
  rewrite Forall_forall in Hown, Hag.
  assert (Howner : ∀ r, r ∈ (itemToRow <$> items) → CuentaItemRow.cuenta_id r = id).
  { intros r (i & -> & Hi)%list_elem_of_fmap. by apply Hown. }
  assert (Hnd : ∀ id', NoDup (account_rows id' (upsertAll items rows))).
  { intros id'. apply NoDup_filter. by apply (NoDup_fmap_1 CuentaItemRow.id). }
  split.
  - apply NoDup_Permutation; [done| |].
    + apply (NoDup_fmap_1 CuentaItemRow.id). by rewrite <- list_fmap_compose.
    + intros r. unfold account_rows. rewrite list_elem_of_filter, Hm. split; [|by auto].
      intros [Hid [[Hr Hnot]|Hr]]; [|done]. destruct Hnot. by apply Hcov.
  - intros id' Hne. apply NoDup_Permutation; [done| |].
    + apply NoDup_filter. by apply (NoDup_fmap_1 CuentaItemRow.id).
    + intros r. unfold account_rows. rewrite !list_elem_of_filter, Hm. split.
      * intros [Hid [[Hr _]|Hr]]; [done|]. apply Howner in Hr. congruence.
      * intros [Hid Hr]. split; [done|]. left. split; [done|]. intros (i & Hri & Hi)%list_elem_of_fmap.
        assert (Hu : updateItemRow i r = itemToRow i) by (apply Hag; done).
        apply (f_equal CuentaItemRow.cuenta_id) in Hu. simpl in Hu. rewrite (Hown i Hi) in Hu. congruence.
Qed.

Lemma persist_rows items s s' :
  persistItemsAndModifiers items s = (s', Ok tt) →
  Db.cuenta_items (Edge.db s') = upsertAll items (Db.cuenta_items (Edge.db s)) ∧
  Db.cuentas (Edge.db s') = Db.cuentas (Edge.db s) ∧ Db.mesas (Edge.db s') = Db.mesas (Edge.db s).
Proof.
  unfold persistItemsAndModifiers. revert s. induction items as [|i items IH]; intros s Hp; simpl in Hp.
  - by injection Hp as <-.
  - minv Hp. apply IH in Hp as (-> & -> & ->).
    assert (Hmods : ∀ l u u' x, for_each persistModificador l u = (u', Ok x) →
      Db.cuenta_items (Edge.db u') = Db.cuenta_items (Edge.db u) ∧
      Db.cuentas (Edge.db u') = Db.cuentas (Edge.db u) ∧ Db.mesas (Edge.db u') = Db.mesas (Edge.db u)).
    { clear. induction l as [|m l IH]; intros u u' x Hm; simpl in Hm; [by injection Hm as <- _|].
      minv Hm. apply IH in Hm as (-> & -> & ->). unfold persistModificador in *.
      match goal with Hq : _ = (_, Ok _) |- _ => txinv Hq end. done. }
    match goal with Hm : for_each persistModificador _ _ = _ |- _ => apply Hmods in Hm as (-> & -> & ->) end.
    unfold persistItem in *. match goal with Hq : _ = (_, Ok _) |- _ => txinv Hq end. done.
Qed.
End LineRows.

(** ** The books: every stored account agrees with its stored lines *)

Section books.
Import SqliteDining LineRows.

Definition books (d : Db.t) : Prop :=
  NoDup (CuentaItemRow.id <$> Db.cuenta_items d) ∧
  (∀ r, r ∈ Db.cuenta_items d → is_Some (Db.cuentas d !! CuentaItemRow.cuenta_id r)) ∧
  ∀ id c, selectCuenta d id = Some c → balanced c.

(** what the totals read of a line *)
Definition money (i : CuentaItem.t) : bool * (Z * Z * Z * Z) :=
  (bool_decide (isActive i), (CuentaItem.subtotal i, CuentaItem.taxAmountApplied i,
                              CuentaItem.discountAmountApplied i, CuentaItem.total i)).

Lemma active_sum_money f (p : Z * Z * Z * Z → Z) items :
  (∀ i, f i = p (money i).2) → active_sum f items = sumZ (λ x, p x.2) (filter (λ x, x.1 = true) (money <$> items)).
Proof.
  intros Hf. unfold active_sum. induction items as [|i items IH]; [done|].
  rewrite fmap_cons, !filter_cons. unfold money at 1. simpl.
  destruct (decide (isActive i)); [rewrite (decide_True (P := bool_decide _ = true)) by by apply bool_decide_eq_true
    | rewrite (decide_False (P := bool_decide _ = true)) by by rewrite bool_decide_eq_true];
    rewrite ?sumZ_cons, IH; [|done]. by rewrite (Hf i).
Qed.

Lemma balanced_ext c c' :
  balanced c → money <$> Cuenta.items c ≡ₚ money <$> Cuenta.items c' →
  Cuenta.subtotal c' = Cuenta.subtotal c → Cuenta.taxTotal c' = Cuenta.taxTotal c →
  Cuenta.discountsTotal c' = Cuenta.discountsTotal c → Cuenta.tipsTotal c' = Cuenta.tipsTotal c →
  Cuenta.totalAmount c' = Cuenta.totalAmount c → balanced c'.
Proof.
  unfold balanced. intros (H1 & H2 & H3 & H4) Hperm -> -> -> -> ->. rewrite H1, H2, H3, H4.
  rewrite !(active_sum_money CuentaItem.subtotal (λ x, x.1.1.1)) by done.
  rewrite !(active_sum_money CuentaItem.taxAmountApplied (λ x, x.1.1.2)) by done.
  rewrite !(active_sum_money CuentaItem.discountAmountApplied (λ x, x.1.2)) by done.
  rewrite !(active_sum_money CuentaItem.total (λ x, x.2)) by done.
  by rewrite Hperm.
Qed.

Lemma money_reread mods i : money (rowToItem mods (itemToRow i)) = money i.
Proof. done. Qed.

Lemma money_mods mods mods' (rows : list CuentaItemRow.t) : money <$> (rowToItem mods <$> rows) = money <$> (rowToItem mods' <$> rows).
Proof. rewrite <- !list_fmap_compose. by apply list_fmap_ext. Qed.

Lemma selectItems_perm d id : selectItems d id ≡ₚ account_rows id (Db.cuenta_items d).
Proof. apply orderBy_permutation. Qed.

(** the lines read from disk are themselves a revision *)
Lemma reread_id mods (rows : list CuentaItemRow.t) : CuentaItem.id <$> (rowToItem mods <$> rows) = CuentaItemRow.id <$> rows.
Proof. rewrite <- list_fmap_compose. by apply list_fmap_ext. Qed.

Lemma reread_agrees mods r rows :
  NoDup (CuentaItemRow.id <$> rows) → r ∈ rows → agrees (rowToItem mods r) rows.
Proof.
  intros Hn Hr x Hx Hid. assert (x = r) as ->; [|by destruct r].
  apply list_elem_of_lookup in Hr as [i Hi], Hx as [j Hj].
  assert (i = j) as ->; [|congruence].
  apply (NoDup_lookup (CuentaItemRow.id <$> rows) i j (CuentaItemRow.id r)); [done|..];
    rewrite list_lookup_fmap; [by rewrite Hi|by rewrite Hj; simpl; f_equal].
Qed.

Lemma revises_reread d id mods :
  books d → revises id (Db.cuenta_items d) (rowToItem mods <$> selectItems d id).
Proof.
  intros (Hn & Hown & _).
  assert (Hsel : ∀ r, r ∈ selectItems d id ↔ CuentaItemRow.cuenta_id r = id ∧ r ∈ Db.cuenta_items d).
  { intros r. rewrite selectItems_perm. unfold account_rows. by rewrite list_elem_of_filter. }
  split.
  - rewrite reread_id, selectItems_perm. unfold account_rows. by apply NoDup_fmap_filter.
  - apply Forall_forall. intros i (r & -> & Hr)%list_elem_of_fmap. by apply Hsel in Hr as [<- _].
  - apply Forall_forall. intros i (r & -> & Hr)%list_elem_of_fmap. apply Hsel in Hr as [_ Hr].
    by apply reread_agrees.
  - intros r Hr Hid. rewrite reread_id. apply list_elem_of_fmap. exists r. split; [done|]. by apply Hsel.
Qed.

(** a revision of an account's lines whose header agrees with it keeps the books *)
Lemma saveCuenta_books c v s s' r :
  saveCuentaSync c v s = (s', Ok r) → books (Edge.db s) →
  revises (Cuenta.id c) (Db.cuenta_items (Edge.db s)) (Cuenta.items c) → balanced c → books (Edge.db s').
Proof.
  intros Hs (Hn & Hown & Hbal) Hrev Hc. apply SqliteDiningFacts.saveCuenta_ok in Hs as (row & -> & Hp & Hrow).
  apply persist_rows in Hp as (Hitems & Hcuentas & _). simpl in Hitems, Hcuentas.
  set (d := Edge.db s) in *. set (d' := Edge.db s') in *.
  destruct (upsertAll_spec _ _ Hn (revises_ids _ _ _ Hrev) (revises_agrees _ _ _ Hrev)) as [Hn' Hm].
  destruct (upsertAll_account_rows _ _ _ Hn Hrev) as [Hsame Hother].
  unfold books. rewrite Hitems. split_and!; [done| |].
  - intros x Hx. rewrite Hcuentas. apply Hm in Hx as [[Hx _]|(i & -> & Hi)%list_elem_of_fmap].
    + apply lookup_insert_is_Some'. right. by apply Hown.
    + simpl. rewrite (proj1 (Forall_forall _ _) (revises_owner _ _ _ Hrev) i Hi).
      rewrite lookup_insert_eq. by eexists.
  - intros id c'. unfold selectCuenta. rewrite Hcuentas.
    destruct (decide (id = Cuenta.id c)) as [->|Hne].
    + rewrite lookup_insert_eq. intros [= <-]. eapply balanced_ext; [exact Hc|..]; simpl;
        [|by destruct (Db.cuentas d !! Cuenta.id c); destruct_and?; subst row..].
      rewrite selectItems_perm, Hitems, Hsame. rewrite <- !list_fmap_compose. apply reflexive_eq.
      by apply list_fmap_ext.
    + rewrite lookup_insert_ne by done. destruct (Db.cuentas d !! id) as [row'|] eqn:Hl; [|done].
      intros [= <-]. eapply balanced_ext; [apply (Hbal id); unfold selectCuenta; by rewrite Hl|..]; [|done..].
      simpl. rewrite (money_mods _ (Db.cuenta_item_modificadores d')).
      by rewrite !selectItems_perm, Hitems, (Hother id Hne).
Qed.

Lemma saveMesa_books m v s s' r :
  saveMesaSync m v s = (s', Ok r) → books (Edge.db s) → books (Edge.db s').
Proof. intros (_ & -> & _)%SqliteDiningFacts.saveMesa_ok Hb. exact Hb. Qed.

(** a save that keeps the lines and the amounts it read *)
Lemma saveCuenta_keeps id c0 c v s s' r :
  saveCuentaSync c v s = (s', Ok r) → books (Edge.db s) → selectCuenta (Edge.db s) id = Some c0 →
  Cuenta.id c = Cuenta.id c0 → Cuenta.items c = Cuenta.items c0 →
  (balanced c0 → balanced c) → books (Edge.db s').
Proof.
  intros Hs Hb Hc0 Hid Hitems Hbal. pose proof Hb as (_ & _ & Hall). specialize (Hall _ _ Hc0).
  eapply saveCuenta_books; [exact Hs|exact Hb| |auto]. rewrite Hid, Hitems.
  unfold selectCuenta in Hc0. destruct (_ !! _); [|done]. injection Hc0 as <-. simpl. by apply revises_reread.
Qed.
End books.

(** ** The commands keep the books *)

(** inverts a successful run of the service over SQLite *)
Ltac sqlite H :=
  cbn [getCuentaByIdSync saveCuentaSync getMesaByIdSync saveMesaSync SqliteAccountRepository
       SqliteDiningRoomRepository] in H; minv H;
  repeat match goal with
  | H' : SqliteDining.getCuentaByIdSync _ _ = (_, Ok _) |- _ =>
      rewrite SqliteDiningFacts.run_getCuenta in H'; injection H' as ? H'; subst
  | H' : SqliteDining.getMesaByIdSync _ _ = (_, Ok _) |- _ =>
      rewrite SqliteDiningFacts.run_getMesa in H'; injection H' as ? H'; subst
  end.

Section commands.
Context `{!IamPinValidatorPort}.
Implicit Types s : Edge.t.

Lemma selectCuenta_id d id c : SqliteDining.selectCuenta d id = Some c → Cuenta.id c = id.
Proof. unfold SqliteDining.selectCuenta. destruct (_ !! _); [|done]. by intros [= <-]. Qed.

Lemma selectCuenta_lines d id c :
  SqliteDining.selectCuenta d id = Some c →
  Cuenta.items c = SqliteDining.rowToItem (Db.cuenta_item_modificadores d) <$> SqliteDining.selectItems d id.
Proof. unfold SqliteDining.selectCuenta. destruct (_ !! _); [|done]. by intros [= <-]. Qed.

(** adding a line whose identifier is new *)
Lemma revises_add d id c i :
  books d → SqliteDining.selectCuenta d id = Some c → CuentaItem.cuentaId i = id →
  CuentaItem.id i ∉ (CuentaItemRow.id <$> Db.cuenta_items d) →
  LineRows.revises id (Db.cuenta_items d) (Cuenta.items c ++ [i]).
Proof.
  intros Hb Hc Hi Hfresh. rewrite (selectCuenta_lines _ _ _ Hc).
  destruct (revises_reread d id (Db.cuenta_item_modificadores d) Hb) as [Hids Hown Hag Hcov]. split.
  - rewrite fmap_app. apply NoDup_snoc; [done|]. rewrite reread_id, selectItems_perm.
    intros (r & Hr & [_ Hin]%list_elem_of_filter)%list_elem_of_fmap. apply Hfresh. rewrite Hr.
    by apply list_elem_of_fmap_2.
  - apply Forall_app. split; [done|]. by apply Forall_singleton.
  - apply Forall_app. split; [done|]. apply Forall_singleton. intros r Hr Hid. destruct Hfresh.
    rewrite <- Hid. by apply list_elem_of_fmap_2.
  - intros r Hr Hid. rewrite fmap_app, elem_of_app. left. by apply Hcov.
Qed.

(** replacing a line by one with the same identity *)
Lemma revises_replace d id c n i0 i :
  books d → SqliteDining.selectCuenta d id = Some c → Cuenta.items c !! n = Some i0 →
  CuentaItem.id i = CuentaItem.id i0 → CuentaItem.cuentaId i = CuentaItem.cuentaId i0 →
  CuentaItem.productId i = CuentaItem.productId i0 →
  CuentaItem.productNameSnapshot i = CuentaItem.productNameSnapshot i0 →
  CuentaItem.createdAt i = CuentaItem.createdAt i0 →
  LineRows.revises id (Db.cuenta_items d) (<[n := i]> (Cuenta.items c)).
Proof.
  intros Hb Hc Hn E1 E2 E3 E4 E5.
  pose proof (revises_reread d id (Db.cuenta_item_modificadores d) Hb) as Hrev.
  rewrite <- (selectCuenta_lines _ _ _ Hc) in Hrev. destruct Hrev as [Hids Hown Hag Hcov].
  assert (Hsame : CuentaItem.id <$> <[n := i]> (Cuenta.items c) = CuentaItem.id <$> Cuenta.items c).
  { rewrite list_fmap_insert. apply list_insert_id. by rewrite list_lookup_fmap, Hn, E1. }
  rewrite Forall_lookup in Hown, Hag. split.
  - by rewrite Hsame.
  - apply Forall_lookup. intros k x Hk. apply list_lookup_insert_Some in Hk as [(<- & <- & _)|[_ Hk]]; [|eauto].
    rewrite E2. eauto.
  - apply Forall_lookup. intros k x Hk. apply list_lookup_insert_Some in Hk as [(<- & <- & _)|[_ Hk]]; [|eauto].
    intros r Hr Hid. assert (Hu : SqliteDining.updateItemRow i0 r = SqliteDining.itemToRow i0) by (eapply Hag; [done..|congruence]).
    unfold SqliteDining.updateItemRow, SqliteDining.itemToRow in *. injection Hu. intros. f_equal; congruence.
  - intros r Hr Hid. rewrite Hsame. by apply Hcov.
Qed.

(** the caller gives a new line an identifier no stored line has *)
Definition fresh_line (c : Command) s : Prop :=
  match c with
  | AddItem _ _ _ i => AddItemInput.id i ∉ (CuentaItemRow.id <$> Db.cuenta_items (Edge.db s))
  | _ => True
  end.

Lemma addItem_books now id v i s s' r :
  fresh_line (AddItem now id v i) s → addItemToCuentaSync now id v i s = (s', Ok r) →
  books (Edge.db s) → books (Edge.db s').
Proof.
  unfold addItemToCuentaSync, check_version. intros Hfresh Hrun Hb. sqlite Hrun.
  pose proof (selectCuenta_id _ _ _ Hstep). subst id.
  eapply saveCuenta_books; [exact Hrun|exact Hb| |apply withItems_balanced].
  by apply revises_add.
Qed.

Lemma list_find_lookup {A} (P : A → Prop) `{!∀ x, Decision (P x)} l n x :
  list_find P l = Some (n, x) → l !! n = Some x ∧ P x.
Proof. by intros (? & ? & _)%list_find_Some. Qed.

Lemma cancelItem_books now i s s' r :
  cancelItemSync now i s = (s', Ok r) → books (Edge.db s) → books (Edge.db s').
Proof.
  unfold cancelItemSync, check_version, check_pin. intros Hrun Hb. sqlite Hrun.
  apply supervisorAuthorization_reads in Hstep0 as ->. pose proof (selectCuenta_id _ _ _ Hstep) as Hid.
  apply list_find_lookup in Hfound0 as [Hn _].
  eapply saveCuenta_books; [exact Hstep1|exact Hb| |apply withItems_balanced].
  simpl. rewrite Hid. by eapply revises_replace.
Qed.

Lemma releaseTable_books c a now s s' r :
  releaseTable c a now s = (s', Ok r) → books (Edge.db s) → books (Edge.db s').
Proof.
  unfold releaseTable. intros Hrun Hb. destruct (truthy _); [|by minv Hrun].
  sqlite Hrun; [by eapply saveMesa_books|done..].
Qed.

Lemma markTableInCheck_books c now s s' r :
  markTableInCheck c now s = (s', Ok r) → books (Edge.db s) → books (Edge.db s').
Proof.
  unfold markTableInCheck. intros Hrun Hb. destruct (truthy _); [|by minv Hrun].
  sqlite Hrun; [by eapply saveMesa_books|done].
Qed.

Lemma managerAuthorization_sqlite c i s s' r : managerAuthorization c i s = (s', Ok r) → s' = s.
Proof. apply (managerAuthorization_reads (S := Edge.t)). Qed.

Lemma saveMesa_accounts m v s s' r id :
  SqliteDining.saveMesaSync m v s = (s', Ok r) →
  SqliteDining.selectCuenta (Edge.db s') id = SqliteDining.selectCuenta (Edge.db s) id.
Proof. by intros (_ & -> & _)%SqliteDiningFacts.saveMesa_ok. Qed.

(** a new account has no lines on disk *)
Lemma newCuenta_books now i v s s' r :
  SqliteDining.saveCuentaSync (newCuenta now i) v s = (s', Ok r) → books (Edge.db s) →
  SqliteDining.selectCuenta (Edge.db s) (OpenCuentaInput.id i) = None → books (Edge.db s').
Proof.
  intros Hs Hb Hnew. eapply saveCuenta_books; [exact Hs|exact Hb| |done].
  split; [constructor..|]. intros x Hx Hid. destruct Hb as (_ & Hown & _). simpl in Hid.
  destruct (Hown x Hx) as [row Hrow]. rewrite Hid in Hrow. unfold SqliteDining.selectCuenta in Hnew.
  by rewrite Hrow in Hnew.
Qed.

Ltac keep_books :=
  repeat match goal with
  | H' : managerAuthorization _ _ _ = (_, Ok _) |- _ => apply managerAuthorization_sqlite in H'; subst
  | H' : check_optional_pin _ _ _ = (_, Ok _) |- _ => apply check_optional_pin_reads in H'; subst
  end;
  repeat first
    [ eassumption
    | match goal with
      | H' : releaseTable _ _ _ _ = (?s, Ok _) |- books (Edge.db ?s) => apply (releaseTable_books _ _ _ _ _ _ H')
      | H' : markTableInCheck _ _ _ = (?s, Ok _) |- books (Edge.db ?s) => apply (markTableInCheck_books _ _ _ _ _ H')
      | H' : SqliteDining.saveMesaSync _ _ _ = (?s, Ok _) |- books (Edge.db ?s) => apply (saveMesa_books _ _ _ _ _ H')
      | H' : SqliteDining.saveCuentaSync _ _ _ = (?s, Ok _), Hc : SqliteDining.selectCuenta _ _ = Some _
          |- books (Edge.db ?s) =>
          eapply (saveCuenta_keeps _ _ _ _ _ _ _ H');
            [ | repeat (erewrite saveMesa_accounts; [|eassumption]); exact Hc | done | done | done ]
      end ].

Lemma run_books c s s' :
  fresh_line c s → run c s = (s', Ok tt) → books (Edge.db s) → books (Edge.db s').
Proof.
  intros Hfresh Hrun Hb. destruct c; unfold run, discard in Hrun; apply bind_ok in Hrun as (r & s1 & Hrun & Hret);
    rewrite run_ret in Hret; injection Hret as ->;
    [ | | by eapply addItem_books | by eapply cancelItem_books | ..];
    unfold createMesaSync, openCuentaSync, closeCuentaSync, cancelCuentaSync, transferCuentaSync,
      reassignWaiterSync, changeGuestCountSync, requestCheckSync, liberarMesaSync, occupyTable,
      check_version, check_pin in Hrun.
  2: { destruct (truthy (OpenCuentaInput.mesaId _)); sqlite Hrun; simpl_guards; apply eq_None_not_Some in Hguard;
       (eapply newCuenta_books; [eassumption|keep_books|]); try (erewrite saveMesa_accounts; [|eassumption]); done. }
  all: sqlite Hrun; try done; keep_books.
  destruct (truthy (Mesa.currentAccountId found)); [destruct (LiberarMesaInput.force input)|]; sqlite Hstep0;
    try done; unfold throw_when in *; repeat case_match; try done; by minv Hstep0.
Qed.

Lemma serve_books createdAt c events s s' res :
  Edge.inTransaction s = false → fresh_line c s → serve createdAt c events s = (s', res) →
  books (Edge.db s) → books (Edge.db s').
Proof.
  intros Htx Hfresh Hs Hb. destruct res as [r|e].
  - apply serve_ok in Hs as (s1 & Hrun & _ & ->); [|done].
    change (books (Edge.db s1)). eapply run_books; [|exact Hrun|exact Hb]. by destruct c.
  - by apply serve_err in Hs as [-> _].
Qed.

(** *** Properties *)

(** C4: the books balance.  In every state reached from an empty database by the commands of
    the dining service ([Command]: everything but bill splits and tenders, which the code lets
    break this), admissible or not, accepted or refused, as long as each added line has an
    identifier no stored line has ([fresh_line]), the stored header of every account agrees
    with its stored lines: subtotal, tax and discounts are the sums over the lines that are not
    cancelled, and the total is the sum of their totals plus the tips. *)
Theorem accounts_balance s id c :
  requests fresh_line Edge.initial s → SqliteDining.selectCuenta (Edge.db s) id = Some c →
  let active := filter isActive (Cuenta.items c) in
  Cuenta.subtotal c = sumZ CuentaItem.subtotal active ∧
  Cuenta.taxTotal c = sumZ CuentaItem.taxAmountApplied active ∧
  Cuenta.discountsTotal c = sumZ CuentaItem.discountAmountApplied active ∧
  Cuenta.totalAmount c = sumZ CuentaItem.total active + Cuenta.tipsTotal c.
Proof.
  intros Hs Hc. assert (books (Edge.db s)) as (_ & _ & Hb); [|exact (Hb id c Hc)].
  clear Hc. induction Hs as [|s1 s2 t cmd ev res Hs IH Hfresh Hserve].
  - split; [constructor|]. split; [by intros r Hr%not_elem_of_nil|]. intros id' c' Hc'. discriminate Hc'.
  - eapply serve_books; [|exact Hfresh|exact Hserve|exact IH]. by eapply (served_tx _ Edge.initial).
Qed.

(** Cancelling a line.  A successful cancellation names a line of the account that was
    not cancelled and gives a reason.  The kitchen state decides: an unstarted line needs
    no supervisor and makes no waste; any other line was authorised by a supervisor's PIN
    and is recorded as waste.  The line keeps its amounts and becomes CANCELADO, and the
    account, if its header agreed with its lines, now totals exactly the line's total
    less. *)
Theorem cancelItem_effect now i s s' c' item' waste :
  cancelItemSync now i s = (s', Ok (c', item', waste)) →
  ∃ c n item,
    SqliteDining.selectCuenta (Edge.db s) (CancelItemInput.cuentaId i) = Some c ∧
    Cuenta.items c !! n = Some item ∧ CuentaItem.id item = CancelItemInput.itemId i ∧ isActive item ∧
    blank (CancelItemInput.reason i) = false ∧
    item' = cancelledItem item i waste now ∧ c' = withItems c (<[n := item']> (Cuenta.items c)) now ∧
    (let status := toUpperCase (default (itemStatusName (CuentaItem.status item)) (CancelItemInput.kitchenStatus i)) in
     if isUnstarted status then waste = false
     else waste = true ∧ ∃ pin, truthy (CancelItemInput.supervisorPin i) = Some pin ∧
       (js_truthy (validatePin "supervisor" pin None) ||
        js_truthy (validatePin (CancelItemInput.operatorUserId i) pin None)) = true) ∧
    (balanced c → Cuenta.totalAmount c' = Cuenta.totalAmount c - CuentaItem.total item ∧
                  Cuenta.subtotal c' = Cuenta.subtotal c - CuentaItem.subtotal item).
Proof.
  unfold cancelItemSync, check_version, check_pin. intros Hrun. sqlite Hrun.
  apply list_find_lookup in Hfound0 as [Hn Hitem]. simpl_guards.
  exists found, n, t. split_and!; try done.
  - apply SqliteDiningFacts.saveCuenta_ok in Hstep1 as (row & -> & _). done.
  - change (canCancelItem ?x ?y) with (kdsCanCancelItem x y) in *.
    match goal with |- context [kdsCanCancelItem ?x ?y] =>
      destruct (kdsCanCancelItem_spec x y) as [Hallowed Hwaste] end.
    apply proj1 in Hallowed. specialize (Hallowed ltac:(assumption)). rewrite Hwaste.
    match goal with Ha : CancellationResult.allowed _ = true |- _ => rewrite Ha end. simpl in Hallowed |- *.
    destruct (isUnstarted _); [done|]. split; [done|]. destruct Hallowed as [_ [|Hr]]; [done|].
    unfold supervisorAuthorization in Hstep0. rewrite Hr in Hstep0.
    destruct (truthy _) as [pin|]; minv Hstep0; [|done]. simpl_guards. by exists pin.
  - intros (Hsub & _ & _ & Htot). apply SqliteDiningFacts.saveCuenta_ok in Hstep1 as (row & -> & _).
    unfold withItems. rewrite recalculate_spec. simpl. rewrite Htot, Hsub.
    rewrite !(active_sum_cancel _ _ _ t) by (done || by intros []). lia.
Qed.
End commands.

(** Line amounts.  The subtotal of a line is the unit price times the quantity and its
    tax is the rate times the amount net of discount, each rounded to the nearest
    ten-thousandth with an error of at most half of one; the total is exactly subtotal
    minus discount plus tax.  With non-negative inputs and a discount not above the
    subtotal, no amount is negative, and a rate of at most one at most doubles the net
    amount. *)
Theorem line_amounts price quantity rate discount :
  let f := calculateItemFinancials price quantity rate discount in
  let net := ItemFinancials.subtotal f - discount in
  2 * Z.abs (price * quantity - ItemFinancials.subtotal f * 10000) <= 10000 ∧
  2 * Z.abs (net * rate - ItemFinancials.taxAmount f * 10000) <= 10000 ∧
  ItemFinancials.total f = net + ItemFinancials.taxAmount f ∧
  (0 <= price → 0 <= quantity → 0 <= rate → discount <= ItemFinancials.subtotal f →
   0 <= ItemFinancials.subtotal f ∧ 0 <= ItemFinancials.taxAmount f ∧ 0 <= ItemFinancials.total f ∧
   (rate <= 10000 → ItemFinancials.total f <= 2 * net)).
Proof.
  cbv zeta. unfold calculateItemFinancials, calculateLineSubtotal, calculateNetSubtotal, calculateTaxAmount,
    calculateLineTotal, SCALE_FACTOR. simpl.
  pose proof (roundDivNonZero_spec (price * quantity) 10000 ltac:(done)) as [H1 _].
  set (sub := roundDivNonZero (price * quantity) 10000) in *.
  pose proof (roundDivNonZero_spec ((sub - discount) * rate) 10000 ltac:(done)) as [H2 _].
  set (tax := roundDivNonZero ((sub - discount) * rate) 10000) in *.
  split_and!; [lia..|]. intros Hp Hq Hr Hd.
  assert (0 <= price * quantity) by nia. assert (0 <= (sub - discount) * rate) by nia.
  split_and!; [lia..|]. intros Hr'. assert ((sub - discount) * rate <= (sub - discount) * 10000) by nia. lia.
Qed.

(** *** Witnesses *)

#[local] Existing Instance example_pins.

Definition example_drink : Command :=
  AddItem "t3" "c1" 2 (AddItemInput.mk "i2" "p2" "Agua" 333333 10000 1600 (Some 3333) None).
Definition example_two_lines : Edge.t := after example_added example_drink.

Lemma requests_after ok s s1 c : requests ok s s1 → ok c s1 → requests ok s (after s1 c).
Proof.
  intros Hs Hok. unfold after. destruct (serve "t" c [] s1) as [s2 res] eqn:E. by eapply served_request.
Qed.

Lemma reached_two_lines : requests fresh_line Edge.initial example_two_lines.
Proof.
  apply requests_after; [|apply (bool_decide_unpack _); vm_compute; exact I].
  apply requests_after; [|apply (bool_decide_unpack _); vm_compute; exact I].
  apply requests_after; [apply requests_after; [constructor|done]|done].
Qed.

Lemma accounts_balance_witness :
  ∃ c, SqliteDining.selectCuenta (Edge.db example_two_lines) "c1" = Some c ∧
    Cuenta.totalAmount c = sumZ CuentaItem.total (filter isActive (Cuenta.items c)) + Cuenta.tipsTotal c ∧
    Cuenta.totalAmount c = 962800.
Proof.
  eexists.
  pose proof (accounts_balance example_two_lines "c1" _ reached_two_lines ltac:(vm_compute; reflexivity))
    as (_ & _ & _ & Htotal).
  split; [vm_compute; reflexivity|]. split; [exact Htotal|reflexivity].
Defined.

Definition example_cancel (pin : option string) (kitchen : string) : CancelItemInput.t :=
  CancelItemInput.mk "c1" "i1" 3 "u1" "1234" pin (Some kitchen) "frio".

Lemma cancelItem_effect_witness :
  ∃ c c' item item', (cancelItemSync "t4" (example_cancel (Some "1234") "en_preparacion") example_two_lines).2
      = Ok (c', item', true) ∧
    CuentaItem.id item = "i1" ∧ Cuenta.totalAmount c' = Cuenta.totalAmount c - CuentaItem.total item.
Proof.
  destruct (cancelItemSync "t4" (example_cancel (Some "1234") "en_preparacion") example_two_lines) as [s' res] eqn:E.
  assert (Hr : ∃ x, res = Ok (x, true)) by (vm_compute in E; injection E as _ <-; by eexists).
  destruct Hr as [[c' item'] ->].
  destruct (cancelItem_effect _ _ _ _ _ _ _ E) as (c & n & item & Hc & Hn & Hid & _ & _ & _ & _ & _ & Hmoney).
  assert (Hb : balanced c).
  { vm_compute in Hc. injection Hc as <-. repeat split; vm_compute; reflexivity. }
  exists c, c', item, item'. split; [reflexivity|]. split; [exact Hid|]. exact (proj1 (Hmoney Hb)).
Defined.

Lemma line_amounts_witness :
  let f := calculateItemFinancials 333333 10000 1600 3333 in
  ItemFinancials.total f = 382800 ∧ ItemFinancials.total f = ItemFinancials.subtotal f - 3333 + ItemFinancials.taxAmount f.
Proof.
  destruct (line_amounts 333333 10000 1600 3333) as (_ & _ & Htotal & _). split; [reflexivity|exact Htotal].
Defined.
