(* ===== verification/CashShift.v ===== *)
(** Cash shifts of packages/pos: the assignment strategy (cash-shift-strategy.ts), the
    persistence port (cash-shift-ports.ts) and the operations of [CashShiftDomainService]
    (cash-shift-service.ts).

    The clock and the random identifiers are arguments.  Unlike the dining service, this
    one awaits the PIN validator ([awaited]).  The drawer kick that follows a committed
    Corte Z is hardware whose failure is swallowed, and is not modelled. *)
From S2P Require Import Prelude Money PosTypes.

(** ** Assignment strategy (DEC-017) *)

(* cash-shift-strategy.ts:8-13 ShiftAssignmentStrategy *)
Class ShiftAssignmentStrategy := {
  strategyName : string;
  canOperate : TurnoCaja.t → string → bool;
  canAddOperator : TurnoCaja.t → string → string → bool;
  canClose : TurnoCaja.t → string → bool }.

(** [participatingOperators.includes(user)] *)
Definition participates (shift : TurnoCaja.t) (user : string) : bool :=
  bool_decide (user ∈ TurnoCaja.participatingOperators shift).

(* cash-shift-strategy.ts:25-33 SharedShiftAssignmentStrategy.canOperate *)
Definition sharedCanOperate (shift : TurnoCaja.t) (operatorUserId : string) : bool :=
  if blank operatorUserId then false
  else if bool_decide (operatorUserId = TurnoCaja.responsibleUserId shift) ||
          bool_decide (operatorUserId = TurnoCaja.openedByUserId shift) then true
  else participates shift operatorUserId.

(* cash-shift-strategy.ts:35-51 SharedShiftAssignmentStrategy.canAddOperator *)
Definition sharedCanAddOperator (shift : TurnoCaja.t) (operatorUserId requestingUserId : string) : bool :=
  if blank operatorUserId then false
  else if bool_decide (TurnoCaja.status shift ≠ ABIERTO) then false
  else bool_decide (requestingUserId = TurnoCaja.responsibleUserId shift) ||
       participates shift requestingUserId.

(* cash-shift-strategy.ts:53-63 SharedShiftAssignmentStrategy.canClose *)
Definition sharedCanClose (shift : TurnoCaja.t) (requestingUserId : string) : bool :=
  if blank requestingUserId then false
  else bool_decide (requestingUserId = TurnoCaja.responsibleUserId shift) ||
       bool_decide (requestingUserId = TurnoCaja.openedByUserId shift) ||
       participates shift requestingUserId.

(* cash-shift-strategy.ts:22-24 SharedShiftAssignmentStrategy *)
#[export] Instance SharedShiftAssignmentStrategy : ShiftAssignmentStrategy := {|
  strategyName := "COMPARTIDO"; canOperate := sharedCanOperate;
  canAddOperator := sharedCanAddOperator; canClose := sharedCanClose |}.

(** ** Persistence port *)

(** [saveCorteZ] also draws the identifiers of the audit and outbox rows *)
(* cash-shift-ports.ts:8-28 CashShiftRepositoryPort *)
Class CashShiftRepositoryPort (S : Type) := {
  getActiveShift : string → M S PosError (option TurnoCaja.t);
  getShiftById : string → M S PosError (option TurnoCaja.t);
  saveShift : TurnoCaja.t → Z → M S PosError TurnoCaja.t;
  addMovement : MovimientoCaja.t → TurnoCaja.t → Z → M S PosError MovimientoCaja.t;
  listMovements : string → M S PosError (list MovimientoCaja.t);
  saveArqueoCiego : ArqueoCiego.t → TurnoCaja.t → Z → M S PosError ArqueoCiego.t;
  saveCorteZ : CorteCaja.t → TurnoCaja.t → Z → M S PosError CorteCaja.t }.

(** ** Commands *)

Module AbrirTurno.
(* cash-shift-service.ts:43-53 AbrirTurnoCommand *)
Record t := mk {
  organizationId : string; branchId : string; stationId : string; responsibleUserId : string;
  openedByUserId : option string; openingCashFloat : Z; shiftNumber : option Z;
  assignmentStrategy : option string; operatorPin : option string }.
End AbrirTurno.

Module AgregarOperador.
(* cash-shift-service.ts:55-62 AgregarOperadorCommand *)
Record t := mk {
  shiftId : string; operatorUserId : string; requestingUserId : string; expectedVersion : Z;
  requestingPin : option string }.
End AgregarOperador.

Module RegistrarMovimiento.
(* cash-shift-service.ts:64-73 RegistrarMovimientoCommand *)
Record t := mk {
  shiftId : string; operatorUserId : string; movementType : MovimientoCajaType; amount : Z;
  reason : string; referenceId : option string; expectedVersion : Z; operatorPin : option string }.
End RegistrarMovimiento.

Module GenerarCorteX.
(* cash-shift-service.ts:75-79 GenerarCorteXCommand *)
Record t := mk { shiftId : string; requestedByUserId : string; requestedByPin : option string }.
End GenerarCorteX.

Module RealizarArqueoCiego.
(* cash-shift-service.ts:81-87 RealizarArqueoCiegoCommand *)
Record t := mk {
  shiftId : string; performedByUserId : string; declaredCash : Z; expectedVersion : Z;
  performedByPin : option string }.
End RealizarArqueoCiego.

Module GenerarCorteZ.
(* cash-shift-service.ts:89-94 GenerarCorteZCommand *)
Record t := mk {
  shiftId : string; closedByUserId : string; expectedVersion : Z; closedByPin : option string }.
End GenerarCorteZ.

(** ** Breakdown *)

Module Breakdown.
(* cash-shift-service.ts:133-139 computeBreakdown, result *)
Record t := mk {
  totalIngresos : Z; totalEgresos : Z; totalVentasEfectivo : Z; totalCalculado : Z;
  desgloseOperadores : list OperatorBreakdown.t }.
#[global] Instance eta_t : Eta t := λ b,
  mk (totalIngresos b) (totalEgresos b) (totalVentasEfectivo b) (totalCalculado b) (desgloseOperadores b).
End Breakdown.

(* cash-shift-service.ts:158-164 computeBreakdown, new stats *)
Definition newStats (operatorUserId : string) : OperatorBreakdown.t :=
  OperatorBreakdown.mk operatorUserId 0 0 0 0 0.

(** the entry of an operator in the insertion-ordered [opMap], created when absent *)
(* cash-shift-service.ts:156-166 computeBreakdown, opMap *)
Fixpoint updateStats (operatorUserId : string) (f : OperatorBreakdown.t → OperatorBreakdown.t)
    (opMap : list OperatorBreakdown.t) : list OperatorBreakdown.t :=
  match opMap with
  | [] => [f (newStats operatorUserId)]
  | stats :: opMap' =>
      if decide (OperatorBreakdown.operatorUserId stats = operatorUserId) then f stats :: opMap'
      else stats :: updateStats operatorUserId f opMap'
  end.

(* cash-shift-service.ts:168-190 computeBreakdown, stats *)
Definition countMovement (mov : MovimientoCaja.t) (stats : OperatorBreakdown.t) : OperatorBreakdown.t :=
  let stats := stats <| OperatorBreakdown.movementsCount ::= (λ n, n + 1) |> in
  let amount := MovimientoCaja.amount mov in
  match MovimientoCaja.movementType mov with
  | INGRESO => stats <| OperatorBreakdown.totalIngresos ::= (λ x, x + amount) |>
                     <| OperatorBreakdown.netCash ::= (λ x, x + amount) |>
  | VENTA_EFECTIVO => stats <| OperatorBreakdown.totalVentasEfectivo ::= (λ x, x + amount) |>
                            <| OperatorBreakdown.netCash ::= (λ x, x + amount) |>
  | EGRESO | DEVOLUCION_EFECTIVO => stats <| OperatorBreakdown.totalEgresos ::= (λ x, x + amount) |>
                                          <| OperatorBreakdown.netCash ::= (λ x, x - amount) |>
  | FONDO_INICIAL => stats
  end.

(** the running totals, before [totalCalculado] is known *)
(* cash-shift-service.ts:155-191 computeBreakdown, loop body *)
Definition breakdownStep (b : Breakdown.t) (mov : MovimientoCaja.t) : Breakdown.t :=
  let amount := MovimientoCaja.amount mov in
  let b := b <| Breakdown.desgloseOperadores ::= updateStats (MovimientoCaja.operatorUserId mov) (countMovement mov) |> in
  match MovimientoCaja.movementType mov with
  | INGRESO => b <| Breakdown.totalIngresos ::= (λ x, x + amount) |>
  | VENTA_EFECTIVO => b <| Breakdown.totalVentasEfectivo ::= (λ x, x + amount) |>
  | EGRESO | DEVOLUCION_EFECTIVO => b <| Breakdown.totalEgresos ::= (λ x, x + amount) |>
  | FONDO_INICIAL => b
  end.

(* cash-shift-service.ts:130-213 computeBreakdown *)
Definition computeBreakdown (openingCashFloat : Z) (movements : list MovimientoCaja.t) : Breakdown.t :=
  let b := foldl breakdownStep (Breakdown.mk 0 0 0 0 []) movements in
  b <| Breakdown.totalCalculado :=
    openingCashFloat + Breakdown.totalIngresos b + Breakdown.totalVentasEfectivo b - Breakdown.totalEgresos b |>.

(** ** The service *)

Section CashShiftDomainService.
Context {S : Type} `{!CashShiftRepositoryPort S} `{!IamPinValidatorPort} `{!ShiftAssignmentStrategy}.

(* cash-shift-service.ts:116-124 CashShiftDomainService.validatePin *)
Definition requirePin (userId : string) (pin : option string) (stationId : option string) : M S PosError unit :=
  match truthy pin with
  | None => mthrow InvalidOperatorPinError
  | Some p =>
      throw_when (blank p) InvalidOperatorPinError ;;
      throw_when (negb (awaited (validatePin userId p stationId))) InvalidOperatorPinError
  end.

Definition check_shift_version (shift : TurnoCaja.t) (expectedVersion : Z) : M S PosError unit :=
  throw_when (negb (TurnoCaja.version shift =? expectedVersion))
    (OCCConflictError (TurnoCaja.id shift) expectedVersion (TurnoCaja.version shift) (SnapTurno (Some shift))).

(** the two guards shared by the operations on an open shift *)
Definition require_open (shift : TurnoCaja.t) : M S PosError unit :=
  throw_when (bool_decide (TurnoCaja.status shift = CORTE_Z_EMITIDO)) ShiftLockedError ;;
  throw_when (bool_decide (TurnoCaja.status shift ≠ ABIERTO)) ShiftInvalidStatusError.

(* cash-shift-service.ts:246-265 abrirTurno, newShift *)
Definition newShift (now shiftId : string) (command : AbrirTurno.t) : TurnoCaja.t :=
  let responsibleUserId := AbrirTurno.responsibleUserId command in
  TurnoCaja.mk shiftId (AbrirTurno.organizationId command) (AbrirTurno.branchId command)
    (AbrirTurno.stationId command) responsibleUserId
    (default responsibleUserId (AbrirTurno.openedByUserId command))
    (default 1 (AbrirTurno.shiftNumber command)) (AbrirTurno.openingCashFloat command) None None None
    ABIERTO (default strategyName (AbrirTurno.assignmentStrategy command)) [responsibleUserId] now None 1 now.

(* cash-shift-service.ts:271-280 abrirTurno, initialMovement *)
Definition initialMovement (now movementId shiftId : string) (command : AbrirTurno.t) : MovimientoCaja.t :=
  MovimientoCaja.mk movementId shiftId (AbrirTurno.responsibleUserId command) FONDO_INICIAL
    (AbrirTurno.openingCashFloat command) "Fondo inicial de apertura de turno" None now.

(* cash-shift-service.ts:218-285 abrirTurno *)
Definition abrirTurno (now shiftId movementId : string) (command : AbrirTurno.t) : M S PosError TurnoCaja.t :=
  throw_when (blank (AbrirTurno.organizationId command)) (DomainError "MISSING_TENANT_IDENTITY" 400) ;;
  throw_when (blank (AbrirTurno.branchId command)) (DomainError "MISSING_TENANT_IDENTITY" 400) ;;
  existing ← getActiveShift (AbrirTurno.stationId command);
  throw_when (bool_decide (is_Some existing)) ShiftAlreadyOpenError ;;
  throw_when (AbrirTurno.openingCashFloat command <? 0) (DomainError "INVALID_OPENING_FLOAT" 400) ;;
  requirePin (AbrirTurno.responsibleUserId command) (AbrirTurno.operatorPin command)
    (Some (AbrirTurno.stationId command)) ;;
  saved ← saveShift (newShift now shiftId command) 0;
  (if 0 <? AbrirTurno.openingCashFloat command
   then addMovement (initialMovement now movementId shiftId command) saved (TurnoCaja.version saved) ;; mret tt
   else mret tt) ;;
  mret saved.

(* cash-shift-service.ts:290-328 agregarOperador *)
Definition agregarOperador (now : string) (command : AgregarOperador.t) : M S PosError TurnoCaja.t :=
  found ← getShiftById (AgregarOperador.shiftId command);
  shift ← require found ShiftNotFoundError;
  check_shift_version shift (AgregarOperador.expectedVersion command) ;;
  require_open shift ;;
  requirePin (AgregarOperador.requestingUserId command) (AgregarOperador.requestingPin command)
    (Some (TurnoCaja.stationId shift)) ;;
  throw_when (negb (canAddOperator shift (AgregarOperador.operatorUserId command)
                      (AgregarOperador.requestingUserId command))) UnauthorizedShiftOperatorError ;;
  if participates shift (AgregarOperador.operatorUserId command) then mret shift
  else
    saveShift (shift <| TurnoCaja.participatingOperators ::= (λ l, l ++ [AgregarOperador.operatorUserId command]) |>
                     <| TurnoCaja.version := TurnoCaja.version shift + 1 |>
                     <| TurnoCaja.updatedAt := now |>) (TurnoCaja.version shift).

(* cash-shift-service.ts:333-388 registrarMovimiento *)
Definition registrarMovimiento (now movementId : string) (command : RegistrarMovimiento.t)
    : M S PosError (TurnoCaja.t * MovimientoCaja.t) :=
  found ← getShiftById (RegistrarMovimiento.shiftId command);
  shift ← require found ShiftNotFoundError;
  check_shift_version shift (RegistrarMovimiento.expectedVersion command) ;;
  require_open shift ;;
  requirePin (RegistrarMovimiento.operatorUserId command) (RegistrarMovimiento.operatorPin command)
    (Some (TurnoCaja.stationId shift)) ;;
  throw_when (negb (canOperate shift (RegistrarMovimiento.operatorUserId command))) UnauthorizedShiftOperatorError ;;
  throw_when (RegistrarMovimiento.amount command <=? 0) InvalidCashMovementError ;;
  throw_when (blank (RegistrarMovimiento.reason command)) InvalidCashMovementError ;;
  let movement := MovimientoCaja.mk movementId (TurnoCaja.id shift) (RegistrarMovimiento.operatorUserId command)
    (RegistrarMovimiento.movementType command) (RegistrarMovimiento.amount command)
    (trim (RegistrarMovimiento.reason command)) (RegistrarMovimiento.referenceId command) now in
  let updatedShift := shift <| TurnoCaja.version := TurnoCaja.version shift + 1 |> <| TurnoCaja.updatedAt := now |> in
  savedMovement ← addMovement movement updatedShift (TurnoCaja.version shift);
  mret (updatedShift, savedMovement).

(** the fields Corte X and Corte Z share *)
(* cash-shift-service.ts:409-423 generarCorteX, corteX *)
Definition newCorte (now corteId : string) (tipoCorte : CorteCajaType) (user : string) (shift : TurnoCaja.t)
    (breakdown : Breakdown.t) : CorteCaja.t :=
  CorteCaja.mk corteId (TurnoCaja.id shift) tipoCorte user (TurnoCaja.openingCashFloat shift)
    (Breakdown.totalIngresos breakdown) (Breakdown.totalEgresos breakdown)
    (Breakdown.totalVentasEfectivo breakdown) (Breakdown.totalCalculado breakdown)
    (TurnoCaja.closingDeclaredCash shift) (TurnoCaja.cashDifference shift)
    (Breakdown.desgloseOperadores breakdown) now.

(* cash-shift-service.ts:393-426 generarCorteX *)
Definition generarCorteX (now corteId : string) (command : GenerarCorteX.t) : M S PosError CorteCaja.t :=
  found ← getShiftById (GenerarCorteX.shiftId command);
  shift ← require found ShiftNotFoundError;
  requirePin (GenerarCorteX.requestedByUserId command) (GenerarCorteX.requestedByPin command)
    (Some (TurnoCaja.stationId shift)) ;;
  throw_when (negb (canOperate shift (GenerarCorteX.requestedByUserId command))) UnauthorizedShiftOperatorError ;;
  movements ← listMovements (TurnoCaja.id shift);
  let breakdown := computeBreakdown (TurnoCaja.openingCashFloat shift) movements in
  mret (newCorte now corteId CORTE_X_TIPO (GenerarCorteX.requestedByUserId command) shift breakdown).

(* cash-shift-service.ts:432-496 realizarArqueoCiego *)
Definition realizarArqueoCiego (now arqueoId : string) (command : RealizarArqueoCiego.t)
    : M S PosError (TurnoCaja.t * ArqueoCiego.t) :=
  found ← getShiftById (RealizarArqueoCiego.shiftId command);
  shift ← require found ShiftNotFoundError;
  check_shift_version shift (RealizarArqueoCiego.expectedVersion command) ;;
  require_open shift ;;
  throw_when (RealizarArqueoCiego.declaredCash command <? 0) (DomainError "INVALID_DECLARED_CASH" 400) ;;
  requirePin (RealizarArqueoCiego.performedByUserId command) (RealizarArqueoCiego.performedByPin command)
    (Some (TurnoCaja.stationId shift)) ;;
  throw_when (negb (canOperate shift (RealizarArqueoCiego.performedByUserId command))) UnauthorizedShiftOperatorError ;;
  movements ← listMovements (TurnoCaja.id shift);
  let breakdown := computeBreakdown (TurnoCaja.openingCashFloat shift) movements in
  let difference := RealizarArqueoCiego.declaredCash command - Breakdown.totalCalculado breakdown in
  let arqueo := ArqueoCiego.mk arqueoId (TurnoCaja.id shift) (RealizarArqueoCiego.performedByUserId command)
    (RealizarArqueoCiego.declaredCash command) (Breakdown.totalCalculado breakdown) difference now in
  let updatedShift := shift <| TurnoCaja.status := CERRADO_ARQUEO |>
    <| TurnoCaja.closingDeclaredCash := Some (RealizarArqueoCiego.declaredCash command) |>
    <| TurnoCaja.calculatedCashTotal := Some (Breakdown.totalCalculado breakdown) |>
    <| TurnoCaja.cashDifference := Some difference |>
    <| TurnoCaja.version := TurnoCaja.version shift + 1 |> <| TurnoCaja.updatedAt := now |> in
  savedArqueo ← saveArqueoCiego arqueo updatedShift (TurnoCaja.version shift);
  mret (updatedShift, savedArqueo).

(* cash-shift-service.ts:502-572 generarCorteZ *)
Definition generarCorteZ (now corteId : string) (command : GenerarCorteZ.t)
    : M S PosError (TurnoCaja.t * CorteCaja.t) :=
  found ← getShiftById (GenerarCorteZ.shiftId command);
  shift ← require found ShiftNotFoundError;
  check_shift_version shift (GenerarCorteZ.expectedVersion command) ;;
  throw_when (bool_decide (TurnoCaja.status shift = CORTE_Z_EMITIDO)) ShiftLockedError ;;
  throw_when (bool_decide (TurnoCaja.status shift ≠ CERRADO_ARQUEO)) (DomainError "BLIND_COUNT_REQUIRED" 400) ;;
  requirePin (GenerarCorteZ.closedByUserId command) (GenerarCorteZ.closedByPin command)
    (Some (TurnoCaja.stationId shift)) ;;
  throw_when (negb (canClose shift (GenerarCorteZ.closedByUserId command))) UnauthorizedShiftOperatorError ;;
  movements ← listMovements (TurnoCaja.id shift);
  let breakdown := computeBreakdown (TurnoCaja.openingCashFloat shift) movements in
  let corteZ := newCorte now corteId CORTE_Z_TIPO (GenerarCorteZ.closedByUserId command) shift breakdown in
  let finalShift := shift <| TurnoCaja.status := CORTE_Z_EMITIDO |> <| TurnoCaja.closedAt := Some now |>
    <| TurnoCaja.version := TurnoCaja.version shift + 1 |> <| TurnoCaja.updatedAt := now |> in
  savedCorte ← saveCorteZ corteZ finalShift (TurnoCaja.version shift);
  mret (finalShift, savedCorte).

End CashShiftDomainService.
