(* ===== verification/CashShiftRepo.v ===== *)
(** The SQLite adapter of the cash-shift port (pos-edge-runtime's
    cash-shift-sqlite-repository.ts) over the connection of [EdgeDb].

    Identifiers and clocks the adapter draws itself are fields of [Draws].  The partial
    unique index on open shifts and the primary and foreign keys are explicit tests. *)
From S2P Require Import Prelude Money PosTypes EdgeDb CashShift.

(** [try { m } catch (err) { h(err) }] *)
Definition catch {S A} (m : M S PosError A) (h : PosError → M S PosError A) : M S PosError A := λ s,
  match m s with (s', Err e) => h e s' | r => r end.

Module SqliteShifts.

(* cash-shift-sqlite-repository.ts:89-112 mapTurnoRow *)
Definition mapTurnoRow (id : string) (row : TurnoCajaRow.t) (participatingOperators : list string) : TurnoCaja.t :=
  TurnoCaja.mk id (TurnoCajaRow.organization_id row) (TurnoCajaRow.branch_id row)
    (TurnoCajaRow.station_id row) (TurnoCajaRow.responsible_user_id row)
    (TurnoCajaRow.opened_by_user_id row) (TurnoCajaRow.shift_number row)
    (TurnoCajaRow.opening_cash_float row) (TurnoCajaRow.closing_declared_cash row)
    (TurnoCajaRow.calculated_cash_total row) (TurnoCajaRow.cash_difference row)
    (TurnoCajaRow.status row) (TurnoCajaRow.assignment_strategy row) participatingOperators
    (TurnoCajaRow.opened_at row) (TurnoCajaRow.closed_at row) (TurnoCajaRow.version row)
    (TurnoCajaRow.updated_at row).

(* cash-shift-sqlite-repository.ts:114-120 getParticipatingOperatorsSync *)
Definition selectOperators (d : Db.t) (shiftId : string) : list string :=
  OperadorRow.operator_user_id <$>
    orderBy OperadorRow.added_at (filter (λ r, OperadorRow.turno_caja_id r = shiftId) (Db.turnos_caja_operadores d)).

Definition selectShift (d : Db.t) (id : string) : option TurnoCaja.t :=
  (λ row, mapTurnoRow id row (selectOperators d id)) <$> Db.turnos_caja d !! id.

Definition isActiveStatus (st : TurnoCajaStatus) : bool :=
  match st with ABIERTO | CERRADO_ARQUEO => true | CORTE_Z_EMITIDO => false end.

(** the first matching row; the order of the rows is not specified *)
(* cash-shift-sqlite-repository.ts:122-139 getActiveShiftSync *)
Definition getActiveShift (stationId : string) : Tx (option TurnoCaja.t) :=
  query (λ d,
    match filter (λ '(_, r), TurnoCajaRow.station_id r = stationId ∧ isActiveStatus (TurnoCajaRow.status r) = true)
            (map_to_list (Db.turnos_caja d)) with
    | (id, row) :: _ => Some (mapTurnoRow id row (selectOperators d id))
    | [] => None
    end).

(* cash-shift-sqlite-repository.ts:141-158 getShiftByIdSync *)
Definition getShiftById (id : string) : Tx (option TurnoCaja.t) := query (λ d, selectShift d id).

(* cash-shift-sqlite-repository.ts:177-200 saveShiftSync, INSERT values *)
Definition shiftToRow (s : TurnoCaja.t) : TurnoCajaRow.t :=
  TurnoCajaRow.mk (TurnoCaja.organizationId s) (TurnoCaja.branchId s) (TurnoCaja.stationId s)
    (TurnoCaja.responsibleUserId s) (TurnoCaja.openedByUserId s) (TurnoCaja.shiftNumber s)
    (TurnoCaja.openingCashFloat s) (TurnoCaja.closingDeclaredCash s) (TurnoCaja.calculatedCashTotal s)
    (TurnoCaja.cashDifference s) (TurnoCaja.status s) (TurnoCaja.assignmentStrategy s)
    (TurnoCaja.openedAt s) (TurnoCaja.closedAt s) (TurnoCaja.version s) (TurnoCaja.updatedAt s).

(** the key of the partial index on [status = 'ABIERTO'] *)
Definition activeKey (r : TurnoCajaRow.t) : option (string * string * string) :=
  match TurnoCajaRow.status r with
  | ABIERTO => Some (TurnoCajaRow.organization_id r, TurnoCajaRow.branch_id r, TurnoCajaRow.station_id r)
  | _ => None
  end.

(** some row other than [id] has the key of [r] *)
Definition station_taken (table : gmap string TurnoCajaRow.t) (id : string) (r : TurnoCajaRow.t) : bool :=
  match activeKey r with
  | None => false
  | Some k => bool_decide (Exists (λ '(id', r'), id' ≠ id ∧ activeKey r' = Some k) (map_to_list table))
  end.

Definition UQ_ACTIVE_STATION : PosError := SqliteError "uq_turnos_caja_active_station".

(** writes a row of [turnos_caja] under the partial unique index *)
(* cash-shift-schema.ts:75-75 uq_turnos_caja_active_station *)
Definition writeShiftRow (id : string) (r : TurnoCajaRow.t) : Tx unit :=
  table ← query Db.turnos_caja;
  throw_when (station_taken table id r) UQ_ACTIVE_STATION ;;
  exec (λ d, d <| Db.turnos_caja ::= <[id := r]> |>).

(** INSERT OR IGNORE under UNIQUE (turno_caja_id, operator_user_id) *)
(* cash-shift-sqlite-repository.ts:256-266 saveShiftSync, operators *)
Definition insertOperator (shiftId addedBy addedAt opId : string) : Tx unit :=
  exec (λ d, d <| Db.turnos_caja_operadores ::= (λ rows,
    if decide ((shiftId, opId) ∈ ((λ r, (OperadorRow.turno_caja_id r, OperadorRow.operator_user_id r)) <$> rows))
    then rows else rows ++ [OperadorRow.mk shiftId opId addedBy addedAt]) |>).

(** an UPDATE guarded by [WHERE id = ? AND version = ?], with the conflict it raises *)
(* cash-shift-sqlite-repository.ts:246-254 saveShiftSync, conflict *)
Definition updateShiftRow (id : string) (expectedVersion : Z) (f : TurnoCajaRow.t → TurnoCajaRow.t) : Tx unit :=
  table ← query Db.turnos_caja;
  match (r ← table !! id; if TurnoCajaRow.version r =? expectedVersion then Some r else None) with
  | Some r => writeShiftRow id (f r)
  | None =>
      current ← getShiftById id;
      mthrow (OCCConflictError id expectedVersion
                (match current with Some c => TurnoCaja.version c | None => 0 end) (SnapTurno current))
  end.

Definition check_tenant (shift : TurnoCaja.t) : Tx unit :=
  throw_when (blank (TurnoCaja.organizationId shift)) (DomainError "MISSING_TENANT_IDENTITY" 400) ;;
  throw_when (blank (TurnoCaja.branchId shift)) (DomainError "MISSING_TENANT_IDENTITY" 400).

(* cash-shift-sqlite-repository.ts:160-270 saveShiftSync *)
Definition saveShift (shift : TurnoCaja.t) (expectedVersion : Z) : Tx TurnoCaja.t :=
  check_tenant shift ;;
  if expectedVersion =? 0 then
    existing ← getShiftById (TurnoCaja.id shift);
    throw_when (bool_decide (is_Some existing)) (DomainError "DUPLICATE_SHIFT" 409) ;;
    catch
      (runInTransaction (
        writeShiftRow (TurnoCaja.id shift) (shiftToRow shift) ;;
        for_each (insertOperator (TurnoCaja.id shift) (TurnoCaja.openedByUserId shift) (TurnoCaja.openedAt shift))
          (TurnoCaja.participatingOperators shift)) None)
      (λ err, mthrow (if decide (err = UQ_ACTIVE_STATION) then ShiftAlreadyOpenError else err)) ;;
    mret shift
  else
    runInTransaction (
      updateShiftRow (TurnoCaja.id shift) expectedVersion (λ r,
        r <| TurnoCajaRow.closing_declared_cash := TurnoCaja.closingDeclaredCash shift |>
          <| TurnoCajaRow.calculated_cash_total := TurnoCaja.calculatedCashTotal shift |>
          <| TurnoCajaRow.cash_difference := TurnoCaja.cashDifference shift |>
          <| TurnoCajaRow.status := TurnoCaja.status shift |>
          <| TurnoCajaRow.closed_at := TurnoCaja.closedAt shift |>
          <| TurnoCajaRow.version := TurnoCaja.version shift |>
          <| TurnoCajaRow.updated_at := TurnoCaja.updatedAt shift |>) ;;
      for_each (insertOperator (TurnoCaja.id shift) (TurnoCaja.responsibleUserId shift) (TurnoCaja.updatedAt shift))
        (TurnoCaja.participatingOperators shift) ;;
      mret shift) None.

(* cash-shift-sqlite-repository.ts:300-311 addMovementSync, INSERT *)
Definition insertMovimiento (movement : MovimientoCaja.t) : Tx unit :=
  d ← query id;
  throw_when (bool_decide (MovimientoCaja.id movement ∈ (MovimientoCaja.id <$> Db.movimientos_caja d)))
    (SqliteError "movimientos_caja.id") ;;
  throw_when (bool_decide (Db.turnos_caja d !! MovimientoCaja.turnoCajaId movement = None))
    (SqliteError "FOREIGN KEY constraint failed") ;;
  exec (λ d, d <| Db.movimientos_caja ::= (λ l, l ++ [movement]) |>).

(* cash-shift-sqlite-repository.ts:276-323 addMovementSync *)
Definition addMovement (movement : MovimientoCaja.t) (shift : TurnoCaja.t) (expectedVersion : Z) : Tx MovimientoCaja.t :=
  runInTransaction (
    updateShiftRow (TurnoCaja.id shift) expectedVersion (λ r,
      r <| TurnoCajaRow.version := TurnoCaja.version shift |>
        <| TurnoCajaRow.updated_at := TurnoCaja.updatedAt shift |>) ;;
    insertMovimiento movement ;;
    mret movement) None.

Definition selectMovements (d : Db.t) (shiftId : string) : list MovimientoCaja.t :=
  orderBy MovimientoCaja.createdAt (filter (λ m, MovimientoCaja.turnoCajaId m = shiftId) (Db.movimientos_caja d)).

(* cash-shift-sqlite-repository.ts:325-348 listMovementsSync *)
Definition listMovements (shiftId : string) : Tx (list MovimientoCaja.t) := query (λ d, selectMovements d shiftId).

(* cash-shift-sqlite-repository.ts:381-391 saveArqueoCiegoSync, INSERT *)
Definition insertArqueo (arqueo : ArqueoCiego.t) : Tx unit :=
  d ← query id;
  throw_when (bool_decide (ArqueoCiego.id arqueo ∈ (ArqueoCiego.id <$> Db.arqueos_ciegos d)))
    (SqliteError "arqueos_ciegos.id") ;;
  throw_when (bool_decide (Db.turnos_caja d !! ArqueoCiego.turnoCajaId arqueo = None))
    (SqliteError "FOREIGN KEY constraint failed") ;;
  exec (λ d, d <| Db.arqueos_ciegos ::= (λ l, l ++ [arqueo]) |>).

(* cash-shift-sqlite-repository.ts:350-403 saveArqueoCiegoSync *)
Definition saveArqueoCiego (arqueo : ArqueoCiego.t) (shift : TurnoCaja.t) (expectedVersion : Z) : Tx ArqueoCiego.t :=
  runInTransaction (
    updateShiftRow (TurnoCaja.id shift) expectedVersion (λ r,
      r <| TurnoCajaRow.closing_declared_cash := TurnoCaja.closingDeclaredCash shift |>
        <| TurnoCajaRow.calculated_cash_total := TurnoCaja.calculatedCashTotal shift |>
        <| TurnoCajaRow.cash_difference := TurnoCaja.cashDifference shift |>
        <| TurnoCajaRow.status := TurnoCaja.status shift |>
        <| TurnoCajaRow.version := TurnoCaja.version shift |>
        <| TurnoCajaRow.updated_at := TurnoCaja.updatedAt shift |>) ;;
    insertArqueo arqueo ;;
    mret arqueo) None.

(* cash-shift-sqlite-repository.ts:442-451 saveCorteZSync, serializedDesglose *)
Definition operatorDTO (op : OperatorBreakdown.t) : OperatorBreakdownDTO.t :=
  OperatorBreakdownDTO.mk (OperatorBreakdown.operatorUserId op)
    (scaledBigIntToDecimalString (OperatorBreakdown.totalIngresos op))
    (scaledBigIntToDecimalString (OperatorBreakdown.totalEgresos op))
    (scaledBigIntToDecimalString (OperatorBreakdown.totalVentasEfectivo op))
    (scaledBigIntToDecimalString (OperatorBreakdown.netCash op)) (OperatorBreakdown.movementsCount op).

(* cash-shift-sqlite-repository.ts:453-472 saveCorteZSync, INSERT *)
Definition corteToRow (c : CorteCaja.t) : CorteRow.t :=
  CorteRow.mk (CorteCaja.id c) (CorteCaja.turnoCajaId c) (CorteCaja.tipoCorte c)
    (CorteCaja.generatedByUserId c) (CorteCaja.openingCashFloat c) (CorteCaja.totalIngresos c)
    (CorteCaja.totalEgresos c) (CorteCaja.totalVentasEfectivo c) (CorteCaja.totalCalculado c)
    (CorteCaja.totalDeclarado c) (CorteCaja.diferencia c) (operatorDTO <$> CorteCaja.desgloseOperadores c)
    (CorteCaja.generatedAt c).

Definition insertCorte (c : CorteCaja.t) : Tx unit :=
  d ← query id;
  throw_when (bool_decide (CorteCaja.id c ∈ (CorteRow.id <$> Db.cortes_caja d))) (SqliteError "cortes_caja.id") ;;
  throw_when (bool_decide (Db.turnos_caja d !! CorteCaja.turnoCajaId c = None))
    (SqliteError "FOREIGN KEY constraint failed") ;;
  exec (λ d, d <| Db.cortes_caja ::= (λ l, l ++ [corteToRow c]) |>).

(** what the adapter draws while it saves a Corte Z *)
Module Draws.
Record t := mk { auditId : string; outboxId : string; clientOpId : string; outboxCreatedAt : string }.
End Draws.

(** [scaledBigIntToDecimalString(corte.totalDeclarado!)]: mixing null into bigint arithmetic throws *)
(* cash-shift-sqlite-repository.ts:474-495 saveCorteZSync, audit *)
Definition auditDifference (draws : Draws.t) (corte : CorteCaja.t) (shift : TurnoCaja.t) : Tx unit :=
  match CorteCaja.diferencia corte with
  | None => mret tt
  | Some diferencia =>
      if diferencia =? 0 then mret tt
      else
        declarado ← require (CorteCaja.totalDeclarado corte) (Js (TypeError "Cannot mix BigInt and other types"));
        recordAudit (AuditRecord.mk (Draws.auditId draws) (TurnoCaja.organizationId shift) (TurnoCaja.branchId shift)
          (CorteCaja.generatedByUserId corte) (TurnoCaja.stationId shift) "CASH_DIFFERENCE_AUDITED" "TURNO_CAJA"
          (TurnoCaja.id shift)
          (CashDifferenceDetails (TurnoCaja.id shift) (TurnoCaja.stationId shift) (TurnoCaja.shiftNumber shift)
             (scaledBigIntToDecimalString declarado) (scaledBigIntToDecimalString (CorteCaja.totalCalculado corte))
             (scaledBigIntToDecimalString diferencia))
          (Some "Descuadre de efectivo detectado en Arqueo Ciego / Corte Z") (CorteCaja.generatedAt corte) false) ;;
        mret tt
  end.

(* cash-shift-sqlite-repository.ts:498-526 saveCorteZSync, outboxPayload *)
Definition cortePayload (corte : CorteCaja.t) (shift : TurnoCaja.t) : CorteZGenerado.t :=
  CorteZGenerado.mk (TurnoCaja.id shift) (TurnoCaja.organizationId shift) (TurnoCaja.branchId shift)
    (TurnoCaja.stationId shift) (TurnoCaja.responsibleUserId shift) (TurnoCaja.shiftNumber shift)
    (scaledBigIntToDecimalString (CorteCaja.openingCashFloat corte))
    (scaledBigIntToDecimalString (CorteCaja.totalIngresos corte))
    (scaledBigIntToDecimalString (CorteCaja.totalEgresos corte))
    (scaledBigIntToDecimalString (CorteCaja.totalVentasEfectivo corte))
    (scaledBigIntToDecimalString (CorteCaja.totalCalculado corte))
    (match CorteCaja.totalDeclarado corte with Some x => scaledBigIntToDecimalString x | None => "0.0000" end)
    (match CorteCaja.diferencia corte with Some x => scaledBigIntToDecimalString x | None => "0.0000" end)
    (operatorDTO <$> CorteCaja.desgloseOperadores corte) (TurnoCaja.openedAt shift) (TurnoCaja.closedAt shift).

(* cash-shift-sqlite-repository.ts:528-542 saveCorteZSync, enqueue *)
Definition corteEvent (draws : Draws.t) (corte : CorteCaja.t) (shift : TurnoCaja.t) : EnqueueInput.t :=
  EnqueueInput.mk (Draws.outboxId draws) (TurnoCaja.organizationId shift) (TurnoCaja.branchId shift)
    "CORTE_Z" (CorteCaja.id corte) "CorteZGenerado"
    (if isValidUuidV4 (CorteCaja.id corte) then CorteCaja.id corte else Draws.clientOpId draws)
    (if 1 <=? TurnoCaja.shiftNumber shift then TurnoCaja.shiftNumber shift else 1)
    (CorteZPayload (cortePayload corte shift)).

(** [hook] is the optional [onBeforeCorteZCommit], by the error it throws *)
(* cash-shift-sqlite-repository.ts:410-552 saveCorteZSync *)
Definition saveCorteZ (draws : Draws.t) (hook : CorteCaja.t → option PosError)
    (corte : CorteCaja.t) (shift : TurnoCaja.t) (expectedVersion : Z) : Tx CorteCaja.t :=
  check_tenant shift ;;
  runInTransaction (
    updateShiftRow (TurnoCaja.id shift) expectedVersion (λ r,
      r <| TurnoCajaRow.status := TurnoCaja.status shift |>
        <| TurnoCajaRow.closed_at := TurnoCaja.closedAt shift |>
        <| TurnoCajaRow.version := TurnoCaja.version shift |>
        <| TurnoCajaRow.updated_at := TurnoCaja.updatedAt shift |>) ;;
    insertCorte corte ;;
    auditDifference draws corte shift ;;
    enqueue (Draws.outboxCreatedAt draws) (corteEvent draws corte shift) ;;
    match hook corte with Some e => mthrow e | None => mret corte end) (Some FULL).

End SqliteShifts.

(* cash-shift-sqlite-repository.ts:71-83 SqliteCashShiftRepository *)
Definition SqliteCashShiftRepository (draws : SqliteShifts.Draws.t) (hook : CorteCaja.t → option PosError)
    : CashShiftRepositoryPort Edge.t := {|
  getActiveShift := SqliteShifts.getActiveShift;
  getShiftById := SqliteShifts.getShiftById;
  saveShift := SqliteShifts.saveShift;
  addMovement := SqliteShifts.addMovement;
  listMovements := SqliteShifts.listMovements;
  saveArqueoCiego := SqliteShifts.saveArqueoCiego;
  saveCorteZ := SqliteShifts.saveCorteZ draws hook |}.
