(* ===== verification/CashShiftSpec.v ===== *)
(** What the cash-shift service guarantees over SQLite: the breakdown adds up, shifts move
    along ABIERTO, CERRADO_ARQUEO, CORTE_Z_EMITIDO and never back, a station has at most
    one open shift, and the ledger of a shift agrees with its movements until the Corte Z
    freezes it. *)
From S2P Require Import Prelude Money PosTypes EdgeDb CashShift CashShiftRepo.

(** ** The breakdown *)

(** what a movement adds to the drawer, beyond the opening float *)
Definition cash_effect (m : MovimientoCaja.t) : Z :=
  match MovimientoCaja.movementType m with
  | INGRESO | VENTA_EFECTIVO => MovimientoCaja.amount m
  | EGRESO | DEVOLUCION_EFECTIVO => - MovimientoCaja.amount m
  | FONDO_INICIAL => 0
  end.

(** the cash a drawer should hold *)
Definition expected_cash (opening : Z) (movements : list MovimientoCaja.t) : Z :=
  opening + sumZ cash_effect movements.

(** the amount of a movement if its type satisfies [p] *)
Definition amount_if (p : MovimientoCajaType → bool) (m : MovimientoCaja.t) : Z :=
  if p (MovimientoCaja.movementType m) then MovimientoCaja.amount m else 0.

Definition is_ingreso t := match t with INGRESO => true | _ => false end.
Definition is_venta t := match t with VENTA_EFECTIVO => true | _ => false end.
Definition is_egreso t := match t with EGRESO | DEVOLUCION_EFECTIVO => true | _ => false end.

(** the movements of one operator *)
Definition movements_of (op : string) (movements : list MovimientoCaja.t) : list MovimientoCaja.t :=
  filter (λ m, MovimientoCaja.operatorUserId m = op) movements.

Definition stats_of (op : string) (movements : list MovimientoCaja.t) : OperatorBreakdown.t :=
  let ms := movements_of op movements in
  OperatorBreakdown.mk op (sumZ (amount_if is_ingreso) ms) (sumZ (amount_if is_egreso) ms)
    (sumZ (amount_if is_venta) ms) (sumZ cash_effect ms) (Z.of_nat (length ms)).

(** the operators in order of their first movement *)
Definition operators_of (movements : list MovimientoCaja.t) : list string :=
  foldl (λ ops m, if decide (MovimientoCaja.operatorUserId m ∈ ops) then ops
                  else ops ++ [MovimientoCaja.operatorUserId m]) [] movements.

Lemma operators_of_snoc ms m :
  operators_of (ms ++ [m]) =
  if decide (MovimientoCaja.operatorUserId m ∈ operators_of ms) then operators_of ms
  else operators_of ms ++ [MovimientoCaja.operatorUserId m].
Proof. unfold operators_of. by rewrite foldl_app. Qed.

Lemma operators_of_NoDup ms : NoDup (operators_of ms).
Proof.
  induction ms as [|m ms IH] using rev_ind; [constructor|]. rewrite operators_of_snoc.
  case_decide; [done|by apply NoDup_snoc].
Qed.

Lemma elem_of_operators_of op ms : op ∈ operators_of ms ↔ op ∈ (MovimientoCaja.operatorUserId <$> ms).
Proof.
  induction ms as [|m ms IH] using rev_ind; [done|]. rewrite operators_of_snoc, fmap_app. simpl.
  case_decide; set_solver.
Qed.

Lemma movements_of_snoc op ms m :
  movements_of op (ms ++ [m]) =
  movements_of op ms ++ (if decide (MovimientoCaja.operatorUserId m = op) then [m] else []).
Proof. unfold movements_of. rewrite filter_app. done. Qed.

Lemma movements_of_none op ms : op ∉ operators_of ms → movements_of op ms = [].
Proof.
  rewrite elem_of_operators_of. intros Hop. induction ms as [|m ms IH]; [done|].
  unfold movements_of. rewrite filter_cons. rewrite fmap_cons in Hop.
  rewrite decide_False by set_solver. apply IH. set_solver.
Qed.

Lemma stats_of_snoc op ms m :
  MovimientoCaja.operatorUserId m = op → stats_of op (ms ++ [m]) = countMovement m (stats_of op ms).
Proof.
  intros Hop. unfold stats_of. rewrite movements_of_snoc, decide_True by done.
  rewrite !sumZ_snoc, length_app. unfold countMovement.
  generalize (sumZ (amount_if is_ingreso) (movements_of op ms)) (sumZ (amount_if is_egreso) (movements_of op ms))
    (sumZ (amount_if is_venta) (movements_of op ms)) (sumZ cash_effect (movements_of op ms)).
  intros ti te tv n. unfold amount_if, cash_effect.
  destruct (MovimientoCaja.movementType m); unfold set; simpl; f_equal; lia.
Qed.

Lemma stats_of_other op ms m :
  MovimientoCaja.operatorUserId m ≠ op → stats_of op (ms ++ [m]) = stats_of op ms.
Proof. intros Hop. unfold stats_of. by rewrite movements_of_snoc, decide_False, app_nil_r by done. Qed.

Lemma updateStats_known op f (g : string → OperatorBreakdown.t) ops :
  (∀ o, OperatorBreakdown.operatorUserId (g o) = o) → NoDup ops → op ∈ ops →
  updateStats op f (g <$> ops) = (λ o, if decide (o = op) then f (g o) else g o) <$> ops.
Proof.
  intros Hg. induction ops as [|o ops IH]; intros Hn Hin; [by apply not_elem_of_nil in Hin|].
  apply NoDup_cons in Hn as [Ho Hn]. rewrite !fmap_cons. simpl. rewrite Hg. case_decide as Heq.
  - subst o. f_equal. apply list_fmap_ext. intros k x Hx. rewrite decide_False; [done|].
    intros ->. destruct Ho. by eapply list_elem_of_lookup_2.
  - f_equal. apply IH; [done|]. set_solver.
Qed.

Lemma updateStats_new op f (g : string → OperatorBreakdown.t) ops :
  (∀ o, OperatorBreakdown.operatorUserId (g o) = o) → op ∉ ops →
  updateStats op f (g <$> ops) = (g <$> ops) ++ [f (newStats op)].
Proof.
  intros Hg. induction ops as [|o ops IH]; intros Hin; [done|].
  rewrite !fmap_cons. simpl. rewrite Hg, decide_False by set_solver. f_equal. apply IH. set_solver.
Qed.

(** the loop computes the statistics of each operator and the three totals *)
Lemma breakdown_loop ms :
  foldl breakdownStep (Breakdown.mk 0 0 0 0 []) ms =
  Breakdown.mk (sumZ (amount_if is_ingreso) ms) (sumZ (amount_if is_egreso) ms) (sumZ (amount_if is_venta) ms) 0
    ((λ op, stats_of op ms) <$> operators_of ms).
Proof.
  induction ms as [|m ms IH] using rev_ind; [done|]. rewrite foldl_app, IH. simpl foldl.
  set (op := MovimientoCaja.operatorUserId m).
  assert (Hops : updateStats op (countMovement m) ((λ op, stats_of op ms) <$> operators_of ms) =
                 (λ op, stats_of op (ms ++ [m])) <$> operators_of (ms ++ [m])).
  { rewrite operators_of_snoc. fold op. destruct (decide (op ∈ operators_of ms)) as [Hin|Hnew].
    - rewrite updateStats_known by (done || apply operators_of_NoDup). apply list_fmap_ext. intros k o _.
      case_decide as Heq; [subst o; by rewrite stats_of_snoc|]. rewrite stats_of_other; [done|].
      intros Ho. by apply Heq.
    - rewrite updateStats_new by done. rewrite fmap_app. f_equal.
      + apply list_fmap_ext. intros k o Hk. rewrite stats_of_other; [done|]. intros Ho. apply Hnew.
        unfold op. rewrite Ho. by eapply list_elem_of_lookup_2.
      + simpl. rewrite stats_of_snoc by done. unfold stats_of. by rewrite movements_of_none. }
  unfold breakdownStep. fold op. rewrite !sumZ_snoc, <- Hops.
  generalize (sumZ (amount_if is_ingreso) ms) (sumZ (amount_if is_egreso) ms) (sumZ (amount_if is_venta) ms).
  intros ti te tv. unfold amount_if. destruct (MovimientoCaja.movementType m); unfold set; simpl; f_equal; lia.
Qed.

Lemma cash_effect_split ms :
  sumZ cash_effect ms =
  sumZ (amount_if is_ingreso) ms + sumZ (amount_if is_venta) ms - sumZ (amount_if is_egreso) ms.
Proof.
  rewrite <- sumZ_add, <- sumZ_sub. apply sumZ_ext. intros m _.
  unfold cash_effect, amount_if. destruct (MovimientoCaja.movementType m); simpl; lia.
Qed.

Lemma computeBreakdown_total opening ms :
  Breakdown.totalCalculado (computeBreakdown opening ms) = expected_cash opening ms.
Proof.
  unfold computeBreakdown. rewrite breakdown_loop. simpl. unfold expected_cash. rewrite cash_effect_split. lia.
Qed.

(** summing over the operators is summing over the movements *)
Lemma sum_by_operator f ms :
  sumZ (λ op, sumZ f (movements_of op ms)) (operators_of ms) = sumZ f ms.
Proof.
  induction ms as [|m ms IH] using rev_ind; [done|].
  rewrite operators_of_snoc, sumZ_snoc, <- IH.
  set (op := MovimientoCaja.operatorUserId m).
  assert (Hother : ∀ l, op ∉ l → sumZ (λ o, sumZ f (movements_of o (ms ++ [m]))) l =
                                 sumZ (λ o, sumZ f (movements_of o ms)) l).
  { intros l Hl. apply sumZ_ext. intros o Ho. rewrite movements_of_snoc, decide_False, app_nil_r by set_solver. done. }
  assert (Hone : sumZ f (movements_of op (ms ++ [m])) = sumZ f (movements_of op ms) + f m).
  { by rewrite movements_of_snoc, decide_True, sumZ_snoc by done. }
  case_decide as Hin.
  - apply list_elem_of_split in Hin as (l1 & l2 & Hl). pose proof (operators_of_NoDup ms) as Hn.
    rewrite Hl in Hn |- *. apply NoDup_app in Hn as (Hn1 & Hdisj & [Hop Hn2]%NoDup_cons).
    rewrite !sumZ_app, !sumZ_cons, Hone, !Hother; [lia|done|]. intros Hop1. by apply (Hdisj op Hop1), list_elem_of_here.
  - rewrite sumZ_app, Hother by done. rewrite sumZ_cons, sumZ_nil, Hone, movements_of_none by done.
    rewrite sumZ_nil. lia.
Qed.

(** The breakdown adds up.  For any opening float and any movements, the expected cash
    is the float plus income and cash sales minus outflows (an opening-float movement is
    not counted twice); every operator with a movement appears exactly once with the sums
    and the count of that operator's own movements; the operators' net amounts add up to
    the expected cash minus the float, their totals to the shift's totals, and their counts
    to the number of movements. *)
Theorem breakdown_adds_up opening ms :
  let b := computeBreakdown opening ms in
  let ops := Breakdown.desgloseOperadores b in
  Breakdown.totalCalculado b = opening + sumZ cash_effect ms ∧
  NoDup (OperatorBreakdown.operatorUserId <$> ops) ∧
  (∀ m, m ∈ ms → ∃ o, o ∈ ops ∧ OperatorBreakdown.operatorUserId o = MovimientoCaja.operatorUserId m) ∧
  (∀ o, o ∈ ops → o = stats_of (OperatorBreakdown.operatorUserId o) ms) ∧
  sumZ OperatorBreakdown.netCash ops = Breakdown.totalCalculado b - opening ∧
  sumZ OperatorBreakdown.totalIngresos ops = Breakdown.totalIngresos b ∧
  sumZ OperatorBreakdown.totalEgresos ops = Breakdown.totalEgresos b ∧
  sumZ OperatorBreakdown.totalVentasEfectivo ops = Breakdown.totalVentasEfectivo b ∧
  sumZ OperatorBreakdown.movementsCount ops = Z.of_nat (length ms).
Proof.
  cbv zeta. rewrite computeBreakdown_total. unfold computeBreakdown. rewrite breakdown_loop. simpl.
  unfold expected_cash. split_and!; [done|..].
  - rewrite <- list_fmap_compose. rewrite (list_fmap_ext _ id), list_fmap_id by done. apply operators_of_NoDup.
  - intros m Hm. exists (stats_of (MovimientoCaja.operatorUserId m) ms). split; [|done].
    apply list_elem_of_fmap. eexists. split; [done|]. apply elem_of_operators_of. by apply list_elem_of_fmap_2.
  - by intros o (op & -> & _)%list_elem_of_fmap.
  - rewrite sumZ_fmap. simpl. rewrite (sum_by_operator cash_effect). lia.
  - rewrite sumZ_fmap. apply sum_by_operator.
  - rewrite sumZ_fmap. apply sum_by_operator.
  - rewrite sumZ_fmap. apply sum_by_operator.
  - rewrite sumZ_fmap. simpl. assert (Hlen : ∀ l : list MovimientoCaja.t, Z.of_nat (length l) = sumZ (λ _, 1) l).
    { induction l as [|x l IH]; [done|]. rewrite sumZ_cons. simpl length. lia. }
    rewrite Hlen, <- (sum_by_operator (λ _, 1)). apply sumZ_ext. intros op _. apply Hlen.
Qed.

Definition example_movements : list MovimientoCaja.t :=
  [ MovimientoCaja.mk "m0" "t1" "ana" FONDO_INICIAL 5000000 "Fondo" None "t0";
    MovimientoCaja.mk "m1" "t1" "ana" VENTA_EFECTIVO 1160000 "Cobro" None "t1";
    MovimientoCaja.mk "m2" "t1" "luis" EGRESO 300000 "Hielo" None "t2";
    MovimientoCaja.mk "m3" "t1" "ana" INGRESO 40000 "Cambio" None "t3" ].

Lemma breakdown_adds_up_witness :
  let b := computeBreakdown 5000000 example_movements in
  Breakdown.totalCalculado b = 5900000 ∧
  sumZ OperatorBreakdown.netCash (Breakdown.desgloseOperadores b) = 900000.
Proof.
  destruct (breakdown_adds_up 5000000 example_movements) as (Ht & _ & _ & _ & Hn & _). split; [exact Ht|exact Hn].
Defined.

(** ** What the adapter writes *)

Module ShiftFacts.
Import SqliteShifts.

Lemma updateShiftRow_ok id v f s s' r :
  updateShiftRow id v f s = (s', Ok r) →
  ∃ old, Db.turnos_caja (Edge.db s) !! id = Some old ∧ TurnoCajaRow.version old = v ∧
    station_taken (Db.turnos_caja (Edge.db s)) id (f old) = false ∧
    s' = s <| Edge.db ::= (λ d, d <| Db.turnos_caja ::= <[id := f old]> |>) |>.
Proof.
  unfold updateShiftRow, writeShiftRow, getShiftById. intros Hrun. txinv Hrun.
  destruct (Db.turnos_caja (Edge.db s) !! id) as [old|]; simpl in Hopt; [|done].
  destruct (Z.eqb_spec (TurnoCajaRow.version old) v); [|done]. injection Hopt as <-. by exists old.
Qed.

Lemma insertOperators_ok id by_ at_ ops s s' r :
  for_each (insertOperator id by_ at_) ops s = (s', Ok r) →
  ∃ rows, s' = s <| Edge.db ::= (λ d, d <| Db.turnos_caja_operadores := rows |>) |>.
Proof.
  revert s. induction ops as [|op ops IH]; intros s Hrun; simpl in Hrun.
  - injection Hrun as <- _. exists (Db.turnos_caja_operadores (Edge.db s)). by destruct s as [[] ? ?].
  - assert (∃ rows, insertOperator id by_ at_ op s =
      (s <| Edge.db ::= (λ d, d <| Db.turnos_caja_operadores := rows |>) |>, Ok tt)) as [rows0 H0] by by eexists.
    rewrite (bind_run_ok _ _ _ _ _ H0) in Hrun. apply IH in Hrun as [rows ->].
    exists rows. by destruct s as [[] ? ?].
Qed.

Lemma insertMovimiento_ok m s s' r :
  insertMovimiento m s = (s', Ok r) →
  MovimientoCaja.id m ∉ (MovimientoCaja.id <$> Db.movimientos_caja (Edge.db s)) ∧
  is_Some (Db.turnos_caja (Edge.db s) !! MovimientoCaja.turnoCajaId m) ∧
  s' = s <| Edge.db ::= (λ d, d <| Db.movimientos_caja ::= (λ l, l ++ [m]) |>) |>.
Proof.
  unfold insertMovimiento. intros Hrun. txinv Hrun. simpl_guards. split_and!; try done.
  destruct (_ !! _); [by eexists|done].
Qed.

Lemma insertArqueo_ok a s s' r :
  insertArqueo a s = (s', Ok r) →
  s' = s <| Edge.db ::= (λ d, d <| Db.arqueos_ciegos ::= (λ l, l ++ [a]) |>) |>.
Proof. unfold insertArqueo. intros Hrun. by txinv Hrun. Qed.

Lemma insertCorte_ok c s s' r :
  insertCorte c s = (s', Ok r) →
  s' = s <| Edge.db ::= (λ d, d <| Db.cortes_caja ::= (λ l, l ++ [corteToRow c]) |>) |>.
Proof. unfold insertCorte. intros Hrun. by txinv Hrun. Qed.

(** the audit row of a cash difference, if there is one *)
Definition difference_audit (draws : Draws.t) (corte : CorteCaja.t) (shift : TurnoCaja.t) : list AuditRecord.t :=
  match CorteCaja.diferencia corte, CorteCaja.totalDeclarado corte with
  | Some diferencia, Some declarado =>
      if diferencia =? 0 then []
      else [AuditRecord.mk (Draws.auditId draws) (TurnoCaja.organizationId shift) (TurnoCaja.branchId shift)
          (CorteCaja.generatedByUserId corte) (TurnoCaja.stationId shift) "CASH_DIFFERENCE_AUDITED" "TURNO_CAJA"
          (TurnoCaja.id shift)
          (CashDifferenceDetails (TurnoCaja.id shift) (TurnoCaja.stationId shift) (TurnoCaja.shiftNumber shift)
             (scaledBigIntToDecimalString declarado) (scaledBigIntToDecimalString (CorteCaja.totalCalculado corte))
             (scaledBigIntToDecimalString diferencia))
          (Some "Descuadre de efectivo detectado en Arqueo Ciego / Corte Z") (CorteCaja.generatedAt corte) false]
  | _, _ => []
  end.

Lemma auditDifference_ok draws c sh s s' r :
  auditDifference draws c sh s = (s', Ok r) →
  s' = s <| Edge.db ::= (λ d, d <| Db.local_audit_trail ::= (λ l, l ++ difference_audit draws c sh) |>) |>.
Proof.
  unfold auditDifference, difference_audit, recordAudit. intros Hrun.
  assert (Hnil : s = s <| Edge.db ::= (λ d, d <| Db.local_audit_trail ::= (λ l, l ++ []) |>) |>).
  { destruct s as [[] ? ?]. unfold set. simpl. by rewrite app_nil_r. }
  destruct (CorteCaja.diferencia c) as [dif|]; [|txinv Hrun; exact Hnil].
  destruct (dif =? 0); [txinv Hrun; destruct (CorteCaja.totalDeclarado c); exact Hnil|].
  destruct (CorteCaja.totalDeclarado c); txinv Hrun; done.
Qed.
End ShiftFacts.

(** ** The ledger of a shift *)

Definition movements_on (Ms : list MovimientoCaja.t) (id : string) : list MovimientoCaja.t :=
  filter (λ m, MovimientoCaja.turnoCajaId m = id) Ms.
Definition cortes_on (Cs : list CorteRow.t) (id : string) : list CorteRow.t :=
  filter (λ c, CorteRow.turno_caja_id c = id) Cs.

(** the count of a closed shift: declared cash, expected cash and their difference *)
Definition counted (r : TurnoCajaRow.t) (cash : Z) : Prop :=
  ∃ declared, 0 <= declared ∧ TurnoCajaRow.closing_declared_cash r = Some declared ∧
    TurnoCajaRow.calculated_cash_total r = Some cash ∧
    TurnoCajaRow.cash_difference r = Some (declared - cash).

(** a shift agrees with its movements and its Corte Z *)
Definition shift_ok (id : string) (r : TurnoCajaRow.t) (Ms : list MovimientoCaja.t) (Cs : list CorteRow.t) : Prop :=
  let cash := expected_cash (TurnoCajaRow.opening_cash_float r) (movements_on Ms id) in
  match TurnoCajaRow.status r with
  | ABIERTO => TurnoCajaRow.closing_declared_cash r = None ∧ TurnoCajaRow.calculated_cash_total r = None ∧
      TurnoCajaRow.cash_difference r = None ∧ TurnoCajaRow.closed_at r = None ∧ cortes_on Cs id = []
  | CERRADO_ARQUEO => counted r cash ∧ TurnoCajaRow.closed_at r = None ∧ cortes_on Cs id = []
  | CORTE_Z_EMITIDO => counted r cash ∧ is_Some (TurnoCajaRow.closed_at r) ∧
      ∃ c, cortes_on Cs id = [c] ∧ CorteRow.tipo_corte c = CORTE_Z_TIPO ∧
        CorteRow.opening_cash_float c = TurnoCajaRow.opening_cash_float r ∧
        CorteRow.total_calculado c = cash ∧
        CorteRow.total_declarado c = TurnoCajaRow.closing_declared_cash r ∧
        CorteRow.diferencia c = TurnoCajaRow.cash_difference r
  end.

(** no two open shifts share organisation, branch and station *)
Definition one_open (T : gmap string TurnoCajaRow.t) : Prop :=
  ∀ id1 id2 r1 r2 k, T !! id1 = Some r1 → T !! id2 = Some r2 →
    SqliteShifts.activeKey r1 = Some k → SqliteShifts.activeKey r2 = Some k → id1 = id2.

Definition ledger_of (T : gmap string TurnoCajaRow.t) (Ms : list MovimientoCaja.t) (Cs : list CorteRow.t) : Prop :=
  (∀ id r, T !! id = Some r → shift_ok id r Ms Cs) ∧
  (∀ m, m ∈ Ms → is_Some (T !! MovimientoCaja.turnoCajaId m)) ∧
  (∀ c, c ∈ Cs → is_Some (T !! CorteRow.turno_caja_id c)) ∧ one_open T.

Definition ledger (d : Db.t) : Prop := ledger_of (Db.turnos_caja d) (Db.movimientos_caja d) (Db.cortes_caja d).

Lemma filter_owned {A} (key : A → string) id id' l l' :
  (∀ x, x ∈ l' → key x = id) → id' ≠ id →
  filter (λ x, key x = id') (l ++ l') = filter (λ x, key x = id') l.
Proof.
  intros Hl Hne. rewrite filter_app. rewrite (filter_none (λ x, key x = id') l'); [by rewrite app_nil_r|].
  intros x Hx Hk. apply Hl in Hx. congruence.
Qed.

Lemma one_open_insert T id r :
  one_open T → SqliteShifts.station_taken T id r = false → one_open (<[id := r]> T).
Proof.
  intros Hone Hfree.
  assert (Hother : ∀ id' r' k, id' ≠ id → T !! id' = Some r' → SqliteShifts.activeKey r = Some k →
                   SqliteShifts.activeKey r' ≠ Some k).
  { intros id' r' k Hne Hr' Hk Hk'. unfold SqliteShifts.station_taken in Hfree. rewrite Hk in Hfree.
    apply bool_decide_eq_false in Hfree. apply Hfree, Exists_exists. exists (id', r').
    split; [by apply elem_of_map_to_list|done]. }
  intros id1 id2 r1 r2 k H1 H2 K1 K2.
  apply lookup_insert_Some in H1 as [[<- <-]|[N1 H1]], H2 as [[<- <-]|[N2 H2]]; [done|..|eauto].
  - destruct (Hother id2 r2 k); done.
  - destruct (Hother id1 r1 k); done.
Qed.

(** writing one shift with movements and cortes of its own *)
Lemma ledger_write id r T Ms Cs ms cs :
  ledger_of T Ms Cs → (∀ m, m ∈ ms → MovimientoCaja.turnoCajaId m = id) →
  (∀ c, c ∈ cs → CorteRow.turno_caja_id c = id) → SqliteShifts.station_taken T id r = false →
  shift_ok id r (Ms ++ ms) (Cs ++ cs) → ledger_of (<[id := r]> T) (Ms ++ ms) (Cs ++ cs).
Proof.
  intros (Hok & Hm & Hc & Hone) Hms Hcs Hfree Hr. split_and!.
  - intros id' r' [[<- <-]|[Hne Hl]]%lookup_insert_Some; [done|]. specialize (Hok _ _ Hl).
    unfold shift_ok, movements_on, cortes_on in *.
    rewrite (filter_owned _ id) by (done || congruence). rewrite (filter_owned _ id) by (done || congruence). done.
  - intros m [Hin|Hin]%elem_of_app; apply lookup_insert_is_Some'; [right; auto|left; symmetry; auto].
  - intros c [Hin|Hin]%elem_of_app; apply lookup_insert_is_Some'; [right; auto|left; symmetry; auto].
  - by apply one_open_insert.
Qed.

Lemma ledger_write_row id r T Ms Cs :
  ledger_of T Ms Cs → SqliteShifts.station_taken T id r = false → shift_ok id r Ms Cs →
  ledger_of (<[id := r]> T) Ms Cs.
Proof.
  intros Hl Hfree Hr. pose proof (ledger_write id r T Ms Cs [] []) as Hw. rewrite !app_nil_r in Hw.
  apply Hw; try done; by intros ? ?%not_elem_of_nil.
Qed.

(** the ledger does not depend on the other tables *)
Lemma ledger_eq d d' :
  Db.turnos_caja d' = Db.turnos_caja d → Db.movimientos_caja d' = Db.movimientos_caja d →
  Db.cortes_caja d' = Db.cortes_caja d → ledger d → ledger d'.
Proof. unfold ledger. by intros -> -> ->. Qed.

Lemma ledger_empty : ledger Db.empty.
Proof. split_and!; [intros ? ? Hl; discriminate Hl|by intros ? ?%not_elem_of_nil..|intros ? ? ? ? ? Hl; discriminate Hl]. Qed.

Lemma expected_cash_perm opening ms ms' : ms ≡ₚ ms' → expected_cash opening ms = expected_cash opening ms'.
Proof. unfold expected_cash. by intros ->. Qed.

Lemma selectMovements_perm d id : SqliteShifts.selectMovements d id ≡ₚ movements_on (Db.movimientos_caja d) id.
Proof. apply orderBy_permutation. Qed.

(** *** Effects of the five writes *)

Section writes.
Import SqliteShifts ShiftFacts.
Implicit Types s : Edge.t.

Lemma addMovement_ok m sh v s s' r :
  addMovement m sh v s = (s', Ok r) → TurnoCaja.id sh = MovimientoCaja.turnoCajaId m →
  ∃ old, let row := old <| TurnoCajaRow.version := TurnoCaja.version sh |>
                        <| TurnoCajaRow.updated_at := TurnoCaja.updatedAt sh |> in
    r = m ∧ Db.turnos_caja (Edge.db s) !! TurnoCaja.id sh = Some old ∧ TurnoCajaRow.version old = v ∧
    station_taken (Db.turnos_caja (Edge.db s)) (TurnoCaja.id sh) row = false ∧
    MovimientoCaja.id m ∉ (MovimientoCaja.id <$> Db.movimientos_caja (Edge.db s)) ∧
    Edge.db s' = (Edge.db s) <| Db.turnos_caja ::= <[TurnoCaja.id sh := row]> |>
                             <| Db.movimientos_caja ::= (λ l, l ++ [m]) |>.
Proof.
  unfold addMovement. intros (Htx & s1 & Hrun & Hdb & _)%runInTransaction_ok Hid. minv Hrun.
  match goal with Hu : updateShiftRow _ _ _ _ = _ |- _ => apply updateShiftRow_ok in Hu as (old & Hl & Hv & Hfree & ->) end.
  match goal with Hi : insertMovimiento _ _ = _ |- _ => apply insertMovimiento_ok in Hi as (Hm & _ & ->) end.
  exists old. split_and!; done.
Qed.

Lemma saveArqueo_ok a sh v s s' r :
  saveArqueoCiego a sh v s = (s', Ok r) →
  ∃ old, let row := old <| TurnoCajaRow.closing_declared_cash := TurnoCaja.closingDeclaredCash sh |>
        <| TurnoCajaRow.calculated_cash_total := TurnoCaja.calculatedCashTotal sh |>
        <| TurnoCajaRow.cash_difference := TurnoCaja.cashDifference sh |>
        <| TurnoCajaRow.status := TurnoCaja.status sh |>
        <| TurnoCajaRow.version := TurnoCaja.version sh |>
        <| TurnoCajaRow.updated_at := TurnoCaja.updatedAt sh |> in
    r = a ∧ Db.turnos_caja (Edge.db s) !! TurnoCaja.id sh = Some old ∧ TurnoCajaRow.version old = v ∧
    station_taken (Db.turnos_caja (Edge.db s)) (TurnoCaja.id sh) row = false ∧
    Edge.db s' = (Edge.db s) <| Db.turnos_caja ::= <[TurnoCaja.id sh := row]> |>
                             <| Db.arqueos_ciegos ::= (λ l, l ++ [a]) |>.
Proof.
  unfold saveArqueoCiego. intros (Htx & s1 & Hrun & Hdb & _)%runInTransaction_ok. minv Hrun.
  match goal with Hu : updateShiftRow _ _ _ _ = _ |- _ => apply updateShiftRow_ok in Hu as (old & Hl & Hv & Hfree & ->) end.
  match goal with Hi : insertArqueo _ _ = _ |- _ => apply insertArqueo_ok in Hi as -> end.
  exists old. split_and!; done.
Qed.

Lemma saveShift_update_ok sh v s s' r :
  v ≠ 0 → saveShift sh v s = (s', Ok r) →
  ∃ old rows, let row := old <| TurnoCajaRow.closing_declared_cash := TurnoCaja.closingDeclaredCash sh |>
        <| TurnoCajaRow.calculated_cash_total := TurnoCaja.calculatedCashTotal sh |>
        <| TurnoCajaRow.cash_difference := TurnoCaja.cashDifference sh |>
        <| TurnoCajaRow.status := TurnoCaja.status sh |>
        <| TurnoCajaRow.closed_at := TurnoCaja.closedAt sh |>
        <| TurnoCajaRow.version := TurnoCaja.version sh |>
        <| TurnoCajaRow.updated_at := TurnoCaja.updatedAt sh |> in
    r = sh ∧ Db.turnos_caja (Edge.db s) !! TurnoCaja.id sh = Some old ∧ TurnoCajaRow.version old = v ∧
    station_taken (Db.turnos_caja (Edge.db s)) (TurnoCaja.id sh) row = false ∧
    Edge.db s' = (Edge.db s) <| Db.turnos_caja ::= <[TurnoCaja.id sh := row]> |>
                             <| Db.turnos_caja_operadores := rows |>.
Proof.
  unfold saveShift, check_tenant. intros Hv Hrun. rewrite (proj2 (Z.eqb_neq v 0) Hv) in Hrun. minv Hrun.
  apply runInTransaction_ok in Hrun as (Htx & s1 & Hrun & Hdb & _). minv Hrun.
  match goal with Hu : updateShiftRow _ _ _ _ = _ |- _ => apply updateShiftRow_ok in Hu as (old & Hl & Hver & Hfree & ->) end.
  match goal with Hi : for_each _ _ _ = _ |- _ => apply insertOperators_ok in Hi as [rows ->] end.
  exists old, rows. split_and!; done.
Qed.

Lemma saveShift_insert_ok sh s s' r :
  saveShift sh 0 s = (s', Ok r) →
  ∃ rows, r = sh ∧ Db.turnos_caja (Edge.db s) !! TurnoCaja.id sh = None ∧
    station_taken (Db.turnos_caja (Edge.db s)) (TurnoCaja.id sh) (shiftToRow sh) = false ∧
    Edge.inTransaction s' = false ∧
    Edge.db s' = (Edge.db s) <| Db.turnos_caja ::= <[TurnoCaja.id sh := shiftToRow sh]> |>
                             <| Db.turnos_caja_operadores := rows |>.
Proof.
  unfold saveShift, check_tenant, getShiftById. intros Hrun. txinv Hrun; [|done].
  unfold catch in *. match goal with Hc : match ?m with _ => _ end = _ |- _ => destruct m as [s1 [u|e]] eqn:Htx; [|rewrite run_throw in Hc; discriminate Hc] end.
  simplify_eq. apply runInTransaction_ok in Htx as (Hin & s2 & Hrun & Hdb & Hout). unfold writeShiftRow in Hrun. txinv Hrun.
  apply insertOperators_ok in Hrun as [rows ->]. exists rows. split_and!; try done.
  revert Hguard1. unfold selectShift. destruct (_ !! _); [|done]. intros Hno%bool_decide_eq_false.
  destruct Hno. by eexists.
Qed.

Lemma saveCorteZ_ok draws hook c sh v s s' r :
  saveCorteZ draws hook c sh v s = (s', Ok r) →
  ∃ old, let row := old <| TurnoCajaRow.status := TurnoCaja.status sh |>
        <| TurnoCajaRow.closed_at := TurnoCaja.closedAt sh |>
        <| TurnoCajaRow.version := TurnoCaja.version sh |>
        <| TurnoCajaRow.updated_at := TurnoCaja.updatedAt sh |> in
    r = c ∧ hook c = None ∧ Edge.inTransaction s' = false ∧
    Db.turnos_caja (Edge.db s) !! TurnoCaja.id sh = Some old ∧ TurnoCajaRow.version old = v ∧
    station_taken (Db.turnos_caja (Edge.db s)) (TurnoCaja.id sh) row = false ∧
    valid_event (corteEvent draws c sh) ∧
    Edge.db s' = (Edge.db s) <| Db.turnos_caja ::= <[TurnoCaja.id sh := row]> |>
      <| Db.cortes_caja ::= (λ l, l ++ [corteToRow c]) |>
      <| Db.local_audit_trail ::= (λ l, l ++ difference_audit draws c sh) |>
      <| Db.outbox_queue ::= (λ l, l ++ [outbox_row (Draws.outboxCreatedAt draws) (corteEvent draws c sh)]) |>.
Proof.
  unfold saveCorteZ, check_tenant. intros Hrun. minv Hrun.
  apply runInTransaction_ok in Hrun as (Htx & s1 & Hrun & Hdb & Hout). minv Hrun.
  match goal with Hu : updateShiftRow _ _ _ _ = _ |- _ => apply updateShiftRow_ok in Hu as (old & Hl & Hver & Hfree & ->) end.
  match goal with Hi : insertCorte _ _ = _ |- _ => apply insertCorte_ok in Hi as -> end.
  match goal with Hi : auditDifference _ _ _ _ = _ |- _ => apply auditDifference_ok in Hi as -> end.
  match goal with Hi : enqueue _ _ _ = _ |- _ => apply enqueue_ok in Hi as (_ & Hev & _ & _ & ->) end.
  exists old. split_and!; done.
Qed.
End writes.

(** ** The ledger machine *)

Definition edited (r : TurnoCajaRow.t) (now : string) : TurnoCajaRow.t :=
  r <| TurnoCajaRow.version := TurnoCajaRow.version r + 1 |> <| TurnoCajaRow.updated_at := now |>.
Definition counted_row (r : TurnoCajaRow.t) (declared cash : Z) (now : string) : TurnoCajaRow.t :=
  (edited r now) <| TurnoCajaRow.status := CERRADO_ARQUEO |> <| TurnoCajaRow.closing_declared_cash := Some declared |>
    <| TurnoCajaRow.calculated_cash_total := Some cash |> <| TurnoCajaRow.cash_difference := Some (declared - cash) |>.
Definition frozen_row (r : TurnoCajaRow.t) (now : string) : TurnoCajaRow.t :=
  (edited r now) <| TurnoCajaRow.status := CORTE_Z_EMITIDO |> <| TurnoCajaRow.closed_at := Some now |>.

(** what the product allows on the shifts [T], their movements [Ms] and cortes [Cs] *)
Inductive ledger_step (T : gmap string TurnoCajaRow.t) (Ms : list MovimientoCaja.t) (Cs : list CorteRow.t) :
    gmap string TurnoCajaRow.t → list MovimientoCaja.t → list CorteRow.t → Prop :=
| ledger_open id row ms
    (Hnew : T !! id = None) (Hopen : TurnoCajaRow.status row = ABIERTO) (Hversion : TurnoCajaRow.version row = 1)
    (Hfloat : 0 <= TurnoCajaRow.opening_cash_float row)
    (Hclean : TurnoCajaRow.closing_declared_cash row = None ∧ TurnoCajaRow.calculated_cash_total row = None ∧
              TurnoCajaRow.cash_difference row = None ∧ TurnoCajaRow.closed_at row = None)
    (Hfree : SqliteShifts.station_taken T id row = false)
    (Hms : ∀ m, m ∈ ms → MovimientoCaja.turnoCajaId m = id ∧ MovimientoCaja.movementType m = FONDO_INICIAL ∧
                         MovimientoCaja.amount m = TurnoCajaRow.opening_cash_float row) :
    ledger_step T Ms Cs (<[id := row]> T) (Ms ++ ms) Cs
| ledger_edit id r now ms
    (Hold : T !! id = Some r) (Hopen : TurnoCajaRow.status r = ABIERTO)
    (Hms : ∀ m, m ∈ ms → MovimientoCaja.turnoCajaId m = id ∧ 0 < MovimientoCaja.amount m) :
    ledger_step T Ms Cs (<[id := edited r now]> T) (Ms ++ ms) Cs
| ledger_count id r declared now
    (Hold : T !! id = Some r) (Hopen : TurnoCajaRow.status r = ABIERTO) (Hdeclared : 0 <= declared) :
    ledger_step T Ms Cs
      (<[id := counted_row r declared
                 (expected_cash (TurnoCajaRow.opening_cash_float r) (movements_on Ms id)) now]> T) Ms Cs
| ledger_freeze id r now c
    (Hold : T !! id = Some r) (Hcounted : TurnoCajaRow.status r = CERRADO_ARQUEO)
    (Hc : CorteRow.turno_caja_id c = id ∧ CorteRow.tipo_corte c = CORTE_Z_TIPO ∧
          CorteRow.opening_cash_float c = TurnoCajaRow.opening_cash_float r ∧
          CorteRow.total_calculado c = expected_cash (TurnoCajaRow.opening_cash_float r) (movements_on Ms id) ∧
          CorteRow.total_declarado c = TurnoCajaRow.closing_declared_cash r ∧
          CorteRow.diferencia c = TurnoCajaRow.cash_difference r) :
    ledger_step T Ms Cs (<[id := frozen_row r now]> T) Ms (Cs ++ [c])
| ledger_idle : ledger_step T Ms Cs T Ms Cs.

Lemma station_kept T id r r' :
  one_open T → T !! id = Some r → SqliteShifts.activeKey r' = SqliteShifts.activeKey r →
  SqliteShifts.station_taken T id r' = false.
Proof.
  intros Hone Hr Hk. unfold SqliteShifts.station_taken. rewrite Hk.
  destruct (SqliteShifts.activeKey r) as [k|] eqn:Hkr; [|done]. apply bool_decide_eq_false.
  intros ((id' & r2) & Hin%elem_of_map_to_list & Hne & Hk2)%Exists_exists. eauto.
Qed.

Lemma shift_ok_same id r r' Ms ms Cs :
  shift_ok id r Ms Cs → TurnoCajaRow.status r = ABIERTO → TurnoCajaRow.status r' = ABIERTO →
  TurnoCajaRow.closing_declared_cash r' = TurnoCajaRow.closing_declared_cash r →
  TurnoCajaRow.calculated_cash_total r' = TurnoCajaRow.calculated_cash_total r →
  TurnoCajaRow.cash_difference r' = TurnoCajaRow.cash_difference r →
  TurnoCajaRow.closed_at r' = TurnoCajaRow.closed_at r → shift_ok id r' (Ms ++ ms) Cs.
Proof. unfold shift_ok. intros Hok Hs Hs' -> -> -> ->. rewrite Hs in Hok. by rewrite Hs'. Qed.

Lemma ledger_step_ok T Ms Cs T' Ms' Cs' :
  ledger_step T Ms Cs T' Ms' Cs' → ledger_of T Ms Cs → ledger_of T' Ms' Cs'.
Proof.
  intros Hstep Hl. pose proof Hl as (Hok & Hm & Hc & Hone). destruct Hstep.
  - rewrite <- (app_nil_r Cs). apply ledger_write; [done|naive_solver|by intros ? ?%not_elem_of_nil|done|].
    rewrite app_nil_r. unfold shift_ok. rewrite Hopen. destruct Hclean as (-> & -> & -> & ->).
    split_and!; [done..|]. apply filter_none. intros c Hin Hid. apply Hc in Hin as [? Hin]. congruence.
  - rewrite <- (app_nil_r Cs). apply ledger_write; [done|naive_solver|by intros ? ?%not_elem_of_nil|..].
    + by eapply station_kept.
    + rewrite app_nil_r. by eapply shift_ok_same; [apply Hok|..].
  - apply ledger_write_row; [done|done|]. specialize (Hok _ _ Hold). unfold shift_ok in *. rewrite Hopen in Hok. simpl.
    split_and!; try naive_solver. by exists declared.
  - pose proof (ledger_write id (frozen_row r now) T Ms Cs [] [c]) as Hw. rewrite !app_nil_r in Hw.
    apply Hw; [done|by intros ? ?%not_elem_of_nil| |done|].
    + intros x ->%list_elem_of_singleton. naive_solver.
    + specialize (Hok _ _ Hold). unfold shift_ok in *. rewrite Hcounted in Hok. simpl.
      destruct Hok as (Hcount & _ & Hnone). split_and!; [done|by eexists|].
      exists c. split; [|naive_solver]. unfold cortes_on in *. rewrite filter_app, Hnone. simpl.
      rewrite filter_cons, decide_True by naive_solver. done.
  - done.
Qed.

(** a shift along the machine: its identity never changes and its status never goes back *)
Definition rank (st : TurnoCajaStatus) : Z :=
  match st with ABIERTO => 0 | CERRADO_ARQUEO => 1 | CORTE_Z_EMITIDO => 2 end.

Definition shift_identity (r : TurnoCajaRow.t) :=
  (TurnoCajaRow.organization_id r, TurnoCajaRow.branch_id r, TurnoCajaRow.station_id r,
   TurnoCajaRow.responsible_user_id r, TurnoCajaRow.opened_by_user_id r, TurnoCajaRow.shift_number r,
   TurnoCajaRow.opening_cash_float r, TurnoCajaRow.opened_at r).

(** what later states may differ in from a shift [r] *)
Definition shift_since (id : string) (r : TurnoCajaRow.t) (ms : list MovimientoCaja.t) (cs : list CorteRow.t)
    (T : gmap string TurnoCajaRow.t) (Ms : list MovimientoCaja.t) (Cs : list CorteRow.t) : Prop :=
  ∃ r', T !! id = Some r' ∧ shift_identity r' = shift_identity r ∧
    rank (TurnoCajaRow.status r) <= rank (TurnoCajaRow.status r') ∧
    TurnoCajaRow.version r <= TurnoCajaRow.version r' ∧
    (TurnoCajaRow.status r ≠ ABIERTO →
       movements_on Ms id = ms ∧
       TurnoCajaRow.closing_declared_cash r' = TurnoCajaRow.closing_declared_cash r ∧
       TurnoCajaRow.calculated_cash_total r' = TurnoCajaRow.calculated_cash_total r ∧
       TurnoCajaRow.cash_difference r' = TurnoCajaRow.cash_difference r) ∧
    (TurnoCajaRow.status r = CORTE_Z_EMITIDO → r' = r ∧ cortes_on Cs id = cs).

Lemma shift_since_step id r ms cs T Ms Cs T' Ms' Cs' :
  ledger_step T Ms Cs T' Ms' Cs' → shift_since id r ms cs T Ms Cs → shift_since id r ms cs T' Ms' Cs'.
Proof.
  intros Hstep (r1 & H1 & Hid & Hrank & Hver & Hfix & Hz). unfold shift_since.
  assert (Hst : ∀ st, TurnoCajaRow.status r1 = st → st ≠ CORTE_Z_EMITIDO → TurnoCajaRow.status r ≠ CORTE_Z_EMITIDO).
  { intros st E Hne E'. rewrite E' in Hrank. destruct st; rewrite E in Hrank; simpl in Hrank; done. }
  assert (Hop : TurnoCajaRow.status r1 = ABIERTO → TurnoCajaRow.status r = ABIERTO).
  { intros E. rewrite E in Hrank. destruct (TurnoCajaRow.status r); done. }
  destruct Hstep as [i row xs Hnew|i x now xs Hold Ho Hms|i x dec now Hold Ho|i x now c Hold Ho Hc|].
  - assert (i ≠ id) by congruence. exists r1. rewrite lookup_insert_ne by done. split_and!; try done.
    intros Hne. unfold movements_on. rewrite (filter_owned _ i) by naive_solver. by apply Hfix.
  - destruct (decide (i = id)) as [->|Hne].
    + assert (x = r1) as -> by congruence. rewrite lookup_insert_eq. exists (edited r1 now). split_and!; try done; simpl; try lia.
      * intros Hno. by destruct (Hno (Hop Ho)).
      * intros Hz'. by destruct (Hst _ Ho ltac:(done)).
    + exists r1. rewrite lookup_insert_ne by done. split_and!; try done.
      intros Hno. unfold movements_on. rewrite (filter_owned _ i) by naive_solver. by apply Hfix.
  - destruct (decide (i = id)) as [->|Hne].
    + assert (x = r1) as -> by congruence. rewrite lookup_insert_eq. eexists. split; [done|]. split_and!; simpl; try done; try lia.
      * rewrite (Hop Ho). simpl. lia.
      * intros Hno. by destruct (Hno (Hop Ho)).
      * intros Hz'. by destruct (Hst _ Ho ltac:(done)).
    + exists r1. rewrite lookup_insert_ne by done. split_and!; done.
  - destruct (decide (i = id)) as [->|Hne].
    + assert (x = r1) as -> by congruence. rewrite lookup_insert_eq. eexists. split; [done|]. split_and!; simpl; try done; try lia.
      * destruct (TurnoCajaRow.status r); simpl; lia.
      * intros Hz'. by destruct (Hst _ Ho ltac:(done)).
    + exists r1. rewrite lookup_insert_ne by done. split_and!; try done.
      intros Hz'. destruct (Hz Hz') as [-> Hcs]. split; [done|]. unfold cortes_on.
      rewrite (filter_owned _ i); [done| |done]. intros y ->%list_elem_of_singleton. naive_solver.
  - exists r1. split_and!; done.
Qed.

(** ** The service over SQLite *)

Inductive ShiftCommand :=
| Abrir (now shiftId movementId : string) (c : AbrirTurno.t)
| Agregar (now : string) (c : AgregarOperador.t)
| Registrar (now movementId : string) (c : RegistrarMovimiento.t)
| CorteX (now corteId : string) (c : GenerarCorteX.t)
| Arqueo (now arqueoId : string) (c : RealizarArqueoCiego.t)
| CorteZ (now corteId : string) (draws : SqliteShifts.Draws.t) (hook : CorteCaja.t → option PosError)
    (c : GenerarCorteZ.t).

Definition no_draws : SqliteShifts.Draws.t := SqliteShifts.Draws.mk "" "" "" "".
Definition no_hook (c : CorteCaja.t) : option PosError := None.

(** the adapter's draws and hook matter only to a Corte Z *)
Definition adapter_of (c : ShiftCommand) : CashShiftRepositoryPort Edge.t :=
  match c with
  | CorteZ _ _ draws hook _ => SqliteCashShiftRepository draws hook
  | _ => SqliteCashShiftRepository no_draws no_hook
  end.

Section service.
Context {V : IamPinValidatorPort} {St : ShiftAssignmentStrategy}.
Implicit Types s : Edge.t.

Definition runShift (c : ShiftCommand) : Tx unit :=
  let R := adapter_of c in
  match c with
  | Abrir now shiftId movementId c => abrirTurno now shiftId movementId c ;; mret tt
  | Agregar now c => agregarOperador now c ;; mret tt
  | Registrar now movementId c => registrarMovimiento now movementId c ;; mret tt
  | CorteX now corteId c => generarCorteX now corteId c ;; mret tt
  | Arqueo now arqueoId c => realizarArqueoCiego now arqueoId c ;; mret tt
  | CorteZ now corteId _ _ c => generarCorteZ now corteId c ;; mret tt
  end.

Definition db_step (d d' : Db.t) : Prop :=
  ledger_step (Db.turnos_caja d) (Db.movimientos_caja d) (Db.cortes_caja d)
    (Db.turnos_caja d') (Db.movimientos_caja d') (Db.cortes_caja d').

Lemma selectShift_Some d id sh :
  SqliteShifts.selectShift d id = Some sh →
  ∃ row, Db.turnos_caja d !! id = Some row ∧
    sh = SqliteShifts.mapTurnoRow id row (SqliteShifts.selectOperators d id).
Proof. unfold SqliteShifts.selectShift. destruct (_ !! _) as [row|]; [|done]. intros [= <-]. by exists row. Qed.

Lemma requirePin_reads u p st s s' r : requirePin (S := Edge.t) u p st s = (s', r) → s' = s.
Proof.
  unfold requirePin, throw_when. destruct (truthy p); [|by intros [= <- _]].
  repeat case_match; by intros [= <- _].
Qed.

(** inverts a successful run of the shift service over SQLite *)
Ltac shift_inv H :=
  unfold check_shift_version, require_open in H;
  cbn [getActiveShift getShiftById saveShift addMovement listMovements saveArqueoCiego saveCorteZ
       adapter_of SqliteCashShiftRepository] in H;
  unfold SqliteShifts.getActiveShift, SqliteShifts.getShiftById, SqliteShifts.listMovements in H; txinv H;
  repeat match goal with
  | H' : requirePin _ _ _ _ = (_, Ok _) |- _ => apply requirePin_reads in H'; subst
  | H' : SqliteShifts.selectShift _ _ = Some _ |- _ =>
      let row := fresh "row" in let Hrow := fresh "Hrow" in
      apply selectShift_Some in H' as (row & Hrow & ->)
  end; simpl_guards.

(** forgets how the breakdown is computed but for its total *)
Ltac name_breakdown :=
  match goal with H : context [computeBreakdown ?o ?ms] |- _ =>
    let Hb := fresh "Hb" in
    pose proof (computeBreakdown_total o ms) as Hb; set (breakdown := computeBreakdown o ms) in *;
    clearbody breakdown end.

Lemma ledger_edit0 id r now T Ms Cs :
  T !! id = Some r → TurnoCajaRow.status r = ABIERTO → ledger_step T Ms Cs (<[id := edited r now]> T) Ms Cs.
Proof.
  intros Hr Ho. pose proof (ledger_edit T Ms Cs id r now [] Hr Ho) as Hs. rewrite app_nil_r in Hs.
  apply Hs. by intros ? ?%not_elem_of_nil.
Qed.

Lemma agregar_step now c s s' r :
  @agregarOperador Edge.t (SqliteCashShiftRepository no_draws no_hook) V St now c s = (s', Ok r) →
  db_step (Edge.db s) (Edge.db s').
Proof.
  unfold agregarOperador. intros Hrun. shift_inv Hrun; [constructor|]. simpl in *.
  destruct (decide (TurnoCajaRow.version row = 0)) as [Hv|Hv].
  { rewrite Hv in Hrun. apply saveShift_insert_ok in Hrun as (rows & _ & Hnone & _). simpl in Hnone. congruence. }
  apply saveShift_update_ok in Hrun as (old & rows & _ & Hold & _ & _ & Hdb); [|done]. simpl in Hold.
  assert (old = row) as -> by congruence. unfold db_step. rewrite Hdb. simpl.
  replace (set TurnoCajaRow.updated_at _ _) with (edited row now) by by destruct row.
  by apply ledger_edit0.
Qed.

Lemma registrar_step now mid c s s' r :
  @registrarMovimiento Edge.t (SqliteCashShiftRepository no_draws no_hook) V St now mid c s = (s', Ok r) →
  db_step (Edge.db s) (Edge.db s').
Proof.
  unfold registrarMovimiento. intros Hrun. shift_inv Hrun. simpl in *.
  match goal with Ha : SqliteShifts.addMovement _ _ _ _ = _ |- _ =>
    apply addMovement_ok in Ha as (old & _ & Hold & _ & _ & _ & Hdb); [|done] end. simpl in Hold.
  assert (old = row) as -> by congruence. unfold db_step. rewrite Hdb. simpl.
  apply (ledger_edit _ _ _ _ row now); [done|done|]. intros m ->%list_elem_of_singleton. simpl. split; [done|lia].
Qed.

Lemma arqueo_step now aid c s s' r :
  @realizarArqueoCiego Edge.t (SqliteCashShiftRepository no_draws no_hook) V St now aid c s = (s', Ok r) →
  db_step (Edge.db s) (Edge.db s').
Proof.
  unfold realizarArqueoCiego. intros Hrun. shift_inv Hrun. name_breakdown. simpl in *.
  match goal with Ha : SqliteShifts.saveArqueoCiego _ _ _ _ = _ |- _ =>
    apply saveArqueo_ok in Ha as (old & _ & Hold & _ & _ & Hdb) end. simpl in Hold.
  assert (old = row) as -> by congruence. unfold db_step. rewrite Hdb. simpl.
  rewrite Hb, (expected_cash_perm _ _ _ (selectMovements_perm _ _)).
  apply (ledger_count _ _ _ _ row (RealizarArqueoCiego.declaredCash c) now); [done|done|lia].
Qed.

Lemma corteZ_step now cid draws hook c s s' r :
  @generarCorteZ Edge.t (SqliteCashShiftRepository draws hook) V St now cid c s = (s', Ok r) →
  db_step (Edge.db s) (Edge.db s').
Proof.
  unfold generarCorteZ. intros Hrun. shift_inv Hrun. name_breakdown. simpl in *.
  match goal with Ha : SqliteShifts.saveCorteZ _ _ _ _ _ _ = _ |- _ =>
    apply saveCorteZ_ok in Ha as (old & _ & _ & _ & Hold & _ & _ & _ & Hdb) end. simpl in Hold.
  assert (old = row) as -> by congruence. unfold db_step. rewrite Hdb. simpl.
  apply (ledger_freeze _ _ _ _ row now); [done|done|]. simpl.
  by rewrite Hb, (expected_cash_perm _ _ _ (selectMovements_perm _ _)).
Qed.

Lemma requirePin_readonly u p st : readonly (requirePin (S := Edge.t) u p st).
Proof. unfold requirePin. solve_atomic. Qed.

Lemma catch_atomic {A} (m : Tx A) h : atomic m → (∀ e, readonly (h e)) → atomic (catch m h).
Proof.
  intros Hm Hh s s' e Htx. unfold catch. destruct (m s) as [s1 [a|e1]] eqn:He; [done|].
  intros He'. apply Hh in He' as ->. by eapply Hm.
Qed.

Hint Resolve requirePin_readonly catch_atomic : effects.

Lemma saveShift_atomic sh v : atomic (SqliteShifts.saveShift sh v).
Proof. unfold SqliteShifts.saveShift, SqliteShifts.check_tenant, SqliteShifts.getShiftById. solve_atomic. Qed.

Lemma addMovement_atomic m sh v : atomic (SqliteShifts.addMovement m sh v).
Proof. unfold SqliteShifts.addMovement. solve_atomic. Qed.

Lemma saveArqueo_atomic a sh v : atomic (SqliteShifts.saveArqueoCiego a sh v).
Proof. unfold SqliteShifts.saveArqueoCiego. solve_atomic. Qed.

Lemma saveCorteZ_atomic draws hook c sh v : atomic (SqliteShifts.saveCorteZ draws hook c sh v).
Proof. unfold SqliteShifts.saveCorteZ, SqliteShifts.check_tenant. solve_atomic. Qed.

Hint Resolve saveShift_atomic addMovement_atomic saveArqueo_atomic saveCorteZ_atomic : effects.

Lemma ledger_open0 id row T Ms Cs :
  T !! id = None → TurnoCajaRow.status row = ABIERTO → TurnoCajaRow.version row = 1 →
  0 <= TurnoCajaRow.opening_cash_float row →
  TurnoCajaRow.closing_declared_cash row = None ∧ TurnoCajaRow.calculated_cash_total row = None ∧
    TurnoCajaRow.cash_difference row = None ∧ TurnoCajaRow.closed_at row = None →
  SqliteShifts.station_taken T id row = false → ledger_step T Ms Cs (<[id := row]> T) Ms Cs.
Proof.
  intros. pose proof (ledger_open T Ms Cs id row []) as Hs. rewrite app_nil_r in Hs.
  apply Hs; try done. by intros ? ?%not_elem_of_nil.
Qed.

(** the opening of a shift, with or without the movement of its float *)
Lemma abrir_step now sid mid c s s' res :
  Edge.inTransaction s = false →
  @abrirTurno Edge.t (SqliteCashShiftRepository no_draws no_hook) V St now sid mid c s = (s', res) →
  db_step (Edge.db s) (Edge.db s').
Proof.
  intros Htx. unfold abrirTurno.
  cbn [getActiveShift saveShift addMovement SqliteCashShiftRepository].
  unfold SqliteShifts.getActiveShift. mrun. repeat (case_match; [intros [= <- _]; constructor|]).
  destruct (Z.ltb_spec (AbrirTurno.openingCashFloat c) 0) as [|Hf]; [intros [= <- _]; constructor|]. intros Hrun.
  run_head Hrun Hp; apply requirePin_reads in Hp; subst; [|constructor].
  run_head Hrun Hs; [|subst; unfold db_step; rewrite (saveShift_atomic _ _ _ _ _ Htx Hs); constructor].
  apply saveShift_insert_ok in Hs as (rows & -> & Hnew & Hfree & Htx1 & Hdb). simpl in Hnew, Hfree, Hdb.
  match type of Hdb with Edge.db ?s1 = _ => assert (Hopened : db_step (Edge.db s) (Edge.db s1)) end.
  { unfold db_step. rewrite Hdb. by apply ledger_open0. }
  destruct (0 <? _); [|mrun in Hrun; by injection Hrun as <- _]. rewrite bind_assoc in Hrun.
  run_head Hrun Hm; [|subst; unfold db_step; by rewrite (addMovement_atomic _ _ _ _ _ _ Htx1 Hm)].
  apply addMovement_ok in Hm as (old & _ & Hold & _ & _ & _ & Hdb2); [|done].
  mrun in Hrun. injection Hrun as <- _. unfold db_step. rewrite Hdb2, Hdb in *. simpl in Hold |- *.
  rewrite lookup_insert_eq in Hold. injection Hold as <-. rewrite insert_insert_eq.
  apply ledger_open; simpl; try done. by intros m ->%list_elem_of_singleton.
Qed.

(** the other operations leave the tables as they were when they fail *)
Lemma shift_error_atomic c s s' e :
  Edge.inTransaction s = false → runShift c s = (s', Err e) →
  match c with Abrir _ _ _ _ => True | _ => Edge.db s' = Edge.db s end.
Proof.
  intros Htx Hrun. assert (Hat : match c with Abrir _ _ _ _ => True | _ => atomic (runShift c) end).
  { destruct c; try done; unfold runShift, agregarOperador, registrarMovimiento, generarCorteX, realizarArqueoCiego,
      generarCorteZ, check_shift_version, require_open;
      cbn [getActiveShift getShiftById saveShift addMovement listMovements saveArqueoCiego saveCorteZ
           adapter_of SqliteCashShiftRepository];
      unfold SqliteShifts.getActiveShift, SqliteShifts.getShiftById, SqliteShifts.listMovements; solve_atomic. }
  destruct c; try done; by eapply Hat.
Qed.

Lemma catch_settled {A} (m : Tx A) h : settled m → (∀ e, readonly (h e)) → settled (catch m h).
Proof.
  intros Hm Hh s s' r Htx. unfold catch. destruct (m s) as [s1 [a|e]] eqn:He.
  - intros [= <- _]. by eapply Hm.
  - intros He'. apply Hh in He' as ->. by eapply Hm.
Qed.

Hint Resolve catch_settled : effects.

Lemma runShift_settled c : settled (runShift c).
Proof.
  destruct c; unfold runShift, abrirTurno, agregarOperador, registrarMovimiento, generarCorteX, realizarArqueoCiego,
    generarCorteZ, check_shift_version, require_open;
    cbn [getActiveShift getShiftById saveShift addMovement listMovements saveArqueoCiego saveCorteZ
         adapter_of SqliteCashShiftRepository];
    unfold SqliteShifts.getActiveShift, SqliteShifts.getShiftById, SqliteShifts.listMovements,
      SqliteShifts.saveShift, SqliteShifts.addMovement, SqliteShifts.saveArqueoCiego, SqliteShifts.saveCorteZ,
      SqliteShifts.check_tenant, SqliteShifts.getShiftById; solve_settled.
Qed.

Lemma runShift_step c s s' res :
  Edge.inTransaction s = false → runShift c s = (s', res) → db_step (Edge.db s) (Edge.db s').
Proof.
  intros Htx Hrun. destruct res as [u|e].
  - destruct c; unfold runShift in Hrun; minv Hrun.
    + by eapply abrir_step.
    + by eapply agregar_step.
    + by eapply registrar_step.
    + match goal with Hx : generarCorteX _ _ _ _ = _ |- _ => unfold generarCorteX in Hx; shift_inv Hx end. constructor.
    + by eapply arqueo_step.
    + by eapply corteZ_step.
  - pose proof (shift_error_atomic _ _ _ _ Htx Hrun) as Herr.
    destruct c; try (unfold db_step; rewrite Herr; constructor).
    unfold runShift in Hrun. run_head Hrun Ho; [discriminate Hrun|]. subst. by eapply abrir_step.
Qed.

(** the states reached from [s] by requests of the shift service, accepted or not *)
Inductive shift_session s : Edge.t → Prop :=
| session_start : shift_session s s
| session_request s1 s2 c res : shift_session s s1 → runShift c s1 = (s2, res) → shift_session s s2.

Lemma shift_session_settled s s' :
  Edge.inTransaction s = false → shift_session s s' → Edge.inTransaction s' = false.
Proof. induction 2; [done|]. by eapply runShift_settled. Qed.

Lemma shift_session_invariant (P : _ → _ → _ → Prop) s s' :
  (∀ T Ms Cs T' Ms' Cs', ledger_step T Ms Cs T' Ms' Cs' → P T Ms Cs → P T' Ms' Cs') →
  Edge.inTransaction s = false → shift_session s s' →
  P (Db.turnos_caja (Edge.db s)) (Db.movimientos_caja (Edge.db s)) (Db.cortes_caja (Edge.db s)) →
  P (Db.turnos_caja (Edge.db s')) (Db.movimientos_caja (Edge.db s')) (Db.cortes_caja (Edge.db s')).
Proof.
  intros Hstep Htx Hs HP. induction Hs as [|s1 s2 c res Hs IH Hrun]; [done|].
  eapply Hstep; [|exact IH]. eapply runShift_step; [|exact Hrun]. by eapply shift_session_settled.
Qed.

(** ** Properties *)

(** C40: refinement.  Outside a transaction, every request of the shift service over SQLite,
    whatever its outcome, is a step of the ledger machine on shifts, movements and cortes;
    and a request that fails leaves every table as it was, except that opening a shift may
    fail after the shift is stored, on the movement of its opening float. *)
Theorem shift_request_refines_ledger c s s' res :
  Edge.inTransaction s = false → runShift c s = (s', res) →
  db_step (Edge.db s) (Edge.db s') ∧ Edge.inTransaction s' = false ∧
  match res, c with
  | Ok _, _ | _, Abrir _ _ _ _ => True
  | Err _, _ => Edge.db s' = Edge.db s
  end.
Proof.
  intros Htx Hrun. split_and!; [by eapply runShift_step|by eapply runShift_settled|].
  destruct res; [by destruct c|]. by eapply shift_error_atomic in Hrun.
Qed.

(** C3: the ledger agrees with the movements.  In every state the shift service reaches from
    an empty database: an open shift has no count and no Corte Z; a counted shift stores a
    non-negative declared amount, as expected cash exactly its opening float plus its signed
    movements, and their difference; a frozen shift has in addition exactly one Corte Z, with
    the same four figures. *)
Theorem shift_ledger_agrees s id row :
  shift_session Edge.initial s → Db.turnos_caja (Edge.db s) !! id = Some row →
  let cash := expected_cash (TurnoCajaRow.opening_cash_float row) (movements_on (Db.movimientos_caja (Edge.db s)) id) in
  match TurnoCajaRow.status row with
  | ABIERTO => TurnoCajaRow.closing_declared_cash row = None ∧ TurnoCajaRow.calculated_cash_total row = None ∧
      TurnoCajaRow.cash_difference row = None ∧ TurnoCajaRow.closed_at row = None ∧
      cortes_on (Db.cortes_caja (Edge.db s)) id = []
  | CERRADO_ARQUEO => counted row cash ∧ TurnoCajaRow.closed_at row = None ∧
      cortes_on (Db.cortes_caja (Edge.db s)) id = []
  | CORTE_Z_EMITIDO => counted row cash ∧ is_Some (TurnoCajaRow.closed_at row) ∧
      ∃ c, cortes_on (Db.cortes_caja (Edge.db s)) id = [c] ∧ CorteRow.tipo_corte c = CORTE_Z_TIPO ∧
        CorteRow.opening_cash_float c = TurnoCajaRow.opening_cash_float row ∧
        CorteRow.total_calculado c = cash ∧
        CorteRow.total_declarado c = TurnoCajaRow.closing_declared_cash row ∧
        CorteRow.diferencia c = TurnoCajaRow.cash_difference row
  end.
Proof.
  intros Hs Hrow. apply (shift_session_invariant ledger_of) in Hs as (Hok & _); [|apply ledger_step_ok|done|apply ledger_empty].
  exact (Hok id row Hrow).
Qed.

(** one open shift per station.  No two shifts that the service reaches from an empty
    database are open for the same organisation, branch and station. *)
Theorem one_open_shift_per_station s id1 id2 r1 r2 :
  shift_session Edge.initial s →
  Db.turnos_caja (Edge.db s) !! id1 = Some r1 → Db.turnos_caja (Edge.db s) !! id2 = Some r2 →
  TurnoCajaRow.status r1 = ABIERTO → TurnoCajaRow.status r2 = ABIERTO →
  TurnoCajaRow.organization_id r1 = TurnoCajaRow.organization_id r2 →
  TurnoCajaRow.branch_id r1 = TurnoCajaRow.branch_id r2 →
  TurnoCajaRow.station_id r1 = TurnoCajaRow.station_id r2 → id1 = id2.
Proof.
  intros Hs H1 H2 O1 O2 E1 E2 E3.
  apply (shift_session_invariant ledger_of) in Hs as (_ & _ & _ & Hone); [|apply ledger_step_ok|done|apply ledger_empty].
  eapply (Hone id1 id2 r1 r2); [done..| |]; unfold SqliteShifts.activeKey; [by rewrite O1|]. by rewrite O2, E1, E2, E3.
Qed.

(** a shift only moves forward.  Whatever requests follow, a shift keeps its
    organisation, branch, station, responsible, opener, number, float and opening time, its
    version never decreases and its status never goes back; once counted, neither its
    movements nor its count change; once its Corte Z is issued, neither the shift nor its
    corte change at all. *)
Theorem shift_moves_forward s s' id r :
  Edge.inTransaction s = false → shift_session s s' → Db.turnos_caja (Edge.db s) !! id = Some r →
  ∃ r', Db.turnos_caja (Edge.db s') !! id = Some r' ∧ shift_identity r' = shift_identity r ∧
    rank (TurnoCajaRow.status r) <= rank (TurnoCajaRow.status r') ∧
    TurnoCajaRow.version r <= TurnoCajaRow.version r' ∧
    (TurnoCajaRow.status r ≠ ABIERTO →
       movements_on (Db.movimientos_caja (Edge.db s')) id = movements_on (Db.movimientos_caja (Edge.db s)) id ∧
       TurnoCajaRow.closing_declared_cash r' = TurnoCajaRow.closing_declared_cash r ∧
       TurnoCajaRow.calculated_cash_total r' = TurnoCajaRow.calculated_cash_total r ∧
       TurnoCajaRow.cash_difference r' = TurnoCajaRow.cash_difference r) ∧
    (TurnoCajaRow.status r = CORTE_Z_EMITIDO →
       r' = r ∧ cortes_on (Db.cortes_caja (Edge.db s')) id = cortes_on (Db.cortes_caja (Edge.db s)) id).
Proof.
  intros Htx Hs Hr.
  apply (shift_session_invariant (shift_since id r (movements_on (Db.movimientos_caja (Edge.db s)) id)
           (cortes_on (Db.cortes_caja (Edge.db s)) id)) s s' (shift_since_step id r _ _) Htx Hs).
  exists r. by split_and!.
Qed.

(** the PIN of [user] at the shift's station is given and accepted *)
Definition pin_accepted (user : string) (pin : option string) (station : string) : bool :=
  match truthy pin with
  | None => false
  | Some p => negb (blank p) && awaited (validatePin user p (Some station))
  end.

Lemma requirePin_run u p st s :
  requirePin (S := Edge.t) u p (Some st) s =
  (s, if pin_accepted u p st then Ok tt else Err InvalidOperatorPinError).
Proof.
  unfold requirePin, pin_accepted. destruct (truthy p) as [q|]; [|done]. mrun.
  destruct (blank q); [done|]. simpl. by destruct (awaited _).
Qed.

(** issuing a Corte Z.  It succeeds only on a shift that has been counted, at the
    version the caller saw, with the PIN of a user allowed to close it; it then freezes the
    shift, stores one corte with the expected cash, the declared cash and the difference,
    an audit row exactly when the difference is not zero, and one well-formed pending
    outbox event, in one transaction.  Any failure, of the fault-injection hook included,
    leaves every table as it was. *)
Theorem corte_z_commits now cid draws hook c s s' res :
  Edge.inTransaction s = false →
  @generarCorteZ Edge.t (SqliteCashShiftRepository draws hook) V St now cid c s = (s', res) →
  match res with
  | Err _ => Edge.db s' = Edge.db s
  | Ok (sh, corte) =>
      let id := GenerarCorteZ.shiftId c in
      ∃ row shift, Db.turnos_caja (Edge.db s) !! id = Some row ∧
        SqliteShifts.selectShift (Edge.db s) id = Some shift ∧
        TurnoCajaRow.status row = CERRADO_ARQUEO ∧ TurnoCajaRow.version row = GenerarCorteZ.expectedVersion c ∧
        canClose shift (GenerarCorteZ.closedByUserId c) = true ∧
        pin_accepted (GenerarCorteZ.closedByUserId c) (GenerarCorteZ.closedByPin c) (TurnoCajaRow.station_id row) = true ∧
        CorteCaja.totalCalculado corte =
          expected_cash (TurnoCajaRow.opening_cash_float row) (movements_on (Db.movimientos_caja (Edge.db s)) id) ∧
        CorteCaja.totalDeclarado corte = TurnoCajaRow.closing_declared_cash row ∧
        CorteCaja.diferencia corte = TurnoCajaRow.cash_difference row ∧
        valid_event (SqliteShifts.corteEvent draws corte sh) ∧
        Edge.db s' = (Edge.db s) <| Db.turnos_caja ::= <[id := frozen_row row now]> |>
          <| Db.cortes_caja ::= (λ l, l ++ [SqliteShifts.corteToRow corte]) |>
          <| Db.local_audit_trail ::= (λ l, l ++ ShiftFacts.difference_audit draws corte sh) |>
          <| Db.outbox_queue ::= (λ l, l ++ [outbox_row (SqliteShifts.Draws.outboxCreatedAt draws)
                                               (SqliteShifts.corteEvent draws corte sh)]) |> ∧
        (TurnoCajaRow.closing_declared_cash row ≠ None →
         ShiftFacts.difference_audit draws corte sh = [] ↔
         TurnoCajaRow.cash_difference row = None ∨ TurnoCajaRow.cash_difference row = Some 0)
  end.
Proof.
  intros Htx Hrun. destruct res as [[sh corte]|e].
  2: { apply (shift_error_atomic (CorteZ now cid draws hook c) s s' e Htx). unfold runShift.
       by apply bind_err; left. }
  unfold generarCorteZ in Hrun. cbn [getShiftById saveCorteZ listMovements SqliteCashShiftRepository] in Hrun.
  unfold SqliteShifts.getShiftById, SqliteShifts.listMovements, check_shift_version in Hrun. txinv Hrun.
  match goal with Hp : requirePin _ _ _ _ = _ |- _ => rewrite requirePin_run in Hp; destruct (pin_accepted _ _ _) eqn:Hpin;
    [injection Hp as <- _|discriminate Hp] end.
  pose proof Hfound as Hsel. apply selectShift_Some in Hfound as (row & Hrow & ->). simpl_guards.
  name_breakdown.
  match goal with Ha : SqliteShifts.saveCorteZ _ _ _ _ _ _ = _ |- _ =>
    apply saveCorteZ_ok in Ha as (old & -> & _ & _ & Hold & _ & _ & Hev & Hdb) end. simpl in Hold.
  assert (old = row) as -> by congruence.
  exists row. eexists. split; [exact Hrow|]. split; [exact Hsel|]. simpl in *. split_and!; try done.
  - by rewrite Hb, (expected_cash_perm _ _ _ (selectMovements_perm _ _)).
  - unfold ShiftFacts.difference_audit. simpl. intros Hdec.
    destruct (TurnoCajaRow.cash_difference row) as [dif|]; [|naive_solver].
    destruct (TurnoCajaRow.closing_declared_cash row) as [dec|]; [|done].
    destruct (Z.eqb_spec dif 0); naive_solver.
Qed.

Lemma updateShiftRow_run id f s row :
  Db.turnos_caja (Edge.db s) !! id = Some row →
  SqliteShifts.station_taken (Db.turnos_caja (Edge.db s)) id (f row) = false →
  SqliteShifts.updateShiftRow id (TurnoCajaRow.version row) f s =
  (s <| Edge.db ::= (λ d, d <| Db.turnos_caja ::= <[id := f row]> |>) |>, Ok tt).
Proof.
  intros Hrow Hfree. unfold SqliteShifts.updateShiftRow, SqliteShifts.writeShiftRow. mrun.
  rewrite Hrow. simpl. rewrite Z.eqb_refl. mrun. by rewrite Hfree.
Qed.

Lemma addMovement_run m now sh row s :
  let id := MovimientoCaja.turnoCajaId m in
  Edge.inTransaction s = false → one_open (Db.turnos_caja (Edge.db s)) →
  Db.turnos_caja (Edge.db s) !! id = Some row → MovimientoCaja.id m ∉ (MovimientoCaja.id <$> Db.movimientos_caja (Edge.db s)) →
  TurnoCaja.id sh = id → TurnoCaja.version sh = TurnoCajaRow.version row + 1 → TurnoCaja.updatedAt sh = now →
  ∃ s', SqliteShifts.addMovement m sh (TurnoCajaRow.version row) s = (s', Ok m) ∧
    Edge.db s' = (Edge.db s) <| Db.turnos_caja ::= <[id := edited row now]> |>
                             <| Db.movimientos_caja ::= (λ l, l ++ [m]) |>.
Proof.
  cbv zeta. intros Htx Hone Hrow Hfresh Hid Hv Hu. unfold SqliteShifts.addMovement.
  rewrite runInTransaction_None. unfold executeTx. rewrite Htx, Hid.
  assert (Hfree : SqliteShifts.station_taken (Db.turnos_caja (Edge.db s)) (MovimientoCaja.turnoCajaId m)
    (row <| TurnoCajaRow.version := TurnoCaja.version sh |> <| TurnoCajaRow.updated_at := TurnoCaja.updatedAt sh |>) = false).
  { by eapply station_kept. }
  match goal with |- context [(SqliteShifts.updateShiftRow ?i ?v ?f ≫= _) ?st] =>
    pose proof (updateShiftRow_run i f st row Hrow Hfree : SqliteShifts.updateShiftRow i v f st = _) as Hup end.
  rewrite (bind_run_ok _ _ _ _ _ Hup).
  unfold SqliteShifts.insertMovimiento. mrun. simpl.
  rewrite (bool_decide_eq_false_2 _ Hfresh), lookup_insert_eq, bool_decide_eq_false_2 by done.
  eexists. split; [done|]. simpl. by rewrite Hv, Hu.
Qed.

(** the conditions under which a movement is accepted *)
Definition movement_allowed (shift : TurnoCaja.t) (c : RegistrarMovimiento.t) : bool :=
  (TurnoCaja.version shift =? RegistrarMovimiento.expectedVersion c) &&
  bool_decide (TurnoCaja.status shift = ABIERTO) &&
  pin_accepted (RegistrarMovimiento.operatorUserId c) (RegistrarMovimiento.operatorPin c) (TurnoCaja.stationId shift) &&
  canOperate shift (RegistrarMovimiento.operatorUserId c) &&
  (0 <? RegistrarMovimiento.amount c) && negb (blank (RegistrarMovimiento.reason c)).

(** Recording a cash movement.  On a stored shift, with a fresh identifier and at most
    one open shift per station, a movement is accepted exactly when the shift is open at the
    version the caller saw, the operator's PIN is accepted and the operator may operate the
    drawer, the amount is positive and a reason is given; it is then stored with the trimmed
    reason while the shift only moves to its next version.  Otherwise nothing changes. *)
Theorem registrarMovimiento_exact now mid c s shift :
  let id := RegistrarMovimiento.shiftId c in
  Edge.inTransaction s = false → one_open (Db.turnos_caja (Edge.db s)) →
  SqliteShifts.selectShift (Edge.db s) id = Some shift →
  mid ∉ (MovimientoCaja.id <$> Db.movimientos_caja (Edge.db s)) →
  let '(s', res) := @registrarMovimiento Edge.t (SqliteCashShiftRepository no_draws no_hook) V St now mid c s in
  if movement_allowed shift c then
    let movement := MovimientoCaja.mk mid id (RegistrarMovimiento.operatorUserId c)
      (RegistrarMovimiento.movementType c) (RegistrarMovimiento.amount c) (trim (RegistrarMovimiento.reason c))
      (RegistrarMovimiento.referenceId c) now in
    ∃ row sh', res = Ok (sh', movement) ∧ Db.turnos_caja (Edge.db s) !! id = Some row ∧
      Edge.db s' = (Edge.db s) <| Db.turnos_caja ::= <[id := edited row now]> |>
                               <| Db.movimientos_caja ::= (λ l, l ++ [movement]) |>
  else s' = s ∧ ∃ e, res = Err e.
Proof.
  cbv zeta. intros Htx Hone Hsel Hfresh.
  destruct (@registrarMovimiento _ _ _ _ now mid c s) as [s' res] eqn:Hrun. unfold registrarMovimiento in Hrun.
  cbn [getShiftById addMovement SqliteCashShiftRepository] in Hrun.
  unfold SqliteShifts.getShiftById, check_shift_version, require_open in Hrun. mrun in Hrun. rewrite Hsel in Hrun.
  mrun in Hrun. apply selectShift_Some in Hsel as (row & Hrow & ->). unfold movement_allowed. simpl in *.
  destruct (_ =? _) eqn:Hv; simpl in *; [|injection Hrun as <- <-; eauto].
  destruct (decide (TurnoCajaRow.status row = ABIERTO)) as [Ho|Ho].
  2: { rewrite (bool_decide_eq_false_2 (_ = ABIERTO)) by done. repeat case_match; simplify_eq/=; eauto. 
       rewrite bool_decide_eq_true_2 in *; done. }
  rewrite (bool_decide_eq_true_2 (_ = ABIERTO)) by done.
  rewrite (bool_decide_eq_false_2 (_ = CORTE_Z_EMITIDO)), (bool_decide_eq_false_2 (_ ≠ ABIERTO)) in Hrun by congruence.
  run_head Hrun Hp; rewrite requirePin_run in Hp; destruct (pin_accepted _ _ _); simplify_eq; simpl; [|eauto].
  mrun in Hrun. destruct (canOperate _ _); simpl in *; [|injection Hrun as <- <-; eauto].
  destruct (Z.leb_spec (RegistrarMovimiento.amount c) 0), (Z.ltb_spec 0 (RegistrarMovimiento.amount c)); simpl in *;
    [lia|injection Hrun as <- <-; eauto| |lia].
  destruct (blank _); simpl in *; [injection Hrun as <- <-; eauto|].
  destruct (addMovement_run (MovimientoCaja.mk mid (RegistrarMovimiento.shiftId c) (RegistrarMovimiento.operatorUserId c)
      (RegistrarMovimiento.movementType c) (RegistrarMovimiento.amount c) (trim (RegistrarMovimiento.reason c))
      (RegistrarMovimiento.referenceId c) now) now
    ((SqliteShifts.mapTurnoRow (RegistrarMovimiento.shiftId c) row (SqliteShifts.selectOperators (Edge.db s0)
       (RegistrarMovimiento.shiftId c))) <| TurnoCaja.version := TurnoCajaRow.version row + 1 |>
       <| TurnoCaja.updatedAt := now |>) row s0 Htx Hone Hrow) as (s1 & Hs1 & Hdb); [done..|].
  rewrite (bind_run_ok _ _ _ _ _ Hs1) in Hrun. injection Hrun as <- <-. by eexists _, _.
Qed.
End service.

(** ** Witnesses: a shift is opened with a float, a sale recorded, the cash counted, the Corte Z issued *)

#[local] Instance shift_pins : IamPinValidatorPort := {| validatePin _ pin _ := Promise (bool_decide (pin = "1234")) |}.

Definition example_op_z : string := "7c9e6679-7425-40de-944b-e07fc1f90ae7".
Definition example_abrir : ShiftCommand :=
  Abrir "2026-01-01T08" "s1" "m0" (AbrirTurno.mk "org" "br" "st" "ana" None 5000000 (Some 7) None (Some "1234")).
Definition example_sale : RegistrarMovimiento.t :=
  RegistrarMovimiento.mk "s1" "ana" VENTA_EFECTIVO 1160000 " Cobro " None 1 (Some "1234").
Definition example_count : ShiftCommand :=
  Arqueo "2026-01-01T20" "a1" (RealizarArqueoCiego.mk "s1" "ana" 6150000 2 (Some "1234")).
Definition example_z : GenerarCorteZ.t := GenerarCorteZ.mk "s1" "ana" 3 (Some "1234").
Definition example_draws : SqliteShifts.Draws.t := SqliteShifts.Draws.mk "au1" "ob1" "" "t".

Definition played (c : ShiftCommand) (s : Edge.t) : Edge.t := (runShift c s).1.
Definition shift_opened : Edge.t := played example_abrir Edge.initial.
Definition shift_sold : Edge.t := played (Registrar "2026-01-01T12" "m1" example_sale) shift_opened.
Definition shift_counted : Edge.t := played example_count shift_sold.
Definition example_corte_z : ShiftCommand := CorteZ "2026-01-01T21" example_op_z example_draws no_hook example_z.
Definition shift_frozen : Edge.t := played example_corte_z shift_counted.

Lemma played_session s s1 c : shift_session s s1 → shift_session s (played c s1).
Proof. intros Hs. unfold played. destruct (runShift c s1) as [s2 res] eqn:E. by eapply session_request. Qed.

Lemma session_frozen : shift_session Edge.initial shift_frozen.
Proof. do 4 apply played_session. constructor. Qed.

Definition row_at (s : Edge.t) (id : string) : option TurnoCajaRow.t := Db.turnos_caja (Edge.db s) !! id.

Lemma shift_request_refines_ledger_witness : db_step (Edge.db shift_counted) (Edge.db shift_frozen).
Proof.
  exact (proj1 (shift_request_refines_ledger example_corte_z shift_counted shift_frozen (Ok tt)
    ltac:(vm_compute; reflexivity) ltac:(vm_compute; reflexivity))).
Defined.

Lemma shift_ledger_agrees_witness :
  ∃ row, row_at shift_frozen "s1" = Some row ∧ counted row 6160000 ∧ TurnoCajaRow.cash_difference row = Some (-10000).
Proof.
  eexists. split; [vm_compute; reflexivity|].
  pose proof (shift_ledger_agrees shift_frozen "s1" _ session_frozen ltac:(vm_compute; reflexivity)) as [Hc _].
  split; [exact Hc|reflexivity].
Defined.

Lemma one_open_shift_per_station_witness :
  ∃ r, row_at shift_sold "s1" = Some r ∧ TurnoCajaRow.status r = ABIERTO ∧ "s1" = "s1".
Proof.
  eexists. split; [vm_compute; reflexivity|]. split; [reflexivity|].
  exact (one_open_shift_per_station shift_sold "s1" "s1" _ _ ltac:(do 2 apply played_session; constructor)
    ltac:(vm_compute; reflexivity) ltac:(vm_compute; reflexivity) eq_refl eq_refl eq_refl eq_refl eq_refl).
Defined.

Lemma shift_moves_forward_witness :
  ∃ r r', row_at shift_counted "s1" = Some r ∧ row_at shift_frozen "s1" = Some r' ∧
    TurnoCajaRow.cash_difference r' = TurnoCajaRow.cash_difference r.
Proof.
  eexists.
  destruct (shift_moves_forward shift_counted shift_frozen "s1" _ ltac:(vm_compute; reflexivity)
    ltac:(apply played_session; constructor) ltac:(vm_compute; reflexivity)) as (r' & Hr' & _ & _ & _ & Hfix & _).
  exists r'. split; [vm_compute; reflexivity|]. split; [exact Hr'|]. apply Hfix. vm_compute. discriminate.
Defined.

Lemma corte_z_commits_witness :
  ∃ sh corte, (@generarCorteZ Edge.t (SqliteCashShiftRepository example_draws no_hook) _ _ "2026-01-01T21"
                 example_op_z example_z shift_counted).2 = Ok (sh, corte) ∧
    CorteCaja.totalCalculado corte = 6160000 ∧ length (ShiftFacts.difference_audit example_draws corte sh) = 1%nat.
Proof.
  destruct (@generarCorteZ Edge.t (SqliteCashShiftRepository example_draws no_hook) _ _ "2026-01-01T21"
                 example_op_z example_z shift_counted) as [s' res] eqn:E.
  assert (∃ r, res = Ok r) as [[sh corte] ->] by (vm_compute in E; injection E as _ <-; by eexists).
  destruct (corte_z_commits _ _ _ _ _ shift_counted _ _ ltac:(vm_compute; reflexivity) E)
    as (row & shift & Hrow & _ & _ & _ & _ & _ & Htotal & _).
  exists sh, corte. split; [reflexivity|]. split.
  - rewrite Htotal. vm_compute in Hrow. injection Hrow as <-. reflexivity.
  - vm_compute in E. injection E as _ <- <-. reflexivity.
Defined.

Lemma registrarMovimiento_exact_witness :
  ∃ sh m, (@registrarMovimiento Edge.t (SqliteCashShiftRepository no_draws no_hook) _ _ "2026-01-01T12" "m1"
             example_sale shift_opened).2 = Ok (sh, m) ∧ MovimientoCaja.reason m = "Cobro".
Proof.
  pose proof (registrarMovimiento_exact "2026-01-01T12" "m1" example_sale shift_opened _
    ltac:(vm_compute; reflexivity)
    ltac:(exact (proj2 (proj2 (proj2 (shift_session_invariant ledger_of Edge.initial shift_opened ledger_step_ok eq_refl
            (played_session _ _ _ (session_start _)) ledger_empty)))))
    ltac:(vm_compute; reflexivity)
    ltac:(apply (bool_decide_unpack _); vm_compute; exact I)) as Hspec.
  destruct (registrarMovimiento _ _ _ _) as [s' res].
  destruct Hspec as (row & sh' & -> & _). by eexists _, _.
Defined.
