(* ===== verification/Payment.v ===== *)
(** Payments: the ports and operations of [PaymentDomainService] (packages/pos,
    payment-service.ts) and their SQLite adapter (pos-edge-runtime,
    payment-sqlite-repository.ts).

    [submitTender] reads through several awaits and writes in one transaction at the end;
    other requests can run in between.  It is therefore the composition of stages, one per
    await that matters: [authorizeTender], [readPayable], [prepareTender] and the commit. *)
From S2P Require Import Prelude Decimals Money PosTypes EdgeDb DiningRepo CashShift CashShiftRepo.

(** ** Commands and results *)

Module SubmitTender.
(* payment-types.ts:27-38 SubmitTenderCommand *)
Record t := mk {
  cuentaId : string; turnoCajaId : string; operatorUserId : string; operatorPin : string;
  paymentMethod : PaymentMethod; amount : Z; tipAmount : option Z; cashGiven : option Z;
  referenceAuthCode : option string; clientOpId : string }.
End SubmitTender.

Module PaymentSettlementResult.
(* payment-types.ts:40-52 PaymentSettlementResult *)
Record t := mk {
  pago : Pago.t; totalAmount : Z; totalPaid : Z; totalTips : Z; remainingBalance : Z;
  accountSettled : bool; accountStatus : CuentaStatus; closedAt : option string;
  isIdempotentReplay : bool; cashMovement : option MovimientoCaja.t;
  cuentaPagadaEvent : option CuentaPagada.t }.
End PaymentSettlementResult.

Module AccountPaymentsSummary.
(* payment-types.ts:54-63 AccountPaymentsSummary *)
Record t := mk {
  cuentaId : string; totalAmount : Z; totalPaid : Z; totalTips : Z; remainingBalance : Z;
  isSettled : bool; accountStatus : CuentaStatus; payments : list Pago.t }.
End AccountPaymentsSummary.

Module AtomicSettlementParams.
(** [auditRecord] is flattened *)
(* payment-ports.ts:14-24 AtomicSettlementParams *)
Record t := mk {
  pago : Pago.t; updatedCuenta : Cuenta.t; cashMovement : option MovimientoCaja.t;
  cuentaPagadaEvent : option CuentaPagada.t; actorId : string; auditAction : string;
  auditDetails : AuditDetails }.
End AtomicSettlementParams.

Module PaymentOptions.
(* payment-service.ts:34-38 PaymentDomainServiceOptions *)
Record t := mk { organizationId : option string; branchId : option string; stationId : option string }.
End PaymentOptions.

(* payment-ports.ts:26-31 PaymentRepositoryPort *)
Class PaymentRepositoryPort (S : Type) := {
  findPaymentById : string → M S PosError (option Pago.t);
  findPaymentByClientOpId : string → string → M S PosError (option Pago.t);
  listPaymentsByCuentaId : string → M S PosError (list Pago.t);
  executeAtomicSettlement : AtomicSettlementParams.t → M S PosError Pago.t }.

(* payment-ports.ts:33-35 CashShiftLookupPort *)
Class CashShiftLookupPort (S : Type) := { lookupShift : string → M S PosError (option TurnoCaja.t) }.

(** ** The service *)

(** [payments.reduce((acc, p) => acc + p.amount, 0n)] *)
Definition sumAmounts (ps : list Pago.t) : Z := foldl (λ acc p, acc + Pago.amount p) 0 ps.
Definition sumTips (ps : list Pago.t) : Z := foldl (λ acc p, acc + Pago.tipAmount p) 0 ps.

(** [total > paid ? total - paid : 0n] *)
Definition remaining (total paid : Z) : Z := if paid <? total then total - paid else 0.

Definition isPayable (c : Cuenta.t) : bool :=
  bool_decide (Cuenta.status c = ABIERTA) || bool_decide (Cuenta.status c = IMPRESA).

(** decimal digits of a folio number in a movement's reason *)
Definition folioText (folio : option Z) : string :=
  match folio with
  | Some n => (if n <? 0 then "-" else "") +:+ Decimals.toString (Z.to_N (Z.abs n))
  | None => "S/F"
  end.

(** what the reading part leaves to be committed and answered *)
Module Tender.
Record t := mk { params : AtomicSettlementParams.t; result : Pago.t → PaymentSettlementResult.t }.
End Tender.

Section PaymentDomainService.
Context {S : Type} `{!PaymentRepositoryPort S} `{!AccountRepositoryPort S} `{!CashShiftLookupPort S}.
Context `{!IamPinValidatorPort} (options : PaymentOptions.t).

(* payment-service.ts:68-89 submitTender, replay *)
Definition replayTender (command : SubmitTender.t) (existingPago : Pago.t)
    : M S PosError PaymentSettlementResult.t :=
  found ← getCuentaById (SubmitTender.cuentaId command);
  cuenta ← require found (DomainError "CUENTA_NOT_FOUND" 404);
  allPayments ← listPaymentsByCuentaId (SubmitTender.cuentaId command);
  let totalPaid := sumAmounts allPayments in
  mret (PaymentSettlementResult.mk existingPago (Cuenta.totalAmount cuenta) totalPaid (sumTips allPayments)
          (remaining (Cuenta.totalAmount cuenta) totalPaid) (bool_decide (Cuenta.status cuenta = PAGADA))
          (Cuenta.status cuenta) (Cuenta.closedAt cuenta) true None None).

(** the change of a cash tender; nothing for other methods or when no cash amount is given *)
(* payment-service.ts:158-169 submitTender, cash change *)
Definition cashChange (command : SubmitTender.t) (tipAmount : Z) : result PosError (option Z * option Z) :=
  match SubmitTender.paymentMethod command, SubmitTender.cashGiven command with
  | EFECTIVO, Some cashGiven =>
      if cashGiven <? SubmitTender.amount command + tipAmount then Err PaymentValidationError
      else Ok (Some cashGiven, Some (cashGiven - (SubmitTender.amount command + tipAmount)))
  | _, _ => Ok (None, None)
  end.

(* payment-service.ts:171-187 submitTender, newPago *)
Definition newPago (now pagoId : string) (command : SubmitTender.t) (tipAmount : Z)
    (cashGiven changeDue : option Z) : Pago.t :=
  Pago.mk pagoId (SubmitTender.cuentaId command) (SubmitTender.turnoCajaId command)
    (SubmitTender.operatorUserId command) (SubmitTender.paymentMethod command) (SubmitTender.amount command)
    tipAmount cashGiven changeDue (SubmitTender.referenceAuthCode command) (SubmitTender.clientOpId command) now.

(* payment-service.ts:195-202 submitTender, updatedCuenta *)
Definition paidCuenta (cuenta : Cuenta.t) (now : string) (newTotalTips : Z) (isAccountSettled : bool) : Cuenta.t :=
  cuenta <| Cuenta.tipsTotal := newTotalTips |>
         <| Cuenta.status := (if isAccountSettled then PAGADA else Cuenta.status cuenta) |>
         <| Cuenta.closedAt := (if isAccountSettled then Some now else Cuenta.closedAt cuenta) |>
         <| Cuenta.version := Cuenta.version cuenta + 1 |> <| Cuenta.updatedAt := now |>.

(* payment-service.ts:204-217 submitTender, cashMovement *)
Definition cashSale (now movementId : string) (command : SubmitTender.t) (cuenta : Cuenta.t) (pagoId : string)
    (tipAmount : Z) : option MovimientoCaja.t :=
  match SubmitTender.paymentMethod command with
  | EFECTIVO => Some (MovimientoCaja.mk movementId (SubmitTender.turnoCajaId command)
      (SubmitTender.operatorUserId command) VENTA_EFECTIVO (SubmitTender.amount command + tipAmount)
      ("Cobro cuenta " +:+ Cuenta.id cuenta +:+ " (Folio " +:+ folioText (Cuenta.folioNumber cuenta) +:+ ")")
      (Some pagoId) now)
  | _ => None
  end.

(* payment-service.ts:219-246 submitTender, cuentaPagadaEvent *)
Definition settledEvent (now : string) (cuenta : Cuenta.t) (allPayments : list Pago.t) (newTotalTips : Z)
    : CuentaPagada.t :=
  CuentaPagada.mk (default "org_default" (PaymentOptions.organizationId options))
    (default "branch_default" (PaymentOptions.branchId options))
    (default "station_default" (PaymentOptions.stationId options)) (Cuenta.id cuenta) (Cuenta.folioNumber cuenta)
    (scaledBigIntToDecimalString (Cuenta.subtotal cuenta)) (scaledBigIntToDecimalString (Cuenta.taxTotal cuenta))
    (scaledBigIntToDecimalString (Cuenta.discountsTotal cuenta))
    (scaledBigIntToDecimalString (Cuenta.totalAmount cuenta))
    [("0.1600", scaledBigIntToDecimalString (Cuenta.taxTotal cuenta))]
    (scaledBigIntToDecimalString newTotalTips)
    ((λ p, FormaPago.mk (Pago.paymentMethod p) (scaledBigIntToDecimalString (Pago.amount p + Pago.tipAmount p))
             (Pago.referenceAuthCode p)) <$> allPayments)
    (Cuenta.currentWaiterUserId cuenta) None now.

(** steps 2 to 4: the operator and the shift *)
(* payment-service.ts:91-117 submitTender, authorization *)
Definition authorizeTender (command : SubmitTender.t) : M S PosError unit :=
  throw_when (negb (awaited (validatePin (SubmitTender.operatorUserId command) (SubmitTender.operatorPin command)
                               (PaymentOptions.stationId options)))) InvalidOperatorPinError ;;
  foundShift ← lookupShift (SubmitTender.turnoCajaId command);
  shift ← require foundShift ShiftNotFoundError;
  throw_when (bool_decide (TurnoCaja.status shift ≠ ABIERTO)) ShiftNotOpenError ;;
  throw_when (negb (bool_decide (TurnoCaja.responsibleUserId shift = SubmitTender.operatorUserId command) ||
                    bool_decide (TurnoCaja.openedByUserId shift = SubmitTender.operatorUserId command) ||
                    participates shift (SubmitTender.operatorUserId command))) UnauthorizedShiftOperatorError.

(** step 5: the account *)
(* payment-service.ts:119-126 submitTender, account *)
Definition readPayable (command : SubmitTender.t) : M S PosError Cuenta.t :=
  found ← getCuentaById (SubmitTender.cuentaId command);
  cuenta ← require found (DomainError "CUENTA_NOT_FOUND" 404);
  throw_when (negb (isPayable cuenta)) AccountNotPayableError ;;
  mret cuenta.

(** steps 8 to 14, on the payments read *)
(* payment-service.ts:144-279 submitTender, settlement *)
Definition settle (now pagoId movementId : string) (command : SubmitTender.t) (cuenta : Cuenta.t)
    (tipAmount : Z) (existingPayments : list Pago.t) : result PosError Tender.t :=
  let totalPaidSoFar := sumAmounts existingPayments in
  let totalTipsSoFar := sumTips existingPayments in
  let currentRemaining := remaining (Cuenta.totalAmount cuenta) totalPaidSoFar in
  if currentRemaining <? SubmitTender.amount command then Err PaymentValidationError
  else result_bind (cashChange command tipAmount) (λ '(cashGiven, changeDue),
  let pago := newPago now pagoId command tipAmount cashGiven changeDue in
  let newTotalPaid := totalPaidSoFar + SubmitTender.amount command in
  let newTotalTips := totalTipsSoFar + tipAmount in
  let newRemaining := remaining (Cuenta.totalAmount cuenta) newTotalPaid in
  let isAccountSettled := newRemaining =? 0 in
  let updatedCuenta := paidCuenta cuenta now newTotalTips isAccountSettled in
  let cashMovement := cashSale now movementId command cuenta pagoId tipAmount in
  let cuentaPagadaEvent :=
    if isAccountSettled then Some (settledEvent now cuenta (existingPayments ++ [pago]) newTotalTips) else None in
  Ok (Tender.mk
    (AtomicSettlementParams.mk pago updatedCuenta cashMovement cuentaPagadaEvent
       (SubmitTender.operatorUserId command)
       (if isAccountSettled then "CUENTA_LIQUIDADA" else "PAGO_RECIBIDO")
       (PagoDetails (Cuenta.id cuenta) pagoId (SubmitTender.turnoCajaId command) (SubmitTender.paymentMethod command)
          (scaledBigIntToDecimalString (SubmitTender.amount command)) (scaledBigIntToDecimalString tipAmount)
          (scaledBigIntToDecimalString newRemaining) isAccountSettled (SubmitTender.clientOpId command)))
    (λ savedPago, PaymentSettlementResult.mk savedPago (Cuenta.totalAmount cuenta) newTotalPaid newTotalTips
       newRemaining isAccountSettled (Cuenta.status updatedCuenta) (Cuenta.closedAt updatedCuenta) false
       cashMovement cuentaPagadaEvent))).

(** absent or negative tips are no tip: [command.tipAmount && command.tipAmount > 0n ? command.tipAmount : 0n] *)
(* payment-service.ts:142-142 submitTender, tipAmount *)
Definition tipOf (command : SubmitTender.t) : Z :=
  match SubmitTender.tipAmount command with Some t => if 0 <? t then t else 0 | None => 0 end.

(** steps 6 to 14; [paymentMethod] is one of the three supported methods by its type *)
(* payment-service.ts:128-145 submitTender, preparation *)
Definition prepareTender (now pagoId movementId : string) (command : SubmitTender.t) (cuenta : Cuenta.t)
    : M S PosError Tender.t :=
  throw_when (SubmitTender.amount command <=? 0) PaymentValidationError ;;
  existingPayments ← listPaymentsByCuentaId (SubmitTender.cuentaId command);
  lift (settle now pagoId movementId command cuenta (tipOf command) existingPayments).

(* payment-service.ts:61-289 submitTender *)
Definition submitTender (now pagoId movementId : string) (command : SubmitTender.t)
    : M S PosError PaymentSettlementResult.t :=
  existingPago ← findPaymentByClientOpId (SubmitTender.cuentaId command) (SubmitTender.clientOpId command);
  match existingPago with
  | Some pago => replayTender command pago
  | None =>
      authorizeTender command ;;
      cuenta ← readPayable command;
      tender ← prepareTender now pagoId movementId command cuenta;
      savedPago ← executeAtomicSettlement (Tender.params tender);
      mret (Tender.result tender savedPago)
  end.

(* payment-service.ts:291-312 getAccountPayments *)
Definition getAccountPayments (cuentaId : string) : M S PosError AccountPaymentsSummary.t :=
  found ← getCuentaById cuentaId;
  cuenta ← require found (DomainError "CUENTA_NOT_FOUND" 404);
  payments ← listPaymentsByCuentaId cuentaId;
  let totalPaid := sumAmounts payments in
  mret (AccountPaymentsSummary.mk cuentaId (Cuenta.totalAmount cuenta) totalPaid (sumTips payments)
          (remaining (Cuenta.totalAmount cuenta) totalPaid) (bool_decide (Cuenta.status cuenta = PAGADA))
          (Cuenta.status cuenta) payments).

End PaymentDomainService.

(** ** The SQLite adapter *)

Module SqlitePayments.

(* payment-sqlite-repository.ts:88-101 findPaymentByIdSync *)
Definition findPaymentById (id : string) : Tx (option Pago.t) :=
  query (λ d, head (filter (λ p, Pago.id p = id) (Db.pagos d))).

Definition selectPago (d : Db.t) (cuentaId clientOpId : string) : option Pago.t :=
  head (filter (λ p, Pago.cuentaId p = cuentaId ∧ Pago.clientOpId p = clientOpId) (Db.pagos d)).

(* payment-sqlite-repository.ts:103-117 findPaymentByClientOpIdSync *)
Definition findPaymentByClientOpId (cuentaId clientOpId : string) : Tx (option Pago.t) :=
  query (λ d, selectPago d cuentaId clientOpId).

Definition selectPagos (d : Db.t) (cuentaId : string) : list Pago.t :=
  orderBy Pago.createdAt (filter (λ p, Pago.cuentaId p = cuentaId) (Db.pagos d)).

(* payment-sqlite-repository.ts:119-132 listPaymentsByCuentaIdSync *)
Definition listPaymentsByCuentaId (cuentaId : string) : Tx (list Pago.t) := query (λ d, selectPagos d cuentaId).

(** primary key, UNIQUE (cuenta_id, client_op_id) and the reference to the account *)
(* payment-sqlite-repository.ts:145-164 executeAtomicSettlementSync, INSERT *)
Definition insertPago (p : Pago.t) : Tx unit :=
  d ← query id;
  throw_when (bool_decide (Pago.id p ∈ (Pago.id <$> Db.pagos d))) (SqliteError "pagos.id") ;;
  throw_when (bool_decide (is_Some (selectPago d (Pago.cuentaId p) (Pago.clientOpId p))))
    (SqliteError "pagos.cuenta_id, pagos.client_op_id") ;;
  throw_when (bool_decide (Db.cuentas d !! Pago.cuentaId p = None)) (SqliteError "FOREIGN KEY constraint failed") ;;
  exec (λ d, d <| Db.pagos ::= (λ l, l ++ [p]) |>).

(** what the adapter draws while it commits *)
Module Draws.
Record t := mk { outboxId : string; outboxCreatedAt : string; auditId : string; auditCreatedAt : string }.
End Draws.

Section repository.
Context (options : PaymentOptions.t) (draws : Draws.t) (hook : Pago.t → option PosError).

(* payment-sqlite-repository.ts:186-203 executeAtomicSettlementSync, outbox *)
Definition pagadaEvent (params : AtomicSettlementParams.t) (event : CuentaPagada.t) : EnqueueInput.t :=
  EnqueueInput.mk (Draws.outboxId draws)
    (default (CuentaPagada.organizacionId event) (PaymentOptions.organizationId options))
    (default (CuentaPagada.sucursalId event) (PaymentOptions.branchId options)) "CUENTA"
    (Pago.cuentaId (AtomicSettlementParams.pago params)) "CuentaPagada"
    (Pago.clientOpId (AtomicSettlementParams.pago params))
    (Cuenta.version (AtomicSettlementParams.updatedCuenta params)) (CuentaPagadaPayload event).

(* payment-sqlite-repository.ts:205-217 executeAtomicSettlementSync, audit *)
Definition pagoAudit (params : AtomicSettlementParams.t) : AuditRecord.t :=
  AuditRecord.mk (Draws.auditId draws) (default "org_default" (PaymentOptions.organizationId options))
    (default "branch_default" (PaymentOptions.branchId options)) (AtomicSettlementParams.actorId params)
    (default "station_default" (PaymentOptions.stationId options)) (AtomicSettlementParams.auditAction params)
    "CUENTA" (Pago.cuentaId (AtomicSettlementParams.pago params)) (AtomicSettlementParams.auditDetails params)
    None (Draws.auditCreatedAt draws) false.

(** [hook] is the optional [onBeforeCommit], by the error it throws *)
(* payment-sqlite-repository.ts:134-230 executeAtomicSettlementSync *)
Definition executeAtomicSettlement (params : AtomicSettlementParams.t) : Tx Pago.t :=
  runInTransaction (
    let pago := AtomicSettlementParams.pago params in
    existing ← findPaymentByClientOpId (Pago.cuentaId pago) (Pago.clientOpId pago);
    match existing with
    | Some p => mret p
    | None =>
        insertPago pago ;;
        SqliteDining.saveCuentaSync (AtomicSettlementParams.updatedCuenta params)
          (Cuenta.version (AtomicSettlementParams.updatedCuenta params) - 1) ;;
        match AtomicSettlementParams.cashMovement params with
        | Some m => SqliteShifts.insertMovimiento m
        | None => mret tt
        end ;;
        match AtomicSettlementParams.cuentaPagadaEvent params with
        | Some event => enqueue (Draws.outboxCreatedAt draws) (pagadaEvent params event) ;; mret tt
        | None => mret tt
        end ;;
        recordAudit (pagoAudit params) ;;
        match hook pago with Some e => mthrow e | None => mret pago end
    end) None.
End repository.
End SqlitePayments.

(* payment-sqlite-repository.ts:66-82 SqlitePaymentRepository *)
Definition SqlitePaymentRepository (options : PaymentOptions.t) (draws : SqlitePayments.Draws.t)
    (hook : Pago.t → option PosError) : PaymentRepositoryPort Edge.t := {|
  findPaymentById := SqlitePayments.findPaymentById;
  findPaymentByClientOpId := SqlitePayments.findPaymentByClientOpId;
  listPaymentsByCuentaId := SqlitePayments.listPaymentsByCuentaId;
  executeAtomicSettlement := SqlitePayments.executeAtomicSettlement options draws hook |}.

#[export] Instance SqliteShiftLookup : CashShiftLookupPort Edge.t := {| lookupShift := SqliteShifts.getShiftById |}.
