(* ===== verification/PaymentSpec.v ===== *)
(** What payments guarantee over SQLite, other requests running between the reading part of
    a tender and its commit: an accepted tender never takes more than the account owes,
    repeating one writes nothing, and a commit is all or nothing. *)
From S2P Require Import Prelude Money PosTypes EdgeDb DiningRepo Policies Dining DiningSpec Billing.
From S2P Require Import CashShift CashShiftRepo CashShiftSpec Payment.

(** ** Accounts and their payments only move forward *)

Definition header_at (d : Db.t) (a : string) : option Cuenta.t := SqliteDiningFacts.selectHeader d a.
Definition pagos_on (d : Db.t) (a : string) : list Pago.t := filter (λ p, Pago.cuentaId p = a) (Db.pagos d).

(** an account stays with the same payments, or has moved to a later version *)
Definition progress (d d' : Db.t) : Prop :=
  ∀ a h, header_at d a = Some h →
    ∃ h', header_at d' a = Some h' ∧
      ((h' = h ∧ pagos_on d' a = pagos_on d a) ∨ Cuenta.version h < Cuenta.version h').

#[export] Instance progress_preorder : PreOrder progress.
Proof.
  split.
  - intros d a h Hh. exists h. auto.
  - intros d1 d2 d3 H12 H23 a h Hh. destruct (H12 a h Hh) as (h2 & Hh2 & H2).
    destruct (H23 a h2 Hh2) as (h3 & Hh3 & H3). exists h3. split; [done|].
    destruct H2 as [[-> E2]|], H3 as [[-> E3]|]; [left; split; congruence|right; lia..].
Qed.

Lemma progress_same d d' : Db.cuentas d' = Db.cuentas d → Db.pagos d' = Db.pagos d → progress d d'.
Proof.
  intros Hc Hp a h Hh. exists h. unfold header_at, SqliteDiningFacts.selectHeader, pagos_on in *.
  rewrite Hc, Hp. auto.
Qed.

(** ... and no payment at all is made *)
Definition quiet (d d' : Db.t) : Prop := progress d d' ∧ Db.pagos d' = Db.pagos d.

#[export] Instance quiet_preorder : PreOrder quiet.
Proof.
  split; [by intros d|]. intros d1 d2 d3 [P1 E1] [P2 E2]. split; [by etrans|congruence].
Qed.

Lemma saveMesa_quiet m v s s' r :
  SqliteDining.saveMesaSync m v s = (s', Ok r) → quiet (Edge.db s) (Edge.db s').
Proof. intros (_ & -> & _)%SqliteDiningFacts.saveMesa_ok. split; [by apply progress_same|done]. Qed.

(** writes to the accounts and their lines only *)
Definition only_accounts (d d' : Db.t) : Prop :=
  d' = d <| Db.cuentas := Db.cuentas d' |> <| Db.cuenta_items := Db.cuenta_items d' |>
         <| Db.cuenta_item_modificadores := Db.cuenta_item_modificadores d' |>.

(** what a successful save of an account does to headers and payments *)
Lemma saveCuenta_headers c v s s' r :
  SqliteDining.saveCuentaSync c v s = (s', Ok r) →
  r = c ∧ only_accounts (Edge.db s) (Edge.db s') ∧
  match header_at (Edge.db s) (Cuenta.id c) with
  | Some old => Cuenta.version old = v ∧ v ≠ 0 ∧ header_at (Edge.db s') (Cuenta.id c) = Some (stored_over old c)
  | None => v = 0 ∧ header_at (Edge.db s') (Cuenta.id c) = Some (stored c)
  end ∧
  ∀ a, a ≠ Cuenta.id c → header_at (Edge.db s') a = header_at (Edge.db s) a.
Proof.
  intros (row & -> & Hp & Hrow)%SqliteDiningFacts.saveCuenta_ok.
  apply SqliteDiningFacts.only_lines_persist in Hp as [Hl _]. unfold SqliteDiningFacts.lines_only in Hl.
  unfold only_accounts. rewrite Hl. unfold header_at. simpl. split_and!; try done.
  - unfold SqliteDiningFacts.selectHeader. simpl. rewrite lookup_insert_eq.
    destruct (Db.cuentas (Edge.db s) !! Cuenta.id c) as [old|]; simpl.
    + destruct Hrow as (-> & Hv & ->). by split_and!.
    + destruct Hrow as (-> & ->). by split.
  - intros a Hne. unfold SqliteDiningFacts.selectHeader. simpl. by rewrite lookup_insert_ne.
Qed.

Lemma saveCuenta_quiet c v s s' r :
  SqliteDining.saveCuentaSync c v s = (s', Ok r) → v < Cuenta.version c → quiet (Edge.db s) (Edge.db s').
Proof.
  intros (_ & Hp & Hid & Hother)%saveCuenta_headers Hv.
  assert (Hpagos : Db.pagos (Edge.db s') = Db.pagos (Edge.db s)) by (unfold only_accounts in Hp; by rewrite Hp).
  split; [|done]. intros a h Hh. destruct (decide (a = Cuenta.id c)) as [->|Hne].
  - rewrite Hh in Hid. destruct Hid as (Hver & _ & Hnew). eexists. split; [exact Hnew|]. right. simpl. lia.
  - exists h. rewrite Hother by done. unfold pagos_on. rewrite Hpagos. auto.
Qed.

Section dining.
Context `{!IamPinValidatorPort}.
Implicit Types s : Edge.t.

Lemma releaseTable_quiet c a now s s' r :
  releaseTable c a now s = (s', Ok r) → quiet (Edge.db s) (Edge.db s').
Proof.
  unfold releaseTable. intros Hrun. destruct (truthy _); [|by minv Hrun].
  sqlite Hrun; [by eapply saveMesa_quiet|done..].
Qed.

Lemma markTableInCheck_quiet c now s s' r :
  markTableInCheck c now s = (s', Ok r) → quiet (Edge.db s) (Edge.db s').
Proof.
  unfold markTableInCheck. intros Hrun. destruct (truthy _); [|by minv Hrun].
  sqlite Hrun; [by eapply saveMesa_quiet|done].
Qed.

(** chains the writes of a command *)
Ltac quiet_steps :=
  repeat match goal with
  | H' : managerAuthorization _ _ _ = (_, Ok _) |- _ => apply managerAuthorization_sqlite in H'; subst
  | H' : check_optional_pin _ _ _ = (_, Ok _) |- _ => apply check_optional_pin_reads in H'; subst
  | H' : supervisorAuthorization _ _ = (_, Ok _) |- _ => apply supervisorAuthorization_reads in H'; subst
  end; simpl_guards;
  repeat match goal with
  | H' : releaseTable _ _ _ _ = (_, Ok _) |- _ => apply releaseTable_quiet in H'
  | H' : markTableInCheck _ _ _ = (_, Ok _) |- _ => apply markTableInCheck_quiet in H'
  | H' : SqliteDining.saveMesaSync _ _ _ = (_, Ok _) |- _ => apply saveMesa_quiet in H'
  | H' : SqliteDining.saveCuentaSync _ _ _ = (_, Ok _) |- _ => apply saveCuenta_quiet in H'; [|simpl; lia]
  end;
  repeat match goal with
  | |- quiet ?d ?d => reflexivity
  | H' : quiet ?d _ |- quiet ?d _ => etrans; [exact H'|]; clear H'
  end.

Lemma run_quiet c s s' : run c s = (s', Ok tt) → quiet (Edge.db s) (Edge.db s').
Proof.
  intros Hrun. destruct c; unfold run, discard in Hrun; apply bind_ok in Hrun as (r & s1 & Hrun & Hret);
    rewrite run_ret in Hret; injection Hret as ->;
    unfold createMesaSync, openCuentaSync, addItemToCuentaSync, cancelItemSync, closeCuentaSync, cancelCuentaSync,
      transferCuentaSync, reassignWaiterSync, changeGuestCountSync, requestCheckSync, liberarMesaSync, occupyTable,
      check_version, check_pin in Hrun;
    try (destruct (truthy (OpenCuentaInput.mesaId _))); sqlite Hrun; quiet_steps.
  destruct (truthy (Mesa.currentAccountId found)); [destruct (LiberarMesaInput.force input)|]; sqlite Hstep0;
    try done; unfold throw_when in *; repeat case_match; try done; by minv Hstep0.
Qed.
End dining.

(** ** Programs that leave accounts and payments alone *)

Definition accounts_kept (d d' : Db.t) : Prop := Db.cuentas d' = Db.cuentas d ∧ Db.pagos d' = Db.pagos d.
Definition spares {A} (m : Tx A) : Prop := ∀ s s' r, m s = (s', r) → accounts_kept (Edge.db s) (Edge.db s').

#[export] Instance accounts_kept_preorder : PreOrder accounts_kept.
Proof. split; [by intros d|]. intros d1 d2 d3 [E1 E2] [E3 E4]. split; congruence. Qed.

Lemma spares_readonly {A} (m : Tx A) : readonly m → spares m.
Proof. by intros Hm s s' r ->%Hm. Qed.
Lemma spares_bind {A B} (m : Tx A) (k : A → Tx B) : spares m → (∀ a, spares (k a)) → spares (m ≫= k).
Proof.
  intros Hm Hk s s' r. unfold mbind, M_bind. destruct (m s) as [s1 [a|e]] eqn:He.
  - intros Hr. etrans; [by eapply Hm|by eapply Hk].
  - intros [= <- _]. by eapply Hm.
Qed.
Lemma spares_exec f : (∀ d, accounts_kept d (f d)) → spares (exec f).
Proof. intros Hf s s' r [= <- _]. apply Hf. Qed.
Lemma spares_for_each {A} (f : A → Tx unit) l : (∀ x, spares (f x)) → spares (for_each f l).
Proof.
  intros Hf. induction l as [|x l IH]; [by apply spares_readonly, readonly_ret|].
  apply spares_bind; [apply Hf|intros _; exact IH].
Qed.
Lemma spares_catch {A} (m : Tx A) h : spares m → (∀ e, spares (h e)) → spares (catch m h).
Proof.
  intros Hm Hh s s' r. unfold catch. destruct (m s) as [s1 [a|e]] eqn:He.
  - intros [= <- _]. by eapply Hm.
  - intros Hr. etrans; [by eapply Hm|by eapply Hh].
Qed.
Lemma spares_executeTx {A} (fn : Tx A) : spares fn → spares (executeTx fn).
Proof.
  intros Hf s s' r. unfold executeTx. destruct (Edge.inTransaction s); [by intros [= <- _]|].
  destruct (fn _) as [s1 [a|e]] eqn:He; intros [= <- _]; [|done]. by apply Hf in He.
Qed.
Lemma spares_tx {A} (fn : Tx A) dm : spares fn → spares (runInTransaction fn dm).
Proof.
  intros Hf s s' r. unfold runInTransaction, runInDurabilityMode. destruct dm as [mode|]; [|by apply spares_executeTx].
  case_decide; [by apply spares_executeTx|].
  destruct (executeTx fn _) as [s2 r2] eqn:He. intros [= <- _]. apply spares_executeTx in He; [|done].
  by case_decide.
Qed.

#[export] Hint Resolve spares_exec spares_tx spares_for_each : effects.

Ltac solve_spares :=
  repeat first
    [ match goal with
      | |- spares (_ ≫= _) => apply spares_bind; [|intros ?]
      | |- spares (exec _) => apply spares_exec; by intros []
      | |- spares (runInTransaction _ _) => apply spares_tx
      | |- spares (for_each _ _) => apply spares_for_each; intros ?
      | |- spares (catch _ _) => apply spares_catch; [|intros ?]
      | |- spares (match ?x with _ => _ end) => destruct x
      | |- spares _ => apply spares_readonly; solve [solve_atomic]
      end ].

Section shifts.
Context {V : IamPinValidatorPort} {St : ShiftAssignmentStrategy}.

Lemma updateShiftRow_spares id v f : spares (SqliteShifts.updateShiftRow id v f).
Proof.
  unfold SqliteShifts.updateShiftRow, SqliteShifts.writeShiftRow, SqliteShifts.getShiftById. solve_spares.
Qed.

Lemma saveShift_spares sh v : spares (SqliteShifts.saveShift sh v).
Proof.
  unfold SqliteShifts.saveShift, SqliteShifts.check_tenant, SqliteShifts.writeShiftRow, SqliteShifts.insertOperator,
    SqliteShifts.getShiftById. pose proof updateShiftRow_spares. solve_spares; eauto.
Qed.

Lemma runShift_spares c : spares (runShift c).
Proof.
  pose proof updateShiftRow_spares. pose proof saveShift_spares. pose proof requirePin_readonly.
  destruct c; unfold runShift, abrirTurno, agregarOperador, registrarMovimiento, generarCorteX, realizarArqueoCiego,
    generarCorteZ, require_open, check_shift_version;
    cbn [getActiveShift getShiftById saveShift addMovement listMovements saveArqueoCiego saveCorteZ adapter_of
       SqliteCashShiftRepository];
    unfold SqliteShifts.getActiveShift, SqliteShifts.getShiftById, SqliteShifts.listMovements, SqliteShifts.addMovement,
      SqliteShifts.saveArqueoCiego, SqliteShifts.saveCorteZ, SqliteShifts.check_tenant, SqliteShifts.insertArqueo,
      SqliteShifts.insertMovimiento, SqliteShifts.insertCorte, SqliteShifts.auditDifference, enqueue, recordAudit;
    cbv zeta; solve_spares; eauto using spares_readonly.
Qed.
End shifts.

(** ** The server: requests of every service, tenders stage by stage *)

(** where a tender stands between two awaits *)
Inductive Stage :=
| Received (command : SubmitTender.t)
| Fresh (command : SubmitTender.t)
| Authorised (command : SubmitTender.t)
| HasAccount (command : SubmitTender.t) (cuenta : Cuenta.t)
| Prepared (tender : Tender.t)
| Answered (answer : PaymentSettlementResult.t).

(** what a stage draws: the clock and two identifiers of the service, the adapter's draws
    and its test hook *)
Module StageDraws.
Record t := mk {
  now : string; pagoId : string; movementId : string; adapter : SqlitePayments.Draws.t;
  hook : Pago.t → option PosError }.
End StageDraws.

Module Server.
(** the connection and the stages the tenders have reached *)
Record t := mk { conn : Edge.t; tenders : list Stage }.
End Server.

Section server.
Context {V : IamPinValidatorPort} {St : ShiftAssignmentStrategy} (options : PaymentOptions.t).
Implicit Types s : Edge.t.

Definition commitTender (d : StageDraws.t) : AtomicSettlementParams.t → Tx Pago.t :=
  SqlitePayments.executeAtomicSettlement options (StageDraws.adapter d) (StageDraws.hook d).
Definition payments (d : StageDraws.t) : PaymentRepositoryPort Edge.t :=
  SqlitePaymentRepository options (StageDraws.adapter d) (StageDraws.hook d).

(** runs a tender to its next await *)
Definition advance (d : StageDraws.t) (st : Stage) : Tx Stage :=
  let R := payments d in
  match st with
  | Received command =>
      existing ← findPaymentByClientOpId (SubmitTender.cuentaId command) (SubmitTender.clientOpId command);
      match existing with
      | Some pago => r ← replayTender command pago; mret (Answered r)
      | None => mret (Fresh command)
      end
  | Fresh command => authorizeTender options command ;; mret (Authorised command)
  | Authorised command => cuenta ← readPayable command; mret (HasAccount command cuenta)
  | HasAccount command cuenta =>
      t ← prepareTender options (StageDraws.now d) (StageDraws.pagoId d) (StageDraws.movementId d) command cuenta;
      mret (Prepared t)
  | Prepared t => p ← executeAtomicSettlement (Tender.params t); mret (Answered (Tender.result t p))
  | Answered r => mret (Answered r)
  end.

Fixpoint advance_all (n : nat) (d : StageDraws.t) (st : Stage) : Tx Stage :=
  match n with O => mret st | S n' => st' ← advance d st; advance_all n' d st' end.

Lemma advance_all_answered n d r s : advance_all n d (Answered r) s = (s, Ok (Answered r)).
Proof. induction n as [|n IH]; [done|exact IH]. Qed.

(** without interleaving, a tender is its five stages *)
Lemma submitTender_stages d command s :
  (@submitTender _ (payments d) _ _ _ options (StageDraws.now d) (StageDraws.pagoId d) (StageDraws.movementId d) command ≫=
    λ r, mret (Answered r)) s = advance_all 5 d (Received command) s.
Proof.
  unfold submitTender. change (advance_all 5 d) with (λ st, st' ← advance d st; advance_all 4 d st'). cbn [advance].
  rewrite !bind_assoc. apply bind_ext; [done|]. intros [pago|] u.
  - rewrite bind_assoc. apply bind_ext; [done|]. intros r v. by rewrite bind_ret, advance_all_answered.
  - rewrite bind_ret. cbn [advance_all advance]. rewrite !bind_assoc. apply bind_ext; [done|]. intros [] v.
    rewrite bind_ret. cbn [advance]. rewrite !bind_assoc. apply bind_ext; [done|]. intros c w.
    rewrite bind_ret. cbn [advance]. rewrite !bind_assoc. apply bind_ext; [done|]. intros t x.
    rewrite bind_ret. cbn [advance]. rewrite !bind_assoc. apply bind_ext; [done|]. intros p y. by rewrite !bind_ret.
Qed.

(** one event of the server; a stage once reached may be resumed again, as a retried
    request does *)
Inductive server_step (w : Server.t) : Server.t → Prop :=
| dining_request createdAt c events s' res (Hrun : serve createdAt c events (Server.conn w) = (s', res)) :
    server_step w (Server.mk s' (Server.tenders w))
| shift_request c s' res (Hrun : runShift c (Server.conn w) = (s', res)) :
    server_step w (Server.mk s' (Server.tenders w))
| tender_arrives command : server_step w (Server.mk (Server.conn w) (Received command :: Server.tenders w))
| tender_advances d st st' s' (Hin : st ∈ Server.tenders w)
    (Hrun : advance d st (Server.conn w) = (s', Ok st')) : server_step w (Server.mk s' (st' :: Server.tenders w))
| tender_fails d st e s' (Hin : st ∈ Server.tenders w)
    (Hrun : advance d st (Server.conn w) = (s', Err e)) : server_step w (Server.mk s' (Server.tenders w)).

Definition reachable : Server.t → Server.t → Prop := rtc server_step.
Definition start (s : Edge.t) : Server.t := Server.mk s [].

(** *** What the stages read *)

Lemma authorizeTender_readonly c : readonly (authorizeTender (S := Edge.t) options c).
Proof.
  unfold authorizeTender. cbn [lookupShift SqliteShiftLookup]. unfold SqliteShifts.getShiftById. solve_atomic.
Qed.

Lemma readPayable_readonly c : readonly (readPayable (S := Edge.t) c).
Proof. unfold readPayable. cbn [getCuentaById SqliteAccountRepository]. unfold SqliteDining.getCuentaByIdSync. solve_atomic. Qed.

Lemma prepareTender_readonly d command c :
  readonly (@prepareTender _ (payments d) options (StageDraws.now d) (StageDraws.pagoId d) (StageDraws.movementId d) command c).
Proof. unfold prepareTender. cbn. unfold SqlitePayments.listPaymentsByCuentaId. solve_atomic. Qed.

Lemma replayTender_readonly d c p : readonly (@replayTender _ (payments d) _ c p).
Proof.
  unfold replayTender. cbn. unfold SqliteDining.getCuentaByIdSync, SqlitePayments.listPaymentsByCuentaId. solve_atomic.
Qed.

Lemma header_selectCuenta d a : header_at d a = header <$> SqliteDining.selectCuenta d a.
Proof. unfold header_at, SqliteDiningFacts.selectHeader, SqliteDining.selectCuenta. by destruct (_ !! _). Qed.

(** *** What a stage still knows of the database *)

(** the account as it was read, or a later version of it *)
Definition still_or_later (d : Db.t) (c : Cuenta.t) (ps : list Pago.t → Prop) : Prop :=
  ∃ h, header_at d (Cuenta.id c) = Some h ∧
    ((h = header c ∧ ps (pagos_on d (Cuenta.id c))) ∨ Cuenta.version c < Cuenta.version h).

(** [t] is the settlement of a positive amount on account [c], given its payments [ps] *)
Definition settlement_of (t : Tender.t) (command : SubmitTender.t) (c : Cuenta.t) (ps : list Pago.t) : Prop :=
  Cuenta.id c = SubmitTender.cuentaId command ∧ isPayable c = true ∧ 0 < SubmitTender.amount command ∧
  ∃ now pagoId movementId, settle options now pagoId movementId command c (tipOf command) ps = Ok t.

Definition stage_ok (d : Db.t) (st : Stage) : Prop :=
  match st with
  | HasAccount command c =>
      Cuenta.id c = SubmitTender.cuentaId command ∧ isPayable c = true ∧ still_or_later d c (λ _, True)
  | Prepared t => ∃ command c ps, settlement_of t command c ps ∧ still_or_later d c (λ l, ps ≡ₚ l)
  | _ => True
  end.

Lemma still_progress d d' c ps : progress d d' → still_or_later d c ps → still_or_later d' c ps.
Proof.
  intros Hp (h & Hh & Hcase). destruct (Hp _ _ Hh) as (h' & Hh' & Hcase'). exists h'. split; [done|].
  destruct Hcase as [[-> Hps]|Hlt], Hcase' as [[-> E]|Hlt']; [left; split; [done|congruence]|right..]; simpl in *; lia.
Qed.

Lemma stage_progress d d' st : progress d d' → stage_ok d st → stage_ok d' st.
Proof.
  intros Hp. destruct st; simpl; try done.
  - intros (? & ? & Hs). split_and!; try done. by eapply still_progress.
  - intros (cmd & c & ps & Hset & Hs). exists cmd, c, ps. split; [done|]. by eapply still_progress.
Qed.

(** the payments a tender has seen, and those of the account *)
Lemma prepareTender_settles d command c s s' t :
  @prepareTender _ (payments d) options (StageDraws.now d) (StageDraws.pagoId d) (StageDraws.movementId d) command c s
    = (s', Ok t) →
  s' = s ∧ 0 < SubmitTender.amount command ∧
  settle options (StageDraws.now d) (StageDraws.pagoId d) (StageDraws.movementId d) command c (tipOf command)
    (SqlitePayments.selectPagos (Edge.db s) (SubmitTender.cuentaId command)) = Ok t.
Proof.
  unfold prepareTender. cbn. unfold SqlitePayments.listPaymentsByCuentaId. intros Hrun. txinv Hrun. simpl_guards.
  unfold lift in Hrun. injection Hrun as <- Ht. split_and!; done.
Qed.

Lemma readPayable_reads command s s' c :
  readPayable (S := Edge.t) command s = (s', Ok c) →
  s' = s ∧ SqliteDining.selectCuenta (Edge.db s) (SubmitTender.cuentaId command) = Some c ∧ isPayable c = true.
Proof.
  unfold readPayable. cbn [getCuentaById SqliteAccountRepository]. unfold SqliteDining.getCuentaByIdSync.
  intros Hrun. txinv Hrun. simpl_guards. done.
Qed.

(** *** What a commit does *)

Definition option_rows {A} (o : option A) : list A := match o with Some x => [x] | None => [] end.

(** the tables after params [q] are committed on [d], the accounts and lines apart *)
Definition committed (draws : SqlitePayments.Draws.t) (q : AtomicSettlementParams.t) (d d' : Db.t) : Prop :=
  Db.pagos d' = Db.pagos d ++ [AtomicSettlementParams.pago q] ∧
  Db.movimientos_caja d' = Db.movimientos_caja d ++ option_rows (AtomicSettlementParams.cashMovement q) ∧
  Db.outbox_queue d' = Db.outbox_queue d ++
    ((λ e, outbox_row (SqlitePayments.Draws.outboxCreatedAt draws) (SqlitePayments.pagadaEvent options draws q e)) <$>
       option_rows (AtomicSettlementParams.cuentaPagadaEvent q)) ∧
  Db.local_audit_trail d' = Db.local_audit_trail d ++ [SqlitePayments.pagoAudit options draws q] ∧
  Db.mesas d' = Db.mesas d ∧ Db.turnos_caja d' = Db.turnos_caja d ∧
  Db.turnos_caja_operadores d' = Db.turnos_caja_operadores d ∧
  Db.arqueos_ciegos d' = Db.arqueos_ciegos d ∧ Db.cortes_caja d' = Db.cortes_caja d.

(** the header after an account is saved at the version before its own *)
Definition saved_header (c : Cuenta.t) (d d' : Db.t) : Prop :=
  match header_at d (Cuenta.id c) with
  | Some old => Cuenta.version old = Cuenta.version c - 1 ∧ header_at d' (Cuenta.id c) = Some (stored_over old c)
  | None => Cuenta.version c = 1 ∧ header_at d' (Cuenta.id c) = Some (stored c)
  end ∧
  ∀ a, a ≠ Cuenta.id c → header_at d' a = header_at d a.

Lemma insertPago_ok p s s' r :
  SqlitePayments.insertPago p s = (s', Ok r) →
  Pago.id p ∉ (Pago.id <$> Db.pagos (Edge.db s)) ∧
  is_Some (Db.cuentas (Edge.db s) !! Pago.cuentaId p) ∧
  s' = s <| Edge.db ::= (λ d, d <| Db.pagos ::= (λ l, l ++ [p]) |>) |>.
Proof.
  unfold SqlitePayments.insertPago. intros Hrun. txinv Hrun. simpl_guards. split_and!; try done.
  destruct (_ !! _); [by eexists|done].
Qed.

Lemma recordAudit_ok a s s' r :
  recordAudit a s = (s', Ok r) →
  s' = s <| Edge.db ::= (λ d, d <| Db.local_audit_trail ::= (λ l, l ++ [a]) |>) |>.
Proof. unfold recordAudit. intros Hrun. by txinv Hrun. Qed.

Lemma saleMovement_ok o s s' r :
  match o with Some m => SqliteShifts.insertMovimiento m | None => mret tt end s = (s', Ok r) →
  Edge.db s' = (Edge.db s) <| Db.movimientos_caja ::= (λ l, l ++ option_rows o) |>.
Proof.
  destruct o as [m|]; [by intros (_ & _ & ->)%ShiftFacts.insertMovimiento_ok|].
  intros [= <- _]. destruct s as [[] ? ?]. unfold set. simpl. by rewrite app_nil_r.
Qed.

Lemma settledEvent_ok t q s s' r :
  match AtomicSettlementParams.cuentaPagadaEvent q with
  | Some e => enqueue (SqlitePayments.Draws.outboxCreatedAt t) (SqlitePayments.pagadaEvent options t q e) ;; mret tt
  | None => mret tt end s = (s', Ok r) →
  Edge.db s' = (Edge.db s) <| Db.outbox_queue ::= (λ l, l ++
    ((λ e, outbox_row (SqlitePayments.Draws.outboxCreatedAt t) (SqlitePayments.pagadaEvent options t q e)) <$>
       option_rows (AtomicSettlementParams.cuentaPagadaEvent q))) |>.
Proof.
  destruct (AtomicSettlementParams.cuentaPagadaEvent q) as [e|]; intros Hrun.
  - minv Hrun. by match goal with H : enqueue _ _ _ = _ |- _ => apply enqueue_ok in H as (_ & _ & _ & _ & ->) end.
  - injection Hrun as <- _. destruct s as [[] ? ?]. unfold set. simpl. by rewrite app_nil_r.
Qed.

Lemma commit_ok draws hook q s s' r :
  SqlitePayments.executeAtomicSettlement options draws hook q s = (s', Ok r) →
  let p := AtomicSettlementParams.pago q in
  let d := Edge.db s in
  (SqlitePayments.selectPago d (Pago.cuentaId p) (Pago.clientOpId p) = Some r ∧ Edge.db s' = d) ∨
  (SqlitePayments.selectPago d (Pago.cuentaId p) (Pago.clientOpId p) = None ∧ r = p ∧ hook p = None ∧
   Pago.id p ∉ (Pago.id <$> Db.pagos d) ∧ is_Some (Db.cuentas d !! Pago.cuentaId p) ∧
   committed draws q d (Edge.db s') ∧ saved_header (AtomicSettlementParams.updatedCuenta q) d (Edge.db s')).
Proof.
  unfold SqlitePayments.executeAtomicSettlement. intros (Htx & s1 & Hrun & -> & _)%runInTransaction_ok.
  cbv zeta in Hrun |- *.
  unfold SqlitePayments.findPaymentByClientOpId in Hrun. rewrite bind_query in Hrun. rewrite tx_entry_db in Hrun.
  destruct (SqlitePayments.selectPago _ _ _) as [p0|] eqn:Hsel; [left; minv Hrun; done|right].
  minv Hrun. apply insertPago_ok in Hstep as (Hid & Hfk & ->). apply saveCuenta_headers in Hstep0 as (_ & Honly & Hown & Hother).
  apply saleMovement_ok in Hstep1. apply settledEvent_ok in Hstep2. apply recordAudit_ok in Hstep3 as ->.
  simpl. rewrite Hstep2, Hstep1. split_and!; [done..| |].
  - unfold only_accounts in Honly. unfold committed. rewrite Honly. done.
  - split; [|exact Hother]. unfold saved_header in *. simpl in *.
    destruct (header_at (Edge.db s) _) as [old|] eqn:Hold; unfold header_at, SqliteDiningFacts.selectHeader in *;
      simpl in *; rewrite Hold in Hown; naive_solver lia.
Qed.

(** a settlement, in terms of the account and the payments it was computed from *)
Definition settles (c : Cuenta.t) (ps : list Pago.t) (command : SubmitTender.t) : bool :=
  sumAmounts ps + SubmitTender.amount command =? Cuenta.totalAmount c.

Lemma settle_spec now pagoId movementId command c ps t :
  0 < SubmitTender.amount command →
  settle options now pagoId movementId command c (tipOf command) ps = Ok t →
  let q := Tender.params t in
  let paid := sumAmounts ps + SubmitTender.amount command in
  let tips := sumTips ps + tipOf command in
  let done := settles c ps command in
  paid <= Cuenta.totalAmount c ∧
  (∃ given change, cashChange command (tipOf command) = Ok (given, change) ∧
     AtomicSettlementParams.pago q = newPago now pagoId command (tipOf command) given change) ∧
  AtomicSettlementParams.updatedCuenta q = paidCuenta c now tips done ∧
  AtomicSettlementParams.cashMovement q = cashSale now movementId command c pagoId (tipOf command) ∧
  AtomicSettlementParams.cuentaPagadaEvent q =
    (if done then Some (settledEvent options now c (ps ++ [AtomicSettlementParams.pago q]) tips) else None) ∧
  ∀ p, Tender.result t p = PaymentSettlementResult.mk p (Cuenta.totalAmount c) paid tips (Cuenta.totalAmount c - paid) done
    (if done then PAGADA else Cuenta.status c) (if done then Some now else Cuenta.closedAt c) false
    (AtomicSettlementParams.cashMovement q) (AtomicSettlementParams.cuentaPagadaEvent q).
Proof.
  intros Hpos. unfold settle. cbv zeta. destruct (_ <? _) eqn:Hle; [done|].
  destruct (cashChange _ _) as [[given change]|] eqn:Hc; [|done]. simpl. simpl_guards.
  assert (Hpaid : sumAmounts ps + SubmitTender.amount command <= Cuenta.totalAmount c).
  { unfold remaining in Hle. destruct (Z.ltb_spec (sumAmounts ps) (Cuenta.totalAmount c)); lia. }
  assert (Hrem : remaining (Cuenta.totalAmount c) (sumAmounts ps + SubmitTender.amount command) =
                 Cuenta.totalAmount c - (sumAmounts ps + SubmitTender.amount command)).
  { unfold remaining. destruct (Z.ltb_spec (sumAmounts ps + SubmitTender.amount command) (Cuenta.totalAmount c)); lia. }
  assert (Hdone : (remaining (Cuenta.totalAmount c) (sumAmounts ps + SubmitTender.amount command) =? 0) =
                  settles c ps command).
  { rewrite Hrem. unfold settles. apply eq_bool_prop_intro. rewrite !Is_true_true, !Z.eqb_eq. lia. }
  rewrite Hdone, Hrem. intros [= <-]. simpl. split_and!; try done. by exists given, change.
Qed.

Lemma commit_step draws hook t command c ps s s' r :
  settlement_of t command c ps → still_or_later (Edge.db s) c (λ l, ps ≡ₚ l) →
  SqlitePayments.executeAtomicSettlement options draws hook (Tender.params t) s = (s', Ok r) →
  progress (Edge.db s) (Edge.db s').
Proof.
  intros (Hid & Hpay & Hpos & now & pid & mid & Hset) Hstill Hrun.
  apply settle_spec in Hset as (Hle & (given & change & Hc & Hp) & Hu & _); [|done].
  apply commit_ok in Hrun as [[_ ->]|(_ & _ & _ & _ & _ & Hcom & Hown & Hother)]; [done|].
  intros a h Hh. rewrite Hu in Hown, Hother. simpl in *. unfold pagos_on.
  destruct Hcom as (Hpagos & _). rewrite Hpagos, filter_app, Hp, filter_cons, filter_nil. simpl.
  destruct (decide (a = Cuenta.id c)) as [->|Hne].
  - rewrite Hh in Hown. destruct Hown as [Hver Hnew]. eexists. split; [exact Hnew|]. right. simpl. lia.
  - exists h. rewrite Hother by done. split; [done|]. left. split; [done|]. rewrite decide_False by congruence.
    by rewrite app_nil_r.
Qed.

Lemma advance_ok d st s s' st' :
  advance d st s = (s', Ok st') → stage_ok (Edge.db s) st →
  progress (Edge.db s) (Edge.db s') ∧ stage_ok (Edge.db s') st'.
Proof.
  intros Hrun Hok. destruct st; cbn [advance] in Hrun.
  - apply bind_ok in Hrun as (o & s1 & [= <- <-] & Hrun). destruct (SqlitePayments.selectPago _ _ _).
    + minv Hrun. match goal with H : replayTender _ _ _ = _ |- _ => apply replayTender_readonly in H as -> end. done.
    + minv Hrun. done.
  - minv Hrun. match goal with H : authorizeTender _ _ _ = _ |- _ => apply authorizeTender_readonly in H as -> end. done.
  - minv Hrun. match goal with H : readPayable _ _ = _ |- _ => apply readPayable_reads in H as (-> & Hc & Hp) end.
    split; [done|]. pose proof (selectCuenta_id _ _ _ Hc) as Hid. split; [done|]. split; [done|].
    exists (header r). rewrite header_selectCuenta, Hid, Hc. split; [done|]. by left.
  - minv Hrun. match goal with H : prepareTender _ _ _ _ _ _ _ = _ |- _ => apply prepareTender_settles in H as (-> & Hpos & Hset) end.
    split; [done|]. destruct Hok as (Hid & Hpay & h & Hh & Hcase). exists command, cuenta. eexists. split.
    { split_and!; [done..|]. eauto. }
    exists h. split; [done|]. destruct Hcase as [[-> _]|]; [left|by right]. split; [done|].
    rewrite Hid. apply orderBy_permutation.
  - minv Hrun. destruct Hok as (cmd & c & ps & Hset & Hstill). split; [|exact I]. eapply commit_step; [exact Hset|exact Hstill|exact Hstep].
  - minv Hrun. done.
Qed.

(** *** Every event of the server *)

(** payments have distinct keys and an account *)
Definition pago_key (p : Pago.t) : string * string := (Pago.cuentaId p, Pago.clientOpId p).
Definition payments_ok (d : Db.t) : Prop :=
  NoDup (pago_key <$> Db.pagos d) ∧ ∀ p, p ∈ Db.pagos d → is_Some (header_at d (Pago.cuentaId p)).

(** accounts progress, and payments are only appended *)
Definition moves (d d' : Db.t) : Prop :=
  progress d d' ∧ (payments_ok d → payments_ok d') ∧ ∃ l, Db.pagos d' = Db.pagos d ++ l.

#[export] Instance moves_preorder : PreOrder moves.
Proof.
  split.
  - intros d. split_and!; [done..|]. exists []. by rewrite app_nil_r.
  - intros d1 d2 d3 (P1 & K1 & l1 & E1) (P2 & K2 & l2 & E2). split_and!; [by etrans|auto|].
    exists (l1 ++ l2). by rewrite E2, E1, app_assoc.
Qed.

Lemma progress_account d d' a : progress d d' → is_Some (header_at d a) → is_Some (header_at d' a).
Proof. intros Hp [h Hh]. destruct (Hp a h Hh) as (h' & -> & _). by eexists. Qed.

Lemma quiet_moves d d' : quiet d d' → moves d d'.
Proof.
  intros [Hp He]. split_and!; [done| |exists []; by rewrite app_nil_r].
  unfold payments_ok. rewrite He. intros [Hk Ha]. split; [done|]. intros p Hin. by eapply progress_account, Ha.
Qed.

Lemma kept_moves d d' : accounts_kept d d' → moves d d'.
Proof. intros [Hc Hp]. apply quiet_moves. split; [by apply progress_same|done]. Qed.

Lemma header_row d a : is_Some (header_at d a) ↔ is_Some (Db.cuentas d !! a).
Proof.
  unfold header_at, SqliteDiningFacts.selectHeader. destruct (Db.cuentas d !! a); simpl; [|done].
  split; intros _; by eexists.
Qed.

Lemma selectPago_None d a op :
  SqlitePayments.selectPago d a op = None ↔ (a, op) ∉ (pago_key <$> Db.pagos d).
Proof.
  unfold SqlitePayments.selectPago. rewrite head_None. split.
  - intros Hnil (p & Hk & Hp)%list_elem_of_fmap. unfold pago_key in Hk. injection Hk as -> ->.
    assert (Hin : p ∈ filter (λ q, Pago.cuentaId q = Pago.cuentaId p ∧ Pago.clientOpId q = Pago.clientOpId p) (Db.pagos d))
      by (by apply list_elem_of_filter). rewrite Hnil in Hin. by apply not_elem_of_nil in Hin.
  - intros Hno. apply filter_none. intros p Hp [<- <-]. apply Hno. by apply (list_elem_of_fmap_2 pago_key).
Qed.

Lemma selectPago_Some d a op p :
  payments_ok d → p ∈ Db.pagos d → pago_key p = (a, op) → SqlitePayments.selectPago d a op = Some p.
Proof.
  intros [Hk _] Hp Hkey. destruct (SqlitePayments.selectPago d a op) as [p'|] eqn:Hs.
  - unfold SqlitePayments.selectPago in Hs. apply head_Some_elem_of in Hs.
    apply list_elem_of_filter in Hs as [[<- <-] Hp']. f_equal.
    apply list_elem_of_lookup in Hp as [i Hi], Hp' as [j Hj].
    assert (i = j) as ->; [|congruence]. apply (NoDup_lookup _ _ _ (pago_key p) Hk); rewrite list_lookup_fmap.
    + by rewrite Hi.
    + rewrite Hj. simpl. by rewrite Hkey.
  - apply selectPago_None in Hs. destruct Hs. rewrite <- Hkey. by apply list_elem_of_fmap_2.
Qed.

Lemma filter_key_singleton d p :
  NoDup (pago_key <$> Db.pagos d) → p ∈ Db.pagos d → filter (λ q, pago_key q = pago_key p) (Db.pagos d) = [p].
Proof.
  generalize (Db.pagos d). intros l Hk Hp. apply list_elem_of_split in Hp as (l1 & l2 & ->).
  rewrite fmap_app, fmap_cons in Hk. apply NoDup_app in Hk as (_ & H1 & [H2 _]%NoDup_cons).
  rewrite filter_app, filter_cons, decide_True by done.
  rewrite !filter_none; [done| |]; intros q Hq Hkey.
  - apply H2. rewrite <- Hkey. by apply list_elem_of_fmap_2.
  - apply (H1 (pago_key q)); [by apply list_elem_of_fmap_2|]. rewrite Hkey. by left.
Qed.

Lemma commit_moves draws hook t command c ps s s' r :
  settlement_of t command c ps → still_or_later (Edge.db s) c (λ l, ps ≡ₚ l) →
  SqlitePayments.executeAtomicSettlement options draws hook (Tender.params t) s = (s', Ok r) →
  moves (Edge.db s) (Edge.db s').
Proof.
  intros Hset Hstill Hrun. pose proof (commit_step _ _ _ _ _ _ _ _ _ Hset Hstill Hrun) as Hp. split; [done|].
  apply commit_ok in Hrun as [[_ ->]|(Hnew & _ & _ & _ & Hfk & (Hpagos & _) & _)].
  - split; [done|]. exists []. by rewrite app_nil_r.
  - unfold payments_ok. rewrite Hpagos. split; [|by eexists]. intros [Hk Ha]. rewrite fmap_app. split.
    + apply NoDup_snoc; [done|]. by apply selectPago_None in Hnew.
    + intros p [Hin| ->%list_elem_of_singleton]%elem_of_app; (eapply progress_account; [exact Hp|]);
        [by apply Ha|by apply header_row].
Qed.

Lemma serve_quiet createdAt c events s s' res :
  Edge.inTransaction s = false → serve createdAt c events s = (s', res) → quiet (Edge.db s) (Edge.db s').
Proof.
  intros Htx Hs. destruct res as [u|e].
  - apply serve_ok in Hs as (s1 & Hrun & _ & ->); [|done]. apply run_quiet in Hrun. exact Hrun.
  - by apply serve_err in Hs as [-> _].
Qed.

Lemma advance_atomic d st : atomic (advance d st).
Proof.
  pose proof authorizeTender_readonly. pose proof readPayable_readonly. pose proof (prepareTender_readonly d).
  pose proof (replayTender_readonly d).
  destruct st; cbn [advance]; cbn [findPaymentByClientOpId executeAtomicSettlement payments SqlitePaymentRepository];
    unfold SqlitePayments.findPaymentByClientOpId, SqlitePayments.executeAtomicSettlement; solve_atomic; eauto.
Qed.

Lemma advance_settled d st : settled (advance d st).
Proof.
  pose proof authorizeTender_readonly. pose proof readPayable_readonly. pose proof (prepareTender_readonly d).
  pose proof (replayTender_readonly d).
  destruct st; cbn [advance]; cbn [findPaymentByClientOpId executeAtomicSettlement payments SqlitePaymentRepository];
    unfold SqlitePayments.findPaymentByClientOpId, SqlitePayments.executeAtomicSettlement; solve_settled;
    eauto using settled_readonly.
Qed.

(** the server is between requests, and every stage it holds is accurate *)
Definition server_ok (w : Server.t) : Prop :=
  Edge.inTransaction (Server.conn w) = false ∧ ∀ st, st ∈ Server.tenders w → stage_ok (Edge.db (Server.conn w)) st.

Lemma advance_moves d st s s' st' :
  advance d st s = (s', Ok st') → stage_ok (Edge.db s) st → moves (Edge.db s) (Edge.db s').
Proof.
  intros Hrun Hok. destruct st; cbn [advance] in Hrun.
  5: { minv Hrun. destruct Hok as (cmd & c & ps & Hset & Hstill).
       eapply commit_moves; [exact Hset|exact Hstill|exact Hstep]. }
  all: assert (s' = s) as ->; [|done].
  - apply bind_ok in Hrun as (o & s1 & [= <- <-] & Hrun). destruct (SqlitePayments.selectPago _ _ _); minv Hrun; [|done].
    by apply replayTender_readonly in Hstep.
  - minv Hrun. by apply authorizeTender_readonly in Hstep.
  - minv Hrun. by apply readPayable_readonly in Hstep.
  - minv Hrun. by apply prepareTender_readonly in Hstep.
  - by minv Hrun.
Qed.

Lemma server_step_moves w w' :
  server_step w w' → server_ok w → moves (Edge.db (Server.conn w)) (Edge.db (Server.conn w')) ∧ server_ok w'.
Proof.
  intros Hstep [Htx Hall].
  assert (Hkeep : ∀ d', progress (Edge.db (Server.conn w)) d' → ∀ st, st ∈ Server.tenders w → stage_ok d' st).
  { intros d' Hp st Hin. eapply stage_progress; [exact Hp|by apply Hall]. }
  destruct Hstep as [t c ev s' res Hrun|c s' res Hrun|command|d st st' s' Hin Hrun|d st e s' Hin Hrun]; unfold server_ok; simpl.
  - pose proof (serve_quiet _ _ _ _ _ _ Htx Hrun) as Hq. split; [by apply quiet_moves|].
    split; [by eapply serve_tx|]. apply Hkeep. by destruct Hq.
  - pose proof (kept_moves _ _ (runShift_spares _ _ _ _ Hrun)) as Hm. split; [done|].
    split; [by eapply runShift_settled|]. apply Hkeep. by destruct Hm.
  - split; [done|]. split; [done|]. intros st [->|Hin]%elem_of_cons; [done|by apply Hall].
  - pose proof (advance_moves _ _ _ _ _ Hrun (Hall _ Hin)) as Hm. split; [done|].
    split; [by eapply advance_settled|]. intros x [->|Hx]%elem_of_cons.
    + by apply (advance_ok _ _ _ _ _ Hrun (Hall _ Hin)).
    + apply Hkeep; [by destruct Hm|done].
  - pose proof (advance_atomic _ _ _ _ _ Htx Hrun) as E. rewrite E. split; [done|].
    split; [by eapply advance_settled|]. exact Hall.
Qed.

Lemma reachable_ok w w' :
  reachable w w' → server_ok w → moves (Edge.db (Server.conn w)) (Edge.db (Server.conn w')) ∧ server_ok w'.
Proof.
  induction 1 as [w|w1 w2 w3 Hstep _ IH]; intros Hok; [by split|].
  destruct (server_step_moves _ _ Hstep Hok) as [Hm Hok2]. destruct (IH Hok2) as [Hm' Hok3].
  split; [by etrans|done].
Qed.

Lemma start_ok s : Edge.inTransaction s = false → server_ok (start s).
Proof. intros Htx. split; [done|]. intros st Hin. by apply not_elem_of_nil in Hin. Qed.

(** ** Properties *)

Definition paid (d : Db.t) (a : string) : Z := sumZ Pago.amount (pagos_on d a).
Definition tips (d : Db.t) (a : string) : Z := sumZ Pago.tipAmount (pagos_on d a).

Lemma pagos_on_snoc d d' p :
  Db.pagos d' = Db.pagos d ++ [p] → pagos_on d' (Pago.cuentaId p) = pagos_on d (Pago.cuentaId p) ++ [p].
Proof. intros E. unfold pagos_on. by rewrite E, filter_app, filter_cons, decide_True. Qed.

Lemma sumAmounts_sumZ ps : sumAmounts ps = sumZ Pago.amount ps.
Proof. unfold sumAmounts. by rewrite foldl_sumZ. Qed.
Lemma sumTips_sumZ ps : sumTips ps = sumZ Pago.tipAmount ps.
Proof. unfold sumTips. by rewrite foldl_sumZ. Qed.

(** C2: no overpayment, whatever runs between a tender's awaits.  In every state the server
    reaches, requests of the dining and shift services and any number of tenders being
    interleaved await by await, a tender that commits either finds its own payment already
    stored and writes nothing, or adds one positive payment to an account that is open or
    printed and whose payments then add up to no more than its total; the account becomes
    PAGADA exactly when they add up to it, keeps its total, stores the sum of the tips, and
    the answer reports the balance that is left. *)
Theorem tender_never_overcharges s w t d s' answer :
  Edge.inTransaction s = false → reachable (start s) w → Prepared t ∈ Server.tenders w →
  advance d (Prepared t) (Server.conn w) = (s', Ok (Answered answer)) →
  let before := Edge.db (Server.conn w) in
  let after := Edge.db s' in
  let p := PaymentSettlementResult.pago answer in
  let a := Pago.cuentaId p in
  after = before ∨
  ∃ c c', header_at before a = Some c ∧ header_at after a = Some c' ∧ isPayable c = true ∧
    pagos_on after a = pagos_on before a ++ [p] ∧ 0 < Pago.amount p ∧
    paid after a <= Cuenta.totalAmount c ∧ Cuenta.totalAmount c' = Cuenta.totalAmount c ∧
    Cuenta.tipsTotal c' = tips after a ∧ Cuenta.version c' = Cuenta.version c + 1 ∧
    Cuenta.status c' = (if paid after a =? Cuenta.totalAmount c then PAGADA else Cuenta.status c) ∧
    PaymentSettlementResult.remainingBalance answer = Cuenta.totalAmount c - paid after a ∧
    PaymentSettlementResult.accountSettled answer = (paid after a =? Cuenta.totalAmount c).
Proof.
  intros Htx Hw Hin Hrun. destruct (reachable_ok _ _ Hw (start_ok s Htx)) as [_ [_ Hall]].
  destruct (Hall _ Hin) as (command & c & ps & (Hid & Hpay & Hpos & now & pid & mid & Hset) & h & Hh & Hcase).
  apply settle_spec in Hset as (Hle & (given & change & _ & Hp) & Hu & _ & _ & Hres); [|done].
  cbn [advance] in Hrun. minv Hrun. apply commit_ok in Hstep as [[_ ->]|(_ & -> & _ & _ & _ & Hcom & Hown & _)]; [by left|right].
  destruct Hcom as (Hpagos & _). apply pagos_on_snoc in Hpagos as Hon. rewrite Hres. cbn [PaymentSettlementResult.pago
    PaymentSettlementResult.remainingBalance PaymentSettlementResult.accountSettled].
  assert (Ha : Pago.cuentaId (AtomicSettlementParams.pago (Tender.params t)) = Cuenta.id c) by (rewrite Hp, Hid; done).
  rewrite Hu in Hown. cbn [Cuenta.id paidCuenta set] in Hown. change (Cuenta.id (paidCuenta _ _ _ _)) with (Cuenta.id c) in Hown.
  rewrite Ha in *. rewrite Hh in Hown. destruct Hown as [Hver Hnew]. simpl in Hver.
  destruct Hcase as [[-> Hperm]|]; [|lia].
  assert (Hpaid : paid (Edge.db s') (Cuenta.id c) = sumAmounts ps + SubmitTender.amount command).
  { unfold paid. rewrite Hon, sumZ_snoc, sumAmounts_sumZ, Hperm, Hp. done. }
  assert (Htips : tips (Edge.db s') (Cuenta.id c) = sumTips ps + tipOf command).
  { unfold tips. rewrite Hon, sumZ_snoc, sumTips_sumZ, Hperm, Hp. done. }
  rewrite Hpaid, Htips. eexists _, _. split; [exact Hh|]. split; [exact Hnew|]. unfold settles. simpl.
  split_and!; try done. rewrite Hp. done.
Qed.

(** Retries are idempotent.  Once a payment is stored, at any later moment and whatever
    has happened in between, submitting a tender with the same account and client operation
    succeeds, writes nothing, and answers that very payment as a replay, with no cash movement
    and no event; no second payment with that key is ever stored. *)
Theorem tender_retry_is_idempotent w w' p command now pagoId movementId d :
  reachable (start Edge.initial) w → reachable w w' → p ∈ Db.pagos (Edge.db (Server.conn w)) →
  SubmitTender.cuentaId command = Pago.cuentaId p → SubmitTender.clientOpId command = Pago.clientOpId p →
  filter (λ q, pago_key q = pago_key p) (Db.pagos (Edge.db (Server.conn w'))) = [p] ∧
  ∃ answer,
    @submitTender _ (payments d) _ _ _ options now pagoId movementId command (Server.conn w') =
      (Server.conn w', Ok answer) ∧
    PaymentSettlementResult.pago answer = p ∧ PaymentSettlementResult.isIdempotentReplay answer = true ∧
    PaymentSettlementResult.cashMovement answer = None ∧ PaymentSettlementResult.cuentaPagadaEvent answer = None.
Proof.
  intros Hw Hw' Hin Ea Eo.
  destruct (reachable_ok _ _ Hw (start_ok Edge.initial eq_refl)) as [(_ & Hk & _) Hok].
  destruct (reachable_ok _ _ Hw' Hok) as [(_ & Hk' & l & Hl) _].
  assert (Hpay : payments_ok (Edge.db (Server.conn w'))).
  { apply Hk', Hk. split; [constructor|]. intros q Hq. by apply not_elem_of_nil in Hq. }
  assert (Hin' : p ∈ Db.pagos (Edge.db (Server.conn w'))) by (rewrite Hl; set_solver).
  split; [by apply filter_key_singleton; [apply Hpay|]|].
  unfold submitTender. cbn [findPaymentByClientOpId payments SqlitePaymentRepository].
  unfold SqlitePayments.findPaymentByClientOpId. rewrite bind_query.
  rewrite (selectPago_Some _ _ _ p Hpay Hin') by (rewrite Ea, Eo; done).
  destruct Hpay as [_ Hacc]. apply Hacc in Hin' as Hh. rewrite header_selectCuenta, fmap_is_Some in Hh. destruct Hh as [c Hc].
  unfold replayTender. cbn [getCuentaById SqliteAccountRepository listPaymentsByCuentaId payments SqlitePaymentRepository].
  unfold SqliteDining.getCuentaByIdSync, SqlitePayments.listPaymentsByCuentaId.
  rewrite bind_query, Ea, Hc, bind_require, bind_query, run_ret. by eexists.
Qed.

(** the cash a tender puts in the drawer: one sale movement of amount and tip, on the
    tender's shift, that refers to its payment; nothing for other methods *)
Definition cash_sales (command : SubmitTender.t) (pagoId : string) (ms : list MovimientoCaja.t) : Prop :=
  match SubmitTender.paymentMethod command with
  | EFECTIVO => ∃ m, ms = [m] ∧ MovimientoCaja.movementType m = VENTA_EFECTIVO ∧
      MovimientoCaja.amount m = SubmitTender.amount command + tipOf command ∧
      MovimientoCaja.turnoCajaId m = SubmitTender.turnoCajaId command ∧
      MovimientoCaja.operatorUserId m = SubmitTender.operatorUserId command ∧
      MovimientoCaja.referenceId m = Some pagoId
  | _ => ms = []
  end.

(** one pending CuentaPagada of the account, if the tender settled it *)
Definition settlement_events (command : SubmitTender.t) (c : Cuenta.t) (settled : bool) (es : list OutboxRecord.t) : Prop :=
  if settled
  then ∃ e, es = [e] ∧ OutboxRecord.action e = "CuentaPagada" ∧ OutboxRecord.status e = PENDING ∧
    OutboxRecord.aggregateId e = SubmitTender.cuentaId command ∧
    OutboxRecord.clientOpId e = SubmitTender.clientOpId command ∧
    OutboxRecord.aggregateSequenceNumber e = Cuenta.version c + 1
  else es = [].

(** a settlement is all or nothing.  Committing the settlement computed for a positive
    tender either fails and leaves every table as it was; or finds the tender's payment
    stored and writes nothing; or appends together the payment, its cash sale, its settlement
    event and one audit record, and touches no table, shift, count or Corte Z.  Change, when
    there is any, is the cash given less amount and tip, and is never negative. *)
Theorem settlement_all_or_nothing now pagoId movementId command c ps t draws hook s s' res :
  Edge.inTransaction s = false → 0 < SubmitTender.amount command →
  settle options now pagoId movementId command c (tipOf command) ps = Ok t →
  SqlitePayments.executeAtomicSettlement options draws hook (Tender.params t) s = (s', res) →
  let before := Edge.db s in
  let after := Edge.db s' in
  Edge.inTransaction s' = false ∧
  match res with
  | Err _ => after = before
  | Ok p =>
      SqlitePayments.selectPago after (SubmitTender.cuentaId command) (SubmitTender.clientOpId command) = Some p ∧
      (after = before ∨
       ∃ sales events audit,
         Db.pagos after = Db.pagos before ++ [p] ∧
         Db.movimientos_caja after = Db.movimientos_caja before ++ sales ∧ cash_sales command pagoId sales ∧
         Db.outbox_queue after = Db.outbox_queue before ++ events ∧
         settlement_events command c (settles c ps command) events ∧
         Db.local_audit_trail after = Db.local_audit_trail before ++ [audit] ∧
         Pago.id p = pagoId ∧ Pago.amount p = SubmitTender.amount command ∧ Pago.tipAmount p = tipOf command ∧
         (∀ change, Pago.changeDue p = Some change → ∃ given, Pago.cashGiven p = Some given ∧
            change = given - (SubmitTender.amount command + tipOf command) ∧ 0 <= change) ∧
         Db.mesas after = Db.mesas before ∧ Db.turnos_caja after = Db.turnos_caja before ∧
         Db.arqueos_ciegos after = Db.arqueos_ciegos before ∧ Db.cortes_caja after = Db.cortes_caja before)
  end.
Proof.
  intros Htx Hpos Hset Hrun. apply settle_spec in Hset as (_ & (given & change & Hchange & Hp) & Hu & Hm & He & _); [|done].
  split; [exact (settled_tx _ _ _ _ _ Htx Hrun)|]. destruct res as [p|e]; [|exact (atomic_tx _ _ _ _ _ Htx Hrun)].
  apply commit_ok in Hrun as [[Hsel ->]|(Hsel & -> & _ & _ & _ & (H1 & H2 & H3 & H4 & H5 & H6 & _ & H7 & H8) & _)];
    rewrite Hp in Hsel; [by split; [|left]|]. split.
  { unfold SqlitePayments.selectPago in *. rewrite H1, filter_app, head_app. simpl in Hsel. rewrite Hsel.
    rewrite filter_cons, decide_True by (by rewrite Hp). done. }
  right. eexists _, _, _. rewrite Hm in H2. rewrite He in H3. split; [exact H1|]. split; [exact H2|].
  split; [unfold cash_sales, cashSale; destruct (SubmitTender.paymentMethod command); simpl; eauto 10|].
  split; [exact H3|]. split.
  { unfold settlement_events. destruct (settles c ps command); [|done]. eexists. split; [done|].
    unfold SqlitePayments.pagadaEvent, outbox_row. rewrite Hp, Hu. done. }
  split; [exact H4|]. rewrite Hp. split_and!; try done. simpl. intros x ->.
  unfold cashChange in Hchange. destruct (SubmitTender.paymentMethod command), (SubmitTender.cashGiven command); simplify_eq.
  destruct (_ <? _) eqn:Hlt; simplify_eq. simpl_guards. eexists. split; [done|]. split; [done|]. lia.
Qed.
End server.

(** ** Witnesses: an account is paid in two tenders, in cash and by card *)

#[local] Instance payment_pins : IamPinValidatorPort := {| validatePin _ pin _ := Promise (bool_decide (pin = "1234")) |}.

Definition example_options : PaymentOptions.t := PaymentOptions.mk (Some "org") (Some "br") (Some "st").
Definition example_op1 : string := "16fd2706-8baf-433b-82eb-8c7fada847da".
Definition example_op2 : string := "886313e1-3b8a-4372-9b90-0c9aee199e5d".
Definition example_cash : SubmitTender.t :=
  SubmitTender.mk "c1" "s1" "ana" "1234" EFECTIVO 300000 (Some 50000) (Some 400000) None example_op1.
Definition example_card : SubmitTender.t :=
  SubmitTender.mk "c1" "s1" "ana" "1234" TARJETA 280000 None None (Some "A-77") example_op2.
Definition draws_of (n : string) : StageDraws.t :=
  StageDraws.mk "2026-01-01T13" ("p" +:+ n) ("mv" +:+ n)
    (SqlitePayments.Draws.mk ("ob" +:+ n) "t" ("au" +:+ n) "t") (λ _, None).

Definition dine (c : Command) (w : Server.t) : Server.t :=
  Server.mk (serve "t" c [] (Server.conn w)).1 (Server.tenders w).
Definition keep_shift (c : ShiftCommand) (w : Server.t) : Server.t :=
  Server.mk (runShift c (Server.conn w)).1 (Server.tenders w).
Definition arrive (c : SubmitTender.t) (w : Server.t) : Server.t :=
  Server.mk (Server.conn w) (Received c :: Server.tenders w).

(** resumes the tender that moved last *)
Definition resume (d : StageDraws.t) (w : Server.t) : Server.t :=
  match Server.tenders w with
  | [] => w
  | st :: _ =>
      match advance example_options d st (Server.conn w) with
      | (s', Ok st') => Server.mk s' (st' :: Server.tenders w)
      | (s', Err _) => Server.mk s' (Server.tenders w)
      end
  end.

Lemma reach_dine w0 w c : reachable example_options w0 w → reachable example_options w0 (dine c w).
Proof.
  intros Hw. eapply rtc_r; [exact Hw|]. unfold dine. destruct (serve _ _ _ _) eqn:E. by eapply dining_request.
Qed.
Lemma reach_shift w0 w c : reachable example_options w0 w → reachable example_options w0 (keep_shift c w).
Proof.
  intros Hw. eapply rtc_r; [exact Hw|]. unfold keep_shift. destruct (runShift _ _) eqn:E. by eapply shift_request.
Qed.
Lemma reach_arrive w0 w c : reachable example_options w0 w → reachable example_options w0 (arrive c w).
Proof. intros Hw. eapply rtc_r; [exact Hw|]. apply tender_arrives. Qed.
Lemma reach_resume w0 w d : reachable example_options w0 w → reachable example_options w0 (resume d w).
Proof.
  intros Hw. unfold resume. destruct (Server.tenders w) as [|st l] eqn:El; [done|].
  assert (Hin : st ∈ Server.tenders w) by (rewrite El; by left). rewrite <- El.
  destruct (advance _ _ _ _) as [s' [st'|e]] eqn:E; (eapply rtc_r; [exact Hw|]).
  - by eapply tender_advances.
  - by eapply tender_fails.
Qed.

(** an open account of 58.0000 at an open shift, and a cash tender ready to commit *)
Definition server_open : Server.t :=
  keep_shift example_abrir (dine (AddItem "t2" "c1" 1 (AddItemInput.mk "i1" "p1" "Taco" 250000 20000 1600 None None))
    (dine (OpenCuenta "t1" "t1" (OpenCuentaInput.mk "c1" None "EPOCH-2026-00001" COMEDOR "u1" None (Some 2)))
      (start Edge.initial))).
Definition to_commit (d : StageDraws.t) (c : SubmitTender.t) (w : Server.t) : Server.t :=
  Nat.iter 4 (resume d) (arrive c w).
Definition server_ready : Server.t := to_commit (draws_of "1") example_cash server_open.
Definition server_paid : Server.t := resume (draws_of "1") server_ready.
Definition server_settled : Server.t := resume (draws_of "2") (to_commit (draws_of "2") example_card server_paid).

Lemma reach_to_commit w0 w d c :
  reachable example_options w0 w → reachable example_options w0 (to_commit d c w).
Proof. intros Hw. unfold to_commit. simpl. do 4 apply reach_resume. by apply reach_arrive. Qed.

Lemma reach_ready : reachable example_options (start Edge.initial) server_ready.
Proof. apply reach_to_commit, reach_shift, reach_dine, reach_dine. apply rtc_refl. Qed.

Example settled_summary :
  let d := Edge.db (Server.conn server_settled) in
  (Pago.changeDue <$> Db.pagos d, Cuenta.status <$> header_at d "c1", paid d "c1", length (Db.outbox_queue d)) =
  ([Some 50000; None], Some PAGADA, 580000, 1%nat).
Proof. vm_compute. reflexivity. Qed.

Lemma tender_never_overcharges_witness :
  ∃ c c', header_at (Edge.db (Server.conn server_paid)) "c1" = Some c ∧
    header_at (Edge.db (Server.conn server_settled)) "c1" = Some c' ∧
    paid (Edge.db (Server.conn server_settled)) "c1" <= Cuenta.totalAmount c ∧ Cuenta.version c' = Cuenta.version c + 1.
Proof.
  set (w := to_commit (draws_of "2") example_card server_paid).
  assert (Hw : reachable example_options (start Edge.initial) w).
  { apply reach_to_commit. apply reach_resume. exact reach_ready. }
  destruct (Server.tenders w) as [|st l] eqn:El; [vm_compute in El; discriminate El|].
  assert (∃ t, st = Prepared t) as [t ->] by (vm_compute in El; injection El as <- _; by eexists).
  destruct (advance example_options (draws_of "2") (Prepared t) (Server.conn w)) as [s' res] eqn:Erun.
  assert (Hs : s' = Server.conn server_settled).
  { change server_settled with (resume (draws_of "2") w). unfold resume. rewrite El, Erun. by destruct res. }
  assert (∃ answer, res = Ok (Answered answer)) as [answer ->].
  { vm_compute in El. injection El as <- _. vm_compute in Erun. injection Erun as _ <-. by eexists. }
  pose proof (tender_never_overcharges example_options Edge.initial w t (draws_of "2") s' answer eq_refl Hw
    ltac:(rewrite El; by left) Erun) as [Hsame|(c & c' & Hc & Hc' & _ & Hon & _ & Hle & _ & _ & Hver & _)].
  - exfalso. rewrite Hs in Hsame. vm_compute in Hsame. discriminate Hsame.
  - assert (Ha : Pago.cuentaId (PaymentSettlementResult.pago answer) = "c1").
    { vm_compute in El. injection El as <- _. vm_compute in Erun. injection Erun as _ <-. reflexivity. }
    rewrite Ha, Hs in *. exists c, c'. split; [|split; [exact Hc'|split; [exact Hle|exact Hver]]].
    rewrite <- Hc. vm_compute. reflexivity.
Defined.

Lemma tender_retry_is_idempotent_witness :
  ∃ answer, (@submitTender _ (payments example_options (draws_of "9")) _ _ _ example_options "later" "p9" "mv9" example_cash
     (Server.conn server_settled)).2 = Ok answer ∧ PaymentSettlementResult.isIdempotentReplay answer = true.
Proof.
  destruct (Db.pagos (Edge.db (Server.conn server_paid))) as [|p l] eqn:Ep; [vm_compute in Ep; discriminate Ep|].
  assert (Hp : Pago.cuentaId p = "c1" ∧ Pago.clientOpId p = example_op1) by (vm_compute in Ep; injection Ep as <- _; done).
  destruct (tender_retry_is_idempotent example_options server_paid server_settled p example_cash "later" "p9" "mv9" (draws_of "9")
    ltac:(apply reach_resume; exact reach_ready) ltac:(apply reach_resume, reach_to_commit, rtc_refl)
    ltac:(rewrite Ep; by left) ltac:(by destruct Hp as [-> _]) ltac:(by destruct Hp as [_ ->]))
    as (_ & answer & -> & _ & Hr & _).
  exists answer. split; [reflexivity|exact Hr].
Defined.

Definition example_account : Cuenta.t :=
  match SqliteDining.selectCuenta (Edge.db (Server.conn server_open)) "c1" with
  | Some c => c
  | None => newCuenta "" (OpenCuentaInput.mk "" None "" COMEDOR "" None None)
  end.

Lemma settlement_all_or_nothing_witness :
  ∃ t sales, settle example_options "t" "p1" "mv1" example_cash example_account 50000 [] = Ok t ∧
    Db.movimientos_caja (Edge.db (SqlitePayments.executeAtomicSettlement example_options
      (StageDraws.adapter (draws_of "1")) (λ _, None) (Tender.params t) (Server.conn server_open)).1) =
      Db.movimientos_caja (Edge.db (Server.conn server_open)) ++ sales ∧ cash_sales example_cash "p1" sales.
Proof.
  destruct (settle example_options "t" "p1" "mv1" example_cash example_account 50000 []) as [t|e] eqn:Et;
    [|vm_compute in Et; discriminate Et].
  exists t. destruct (SqlitePayments.executeAtomicSettlement _ _ _ _ _) as [s' res] eqn:Erun.
  assert (Hr : ∃ p, res = Ok p ∧ Db.pagos (Edge.db s') = [p]).
  { vm_compute in Et. injection Et as <-. vm_compute in Erun. injection Erun as <- <-. eexists. split; reflexivity. }
  destruct Hr as (p & -> & Hp).
  pose proof (settlement_all_or_nothing example_options "t" "p1" "mv1" example_cash example_account [] t
    (StageDraws.adapter (draws_of "1")) (λ _, None) (Server.conn server_open) s' (Ok p)
    ltac:(vm_compute; reflexivity) ltac:(vm_compute; reflexivity) Et Erun)
    as (_ & _ & [Hsame|(sales & _ & _ & _ & Hm & Hsales & _)]).
  - exfalso. rewrite Hsame in Hp. vm_compute in Hp. discriminate Hp.
  - exists sales. split; [reflexivity|]. split; [exact Hm|exact Hsales].
Defined.

(** ** A sale that escapes the count *)

(** the shift is counted between a cash tender's reading and its commit *)
Definition server_late : Server.t :=
  resume (draws_of "1")
    (keep_shift (Arqueo "2026-01-01T20" "a1" (RealizarArqueoCiego.mk "s1" "ana" 5000000 1 (Some "1234"))) server_ready).

(** A cash sale can escape the count.  The server reaches a state in which a counted
    shift's stored expected cash is less than its opening float and movements: a tender
    checked while the shift was open commits its cash movement after the blind count, since
    the movement neither rechecks nor advances the shift. *)
Theorem late_cash_sale_escapes_count :
  ∃ w row stored, reachable example_options (start Edge.initial) w ∧
    Db.turnos_caja (Edge.db (Server.conn w)) !! "s1" = Some row ∧ TurnoCajaRow.status row = CERRADO_ARQUEO ∧
    TurnoCajaRow.calculated_cash_total row = Some stored ∧
    expected_cash (TurnoCajaRow.opening_cash_float row)
      (movements_on (Db.movimientos_caja (Edge.db (Server.conn w))) "s1") = stored + 350000 ∧
    paid (Edge.db (Server.conn w)) "c1" = 300000.
Proof.
  exists server_late. eexists _, _. split; [apply reach_resume, reach_shift, reach_ready|].
  split_and!; vm_compute; reflexivity.
Qed.
