(* ===== verification/Leases.v ===== *)
(** Cloud folio leases: packages/database/src/leases.ts over the table folio_leases.

    A method runs in one PostgreSQL transaction that holds the advisory lock of its scope
    (organisation, branch, folio type) and, at the default READ COMMITTED level, reads after
    taking it; runs on one scope are therefore serial and each is one step on the table.
    Row-level security shows a transaction the rows of its organisation, which the WHERE
    clauses repeat.  Identifiers, the fencing token and the clock are drawn values. *)
From S2P Require Import Prelude Decimals Epochs.
From Stdlib Require Import Sorting.Sorted.

(* folio-contracts.ts:9-18 VALID_FOLIO_TYPES, isValidFolioType *)
Definition isValidFolioType (val : string) : bool :=
  bool_decide (val ∈ ["TICKET"; "CORTE_X"; "CORTE_Z"; "FACTURA"]).

Module CloudStatus.
(* folio-contracts.ts:20-30 CloudFolioLeaseStatus *)
Inductive t := ALLOCATED | ACTIVE | EXHAUSTED | REVOKED | ABANDONED_CONTINGENCY_RANGE | RECONCILED.
#[global] Instance eq_dec : EqDecision t.
Proof. solve_decision. Defined.
End CloudStatus.

Module FolioLease.
(** a row, and the record read from it *)
(* leases.ts:35-50 FolioLeaseRecord *)
Record t := mk {
  id : string; organizationId : string; branchId : string; folioType : string; epochId : string;
  fencingToken : string; rangeStart : Z; rangeEnd : Z; highWaterMark : Z; status : CloudStatus.t;
  allocatedAt : string; revokedAt : option string; abandonedAt : option string; reconciledAt : option string }.
#[global] Instance eta_t : Eta t := λ r,
  mk (id r) (organizationId r) (branchId r) (folioType r) (epochId r) (fencingToken r) (rangeStart r) (rangeEnd r)
     (highWaterMark r) (status r) (allocatedAt r) (revokedAt r) (abandonedAt r) (reconciledAt r).
End FolioLease.

Module AllocateLease.
(* leases.ts:52-58 AllocateLeaseOptions *)
Record t := mk {
  organizationId : string; branchId : string; folioType : string; requestedBlockSize : option Z;
  isDisasterRecoveryReplacement : bool }.
End AllocateLease.

Module HeartbeatLease.
(* leases.ts:60-68 HeartbeatLeaseOptions *)
Record t := mk {
  organizationId : string; branchId : string; leaseId : string; folioType : string; epochId : string;
  fencingToken : string; currentFolio : Z }.
End HeartbeatLease.

Module HeartbeatAck.
(* leases.ts:70-75 HeartbeatAckResult *)
Record t := mk { leaseId : string; highWaterMark : Z; activeEpoch : string }.
End HeartbeatAck.

(* leases.ts:81-153 FolioLeaseError *)
Inductive LeaseError :=
| FolioLeaseError (code : string) (httpStatus : Z)
| LeaseRevokedError (activeEpoch : string)
| ActiveLeaseExistsError (activeLeaseId activeEpoch : string)
| PgError (constraint : string)
| LeaseJs (e : JsError).

Definition InvalidFolioTypeError : LeaseError := FolioLeaseError "INVALID_FOLIO_TYPE" 400.
Definition InvalidBlockSizeError : LeaseError := FolioLeaseError "INVALID_BLOCK_SIZE" 400.
Definition FolioOutOfRangeError : LeaseError := FolioLeaseError "FOLIO_OUT_OF_RANGE" 400.
Definition HighWaterRegressionError : LeaseError := FolioLeaseError "HIGH_WATER_REGRESSION" 400.
Definition InvalidFencingTokenError : LeaseError := FolioLeaseError "INVALID_FENCING_TOKEN" 403.
Definition LeaseNotFoundError : LeaseError := FolioLeaseError "LEASE_NOT_FOUND" 404.

Module Cloud.
(** the branches that exist, and the table *)
(* 20260904200000_folio_leases.sql:7-28 folio_leases *)
Record t := mk { branches : list (string * string); folio_leases : list FolioLease.t }.
#[global] Instance eta_t : Eta t := λ c, mk (branches c) (folio_leases c).
End Cloud.

Abbreviation CloudTx := (M Cloud.t LeaseError).

(** BEGIN; m; COMMIT, with ROLLBACK on a throw *)
Definition pgTransaction {A} (m : CloudTx A) : CloudTx A := λ c,
  match m c with (c', Ok a) => (c', Ok a) | (_, Err e) => (c, Err e) end.

Definition scope_of (r : FolioLease.t) : string * string * string :=
  (FolioLease.organizationId r, FolioLease.branchId r, FolioLease.folioType r).

(** the leases of a scope, latest range first *)
(* leases.ts:243-256 allocateLease, historicalRes *)
Definition historical (c : Cloud.t) (sc : string * string * string) : list FolioLease.t :=
  orderByDesc FolioLease.rangeEnd (filter (λ r, scope_of r = sc) (Cloud.folio_leases c)).

Definition isLive (r : FolioLease.t) : bool :=
  match FolioLease.status r with CloudStatus.ACTIVE | CloudStatus.ALLOCATED => true | _ => false end.

(** [UPDATE folio_leases SET ... WHERE id = $1] *)
Definition updateLease (id : string) (f : FolioLease.t → FolioLease.t) : CloudTx unit :=
  modify (λ c, c <| Cloud.folio_leases ::= fmap (λ r, if decide (FolioLease.id r = id) then f r else r) |>).

(** primary key and UNIQUE (organization_id, branch_id, folio_type, epoch_id) *)
(* leases.ts:318-354 allocateLease, INSERT *)
Definition insertLease (r : FolioLease.t) : CloudTx unit :=
  rows ← gets Cloud.folio_leases;
  throw_when (bool_decide (FolioLease.id r ∈ (FolioLease.id <$> rows))) (PgError "folio_leases_pkey") ;;
  throw_when (bool_decide ((scope_of r, FolioLease.epochId r) ∈ ((λ r, (scope_of r, FolioLease.epochId r)) <$> rows)))
    (PgError "uq_folio_leases_epoch") ;;
  throw_when (negb ((1 <=? FolioLease.rangeStart r) && (FolioLease.rangeStart r <=? FolioLease.rangeEnd r)))
    (PgError "chk_folio_leases_range") ;;
  modify (λ c, c <| Cloud.folio_leases ::= (λ l, l ++ [r]) |>).

Definition maxima_step (acc : result JsError (Z * Z)) (row : FolioLease.t) : result JsError (Z * Z) :=
  result_bind acc (λ '(maxRangeEnd, maxEpochNumber),
  result_bind (parseEpochNumber (FolioLease.epochId row)) (λ epNum,
  Ok (if maxRangeEnd <? FolioLease.rangeEnd row then FolioLease.rangeEnd row else maxRangeEnd,
      if maxEpochNumber <? epNum then epNum else maxEpochNumber))).

(** where the next range starts, and its epoch *)
(* leases.ts:286-312 allocateLease, rangeStart and nextEpoch *)
Definition nextRange (rows : list FolioLease.t) : result JsError (Z * string) :=
  match rows with
  | [] => Ok (GREENFIELD_INITIAL_RANGE_START, "ep_1")
  | _ =>
      result_bind (foldl maxima_step (Ok (0, 0)) rows) (λ '(maxRangeEnd, maxEpochNumber),
      result_bind (formatEpochId (maxEpochNumber + 1)) (λ nextEpoch, Ok (maxRangeEnd + 1, nextEpoch)))
  end.

Definition js {A} (r : result JsError A) : CloudTx A :=
  lift (match r with Ok a => Ok a | Err e => Err (LeaseJs e) end).

(** what an allocation draws *)
Module LeaseDraws.
Record t := mk { id : string; fencingToken : string; now : string }.
End LeaseDraws.

(* leases.ts:197-212 allocateLease, blockSize *)
Definition blockSize (requested : option Z) : result LeaseError Z :=
  match requested with
  | None => Ok DEFAULT_BLOCK_SIZE
  | Some n => if (n <? MIN_BLOCK_SIZE) || (MAX_BLOCK_SIZE <? n) then Err InvalidBlockSizeError else Ok n
  end.

(* leases.ts:186-386 allocateLease *)
Definition allocateLease (draws : LeaseDraws.t) (options : AllocateLease.t) : CloudTx FolioLease.t :=
  throw_when (negb (isValidFolioType (AllocateLease.folioType options))) InvalidFolioTypeError ;;
  blockSize ← lift (blockSize (AllocateLease.requestedBlockSize options));
  pgTransaction (
    let sc := (AllocateLease.organizationId options, AllocateLease.branchId options, AllocateLease.folioType options) in
    branches ← gets Cloud.branches;
    throw_when (bool_decide ((AllocateLease.organizationId options, AllocateLease.branchId options) ∉ branches))
      (FolioLeaseError "UNAUTHORIZED_BRANCH" 403) ;;
    rows ← gets (λ c, historical c sc);
    match list_find (λ r, isLive r = true) rows with
    | Some (_, active) =>
        throw_when (negb (AllocateLease.isDisasterRecoveryReplacement options))
          (ActiveLeaseExistsError (FolioLease.id active) (FolioLease.epochId active)) ;;
        updateLease (FolioLease.id active) (λ r,
          r <| FolioLease.status := CloudStatus.ABANDONED_CONTINGENCY_RANGE |>
            <| FolioLease.abandonedAt := Some (LeaseDraws.now draws) |>)
    | None => mret tt
    end ;;
    next ← js (nextRange rows);
    let '(rangeStart, nextEpoch) := (next : Z * string) in
    let row := FolioLease.mk (LeaseDraws.id draws) (AllocateLease.organizationId options)
      (AllocateLease.branchId options) (AllocateLease.folioType options) nextEpoch (LeaseDraws.fencingToken draws)
      rangeStart (rangeStart + blockSize - 1) (rangeStart - 1) CloudStatus.ACTIVE (LeaseDraws.now draws)
      None None None in
    insertLease row ;;
    mret row).

(* leases.ts:393-537 heartbeat *)
Definition heartbeat (options : HeartbeatLease.t) : CloudTx HeartbeatAck.t :=
  throw_when (negb (isValidFolioType (HeartbeatLease.folioType options))) InvalidFolioTypeError ;;
  pgTransaction (
    let sc := (HeartbeatLease.organizationId options, HeartbeatLease.branchId options, HeartbeatLease.folioType options) in
    rows ← gets (λ c, historical c sc);
    activeLease ← require (head rows) LeaseNotFoundError;
    epochComparison ← js (compareEpochs (HeartbeatLease.epochId options) (FolioLease.epochId activeLease));
    throw_when (epochComparison <? 0) (LeaseRevokedError (FolioLease.epochId activeLease)) ;;
    throw_when (0 <? epochComparison) (FolioLeaseError "INVALID_EPOCH" 400) ;;
    throw_when (bool_decide (HeartbeatLease.leaseId options ≠ FolioLease.id activeLease))
      (LeaseRevokedError (FolioLease.epochId activeLease)) ;;
    throw_when (bool_decide (HeartbeatLease.fencingToken options ≠ FolioLease.fencingToken activeLease))
      InvalidFencingTokenError ;;
    throw_when ((HeartbeatLease.currentFolio options <? FolioLease.rangeStart activeLease - 1) ||
                (FolioLease.rangeEnd activeLease <? HeartbeatLease.currentFolio options)) FolioOutOfRangeError ;;
    throw_when (HeartbeatLease.currentFolio options <? FolioLease.highWaterMark activeLease) HighWaterRegressionError ;;
    throw_when (bool_decide (FolioLease.status activeLease = CloudStatus.REVOKED) ||
                bool_decide (FolioLease.status activeLease = CloudStatus.ABANDONED_CONTINGENCY_RANGE))
      (LeaseRevokedError (FolioLease.epochId activeLease)) ;;
    updateLease (FolioLease.id activeLease) (λ r,
      r <| FolioLease.highWaterMark := HeartbeatLease.currentFolio options |>
        <| FolioLease.status := (if HeartbeatLease.currentFolio options =? FolioLease.rangeEnd activeLease
                                 then CloudStatus.EXHAUSTED else CloudStatus.ACTIVE) |>) ;;
    mret (HeartbeatAck.mk (FolioLease.id activeLease) (HeartbeatLease.currentFolio options)
            (FolioLease.epochId activeLease))).

(* leases.ts:542-606 getAuthoritativeLease *)
Definition getAuthoritativeLease (organizationId branchId folioType : string) : CloudTx (option FolioLease.t) :=
  gets (λ c, head (historical c (organizationId, branchId, folioType))).
