(* ===== verification/Folios.v ===== *)
(** Local folio leases: packages/edge/src/db/folio-persistence.ts over the connection of
    [EdgeDb].  A folio type is the string given by the caller, which the code checks; the
    numbers are integral. *)
From S2P Require Import Prelude Epochs PosTypes EdgeDb Leases.

Definition InvalidFolio : PosError := FolioError None.
(* folio-persistence.ts:48-54 FolioLeaseUnavailableError *)
Definition FolioLeaseUnavailableError : PosError := FolioError (Some "LEASE_UNAVAILABLE").
(* folio-persistence.ts:56-62 FolioLeaseExhaustedError *)
Definition FolioLeaseExhaustedError : PosError := FolioError (Some "LEASE_EXHAUSTED").
(* folio-persistence.ts:64-70 FolioLeaseRevokedError *)
Definition FolioLeaseRevokedError : PosError := FolioError (Some "LEASE_REVOKED").

Module SetActiveLease.
(* folio-persistence.ts:33-40 SetActiveLeaseInput *)
Record t := mk {
  folioType : string; epochId : string; fencingToken : string; rangeStart : Z; rangeEnd : Z;
  currentFolio : option Z }.
End SetActiveLease.

Module FolioPersistence.

Definition pos_js {A} (r : result JsError A) : Tx A :=
  lift (match r with Ok a => Ok a | Err e => Err (Js e) end).

(* folio-persistence.ts:206-235 getLocalLease *)
Definition getLocalLease (folioType : string) : Tx (option LocalLease.t) :=
  query (λ d, Db.local_folio_leases d !! folioType).

Definition initialFolio (input : SetActiveLease.t) : Z :=
  default (SetActiveLease.rangeStart input - 1) (SetActiveLease.currentFolio input).

(** the checks against the lease already installed *)
(* folio-persistence.ts:143-175 setActiveLease, current lease *)
Definition checkCurrent (input : SetActiveLease.t) (current : LocalLease.t) : Tx unit :=
  cmp ← pos_js (compareEpochs (SetActiveLease.epochId input) (LocalLease.epochId current));
  throw_when (cmp <? 0) InvalidFolio ;;
  if cmp =? 0 then
    throw_when (bool_decide (SetActiveLease.fencingToken input ≠ LocalLease.fencingToken current)) InvalidFolio ;;
    throw_when (bool_decide (SetActiveLease.rangeStart input ≠ LocalLease.rangeStart current) ||
                bool_decide (SetActiveLease.rangeEnd input ≠ LocalLease.rangeEnd current)) InvalidFolio ;;
    throw_when (initialFolio input <? LocalLease.currentFolio current) InvalidFolio
  else mret tt.

(* folio-persistence.ts:111-201 setActiveLease *)
Definition setActiveLease (input : SetActiveLease.t) : Tx unit :=
  throw_when (negb (isValidFolioType (SetActiveLease.folioType input))) InvalidFolio ;;
  throw_when ((SetActiveLease.rangeStart input <? 1) ||
              (SetActiveLease.rangeEnd input <? SetActiveLease.rangeStart input)) InvalidFolio ;;
  throw_when (negb (isValidEpochId (SetActiveLease.epochId input))) InvalidFolio ;;
  throw_when (bool_decide (SetActiveLease.fencingToken input = "")) InvalidFolio ;;
  throw_when ((initialFolio input <? SetActiveLease.rangeStart input - 1) ||
              (SetActiveLease.rangeEnd input <? initialFolio input)) InvalidFolio ;;
  runInTransaction (
    current ← getLocalLease (SetActiveLease.folioType input);
    match current with Some c => checkCurrent input c | None => mret tt end ;;
    exec (λ d, d <| Db.local_folio_leases ::= <[SetActiveLease.folioType input :=
      LocalLease.mk (SetActiveLease.epochId input) (SetActiveLease.fencingToken input)
        (SetActiveLease.rangeStart input) (SetActiveLease.rangeEnd input) (initialFolio input)
        (if initialFolio input =? SetActiveLease.rangeEnd input then LEASE_EXHAUSTED else LEASE_ACTIVE)]> |>))
    (Some FULL).

(** [UPDATE local_folio_leases SET ... WHERE folio_type = ?] *)
Definition updateLocal (folioType : string) (f : LocalLease.t → LocalLease.t) : Tx unit :=
  exec (λ d, d <| Db.local_folio_leases ::= alter f folioType |>).

(** [fault] is the test-only flag [#simulateConsumeFailure] *)
(* folio-persistence.ts:247-319 consumeNextFolio *)
Definition consumeNextFolio (fault : bool) (folioType : string) : Tx Z :=
  throw_when (negb (isValidFolioType folioType)) InvalidFolio ;;
  runInTransaction (
    found ← getLocalLease folioType;
    lease ← require found FolioLeaseUnavailableError;
    throw_when (bool_decide (LocalLease.status lease = LEASE_REVOKED)) FolioLeaseRevokedError ;;
    throw_when (bool_decide (LocalLease.status lease = LEASE_EXHAUSTED) ||
                (LocalLease.rangeEnd lease <=? LocalLease.currentFolio lease)) FolioLeaseExhaustedError ;;
    throw_when fault (Js (PlainError "Injected fault")) ;;
    let nextFolio := if LocalLease.currentFolio lease <? LocalLease.rangeStart lease
                     then LocalLease.rangeStart lease else LocalLease.currentFolio lease + 1 in
    if LocalLease.rangeEnd lease <? nextFolio then
      updateLocal folioType (λ r, r <| LocalLease.status := LEASE_EXHAUSTED |>) ;;
      mthrow FolioLeaseExhaustedError
    else
      updateLocal folioType (λ r,
        r <| LocalLease.currentFolio := nextFolio |>
          <| LocalLease.status := (if nextFolio =? LocalLease.rangeEnd lease then LEASE_EXHAUSTED else LEASE_ACTIVE) |>) ;;
      mret nextFolio) (Some FULL).

(* folio-persistence.ts:325-334 revokeLease *)
Definition revokeLease (folioType : string) : Tx unit :=
  runInTransaction (updateLocal folioType (λ r, r <| LocalLease.status := LEASE_REVOKED |>)) (Some FULL).

End FolioPersistence.
