(* ===== verification/FolioSpec.v ===== *)
(** Folios are never issued twice: the cloud grants disjoint, increasing ranges, an edge node
    consumes a range monotonically whatever is reinstalled or revoked, and any number of
    nodes of a branch together never issue the same number. *)
From S2P Require Import Prelude Epochs PosTypes EdgeDb Leases Folios.
From Stdlib Require Import Sorting.Sorted.

(** ** The cloud table *)

(** within a scope, in order of allocation: ranges and epochs strictly increase, and only the
    last lease may be live *)
Definition precedes (a b : FolioLease.t) : Prop :=
  FolioLease.rangeEnd a < FolioLease.rangeStart b ∧ isLive a = false ∧
  ∃ m n, parseEpochNumber (FolioLease.epochId a) = Ok m ∧ parseEpochNumber (FolioLease.epochId b) = Ok n ∧ m < n.

Definition lease_ok (r : FolioLease.t) : Prop :=
  1 <= FolioLease.rangeStart r <= FolioLease.rangeEnd r ∧
  FolioLease.rangeStart r - 1 <= FolioLease.highWaterMark r <= FolioLease.rangeEnd r ∧
  (FolioLease.status r = CloudStatus.EXHAUSTED → FolioLease.highWaterMark r = FolioLease.rangeEnd r) ∧
  ∃ n, parseEpochNumber (FolioLease.epochId r) = Ok n.

Definition chain (l : list FolioLease.t) : Prop := StronglySorted precedes l ∧ Forall lease_ok l.
Definition in_scope (rows : list FolioLease.t) (sc : string * string * string) : list FolioLease.t :=
  filter (λ r, scope_of r = sc) rows.
Definition cloud_ok (c : Cloud.t) : Prop :=
  NoDup (FolioLease.id <$> Cloud.folio_leases c) ∧ ∀ sc, chain (in_scope (Cloud.folio_leases c) sc).

(** what no update of a row changes *)
Definition identity (r : FolioLease.t) :=
  (FolioLease.id r, scope_of r, FolioLease.epochId r, FolioLease.fencingToken r, FolioLease.rangeStart r,
   FolioLease.rangeEnd r).

Lemma StronglySorted_snoc {A} (R : A → A → Prop) l x :
  StronglySorted R (l ++ [x]) ↔ StronglySorted R l ∧ Forall (λ a, R a x) l.
Proof.
  induction l as [|y l IH]; simpl; split.
  - intros _. split; constructor.
  - intros _. repeat constructor.
  - intros [Hs Hf]%StronglySorted_inv. apply IH in Hs as [Hs Hall]. apply Forall_app in Hf as [Hf Hx].
    rewrite Forall_singleton in Hx. split; by constructor.
  - intros [[Hs Hf]%StronglySorted_inv Hall]. apply Forall_cons in Hall as [Hx Hall].
    constructor; [by apply IH|]. apply Forall_app. split; [done|]. by apply Forall_singleton.
Qed.

Lemma insertDesc_last {A} (key : A → Z) x l : Forall (λ y, key x < key y) l → insertDesc key x l = l ++ [x].
Proof.
  induction l as [|y l IH]; intros Hall; [done|]. apply Forall_cons in Hall as [Hy Hall]. simpl.
  rewrite (proj2 (Z.leb_gt _ _) Hy). by rewrite IH.
Qed.

Lemma chain_ends l : chain l → ∀ x, x ∈ l → 1 <= FolioLease.rangeStart x <= FolioLease.rangeEnd x.
Proof. intros [_ Hall] x Hx. rewrite Forall_forall in Hall. by destruct (Hall x Hx). Qed.

Lemma chain_tail x l : chain (x :: l) → chain l ∧ Forall (precedes x) l.
Proof. intros [[Hs Hf]%StronglySorted_inv Hall]. apply Forall_cons in Hall as [_ Hall]. done. Qed.

Lemma orderByDesc_chain l : chain l → orderByDesc FolioLease.rangeEnd l = reverse l.
Proof.
  induction l as [|x l IH]; intros Hc; [done|]. pose proof (chain_tail _ _ Hc) as [Hl Hf].
  change (orderByDesc FolioLease.rangeEnd (x :: l)) with (insertDesc FolioLease.rangeEnd x (orderByDesc FolioLease.rangeEnd l)).
  rewrite IH by done. rewrite reverse_cons. apply insertDesc_last, Forall_forall. intros y Hy.
  rewrite elem_of_reverse in Hy.
  rewrite Forall_forall in Hf. destruct (Hf y Hy) as [Hlt _].
  pose proof (chain_ends _ Hl y Hy). lia.
Qed.

(** *** Positions in a chain *)

Lemma chain_before l i j a b : chain l → l !! i = Some a → l !! j = Some b → (i < j)%nat → precedes a b.
Proof.
  revert i j. induction l as [|x l IH]; intros i j Hc Hi Hj Hlt; [done|].
  apply chain_tail in Hc as [Hc Hf]. destruct i as [|i], j as [|j]; try lia; simpl in *.
  - injection Hi as <-. rewrite Forall_forall in Hf. apply Hf. by apply list_elem_of_lookup_2 in Hj.
  - apply (IH i j Hc Hi Hj). lia.
Qed.

(** a later epoch has a later range; the same epoch is the same lease *)
Lemma chain_epochs l a b m n :
  chain l → a ∈ l → b ∈ l → parseEpochNumber (FolioLease.epochId a) = Ok m →
  parseEpochNumber (FolioLease.epochId b) = Ok n →
  (m < n → FolioLease.rangeEnd a < FolioLease.rangeStart b) ∧ (m = n → a = b).
Proof.
  intros Hc [i Hi]%list_elem_of_lookup [j Hj]%list_elem_of_lookup Hm Hn.
  destruct (Nat.lt_trichotomy i j) as [Hlt|[->|Hlt]].
  - pose proof (chain_before _ _ _ _ _ Hc Hi Hj Hlt) as (Hr & _ & m' & n' & Hm' & Hn' & Hlt'). assert (m' = m ∧ n' = n) as [-> ->] by (split; congruence).
    split; intros; first [done|exfalso; lia].
  - assert (a = b) as -> by congruence. split; [|done]. assert (m = n) by congruence. lia.
  - pose proof (chain_before _ _ _ _ _ Hc Hj Hi Hlt) as (Hr & _ & m' & n' & Hm' & Hn' & Hlt'). assert (m' = n ∧ n' = m) as [-> ->] by (split; congruence).
    split; intros; first [done|exfalso; lia].
Qed.

(** a live lease is the last of its scope *)
Lemma chain_live l x : chain l → x ∈ l → isLive x = true → ∃ l0, l = l0 ++ [x].
Proof.
  intros Hc [i Hi]%list_elem_of_lookup Hlive. destruct (decide (i = length l - 1)%nat) as [->|Hne].
  - exists (take (length l - 1) l). apply lookup_lt_Some in Hi as Hlt.
    rewrite <- (take_drop_middle l _ x Hi) at 1. rewrite drop_ge by lia. done.
  - apply lookup_lt_Some in Hi as Hlt. destruct (lookup_lt_is_Some_2 l (length l - 1)) as [y Hy]; [lia|].
    pose proof (chain_before _ _ _ _ _ Hc Hi Hy ltac:(lia)) as (_ & Hno & _). congruence.
Qed.

Lemma chain_snoc l x : chain (l ++ [x]) ↔ chain l ∧ Forall (λ a, precedes a x) l ∧ lease_ok x.
Proof. unfold chain. rewrite StronglySorted_snoc, Forall_app, Forall_singleton. naive_solver. Qed.

Lemma precedes_identity a x x' : identity x' = identity x → precedes a x → precedes a x'.
Proof. intros [= _ _ _ _ He _ Hs _] (H1 & H2 & H3). unfold precedes. rewrite He, Hs. done. Qed.

(** *** Updating the last lease of a scope *)

Section update.
Context (f : FolioLease.t → FolioLease.t) (id : string).
Hypothesis f_identity : ∀ r, identity (f r) = identity r.
Let g (r : FolioLease.t) : FolioLease.t := if decide (FolioLease.id r = id) then f r else r.

Lemma g_identity r : identity (g r) = identity r.
Proof. unfold g. by case_decide. Qed.
Lemma identity_scope r r' : identity r' = identity r → scope_of r' = scope_of r.
Proof. unfold identity. congruence. Qed.
Lemma identity_id r r' : identity r' = identity r → FolioLease.id r' = FolioLease.id r.
Proof. unfold identity. congruence. Qed.

Lemma in_scope_update (rows : list FolioLease.t) sc : in_scope (g <$> rows) sc = g <$> in_scope rows sc.
Proof.
  unfold in_scope. induction rows as [|r rows IH]; [done|]. rewrite fmap_cons, !filter_cons.
  rewrite (identity_scope _ _ (g_identity r)). case_decide; [|done]. by rewrite fmap_cons, IH.
Qed.

Lemma update_none (l : list FolioLease.t) : (∀ r, r ∈ l → FolioLease.id r ≠ id) → g <$> l = l.
Proof.
  induction l as [|r l IH]; intros Hl; [done|]. rewrite fmap_cons, IH by (intros; apply Hl; by right).
  unfold g. by rewrite decide_False by (apply Hl; by left).
Qed.

Lemma update_last c c' sc l0 x r :
  cloud_ok c → in_scope (Cloud.folio_leases c) sc = l0 ++ [x] → FolioLease.id x = id → lease_ok (f x) →
  updateLease id f c = (c', Ok r) →
  cloud_ok c' ∧ Cloud.branches c' = Cloud.branches c ∧
  identity <$> Cloud.folio_leases c' = identity <$> Cloud.folio_leases c ∧
  in_scope (Cloud.folio_leases c') sc = l0 ++ [f x] ∧
  (∀ sc', sc' ≠ sc → in_scope (Cloud.folio_leases c') sc' = in_scope (Cloud.folio_leases c) sc').
Proof.
  intros [Hnd Hall] Hsc Hid Hok [= <- _]. simpl. fold g.
  assert (Hx : x ∈ in_scope (Cloud.folio_leases c) sc) by (rewrite Hsc; set_solver).
  apply list_elem_of_filter in Hx as [Hxs Hx].
  assert (Huniq : ∀ r, r ∈ Cloud.folio_leases c → FolioLease.id r = id → r = x).
  { intros y Hy Hyi. apply list_elem_of_lookup in Hy as [i Hi], Hx as [j Hj].
    assert (i = j) as ->; [|congruence]. apply (NoDup_lookup _ _ _ id Hnd); rewrite list_lookup_fmap.
    - by rewrite Hi, <- Hyi.
    - by rewrite Hj, <- Hid. }
  assert (Hsame : in_scope (g <$> Cloud.folio_leases c) sc = l0 ++ [f x]).
  { rewrite in_scope_update, Hsc, fmap_app. f_equal; [|unfold g; simpl; by rewrite decide_True].
    apply update_none. intros y Hy Hyi. specialize (Hall sc). rewrite Hsc in Hall.
    assert (Hyx : y = x).
    { apply Huniq; [|done]. assert (Hin : y ∈ in_scope (Cloud.folio_leases c) sc) by (rewrite Hsc; set_solver).
      by apply list_elem_of_filter in Hin as [_ Hin]. }
    subst y. apply chain_snoc in Hall as (_ & Hf & _). rewrite Forall_forall in Hf.
    destruct (Hf x Hy) as (_ & _ & m & n & Hm & Hn & Hlt). rewrite Hm in Hn. injection Hn as ->. lia. }
  assert (Hother : ∀ sc', sc' ≠ sc → in_scope (g <$> Cloud.folio_leases c) sc' = in_scope (Cloud.folio_leases c) sc').
  { intros sc' Hne. rewrite in_scope_update. apply update_none.
    intros y [Hys Hy]%list_elem_of_filter Hyi. apply Hne. by rewrite <- Hys, (Huniq y Hy Hyi). }
  split_and!; try done.
  - split.
    + simpl. rewrite <- list_fmap_compose, (list_fmap_ext (FolioLease.id ∘ g) FolioLease.id); [done|].
      intros k y _. simpl. apply identity_id, g_identity.
    + intros sc'. simpl. destruct (decide (sc' = sc)) as [->|Hne]; [|by rewrite Hother].
      rewrite Hsame. specialize (Hall sc). rewrite Hsc in Hall. apply chain_snoc in Hall as (H1 & H2 & _).
      apply chain_snoc. split_and!; [done| |done]. eapply Forall_impl; [exact H2|].
      intros a Ha. by eapply precedes_identity; [apply f_identity|].
  - rewrite <- list_fmap_compose. apply list_fmap_ext. intros k y _. apply g_identity.
Qed.
End update.

(** *** Allocation *)

Lemma pgTransaction_ok {A} (m : CloudTx A) c c' a : pgTransaction m c = (c', Ok a) → m c = (c', Ok a).
Proof. unfold pgTransaction. destruct (m c) as [c1 [b|e]]; congruence. Qed.
Lemma pgTransaction_err {A} (m : CloudTx A) c c' e : pgTransaction m c = (c', Err e) → c' = c.
Proof. unfold pgTransaction. destruct (m c) as [c1 [b|e']]; congruence. Qed.

(** the loop over the history computes upper bounds that are reached *)
Lemma maxima_ok rows e0 m0 :
  Forall lease_ok rows →
  ∃ e m, foldl maxima_step (Ok (e0, m0)) rows = Ok (e, m) ∧ e0 <= e ∧ m0 <= m ∧
    (∀ x, x ∈ rows → FolioLease.rangeEnd x <= e) ∧
    (∀ x n, x ∈ rows → parseEpochNumber (FolioLease.epochId x) = Ok n → n <= m) ∧
    (e = e0 ∨ ∃ x, x ∈ rows ∧ FolioLease.rangeEnd x = e).
Proof.
  revert e0 m0. induction rows as [|x rows IH]; intros e0 m0 Hok.
  - exists e0, m0. split_and!; try done; [by intros ? ?%not_elem_of_nil|by intros ? ? ?%not_elem_of_nil|by left].
  - apply Forall_cons in Hok as [(_ & _ & _ & n & Hn) Hok]. simpl. rewrite Hn. simpl.
    set (e1 := if e0 <? FolioLease.rangeEnd x then _ else _). set (m1 := if m0 <? n then _ else _).
    assert (He1 : e0 <= e1 ∧ FolioLease.rangeEnd x <= e1 ∧ (e1 = e0 ∨ e1 = FolioLease.rangeEnd x))
      by (unfold e1; destruct (Z.ltb_spec e0 (FolioLease.rangeEnd x)); lia).
    assert (Hm1 : m0 <= m1 ∧ n <= m1) by (unfold m1; destruct (Z.ltb_spec m0 n); lia).
    destruct (IH e1 m1 Hok) as (e & m & -> & He & Hm & Hends & Hnums & Hreach). exists e, m.
    split_and!; [done|lia|lia| | |].
    + intros y [->|Hy]%elem_of_cons; [lia|by apply Hends].
    + intros y k [->|Hy]%elem_of_cons Hk; [|by eapply Hnums]. assert (k = n) by congruence. lia.
    + destruct Hreach as [->|(y & Hy & <-)]; [|right; exists y; split; [by right|done]].
      destruct He1 as (_ & _ & [|]); [by left|right; exists x; split; [by left|done]].
Qed.

(** the next range starts right after the last, with a later epoch *)
Lemma nextRange_ok l start epoch :
  chain l → nextRange (reverse l) = Ok (start, epoch) →
  1 <= start ∧ (∀ x, x ∈ l → FolioLease.rangeEnd x < start) ∧
  (start = 1 ∨ ∃ x, x ∈ l ∧ start = FolioLease.rangeEnd x + 1) ∧
  ∃ k, parseEpochNumber epoch = Ok k ∧
    ∀ x n, x ∈ l → parseEpochNumber (FolioLease.epochId x) = Ok n → n < k.
Proof.
  intros [_ Hok] Hnext. destruct l as [|x0 l0] using rev_ind; [|clear IHl0].
  - injection Hnext as <- <-. split_and!; [done|by intros ? ?%not_elem_of_nil|by left|].
    exists 1. split; [reflexivity|]. by intros ? ? ?%not_elem_of_nil.
  - set (l := l0 ++ [x0]) in *.
    destruct (maxima_ok (reverse l) 0 0) as (e & m & Hf & He & Hm & Hends & Hnums & Hreach).
    { by rewrite Forall_reverse. }
    assert (Hmatch : nextRange (reverse l) =
      result_bind (foldl maxima_step (Ok (0, 0)) (reverse l)) (λ '(maxRangeEnd, maxEpochNumber),
      result_bind (formatEpochId (maxEpochNumber + 1)) (λ nextEpoch, Ok (maxRangeEnd + 1, nextEpoch)))).
    { unfold l. rewrite reverse_app. reflexivity. }
    rewrite Hmatch, Hf in Hnext. simpl in Hnext.
    destruct (formatEpochId (m + 1)) as [ep|] eqn:Hep; [|discriminate Hnext]. injection Hnext as <- <-.
    setoid_rewrite elem_of_reverse in Hends. setoid_rewrite elem_of_reverse in Hnums. setoid_rewrite elem_of_reverse in Hreach.
    split_and!; [lia| | |].
    + intros x Hx. specialize (Hends x Hx). lia.
    + destruct Hreach as [->|(x & Hx & <-)]; [by left|right; by exists x].
    + exists (m + 1). split; [apply formatEpochId_ok in Hep as (Hpos & Hsafe & ->); by apply parse_format|]. intros x n Hx Hn. specialize (Hnums x n Hx Hn). lia.
Qed.

Definition options_scope (o : AllocateLease.t) : string * string * string :=
  (AllocateLease.organizationId o, AllocateLease.branchId o, AllocateLease.folioType o).

Lemma historical_reverse c sc : cloud_ok c → historical c sc = reverse (in_scope (Cloud.folio_leases c) sc).
Proof. intros [_ Hall]. apply orderByDesc_chain, Hall. Qed.

(** the step that abandons the live lease of the scope, if there is one *)
Lemma supersede_ok c c' sc now dr u :
  cloud_ok c →
  match list_find (λ r, isLive r = true) (historical c sc) with
  | Some (_, active) =>
      throw_when (negb dr) (ActiveLeaseExistsError (FolioLease.id active) (FolioLease.epochId active)) ;;
      updateLease (FolioLease.id active) (λ r,
        r <| FolioLease.status := CloudStatus.ABANDONED_CONTINGENCY_RANGE |> <| FolioLease.abandonedAt := Some now |>)
  | None => mret tt
  end c = (c', Ok u) →
  cloud_ok c' ∧ Cloud.branches c' = Cloud.branches c ∧
  identity <$> Cloud.folio_leases c' = identity <$> Cloud.folio_leases c ∧
  Forall (λ r, isLive r = false) (in_scope (Cloud.folio_leases c') sc) ∧
  (∀ sc', sc' ≠ sc → in_scope (Cloud.folio_leases c') sc' = in_scope (Cloud.folio_leases c) sc') ∧
  (dr = true ∨ Forall (λ r, isLive r = false) (in_scope (Cloud.folio_leases c) sc)).
Proof.
  intros Hok. rewrite (historical_reverse _ _ Hok). destruct (list_find _ _) as [[i x]|] eqn:Hfind; intros Hrun.
  - apply list_find_Some in Hfind as (Hx & Hlive & _). apply list_elem_of_lookup_2 in Hx. rewrite elem_of_reverse in Hx.
    rewrite bind_throw_when in Hrun. destruct dr; [|discriminate Hrun]. simpl in Hrun.
    destruct (chain_live _ _ (proj2 Hok sc) Hx Hlive) as [l0 Hl].
    pose proof (proj2 Hok sc) as Hc. rewrite Hl in Hc. apply chain_snoc in Hc as (_ & Hpre & Hxok).
    eapply update_last in Hrun as (H1 & H2 & H3 & H4 & H5); [|done|exact Hok|exact Hl|done|].
    2: { destruct Hxok as (? & ? & _ & ?). split; [done|]. split; [done|]. split; [discriminate|done]. }
    split_and!; [done..| |done|by left]. rewrite H4. apply Forall_app. split; [|by apply Forall_singleton].
    eapply Forall_impl; [exact Hpre|]. by intros a (_ & ? & _).
  - injection Hrun as <- _. apply list_find_None in Hfind. rewrite Forall_reverse in Hfind.
    assert (Hdead : Forall (λ r, isLive r = false) (in_scope (Cloud.folio_leases c) sc)).
    { eapply Forall_impl; [exact Hfind|]. intros a Ha. by apply not_true_is_false. }
    split_and!; try done. by right.
Qed.

Lemma insertLease_ok r c c' u :
  insertLease r c = (c', Ok u) → cloud_ok c → lease_ok r →
  Forall (λ a, precedes a r) (in_scope (Cloud.folio_leases c) (scope_of r)) →
  cloud_ok c' ∧ Cloud.branches c' = Cloud.branches c ∧ Cloud.folio_leases c' = Cloud.folio_leases c ++ [r].
Proof.
  unfold insertLease. intros Hrun [Hnd Hall] Hr Hpre. minv Hrun. simpl_guards. split_and!; [|done|done].
  split; simpl.
  - rewrite fmap_app. by apply NoDup_snoc.
  - intros sc. unfold in_scope. rewrite filter_app. destruct (decide (scope_of r = sc)) as [<-|Hne].
    + rewrite filter_cons, decide_True by done. apply chain_snoc. split; [apply Hall|]. by split.
    + rewrite filter_cons, decide_False, app_nil_r by done. apply Hall.
Qed.

Lemma blockSize_ok o n : blockSize o = Ok n → MIN_BLOCK_SIZE <= n <= MAX_BLOCK_SIZE.
Proof.
  unfold blockSize. destruct o as [m|]; [|by intros [= <-]]. destruct (_ || _) eqn:Ho; [done|].
  intros [= <-]. simpl_guards. lia.
Qed.

Lemma same_identity (l l' : list FolioLease.t) : identity <$> l = identity <$> l' → ∀ x, x ∈ l → ∃ y, y ∈ l' ∧ identity y = identity x.
Proof.
  intros He x Hx. assert (Hin : identity x ∈ (identity <$> l')) by (rewrite <- He; by apply list_elem_of_fmap_2).
  apply list_elem_of_fmap in Hin as (y & Hid & Hy). by exists y.
Qed.

Lemma allocate_ok draws o c c' r :
  allocateLease draws o c = (c', Ok r) → cloud_ok c →
  cloud_ok c' ∧ Cloud.branches c' = Cloud.branches c ∧
  identity <$> Cloud.folio_leases c' = (identity <$> Cloud.folio_leases c) ++ [identity r] ∧
  r ∈ Cloud.folio_leases c' ∧ scope_of r = options_scope o ∧ isLive r = true ∧
  (AllocateLease.isDisasterRecoveryReplacement o = true ∨
   Forall (λ x, isLive x = false) (in_scope (Cloud.folio_leases c) (options_scope o))) ∧
  (∀ x, x ∈ Cloud.folio_leases c → scope_of x = options_scope o → FolioLease.rangeEnd x < FolioLease.rangeStart r) ∧
  (FolioLease.rangeStart r = 1 ∨
   ∃ x, x ∈ Cloud.folio_leases c ∧ scope_of x = options_scope o ∧ FolioLease.rangeStart r = FolioLease.rangeEnd x + 1) ∧
  blockSize (AllocateLease.requestedBlockSize o) = Ok (FolioLease.rangeEnd r - FolioLease.rangeStart r + 1) ∧
  FolioLease.highWaterMark r = FolioLease.rangeStart r - 1.
Proof.
  unfold allocateLease. intros Hrun Hok. minv Hrun. apply pgTransaction_ok in Hrun. cbv zeta in Hrun. minv Hrun.
  fold (options_scope o) in *. unfold js in Hstep0.
  eapply supersede_ok in Hstep as (Hok1 & Hbr & Hids & Hdead & Hother & Hdr); [|exact Hok].
  destruct (nextRange _) as [[start epoch]|] eqn:Hnext; [|discriminate Hstep0]. injection Hstep0 as <- <- <-.
  rewrite (historical_reverse _ _ Hok) in Hnext.
  apply nextRange_ok in Hnext as (Hstart & Hends & Hreach & k & Hk & Hnums); [|apply Hok].
  match goal with Hi : insertLease ?r0 _ = _ |- _ => set (row := r0) in *; rename Hi into Hins end.
  apply blockSize_ok in Hval as Hsize. unfold MIN_BLOCK_SIZE in Hsize.
  assert (Hrows : ∀ x, x ∈ in_scope (Cloud.folio_leases s) (options_scope o) →
    ∃ y, y ∈ in_scope (Cloud.folio_leases c) (options_scope o) ∧ identity y = identity x).
  { intros x [Hsx Hx]%list_elem_of_filter. apply (same_identity _ _ Hids) in Hx as (y & Hy & Hid).
    exists y. split; [|done]. apply list_elem_of_filter. split; [|done]. by rewrite (identity_scope _ _ Hid). }
  apply insertLease_ok in Hins as (Hok2 & Hbr2 & Hl2); [|done| |].
  - rewrite Hl2, Hbr2, fmap_app, Hids. split_and!; try done.
    + set_solver.
    + intros x Hx Hsx. apply Hends. by apply list_elem_of_filter.
    + destruct Hreach as [|(x & [Hsx Hx]%list_elem_of_filter & ->)]; [by left|right; by exists x].
    + simpl. f_equal. lia.
  - split; [simpl; lia|]. split; [simpl; lia|]. split; [discriminate|]. by exists k.
  - apply Forall_forall. intros x Hx. destruct (Hrows x Hx) as (y & Hy & Hid).
    rewrite Forall_forall in Hdead. destruct (proj2 Hok (options_scope o)) as [_ Hall].
    rewrite Forall_forall in Hall. destruct (Hall y Hy) as (_ & _ & _ & n & Hn).
    split; [|split; [by apply Hdead|]].
    + unfold identity in Hid. assert (FolioLease.rangeEnd x = FolioLease.rangeEnd y) as -> by congruence. by apply Hends.
    + exists n, k. split; [|split; [done|by eapply Hnums]]. unfold identity in Hid. congruence.
Qed.

(** *** Heartbeats *)

Definition heartbeat_scope (o : HeartbeatLease.t) : string * string * string :=
  (HeartbeatLease.organizationId o, HeartbeatLease.branchId o, HeartbeatLease.folioType o).

(** a heartbeat the cloud acknowledges for [x], the last lease of its scope *)
Definition acknowledged (o : HeartbeatLease.t) (x : FolioLease.t) : Prop :=
  compareEpochs (HeartbeatLease.epochId o) (FolioLease.epochId x) = Ok 0 ∧
  HeartbeatLease.leaseId o = FolioLease.id x ∧ HeartbeatLease.fencingToken o = FolioLease.fencingToken x ∧
  FolioLease.highWaterMark x <= HeartbeatLease.currentFolio o <= FolioLease.rangeEnd x ∧
  FolioLease.status x ≠ CloudStatus.REVOKED ∧ FolioLease.status x ≠ CloudStatus.ABANDONED_CONTINGENCY_RANGE.

Definition beaten (o : HeartbeatLease.t) (x : FolioLease.t) : FolioLease.t :=
  x <| FolioLease.highWaterMark := HeartbeatLease.currentFolio o |>
    <| FolioLease.status := (if HeartbeatLease.currentFolio o =? FolioLease.rangeEnd x
                             then CloudStatus.EXHAUSTED else CloudStatus.ACTIVE) |>.

Lemma head_reverse_snoc {A} (l : list A) x : head (reverse l) = Some x → ∃ l0, l = l0 ++ [x].
Proof.
  destruct l as [|y l] using rev_ind; [done|]. rewrite reverse_app. intros [= ->]. by exists l.
Qed.

Lemma heartbeat_ok o c c' ack :
  heartbeat o c = (c', Ok ack) → cloud_ok c →
  ∃ l0 x, in_scope (Cloud.folio_leases c) (heartbeat_scope o) = l0 ++ [x] ∧ acknowledged o x ∧
    ack = HeartbeatAck.mk (FolioLease.id x) (HeartbeatLease.currentFolio o) (FolioLease.epochId x) ∧
    cloud_ok c' ∧ Cloud.branches c' = Cloud.branches c ∧
    identity <$> Cloud.folio_leases c' = identity <$> Cloud.folio_leases c ∧
    in_scope (Cloud.folio_leases c') (heartbeat_scope o) = l0 ++ [beaten o x] ∧
    (∀ sc', sc' ≠ heartbeat_scope o → in_scope (Cloud.folio_leases c') sc' = in_scope (Cloud.folio_leases c) sc').
Proof.
  unfold heartbeat. intros Hrun Hok. minv Hrun. apply pgTransaction_ok in Hrun. cbv zeta in Hrun.
  rewrite bind_gets, bind_require in Hrun. fold (heartbeat_scope o) in Hrun. rewrite (historical_reverse _ _ Hok) in Hrun.
  destruct (head _) as [x|] eqn:Hhead; [|discriminate Hrun]. apply head_reverse_snoc in Hhead as [l0 Hl].
  unfold js in Hrun. minv Hrun. simpl_guards.
  destruct (compareEpochs _ _) as [cmp|] eqn:Hcmp; [|discriminate Hval]. injection Hval as ->.
  assert (val = 0) as -> by lia. exists l0, x. split; [done|].
  pose proof (proj2 Hok (heartbeat_scope o)) as Hc. rewrite Hl in Hc. apply chain_snoc in Hc as (_ & _ & (Hr & Hw & Hex & Hep)).
  split; [split_and!; (done || lia || by apply dec_stable)|]. split; [done|].
  eapply update_last in Hstep as (K1 & K2 & K3 & K4 & K5);
    [|intros ?; reflexivity|exact Hok|exact Hl|reflexivity|].
  - split_and!; done.
  - split; [done|]. split; [simpl; lia|]. split; [|exact Hep]. simpl.
    destruct (Z.eqb_spec (HeartbeatLease.currentFolio o) (FolioLease.rangeEnd x)); [done|discriminate].
Qed.

(** ** Requests to the cloud *)

Inductive CloudRequest :=
| Allocate (draws : LeaseDraws.t) (options : AllocateLease.t)
| Beat (options : HeartbeatLease.t).

Definition runCloud (r : CloudRequest) : CloudTx unit :=
  match r with
  | Allocate draws options => allocateLease draws options ;; mret tt
  | Beat options => heartbeat options ;; mret tt
  end.

Lemma allocate_err draws o c c' e : allocateLease draws o c = (c', Err e) → c' = c.
Proof.
  unfold allocateLease. rewrite bind_throw_when. destruct (negb _); [by intros [= <-]|].
  rewrite bind_lift. destruct (blockSize _); [apply pgTransaction_err|by intros [= <-]].
Qed.

Lemma heartbeat_err o c c' e : heartbeat o c = (c', Err e) → c' = c.
Proof.
  unfold heartbeat. rewrite bind_throw_when. destruct (negb _); [by intros [= <-]|]. apply pgTransaction_err.
Qed.

Lemma runCloud_err r c c' e : runCloud r c = (c', Err e) → c' = c.
Proof.
  destruct r; simpl; intros [He|(a & c1 & _ & He)]%bind_err; try discriminate He;
    [by apply allocate_err in He|by apply heartbeat_err in He].
Qed.

(** the states of the cloud, from one with no lease *)
Inductive cloud_history (branches : list (string * string)) : Cloud.t → Prop :=
| cloud_empty : cloud_history branches (Cloud.mk branches [])
| cloud_request c c' r res : cloud_history branches c → runCloud r c = (c', res) → cloud_history branches c'.

Lemma runCloud_ok r c c' res : runCloud r c = (c', res) → cloud_ok c → cloud_ok c'.
Proof.
  intros Hrun Hok. destruct res as [u|e]; [|by apply runCloud_err in Hrun as ->].
  destruct r; simpl in Hrun; minv Hrun; [by apply allocate_ok in Hstep as (? & _)|].
  by apply heartbeat_ok in Hstep as (? & ? & _ & _ & _ & ? & _).
Qed.

Lemma cloud_ok_empty bs : cloud_ok (Cloud.mk bs []).
Proof. split; [constructor|]. intros sc. split; constructor. Qed.

Lemma cloud_history_ok bs c : cloud_history bs c → cloud_ok c.
Proof. induction 1; [apply cloud_ok_empty|by eapply runCloud_ok]. Qed.

(** ** The edge *)

Module Local.
Import FolioPersistence.

Definition lease_at (s : Edge.t) (ty : string) : option LocalLease.t := Db.local_folio_leases (Edge.db s) !! ty.

(** what [setActiveLease] stores *)
Definition installed (i : SetActiveLease.t) : LocalLease.t :=
  LocalLease.mk (SetActiveLease.epochId i) (SetActiveLease.fencingToken i) (SetActiveLease.rangeStart i)
    (SetActiveLease.rangeEnd i) (initialFolio i)
    (if initialFolio i =? SetActiveLease.rangeEnd i then LEASE_EXHAUSTED else LEASE_ACTIVE).

(** [new] may replace [old]: a later epoch, or the same one without going back *)
Definition supersedes (new old : LocalLease.t) : Prop :=
  ∃ m n, parseEpochNumber (LocalLease.epochId new) = Ok m ∧ parseEpochNumber (LocalLease.epochId old) = Ok n ∧
    (n < m ∨ m = n ∧ LocalLease.fencingToken new = LocalLease.fencingToken old ∧
             LocalLease.rangeStart new = LocalLease.rangeStart old ∧
             LocalLease.rangeEnd new = LocalLease.rangeEnd old ∧
             LocalLease.currentFolio old <= LocalLease.currentFolio new).

Lemma compareEpochs_ok a b k :
  compareEpochs a b = Ok k → ∃ m n, parseEpochNumber a = Ok m ∧ parseEpochNumber b = Ok n ∧ k = m - n.
Proof.
  unfold compareEpochs. destruct (parseEpochNumber a) as [m|]; [|done].
  destruct (parseEpochNumber b) as [n|]; [|done]. intros [= <-]. by exists m, n.
Qed.

Lemma checkCurrent_ok i old s s' u :
  checkCurrent i old s = (s', Ok u) → s' = s ∧ supersedes (installed i) old.
Proof.
  unfold checkCurrent, pos_js. intros Hrun. minv Hrun; simpl_guards.
  - destruct (compareEpochs _ _) as [k|] eqn:Hk; [|done]. injection Hval as ->.
    apply compareEpochs_ok in Hk as (m & n & Hm & Hn & Hk). unfold throw_when in Hrun.
    destruct (_ <? LocalLease.currentFolio old) eqn:Hlt; [discriminate Hrun|]. injection Hrun as <-. simpl_guards.
    split; [done|]. exists m, n. simpl. split; [done|]. split; [done|]. right.
    by split_and!; [lia|..].
  - destruct (compareEpochs _ _) as [k|] eqn:Hk; [|done]. injection Hval as ->.
    apply compareEpochs_ok in Hk as (m & n & Hm & Hn & Hk). split; [done|]. exists m, n.
    split; [done|]. split; [done|]. left. lia.
Qed.

Lemma setActiveLease_ok i s s' u :
  setActiveLease i s = (s', Ok u) →
  isValidFolioType (SetActiveLease.folioType i) = true ∧ isValidEpochId (SetActiveLease.epochId i) = true ∧
  1 <= SetActiveLease.rangeStart i <= SetActiveLease.rangeEnd i ∧
  SetActiveLease.rangeStart i - 1 <= initialFolio i <= SetActiveLease.rangeEnd i ∧
  Edge.inTransaction s' = false ∧
  (∀ old, lease_at s (SetActiveLease.folioType i) = Some old → supersedes (installed i) old) ∧
  Edge.db s' = (Edge.db s) <| Db.local_folio_leases ::= <[SetActiveLease.folioType i := installed i]> |>.
Proof.
  unfold setActiveLease. intros Hrun. minv Hrun. simpl_guards.
  apply runInTransaction_ok in Hrun as (Htx & s1 & Hrun & -> & Hout).
  unfold getLocalLease in Hrun. rewrite bind_query in Hrun. rewrite tx_entry_db in Hrun.
  split; [done|]. split; [done|]. split; [lia|]. split; [lia|]. split; [done|]. unfold lease_at.
  destruct (Db.local_folio_leases (Edge.db s) !! SetActiveLease.folioType i) as [old|] eqn:Hold.
  - apply bind_ok in Hrun as (u' & s2 & Hcheck & Hrun). apply checkCurrent_ok in Hcheck as [-> Hsup].
    injection Hrun as <- _. split; [by intros ? [= <-]|]. done.
  - rewrite bind_ret in Hrun. injection Hrun as <- _. done.
Qed.

Definition settled_lease (l : LocalLease.t) (f : Z) : LocalLease.t :=
  l <| LocalLease.currentFolio := f |>
    <| LocalLease.status := (if f =? LocalLease.rangeEnd l then LEASE_EXHAUSTED else LEASE_ACTIVE) |>.

Definition next_folio (l : LocalLease.t) : Z :=
  if LocalLease.currentFolio l <? LocalLease.rangeStart l then LocalLease.rangeStart l
  else LocalLease.currentFolio l + 1.

Lemma alter_insert ty (f : LocalLease.t → LocalLease.t) (m : gmap string LocalLease.t) l :
  m !! ty = Some l → alter f ty m = <[ty := f l]> m.
Proof.
  intros Hl. apply map_eq. intros k. destruct (decide (k = ty)) as [->|Hne].
  - by rewrite lookup_alter_eq, Hl, lookup_insert_eq.
  - by rewrite lookup_alter_ne, lookup_insert_ne.
Qed.

Lemma consume_ok fault ty s s' f :
  consumeNextFolio fault ty s = (s', Ok f) →
  ∃ l, lease_at s ty = Some l ∧ LocalLease.status l = LEASE_ACTIVE ∧ f = next_folio l ∧
    LocalLease.currentFolio l < f ∧ LocalLease.rangeStart l <= f <= LocalLease.rangeEnd l ∧
    Edge.inTransaction s' = false ∧
    Edge.db s' = (Edge.db s) <| Db.local_folio_leases ::= <[ty := settled_lease l f]> |>.
Proof.
  unfold consumeNextFolio. intros Hrun. minv Hrun.
  apply runInTransaction_ok in Hrun as (Htx & s1 & Hrun & -> & Hout).
  unfold getLocalLease in Hrun. rewrite bind_query, tx_entry_db, bind_require in Hrun. unfold lease_at.
  destruct (_ !! ty) as [l|] eqn:Hl; [|discriminate Hrun]. exists l. cbv zeta in Hrun. fold (next_folio l) in Hrun.
  minv Hrun; simpl_guards. unfold updateLocal, exec in *. simplify_eq.
  assert (Hst : LocalLease.status l = LEASE_ACTIVE) by (by destruct (LocalLease.status l)).
  assert (Hnext : LocalLease.currentFolio l < next_folio l ∧ LocalLease.rangeStart l <= next_folio l).
  { unfold next_folio. destruct (Z.ltb_spec (LocalLease.currentFolio l) (LocalLease.rangeStart l)); lia. }
  split; [done|]. split; [done|]. split; [done|]. split; [lia|]. split; [lia|]. split; [done|].
  injection Hstep as <- _. unfold set. simpl. by rewrite (alter_insert _ _ _ _ Hl).
Qed.

Lemma revokeLease_ok ty s s' u :
  revokeLease ty s = (s', Ok u) →
  Edge.inTransaction s' = false ∧
  Edge.db s' = (Edge.db s) <| Db.local_folio_leases ::= alter (λ r, r <| LocalLease.status := LEASE_REVOKED |>) ty |>.
Proof.
  unfold revokeLease, updateLocal, exec, modify. intros (Htx & s1 & Hrun & -> & Hout)%runInTransaction_ok.
  split; [done|]. by injection Hrun as <- _.
Qed.

Lemma setActiveLease_atomic i : atomic (setActiveLease i).
Proof. unfold setActiveLease. solve_atomic. Qed.
Lemma consumeNextFolio_atomic fault ty : atomic (consumeNextFolio fault ty).
Proof. unfold consumeNextFolio. solve_atomic. Qed.
Lemma revokeLease_atomic ty : atomic (revokeLease ty).
Proof. unfold revokeLease. solve_atomic. Qed.
Lemma setActiveLease_settled i : settled (setActiveLease i).
Proof. unfold setActiveLease. solve_settled. Qed.
Lemma consumeNextFolio_settled fault ty : settled (consumeNextFolio fault ty).
Proof. unfold consumeNextFolio. solve_settled. Qed.
Lemma revokeLease_settled ty : settled (revokeLease ty).
Proof. unfold revokeLease. solve_settled. Qed.
End Local.

(** ** The whole system: one cloud and any number of edge nodes *)

Module System.
(** [grants]: which node received which lease; [issued]: the folios each node has issued *)
Record t := mk {
  cloud : Cloud.t; nodes : string → Edge.t; grants : list (string * FolioLease.t);
  issued : list (string * string * Z) }.
End System.

Section system.
(** the organisation and branch a node belongs to *)
Context (home : string → string * string).

Definition node_set (nodes : string → Edge.t) (n : string) (s : Edge.t) : string → Edge.t :=
  λ m, if decide (m = n) then s else nodes m.

Definition install_input (r : FolioLease.t) (currentFolio : option Z) : SetActiveLease.t :=
  SetActiveLease.mk (FolioLease.folioType r) (FolioLease.epochId r) (FolioLease.fencingToken r)
    (FolioLease.rangeStart r) (FolioLease.rangeEnd r) currentFolio.

(** a lease goes to the node that asked for it and may be reinstalled there at any time; the
    cloud answers any other request, in particular one whose response is lost *)
Inductive system_step (w : System.t) : System.t → Prop :=
| sys_grant n draws o r c' (Hhome : home n = (AllocateLease.organizationId o, AllocateLease.branchId o))
    (Hrun : allocateLease draws o (System.cloud w) = (c', Ok r)) :
    system_step w (System.mk c' (System.nodes w) ((n, r) :: System.grants w) (System.issued w))
| sys_cloud r c' res (Hrun : runCloud r (System.cloud w) = (c', res)) :
    system_step w (System.mk c' (System.nodes w) (System.grants w) (System.issued w))
| sys_install n r currentFolio s' res (Hgrant : (n, r) ∈ System.grants w)
    (Hrun : FolioPersistence.setActiveLease (install_input r currentFolio) (System.nodes w n) = (s', res)) :
    system_step w (System.mk (System.cloud w) (node_set (System.nodes w) n s') (System.grants w) (System.issued w))
| sys_issue n ty fault f s' (Hrun : FolioPersistence.consumeNextFolio fault ty (System.nodes w n) = (s', Ok f)) :
    system_step w (System.mk (System.cloud w) (node_set (System.nodes w) n s') (System.grants w)
      (System.issued w ++ [(n, ty, f)]))
| sys_refuse n ty fault e s' (Hrun : FolioPersistence.consumeNextFolio fault ty (System.nodes w n) = (s', Err e)) :
    system_step w (System.mk (System.cloud w) (node_set (System.nodes w) n s') (System.grants w) (System.issued w))
| sys_revoke n ty s' res (Hrun : FolioPersistence.revokeLease ty (System.nodes w n) = (s', res)) :
    system_step w (System.mk (System.cloud w) (node_set (System.nodes w) n s') (System.grants w) (System.issued w)).

Definition system_start (branches : list (string * string)) : System.t :=
  System.mk (Cloud.mk branches []) (λ _, Edge.initial) [] [].

(** *** Invariant *)

Definition scope_at (n ty : string) : string * string * string := ((home n).1, (home n).2, ty).

(** grants are rows of the table, of the node's branch, and each goes to one node *)
Definition grants_ok (w : System.t) : Prop :=
  (∀ n r, (n, r) ∈ System.grants w →
     (∃ x, x ∈ Cloud.folio_leases (System.cloud w) ∧ identity x = identity r) ∧
     scope_of r = scope_at n (FolioLease.folioType r)) ∧
  (∀ n1 n2 r1 r2, (n1, r1) ∈ System.grants w → (n2, r2) ∈ System.grants w →
     FolioLease.id r1 = FolioLease.id r2 → n1 = n2).

(** a local lease is one the node was granted, within its range *)
Definition backed (w : System.t) (n ty : string) (l : LocalLease.t) : Prop :=
  ∃ r, (n, r) ∈ System.grants w ∧ FolioLease.folioType r = ty ∧ LocalLease.epochId l = FolioLease.epochId r ∧
    LocalLease.rangeStart l = FolioLease.rangeStart r ∧ LocalLease.rangeEnd l = FolioLease.rangeEnd r ∧
    LocalLease.currentFolio l <= LocalLease.rangeEnd l.

Definition nodes_ok (w : System.t) : Prop :=
  ∀ n, Edge.inTransaction (System.nodes w n) = false ∧
    ∀ ty l, Local.lease_at (System.nodes w n) ty = Some l → backed w n ty l.

(** an issued folio is in a range granted to its node, and the node is past it *)
Definition issued_ok (w : System.t) : Prop :=
  ∀ n ty f, (n, ty, f) ∈ System.issued w →
    (∃ r, (n, r) ∈ System.grants w ∧ FolioLease.folioType r = ty ∧
       FolioLease.rangeStart r <= f <= FolioLease.rangeEnd r) ∧
    ∃ l, Local.lease_at (System.nodes w n) ty = Some l ∧ f <= LocalLease.currentFolio l.

(** a folio as the tax authority sees it: organisation, branch, type and number *)
Definition folio_key (i : string * string * Z) : string * string * string * Z :=
  (scope_at i.1.1 i.1.2, i.2).

Definition system_ok (w : System.t) : Prop :=
  cloud_ok (System.cloud w) ∧ grants_ok w ∧ nodes_ok w ∧ issued_ok w ∧ NoDup (folio_key <$> System.issued w).

(** *** Preservation *)

Lemma chain_overlap l a b f :
  chain l → a ∈ l → b ∈ l → FolioLease.rangeStart a <= f <= FolioLease.rangeEnd a →
  FolioLease.rangeStart b <= f <= FolioLease.rangeEnd b → a = b.
Proof.
  intros Hc [i Hi]%list_elem_of_lookup [j Hj]%list_elem_of_lookup Ha Hb.
  destruct (Nat.lt_trichotomy i j) as [Hlt|[->|Hlt]]; [|congruence|].
  - destruct (chain_before _ _ _ _ _ Hc Hi Hj Hlt) as [? _]. lia.
  - destruct (chain_before _ _ _ _ _ Hc Hj Hi Hlt) as [? _]. lia.
Qed.

(** the rows behind two grants of the same node and type *)
Lemma grant_row w n r :
  grants_ok w → (n, r) ∈ System.grants w →
  ∃ x, x ∈ in_scope (Cloud.folio_leases (System.cloud w)) (scope_at n (FolioLease.folioType r)) ∧ identity x = identity r.
Proof.
  intros [Hrow _] Hin. destruct (Hrow n r Hin) as ((x & Hx & Hid) & Hs). exists x. split; [|done].
  apply list_elem_of_filter. split; [|done]. by rewrite (identity_scope _ _ Hid).
Qed.

Lemma grant_epochs w n r1 r2 k1 k2 :
  cloud_ok (System.cloud w) → grants_ok w → (n, r1) ∈ System.grants w → (n, r2) ∈ System.grants w →
  FolioLease.folioType r1 = FolioLease.folioType r2 →
  parseEpochNumber (FolioLease.epochId r1) = Ok k1 → parseEpochNumber (FolioLease.epochId r2) = Ok k2 → k1 < k2 →
  FolioLease.rangeEnd r1 < FolioLease.rangeStart r2.
Proof.
  intros Hc Hg H1 H2 Hty Hk1 Hk2 Hlt. destruct (grant_row _ _ _ Hg H1) as (x1 & Hx1 & E1).
  destruct (grant_row _ _ _ Hg H2) as (x2 & Hx2 & E2). rewrite Hty in Hx1.
  unfold identity in E1, E2. assert (FolioLease.epochId x1 = FolioLease.epochId r1) as F1 by congruence.
  assert (FolioLease.epochId x2 = FolioLease.epochId r2) as F2 by congruence.
  destruct (chain_epochs _ x1 x2 k1 k2 (proj2 Hc _) Hx1 Hx2) as [Hend _]; [congruence..|].
  specialize (Hend Hlt). assert (FolioLease.rangeEnd x1 = FolioLease.rangeEnd r1) by congruence.
  assert (FolioLease.rangeStart x2 = FolioLease.rangeStart r2) by congruence. lia.
Qed.

Lemma grant_overlap w n1 n2 r1 r2 f :
  cloud_ok (System.cloud w) → grants_ok w → (n1, r1) ∈ System.grants w → (n2, r2) ∈ System.grants w →
  scope_at n1 (FolioLease.folioType r1) = scope_at n2 (FolioLease.folioType r2) →
  FolioLease.rangeStart r1 <= f <= FolioLease.rangeEnd r1 → FolioLease.rangeStart r2 <= f <= FolioLease.rangeEnd r2 →
  n1 = n2.
Proof.
  intros Hc Hg H1 H2 Hs Hf1 Hf2. destruct (grant_row _ _ _ Hg H1) as (x1 & Hx1 & E1).
  destruct (grant_row _ _ _ Hg H2) as (x2 & Hx2 & E2). rewrite Hs in Hx1. unfold identity in E1, E2.
  apply (proj2 Hg n1 n2 r1 r2 H1 H2).
  assert (x1 = x2) as ->; [|congruence].
  apply (chain_overlap _ x1 x2 f (proj2 Hc _) Hx1 Hx2).
  - assert (FolioLease.rangeStart x1 = FolioLease.rangeStart r1 ∧ FolioLease.rangeEnd x1 = FolioLease.rangeEnd r1)
      as [-> ->] by (split; congruence). done.
  - assert (FolioLease.rangeStart x2 = FolioLease.rangeStart r2 ∧ FolioLease.rangeEnd x2 = FolioLease.rangeEnd r2)
      as [-> ->] by (split; congruence). done.
Qed.

(** rows only gain identities *)
Definition grows (c c' : Cloud.t) : Prop :=
  ∃ l, identity <$> Cloud.folio_leases c' = (identity <$> Cloud.folio_leases c) ++ l.

Lemma runCloud_grows r c c' res : runCloud r c = (c', res) → cloud_ok c → grows c c'.
Proof.
  intros Hrun Hok. destruct res as [u|e].
  - destruct r; simpl in Hrun; minv Hrun.
    + apply allocate_ok in Hstep as (_ & _ & Hids & _); [|done]. by eexists.
    + apply heartbeat_ok in Hstep as (? & ? & _ & _ & _ & _ & _ & Hids & _); [|done].
      exists []. by rewrite app_nil_r.
  - apply runCloud_err in Hrun as ->. exists []. by rewrite app_nil_r.
Qed.

Lemma grows_row c c' x :
  grows c c' → x ∈ Cloud.folio_leases c → ∃ y, y ∈ Cloud.folio_leases c' ∧ identity y = identity x.
Proof.
  intros [l Hl] Hx. assert (Hin : identity x ∈ (identity <$> Cloud.folio_leases c')).
  { rewrite Hl. apply elem_of_app. left. by apply list_elem_of_fmap_2. }
  apply list_elem_of_fmap in Hin as (y & Hid & Hy). by exists y.
Qed.

(** a granted identifier is new *)
Lemma granted_fresh draws o c c' r x :
  allocateLease draws o c = (c', Ok r) → cloud_ok c → x ∈ Cloud.folio_leases c → FolioLease.id x ≠ FolioLease.id r.
Proof.
  intros Hrun Hok Hx Hid. apply allocate_ok in Hrun as ([Hnd _] & _ & Hids & _); [|done].
  assert (He : FolioLease.id <$> Cloud.folio_leases c' = (FolioLease.id <$> Cloud.folio_leases c) ++ [FolioLease.id r]).
  { assert (Hp : ∀ l : list FolioLease.t, FolioLease.id <$> l = (λ t, t.1.1.1.1.1) <$> (identity <$> l))
      by (intros l; by rewrite <- list_fmap_compose).
    rewrite !Hp, Hids, fmap_app. done. }
  rewrite He in Hnd. apply NoDup_app in Hnd as (_ & Hno & _). apply (Hno (FolioLease.id r)); [|set_solver].
  rewrite <- Hid. by apply list_elem_of_fmap_2.
Qed.

Lemma lease_at_set nodes n s m ty :
  Local.lease_at (node_set nodes n s m) ty = if decide (m = n) then Local.lease_at s ty else Local.lease_at (nodes m) ty.
Proof. unfold node_set. by case_decide. Qed.

(** a step of the cloud keeps every node's picture accurate *)
Lemma cloud_step_ok w c' gs :
  system_ok w → cloud_ok c' → grows (System.cloud w) c' →
  (∀ n r, (n, r) ∈ gs → (∃ x, x ∈ Cloud.folio_leases c' ∧ identity x = identity r) ∧
     scope_of r = scope_at n (FolioLease.folioType r)) →
  (∀ n1 n2 r1 r2, (n1, r1) ∈ gs → (n2, r2) ∈ gs ++ System.grants w → FolioLease.id r1 = FolioLease.id r2 → n1 = n2) →
  system_ok (System.mk c' (System.nodes w) (gs ++ System.grants w) (System.issued w)).
Proof.
  intros (_ & [Hrow Huniq] & Hnodes & Hissued & Hnd) Hc Hg Hgs Hgu.
  assert (Hmono : ∀ n r, (n, r) ∈ System.grants w → (n, r) ∈ gs ++ System.grants w) by (intros; apply elem_of_app; by right).
  split; [done|]. split; [split|]; simpl.
  - intros n r [Hin|Hin]%elem_of_app; [by apply Hgs|]. destruct (Hrow n r Hin) as ((x & Hx & Hid) & Hs).
    split; [|done]. destruct (grows_row _ _ _ Hg Hx) as (y & Hy & Hyx). exists y. split; [done|congruence].
  - intros n1 n2 r1 r2 [H1|H1]%elem_of_app H2 Hid; [by eapply Hgu|].
    apply elem_of_app in H2 as [H2|H2]; [|by eapply Huniq]. symmetry. apply (Hgu n2 n1 r2 r1); auto.
  - split; [|split; [|done]].
    + intros n. split; [apply Hnodes|]. intros ty l Hl. destruct (proj2 (Hnodes n) ty l Hl) as (r & Hin & Hr).
      exists r. split; [by apply Hmono|done].
    + intros n ty f Hin. destruct (Hissued n ty f Hin) as [(r & Hgr & Hr) Hl]. split; [|done].
      exists r. split; [by apply Hmono|done].
Qed.

(** a step of node [n] that issues nothing: its leases stay backed and do not go back *)
Lemma node_step_ok w n s' :
  system_ok w → Edge.inTransaction s' = false →
  (∀ ty l, Local.lease_at s' ty = Some l → backed w n ty l) →
  (∀ ty l f, Local.lease_at (System.nodes w n) ty = Some l → f <= LocalLease.currentFolio l →
     ∃ l', Local.lease_at s' ty = Some l' ∧ f <= LocalLease.currentFolio l') →
  system_ok (System.mk (System.cloud w) (node_set (System.nodes w) n s') (System.grants w) (System.issued w)).
Proof.
  intros (Hc & Hg & Hnodes & Hissued & Hnd) Htx Hback Hmono. split_and!; [done|done| | |done].
  - intros m. simpl. unfold node_set. case_decide as Hm; [|apply Hnodes]. subst m. split; [done|]. apply Hback.
  - intros m ty f Hin. destruct (Hissued m ty f Hin) as [Hr (l & Hl & Hf)]. split; [done|]. simpl.
    rewrite lease_at_set. case_decide as Hm; [|by exists l]. subst m. by eapply Hmono.
Qed.

Lemma same_leases_ok w n s' :
  system_ok w → Edge.inTransaction s' = false → Edge.db s' = Edge.db (System.nodes w n) →
  system_ok (System.mk (System.cloud w) (node_set (System.nodes w) n s') (System.grants w) (System.issued w)).
Proof.
  intros Hok Htx Hdb. pose proof Hok as (_ & _ & Hnodes & _). apply node_step_ok; [done..| |]; unfold Local.lease_at; rewrite Hdb.
  - apply Hnodes.
  - intros ty l f Hl Hf. by exists l.
Qed.

Lemma install_ok w n r cf s' u :
  system_ok w → (n, r) ∈ System.grants w →
  FolioPersistence.setActiveLease (install_input r cf) (System.nodes w n) = (s', Ok u) →
  system_ok (System.mk (System.cloud w) (node_set (System.nodes w) n s') (System.grants w) (System.issued w)).
Proof.
  intros Hok Hin Hrun. pose proof Hok as (Hc & Hg & Hnodes & _).
  apply Local.setActiveLease_ok in Hrun as (_ & _ & Hrange & Hcur & Htx & Hsup & Hdb).
  set (i := install_input r cf) in *. change (SetActiveLease.folioType i) with (FolioLease.folioType r) in *.
  assert (Hat : ∀ ty, Local.lease_at s' ty =
    if decide (ty = FolioLease.folioType r) then Some (Local.installed i) else Local.lease_at (System.nodes w n) ty).
  { intros ty. unfold Local.lease_at. rewrite Hdb. simpl. case_decide as Hty; [subst ty; by rewrite lookup_insert_eq|].
    by rewrite lookup_insert_ne. }
  apply node_step_ok; [done..| |].
  - intros ty l. rewrite Hat. case_decide as Hty; [|apply Hnodes]. subst ty. intros [= <-]. exists r.
    split_and!; try done. apply Hcur.
  - intros ty l f Hl Hf. rewrite Hat. case_decide as Hty; [|by exists l]. subst ty.
    exists (Local.installed i). split; [done|].
    destruct (Hsup l Hl) as (m & k & Hm & Hk & [Hlt|(_ & _ & _ & _ & Hle)]); [|simpl in *; lia].
    destruct (proj2 (Hnodes n) _ _ Hl) as (r0 & Hin0 & Hty & He & _ & Hend & Hle).
    assert (FolioLease.rangeEnd r0 < FolioLease.rangeStart r).
    { eapply (grant_epochs w n r0 r k m); try done. by rewrite <- He. }
    change (f <= FolioPersistence.initialFolio i). change (SetActiveLease.rangeStart i) with (FolioLease.rangeStart r) in Hcur. lia.
Qed.

Lemma issue_ok w n ty fault s' f :
  system_ok w → FolioPersistence.consumeNextFolio fault ty (System.nodes w n) = (s', Ok f) →
  system_ok (System.mk (System.cloud w) (node_set (System.nodes w) n s') (System.grants w) (System.issued w ++ [(n, ty, f)])).
Proof.
  intros (Hc & Hg & Hnodes & Hissued & Hnd) Hrun.
  apply Local.consume_ok in Hrun as (l & Hl & _ & _ & Hlt & Hf & Htx & Hdb).
  assert (Hat : ∀ ty', Local.lease_at s' ty' =
    if decide (ty' = ty) then Some (Local.settled_lease l f) else Local.lease_at (System.nodes w n) ty').
  { intros ty'. unfold Local.lease_at. rewrite Hdb. simpl. case_decide as Hty; [subst ty'; by rewrite lookup_insert_eq|].
    by rewrite lookup_insert_ne. }
  destruct (proj2 (Hnodes n) _ _ Hl) as (r & Hin & Hty & He & Hs & Hend & Hle).
  split_and!; [done|done| | |].
  - intros m. simpl. unfold node_set. case_decide as Hm; [|apply Hnodes]. subst m. split; [done|].
    intros ty' l'. rewrite Hat. case_decide as Hty'; [|apply Hnodes]. subst ty'. intros [= <-].
    exists r. split_and!; try done. simpl. lia.
  - intros m ty' f' [Hin'|[= -> -> ->]%list_elem_of_singleton]%elem_of_app; simpl.
    + destruct (Hissued m ty' f' Hin') as [Hr (l' & Hl' & Hf')]. split; [done|].
      rewrite lease_at_set. case_decide as Hm; [|by exists l']. subst m. rewrite Hat.
      case_decide as Hty'; [|by exists l']. subst ty'. exists (Local.settled_lease l f). split; [done|]. simpl.
      assert (l' = l) as -> by congruence. lia.
    + split; [exists r; split_and!; try done; lia|]. rewrite lease_at_set, decide_True by done. rewrite Hat, decide_True by done.
      exists (Local.settled_lease l f). split; [done|]. simpl. lia.
  - simpl. rewrite fmap_app. apply NoDup_snoc; [done|]. intros ([[m ty'] f'] & Hkey & Hin')%list_elem_of_fmap.
    unfold folio_key in Hkey. simpl in Hkey.
    destruct (Hissued m ty' f' Hin') as [(r' & Hgr' & Hty' & Hf') (l' & Hl' & Hle')].
    assert (scope_at n ty = scope_at m ty' ∧ f = f') as [Hsc <-] by (split; congruence).
    assert (ty' = ty) as -> by (unfold scope_at in Hsc; congruence).
    assert (m = n) as ->.
    { symmetry. apply (grant_overlap w n m r r' f Hc Hg Hin Hgr'); [|lia|lia]. by rewrite Hty, Hty'. }
    assert (l' = l) as -> by congruence. lia.
Qed.

Lemma system_step_ok w w' : system_step w w' → system_ok w → system_ok w'.
Proof.
  intros Hstep Hok. pose proof Hok as (Hc & Hg & Hnodes & _).
  destruct Hstep as [n draws o r c' Hhome Hrun|r c' res Hrun|n r cf s' res Hin Hrun|n ty fl f s' Hrun|n ty fl e s' Hrun|n ty s' res Hrun].
  - pose proof (allocate_ok _ _ _ _ _ Hrun Hc) as (Hc' & _ & Hids & Hr & Hs & _).
    apply (cloud_step_ok w c' [(n, r)]); [done|done|by eexists| |].
    + intros m r0 [= -> ->]%list_elem_of_singleton. split; [by exists r|].
      rewrite Hs. unfold scope_at, options_scope. rewrite Hhome. simpl.
      assert (FolioLease.folioType r = AllocateLease.folioType o) as ->; [|done].
      unfold scope_of, options_scope in Hs. congruence.
    + intros n1 n2 r1 r2 [= -> ->]%list_elem_of_singleton [[= -> ->]|H2]%elem_of_cons Hid; [done|].
      destruct (proj1 Hg n2 r2 H2) as ((x & Hx & Hxid) & _). exfalso.
      apply (granted_fresh _ _ _ _ _ x Hrun Hc Hx). rewrite Hid. unfold identity in Hxid. congruence.
  - apply (cloud_step_ok w c' []); [done|by eapply runCloud_ok|by eapply runCloud_grows| |];
      intros; exfalso; by eapply not_elem_of_nil.
  - destruct res as [u|e]; [by eapply install_ok|].
    apply same_leases_ok; [done|by eapply Local.setActiveLease_settled; [apply Hnodes|]|].
    by eapply Local.setActiveLease_atomic; [apply Hnodes|].
  - by eapply issue_ok.
  - apply same_leases_ok; [done|by eapply Local.consumeNextFolio_settled; [apply Hnodes|]|].
    by eapply Local.consumeNextFolio_atomic; [apply Hnodes|].
  - destruct res as [u|e].
    + apply Local.revokeLease_ok in Hrun as [Htx Hdb].
      assert (Hat : ∀ ty', Local.lease_at s' ty' = (if decide (ty' = ty) then
        (λ r, r <| LocalLease.status := LEASE_REVOKED |>) <$> Local.lease_at (System.nodes w n) ty'
        else Local.lease_at (System.nodes w n) ty')).
      { intros ty'. unfold Local.lease_at. rewrite Hdb. simpl. case_decide as Hty; [subst ty'; by rewrite lookup_alter_eq|].
        by rewrite lookup_alter_ne. }
      apply node_step_ok; [done..| |].
      * intros ty' l. rewrite Hat. case_decide; [|apply Hnodes]. intros (l0 & Hl0 & ->)%fmap_Some. exact (proj2 (Hnodes n) _ _ Hl0).
      * intros ty' l f Hl Hf. rewrite Hat, Hl. case_decide; by eexists.
    + apply same_leases_ok; [done|by eapply Local.revokeLease_settled; [apply Hnodes|]|].
      by eapply Local.revokeLease_atomic; [apply Hnodes|].
Qed.

Lemma system_reach_ok bs w : rtc system_step (system_start bs) w → system_ok w.
Proof.
  intros Hw. assert (Hstart : system_ok (system_start bs)).
  { split; [apply cloud_ok_empty|]. split_and!; simpl.
    - split; [intros ? ? Hin|intros ? ? ? ? Hin]; by apply not_elem_of_nil in Hin.
    - intros n. split; [done|]. intros ty l Hl. discriminate Hl.
    - intros n ty f Hin. by apply not_elem_of_nil in Hin.
    - constructor. }
  revert Hstart. induction Hw as [|w1 w2 w3 Hstep _ IH]; [done|]. intros Hok. apply IH. by eapply system_step_ok.
Qed.
End system.

(** ** Properties *)

(** C27: no folio is issued twice.  Whatever the cloud grants, whichever nodes of a branch are
    alive, replaced or revoked, and however often leases are reinstalled, the pairs of scope
    and number issued are all different, and each was issued by a node holding a lease whose
    range contains it. *)
Theorem folios_never_issued_twice home branches w :
  rtc (system_step home) (system_start branches) w →
  NoDup (folio_key home <$> System.issued w) ∧
  ∀ n ty f, (n, ty, f) ∈ System.issued w →
    ∃ r, (n, r) ∈ System.grants w ∧ scope_of r = scope_at home n ty ∧
      FolioLease.rangeStart r <= f <= FolioLease.rangeEnd r.
Proof.
  intros Hw. apply system_reach_ok in Hw as (_ & [Hrow _] & _ & Hissued & Hnd). split; [done|].
  intros n ty f Hin. destruct (Hissued n ty f Hin) as [(r & Hgr & Hty & Hf) _]. exists r.
  split; [done|]. split; [|done]. destruct (Hrow n r Hgr) as [_ ->]. by rewrite Hty.
Qed.

(** Ranges and epochs only grow.  In every state of the cloud, of two leases of a scope
    the one allocated later has a strictly later epoch and a range after the other's, which
    is no longer live; every range starts at 1 or above, is not empty, and contains its
    high-water mark or ends just before it. *)
Theorem cloud_leases_ordered branches c i j x y :
  cloud_history branches c →
  in_scope (Cloud.folio_leases c) (scope_of y) !! i = Some x →
  in_scope (Cloud.folio_leases c) (scope_of y) !! j = Some y → (i < j)%nat →
  FolioLease.rangeEnd x < FolioLease.rangeStart y ∧ isLive x = false ∧
  (∃ m n, compareEpochs (FolioLease.epochId y) (FolioLease.epochId x) = Ok (n - m) ∧ m < n) ∧
  1 <= FolioLease.rangeStart x <= FolioLease.rangeEnd x ∧
  FolioLease.rangeStart x - 1 <= FolioLease.highWaterMark x <= FolioLease.rangeEnd x.
Proof.
  intros Hc Hi Hj Hlt. apply cloud_history_ok in Hc as [_ Hall]. pose proof (Hall (scope_of y)) as Hchain.
  destruct (chain_before _ _ _ _ _ Hchain Hi Hj Hlt) as (H1 & H2 & m & n & Hm & Hn & Hmn).
  destruct Hchain as [_ Hok]. rewrite Forall_forall in Hok.
  destruct (Hok x (list_elem_of_lookup_2 _ _ _ Hi)) as (H3 & H4 & _).
  split_and!; try done; [|apply H3..|apply H4|apply H4]. exists m, n. split; [|done].
  unfold compareEpochs. by rewrite Hn, Hm.
Qed.

Lemma chain_last_epoch l0 z x n :
  chain (l0 ++ [z]) → x ∈ l0 ++ [z] → parseEpochNumber (FolioLease.epochId x) = Ok n →
  ∃ k, parseEpochNumber (FolioLease.epochId z) = Ok k ∧ n <= k.
Proof.
  intros (_ & Hpre & (_ & _ & _ & k & Hk))%chain_snoc [Hx|Hx]%elem_of_app Hn; exists k; (split; [done|]).
  - rewrite Forall_forall in Hpre. destruct (Hpre x Hx) as (_ & _ & m & k' & Hm & Hk' & Hlt).
    assert (m = n ∧ k' = k) as [-> ->] by (split; congruence). lia.
  - apply list_elem_of_singleton in Hx as ->. assert (n = k) by congruence. lia.
Qed.

(** Zombies are fenced.  Once a lease with a later epoch exists in a scope, a heartbeat
    with an earlier epoch is refused with LEASE_REVOKED, which names an epoch at least as late,
    and changes nothing, whatever its lease, token and folio. *)
Theorem zombie_is_fenced branches c o x m n :
  cloud_history branches c → isValidFolioType (HeartbeatLease.folioType o) = true →
  x ∈ Cloud.folio_leases c → scope_of x = heartbeat_scope o →
  parseEpochNumber (HeartbeatLease.epochId o) = Ok m → parseEpochNumber (FolioLease.epochId x) = Ok n → m < n →
  ∃ active k, heartbeat o c = (c, Err (LeaseRevokedError active)) ∧ parseEpochNumber active = Ok k ∧ n <= k.
Proof.
  intros Hc Hty Hx Hs Hm Hn Hlt. apply cloud_history_ok in Hc as Hok.
  assert (Hin : x ∈ in_scope (Cloud.folio_leases c) (heartbeat_scope o)) by (by apply list_elem_of_filter).
  pose proof (proj2 Hok (heartbeat_scope o)) as Hchain.
  destruct (in_scope (Cloud.folio_leases c) (heartbeat_scope o)) as [|z l0 _] eqn:Hl using rev_ind; [by apply not_elem_of_nil in Hin|].
  destruct (chain_last_epoch _ _ _ _ Hchain Hin Hn) as (k & Hk & Hle). exists (FolioLease.epochId z), k.
  split; [|done]. unfold heartbeat. rewrite bind_throw_when, Hty. unfold pgTransaction. cbv zeta. simpl.
  rewrite bind_gets. fold (heartbeat_scope o). rewrite (historical_reverse _ _ Hok), Hl, reverse_app. simpl.
  rewrite bind_ret. unfold js, compareEpochs. rewrite Hm, Hk. simpl. rewrite bind_lift, bind_throw_when.
  by rewrite (proj2 (Z.ltb_lt (m - k) 0)) by lia.
Qed.

(** [n] folios in a row *)
Fixpoint issue_many (n : nat) (ty : string) : Tx (list Z) :=
  match n with
  | O => mret []
  | S n' => f ← FolioPersistence.consumeNextFolio false ty; fs ← issue_many n' ty; mret (f :: fs)
  end.

Lemma runInTransaction_run {A} (fn : Tx A) dm s s1 res :
  Edge.inTransaction s = false → fn (tx_entry dm s) = (s1, res) →
  ∃ s', runInTransaction fn dm s = (s', res) ∧ Edge.inTransaction s' = false ∧
    Edge.db s' = match res with Ok _ => Edge.db s1 | Err _ => Edge.db s end.
Proof.
  intros Htx Hfn. destruct (runInTransaction fn dm s) as [s' res'] eqn:Hrun.
  apply runInTransaction_spec in Hrun as (s1' & Hfn' & Hout & _ & Hdb); [|done].
  rewrite Hfn in Hfn'. injection Hfn' as <- <-. by exists s'.
Qed.

Module Drain.
Import FolioPersistence Local.

Lemma consume_run ty s l :
  Edge.inTransaction s = false → isValidFolioType ty = true → lease_at s ty = Some l →
  LocalLease.status l = LEASE_ACTIVE → LocalLease.currentFolio l < LocalLease.rangeEnd l →
  LocalLease.rangeStart l <= LocalLease.rangeEnd l →
  ∃ s', consumeNextFolio false ty s = (s', Ok (next_folio l)) ∧ Edge.inTransaction s' = false ∧
    lease_at s' ty = Some (settled_lease l (next_folio l)).
Proof.
  intros Htx Hty Hl Hst Hlt Hrange.
  assert (Hnext : (LocalLease.rangeEnd l <? next_folio l) = false).
  { unfold next_folio. apply Z.ltb_ge. destruct (Z.ltb_spec (LocalLease.currentFolio l) (LocalLease.rangeStart l)); lia. }
  unfold consumeNextFolio. rewrite bind_throw_when, Hty. cbn [negb].
  match goal with |- context [runInTransaction ?fn ?dm s] =>
    edestruct (runInTransaction_run fn dm s) as (s' & Hrun & Hout & Hdb); [exact Htx| |] end.
  - unfold getLocalLease. rewrite bind_query, tx_entry_db. unfold lease_at in Hl. rewrite Hl, bind_require, !bind_throw_when, Hst.
    rewrite !bool_decide_eq_false_2, (proj2 (Z.leb_gt _ _) Hlt) by done. simpl. fold (next_folio l). rewrite Hnext.
    unfold updateLocal. rewrite bind_exec, run_ret. reflexivity.
  - exists s'. split; [exact Hrun|]. split; [done|]. unfold lease_at. rewrite Hdb. simpl. unfold lease_at in Hl.
    rewrite lookup_alter_eq, Hl. done.
Qed.

Lemma consume_exhausted ty s l :
  Edge.inTransaction s = false → isValidFolioType ty = true → lease_at s ty = Some l →
  LocalLease.status l = LEASE_EXHAUSTED →
  ∃ s', consumeNextFolio false ty s = (s', Err FolioLeaseExhaustedError) ∧ Edge.db s' = Edge.db s.
Proof.
  intros Htx Hty Hl Hst. unfold consumeNextFolio. rewrite bind_throw_when, Hty. cbn [negb].
  match goal with |- context [runInTransaction ?fn ?dm s] =>
    edestruct (runInTransaction_run fn dm s) as (s' & Hrun & Hout & Hdb); [exact Htx| |] end.
  - unfold getLocalLease. rewrite bind_query, tx_entry_db. unfold lease_at in Hl. rewrite Hl, bind_require, !bind_throw_when, Hst.
    simpl. reflexivity.
  - exists s'. split; [exact Hrun|exact Hdb].
Qed.

(** a lease at [current] with [n + 1] folios left issues them in order *)
Lemma drain n ty s l :
  Edge.inTransaction s = false → isValidFolioType ty = true → lease_at s ty = Some l →
  LocalLease.status l = LEASE_ACTIVE → LocalLease.rangeStart l - 1 <= LocalLease.currentFolio l →
  LocalLease.rangeEnd l = LocalLease.currentFolio l + Z.of_nat (S n) → LocalLease.rangeStart l <= LocalLease.rangeEnd l →
  ∃ s' l', issue_many (S n) ty s = (s', Ok (seqZ (LocalLease.currentFolio l + 1) (Z.of_nat (S n)))) ∧
    Edge.inTransaction s' = false ∧ lease_at s' ty = Some l' ∧ LocalLease.status l' = LEASE_EXHAUSTED.
Proof.
  revert s l. induction n as [|n IH]; intros s l Htx Hty Hl Hst Hcur Hend Hrange.
  - assert (Hnext : next_folio l = LocalLease.currentFolio l + 1).
    { unfold next_folio. destruct (Z.ltb_spec (LocalLease.currentFolio l) (LocalLease.rangeStart l)); lia. }
    destruct (consume_run ty s l) as (s' & Hrun & Hout & Hl'); [done..|lia|done|]. rewrite Hnext in *.
    exists s', (settled_lease l (LocalLease.currentFolio l + 1)). split_and!; [|done|done|].
    + cbn [issue_many]. rewrite (bind_run_ok _ _ _ _ _ Hrun), bind_ret, run_ret. done.
    + simpl. by rewrite (proj2 (Z.eqb_eq _ _)) by lia.
  - assert (Hnext : next_folio l = LocalLease.currentFolio l + 1).
    { unfold next_folio. destruct (Z.ltb_spec (LocalLease.currentFolio l) (LocalLease.rangeStart l)); lia. }
    destruct (consume_run ty s l) as (s1 & Hrun & Hout & Hl1); [done..|lia|done|]. rewrite Hnext in *.
    destruct (IH s1 (settled_lease l (LocalLease.currentFolio l + 1))) as (s' & l' & Hmany & H1 & H2 & H3); [done|done|done| | | |done|].
    + simpl. by rewrite (proj2 (Z.eqb_neq _ _)) by lia.
    + simpl. lia.
    + simpl. lia.
    + exists s', l'. split_and!; [|done..]. change (issue_many (S (S n)) ty) with
        (f ← consumeNextFolio false ty; fs ← issue_many (S n) ty; mret (f :: fs) : Tx (list Z)).
      rewrite (bind_run_ok _ _ _ _ _ Hrun), (bind_run_ok _ _ _ _ _ Hmany), run_ret. simpl LocalLease.currentFolio.
      rewrite (seqZ_cons (LocalLease.currentFolio l + 1) (Z.of_nat (S (S n)))) by lia.
      replace (Z.succ (LocalLease.currentFolio l + 1)) with (LocalLease.currentFolio l + 1 + 1) by lia.
      by replace (Z.pred (Z.of_nat (S (S n)))) with (Z.of_nat (S n)) by lia.
Qed.
End Drain.

(** A lease yields exactly its range.  Installing a fresh lease of [n] folios and asking
    for [n] of them succeeds each time, whatever was installed before, and returns the
    numbers of the range in order; the next request is refused with LEASE_EXHAUSTED and
    changes nothing. *)
Theorem lease_drains_in_order i s s1 u n :
  FolioPersistence.setActiveLease i s = (s1, Ok u) → SetActiveLease.currentFolio i = None →
  Z.of_nat n = SetActiveLease.rangeEnd i - SetActiveLease.rangeStart i + 1 →
  ∃ s2 s3, issue_many n (SetActiveLease.folioType i) s1 = (s2, Ok (seqZ (SetActiveLease.rangeStart i) (Z.of_nat n))) ∧
    FolioPersistence.consumeNextFolio false (SetActiveLease.folioType i) s2 = (s3, Err FolioLeaseExhaustedError) ∧
    Edge.db s3 = Edge.db s2.
Proof.
  intros Hrun Hnone Hn. apply Local.setActiveLease_ok in Hrun as (Hty & _ & Hrange & Hcur & Htx & _ & Hdb).
  assert (Hinit : FolioPersistence.initialFolio i = SetActiveLease.rangeStart i - 1)
    by (unfold FolioPersistence.initialFolio; by rewrite Hnone).
  assert (Hl : Local.lease_at s1 (SetActiveLease.folioType i) = Some (Local.installed i)).
  { unfold Local.lease_at. rewrite Hdb. simpl. by rewrite lookup_insert_eq. }
  destruct n as [|n]; [lia|].
  assert (Hc : LocalLease.currentFolio (Local.installed i) = SetActiveLease.rangeStart i - 1) by exact Hinit.
  assert (Hend : LocalLease.rangeEnd (Local.installed i) = SetActiveLease.rangeEnd i) by reflexivity.
  assert (Hstart : LocalLease.rangeStart (Local.installed i) = SetActiveLease.rangeStart i) by reflexivity.
  assert (Hst : LocalLease.status (Local.installed i) = LEASE_ACTIVE).
  { unfold Local.installed. simpl. by rewrite (proj2 (Z.eqb_neq _ _)) by lia. }
  destruct (Drain.drain n _ s1 _ Htx Hty Hl Hst) as (s2 & l' & Hmany & Htx2 & Hl2 & Hst2); [lia..|].
  destruct (Drain.consume_exhausted _ s2 l' Htx2 Hty Hl2 Hst2) as (s3 & Hrun & Hdb3). exists s2, s3.
  split; [|done]. rewrite Hmany, Hc. by replace (SetActiveLease.rangeStart i - 1 + 1) with (SetActiveLease.rangeStart i) by lia.
Qed.

(** ** Witnesses: a node drains part of a lease, is replaced, and the replacement continues *)

Definition example_home (n : string) : string * string := ("org", "br").
Definition example_alloc (dr : bool) : AllocateLease.t := AllocateLease.mk "org" "br" "TICKET" (Some 10) dr.
Definition example_cloud (c : Cloud.t) (id : string) (dr : bool) : Cloud.t * result LeaseError FolioLease.t :=
  allocateLease (LeaseDraws.mk id ("tok" +:+ id) "t") (example_alloc dr) c.

Definition grant_to (n id : string) (dr : bool) (w : System.t) : System.t :=
  match example_cloud (System.cloud w) id dr with
  | (c', Ok r) => System.mk c' (System.nodes w) ((n, r) :: System.grants w) (System.issued w)
  | (_, Err _) => w
  end.
(** the node installs the lease granted last *)
Definition install_last (w : System.t) : System.t :=
  match System.grants w with
  | (n, r) :: _ => System.mk (System.cloud w)
      (node_set (System.nodes w) n (FolioPersistence.setActiveLease (install_input r None) (System.nodes w n)).1)
      (System.grants w) (System.issued w)
  | [] => w
  end.
Definition issue_at (n : string) (w : System.t) : System.t :=
  match FolioPersistence.consumeNextFolio false "TICKET" (System.nodes w n) with
  | (s', Ok f) => System.mk (System.cloud w) (node_set (System.nodes w) n s') (System.grants w) (System.issued w ++ [(n, "TICKET", f)])
  | (s', Err _) => System.mk (System.cloud w) (node_set (System.nodes w) n s') (System.grants w) (System.issued w)
  end.

Definition reached (w : System.t) : Prop := rtc (system_step example_home) (system_start [("org", "br")]) w.

Lemma reached_grant n id dr w : reached w → reached (grant_to n id dr w).
Proof.
  intros Hw. unfold grant_to, example_cloud. destruct (allocateLease _ _ _) as [c' [r|e]] eqn:E; [|done].
  eapply rtc_r; [exact Hw|]. by eapply sys_grant; [|exact E].
Qed.
Lemma reached_install w : reached w → reached (install_last w).
Proof.
  intros Hw. unfold install_last. destruct (System.grants w) as [|[n r] l] eqn:E; [done|].
  destruct (FolioPersistence.setActiveLease _ _) as [s' res] eqn:Er. eapply rtc_r; [exact Hw|]. rewrite <- E.
  eapply sys_install; [|exact Er]. rewrite E. by left.
Qed.
Lemma reached_issue n w : reached w → reached (issue_at n w).
Proof.
  intros Hw. unfold issue_at. destruct (FolioPersistence.consumeNextFolio _ _ _) as [s' [f|e]] eqn:E; (eapply rtc_r; [exact Hw|]).
  - by eapply sys_issue.
  - by eapply sys_refuse.
Qed.

Definition system_first : System.t :=
  issue_at "a" (issue_at "a" (install_last (grant_to "a" "l1" false (system_start [("org", "br")])))).
(** node b takes over; the zombie a goes on from its own range *)
Definition system_both : System.t := issue_at "a" (issue_at "b" (install_last (grant_to "b" "l2" true system_first))).

Lemma reached_both : reached system_both.
Proof. do 2 apply reached_issue. apply reached_install, reached_grant. do 2 apply reached_issue. apply reached_install, reached_grant, rtc_refl. Qed.

Lemma folios_never_issued_twice_witness :
  System.issued system_both = [("a", "TICKET", 1); ("a", "TICKET", 2); ("b", "TICKET", 11); ("a", "TICKET", 3)] ∧
  NoDup (folio_key example_home <$> System.issued system_both).
Proof.
  split; [vm_compute; reflexivity|].
  exact (proj1 (folios_never_issued_twice example_home [("org", "br")] system_both reached_both)).
Defined.

(** the cloud's table alone, after two allocations *)
Definition cloud_start : Cloud.t := Cloud.mk [("org", "br")] [].
Definition cloud_two : Cloud.t := (example_cloud (example_cloud cloud_start "l1" false).1 "l2" true).1.

Lemma history_alloc c id dr : cloud_history [("org", "br")] c → cloud_history [("org", "br")] (example_cloud c id dr).1.
Proof.
  intros Hc. unfold example_cloud. destruct (allocateLease _ _ c) as [c' res] eqn:E. simpl.
  destruct (runCloud (Allocate (LeaseDraws.mk id ("tok" +:+ id) "t") (example_alloc dr)) c) as [c2 res2] eqn:E2.
  assert (c2 = c') as <-; [|by eapply cloud_request].
  simpl in E2. destruct res as [r|e].
  - rewrite (bind_run_ok _ _ _ _ _ E) in E2. by injection E2 as <-.
  - rewrite (bind_run_err _ _ _ _ _ E) in E2. by injection E2 as <-.
Qed.
Lemma history_two : cloud_history [("org", "br")] cloud_two.
Proof. apply history_alloc, history_alloc. constructor. Qed.

Lemma cloud_leases_ordered_witness :
  ∃ x y, Cloud.folio_leases cloud_two = [x; y] ∧ FolioLease.rangeEnd x < FolioLease.rangeStart y ∧ isLive x = false.
Proof.
  destruct (Cloud.folio_leases cloud_two) as [|x [|y [|z l]]] eqn:E; try (vm_compute in E; discriminate E).
  exists x, y. split; [reflexivity|].
  destruct (cloud_leases_ordered [("org", "br")] cloud_two 0 1 x y history_two) as (H1 & H2 & _); [..|split; [exact H1|exact H2]].
  - rewrite E. vm_compute in E. injection E as <- <-. vm_compute. reflexivity.
  - rewrite E. vm_compute in E. injection E as <- <-. vm_compute. reflexivity.
  - repeat constructor.
Defined.

Definition example_zombie : HeartbeatLease.t := HeartbeatLease.mk "org" "br" "l1" "TICKET" "ep_1" "tokl1" 2.

Lemma zombie_is_fenced_witness :
  ∃ active, (heartbeat example_zombie cloud_two).2 = Err (LeaseRevokedError active).
Proof.
  destruct (Cloud.folio_leases cloud_two) as [|x [|y [|z l]]] eqn:E; try (vm_compute in E; discriminate E).
  assert (Hy : scope_of y = heartbeat_scope example_zombie ∧ parseEpochNumber (FolioLease.epochId y) = Ok 2).
  { vm_compute in E. injection E as _ <-. split; vm_compute; reflexivity. }
  destruct (zombie_is_fenced [("org", "br")] cloud_two example_zombie y 1 2 history_two eq_refl
    ltac:(rewrite E; right; left) (proj1 Hy) ltac:(vm_compute; reflexivity) (proj2 Hy) ltac:(reflexivity)) as (active & k & -> & _).
  by exists active.
Defined.

Definition example_lease : SetActiveLease.t := SetActiveLease.mk "FACTURA" "ep_3" "tok" 21 25 None.

Lemma lease_drains_in_order_witness :
  ∃ s2, issue_many 5 "FACTURA" (FolioPersistence.setActiveLease example_lease Edge.initial).1 = (s2, Ok [21; 22; 23; 24; 25]).
Proof.
  destruct (FolioPersistence.setActiveLease example_lease Edge.initial) as [s1 res] eqn:E.
  assert (res = Ok tt) as -> by (vm_compute in E; injection E as _ <-; reflexivity).
  destruct (lease_drains_in_order example_lease Edge.initial s1 tt 5 E eq_refl eq_refl) as (s2 & s3 & Hrun & _).
  exists s2. exact Hrun.
Defined.
