(* ===== verification/Kds.v ===== *)
(** Kitchen display: the SQLite adapter (kds-sqlite-repository.ts), the domain service
    (kds-service.ts) with its broadcast (kds-runtime.ts) and wire form
    (kds-wire-mapper.ts), the ESC/POS formatter (escpos-formatter.ts) and the printer
    queue (printer-queue-runner.ts).

    [attemptPrint] is two synchronous parts around the one await of the transport:
    [beginPrint] up to it and [finishPrint] after it.  The answer of the transport is an
    argument.  Clocks ([new Date()]) are arguments too. *)
From S2P Require Import Prelude Money PosTypes KdsTypes EdgeDb.
From Stdlib Require Import Ascii String.

(** [Date.parse] on the format of [toISOString] with a four-digit year; [None] is NaN *)
Definition daysFromCivil (y m d : Z) : Z :=
  let y' := if m <=? 2 then y - 1 else y in
  let era := y' / 400 in
  let yoe := y' - era * 400 in
  let doy := (153 * (if m <=? 2 then m + 9 else m - 3) + 2) / 5 + d - 1 in
  era * 146097 + (yoe * 365 + yoe / 4 - yoe / 100 + doy) - 719468.
Definition digit (c : ascii) : option Z :=
  let n := Z.of_N (N_of_ascii c) in if (48 <=? n) && (n <=? 57) then Some (n - 48) else None.
Fixpoint digits (acc : Z) (l : list ascii) : option Z :=
  match l with [] => Some acc | c :: l' => d ← digit c; digits (acc * 10 + d) l' end.
Definition daysInMonth (y m : Z) : Z :=
  if m =? 2 then if (y mod 4 =? 0) && (negb (y mod 100 =? 0) || (y mod 400 =? 0)) then 29 else 28
  else if (m =? 4) || (m =? 6) || (m =? 9) || (m =? 11) then 30 else 31.
Definition Date_parse (s : string) : option Z :=
  match list_ascii_of_string s with
  | [y1;y2;y3;y4;"-";m1;m2;"-";d1;d2;"T";h1;h2;":";n1;n2;":";s1;s2;".";f1;f2;f3;"Z"]%char =>
      y ← digits 0 [y1;y2;y3;y4]; m ← digits 0 [m1;m2]; d ← digits 0 [d1;d2];
      h ← digits 0 [h1;h2]; n ← digits 0 [n1;n2]; sec ← digits 0 [s1;s2]; f ← digits 0 [f1;f2;f3];
      if (1 <=? m) && (m <=? 12) && (1 <=? d) && (d <=? daysInMonth y m) && (h <=? 23) && (n <=? 59) && (sec <=? 59)
      then Some (((daysFromCivil y m d * 24 + h) * 60 + n) * 60000 + sec * 1000 + f) else None
  | _ => None
  end.

Module SqliteKds.

(** a SELECT and a mutation of the kitchen tables *)
Definition select {A} (f : KdsDb.t → A) : Tx A := query (λ d, f (Db.kds d)).
Definition run (f : KdsDb.t → KdsDb.t) : Tx unit := exec (λ d, d <| Db.kds ::= f |>).

Definition estacionIds (d : KdsDb.t) : list string := KdsEstacion.id <$> KdsDb.kds_estaciones d.
Definition printerIds (d : KdsDb.t) : list string := ImpresoraRed.id <$> KdsDb.impresoras_red d.
Definition ticketIds (d : KdsDb.t) : list string := KdsTicketOf.id <$> KdsDb.kds_tickets d.
(** a nullable REFERENCES column *)
Definition references (o : option string) (ids : list string) : bool :=
  match o with Some id => bool_decide (id ∈ ids) | None => true end.

(** the first row with a key *)
Definition findBy {A} (key : A → string) (id : string) (l : list A) : option A :=
  snd <$> list_find (λ r, key r = id) l.

(* kds-sqlite-repository.ts:147-153 getEstacionById *)
Definition getEstacionById (id : string) : Tx (option KdsEstacion.t) :=
  select (λ d, findBy KdsEstacion.id id (KdsDb.kds_estaciones d)).

(* kds-sqlite-repository.ts:155-160 listEstaciones *)
Definition listEstaciones : Tx (list KdsEstacion.t) :=
  select (λ d, orderBy KdsEstacion.name (KdsDb.kds_estaciones d)).

(* kds-sqlite-repository.ts:96-116 createEstacion *)
Definition createEstacion (now id name : string) (stationType : KdsEstacionType.t)
    (status : option KdsEstacionStatus.t) : Tx KdsEstacion.t :=
  ids ← select estacionIds;
  throw_when (bool_decide (id ∈ ids)) (SqliteError "kds_estaciones.id") ;;
  run (λ d, d <| KdsDb.kds_estaciones ::= (λ l, l ++
    [KdsEstacion.mk id name stationType (default KdsEstacionStatus.ACTIVA status) now]) |>) ;;
  created ← getEstacionById id;
  require created (Js (PlainError "Failed to persist kds_estacion")).

(* kds-sqlite-repository.ts:282-289 getPrinterById *)
Definition getPrinterById (id : string) : Tx (option ImpresoraRed.t) :=
  select (λ d, findBy ImpresoraRed.id id (KdsDb.impresoras_red d)).

(* kds-sqlite-repository.ts:291-297 listPrinters *)
Definition listPrinters : Tx (list ImpresoraRed.t) :=
  select (λ d, orderBy ImpresoraRed.name (KdsDb.impresoras_red d)).

(* kds-sqlite-repository.ts:118-141 createPrinter *)
Definition createPrinter (now id name host : string) (port : option Z) (kdsEstacionId : option string)
    : Tx ImpresoraRed.t :=
  d ← select (λ d, d);
  throw_when (bool_decide (id ∈ printerIds d)) (SqliteError "impresoras_red.id") ;;
  throw_when (negb (references kdsEstacionId (estacionIds d))) (SqliteError "FOREIGN KEY") ;;
  run (λ d, d <| KdsDb.impresoras_red ::= (λ l, l ++
    [ImpresoraRed.mk id name host (default 9100 port) kdsEstacionId PrinterStatus.UNKNOWN None now]) |>) ;;
  created ← getPrinterById id;
  require created (Js (PlainError "Failed to persist impresora_red")).

(* kds-sqlite-repository.ts:412-430 loadPartidas *)
Definition loadPartidas (d : KdsDb.t) (kdsTicketId : string) : list KdsPartida.t :=
  orderBy KdsPartida.createdAt (filter (λ p, KdsPartida.kdsTicketId p = kdsTicketId) (KdsDb.kds_ticket_partidas d)).

(* kds-sqlite-repository.ts:390-410 mapTicket *)
Definition mapTicket (d : KdsDb.t) (row : KdsTicketRow) : KdsTicket :=
  KdsTicketOf.withPartidas row (loadPartidas d (KdsTicketOf.id row)).

(* kds-sqlite-repository.ts:162-173 getTicketById *)
Definition getTicketById (id : string) : Tx (option KdsTicket) :=
  select (λ d, mapTicket d <$> findBy KdsTicketOf.id id (KdsDb.kds_tickets d)).

(** INSERT ... ON CONFLICT(id) DO UPDATE SET status = excluded.status *)
(* kds-sqlite-repository.ts:432-452 persistPartidas *)
Definition persistPartida (kdsTicketId : string) (p : KdsPartida.t) : Tx unit :=
  d ← select (λ d, d);
  if decide (KdsPartida.id p ∈ (KdsPartida.id <$> KdsDb.kds_ticket_partidas d)) then
    run (λ d, d <| KdsDb.kds_ticket_partidas ::= fmap (λ r,
      if decide (KdsPartida.id r = KdsPartida.id p) then r <| KdsPartida.status := KdsPartida.status p |> else r) |>)
  else
    throw_when (bool_decide (kdsTicketId ∉ ticketIds d)) (SqliteError "FOREIGN KEY") ;;
    run (λ d, d <| KdsDb.kds_ticket_partidas ::= (λ l, l ++ [p <| KdsPartida.kdsTicketId := kdsTicketId |>]) |>).

(** REFERENCES and CHECK of a ticket row *)
(* kds-schema.ts:37-53 kds_tickets *)
Definition ticketConstraints (d : KdsDb.t) (ticket : KdsTicket) : Tx unit :=
  throw_when (negb (references (KdsTicketOf.printerId ticket) (printerIds d))) (SqliteError "FOREIGN KEY") ;;
  throw_when (match KdsTicketOf.preparationTimeMinutes ticket with Some n => n <? 0 | None => false end)
    (SqliteError "CHECK preparation_time_minutes").

(* kds-sqlite-repository.ts:206-225 saveTicket, UPDATE *)
Definition updateTicketRow (ticket : KdsTicket) (row : KdsTicketRow) : KdsTicketRow :=
  row <| KdsTicketOf.mesaReference := KdsTicketOf.mesaReference ticket |>
      <| KdsTicketOf.urgencyLevel := KdsTicketOf.urgencyLevel ticket |>
      <| KdsTicketOf.status := KdsTicketOf.status ticket |>
      <| KdsTicketOf.printStatus := KdsTicketOf.printStatus ticket |>
      <| KdsTicketOf.printAttempts := KdsTicketOf.printAttempts ticket |>
      <| KdsTicketOf.printerId := KdsTicketOf.printerId ticket |>
      <| KdsTicketOf.lastPrintError := KdsTicketOf.lastPrintError ticket |>
      <| KdsTicketOf.updatedAt := KdsTicketOf.updatedAt ticket |>
      <| KdsTicketOf.completedAt := KdsTicketOf.completedAt ticket |>
      <| KdsTicketOf.preparationTimeMinutes := KdsTicketOf.preparationTimeMinutes ticket |>.

(** [UPDATE kds_tickets SET ... WHERE id = ?] *)
Definition updateTicket (id : string) (f : KdsTicketRow → KdsTicketRow) : Tx unit :=
  run (λ d, d <| KdsDb.kds_tickets ::= fmap (λ r, if decide (KdsTicketOf.id r = id) then f r else r) |>).

(* kds-sqlite-repository.ts:175-229 saveTicket *)
Definition saveTicket (ticket : KdsTicket) : Tx KdsTicket :=
  existing ← getTicketById (KdsTicketOf.id ticket);
  match existing with
  | None =>
      runInTransaction (
        d ← select (λ d, d);
        throw_when (bool_decide (KdsTicketOf.id ticket ∈ ticketIds d)) (SqliteError "kds_tickets.id") ;;
        throw_when (bool_decide (KdsTicketOf.kdsEstacionId ticket ∉ estacionIds d)) (SqliteError "FOREIGN KEY") ;;
        ticketConstraints d ticket ;;
        run (λ d, d <| KdsDb.kds_tickets ::= (λ l, l ++ [KdsTicketOf.withPartidas ticket tt]) |>) ;;
        for_each (persistPartida (KdsTicketOf.id ticket)) (KdsTicketOf.partidas ticket)) None ;;
      mret ticket
  | Some _ =>
      runInTransaction (
        d ← select (λ d, d);
        ticketConstraints d ticket ;;
        updateTicket (KdsTicketOf.id ticket) (updateTicketRow ticket) ;;
        for_each (persistPartida (KdsTicketOf.id ticket)) (KdsTicketOf.partidas ticket)) None ;;
      mret ticket
  end.

(* kds-sqlite-repository.ts:231-243 listActiveTicketsByEstacion *)
Definition activeTickets (d : KdsDb.t) (kdsEstacionId : string) : list KdsTicket :=
  mapTicket d <$> orderAsc KdsTicketOf.aggregateSequenceNumber
    (filter (λ r, KdsTicketOf.kdsEstacionId r = kdsEstacionId ∧ KdsTicketOf.status r ≠ KdsTicketStatus.ENTREGADO)
       (KdsDb.kds_tickets d)).
Definition listActiveTicketsByEstacion (kdsEstacionId : string) : Tx (list KdsTicket) :=
  select (λ d, activeTickets d kdsEstacionId).

(** [now] is [Date.now()]; the quotient by 60000 is compared exactly *)
(* kds-sqlite-repository.ts:250-276 getTicketForRecall *)
Definition getTicketForRecall (now : Z) (ordenProduccionId : string) (windowMinutes : Z) : Tx (option KdsTicket) :=
  select (λ d,
    row ← findBy KdsTicketOf.id ordenProduccionId (KdsDb.kds_tickets d);
    completed_at ← truthy (KdsTicketOf.completedAt row);
    completedEpoch ← Date_parse completed_at;
    let elapsed := now - completedEpoch in
    if (elapsed <? 0) || (windowMinutes * 60000 <? elapsed) then None else Some (mapTicket d row)).

(* kds-sqlite-repository.ts:299-306 updatePrinterStatus *)
Definition updatePrinterStatus (id : string) (status : PrinterStatus.t) (lastSeenAt : string) : Tx unit :=
  run (λ d, d <| KdsDb.impresoras_red ::= fmap (λ r,
    if decide (ImpresoraRed.id r = id)
    then r <| ImpresoraRed.status := status |> <| ImpresoraRed.lastSeenAt := Some lastSeenAt |> else r) |>).

Definition pendingPrint (st : PrintJobStatus.t) : bool :=
  match st with PrintJobStatus.PENDING | PrintJobStatus.QUEUED | PrintJobStatus.FAILED => true | _ => false end.

(* kds-sqlite-repository.ts:308-319 listPendingPrintJobs *)
Definition listPendingPrintJobs : Tx (list KdsTicket) :=
  select (λ d, mapTicket d <$> orderAsc KdsTicketOf.aggregateSequenceNumber
    (filter (λ r, pendingPrint (KdsTicketOf.printStatus r) = true) (KdsDb.kds_tickets d))).

(** one row of its UPDATE *)
Definition recoverRow (now : string) (r : KdsTicketRow) : KdsTicketRow :=
  if decide (KdsTicketOf.printStatus r = PrintJobStatus.PRINTING) then
    r <| KdsTicketOf.printStatus := PrintJobStatus.QUEUED |>
      <| KdsTicketOf.lastPrintError := Some "RECOVERED_AFTER_RESTART_DURING_PRINTING" |>
      <| KdsTicketOf.updatedAt := now |>
  else r.

(* kds-sqlite-repository.ts:321-338 recoverInterruptedPrintingJobs *)
Definition recoverInterruptedPrintingJobs (now : string) : Tx (list KdsTicket) :=
  interrupted ← select (λ d, KdsTicketOf.id <$>
    filter (λ r, KdsTicketOf.printStatus r = PrintJobStatus.PRINTING) (KdsDb.kds_tickets d));
  match interrupted with
  | [] => mret []
  | _ =>
      run (λ d, d <| KdsDb.kds_tickets ::= fmap (recoverRow now) |>) ;;
      select (λ d, omap (λ id, mapTicket d <$> findBy KdsTicketOf.id id (KdsDb.kds_tickets d)) interrupted)
  end.

(* kds-sqlite-repository.ts:340-353 markTicketPrintAttempt *)
Definition markTicketPrintAttempt (now id : string) (status : PrintJobStatus.t) (attempts : Z)
    (lastPrintError : option string) : Tx unit :=
  updateTicket id (λ r,
    r <| KdsTicketOf.printStatus := status |> <| KdsTicketOf.printAttempts := attempts |>
      <| KdsTicketOf.lastPrintError := lastPrintError |> <| KdsTicketOf.updatedAt := now |>).

(* kds-sqlite-repository.ts:355-361 assignPrinterToTicket *)
Definition assignPrinterToTicket (ticketId printerId : string) : Tx unit :=
  d ← select (λ d, d);
  throw_when (bool_decide (ticketId ∈ ticketIds d) && bool_decide (printerId ∉ printerIds d)) (SqliteError "FOREIGN KEY") ;;
  updateTicket ticketId (λ r, r <| KdsTicketOf.printerId := Some printerId |>).

End SqliteKds.

(** ** Wire form *)

(* kds-wire-mapper.ts:17-29 mapKdsTicketPartidaToWire *)
Definition mapKdsTicketPartidaToWire (p : KdsPartida.t) : KdsPartidaWire.t :=
  KdsPartidaWire.mk (KdsPartida.id p) (KdsPartida.kdsTicketId p) (KdsPartida.productId p)
    (KdsPartida.productNameSnapshot p) (scaledBigIntToDecimalString (KdsPartida.quantity p))
    (KdsPartida.comments p) (KdsPartida.modifiers p) (KdsPartida.status p) (KdsPartida.createdAt p).

(* kds-wire-mapper.ts:31-50 mapKdsTicketToWire *)
Definition mapKdsTicketToWire (ticket : KdsTicket) : KdsTicketWire :=
  KdsTicketOf.withPartidas ticket (mapKdsTicketPartidaToWire <$> KdsTicketOf.partidas ticket).

(* kds-wire-mapper.ts:52-68 parseComandaWireItem *)
Definition parseComandaWireItem (item : EnviarComandaItem.t string) : result JsError (EnviarComandaItem.t Z) :=
  result_map (λ quantity,
      EnviarComandaItem.mk (EnviarComandaItem.id item) (EnviarComandaItem.productId item)
        (EnviarComandaItem.productNameSnapshot item) quantity (EnviarComandaItem.comments item)
        (EnviarComandaItem.modifiers item))
    (decimalStringToScaledBigInt (EnviarComandaItem.quantity item)).

(** ** The running kitchen display

    The connection, and the messages handed to the dispatcher so far, newest first.
    Delivering them to the screens is the dispatcher's. *)

Module KdsRt.
(* kds-runtime.ts:31-36 KdsRuntime *)
Record t := mk { edge : Edge.t; broadcasts : list (KdsDomainEvent KdsTicketWire) }.
#[global] Instance eta_t : Eta t := λ r, mk (edge r) (broadcasts r).
End KdsRt.

Abbreviation KdsTx := (M KdsRt.t PosError).

Definition onEdge {A} (m : Tx A) : KdsTx A := λ r,
  let '(s, res) := m (KdsRt.edge r) in (r <| KdsRt.edge := s |>, res).

(* kds-runtime.ts:60-85 eventPublisher *)
Definition publishTicketEvent (event : KdsDomainEvent KdsTicket) : KdsTx unit :=
  let message := match event with
    | OrdenProduccionConfirmadaEnKDS est ord completedAt minutes ticket emittedAt =>
        OrdenProduccionConfirmadaEnKDS est ord completedAt minutes (mapKdsTicketToWire ticket) emittedAt
    | OrdenProduccionIniciadaEnKDS est ticket emittedAt =>
        OrdenProduccionIniciadaEnKDS est (mapKdsTicketToWire ticket) emittedAt
    | ComandaEnviadaACocina est ticket emittedAt =>
        ComandaEnviadaACocina est (mapKdsTicketToWire ticket) emittedAt
    end in
  modify (λ r, r <| KdsRt.broadcasts ::= cons message |>).

(** the snapshot a screen receives when it (re)connects *)
(* kds-runtime.ts:51-57 getResyncSnapshot *)
Definition getResyncSnapshot : Tx (list KdsTicketWire) :=
  estaciones ← SqliteKds.listEstaciones;
  SqliteKds.select (λ d, estaciones ≫= λ e,
    mapKdsTicketToWire <$> SqliteKds.activeTickets d (KdsEstacion.id e)).

Module KdsDomainService.
Import SqliteKds.

Definition KdsError (code : string) (status : Z) : PosError := DomainError code status.

(* kds-service.ts:70-98 enviarComandaACocina, partidas *)
Definition newPartida (now ticketId : string) (item : EnviarComandaItem.t Z) : result PosError KdsPartida.t :=
  if EnviarComandaItem.quantity item <=? 0 then Err (KdsError "INVALID_QUANTITY" 400)
  else Ok (KdsPartida.mk (EnviarComandaItem.id item) ticketId (EnviarComandaItem.productId item)
    (EnviarComandaItem.productNameSnapshot item) (EnviarComandaItem.quantity item)
    (EnviarComandaItem.comments item) (default [] (EnviarComandaItem.modifiers item))
    KdsPartidaStatus.PENDIENTE now).

(** [items.map], stopping at the first throw *)
Fixpoint mapThrow {E A B} (f : A → result E B) (l : list A) : result E (list B) :=
  match l with
  | [] => Ok []
  | x :: l' => result_bind (f x) (λ y, result_map (cons y) (mapThrow f l'))
  end.

(* kds-service.ts:66-68 enviarComandaACocina, nextSequence *)
Definition nextSequence (previousActive : list KdsTicket) : Z :=
  foldl (λ max t, Z.max max (KdsTicketOf.aggregateSequenceNumber t)) 0 previousActive + 1.

(* kds-service.ts:100-117 enviarComandaACocina, ticket *)
Definition newTicket (now : string) (input : EnviarComanda.t) (sequence : Z) (partidas : list KdsPartida.t) : KdsTicket :=
  KdsTicketOf.mk (EnviarComanda.id input) (EnviarComanda.cuentaId input) (EnviarComanda.mesaReference input)
    (EnviarComanda.kdsEstacionId input) (default UrgencyLevel.NORMAL (EnviarComanda.urgencyLevel input))
    KdsTicketStatus.PENDIENTE PrintJobStatus.PENDING 0 None None sequence now now None None partidas.

(* kds-service.ts:248-282 emit *)
Definition emit (emittedAt : string) (type : string) (ticket : KdsTicket) (tiempo : option Z) : KdsTx unit :=
  publishTicketEvent
    (if decide (type = "OrdenProduccionConfirmadaEnKDS") then
       OrdenProduccionConfirmadaEnKDS (KdsTicketOf.kdsEstacionId ticket) (KdsTicketOf.id ticket)
         (default emittedAt (KdsTicketOf.completedAt ticket))
         (default (default 0 (KdsTicketOf.preparationTimeMinutes ticket)) tiempo) ticket emittedAt
     else if decide (type = "OrdenProduccionIniciadaEnKDS") then
       OrdenProduccionIniciadaEnKDS (KdsTicketOf.kdsEstacionId ticket) ticket emittedAt
     else ComandaEnviadaACocina (KdsTicketOf.kdsEstacionId ticket) ticket emittedAt).

(* kds-service.ts:39-122 enviarComandaACocina *)
Definition enviarComandaACocina (now emittedAt : string) (input : EnviarComanda.t) : KdsTx KdsTicket :=
  existing ← onEdge (getTicketById (EnviarComanda.id input));
  throw_when (bool_decide (is_Some existing)) (KdsError "DUPLICATE_KDS_TICKET" 409) ;;
  found ← onEdge (getEstacionById (EnviarComanda.kdsEstacionId input));
  estacion ← require found (KdsError "KDS_ESTACION_NOT_FOUND" 404);
  throw_when (bool_decide (KdsEstacion.status estacion ≠ KdsEstacionStatus.ACTIVA)) (KdsError "KDS_ESTACION_INACTIVE" 409) ;;
  throw_when (bool_decide (EnviarComanda.items input = [])) (KdsError "EMPTY_COMANDA" 400) ;;
  previousActive ← onEdge (listActiveTicketsByEstacion (EnviarComanda.kdsEstacionId input));
  partidas ← lift (mapThrow (newPartida now (EnviarComanda.id input)) (EnviarComanda.items input));
  saved ← onEdge (saveTicket (newTicket now input (nextSequence previousActive) partidas));
  emit emittedAt "ComandaEnviadaACocina" saved None ;;
  mret saved.

(* kds-service.ts:233-246 requireTicketAtEstacion *)
Definition requireTicketAtEstacion (kdsTicketId kdsEstacionId : string) : Tx KdsTicket :=
  found ← getTicketById kdsTicketId;
  ticket ← require found (KdsError "KDS_TICKET_NOT_FOUND" 404);
  throw_when (bool_decide (KdsTicketOf.kdsEstacionId ticket ≠ kdsEstacionId)) (KdsError "KDS_ESTACION_MISMATCH" 409) ;;
  mret ticket.

Definition allPartidas (st : KdsPartidaStatus.t) : list KdsPartida.t → list KdsPartida.t :=
  fmap (λ p, p <| KdsPartida.status := st |>).

(* kds-service.ts:127-149 iniciarPreparacionOrden *)
Definition iniciarPreparacionOrden (now emittedAt kdsTicketId kdsEstacionId : string) : KdsTx KdsTicket :=
  ticket ← onEdge (requireTicketAtEstacion kdsTicketId kdsEstacionId);
  throw_when (bool_decide (KdsTicketOf.status ticket ≠ KdsTicketStatus.PENDIENTE)) (KdsError "INVALID_KDS_TICKET_STATUS" 400) ;;
  let updated := ticket
    <| KdsTicketOf.status := KdsTicketStatus.EN_PREPARACION |>
    <| KdsTicketOf.partidas ::= allPartidas KdsPartidaStatus.EN_PREPARACION |>
    <| KdsTicketOf.updatedAt := now |> in
  saved ← onEdge (saveTicket updated);
  emit emittedAt "OrdenProduccionIniciadaEnKDS" saved None ;;
  mret saved.

(* kds-service.ts:155-195 confirmarOrdenSurtida *)
Definition confirmarOrdenSurtida (now emittedAt kdsTicketId kdsEstacionId : string) (tiempoPreparacionMinutos : Z) : KdsTx KdsTicket :=
  ticket ← onEdge (requireTicketAtEstacion kdsTicketId kdsEstacionId);
  throw_when (bool_decide (KdsTicketOf.status ticket ≠ KdsTicketStatus.EN_PREPARACION)) (KdsError "INVALID_KDS_TICKET_STATUS" 400) ;;
  throw_when (tiempoPreparacionMinutos <? 0) (KdsError "INVALID_PREPARATION_TIME" 400) ;;
  let updated := ticket
    <| KdsTicketOf.status := KdsTicketStatus.LISTO |>
    <| KdsTicketOf.partidas ::= allPartidas KdsPartidaStatus.LISTO |>
    <| KdsTicketOf.completedAt := Some now |>
    <| KdsTicketOf.updatedAt := now |>
    <| KdsTicketOf.preparationTimeMinutes := Some tiempoPreparacionMinutos |> in
  saved ← onEdge (saveTicket updated);
  emit emittedAt "OrdenProduccionConfirmadaEnKDS" saved (Some tiempoPreparacionMinutos) ;;
  mret saved.

(* kds-service.ts:200-210 consultarOrdenesActivas *)
Definition consultarOrdenesActivas (kdsEstacionId : string) : KdsTx (list KdsTicket) :=
  onEdge (
    found ← getEstacionById kdsEstacionId;
    throw_when (bool_decide (found = None)) (KdsError "KDS_ESTACION_NOT_FOUND" 404) ;;
    listActiveTicketsByEstacion kdsEstacionId).

(* kds-service.ts:218-231 recuperarOrdenRecall *)
Definition recuperarOrdenRecall (now : Z) (ordenProduccionId : string) (ventanaMaxMinutos : option Z) : KdsTx (option KdsTicket) :=
  let ventana := default 120 ventanaMaxMinutos in
  throw_when (ventana <? 0) (KdsError "INVALID_RECALL_WINDOW" 400) ;;
  onEdge (getTicketForRecall now ordenProduccionId ventana).

End KdsDomainService.

(** ** ESC/POS tickets

    Bytes are characters.  [sanitize] is [normalize('NFKD')] followed by the removal of
    everything outside [0x20-0x7e], on the code units below 256: the printable part of
    each character's compatibility decomposition. *)

Module EscPos.

Definition ESC : ascii := "027".
Definition GS : ascii := "029".
Definition CMD_INIT : string := String ESC "@".
Definition CMD_BOLD_ON : string := String ESC (String "E" (String "001" "")).
Definition CMD_BOLD_OFF : string := String ESC (String "E" (String "000" "")).
Definition CMD_ALIGN_CENTER : string := String ESC (String "a" (String "001" "")).
Definition CMD_ALIGN_LEFT : string := String ESC (String "a" (String "000" "")).
Definition CMD_CUT : string := String GS (String "V" (String "000" "")).
Definition LF : string := String "010" "".

Definition printable (c : ascii) : bool := let n := N_of_ascii c in ((32 <=? n) && (n <=? 126))%N.

Definition nfkdLatin1 (n : N) : string :=
  match n with
  | 160 | 168 | 175 | 180 | 184 => " "
  | 170 => "a" | 178 => "2" | 179 => "3" | 185 => "1" | 186 => "o"
  | 188 => "14" | 189 => "12" | 190 => "34"
  | 192 | 193 | 194 | 195 | 196 | 197 => "A" | 199 => "C"
  | 200 | 201 | 202 | 203 => "E" | 204 | 205 | 206 | 207 => "I" | 209 => "N"
  | 210 | 211 | 212 | 213 | 214 => "O" | 217 | 218 | 219 | 220 => "U" | 221 => "Y"
  | 224 | 225 | 226 | 227 | 228 | 229 => "a" | 231 => "c"
  | 232 | 233 | 234 | 235 => "e" | 236 | 237 | 238 | 239 => "i" | 241 => "n"
  | 242 | 243 | 244 | 245 | 246 => "o" | 249 | 250 | 251 | 252 => "u" | 253 | 255 => "y"
  | _ => ""
  end%N.

(* escpos-formatter.ts:38-44 ascii *)
Fixpoint sanitize (text : string) : string :=
  match text with
  | EmptyString => EmptyString
  | String c t => (if printable c then String c "" else nfkdLatin1 (N_of_ascii c)) +:+ sanitize t
  end.

Definition concatAll (l : list string) : string := foldr String.append "" l.

(* escpos-formatter.ts:63-76 formatKdsTicketEscPos, partidas *)
Definition formatPartida (p : KdsPartidaWire.t) : string :=
  concatAll
    ([CMD_BOLD_ON; sanitize (KdsPartidaWire.quantity p +:+ " x " +:+ KdsPartidaWire.productNameSnapshot p); LF; CMD_BOLD_OFF] ++
     ((λ m, sanitize ("   + " +:+ KdsModificador.modifierNameSnapshot m) +:+ LF) <$> KdsPartidaWire.modifiers p) ++
     match truthy (KdsPartidaWire.comments p) with
     | Some c => [sanitize ("   Nota: " +:+ c); LF]
     | None => []
     end).

(** the lines carry their quantity as the decimal string the queue runner formats *)
(* escpos-formatter.ts:50-82 formatKdsTicketEscPos *)
Definition formatKdsTicketEscPos (ticket : KdsTicketWire) : string :=
  concatAll
    ([CMD_INIT; CMD_ALIGN_CENTER; CMD_BOLD_ON; sanitize "*** COMANDA COCINA ***"; LF; CMD_BOLD_OFF] ++
     (if decide (KdsTicketOf.urgencyLevel ticket ≠ UrgencyLevel.NORMAL)
      then [sanitize ("** URGENCIA: " +:+ UrgencyLevel.name (KdsTicketOf.urgencyLevel ticket) +:+ " **"); LF] else []) ++
     [CMD_ALIGN_LEFT;
      sanitize ("Mesa: " +:+ KdsTicketOf.mesaReference ticket); LF;
      sanitize ("Ticket: " +:+ KdsTicketOf.id ticket); LF;
      sanitize ("Hora: " +:+ KdsTicketOf.createdAt ticket); LF;
      sanitize "------------------------------"; LF] ++
     (formatPartida <$> KdsTicketOf.partidas ticket) ++
     [sanitize "------------------------------"; LF; LF; LF; CMD_CUT]).

End EscPos.

(** ** Printer queue *)

Module PrinterQueueRunner.
Import SqliteKds.

(* printer-queue-runner.ts:33-33 PrintAttemptResult.outcome *)
Inductive Outcome := PRINTED | FAILED | NO_PRINTER_ASSIGNED | MAX_ATTEMPTS_EXCEEDED.

Module Result.
(* printer-queue-runner.ts:31-35 PrintAttemptResult *)
Record t := mk { ticketId : string; outcome : Outcome; error : option string }.
End Result.

(** an attempt whose transmission is under way *)
Module Transmission.
Record t := mk { ticketId : string; printerId : string; host : string; port : Z; attemptNumber : Z; payload : string }.
End Transmission.

(* printer-queue-runner.ts:54-62 resolvePrinterFor *)
Definition resolvePrinterFor (ticket : KdsTicket) : Tx (option ImpresoraRed.t) :=
  match truthy (KdsTicketOf.printerId ticket) with
  | Some printerId => getPrinterById printerId
  | None =>
      printers ← listPrinters;
      mret (snd <$> list_find (λ p, ImpresoraRed.kdsEstacionId p = Some (KdsTicketOf.kdsEstacionId ticket)) printers)
  end.

(** up to [await client.printTicket(payload)]: finished, or transmitting *)
(* printer-queue-runner.ts:80-122 attemptPrint *)
Definition beginPrint (maxAttempts : Z) (now : string) (ticket : KdsTicket) : Tx (Result.t + Transmission.t) :=
  let id := KdsTicketOf.id ticket in
  if maxAttempts <=? KdsTicketOf.printAttempts ticket then mret (inl (Result.mk id MAX_ATTEMPTS_EXCEEDED None))
  else
    found ← resolvePrinterFor ticket;
    match found with
    | None =>
        markTicketPrintAttempt now id PrintJobStatus.FAILED (KdsTicketOf.printAttempts ticket) (Some "NO_PRINTER_ASSIGNED") ;;
        mret (inl (Result.mk id NO_PRINTER_ASSIGNED (Some "NO_PRINTER_ASSIGNED")))
    | Some printer =>
        let payload := EscPos.formatKdsTicketEscPos (mapKdsTicketToWire ticket) in
        let attemptNumber := KdsTicketOf.printAttempts ticket + 1 in
        markTicketPrintAttempt now id PrintJobStatus.PRINTING attemptNumber (KdsTicketOf.lastPrintError ticket) ;;
        mret (inr (Transmission.mk id (ImpresoraRed.id printer) (ImpresoraRed.host printer) (ImpresoraRed.port printer)
                     attemptNumber payload))
    end.

(** after it: [answer] is the transport's, an error message when it rejected *)
(* printer-queue-runner.ts:124-143 attemptPrint *)
Definition finishPrint (maxAttempts : Z) (now : string) (x : Transmission.t) (answer : result string unit) : Tx Result.t :=
  let id := Transmission.ticketId x in
  match answer with
  | Ok _ =>
      markTicketPrintAttempt now id PrintJobStatus.PRINTED (Transmission.attemptNumber x) None ;;
      updatePrinterStatus (Transmission.printerId x) PrinterStatus.ONLINE now ;;
      mret (Result.mk id PRINTED None)
  | Err message =>
      markTicketPrintAttempt now id
        (if maxAttempts <=? Transmission.attemptNumber x then PrintJobStatus.FAILED else PrintJobStatus.QUEUED)
        (Transmission.attemptNumber x) (Some message) ;;
      updatePrinterStatus (Transmission.printerId x) PrinterStatus.OFFLINE now ;;
      mret (Result.mk id FAILED (Some message))
  end.

Section run.
(** the transport during one run *)
Context (transport : Transmission.t → result string unit) (maxAttempts : Z) (now : string).

(* printer-queue-runner.ts:80-144 attemptPrint *)
Definition attemptPrint (ticket : KdsTicket) : Tx Result.t :=
  started ← beginPrint maxAttempts now ticket;
  match started with
  | inl r => mret r
  | inr x => finishPrint maxAttempts now x (transport x)
  end.

Fixpoint attemptAll (tickets : list KdsTicket) : Tx (list Result.t) :=
  match tickets with
  | [] => mret []
  | ticket :: rest => r ← attemptPrint ticket; rs ← attemptAll rest; mret (r :: rs)
  end.

(* printer-queue-runner.ts:69-78 runPendingQueueOnce *)
Definition runPendingQueueOnce : Tx (list Result.t) :=
  pending ← listPendingPrintJobs;
  attemptAll pending.
End run.

End PrinterQueueRunner.
