(* ===== verification/KdsSpec.v ===== *)
(** The tables of the kitchen display: their invariant ([well_formed]), the effect of every
    request on them ([move]), and what a screen shows of them ([kitchen_view]).

    The effect of a save is described once ([save_new], [save_existing]); the invariants
    are proved over those effects, and KitchenSpec.v composes them. *)
From S2P Require Import Prelude Money PosTypes KdsTypes EdgeDb Kds.
Import SqliteKds KdsDomainService.

(** ** Rows by key *)

Section find.
Context {A : Type} (key : A → string).
Lemma findBy_Some id l x : findBy key id l = Some x → x ∈ l ∧ key x = id.
Proof.
  unfold findBy. rewrite fmap_Some. intros ([i y] & Hf & ->). apply list_find_Some in Hf as (Hi & Hk & _).
  split; [by eapply list_elem_of_lookup_2|done].
Qed.
Lemma findBy_None id l : findBy key id l = None ↔ id ∉ (key <$> l).
Proof.
  unfold findBy. rewrite fmap_None, list_find_None, Forall_forall. split.
  - intros Hn (x & -> & Hx)%list_elem_of_fmap. by apply (Hn x Hx).
  - intros Hn x Hx <-. apply Hn. by apply list_elem_of_fmap_2.
Qed.
Lemma findBy_unique id l x : NoDup (key <$> l) → x ∈ l → key x = id → findBy key id l = Some x.
Proof.
  intros Hnd Hx Hk. destruct (findBy key id l) as [y|] eqn:Hf.
  - apply findBy_Some in Hf as [Hy Hky]. f_equal. apply list_elem_of_lookup in Hx as [i Hi], Hy as [j Hj].
    assert (i = j) as ->; [|congruence]. eapply (NoDup_lookup _ _ _ id Hnd); rewrite list_lookup_fmap.
    + rewrite Hi. simpl. by f_equal.
    + rewrite Hj. simpl. by f_equal.
  - apply findBy_None in Hf. exfalso. apply Hf. subst id. by apply list_elem_of_fmap_2.
Qed.
(** updating the rows with a key keeps every key *)
Lemma fmap_key (f : A → A) (l : list A) : (∀ x, key (f x) = key x) → key <$> (f <$> l) = key <$> l.
Proof. intros Hf. rewrite <- list_fmap_compose. apply list_fmap_ext. intros i x _. apply Hf. Qed.
End find.

(** ** Effect of a save on the tables *)

Definition kd (s : Edge.t) : KdsDb.t := Db.kds (Edge.db s).
Definition set_kd (s : Edge.t) (d : KdsDb.t) : Edge.t := s <| Edge.db ::= (λ x, x <| Db.kds := d |>) |>.

Lemma bind_select {A B} (f : KdsDb.t → A) (k : A → Tx B) s : (select f ≫= k) s = k (f (kd s)) s.
Proof. done. Qed.
Lemma run_select {A} (f : KdsDb.t → A) s : select f s = (s, Ok (f (kd s))).
Proof. done. Qed.
Lemma bind_kds {B} (f : KdsDb.t → KdsDb.t) (k : unit → Tx B) s : (run f ≫= k) s = k tt (set_kd s (f (kd s))).
Proof. done. Qed.
Lemma run_kds (f : KdsDb.t → KdsDb.t) s : run f s = (set_kd s (f (kd s)), Ok tt).
Proof. done. Qed.
Lemma kd_set s d : kd (set_kd s d) = d.
Proof. done. Qed.
Lemma set_kd_set s d d' : set_kd (set_kd s d) d' = set_kd s d'.
Proof. done. Qed.
Lemma readonly_select {A} (f : KdsDb.t → A) : readonly (select f).
Proof. apply readonly_query. Qed.
#[export] Hint Rewrite @bind_select @run_select @bind_kds @run_kds kd_set set_kd_set : mrun.
#[export] Hint Resolve readonly_select : effects.

(** new lines are appended *)
Definition own (tid : string) (ps : list KdsPartida.t) : list KdsPartida.t :=
  (λ p, p <| KdsPartida.kdsTicketId := tid |>) <$> ps.

Lemma persistPartida_new tid p s :
  tid ∈ ticketIds (kd s) → KdsPartida.id p ∉ (KdsPartida.id <$> KdsDb.kds_ticket_partidas (kd s)) →
  persistPartida tid p s = (set_kd s ((kd s) <| KdsDb.kds_ticket_partidas ::= (λ l, l ++ own tid [p]) |>), Ok tt).
Proof.
  intros Ht Hp. unfold persistPartida. rewrite bind_select. cbv beta. rewrite decide_False by done.
  rewrite bind_throw_when, bool_decide_eq_false_2 by (intros H; by apply H). by rewrite run_kds.
Qed.

Lemma persist_new tid (ps : list KdsPartida.t) s :
  tid ∈ ticketIds (kd s) → NoDup (KdsPartida.id <$> ps) →
  (∀ p, p ∈ ps → KdsPartida.id p ∉ (KdsPartida.id <$> KdsDb.kds_ticket_partidas (kd s))) →
  for_each (persistPartida tid) ps s =
    (set_kd s ((kd s) <| KdsDb.kds_ticket_partidas ::= (λ l, l ++ own tid ps) |>), Ok tt).
Proof.
  revert s. induction ps as [|p ps IH]; intros s Ht Hnd Hfresh.
  - rewrite run_for_each_nil. f_equal. destruct s as [[] ? ?]. unfold set_kd, kd, set; simpl. rewrite app_nil_r. by destruct kds.
  - inversion Hnd as [|? ? Hp Hnd']; subst. 
    rewrite run_for_each_cons. erewrite bind_run_ok by (apply persistPartida_new; [done|apply Hfresh; by left]).
    rewrite IH; [|done|done|].
    + f_equal. rewrite set_kd_set, kd_set. f_equal. simpl. unfold set; simpl. by rewrite <- app_assoc.
    + intros q Hq. rewrite kd_set. simpl. rewrite fmap_app, elem_of_app. simpl. intros [Hin|Hin].
      * by eapply Hfresh; [right|].
      * apply list_elem_of_singleton in Hin. apply Hp. change (KdsPartida.id p) with (KdsPartida.id (p <| KdsPartida.kdsTicketId := tid |>)).
        simpl in Hin. simpl. rewrite <- Hin. by apply list_elem_of_fmap_2.
Qed.

(** lines that exist only take the status of the argument *)
Definition relabel (st : KdsPartidaStatus.t) (ids : list string) (r : KdsPartida.t) : KdsPartida.t :=
  if decide (KdsPartida.id r ∈ ids) then r <| KdsPartida.status := st |> else r.

Lemma relabel_id st ids r : KdsPartida.id (relabel st ids r) = KdsPartida.id r.
Proof. unfold relabel. by case_decide. Qed.

Lemma persistPartida_existing tid p s :
  KdsPartida.id p ∈ (KdsPartida.id <$> KdsDb.kds_ticket_partidas (kd s)) →
  persistPartida tid p s =
    (set_kd s ((kd s) <| KdsDb.kds_ticket_partidas ::= fmap (relabel (KdsPartida.status p) [KdsPartida.id p]) |>), Ok tt).
Proof.
  intros Hp. unfold persistPartida. rewrite bind_select. cbv beta. rewrite decide_True by done. rewrite run_kds.
  do 2 f_equal. unfold set; simpl. f_equal. apply list_fmap_ext. intros i r _. unfold relabel.
  do 2 case_decide; set_solver.
Qed.

Lemma persist_existing st tid (ps : list KdsPartida.t) s :
  (∀ p, p ∈ ps → KdsPartida.status p = st ∧ KdsPartida.id p ∈ (KdsPartida.id <$> KdsDb.kds_ticket_partidas (kd s))) →
  for_each (persistPartida tid) ps s =
    (set_kd s ((kd s) <| KdsDb.kds_ticket_partidas ::= fmap (relabel st (KdsPartida.id <$> ps)) |>), Ok tt).
Proof.
  revert s. induction ps as [|p ps IH]; intros s Hps.
  - rewrite run_for_each_nil. f_equal. destruct s as [[] ? ?]. unfold set_kd, kd, set; simpl. do 2 f_equal. destruct kds; simpl. f_equal.
    rewrite <- (list_fmap_id kds_ticket_partidas) at 1. by apply list_fmap_ext.
  - destruct (Hps p) as [Hst Hp]; [by left|]. rewrite run_for_each_cons.
    erewrite bind_run_ok by (by apply persistPartida_existing). rewrite Hst, IH.
    + f_equal. rewrite set_kd_set, kd_set. f_equal. unfold set; simpl. f_equal. rewrite <- list_fmap_compose.
      apply list_fmap_ext. intros i r _. simpl. unfold relabel. repeat case_decide; simpl in *; set_solver.
    + intros q Hq. rewrite kd_set. simpl. rewrite fmap_key by apply relabel_id. apply Hps. by right.
Qed.

(** a ticket whose identifier is free is appended with its lines *)
Definition addTicket (t : KdsTicket) (d : KdsDb.t) : KdsDb.t :=
  d <| KdsDb.kds_tickets ::= (λ l, l ++ [KdsTicketOf.withPartidas t tt]) |>
    <| KdsDb.kds_ticket_partidas ::= (λ l, l ++ own (KdsTicketOf.id t) (KdsTicketOf.partidas t)) |>.

Definition fresh_lines (ids : list string) (d : KdsDb.t) : Prop :=
  NoDup ids ∧ ∀ i, i ∈ ids → i ∉ (KdsPartida.id <$> KdsDb.kds_ticket_partidas d).

Lemma save_new t s s' r :
  findBy KdsTicketOf.id (KdsTicketOf.id t) (KdsDb.kds_tickets (kd s)) = None →
  fresh_lines (KdsPartida.id <$> KdsTicketOf.partidas t) (kd s) →
  saveTicket t s = (s', Ok r) →
  r = t ∧ kd s' = addTicket t (kd s) ∧ KdsTicketOf.kdsEstacionId t ∈ estacionIds (kd s) ∧
  KdsTicketOf.id t ∉ ticketIds (kd s) ∧ Edge.inTransaction s = false ∧ Edge.inTransaction s' = false.
Proof.
  intros Hnone [Hnd Hfresh]. unfold saveTicket, getTicketById. rewrite bind_select, Hnone. cbn [fmap option_fmap option_map].
  intros (u & s1 & Htx & Hret)%bind_ok. injection Hret as <- <-.
  apply runInTransaction_ok in Htx as (Hin & s2 & Hbody & Hdb & Hout). cbn [tx_entry] in Hbody.
  rewrite bind_select, !bind_throw_when in Hbody.
  change (kd (s <| Edge.inTransaction := true |>)) with (kd s) in Hbody.
  case_bool_decide as Hid; [discriminate Hbody|]. case_bool_decide as Hest; [discriminate Hbody|].
  unfold ticketConstraints in Hbody. rewrite bind_assoc, bind_throw_when in Hbody.
  case_match; [discriminate Hbody|]. apply bind_ok in Hbody as (? & s3 & Hchk & Hbody).
  assert (s3 = s <| Edge.inTransaction := true |>) as -> by (by eapply readonly_throw_when).
  rewrite bind_kds, persist_new in Hbody; [|rewrite kd_set; unfold ticketIds; simpl; rewrite fmap_app; set_solver|done|intros p Hp; rewrite kd_set; by apply Hfresh, list_elem_of_fmap_2].
  injection Hbody as <-. split; [done|]. split_and!; [unfold kd at 1; by rewrite Hdb|done..].
Qed.

Definition updateRow (t : KdsTicket) (r : KdsTicketRow) : KdsTicketRow :=
  if decide (KdsTicketOf.id r = KdsTicketOf.id t) then updateTicketRow t r else r.

Lemma save_existing t st row s s' r :
  findBy KdsTicketOf.id (KdsTicketOf.id t) (KdsDb.kds_tickets (kd s)) = Some row →
  (∀ p, p ∈ KdsTicketOf.partidas t →
     KdsPartida.status p = st ∧ KdsPartida.id p ∈ (KdsPartida.id <$> KdsDb.kds_ticket_partidas (kd s))) →
  saveTicket t s = (s', Ok r) →
  r = t ∧ kd s' = (kd s) <| KdsDb.kds_tickets ::= fmap (updateRow t) |>
    <| KdsDb.kds_ticket_partidas ::= fmap (relabel st (KdsPartida.id <$> KdsTicketOf.partidas t)) |> ∧
  Edge.inTransaction s = false ∧ Edge.inTransaction s' = false.
Proof.
  intros Hrow Hps. unfold saveTicket, getTicketById. rewrite bind_select, Hrow. cbn [fmap option_fmap option_map].
  intros (u & s1 & Htx & Hret)%bind_ok. injection Hret as <- <-.
  apply runInTransaction_ok in Htx as (Hin & s2 & Hbody & Hdb & Hout). cbn [tx_entry] in Hbody.
  rewrite bind_select in Hbody. apply bind_ok in Hbody as (? & s3 & Hchk & Hbody).
  assert (s3 = s <| Edge.inTransaction := true |>) as ->.
  { assert (Hro : ∀ d, readonly (ticketConstraints d t)) by (intros d; unfold ticketConstraints; solve_atomic). by eapply Hro. }
  unfold updateTicket in Hbody. rewrite bind_kds, (persist_existing st) in Hbody by (intros p Hp; by apply Hps).
  injection Hbody as <-. split; [done|]. split_and!; [unfold kd at 1; by rewrite Hdb|done..].
Qed.

Lemma save_atomic t : atomic (saveTicket t).
Proof. unfold saveTicket, getTicketById. solve_atomic. Qed.

(** ** The tables stay well formed *)

(** the status of a ticket's lines *)
Definition lineStatus (st : KdsTicketStatus.t) : KdsPartidaStatus.t :=
  match st with
  | KdsTicketStatus.PENDIENTE => KdsPartidaStatus.PENDIENTE
  | KdsTicketStatus.EN_PREPARACION => KdsPartidaStatus.EN_PREPARACION
  | _ => KdsPartidaStatus.LISTO
  end.

(** completion data is present exactly on a finished ticket *)
Definition completed (r : KdsTicketRow) : Prop :=
  match KdsTicketOf.status r with
  | KdsTicketStatus.LISTO => is_Some (KdsTicketOf.completedAt r) ∧
      ∃ n, KdsTicketOf.preparationTimeMinutes r = Some n ∧ 0 <= n
  | KdsTicketStatus.ENTREGADO => False
  | _ => KdsTicketOf.completedAt r = None ∧ KdsTicketOf.preparationTimeMinutes r = None
  end.

Definition sequences (d : KdsDb.t) (e : string) : list Z :=
  KdsTicketOf.aggregateSequenceNumber <$> filter (λ r, KdsTicketOf.kdsEstacionId r = e) (KdsDb.kds_tickets d).

Definition line_of (d : KdsDb.t) (p : KdsPartida.t) : Prop :=
  ∃ r, r ∈ KdsDb.kds_tickets d ∧ KdsTicketOf.id r = KdsPartida.kdsTicketId p ∧
    KdsPartida.status p = lineStatus (KdsTicketOf.status r) ∧ 0 < KdsPartida.quantity p ∧
    KdsPartida.createdAt p = KdsTicketOf.createdAt r.

Record well_formed (d : KdsDb.t) : Prop := {
  wf_ids : NoDup (ticketIds d);
  wf_line_ids : NoDup (KdsPartida.id <$> KdsDb.kds_ticket_partidas d);
  wf_lines : ∀ p, p ∈ KdsDb.kds_ticket_partidas d → line_of d p;
  wf_some_line : ∀ r, r ∈ KdsDb.kds_tickets d → ∃ p, p ∈ KdsDb.kds_ticket_partidas d ∧ KdsPartida.kdsTicketId p = KdsTicketOf.id r;
  wf_station : ∀ r, r ∈ KdsDb.kds_tickets d → KdsTicketOf.kdsEstacionId r ∈ estacionIds d;
  wf_completed : ∀ r, r ∈ KdsDb.kds_tickets d → completed r;
  wf_sequence : ∀ e, sequences d e = seqZ 1 (Z.of_nat (length (sequences d e))) }.

Lemma well_formed_empty : well_formed KdsDb.empty.
Proof. by split; try (intros ? ?; set_solver); constructor. Qed.

(** an update of the ticket rows that touches only what the kitchen does not read *)
Lemma wf_rows f d :
  (∀ r, KdsTicketOf.id (f r) = KdsTicketOf.id r ∧ KdsTicketOf.status (f r) = KdsTicketOf.status r ∧
        KdsTicketOf.kdsEstacionId (f r) = KdsTicketOf.kdsEstacionId r ∧
        KdsTicketOf.aggregateSequenceNumber (f r) = KdsTicketOf.aggregateSequenceNumber r ∧
        KdsTicketOf.completedAt (f r) = KdsTicketOf.completedAt r ∧
        KdsTicketOf.preparationTimeMinutes (f r) = KdsTicketOf.preparationTimeMinutes r ∧
        KdsTicketOf.createdAt (f r) = KdsTicketOf.createdAt r) →
  well_formed d → well_formed (d <| KdsDb.kds_tickets ::= fmap f |>).
Proof.
  intros Hf [H1 H2 H3 H4 H5 H6 H7]. split; unfold ticketIds, line_of; simpl.
  - unfold ticketIds in H1. rewrite fmap_key; [done|]. intros r. apply Hf.
  - done.
  - intros p Hp. destruct (H3 p Hp) as (r & Hr & Hid & Hst & Hq). exists (f r).
    destruct (Hf r) as (-> & -> & _ & _ & _ & _ & ->). split; [by apply list_elem_of_fmap_2|done].
  - intros r' (r & -> & Hr)%list_elem_of_fmap. destruct (Hf r) as (-> & _). by apply H4.
  - intros r' (r & -> & Hr)%list_elem_of_fmap. destruct (Hf r) as (_ & _ & -> & _). by apply H5.
  - intros r' (r & -> & Hr)%list_elem_of_fmap. unfold completed. destruct (Hf r) as (_ & -> & _ & _ & -> & -> & _). by apply H6.
  - intros e. assert (Heq : sequences (d <| KdsDb.kds_tickets ::= fmap f |>) e = sequences d e).
    { unfold sequences; simpl. clear -Hf. induction (KdsDb.kds_tickets d) as [|r l IH]; [done|]. rewrite fmap_cons, !filter_cons.
      destruct (Hf r) as (_ & _ & -> & Hseq & _). case_decide; [rewrite !fmap_cons, Hseq; f_equal; exact IH|exact IH]. }
    by rewrite Heq.
Qed.

(** the next sequence number of a station counts its tickets *)
Lemma foldl_max_spec (l : list Z) a :
  a <= foldl Z.max a l ∧ (∀ x, x ∈ l → x <= foldl Z.max a l) ∧ (foldl Z.max a l = a ∨ foldl Z.max a l ∈ l).
Proof.
  revert a. induction l as [|y l IH]; intros a; simpl; [split; [lia|split; [set_solver|by left]]|].
  destruct (IH (Z.max a y)) as (H1 & H2 & H3). split; [lia|]. split.
  - intros x [->|Hx]%elem_of_cons; [lia|by apply H2].
  - destruct H3 as [->|H3]; [|by right; right]. destruct (Z.max_spec a y) as [[_ ->]|[_ ->]]; [right; by left|by left].
Qed.

Lemma foldl_max_seq (l : list Z) n : 0 <= n → l ≡ₚ seqZ 1 n → foldl Z.max 0 l = n.
Proof.
  intros Hn Hl. destruct (foldl_max_spec l 0) as (H1 & H2 & H3).
  assert (Hin : ∀ x, x ∈ l ↔ 1 <= x <= n) by (intros x; rewrite Hl, elem_of_seqZ; lia).
  destruct (decide (n = 0)) as [->|Hne].
  - destruct H3 as [->|H3]; [done|]. apply Hin in H3. lia.
  - assert (n <= foldl Z.max 0 l) by (apply H2, Hin; lia). destruct H3 as [H3|H3]; [lia|]. apply Hin in H3. lia.
Qed.

Lemma filter_agree {A} (P Q : A → Prop) `{!∀ x, Decision (P x), !∀ x, Decision (Q x)} (l : list A) :
  (∀ x, x ∈ l → P x ↔ Q x) → filter P l = filter Q l.
Proof.
  induction l as [|x l IH]; intros Hag; [done|]. rewrite !filter_cons.
  pose proof (Hag x ltac:(by left)). rewrite IH by (intros; apply Hag; by right). repeat case_decide; tauto.
Qed.

Lemma active_sequences d e : well_formed d →
  KdsTicketOf.aggregateSequenceNumber <$> activeTickets d e ≡ₚ sequences d e.
Proof.
  intros Hwf. unfold activeTickets, sequences. rewrite <- list_fmap_compose, orderAsc_permutation.
  apply Permutation_refl'. f_equal. apply filter_agree. intros r Hr. split; [by intros []|].
  intros He. split; [done|]. pose proof (wf_completed d Hwf r Hr) as Hc. unfold completed in Hc. by destruct (KdsTicketOf.status r).
Qed.

Lemma nextSequence_wf d e : well_formed d → nextSequence (activeTickets d e) = Z.of_nat (length (sequences d e)) + 1.
Proof.
  intros Hwf. unfold nextSequence. f_equal.
  transitivity (foldl Z.max 0 (KdsTicketOf.aggregateSequenceNumber <$> activeTickets d e)).
  - generalize 0. induction (activeTickets d e) as [|t l IH]; intros z; simpl; [done|]. apply IH.
  - apply foldl_max_seq; [lia|]. by rewrite active_sequences, <- wf_sequence.
Qed.

Lemma wf_add d t :
  well_formed d → KdsTicketOf.id t ∉ ticketIds d → KdsTicketOf.kdsEstacionId t ∈ estacionIds d →
  KdsTicketOf.status t = KdsTicketStatus.PENDIENTE → KdsTicketOf.completedAt t = None →
  KdsTicketOf.preparationTimeMinutes t = None → KdsTicketOf.partidas t ≠ [] →
  (∀ p, p ∈ KdsTicketOf.partidas t → KdsPartida.status p = KdsPartidaStatus.PENDIENTE ∧ 0 < KdsPartida.quantity p ∧
     KdsPartida.createdAt p = KdsTicketOf.createdAt t) →
  fresh_lines (KdsPartida.id <$> KdsTicketOf.partidas t) d →
  KdsTicketOf.aggregateSequenceNumber t = nextSequence (activeTickets d (KdsTicketOf.kdsEstacionId t)) →
  well_formed (addTicket t d).
Proof.
  intros Hwf Hid Hest Hst Hc Hp Hne Hps [Hnd Hfresh] Hseq. rewrite nextSequence_wf in Hseq by done.
  destruct Hwf as [H1 H2 H3 H4 H5 H6 H7].
  assert (Hown : KdsPartida.id <$> own (KdsTicketOf.id t) (KdsTicketOf.partidas t) = KdsPartida.id <$> KdsTicketOf.partidas t)
    by (unfold own; by apply fmap_key).
  split; unfold addTicket, ticketIds, line_of; simpl.
  - rewrite fmap_app. by apply NoDup_snoc.
  - rewrite fmap_app, Hown. apply NoDup_app. split_and!; [done| |done]. intros i Hi Hi'. by apply (Hfresh i).
  - intros p [Hp'|Hp']%elem_of_app.
    + destruct (H3 p Hp') as (r & Hr & ? & ?). exists r. split; [by apply elem_of_app; left|done].
    + apply list_elem_of_fmap in Hp' as (q & -> & Hq). exists (KdsTicketOf.withPartidas t tt).
      split; [apply elem_of_app; right; by left|]. simpl. rewrite Hst. split; [done|]. by apply Hps.
  - intros r [Hr|Hr]%elem_of_app.
    + destruct (H4 r Hr) as (p & Hp' & ?). exists p. split; [by apply elem_of_app; left|done].
    + apply list_elem_of_singleton in Hr as ->. destruct (KdsTicketOf.partidas t) as [|p ps] eqn:E; [done|].
      exists (p <| KdsPartida.kdsTicketId := KdsTicketOf.id t |>). split; [|done]. apply elem_of_app. right. by left.
  - intros r [Hr|Hr]%elem_of_app; [by apply H5|]. by apply list_elem_of_singleton in Hr as ->.
  - intros r [Hr|Hr]%elem_of_app; [by apply H6|]. apply list_elem_of_singleton in Hr as ->. unfold completed. simpl. by rewrite Hst.
  - intros e. assert (Heq : sequences (addTicket t d) e = sequences d e ++
      if decide (KdsTicketOf.kdsEstacionId t = e) then [KdsTicketOf.aggregateSequenceNumber t] else []).
    { unfold sequences, addTicket; simpl. rewrite filter_app, filter_cons, filter_nil, fmap_app. simpl. f_equal. by case_decide. }
    unfold addTicket in Heq. rewrite Heq. case_decide as He; [|rewrite app_nil_r; apply H7].
    rewrite He in Hseq. rewrite length_app, Nat2Z.inj_add, Hseq. simpl. rewrite <- seqZ_snoc by lia. by rewrite <- H7.
Qed.

(** a ticket and its lines move to another status together *)
Definition advance (t : KdsTicket) (d : KdsDb.t) : KdsDb.t :=
  d <| KdsDb.kds_tickets ::= fmap (updateRow t) |>
    <| KdsDb.kds_ticket_partidas ::=
         fmap (relabel (lineStatus (KdsTicketOf.status t)) (KdsPartida.id <$> KdsTicketOf.partidas t)) |>.

Lemma elem_of_loadPartidas d tid p : p ∈ loadPartidas d tid ↔ p ∈ KdsDb.kds_ticket_partidas d ∧ KdsPartida.kdsTicketId p = tid.
Proof. unfold loadPartidas. rewrite elem_of_orderBy, list_elem_of_filter. naive_solver. Qed.

Lemma same_id {A} (key : A → string) (l : list A) x y : NoDup (key <$> l) → x ∈ l → y ∈ l → key x = key y → x = y.
Proof.
  intros Hnd Hx Hy Hk. pose proof (findBy_unique key (key x) l x Hnd Hx eq_refl) as H1.
  pose proof (findBy_unique key (key x) l y Hnd Hy (eq_sym Hk)) as H2. congruence.
Qed.

(** under unique line identifiers, the lines relabelled are those of the ticket *)
Lemma relabel_own d st tid p :
  well_formed d → p ∈ KdsDb.kds_ticket_partidas d →
  relabel st (KdsPartida.id <$> loadPartidas d tid) p =
    if decide (KdsPartida.kdsTicketId p = tid) then p <| KdsPartida.status := st |> else p.
Proof.
  intros Hwf Hp. unfold relabel. case_decide as Hin; case_decide as Ht; try done.
  - apply list_elem_of_fmap in Hin as (q & Hk & Hq). apply elem_of_loadPartidas in Hq as [Hq <-].
    exfalso. apply Ht. f_equal. eapply same_id; [apply (wf_line_ids d Hwf)|done..].
  - exfalso. apply Hin, list_elem_of_fmap. exists p. split; [done|]. by apply elem_of_loadPartidas.
Qed.

Lemma wf_advance d t row :
  well_formed d → row ∈ KdsDb.kds_tickets d → KdsTicketOf.id row = KdsTicketOf.id t →
  KdsPartida.id <$> KdsTicketOf.partidas t = KdsPartida.id <$> loadPartidas d (KdsTicketOf.id t) →
  completed (KdsTicketOf.withPartidas t tt) →
  well_formed (advance t d).
Proof.
  intros Hwf Hrow Hid Hps Hdone. unfold advance. rewrite Hps.
  pose proof (λ p, relabel_own d (lineStatus (KdsTicketOf.status t)) (KdsTicketOf.id t) p Hwf) as Hown.
  destruct Hwf as [H1 H2 H3 H4 H5 H6 H7].
  assert (Hkeep : ∀ r, KdsTicketOf.id (updateRow t r) = KdsTicketOf.id r ∧
    KdsTicketOf.kdsEstacionId (updateRow t r) = KdsTicketOf.kdsEstacionId r ∧
    KdsTicketOf.aggregateSequenceNumber (updateRow t r) = KdsTicketOf.aggregateSequenceNumber r ∧
    KdsTicketOf.createdAt (updateRow t r) = KdsTicketOf.createdAt r)
    by (intros r; unfold updateRow; by case_decide).
  split; unfold ticketIds, line_of; simpl.
  - rewrite fmap_key; [exact H1|]. intros r. apply Hkeep.
  - rewrite fmap_key; [exact H2|]. apply relabel_id.
  - intros p' (p & -> & Hp)%list_elem_of_fmap. destruct (H3 p Hp) as (r & Hr & Hrid & Hst & Hq).
    exists (updateRow t r). split; [by apply list_elem_of_fmap_2|]. rewrite (Hown p Hp). destruct (Hkeep r) as (-> & _ & _ & ->).
    unfold updateRow. case_decide as Ht; case_decide as Hr'; simpl; try done; congruence.
  - intros r' (r & -> & Hr)%list_elem_of_fmap. rewrite (proj1 (Hkeep r)). destruct (H4 r Hr) as (p & Hp & Hpid).
    eexists. split; [by apply list_elem_of_fmap_2|]. rewrite (Hown p Hp). by case_decide.
  - intros r' (r & -> & Hr)%list_elem_of_fmap. destruct (Hkeep r) as (_ & -> & _). by apply H5.
  - intros r' (r & -> & Hr)%list_elem_of_fmap. unfold updateRow. case_decide; [|by apply H6]. exact Hdone.
  - intros e. assert (Heq : ∀ d', KdsDb.kds_tickets d' = updateRow t <$> KdsDb.kds_tickets d → sequences d' e = sequences d e).
    { intros d' Hd'. unfold sequences. rewrite Hd'. clear -Hkeep. induction (KdsDb.kds_tickets d) as [|r l IH]; [done|]. rewrite fmap_cons, !filter_cons.
      destruct (Hkeep r) as (_ & -> & Hseq & _). case_decide; [rewrite !fmap_cons, Hseq; f_equal; exact IH|exact IH]. }
    by rewrite Heq.
Qed.

(** ** The effect of a request *)

Lemma bind_onEdge_select {A B} (f : KdsDb.t → A) (k : A → KdsTx B) r :
  (onEdge (select f) ≫= k) r = k (f (kd (KdsRt.edge r))) r.
Proof. by destruct r. Qed.
Lemma bind_onEdge_ok {A B} (m : Tx A) (k : A → KdsTx B) r r' b :
  (onEdge m ≫= k) r = (r', Ok b) →
  ∃ a s, m (KdsRt.edge r) = (s, Ok a) ∧ k a (r <| KdsRt.edge := s |>) = (r', Ok b).
Proof.
  unfold mbind, M_bind, onEdge. destruct (m (KdsRt.edge r)) as [s [a|e]]; [|done]. intros H. by exists a, s.
Qed.

(** columns the kitchen reads, and those the printer queue reads *)
Definition keeps_kitchen (f : KdsTicketRow → KdsTicketRow) : Prop := ∀ r,
  KdsTicketOf.id (f r) = KdsTicketOf.id r ∧ KdsTicketOf.status (f r) = KdsTicketOf.status r ∧
  KdsTicketOf.kdsEstacionId (f r) = KdsTicketOf.kdsEstacionId r ∧
  KdsTicketOf.aggregateSequenceNumber (f r) = KdsTicketOf.aggregateSequenceNumber r ∧
  KdsTicketOf.completedAt (f r) = KdsTicketOf.completedAt r ∧
  KdsTicketOf.preparationTimeMinutes (f r) = KdsTicketOf.preparationTimeMinutes r ∧
  KdsTicketOf.createdAt (f r) = KdsTicketOf.createdAt r.
Definition keeps_print (f : KdsTicketRow → KdsTicketRow) : Prop := ∀ r,
  KdsTicketOf.id (f r) = KdsTicketOf.id r ∧
  KdsTicketOf.printStatus (f r) = KdsTicketOf.printStatus r ∧ KdsTicketOf.printAttempts (f r) = KdsTicketOf.printAttempts r.

(** the ticket a message carries *)
Definition message_ticket {T} (m : KdsDomainEvent T) : T :=
  match m with
  | ComandaEnviadaACocina _ t _ | OrdenProduccionIniciadaEnKDS _ t _ | OrdenProduccionConfirmadaEnKDS _ _ _ _ t _ => t
  end.

(** what a served request did to the tables, and the messages it published *)
Inductive move (d : KdsDb.t) : KdsDb.t → list (KdsDomainEvent KdsTicketWire) → Prop :=
| move_other d' f :
    keeps_kitchen f → keeps_print f → KdsDb.kds_tickets d' = f <$> KdsDb.kds_tickets d →
    KdsDb.kds_ticket_partidas d' = KdsDb.kds_ticket_partidas d → estacionIds d ⊆ estacionIds d' → move d d' []
| move_add now emittedAt input lines :
    let t := newTicket now input (nextSequence (activeTickets d (EnviarComanda.kdsEstacionId input))) lines in
    KdsTicketOf.id t ∉ ticketIds d → KdsTicketOf.kdsEstacionId t ∈ estacionIds d → lines ≠ [] →
    (∀ p, p ∈ lines → KdsPartida.status p = KdsPartidaStatus.PENDIENTE ∧ 0 < KdsPartida.quantity p ∧
       KdsPartida.createdAt p = now ∧ KdsPartida.kdsTicketId p = KdsTicketOf.id t) →
    fresh_lines (KdsPartida.id <$> lines) d →
    move d (addTicket t d) [ComandaEnviadaACocina (KdsTicketOf.kdsEstacionId t) (mapKdsTicketToWire t) emittedAt]
| move_advance t row msg :
    row ∈ KdsDb.kds_tickets d → KdsTicketOf.id row = KdsTicketOf.id t →
    KdsTicketOf.partidas t = allPartidas (lineStatus (KdsTicketOf.status t)) (loadPartidas d (KdsTicketOf.id t)) →
    completed (KdsTicketOf.withPartidas t tt) →
    KdsTicketOf.printStatus t = KdsTicketOf.printStatus row → KdsTicketOf.printAttempts t = KdsTicketOf.printAttempts row →
    message_ticket msg = mapKdsTicketToWire t → move d (advance t d) [msg].

Lemma save_settled t : settled (saveTicket t).
Proof. unfold saveTicket, getTicketById. solve_settled. Qed.

(** the message of a saved ticket *)
Definition event_of (emittedAt type : string) (t : KdsTicket) (tiempo : option Z) (m : KdsDomainEvent KdsTicketWire) : Prop :=
  message_ticket m = mapKdsTicketToWire t ∧
  (type = "ComandaEnviadaACocina" → m = ComandaEnviadaACocina (KdsTicketOf.kdsEstacionId t) (mapKdsTicketToWire t) emittedAt).

Lemma run_emit emittedAt type t tiempo r : ∃ m, event_of emittedAt type t tiempo m ∧
  emit emittedAt type t tiempo r = (r <| KdsRt.broadcasts ::= cons m |>, Ok tt).
Proof.
  unfold emit, publishTicketEvent, modify. repeat case_decide; subst; eexists; (split; [|reflexivity]); by split.
Qed.

(** a request either failed and changed nothing, or saved a ticket and published it *)
Definition save_emitted (t : KdsTicket) (emittedAt type : string) (tiempo : option Z) (r r' : KdsRt.t) {A} (res : result PosError A) : Prop :=
  Edge.inTransaction (KdsRt.edge r') = false ∧
  match res with
  | Err _ => kd (KdsRt.edge r') = kd (KdsRt.edge r) ∧ KdsRt.broadcasts r' = KdsRt.broadcasts r
  | Ok _ => saveTicket t (KdsRt.edge r) = (KdsRt.edge r', Ok t) ∧
      ∃ m, event_of emittedAt type t tiempo m ∧ KdsRt.broadcasts r' = m :: KdsRt.broadcasts r
  end.

Lemma run_save_emit emittedAt type t tiempo r r' res :
  Edge.inTransaction (KdsRt.edge r) = false →
  (saved ← onEdge (saveTicket t); emit emittedAt type saved tiempo ;; mret saved) r = (r', res) →
  save_emitted t emittedAt type tiempo r r' res.
Proof.
  intros Htx. destruct (saveTicket t (KdsRt.edge r)) as [s [x|e]] eqn:Hs.
  - assert (x = t) as ->.
    { unfold saveTicket, getTicketById in Hs. rewrite bind_select in Hs. by case_match; apply bind_ok in Hs as (? & ? & _ & [= _ ->]). }
    rewrite (bind_run_ok (onEdge (saveTicket t)) _ r (r <| KdsRt.edge := s |>) t) by (unfold onEdge; by rewrite Hs).
    destruct (run_emit emittedAt type t tiempo (r <| KdsRt.edge := s |>)) as (m & Hm & Hrun).
    rewrite (bind_run_ok _ _ _ _ _ Hrun), run_ret. intros [= <- <-]. split; [by eapply save_settled|].
    simpl. split; [done|]. by exists m.
  - rewrite (bind_run_err (onEdge (saveTicket t)) _ r (r <| KdsRt.edge := s |>) e) by (unfold onEdge; by rewrite Hs).
    intros [= <- <-]. split; [by eapply save_settled|]. simpl. split; [|done]. unfold kd. by rewrite (save_atomic t _ _ _ Htx Hs).
Qed.

(** one request of the kitchen *)
Inductive KRequest :=
| CreateEstacion (now id name : string) (stationType : KdsEstacionType.t) (status : option KdsEstacionStatus.t)
| CreatePrinter (now id name host : string) (port : option Z) (kdsEstacionId : option string)
| AssignPrinter (ticketId printerId : string)
| EnviarComandaACocina (now emittedAt : string) (input : EnviarComanda.t)
| IniciarPreparacion (now emittedAt kdsTicketId kdsEstacionId : string)
| ConfirmarSurtida (now emittedAt kdsTicketId kdsEstacionId : string) (minutes : Z).

Definition runKitchen (q : KRequest) : KdsTx unit :=
  match q with
  | CreateEstacion now id name ty st => onEdge (createEstacion now id name ty st) ;; mret tt
  | CreatePrinter now id name host port est => onEdge (createPrinter now id name host port est) ;; mret tt
  | AssignPrinter ticketId printerId => onEdge (assignPrinterToTicket ticketId printerId)
  | EnviarComandaACocina now em input => enviarComandaACocina now em input ;; mret tt
  | IniciarPreparacion now em id est => iniciarPreparacionOrden now em id est ;; mret tt
  | ConfirmarSurtida now em id est n => confirmarOrdenSurtida now em id est n ;; mret tt
  end.

(** the lines of a new ticket have identifiers of their own *)
Definition admissible (q : KRequest) (d : KdsDb.t) : Prop :=
  match q with
  | EnviarComandaACocina _ _ input => fresh_lines (EnviarComandaItem.id <$> EnviarComanda.items input) d
  | _ => True
  end.

Definition served (r r' : KdsRt.t) {A} (res : result PosError A) : Prop :=
  Edge.inTransaction (KdsRt.edge r') = false ∧
  match res with
  | Err _ => kd (KdsRt.edge r') = kd (KdsRt.edge r) ∧ KdsRt.broadcasts r' = KdsRt.broadcasts r
  | Ok _ => ∃ msgs, move (kd (KdsRt.edge r)) (kd (KdsRt.edge r')) msgs ∧ KdsRt.broadcasts r' = msgs ++ KdsRt.broadcasts r
  end.

Lemma served_ret {A} (m : KdsTx A) r r' res :
  (∀ r1 res1, m r = (r1, res1) → served r r1 res1) → (m ;; mret tt) r = (r', res) → served r r' (res : result PosError unit).
Proof.
  intros H. unfold mbind, M_bind. destruct (m r) as [r1 [a|e]]; intros [= <- <-]; exact (H r1 _ eq_refl).
Qed.

Lemma newPartidas_ok now tid items lines :
  mapThrow (newPartida now tid) items = Ok lines →
  KdsPartida.id <$> lines = EnviarComandaItem.id <$> items ∧ (lines = [] → items = []) ∧
  ∀ p, p ∈ lines → KdsPartida.status p = KdsPartidaStatus.PENDIENTE ∧ 0 < KdsPartida.quantity p ∧
    KdsPartida.createdAt p = now ∧ KdsPartida.kdsTicketId p = tid.
Proof.
  revert lines. induction items as [|i items IH]; intros lines; simpl; [intros [= <-]; set_solver|].
  unfold newPartida at 1. destruct (Z.leb_spec (EnviarComandaItem.quantity i) 0); [done|]. simpl.
  destruct (mapThrow _ items) as [ls|]; [|done]. intros [= <-]. destruct (IH ls eq_refl) as (Hids & _ & Hall).
  split; [simpl; by f_equal|]. split; [done|]. intros p [->|Hp]%elem_of_cons; [done|by apply Hall].
Qed.

Lemma served_err {A} r e : Edge.inTransaction (KdsRt.edge r) = false → served r r (Err e : result PosError A).
Proof. by split. Qed.

Ltac refused := intros [= <- <-]; by apply served_err.

Lemma enviar_served now em input r r' res :
  Edge.inTransaction (KdsRt.edge r) = false → well_formed (kd (KdsRt.edge r)) →
  fresh_lines (EnviarComandaItem.id <$> EnviarComanda.items input) (kd (KdsRt.edge r)) →
  enviarComandaACocina now em input r = (r', res) → served r r' res.
Proof.
  intros Htx Hwf Hfresh. unfold enviarComandaACocina, getTicketById, getEstacionById, listActiveTicketsByEstacion.
  rewrite bind_onEdge_select, bind_throw_when. case_bool_decide as Hdup; [refused|].
  rewrite bind_onEdge_select, bind_require. destruct (findBy KdsEstacion.id _ _) as [est|] eqn:Hest; [|refused].
  rewrite bind_throw_when. case_bool_decide; [refused|]. rewrite bind_throw_when. case_bool_decide as Hitems; [refused|].
  rewrite bind_onEdge_select, bind_lift. destruct (mapThrow _ _) as [lines|e] eqn:Hlines; [|refused].
  apply newPartidas_ok in Hlines as (Hids & Hnil & Hall). rewrite <- Hids in Hfresh.
  intros (Hout & Hres)%run_save_emit; [|done]. split; [done|]. destruct res as [t|e]; [|done].
  destruct Hres as (Hsave & m & (_ & Hm) & Hb). exists [m]. split; [|done].
  rewrite fmap_is_Some, <- eq_None_not_Some in Hdup.
  apply save_new in Hsave as (_ & -> & Hst & Hid & _); [|exact Hdup|exact Hfresh]. rewrite Hm by done.
  apply move_add with (emittedAt := em); [done|done| |exact Hall|exact Hfresh]. intros ->. by apply Hitems, Hnil.
Qed.

Lemma requireTicket_run id est s :
  requireTicketAtEstacion id est s =
    match findBy KdsTicketOf.id id (KdsDb.kds_tickets (kd s)) with
    | Some row => if decide (KdsTicketOf.kdsEstacionId row = est) then (s, Ok (mapTicket (kd s) row))
                  else (s, Err (KdsError "KDS_ESTACION_MISMATCH" 409))
    | None => (s, Err (KdsError "KDS_TICKET_NOT_FOUND" 404))
    end.
Proof.
  unfold requireTicketAtEstacion, getTicketById. rewrite bind_select, bind_require.
  destruct (findBy _ _ _) as [row|]; [|done]. simpl. rewrite bind_throw_when.
  case_bool_decide as Hb; case_decide; simpl in *; done.
Qed.

Lemma bind_onEdge_run {A B} (m : Tx A) (k : A → KdsTx B) r a :
  m (KdsRt.edge r) = (KdsRt.edge r, Ok a) → (onEdge m ≫= k) r = k a r.
Proof. intros H. apply bind_run_ok. unfold onEdge. rewrite H. by destruct r. Qed.
Lemma bind_onEdge_err {A B} (m : Tx A) (k : A → KdsTx B) r e :
  m (KdsRt.edge r) = (KdsRt.edge r, Err e) → (onEdge m ≫= k) r = (r, Err e).
Proof. intros H. apply bind_run_err. unfold onEdge. rewrite H. by destruct r. Qed.

(** saving a loaded ticket with its lines moved to its new status *)
Lemma advance_served t row em type tiempo r r' res :
  let d := kd (KdsRt.edge r) in
  Edge.inTransaction (KdsRt.edge r) = false → well_formed d →
  findBy KdsTicketOf.id (KdsTicketOf.id t) (KdsDb.kds_tickets d) = Some row →
  KdsTicketOf.partidas t = allPartidas (lineStatus (KdsTicketOf.status t)) (loadPartidas d (KdsTicketOf.id t)) →
  completed (KdsTicketOf.withPartidas t tt) →
  KdsTicketOf.printStatus t = KdsTicketOf.printStatus row → KdsTicketOf.printAttempts t = KdsTicketOf.printAttempts row →
  save_emitted t em type tiempo r r' res → served r r' (res : result PosError KdsTicket).
Proof.
  intros d Htx Hwf Hrow Hps Hdone Hp1 Hp2 (Hout & Hres). split; [done|]. destruct res as [t'|e]; [|done].
  destruct Hres as (Hsave & m & (Hm & _) & Hb). exists [m]. split; [|done].
  pose proof (findBy_Some _ _ _ _ Hrow) as [Hin Hid].
  eapply save_existing in Hsave as (_ & -> & _); [|exact Hrow|].
  - by eapply move_advance.
  - rewrite Hps. intros p (q & -> & Hq)%list_elem_of_fmap. split; [done|]. simpl.
    apply elem_of_loadPartidas in Hq as [Hq _]. by apply list_elem_of_fmap_2.
Qed.

Lemma iniciar_served now em id est r r' res :
  Edge.inTransaction (KdsRt.edge r) = false → well_formed (kd (KdsRt.edge r)) →
  iniciarPreparacionOrden now em id est r = (r', res) → served r r' res.
Proof.
  intros Htx Hwf. unfold iniciarPreparacionOrden. pose proof (requireTicket_run id est (KdsRt.edge r)) as Hreq.
  destruct (findBy _ _ _) as [row|] eqn:Hrow; [case_decide as Hest|];
    [rewrite (bind_onEdge_run _ _ _ _ Hreq)|rewrite (bind_onEdge_err _ _ _ _ Hreq); refused..].
  rewrite bind_throw_when. case_bool_decide as Hst; [refused|].
  pose proof (findBy_Some _ _ _ _ Hrow) as [Hin Hid]. simpl in Hst.
  intros Hrun%run_save_emit; [|done]. eapply advance_served; [done|done| | | | | |exact Hrun]; simpl.
  - by rewrite Hid.
  - done.
  - pose proof (wf_completed _ Hwf row Hin) as Hc. unfold completed in Hc. rewrite Hst in Hc. unfold completed; simpl. done.
  - done.
  - done.
Qed.

Lemma confirmar_served now em id est n r r' res :
  Edge.inTransaction (KdsRt.edge r) = false → well_formed (kd (KdsRt.edge r)) →
  confirmarOrdenSurtida now em id est n r = (r', res) → served r r' res.
Proof.
  intros Htx Hwf. unfold confirmarOrdenSurtida. pose proof (requireTicket_run id est (KdsRt.edge r)) as Hreq.
  destruct (findBy _ _ _) as [row|] eqn:Hrow; [case_decide as Hest|];
    [rewrite (bind_onEdge_run _ _ _ _ Hreq)|rewrite (bind_onEdge_err _ _ _ _ Hreq); refused..].
  rewrite bind_throw_when. case_bool_decide as Hst; [refused|]. rewrite bind_throw_when.
  destruct (Z.ltb_spec n 0); [refused|]. pose proof (findBy_Some _ _ _ _ Hrow) as [Hin Hid].
  intros Hrun%run_save_emit; [|done]. eapply advance_served; [done|done| | | | | |exact Hrun]; simpl.
  - by rewrite Hid.
  - done.
  - split; [by eexists|]. by exists n.
  - done.
  - done.
Qed.

Lemma findBy_last {A} (key : A → string) l x : key x ∉ (key <$> l) → findBy key (key x) (l ++ [x]) = Some x.
Proof.
  intros Hx. unfold findBy. rewrite list_find_app_r; [simpl; by rewrite decide_True|].
  apply list_find_None, Forall_forall. intros y Hy Hk. apply Hx. rewrite <- Hk. by apply list_elem_of_fmap_2.
Qed.

Lemma keeps_id : keeps_kitchen (λ r, r) ∧ keeps_print (λ r, r).
Proof. done. Qed.

(** statements that either refuse or touch no kitchen column *)
Definition administrative {A} (m : Tx A) (s : Edge.t) : Prop :=
  (∃ e, m s = (s, Err e)) ∨
  ∃ a d f, m s = (set_kd s d, Ok a) ∧ keeps_kitchen f ∧ keeps_print f ∧
    KdsDb.kds_tickets d = f <$> KdsDb.kds_tickets (kd s) ∧
    KdsDb.kds_ticket_partidas d = KdsDb.kds_ticket_partidas (kd s) ∧ estacionIds (kd s) ⊆ estacionIds d.

Lemma administrative_served {A} (m : Tx A) r r' res :
  Edge.inTransaction (KdsRt.edge r) = false → administrative m (KdsRt.edge r) → onEdge m r = (r', res) → served r r' res.
Proof.
  intros Htx [(e & Hm)|(a & d & f & Hm & Hk & Hp & Ht & Hl & He)]; unfold onEdge; rewrite Hm; intros [= <- <-].
  - by split.
  - split; [done|]. exists []. split; [|done]. by eapply move_other.
Qed.

Lemma createEstacion_administrative now id name ty st s : administrative (createEstacion now id name ty st) s.
Proof.
  unfold administrative, createEstacion. rewrite bind_select, bind_throw_when. case_bool_decide as Hid; [left; by eexists|].
  right. set (x := KdsEstacion.mk id name ty (default KdsEstacionStatus.ACTIVA st) now).
  exists x, ((kd s) <| KdsDb.kds_estaciones ::= (λ l, l ++ [x]) |>), (λ r, r). rewrite bind_kds.
  unfold getEstacionById. rewrite bind_select, kd_set. simpl. change id with (KdsEstacion.id x) at 1.
  rewrite findBy_last by exact Hid. split; [done|]. destruct keeps_id. split_and!; try done; [by rewrite list_fmap_id|].
  unfold estacionIds. simpl. rewrite fmap_app. set_solver.
Qed.

Lemma createPrinter_administrative now id name host port est s : administrative (createPrinter now id name host port est) s.
Proof.
  unfold administrative, createPrinter. rewrite bind_select, bind_throw_when. case_bool_decide as Hid; [left; by eexists|].
  rewrite bind_throw_when. case_match; [left; by eexists|]. right.
  set (x := ImpresoraRed.mk id name host (default 9100 port) est PrinterStatus.UNKNOWN None now).
  exists x, ((kd s) <| KdsDb.impresoras_red ::= (λ l, l ++ [x]) |>), (λ r, r). rewrite bind_kds.
  unfold getPrinterById. rewrite bind_select, kd_set. simpl. change id with (ImpresoraRed.id x) at 1.
  rewrite findBy_last by exact Hid. split; [done|]. destruct keeps_id. split_and!; try done. symmetry; apply list_fmap_id.
Qed.

Lemma assignPrinter_administrative tid pid s : administrative (assignPrinterToTicket tid pid) s.
Proof.
  unfold administrative, assignPrinterToTicket. rewrite bind_select, bind_throw_when. case_match; [left; by eexists|].
  right. set (f := λ r : KdsTicketRow, if decide (KdsTicketOf.id r = tid) then r <| KdsTicketOf.printerId := Some pid |> else r).
  exists tt, ((kd s) <| KdsDb.kds_tickets ::= fmap f |>), f. split; [done|].
  split; [intros r; unfold f; by destruct (decide (KdsTicketOf.id r = tid))|]. split; [intros r; unfold f; by destruct (decide (KdsTicketOf.id r = tid))|]. done.
Qed.

(** every request either changes nothing or is one [move] *)
Lemma runKitchen_served q r r' res :
  Edge.inTransaction (KdsRt.edge r) = false → well_formed (kd (KdsRt.edge r)) → admissible q (kd (KdsRt.edge r)) →
  runKitchen q r = (r', res) → served r r' res.
Proof.
  intros Htx Hwf Hadm. destruct q; cbn [runKitchen]; try (apply served_ret; intros r1 res1).
  - apply administrative_served; [done|]. apply createEstacion_administrative.
  - apply administrative_served; [done|]. apply createPrinter_administrative.
  - apply administrative_served; [done|]. apply assignPrinter_administrative.
  - by apply enviar_served.
  - by apply iniciar_served.
  - by apply confirmar_served.
Qed.

Lemma move_wf d d' msgs : move d d' msgs → well_formed d → well_formed d'.
Proof.
  intros [d1 f Hk Hp Ht Hl He|now em input lines t Hid Hst Hne Hall Hfresh|t row msg Hrow Hid Hps Hdone _ _ _] Hwf.
  - assert (Hwf' : well_formed (d <| KdsDb.kds_tickets ::= fmap f |>)) by by apply wf_rows.
    destruct Hwf' as [H1 H2 H3 H4 H5 H6 H7], d as [e1 i1 t1 p1], d1 as [e2 i2 t2 p2]; simpl in *. subst t2 p2.
    split; try done. intros r Hr. by apply He, H5.
  - apply wf_add; try done. intros p Hp. apply Hall in Hp. naive_solver.
  - eapply wf_advance; [done|done|done| |done]. rewrite Hps. unfold allPartidas. by apply fmap_key.
Qed.

(** ** Screens

    A screen loads the snapshot when it connects and then applies the messages; it shows,
    for each ticket, the status and the lines it was last told. *)

Definition Shown : Type := KdsTicketStatus.t * list KdsPartidaWire.t.
Definition shown (t : KdsTicketWire) : Shown := (KdsTicketOf.status t, KdsTicketOf.partidas t).
Definition screen (snapshot : list KdsTicketWire) (broadcasts : list (KdsDomainEvent KdsTicketWire)) (i : string) : option Shown :=
  shown <$> findBy KdsTicketOf.id i ((message_ticket <$> broadcasts) ++ snapshot).

(** what the tables say *)
Definition kitchen_view (d : KdsDb.t) (i : string) : option Shown :=
  (λ r, shown (mapKdsTicketToWire (mapTicket d r))) <$> findBy KdsTicketOf.id i (KdsDb.kds_tickets d).

Lemma findBy_cons {A} (key : A → string) i x l :
  findBy key i (x :: l) = if decide (key x = i) then Some x else findBy key i l.
Proof. unfold findBy. simpl. case_decide; [done|]. by destruct (list_find _ l) as [[]|]. Qed.
Lemma findBy_fmap {A} (key : A → string) (f : A → A) i (l : list A) :
  (∀ x, key (f x) = key x) → findBy key i (f <$> l) = f <$> findBy key i l.
Proof.
  intros Hf. induction l as [|x l IH]; [done|]. rewrite fmap_cons, !findBy_cons, Hf, IH. by case_decide.
Qed.
Lemma findBy_app {A} (key : A → string) i l1 l2 :
  findBy key i (l1 ++ l2) = match findBy key i l1 with Some x => Some x | None => findBy key i l2 end.
Proof. induction l1 as [|x l IH]; [done|]. cbn [app]. rewrite !findBy_cons, IH. by case_decide. Qed.

Lemma insertBy_const {A} (key : A → string) x l : (∀ y, y ∈ l → key y = key x) → insertBy key x l = x :: l.
Proof. destruct l as [|y l]; [done|]. intros H. simpl. rewrite (H y) by by left. assert (String.leb (key x) (key x) = true) as ->; [|done].
  destruct (String.leb_total (key x) (key x)) as [H0|H0]; exact H0.
Qed.
Lemma orderBy_const {A} (key : A → string) c l : (∀ y, y ∈ l → key y = c) → orderBy key l = l.
Proof.
  induction l as [|x l IH]; [done|]. intros H. simpl. rewrite IH by (intros; apply H; by right).
  apply insertBy_const. intros y Hy. rewrite (H x) by by left. apply H. by right.
Qed.

Lemma orderBy_fmap {A} (key : A → string) (f : A → A) (l : list A) :
  (∀ x, key (f x) = key x) → orderBy key (f <$> l) = f <$> orderBy key l.
Proof.
  intros Hf. induction l as [|x l IH]; [done|]. cbn [fmap list_fmap]. unfold orderBy in *. cbn [foldr].
  change (list_fmap _ _ f l) with (f <$> l). rewrite IH. generalize (foldr (insertBy key) [] l) as m. clear -Hf.
  induction m as [|y m IHm]; [done|]. simpl. rewrite !Hf. case_match; [done|]. simpl. f_equal. exact IHm.
Qed.

(** the lines of a ticket are read in the order they were stored *)
Lemma loadPartidas_wf d tid : well_formed d →
  loadPartidas d tid = filter (λ p, KdsPartida.kdsTicketId p = tid) (KdsDb.kds_ticket_partidas d).
Proof.
  intros Hwf. unfold loadPartidas. destruct (findBy KdsTicketOf.id tid (KdsDb.kds_tickets d)) as [row|] eqn:Hrow.
  - apply findBy_Some in Hrow as [Hrow Hid]. apply orderBy_const with (KdsTicketOf.createdAt row).
    intros p [Hp Hin]%list_elem_of_filter. destruct (wf_lines d Hwf p Hin) as (r & Hr & Hrid & _ & _ & ->).
    f_equal. eapply same_id; [apply (wf_ids d Hwf)|done|done|congruence].
  - rewrite filter_none; [done|]. intros p Hp Hid. destruct (wf_lines d Hwf p Hp) as (r & Hr & Hrid & _).
    apply findBy_None in Hrow. apply Hrow. rewrite <- Hid, <- Hrid. by apply list_elem_of_fmap_2.
Qed.

Lemma findBy_snoc {A} (key : A → string) i (l : list A) x : key x ∉ (key <$> l) →
  findBy key i (l ++ [x]) = if decide (key x = i) then Some x else findBy key i l.
Proof.
  intros Hx. rewrite findBy_app, findBy_cons. case_decide as Hi; [|by destruct (findBy key i l)].
  subst i. by rewrite (proj2 (findBy_None _ _ _) Hx).
Qed.

Lemma view_add d t i : well_formed d → well_formed (addTicket t d) → KdsTicketOf.id t ∉ ticketIds d →
  (∀ p, p ∈ KdsTicketOf.partidas t → KdsPartida.kdsTicketId p = KdsTicketOf.id t) →
  kitchen_view (addTicket t d) i = if decide (KdsTicketOf.id t = i) then Some (shown (mapKdsTicketToWire t)) else kitchen_view d i.
Proof.
  intros Hwf Hwf' Hid Hown. unfold kitchen_view.
  assert (Hself : own (KdsTicketOf.id t) (KdsTicketOf.partidas t) = KdsTicketOf.partidas t).
  { unfold own. rewrite <- (list_fmap_id (KdsTicketOf.partidas t)) at 2. apply list_fmap_ext. intros k p Hp.
    rewrite <- (Hown p) by (by eapply list_elem_of_lookup_2). by destruct p. }
  assert (Hnone : filter (λ p, KdsPartida.kdsTicketId p = KdsTicketOf.id t) (KdsDb.kds_ticket_partidas d) = []).
  { apply filter_none. intros p Hp Heq. destruct (wf_lines d Hwf p Hp) as (r & Hr & Hrid & _). apply Hid.
    rewrite <- Heq, <- Hrid. by apply list_elem_of_fmap_2. }
  change (KdsDb.kds_tickets (addTicket t d)) with (KdsDb.kds_tickets d ++ [KdsTicketOf.withPartidas t tt]).
  rewrite findBy_snoc by exact Hid. change (KdsTicketOf.id (KdsTicketOf.withPartidas t tt)) with (KdsTicketOf.id t).
  case_decide as Hi; simpl.
  - f_equal. unfold shown, mapKdsTicketToWire, mapTicket. simpl. do 2 f_equal. rewrite loadPartidas_wf by done.
    simpl. rewrite Hself, filter_app, Hnone. simpl. clear -Hown. induction (KdsTicketOf.partidas t) as [|p ps IH]; [done|].
    rewrite filter_cons, decide_True by (apply Hown; by left). f_equal. apply IH. intros q Hq. apply Hown. by right.
  - destruct (findBy _ i _) as [r|] eqn:Hr; [|done]. apply findBy_Some in Hr as [_ Hr]. simpl. f_equal.
    unfold shown, mapKdsTicketToWire, mapTicket. simpl. do 2 f_equal. rewrite !loadPartidas_wf by done. simpl. rewrite Hself, filter_app.
    rewrite (filter_none _ (KdsTicketOf.partidas t)); [by rewrite app_nil_r|]. intros p Hp. rewrite (Hown p Hp). congruence.
Qed.

Lemma load_relabel d tid t :
  well_formed d → KdsPartida.id <$> KdsTicketOf.partidas t = KdsPartida.id <$> loadPartidas d (KdsTicketOf.id t) →
  loadPartidas (advance t d) tid =
    if decide (tid = KdsTicketOf.id t) then allPartidas (lineStatus (KdsTicketOf.status t)) (loadPartidas d tid) else loadPartidas d tid.
Proof.
  intros Hwf Hps. unfold loadPartidas at 1, advance. simpl. rewrite Hps.
  assert (Hrel : relabel (lineStatus (KdsTicketOf.status t)) (KdsPartida.id <$> loadPartidas d (KdsTicketOf.id t)) <$> KdsDb.kds_ticket_partidas d =
    (λ p, if decide (KdsPartida.kdsTicketId p = KdsTicketOf.id t) then p <| KdsPartida.status := lineStatus (KdsTicketOf.status t) |> else p)
      <$> KdsDb.kds_ticket_partidas d).
  { apply list_fmap_ext. intros k p Hp. apply relabel_own; [done|by eapply list_elem_of_lookup_2]. }
  rewrite Hrel. clear Hrel. set (g := λ p : KdsPartida.t, if decide (KdsPartida.kdsTicketId p = KdsTicketOf.id t) then _ else p).
  assert (Hg : ∀ p, KdsPartida.kdsTicketId (g p) = KdsPartida.kdsTicketId p ∧ KdsPartida.createdAt (g p) = KdsPartida.createdAt p)
    by (intros p; unfold g; by destruct (decide (KdsPartida.kdsTicketId p = KdsTicketOf.id t))).
  assert (Hfil : filter (λ p, KdsPartida.kdsTicketId p = tid) (g <$> KdsDb.kds_ticket_partidas d) =
    g <$> filter (λ p, KdsPartida.kdsTicketId p = tid) (KdsDb.kds_ticket_partidas d)).
  { clear -Hg. induction (KdsDb.kds_ticket_partidas d) as [|p l IH]; [done|]. rewrite fmap_cons, !filter_cons.
    destruct (Hg p) as [-> _]. case_decide; [rewrite fmap_cons; f_equal; exact IH|exact IH]. }
  rewrite Hfil. unfold loadPartidas. set (l := filter _ _).
  assert (Hl : ∀ p, p ∈ l → KdsPartida.kdsTicketId p = tid) by (intros p Hp; by apply list_elem_of_filter in Hp as [? _]).
  rewrite (orderBy_fmap KdsPartida.createdAt g) by apply Hg.
  assert (Hl' : ∀ p, p ∈ orderBy KdsPartida.createdAt l → KdsPartida.kdsTicketId p = tid) by (intros p; rewrite elem_of_orderBy; apply Hl).
  case_decide as Ht; unfold allPartidas.
  - apply list_fmap_ext. intros k p Hp%list_elem_of_lookup_2%Hl'. unfold g. by rewrite decide_True by congruence.
  - rewrite <- (list_fmap_id (orderBy _ l)) at 2. apply list_fmap_ext. intros k p Hp%list_elem_of_lookup_2%Hl'.
    unfold g. by rewrite decide_False by congruence.
Qed.

Lemma view_advance d t i row : well_formed d → row ∈ KdsDb.kds_tickets d → KdsTicketOf.id row = KdsTicketOf.id t →
  KdsTicketOf.partidas t = allPartidas (lineStatus (KdsTicketOf.status t)) (loadPartidas d (KdsTicketOf.id t)) →
  kitchen_view (advance t d) i = if decide (KdsTicketOf.id t = i) then Some (shown (mapKdsTicketToWire t)) else kitchen_view d i.
Proof.
  intros Hwf Hrow Hid Hps. unfold kitchen_view.
  change (KdsDb.kds_tickets (advance t d)) with (updateRow t <$> KdsDb.kds_tickets d).
  rewrite findBy_fmap by (intros r; unfold updateRow; by case_decide).
  assert (Hids : KdsPartida.id <$> KdsTicketOf.partidas t = KdsPartida.id <$> loadPartidas d (KdsTicketOf.id t))
    by (rewrite Hps; unfold allPartidas; by apply fmap_key).
  case_decide as Hi.
  - rewrite (findBy_unique _ _ _ row (wf_ids d Hwf) Hrow) by congruence. simpl. f_equal.
    unfold updateRow. rewrite decide_True by done. unfold shown, mapKdsTicketToWire, mapTicket. simpl. do 2 f_equal.
    rewrite load_relabel by done. rewrite decide_True by done. by rewrite Hps, Hid.
  - destruct (findBy _ i _) as [r|] eqn:Hr; [|done]. apply findBy_Some in Hr as [_ Hr]. simpl. f_equal.
    unfold updateRow. rewrite decide_False by congruence. unfold shown, mapKdsTicketToWire, mapTicket. simpl. do 2 f_equal.
    rewrite load_relabel by done. by rewrite decide_False by congruence.
Qed.

Lemma move_view d d' msgs i : well_formed d → move d d' msgs →
  kitchen_view d' i = match findBy KdsTicketOf.id i (message_ticket <$> msgs) with
    | Some t => Some (shown t) | None => kitchen_view d i end.
Proof.
  intros Hwf Hmove. pose proof (move_wf _ _ _ Hmove Hwf) as Hwf'.
  destruct Hmove as [d1 f Hk Hp Ht Hl He|now em input lines t Hid Hst Hne Hall Hfresh|t row msg Hrow Hid Hps Hdone _ _ Hmsg].
  - simpl. unfold kitchen_view. rewrite Ht, findBy_fmap by apply Hk. destruct (findBy _ i _) as [r|]; [|done]. simpl. f_equal.
    unfold shown, mapKdsTicketToWire, mapTicket, loadPartidas. simpl. rewrite Hl. by destruct (Hk r) as (-> & -> & _).
  - rewrite view_add; [|done|done|done|intros p Hp; by apply Hall]. simpl. rewrite findBy_cons. simpl. by case_decide.
  - erewrite view_advance by done. simpl. rewrite Hmsg, findBy_cons. simpl. by case_decide.
Qed.

(** a fresh snapshot shows the tables *)
Lemma resync_view s : well_formed (kd s) →
  ∃ snap, getResyncSnapshot s = (s, Ok snap) ∧ ∀ i, screen snap [] i = kitchen_view (kd s) i.
Proof.
  intros Hwf. eexists. split; [reflexivity|]. intros i. set (d := kd s). set (snap := _ ≫= _ : list KdsTicketWire).
  assert (Hsnap : ∀ t, t ∈ snap ↔ ∃ r : KdsTicketRow, r ∈ KdsDb.kds_tickets d ∧ t = mapKdsTicketToWire (mapTicket d r)).
  { intros t. unfold snap. rewrite list_elem_of_bind. split.
    - intros (e & (x & -> & Hx)%list_elem_of_fmap & _). apply list_elem_of_fmap in Hx as (r & -> & Hr).
      rewrite elem_of_orderAsc, list_elem_of_filter in Hr. exists r. by destruct Hr.
    - intros (r & Hr & ->). pose proof (wf_station d Hwf r Hr) as (e & He & Hin)%list_elem_of_fmap.
      exists e. split; [|by rewrite elem_of_orderBy]. apply list_elem_of_fmap_2, list_elem_of_fmap_2.
      rewrite elem_of_orderAsc, list_elem_of_filter. split; [|done]. split; [done|].
      pose proof (wf_completed d Hwf r Hr) as Hc. unfold completed in Hc. by destruct (KdsTicketOf.status r). }
  unfold screen, kitchen_view. simpl. destruct (findBy KdsTicketOf.id i snap) as [t|] eqn:Ht.
  - apply findBy_Some in Ht as [(r & Hr & ->)%Hsnap Hi]. simpl in Hi.
    pose proof (findBy_unique KdsTicketOf.id i (KdsDb.kds_tickets d) r (wf_ids d Hwf) Hr Hi) as Hf. unfold KdsTicketRow in *. by rewrite Hf.
  - destruct (findBy KdsTicketOf.id i (KdsDb.kds_tickets d)) as [r|] eqn:Hr; [|done]. apply findBy_Some in Hr as [Hr Hi].
    apply findBy_None in Ht. exfalso. apply Ht. apply list_elem_of_fmap. exists (mapKdsTicketToWire (mapTicket d r)).
    split; [done|]. apply Hsnap. by exists r.
Qed.

Lemma screen_messages snap old msgs i :
  screen snap (msgs ++ old) i =
    match findBy KdsTicketOf.id i (message_ticket <$> msgs) with Some t => Some (shown t) | None => screen snap old i end.
Proof. unfold screen. rewrite fmap_app, <- app_assoc, findBy_app. by destruct (findBy KdsTicketOf.id i (message_ticket <$> msgs)). Qed.
