(* ===== verification/KitchenSpec.v ===== *)
(** The kitchen running: the service, the screens and the printer queue interleaved
    ([Kitchen], [kstep]), what holds in every state it reaches, and how its queue drains. *)
From S2P Require Import Prelude Money PosTypes KdsTypes EdgeDb Kds KdsSpec.
Import SqliteKds KdsDomainService.

(** ** The printer queue *)

Import PrinterQueueRunner.

(** [print_update tid st n d d']: the row [tid] takes a print status and a number of attempts *)
Definition print_row (tid : string) (f : KdsTicketRow → KdsTicketRow) (r : KdsTicketRow) : KdsTicketRow :=
  if decide (KdsTicketOf.id r = tid) then f r else r.

Definition print_update (tid : string) (st : PrintJobStatus.t) (n : Z) (d d' : KdsDb.t) : Prop :=
  ∃ f g,
    keeps_kitchen f ∧
    (∀ r, KdsTicketOf.printStatus (f r) = st ∧ KdsTicketOf.printAttempts (f r) = n ∧
       KdsTicketOf.printerId (f r) = KdsTicketOf.printerId r) ∧
    (∀ p, ImpresoraRed.id (g p) = ImpresoraRed.id p ∧ ImpresoraRed.name (g p) = ImpresoraRed.name p ∧
       ImpresoraRed.kdsEstacionId (g p) = ImpresoraRed.kdsEstacionId p) ∧
    d' = d <| KdsDb.kds_tickets ::= fmap (print_row tid f) |> <| KdsDb.impresoras_red ::= fmap g |>.

Lemma mark_run now tid st n err s :
  ∃ d, markTicketPrintAttempt now tid st n err s = (set_kd s d, Ok tt) ∧ print_update tid st n (kd s) d.
Proof.
  unfold markTicketPrintAttempt, updateTicket. rewrite run_kds. eexists. split; [reflexivity|]. generalize (kd s) as d. clear s. intros d.
  set (f := λ r : KdsTicketRow, r <| KdsTicketOf.printStatus := st |> <| KdsTicketOf.printAttempts := n |>
    <| KdsTicketOf.lastPrintError := err |> <| KdsTicketOf.updatedAt := now |>).
  exists f, (λ p, p). split; [done|]. split; [done|]. split; [done|].
  destruct d as [e p t l]. unfold set; simpl. f_equal. symmetry. apply list_fmap_id.
Qed.

Lemma print_update_printer tid st n d d' pid ps at' :
  print_update tid st n d d' →
  print_update tid st n d (d' <| KdsDb.impresoras_red ::= fmap (λ r,
    if decide (ImpresoraRed.id r = pid) then r <| ImpresoraRed.status := ps |> <| ImpresoraRed.lastSeenAt := at' |> else r) |>).
Proof.
  intros (f & g & Hk & Hs & Hg & ->).
  set (h := λ r : ImpresoraRed.t, if decide (ImpresoraRed.id r = pid) then r <| ImpresoraRed.status := ps |> <| ImpresoraRed.lastSeenAt := at' |> else r).
  exists f, (λ p, h (g p)). split; [done|]. split; [done|]. split.
  - intros p. unfold h. pose proof (Hg p). by destruct (decide (ImpresoraRed.id (g p) = pid)).
  - unfold set; simpl. f_equal. by rewrite <- list_fmap_compose.
Qed.

(** the printer of a ticket *)
Definition printer_of (d : KdsDb.t) (t : KdsTicket) : option ImpresoraRed.t :=
  match truthy (KdsTicketOf.printerId t) with
  | Some pid => findBy ImpresoraRed.id pid (KdsDb.impresoras_red d)
  | None => snd <$> list_find (λ p, ImpresoraRed.kdsEstacionId p = Some (KdsTicketOf.kdsEstacionId t))
              (orderBy ImpresoraRed.name (KdsDb.impresoras_red d))
  end.

Lemma resolve_run t s : resolvePrinterFor t s = (s, Ok (printer_of (kd s) t)).
Proof. unfold resolvePrinterFor, printer_of, getPrinterById, listPrinters. by destruct (truthy _). Qed.

Lemma list_find_fmap {A} (P : A → Prop) `{!∀ x, Decision (P x)} (g : A → A) (l : list A) :
  (∀ x, P (g x) ↔ P x) → is_Some (list_find P (g <$> l)) ↔ is_Some (list_find P l).
Proof.
  intros Hg. rewrite <- !not_eq_None_Some, !list_find_None, !Forall_forall. apply not_iff_compat. split.
  - intros Hn x Hx Hp. apply (Hn (g x)); [by apply list_elem_of_fmap_2|by apply Hg].
  - intros Hn ? (x & -> & Hx)%list_elem_of_fmap. rewrite Hg. by apply Hn.
Qed.

(** printing changes neither who prints a ticket nor what the kitchen reads *)
Lemma print_update_printer_of tid st n d d' t :
  print_update tid st n d d' → is_Some (printer_of d' t) ↔ is_Some (printer_of d t).
Proof.
  intros (f & g & _ & _ & Hg & ->). unfold printer_of. simpl. destruct (truthy _) as [pid|].
  - rewrite findBy_fmap by apply Hg. apply fmap_is_Some.
  - rewrite orderBy_fmap by apply Hg. rewrite !fmap_is_Some. apply list_find_fmap. intros p. by destruct (Hg p) as (_ & _ & ->).
Qed.

Lemma print_row_kitchen tid f : keeps_kitchen f → keeps_kitchen (print_row tid f).
Proof. intros Hf r. unfold print_row. case_decide; [apply Hf|done]. Qed.

Lemma print_update_wf tid st n d d' : print_update tid st n d d' → well_formed d → well_formed d'.
Proof.
  intros (f & g & Hk & _ & _ & ->) Hwf. pose proof (wf_rows _ _ (print_row_kitchen tid f Hk) Hwf) as [H1 H2 H3 H4 H5 H6 H7].
  destruct d. by split.
Qed.

Lemma rows_view f d d' i : keeps_kitchen f → KdsDb.kds_tickets d' = f <$> KdsDb.kds_tickets d →
  KdsDb.kds_ticket_partidas d' = KdsDb.kds_ticket_partidas d → kitchen_view d' i = kitchen_view d i.
Proof.
  intros Hk Ht Hl. unfold kitchen_view. rewrite Ht, findBy_fmap by apply Hk. destruct (findBy _ i _) as [r|]; [|done]. simpl. f_equal.
  unfold shown, mapKdsTicketToWire, mapTicket, loadPartidas. simpl. rewrite Hl. by destruct (Hk r) as (-> & -> & _).
Qed.

(** the first half of an attempt *)
Lemma beginPrint_run max now t s : ∃ s' res, beginPrint max now t s = (s', Ok res) ∧ Edge.inTransaction s' = Edge.inTransaction s ∧
  match res with
  | inl r => Result.ticketId r = KdsTicketOf.id t ∧
      ((s' = s ∧ max <= KdsTicketOf.printAttempts t) ∨
       (printer_of (kd s) t = None ∧ print_update (KdsTicketOf.id t) PrintJobStatus.FAILED (KdsTicketOf.printAttempts t) (kd s) (kd s')))
  | inr x => KdsTicketOf.printAttempts t < max ∧ is_Some (printer_of (kd s) t) ∧
      Transmission.ticketId x = KdsTicketOf.id t ∧ Transmission.attemptNumber x = KdsTicketOf.printAttempts t + 1 ∧
      print_update (KdsTicketOf.id t) PrintJobStatus.PRINTING (KdsTicketOf.printAttempts t + 1) (kd s) (kd s')
  end.
Proof.
  unfold beginPrint. destruct (Z.leb_spec max (KdsTicketOf.printAttempts t)) as [Hle|Hlt].
  - exists s. eexists. split; [reflexivity|]. split; [done|]. split; [done|]. by left.
  - rewrite (bind_run_ok _ _ _ _ _ (resolve_run t s)). destruct (printer_of (kd s) t) as [p|] eqn:Hp.
    + edestruct mark_run as (d & Hrun & Hpu). rewrite (bind_run_ok _ _ _ _ _ Hrun).
      eexists _, _. split; [reflexivity|]. split; [done|]. simpl. by split_and!.
    + edestruct mark_run as (d & Hrun & Hpu). rewrite (bind_run_ok _ _ _ _ _ Hrun).
      eexists _, _. split; [reflexivity|]. split; [done|]. simpl. split; [done|]. by right.
Qed.

(** the second half *)
Lemma finishPrint_run max now x answer s : ∃ s' r st, finishPrint max now x answer s = (s', Ok r) ∧
  Edge.inTransaction s' = Edge.inTransaction s ∧
  print_update (Transmission.ticketId x) st (Transmission.attemptNumber x) (kd s) (kd s') ∧
  (st = PrintJobStatus.PRINTED ∧ answer = Ok tt ∨ (st = PrintJobStatus.FAILED ∨ st = PrintJobStatus.QUEUED) ∧ ∃ m, answer = Err m).
Proof.
  unfold finishPrint. destruct answer as [[]|m]; edestruct mark_run as (d & Hrun & Hpu); rewrite (bind_run_ok _ _ _ _ _ Hrun).
  - eexists _, _, PrintJobStatus.PRINTED. split; [reflexivity|]. split; [done|]. split; [|by left].
    by apply (print_update_printer _ _ _ _ d _ _ _ Hpu).
  - eexists _, _, _. split; [reflexivity|]. split; [done|]. split; [by apply (print_update_printer _ _ _ _ d _ _ _ Hpu)|].
    right. split; [|by exists m]. case_match; [by left|by right].
Qed.

(** ** The kitchen running

    One runtime: requests of the service, screens that connect, one printer queue whose
    runs are interleaved with everything else at its awaits, and restarts. *)

Module Kitchen.
Record t := mk {
  rt : KdsRt.t;
  snapshot : list KdsTicketWire;          (* what the screens loaded when they connected *)
  queue : option (list KdsTicket);        (* tickets the current run has not reached yet *)
  job : option Transmission.t;            (* transmission under way *)
  sent : list string }.                   (* ticket of every transmission started, newest first *)
#[global] Instance eta_t : Eta t := λ w, mk (rt w) (snapshot w) (queue w) (job w) (sent w).
Definition start : t := mk (KdsRt.mk Edge.initial []) [] None None [].
Definition tables (w : t) : KdsDb.t := kd (KdsRt.edge (rt w)).
End Kitchen.
Import Kitchen.

Definition set_edge (s : Edge.t) (w : Kitchen.t) : Kitchen.t := w <| rt ::= set KdsRt.edge (λ _, s) |>.

Inductive kstep (max : Z) (w : Kitchen.t) : Kitchen.t → Prop :=
| k_request q r' res :
    admissible q (tables w) → runKitchen q (rt w) = (r', res) → kstep max w (w <| rt := r' |>)
| k_connect s snap :
    getResyncSnapshot (KdsRt.edge (rt w)) = (s, Ok snap) →
    kstep max w (w <| snapshot := snap |> <| rt ::= set KdsRt.broadcasts (λ _, []) |>)
| k_run s pending :
    queue w = None → listPendingPrintJobs (KdsRt.edge (rt w)) = (s, Ok pending) → kstep max w (w <| queue := Some pending |>)
| k_begin now t rest s res :
    queue w = Some (t :: rest) → job w = None → beginPrint max now t (KdsRt.edge (rt w)) = (s, Ok res) →
    kstep max w (set_edge s w <| queue := Some rest |>
      <| job := match res with inl _ => None | inr x => Some x end |>
      <| sent ::= match res with inl _ => id | inr x => cons (Transmission.ticketId x) end |>)
| k_finish now x answer s r :
    job w = Some x → finishPrint max now x answer (KdsRt.edge (rt w)) = (s, Ok r) →
    kstep max w (set_edge s w <| job := None |>)
| k_idle : queue w = Some [] → job w = None → kstep max w (w <| queue := None |>)
| k_restart now s1 l s2 snap :
    recoverInterruptedPrintingJobs now (KdsRt.edge (rt w)) = (s1, Ok l) → getResyncSnapshot s1 = (s2, Ok snap) →
    kstep max w (Kitchen.mk (KdsRt.mk s1 []) snap None None (sent w)).

Definition kitchen_reachable (max : Z) : Kitchen.t → Prop := rtc (kstep max) start.

Definition count_sent (i : string) (w : Kitchen.t) : Z := Z.of_nat (length (filter (λ j, j = i) (sent w))).

(** the print columns agree with the transmissions made *)
Record queue_inv (max : Z) (w : Kitchen.t) : Prop := {
  qi_count : ∀ r, r ∈ KdsDb.kds_tickets (tables w) →
    KdsTicketOf.printAttempts r = count_sent (KdsTicketOf.id r) w ∧ KdsTicketOf.printAttempts r <= max;
  qi_sent : ∀ i, i ∈ sent w → i ∈ ticketIds (tables w);
  qi_printing : ∀ r, r ∈ KdsDb.kds_tickets (tables w) → KdsTicketOf.printStatus r = PrintJobStatus.PRINTING →
    ∃ x, job w = Some x ∧ Transmission.ticketId x = KdsTicketOf.id r;
  qi_queue : ∀ ts, queue w = Some ts → NoDup (KdsTicketOf.id <$> ts) ∧
    ∀ t, t ∈ ts → ∃ r, r ∈ KdsDb.kds_tickets (tables w) ∧ KdsTicketOf.id r = KdsTicketOf.id t ∧
      KdsTicketOf.printAttempts r = KdsTicketOf.printAttempts t ∧ pendingPrint (KdsTicketOf.printStatus r) = true;
  qi_job : ∀ x, job w = Some x → ∃ r, r ∈ KdsDb.kds_tickets (tables w) ∧ KdsTicketOf.id r = Transmission.ticketId x ∧
      KdsTicketOf.printStatus r = PrintJobStatus.PRINTING ∧ KdsTicketOf.printAttempts r = Transmission.attemptNumber x }.

Record kitchen_inv (max : Z) (w : Kitchen.t) : Prop := {
  ki_tx : Edge.inTransaction (KdsRt.edge (rt w)) = false;
  ki_wf : well_formed (tables w);
  ki_screen : ∀ i, screen (snapshot w) (KdsRt.broadcasts (rt w)) i = kitchen_view (tables w) i;
  ki_queue : queue_inv max w }.

Definition same_print (r r' : KdsTicketRow) : Prop :=
  KdsTicketOf.id r' = KdsTicketOf.id r ∧ KdsTicketOf.printStatus r' = KdsTicketOf.printStatus r ∧
  KdsTicketOf.printAttempts r' = KdsTicketOf.printAttempts r.

(** requests leave the print columns alone, and new tickets have none yet *)
Definition print_kept (d d' : KdsDb.t) : Prop :=
  (∀ r', r' ∈ KdsDb.kds_tickets d' → (∃ r, r ∈ KdsDb.kds_tickets d ∧ same_print r r') ∨
     (KdsTicketOf.id r' ∉ ticketIds d ∧ KdsTicketOf.printStatus r' = PrintJobStatus.PENDING ∧ KdsTicketOf.printAttempts r' = 0)) ∧
  (∀ r, r ∈ KdsDb.kds_tickets d → ∃ r', r' ∈ KdsDb.kds_tickets d' ∧ same_print r r').

Lemma print_kept_rows f d d' : (∀ r, r ∈ KdsDb.kds_tickets d → same_print r (f r)) →
  KdsDb.kds_tickets d' = f <$> KdsDb.kds_tickets d → print_kept d d'.
Proof.
  intros Hf Ht. split; rewrite Ht.
  - intros r' (r & -> & Hr)%list_elem_of_fmap. left. exists r. split; [done|by apply Hf].
  - intros r Hr. exists (f r). split; [by apply list_elem_of_fmap_2|by apply Hf].
Qed.

Lemma move_print d d' msgs : well_formed d → move d d' msgs → print_kept d d'.
Proof.
  intros Hwf [d1 f Hk Hp Ht Hl He|now em input lines t Hid Hst Hne Hall Hfresh|t row msg Hrow Hid Hps Hdone Hps1 Hps2 Hmsg].
  - apply (print_kept_rows f); [|done]. intros r _. apply Hp.
  - split.
    + intros r' [Hr|Hr]%elem_of_app; [left; by exists r'|]. apply list_elem_of_singleton in Hr as ->. by right.
    + intros r Hr. exists r. split; [by apply elem_of_app; left|done].
  - apply (print_kept_rows (updateRow t)); [|done]. intros r Hr. unfold updateRow. case_decide as Hi; [|done].
    assert (r = row) as -> by (eapply same_id; [apply (wf_ids d Hwf)|done|done|congruence]). done.
Qed.

Lemma queue_inv_kept max w w' :
  0 <= max → print_kept (tables w) (tables w') → queue w' = queue w → job w' = job w → sent w' = sent w →
  queue_inv max w → queue_inv max w'.
Proof.
  intros Hmax [Hback Hfwd] Hq Hj Hs [Q1 Q2 Q3 Q4 Q5]. split.
  - intros r' Hr'. unfold count_sent. rewrite Hs. destruct (Hback r' Hr') as [(r & Hr & Hi & _ & ->)|(Hnew & _ & ->)].
    + rewrite Hi. by apply Q1.
    + split; [|done]. rewrite filter_none; [done|]. intros j Hj' ->. by apply Hnew, Q2.
  - intros i Hi. rewrite Hs in Hi. apply Q2 in Hi. unfold ticketIds in Hi. apply list_elem_of_fmap in Hi as (r & -> & Hr).
    destruct (Hfwd r Hr) as (r' & Hr' & Hid & _). rewrite <- Hid. by apply list_elem_of_fmap_2.
  - intros r' Hr' Hst. rewrite Hj. destruct (Hback r' Hr') as [(r & Hr & -> & Hps & _)|(_ & Hps & _)]; [|congruence].
    apply Q3; [done|congruence].
  - rewrite Hq. intros ts Hts. destruct (Q4 ts Hts) as [Hnd Hall]. split; [done|]. intros t Ht.
    destruct (Hall t Ht) as (r & Hr & Hi & Ha & Hp). destruct (Hfwd r Hr) as (r' & Hr' & Hi' & Hs' & Ha').
    exists r'. split_and!; [done|congruence..].
  - rewrite Hj. intros x Hx. destruct (Q5 x Hx) as (r & Hr & Hi & Hp & Ha). destruct (Hfwd r Hr) as (r' & Hr' & Hi' & Hs' & Ha').
    exists r'. split_and!; [done|congruence..].
Qed.

(** the rows after a print update *)
Lemma print_update_rows tid st n d d' :
  print_update tid st n d d' →
  (∀ r', r' ∈ KdsDb.kds_tickets d' → (KdsTicketOf.id r' = tid ∧ KdsTicketOf.printStatus r' = st ∧ KdsTicketOf.printAttempts r' = n) ∨
     (r' ∈ KdsDb.kds_tickets d ∧ KdsTicketOf.id r' ≠ tid)) ∧
  (∀ r, r ∈ KdsDb.kds_tickets d → KdsTicketOf.id r ≠ tid → r ∈ KdsDb.kds_tickets d') ∧
  (tid ∈ ticketIds d → ∃ r', r' ∈ KdsDb.kds_tickets d' ∧ KdsTicketOf.id r' = tid ∧ KdsTicketOf.printStatus r' = st ∧ KdsTicketOf.printAttempts r' = n) ∧
  ticketIds d' = ticketIds d.
Proof.
  intros (f & g & Hk & Hs & _ & ->). simpl. split; [|split; [|split]].
  - intros r' (r & -> & Hr)%list_elem_of_fmap. unfold print_row. case_decide as Hi; [left|by right].
    destruct (Hk r) as (-> & _), (Hs r) as (-> & -> & _). done.
  - intros r Hr Hne. apply list_elem_of_fmap. exists r. split; [|done]. unfold print_row. by rewrite decide_False.
  - intros (r & -> & Hr)%list_elem_of_fmap. exists (f r). split; [|split; [apply Hk|split; apply Hs]].
    apply list_elem_of_fmap. exists r. split; [|done]. unfold print_row. by rewrite decide_True.
  - unfold ticketIds. simpl. apply fmap_key. intros r. apply (print_row_kitchen tid f Hk r).
Qed.

Lemma count_sent_cons i j w w' : sent w' = j :: sent w → count_sent i w' = count_sent i w + if decide (j = i) then 1 else 0.
Proof. intros Hs. unfold count_sent. rewrite Hs, filter_cons. case_decide; simpl; lia. Qed.

Lemma recover_run now s : well_formed (kd s) → ∃ s' l, recoverInterruptedPrintingJobs now s = (s', Ok l) ∧
  Edge.inTransaction s' = Edge.inTransaction s ∧ kd s' = (kd s) <| KdsDb.kds_tickets ::= fmap (recoverRow now) |>.
Proof.
  intros Hwf. unfold recoverInterruptedPrintingJobs. rewrite bind_select.
  destruct (KdsTicketOf.id <$> filter (λ r, KdsTicketOf.printStatus r = PrintJobStatus.PRINTING) (KdsDb.kds_tickets (kd s))) as [|i l] eqn:Hnone.
  - exists s, []. split; [done|]. split; [done|]. apply fmap_nil_inv in Hnone. destruct (kd s) as [e p t ls]. unfold set; simpl in *. f_equal.
    rewrite <- (list_fmap_id t) at 1. apply list_fmap_ext. intros k r Hr%list_elem_of_lookup_2. unfold recoverRow.
    rewrite decide_False; [done|]. intros Hp.
    assert (Hin : r ∈ filter (λ r, KdsTicketOf.printStatus r = PrintJobStatus.PRINTING) t) by by apply list_elem_of_filter.
    rewrite Hnone in Hin. by apply not_elem_of_nil in Hin.
  - rewrite bind_kds, run_select. eexists _, _. split; [reflexivity|]. by split.
Qed.

Lemma recover_kitchen now : keeps_kitchen (recoverRow now).
Proof. intros r. unfold recoverRow. by case_decide. Qed.

(** a print update whose row is the one the queue or the job is at *)
Lemma queue_inv_update max w w' tid st n row :
  well_formed (tables w) → row ∈ KdsDb.kds_tickets (tables w) → KdsTicketOf.id row = tid →
  print_update tid st n (tables w) (tables w') →
  n = count_sent tid w' → n <= max → (∀ i, i ≠ tid → count_sent i w' = count_sent i w) →
  (∀ i, i ∈ sent w' → i ∈ sent w ∨ i = tid) →
  (∀ ts, queue w' = Some ts → tid ∉ (KdsTicketOf.id <$> ts) ∧ ∃ ts0, queue w = Some ts0 ∧ (ts0 = ts ∨ ∃ t, ts0 = t :: ts)) →
  (∀ x, job w = Some x → Transmission.ticketId x = tid) →
  match job w' with
  | Some x => Transmission.ticketId x = tid ∧ st = PrintJobStatus.PRINTING ∧ Transmission.attemptNumber x = n
  | None => st ≠ PrintJobStatus.PRINTING
  end →
  queue_inv max w → queue_inv max w'.
Proof.
  intros Hwf Hrow Hid Hpu Hn Hmax Hcnt Hsent Hq Hj Hj' [Q1 Q2 Q3 Q4 Q5].
  destruct (print_update_rows _ _ _ _ _ Hpu) as (Hback & Hother & Hself & Hids). split.
  - intros r' Hr'. destruct (Hback r' Hr') as [(-> & _ & ->)|[Hr Hne]]; [done|]. rewrite Hcnt by done. by apply Q1.
  - intros i Hi. rewrite Hids. destruct (Hsent i Hi) as [?| ->]; [by apply Q2|]. rewrite <- Hid. by apply list_elem_of_fmap_2.
  - intros r' Hr' Hst. destruct (Hback r' Hr') as [(Hi & Hs & _)|[Hr Hne]].
    + destruct (job w') as [x|]; [|congruence]. exists x. destruct Hj' as [-> _]. by rewrite Hi.
    + exfalso. destruct (Q3 r' Hr Hst) as (x & Hx & Hxi). apply Hj in Hx. congruence.
  - intros ts Hts. destruct (Hq ts Hts) as (Hnin & ts0 & Hts0 & Hor). destruct (Q4 ts0 Hts0) as [Hnd Hall].
    assert (Hsub : NoDup (KdsTicketOf.id <$> ts) ∧ ∀ t, t ∈ ts → t ∈ ts0).
    { destruct Hor as [->|[t0 ->]]; [done|]. split; [by inversion Hnd|by right]. }
    split; [apply Hsub|]. intros t Ht. destruct (Hall t (proj2 Hsub t Ht)) as (r & Hr & Hi & Ha & Hp). exists r. split; [|done].
    apply Hother; [done|]. intros Heq. apply Hnin. rewrite <- Heq, Hi. by apply list_elem_of_fmap_2.
  - intros x Hx. rewrite Hx in Hj'. destruct Hj' as (-> & -> & ->). apply Hself. rewrite <- Hid. by apply list_elem_of_fmap_2.
Qed.

Lemma kitchen_inv_print max w w' tid st n :
  kitchen_inv max w → print_update tid st n (tables w) (tables w') →
  Edge.inTransaction (KdsRt.edge (rt w')) = false → snapshot w' = snapshot w → KdsRt.broadcasts (rt w') = KdsRt.broadcasts (rt w) →
  queue_inv max w' → kitchen_inv max w'.
Proof.
  intros [I1 I2 I3 I4] Hpu Htx Hsn Hb Hq. split; [done|by eapply print_update_wf| |done].
  intros i. rewrite Hsn, Hb, I3. destruct Hpu as (f & g & Hk & _ & _ & ->). symmetry.
  by apply (rows_view (print_row tid f)); [apply print_row_kitchen|..].
Qed.

Lemma kstep_request max w q r' res : 0 <= max → kitchen_inv max w →
  admissible q (tables w) → runKitchen q (rt w) = (r', res) → kitchen_inv max (w <| rt := r' |>).
Proof.
  intros Hmax [I1 I2 I3 I4] Hadm (Htx & Hres)%runKitchen_served; [|done..]. destruct res as [u|e].
  - destruct Hres as (msgs & Hmove & Hb). split; [done|by eapply move_wf| |].
    + intros i. simpl. rewrite Hb, screen_messages, I3. symmetry. by apply move_view.
    + apply (queue_inv_kept max w); [done| |done..|exact I4]. by eapply move_print.
  - destruct Hres as (Hkd & Hb).
    assert (Ht : tables (w <| rt := r' |>) = tables w) by exact Hkd. split; [done|by rewrite Ht| |].
    + intros i. rewrite Ht. simpl. rewrite Hb. apply I3.
    + apply (queue_inv_kept max w); [done| |done..|exact I4]. apply (print_kept_rows (λ r, r)); [done|].
      rewrite Ht. symmetry. apply list_fmap_id.
Qed.

Lemma kstep_begin max w now t rest s res : kitchen_inv max w →
  queue w = Some (t :: rest) → job w = None → beginPrint max now t (KdsRt.edge (rt w)) = (s, Ok res) →
  kitchen_inv max (set_edge s w <| queue := Some rest |>
      <| job := match res with inl _ => None | inr x => Some x end |>
      <| sent ::= match res with inl _ => id | inr x => cons (Transmission.ticketId x) end |>).
Proof.
  intros Hinv Hq Hj Hrun. pose proof Hinv as [I1 I2 I3 I4].
  destruct (beginPrint_run max now t (KdsRt.edge (rt w))) as (s' & res' & Hrun' & Htx & Hres).
  rewrite Hrun in Hrun'. injection Hrun' as <- <-. rewrite I1 in Htx.
  destruct (qi_queue _ _ I4 _ Hq) as [Hnd Hall]. destruct (Hall t) as (row & Hrow & Hid & Hatt & Hpend); [by left|].
  inversion Hnd as [|? ? Hnin Hnd']; subst. destruct (qi_count _ _ I4 row Hrow) as [Hcount Hmax].
  destruct res as [r|x].
  - destruct Hres as (_ & [[-> _]|[_ Hpu]]).
    + split; [done|done|exact I3|]. destruct I4 as [Q1 Q2 Q3 Q4 Q5].
      split; [exact Q1|exact Q2| | |done]; simpl.
      * intros r0 Hr0 Hst. destruct (Q3 r0 Hr0 Hst) as (x & Hx & _). congruence.
      * intros ts [= <-]. split; [done|]. intros u Hu. apply Hall. by right.
    + eapply kitchen_inv_print; [exact Hinv|exact Hpu|done..|]. apply (queue_inv_update max w _ _ _ _ row) with (1 := I2) (2 := Hrow) (3 := Hid) (4 := Hpu); [..|exact I4]; simpl.
      * rewrite <- Hatt, Hcount, Hid. done.
      * lia.
      * done.
      * by left.
      * intros ts [= <-]. split; [done|]. eexists. split; [exact Hq|]. right. by exists t.
      * intros x Hx. congruence.
      * done.
  - destruct Hres as (Hlt & _ & Hxid & Hxn & Hpu). eapply kitchen_inv_print; [exact Hinv|exact Hpu|done..|].
    apply (queue_inv_update max w _ _ _ _ row) with (1 := I2) (2 := Hrow) (3 := Hid) (4 := Hpu); [..|exact I4]; simpl.
    + rewrite (count_sent_cons _ (Transmission.ticketId x) w) by done. rewrite Hxid, decide_True, <- Hatt, Hcount, Hid by done. done.
    + lia.
    + intros i Hi. rewrite (count_sent_cons _ (Transmission.ticketId x) w) by done. rewrite Hxid, decide_False by done. lia.
    + rewrite Hxid. intros i [->|Hi]%elem_of_cons; [by right|by left].
    + intros ts [= <-]. split; [done|]. eexists. split; [exact Hq|]. right. by exists t.
    + intros y Hy. congruence.
    + by rewrite Hxid.
Qed.

Lemma kstep_finish max w now x answer s r : kitchen_inv max w →
  job w = Some x → finishPrint max now x answer (KdsRt.edge (rt w)) = (s, Ok r) → kitchen_inv max (set_edge s w <| job := None |>).
Proof.
  intros Hinv Hj Hrun. pose proof Hinv as [I1 I2 I3 I4].
  destruct (finishPrint_run max now x answer (KdsRt.edge (rt w))) as (s' & r' & st & Hrun' & Htx & Hpu & Hst).
  rewrite Hrun in Hrun'. injection Hrun' as <- <-. rewrite I1 in Htx.
  destruct (qi_job _ _ I4 x Hj) as (row & Hrow & Hid & Hps & Hatt). destruct (qi_count _ _ I4 row Hrow) as [Hcount Hmax].
  eapply kitchen_inv_print; [exact Hinv|exact Hpu|done..|].
  apply (queue_inv_update max w _ _ _ _ row) with (1 := I2) (2 := Hrow) (3 := Hid) (4 := Hpu); [..|exact I4]; simpl.
  - rewrite <- Hatt, Hcount, Hid. done.
  - lia.
  - done.
  - by left.
  - intros ts Hts. split; [|exists ts; split; [done|by left]]. intros (t & Ht & Hin)%list_elem_of_fmap.
    destruct (qi_queue _ _ I4 ts Hts) as [_ Hall]. destruct (Hall t Hin) as (r0 & Hr0 & Hi0 & _ & Hp0).
    assert (r0 = row) as -> by (eapply same_id; [apply (wf_ids _ I2)|done|done|congruence]). by rewrite Hps in Hp0.
  - intros y Hy. congruence.
  - destruct Hst as [[-> _]|[[->| ->] _]]; done.
Qed.

Lemma kstep_inv max w w' : 0 <= max → kitchen_inv max w → kstep max w w' → kitchen_inv max w'.
Proof.
  intros Hmax Hinv Hstep. pose proof Hinv as [I1 I2 I3 I4].
  destruct Hstep as [q r' res Hadm Hrun|s snap Hrun|s pending Hq Hrun|now t rest s res Hq Hj Hrun|now x answer s r Hj Hrun|Hq Hj|now s1 l s2 snap Hrec Hsnap].
  - by eapply kstep_request.
  - destruct (resync_view (KdsRt.edge (rt w)) I2) as (snap' & Hrun' & Hview). rewrite Hrun in Hrun'. injection Hrun' as _ <-.
    split; [done|done|exact Hview|]. apply (queue_inv_kept max w); [done| |done..].
    apply (print_kept_rows (λ r, r)); [done|]. symmetry. apply list_fmap_id.
  - destruct I4 as [Q1 Q2 Q3 Q4 Q5]. split; [done|done|done|]. split; [exact Q1|exact Q2|exact Q3| |exact Q5].
    injection Hrun as _ <-. simpl. intros ts [= <-]. rewrite <- list_fmap_compose. split.
    + change (NoDup ((KdsTicketOf.id : KdsTicketRow → string) <$> orderAsc KdsTicketOf.aggregateSequenceNumber
        (filter (λ r, pendingPrint (KdsTicketOf.printStatus r) = true) (KdsDb.kds_tickets (tables w))))).
      rewrite orderAsc_permutation. apply NoDup_fmap_filter. apply (wf_ids _ I2).
    + intros t (r & -> & Hr)%list_elem_of_fmap. rewrite elem_of_orderAsc, list_elem_of_filter in Hr. destruct Hr as [Hp Hr]. by exists r.
  - by eapply kstep_begin.
  - by eapply kstep_finish.
  - destruct I4 as [Q1 Q2 Q3 Q4 Q5]. split; [done|done|done|]. by split.
  - destruct (recover_run now (KdsRt.edge (rt w)) I2) as (s' & l' & Hrec' & Htx & Hkd). rewrite Hrec in Hrec'. injection Hrec' as <- _.
    assert (Hwf : well_formed (kd s1)) by (rewrite Hkd; apply wf_rows; [apply recover_kitchen|done]).
    destruct (resync_view s1 Hwf) as (snap' & Hsnap' & Hview). rewrite Hsnap in Hsnap'. injection Hsnap' as _ <-.
    split; [unfold tables; simpl; by rewrite Htx|done|exact Hview|]. destruct I4 as [Q1 Q2 _ _ _]. split; try done.
    + intros r'. unfold tables; simpl. rewrite Hkd. intros (r & -> & Hr)%list_elem_of_fmap.
      destruct (recover_kitchen now r) as (-> & _). assert (KdsTicketOf.printAttempts (recoverRow now r) = KdsTicketOf.printAttempts r) as -> by (unfold recoverRow; by case_decide).
      by apply Q1.
    + intros i Hi. apply Q2 in Hi. unfold tables, ticketIds in *; simpl. rewrite Hkd. simpl.
      rewrite fmap_key; [exact Hi|]. intros r. apply recover_kitchen.
    + intros r'. unfold tables; simpl. rewrite Hkd. intros (r & -> & Hr)%list_elem_of_fmap. unfold recoverRow. by case_decide.
Qed.

Lemma kitchen_inv_start max : kitchen_inv max start.
Proof.
  split; [done|exact well_formed_empty|done|]. split; simpl; try done; intros ? H; by apply not_elem_of_nil in H.
Qed.

Lemma reachable_inv max w : 0 <= max → kitchen_reachable max w → kitchen_inv max w.
Proof. intros Hmax. apply (rtc_ind_r _ start); [apply kitchen_inv_start|]. intros u v _ Huv Hu. by eapply kstep_inv. Qed.

(** a printed ticket stays printed and is not transmitted again *)
Definition printed_at (i : string) (n : Z) (w : Kitchen.t) : Prop :=
  (∃ r, r ∈ KdsDb.kds_tickets (tables w) ∧ KdsTicketOf.id r = i ∧ KdsTicketOf.printStatus r = PrintJobStatus.PRINTED) ∧ count_sent i w = n.

Lemma printed_kept i n w w' : print_kept (tables w) (tables w') → sent w' = sent w → printed_at i n w → printed_at i n w'.
Proof.
  intros [_ Hfwd] Hs [(r & Hr & Hi & Hp) Hn]. destruct (Hfwd r Hr) as (r' & Hr' & Hi' & Hp' & _). split.
  - exists r'. split_and!; [done|congruence..].
  - unfold count_sent in *. by rewrite Hs.
Qed.

Lemma printed_update i n tid st m w w' :
  print_update tid st m (tables w) (tables w') → i ≠ tid → count_sent i w' = count_sent i w → printed_at i n w → printed_at i n w'.
Proof.
  intros Hpu Hne Hc [(r & Hr & Hi & Hp) Hn]. split; [|congruence]. exists r. split; [|done].
  eapply print_update_rows; [exact Hpu|done|congruence].
Qed.

Lemma kstep_printed max i n w w' : 0 <= max → kitchen_inv max w → kstep max w w' → printed_at i n w → printed_at i n w'.
Proof.
  intros Hmax [I1 I2 I3 I4] Hstep Hpr.
  assert (Hrow : ∀ r, r ∈ KdsDb.kds_tickets (tables w) → KdsTicketOf.id r = i → KdsTicketOf.printStatus r = PrintJobStatus.PRINTED).
  { intros r Hr Hi. destruct Hpr as [(r0 & Hr0 & Hi0 & Hp0) _].
    assert (r = r0) as -> by (eapply same_id; [apply (wf_ids _ I2)|done|done|congruence]). done. }
  destruct Hstep as [q r' res Hadm Hrun|s snap Hrun|s pending Hq Hrun|now t rest s res Hq Hj Hrun|now x answer s r Hj Hrun|Hq Hj|now s1 l s2 snap Hrec Hsnap].
  - apply (printed_kept i n w); [|done|exact Hpr]. apply runKitchen_served in Hrun as (_ & Hres); [|done..]. destruct res as [u|e].
    + destruct Hres as (msgs & Hmove & _). by eapply move_print.
    + destruct Hres as (Hkd & _). apply (print_kept_rows (λ r, r)); [done|]. change (tables (w <| rt := r' |>)) with (kd (KdsRt.edge r')).
      rewrite Hkd. symmetry. apply list_fmap_id.
  - exact Hpr.
  - exact Hpr.
  - destruct (beginPrint_run max now t (KdsRt.edge (rt w))) as (s' & res' & Hrun' & _ & Hres). rewrite Hrun in Hrun'. injection Hrun' as <- <-.
    destruct (qi_queue _ _ I4 _ Hq) as [_ Hall]. destruct (Hall t) as (row & Hin & Hid & _ & Hpend); [by left|].
    assert (Hne : i ≠ KdsTicketOf.id t) by (intros ->; rewrite (Hrow row Hin Hid) in Hpend; done).
    destruct res as [r|x]; [destruct Hres as (_ & [[-> _]|[_ Hpu]])|].
    + exact Hpr.
    + by eapply printed_update; [exact Hpu| | |exact Hpr].
    + destruct Hres as (_ & _ & Hx & _ & Hpu). eapply printed_update; [exact Hpu|done| |exact Hpr].
      rewrite (count_sent_cons _ (Transmission.ticketId x) w) by done. rewrite Hx, decide_False by done. lia.
  - destruct (finishPrint_run max now x answer (KdsRt.edge (rt w))) as (s' & r' & st & Hrun' & _ & Hpu & _). rewrite Hrun in Hrun'. injection Hrun' as <- <-.
    destruct (qi_job _ _ I4 x Hj) as (row & Hin & Hid & Hps & _). eapply printed_update; [exact Hpu| |done|exact Hpr].
    intros ->. rewrite (Hrow row Hin Hid) in Hps. done.
  - exact Hpr.
  - destruct (recover_run now (KdsRt.edge (rt w)) I2) as (s' & l' & Hrec' & _ & Hkd). rewrite Hrec in Hrec'. injection Hrec' as <- _.
    destruct Hpr as [(r & Hr & Hi & Hp) Hn]. split; [|exact Hn]. exists r. split; [|done]. unfold tables; simpl. rewrite Hkd.
    apply list_elem_of_fmap. exists r. split; [|done]. unfold recoverRow. rewrite decide_False; [done|congruence].
Qed.

(** ** Draining the queue *)

Lemma print_update_trans tid st1 n1 st2 n2 d1 d2 d3 :
  print_update tid st1 n1 d1 d2 → print_update tid st2 n2 d2 d3 → print_update tid st2 n2 d1 d3.
Proof.
  intros (f1 & g1 & Hk1 & Hs1 & Hg1 & ->) (f2 & g2 & Hk2 & Hs2 & Hg2 & ->).
  exists (λ r, f2 (f1 r)), (λ p, g2 (g1 p)). split; [|split; [|split]].
  - intros r. destruct (Hk2 (f1 r)) as (-> & -> & -> & -> & -> & -> & ->). apply Hk1.
  - intros r. destruct (Hs2 (f1 r)) as (-> & -> & ->). destruct (Hs1 r) as (_ & _ & ->). done.
  - intros p. destruct (Hg2 (g1 p)) as (-> & -> & ->). apply Hg1.
  - unfold set; simpl. rewrite <- !list_fmap_compose. f_equal. apply list_fmap_ext. intros k r _. simpl. unfold print_row.
    destruct (Hk1 r) as (Hid & _). destruct (decide (KdsTicketOf.id r = tid)) as [Hi|Hi].
    + by rewrite decide_True by congruence.
    + by rewrite decide_False by congruence.
Qed.

Section drain.
Context (max : Z) (now : string).
Hypothesis Hmax : 0 <= max.

Definition unprintable (d : KdsDb.t) (r : KdsTicketRow) : Prop := printer_of d (mapTicket d r) = None.

Lemma attemptPrint_run transport t s : ∃ s' res, attemptPrint transport max now t s = (s', Ok res) ∧
  ((s' = s ∧ max <= KdsTicketOf.printAttempts t ∧ Result.outcome res = MAX_ATTEMPTS_EXCEEDED) ∨
   (printer_of (kd s) t = None ∧ Result.outcome res = NO_PRINTER_ASSIGNED ∧
      print_update (KdsTicketOf.id t) PrintJobStatus.FAILED (KdsTicketOf.printAttempts t) (kd s) (kd s')) ∨
   (KdsTicketOf.printAttempts t < max ∧ is_Some (printer_of (kd s) t) ∧ ∃ st, st ≠ PrintJobStatus.PRINTING ∧
      print_update (KdsTicketOf.id t) st (KdsTicketOf.printAttempts t + 1) (kd s) (kd s'))).
Proof.
  unfold attemptPrint, beginPrint. destruct (Z.leb_spec max (KdsTicketOf.printAttempts t)) as [Hle|Hlt].
  - rewrite bind_ret. eexists _, _. split; [reflexivity|]. by left.
  - rewrite bind_assoc, (bind_run_ok _ _ _ _ _ (resolve_run t s)). destruct (printer_of (kd s) t) as [p|] eqn:Hp.
    + rewrite bind_assoc. edestruct (mark_run now (KdsTicketOf.id t)) as (d & Hrun & Hpu). rewrite (bind_run_ok _ _ _ _ _ Hrun), bind_ret.
      edestruct (finishPrint_run max now) as (s' & r & st & Hfin & _ & Hpu' & Hst). rewrite Hfin. eexists _, _. split; [reflexivity|].
      right; right. split; [done|]. split; [done|]. exists st. split; [destruct Hst as [[-> _]|[[->| ->] _]]; done|].
      by eapply print_update_trans.
    + rewrite bind_assoc. edestruct (mark_run now (KdsTicketOf.id t)) as (d & Hrun & Hpu). rewrite (bind_run_ok _ _ _ _ _ Hrun), bind_ret.
      eexists _, _. split; [reflexivity|]. right; left. done.
Qed.

(** after [n] runs a row is printed, has no printer, or was tried [min max n] times *)
Definition tried (n : Z) (d : KdsDb.t) (r : KdsTicketRow) : Prop :=
  KdsTicketOf.printStatus r ≠ PrintJobStatus.PRINTING ∧
  (KdsTicketOf.printStatus r = PrintJobStatus.PRINTED ∨ unprintable d r ∨ Z.min max n <= KdsTicketOf.printAttempts r).

(** the snapshot entry [t] of row [r] *)
Definition entry (t : KdsTicket) (r : KdsTicketRow) : Prop :=
  KdsTicketOf.id r = KdsTicketOf.id t ∧ KdsTicketOf.printAttempts r = KdsTicketOf.printAttempts t ∧
  KdsTicketOf.printerId r = KdsTicketOf.printerId t ∧ KdsTicketOf.kdsEstacionId r = KdsTicketOf.kdsEstacionId t ∧
  pendingPrint (KdsTicketOf.printStatus r) = true.

Lemma entry_printer d t r : entry t r → printer_of d (mapTicket d r) = printer_of d t.
Proof. intros (_ & _ & Hp & He & _). unfold printer_of. simpl. by rewrite Hp, He. Qed.

Lemma unprintable_update tid st n d d' r : print_update tid st n d d' → unprintable d' r ↔ unprintable d r.
Proof.
  intros Hpu. unfold unprintable. rewrite !eq_None_not_Some. apply not_iff_compat.
  rewrite (print_update_printer_of _ _ _ _ _ _ Hpu). unfold printer_of. done.
Qed.

(** one attempt on the entry [t] of row [r0]: that row has been tried once more, the others stay *)
Definition advanced (n : Z) (t : KdsTicket) (d d' : KdsDb.t) : Prop :=
  well_formed d' ∧
  (∀ r, r ∈ KdsDb.kds_tickets d' → KdsTicketOf.id r = KdsTicketOf.id t → tried (n + 1) d' r) ∧
  (∀ r, KdsTicketOf.id r ≠ KdsTicketOf.id t → r ∈ KdsDb.kds_tickets d' ↔ r ∈ KdsDb.kds_tickets d) ∧
  (∀ r, unprintable d' r ↔ unprintable d r).

Lemma update_advanced n t r0 st k d d' :
  well_formed d → r0 ∈ KdsDb.kds_tickets d → entry t r0 → print_update (KdsTicketOf.id t) st k d d' →
  st ≠ PrintJobStatus.PRINTING → (printer_of d t = None ∨ Z.min max (n + 1) <= k) → advanced n t d d'.
Proof.
  intros Hwf Hr0 Hent Hpu Hst Hk. pose proof Hent as (Hid & Hatt & Hpid & Hest & _).
  pose proof (print_update_rows _ _ _ _ _ Hpu) as (Hb & Ho & _ & _). split; [by eapply print_update_wf|].
  split; [|split; [|intros r; by eapply unprintable_update]].
  - intros r Hr Hri. destruct (Hb r Hr) as [(_ & Hs & Ha)|[_ ?]]; [|done]. split; [congruence|]. rewrite Ha.
    destruct Hk as [Hk|Hk]; [right; left|by right; right].
    pose proof Hpu as (f & g & Hkk & Hss & Hgg & Hd). rewrite Hd in Hr. simpl in Hr. apply list_elem_of_fmap in Hr as (r1 & -> & Hr1).
    unfold print_row in *. case_decide as Hi; [|by destruct Hi].
    assert (r1 = r0) as -> by (eapply same_id; [apply (wf_ids _ Hwf)|done|done|congruence]).
    apply (unprintable_update _ _ _ _ _ _ Hpu). unfold unprintable. rewrite <- Hk. unfold printer_of. simpl.
    destruct (Hss r0) as (_ & _ & ->), (Hkk r0) as (_ & _ & -> & _). by rewrite Hpid, Hest.
  - intros r Hne. split; [|intros Hr; by apply Ho]. intros Hr. by destruct (Hb r Hr) as [[? _]|[? _]].
Qed.

Lemma attempt_advanced transport n t r0 s :
  0 <= n → well_formed (kd s) → r0 ∈ KdsDb.kds_tickets (kd s) → entry t r0 → tried n (kd s) r0 →
  ∃ s' res, attemptPrint transport max now t s = (s', Ok res) ∧ advanced n t (kd s) (kd s') ∧
    (max <= n → Result.outcome res = NO_PRINTER_ASSIGNED ∨ Result.outcome res = MAX_ATTEMPTS_EXCEEDED).
Proof.
  intros Hn Hwf Hr0 Hent [Hnp Htried]. pose proof (entry_printer (kd s) t r0 Hent) as Hpr.
  pose proof Hent as (Hid & Hatt & _ & _ & Hpend).
  destruct (attemptPrint_run transport t s) as (s1 & res & Hrun & Hres). exists s1, res. split; [done|].
  destruct Hres as [(-> & Hle & Ho)|[(Hnone & Ho & Hpu)|(Hlt & Hsome & st & Hst & Hpu)]].
  - split; [|by right]. split; [done|]. split; [|done]. intros r Hr Hri.
    assert (r = r0) as -> by (eapply same_id; [apply (wf_ids _ Hwf)|done|done|congruence]).
    split; [done|]. right; right. rewrite Hatt. lia.
  - split; [|by left]. by eapply update_advanced; [done|exact Hr0|done|exact Hpu|done|left].
  - destruct Htried as [Hp|[Hp|Hp]].
    + rewrite Hp in Hpend. done.
    + unfold unprintable in Hp. rewrite <- Hpr, Hp in Hsome. by destruct Hsome.
    + split; [|lia]. eapply update_advanced; [done|exact Hr0|done|exact Hpu|done|right; lia].
Qed.

Lemma attemptAll_run transport n ts s :
  0 <= n → well_formed (kd s) → NoDup (KdsTicketOf.id <$> ts) →
  (∀ t, t ∈ ts → ∃ r, r ∈ KdsDb.kds_tickets (kd s) ∧ entry t r ∧ tried n (kd s) r) →
  (∀ r, r ∈ KdsDb.kds_tickets (kd s) → KdsTicketOf.id r ∉ (KdsTicketOf.id <$> ts) → tried (n + 1) (kd s) r) →
  ∃ s' rs, attemptAll transport max now ts s = (s', Ok rs) ∧ well_formed (kd s') ∧
    (∀ r, r ∈ KdsDb.kds_tickets (kd s') → tried (n + 1) (kd s') r) ∧
    (max <= n → ∀ x, x ∈ rs → Result.outcome x = NO_PRINTER_ASSIGNED ∨ Result.outcome x = MAX_ATTEMPTS_EXCEEDED).
Proof.
  intros Hn. revert s. induction ts as [|t ts IH]; intros s Hwf Hnd Hts Hother.
  - eexists _, _. split; [reflexivity|]. split; [done|]. split; [|intros _ x Hx; by apply not_elem_of_nil in Hx].
    intros r Hr. apply Hother; [done|]. apply not_elem_of_nil.
  - inversion Hnd as [|? ? Hnin Hnd']; subst. destruct (Hts t) as (r0 & Hr0 & Hent & Htried); [by left|].
    destruct (attempt_advanced transport n t r0 s) as (s1 & res & Hrun & (Hwf1 & Hself & Hsame & Hunp) & Hout); [done..|].
    assert (Htr : ∀ k r, tried k (kd s) r → tried k (kd s1) r).
    { intros k r [H1 H2]. split; [done|]. destruct H2 as [?|[?|?]]; [by left|right; left; by apply Hunp|by right; right]. }
    destruct (IH s1 Hwf1 Hnd') as (s' & rs & Hrun' & Hwf' & Hall & Hmx).
    + intros u Hu. destruct (Hts u) as (r & Hr & He & Ht); [by right|]. exists r. split; [|split; [done|by apply Htr]].
      apply Hsame; [|done]. intros Heq. destruct He as (Hi & _). apply Hnin, list_elem_of_fmap. exists u. split; [congruence|done].
    + intros r Hr Hri. destruct (decide (KdsTicketOf.id r = KdsTicketOf.id t)) as [Heq|Hne]; [by apply Hself|].
      apply Htr, Hother; [by apply Hsame|]. intros [?|?]%elem_of_cons; done.
    + exists s', (res :: rs). split; [|split; [done|split; [done|]]].
      * cbn [attemptAll]. rewrite (bind_run_ok _ _ _ _ _ Hrun), (bind_run_ok _ _ _ _ _ Hrun'). reflexivity.
      * intros Hmn x [->|Hx]%elem_of_cons; [by apply Hout|by apply Hmx].
Qed.

Lemma run_tried transport n s :
  0 <= n → well_formed (kd s) → (∀ r, r ∈ KdsDb.kds_tickets (kd s) → tried n (kd s) r) →
  ∃ s' rs, runPendingQueueOnce transport max now s = (s', Ok rs) ∧ well_formed (kd s') ∧
    (∀ r, r ∈ KdsDb.kds_tickets (kd s') → tried (n + 1) (kd s') r) ∧
    (max <= n → ∀ x, x ∈ rs → Result.outcome x = NO_PRINTER_ASSIGNED ∨ Result.outcome x = MAX_ATTEMPTS_EXCEEDED).
Proof.
  intros Hn Hwf Htried. unfold runPendingQueueOnce, listPendingPrintJobs. rewrite bind_select. cbv beta.
  set (rows := orderAsc KdsTicketOf.aggregateSequenceNumber (filter (λ r, pendingPrint (KdsTicketOf.printStatus r) = true) (KdsDb.kds_tickets (kd s)))).
  assert (Hrows : ∀ r, r ∈ rows ↔ r ∈ KdsDb.kds_tickets (kd s) ∧ pendingPrint (KdsTicketOf.printStatus r) = true).
  { intros r. unfold rows. rewrite elem_of_orderAsc, list_elem_of_filter. tauto. }
  assert (Hids : KdsTicketOf.id <$> (mapTicket (kd s) <$> rows) = (KdsTicketOf.id <$> rows)) by (rewrite <- list_fmap_compose; by apply list_fmap_ext).
  apply attemptAll_run; [done|done| | |].
  - rewrite Hids. unfold rows. rewrite orderAsc_permutation. apply NoDup_fmap_filter. apply (wf_ids _ Hwf).
  - intros t (r & -> & Hr)%list_elem_of_fmap. apply Hrows in Hr as [Hr Hp]. exists r. split; [done|]. split; [done|by apply Htried].
  - intros r Hr Hri. destruct (Htried r Hr) as [Hnp Ht]. split; [done|]. left. rewrite Hids in Hri.
    destruct (pendingPrint (KdsTicketOf.printStatus r)) eqn:Hp; [|by destruct (KdsTicketOf.printStatus r)].
    exfalso. apply Hri, list_elem_of_fmap_2. by apply Hrows.
Qed.

(** [n] runs, one after the other *)
Fixpoint runs (transports : nat → Transmission.t → result string unit) (n : nat) : Tx unit :=
  match n with
  | O => mret tt
  | S k => runs transports k ;; runPendingQueueOnce (transports k) max now ;; mret tt
  end.

Lemma runs_tried transports n s :
  well_formed (kd s) → (∀ r, r ∈ KdsDb.kds_tickets (kd s) → tried 0 (kd s) r) →
  ∃ s', runs transports n s = (s', Ok tt) ∧ well_formed (kd s') ∧
    ∀ r, r ∈ KdsDb.kds_tickets (kd s') → tried (Z.of_nat n) (kd s') r.
Proof.
  intros Hwf H0. induction n as [|n (s1 & Hrun & Hwf1 & Ht1)]; [by exists s|].
  destruct (run_tried (transports n) (Z.of_nat n) s1) as (s2 & rs & Hrun2 & Hwf2 & Ht2 & _); [lia|done|done|].
  exists s2. split; [|split; [done|]].
  - cbn [runs]. rewrite (bind_run_ok _ _ _ _ _ Hrun), (bind_run_ok _ _ _ _ _ Hrun2). reflexivity.
  - by replace (Z.of_nat (S n)) with (Z.of_nat n + 1) by lia.
Qed.
End drain.

(** ** Properties *)

(** C29: the kitchen tables are well formed in every state reached by requests, connections,
    print runs and restarts, as long as every comanda gives its lines identifiers that no
    stored line has ([admissible] in [kstep]; the service does not test it, and serves a comanda
    that breaks this, see [reused_line_id_breaks_the_tables]): ticket and line identifiers are
    unique, every line belongs to a ticket and shows its status, every ticket has a line, a
    positive quantity on each and an existing station, exactly the finished tickets carry
    their completion time and a non-negative preparation time, and the tickets of a station
    are numbered 1, 2, 3, ... in the order they were sent. *)
Theorem kitchen_well_formed max w : 0 <= max → kitchen_reachable max w → well_formed (tables w).
Proof. intros Hmax Hw. by destruct (reachable_inv max w Hmax Hw). Qed.

(** C30: screens agree with the tables.  In every state reached by requests whose comandas
    give their lines identifiers no stored line has ([admissible] in [kstep]), what a screen
    shows for a ticket, from the snapshot it loaded and the messages published since, is what
    the tables hold, for every ticket; it shows nothing else.  A served comanda that reuses a
    line identifier publishes a line the tables do not hold
    ([reused_line_id_breaks_the_tables]). *)
Theorem screens_show_the_tables max w i :
  0 <= max → kitchen_reachable max w → screen (snapshot w) (KdsRt.broadcasts (rt w)) i = kitchen_view (tables w) i.
Proof. intros Hmax Hw. by destruct (reachable_inv max w Hmax Hw) as [_ _ Hs _]. Qed.

(** A ticket is transmitted at most [max] times.  In every reachable state of one runtime
    and its restarts the stored number of attempts of a ticket is the number of
    transmissions started for it, at most [max]; a row says PRINTING only while that
    transmission is under way; and once a row says PRINTED it says so for ever and the
    ticket is never transmitted again. *)
Theorem print_attempts_bounded max w r :
  0 <= max → kitchen_reachable max w → r ∈ KdsDb.kds_tickets (tables w) →
  KdsTicketOf.printAttempts r = count_sent (KdsTicketOf.id r) w ∧ KdsTicketOf.printAttempts r <= max ∧
  (KdsTicketOf.printStatus r = PrintJobStatus.PRINTING → ∃ x, job w = Some x ∧ Transmission.ticketId x = KdsTicketOf.id r) ∧
  (KdsTicketOf.printStatus r = PrintJobStatus.PRINTED → ∀ w', rtc (kstep max) w w' →
     count_sent (KdsTicketOf.id r) w' = count_sent (KdsTicketOf.id r) w ∧
     ∃ r', r' ∈ KdsDb.kds_tickets (tables w') ∧ KdsTicketOf.id r' = KdsTicketOf.id r ∧
       KdsTicketOf.printStatus r' = PrintJobStatus.PRINTED).
Proof.
  intros Hmax Hw Hr. pose proof (reachable_inv max w Hmax Hw) as Hinv. pose proof Hinv as [_ _ _ [Q1 _ Q3 _ _]].
  destruct (Q1 r Hr) as [Hc Hle]. split_and!; [done|done|by apply Q3|]. intros Hp w' Hrtc.
  assert (Hpr : printed_at (KdsTicketOf.id r) (count_sent (KdsTicketOf.id r) w) w) by (split; [by exists r|done]).
  revert Hpr. generalize (count_sent (KdsTicketOf.id r) w) as n. clear Hw Q1 Q3 Hc Hle Hp. intros n Hpr.
  assert (Hend : kitchen_inv max w' ∧ printed_at (KdsTicketOf.id r) n w').
  { clear Hr. induction Hrtc as [w|w u w' Hstep _ IH]; [done|]. apply IH; [by eapply kstep_inv|by eapply kstep_printed]. }
  destruct Hend as [_ [Hex Hn]]. by split.
Qed.

(** C28: the print queue drains.  On well-formed tables with no print in flight, any number
    [n >= max] of runs completes without an error, whatever the printers answer; after it
    every ticket is printed, has no printer, or has used its [max] attempts, and a further
    run transmits nothing. *)
Theorem print_queue_drains max now transports n s :
  0 <= max <= Z.of_nat n → well_formed (kd s) →
  (∀ r, r ∈ KdsDb.kds_tickets (kd s) → KdsTicketOf.printStatus r ≠ PrintJobStatus.PRINTING ∧ 0 <= KdsTicketOf.printAttempts r) →
  ∃ s', runs max now transports n s = (s', Ok tt) ∧
    (∀ r, r ∈ KdsDb.kds_tickets (kd s') → KdsTicketOf.printStatus r = PrintJobStatus.PRINTED ∨
       printer_of (kd s') (mapTicket (kd s') r) = None ∨ max <= KdsTicketOf.printAttempts r) ∧
    ∀ transport, ∃ s'' results, runPendingQueueOnce transport max now s' = (s'', Ok results) ∧
      ∀ x, x ∈ results → Result.outcome x = NO_PRINTER_ASSIGNED ∨ Result.outcome x = MAX_ATTEMPTS_EXCEEDED.
Proof.
  intros [Hmax Hn] Hwf Hrows. destruct (runs_tried max now transports n s Hwf) as (s' & Hrun & Hwf' & Htried).
  { intros r Hr. destruct (Hrows r Hr) as [Hp Ha]. split; [done|]. right; right. lia. }
  exists s'. split; [done|]. split.
  - intros r Hr. destruct (Htried r Hr) as [_ [?|[?|Hm]]]; [by left|by right; left|right; right; lia].
  - intros transport. destruct (run_tried max now transport (Z.of_nat n) s') as (s2 & rs & Hrun2 & _ & _ & Hout); [lia|done..|].
    exists s2, rs. split; [done|]. by apply Hout.
Qed.

(** ** Witnesses: a ticket of two lines, a printer that fails, a restart, a second attempt *)

Definition fresh_check (ids : list string) (d : KdsDb.t) : bool :=
  bool_decide (NoDup ids) && forallb (λ i, bool_decide (i ∉ (KdsPartida.id <$> KdsDb.kds_ticket_partidas d))) ids.
Definition admissible_check (q : KRequest) (d : KdsDb.t) : bool :=
  match q with
  | EnviarComandaACocina _ _ input => fresh_check (EnviarComandaItem.id <$> EnviarComanda.items input) d
  | _ => true
  end.
Lemma admissible_check_ok q d : admissible_check q d = true → admissible q d.
Proof.
  destruct q; try done. simpl. unfold fresh_check. rewrite andb_true_iff, bool_decide_eq_true, forallb_forall.
  intros [Hnd Hall]. split; [done|]. intros i Hi. apply list_elem_of_In in Hi. apply Hall in Hi. by apply bool_decide_eq_true in Hi.
Qed.

(** executable steps *)
Definition do_request (q : KRequest) (w : Kitchen.t) : Kitchen.t :=
  if admissible_check q (tables w) then w <| rt := (runKitchen q (rt w)).1 |> else w.
Definition do_run (w : Kitchen.t) : Kitchen.t :=
  match queue w, listPendingPrintJobs (KdsRt.edge (rt w)) with
  | None, (_, Ok pending) => w <| queue := Some pending |>
  | _, _ => w
  end.
Definition do_begin (max : Z) (w : Kitchen.t) : Kitchen.t :=
  match queue w, job w with
  | Some (t :: rest), None =>
      match beginPrint max "now" t (KdsRt.edge (rt w)) with
      | (s, Ok res) => set_edge s w <| queue := Some rest |>
          <| job := match res with inl _ => None | inr x => Some x end |>
          <| sent ::= match res with inl _ => id | inr x => cons (Transmission.ticketId x) end |>
      | _ => w
      end
  | _, _ => w
  end.
Definition do_finish (max : Z) (answer : result string unit) (w : Kitchen.t) : Kitchen.t :=
  match job w with
  | Some x => match finishPrint max "now" x answer (KdsRt.edge (rt w)) with
      | (s, Ok _) => set_edge s w <| job := None |> | _ => w end
  | None => w
  end.
Definition do_restart (w : Kitchen.t) : Kitchen.t :=
  match recoverInterruptedPrintingJobs "now" (KdsRt.edge (rt w)) with
  | (s1, Ok _) => match getResyncSnapshot s1 with
      | (_, Ok snap) => Kitchen.mk (KdsRt.mk s1 []) snap None None (sent w) | _ => w end
  | _ => w
  end.

Section reach.
Context (max : Z) (w : Kitchen.t) (Hw : kitchen_reachable max w).
Lemma reach_request q : kitchen_reachable max (do_request q w).
Proof.
  unfold do_request. destruct (admissible_check q (tables w)) eqn:E; [|done]. eapply rtc_r; [exact Hw|].
  eapply k_request; [by apply admissible_check_ok|apply surjective_pairing].
Qed.
Lemma reach_run : kitchen_reachable max (do_run w).
Proof.
  unfold do_run. destruct (queue w) eqn:Eq; [done|]. destruct (listPendingPrintJobs _) as [s [l|e]] eqn:E; [|done].
  eapply rtc_r; [exact Hw|]. by eapply k_run.
Qed.
Lemma reach_begin : kitchen_reachable max (do_begin max w).
Proof.
  unfold do_begin. destruct (queue w) as [[|t rest]|] eqn:Eq; [done| |done]. destruct (job w) eqn:Ej; [done|].
  destruct (beginPrint _ _ _ _) as [s [res|e]] eqn:E; [|done]. eapply rtc_r; [exact Hw|]. by eapply k_begin.
Qed.
Lemma reach_finish answer : kitchen_reachable max (do_finish max answer w).
Proof.
  unfold do_finish. destruct (job w) as [x|] eqn:Ej; [|done]. destruct (finishPrint _ _ _ _ _) as [s [r|e]] eqn:E; [|done].
  eapply rtc_r; [exact Hw|]. by eapply k_finish.
Qed.
Lemma reach_restart : kitchen_reachable max (do_restart w).
Proof.
  unfold do_restart. destruct (recoverInterruptedPrintingJobs _ _) as [s1 [l|e]] eqn:E; [|done].
  destruct (getResyncSnapshot s1) as [s2 [snap|e]] eqn:E2; [|done]. eapply rtc_r; [exact Hw|]. by eapply k_restart.
Qed.
End reach.

Definition example_comanda : EnviarComanda.t :=
  EnviarComanda.mk "t1" "c1" "M5" "k1" None
    [EnviarComandaItem.mk "i1" "p1" "Tacos" 20000 None None; EnviarComandaItem.mk "i2" "p2" "Agua" 10000 (Some "sin hielo") None].

Definition kitchen_open : Kitchen.t :=
  do_request (IniciarPreparacion "t2" "t2" "t1" "k1")
    (do_request (EnviarComandaACocina "t1" "t1" example_comanda)
      (do_request (CreatePrinter "t0" "pr1" "Cocina" "10.0.0.5" None (Some "k1"))
        (do_request (CreateEstacion "t0" "k1" "Cocina" KdsEstacionType.COCINA None) start))).
(** the first transmission is cut by a restart, the second succeeds *)
Definition kitchen_printed : Kitchen.t :=
  do_finish 2 (Ok tt) (do_begin 2 (do_run (do_restart (do_begin 2 (do_run kitchen_open))))).

Lemma reach_open : kitchen_reachable 2 kitchen_open.
Proof. unfold kitchen_open. do 4 apply reach_request. apply rtc_refl. Qed.
Lemma reach_printed : kitchen_reachable 2 kitchen_printed.
Proof. apply reach_finish, reach_begin, reach_run, reach_restart, reach_begin, reach_run, reach_open. Qed.

Lemma kitchen_well_formed_witness :
  sequences (tables kitchen_open) "k1" = [1] ∧ well_formed (tables kitchen_open).
Proof. split; [vm_compute; reflexivity|]. apply (kitchen_well_formed 2); [lia|exact reach_open]. Defined.

Lemma screens_show_the_tables_witness :
  (fst <$> screen (snapshot kitchen_open) (KdsRt.broadcasts (rt kitchen_open)) "t1") = Some KdsTicketStatus.EN_PREPARACION.
Proof.
  rewrite (screens_show_the_tables 2 kitchen_open "t1" ltac:(lia) reach_open). vm_compute. reflexivity.
Defined.

(** a second ticket whose only line has the identifier of a line of the first is served; the
    tables store it without a line, the screens show it with one *)
Example reused_line_id_breaks_the_tables :
  let comanda := EnviarComanda.mk "t2" "c1" "M5" "k1" None [EnviarComandaItem.mk "i1" "p3" "Sopa" 10000 None None] in
  let run := runKitchen (EnviarComandaACocina "t3" "t3" comanda) (rt kitchen_open) in
  run.2 = Ok tt ∧ ¬ well_formed (kd (KdsRt.edge run.1)) ∧
  screen (snapshot kitchen_open) (KdsRt.broadcasts run.1) "t2" ≠ kitchen_view (kd (KdsRt.edge run.1)) "t2".
Proof.
  intros comanda run. split; [vm_compute; reflexivity|]. split.
  - intros [_ _ _ Hsome _ _ _]. assert (Hbare : Exists (λ r, Forall (λ p, KdsPartida.kdsTicketId p ≠ KdsTicketOf.id r)
      (KdsDb.kds_ticket_partidas (kd (KdsRt.edge run.1)))) (KdsDb.kds_tickets (kd (KdsRt.edge run.1)))).
    { apply (bool_decide_unpack _). vm_compute. exact I. }
    apply Exists_exists in Hbare as (r & Hr & Hnone). destruct (Hsome r Hr) as (p & Hp & Ht). rewrite Forall_forall in Hnone. by apply (Hnone p Hp).
  - intros H. vm_compute in H. discriminate H.
Qed.

Lemma print_attempts_bounded_witness :
  ∃ r, r ∈ KdsDb.kds_tickets (tables kitchen_printed) ∧ KdsTicketOf.printStatus r = PrintJobStatus.PRINTED ∧
    count_sent (KdsTicketOf.id r) kitchen_printed = 2.
Proof.
  destruct (KdsDb.kds_tickets (tables kitchen_printed)) as [|r [|r2 l]] eqn:E; try (vm_compute in E; discriminate E).
  destruct (print_attempts_bounded 2 kitchen_printed r ltac:(lia) reach_printed ltac:(rewrite E; by left)) as (Hc & _).
  exists r. split; [by left|]. vm_compute in E. injection E as <-. split; [reflexivity|]. rewrite <- Hc. reflexivity.
Defined.

Definition edge_open : Edge.t := Eval vm_compute in KdsRt.edge (rt kitchen_open).
Lemma edge_open_eq : KdsRt.edge (rt kitchen_open) = edge_open.
Proof. vm_compute. reflexivity. Qed.
Lemma reachable_edge max w : 0 <= max → kitchen_reachable max w → well_formed (kd (KdsRt.edge (rt w))).
Proof. intros Hmax Hw. by destruct (reachable_inv max w Hmax Hw). Qed.
Lemma edge_open_wf : well_formed (kd edge_open).
Proof.
  pose proof (reachable_edge 2 kitchen_open Z.le_0_2 reach_open) as Hwf. rewrite edge_open_eq in Hwf. exact Hwf.
Qed.

Lemma print_queue_drains_witness :
  ∃ s', runs 2 "now" (λ _ _, Err "offline") 2 edge_open = (s', Ok tt) ∧
    (KdsTicketOf.printStatus <$> KdsDb.kds_tickets (kd s')) = [PrintJobStatus.FAILED].
Proof.
  assert (Hrows : ∀ r, r ∈ KdsDb.kds_tickets (kd edge_open) →
    KdsTicketOf.printStatus r ≠ PrintJobStatus.PRINTING ∧ 0 <= KdsTicketOf.printAttempts r).
  { intros r ->%list_elem_of_singleton. split; [discriminate|vm_compute; discriminate]. }
  destruct (print_queue_drains 2 "now" (λ _ _, Err "offline") 2 edge_open (conj Z.le_0_2 (Z.le_refl 2)) edge_open_wf Hrows)
    as (s' & Hrun & _).
  exists s'. split; [exact Hrun|].
  assert (Hend : KdsTicketOf.printStatus <$> KdsDb.kds_tickets (kd (runs 2 "now" (λ _ _, Err "offline") 2 edge_open).1)
    = [PrintJobStatus.FAILED]) by (vm_compute; reflexivity).
  rewrite Hrun in Hend. exact Hend.
Defined.
