(* ===== verification/Json.v ===== *)
(** Canonical JSON: packages/core/src/canonicalize.ts.

    A JavaScript value is a tree ([Json]): what the code reads after [toJSON] and the
    unwrapping of boxed primitives.  A tree has no cycle and no shared node to revisit, so
    the [seen] set never refuses one and is left out.  Numbers are the integral ones below
    10^21, which print without an exponent, with NaN and the infinities; a function or a
    symbol is treated by the code as [undefined].  Object members are in property order,
    their keys distinct ([wf_json]). *)
From S2P Require Import Prelude Decimals.
From Stdlib Require Import Ascii String.

#[warnings="-register-all"]
Inductive Json :=
| JUndefined
| JNull
| JBool (b : bool)
| JNumber (n : Z)
| JNaN
| JInfinity
| JBigInt (n : Z)
| JString (s : string)
| JArray (elements : list Json)
| JObject (members : list (string * Json)).

(** ** Strings *)

Definition dquote : string := String "034" "".
Definition backslash : ascii := "092".

Definition hex_digit (n : N) : ascii := ascii_of_N (if (n <? 10)%N then 48 + n else 87 + n)%N.

(** one character of [JSON.stringify(s)] *)
Definition escape (c : ascii) : string :=
  let n := N_of_ascii c in
  if (n =? 34)%N || (n =? 92)%N then String backslash (String c "")
  else if (n =? 8)%N then String backslash "b"
  else if (n =? 9)%N then String backslash "t"
  else if (n =? 10)%N then String backslash "n"
  else if (n =? 12)%N then String backslash "f"
  else if (n =? 13)%N then String backslash "r"
  else if (n <? 32)%N then String backslash ("u00" +:+ String (hex_digit (n / 16)) (String (hex_digit (n mod 16)) ""))
  else String c "".

Fixpoint escapeAll (s : string) : string :=
  match s with EmptyString => EmptyString | String c s' => escape c +:+ escapeAll s' end.

(** [JSON.stringify] on a string *)
Definition quote (s : string) : string := dquote +:+ escapeAll s +:+ dquote.

(* canonicalize.ts:7-7 NEEDS_SLOW_PATH *)
Fixpoint NEEDS_SLOW_PATH (s : string) : bool :=
  match s with
  | EmptyString => false
  | String c s' => let n := N_of_ascii c in (n =? 34)%N || (n =? 92)%N || (n <? 32)%N || NEEDS_SLOW_PATH s'
  end.

(** a string of code units below 256 has no surrogate, so it is well formed *)
(* canonicalize.ts:9-19 serializeString *)
Definition serializeString (value : string) : string :=
  if (String.length value <? 5000)%nat && negb (NEEDS_SLOW_PATH value) then dquote +:+ value +:+ dquote
  else quote value.

(** ** Primitives *)

(** [n.toString()] *)
Definition Z_toString (n : Z) : string :=
  if n <? 0 then "-" +:+ toString (Z.to_N (- n)) else toString (Z.to_N n).

(** [None] is the result [undefined] *)
(* canonicalize.ts:21-40 serializePrimitive *)
Definition serializePrimitive (value : Json) : result JsError (option string) :=
  match value with
  | JNaN => Err (PlainError "NaN is not allowed in RFC 8785 canonical JSON")
  | JInfinity => Err (PlainError "Infinity is not allowed in RFC 8785 canonical JSON")
  | JNumber n | JBigInt n => Ok (Some (Z_toString n))
  | JString s => Ok (Some (serializeString s))
  | JBool b => Ok (Some (if b then "true" else "false"))
  | JNull => Ok (Some "null")
  | _ => Ok None
  end.

(* canonicalize.ts:45-47 sortKeys *)
Definition sortKeys (keys : list string) : list string := orderBy (λ k, k) keys.

(** ** The traversal *)

(* canonicalize.ts:49-55 Frame *)
Inductive Frame :=
| ArrayFrame (container : list Json) (index : nat)
| ObjectFrame (container : list (string * Json)) (keys : list string) (index : nat) (first : bool).

(* canonicalize.ts:57-105 enterValue *)
Definition enterValue (val : Json) : result JsError (option string + Frame) :=
  match val with
  | JArray elements => Ok (inr (ArrayFrame elements 0))
  | JObject members => Ok (inr (ObjectFrame members (sortKeys (fst <$> members)) 0 true))
  | _ => result_map inl (serializePrimitive val)
  end.

Definition opening (f : Frame) : string := match f with ArrayFrame _ _ => "[" | ObjectFrame _ _ _ _ => "{" end.

(** [obj[key]] *)
Definition property (members : list (string * Json)) (key : string) : Json :=
  match list_find (λ m, fst m = key) members with Some (_, (_, v)) => v | None => JUndefined end.

(** one turn of the loops: one element, one member, or the end of the frame on top *)
(* canonicalize.ts:125-199 canonicalize, outer *)
Definition step (text : string) (frame : Frame) (stack : list Frame) : result JsError (string * list Frame) :=
  match frame with
  | ArrayFrame arr index =>
      match arr !! index with
      | None => Ok (text +:+ "]", stack)
      | Some element =>
          let text := if decide (0 < index)%nat then text +:+ "," else text in
          let val := match element with JUndefined => JNull | _ => element end in
          result_map (λ entered, match entered with
            | inl value => (text +:+ default "null" value, ArrayFrame arr (S index) :: stack)
            | inr child => (text +:+ opening child, child :: ArrayFrame arr (S index) :: stack)
            end) (enterValue val)
      end
  | ObjectFrame obj keys index first =>
      match keys !! index with
      | None => Ok (text +:+ "}", stack)
      | Some key =>
          match property obj key with
          | JUndefined => Ok (text, ObjectFrame obj keys (S index) first :: stack)
          | val =>
              result_map (λ entered, match entered with
                | inl None => (text, ObjectFrame obj keys (S index) first :: stack)
                | inl (Some value) =>
                    ((if first then text else text +:+ ",") +:+ serializeString key +:+ ":" +:+ value,
                     ObjectFrame obj keys (S index) false :: stack)
                | inr child =>
                    ((if first then text else text +:+ ",") +:+ serializeString key +:+ ":" +:+ opening child,
                     child :: ObjectFrame obj keys (S index) false :: stack)
                end) (enterValue val)
          end
      end
  end.

(** [while (stack.length > 0)]; [None] when the fuel runs out *)
Fixpoint loop (fuel : nat) (text : string) (stack : list Frame) : option (result JsError string) :=
  match stack with
  | [] => Some (Ok text)
  | frame :: rest =>
      match fuel with
      | O => None
      | S fuel' =>
          match step text frame rest with
          | Err e => Some (Err e)
          | Ok (text', stack') => loop fuel' text' stack'
          end
      end
  end.

(** the turns a value takes once its frame is on the stack *)
Fixpoint turns (v : Json) : nat :=
  match v with
  | JArray elements => S (list_sum ((λ e, S (turns e)) <$> elements))
  | JObject members => S (list_sum ((λ m, S (turns (snd m))) <$> members))
  | _ => O
  end.

(* canonicalize.ts:111-202 canonicalize *)
Definition canonicalize (object : Json) : option (result JsError (option string)) :=
  match enterValue object with
  | Err e => Some (Err e)
  | Ok (inl value) => Some (Ok value)
  | Ok (inr root) => result_map Some <$> loop (turns object) (opening root) [root]
  end.

(** ** The value a text stands for

    Members sorted and [undefined] ones dropped, [undefined] elements read as null, a bigint
    as the number it prints: what parsing the text gives back. *)

Definition elementValue (v : Json) : Json := match v with JUndefined => JNull | _ => v end.

Definition isUndefined (v : Json) : bool := match v with JUndefined => true | _ => false end.

Fixpoint norm (v : Json) : Json :=
  match v with
  | JBigInt n => JNumber n
  | JArray vs => JArray ((λ e, elementValue (norm e)) <$> vs)
  | JObject ms => JObject (filter (λ m, isUndefined (snd m) = false) (orderBy fst ((λ m, (fst m, norm (snd m))) <$> ms)))
  | v => v
  end.
