(* ===== verification/JsonSpec.v ===== *)
(** What [canonicalize] computes: the iterative traversal of Json.v always ends, and equals a
    recursive reference ([canon]); texts determine values up to the order of members
    ([canon_injective]). *)
From S2P Require Import Prelude Decimals Json.
From Stdlib Require Import Ascii String.

(** ** Induction and well-formedness of values *)

Section json_ind.
Context (P : Json → Prop).
Hypothesis (Hatom : ∀ v, match v with JArray _ | JObject _ => False | _ => True end → P v).
Hypothesis (Harr : ∀ vs, Forall P vs → P (JArray vs)).
Hypothesis (Hobj : ∀ ms, Forall (λ m : string * Json, P (snd m)) ms → P (JObject ms)).
Fixpoint json_ind' (v : Json) : P v :=
  match v with
  | JArray vs => Harr vs ((fix go l : Forall P l :=
      match l with [] => Forall_nil_2 _ | x :: l' => Forall_cons_2 _ _ _ (json_ind' x) (go l') end) vs)
  | JObject ms => Hobj ms ((fix go l : Forall (λ m : string * Json, P (snd m)) l :=
      match l with [] => Forall_nil_2 _ | x :: l' => Forall_cons_2 _ _ _ (json_ind' (snd x)) (go l') end) ms)
  | v => Hatom v I
  end.
End json_ind.

(** the keys of an object are distinct, at every depth *)
Fixpoint wf_json (v : Json) : bool :=
  match v with
  | JArray vs => forallb wf_json vs
  | JObject ms => bool_decide (NoDup (fst <$> ms)) && forallb (λ m, wf_json (snd m)) ms
  | _ => true
  end.

Definition isAtom (v : Json) : bool := match v with JArray _ | JObject _ => false | _ => true end.

(** ** The reference *)

(** the texts separated by commas, with a comma before the first when [started] *)
Fixpoint joined (started : bool) (ts : list string) : string :=
  match ts with [] => "" | t :: ts' => (if started then "," else "") +:+ t +:+ joined true ts' end.

Fixpoint elementTexts (l : list (result JsError (option string))) : result JsError (list string) :=
  match l with
  | [] => Ok []
  | r :: l' => result_bind r (λ o, result_map (cons (default "null" o)) (elementTexts l'))
  end.

Definition memberText (k t : string) : string := quote k +:+ ":" +:+ t.

Fixpoint memberTexts (l : list (string * result JsError (option string))) : result JsError (list string) :=
  match l with
  | [] => Ok []
  | (k, r) :: l' => result_bind r (λ o,
      match o with
      | Some t => result_map (cons (memberText k t)) (memberTexts l')
      | None => memberTexts l'
      end)
  end.

(** RFC 8785 on trees: elements in order, members sorted by key, [undefined] members left out *)
Fixpoint canon (v : Json) : result JsError (option string) :=
  match v with
  | JArray vs => result_map (λ ts, Some ("[" +:+ joined false ts +:+ "]")) (elementTexts (canon <$> vs))
  | JObject ms => result_map (λ ts, Some ("{" +:+ joined false ts +:+ "}"))
      (memberTexts (orderBy fst ((λ m, (fst m, canon (snd m))) <$> ms)))
  | v => serializePrimitive v
  end.

(** ** Strings *)

Lemma app_assoc_str (a b c : string) : (a +:+ b) +:+ c = a +:+ (b +:+ c).
Proof. induction a as [|x a IH]; [done|exact (f_equal (String x) IH)]. Qed.
Lemma app_nil_str (a : string) : a +:+ "" = a.
Proof. induction a as [|x a IH]; [done|exact (f_equal (String x) IH)]. Qed.

Lemma escape_plain c : (N_of_ascii c =? 34)%N || (N_of_ascii c =? 92)%N || (N_of_ascii c <? 32)%N = false → escape c = String c "".
Proof.
  rewrite !orb_false_iff. intros [[H1 H2] H3]. unfold escape. rewrite H1, H2. apply N.ltb_ge in H3. simpl.
  repeat match goal with |- context [(N_of_ascii c =? ?n)%N] => destruct (N.eqb_spec (N_of_ascii c) n); [lia|] end.
  by rewrite (proj2 (N.ltb_ge _ _)) by lia.
Qed.

Lemma escapeAll_plain s : NEEDS_SLOW_PATH s = false → escapeAll s = s.
Proof.
  induction s as [|c s IH]; [done|]. simpl. intros H. rewrite orb_false_iff in H. destruct H as [Hc Hs].
  rewrite escape_plain by done. rewrite IH by done. reflexivity.
Qed.

(** the fast path writes what [JSON.stringify] writes *)
Lemma serializeString_quote s : serializeString s = quote s.
Proof.
  unfold serializeString, quote. destruct (_ && negb (NEEDS_SLOW_PATH s)) eqn:H; [|done].
  apply andb_true_iff in H as [_ Hs]. apply negb_true_iff in Hs. by rewrite escapeAll_plain.
Qed.

(** ** Sorted members *)

Lemma orderBy_map {A B} (f : A → B) (key : A → string) (key' : B → string) (l : list A) :
  (∀ x, key' (f x) = key x) → orderBy key' (f <$> l) = f <$> orderBy key l.
Proof.
  intros Hf. induction l as [|x l IH]; [done|]. rewrite fmap_cons. unfold orderBy in *. cbn [foldr].
  rewrite IH. generalize (foldr (insertBy key) [] l) as m. clear -Hf.
  induction m as [|y m IHm]; [done|]. simpl. rewrite !Hf. destruct (String.leb _ _); [done|]. simpl. f_equal. exact IHm.
Qed.

Lemma property_in ms k v : NoDup (fst <$> ms) → (k, v) ∈ ms → property ms k = v.
Proof.
  intros Hnd Hin. unfold property. destruct (list_find _ ms) as [[i [k' v']]|] eqn:Hf.
  - apply list_find_Some in Hf as (Hi & Hk & _). simpl in Hk. subst k'. apply list_elem_of_lookup in Hin as [j Hj].
    assert (i = j) as ->; [|congruence]. eapply (NoDup_lookup _ _ _ k Hnd); rewrite list_lookup_fmap; [by rewrite Hi|by rewrite Hj].
  - apply list_find_None in Hf. rewrite Forall_forall in Hf. by specialize (Hf _ Hin).
Qed.

(** ** The traversal computes the reference *)

Definition jspair (m : string * Json) : string * result JsError (option string) := (fst m, canon (snd m)).

Lemma enterValue_atom v : isAtom v = true → enterValue v = result_map inl (canon v).
Proof. by destruct v. Qed.

Lemma canon_container v : isAtom v = false → canon v ≠ Ok None.
Proof. destruct v; simpl; try done; intros _; [destruct (elementTexts _)|destruct (memberTexts _)]; done. Qed.

(** what the loop does with the frame of a container on top of the stack *)
Definition runs_value (v : Json) : Prop :=
  wf_json v = true → isAtom v = false →
  ∃ frame, enterValue v = Ok (inr frame) ∧
  ∀ text rest n,
    loop (turns v + n) (text +:+ opening frame) (frame :: rest) =
      match canon v with
      | Ok t => loop n (text +:+ default "null" t) rest
      | Err e => Some (Err e)
      end.

Lemma drop_head {A} i (l : list A) x l' : drop i l = x :: l' → l !! i = Some x.
Proof. intros H. pose proof (lookup_drop l i 0) as Hl. rewrite H, Nat.add_0_r in Hl. done. Qed.
Lemma drop_tail {A} i (l : list A) x l' : drop i l = x :: l' → drop (S i) l = l'.
Proof. intros H. rewrite <- Nat.add_1_r, <- drop_drop, H. done. Qed.

Lemma loop_step n text frame rest :
  loop (S n) text (frame :: rest) =
    match step text frame rest with Err e => Some (Err e) | Ok (text', stack') => loop n text' stack' end.
Proof. done. Qed.

Definition arr_turns (vs : list Json) : nat := list_sum ((λ e, S (turns e)) <$> vs).

Lemma element_text v : result_map (default "null") (canon (elementValue v)) = result_map (default "null") (canon v).
Proof. by destruct v. Qed.

Lemma turns_element v : turns (elementValue v) = turns v.
Proof. by destruct v. Qed.

Lemma loop_array vs : Forall runs_value vs → Forall (λ v, wf_json v = true) vs →
  ∀ arr i text rest n, drop i arr = vs →
  loop (S (arr_turns vs) + n) text (ArrayFrame arr i :: rest) =
    match elementTexts (canon <$> vs) with
    | Ok ts => loop n (text +:+ joined (bool_decide (0 < i)%nat) ts +:+ "]") rest
    | Err e => Some (Err e)
    end.
Proof.
  intros Hrun Hwf. induction vs as [|v vs IH]; intros arr i text rest n Hdrop.
  - cbn [loop Nat.add step]. assert (arr !! i = None) as ->; [|done].
    apply lookup_ge_None_2. apply (f_equal (@List.length Json)) in Hdrop. rewrite length_drop in Hdrop. simpl in Hdrop. lia.
  - inversion Hrun as [|? ? Hv Hvs]; subst. inversion Hwf as [|? ? Hw Hws]; subst.
    assert (Hi : arr !! i = Some v) by by eapply drop_head.
    assert (Hdrop' : drop (S i) arr = vs) by by eapply drop_tail.
    specialize (IH Hvs Hws arr (S i)). change (arr_turns (v :: vs)) with (S (turns v) + arr_turns vs)%nat.
    replace (S (S (turns v) + arr_turns vs) + n)%nat with (S (turns v + (S (arr_turns vs) + n))) by lia.
    rewrite loop_step. unfold step. rewrite Hi. fold (elementValue v).
    set (text' := if decide (0 < i)%nat then text +:+ "," else text).
    assert (Htext : ∀ t ts, text' +:+ t +:+ joined true ts = text +:+ joined (bool_decide (0 < i)%nat) (t :: ts)).
    { intros t ts. unfold text'. destruct (decide (0 < i)%nat); [rewrite bool_decide_eq_true_2 by done|rewrite bool_decide_eq_false_2 by done];
        cbn [joined]; [by rewrite app_assoc_str|done]. }
    rewrite bool_decide_eq_true_2 in IH by lia. rewrite fmap_cons. cbn [elementTexts].
    destruct (isAtom v) eqn:Hatom.
    + rewrite enterValue_atom by by destruct v. pose proof (element_text v) as Het.
      destruct (canon (elementValue v)) as [o'|e'], (canon v) as [o|e]; simpl in Het; try discriminate Het; cbn [result_map result_bind].
      * injection Het as Het. rewrite Het. assert (turns v = 0%nat) as -> by by destruct v.
        change (0 + (S (arr_turns vs) + n))%nat with (S (arr_turns vs) + n)%nat. rewrite IH by done.
        destruct (elementTexts (canon <$> vs)) as [ts|e]; [|done]. cbn [result_map].
        rewrite <- (app_assoc_str text (joined _ _)), <- Htext. by rewrite !app_assoc_str.
      * by injection Het as ->.
    + assert (elementValue v = v) as -> by by destruct v. destruct (Hv Hw Hatom) as (frame & -> & Hloop).
      cbn [result_map]. rewrite Hloop. pose proof (canon_container v Hatom) as Hc. destruct (canon v) as [[t|]|e]; [|done|done].
      cbn [result_bind default]. rewrite IH by done. destruct (elementTexts (canon <$> vs)) as [ts|e]; [|done].
      cbn [result_map]. rewrite <- (app_assoc_str text (joined _ _)), <- Htext. by rewrite !app_assoc_str.
Qed.

Definition obj_turns (ms : list (string * Json)) : nat := list_sum ((λ m, S (turns (snd m))) <$> ms).

Lemma loop_object obj ms : Forall (λ m, runs_value (snd m)) ms → Forall (λ m, wf_json (snd m) = true) ms →
  ∀ keys i first text rest n, drop i keys = fst <$> ms → (∀ m, m ∈ ms → property obj (fst m) = snd m) →
  loop (S (obj_turns ms) + n) text (ObjectFrame obj keys i first :: rest) =
    match memberTexts (jspair <$> ms) with
    | Ok ts => loop n (text +:+ joined (negb first) ts +:+ "}") rest
    | Err e => Some (Err e)
    end.
Proof.
  intros Hrun Hwf. induction ms as [|[k v] ms IH]; intros keys i first text rest n Hdrop Hprop.
  - cbn [loop Nat.add step]. assert (keys !! i = None) as ->; [|done].
    apply lookup_ge_None_2. apply (f_equal (@List.length string)) in Hdrop. rewrite length_drop in Hdrop. simpl in Hdrop. lia.
  - inversion Hrun as [|? ? Hv Hvs]; subst. inversion Hwf as [|? ? Hw Hws]; subst. simpl in Hv, Hw.
    assert (Hi : keys !! i = Some k) by by eapply drop_head.
    assert (Hdrop' : drop (S i) keys = fst <$> ms) by by eapply drop_tail.
    assert (Hpk : property obj k = v) by (apply (Hprop (k, v)); by left).
    specialize (IH Hvs Hws keys (S i)).
    assert (Hprop' : ∀ m, m ∈ ms → property obj (fst m) = snd m) by (intros m Hm; apply Hprop; by right).
    change (obj_turns ((k, v) :: ms)) with (S (turns v) + obj_turns ms)%nat.
    replace (S (S (turns v) + obj_turns ms) + n)%nat with (S (turns v + (S (obj_turns ms) + n))) by lia.
    rewrite loop_step. unfold step. rewrite Hi, Hpk. rewrite fmap_cons. change (jspair (k, v)) with (k, canon v). cbn [memberTexts].
    set (text' := if first then text else text +:+ ",").
    assert (Htext : ∀ t ts, text' +:+ t +:+ joined true ts = text +:+ joined (negb first) (t :: ts)).
    { intros t ts. unfold text'. destruct first; cbn [joined negb]; [done|by rewrite app_assoc_str]. }
    destruct (isAtom v) eqn:Hatom.
    + assert (turns v = 0%nat) as Ht by by destruct v. rewrite Ht. change (0 + (S (obj_turns ms) + n))%nat with (S (obj_turns ms) + n)%nat.
      destruct v; try discriminate Hatom; cbn [enterValue serializePrimitive result_map result_bind canon];
        try (rewrite serializeString_quote); try done;
        try (by rewrite IH by done);
        (rewrite IH by done; destruct (memberTexts (jspair <$> ms)) as [ts|e]; [|done]; cbn [result_map];
         rewrite <- (app_assoc_str text (joined _ _)), <- Htext; unfold memberText; by rewrite ?serializeString_quote, !app_assoc_str).
    + destruct (Hv Hw Hatom) as (frame & Hent & Hloop). pose proof (canon_container v Hatom) as Hc.
      destruct v; try discriminate Hatom; rewrite Hent; cbn [result_map];
        (replace (text' +:+ serializeString k +:+ ":" +:+ opening frame) with ((text' +:+ serializeString k +:+ ":") +:+ opening frame)
           by by rewrite !app_assoc_str);
        rewrite Hloop; destruct (canon _) as [[t|]|e]; try done; cbn [result_bind default];
        rewrite IH by done; destruct (memberTexts (jspair <$> ms)) as [ts|e]; try done; cbn [result_map];
        rewrite <- (app_assoc_str text (joined _ _)), <- Htext; unfold memberText; by rewrite serializeString_quote, !app_assoc_str.
Qed.

Lemma sum_turns_perm (ms ms' : list (string * Json)) : ms ≡ₚ ms' → obj_turns ms = obj_turns ms'.
Proof.
  intros H. unfold obj_turns. assert (Hp : (λ m, S (turns (snd m))) <$> ms ≡ₚ (λ m, S (turns (snd m))) <$> ms') by by rewrite H.
  induction Hp; simpl in *; lia.
Qed.

Lemma loop_value v : runs_value v.
Proof.
  induction v as [v Hv|vs IH|ms IH] using json_ind'; intros Hwf Hatom.
  - by destruct v.
  - eexists. split; [reflexivity|]. intros text rest n. simpl in Hwf.
    change (turns (JArray vs)) with (S (arr_turns vs)). change (opening (ArrayFrame vs 0)) with "[".
    rewrite (loop_array vs IH); [|by apply Forall_forall; intros x Hx%list_elem_of_In; rewrite forallb_forall in Hwf; apply Hwf|done].
    cbn [canon]. destruct (elementTexts _) as [ts|e]; [|done]. cbn [result_map default].
    rewrite bool_decide_eq_false_2 by lia. by rewrite !app_assoc_str.
  - simpl in Hwf. apply andb_true_iff in Hwf as [Hnd Hwf]. apply bool_decide_eq_true in Hnd.
    eexists. split; [reflexivity|]. intros text rest n. cbn [opening].
    change (turns (JObject ms)) with (S (obj_turns ms)).
    pose proof (orderBy_permutation fst ms) as Hperm. rewrite (sum_turns_perm ms (orderBy fst ms)) by by rewrite Hperm.
    assert (Hin : ∀ m, m ∈ orderBy fst ms → m ∈ ms) by (intros m; by rewrite elem_of_orderBy).
    rewrite (loop_object ms (orderBy fst ms)).
    + cbn [canon]. change (λ m, (fst m, canon (snd m))) with jspair. rewrite (orderBy_map jspair fst fst) by done.
      destruct (memberTexts _) as [ts|e]; [|done]. cbn [result_map default negb]. by rewrite !app_assoc_str.
    + apply Forall_forall. intros m Hm. rewrite Forall_forall in IH. by apply IH, Hin.
    + apply Forall_forall. intros m Hm. rewrite forallb_forall in Hwf. by apply Hwf, list_elem_of_In, Hin.
    + unfold sortKeys. simpl. apply (orderBy_map fst fst (λ k, k)). done.
    + intros [k v] Hm. apply property_in; [done|]. by apply Hin.
Qed.

Lemma canonicalize_canon v : wf_json v = true → canonicalize v = Some (canon v).
Proof.
  intros Hwf. unfold canonicalize. destruct (isAtom v) eqn:Hatom.
  - rewrite enterValue_atom by done. by destruct (canon v).
  - destruct (loop_value v Hwf Hatom) as (frame & -> & Hloop). specialize (Hloop "" [] 0%nat).
    rewrite Nat.add_0_r in Hloop. change ("" +:+ opening frame) with (opening frame) in Hloop. rewrite Hloop.
    pose proof (canon_container v Hatom). destruct (canon v) as [[t|]|e]; done.
Qed.

(** ** Texts determine values *)

(** the values [norm] gives when no number is refused *)
Fixpoint normal (v : Json) : bool :=
  match v with
  | JNull | JBool _ | JNumber _ | JString _ => true
  | JArray vs => forallb normal vs
  | JObject ms => forallb (λ m, normal (snd m)) ms
  | _ => false
  end.

Fixpoint text (v : Json) : string :=
  match v with
  | JNull => "null"
  | JBool b => if b then "true" else "false"
  | JNumber n => Z_toString n
  | JString s => quote s
  | JArray vs => "[" +:+ joined false (text <$> vs) +:+ "]"
  | JObject ms => "{" +:+ joined false ((λ m, memberText (fst m) (text (snd m))) <$> ms) +:+ "}"
  | _ => ""
  end.

(** [undefined] has no text; every other value has that of its normal form *)
Definition reads (v : Json) : Prop := ∀ o, canon v = Ok o →
  match o with
  | None => norm v = JUndefined
  | Some t => normal (norm v) = true ∧ t = text (norm v)
  end.

Lemma reads_elements vs ts : Forall reads vs → elementTexts (canon <$> vs) = Ok ts →
  forallb normal ((λ e, elementValue (norm e)) <$> vs) = true ∧ ts = text <$> ((λ e, elementValue (norm e)) <$> vs).
Proof.
  intros Hvs. revert ts. induction Hvs as [|v vs Hv _ IH]; intros ts; cbn; [by intros [= <-]|].
  destruct (canon v) as [o|e] eqn:Hc; [|done]. cbn [result_bind]. destruct (elementTexts _) as [ts'|e] eqn:Hts; [|done].
  intros [= <-]. destruct (IH ts' eq_refl) as [Hn ->]. specialize (Hv o Hc). destruct o as [t|].
  - destruct Hv as [Hnv ->]. assert (elementValue (norm v) = norm v) as -> by by destruct (norm v). by rewrite Hnv.
  - rewrite Hv. cbn. by split.
Qed.

Lemma reads_members (ms : list (string * Json)) ts : Forall (λ m, reads (snd m)) ms → memberTexts (jspair <$> ms) = Ok ts →
  let ns := filter (λ m, isUndefined (snd m) = false) ((λ m, (fst m, norm (snd m))) <$> ms) in
  forallb (λ m, normal (snd m)) ns = true ∧ ts = (λ m, memberText (fst m) (text (snd m))) <$> ns.
Proof.
  intros Hms. revert ts. induction Hms as [|[k v] ms Hv _ IH]; intros ts; cbn [fmap list_fmap memberTexts]; [by intros [= <-]|].
  change (jspair (k, v)) with (k, canon v). cbn [memberTexts fst snd]. rewrite filter_cons. cbn [fst snd] in *.
  destruct (canon v) as [o|e] eqn:Hc; [|done]. cbn [result_bind]. specialize (Hv o Hc). destruct o as [t|].
  - destruct (memberTexts _) as [ts'|e] eqn:Hts; [|done]. intros [= <-]. destruct (IH ts' eq_refl) as [Hn ->].
    destruct Hv as [Hnv ->]. rewrite decide_True by by destruct (norm v). cbn. by rewrite Hnv.
  - intros Hts. rewrite Hv, decide_False by done. by apply IH.
Qed.

Lemma canon_reads v : reads v.
Proof.
  induction v as [v Hv|vs IH|ms IH] using json_ind'.
  - intros o. destruct v; try done; cbn; intros [= <-]; rewrite ?serializeString_quote; done.
  - intros o. cbn. destruct (elementTexts _) as [ts|e] eqn:Hts; [|done]. intros [= <-].
    destruct (reads_elements vs ts IH Hts) as [Hn ->]. done.
  - intros o. cbn [canon]. change (λ m, (fst m, canon (snd m))) with jspair. rewrite (orderBy_map jspair fst fst) by done.
    destruct (memberTexts _) as [ts|e] eqn:Hts; [|done]. intros [= <-].
    assert (Hall : Forall (λ m, reads (snd m)) (orderBy fst ms)).
    { apply Forall_forall. intros m Hm%elem_of_orderBy. rewrite Forall_forall in IH. by apply IH. }
    destruct (reads_members _ ts Hall Hts) as [Hn ->]. cbn [norm normal text].
    rewrite (orderBy_map (λ m : string * Json, (fst m, norm (snd m))) fst fst) by done. by split.
Qed.

(** *** Reading back *)

Lemma app_inv_head_str (a b c : string) : a +:+ b = a +:+ c → b = c.
Proof. induction a as [|x a IH]; [done|]. intros H. injection H as H. by apply IH. Qed.

Definition chars : list ascii := ascii_of_nat <$> seq 0 256.
Lemma elem_of_chars c : c ∈ chars.
Proof.
  apply list_elem_of_fmap. exists (nat_of_ascii c). rewrite ascii_nat_embedding. split; [done|].
  apply elem_of_seq. pose proof (nat_ascii_bounded c). lia.
Qed.

Definition escape_code : bool :=
  forallb (λ c, forallb (λ d, negb (String.prefix (escape c) (escape d)) || bool_decide (c = d)) chars) chars &&
  forallb (λ c, negb (String.prefix dquote (escape c)) && negb (bool_decide (escape c = ""))) chars.
Lemma escape_code_ok : escape_code = true.
Proof. vm_compute. reflexivity. Qed.

Lemma prefix_or (a b x y : string) : a +:+ x = b +:+ y → String.prefix a b = true ∨ String.prefix b a = true.
Proof.
  revert b. induction a as [|c a IH]; intros [|d b] H; [by left|by left|by right|]. injection H as -> H.
  destruct (IH b H) as [Hp|Hp]; [left|right]; simpl; rewrite Hp; by destruct (ascii_dec d d).
Qed.

Lemma escape_inj c d x y : escape c +:+ x = escape d +:+ y → c = d ∧ x = y.
Proof.
  intros H. pose proof escape_code_ok as Hok. apply andb_true_iff in Hok as [Hok _].
  assert (Hcd : ∀ c d, String.prefix (escape c) (escape d) = true → c = d).
  { intros c0 d0 Hp. rewrite forallb_forall in Hok. specialize (Hok c0 (proj1 (list_elem_of_In _ _) (elem_of_chars c0))).
    rewrite forallb_forall in Hok. specialize (Hok d0 (proj1 (list_elem_of_In _ _) (elem_of_chars d0))).
    rewrite Hp in Hok. simpl in Hok. by apply bool_decide_eq_true in Hok. }
  assert (c = d) as ->. { apply prefix_or in H as [H|H]; apply Hcd in H; done. }
  split; [done|]. by apply app_inv_head_str in H.
Qed.

Lemma escape_quote c x y : escape c +:+ x ≠ dquote +:+ y.
Proof.
  intros H. pose proof escape_code_ok as Hok. apply andb_true_iff in Hok as [_ Hok]. rewrite forallb_forall in Hok.
  specialize (Hok c (proj1 (list_elem_of_In _ _) (elem_of_chars c))). apply andb_true_iff in Hok as [H1 H2].
  destruct (escape c) as [|a e] eqn:He; [done|]. injection H as -> _. simpl in H1. by destruct e.
Qed.

Lemma quote_inj s s' x y : quote s +:+ x = quote s' +:+ y → s = s' ∧ x = y.
Proof.
  unfold quote. rewrite !app_assoc_str. intros H%app_inv_head_str. revert s' H.
  induction s as [|c s IH]; intros [|c' s'] H; cbn [escapeAll] in H.
  - change (dquote +:+ x = dquote +:+ y) in H. by apply app_inv_head_str in H.
  - exfalso. change (dquote +:+ x = (escape c' +:+ escapeAll s') +:+ dquote +:+ y) in H. rewrite app_assoc_str in H. by apply (escape_quote c' (escapeAll s' +:+ dquote +:+ y) x).
  - exfalso. change ((escape c +:+ escapeAll s) +:+ dquote +:+ x = dquote +:+ y) in H. rewrite app_assoc_str in H. by apply (escape_quote c (escapeAll s +:+ dquote +:+ x) y).
  - rewrite !app_assoc_str in H. apply escape_inj in H as [-> H]. by destruct (IH s' H) as [-> ->].
Qed.

(** what follows a number in a text *)
Definition delimited (r : string) : Prop := ∀ c r', r = String c r' → is_digit c = false.

Lemma toString_split n r : delimited r → span_digits (toString n +:+ r) = (toString n, r).
Proof. intros Hr. apply span_digits_app; [apply toString_digits|exact Hr]. Qed.

Lemma toString_head n : ∃ c s, toString n = String c s ∧ is_digit c = true.
Proof.
  destruct (toString n) as [|c s] eqn:E; [by apply toString_nonempty in E|]. exists c, s. split; [done|].
  pose proof (toString_digits n) as Hd. rewrite E in Hd. simpl in Hd. by apply andb_true_iff in Hd as [? _].
Qed.

Lemma toString_inj n m x y : delimited x → delimited y → toString n +:+ x = toString m +:+ y → n = m ∧ x = y.
Proof.
  intros Hx Hy H. pose proof (toString_split n x Hx) as H1. rewrite H, toString_split in H1 by done.
  injection H1 as Hnm <-. split; [|done]. pose proof (BigInt_toString n) as Hn. rewrite <- Hnm, BigInt_toString in Hn. congruence.
Qed.

Lemma toString_no_sign n x r : toString n +:+ x ≠ String "-" r.
Proof. destruct (toString_head n) as (c & s & -> & Hc). intros [= -> _]. done. Qed.

Lemma Z_toString_inj n m x y : delimited x → delimited y → Z_toString n +:+ x = Z_toString m +:+ y → n = m ∧ x = y.
Proof.
  intros Hx Hy. unfold Z_toString. destruct (Z.ltb_spec n 0), (Z.ltb_spec m 0); rewrite ?app_assoc_str; intros Heq.
  - injection Heq as Heq. apply toString_inj in Heq as [Heq ->]; [|done..]. split; [lia|done].
  - symmetry in Heq. by apply toString_no_sign in Heq.
  - by apply toString_no_sign in Heq.
  - apply toString_inj in Heq as [Heq ->]; [|done..]. split; [lia|done].
Qed.

(** the first character of a text tells what kind of value it is *)
Definition kindOf (v : Json) : nat :=
  match v with JNull => 1 | JBool true => 2 | JBool false => 3 | JNumber _ => 4 | JString _ => 5 | JArray _ => 6 | JObject _ => 7 | _ => 0 end.
Definition kindOfChar (c : ascii) : nat :=
  if bool_decide (c = "n"%char) then 1 else if bool_decide (c = "t"%char) then 2 else if bool_decide (c = "f"%char) then 3
  else if bool_decide (c = "034"%char) then 5 else if bool_decide (c = "["%char) then 6 else if bool_decide (c = "{"%char) then 7
  else if bool_decide (c = "-"%char) || is_digit c then 4 else 0.

Lemma digit_kind c : is_digit c = true → kindOfChar c = 4%nat.
Proof. intros Hc. unfold kindOfChar. repeat (case_bool_decide; [subst; discriminate Hc|]). by rewrite Hc, orb_true_r. Qed.

Lemma text_head v : normal v = true → ∃ c s, text v = String c s ∧ kindOfChar c = kindOf v.
Proof.
  destruct v; try discriminate; intros _; cbn [text kindOf].
  - by eexists _, _.
  - destruct b; by eexists _, _.
  - unfold Z_toString. destruct (n <? 0); [by eexists _, _|]. destruct (toString_head (Z.to_N n)) as (c & s & -> & Hc).
    exists c, s. split; [done|]. by apply digit_kind.
  - by eexists _, _.
  - by eexists _, _.
  - by eexists _, _.
Qed.

Lemma same_kind v w x y : normal v = true → normal w = true → text v +:+ x = text w +:+ y → kindOf v = kindOf w.
Proof.
  intros Hv Hw. destruct (text_head v Hv) as (c & s & -> & <-), (text_head w Hw) as (d & s' & -> & <-). by intros [= -> _].
Qed.

Definition reads_back (v : Json) : Prop := ∀ w x y, normal v = true → normal w = true → delimited x → delimited y →
  text v +:+ x = text w +:+ y → v = w ∧ x = y.

Lemma delimited_char c r : is_digit c = false → delimited (String c r).
Proof. by intros Hc d r' [= <- <-]. Qed.

Lemma delimited_joined ts c r : is_digit c = false → delimited (joined true ts +:+ String c r).
Proof. intros Hc. destruct ts as [|t ts]; [by apply delimited_char|]. by apply delimited_char. Qed.

(** a list of texts, each of which can be told from what follows, up to a closing character *)
Section joined_inj.
Context {A : Type} (f : A → string) (close : ascii).
Hypothesis close_digit : is_digit close = false.
Hypothesis close_comma : close ≠ ","%char.
Lemma joined_inj (P Q : A → Prop) l :
  (∀ a, Q a → ∃ c s, f a = String c s ∧ c ≠ close) → (∀ a, P a → ∃ c s, f a = String c s ∧ c ≠ close) →
  Forall (λ a, ∀ b x y, Q b → delimited x → delimited y → f a +:+ x = f b +:+ y → a = b ∧ x = y) l → Forall P l →
  ∀ l' started x y, Forall Q l' →
  joined started (f <$> l) +:+ String close x = joined started (f <$> l') +:+ String close y → l = l' ∧ x = y.
Proof.
  intros HQ HP Hinj Hl. induction Hinj as [|a l Ha _ IH]; intros [|b l'] started x y Hl' H.
  - change (String close x = String close y) in H. by injection H as ->.
  - exfalso. inversion Hl' as [|? ? Hb _]; subst. destruct (HQ b Hb) as (c & s & Hc & Hne).
    rewrite fmap_cons in H. cbn [joined] in H. rewrite Hc in H. destruct started; injection H; intros; congruence.
  - exfalso. inversion Hl as [|? ? Hb _]; subst. destruct (HP a Hb) as (c & s & Hc & Hne).
    rewrite fmap_cons in H. cbn [joined] in H. rewrite Hc in H. destruct started; injection H; intros; congruence.
  - inversion Hl' as [|? ? Hb Hl'']; subst. inversion Hl as [|? ? Hpa Hl0]; subst.
    rewrite !fmap_cons in H. cbn [joined] in H. rewrite !app_assoc_str in H. apply app_inv_head_str in H.
    apply Ha in H as [-> H]; [|done|by apply delimited_joined..].
    destruct (IH Hl0 l' true x y Hl'' H) as [-> ->]. done.
Qed.
End joined_inj.

Lemma forallb_Forall {A} (p : A → bool) l : forallb p l = true ↔ Forall (λ x, p x = true) l.
Proof. rewrite forallb_forall, Forall_forall. by setoid_rewrite list_elem_of_In. Qed.

Lemma text_not_closing v c : normal v = true → kindOfChar c = 0%nat → ∃ d s, text v = String d s ∧ d ≠ c.
Proof.
  intros Hv Hc. destruct (text_head v Hv) as (d & s & Hd & Hk). exists d, s. split; [done|]. intros ->.
  rewrite Hk in Hc. destruct v; try discriminate; by destruct b.
Qed.

Lemma text_reads_back v : reads_back v.
Proof.
  induction v as [v Hv|vs IH|ms IH] using json_ind'; intros w x y Nv Nw Hx Hy H;
    pose proof (same_kind _ _ _ _ Nv Nw H) as Hk.
  - destruct v as [| |[]|n| | |n|s|l|l]; try done; destruct w as [| |[]|m| | |m|s'|l'|l']; try done.
    1-3: by apply app_inv_head_str in H.
    + by apply Z_toString_inj in H as [-> ->].
    + by apply quote_inj in H as [-> ->].
  - destruct w as [| |[]| | | | | |ws|]; try discriminate. cbn [text] in H. rewrite !app_assoc_str in H. apply app_inv_head_str in H.
    cbn [normal] in Nv, Nw. rewrite forallb_Forall in Nv, Nw.
    apply (joined_inj text "]" eq_refl ltac:(done) (λ v, normal v = true) (λ v, normal v = true)) in H as [-> ->]; try done.
    + intros a Ha. by apply text_not_closing.
    + intros a Ha. by apply text_not_closing.
    + apply Forall_forall. intros a Ha b x' y' Nb Dx Dy Heq. rewrite Forall_forall in IH, Nv. by apply (IH a Ha); [apply Nv|..].
  - destruct w as [| |[]| | | | | | |ws]; try discriminate. cbn [text] in H. rewrite !app_assoc_str in H. apply app_inv_head_str in H.
    cbn [normal] in Nv, Nw. rewrite forallb_Forall in Nv, Nw.
    assert (Hhead : ∀ m : string * Json, ∃ c s, memberText (fst m) (text (snd m)) = String c s ∧ c ≠ "}"%char) by (intros m; by eexists _, _).
    apply (joined_inj (λ m, memberText (fst m) (text (snd m))) "}" eq_refl ltac:(done)
      (λ m, normal (snd m) = true) (λ m, normal (snd m) = true)) in H as [-> ->]; try done.
    apply Forall_forall. intros [k a] Ha [k' b] x' y' Nb Dx Dy Heq. rewrite Forall_forall in IH, Nv.
    unfold memberText in Heq. simpl in Heq. rewrite !app_assoc_str in Heq. apply quote_inj in Heq as [-> Heq]. apply app_inv_head_str in Heq.
    destruct (IH (k', a) Ha b x' y') as [Hab ->]; [by apply (Nv (k', a))|done..|]. simpl in Hab. by subst b.
Qed.

(** equal texts stand for equal values *)
Lemma canon_injective v w t : canon v = Ok (Some t) → canon w = Ok (Some t) → norm v = norm w.
Proof.
  intros Hv Hw. destruct (canon_reads v _ Hv) as [Nv Tv], (canon_reads w _ Hw) as [Nw Tw].
  rewrite Tv in Tw. assert (H : text (norm v) +:+ "" = text (norm w) +:+ "") by by rewrite !app_nil_str.
  by destruct (text_reads_back (norm v) (norm w) "" "" Nv Nw) as [Hvw _].
Qed.

(** the normal form has the same text *)
Lemma elements_norm vs ts : Forall (λ v, ∀ o, canon v = Ok o → canon (norm v) = Ok o) vs →
  elementTexts (canon <$> vs) = Ok ts → elementTexts (canon <$> ((λ e, elementValue (norm e)) <$> vs)) = Ok ts.
Proof.
  intros Hvs. revert ts. induction Hvs as [|v vs Hv _ IH]; intros ts; [done|]. rewrite !fmap_cons. cbn [elementTexts].
  destruct (canon v) as [o|e] eqn:Hc; [|done]. cbn [result_bind]. destruct (elementTexts (canon <$> vs)) as [ts'|e] eqn:Hts; [|done].
  intros [= <-]. pose proof (element_text (norm v)) as Het. rewrite (Hv o eq_refl) in Het.
  destruct (canon (elementValue (norm v))) as [o'|e]; [|done]. injection Het as Het. cbn [result_bind]. rewrite (IH ts' eq_refl). cbn [result_map].
  by rewrite Het.
Qed.

Lemma members_norm (ms : list (string * Json)) ts :
  Forall (λ m, ∀ o, canon (snd m) = Ok o → canon (norm (snd m)) = Ok o) ms → memberTexts (jspair <$> ms) = Ok ts →
  memberTexts (jspair <$> filter (λ m, isUndefined (snd m) = false) ((λ m, (fst m, norm (snd m))) <$> ms)) = Ok ts.
Proof.
  intros Hms. revert ts. induction Hms as [|[k v] ms Hv _ IH]; intros ts; [done|]. rewrite !fmap_cons, filter_cons.
  change (jspair (k, v)) with (k, canon v). cbn [memberTexts fst snd] in *. destruct (canon v) as [o|e] eqn:Hc; [|done]. cbn [result_bind].
  pose proof (canon_reads v _ Hc) as Hr. specialize (Hv o eq_refl). destruct o as [t|].
  - destruct Hr as [Hn _]. destruct (memberTexts (jspair <$> ms)) as [ts'|e]; [|done]. intros [= <-].
    rewrite decide_True by by destruct (norm v). rewrite fmap_cons. change (jspair (k, norm v)) with (k, canon (norm v)). cbn [memberTexts].
    rewrite Hv. cbn [result_bind]. by rewrite (IH ts' eq_refl).
  - rewrite Hr, decide_False by done. apply IH.
Qed.

Lemma canon_norm v o : canon v = Ok o → canon (norm v) = Ok o.
Proof.
  revert o. induction v as [v Hv|vs IH|ms IH] using json_ind'; intros o.
  - by destruct v.
  - cbn [canon norm]. destruct (elementTexts (canon <$> vs)) as [ts|e] eqn:Hts; [|done]. intros [= <-].
    by rewrite (elements_norm vs ts IH Hts).
  - cbn [canon norm]. change (λ m : string * Json, (fst m, canon (snd m))) with jspair. rewrite !(orderBy_map jspair fst fst) by done.
    destruct (memberTexts _) as [ts|e] eqn:Hts; [|done]. intros [= <-].
    rewrite orderBy_id by apply StronglySorted_filter, orderBy_sorted.
    rewrite (orderBy_map (λ m : string * Json, (fst m, norm (snd m))) fst fst) by done.
    assert (Hall : Forall (λ m, ∀ o, canon (snd m) = Ok o → canon (norm (snd m)) = Ok o) (orderBy fst ms)).
    { apply Forall_forall. intros m Hm%elem_of_orderBy. rewrite Forall_forall in IH. by apply IH. }
    by rewrite (members_norm _ ts Hall Hts).
Qed.

Lemma wf_norm v : wf_json v = true → wf_json (norm v) = true.
Proof.
  induction v as [v Hv|vs IH|ms IH] using json_ind'; [by destruct v| |].
  - cbn [wf_json norm]. rewrite !forallb_Forall. intros Hw. rewrite Forall_fmap, Forall_forall in *. intros v Hin.
    assert (wf_json (norm v) = true) by (apply IH; [done|by apply Hw]). simpl. by destruct (norm v).
  - cbn [wf_json norm]. rewrite !andb_true_iff, !forallb_Forall, !bool_decide_eq_true. intros [Hnd Hw]. split.
    + apply NoDup_fmap_filter. rewrite orderBy_permutation, <- list_fmap_compose. exact Hnd.
    + apply Forall_forall. intros m [_ Hm]%list_elem_of_filter. rewrite elem_of_orderBy in Hm. apply list_elem_of_fmap in Hm as (m0 & -> & Hm).
      rewrite Forall_forall in IH, Hw. simpl. apply IH; [done|by apply Hw].
Qed.

(** ** Property *)

(** C36: canonicalisation.  On every value the iterative traversal ends within the turns
    counted from the value, with the text (or the error) of the recursive reference: elements
    in order, members sorted by key, [undefined] members left out.  And a text determines its
    value: two values with the same text are the same up to the order of members, dropped
    [undefined] members, [undefined] elements read as null, and bigints read as numbers. *)
Theorem canonicalize_is_canonical v w :
  wf_json v = true → wf_json w = true →
  canonicalize v = Some (canon v) ∧
  ∀ t, canonicalize v = Some (Ok (Some t)) → canonicalize w = Some (Ok (Some t)) → norm v = norm w.
Proof.
  intros Hv Hw. rewrite !canonicalize_canon by done. split; [done|]. intros t [= Ht] [= Ht']. by eapply canon_injective.
Qed.

Definition example_json : Json :=
  JObject [("b", JArray [JNumber (-12); JUndefined; JString "a"]); ("a", JBool true); ("z", JUndefined)].
(** the same value, its members in another order *)
Definition example_json' : Json :=
  JObject [("a", JBool true); ("b", JArray [JBigInt (-12); JNull; JString "a"])].

Lemma canonicalize_is_canonical_witness :
  canonicalize example_json = Some (canon example_json) ∧ norm example_json = norm example_json'.
Proof.
  destruct (canonicalize_is_canonical example_json example_json' eq_refl eq_refl) as [H1 H2]. split; [exact H1|].
  destruct (canonicalize example_json) as [[[t|]|e]|] eqn:E; try (vm_compute in E; discriminate E).
  apply (H2 t eq_refl). rewrite <- E. vm_compute. reflexivity.
Defined.
