(* ===== verification/AuditTrail.v ===== *)
(** The audit trail: redaction (core/src/redaction.ts), the hash chain (core/src/hash-chain.ts)
    and the cloud logger (database/src/audit.ts).

    SHA-256 is Node's: [digest] is an argument, its result the hexadecimal text.  A metadata
    value is a JSON tree; dates and other class instances in it are not modelled.  The
    logger's table is the list of its rows, as its columns hold them: a UUID is read back in
    lower case, a VARCHAR(n) refuses what is too long, or cuts spaces.  A transaction holds the
    advisory lock of its stream and reads after taking it, so runs are serial and each is one
    step, as long as callers spell the identifiers of a stream alike (the lock is on their
    texts).  Identifiers and the clock are drawn values, timestamps the strings of
    [toISOString]; [isoOf] is [new Date(text).toISOString()], [None] for an invalid date.
    Foreign keys to branches, users and stations are not modelled. *)
From S2P Require Import Prelude Decimals Json.
From Stdlib Require Import Ascii String.

(** ** Redaction *)

(** [s.toLowerCase()] on code units below 256 *)
Definition lowerChar (c : ascii) : ascii :=
  let n := N_of_ascii c in
  if ((65 <=? n) && (n <=? 90) || (192 <=? n) && (n <=? 222) && negb (n =? 215))%N then ascii_of_N (n + 32) else c.
Fixpoint mapString (f : ascii → ascii) (s : string) : string :=
  match s with EmptyString => EmptyString | String c s' => String (f c) (mapString f s') end.
Fixpoint filterString (p : ascii → bool) (s : string) : string :=
  match s with EmptyString => EmptyString | String c s' => if p c then String c (filterString p s') else filterString p s' end.
Fixpoint allString (p : ascii → bool) (s : string) : bool :=
  match s with EmptyString => true | String c s' => p c && allString p s' end.
Fixpoint endsWith (suffix s : string) : bool :=
  bool_decide (s = suffix) || match s with EmptyString => false | String _ s' => endsWith suffix s' end.
(** the parts of [s] before and from the first [c] *)
Fixpoint splitAt (c : ascii) (s : string) : option (string * string) :=
  match s with
  | EmptyString => None
  | String d s' => if bool_decide (d = c) then Some ("", s) else (λ '(a, b), (String d a, b)) <$> splitAt c s'
  end.

Definition normalizedKey (key : string) : string :=
  filterString (λ c, negb (bool_decide (c = "-"%char) || bool_decide (c = "_"%char))) (mapString lowerChar key).

(* redaction.ts:6-6 REDACTED_MARKER *)
Definition REDACTED_MARKER : string := "[REDACTED]".

(* redaction.ts:11-28 PROHIBITED_KEYS *)
Definition PROHIBITED_KEYS : list string :=
  ["password"; "pin"; "pinhash"; "token"; "secret"; "authorization"; "creditcard"; "cvv"; "cvv2"; "privatekey";
   "accesstoken"; "refreshtoken"; "apikey"; "clientsecret"; "cardnumber"; "pan"].

(* redaction.ts:63-75 isSensitiveKey *)
Definition isSensitiveKey (key : string) : bool :=
  let normalized := normalizedKey key in
  bool_decide (normalized ∈ PROHIBITED_KEYS) ||
  existsb (λ prohibited, endsWith prohibited normalized) ["password"; "secret"; "token"; "pinhash"; "privatekey"].

(* redaction.ts:80-83 isEmailKey *)
Definition isEmailKey (key : string) : bool := endsWith "email" (normalizedKey key).

(* redaction.ts:85-94 isPhoneKey *)
Definition isPhoneKey (key : string) : bool :=
  let normalized := normalizedKey key in
  endsWith "phone" normalized || bool_decide (normalized ∈ ["telephone"; "phonenumber"; "mobile"]).

Definition isLetter (c : ascii) : bool :=
  let n := N_of_ascii c in ((65 <=? n) && (n <=? 90) || (97 <=? n) && (n <=? 122))%N.
Definition oneOf (chars : list ascii) (c : ascii) : bool := bool_decide (c ∈ chars).

(** letters and digits or [._%+-], an at sign, letters and digits or [.-], a dot, two or more letters *)
(* redaction.ts:30-30 EMAIL_REGEX *)
Definition EMAIL_REGEX (s : string) : bool :=
  match splitAt "@" s with
  | Some (local, String _ domain) =>
      let parts := rev (list_ascii_of_string domain) in
      let fix tld n l := match l with
        | [] => None
        | c :: l' => if bool_decide (c = "."%char) then Some (n, l') else if isLetter c then tld (S n) l' else None end in
      negb (bool_decide (local = "")) &&
      allString (λ c, isLetter c || is_digit c || oneOf ["."; "_"; "%"; "+"; "-"]%char c) local &&
      match tld 0%nat parts with
      | Some (n, rest) => (2 <=? n)%nat && negb (bool_decide (rest = [])) &&
          forallb (λ c, isLetter c || is_digit c || oneOf ["."; "-"]%char c) rest
      | None => false
      end
  | _ => false
  end.

(* redaction.ts:31-31 PHONE_REGEX *)
Definition PHONE_REGEX (s : string) : bool :=
  let body := match s with String c s' => if bool_decide (c = "+"%char) then s' else s | _ => s end in
  allString (λ c, is_digit c || is_js_space c || oneOf ["-"; "("; ")"; "."]%char c) body &&
  (7 <=? String.length body)%nat && (String.length body <=? 25)%nat.

Definition digitsOf (s : string) : string := filterString is_digit s.

(* redaction.ts:37-45 maskEmail *)
Definition maskEmail (email : string) : string :=
  match splitAt "@" email with
  | Some (String firstChar _, domain) => String firstChar ("***" +:+ domain)
  | _ => email
  end.

(** [digits.slice(-4)] *)
Definition last4 (s : string) : string := substring (String.length s - 4) 4 s.

(* redaction.ts:51-58 maskPhone *)
Definition maskPhone (phone : string) : string :=
  let digits := digitsOf phone in
  if bool_decide (digits = "") then "******"
  else "******" +:+ (if (String.length digits <=? 4)%nat then digits else last4 digits).

(* redaction.ts:142-164 redactSensitiveData, string member *)
Definition redactString (key value : string) : string :=
  if isEmailKey key || EMAIL_REGEX value then maskEmail value
  else if isPhoneKey key || ((7 <=? String.length (digitsOf value))%nat && PHONE_REGEX value) then maskPhone value
  else value.

Definition unsafeKey (key : string) : bool := bool_decide (key ∈ ["__proto__"; "constructor"; "prototype"]).

(* redaction.ts:105-170 redactSensitiveData *)
Fixpoint redactSensitiveData (input : Json) : Json :=
  match input with
  | JArray items => JArray (redactSensitiveData <$> items)
  | JObject entries =>
      JObject (filter (λ m, unsafeKey (fst m) = false)
        ((λ m, (fst m,
            if isSensitiveKey (fst m) then JString REDACTED_MARKER
            else match snd m with
              | JString value => JString (redactString (fst m) value)
              | _ => redactSensitiveData (snd m)
              end)) <$> entries))
  | _ => input
  end.

(** ** Records *)

Module CanonicalAuditPayloadInput.
(* hash-chain.ts:23-37 CanonicalAuditPayloadInput *)
Record t := mk {
  organizationId : string; branchId : option string; sequenceNumber : Z; clientTimestamp : option string;
  serverTimestamp : string; eventType : string; action : string; entityName : string; entityId : option string;
  actorId : option string; stationId : option string; redactedMetadata : Json; previousRecordHash : string }.
End CanonicalAuditPayloadInput.

Module AuditRecordRow.
(* audit-contracts.ts:59-79 AuditLogEventRecord *)
Record t := mk {
  id : string; organizationId : string; branchId : option string; actorId : option string; stationId : option string;
  eventType : string; severity : string; action : string; entityName : string; entityId : option string;
  clientTimestamp : option string; serverTimestamp : string; sequenceNumber : Z; previousRecordHash : string;
  recordHash : string; source : string; requestId : option string; metadata : Json; createdAt : string }.
End AuditRecordRow.

Module AuditEvent.
(* audit-contracts.ts:9-23 AuditEventInput *)
Record t := mk {
  organizationId : string; branchId : option string; actorId : option string; stationId : option string;
  eventType : string; action : string; entityName : string; entityId : option string; severity : option string;
  source : string; requestId : option string; metadata : option Json; clientTimestamp : option string }.
End AuditEvent.

Module CheckpointMetadata.
(* audit-contracts.ts:98-105 CheckpointMetadata *)
Record t := mk {
  start_sequence_number : Z; end_sequence_number : Z; start_record_hash : string; checkpoint_record_hash : string;
  event_count : Z; source_stream : string }.
End CheckpointMetadata.

(* hash-chain.ts:95-103 ChainIntegrityErrorCode *)
Inductive ChainIntegrityErrorCode :=
| WRONG_PREVIOUS_HASH | WRONG_RECORD_HASH | SEQUENCE_GAP | DUPLICATE_SEQUENCE | REORDERED_EVENTS
| MALFORMED_HASH | WRONG_STREAM_BINDING | PAYLOAD_MODIFIED.

(* hash-chain.ts:105-111 ChainVerificationResult *)
Inductive ChainVerificationResult :=
| Valid
| Invalid (errorCode : ChainIntegrityErrorCode) (failedIndex : Z) (failedRecordId : string).

(* hash-chain.ts:10-11 GENESIS_PREVIOUS_RECORD_HASH *)
Definition GENESIS_PREVIOUS_RECORD_HASH : string :=
  "0000000000000000000000000000000000000000000000000000000000000000".
(* hash-chain.ts:12-12 GENESIS_SEQUENCE_NUMBER *)
Definition GENESIS_SEQUENCE_NUMBER : Z := 1.

Definition lowerHex (c : ascii) : bool :=
  let n := N_of_ascii c in ((48 <=? n) && (n <=? 57) || (97 <=? n) && (n <=? 102))%N.
(* hash-chain.ts:14-14 SHA256_HEX_REGEX *)
Definition SHA256_HEX_REGEX (s : string) : bool := allString lowerHex s && (String.length s =? 64)%nat.

(** [x ?? null] for a string *)
Definition jsonOption (o : option string) : Json := match o with Some s => JString s | None => JNull end.
(** [m ?? {}] *)
Definition orEmpty (m : Json) : Json := match m with JUndefined | JNull => JObject [] | _ => m end.

(** the object the canonical text is written from *)
Definition auditPayload (input : CanonicalAuditPayloadInput.t) : Json :=
  JObject
    [("action", JString (CanonicalAuditPayloadInput.action input));
     ("actorId", jsonOption (CanonicalAuditPayloadInput.actorId input));
     ("branchId", jsonOption (CanonicalAuditPayloadInput.branchId input));
     ("clientTimestamp", jsonOption (CanonicalAuditPayloadInput.clientTimestamp input));
     ("entityId", jsonOption (CanonicalAuditPayloadInput.entityId input));
     ("entityName", JString (CanonicalAuditPayloadInput.entityName input));
     ("eventType", JString (CanonicalAuditPayloadInput.eventType input));
     ("organizationId", JString (CanonicalAuditPayloadInput.organizationId input));
     ("previousRecordHash", JString (CanonicalAuditPayloadInput.previousRecordHash input));
     ("redactedMetadata", orEmpty (CanonicalAuditPayloadInput.redactedMetadata input));
     ("sequenceNumber", JNumber (CanonicalAuditPayloadInput.sequenceNumber input));
     ("serverTimestamp", JString (CanonicalAuditPayloadInput.serverTimestamp input));
     ("stationId", jsonOption (CanonicalAuditPayloadInput.stationId input))].

(** the last two results do not occur: an object has a text, and the traversal ends *)
(* hash-chain.ts:42-60 buildCanonicalAuditPayload *)
Definition buildCanonicalAuditPayload (input : CanonicalAuditPayloadInput.t) : result JsError string :=
  match canonicalize (auditPayload input) with
  | Some (Ok (Some text)) => Ok text
  | Some (Err e) => Err e
  | Some (Ok None) => Err (TypeError "The data argument must be of type string")
  | None => Err (PlainError "the traversal did not end")
  end.

Section chain.
Context (digest : string → string).

(* hash-chain.ts:19-21 computeSha256Hex *)
Definition computeSha256Hex (data : string) : string := mapString lowerChar (digest data).

(* hash-chain.ts:65-68 computeAuditRecordHash *)
Definition computeAuditRecordHash (input : CanonicalAuditPayloadInput.t) : result JsError string :=
  result_map computeSha256Hex (buildCanonicalAuditPayload input).

Definition payloadInput (record : AuditRecordRow.t) : CanonicalAuditPayloadInput.t :=
  CanonicalAuditPayloadInput.mk (AuditRecordRow.organizationId record) (AuditRecordRow.branchId record)
    (AuditRecordRow.sequenceNumber record) (AuditRecordRow.clientTimestamp record) (AuditRecordRow.serverTimestamp record)
    (AuditRecordRow.eventType record) (AuditRecordRow.action record) (AuditRecordRow.entityName record)
    (AuditRecordRow.entityId record) (AuditRecordRow.actorId record) (AuditRecordRow.stationId record)
    (AuditRecordRow.metadata record) (AuditRecordRow.previousRecordHash record).

(* hash-chain.ts:73-93 verifyRecordHash *)
Definition verifyRecordHash (record : AuditRecordRow.t) : result JsError bool :=
  if negb (SHA256_HEX_REGEX (AuditRecordRow.recordHash record)) then Ok false
  else result_map (λ expectedHash, bool_decide (AuditRecordRow.recordHash record = expectedHash))
    (computeAuditRecordHash (payloadInput record)).

(** one turn of the loop; [None] lets it go on *)
(* hash-chain.ts:130-221 verifyAuditHashChain, loop *)
Definition checkRecord (org : string) (branch : option string) (prevSeq : option Z) (previousHash : string)
    (i : Z) (record : AuditRecordRow.t) : result JsError (option ChainVerificationResult) :=
  let seq := AuditRecordRow.sequenceNumber record in
  let fail code := Ok (Some (Invalid code i (AuditRecordRow.id record))) in
  if bool_decide (AuditRecordRow.organizationId record ≠ org) || bool_decide (AuditRecordRow.branchId record ≠ branch)
  then fail WRONG_STREAM_BINDING
  else if negb (SHA256_HEX_REGEX (AuditRecordRow.recordHash record)) then fail MALFORMED_HASH
  else if negb (SHA256_HEX_REGEX (AuditRecordRow.previousRecordHash record)) then fail MALFORMED_HASH
  else
    match match prevSeq with
      | Some p => if seq =? p then Some DUPLICATE_SEQUENCE else if seq <? p then Some REORDERED_EVENTS
                  else if negb (seq =? p + 1) then Some SEQUENCE_GAP else None
      | None => None end with
    | Some code => fail code
    | None =>
        if bool_decide (AuditRecordRow.previousRecordHash record ≠ previousHash) then fail WRONG_PREVIOUS_HASH
        else result_bind (verifyRecordHash record) (λ ok, if negb ok then fail PAYLOAD_MODIFIED else Ok None)
    end.

Fixpoint verifyFrom (org : string) (branch : option string) (prevSeq : option Z) (previousHash : string) (i : Z)
    (records : list AuditRecordRow.t) : result JsError ChainVerificationResult :=
  match records with
  | [] => Ok Valid
  | record :: rest =>
      result_bind (checkRecord org branch prevSeq previousHash i record) (λ failed,
      match failed with
      | Some r => Ok r
      | None => verifyFrom org branch (Some (AuditRecordRow.sequenceNumber record)) (AuditRecordRow.recordHash record) (i + 1) rest
      end)
  end.

(* hash-chain.ts:117-224 verifyAuditHashChain *)
Definition verifyAuditHashChain (records : list AuditRecordRow.t) (expectedStartPreviousHash : string)
    : result JsError ChainVerificationResult :=
  match records with
  | [] => Ok Valid
  | first :: _ => verifyFrom (AuditRecordRow.organizationId first) (AuditRecordRow.branchId first) None
      expectedStartPreviousHash 0 records
  end.

(* hash-chain.ts:229-248 createCloudCheckpoint *)
Definition createCloudCheckpoint (records : list AuditRecordRow.t) (sourceStream : string) : result JsError CheckpointMetadata.t :=
  match head records, last records with
  | Some first, Some final =>
      Ok (CheckpointMetadata.mk (AuditRecordRow.sequenceNumber first) (AuditRecordRow.sequenceNumber final)
        (AuditRecordRow.recordHash first) (AuditRecordRow.recordHash final) (Z.of_nat (List.length records)) sourceStream)
  | _, _ => Err (PlainError "Cannot create checkpoint from empty record slice")
  end.

(* hash-chain.ts:253-275 verifyCloudCheckpoint *)
Definition verifyCloudCheckpoint (checkpoint : CheckpointMetadata.t) (records : list AuditRecordRow.t) : result JsError bool :=
  match head records, last records with
  | Some first, Some final =>
      if negb (Z.of_nat (List.length records) =? CheckpointMetadata.event_count checkpoint) then Ok false
      else if negb (AuditRecordRow.sequenceNumber first =? CheckpointMetadata.start_sequence_number checkpoint) ||
              negb (AuditRecordRow.sequenceNumber final =? CheckpointMetadata.end_sequence_number checkpoint) ||
              bool_decide (AuditRecordRow.recordHash first ≠ CheckpointMetadata.start_record_hash checkpoint) ||
              bool_decide (AuditRecordRow.recordHash final ≠ CheckpointMetadata.checkpoint_record_hash checkpoint)
      then Ok false
      else result_map (λ r, match r with Valid => true | _ => false end)
        (verifyAuditHashChain records (AuditRecordRow.previousRecordHash first))
  | _, _ => Ok false
  end.
End chain.

(** ** The cloud logger *)

Inductive AuditError := AuditPg (constraint : string) | AuditJs (e : JsError).

(** what stops [JSON.stringify] or the JSONB column: a bigint, a NUL in a string *)
Fixpoint hasBigInt (v : Json) : bool :=
  match v with
  | JBigInt _ => true
  | JArray vs => existsb hasBigInt vs
  | JObject ms => existsb (λ m, hasBigInt (snd m)) ms
  | _ => false
  end.
Definition hasNulChar (s : string) : bool := negb (allString (λ c, negb (bool_decide (c = "000"%char))) s).
Fixpoint hasNul (v : Json) : bool :=
  match v with
  | JString s => hasNulChar s
  | JArray vs => existsb hasNul vs
  | JObject ms => existsb (λ m, hasNulChar (fst m) || hasNul (snd m)) ms
  | _ => false
  end.

Module AuditDraws.
Record t := mk { id : string; serverTimestamp : string; createdAt : string }.
End AuditDraws.

Definition AuditTable : Type := list AuditRecordRow.t.
Abbreviation AuditTx := (M AuditTable AuditError).

Definition auditJs {A} (r : result JsError A) : AuditTx A :=
  lift (match r with Ok a => Ok a | Err e => Err (AuditJs e) end).

Definition inStream (org : string) (branch : option string) (r : AuditRecordRow.t) : Prop :=
  AuditRecordRow.organizationId r = org ∧ AuditRecordRow.branchId r = branch.
#[global] Instance inStream_dec org branch r : Decision (inStream org branch r).
Proof. unfold inStream. solve_decision. Defined.

(** [JSON.stringify] into a JSONB column, as it is read back: the value up to the order of
    its members *)
Definition jsonbColumn (v : Json) : AuditTx Json :=
  throw_when (hasBigInt v) (AuditJs (TypeError "Do not know how to serialize a BigInt")) ;;
  throw_when (hasNul v) (AuditPg "unsupported Unicode escape sequence") ;;
  mret (norm v).

(** ** The columns of audit_log_events *)

Definition isHex (c : ascii) : bool := lowerHex (lowerChar c).

(** [remaining] bytes of a UUID from byte [i] on, as PostgreSQL reads them (a hyphen may follow
    every second byte) and prints them (hyphens after bytes 4, 6, 8 and 10); and the rest *)
Fixpoint uuidBytes (i remaining : nat) (s : string) : option (string * string) :=
  match remaining with
  | O => Some ("", s)
  | S remaining =>
      match s with
      | String a (String b rest) =>
          if isHex a && isHex b then
            let next := match rest with
              | String c rest' => if bool_decide (c = "-"%char) && Nat.odd i && negb (remaining =? 0)%nat then rest' else rest
              | EmptyString => rest
              end in
            let hyphen := if bool_decide (i ∈ [3; 5; 7; 9]%nat) then "-" else "" in
            (λ '(u, end_), (String (lowerChar a) (String (lowerChar b) (hyphen +:+ u)), end_)) <$> uuidBytes (S i) remaining next
          else None
      | _ => None
      end
  end.

(** a text in a UUID column, as it is read back *)
Definition storedUuid (s : string) : option string :=
  match s with
  | String "{" s' => match uuidBytes 0 16 s' with Some (u, "}") => Some u | _ => None end
  | _ => match uuidBytes 0 16 s with Some (u, EmptyString) => Some u | _ => None end
  end.

(** a text in a VARCHAR(n) column: spaces beyond [n] are cut, anything else there is refused *)
Definition storedText (n : nat) (s : string) : option string :=
  if hasNulChar s then None
  else if (String.length s <=? n)%nat then Some s
  else if allString (λ c, bool_decide (c = " "%char)) (String.substring n (String.length s) s) then Some (String.substring 0 n s)
  else None.

(** what [toISOString] prints in the years that TIMESTAMPTZ reads in this form: a text of the
    shape 0001-01-01T00:00:00.000Z *)
Fixpoint shapedLike (shape s : string) : bool :=
  match shape, s with
  | EmptyString, EmptyString => true
  | String p shape', String c s' => (if bool_decide (p = "0"%char) then is_digit c else bool_decide (c = p)) && shapedLike shape' s'
  | _, _ => false
  end.
Definition storedTime (s : string) : option string :=
  if shapedLike "0000-00-00T00:00:00.000Z" s && negb (String.prefix "0000" s) then Some s else None.

Definition column {A} (error : string) (o : option A) : result AuditError A :=
  match o with Some a => Ok a | None => Err (AuditPg error) end.
Definition nullable {A} (store : A → option A) (o : option A) : option (option A) :=
  match o with Some a => Some <$> store a | None => Some None end.

Definition uuidParameter (s : string) : result AuditError string := column "invalid input syntax for type uuid" (storedUuid s).
Definition uuidOrNull (o : option string) : result AuditError (option string) :=
  column "invalid input syntax for type uuid" (nullable storedUuid o).
Definition textColumn (n : nat) (s : string) : result AuditError string := column "value too long" (storedText n s).

(** a row as the columns hold it *)
(* 20260904190000_cloud_audit_trail.sql:40-60 audit_log_events *)
Definition storedRow (row : AuditRecordRow.t) : result AuditError AuditRecordRow.t :=
  result_bind (uuidParameter (AuditRecordRow.organizationId row)) (λ organizationId,
  result_bind (uuidOrNull (AuditRecordRow.branchId row)) (λ branchId,
  result_bind (uuidOrNull (AuditRecordRow.actorId row)) (λ actorId,
  result_bind (uuidOrNull (AuditRecordRow.stationId row)) (λ stationId,
  result_bind (textColumn 100 (AuditRecordRow.eventType row)) (λ eventType,
  result_bind (textColumn 20 (AuditRecordRow.severity row)) (λ severity,
  result_bind (textColumn 100 (AuditRecordRow.action row)) (λ action,
  result_bind (textColumn 100 (AuditRecordRow.entityName row)) (λ entityName,
  result_bind (column "value too long" (nullable (storedText 100) (AuditRecordRow.entityId row))) (λ entityId,
  result_bind (column "invalid timestamp" (nullable storedTime (AuditRecordRow.clientTimestamp row))) (λ clientTimestamp,
  result_bind (column "invalid timestamp" (storedTime (AuditRecordRow.serverTimestamp row))) (λ serverTimestamp,
  result_bind (textColumn 64 (AuditRecordRow.previousRecordHash row)) (λ previousRecordHash,
  result_bind (textColumn 64 (AuditRecordRow.recordHash row)) (λ recordHash,
  result_bind (textColumn 50 (AuditRecordRow.source row)) (λ source,
  result_map (λ requestId, AuditRecordRow.mk (AuditRecordRow.id row) organizationId branchId actorId stationId eventType severity action
      entityName entityId clientTimestamp serverTimestamp (AuditRecordRow.sequenceNumber row) previousRecordHash recordHash source
      requestId (AuditRecordRow.metadata row) (AuditRecordRow.createdAt row))
    (column "value too long" (nullable (storedText 100) (AuditRecordRow.requestId row))))))))))))))))).

(** the columns, then the primary key, uq_audit_log_events_seq and uq_audit_log_events_hash *)
(* audit.ts:103-137 logAuditEvent, INSERT *)
Definition insertAudit (input : AuditRecordRow.t) : AuditTx unit :=
  row ← lift (storedRow input);
  rows ← gets (λ t, t);
  throw_when (bool_decide (AuditRecordRow.id row ∈ (AuditRecordRow.id <$> rows))) (AuditPg "audit_log_events_pkey") ;;
  throw_when (bool_decide ((AuditRecordRow.organizationId row, AuditRecordRow.branchId row, AuditRecordRow.sequenceNumber row) ∈
    ((λ r, (AuditRecordRow.organizationId r, AuditRecordRow.branchId r, AuditRecordRow.sequenceNumber r)) <$> rows)))
    (AuditPg "uq_audit_log_events_seq") ;;
  throw_when (bool_decide ((AuditRecordRow.organizationId row, AuditRecordRow.recordHash row) ∈
    ((λ r, (AuditRecordRow.organizationId r, AuditRecordRow.recordHash r)) <$> rows)))
    (AuditPg "uq_audit_log_events_hash") ;;
  modify (λ t, t ++ [row]).

(** ORDER BY sequence_number DESC LIMIT 1 *)
(* audit.ts:46-70 logAuditEvent, head *)
Definition streamHead (org : string) (branch : option string) (t : AuditTable) : Z * string :=
  match orderByDesc AuditRecordRow.sequenceNumber (filter (inStream org branch) t) with
  | [] => (GENESIS_SEQUENCE_NUMBER, GENESIS_PREVIOUS_RECORD_HASH)
  | row :: _ => (AuditRecordRow.sequenceNumber row + 1, AuditRecordRow.recordHash row)
  end.

Module StreamVerification.
Record t := mk { valid : bool; eventCount : Z; error : option ChainIntegrityErrorCode }.
End StreamVerification.

Section logger.
Context (digest : string → string) (isoOf : string → option string).

(** [event.clientTimestamp ? new Date(event.clientTimestamp).toISOString() : null] *)
(* audit.ts:79-83 logAuditEvent, clientTimestamp *)
Definition clientTime (event : AuditEvent.t) : result AuditError (option string) :=
  match truthy (AuditEvent.clientTimestamp event) with
  | None => Ok None
  | Some text => match isoOf text with Some iso => Ok (Some iso) | None => Err (AuditJs (RangeError "Invalid time value")) end
  end.

(** every statement before the INSERT only reads, so a failure leaves the table as it was *)
(* audit.ts:35-140 logAuditEvent *)
Definition logAuditEvent (draws : AuditDraws.t) (event : AuditEvent.t) : AuditTx string :=
  let org := AuditEvent.organizationId event in
  let branch := AuditEvent.branchId event in
  orgParameter ← lift (uuidParameter org);
  branchParameter ← lift (uuidOrNull branch);
  chainHead ← gets (streamHead orgParameter branchParameter);
  let '(sequenceNumber, previousRecordHash) := (chainHead : Z * string) in
  let sanitizedMetadata := redactSensitiveData (default (JObject []) (AuditEvent.metadata event)) in
  clientTimestamp ← lift (clientTime event);
  recordHash ← auditJs (computeAuditRecordHash digest
    (CanonicalAuditPayloadInput.mk org branch sequenceNumber clientTimestamp (AuditDraws.serverTimestamp draws)
      (AuditEvent.eventType event) (AuditEvent.action event) (AuditEvent.entityName event) (AuditEvent.entityId event)
      (AuditEvent.actorId event) (AuditEvent.stationId event) sanitizedMetadata previousRecordHash));
  metadata ← jsonbColumn sanitizedMetadata;
  insertAudit (AuditRecordRow.mk (AuditDraws.id draws) org branch (AuditEvent.actorId event) (AuditEvent.stationId event)
    (AuditEvent.eventType event) (default "INFO" (AuditEvent.severity event)) (AuditEvent.action event)
    (AuditEvent.entityName event) (AuditEvent.entityId event) clientTimestamp (AuditDraws.serverTimestamp draws)
    sequenceNumber previousRecordHash recordHash (AuditEvent.source event) (AuditEvent.requestId event) metadata
    (AuditDraws.createdAt draws)) ;;
  mret (AuditDraws.id draws).

(* audit.ts:190-264 getAuditTrailSlice *)
Definition getAuditTrailSlice (org : string) (branch : option string) (startSeq endSeq : option Z) : AuditTx (list AuditRecordRow.t) :=
  orgParameter ← lift (uuidParameter org);
  branchParameter ← lift (uuidOrNull branch);
  gets (λ t, orderAsc AuditRecordRow.sequenceNumber (filter (λ r, inStream orgParameter branchParameter r ∧
    match startSeq with Some n => n <=? AuditRecordRow.sequenceNumber r | None => true end = true ∧
    match endSeq with Some n => AuditRecordRow.sequenceNumber r <=? n | None => true end = true) t)).

(* audit.ts:269-286 verifyStreamChain *)
Definition verifyStreamChain (org : string) (branch : option string) : AuditTx StreamVerification.t :=
  records ← getAuditTrailSlice org branch None None;
  let eventCount := Z.of_nat (List.length records) in
  if bool_decide (records = []) then mret (StreamVerification.mk true 0 None)
  else
    outcome ← auditJs (verifyAuditHashChain digest records GENESIS_PREVIOUS_RECORD_HASH);
    mret (match outcome with
      | Valid => StreamVerification.mk true eventCount None
      | Invalid code _ _ => StreamVerification.mk false eventCount (Some code)
      end).

(* audit.ts:291-300 generateStreamCheckpoint *)
Definition generateStreamCheckpoint (org : string) (branch : option string) (startSeq endSeq : option Z) : AuditTx CheckpointMetadata.t :=
  records ← getAuditTrailSlice org branch startSeq endSeq;
  auditJs (createCloudCheckpoint records (org +:+ ":" +:+ default "CORPORATE" (truthy branch))).
End logger.
