(* ===== verification/AuditTrailSpec.v ===== *)
(** What the audit trail guarantees: redacted metadata holds no secret, a chain that
    verifies cannot be altered in what its hashes cover without a SHA-256 collision, and every
    stream the logger writes verifies. *)
From S2P Require Import Prelude Decimals Json JsonSpec AuditTrail.
From Stdlib Require Import Ascii String.

(** ** Redaction *)

Definition shortLocal (s : string) : bool :=
  match splitAt "@" s with Some (local, _) => (String.length local <=? 4)%nat | None => true end.
Definition fewDigits (s : string) : bool := (String.length (digitsOf s) <=? 4)%nat.

(** an email shows one character of its local part, a phone number four digits *)
Definition masked (key s : string) : bool :=
  if isEmailKey key then shortLocal s else if isPhoneKey key then shortLocal s || fewDigits s else true.

(** at every depth: no key reaches a prototype, a sensitive key holds the marker, a contact key a mask *)
Fixpoint redacted (v : Json) : bool :=
  match v with
  | JArray vs => forallb redacted vs
  | JObject ms => forallb (λ m, negb (unsafeKey (fst m)) &&
      (if isSensitiveKey (fst m) then match snd m with JString s => bool_decide (s = REDACTED_MARKER) | _ => false end
       else match snd m with JString s => masked (fst m) s | _ => redacted (snd m) end)) ms
  | _ => true
  end.

Lemma splitAt_some c s a b : splitAt c s = Some (a, b) → s = a +:+ b ∧ allString (λ d, negb (bool_decide (d = c))) a = true ∧ ∃ b', b = String c b'.
Proof.
  revert a b. induction s as [|d s IH]; intros a b; [done|]. cbn [splitAt]. case_bool_decide as Hd.
  - intros [= <- <-]. subst d. split; [done|]. split; [done|]. by eexists.
  - destruct (splitAt c s) as [[a' b']|] eqn:E; [|done]. intros [= <- <-]. destruct (IH a' b' eq_refl) as (-> & Ha & Hb).
    split; [done|]. split; [|done]. cbn [allString]. by rewrite bool_decide_eq_false_2.
Qed.

Lemma splitAt_app c a b : allString (λ d, negb (bool_decide (d = c))) a = true → splitAt c (a +:+ String c b) = Some (a, String c b).
Proof.
  induction a as [|d a IH]; intros Ha.
  - change ("" +:+ String c b) with (String c b). cbn [splitAt]. by rewrite bool_decide_eq_true_2.
  - cbn [allString] in Ha. apply andb_true_iff in Ha as [Hd Ha]. apply negb_true_iff, bool_decide_eq_false in Hd.
    change (String d a +:+ String c b) with (String d (a +:+ String c b)). cbn [splitAt].
    rewrite bool_decide_eq_false_2 by done. by rewrite IH.
Qed.

Lemma maskEmail_short s : shortLocal (maskEmail s) = true.
Proof.
  unfold maskEmail, shortLocal. destruct (splitAt "@" s) as [[local domain]|] eqn:E; [|by rewrite E].
  apply splitAt_some in E as E'. destruct E' as (_ & Hl & b & ->). destruct local as [|c local]; [by rewrite E|].
  cbn [allString] in Hl. apply andb_true_iff in Hl as [Hc _].
  change (String c ("***" +:+ String "@" b)) with (String c "***" +:+ String "@" b).
  rewrite splitAt_app; [done|]. cbn [allString]. by rewrite Hc.
Qed.

Lemma filterString_app p a b : filterString p (a +:+ b) = filterString p a +:+ filterString p b.
Proof.
  induction a as [|c a IH]; [done|]. change (String c a +:+ b) with (String c (a +:+ b)). cbn [filterString].
  rewrite IH. by destruct (p c).
Qed.
Lemma filterString_length p s : (String.length (filterString p s) <= String.length s)%nat.
Proof. induction s as [|c s IH]; [done|]. cbn [filterString]. destruct (p c); simpl; lia. Qed.

Lemma substring_length n m s : (String.length (substring n m s) <= m)%nat.
Proof.
  revert n m. induction s as [|c s IH]; intros n m; [destruct n, m; simpl; lia|].
  destruct n as [|n]; [destruct m as [|m]; simpl; [lia|]; specialize (IH 0%nat m); lia|apply IH].
Qed.

Lemma maskPhone_digits s : fewDigits (maskPhone s) = true.
Proof.
  unfold maskPhone, fewDigits. case_bool_decide; [done|]. unfold digitsOf at 1. rewrite filterString_app.
  change (filterString is_digit "******") with "". apply Nat.leb_le.
  change ("" +:+ ?x) with x. etransitivity; [apply filterString_length|].
  destruct (String.length (digitsOf s) <=? 4)%nat eqn:Hl; [by apply Nat.leb_le in Hl|]. apply substring_length.
Qed.

Lemma redactString_masked k s : masked k (redactString k s) = true.
Proof.
  unfold masked, redactString. destruct (isEmailKey k) eqn:Ek; [apply maskEmail_short|]. destruct (isPhoneKey k) eqn:Pk; [|done].
  destruct (EMAIL_REGEX s); simpl; [by rewrite maskEmail_short|]. by rewrite maskPhone_digits, orb_true_r.
Qed.

Lemma redactSensitiveData_redacted v : redacted (redactSensitiveData v) = true.
Proof.
  induction v as [v Hv|vs IH|ms IH] using json_ind'; [by destruct v| |].
  - cbn. rewrite forallb_Forall, Forall_fmap. by eapply Forall_impl; [exact IH|].
  - cbn [redactSensitiveData redacted]. rewrite forallb_Forall. apply Forall_forall. intros m' [Hsafe Hm]%list_elem_of_filter.
    apply list_elem_of_fmap in Hm as ([k v] & -> & Hm). cbn [fst snd] in *. rewrite Hsafe. cbn [negb andb].
    destruct (isSensitiveKey k) eqn:Hk; [done|]. rewrite Forall_forall in IH. specialize (IH _ Hm). cbn [snd] in IH.
    destruct v; try exact IH. apply redactString_masked.
Qed.

(** everything else is kept: without sensitive, unsafe or contact content nothing changes *)
Fixpoint harmless (v : Json) : bool :=
  match v with
  | JArray vs => forallb harmless vs
  | JObject ms => forallb (λ m, negb (unsafeKey (fst m)) && negb (isSensitiveKey (fst m)) &&
      match snd m with JString s => bool_decide (redactString (fst m) s = s) | _ => harmless (snd m) end) ms
  | _ => true
  end.

Lemma redactSensitiveData_harmless v : harmless v = true → redactSensitiveData v = v.
Proof.
  induction v as [v Hv|vs IH|ms IH] using json_ind'; [by destruct v| |].
  - cbn. rewrite forallb_Forall. intros Hh. f_equal. induction IH as [|v vs Hv _ IHl]; [done|].
    inversion Hh; subst. rewrite fmap_cons. f_equal; [by apply Hv|by apply IHl].
  - cbn [harmless redactSensitiveData]. rewrite forallb_Forall. intros Hh. f_equal.
    induction IH as [|[k v] ms Hv _ IHl]; [done|]. inversion Hh as [|? ? Hkv Hh']; subst. cbn [fst snd] in *.
    apply andb_true_iff in Hkv as [Hkv Hval]. apply andb_true_iff in Hkv as [Hu Hs]. apply negb_true_iff in Hu, Hs.
    rewrite fmap_cons, filter_cons. cbn [fst snd]. rewrite decide_True by done. rewrite Hs, IHl by done. do 2 f_equal.
    destruct v; try (by apply Hv). apply bool_decide_eq_true in Hval. by f_equal.
Qed.

(** ** What a record hash covers *)

Definition orEmptyNorm (m : Json) : Json := norm (orEmpty m).

(** the columns of a record that its hash covers *)
Definition covered (r : AuditRecordRow.t) : list Json :=
  [JString (AuditRecordRow.action r); jsonOption (AuditRecordRow.actorId r); jsonOption (AuditRecordRow.branchId r);
   jsonOption (AuditRecordRow.clientTimestamp r); jsonOption (AuditRecordRow.entityId r); JString (AuditRecordRow.entityName r);
   JString (AuditRecordRow.eventType r); JString (AuditRecordRow.organizationId r); JString (AuditRecordRow.previousRecordHash r);
   orEmptyNorm (AuditRecordRow.metadata r); JNumber (AuditRecordRow.sequenceNumber r); JString (AuditRecordRow.serverTimestamp r);
   jsonOption (AuditRecordRow.stationId r)].

Lemma jsonOption_inj o o' : jsonOption o = jsonOption o' → o = o'.
Proof. destruct o, o'; simpl; congruence. Qed.

Definition payloadKeys : list string :=
  ["action"; "actorId"; "branchId"; "clientTimestamp"; "entityId"; "entityName"; "eventType"; "organizationId";
   "previousRecordHash"; "redactedMetadata"; "sequenceNumber"; "serverTimestamp"; "stationId"].

Lemma payload_sorted (f : Json → Json) j1 j2 j3 j4 j5 j6 j7 j8 j9 j10 j11 j12 j13 :
  orderBy fst ((λ m, (fst m, f (snd m))) <$> zip payloadKeys [j1; j2; j3; j4; j5; j6; j7; j8; j9; j10; j11; j12; j13]) =
  zip payloadKeys (f <$> [j1; j2; j3; j4; j5; j6; j7; j8; j9; j10; j11; j12; j13]).
Proof. vm_compute. reflexivity. Qed.

Lemma norm_not_undefined m : isUndefined (norm (orEmpty m)) = false.
Proof. by destruct m. Qed.

Lemma norm_option o : norm (jsonOption o) = jsonOption o.
Proof. by destruct o. Qed.

(** the normal form of the payload is the list of the covered columns *)
Lemma norm_payload r : norm (auditPayload (payloadInput r)) = JObject (zip payloadKeys (covered r)).
Proof.
  unfold auditPayload. cbn [norm]. f_equal.
  pose proof (payload_sorted norm (JString (AuditRecordRow.action r)) (jsonOption (AuditRecordRow.actorId r)) (jsonOption (AuditRecordRow.branchId r))
    (jsonOption (AuditRecordRow.clientTimestamp r)) (jsonOption (AuditRecordRow.entityId r)) (JString (AuditRecordRow.entityName r))
    (JString (AuditRecordRow.eventType r)) (JString (AuditRecordRow.organizationId r)) (JString (AuditRecordRow.previousRecordHash r))
    (orEmpty (AuditRecordRow.metadata r)) (JNumber (AuditRecordRow.sequenceNumber r)) (JString (AuditRecordRow.serverTimestamp r))
    (jsonOption (AuditRecordRow.stationId r))) as Hs.
  transitivity (filter (λ m : string * Json, isUndefined (snd m) = false) (zip payloadKeys (covered r))).
  - f_equal. etransitivity; [exact Hs|]. unfold covered, orEmptyNorm. cbn [fmap list_fmap]. by rewrite !norm_option.
  - unfold covered, payloadKeys, orEmptyNorm. cbn [zip zip_with].
    pose proof (norm_not_undefined (AuditRecordRow.metadata r)) as Hm.
    repeat (rewrite filter_cons, decide_True by (cbn [snd]; first [exact Hm | by destruct (AuditRecordRow.actorId r) | by destruct (AuditRecordRow.branchId r)
      | by destruct (AuditRecordRow.clientTimestamp r) | by destruct (AuditRecordRow.entityId r) | by destruct (AuditRecordRow.stationId r) | done]); f_equal).
Qed.

Definition wf_record (r : AuditRecordRow.t) : bool := wf_json (AuditRecordRow.metadata r).

Lemma wf_payload input : wf_json (CanonicalAuditPayloadInput.redactedMetadata input) = true → wf_json (auditPayload input) = true.
Proof.
  intros Hw. unfold auditPayload. cbn [wf_json]. apply andb_true_iff. split; [by vm_compute|].
  assert (wf_json (orEmpty (CanonicalAuditPayloadInput.redactedMetadata input)) = true) as Hm
    by by destruct (CanonicalAuditPayloadInput.redactedMetadata input).
  cbn [forallb snd]. rewrite Hm.
  assert (Ho : ∀ o, wf_json (jsonOption o) = true) by by intros [].
  by rewrite !Ho.
Qed.

Lemma payload_text input : wf_json (CanonicalAuditPayloadInput.redactedMetadata input) = true →
  buildCanonicalAuditPayload input =
    match canon (auditPayload input) with
    | Ok (Some t) => Ok t
    | Ok None => Err (TypeError "The data argument must be of type string")
    | Err e => Err e
    end.
Proof. intros Hw. unfold buildCanonicalAuditPayload. rewrite canonicalize_canon by by apply wf_payload. by destruct (canon _) as [[t|]|e]. Qed.

(** equal texts cover equal columns *)
Lemma payload_injective r r' t : wf_record r = true → wf_record r' = true →
  buildCanonicalAuditPayload (payloadInput r) = Ok t → buildCanonicalAuditPayload (payloadInput r') = Ok t → covered r = covered r'.
Proof.
  intros Hr Hr'. rewrite !payload_text by done.
  destruct (canon (auditPayload (payloadInput r))) as [[t1|]|] eqn:E1; try done. intros [= ->].
  destruct (canon (auditPayload (payloadInput r'))) as [[t2|]|] eqn:E2; try done. intros [= ->].
  pose proof (canon_injective _ _ _ E1 E2) as H. rewrite !norm_payload in H. injection H. intros. unfold covered. congruence.
Qed.

(** ** Chains that verify *)

Section chains.
Context (digest : string → string).

Definition hashed (r : AuditRecordRow.t) : Prop :=
  ∃ t, buildCanonicalAuditPayload (payloadInput r) = Ok t ∧ AuditRecordRow.recordHash r = computeSha256Hex digest t.

(** the declarative reading of the verification *)
Fixpoint chained (org : string) (branch : option string) (prevSeq : option Z) (previousHash : string) (rs : list AuditRecordRow.t) : Prop :=
  match rs with
  | [] => True
  | r :: rest =>
      inStream org branch r ∧ SHA256_HEX_REGEX (AuditRecordRow.recordHash r) = true ∧
      SHA256_HEX_REGEX (AuditRecordRow.previousRecordHash r) = true ∧
      match prevSeq with Some p => AuditRecordRow.sequenceNumber r = p + 1 | None => True end ∧
      AuditRecordRow.previousRecordHash r = previousHash ∧ hashed r ∧
      chained org branch (Some (AuditRecordRow.sequenceNumber r)) (AuditRecordRow.recordHash r) rest
  end.

Lemma verifyRecordHash_true r : SHA256_HEX_REGEX (AuditRecordRow.recordHash r) = true →
  verifyRecordHash digest r = Ok true ↔ hashed r.
Proof.
  intros Hx. unfold verifyRecordHash, computeAuditRecordHash, hashed. rewrite Hx. cbn [negb].
  destruct (buildCanonicalAuditPayload _) as [t|e]; cbn [result_map].
  - split; [intros [= H%bool_decide_eq_true]; by exists t|]. intros (t' & [= <-] & H). by rewrite bool_decide_eq_true_2.
  - split; [done|]. by intros (t' & ? & _).
Qed.

Lemma checkRecord_none org branch ps ph i r :
  checkRecord digest org branch ps ph i r = Ok None ↔ chained org branch ps ph [r].
Proof.
  unfold checkRecord. cbn [chained]. unfold inStream.
  destruct (bool_decide (AuditRecordRow.organizationId r ≠ org)) eqn:H1; cbn [orb]; simpl_guards; [split; [done|tauto]|].
  destruct (bool_decide (AuditRecordRow.branchId r ≠ branch)) eqn:H2; simpl_guards; [split; [done|tauto]|].
  destruct (SHA256_HEX_REGEX (AuditRecordRow.recordHash r)) eqn:H3; cbn [negb]; [|split; [done|intros (_ & ? & _); done]].
  destruct (SHA256_HEX_REGEX (AuditRecordRow.previousRecordHash r)) eqn:H4; cbn [negb]; [|split; [done|intros (_ & _ & ? & _); done]].
  assert (Hseq : match match ps with Some p => if AuditRecordRow.sequenceNumber r =? p then Some DUPLICATE_SEQUENCE
      else if AuditRecordRow.sequenceNumber r <? p then Some REORDERED_EVENTS
      else if negb (AuditRecordRow.sequenceNumber r =? p + 1) then Some SEQUENCE_GAP else None | None => None end with
    | Some _ => ¬ match ps with Some p => AuditRecordRow.sequenceNumber r = p + 1 | None => True end
    | None => match ps with Some p => AuditRecordRow.sequenceNumber r = p + 1 | None => True end end).
  { destruct ps as [p|]; [|done]. destruct (Z.eqb_spec (AuditRecordRow.sequenceNumber r) p); [lia|].
    destruct (Z.ltb_spec (AuditRecordRow.sequenceNumber r) p); [lia|].
    destruct (Z.eqb_spec (AuditRecordRow.sequenceNumber r) (p + 1)); cbn [negb]; lia. }
  destruct (match ps with Some p => _ | None => _ end) as [code|]; [split; [done|tauto]|].
  case_bool_decide as H5; [split; [done|tauto]|]. pose proof (verifyRecordHash_true r H3) as Hh.
  destruct (verifyRecordHash digest r) as [[|]|e]; cbn [result_bind negb].
  - assert (hashed r) by by apply Hh. split; [intros _|done]. by split_and!.
  - split; [done|]. intros (_ & _ & _ & _ & _ & Hb & _). apply Hh in Hb. discriminate Hb.
  - split; [done|]. intros (_ & _ & _ & _ & _ & Hb & _). apply Hh in Hb. discriminate Hb.
Qed.

Lemma checkRecord_not_valid org branch ps ph i r : checkRecord digest org branch ps ph i r ≠ Ok (Some Valid).
Proof.
  unfold checkRecord. intros H. destruct (verifyRecordHash digest r) as [[|]|e]; cbn [result_bind negb] in H; repeat case_match; discriminate H.
Qed.

Lemma verifyFrom_valid org branch ps ph i rs :
  verifyFrom digest org branch ps ph i rs = Ok Valid ↔ chained org branch ps ph rs.
Proof.
  revert ps ph i. induction rs as [|r rs IH]; intros ps ph i; [done|]. cbn [verifyFrom].
  pose proof (checkRecord_none org branch ps ph i r) as Hnone. pose proof (checkRecord_not_valid org branch ps ph i r) as Hnv.
  assert (Hsplit : chained org branch ps ph (r :: rs) ↔ chained org branch ps ph [r] ∧
    chained org branch (Some (AuditRecordRow.sequenceNumber r)) (AuditRecordRow.recordHash r) rs) by (cbn [chained]; tauto).
  rewrite Hsplit, <- Hnone. destruct (checkRecord _ _ _ _ _ _ _) as [[f|]|e]; cbn [result_bind].
  - split; [intros [= ->]; done|]. by intros [? _].
  - rewrite IH. tauto.
  - split; [done|]. by intros [? _].
Qed.

Lemma verify_valid rs start : verifyAuditHashChain digest rs start = Ok Valid ↔
  match rs with [] => True | r :: _ => chained (AuditRecordRow.organizationId r) (AuditRecordRow.branchId r) None start rs end.
Proof. destruct rs as [|r rs]; [done|]. apply verifyFrom_valid. Qed.

(** the chain up to its last record *)
Definition endHash (ph : string) (rs : list AuditRecordRow.t) : string :=
  match last rs with Some r => AuditRecordRow.recordHash r | None => ph end.
Definition endSeq (ps : option Z) (rs : list AuditRecordRow.t) : option Z :=
  match last rs with Some r => Some (AuditRecordRow.sequenceNumber r) | None => ps end.

Lemma chained_app org branch ps ph l1 l2 :
  chained org branch ps ph (l1 ++ l2) ↔
  chained org branch ps ph l1 ∧ chained org branch (endSeq ps l1) (endHash ph l1) l2.
Proof.
  revert ps ph. induction l1 as [|r l1 IH]; intros ps ph; [unfold endSeq, endHash; simpl; tauto|].
  cbn [app chained]. rewrite IH.
  assert (endSeq ps (r :: l1) = endSeq (Some (AuditRecordRow.sequenceNumber r)) l1) as -> by (unfold endSeq; rewrite last_cons; by destruct (last l1)).
  assert (endHash ph (r :: l1) = endHash (AuditRecordRow.recordHash r) l1) as -> by (unfold endHash; rewrite last_cons; by destruct (last l1)).
  tauto.
Qed.

(** numbers grow by one along a chain *)
Lemma chained_number org branch ps ph r l : chained org branch ps ph (r :: l) →
  endSeq None (r :: l) = Some (AuditRecordRow.sequenceNumber r + Z.of_nat (List.length l)).
Proof.
  revert ps ph r. induction l as [|r' l IH]; intros ps ph r H; [unfold endSeq; simpl; f_equal; lia|].
  destruct H as (_ & _ & _ & _ & _ & _ & H). pose proof H as (_ & _ & _ & Hs & _). apply IH in H.
  assert (endSeq None (r :: r' :: l) = endSeq None (r' :: l)) as -> by (unfold endSeq; rewrite (last_cons r); by rewrite last_cons; destruct (last l)).
  rewrite H, Hs. f_equal. simpl List.length. lia.
Qed.

(** two texts with the same hash *)
Definition collision : Prop := ∃ t t', t ≠ t' ∧ computeSha256Hex digest t = computeSha256Hex digest t'.

Lemma hashed_injective r r' : wf_record r = true → wf_record r' = true → hashed r → hashed r' →
  AuditRecordRow.recordHash r = AuditRecordRow.recordHash r' → covered r = covered r' ∨ collision.
Proof.
  intros Hw Hw' (t & Ht & Hh) (t' & Ht' & Hh') Heq. destruct (decide (t = t')) as [<-|Hne].
  - left. by eapply payload_injective.
  - right. exists t, t'. split; [done|congruence].
Qed.

Definition same_record (r r' : AuditRecordRow.t) : Prop :=
  covered r = covered r' ∧ AuditRecordRow.recordHash r = AuditRecordRow.recordHash r'.

(** equal end hashes force equal records, back to front *)
Lemma chains_agree org branch ps ph l1 : ∀ org' branch' ps' ph' l2,
  List.length l1 = List.length l2 → Forall (λ r, wf_record r = true) l1 → Forall (λ r, wf_record r = true) l2 →
  chained org branch ps ph l1 → chained org' branch' ps' ph' l2 → endHash ph l1 = endHash ph' l2 →
  Forall2 same_record l1 l2 ∨ collision.
Proof.
  induction l1 as [|r1 l1 IH] using rev_ind; intros org' branch' ps' ph' l2 Hlen Hw1 Hw2 H1 H2 Hend.
  - destruct l2; [by left; constructor|done].
  - destruct l2 as [|r2 l2 _] using rev_ind; [rewrite length_app in Hlen; simpl in Hlen; lia|].
    rewrite !length_app in Hlen. simpl in Hlen. apply Forall_app in Hw1 as [Hw1 [Hr1 _]%Forall_cons], Hw2 as [Hw2 [Hr2 _]%Forall_cons].
    apply chained_app in H1 as [H1 (_ & _ & _ & _ & Hp1 & Hh1 & _)], H2 as [H2 (_ & _ & _ & _ & Hp2 & Hh2 & _)].
    unfold endHash in Hend. rewrite !last_snoc in Hend.
    destruct (hashed_injective r1 r2 Hr1 Hr2 Hh1 Hh2 Hend) as [Hcov|]; [|by right].
    assert (Hprev : AuditRecordRow.previousRecordHash r1 = AuditRecordRow.previousRecordHash r2) by (injection Hcov; congruence).
    destruct (IH org' branch' ps' ph' l2) as [IH'|]; [lia|done..|congruence| |by right].
    left. apply Forall2_app; [done|]. by repeat constructor.
Qed.
End chains.

(** ** Checkpoints *)

Section checkpoints.
Context (digest : string → string).

Lemma verify_own_start rs first : head rs = Some first →
  verifyAuditHashChain digest rs (AuditRecordRow.previousRecordHash first) = Ok Valid →
  chained digest (AuditRecordRow.organizationId first) (AuditRecordRow.branchId first) None (AuditRecordRow.previousRecordHash first) rs.
Proof. destruct rs as [|r rs]; [done|]. intros [= ->]. by rewrite verify_valid. Qed.

(** what an accepted checkpoint has compared *)
Lemma verifyCloudCheckpoint_true cp rs : verifyCloudCheckpoint digest cp rs = Ok true →
  ∃ first final, head rs = Some first ∧ last rs = Some final ∧
    Z.of_nat (List.length rs) = CheckpointMetadata.event_count cp ∧
    AuditRecordRow.recordHash final = CheckpointMetadata.checkpoint_record_hash cp ∧
    verifyAuditHashChain digest rs (AuditRecordRow.previousRecordHash first) = Ok Valid.
Proof.
  unfold verifyCloudCheckpoint. destruct (head rs) as [first|]; [|done]. destruct (last rs) as [final|]; [|done].
  destruct (Z.eqb_spec (Z.of_nat (List.length rs)) (CheckpointMetadata.event_count cp)) as [Hn|]; cbn [negb]; [|done].
  destruct (_ || _ || _ || _) eqn:Hc; [done|]. apply orb_false_iff in Hc as [_ Hc]. simpl_guards.
  destruct (verifyAuditHashChain _ _ _) as [[]|] eqn:Hv; [|done..]. intros _. by exists first, final.
Qed.

Lemma endHash_last ph rs r : last rs = Some r → endHash ph rs = AuditRecordRow.recordHash r.
Proof. unfold endHash. by intros ->. Qed.
End checkpoints.

(** C35: checkpoints make a slice tamper evident.  A slice that verifies passes its own
    checkpoint, and any other slice that passes it (the one an archive returns later) has the
    same records, field by field as far as the hashes cover, and the same hashes, unless two
    different texts with one SHA-256 hash have been found. *)
Theorem checkpoint_is_tamper_evident digest rs stream cp first :
  Forall (λ r, wf_record r = true) rs → head rs = Some first →
  verifyAuditHashChain digest rs (AuditRecordRow.previousRecordHash first) = Ok Valid →
  createCloudCheckpoint rs stream = Ok cp →
  verifyCloudCheckpoint digest cp rs = Ok true ∧
  ∀ rs', Forall (λ r, wf_record r = true) rs' → verifyCloudCheckpoint digest cp rs' = Ok true →
    Forall2 same_record rs rs' ∨ collision digest.
Proof.
  intros Hw Hfirst Hv. unfold createCloudCheckpoint. rewrite Hfirst. destruct (last rs) as [final|] eqn:Hfinal; [|done].
  intros [= <-]. split.
  - unfold verifyCloudCheckpoint. cbn. rewrite Hfirst, Hfinal, !Z.eqb_refl, !bool_decide_eq_false_2 by (by intros []).
    cbn. by rewrite Hv.
  - intros rs' Hw' (first' & final' & Hfirst' & Hfinal' & Hn & Hh & Hv')%verifyCloudCheckpoint_true. cbn in Hn, Hh.
    eapply (chains_agree digest); [lia|done|done|by eapply verify_own_start..|].
    by rewrite (endHash_last _ _ _ Hfinal), (endHash_last _ _ _ Hfinal').
Qed.

(** ** The logger *)

Section logger.
Context (digest : string → string) (isoOf : string → option string).
Hypothesis digest_hex : ∀ s, SHA256_HEX_REGEX (computeSha256Hex digest s) = true.

Lemma wf_redact v : wf_json v = true → wf_json (redactSensitiveData v) = true.
Proof.
  induction v as [v Hv|vs IH|ms IH] using json_ind'; [by destruct v| |].
  - cbn. rewrite !forallb_Forall, Forall_fmap, !Forall_forall in *. intros Hw v Hin. by apply IH, Hw.
  - cbn [wf_json redactSensitiveData]. rewrite !andb_true_iff, !forallb_Forall, !bool_decide_eq_true. intros [Hnd Hw]. split.
    + apply NoDup_fmap_filter. rewrite <- list_fmap_compose. exact Hnd.
    + apply Forall_forall. intros m' [_ Hm]%list_elem_of_filter. apply list_elem_of_fmap in Hm as ([k v] & -> & Hm).
      rewrite Forall_forall in IH, Hw. specialize (IH _ Hm). specialize (Hw _ Hm). cbn [fst snd] in *.
      destruct (isSensitiveKey k); [done|]. by destruct v; try apply IH.
Qed.

Lemma memberTexts_ok l ts : memberTexts l = Ok ts → ∀ k e, (k, Err e) ∉ l.
Proof.
  revert ts. induction l as [|[k [o|e]] l IH]; intros ts; cbn [memberTexts]; [by intros _ k e ?%not_elem_of_nil| |done].
  cbn [result_bind]. intros H k' e' [|Hin]%elem_of_cons; [congruence|].
  destruct o as [t|]; [|by eapply IH]. destruct (memberTexts l) as [ts'|]; [|done]. by eapply IH.
Qed.

(** the stored metadata, members reordered and dropped, has the text of what was hashed *)
Lemma payload_stored input metadata t :
  let stored := CanonicalAuditPayloadInput.mk (CanonicalAuditPayloadInput.organizationId input) (CanonicalAuditPayloadInput.branchId input)
    (CanonicalAuditPayloadInput.sequenceNumber input) (CanonicalAuditPayloadInput.clientTimestamp input)
    (CanonicalAuditPayloadInput.serverTimestamp input) (CanonicalAuditPayloadInput.eventType input) (CanonicalAuditPayloadInput.action input)
    (CanonicalAuditPayloadInput.entityName input) (CanonicalAuditPayloadInput.entityId input) (CanonicalAuditPayloadInput.actorId input)
    (CanonicalAuditPayloadInput.stationId input) metadata (CanonicalAuditPayloadInput.previousRecordHash input) in
  metadata = norm (CanonicalAuditPayloadInput.redactedMetadata input) →
  canon (auditPayload input) = Ok (Some t) → canon (auditPayload stored) = Ok (Some t).
Proof.
  intros stored -> Hc. set (m := CanonicalAuditPayloadInput.redactedMetadata input) in *.
  assert (Hm : canon (orEmpty m) = canon (orEmpty (norm m))).
  { destruct (canon (orEmpty m)) as [o|e] eqn:E.
    - assert (orEmpty (norm m) = norm (orEmpty m)) as -> by by destruct m. symmetry. by apply canon_norm.
    - exfalso. unfold auditPayload in Hc. cbn [canon] in Hc. destruct (memberTexts _) as [ts|] eqn:Hts; [|done].
      apply (memberTexts_ok _ _ Hts "redactedMetadata" e). rewrite elem_of_orderBy, list_elem_of_fmap.
      exists ("redactedMetadata", orEmpty m). rewrite <- E. split; [done|]. set_solver. }
  rewrite <- Hc. unfold auditPayload. cbn [canon]. rewrite !fmap_cons. fold m.
  cbn [fst snd CanonicalAuditPayloadInput.redactedMetadata stored]. by rewrite <- Hm.
Qed.
(** what canonicalisation accepts: no NaN and no infinity at any depth *)
Definition canonicalizable (m : Json) : Prop := ∃ o, canon m = Ok o.

Lemma memberTexts_all l : Forall (λ m : string * result JsError (option string), ∃ o, snd m = Ok o) l → ∃ ts, memberTexts l = Ok ts.
Proof.
  induction 1 as [|[k r] l [o Ho] _ [ts IH]]; [by exists []|]. cbn [snd] in Ho. subst r. cbn [memberTexts result_bind].
  destruct o as [t|]; rewrite IH; by eexists.
Qed.

Lemma payload_canonical input : canonicalizable (CanonicalAuditPayloadInput.redactedMetadata input) →
  ∃ t, canon (auditPayload input) = Ok (Some t).
Proof.
  intros [o Hm]. unfold auditPayload. cbn [canon].
  destruct (memberTexts_all (orderBy fst ((λ m, (fst m, canon (snd m))) <$>
    match auditPayload input with JObject ms => ms | _ => [] end))) as [ts Hts].
  { apply Forall_forall. intros m Hin. rewrite elem_of_orderBy, list_elem_of_fmap in Hin. destruct Hin as ([k v] & -> & Hin). cbn [fst snd].
    assert (Hopt : ∀ o, ∃ t, canon (jsonOption o) = Ok t) by (intros []; by eexists).
    assert (Hmeta : ∃ t, canon (orEmpty (CanonicalAuditPayloadInput.redactedMetadata input)) = Ok t).
    { destruct (CanonicalAuditPayloadInput.redactedMetadata input); first [by eexists|by exists o]. }
    unfold auditPayload in Hin. repeat (apply elem_of_cons in Hin as [[= -> ->]|Hin]; [first [apply Hopt|exact Hmeta|by eexists]|]).
    by apply not_elem_of_nil in Hin. }
  unfold auditPayload in Hts. rewrite Hts. by eexists.
Qed.

(** every stream is a chain from the genesis hash, numbered from one *)
Definition intact (t : AuditTable) : Prop := ∀ org branch,
  chained digest org branch (Some 0) GENESIS_PREVIOUS_RECORD_HASH (filter (inStream org branch) t) ∧
  Forall (λ r, wf_record r = true) (filter (inStream org branch) t).

Lemma chained_weaken org branch ps ph rs : chained digest org branch ps ph rs → chained digest org branch None ph rs.
Proof. destruct rs; [done|]. cbn [chained]. tauto. Qed.

Lemma chained_seq org branch p ph rs : chained digest org branch (Some p) ph rs →
  AuditRecordRow.sequenceNumber <$> rs = seqZ (p + 1) (Z.of_nat (List.length rs)).
Proof.
  revert p ph. induction rs as [|r rs IH]; intros p ph; [done|]. cbn [chained]. intros (_ & _ & _ & Hs & _ & _ & H).
  apply IH in H. rewrite fmap_cons, seqZ_cons by (simpl; lia). rewrite Hs in *. f_equal. rewrite H. f_equal; simpl List.length; lia.
Qed.

Lemma chained_sorted org branch p ph rs : chained digest org branch (Some p) ph rs →
  StronglySorted (λ x y, AuditRecordRow.sequenceNumber x < AuditRecordRow.sequenceNumber y) rs ∧
  Forall (λ r, p < AuditRecordRow.sequenceNumber r) rs.
Proof.
  revert p ph. induction rs as [|r rs IH]; intros p ph; [by split; constructor|]. cbn [chained].
  intros (_ & _ & _ & Hs & _ & _ & [Hsort Hall]%IH). split; [by constructor|]. constructor; [lia|].
  eapply Forall_impl; [exact Hall|]. simpl. lia.
Qed.

Lemma chained_ascending org branch p ph rs : chained digest org branch (Some p) ph rs →
  StronglySorted (λ x y, AuditRecordRow.sequenceNumber x <= AuditRecordRow.sequenceNumber y) rs.
Proof.
  intros [Hs _]%chained_sorted. induction Hs as [|r rs _ IH Hr]; constructor; [done|].
  eapply Forall_impl; [exact Hr|]. simpl. lia.
Qed.

(** the head the logger reads is where the chain ends *)
Lemma streamHead_end t org branch : intact t →
  streamHead org branch t = (default 0 (endSeq (Some 0) (filter (inStream org branch) t)) + 1,
    endHash GENESIS_PREVIOUS_RECORD_HASH (filter (inStream org branch) t)).
Proof.
  intros H. destruct (H org branch) as [[Hs _]%chained_sorted _]. unfold streamHead, endSeq, endHash. rewrite orderByDesc_reverse by done.
  destruct (filter (inStream org branch) t) as [|r rs _] using rev_ind; [done|]. by rewrite reverse_snoc, last_snoc.
Qed.

Definition eventMetadata (event : AuditEvent.t) : Json := default (JObject []) (AuditEvent.metadata event).

(** the time of the client, where [clientTime] does not throw *)
Definition clientOf (event : AuditEvent.t) : option string := match clientTime isoOf event with Ok c => c | Err _ => None end.

(** the columns the logger hashes *)
Definition loggedInput (draws : AuditDraws.t) (event : AuditEvent.t) (t : AuditTable) : CanonicalAuditPayloadInput.t :=
  let '(sequenceNumber, previousRecordHash) := streamHead (AuditEvent.organizationId event) (AuditEvent.branchId event) t in
  CanonicalAuditPayloadInput.mk (AuditEvent.organizationId event) (AuditEvent.branchId event) sequenceNumber
    (clientOf event) (AuditDraws.serverTimestamp draws) (AuditEvent.eventType event)
    (AuditEvent.action event) (AuditEvent.entityName event) (AuditEvent.entityId event) (AuditEvent.actorId event)
    (AuditEvent.stationId event) (redactSensitiveData (eventMetadata event)) previousRecordHash.

(** the row the logger inserts *)
Definition loggedRow (draws : AuditDraws.t) (event : AuditEvent.t) (t : AuditTable) (recordHash : string) : AuditRecordRow.t :=
  let '(sequenceNumber, previousRecordHash) := streamHead (AuditEvent.organizationId event) (AuditEvent.branchId event) t in
  AuditRecordRow.mk (AuditDraws.id draws) (AuditEvent.organizationId event) (AuditEvent.branchId event) (AuditEvent.actorId event)
    (AuditEvent.stationId event) (AuditEvent.eventType event) (default "INFO" (AuditEvent.severity event)) (AuditEvent.action event)
    (AuditEvent.entityName event) (AuditEvent.entityId event) (clientOf event) (AuditDraws.serverTimestamp draws)
    sequenceNumber previousRecordHash recordHash (AuditEvent.source event) (AuditEvent.requestId event)
    (norm (redactSensitiveData (eventMetadata event))) (AuditDraws.createdAt draws).

(** the columns store each identifier and text as it is given, or refuse it *)
Definition plainUuid (s : string) : Prop := ∀ u, storedUuid s = Some u → u = s.
Definition plainText (n : nat) (s : string) : Prop := ∀ u, storedText n s = Some u → u = s.
Definition optional {A} (P : A → Prop) (o : option A) : Prop := match o with Some a => P a | None => True end.
Record unaltered (event : AuditEvent.t) : Prop := {
  plain_organization : plainUuid (AuditEvent.organizationId event);
  plain_branch : optional plainUuid (AuditEvent.branchId event);
  plain_actor : optional plainUuid (AuditEvent.actorId event);
  plain_station : optional plainUuid (AuditEvent.stationId event);
  plain_texts : Forall (λ '(n, s), plainText n s) [(100%nat, AuditEvent.eventType event); (20%nat, default "INFO" (AuditEvent.severity event));
    (100%nat, AuditEvent.action event); (100%nat, AuditEvent.entityName event); (50%nat, AuditEvent.source event)];
  plain_entity : optional (plainText 100) (AuditEvent.entityId event);
  plain_request : optional (plainText 100) (AuditEvent.requestId event) }.

Lemma column_ok {A} error (o : option A) a : column error o = Ok a ↔ o = Some a.
Proof. destruct o; cbn; naive_solver. Qed.

Lemma nullable_plain {A} (store : A → option A) o o' : optional (λ a, ∀ u, store a = Some u → u = a) o → nullable store o = Some o' → o' = o.
Proof.
  destruct o as [a|]; cbn; [|by intros _ [= <-]]. intros Ha. destruct (store a) as [u|] eqn:E; [|done]. intros [= <-]. by rewrite (Ha u eq_refl).
Qed.

Lemma storedTime_plain s u : storedTime s = Some u → u = s.
Proof. unfold storedTime. case_match; naive_solver. Qed.

Lemma short_plain n s : (String.length s ≤ n)%nat → plainText n s.
Proof. intros Hn u. unfold storedText. case_match; [done|]. rewrite (proj2 (Nat.leb_le _ _) Hn). naive_solver. Qed.

Lemma column_bind {A B} error (o : option A) (k : A → result AuditError B) b : result_bind (column error o) k = Ok b → ∃ a, o = Some a ∧ k a = Ok b.
Proof. rewrite result_bind_ok. intros (a & H%column_ok & Hk). by exists a. Qed.

(** what the columns return for a row of such an event is the row *)
Lemma storedRow_plain row row' :
  plainUuid (AuditRecordRow.organizationId row) → optional plainUuid (AuditRecordRow.branchId row) →
  optional plainUuid (AuditRecordRow.actorId row) → optional plainUuid (AuditRecordRow.stationId row) →
  Forall (λ '(n, s), plainText n s) [(100%nat, AuditRecordRow.eventType row); (20%nat, AuditRecordRow.severity row);
    (100%nat, AuditRecordRow.action row); (100%nat, AuditRecordRow.entityName row); (50%nat, AuditRecordRow.source row);
    (64%nat, AuditRecordRow.previousRecordHash row); (64%nat, AuditRecordRow.recordHash row)] →
  optional (plainText 100) (AuditRecordRow.entityId row) → optional (plainText 100) (AuditRecordRow.requestId row) →
  storedRow row = Ok row' → row' = row.
Proof.
  intros Ho Hb Ha Hs Ht He Hr. rewrite !Forall_cons in Ht. destruct Ht as (T1 & T2 & T3 & T4 & T5 & T6 & T7 & _).
  unfold storedRow, uuidParameter, uuidOrNull, textColumn. intros H.
  apply column_bind in H as (? & E1%Ho & H). apply column_bind in H as (? & E2%(nullable_plain _ _ _ Hb) & H).
  apply column_bind in H as (? & E3%(nullable_plain _ _ _ Ha) & H). apply column_bind in H as (? & E4%(nullable_plain _ _ _ Hs) & H).
  apply column_bind in H as (? & E5%T1 & H). apply column_bind in H as (? & E6%T2 & H). apply column_bind in H as (? & E7%T3 & H).
  apply column_bind in H as (? & E8%T4 & H). apply column_bind in H as (? & E9%(nullable_plain _ _ _ He) & H).
  apply column_bind in H as (? & E10 & H). apply column_bind in H as (? & E11%storedTime_plain & H). apply column_bind in H as (? & E12%T6 & H).
  apply column_bind in H as (? & E13%T7 & H). apply column_bind in H as (? & E14%T5 & H).
  apply result_map_ok in H as (? & E15%column_ok%(nullable_plain _ _ _ Hr) & ->). subst.
  apply nullable_plain in E10 as ->; [by destruct row|]. destruct (AuditRecordRow.clientTimestamp row); [|done]. intros u. apply storedTime_plain.
Qed.

Lemma storedRow_error row e : storedRow row = Err e → e ≠ AuditPg "uq_audit_log_events_seq".
Proof.
  unfold storedRow, uuidParameter, uuidOrNull, textColumn, column.
  repeat (match goal with |- result_bind (match ?o with Some _ => _ | None => _ end) _ = _ → _ => destruct o; cbn [result_bind]; [|by intros [= <-]] end).
  match goal with |- result_map _ (match ?o with Some _ => _ | None => _ end) = _ → _ => destruct o; cbn; [done|by intros [= <-]] end.
Qed.

(** one call of such an event, as the tests it makes *)
Definition prepared (event : AuditEvent.t) : result AuditError unit :=
  result_bind (uuidParameter (AuditEvent.organizationId event)) (λ _, result_bind (uuidOrNull (AuditEvent.branchId event)) (λ _,
    result_map (λ _, tt) (clientTime isoOf event))).

Lemma log_run draws event t : unaltered event → logAuditEvent digest isoOf draws event t =
  match prepared event with Err e => (t, Err e) | Ok _ =>
  match computeAuditRecordHash digest (loggedInput draws event t) with
  | Err e => (t, Err (AuditJs e))
  | Ok recordHash =>
      let m := redactSensitiveData (eventMetadata event) in
      let row := loggedRow draws event t recordHash in
      if hasBigInt m then (t, Err (AuditJs (TypeError "Do not know how to serialize a BigInt")))
      else if hasNul m then (t, Err (AuditPg "unsupported Unicode escape sequence"))
      else match storedRow row with Err e => (t, Err e) | Ok row =>
        if bool_decide (AuditRecordRow.id row ∈ (AuditRecordRow.id <$> t)) then (t, Err (AuditPg "audit_log_events_pkey"))
        else if bool_decide ((AuditRecordRow.organizationId row, AuditRecordRow.branchId row, AuditRecordRow.sequenceNumber row) ∈
          ((λ r, (AuditRecordRow.organizationId r, AuditRecordRow.branchId r, AuditRecordRow.sequenceNumber r)) <$> t))
        then (t, Err (AuditPg "uq_audit_log_events_seq"))
        else if bool_decide ((AuditRecordRow.organizationId row, AuditRecordRow.recordHash row) ∈
          ((λ r, (AuditRecordRow.organizationId r, AuditRecordRow.recordHash r)) <$> t))
        then (t, Err (AuditPg "uq_audit_log_events_hash"))
        else (t ++ [row], Ok (AuditDraws.id draws))
      end
  end end.
Proof.
  intros [Ho Hb _ _ _ _ _]. unfold logAuditEvent, loggedInput, loggedRow, auditJs, insertAudit, jsonbColumn, eventMetadata, prepared, clientOf. mrun.
  destruct (uuidParameter _) as [o|] eqn:Eo; [|done]. apply column_ok, Ho in Eo as ->. mrun.
  destruct (uuidOrNull _) as [b|] eqn:Eb; [|done]. apply column_ok, (nullable_plain _ _ _ Hb) in Eb as ->. mrun. cbn [result_bind].
  destruct (streamHead _ _ t) as [n h]. mrun. destruct (clientTime _ event) as [c|]; [|done]. cbn [result_map]. mrun.
  destruct (computeAuditRecordHash _ _) as [rh|e]; [|done]. mrun.
  destruct (hasBigInt _); [done|]. destruct (hasNul _); [done|]. mrun. destruct (storedRow _) as [row|]; [|done]. mrun.
  by repeat case_bool_decide.
Qed.

(** the logged row carries the hash of what it stores *)
Lemma loggedRow_hashed draws event t rh : wf_json (eventMetadata event) = true →
  computeAuditRecordHash digest (loggedInput draws event t) = Ok rh →
  let row := loggedRow draws event t rh in wf_record row = true ∧ hashed digest row ∧ SHA256_HEX_REGEX rh = true.
Proof.
  intros Hw Hrh row. assert (Hwr : wf_record row = true).
  { unfold wf_record, row, loggedRow. destruct (streamHead _ _ _). by apply wf_norm, wf_redact. }
  split; [done|]. unfold computeAuditRecordHash in Hrh.
  destruct (buildCanonicalAuditPayload _) as [text|] eqn:Ht; [|done]. injection Hrh as <-. split; [|apply digest_hex].
  exists text. split; [|unfold row, loggedRow; by destruct (streamHead _ _ _)].
  rewrite payload_text by done. rewrite payload_text in Ht
    by (unfold loggedInput; destruct (streamHead _ _ _); by apply wf_redact).
  destruct (canon (auditPayload (loggedInput draws event t))) as [[text'|]|] eqn:Hc; try done. injection Ht as ->.
  assert (canon (auditPayload (payloadInput row)) = Ok (Some text)) as ->; [|done].
  unfold row, loggedRow, loggedInput in *. destruct (streamHead _ _ _) as [n h]. by apply (payload_stored _ _ _ eq_refl) in Hc.
Qed.

Lemma chained_end_hex org branch ps ph rs : SHA256_HEX_REGEX ph = true → chained digest org branch ps ph rs →
  SHA256_HEX_REGEX (endHash ph rs) = true.
Proof.
  intros Hph Hc. unfold endHash. destruct rs as [|r rs _] using rev_ind; [done|]. rewrite last_snoc.
  apply chained_app in Hc as [_ Hc]. cbn [chained] in Hc. tauto.
Qed.

Lemma intact_snoc draws event t rh : wf_json (eventMetadata event) = true → intact t →
  computeAuditRecordHash digest (loggedInput draws event t) = Ok rh → intact (t ++ [loggedRow draws event t rh]).
Proof.
  intros Hw Ht Hrh org branch. destruct (loggedRow_hashed _ _ _ _ Hw Hrh) as (Hwr & Hh & Hx).
  destruct (Ht org branch) as [Hc Hwf]. set (row := loggedRow draws event t rh) in *. unfold AuditTable in *.
  rewrite filter_app, filter_cons, filter_nil. case_decide as Hin; [|by rewrite app_nil_r].
  split; [|by apply Forall_app; split; [|constructor]]. apply chained_app. split; [done|].
  assert (Hev : AuditEvent.organizationId event = org ∧ AuditEvent.branchId event = branch).
  { revert Hin. unfold row, loggedRow, inStream. by destruct (streamHead _ _ t). }
  assert (Hhead : row = loggedRow draws event t rh) by done. unfold loggedRow in Hhead. destruct Hev as [Ho Hb]. rewrite Ho, Hb in Hhead.
  rewrite (streamHead_end t org branch Ht) in Hhead. cbn [chained]. split; [done|].
  assert (AuditRecordRow.recordHash row = rh) as -> by by rewrite Hhead. split; [done|].
  assert (AuditRecordRow.previousRecordHash row = endHash GENESIS_PREVIOUS_RECORD_HASH (filter (inStream org branch) t)) as -> by by rewrite Hhead.
  split; [by eapply chained_end_hex|]. split; [|done].
  destruct (endSeq _ _) as [p|] eqn:Hp; [|done]. by rewrite Hhead.
Qed.

(** what the columns return for the logged row is that row *)
Lemma hex64_length s : SHA256_HEX_REGEX s = true → String.length s = 64%nat.
Proof. intros [_ H]%andb_true_iff. by apply Nat.eqb_eq. Qed.

Lemma loggedRow_stored draws event t rh row : unaltered event → intact t → SHA256_HEX_REGEX rh = true →
  storedRow (loggedRow draws event t rh) = Ok row → row = loggedRow draws event t rh.
Proof.
  intros [Ho Hb Ha Hs Ht He Hr] Hi Hrh. rewrite !Forall_cons in Ht. destruct Ht as (T1 & T2 & T3 & T4 & T5 & _).
  unfold loggedRow. rewrite (streamHead_end t (AuditEvent.organizationId event) (AuditEvent.branchId event) Hi).
  destruct (Hi (AuditEvent.organizationId event) (AuditEvent.branchId event)) as [Hc _].
  assert (String.length (endHash GENESIS_PREVIOUS_RECORD_HASH (filter (inStream (AuditEvent.organizationId event) (AuditEvent.branchId event)) t)) = 64%nat) as Hlen
    by by eapply hex64_length, chained_end_hex.
  apply storedRow_plain; cbn; try done. repeat (apply Forall_cons; split; [done|]). apply Forall_cons; split; [by apply short_plain; rewrite Hlen|].
  apply Forall_cons; split; [|done]. apply short_plain. by rewrite (hex64_length _ Hrh).
Qed.

Lemma log_intact draws event t : unaltered event → wf_json (eventMetadata event) = true → intact t →
  intact (fst (logAuditEvent digest isoOf draws event t)).
Proof.
  intros Hu Hw Ht. rewrite log_run by done. destruct (prepared event); [|done].
  destruct (computeAuditRecordHash _ _) as [rh|e] eqn:Hrh; [|done]. cbv zeta. do 2 (case_match; [done|]).
  destruct (storedRow _) as [row|] eqn:Hrow; [|done]. destruct (loggedRow_hashed _ _ _ _ Hw Hrh) as (_ & _ & Hx).
  apply loggedRow_stored in Hrow as ->; [|done..]. repeat (case_match; [done|]). by apply intact_snoc.
Qed.

Lemma intact_nil : intact [].
Proof. intros org branch. by split. Qed.

(** the events in the order their transactions took the lock of the stream *)
Definition logAll (events : list (AuditDraws.t * AuditEvent.t)) : AuditTable :=
  foldl (λ t de, fst (logAuditEvent digest isoOf (fst de) (snd de) t)) [] events.

Lemma logAll_intact events : Forall (λ de, wf_json (eventMetadata (snd de)) = true ∧ unaltered (snd de)) events → intact (logAll events).
Proof.
  unfold logAll. generalize intact_nil. generalize (@nil AuditRecordRow.t : AuditTable) as t. induction events as [|[d e] events IH]; intros t Ht He; [done|].
  apply Forall_cons in He as [[He Hu] Hes]. cbn [foldl fst snd]. apply IH; [|done]. by apply log_intact.
Qed.

(** the next number is free *)
Lemma sequence_is_fresh draws event t rh : intact t → let row := loggedRow draws event t rh in
  (AuditRecordRow.organizationId row, AuditRecordRow.branchId row, AuditRecordRow.sequenceNumber row) ∉
    ((λ r, (AuditRecordRow.organizationId r, AuditRecordRow.branchId r, AuditRecordRow.sequenceNumber r)) <$> t).
Proof.
  intros Ht row (r & Heq & Hr)%list_elem_of_fmap. unfold row, loggedRow in Heq.
  set (org := AuditEvent.organizationId event) in *. set (branch := AuditEvent.branchId event) in *.
  rewrite (streamHead_end t org branch Ht) in Heq. cbn in Heq. injection Heq as Ho Hb Hs.
  assert (Hin : r ∈ filter (inStream org branch) t) by by apply list_elem_of_filter.
  destruct (Ht org branch) as [[Hsort _]%chained_sorted _]. revert Hin Hs Hsort. unfold endSeq.
  destruct (filter (inStream org branch) t) as [|l rs _] using rev_ind; [by intros ?%not_elem_of_nil|].
  rewrite last_snoc. cbn [default from_option]. intros [Hin|Hin]%elem_of_app Hs Hsort.
  - apply StronglySorted_app in Hsort as (Hlt & _ & _). specialize (Hlt r l Hin ltac:(set_solver)). simpl in Hlt. unfold id in Hs. lia.
  - apply list_elem_of_singleton in Hin as ->. unfold id in Hs. lia.
Qed.

(** an earlier row with the new row's hash is a collision *)
Lemma same_hash_collision draws event t rh : wf_json (eventMetadata event) = true → intact t →
  computeAuditRecordHash digest (loggedInput draws event t) = Ok rh →
  rh ∈ (AuditRecordRow.recordHash <$> t) → collision digest.
Proof.
  intros Hw Ht Hrh (r & Heq & Hr)%list_elem_of_fmap. destruct (loggedRow_hashed _ _ _ _ Hw Hrh) as (Hwr & Hh & _).
  destruct (Ht (AuditRecordRow.organizationId r) (AuditRecordRow.branchId r)) as [Hc Hwf].
  assert (Hin : r ∈ filter (inStream (AuditRecordRow.organizationId r) (AuditRecordRow.branchId r)) t) by by apply list_elem_of_filter.
  assert (Hhr : hashed digest r).
  { apply list_elem_of_split in Hin as (l1 & l2 & Hl). rewrite Hl in Hc. apply chained_app in Hc as [_ Hc]. cbn [chained] in Hc. tauto. }
  rewrite Forall_forall in Hwf. specialize (Hwf r Hin).
  destruct (hashed_injective digest r (loggedRow draws event t rh) Hwf Hwr Hhr Hh) as [Hcov|]; [|exfalso|done].
  { rewrite <- Heq. unfold loggedRow. by destruct (streamHead _ _ t). }
  apply (sequence_is_fresh draws event t rh Ht). apply list_elem_of_fmap. exists r. split; [|done].
  injection Hcov as _ _ Hb%jsonOption_inj _ _ _ _ Ho _ _ Hs _ _. congruence.
Qed.

(** the number is free whatever else refuses the event *)
Lemma log_numbered draws event t : unaltered event → wf_json (eventMetadata event) = true → intact t →
  snd (logAuditEvent digest isoOf draws event t) ≠ Err (AuditPg "uq_audit_log_events_seq").
Proof.
  intros Hu Hw Ht. rewrite log_run by done. destruct (prepared event) as [|e] eqn:Hp.
  2: { cbn. intros [= ->]. revert Hp. unfold prepared, uuidParameter, uuidOrNull, clientTime, column.
       repeat (case_match; cbn; try done). }
  destruct (computeAuditRecordHash _ _) as [rh|] eqn:Hrh; [|done]. cbv zeta. do 2 (case_match; [done|]).
  destruct (storedRow _) as [row|e] eqn:Hrow; [|apply storedRow_error in Hrow; cbn; congruence].
  destruct (loggedRow_hashed _ _ _ _ Hw Hrh) as (_ & _ & Hx). apply loggedRow_stored in Hrow as ->; [|done..].
  pose proof (sequence_is_fresh draws event t rh Ht) as Hs. cbv zeta in Hs. case_match; [done|].
  rewrite (bool_decide_eq_false_2 _ Hs). by case_match.
Qed.
(** what the logger can store: no NaN or infinity, no bigint, no NUL character *)
Definition storable (m : Json) : Prop := canonicalizable m ∧ hasBigInt m = false ∧ hasNul m = false.

(** columns that hold the event as it is given *)
Record fits_columns (draws : AuditDraws.t) (event : AuditEvent.t) : Prop := {
  fits_uuids : Forall (optional (λ s, storedUuid s = Some s))
    [Some (AuditEvent.organizationId event); AuditEvent.branchId event; AuditEvent.actorId event; AuditEvent.stationId event];
  fits_texts : Forall (λ '(n, s), storedText n s = Some s) [(100%nat, AuditEvent.eventType event); (20%nat, default "INFO" (AuditEvent.severity event));
    (100%nat, AuditEvent.action event); (100%nat, AuditEvent.entityName event); (50%nat, AuditEvent.source event)];
  fits_names : Forall (optional (λ s, storedText 100 s = Some s)) [AuditEvent.entityId event; AuditEvent.requestId event];
  fits_client : ∃ c, clientTime isoOf event = Ok c ∧ nullable storedTime c = Some c;
  fits_server : storedTime (AuditDraws.serverTimestamp draws) = Some (AuditDraws.serverTimestamp draws) }.

Lemma nullable_fits {A} (store : A → option A) o : optional (λ a, store a = Some a) o → nullable store o = Some o.
Proof. destruct o as [a|]; cbn; [|done]. by intros ->. Qed.

Lemma allString_impl (p q : ascii → bool) s : (∀ c, p c = true → q c = true) → allString p s = true → allString q s = true.
Proof. intros Hpq. induction s as [|c s IH]; [done|]. cbn. rewrite !andb_true_iff. intros [Hc Hs]. split; auto. Qed.

Lemma hash_fits s : SHA256_HEX_REGEX s = true → storedText 64 s = Some s.
Proof.
  intros Hs. unfold storedText, hasNulChar. rewrite (hex64_length _ Hs). apply andb_true_iff in Hs as [Hs _].
  rewrite (allString_impl lowerHex) by (try done; intros c Hc; by destruct (decide (c = "000"%char)) as [->|]; [|by rewrite bool_decide_eq_false_2]).
  done.
Qed.

(** columns that hold the event hold the row the logger makes of it *)
Lemma storedRow_fits row : storedUuid (AuditRecordRow.organizationId row) = Some (AuditRecordRow.organizationId row) →
  Forall (optional (λ s, storedUuid s = Some s)) [AuditRecordRow.branchId row; AuditRecordRow.actorId row; AuditRecordRow.stationId row] →
  Forall (λ '(n, s), storedText n s = Some s) [(100%nat, AuditRecordRow.eventType row); (20%nat, AuditRecordRow.severity row);
    (100%nat, AuditRecordRow.action row); (100%nat, AuditRecordRow.entityName row); (50%nat, AuditRecordRow.source row);
    (64%nat, AuditRecordRow.previousRecordHash row); (64%nat, AuditRecordRow.recordHash row)] →
  Forall (optional (λ s, storedText 100 s = Some s)) [AuditRecordRow.entityId row; AuditRecordRow.requestId row] →
  nullable storedTime (AuditRecordRow.clientTimestamp row) = Some (AuditRecordRow.clientTimestamp row) →
  storedTime (AuditRecordRow.serverTimestamp row) = Some (AuditRecordRow.serverTimestamp row) → storedRow row = Ok row.
Proof.
  intros Ho Hu Ht He Hc Hs. rewrite !Forall_cons in Hu; rewrite !Forall_cons in Ht; rewrite !Forall_cons in He. destruct Hu as (U1 & U2 & U3 & _), He as (E1 & E2 & _).
  destruct Ht as (T1 & T2 & T3 & T4 & T5 & T6 & T7 & _). unfold storedRow, uuidParameter, uuidOrNull, textColumn.
  rewrite Ho, Hc, Hs, !nullable_fits, T1, T2, T3, T4, T5, T6, T7 by done. by destruct row.
Qed.

Lemma loggedRow_fits draws event t rh : fits_columns draws event → intact t → SHA256_HEX_REGEX rh = true →
  storedRow (loggedRow draws event t rh) = Ok (loggedRow draws event t rh).
Proof.
  intros [Hu Ht Hn (c & Hc & Hct) Hs] Hi Hrh. rewrite Forall_cons in Hu. destruct Hu as [Ho Hu]. rewrite !Forall_cons in Ht.
  destruct Ht as (T1 & T2 & T3 & T4 & T5 & _). unfold loggedRow.
  rewrite (streamHead_end t (AuditEvent.organizationId event) (AuditEvent.branchId event) Hi).
  destruct (Hi (AuditEvent.organizationId event) (AuditEvent.branchId event)) as [Hch _].
  apply (chained_end_hex _ _ _ _ _ (eq_refl : SHA256_HEX_REGEX GENESIS_PREVIOUS_RECORD_HASH = true)) in Hch.
  apply storedRow_fits; cbn; try done; [|by unfold clientOf; rewrite Hc].
  repeat (apply Forall_cons; split; [first [done|by apply hash_fits]|]). done.
Qed.

(** an event that fits is logged as the next of its stream *)
Lemma log_accepted draws event t : unaltered event → wf_json (eventMetadata event) = true → intact t →
  fits_columns draws event → storable (redactSensitiveData (eventMetadata event)) → AuditDraws.id draws ∉ (AuditRecordRow.id <$> t) →
  (∃ rh, logAuditEvent digest isoOf draws event t = (t ++ [loggedRow draws event t rh], Ok (AuditDraws.id draws))) ∨ collision digest.
Proof.
  intros Hu Hw Ht Hfit (Hc & Hbig & Hnul) Hid. rewrite log_run by done.
  assert (prepared event = Ok tt) as ->.
  { destruct Hfit as [Huu _ _ (c & Hcl & _) _]. rewrite Forall_cons in Huu. destruct Huu as [Ho Huu]. rewrite Forall_cons in Huu.
    unfold prepared, uuidParameter, uuidOrNull. rewrite Ho, nullable_fits by apply Huu. cbn. by rewrite Hcl. }
  destruct (payload_canonical (loggedInput draws event t)) as [text Htext]; [by unfold loggedInput; destruct (streamHead _ _ t)|].
  assert (computeAuditRecordHash digest (loggedInput draws event t) = Ok (computeSha256Hex digest text)) as Hrh.
  { unfold computeAuditRecordHash. rewrite payload_text by (unfold loggedInput; destruct (streamHead _ _ t); by apply wf_redact). by rewrite Htext. }
  rewrite Hrh. cbv beta iota zeta. rewrite Hbig, Hnul. pose proof (digest_hex text) as Hx. set (rh := computeSha256Hex digest text) in *.
  rewrite (loggedRow_fits _ _ _ _ Hfit Ht Hx).
  assert (AuditRecordRow.id (loggedRow draws event t rh) = AuditDraws.id draws ∧ AuditRecordRow.recordHash (loggedRow draws event t rh) = rh) as [-> Hr]
    by (unfold loggedRow; by destruct (streamHead _ _ t)).
  rewrite (bool_decide_eq_false_2 _ Hid). pose proof (sequence_is_fresh draws event t rh Ht) as Hs. cbv zeta in Hs.
  rewrite (bool_decide_eq_false_2 _ Hs), Hr. case_bool_decide as Hdup; [|left; by exists rh].
  right. apply (same_hash_collision draws event t rh Hw Ht Hrh). apply list_elem_of_fmap in Hdup as (r & [= _ ->] & Hin).
  apply list_elem_of_fmap. by exists r.
Qed.
End logger.

(** C34: the cloud trail is whole.  Whatever events are logged on whatever streams, accepted or
    not, as long as the columns do not rewrite their identifiers and texts (a UUID with capital
    letters or braces, spaces beyond a VARCHAR), every stream verifies as a chain from the
    genesis hash, its events numbered 1, 2, 3, ... without a gap, whichever way the caller
    spells the stream.  A further such event is never refused for its number; when the columns
    hold it as it is given ([fits_columns]: UUIDs, lengths of texts, a valid client time), its
    redacted metadata can be stored and its id is new, it is logged as the next of its stream,
    unless its hash exhibits a SHA-256 collision.  Foreign keys are not modelled: the
    organisation, branch, user and station it names exist.  An event whose hashed columns are
    rewritten can be logged and break its stream ([capital_actor_breaks_the_chain]). *)
Theorem logged_streams_verify digest isoOf events :
  (∀ s, SHA256_HEX_REGEX (computeSha256Hex digest s) = true) →
  Forall (λ de, wf_json (eventMetadata (snd de)) = true ∧ unaltered (snd de)) events →
  let t := logAll digest isoOf events in
  (∀ orgText branchText org branch, uuidParameter orgText = Ok org → uuidOrNull branchText = Ok branch →
    let rows := filter (inStream org branch) t in
    AuditRecordRow.sequenceNumber <$> rows = seqZ 1 (Z.of_nat (List.length rows)) ∧
    verifyStreamChain digest orgText branchText t = (t, Ok (StreamVerification.mk true (Z.of_nat (List.length rows)) None))) ∧
  (∀ draws event, wf_json (eventMetadata event) = true → unaltered event →
    snd (logAuditEvent digest isoOf draws event t) ≠ Err (AuditPg "uq_audit_log_events_seq") ∧
    (fits_columns isoOf draws event → storable (redactSensitiveData (eventMetadata event)) →
      AuditDraws.id draws ∉ (AuditRecordRow.id <$> t) →
      (∃ rh, logAuditEvent digest isoOf draws event t = (t ++ [loggedRow isoOf draws event t rh], Ok (AuditDraws.id draws))) ∨ collision digest)).
Proof.
  intros Hx He t. assert (Ht : intact digest t) by by apply logAll_intact. split.
  - intros orgText branchText org branch Eo Eb rows. destruct (Ht org branch) as [Hc _]. split; [by apply chained_seq in Hc|].
    unfold verifyStreamChain, getAuditTrailSlice, auditJs. rewrite Eo, Eb. mrun.
    rewrite (list_filter_iff _ (inStream org branch)) by (intros r; tauto).
    rewrite orderAsc_id by by eapply chained_ascending. change (filter (inStream org branch) t) with rows in Hc |- *. clearbody rows.
    case_bool_decide as Hnil; [by rewrite Hnil|]. mrun. destruct rows as [|r rs]; [done|].
    apply (chained_weaken digest isoOf) in Hc as Hcw. pose proof Hc as ([Ho Hb] & _). rewrite <- Ho, <- Hb in Hcw.
    by rewrite (proj2 (verify_valid digest (r :: rs) _) Hcw).
  - intros draws event Hw Hu. split; [by apply log_numbered|]. intros Hfit Hst Hid. by apply log_accepted.
Qed.

(** ** A concrete digest *)

Fixpoint hexN (k : nat) (n : N) : string :=
  match k with O => "" | S k' => String (hex_digit ((n / 16 ^ N.of_nat k') mod 16)) (hexN k' n) end.
Definition exampleDigest (s : string) : string :=
  hexN 64 (foldl (λ h c, (h * 257 + N_of_ascii c + 1) mod 2 ^ 256)%N 0%N (list_ascii_of_string s)).

Lemma hex_digit_lower d : (d < 16)%N → lowerHex (lowerChar (hex_digit d)) = true.
Proof. intros Hd. destruct d as [|p]; [done|]. do 4 (destruct p as [p|p|]; try done; try lia). Qed.

Lemma hexN_lower k n : allString lowerHex (mapString lowerChar (hexN k n)) = true.
Proof.
  induction k as [|k IH]; [done|]. cbn [hexN mapString allString]. rewrite IH, hex_digit_lower; [done|]. by apply N.mod_lt.
Qed.
Lemma hexN_length k n : String.length (mapString lowerChar (hexN k n)) = k.
Proof. induction k as [|k IH]; [done|]. cbn [hexN mapString String.length]. by rewrite IH. Qed.

Lemma exampleDigest_hex s : SHA256_HEX_REGEX (computeSha256Hex exampleDigest s) = true.
Proof. unfold SHA256_HEX_REGEX, computeSha256Hex, exampleDigest. by rewrite hexN_lower, hexN_length. Qed.

Definition exampleOrg : string := "00000000-0000-4000-8000-00000000000a".
Definition exampleBranch : string := "00000000-0000-4000-8000-00000000000b".
Definition exampleActor : string := "00000000-0000-4000-8000-00000000000c".
Definition exampleIso (text : string) : option string := storedTime text.
Definition exampleEvent (actor : string) (branch : option string) (metadata : Json) : AuditEvent.t :=
  AuditEvent.mk exampleOrg branch (Some actor) None "IAM_LOGIN" "LOGIN" "User" None None "cloud" None (Some metadata) (Some "2026-01-01T00:00:00.000Z").
Definition exampleDraws (id : string) : AuditDraws.t := AuditDraws.mk id "2026-01-01T00:00:01.000Z" "2026-01-01T00:00:02.000Z".

(** two streams, one refused event (NaN), one secret *)
Definition exampleEvents : list (AuditDraws.t * AuditEvent.t) :=
  [(exampleDraws "e1", exampleEvent exampleActor None (JObject [("password", JString "hunter2"); ("attempt", JNumber 1)]));
   (exampleDraws "e2", exampleEvent exampleActor (Some exampleBranch) (JObject []));
   (exampleDraws "e3", exampleEvent exampleActor None (JObject [("ratio", JNaN)]));
   (exampleDraws "e4", exampleEvent exampleActor None (JObject [("email", JString "ana@example.com")]))].

Lemma plain_uuid s : storedUuid s = Some s → plainUuid s.
Proof. intros Hs u. rewrite Hs. by intros [= <-]. Qed.

Lemma example_unaltered branch metadata : optional plainUuid branch → unaltered (exampleEvent exampleActor branch metadata).
Proof.
  intros Hb. split; cbn; try done; [by apply plain_uuid| by apply plain_uuid|].
  repeat (apply Forall_cons; split; [by apply short_plain, Nat.leb_le|]). by constructor.
Qed.

Lemma example_events_unaltered : Forall (λ de, wf_json (eventMetadata (snd de)) = true ∧ unaltered (snd de)) exampleEvents.
Proof.
  repeat (apply Forall_cons; split; [split; [reflexivity|apply example_unaltered; first [exact I|by apply plain_uuid]]|]). by constructor.
Qed.

Lemma logged_streams_verify_witness :
  snd (verifyStreamChain exampleDigest "{00000000-0000-4000-8000-00000000000A}" None (logAll exampleDigest exampleIso exampleEvents)) =
    Ok (StreamVerification.mk true 2 None) ∧
  ∃ t rh, logAuditEvent exampleDigest exampleIso (exampleDraws "e5") (exampleEvent exampleActor None (JObject [])) t =
    (t ++ [loggedRow exampleIso (exampleDraws "e5") (exampleEvent exampleActor None (JObject [])) t rh], Ok "e5") ∨ collision exampleDigest.
Proof.
  destruct (logged_streams_verify exampleDigest exampleIso exampleEvents exampleDigest_hex example_events_unaltered) as [H H'].
  split.
  - destruct (H "{00000000-0000-4000-8000-00000000000A}" None exampleOrg None eq_refl eq_refl) as [_ ->]. vm_compute. reflexivity.
  - exists (logAll exampleDigest exampleIso exampleEvents).
    destruct (H' (exampleDraws "e5") (exampleEvent exampleActor None (JObject [])) eq_refl) as [_ Hlog]; [by apply example_unaltered|].
    destruct Hlog as [[rh Hrh]|Hc]; [| | |by exists rh; left|by exists ""; right].
    + split; [..|by exists (Some "2026-01-01T00:00:00.000Z")|reflexivity];
        repeat (apply Forall_cons; split; [first [exact I|reflexivity]|]); apply Forall_nil; exact I.
    + split; [by eexists|by split].
    + vm_compute. intros H0. repeat (apply elem_of_cons in H0 as [H0|H0]; [discriminate H0|]). by apply not_elem_of_nil in H0.
Defined.

(** the hash is taken over the identifier as the caller spells it, the column returns lower
    case: an actor spelled with a capital letter is logged and the stream no longer verifies *)
Example capital_actor_breaks_the_chain :
  let '(t, logged) := logAuditEvent exampleDigest exampleIso (exampleDraws "e1")
    (exampleEvent "00000000-0000-4000-8000-00000000000C" None (JObject [])) [] in
  logged = Ok "e1" ∧ snd (verifyStreamChain exampleDigest exampleOrg None t) = Ok (StreamVerification.mk false 1 (Some PAYLOAD_MODIFIED)).
Proof. vm_compute. by split. Qed.

(** a text longer than its column, and a time that is no date, refuse the event *)
Example long_action_is_refused :
  snd (logAuditEvent exampleDigest exampleIso (exampleDraws "e1")
    (AuditEvent.mk exampleOrg None None None "IAM_LOGIN" (hexN 101 0) "User" None None "cloud" None None None) []) =
    Err (AuditPg "value too long") ∧
  snd (logAuditEvent exampleDigest exampleIso (exampleDraws "e1")
    (AuditEvent.mk exampleOrg None None None "IAM_LOGIN" "LOGIN" "User" None None "cloud" None None (Some "yesterday")) []) =
    Err (AuditJs (RangeError "Invalid time value")).
Proof. vm_compute. by split. Qed.

Definition exampleSlice : list AuditRecordRow.t :=
  Eval vm_compute in filter (inStream exampleOrg None) (logAll exampleDigest exampleIso exampleEvents).

Lemma checkpoint_is_tamper_evident_witness :
  match head exampleSlice, createCloudCheckpoint exampleSlice "00000000-0000-4000-8000-00000000000a:CORPORATE" with
  | Some first, Ok cp => verifyCloudCheckpoint exampleDigest cp exampleSlice = Ok true
  | _, _ => False
  end.
Proof.
  cbn [head exampleSlice createCloudCheckpoint last].
  eapply (checkpoint_is_tamper_evident exampleDigest exampleSlice "00000000-0000-4000-8000-00000000000a:CORPORATE").
  - repeat constructor.
  - reflexivity.
  - vm_compute. reflexivity.
  - reflexivity.
Defined.

(** redaction is complete and no more.  What [redactSensitiveData] returns has, at every
    depth, the marker under every sensitive key, at most one character of an email's local part
    and four digits of a phone number under every contact key, and no prototype key; a
    value with nothing to hide is returned unchanged. *)
Theorem redaction_is_complete v :
  redacted (redactSensitiveData v) = true ∧ (harmless v = true → redactSensitiveData v = v).
Proof. split; [apply redactSensitiveData_redacted|apply redactSensitiveData_harmless]. Qed.

Lemma redaction_is_complete_witness :
  redacted (redactSensitiveData (JObject [("apiToken", JNumber 7); ("email", JString "ana@example.com")])) = true ∧
  redactSensitiveData (JObject [("attempt", JNumber 1)]) = JObject [("attempt", JNumber 1)].
Proof.
  split; [apply redaction_is_complete|].
  exact (proj2 (redaction_is_complete (JObject [("attempt", JNumber 1)])) eq_refl).
Defined.

(** a contact key masks a string, not the strings of an array *)
Example array_strings_are_not_masked :
  let contacts := JObject [("email", JArray [JString "ana@example.com"])] in redactSensitiveData contacts = contacts.
Proof. vm_compute. reflexivity. Qed.
