(* ===== verification/Recipes.v ===== *)
(** Recipes: packages/inventory/src (numerics.ts, types.ts, errors.ts, recipe-engine.ts,
    kardex-domain.ts).

    The resolver of sub-recipes and ingredient costs is an argument, a function of the id:
    the service answers it from tables that one transaction reads.  A throw carries its error
    class; messages are left out.  Recursion goes from a recipe to the sub-recipes it names;
    [fuel] bounds its depth, [None] is running out, and [RecipesSpec.enough_fuel] gives a
    bound for any finite recipe book. *)
From S2P Require Import Prelude Decimals Money.
From Stdlib Require Import Ascii String.

(* inventory errors.ts:5-78 InventoryDomainError *)
Inductive InventoryError :=
| CycleDetectedError (cyclePath : list string)
| InvalidRecipeItemError
| ZeroDivisorError
| RecipeNotFoundError (recipeId : string)
| InvalidWasteCommandError
| InvalidMovementTypeError (movementType : string)
| InvalidQuantityDeltaError
| InventoryJs (e : JsError).
#[global] Instance InventoryError_eq_dec : EqDecision InventoryError.
Proof. solve_decision. Defined.

(** ** numerics.ts *)

(* numerics.ts:19-19 MIN_DECIMAL_12X4_SCALED *)
Definition MIN_DECIMAL_12X4_SCALED : Z := MIN_SCALE4_BIGINT.
(* numerics.ts:20-20 MAX_DECIMAL_12X4_SCALED *)
Definition MAX_DECIMAL_12X4_SCALED : Z := MAX_SCALE4_BIGINT.

Definition in12x4 (n : Z) : bool := (MIN_DECIMAL_12X4_SCALED <=? n) && (n <=? MAX_DECIMAL_12X4_SCALED).

(* numerics.ts:28-41 parseDecimal12x4 *)
Definition parseDecimal12x4 (input : string) : result InventoryError Z :=
  match decimalStringToScaledBigInt (trim input) with
  | Ok scaled => Ok scaled
  | Err (RangeError m | TypeError m | PlainError m) => Err (InventoryJs (RangeError m))
  end.

(* numerics.ts:47-54 formatDecimal12x4 *)
Definition formatDecimal12x4 (scaled : Z) : result InventoryError string :=
  if (scaled <? MIN_DECIMAL_12X4_SCALED) || (MAX_DECIMAL_12X4_SCALED <? scaled)
  then Err (InventoryJs (RangeError "exceeds DECIMAL(12,4) range"))
  else Ok (scaledBigIntToDecimalString scaled).

(* numerics.ts:59-61 multiplyScale4 *)
Definition multiplyScale4 (a b : Z) : Z := roundDivNonZero (a * b) SCALE_FACTOR.

(* numerics.ts:66-71 divideScale4 *)
Definition divideScale4 (a b : Z) : result InventoryError Z :=
  if b =? 0 then Err (InventoryJs (RangeError "Division by zero in divideScale4"))
  else Ok (roundDivNonZero (a * SCALE_FACTOR) b).

Definition checked12x4 (n : Z) : result InventoryError Z :=
  if (n <? MIN_DECIMAL_12X4_SCALED) || (MAX_DECIMAL_12X4_SCALED <? n)
  then Err (InventoryJs (RangeError "exceeds DECIMAL(12,4) range")) else Ok n.

(* numerics.ts:76-82 addScale4 *)
Definition addScale4 (a b : Z) : result InventoryError Z := checked12x4 (a + b).
(* numerics.ts:98-104 negateScale4 *)
Definition negateScale4 (a : Z) : result InventoryError Z := checked12x4 (- a).

(** ** Types *)

Module RecipeItem.
(* inventory types.ts:36-46 RecipeItem *)
Record t := mk {
  id : string; organizationId : string; recipeId : string; ingredientId : option string; subRecipeId : option string;
  quantity : string; grossQuantity : string; unitCostSnapshot : string; createdAt : string }.
End RecipeItem.

Module Recipe.
(* inventory types.ts:48-61 Recipe *)
Record t := mk {
  id : string; organizationId : string; productId : option string; code : string; name : string; yieldQuantity : string;
  yieldUnit : string; totalCost : string; isActive : bool; items : list RecipeItem.t; createdAt : string; updatedAt : string }.
End Recipe.

Module ExplodedIngredient.
(* inventory types.ts:63-67 ExplodedIngredient *)
Record t := mk { ingredientId : string; totalQuantity : string; totalGrossQuantity : string }.
End ExplodedIngredient.

Module CostTarget.
(** ['INGREDIENT' | 'SUB_RECIPE'] with its id *)
(* inventory types.ts:71-72 RecipeItemCostBreakdown *)
Inductive t := INGREDIENT (targetId : string) | SUB_RECIPE (targetId : string).
End CostTarget.

Module CostBreakdown.
(* inventory types.ts:69-76 RecipeItemCostBreakdown *)
Record t := mk { id : string; target : CostTarget.t; grossQuantity : string; unitCost : string; totalLineCost : string }.
End CostBreakdown.

Module RecipeCost.
(* inventory types.ts:78-84 RecipeCostCalculationResult *)
Record t := mk { recipeId : string; totalCost : string; unitCost : string; yieldQuantity : string; lineItems : list CostBreakdown.t }.
End RecipeCost.

(** ** Computations that recurse: out of fuel, a throw, or a value *)

Definition Comp (A : Type) : Type := option (result InventoryError A).
Definition comp_bind {A B} (c : Comp A) (k : A → Comp B) : Comp B :=
  match c with Some (Ok a) => k a | Some (Err e) => Some (Err e) | None => None end.
Notation "x <~ c ; k" := (comp_bind c (λ x, k)) (at level 20, c at level 100, k at level 200, right associativity).

(** [for (const x of l)] with an accumulator *)
Fixpoint comp_fold {A B} (f : B → A → Comp B) (l : list A) (b : B) : Comp B :=
  match l with [] => Some (Ok b) | x :: l' => b' <~ f b x; comp_fold f l' b' end.

Definition result_all {A B} (f : A → result InventoryError B) : list A → result InventoryError (list B) :=
  fix go l := match l with [] => Ok [] | x :: l' => result_bind (f x) (λ b, result_map (cons b) (go l')) end.

(* recipe-engine.ts:253-263 RecipeEngine.#validateRecipeItem *)
Definition validateRecipeItem (item : RecipeItem.t) : result InventoryError unit :=
  let hasIngredient := bool_decide (truthy (RecipeItem.ingredientId item) ≠ None) in
  let hasSubRecipe := bool_decide (truthy (RecipeItem.subRecipeId item) ≠ None) in
  if (hasIngredient && hasSubRecipe) || (negb hasIngredient && negb hasSubRecipe) then Err InvalidRecipeItemError else Ok tt.

(** the tests on [yieldQuantity] that open both recursions *)
(* recipe-engine.ts:75-85 RecipeEngine.#explodeRecursive *)
Definition recipeYield (recipe : Recipe.t) : result InventoryError Z :=
  if bool_decide (Recipe.yieldQuantity recipe = "") then Err ZeroDivisorError
  else result_bind (parseDecimal12x4 (Recipe.yieldQuantity recipe)) (λ yieldScaled,
    if yieldScaled <=? 0 then Err ZeroDivisorError else Ok yieldScaled).

(** net and gross amounts by ingredient *)
Abbreviation Totals := (gmap string (Z * Z)).

Section engine.
Context (recipeResolver : string → option Recipe.t).

(** ** Explosion *)

(* recipe-engine.ts:106-110 RecipeEngine.#explodeRecursive *)
Definition addTotals (acc : Totals) (ingredientId : string) (net gross : Z) : Totals :=
  let '(netScaled, grossScaled) := default (0, 0) (acc !! ingredientId) in
  <[ingredientId := (netScaled + net, grossScaled + gross)]> acc.

(** the amounts an item takes of its target when its recipe is made [factor] times *)
(* recipe-engine.ts:90-102 RecipeEngine.#explodeRecursive *)
Definition effectiveQuantities (factorScale4 recipeYieldScaled : Z) (item : RecipeItem.t) : result InventoryError (Z * Z) :=
  result_bind (parseDecimal12x4 (RecipeItem.quantity item)) (λ itemNetScaled,
  result_bind (parseDecimal12x4 (RecipeItem.grossQuantity item)) (λ itemGrossScaled,
  result_bind (divideScale4 (multiplyScale4 factorScale4 itemNetScaled) recipeYieldScaled) (λ effectiveNet,
  result_map (λ effectiveGross, (effectiveNet, effectiveGross))
    (divideScale4 (multiplyScale4 factorScale4 itemGrossScaled) recipeYieldScaled)))).

(** one turn of the loop over the items; [recurse] is the recursive call *)
(* recipe-engine.ts:87-136 RecipeEngine.#explodeRecursive *)
Definition explodeItem (recurse : Recipe.t → Z → list string → Totals → Comp Totals)
    (factorScale4 recipeYieldScaled : Z) (visitedStack : list string) (acc : Totals) (item : RecipeItem.t) : Comp Totals :=
  _ <~ Some (validateRecipeItem item);
  quantities <~ Some (effectiveQuantities factorScale4 recipeYieldScaled item);
  match truthy (RecipeItem.ingredientId item), truthy (RecipeItem.subRecipeId item) with
  | Some ingredientId, _ => Some (Ok (addTotals acc ingredientId (fst quantities) (snd quantities)))
  | None, Some subRecipeId =>
      if bool_decide (subRecipeId ∈ visitedStack) then Some (Err (CycleDetectedError (visitedStack ++ [subRecipeId])))
      else match recipeResolver subRecipeId with
           | None => Some (Err (RecipeNotFoundError subRecipeId))
           | Some subRecipe => recurse subRecipe (snd quantities) (visitedStack ++ [subRecipeId]) acc
           end
  | None, None => Some (Ok acc)
  end.

(* recipe-engine.ts:68-137 RecipeEngine.#explodeRecursive *)
Fixpoint explodeRecursive (fuel : nat) (currentRecipe : Recipe.t) (factorScale4 : Z) (visitedStack : list string)
    (acc : Totals) : Comp Totals :=
  match fuel with
  | O => None
  | S fuel' =>
      recipeYieldScaled <~ Some (recipeYield currentRecipe);
      comp_fold (explodeItem (explodeRecursive fuel') factorScale4 recipeYieldScaled visitedStack) (Recipe.items currentRecipe) acc
  end.

(** the entries sorted by ingredient *)
(* recipe-engine.ts:56-65 RecipeEngine.explodeIngredients *)
Definition explodedRows (ingredientMap : Totals) : result InventoryError (list ExplodedIngredient.t) :=
  result_all (λ '(id, (netScaled, grossScaled)),
      result_bind (formatDecimal12x4 netScaled) (λ net,
      result_map (λ gross, ExplodedIngredient.mk id net gross) (formatDecimal12x4 grossScaled)))
    (orderBy fst (map_to_list ingredientMap)).

(* recipe-engine.ts:41-66 RecipeEngine.explodeIngredients *)
Definition explodeIngredients (fuel : nat) (recipe : Recipe.t) : Comp (list ExplodedIngredient.t) :=
  ingredientMap <~ explodeRecursive fuel recipe 10000 [Recipe.id recipe] ∅;
  Some (explodedRows ingredientMap).

(** ** Cost *)

Context (getIngredientCost : string → result InventoryError string).

(** the unit cost of a target, with the cost line it is printed on *)
(* recipe-engine.ts:171-240 RecipeEngine.#calculateCostRecursive *)
Definition costItem (recurse : Recipe.t → list string → Comp RecipeCost.t) (visitedStack : list string)
    (acc : Z * list CostBreakdown.t) (item : RecipeItem.t) : Comp (Z * list CostBreakdown.t) :=
  let '(totalBatchCostScaled, lineItems) := acc in
  _ <~ Some (validateRecipeItem item);
  grossQtyScaled <~ Some (parseDecimal12x4 (RecipeItem.grossQuantity item));
  if grossQtyScaled <? 0 then Some (Err InvalidRecipeItemError)
  else
    match truthy (RecipeItem.ingredientId item), truthy (RecipeItem.subRecipeId item) with
    | Some ingredientId, _ =>
        costStr <~ Some (getIngredientCost ingredientId);
        if bool_decide (costStr = "") then Some (Err InvalidRecipeItemError)
        else
          unitCostScaled <~ Some (parseDecimal12x4 costStr);
          if unitCostScaled <? 0 then Some (Err InvalidRecipeItemError)
          else
            let lineCostScaled := multiplyScale4 grossQtyScaled unitCostScaled in
            unitCost <~ Some (formatDecimal12x4 unitCostScaled);
            totalLineCost <~ Some (formatDecimal12x4 lineCostScaled);
            Some (Ok (totalBatchCostScaled + lineCostScaled,
              lineItems ++ [CostBreakdown.mk (RecipeItem.id item) (CostTarget.INGREDIENT ingredientId)
                (RecipeItem.grossQuantity item) unitCost totalLineCost]))
    | None, Some subRecipeId =>
        if bool_decide (subRecipeId ∈ visitedStack) then Some (Err (CycleDetectedError (visitedStack ++ [subRecipeId])))
        else match recipeResolver subRecipeId with
             | None => Some (Err (RecipeNotFoundError subRecipeId))
             | Some subRecipe =>
                 subCostResult <~ recurse subRecipe (visitedStack ++ [subRecipeId]);
                 subUnitCostScaled <~ Some (parseDecimal12x4 (RecipeCost.unitCost subCostResult));
                 let lineCostScaled := multiplyScale4 grossQtyScaled subUnitCostScaled in
                 totalLineCost <~ Some (formatDecimal12x4 lineCostScaled);
                 Some (Ok (totalBatchCostScaled + lineCostScaled,
                   lineItems ++ [CostBreakdown.mk (RecipeItem.id item) (CostTarget.SUB_RECIPE subRecipeId)
                     (RecipeItem.grossQuantity item) (RecipeCost.unitCost subCostResult) totalLineCost]))
             end
    | None, None => Some (Ok acc)
    end.

(* recipe-engine.ts:151-251 RecipeEngine.#calculateCostRecursive *)
Fixpoint calculateCostRecursive (fuel : nat) (currentRecipe : Recipe.t) (visitedStack : list string) : Comp RecipeCost.t :=
  match fuel with
  | O => None
  | S fuel' =>
      yieldScaled <~ Some (recipeYield currentRecipe);
      costs <~ comp_fold (costItem (calculateCostRecursive fuel') visitedStack) (Recipe.items currentRecipe) (0, []);
      unitCostScaled <~ Some (divideScale4 (fst costs) yieldScaled);
      totalCost <~ Some (formatDecimal12x4 (fst costs));
      unitCost <~ Some (formatDecimal12x4 unitCostScaled);
      Some (Ok (RecipeCost.mk (Recipe.id currentRecipe) totalCost unitCost (Recipe.yieldQuantity currentRecipe) (snd costs)))
  end.

(* recipe-engine.ts:143-149 RecipeEngine.calculateRecipeCost *)
Definition calculateRecipeCost (fuel : nat) (recipe : Recipe.t) : Comp RecipeCost.t :=
  calculateCostRecursive fuel recipe [Recipe.id recipe].
End engine.

(** ** kardex-domain.ts *)

Module RegisterWaste.
(* inventory types.ts:117-128 RegisterWasteCommand *)
Record t := mk {
  organizationId : string; branchId : string; warehouseId : string; ingredientId : string; quantity : string;
  reasonCode : string; photoAttachmentUrl : string; commandId : string; notes : option string; actorId : option string }.
End RegisterWaste.

Module StockMovementType.
(* inventory types.ts:90-99 StockMovementType *)
Inductive t := COMPRA | CONSUMO_KDS | MERMA | AJUSTE_FISICO | TRANSFERENCIA.
#[global] Instance eq_dec : EqDecision t.
Proof. solve_decision. Defined.
Definition name (m : t) : string :=
  match m with COMPRA => "COMPRA" | CONSUMO_KDS => "CONSUMO_KDS" | MERMA => "MERMA" | AJUSTE_FISICO => "AJUSTE_FISICO"
  | TRANSFERENCIA => "TRANSFERENCIA" end.
Definition all : list t := [COMPRA; CONSUMO_KDS; MERMA; AJUSTE_FISICO; TRANSFERENCIA].
End StockMovementType.

(* kardex-domain.ts:24-63 validateWasteCommand *)
Definition validateWasteCommand (command : RegisterWaste.t) : result InventoryError unit :=
  if blank (RegisterWaste.commandId command) || blank (RegisterWaste.organizationId command) ||
     blank (RegisterWaste.branchId command) || blank (RegisterWaste.warehouseId command) ||
     blank (RegisterWaste.ingredientId command) || blank (RegisterWaste.reasonCode command) ||
     blank (RegisterWaste.photoAttachmentUrl command)
  then Err InvalidWasteCommandError
  else result_bind (parseDecimal12x4 (RegisterWaste.quantity command)) (λ quantityScaled,
    if quantityScaled <=? 0 then Err InvalidQuantityDeltaError else Ok tt).

(* kardex-domain.ts:68-73 validateMovementType *)
Definition validateMovementType (type : string) : result InventoryError StockMovementType.t :=
  match list_find (λ m, StockMovementType.name m = type) StockMovementType.all with
  | Some (_, m) => Ok m
  | None => Err (InvalidMovementTypeError type)
  end.

(** one turn of the loop *)
Definition addGross (map : gmap string Z) (item : string * Z) : result InventoryError (gmap string Z) :=
  let '(ingredientId, grossScaled) := item in
  result_map (λ total, <[ingredientId := total]> map) (addScale4 (default 0 (map !! ingredientId)) grossScaled).

Fixpoint addAllGross (map : gmap string Z) (items : list (string * Z)) : result InventoryError (gmap string Z) :=
  match items with [] => Ok map | item :: rest => result_bind (addGross map item) (λ map', addAllGross map' rest) end.

(** [{ ingredientId, grossScaled }] in, [{ ingredientId, totalGrossScaled }] out *)
(* kardex-domain.ts:79-94 aggregateIngredientQuantities *)
Definition aggregateIngredientQuantities (items : list (string * Z)) : result InventoryError (list (string * Z)) :=
  result_map (λ map, orderBy fst (map_to_list map)) (addAllGross ∅ items).
