(* ===== verification/RecipesSpec.v ===== *)
(** What the recipe engine computes: it always ends on a finite recipe book, an explosion
    succeeds exactly when the recipe unfolds to finitely many ingredients and then returns
    their sums, and a reported cycle is a cycle of the book. *)
From S2P Require Import Prelude Decimals Money Recipes.
From Stdlib Require Import Ascii String Relations.

(** ** Computations *)

Lemma comp_bind_ok {A B} (c : Comp A) (k : A → Comp B) b :
  comp_bind c k = Some (Ok b) ↔ ∃ a, c = Some (Ok a) ∧ k a = Some (Ok b).
Proof. destruct c as [[a|e]|]; simpl; split; intros; destruct_exists; simplify_eq; eauto. Qed.

Lemma comp_bind_err {A B} (c : Comp A) (k : A → Comp B) e :
  comp_bind c k = Some (Err e) ↔ c = Some (Err e) ∨ ∃ a, c = Some (Ok a) ∧ k a = Some (Err e).
Proof. destruct c as [[a|e']|]; simpl; split; intros; destruct_or?; destruct_exists; simplify_eq; eauto. Qed.

Lemma comp_bind_none {A B} (c : Comp A) (k : A → Comp B) :
  comp_bind c k = None ↔ c = None ∨ ∃ a, c = Some (Ok a) ∧ k a = None.
Proof. destruct c as [[a|e]|]; simpl; split; intros; destruct_or?; destruct_exists; simplify_eq; eauto. Qed.

Lemma comp_fold_none {A B} (f : B → A → Comp B) l b : comp_fold f l b = None → ∃ x b', x ∈ l ∧ f b' x = None.
Proof.
  revert b. induction l as [|x l IH]; intros b; [done|]. cbn [comp_fold]. rewrite comp_bind_none.
  intros [H|(b' & _ & H)]; [exists x, b; set_solver|]. destruct (IH b' H) as (y & b'' & Hy & ?). exists y, b''. set_solver.
Qed.

Lemma comp_fold_err {A B} (f : B → A → Comp B) l b e : comp_fold f l b = Some (Err e) → ∃ x b', x ∈ l ∧ f b' x = Some (Err e).
Proof.
  revert b. induction l as [|x l IH]; intros b; [done|]. cbn [comp_fold]. rewrite comp_bind_err.
  intros [H|(b' & _ & H)]; [exists x, b; set_solver|]. destruct (IH b' H) as (y & b'' & Hy & ?). exists y, b''. set_solver.
Qed.

Section engine.
Context (recipeResolver : string → option Recipe.t).

Definition subOf (item : RecipeItem.t) : option string := truthy (RecipeItem.subRecipeId item).

(** [s] names a sub-recipe of [r] *)
Definition names (r : Recipe.t) (s : string) : Prop := ∃ item, item ∈ Recipe.items r ∧ subOf item = Some s.

(** [r'] is a sub-recipe of [r] *)
Definition uses (r r' : Recipe.t) : Prop := ∃ s, names r s ∧ recipeResolver s = Some r'.

(** ** Termination *)

(** the recipes not yet on the stack *)
Definition unvisited (ids visitedStack : list string) : nat := List.length (filter (λ s, s ∉ visitedStack) ids).

Lemma unvisited_push ids visitedStack s : s ∈ ids → s ∉ visitedStack →
  (unvisited ids (visitedStack ++ [s]) < unvisited ids visitedStack)%nat.
Proof.
  unfold unvisited. intros Hin Hs. induction ids as [|i ids IH]; [by apply not_elem_of_nil in Hin|]. rewrite !filter_cons.
  assert (Hle : (List.length (filter (λ s', s' ∉ visitedStack ++ [s]) ids) <= List.length (filter (λ s', s' ∉ visitedStack) ids))%nat).
  { clear. induction ids as [|i ids IH]; [done|]. rewrite !filter_cons. repeat case_decide; simpl; try lia. set_solver. }
  apply elem_of_cons in Hin as [<-|Hin].
  - rewrite decide_False, decide_True by set_solver. simpl. lia.
  - specialize (IH Hin). repeat case_decide; simpl; try lia. set_solver.
Qed.

Context (ids : list string).
Hypothesis finite_book : ∀ s, is_Some (recipeResolver s) → s ∈ ids.

Lemma explode_ends fuel r f visitedStack acc : (unvisited ids visitedStack < fuel)%nat →
  explodeRecursive recipeResolver fuel r f visitedStack acc ≠ None.
Proof.
  revert r f visitedStack acc. induction fuel as [|fuel IH]; intros r f visitedStack acc Hf; [lia|].
  cbn [explodeRecursive]. rewrite comp_bind_none. intros [|(y & _ & (item & acc' & _ & H)%comp_fold_none)]; [done|].
  unfold explodeItem in H. apply comp_bind_none in H as [|(? & _ & H)]; [done|].
  apply comp_bind_none in H as [|(q & _ & H)]; [done|]. destruct (truthy (RecipeItem.ingredientId item)); [done|].
  destruct (truthy (RecipeItem.subRecipeId item)) as [s|]; [|done]. case_bool_decide as Hs; [done|].
  destruct (recipeResolver s) as [r'|] eqn:Hr; [|done]. apply IH in H; [done|].
  pose proof (unvisited_push ids visitedStack s (finite_book s ltac:(eauto)) Hs). lia.
Qed.

Lemma cost_ends getIngredientCost fuel r visitedStack : (unvisited ids visitedStack < fuel)%nat →
  calculateCostRecursive recipeResolver getIngredientCost fuel r visitedStack ≠ None.
Proof.
  revert r visitedStack. induction fuel as [|fuel IH]; intros r visitedStack Hf; [lia|].
  cbn [calculateCostRecursive]. rewrite comp_bind_none. intros [|(y & _ & H)]; [done|].
  apply comp_bind_none in H as [(item & [total lines] & _ & H)%comp_fold_none|(c & _ & H)].
  - unfold costItem in H. apply comp_bind_none in H as [|(? & _ & H)]; [done|].
    apply comp_bind_none in H as [|(q & _ & H)]; [done|]. case_match; [done|]. destruct (truthy (RecipeItem.ingredientId item)).
    + apply comp_bind_none in H as [|(cost & _ & H)]; [done|]. case_match; [done|].
      apply comp_bind_none in H as [|(u & _ & H)]; [done|]. case_match; [done|]. cbv zeta in H.
      apply comp_bind_none in H as [|(uc & _ & H)]; [done|]. by apply comp_bind_none in H as [|(lc & _ & H)].
    + destruct (truthy (RecipeItem.subRecipeId item)) as [s|]; [|done]. case_bool_decide as Hs; [done|].
      destruct (recipeResolver s) as [r'|] eqn:Hr; [|done]. apply comp_bind_none in H as [H|(sub & _ & H)].
      * apply IH in H; [done|]. pose proof (unvisited_push ids visitedStack s (finite_book s ltac:(eauto)) Hs). lia.
      * apply comp_bind_none in H as [|(u & _ & H)]; [done|]. cbv zeta in H. by apply comp_bind_none in H as [|(lc & _ & H)].
  - apply comp_bind_none in H as [|(u & _ & H)]; [done|]. apply comp_bind_none in H as [|(t & _ & H)]; [done|].
    by apply comp_bind_none in H as [|(uc & _ & H)].
Qed.

Lemma enough_fuel visitedStack fuel : (List.length ids < fuel)%nat → (unvisited ids visitedStack < fuel)%nat.
Proof.
  intros H. eapply Nat.le_lt_trans; [|exact H]. unfold unvisited. clear. induction ids as [|i l IH]; [done|].
  rewrite filter_cons. case_decide; simpl; lia.
Qed.
End engine.

(** ** The unfolding of a recipe

    Big steps, without stack, fuel or accumulator: a recipe made [factor] times takes, item by
    item, either an ingredient or what the sub-recipe takes when made that many times. *)

Definition Leaf : Type := string * (Z * Z).

Section unfolding.
Context (recipeResolver : string → option Recipe.t).

Inductive unfolds : Recipe.t → Z → list Leaf → Prop :=
| unfolds_recipe r factor yield leaves :
    recipeYield r = Ok yield → unfolds_items factor yield (Recipe.items r) leaves → unfolds r factor leaves
with unfolds_items : Z → Z → list RecipeItem.t → list Leaf → Prop :=
| unfolds_nil factor yield : unfolds_items factor yield [] []
| unfolds_ingredient factor yield item items i net gross leaves :
    validateRecipeItem item = Ok tt → effectiveQuantities factor yield item = Ok (net, gross) →
    truthy (RecipeItem.ingredientId item) = Some i → unfolds_items factor yield items leaves →
    unfolds_items factor yield (item :: items) ((i, (net, gross)) :: leaves)
| unfolds_sub factor yield item items s sub net gross leaves leaves' :
    validateRecipeItem item = Ok tt → effectiveQuantities factor yield item = Ok (net, gross) →
    truthy (RecipeItem.ingredientId item) = None → subOf item = Some s → recipeResolver s = Some sub →
    unfolds sub gross leaves → unfolds_items factor yield items leaves' →
    unfolds_items factor yield (item :: items) (leaves ++ leaves').

Scheme unfolds_min := Minimality for unfolds Sort Prop
  with unfolds_items_min := Minimality for unfolds_items Sort Prop.
Combined Scheme unfolds_mutind from unfolds_min, unfolds_items_min.

Definition addLeaf (acc : Totals) (l : Leaf) : Totals := addTotals acc (fst l) (fst (snd l)) (snd (snd l)).

(** an unfolding reaches every sub-recipe, and ends *)
Lemma unfolds_acc :
  (∀ r factor leaves, unfolds r factor leaves → Acc (λ r' r, uses recipeResolver r r') r) ∧
  (∀ factor yield items leaves, unfolds_items factor yield items leaves →
    ∀ item s sub, item ∈ items → subOf item = Some s → recipeResolver s = Some sub → Acc (λ r' r, uses recipeResolver r r') sub).
Proof.
  apply unfolds_mutind.
  - intros r factor yield leaves _ _ IH. constructor. intros r' (s & (item & Hin & Hs) & Hr). by eapply IH.
  - by intros factor yield item s sub ?%not_elem_of_nil.
  - intros factor yield item items i net gross leaves Hv _ Hi _ IH item' s sub [->|Hin]%elem_of_cons Hs Hr; [|by eapply IH].
    exfalso. unfold validateRecipeItem in Hv. rewrite Hi in Hv. unfold subOf in Hs. rewrite Hs in Hv. discriminate Hv.
  - intros factor yield item items s sub net gross leaves leaves' Hv _ Hi Hs Hr _ IH1 _ IH2 item' s' sub' [->|Hin]%elem_of_cons Hs' Hr'; [|by eapply IH2].
    congruence.
Qed.

(** the stack holds the recipes on the way from the root *)
Definition ancestors (r : Recipe.t) (visitedStack : list string) : Prop :=
  ∀ v, v ∈ visitedStack → ∃ rv, recipeResolver v = Some rv ∧ rtc (uses recipeResolver) rv r.

Lemma ancestors_push r s sub visitedStack : uses recipeResolver r sub → recipeResolver s = Some sub →
  ancestors r visitedStack → ancestors sub (visitedStack ++ [s]).
Proof.
  intros Hu Hs Ha v [Hv|Hv]%elem_of_app; [|apply list_elem_of_singleton in Hv as ->; by exists sub].
  destruct (Ha v Hv) as (rv & Hrv & Hp). exists rv. split; [done|]. by eapply rtc_r.
Qed.

Lemma acc_no_cycle r : Acc (λ r' r, uses recipeResolver r r') r → ∀ r', uses recipeResolver r r' → ¬ rtc (uses recipeResolver) r' r.
Proof.
  intros Hacc. induction Hacc as [r _ IH]. intros r' Hu Hp. inversion Hp as [|? r'' ? Hu' Hp']; subst.
  - by apply (IH r Hu r Hu).
  - apply (IH r' Hu r'' Hu'). by eapply rtc_r.
Qed.

(** what the traversal returns where the recipe unfolds *)
Lemma explode_complete :
  (∀ r factor leaves, unfolds r factor leaves → ∀ fuel visitedStack acc, ancestors r visitedStack →
    explodeRecursive recipeResolver fuel r factor visitedStack acc = None ∨
    explodeRecursive recipeResolver fuel r factor visitedStack acc = Some (Ok (foldl addLeaf acc leaves))) ∧
  (∀ factor yield items leaves, unfolds_items factor yield items leaves → ∀ fuel r visitedStack acc,
    (∀ item, item ∈ items → item ∈ Recipe.items r) → Acc (λ r' r, uses recipeResolver r r') r → ancestors r visitedStack →
    let run := comp_fold (explodeItem recipeResolver (explodeRecursive recipeResolver fuel) factor yield visitedStack) items acc in
    run = None ∨ run = Some (Ok (foldl addLeaf acc leaves))).
Proof.
  apply unfolds_mutind.
  - intros r factor yield leaves Hy Hi IH [|fuel] visitedStack acc Ha; [by left|]. cbn [explodeRecursive]. rewrite Hy. cbn [comp_bind].
    apply (IH fuel r visitedStack acc); [done| |done]. apply (proj1 unfolds_acc r factor leaves). by econstructor.
  - intros factor yield fuel r visitedStack acc _ _ _. by right.
  - intros factor yield item items i net gross leaves Hv Hq Hi Hrest IH fuel r visitedStack acc Hin Hacc Ha. cbn [comp_fold].
    unfold explodeItem at 1 3. rewrite Hv, Hq. cbn [comp_bind]. rewrite Hi. cbn [comp_bind fst snd].
    apply (IH fuel r visitedStack); [|done..]. intros it Hit. apply Hin. set_solver.
  - intros factor yield item items s sub net gross leaves leaves' Hv Hq Hi Hs Hr Hsub IH1 Hrest IH2 fuel r visitedStack acc Hin Hacc Ha.
    cbn [comp_fold]. unfold explodeItem at 1 3. rewrite Hv, Hq. cbn [comp_bind]. rewrite Hi. unfold subOf in Hs. rewrite Hs, Hr.
    assert (Hu : uses recipeResolver r sub) by (exists s; split; [exists item; split; [apply Hin; set_solver|done]|done]).
    rewrite bool_decide_eq_false_2.
    2: { intros (rv & Hrv & Hp)%Ha. assert (rv = sub) as -> by congruence. by eapply acc_no_cycle. }
    cbn [fst snd]. destruct (IH1 fuel (visitedStack ++ [s]) acc) as [H|H]; [by eapply ancestors_push|rewrite H; by left|].
    rewrite H. cbn [comp_bind]. rewrite foldl_app. apply (IH2 fuel r visitedStack); [|done..].
    intros it Hit. apply Hin. set_solver.
Qed.

(** what the traversal returns comes from an unfolding *)
Lemma explode_sound fuel r factor visitedStack acc acc' :
  explodeRecursive recipeResolver fuel r factor visitedStack acc = Some (Ok acc') →
  ∃ leaves, unfolds r factor leaves ∧ acc' = foldl addLeaf acc leaves.
Proof.
  revert r factor visitedStack acc acc'. induction fuel as [|fuel IH]; intros r factor visitedStack acc acc'; [done|].
  cbn [explodeRecursive]. rewrite comp_bind_ok. intros (yield & [= Hy] & H).
  assert (∃ leaves, unfolds_items factor yield (Recipe.items r) leaves ∧ acc' = foldl addLeaf acc leaves) as (leaves & Hl & ->).
  { revert acc H. generalize (Recipe.items r) as items. induction items as [|item items IHi]; intros acc; cbn [comp_fold].
    - intros [= <-]. exists []. split; [constructor|done].
    - rewrite comp_bind_ok. intros (acc1 & H1 & (leaves' & Hl' & ->)%IHi). unfold explodeItem in H1.
      apply comp_bind_ok in H1 as ([] & [= Hv] & H1). apply comp_bind_ok in H1 as ([net gross] & [= Hq] & H1). cbn [fst snd] in H1.
      destruct (truthy (RecipeItem.ingredientId item)) as [i|] eqn:Hi.
      + injection H1 as <-. exists ((i, (net, gross)) :: leaves'). split; [by eapply unfolds_ingredient|done].
      + destruct (truthy (RecipeItem.subRecipeId item)) as [s|] eqn:Hs.
        2: { unfold validateRecipeItem in Hv. by rewrite Hi, Hs in Hv. }
        case_bool_decide; [done|]. destruct (recipeResolver s) as [sub|] eqn:Hr; [|done].
        apply IH in H1 as (leaves & Hl & ->). exists (leaves ++ leaves'). split; [by eapply unfolds_sub|by rewrite foldl_app]. }
  exists leaves. split; [by econstructor|done].
Qed.

(** ** Reported cycles *)

(** each recipe of the path names the next *)
Definition walk (path : list string) : Prop :=
  ∀ i a b, path !! i = Some a → path !! S i = Some b → ∃ ra, recipeResolver a = Some ra ∧ names ra b.

Lemma walk_snoc path v r s : walk path → last path = Some v → recipeResolver v = Some r → names r s → walk (path ++ [s]).
Proof.
  intros Hw Hlast Hv Hn i a b Ha Hb. rewrite last_lookup in Hlast. destruct (decide (S i < List.length path)%nat) as [Hi|Hi].
  - rewrite lookup_app_l in Ha, Hb by lia. by eapply Hw.
  - apply lookup_lt_Some in Hb as Hlen. rewrite length_app in Hlen. simpl in Hlen. assert (i = pred (List.length path)) as -> by lia.
    rewrite lookup_app_l in Ha by lia. rewrite lookup_app_r in Hb by lia.
    replace (S (pred (List.length path)) - List.length path)%nat with 0%nat in Hb by lia. injection Hb as <-.
    exists r. split; [congruence|done].
Qed.

Lemma explode_cycle fuel r factor visitedStack v acc path :
  walk visitedStack → last visitedStack = Some v → recipeResolver v = Some r →
  explodeRecursive recipeResolver fuel r factor visitedStack acc = Some (Err (CycleDetectedError path)) →
  walk path ∧ head path = head visitedStack ∧ ¬ NoDup path.
Proof.
  revert r factor visitedStack v acc. induction fuel as [|fuel IH]; intros r factor visitedStack v acc Hw Hlast Hv; [done|].
  cbn [explodeRecursive]. rewrite comp_bind_err. intros [H|(yield & _ & (item & acc' & Hin & H)%comp_fold_err)].
  { injection H. unfold recipeYield, parseDecimal12x4. repeat case_match; try done; simpl; repeat case_match; done. }
  unfold explodeItem in H. apply comp_bind_err in H as [H|(? & _ & H)].
  { injection H. unfold validateRecipeItem. by case_match. }
  apply comp_bind_err in H as [H|(q & _ & H)].
  { injection H. unfold effectiveQuantities, parseDecimal12x4, divideScale4. repeat (case_match; simpl; try done). }
  destruct (truthy (RecipeItem.ingredientId item)); [done|]. destruct (truthy (RecipeItem.subRecipeId item)) as [s|] eqn:Hs; [|done].
  assert (Hn : names r s) by by exists item. assert (Hw' : walk (visitedStack ++ [s])) by by eapply walk_snoc.
  assert (Hhead : head (visitedStack ++ [s]) = head visitedStack) by by destruct visitedStack.
  case_bool_decide as Hvis.
  - injection H as <-. split_and!; [done|done|]. intros (_ & Hd & _)%NoDup_app. by apply (Hd s Hvis), list_elem_of_singleton.
  - destruct (recipeResolver s) as [sub|] eqn:Hr; [|done]. rewrite <- Hhead. eapply IH; [done|by rewrite last_snoc|exact Hr|exact H].
Qed.
End unfolding.

(** ** Totals *)

Definition netOf (i : string) (leaves : list Leaf) : Z := sumZ (λ l, fst (snd l)) (filter (λ l, fst l = i) leaves).
Definition grossOf (i : string) (leaves : list Leaf) : Z := sumZ (λ l, snd (snd l)) (filter (λ l, fst l = i) leaves).

Lemma addLeaf_lookup acc l i : addLeaf acc l !! i =
  if decide (fst l = i) then Some (let '(n, g) := default (0, 0) (acc !! i) in (n + fst (snd l), g + snd (snd l))) else acc !! i.
Proof.
  unfold addLeaf, addTotals. destruct l as [j [net gross]]. cbn [fst snd]. case_decide as Hij.
  - subst i. destruct (default (0, 0) (acc !! j)) as [n g]. by rewrite lookup_insert_eq.
  - destruct (default (0, 0) (acc !! j)) as [n g]. by rewrite lookup_insert_ne.
Qed.

Lemma totals_lookup leaves acc i :
  foldl addLeaf acc leaves !! i =
    match acc !! i with
    | Some (n, g) => Some (n + netOf i leaves, g + grossOf i leaves)
    | None => if decide (i ∈ fst <$> leaves) then Some (netOf i leaves, grossOf i leaves) else None
    end.
Proof.
  revert acc. induction leaves as [|l leaves IH]; intros acc.
  - cbn [foldl]. destruct (acc !! i) as [[n g]|]; [|done]. unfold netOf, grossOf. simpl. do 2 f_equal; lia.
  - cbn [foldl]. rewrite IH, addLeaf_lookup, fmap_cons. unfold netOf, grossOf. rewrite !filter_cons.
    destruct (decide (fst l = i)) as [Hl|Hl].
    + rewrite !sumZ_cons. destruct (acc !! i) as [[n g]|]; [change (default (0, 0) (Some (n, g))) with (n, g); cbv iota beta; by rewrite !Z.add_assoc|].
      rewrite decide_True by set_solver. done.
    + destruct (acc !! i) as [[n g]|]; [done|]. destruct (decide (i ∈ fst <$> leaves)) as [Hi|Hi].
      * by rewrite decide_True by set_solver.
      * by rewrite decide_False by set_solver.
Qed.

Lemma result_all_ok {A B} (f : A → result InventoryError B) l bs : result_all f l = Ok bs ↔ Forall2 (λ a b, f a = Ok b) l bs.
Proof.
  revert bs. induction l as [|a l IH]; intros bs; cbn [result_all].
  - split; [intros [= <-]; constructor|]. by inversion 1.
  - destruct (f a) as [b|e] eqn:Ha; cbn [result_bind].
    + destruct (result_all f l) as [bs'|e]; cbn [result_map].
      * split; [intros [= <-]; constructor; [done|by apply IH]|]. inversion 1 as [|? b' ? bs'' Hb Hl]; subst.
        apply IH in Hl. congruence.
      * split; [done|]. inversion 1 as [|? b' ? bs'' Hb Hl]; subst. by apply IH in Hl.
    + split; [done|]. inversion 1; congruence.
Qed.

Definition alphabetical : relation string := λ s t, String.leb s t = true.
#[export] Instance alphabetical_antisymm : AntiSymm (=) alphabetical.
Proof. intros s t Hs Ht. by apply String.leb_antisym. Qed.

Lemma StronglySorted_fmap {A B} (f : A → B) (R : B → B → Prop) l :
  StronglySorted (λ x y, R (f x) (f y)) l → StronglySorted R (f <$> l).
Proof. induction 1 as [|x l _ IH Hx]; [constructor|]. rewrite fmap_cons. constructor; [done|]. by rewrite Forall_fmap. Qed.

Lemma sorted_keys (m : Totals) : StronglySorted alphabetical (fst <$> orderBy fst (map_to_list m)).
Proof. apply StronglySorted_fmap, orderBy_sorted. Qed.

Lemma keys_permutation (m : Totals) : fst <$> orderBy fst (map_to_list m) ≡ₚ fst <$> map_to_list m.
Proof. by rewrite orderBy_permutation. Qed.

(** the rows of an explosion: one per ingredient of the unfolding, in alphabetical order, with
    the sums of its amounts *)
Definition rows_of (leaves : list Leaf) (rows : list ExplodedIngredient.t) : Prop :=
  StronglySorted alphabetical (ExplodedIngredient.ingredientId <$> rows) ∧
  NoDup (ExplodedIngredient.ingredientId <$> rows) ∧
  (∀ i, i ∈ ExplodedIngredient.ingredientId <$> rows ↔ i ∈ fst <$> leaves) ∧
  Forall (λ row,
    formatDecimal12x4 (netOf (ExplodedIngredient.ingredientId row) leaves) = Ok (ExplodedIngredient.totalQuantity row) ∧
    formatDecimal12x4 (grossOf (ExplodedIngredient.ingredientId row) leaves) = Ok (ExplodedIngredient.totalGrossQuantity row)) rows.

Definition totalsOf (leaves : list Leaf) : Totals := foldl addLeaf ∅ leaves.

Lemma totalsOf_lookup leaves i :
  totalsOf leaves !! i = if decide (i ∈ fst <$> leaves) then Some (netOf i leaves, grossOf i leaves) else None.
Proof. unfold totalsOf. by rewrite totals_lookup, lookup_empty. Qed.

Lemma elem_of_keys leaves i : i ∈ fst <$> orderBy fst (map_to_list (totalsOf leaves)) ↔ i ∈ fst <$> leaves.
Proof.
  rewrite keys_permutation, list_elem_of_fmap. split.
  - intros ([j v] & -> & Hin). apply elem_of_map_to_list in Hin. rewrite totalsOf_lookup in Hin. by case_decide.
  - intros Hi. exists (i, (netOf i leaves, grossOf i leaves)). split; [done|]. apply elem_of_map_to_list.
    by rewrite totalsOf_lookup, decide_True.
Qed.

Lemma NoDup_keys (m : Totals) : NoDup (fst <$> orderBy fst (map_to_list m)).
Proof. rewrite keys_permutation. apply NoDup_fst_map_to_list. Qed.

Definition formatRow (e : string * (Z * Z)) : result InventoryError ExplodedIngredient.t :=
  let '(id, (netScaled, grossScaled)) := e in
  result_bind (formatDecimal12x4 netScaled) (λ net,
  result_map (λ gross, ExplodedIngredient.mk id net gross) (formatDecimal12x4 grossScaled)).

Lemma formatRow_ok i n g row : formatRow (i, (n, g)) = Ok row ↔
  ExplodedIngredient.ingredientId row = i ∧ formatDecimal12x4 n = Ok (ExplodedIngredient.totalQuantity row) ∧
  formatDecimal12x4 g = Ok (ExplodedIngredient.totalGrossQuantity row).
Proof.
  unfold formatRow. destruct row as [i' net gross]. cbn. destruct (formatDecimal12x4 n) as [net'|]; cbn.
  - destruct (formatDecimal12x4 g) as [gross'|]; cbn; naive_solver.
  - naive_solver.
Qed.

Lemma explodedRows_spec leaves rows : explodedRows (totalsOf leaves) = Ok rows ↔ rows_of leaves rows.
Proof.
  unfold explodedRows. change (λ '(id, (netScaled, grossScaled)), _) with formatRow. rewrite result_all_ok.
  assert (Hentry : ∀ i n g, (i, (n, g)) ∈ orderBy fst (map_to_list (totalsOf leaves)) → n = netOf i leaves ∧ g = grossOf i leaves).
  { intros i n g Hin. rewrite elem_of_orderBy, elem_of_map_to_list, totalsOf_lookup in Hin. case_decide; naive_solver. }
  pose proof (elem_of_keys leaves) as Hkeys. pose proof (sorted_keys (totalsOf leaves)) as Hsorted.
  pose proof (NoDup_keys (totalsOf leaves)) as Hnd. revert Hentry Hkeys Hsorted Hnd.
  generalize (orderBy fst (map_to_list (totalsOf leaves))) as l. intros l Hentry Hkeys Hsorted Hnd. split.
  - intros Hf. assert (Hids : ExplodedIngredient.ingredientId <$> rows = fst <$> l).
    { clear -Hf. induction Hf as [|[i [n g]] row l rows Hrow _ IH]; [done|]. apply formatRow_ok in Hrow as (<- & _). by rewrite !fmap_cons, IH. }
    unfold rows_of. rewrite Hids. split_and!; [done|done|done|].
    apply Forall_forall. intros row Hin. apply list_elem_of_lookup in Hin as [k Hk].
    destruct (Forall2_lookup_r _ _ _ _ _ Hf Hk) as ([i [n g]] & Hl & Hrow). apply formatRow_ok in Hrow as (-> & Hn & Hg).
    destruct (Hentry i n g) as [-> ->]; [by eapply list_elem_of_lookup_2|done].
  - intros (Hs & Hnd' & Hin & Hrows). assert (Hids : fst <$> l = ExplodedIngredient.ingredientId <$> rows).
    { apply (StronglySorted_unique alphabetical); [done..|]. apply NoDup_Permutation; [done|done|]. intros i. by rewrite Hkeys, Hin. }
    clear -Hids Hrows Hentry. revert rows Hids Hrows. induction l as [|[i [n g]] l IH]; intros [|row rows] Hids Hrows; [constructor|done|done|].
    rewrite !fmap_cons in Hids. cbn [fst] in Hids. injection Hids as Hi Hids. apply Forall_cons in Hrows as [[Hn Hg] Hrows].
    constructor; [|apply IH; [|done|done]; intros; apply Hentry; set_solver]. apply formatRow_ok.
    destruct (Hentry i n g) as [-> ->]; [set_solver|]. by rewrite Hi.
Qed.

(** ** Properties *)

(** C33: explosion of recipes.  On any finite recipe book the engine ends.  It returns rows
    exactly when the recipe unfolds to finitely many ingredients whose totals fit
    DECIMAL(12,4), and then one row per ingredient of the unfolding, in alphabetical order,
    with the sums of the net and gross amounts over all the paths that reach it.  A reported
    cycle is a path of the book that starts at the root and visits a recipe twice; and no
    recipe that reaches a cycle ever explodes to rows. *)
Theorem explosion_is_unfolding recipeResolver ids root fuel :
  (∀ s, is_Some (recipeResolver s) → s ∈ ids) → recipeResolver (Recipe.id root) = Some root → (List.length ids < fuel)%nat →
  ∃ res, explodeIngredients recipeResolver fuel root = Some res ∧
    (∀ rows, res = Ok rows ↔ ∃ leaves, unfolds recipeResolver root 10000 leaves ∧ rows_of leaves rows) ∧
    (∀ path, res = Err (CycleDetectedError path) → head path = Some (Recipe.id root) ∧ walk recipeResolver path ∧ ¬ NoDup path) ∧
    (∀ r, rtc (uses recipeResolver) root r → tc (uses recipeResolver) r r → ∀ rows, res ≠ Ok rows).
Proof.
  intros Hbook Hroot Hfuel. pose proof (explode_ends recipeResolver ids Hbook fuel root 10000 [Recipe.id root] ∅ (enough_fuel ids _ _ Hfuel)) as Hends.
  unfold explodeIngredients. destruct (explodeRecursive _ _ _ _ _ _) as [out|] eqn:Hrun; [|done].
  assert (Hiff : ∀ rows, comp_bind (Some out) (λ m, Some (explodedRows m)) = Some (Ok rows) ↔
    ∃ leaves, unfolds recipeResolver root 10000 leaves ∧ rows_of leaves rows).
  { intros rows. rewrite comp_bind_ok. split.
    - intros (m & [= ->] & [= Hrows]). apply explode_sound in Hrun as (leaves & Hu & ->). exists leaves. split; [done|by apply explodedRows_spec].
    - intros (leaves & Hu & Hrows). assert (Ha : ancestors recipeResolver root [Recipe.id root]).
      { intros v ->%list_elem_of_singleton. by exists root. }
      destruct (proj1 (explode_complete recipeResolver) root 10000 leaves Hu fuel [Recipe.id root] ∅ Ha) as [H|H]; [congruence|].
      rewrite Hrun in H. injection H as ->. exists (totalsOf leaves). split; [done|]. by rewrite (proj2 (explodedRows_spec leaves rows) Hrows). }
  destruct (comp_bind (Some out) (λ m, Some (explodedRows m))) as [res|] eqn:Hres; [|by destruct out].
  exists res. split; [done|]. split_and!.
  - intros rows. rewrite <- Hiff. split; [by intros ->|by intros [= ->]].
  - intros path ->. apply comp_bind_err in Hres as [[= ->]|(m & _ & [= H])].
    + apply (explode_cycle recipeResolver fuel root 10000 [Recipe.id root] (Recipe.id root)) in Hrun as (Hw & Hh & Hnd); [|by intros [] ? ? ?|done|done].
      done.
    + exfalso. revert H. unfold explodedRows. generalize (orderBy fst (map_to_list m)) as l. clear.
      induction l as [|[i [n g]] l IH]; [done|]. cbn [result_all]. unfold formatDecimal12x4. repeat (case_match; simpl; try done).
      destruct (result_all _ l); naive_solver.
  - intros r Hr Hloop rows ->. destruct (proj1 (Hiff rows) eq_refl) as (leaves & Hu & _).
    apply (proj1 (unfolds_acc recipeResolver)) in Hu. clear -Hu Hr Hloop.
    assert (Hacc : Acc (λ r' r, uses recipeResolver r r') r).
    { induction Hr as [|r1 r2 r3 H12 _ IH]; [done|]. apply IH; [done|]. by apply Hu. }
    inversion Hloop as [? ? Hu'|? r' ? Hu' Hp]; subst; [by eapply acc_no_cycle|].
    apply (acc_no_cycle _ r Hacc r' Hu'). by apply tc_rtc.
Qed.

(** a dough (two portions) in a pizza, both with salt *)
Definition exampleItem (id recipe : string) (ingredient sub : option string) (quantity gross : string) : RecipeItem.t :=
  RecipeItem.mk id "org" recipe ingredient sub quantity gross "0.0000" "2026-01-01T00:00:00.000Z".
Definition exampleRecipe (id yieldQuantity : string) (items : list RecipeItem.t) : Recipe.t :=
  Recipe.mk id "org" None id id yieldQuantity "PZ" "0.0000" true items "2026-01-01T00:00:00.000Z" "2026-01-01T00:00:00.000Z".
Definition exampleDough : Recipe.t :=
  exampleRecipe "dough" "2.0000" [exampleItem "d1" "dough" (Some "flour") None "1.0000" "1.1000"; exampleItem "d2" "dough" (Some "salt") None "0.0100" "0.0100"].
Definition examplePizza : Recipe.t :=
  exampleRecipe "pizza" "1.0000" [exampleItem "p1" "pizza" (Some "salt") None "0.0020" "0.0020"; exampleItem "p2" "pizza" None (Some "dough") "1.0000" "1.0000"].
Definition exampleBook (s : string) : option Recipe.t :=
  if bool_decide (s = "pizza") then Some examplePizza else if bool_decide (s = "dough") then Some exampleDough else None.

Lemma explosion_is_unfolding_witness : ∃ leaves, unfolds exampleBook examplePizza 10000 leaves ∧
  rows_of leaves [ExplodedIngredient.mk "flour" "0.5000" "0.5500"; ExplodedIngredient.mk "salt" "0.0070" "0.0070"].
Proof.
  destruct (explosion_is_unfolding exampleBook ["pizza"; "dough"] examplePizza 3) as (res & Hres & Hiff & _).
  - intros s [r Hr]. unfold exampleBook in Hr. repeat case_bool_decide; subst; [set_solver..|done].
  - vm_compute. reflexivity.
  - simpl. lia.
  - apply Hiff. vm_compute in Hres. injection Hres as <-. reflexivity.
Defined.
