(* ===== verification/Kardex.v ===== *)
(** The cloud kardex: PostgresCloudInventoryService of packages/cloud-server/src/index.ts over
    the tables of the migrations 20260904230000 and 20260905000000, with the outbox enqueue
    of database/src/outbox and the transaction wrapper of database/src/tenant.ts.

    An operation is one transaction.  It first takes advisory locks (the aggregate of a waste;
    the source order, then each aggregate in alphabetical order, of a depletion) and reads
    after taking them at READ COMMITTED, so what it reads of the rows it extends is what a
    serial run reads; each is one step on the tables.  Two wastes with one command id on
    different aggregates may overlap; then the UNIQUE constraint refuses the second, where the
    serial run modelled here answers the first one's record.

    NUMERIC(12,4) columns that the service writes hold their scaled value and are read through
    [::text]; the catalogue (recipes, ingredients), which it only reads, holds the text.
    Identifiers and clocks are drawn values ([Draws]).  Foreign keys to branches, warehouses
    and users are not modelled, nor the trigger that re-reads the movement a waste has just
    inserted.  The modifier resolver is an argument; a rejected promise and null are [None]. *)
From S2P Require Import Prelude Decimals Money Recipes.
From Stdlib Require Import Ascii String.

(** ** Tables *)

Module RecipeRow.
(* 20260904230000_inventory_catalog_and_recipes.sql:42-57 recipes *)
Record t := mk {
  id : string; organizationId : string; productId : option string; code : string; name : string; yieldQuantity : string;
  yieldUnit : string; totalCost : string; isActive : bool; createdAt : string; updatedAt : string }.
End RecipeRow.

Module IngredientRow.
(* 20260904230000_inventory_catalog_and_recipes.sql:26-39 ingredients *)
Record t := mk { id : string; organizationId : string; currentAverageCost : string }.
End IngredientRow.

Module StockLedger.
(* 20260905000000_inventory_kardex_kds_depletion.sql:12-34 stock_ledger *)
Record t := mk {
  id : string; organizationId : string; branchId : string; warehouseId : string; ingredientId : string;
  movementType : StockMovementType.t; referenceEventId : string; quantityDelta : Z; unitCost : Z; totalCost : Z;
  balanceAfter : Z; movementSequenceNumber : Z; createdAt : string }.
End StockLedger.

Module StockLedgerEntry.
(* inventory types.ts:101-115 StockLedgerEntry *)
Record t := mk {
  id : string; organizationId : string; branchId : string; warehouseId : string; ingredientId : string;
  movementType : StockMovementType.t; referenceEventId : string; quantityDelta : string; unitCost : string; totalCost : string;
  balanceAfter : string; movementSequenceNumber : string; createdAt : string }.
End StockLedgerEntry.

Module WasteRecord.
(* inventory types.ts:130-143 WasteRecord *)
Record t := mk {
  id : string; organizationId : string; branchId : string; warehouseId : string; ingredientId : string; stockLedgerId : string;
  commandId : string; reasonCode : string; photoAttachmentUrl : string; notes : option string; actorId : option string;
  createdAt : string }.
End WasteRecord.

Module NegativeStockSignal.
(* inventory types.ts:145-152 NegativeStockSignal *)
Record t := mk {
  organizationId : string; branchId : string; warehouseId : string; ingredientId : string; balanceAfter : string; timestamp : string }.
End NegativeStockSignal.

Module SelectedModifier.
(* inventory types.ts:157-160 KdsOrderProducedItemDTO *)
Record t := mk { modifierId : string; quantity : option string }.
End SelectedModifier.

Module KdsProducedItem.
(* inventory types.ts:154-161 KdsOrderProducedItemDTO *)
Record t := mk { productoId : string; cantidad : string; selectedModifiers : option (list SelectedModifier.t) }.
End KdsProducedItem.

Module KdsOrderProduced.
(* inventory types.ts:163-171 KdsOrderProducedEventDTO *)
Record t := mk {
  organizacionId : string; sucursalId : string; centroConsumoId : string; ordenId : string; fechaHora : string;
  tiempoPreparacionMinutos : Z; items : list KdsProducedItem.t }.
End KdsOrderProduced.

Module DiscountedMovement.
(* inventory types.ts:173-180 InventarioDescontadoMovementItem *)
Record t := mk {
  ledgerId : string; ingredientId : string; quantityDelta : string; unitCost : string; totalCost : string; balanceAfter : string }.
End DiscountedMovement.

Module InventarioDescontado.
(* inventory types.ts:182-190 InventarioDescontadoPorRecetaPayload *)
Record t := mk {
  organizationId : string; branchId : string; warehouseId : string; ordenId : string; movements : list DiscountedMovement.t;
  negativeStockAlerts : list NegativeStockSignal.t; timestamp : string }.
End InventarioDescontado.

Module CloudOutbox.
(* outbox types.ts:52-70 CloudIntegrationOutboxRecord *)
Record t := mk {
  id : string; organizationId : string; branchId : option string; eventType : string; aggregateType : string;
  aggregateId : string; payload : InventarioDescontado.t; status : string; retryCount : Z; deliveryAttempts : Z;
  maxRetries : Z; nextRetryAt : string }.
End CloudOutbox.

Module QuarantineStatus.
(* inventory types.ts:221-221 QuarantineRecord *)
Inductive t := PENDING | REPLAYED | REJECTED.
#[global] Instance eq_dec : EqDecision t.
Proof. solve_decision. Defined.
End QuarantineStatus.

Module QuarantineRecord.
(* inventory types.ts:214-224 QuarantineRecord *)
Record t := mk {
  id : string; organizationId : string; branchId : string; sourceEventId : string; payload : KdsOrderProduced.t;
  reason : string; status : QuarantineStatus.t; createdAt : string; replayedAt : option string }.
#[global] Instance eta_t : Eta t := λ r,
  mk (id r) (organizationId r) (branchId r) (sourceEventId r) (payload r) (reason r) (status r) (createdAt r) (replayedAt r).
End QuarantineRecord.

Module KdsDepletionResult.
(* inventory types.ts:192-212 KdsDepletionResult *)
Inductive t :=
| APPLIED (ordenId : string) (movements : list StockLedgerEntry.t) (negativeStockAlerts : list NegativeStockSignal.t) (outboxEventId : string)
| DUPLICATE_ACCEPTED (ordenId : string) (movements : list StockLedgerEntry.t) (negativeStockAlerts : list NegativeStockSignal.t)
    (outboxEventId : string)
| QUARANTINED (ordenId quarantineId reason : string).
End KdsDepletionResult.

Module WasteResult.
(* cloud-server index.ts:322-326 PostgresCloudInventoryService.registerWaste *)
Record t := mk { movement : StockLedgerEntry.t; wasteRecord : WasteRecord.t; negativeStockAlert : option NegativeStockSignal.t }.
End WasteResult.

Module ModifierImpact.
(* modifier-resolver.ts:18-28 ResolvedModifierImpact *)
Record t := mk { additionalIngredients : list (string * string); removedIngredients : list string }.
End ModifierImpact.

(** organisation, recipe, modifier and quantity *)
(* modifier-resolver.ts:34-38 ModifierRecipeResolver *)
Definition ModifierRecipeResolver : Type := string → string → string → string → option ModifierImpact.t.

(** the tables *)
Module InvDb.
Record t := mk {
  recipes : list RecipeRow.t; recipe_items : list RecipeItem.t; ingredients : list IngredientRow.t;
  stock_ledger : list StockLedger.t; waste_records : list WasteRecord.t; quarantine_records : list QuarantineRecord.t;
  outbox : list CloudOutbox.t }.
#[global] Instance eta_t : Eta t := λ d,
  mk (recipes d) (recipe_items d) (ingredients d) (stock_ledger d) (waste_records d) (quarantine_records d) (outbox d).
End InvDb.

(** [gen_random_uuid()] for each table, [NOW()] of the transaction, [new Date()] of the payload;
    a movement's id depends on its position in the transaction *)
Module Draws.
Record t := mk {
  ledgerId : nat → string; wasteId : string; quarantineId : string; outboxId : string; now : string; payloadTimestamp : string }.
End Draws.

Inductive KardexError :=
| Inventory (e : InventoryError)
| Plain (message : string)
| Postgres (constraint : string).

Abbreviation Tx := (M InvDb.t KardexError).

Definition inventory {A} (r : result InventoryError A) : Tx A :=
  lift (match r with Ok a => Ok a | Err e => Err (Inventory e) end).

(** a recursion of the engine; that it ends is proved *)
Definition ended {A} (c : Comp A) : result KardexError A :=
  match c with
  | Some (Ok a) => Ok a
  | Some (Err e) => Err (Inventory e)
  | None => Err (Plain "the recursion did not end")
  end.

(* tenant.ts:32-50 withTenantTransaction *)
Definition withTenantTransaction {A} (callback : Tx A) : Tx A :=
  λ db, match callback db with (db', Ok a) => (db', Ok a) | (_, Err e) => (db, Err e) end.

(** ** Reads *)

(** a decimal column [::text] *)
Definition decimalText (n : Z) : string := scaledBigIntToDecimalString n.

Definition toEntry (row : StockLedger.t) : StockLedgerEntry.t :=
  StockLedgerEntry.mk (StockLedger.id row) (StockLedger.organizationId row) (StockLedger.branchId row) (StockLedger.warehouseId row)
    (StockLedger.ingredientId row) (StockLedger.movementType row) (StockLedger.referenceEventId row)
    (decimalText (StockLedger.quantityDelta row)) (decimalText (StockLedger.unitCost row)) (decimalText (StockLedger.totalCost row))
    (decimalText (StockLedger.balanceAfter row)) (toString (Z.to_N (StockLedger.movementSequenceNumber row))) (StockLedger.createdAt row).

(** the rows of one aggregate *)
Definition ofAggregate (org branch warehouse ingredient : string) (row : StockLedger.t) : Prop :=
  StockLedger.organizationId row = org ∧ StockLedger.branchId row = branch ∧ StockLedger.warehouseId row = warehouse ∧
  StockLedger.ingredientId row = ingredient.
#[global] Instance ofAggregate_dec org branch warehouse ingredient row : Decision (ofAggregate org branch warehouse ingredient row).
Proof. unfold ofAggregate. solve_decision. Defined.

Definition aggregateRows (db : InvDb.t) (org branch warehouse ingredient : string) : list StockLedger.t :=
  filter (ofAggregate org branch warehouse ingredient) (InvDb.stock_ledger db).

(* cloud-server index.ts:1261-1276 PostgresCloudInventoryService.getDerivedPriorBalanceWithClient *)
Definition getDerivedPriorBalance (org branch warehouse ingredient : string) : Tx Z :=
  rows ← gets (λ db, aggregateRows db org branch warehouse ingredient);
  inventory (parseDecimal12x4 (decimalText (sumZ StockLedger.quantityDelta rows))).

(** COALESCE(MAX(movement_sequence_number), 0) + 1 *)
(* cloud-server index.ts:1278-1292 PostgresCloudInventoryService.getNextSequenceWithClient *)
Definition getNextSequence (db : InvDb.t) (org branch warehouse ingredient : string) : Z :=
  foldr Z.max 0 (StockLedger.movementSequenceNumber <$> aggregateRows db org branch warehouse ingredient) + 1.

(* cloud-server index.ts:294-311 PostgresCloudInventoryService.getCurrentStock *)
Definition getCurrentStock (org branch warehouse ingredient : string) : Tx string :=
  withTenantTransaction (
    balanceScaled ← getDerivedPriorBalance org branch warehouse ingredient;
    inventory (formatDecimal12x4 balanceScaled)).

(** ORDER BY created_at ASC, id ASC *)
(* cloud-server index.ts:1294-1368 PostgresCloudInventoryService.getRecipeWithClient *)
Definition getRecipeWithClient (db : InvDb.t) (organizationId recipeId : string) : option Recipe.t :=
  match list_find (λ r, RecipeRow.organizationId r = organizationId ∧ RecipeRow.id r = recipeId) (InvDb.recipes db) with
  | None => None
  | Some (_, r) =>
      let items := orderBy RecipeItem.createdAt (orderBy RecipeItem.id
        (filter (λ item, RecipeItem.organizationId item = organizationId ∧ RecipeItem.recipeId item = recipeId) (InvDb.recipe_items db))) in
      Some (Recipe.mk (RecipeRow.id r) (RecipeRow.organizationId r) (RecipeRow.productId r) (RecipeRow.code r) (RecipeRow.name r)
        (RecipeRow.yieldQuantity r) (RecipeRow.yieldUnit r) (RecipeRow.totalCost r) (RecipeRow.isActive r) items
        (RecipeRow.createdAt r) (RecipeRow.updatedAt r))
  end.

(* cloud-server index.ts:1370-1385 PostgresCloudInventoryService.getRecipeByProductIdWithClient *)
Definition getRecipeByProductIdWithClient (db : InvDb.t) (organizationId productId : string) : option Recipe.t :=
  match list_find (λ r, RecipeRow.organizationId r = organizationId ∧ RecipeRow.productId r = Some productId ∧
                        RecipeRow.isActive r = true) (InvDb.recipes db) with
  | None => None
  | Some (_, r) => getRecipeWithClient db organizationId (RecipeRow.id r)
  end.

(* cloud-server index.ts:1387-1402 PostgresCloudInventoryService.getIngredientAverageCostWithClient *)
Definition getIngredientAverageCostWithClient (db : InvDb.t) (organizationId ingredientId : string) : result KardexError string :=
  match list_find (λ r, IngredientRow.organizationId r = organizationId ∧ IngredientRow.id r = ingredientId) (InvDb.ingredients db) with
  | None => Err (Plain "Ingredient not found in organization")
  | Some (_, r) => Ok (IngredientRow.currentAverageCost r)
  end.

(** no path of sub-recipes without repetition is longer *)
Definition recipeFuel (db : InvDb.t) : nat := S (List.length (InvDb.recipes db)).

Definition explode (db : InvDb.t) (organizationId : string) (recipe : Recipe.t) : result KardexError (list ExplodedIngredient.t) :=
  ended (explodeIngredients (getRecipeWithClient db organizationId) (recipeFuel db) recipe).

(* cloud-server index.ts:245-261 PostgresCloudInventoryService.explodeRecipeIngredients *)
Definition explodeRecipeIngredients (organizationId recipeId : string) : Tx (list ExplodedIngredient.t) :=
  withTenantTransaction (
    found ← gets (λ db, getRecipeWithClient db organizationId recipeId);
    rootRecipe ← require found (Inventory (RecipeNotFoundError recipeId));
    exploded ← gets (λ db, explode db organizationId rootRecipe);
    lift exploded).

(** an ingredient that is not in the catalogue throws; the engine does not catch it *)
(* cloud-server index.ts:267-288 PostgresCloudInventoryService.calculateRecipeCost *)
Definition calculateRecipeCostById (organizationId recipeId : string) : Tx RecipeCost.t :=
  withTenantTransaction (
    found ← gets (λ db, getRecipeWithClient db organizationId recipeId);
    rootRecipe ← require found (Inventory (RecipeNotFoundError recipeId));
    cost ← gets (λ db, ended (calculateRecipeCost (getRecipeWithClient db organizationId)
      (λ ingredientId, match getIngredientAverageCostWithClient db organizationId ingredientId with
        | Ok cost => Ok cost
        | Err _ => Err (InventoryJs (PlainError "Ingredient not found in organization"))
        end) (recipeFuel db) rootRecipe));
    lift cost).

(** ** Writes *)

(** the row with its CHECK, UNIQUE and primary-key constraints *)
(* 20260905000000_inventory_kardex_kds_depletion.sql:13-33 stock_ledger *)
Definition insertLedger (row : StockLedger.t) : Tx unit :=
  rows ← gets InvDb.stock_ledger;
  throw_when (StockLedger.quantityDelta row =? 0) (Postgres "chk_stock_ledger_quantity_delta_nonzero") ;;
  throw_when (bool_decide (StockLedger.id row ∈ (StockLedger.id <$> rows))) (Postgres "stock_ledger_pkey") ;;
  throw_when (bool_decide (Exists (λ r,
      ofAggregate (StockLedger.organizationId row) (StockLedger.branchId row) (StockLedger.warehouseId row) (StockLedger.ingredientId row) r ∧
      StockLedger.movementSequenceNumber r = StockLedger.movementSequenceNumber row) rows)) (Postgres "uq_stock_ledger_seq") ;;
  throw_when (bool_decide (Exists (λ r,
      ofAggregate (StockLedger.organizationId row) (StockLedger.branchId row) (StockLedger.warehouseId row) (StockLedger.ingredientId row) r ∧
      StockLedger.movementType r = StockLedger.movementType row ∧ StockLedger.referenceEventId r = StockLedger.referenceEventId row) rows))
    (Postgres "uq_stock_ledger_idempotency") ;;
  modify (λ db, db <| InvDb.stock_ledger ::= λ l, l ++ [row] |>).

(** the movement both operations append: [quantity] leaves the aggregate *)
(* cloud-server index.ts:937-1002 PostgresCloudInventoryService.applyKdsDepletionLockedWithClient *)
Definition appendExit (id now org branch warehouse ingredient : string) (type : StockMovementType.t) (referenceEventId : string)
    (quantityScaled : result InventoryError Z) : Tx StockLedger.t :=
  cost ← gets (λ db, getIngredientAverageCostWithClient db org ingredient);
  unitCostStr ← lift cost;
  unitCostScaled ← inventory (parseDecimal12x4 unitCostStr);
  quantity ← inventory quantityScaled;
  quantityDeltaScaled ← inventory (negateScale4 quantity);
  let totalCostScaled := multiplyScale4 quantity unitCostScaled in
  priorBalanceScaled ← getDerivedPriorBalance org branch warehouse ingredient;
  nextSequence ← gets (λ db, getNextSequence db org branch warehouse ingredient);
  balanceAfterScaled ← inventory (addScale4 priorBalanceScaled quantityDeltaScaled);
  _ ← inventory (formatDecimal12x4 balanceAfterScaled);
  _ ← inventory (formatDecimal12x4 quantityDeltaScaled);
  _ ← inventory (formatDecimal12x4 unitCostScaled);
  _ ← inventory (formatDecimal12x4 totalCostScaled);
  let row := StockLedger.mk id org branch warehouse ingredient type referenceEventId quantityDeltaScaled unitCostScaled totalCostScaled
    balanceAfterScaled nextSequence now in
  insertLedger row ;;
  mret row.

(** the signal of a negative balance *)
(* cloud-server index.ts:1033-1042 PostgresCloudInventoryService.applyKdsDepletionLockedWithClient *)
Definition negativeStock (row : StockLedger.t) : option NegativeStockSignal.t :=
  if StockLedger.balanceAfter row <? 0
  then Some (NegativeStockSignal.mk (StockLedger.organizationId row) (StockLedger.branchId row) (StockLedger.warehouseId row)
    (StockLedger.ingredientId row) (decimalText (StockLedger.balanceAfter row)) (StockLedger.createdAt row))
  else None.

(** *** Waste *)

(** [length(trim(s)) = 0]: SQL trims spaces *)
Fixpoint onlySpaces (s : string) : bool :=
  match s with EmptyString => true | String c s' => bool_decide (c = " "%char) && onlySpaces s' end.

(* 20260905000000_inventory_kardex_kds_depletion.sql:63-88 inventory_waste_records *)
Definition insertWaste (row : WasteRecord.t) : Tx unit :=
  rows ← gets InvDb.waste_records;
  throw_when (onlySpaces (WasteRecord.reasonCode row)) (Postgres "chk_waste_records_reason_nonempty") ;;
  throw_when (onlySpaces (WasteRecord.photoAttachmentUrl row)) (Postgres "chk_waste_records_photo_nonempty") ;;
  throw_when (bool_decide (WasteRecord.id row ∈ (WasteRecord.id <$> rows))) (Postgres "inventory_waste_records_pkey") ;;
  throw_when (bool_decide (Exists (λ r, WasteRecord.organizationId r = WasteRecord.organizationId row ∧
      WasteRecord.commandId r = WasteRecord.commandId row) rows)) (Postgres "uq_waste_records_org_cmd") ;;
  throw_when (bool_decide (Exists (λ r, WasteRecord.organizationId r = WasteRecord.organizationId row ∧
      WasteRecord.stockLedgerId r = WasteRecord.stockLedgerId row) rows)) (Postgres "uq_waste_records_org_ledger") ;;
  modify (λ db, db <| InvDb.waste_records ::= λ l, l ++ [row] |>).

(* cloud-server index.ts:340-358 PostgresCloudInventoryService.registerWaste *)
Definition findWaste (db : InvDb.t) (organizationId commandId : string) : option WasteRecord.t :=
  snd <$> list_find (λ w, WasteRecord.organizationId w = organizationId ∧ WasteRecord.commandId w = commandId) (InvDb.waste_records db).

(** the command was applied before: its record and movement, as they are stored *)
(* cloud-server index.ts:361-435 PostgresCloudInventoryService.registerWaste *)
Definition replayWaste (organizationId : string) (ew : WasteRecord.t) : Tx WasteResult.t :=
  found ← gets (λ db, list_find (λ r, StockLedger.organizationId r = organizationId ∧ StockLedger.id r = WasteRecord.stockLedgerId ew)
    (InvDb.stock_ledger db));
  el ← require found (Plain "Cannot read properties of undefined");
  mret (WasteResult.mk (toEntry (snd el)) ew (negativeStock (snd el))).

(* cloud-server index.ts:437-600 PostgresCloudInventoryService.registerWaste *)
Definition newWaste (draws : Draws.t) (command : RegisterWaste.t) : Tx WasteResult.t :=
  ledgerRow ← appendExit (Draws.ledgerId draws 0) (Draws.now draws) (RegisterWaste.organizationId command) (RegisterWaste.branchId command)
    (RegisterWaste.warehouseId command) (RegisterWaste.ingredientId command) StockMovementType.MERMA (RegisterWaste.commandId command)
    (parseDecimal12x4 (RegisterWaste.quantity command));
  let wasteRow := WasteRecord.mk (Draws.wasteId draws) (RegisterWaste.organizationId command) (RegisterWaste.branchId command)
    (RegisterWaste.warehouseId command) (RegisterWaste.ingredientId command) (StockLedger.id ledgerRow) (RegisterWaste.commandId command)
    (trim (RegisterWaste.reasonCode command)) (trim (RegisterWaste.photoAttachmentUrl command)) (RegisterWaste.notes command)
    (RegisterWaste.actorId command) (Draws.now draws) in
  insertWaste wasteRow ;;
  mret (WasteResult.mk (toEntry ledgerRow) wasteRow (negativeStock ledgerRow)).

(* cloud-server index.ts:322-360 PostgresCloudInventoryService.registerWaste *)
Definition registerWaste (draws : Draws.t) (command : RegisterWaste.t) : Tx WasteResult.t :=
  _ ← inventory (validateWasteCommand command);
  withTenantTransaction (
    existing ← gets (λ db, findWaste db (RegisterWaste.organizationId command) (RegisterWaste.commandId command));
    match existing with
    | Some ew => replayWaste (RegisterWaste.organizationId command) ew
    | None => newWaste draws command
    end).

(** *** Depletion *)

(* cloud-server index.ts:682-686 PostgresCloudInventoryService.applyKdsDepletionLockedWithClient *)
Definition ofOrder (event : KdsOrderProduced.t) (r : StockLedger.t) : Prop :=
  StockLedger.organizationId r = KdsOrderProduced.organizacionId event ∧ StockLedger.branchId r = KdsOrderProduced.sucursalId event ∧
  StockLedger.warehouseId r = KdsOrderProduced.centroConsumoId event ∧ StockLedger.movementType r = StockMovementType.CONSUMO_KDS ∧
  StockLedger.referenceEventId r = KdsOrderProduced.ordenId event.
#[global] Instance ofOrder_dec event r : Decision (ofOrder event r).
Proof. unfold ofOrder. solve_decision. Defined.

(** ORDER BY movement_sequence_number ASC *)
(* cloud-server index.ts:664-687 PostgresCloudInventoryService.applyKdsDepletionLockedWithClient *)
Definition orderMovements (db : InvDb.t) (event : KdsOrderProduced.t) : list StockLedger.t :=
  orderAsc StockLedger.movementSequenceNumber (filter (ofOrder event) (InvDb.stock_ledger db)).

(* cloud-server index.ts:690-699 PostgresCloudInventoryService.applyKdsDepletionLockedWithClient *)
Definition findOrderOutbox (db : InvDb.t) (event : KdsOrderProduced.t) : option CloudOutbox.t :=
  snd <$> list_find (λ o, CloudOutbox.organizationId o = KdsOrderProduced.organizacionId event ∧
      CloudOutbox.branchId o = Some (KdsOrderProduced.sucursalId event) ∧ CloudOutbox.aggregateType o = "INVENTORY_STOCK" ∧
      CloudOutbox.aggregateId o = KdsOrderProduced.ordenId event ∧ CloudOutbox.eventType o = "InventarioDescontadoPorReceta")
    (InvDb.outbox db).

(* cloud-server index.ts:689-746 PostgresCloudInventoryService.applyKdsDepletionLockedWithClient *)
Definition duplicateDepletion (event : KdsOrderProduced.t) (rows : list StockLedger.t) : Tx KdsDepletionResult.t :=
  outboxRes ← gets (λ db, findOrderOutbox db event);
  event_row ← require outboxRes (Plain "Integrity error: missing required outbox event");
  mret (KdsDepletionResult.DUPLICATE_ACCEPTED (KdsOrderProduced.ordenId event) (toEntry <$> rows) (omap negativeStock rows)
    (CloudOutbox.id event_row)).

Definition PENDING_REASON : string := "MODIFIER_RECIPE_RESOLUTION_PENDING".

Definition sameSource (event : KdsOrderProduced.t) (r : QuarantineRecord.t) : Prop :=
  QuarantineRecord.organizationId r = KdsOrderProduced.organizacionId event ∧
  QuarantineRecord.branchId r = KdsOrderProduced.sucursalId event ∧ QuarantineRecord.sourceEventId r = KdsOrderProduced.ordenId event.
#[global] Instance sameSource_dec event r : Decision (sameSource event r).
Proof. unfold sameSource. solve_decision. Defined.

(** INSERT ... ON CONFLICT (organization_id, branch_id, source_event_id) DO UPDATE *)
(* cloud-server index.ts:754-771 PostgresCloudInventoryService.applyKdsDepletionLockedWithClient *)
Definition quarantineEvent (draws : Draws.t) (event : KdsOrderProduced.t) : Tx KdsDepletionResult.t :=
  rows ← gets InvDb.quarantine_records;
  match list_find (sameSource event) rows with
  | Some (_, r) =>
      modify (λ db, db <| InvDb.quarantine_records ::= fmap (λ r', if decide (sameSource event r')
        then r' <| QuarantineRecord.payload := event |> <| QuarantineRecord.reason := PENDING_REASON |>
                <| QuarantineRecord.status := QuarantineStatus.PENDING |> else r') |>) ;;
      mret (KdsDepletionResult.QUARANTINED (KdsOrderProduced.ordenId event) (QuarantineRecord.id r) PENDING_REASON)
  | None =>
      throw_when (bool_decide (Draws.quarantineId draws ∈ (QuarantineRecord.id <$> rows))) (Postgres "inventory_quarantine_records_pkey") ;;
      modify (λ db, db <| InvDb.quarantine_records ::= λ l, l ++ [QuarantineRecord.mk (Draws.quarantineId draws)
        (KdsOrderProduced.organizacionId event) (KdsOrderProduced.sucursalId event) (KdsOrderProduced.ordenId event) event PENDING_REASON
        QuarantineStatus.PENDING (Draws.now draws) None] |>) ;;
      mret (KdsDepletionResult.QUARANTINED (KdsOrderProduced.ordenId event) (Draws.quarantineId draws) PENDING_REASON)
  end.

(** what the modifiers of an item take away and add *)
(* cloud-server index.ts:777-783 PostgresCloudInventoryService.applyKdsDepletionLockedWithClient *)
Definition ItemModifiers : Type := list string * list (string * Z).

Definition modifiersOf (item : KdsProducedItem.t) : list SelectedModifier.t := default [] (KdsProducedItem.selectedModifiers item).

(* cloud-server index.ts:748-751 PostgresCloudInventoryService.applyKdsDepletionLockedWithClient *)
Definition hasModifiers (event : KdsOrderProduced.t) : bool :=
  existsb (λ item, negb (bool_decide (modifiersOf item = []))) (KdsOrderProduced.items event).

(** the loop over the modifiers of one item; [None] is an unresolved one *)
(* cloud-server index.ts:803-856 PostgresCloudInventoryService.applyKdsDepletionLockedWithClient *)
Fixpoint resolveItem (resolver : ModifierRecipeResolver) (org recipeId : string) (mods : list SelectedModifier.t) (acc : ItemModifiers)
    : result KardexError (option ItemModifiers) :=
  match mods with
  | [] => Ok (Some acc)
  | modifier :: rest =>
      match resolver org recipeId (SelectedModifier.modifierId modifier) (default "1.0000" (SelectedModifier.quantity modifier)) with
      | None => Ok None
      | Some impact =>
          match result_all (λ '(ingredientId, grossQuantity), result_map (pair ingredientId) (parseDecimal12x4 grossQuantity))
                  (ModifierImpact.additionalIngredients impact) with
          | Err e => Err (Inventory e)
          | Ok additional => resolveItem resolver org recipeId rest (fst acc ++ ModifierImpact.removedIngredients impact, snd acc ++ additional)
          end
      end
  end.

(** the modifiers of each item in order; [None] is an event to quarantine *)
(* cloud-server index.ts:785-858 PostgresCloudInventoryService.applyKdsDepletionLockedWithClient *)
Fixpoint resolveItems (db : InvDb.t) (resolver : ModifierRecipeResolver) (org : string) (items : list KdsProducedItem.t)
    : result KardexError (option (list (option ItemModifiers))) :=
  match items with
  | [] => Ok (Some [])
  | item :: rest =>
      match modifiersOf item with
      | [] => result_map (fmap (cons None)) (resolveItems db resolver org rest)
      | mods =>
          match getRecipeByProductIdWithClient db org (KdsProducedItem.productoId item) with
          | None => Err (Inventory (RecipeNotFoundError "No recipe found for product"))
          | Some recipe =>
              result_bind (resolveItem resolver org (Recipe.id recipe) mods ([], [])) (λ resolved,
              match resolved with
              | None => Ok None
              | Some info => result_map (fmap (cons (Some info))) (resolveItems db resolver org rest)
              end)
          end
      end
  end.

Definition lifted {A} (r : result InventoryError A) : result KardexError A :=
  match r with Ok a => Ok a | Err e => Err (Inventory e) end.

(** what one item takes, before aggregation *)
(* cloud-server index.ts:862-914 PostgresCloudInventoryService.applyKdsDepletionLockedWithClient *)
Definition itemIngredients (db : InvDb.t) (org : string) (item : KdsProducedItem.t) (itemModInfo : option ItemModifiers)
    : result KardexError (list (string * Z)) :=
  result_bind (lifted (parseDecimal12x4 (KdsProducedItem.cantidad item))) (λ itemQtyScaled,
  if itemQtyScaled <=? 0 then Ok []
  else
    match getRecipeByProductIdWithClient db org (KdsProducedItem.productoId item) with
    | None => Err (Inventory (RecipeNotFoundError "No recipe found for product"))
    | Some recipe =>
        result_bind (lifted (parseDecimal12x4 (Recipe.yieldQuantity recipe))) (λ recipeYieldScaled,
        result_bind (lifted (divideScale4 itemQtyScaled recipeYieldScaled)) (λ itemScaleFactor,
        result_bind (explode db org recipe) (λ exploded,
        let '(removedIngredientIds, additionalItems) := default ([], []) itemModInfo in
        let kept := filter (λ exp, ExplodedIngredient.ingredientId exp ∉ removedIngredientIds) exploded in
        result_bind (lifted (result_all (λ exp,
            result_map (λ expGrossScaled, (ExplodedIngredient.ingredientId exp, multiplyScale4 expGrossScaled itemScaleFactor))
              (parseDecimal12x4 (ExplodedIngredient.totalGrossQuantity exp))) kept)) (λ base,
        Ok (base ++ ((λ '(ingredientId, grossQuantityScaled), (ingredientId, multiplyScale4 grossQuantityScaled itemScaleFactor))
          <$> additionalItems))))))
    end).

(* cloud-server index.ts:860-914 PostgresCloudInventoryService.applyKdsDepletionLockedWithClient *)
Fixpoint rawIngredientItems (db : InvDb.t) (org : string) (items : list (KdsProducedItem.t * option ItemModifiers))
    : result KardexError (list (string * Z)) :=
  match items with
  | [] => Ok []
  | (item, info) :: rest =>
      result_bind (itemIngredients db org item info) (λ taken, result_map (app taken) (rawIngredientItems db org rest))
  end.

(** one turn of the loop over the aggregated ingredients; [i] movements were inserted before it *)
(* cloud-server index.ts:923-1043 PostgresCloudInventoryService.applyKdsDepletionLockedWithClient *)
Fixpoint depleteIngredients (draws : Draws.t) (event : KdsOrderProduced.t) (i : nat) (aggregated : list (string * Z)) : Tx (list StockLedger.t) :=
  match aggregated with
  | [] => mret []
  | (ingredientId, totalGrossScaled) :: rest =>
      if totalGrossScaled =? 0 then depleteIngredients draws event i rest
      else
        row ← appendExit (Draws.ledgerId draws i) (Draws.now draws) (KdsOrderProduced.organizacionId event) (KdsOrderProduced.sucursalId event)
          (KdsOrderProduced.centroConsumoId event) ingredientId StockMovementType.CONSUMO_KDS (KdsOrderProduced.ordenId event)
          (Ok totalGrossScaled);
        rows ← depleteIngredients draws event (S i) rest;
        mret (row :: rows)
  end.

(* cloud-integration-outbox.ts:26-86 CloudIntegrationOutboxService.enqueue *)
Definition enqueueIntegrationEvent (id now : string) (org : string) (branch : option string) (eventType aggregateType aggregateId : string)
    (payload : InventarioDescontado.t) : Tx string :=
  rows ← gets InvDb.outbox;
  throw_when (bool_decide (id ∈ (CloudOutbox.id <$> rows))) (Postgres "cloud_integration_outbox_pkey") ;;
  modify (λ db, db <| InvDb.outbox ::= λ l, l ++ [CloudOutbox.mk id org branch eventType aggregateType aggregateId payload "PENDING" 0 0 5 now] |>) ;;
  mret id.

Definition toDiscounted (row : StockLedger.t) : DiscountedMovement.t :=
  DiscountedMovement.mk (StockLedger.id row) (StockLedger.ingredientId row) (decimalText (StockLedger.quantityDelta row))
    (decimalText (StockLedger.unitCost row)) (decimalText (StockLedger.totalCost row)) (decimalText (StockLedger.balanceAfter row)).

(* cloud-server index.ts:860-1071 PostgresCloudInventoryService.applyKdsDepletionLockedWithClient *)
Definition newDepletion (draws : Draws.t) (event : KdsOrderProduced.t) (resolved : list (option ItemModifiers)) : Tx KdsDepletionResult.t :=
  raw ← gets (λ db, rawIngredientItems db (KdsOrderProduced.organizacionId event) (zip (KdsOrderProduced.items event) resolved));
  items ← lift raw;
  aggregated ← inventory (aggregateIngredientQuantities items);
  rows ← depleteIngredients draws event 0 aggregated;
  outboxId ← enqueueIntegrationEvent (Draws.outboxId draws) (Draws.now draws) (KdsOrderProduced.organizacionId event) (Some (KdsOrderProduced.sucursalId event))
    "InventarioDescontadoPorReceta" "INVENTORY_STOCK" (KdsOrderProduced.ordenId event)
    (InventarioDescontado.mk (KdsOrderProduced.organizacionId event) (KdsOrderProduced.sucursalId event) (KdsOrderProduced.centroConsumoId event)
      (KdsOrderProduced.ordenId event) (toDiscounted <$> rows) (omap negativeStock rows) (Draws.payloadTimestamp draws));
  mret (KdsDepletionResult.APPLIED (KdsOrderProduced.ordenId event) (toEntry <$> rows) (omap negativeStock rows) outboxId).

(* cloud-server index.ts:658-859 PostgresCloudInventoryService.applyKdsDepletionLockedWithClient *)
Definition applyKdsDepletionLockedWithClient (draws : Draws.t) (event : KdsOrderProduced.t) (customResolver : option ModifierRecipeResolver)
    : Tx KdsDepletionResult.t :=
  existing ← gets (λ db, orderMovements db event);
  match existing with
  | _ :: _ => duplicateDepletion event existing
  | [] =>
      let unmodified := replicate (List.length (KdsOrderProduced.items event)) None in
      if negb (hasModifiers event) then newDepletion draws event unmodified
      else
        match customResolver with
        | None => quarantineEvent draws event
        | Some resolver =>
            resolution ← gets (λ db, resolveItems db resolver (KdsOrderProduced.organizacionId event) (KdsOrderProduced.items event));
            resolved ← lift resolution;
            match resolved with
            | None => quarantineEvent draws event
            | Some infos => newDepletion draws event infos
            end
        end
  end.

(* cloud-server index.ts:613-629 PostgresCloudInventoryService.onKdsOrderProduced *)
Definition onKdsOrderProduced (draws : Draws.t) (event : KdsOrderProduced.t) (customResolver : option ModifierRecipeResolver)
    : Tx KdsDepletionResult.t :=
  withTenantTransaction (applyKdsDepletionLockedWithClient draws event customResolver).

Definition findQuarantine (db : InvDb.t) (organizationId quarantineId : string) : option QuarantineRecord.t :=
  snd <$> list_find (λ r, QuarantineRecord.organizationId r = organizationId ∧ QuarantineRecord.id r = quarantineId)
    (InvDb.quarantine_records db).

(** SET status = 'REPLAYED', replayed_at = COALESCE(replayed_at, NOW()) *)
(* cloud-server index.ts:1168-1176 PostgresCloudInventoryService.replayQuarantinedDepletion *)
Definition markReplayed (now organizationId quarantineId : string) : Tx unit :=
  modify (λ db, db <| InvDb.quarantine_records ::= fmap (λ r,
    if decide (QuarantineRecord.organizationId r = organizationId ∧ QuarantineRecord.id r = quarantineId)
    then r <| QuarantineRecord.status := QuarantineStatus.REPLAYED |>
           <| QuarantineRecord.replayedAt := Some (default now (QuarantineRecord.replayedAt r)) |> else r) |>).

(* cloud-server index.ts:1084-1180 PostgresCloudInventoryService.replayQuarantinedDepletion *)
Definition replayQuarantinedDepletion (draws : Draws.t) (organizationId quarantineId : string) (resolver : ModifierRecipeResolver)
    : Tx KdsDepletionResult.t :=
  withTenantTransaction (
    pre ← gets (λ db, findQuarantine db organizationId quarantineId);
    preRecord ← require pre (Plain "Quarantine record not found");
    locked ← gets (λ db, findQuarantine db organizationId quarantineId);
    lockedRecord ← require locked (Plain "Quarantine record not found");
    throw_when (bool_decide (QuarantineRecord.organizationId lockedRecord ≠ organizationId ∨
        QuarantineRecord.branchId lockedRecord ≠ QuarantineRecord.branchId preRecord ∨
        QuarantineRecord.sourceEventId lockedRecord ≠ QuarantineRecord.sourceEventId preRecord))
      (Plain "Integrity error: identity mismatch") ;;
    depletionResult ← applyKdsDepletionLockedWithClient draws (QuarantineRecord.payload lockedRecord) (Some resolver);
    match depletionResult with
    | KdsDepletionResult.APPLIED _ _ _ _ | KdsDepletionResult.DUPLICATE_ACCEPTED _ _ _ _ =>
        markReplayed (Draws.now draws) organizationId quarantineId ;; mret depletionResult
    | KdsDepletionResult.QUARANTINED _ _ _ => mret depletionResult
    end).

(** ** Plain reads *)

(* cloud-server index.ts:211-215 PostgresCloudInventoryService.getRecipe *)
Definition getRecipe (organizationId recipeId : string) : Tx (option Recipe.t) :=
  withTenantTransaction (gets (λ db, getRecipeWithClient db organizationId recipeId)).
(* cloud-server index.ts:220-227 PostgresCloudInventoryService.getRecipeByProductId *)
Definition getRecipeByProductId (organizationId productId : string) : Tx (option Recipe.t) :=
  withTenantTransaction (gets (λ db, getRecipeByProductIdWithClient db organizationId productId)).
(* cloud-server index.ts:232-239 PostgresCloudInventoryService.getIngredientAverageCost *)
Definition getIngredientAverageCost (organizationId ingredientId : string) : Tx string :=
  withTenantTransaction (cost ← gets (λ db, getIngredientAverageCostWithClient db organizationId ingredientId); lift cost).

(** ORDER BY created_at DESC; the order of equal times is open in SQL *)
(* cloud-server index.ts:1185-1234 PostgresCloudInventoryService.getQuarantineRecords *)
Definition getQuarantineRecords (organizationId : string) (status : option QuarantineStatus.t) : Tx (list QuarantineRecord.t) :=
  withTenantTransaction (gets (λ db, reverse (orderBy QuarantineRecord.createdAt (filter (λ r,
    QuarantineRecord.organizationId r = organizationId ∧
    default (QuarantineRecord.status r) status = QuarantineRecord.status r) (InvDb.quarantine_records db))))).
