(* ===== verification/KardexSpec.v ===== *)
(** What the kardex guarantees: every aggregate is a running balance, numbered without gaps;
    retries of wastes and of orders write nothing; wastes, movements and outbox events agree. *)
From S2P Require Import Prelude Decimals Money Recipes RecipesSpec Kardex.
From Stdlib Require Import Ascii String.

(** ** Decimal columns *)

Lemma decimalText_noSpace n : noSpace (decimalText n) = true.
Proof.
  unfold decimalText, scaledBigIntToDecimalString. rewrite !noSpace_app.
  rewrite (digits_noSpace (toString _)) by apply toString_digits. rewrite (digits_noSpace (padStart0 _ _)) by apply padStart0_digits, toString_digits.
  by destruct (n <? 0).
Qed.

(** a column read back *)
Lemma parse_decimalText n : parseDecimal12x4 (decimalText n) =
  if in12x4 n then Ok n else Err (InventoryJs (RangeError "exceeds canonical scale-4 range")).
Proof.
  unfold parseDecimal12x4. rewrite trim_noSpace by apply decimalText_noSpace. unfold decimalText. rewrite parse_print.
  unfold in12x4, isValidScale4Range, MIN_DECIMAL_12X4_SCALED, MAX_DECIMAL_12X4_SCALED. by destruct (_ && _).
Qed.

Lemma in12x4_spec n : in12x4 n = true ↔ MIN_DECIMAL_12X4_SCALED <= n <= MAX_DECIMAL_12X4_SCALED.
Proof. unfold in12x4. rewrite andb_true_iff, !Z.leb_le. done. Qed.

Lemma checked_ok n m : checked12x4 n = Ok m ↔ m = n ∧ in12x4 n = true.
Proof.
  unfold checked12x4. rewrite in12x4_spec. destruct (Z.ltb_spec n MIN_DECIMAL_12X4_SCALED), (Z.ltb_spec MAX_DECIMAL_12X4_SCALED n);
    simpl; split; intros H'; try discriminate; try lia; [by injection H' as ->|by destruct H' as [-> _]].
Qed.

Lemma format_ok n s : formatDecimal12x4 n = Ok s ↔ s = decimalText n ∧ in12x4 n = true.
Proof.
  unfold formatDecimal12x4, decimalText. rewrite in12x4_spec.
  destruct (Z.ltb_spec n MIN_DECIMAL_12X4_SCALED), (Z.ltb_spec MAX_DECIMAL_12X4_SCALED n);
    simpl; split; intros H'; try discriminate; try lia; [by injection H' as <-|by destruct H' as [-> _]].
Qed.

(** ** Running balances *)

Fixpoint running (balance seq : Z) (rows : list StockLedger.t) : Prop :=
  match rows with
  | [] => True
  | r :: rest =>
      StockLedger.movementSequenceNumber r = seq + 1 ∧ StockLedger.quantityDelta r ≠ 0 ∧
      StockLedger.balanceAfter r = balance + StockLedger.quantityDelta r ∧ in12x4 (StockLedger.balanceAfter r) = true ∧
      running (StockLedger.balanceAfter r) (seq + 1) rest
  end.

Definition stockOf (rows : list StockLedger.t) : Z := sumZ StockLedger.quantityDelta rows.

Lemma running_app b s l1 l2 : running b s (l1 ++ l2) ↔
  running b s l1 ∧ running (b + stockOf l1) (s + Z.of_nat (List.length l1)) l2.
Proof.
  revert b s. induction l1 as [|r l1 IH]; intros b s; cbn [app running].
  - unfold stockOf. rewrite sumZ_nil. simpl. rewrite !Z.add_0_r. tauto.
  - rewrite IH. unfold stockOf. rewrite sumZ_cons. simpl List.length.
    split.
    + intros (H1 & H2 & H3 & H4 & H5 & H6). rewrite H3 in H6. split_and!; try done.
      replace (b + (StockLedger.quantityDelta r + sumZ StockLedger.quantityDelta l1)) with (b + StockLedger.quantityDelta r + sumZ StockLedger.quantityDelta l1) by lia.
      by replace (s + Z.of_nat (S (List.length l1))) with (s + 1 + Z.of_nat (List.length l1)) by lia.
    + intros ((H1 & H2 & H3 & H4 & H5) & H6). split_and!; try done. rewrite H3.
      replace (b + StockLedger.quantityDelta r + sumZ StockLedger.quantityDelta l1) with (b + (StockLedger.quantityDelta r + sumZ StockLedger.quantityDelta l1)) by lia.
      by replace (s + 1 + Z.of_nat (List.length l1)) with (s + Z.of_nat (S (List.length l1))) by lia.
Qed.

(** the numbers are 1, 2, 3, ... *)
Lemma running_max b s rows : 0 <= s → running b s rows →
  foldr Z.max s (StockLedger.movementSequenceNumber <$> rows) = s + Z.of_nat (List.length rows) ∧
  foldr Z.max 0 (StockLedger.movementSequenceNumber <$> rows) = match rows with [] => 0 | _ => s + Z.of_nat (List.length rows) end.
Proof.
  revert b s. induction rows as [|r rows IH]; intros b s Hs; [simpl; lia|]. cbn [running]. intros (Hn & _ & _ & _ & H).
  destruct (IH _ (s + 1) ltac:(lia) H) as [_ H0]. rewrite fmap_cons. cbn [foldr]. rewrite Hn.
  assert (Hm : ∀ z, foldr Z.max z (StockLedger.movementSequenceNumber <$> rows) = Z.max z (foldr Z.max 0 (StockLedger.movementSequenceNumber <$> rows)) ∨ z < 0).
  { clear. intros z. destruct (decide (z < 0)); [by right|left]. induction rows as [|r rows IH]; [simpl; lia|]. rewrite fmap_cons. cbn [foldr]. rewrite IH. lia. }
  destruct (Hm s) as [->|]; [|lia]. rewrite H0. destruct rows; simpl List.length; lia.
Qed.

(** the last balance is the stock *)
Lemma running_last b s rows : running b s rows →
  match last rows with Some r => StockLedger.balanceAfter r = b + stockOf rows | None => True end.
Proof.
  destruct rows as [|r rows _] using rev_ind; [done|]. rewrite last_snoc, running_app. intros [_ (_ & _ & -> & _)].
  unfold stockOf. rewrite sumZ_snoc. lia.
Qed.

Lemma running_in b s rows : in12x4 b = true → running b s rows → in12x4 (b + stockOf rows) = true.
Proof.
  intros Hb H. pose proof (running_last _ _ _ H) as Hl. destruct (last rows) as [r|] eqn:E.
  - rewrite <- Hl. apply last_Some in E as [l ->]. apply running_app in H as [_ (_ & _ & _ & ? & _)]. done.
  - apply last_None in E as ->. unfold stockOf. by rewrite sumZ_nil, Z.add_0_r.
Qed.

Definition balanced (l : list StockLedger.t) : Prop := ∀ org branch warehouse ingredient,
  running 0 0 (filter (ofAggregate org branch warehouse ingredient) l).

(** ** One movement *)

Definition stockIn (db : InvDb.t) (org branch warehouse ingredient : string) : Z :=
  stockOf (aggregateRows db org branch warehouse ingredient).

(** the movement leaves [quantity] of the aggregate, at the price of the day *)
Definition exits (db : InvDb.t) (id now org branch warehouse ingredient : string) (type : StockMovementType.t) (ref : string)
    (quantity : Z) (row : StockLedger.t) : Prop :=
  (∃ unitCost costText, getIngredientAverageCostWithClient db org ingredient = Ok costText ∧ parseDecimal12x4 costText = Ok unitCost ∧
    row = StockLedger.mk id org branch warehouse ingredient type ref (- quantity) unitCost (multiplyScale4 quantity unitCost)
      (stockIn db org branch warehouse ingredient - quantity) (getNextSequence db org branch warehouse ingredient) now) ∧
  quantity ≠ 0 ∧ in12x4 (stockIn db org branch warehouse ingredient - quantity) = true ∧
  id ∉ (StockLedger.id <$> InvDb.stock_ledger db) ∧
  Forall (λ r, ¬ (ofAggregate org branch warehouse ingredient r ∧ StockLedger.movementType r = type ∧ StockLedger.referenceEventId r = ref))
    (InvDb.stock_ledger db).

Definition appendRow (db : InvDb.t) (row : StockLedger.t) : InvDb.t := db <| InvDb.stock_ledger ::= λ l, l ++ [row] |>.

Lemma inventory_ok {A} (r : result InventoryError A) db db' a : inventory r db = (db', Ok a) ↔ db' = db ∧ r = Ok a.
Proof. unfold inventory, lift. destruct r; split; intros; destruct_exists; simplify_eq; eauto. Qed.

Lemma bind_inventory {A B} (r : result InventoryError A) (k : A → Tx B) db :
  (inventory r ≫= k) db = match r with Ok a => k a db | Err e => (db, Err (Inventory e)) end.
Proof. unfold inventory. rewrite bind_lift. by destruct r. Qed.

Lemma prior_balance {B} org branch warehouse ingredient (k : Z → Tx B) db :
  (getDerivedPriorBalance org branch warehouse ingredient ≫= k) db =
    if in12x4 (stockIn db org branch warehouse ingredient) then k (stockIn db org branch warehouse ingredient) db
    else (db, Err (Inventory (InventoryJs (RangeError "exceeds canonical scale-4 range")))).
Proof.
  unfold getDerivedPriorBalance. rewrite bind_assoc, bind_gets, bind_inventory, parse_decimalText. fold (stockOf (aggregateRows db org branch warehouse ingredient)).
  fold (stockIn db org branch warehouse ingredient). by destruct (in12x4 _).
Qed.

(** [kinv H]: [minv] that also resolves the results of the pure inventory functions *)
Ltac kinv_step H :=
  lazymatch type of H with
  | (inventory ?r ≫= _) _ = _ =>
      rewrite bind_inventory in H;
      let x := fresh "val" in let Hb := fresh "Hval" in
      destruct r as [x|] eqn:Hb; [|discriminate H]
  | (getDerivedPriorBalance ?o ?b ?w ?i ≫= _) ?db = _ =>
      rewrite prior_balance in H; let Hb := fresh "Hprior" in destruct (in12x4 (stockIn db o b w i)) eqn:Hb; [|discriminate H]
  | _ => minv_step H
  end; cbv beta in H || idtac.
Ltac kinv H := repeat (kinv_step H); subst.

Lemma insertLedger_ok row db db' u : insertLedger row db = (db', Ok u) →
  StockLedger.quantityDelta row ≠ 0 ∧ StockLedger.id row ∉ (StockLedger.id <$> InvDb.stock_ledger db) ∧
  Forall (λ r, ¬ (ofAggregate (StockLedger.organizationId row) (StockLedger.branchId row) (StockLedger.warehouseId row) (StockLedger.ingredientId row) r ∧
    StockLedger.movementType r = StockLedger.movementType row ∧ StockLedger.referenceEventId r = StockLedger.referenceEventId row)) (InvDb.stock_ledger db) ∧
  db' = appendRow db row.
Proof.
  intros H. unfold insertLedger in H. kinv H. simpl_guards. split_and!; [done|done| |done].
  by apply not_Exists_Forall; [solve_decision|].
Qed.

Lemma appendExit_ok id now org branch warehouse ingredient type ref q db db' row :
  appendExit id now org branch warehouse ingredient type ref q db = (db', Ok row) →
  ∃ quantity, q = Ok quantity ∧ exits db id now org branch warehouse ingredient type ref quantity row ∧ db' = appendRow db row.
Proof.
  intros H. unfold appendExit in H. kinv H. apply insertLedger_ok in Hstep as (Hnz & Hid & Hfree & ->).
  unfold negateScale4, addScale4 in *. 
  repeat match goal with Hv : checked12x4 ?n = Ok ?m |- _ =>
    let Hm := fresh "Hm" in destruct (proj1 (checked_ok n m) Hv) as [Hm ?]; clear Hv; subst m end.
  cbn in Hnz, Hid, Hfree. eexists. split; [done|]. rewrite Z.add_opp_r in *. split; [|done]. split_and!; [|lia|done..].
  by eexists _, _.
Qed.

Lemma balanced_exit db id now org branch warehouse ingredient type ref quantity row :
  balanced (InvDb.stock_ledger db) → exits db id now org branch warehouse ingredient type ref quantity row →
  balanced (InvDb.stock_ledger db ++ [row]).
Proof.
  intros Hb ((unitCost & costText & _ & _ & Hrow) & Hnz & Hin & _) o b w i. rewrite filter_app, filter_cons, filter_nil.
  case_decide as Ha; [|rewrite app_nil_r; apply Hb]. apply running_app. split; [apply Hb|].
  assert (o = org ∧ b = branch ∧ w = warehouse ∧ i = ingredient) as (-> & -> & -> & ->) by (subst row; unfold ofAggregate in Ha; cbn in Ha; naive_solver).
  pose proof (Hb org branch warehouse ingredient) as Hr. destruct (running_max 0 0 _ ltac:(lia) Hr) as [Hmax _].
  subst row. cbn [running StockLedger.movementSequenceNumber StockLedger.quantityDelta StockLedger.balanceAfter].
  unfold getNextSequence, stockIn, aggregateRows in *. rewrite Hmax. split_and!; [lia|lia|lia|exact Hin|done].
Qed.

Definition appendRows (db : InvDb.t) (rows : list StockLedger.t) : InvDb.t := db <| InvDb.stock_ledger ::= λ l, l ++ rows |>.

Lemma appendRows_nil db : appendRows db [] = db.
Proof. destruct db. unfold appendRows, set. cbn. by rewrite app_nil_r. Qed.
Lemma appendRows_cons db row rows : appendRows (appendRow db row) rows = appendRows db (row :: rows).
Proof. destruct db. unfold appendRows, appendRow, set. cbn. by rewrite <- app_assoc. Qed.

(** ** Depletion of the ingredients of an order *)

(** one movement of the order: [snd] of the ingredient leaves the warehouse *)
Definition depletes (event : KdsOrderProduced.t) (now : string) (agg : string * Z) (row : StockLedger.t) : Prop :=
  ofOrder event row ∧ StockLedger.ingredientId row = fst agg ∧ StockLedger.quantityDelta row = - snd agg ∧ StockLedger.createdAt row = now.

Lemma exits_depletes db event id now agg row :
  exits db id now (KdsOrderProduced.organizacionId event) (KdsOrderProduced.sucursalId event) (KdsOrderProduced.centroConsumoId event)
    (fst agg) StockMovementType.CONSUMO_KDS (KdsOrderProduced.ordenId event) (snd agg) row → depletes event now agg row.
Proof. intros ((unitCost & costText & _ & _ & ->) & _). by split_and!. Qed.

Lemma depleteIngredients_ok draws event agg : ∀ i db db' rows,
  depleteIngredients draws event i agg db = (db', Ok rows) → balanced (InvDb.stock_ledger db) → NoDup (StockLedger.id <$> InvDb.stock_ledger db) →
  db' = appendRows db rows ∧ balanced (InvDb.stock_ledger db') ∧ NoDup (StockLedger.id <$> InvDb.stock_ledger db') ∧
  Forall2 (depletes event (Draws.now draws)) (filter (λ a, snd a ≠ 0) agg) rows.
Proof.
  induction agg as [|[ingredient total] agg IH]; intros i db db' rows; cbn [depleteIngredients].
  - intros [= <- <-] Hb Hnd. rewrite appendRows_nil. split_and!; [done..|constructor].
  - rewrite filter_cons. cbn [snd]. destruct (Z.eqb_spec total 0) as [->|Hnz].
    + rewrite decide_False by (by intros []). apply IH.
    + rewrite decide_True by done. intros H Hb Hnd. kinv H. apply appendExit_ok in Hstep as (quantity & [= <-] & Hexit & ->).
      assert (Hid : StockLedger.id r ∉ (StockLedger.id <$> InvDb.stock_ledger db)).
      { destruct Hexit as ((? & ? & _ & _ & ->) & _ & _ & Hid & _). exact Hid. }
      destruct (IH (S i) (appendRow db r) db' r0) as (-> & Hb' & Hnd' & Hrows); [done|by eapply balanced_exit| |].
      { cbn. rewrite fmap_app. apply NoDup_app. split_and!; [done|set_solver|apply NoDup_singleton]. }
      rewrite appendRows_cons in *. split_and!; [done..|]. constructor; [|done]. by eapply (exits_depletes db event _ _ (ingredient, total)).
Qed.

(** ** What the tables agree on *)

(** the evidence of a waste and its movement *)
Definition evidences (w : WasteRecord.t) (row : StockLedger.t) : Prop :=
  StockLedger.id row = WasteRecord.stockLedgerId w ∧ StockLedger.movementType row = StockMovementType.MERMA ∧
  ofAggregate (WasteRecord.organizationId w) (WasteRecord.branchId w) (WasteRecord.warehouseId w) (WasteRecord.ingredientId w) row ∧
  StockLedger.referenceEventId row = WasteRecord.commandId w ∧ StockLedger.quantityDelta row < 0.

(** the outbox event of an order *)
Definition publishes (o : CloudOutbox.t) (row : StockLedger.t) : Prop :=
  CloudOutbox.organizationId o = StockLedger.organizationId row ∧ CloudOutbox.branchId o = Some (StockLedger.branchId row) ∧
  CloudOutbox.aggregateType o = "INVENTORY_STOCK" ∧ CloudOutbox.aggregateId o = StockLedger.referenceEventId row ∧
  CloudOutbox.eventType o = "InventarioDescontadoPorReceta".

Record kardex_ok (db : InvDb.t) : Prop := {
  ok_balanced : balanced (InvDb.stock_ledger db);
  ok_ids : NoDup (StockLedger.id <$> InvDb.stock_ledger db);
  ok_wastes : ∀ w, w ∈ InvDb.waste_records db → ∃ row, row ∈ InvDb.stock_ledger db ∧ evidences w row;
  ok_exits : ∀ row, row ∈ InvDb.stock_ledger db →
    (StockLedger.movementType row = StockMovementType.MERMA ∧ ∃ w, w ∈ InvDb.waste_records db ∧ evidences w row) ∨
    (StockLedger.movementType row = StockMovementType.CONSUMO_KDS ∧ ∃ o, o ∈ InvDb.outbox db ∧ publishes o row) }.

Lemma transaction_ok {A} (m : Tx A) db db' a : withTenantTransaction m db = (db', Ok a) ↔ m db = (db', Ok a).
Proof. unfold withTenantTransaction. destruct (m db) as [? [?|?]]; naive_solver. Qed.

Lemma transaction_err {A} (m : Tx A) db db' e : withTenantTransaction m db = (db', Err e) → db' = db.
Proof. unfold withTenantTransaction. destruct (m db) as [? [?|?]]; naive_solver. Qed.

(** *** Waste *)

(** what a first waste stores *)
Definition wasteRow (draws : Draws.t) (command : RegisterWaste.t) (row : StockLedger.t) : WasteRecord.t :=
  WasteRecord.mk (Draws.wasteId draws) (RegisterWaste.organizationId command) (RegisterWaste.branchId command)
    (RegisterWaste.warehouseId command) (RegisterWaste.ingredientId command) (StockLedger.id row) (RegisterWaste.commandId command)
    (trim (RegisterWaste.reasonCode command)) (trim (RegisterWaste.photoAttachmentUrl command)) (RegisterWaste.notes command)
    (RegisterWaste.actorId command) (Draws.now draws).

Lemma newWaste_ok draws command db db' r : newWaste draws command db = (db', Ok r) →
  ∃ quantity row, parseDecimal12x4 (RegisterWaste.quantity command) = Ok quantity ∧
    exits db (Draws.ledgerId draws 0) (Draws.now draws) (RegisterWaste.organizationId command) (RegisterWaste.branchId command)
      (RegisterWaste.warehouseId command) (RegisterWaste.ingredientId command) StockMovementType.MERMA (RegisterWaste.commandId command) quantity row ∧
    db' = (appendRow db row) <| InvDb.waste_records ::= λ l, l ++ [wasteRow draws command row] |> ∧
    r = WasteResult.mk (toEntry row) (wasteRow draws command row) (negativeStock row).
Proof.
  intros H. unfold newWaste in H. kinv H. apply appendExit_ok in Hstep as (quantity & Hq & Hexit & ->). unfold insertWaste in Hstep0. kinv Hstep0.
  by eexists _, _.
Qed.

Lemma validateWasteCommand_positive command u quantity : validateWasteCommand command = Ok u →
  parseDecimal12x4 (RegisterWaste.quantity command) = Ok quantity → 0 < quantity.
Proof.
  unfold validateWasteCommand. intros H Hq. rewrite Hq in H. destruct (_ || _); [done|]. cbn in H.
  destruct (Z.leb_spec quantity 0); [done|lia].
Qed.

Lemma exits_evidence db draws command quantity row : 0 < quantity →
  exits db (Draws.ledgerId draws 0) (Draws.now draws) (RegisterWaste.organizationId command) (RegisterWaste.branchId command)
    (RegisterWaste.warehouseId command) (RegisterWaste.ingredientId command) StockMovementType.MERMA (RegisterWaste.commandId command) quantity row →
  evidences (wasteRow draws command row) row.
Proof. intros Hq ((unitCost & costText & _ & _ & ->) & _). split_and!; try done. cbn. lia. Qed.

Lemma exits_fresh db id now org branch warehouse ingredient type ref quantity row :
  exits db id now org branch warehouse ingredient type ref quantity row → NoDup (StockLedger.id <$> InvDb.stock_ledger db) →
  NoDup (StockLedger.id <$> InvDb.stock_ledger db ++ [row]).
Proof.
  intros ((? & ? & _ & _ & ->) & _ & _ & Hid & _) Hnd. rewrite fmap_app. apply NoDup_app. split_and!; [done|set_solver|apply NoDup_singleton].
Qed.

Lemma newWaste_keeps_ok draws command u db db' r : validateWasteCommand command = Ok u → kardex_ok db →
  newWaste draws command db = (db', Ok r) → kardex_ok db'.
Proof.
  intros Hval [Hb Hids Hw He] (quantity & row & Hq & Hexit & -> & _)%newWaste_ok.
  pose proof (exits_evidence _ _ _ _ _ (validateWasteCommand_positive _ _ _ Hval Hq) Hexit) as Hev. split; cbn.
  - by eapply balanced_exit.
  - by eapply exits_fresh.
  - intros w [Hin|Hin]%elem_of_app.
    + destruct (Hw w Hin) as (row' & ? & ?). exists row'. set_solver.
    + apply list_elem_of_singleton in Hin as ->. exists row. set_solver.
  - intros row' [Hin|Hin]%elem_of_app.
    + destruct (He row' Hin) as [(? & w & ? & ?)|?]; [left|by right]. split; [done|]. exists w. set_solver.
    + apply list_elem_of_singleton in Hin as ->. left. split; [apply Hev|]. exists (wasteRow draws command row). set_solver.
Qed.

Lemma registerWaste_ok draws command db db' r : registerWaste draws command db = (db', Ok r) →
  (∃ ew, findWaste db (RegisterWaste.organizationId command) (RegisterWaste.commandId command) = Some ew ∧ db' = db ∧
    WasteResult.wasteRecord r = ew) ∨
  (∃ u, validateWasteCommand command = Ok u ∧ findWaste db (RegisterWaste.organizationId command) (RegisterWaste.commandId command) = None ∧
    newWaste draws command db = (db', Ok r)).
Proof.
  intros H. unfold registerWaste in H. kinv H. rewrite transaction_ok, bind_gets in H.
  destruct (findWaste _ _ _) as [ew|] eqn:Hf.
  - left. exists ew. unfold replayWaste in H. by kinv H.
  - right. by exists val.
Qed.

Lemma registerWaste_keeps_ok draws command db db' r : kardex_ok db → registerWaste draws command db = (db', r) → kardex_ok db'.
Proof.
  intros Hok H. destruct r as [r|e].
  - apply registerWaste_ok in H as [(ew & _ & -> & _)|(u & Hval & _ & Hnew)]; [done|]. by eapply newWaste_keeps_ok.
  - unfold registerWaste in H. rewrite bind_inventory in H. destruct (validateWasteCommand command); [|by injection H as <-].
    by apply transaction_err in H as ->.
Qed.

(** *** Orders *)

(** the outbox event of a depletion *)
Definition orderEvent (draws : Draws.t) (event : KdsOrderProduced.t) (rows : list StockLedger.t) : CloudOutbox.t :=
  CloudOutbox.mk (Draws.outboxId draws) (KdsOrderProduced.organizacionId event) (Some (KdsOrderProduced.sucursalId event))
    "InventarioDescontadoPorReceta" "INVENTORY_STOCK" (KdsOrderProduced.ordenId event)
    (InventarioDescontado.mk (KdsOrderProduced.organizacionId event) (KdsOrderProduced.sucursalId event) (KdsOrderProduced.centroConsumoId event)
      (KdsOrderProduced.ordenId event) (toDiscounted <$> rows) (omap negativeStock rows) (Draws.payloadTimestamp draws))
    "PENDING" 0 0 5 (Draws.now draws).

(** a depletion applied: the movements of the aggregated ingredients and one event *)
Definition applied (draws : Draws.t) (event : KdsOrderProduced.t) (infos : list (option ItemModifiers)) (db db' : InvDb.t)
    (r : KdsDepletionResult.t) : Prop :=
  ∃ items agg rows,
    rawIngredientItems db (KdsOrderProduced.organizacionId event) (zip (KdsOrderProduced.items event) infos) = Ok items ∧
    aggregateIngredientQuantities items = Ok agg ∧
    Forall2 (depletes event (Draws.now draws)) (filter (λ a, snd a ≠ 0) agg) rows ∧
    db' = (appendRows db rows) <| InvDb.outbox ::= λ l, l ++ [orderEvent draws event rows] |> ∧
    r = KdsDepletionResult.APPLIED (KdsOrderProduced.ordenId event) (toEntry <$> rows) (omap negativeStock rows) (Draws.outboxId draws).

Lemma newDepletion_ok draws event infos db db' r : kardex_ok db → newDepletion draws event infos db = (db', Ok r) →
  applied draws event infos db db' r ∧ balanced (InvDb.stock_ledger db') ∧ NoDup (StockLedger.id <$> InvDb.stock_ledger db').
Proof.
  intros [Hb Hids _ _] H. unfold newDepletion in H. kinv H.
  apply depleteIngredients_ok in Hstep as (-> & Hb' & Hids' & Hrows); [|done..]. unfold enqueueIntegrationEvent in Hstep0. kinv Hstep0.
  split; [|done]. by eexists _, _, _.
Qed.

(** the modifiers of the items of an order *)
Definition resolution (db : InvDb.t) (event : KdsOrderProduced.t) (customResolver : option ModifierRecipeResolver)
    (infos : list (option ItemModifiers)) : Prop :=
  (hasModifiers event = false ∧ infos = replicate (List.length (KdsOrderProduced.items event)) None) ∨
  (hasModifiers event = true ∧ ∃ resolver, customResolver = Some resolver ∧
    resolveItems db resolver (KdsOrderProduced.organizacionId event) (KdsOrderProduced.items event) = Ok (Some infos)).

(** the three ways an order ends *)
Lemma order_ok draws event resolver db db' r : applyKdsDepletionLockedWithClient draws event resolver db = (db', Ok r) →
  (∃ o, orderMovements db event ≠ [] ∧ findOrderOutbox db event = Some o ∧ db' = db ∧
    r = KdsDepletionResult.DUPLICATE_ACCEPTED (KdsOrderProduced.ordenId event) (toEntry <$> orderMovements db event)
      (omap negativeStock (orderMovements db event)) (CloudOutbox.id o)) ∨
  (orderMovements db event = [] ∧ ∃ infos, resolution db event resolver infos ∧ newDepletion draws event infos db = (db', Ok r)) ∨
  (orderMovements db event = [] ∧ hasModifiers event = true ∧ quarantineEvent draws event db = (db', Ok r)).
Proof.
  unfold applyKdsDepletionLockedWithClient. rewrite bind_gets. intros H. destruct (orderMovements db event) as [|row rows] eqn:E.
  - right. destruct (hasModifiers event) eqn:Hm; cbn [negb] in H; [|left; split; [done|eexists; split; [by left|done]]].
    destruct resolver as [resolver|]; [|by right]. kinv H; [left; split; [done|]|by right].
    eexists. split; [|done]. right. split; [done|]. by exists resolver.
  - left. unfold duplicateDepletion in H. kinv H. by eexists.
Qed.

Lemma quarantine_only draws event db db' r : quarantineEvent draws event db = (db', r) →
  InvDb.stock_ledger db' = InvDb.stock_ledger db ∧ InvDb.waste_records db' = InvDb.waste_records db ∧ InvDb.outbox db' = InvDb.outbox db ∧
  InvDb.recipes db' = InvDb.recipes db ∧ InvDb.recipe_items db' = InvDb.recipe_items db ∧ InvDb.ingredients db' = InvDb.ingredients db.
Proof.
  unfold quarantineEvent. rewrite bind_gets. destruct (list_find _ _) as [[? rec]|].
  - rewrite bind_modify. by intros [= <- _].
  - rewrite bind_throw_when. destruct (bool_decide _); [by intros [= <- _]|]. rewrite bind_modify. by intros [= <- _].
Qed.

(** the event is on hold under its source, with the payload of this delivery *)
Definition onHold (event : KdsOrderProduced.t) (qid : string) (db : InvDb.t) : Prop :=
  ∃ rec, rec ∈ InvDb.quarantine_records db ∧ QuarantineRecord.id rec = qid ∧ sameSource event rec ∧
    QuarantineRecord.payload rec = event ∧ QuarantineRecord.status rec = QuarantineStatus.PENDING.

Lemma quarantine_result draws event db db' r : quarantineEvent draws event db = (db', Ok r) →
  ∃ qid, r = KdsDepletionResult.QUARANTINED (KdsOrderProduced.ordenId event) qid PENDING_REASON ∧ onHold event qid db'.
Proof.
  unfold quarantineEvent. rewrite bind_gets. destruct (list_find _ _) as [[i rec]|] eqn:Hf.
  - rewrite bind_modify. intros [= <- <-]. eexists. split; [done|]. apply list_find_Some in Hf as (Hi & Hs & _).
    eexists. split.
    + apply list_elem_of_fmap. exists rec. split; [reflexivity|]. by eapply list_elem_of_lookup_2.
    + by rewrite decide_True.
  - rewrite bind_throw_when. destruct (bool_decide _); [done|]. rewrite bind_modify. intros [= <- <-]. eexists. split; [done|].
    eexists. split; [cbn; apply elem_of_app; right; by apply list_elem_of_singleton|done].
Qed.

Lemma depletes_published draws event agg rows row : Forall2 (depletes event (Draws.now draws)) agg rows → row ∈ rows →
  StockLedger.movementType row = StockMovementType.CONSUMO_KDS ∧ publishes (orderEvent draws event rows) row.
Proof.
  intros Hf Hin. apply list_elem_of_lookup in Hin as [k Hk]. destruct (Forall2_lookup_r _ _ _ _ _ Hf Hk) as (a & _ & (Ho & Hbr & _ & Ht & Hr) & _).
  split; [done|]. unfold publishes. cbn. by rewrite Ho, Hbr, Hr.
Qed.

Lemma order_keeps_ok draws event resolver db db' r : kardex_ok db →
  applyKdsDepletionLockedWithClient draws event resolver db = (db', Ok r) → kardex_ok db'.
Proof.
  intros Hok [(o & _ & _ & -> & _)|[(_ & infos & _ & Hnew)|(_ & _ & Hq)]]%order_ok; [done| |].
  - destruct (newDepletion_ok _ _ _ _ _ _ Hok Hnew) as ((items & agg & rows & _ & _ & Hrows & -> & _) & Hb & Hids).
    destruct Hok as [_ _ Hw He]. split; cbn in *; [done|done| |].
    + intros w Hin. destruct (Hw w Hin) as (row & ? & ?). exists row. set_solver.
    + intros row [Hin|Hin]%elem_of_app.
      * destruct (He row Hin) as [?|(? & o & ? & ?)]; [by left|right]. split; [done|]. exists o. set_solver.
      * right. destruct (depletes_published _ _ _ _ _ Hrows Hin) as [? ?]. split; [done|]. eexists. split; [|done]. set_solver.
  - apply quarantine_only in Hq as (Hl & Hw & Ho & _). destruct Hok as [H1 H2 H3 H4]. split; by rewrite ?Hl, ?Hw, ?Ho.
Qed.

(** a replay is the order of the stored payload, then the mark *)
Lemma replay_ok draws org qid resolver db db' r : replayQuarantinedDepletion draws org qid resolver db = (db', Ok r) →
  ∃ rec s, findQuarantine db org qid = Some rec ∧
    applyKdsDepletionLockedWithClient draws (QuarantineRecord.payload rec) (Some resolver) db = (s, Ok r) ∧
    InvDb.stock_ledger db' = InvDb.stock_ledger s ∧ InvDb.waste_records db' = InvDb.waste_records s ∧ InvDb.outbox db' = InvDb.outbox s.
Proof.
  intros H. unfold replayQuarantinedDepletion in H. rewrite transaction_ok in H. kinv H. exists found0, s. split; [done|].
  destruct r0; unfold markReplayed in H; kinv H; done.
Qed.

(** ** Requests *)

Inductive request :=
| WasteRequest (draws : Draws.t) (command : RegisterWaste.t)
| OrderRequest (draws : Draws.t) (event : KdsOrderProduced.t) (resolver : option ModifierRecipeResolver)
| ReplayRequest (draws : Draws.t) (organizationId quarantineId : string) (resolver : ModifierRecipeResolver).

Definition serve (db : InvDb.t) (r : request) : InvDb.t :=
  match r with
  | WasteRequest draws command => fst (registerWaste draws command db)
  | OrderRequest draws event resolver => fst (onKdsOrderProduced draws event resolver db)
  | ReplayRequest draws organizationId quarantineId resolver => fst (replayQuarantinedDepletion draws organizationId quarantineId resolver db)
  end.

Definition serveAll (db : InvDb.t) (requests : list request) : InvDb.t := foldl serve db requests.

(** what a request leaves of the ledger and the wastes: rows are only appended, and those of
    an order that has movements stay what they are *)
Definition extends (db db' : InvDb.t) : Prop :=
  InvDb.stock_ledger db `prefix_of` InvDb.stock_ledger db' ∧ InvDb.waste_records db `prefix_of` InvDb.waste_records db' ∧
  ∀ event, filter (ofOrder event) (InvDb.stock_ledger db) ≠ [] →
    filter (ofOrder event) (InvDb.stock_ledger db') = filter (ofOrder event) (InvDb.stock_ledger db).

#[local] Instance extends_preorder : PreOrder extends.
Proof.
  split.
  - intros db. by split_and!.
  - intros d1 d2 d3 (H1 & H2 & H3) (H4 & H5 & H6). split_and!; [by etrans|by etrans|]. intros event Hne. rewrite H6; rewrite H3; done.
Qed.

Lemma orderMovements_filter db event : orderMovements db event = [] ↔ filter (ofOrder event) (InvDb.stock_ledger db) = [].
Proof.
  unfold orderMovements. pose proof (orderAsc_permutation StockLedger.movementSequenceNumber (filter (ofOrder event) (InvDb.stock_ledger db))) as Hp.
  split; intros H; [rewrite H in Hp; by apply Permutation_nil|by rewrite H].
Qed.

Lemma waste_extends draws command db db' r : registerWaste draws command db = (db', Ok r) → extends db db'.
Proof.
  intros [(ew & _ & -> & _)|(u & _ & _ & (quantity & row & _ & Hexit & -> & _)%newWaste_ok)]%registerWaste_ok; [done|].
  split_and!; cbn; [by apply prefix_app_r|by apply prefix_app_r|]. intros event _. rewrite filter_app, filter_cons, filter_nil, decide_False; [by rewrite app_nil_r|].
  destruct Hexit as ((? & ? & _ & _ & ->) & _). by intros (_ & _ & _ & ? & _).
Qed.

Lemma order_extends draws event resolver db db' r : kardex_ok db →
  applyKdsDepletionLockedWithClient draws event resolver db = (db', Ok r) → extends db db'.
Proof.
  intros Hok [(o & _ & _ & -> & _)|[(Hnone & infos & _ & Hnew)|(_ & _ & Hq)]]%order_ok; [done| |].
  - destruct (newDepletion_ok _ _ _ _ _ _ Hok Hnew) as ((items & agg & rows & _ & _ & Hrows & -> & _) & _ & _).
    split_and!; cbn; [by apply prefix_app_r|done|]. intros event' Hne. rewrite filter_app.
    rewrite (filter_none _ rows); [by rewrite app_nil_r|]. intros row Hin (H1 & H2 & H3 & H4 & H5).
    apply orderMovements_filter in Hnone. apply list_elem_of_lookup in Hin as [k Hk].
    destruct (Forall2_lookup_r _ _ _ _ _ Hrows Hk) as (a & _ & (G1 & G2 & G3 & G4 & G5) & _). apply Hne. rewrite <- Hnone.
    apply list_filter_iff. intros r'. unfold ofOrder. rewrite <- H1, <- H2, <- H3, <- H5, G1, G2, G3, G5. done.
  - apply quarantine_only in Hq as (Hl & Hw & Ho & _). split_and!; rewrite ?Hl, ?Hw; done.
Qed.

Lemma serve_keeps_ok db r : kardex_ok db → kardex_ok (serve db r) ∧ extends db (serve db r).
Proof.
  intros Hok. destruct r as [draws command|draws event resolver|draws org qid resolver]; cbn [serve].
  - destruct (registerWaste draws command db) as [db' [r|e]] eqn:H; cbn [fst]; (split; [by eapply registerWaste_keeps_ok|]); [by eapply waste_extends|].
    unfold registerWaste in H. rewrite bind_inventory in H. destruct (validateWasteCommand command); [|by injection H as <-].
    by apply transaction_err in H as ->.
  - destruct (onKdsOrderProduced draws event resolver db) as [db' [r|e]] eqn:H; cbn [fst]; [|by apply transaction_err in H as ->].
    unfold onKdsOrderProduced in H. rewrite transaction_ok in H. split; [by eapply order_keeps_ok|by eapply order_extends].
  - destruct (replayQuarantinedDepletion draws org qid resolver db) as [db' [r|e]] eqn:H; cbn [fst]; [|by apply transaction_err in H as ->].
    apply replay_ok in H as (rec & s & _ & Hs & Hl & Hw & Ho).
    pose proof (order_keeps_ok _ _ _ _ _ _ Hok Hs) as [H1 H2 H3 H4]. pose proof (order_extends _ _ _ _ _ _ Hok Hs) as (E1 & E2 & E3).
    split; [split|split_and!]; rewrite ?Hl, ?Hw, ?Ho; done.
Qed.

Lemma serveAll_keeps_ok db requests : kardex_ok db → kardex_ok (serveAll db requests) ∧ extends db (serveAll db requests).
Proof.
  revert db. induction requests as [|r requests IH]; intros db Hok; [done|]. cbn [serveAll foldl].
  destruct (serve_keeps_ok db r Hok) as [Hok' Hext]. destruct (IH _ Hok') as [? ?]. split; [done|by etrans].
Qed.

(** a catalogue before the first movement *)
Definition unmoved (db : InvDb.t) : Prop := InvDb.stock_ledger db = [] ∧ InvDb.waste_records db = [].

Lemma unmoved_ok db : unmoved db → kardex_ok db.
Proof.
  intros [Hl Hw]. split; rewrite ?Hl, ?Hw; [by intros ? ? ? ?|constructor| |]; by intros ? ?%not_elem_of_nil.
Qed.

(** ** The recursion through sub-recipes ends *)

Lemma recipe_book db org : ∀ s, is_Some (getRecipeWithClient db org s) → s ∈ RecipeRow.id <$> InvDb.recipes db.
Proof.
  intros s [r Hr]. unfold getRecipeWithClient in Hr. destruct (list_find _ _) as [[i row]|] eqn:H; [|done].
  apply list_find_Some in H as (Hi & [_ Hid] & _). apply list_elem_of_fmap. exists row. split; [done|by eapply list_elem_of_lookup_2].
Qed.

Lemma recipeFuel_enough db visitedStack : (unvisited (RecipeRow.id <$> InvDb.recipes db) visitedStack < recipeFuel db)%nat.
Proof. apply enough_fuel. unfold recipeFuel. rewrite length_fmap. lia. Qed.

(** the last result of [ended] does not occur, in an explosion or a costing *)
Lemma explode_is_the_engine db org recipe : ∃ res,
  explodeIngredients (getRecipeWithClient db org) (recipeFuel db) recipe = Some res ∧ explode db org recipe = lifted res.
Proof.
  pose proof (explode_ends _ _ (recipe_book db org) (recipeFuel db) recipe 10000 [Recipe.id recipe] ∅ (recipeFuel_enough db _)) as H.
  unfold explode, explodeIngredients, ended. destruct (explodeRecursive _ _ _ _ _ _) as [[m|e]|]; [| |done]; by eexists.
Qed.

Lemma cost_is_the_engine db org getIngredientCost recipe : ∃ res,
  calculateRecipeCost (getRecipeWithClient db org) getIngredientCost (recipeFuel db) recipe = Some res ∧
  ended (calculateRecipeCost (getRecipeWithClient db org) getIngredientCost (recipeFuel db) recipe) = lifted res.
Proof.
  pose proof (cost_ends _ _ (recipe_book db org) getIngredientCost (recipeFuel db) recipe [Recipe.id recipe] (recipeFuel_enough db _)) as H.
  unfold calculateRecipeCost. destruct (calculateCostRecursive _ _ _ _ _) as [[c|e]|]; [| |done]; by eexists.
Qed.

(** ** Aggregation *)

Definition takenOf (i : string) (items : list (string * Z)) : Z := sumZ snd (filter (λ t, fst t = i) items).

Lemma addAllGross_lookup items : ∀ m m' i, addAllGross m items = Ok m' → default 0 (m' !! i) = default 0 (m !! i) + takenOf i items.
Proof.
  induction items as [|[j gross] items IH]; intros m m' i; cbn [addAllGross].
  - intros [= <-]. unfold takenOf. rewrite filter_nil, sumZ_nil. lia.
  - unfold addGross. destruct (addScale4 _ _) as [total|] eqn:Ht; [|done]. cbn [result_map result_bind].
    unfold addScale4 in Ht. destruct (proj1 (checked_ok _ _) Ht) as [-> _]. intros H. rewrite (IH _ _ i H).
    unfold takenOf. rewrite filter_cons. cbn [fst]. destruct (decide (j = i)) as [->|Hne].
    + rewrite lookup_insert_eq, sumZ_cons. cbn. lia.
    + by rewrite lookup_insert_ne.
Qed.

(** one total per ingredient *)
Lemma aggregate_total items agg i : aggregateIngredientQuantities items = Ok agg → takenOf i agg = takenOf i items.
Proof.
  unfold aggregateIngredientQuantities. destruct (addAllGross ∅ items) as [m|] eqn:H; [|done]. intros [= <-].
  pose proof (addAllGross_lookup items ∅ m i H) as Hm. rewrite lookup_empty in Hm. change (default 0 None) with 0 in Hm. rewrite Z.add_0_l in Hm. rewrite <- Hm. unfold takenOf.
  rewrite (orderBy_permutation fst (map_to_list m)). destruct (m !! i) as [v|] eqn:Hi.
  - rewrite <- (insert_delete_id m i v Hi) at 1. rewrite map_to_list_insert by apply lookup_delete_eq. rewrite filter_cons_True by done.
    rewrite sumZ_cons, (filter_none _ (map_to_list _)); [unfold sumZ; cbn; unfold id; lia|].
    intros [j w] Hin%elem_of_map_to_list Hj. cbn in Hj. subst j. by rewrite lookup_delete_eq in Hin.
  - rewrite (filter_none _ (map_to_list m)); [done|]. intros [j w] Hin%elem_of_map_to_list Hj. cbn in Hj. congruence.
Qed.

Lemma depletes_total event now agg rows i : Forall2 (depletes event now) (filter (λ a, snd a ≠ 0) agg) rows →
  sumZ StockLedger.quantityDelta (filter (λ r, StockLedger.ingredientId r = i) rows) = - takenOf i agg.
Proof.
  unfold takenOf. revert rows. induction agg as [|[j total] agg IH]; intros rows.
  - intros H. apply Forall2_nil_inv_l in H as ->. done.
  - rewrite !filter_cons. cbn [fst snd]. destruct (decide (total ≠ 0)) as [Hnz|Hz].
    + intros (row & rows' & (_ & Hi & Hd & _) & Hrows & ->)%Forall2_cons_inv_l. rewrite filter_cons. cbn [fst snd] in *. rewrite Hi.
      case_decide; rewrite ?sumZ_cons, ?Hd, (IH rows' Hrows); cbn [snd]; lia.
    + intros Hrows. rewrite (IH rows Hrows). case_decide; [rewrite sumZ_cons; cbn [snd]; lia|done].
Qed.

(** ** What an order requires

    By the documented formula (consumed / yield) * quantity, item by item and without the
    engine: the recipe of a produced item unfolds, made once, to its ingredients
    ([RecipesSpec.unfolds] applies the formula at every level), and its gross amounts count
    [factor] times; a modifier takes ingredients out and adds others. *)

Definition itemTakes (info : option ItemModifiers) (leaves : list Leaf) (factor : Z) (i : string) : Z :=
  let '(removed, additional) := default ([], []) info in
  (if decide (i ∈ removed) then 0 else multiplyScale4 (grossOf i leaves) factor) +
  sumZ (λ a, multiplyScale4 (snd a) factor) (filter (λ a, fst a = i) additional).

(** [charge quantity yield factor]: how often the unfolding is counted *)
Inductive requirement (charge : Z → Z → Z → Prop) (db : InvDb.t) (org i : string) : list (KdsProducedItem.t * option ItemModifiers) → Z → Prop :=
| requires_nothing : requirement charge db org i [] 0
| requires_not_produced item info rest quantity n :
    parseDecimal12x4 (KdsProducedItem.cantidad item) = Ok quantity → quantity <= 0 →
    requirement charge db org i rest n → requirement charge db org i ((item, info) :: rest) n
| requires_recipe item info rest quantity recipe yield leaves factor n :
    parseDecimal12x4 (KdsProducedItem.cantidad item) = Ok quantity → 0 < quantity →
    getRecipeByProductIdWithClient db org (KdsProducedItem.productoId item) = Some recipe → recipeYield recipe = Ok yield →
    unfolds (getRecipeWithClient db org) recipe 10000 leaves → charge quantity yield factor →
    requirement charge db org i rest n →
    requirement charge db org i ((item, info) :: rest) (itemTakes info leaves factor i + n).

(** as documented, once per unit ordered; as charged, divided by the yield once more *)
Definition documented (quantity yield factor : Z) : Prop := factor = quantity.
Definition charged (quantity yield factor : Z) : Prop := divideScale4 quantity yield = Ok factor.

(** every produced recipe makes one unit *)
Definition unitYields (db : InvDb.t) (event : KdsOrderProduced.t) : Prop :=
  Forall (λ item, ∀ recipe, getRecipeByProductIdWithClient db (KdsOrderProduced.organizacionId event) (KdsProducedItem.productoId item) = Some recipe →
    recipeYield recipe = Ok 10000) (KdsOrderProduced.items event).

Lemma divideScale4_unit quantity factor : 0 < quantity → divideScale4 quantity 10000 = Ok factor → factor = quantity.
Proof.
  unfold divideScale4, roundDivNonZero, SCALE_FACTOR. simpl. intros Hq [= <-].
  destruct (Z.ltb_spec (quantity * 10000) 0); [lia|]. change (10000 ÷ 2) with 5000. change (10000 <? 0) with false. cbn [Bool.eqb negb].
  rewrite Z.quot_div_nonneg, Z.mul_1_l by lia. symmetry. apply (Z.div_unique_pos _ _ _ 5000); lia.
Qed.

Lemma charged_unit db event infos i n : unitYields db event →
  requirement charged db (KdsOrderProduced.organizacionId event) i (zip (KdsOrderProduced.items event) infos) n →
  requirement documented db (KdsOrderProduced.organizacionId event) i (zip (KdsOrderProduced.items event) infos) n.
Proof.
  unfold unitYields. intros Hu H. assert (Hz : Forall (λ x, ∀ recipe, getRecipeByProductIdWithClient db (KdsOrderProduced.organizacionId event)
    (KdsProducedItem.productoId (fst x)) = Some recipe → recipeYield recipe = Ok 10000) (zip (KdsOrderProduced.items event) infos)).
  { apply Forall_forall. intros [item info] Hin%elem_of_zip_l. rewrite Forall_forall in Hu. by apply Hu. }
  clear Hu. induction H as [|item info rest quantity n Hp Hq _ IH|item info rest quantity recipe yield leaves factor n Hp Hq Hr Hy Hl Hc _ IH];
    [constructor|apply Forall_cons in Hz as [_ Hz]; by eapply requires_not_produced; eauto|].
  apply Forall_cons in Hz as [Hunit Hz]. eapply requires_recipe; eauto. specialize (Hunit recipe Hr). unfold charged in Hc.
  rewrite Hy in Hunit. injection Hunit as ->. by apply divideScale4_unit in Hc.
Qed.

(** what an item takes is determined, whichever way its recipe is unfolded *)
Lemma unfolds_deterministic resolver :
  (∀ r factor leaves, unfolds resolver r factor leaves → ∀ leaves', unfolds resolver r factor leaves' → leaves' = leaves) ∧
  (∀ factor yield items leaves, unfolds_items resolver factor yield items leaves →
    ∀ leaves', unfolds_items resolver factor yield items leaves' → leaves' = leaves).
Proof.
  apply unfolds_mutind.
  - intros r factor yield leaves Hy _ IH leaves' H. inversion H; subst. apply IH. congruence.
  - intros factor yield leaves' H. by inversion H.
  - intros factor yield item items i net gross leaves _ Hq Hi _ IH leaves' H. inversion H; subst; [|congruence].
    f_equal; [congruence|by apply IH].
  - intros factor yield item items s sub net gross leaves leaves1 _ Hq Hi Hs Hr _ IH1 _ IH2 leaves' H. inversion H; subst; [congruence|].
    f_equal; [|by apply IH2]. apply IH1. congruence.
Qed.

Lemma requirement_unique charge db org i items n : (∀ q y f f', charge q y f → charge q y f' → f = f') →
  requirement charge db org i items n → ∀ n', requirement charge db org i items n' → n' = n.
Proof.
  intros Hch. induction 1 as [|item info rest quantity n Hp Hq _ IH|item info rest quantity recipe yield leaves factor n Hp Hq Hr Hy Hl Hc _ IH];
    intros n' H'; inversion H' as [|????? Hp' Hq'|????????? Hp' Hq' Hr' Hy' Hl' Hc' Hn']; subst; [done|by apply IH| | |].
  - rewrite Hp in Hp'. injection Hp' as ->. lia.
  - rewrite Hp in Hp'. injection Hp' as ->. lia.
  - rewrite Hp in Hp'. injection Hp' as ->. rewrite Hr in Hr'. injection Hr' as ->. rewrite Hy in Hy'. injection Hy' as ->.
    rewrite (proj1 (unfolds_deterministic _) _ _ _ Hl _ Hl'), (Hch _ _ _ _ Hc Hc'). f_equal. by apply IH.
Qed.

(** *** The engine meets the requirement *)

Lemma explode_rows db org recipe rows : explode db org recipe = Ok rows →
  ∃ leaves, unfolds (getRecipeWithClient db org) recipe 10000 leaves ∧ rows_of leaves rows.
Proof.
  unfold explode, explodeIngredients. destruct (explodeRecursive _ _ _ _ _ _) as [[m|e]|] eqn:Hrun; [|done..].
  apply explode_sound in Hrun as (leaves & Hu & ->). cbn [comp_bind ended]. intros H. exists leaves. split; [done|].
  apply explodedRows_spec. unfold totalsOf. by destruct (explodedRows _) as [rows'|]; [injection H as ->|].
Qed.

Lemma grossOf_absent i leaves : i ∉ fst <$> leaves → grossOf i leaves = 0.
Proof.
  intros Hi. unfold grossOf. rewrite (filter_none _ leaves); [done|]. intros l Hl <-. apply Hi. apply list_elem_of_fmap. by exists l.
Qed.

Lemma formatted_gross n s m : formatDecimal12x4 n = Ok s → parseDecimal12x4 s = Ok m → m = n.
Proof. intros [-> Hn]%format_ok. rewrite parse_decimalText, Hn. by intros [= <-]. Qed.

Lemma takenOf_app i l1 l2 : takenOf i (l1 ++ l2) = takenOf i l1 + takenOf i l2.
Proof. unfold takenOf. by rewrite filter_app, sumZ_app. Qed.

Lemma takenOf_additional i additional factor :
  takenOf i ((λ '(ingredientId, gross), (ingredientId, multiplyScale4 gross factor)) <$> additional) =
  sumZ (λ a, multiplyScale4 (snd a) factor) (filter (λ a, fst a = i) additional).
Proof.
  unfold takenOf. induction additional as [|[j g] l IH]; [done|]. rewrite fmap_cons, !filter_cons. cbn [fst].
  case_decide; [|done]. by rewrite !sumZ_cons, IH.
Qed.

Definition scaledRow (factor : Z) (exp : ExplodedIngredient.t) : result InventoryError (string * Z) :=
  result_map (λ gross, (ExplodedIngredient.ingredientId exp, multiplyScale4 gross factor)) (parseDecimal12x4 (ExplodedIngredient.totalGrossQuantity exp)).

(** the rows that are kept, scaled: one amount per ingredient *)
Lemma takenOf_rows leaves factor (removed : list string) i rows base : NoDup (ExplodedIngredient.ingredientId <$> rows) →
  Forall (λ row, formatDecimal12x4 (grossOf (ExplodedIngredient.ingredientId row) leaves) = Ok (ExplodedIngredient.totalGrossQuantity row)) rows →
  result_all (scaledRow factor) (filter (λ exp, ExplodedIngredient.ingredientId exp ∉ removed) rows) = Ok base →
  takenOf i base = if decide (i ∈ removed ∨ i ∉ ExplodedIngredient.ingredientId <$> rows) then 0 else multiplyScale4 (grossOf i leaves) factor.
Proof.
  rewrite result_all_ok. revert base. induction rows as [|row rows IH]; intros base Hnd Hrows H.
  - apply Forall2_nil_inv_l in H as ->. rewrite decide_True; [done|]. right. apply not_elem_of_nil.
  - rewrite fmap_cons in Hnd |- *. apply NoDup_cons in Hnd as [Hnew Hnd]. apply Forall_cons in Hrows as [Hrow Hrows]. rewrite filter_cons in H.
    destruct (decide (ExplodedIngredient.ingredientId row ∉ removed)) as [Hk|Hk].
    + apply Forall2_cons_inv_l in H as ([j v] & base' & Hjv & Hbase & ->). specialize (IH _ Hnd Hrows Hbase). unfold scaledRow in Hjv.
      destruct (parseDecimal12x4 _) as [g|] eqn:Hg; [|done]. injection Hjv as <- <-. apply (formatted_gross _ _ _ Hrow) in Hg as ->.
      change (takenOf i (?a :: ?l)) with (takenOf i ([a] ++ l)). rewrite takenOf_app, IH. unfold takenOf at 1. rewrite filter_cons, filter_nil. cbn [fst].
      destruct (decide (ExplodedIngredient.ingredientId row = i)) as [<-|Hne].
      * rewrite (decide_True _ _ (or_intror Hnew)), decide_False by set_solver. rewrite sumZ_cons, sumZ_nil. cbn [snd]. lia.
      * rewrite sumZ_nil, Z.add_0_l. apply decide_ext. rewrite elem_of_cons. naive_solver.
    + rewrite (IH _ Hnd Hrows H). apply decide_ext. rewrite elem_of_cons. destruct (decide (i = ExplodedIngredient.ingredientId row)) as [->|]; [|naive_solver].
      split; [|tauto]. intros _. left. by destruct (decide (ExplodedIngredient.ingredientId row ∈ removed)).
Qed.

Lemma lifted_ok {A} (r : result InventoryError A) a : lifted r = Ok a ↔ r = Ok a.
Proof. destruct r; cbn; split; congruence. Qed.

Lemma item_requirement db org item info taken i rest n : itemIngredients db org item info = Ok taken →
  requirement charged db org i rest n → requirement charged db org i ((item, info) :: rest) (takenOf i taken + n).
Proof.
  unfold itemIngredients. intros H Hrest. apply result_bind_ok in H as (quantity & Hp%lifted_ok & H).
  destruct (Z.leb_spec quantity 0) as [Hle|Hpos].
  { injection H as <-. by eapply requires_not_produced. }
  destruct (getRecipeByProductIdWithClient _ _ _) as [recipe|] eqn:Hr; [|done].
  apply result_bind_ok in H as (yield & Hy%lifted_ok & H).
  apply result_bind_ok in H as (factor & Hf%lifted_ok & H). apply result_bind_ok in H as (rows & Hx & H).
  apply explode_rows in Hx as (leaves & Hu & Hrows). destruct (default ([], []) info) as [removed additional] eqn:Hinfo.
  apply result_bind_ok in H as (base & Hb%lifted_ok & [= <-]). destruct Hrows as (_ & Hnd & Hin & Hfmt).
  assert (Hyield : recipeYield recipe = Ok yield).
  { inversion Hu as [? ? y ? Hy' _]; subst. rewrite Hy'. unfold recipeYield in Hy'. case_bool_decide; [done|].
    rewrite Hy in Hy'. cbn in Hy'. case_match; congruence. }
  replace (takenOf i (base ++ _)) with (itemTakes info leaves factor i).
  { by eapply requires_recipe. }
  rewrite takenOf_app, takenOf_additional. unfold itemTakes. rewrite Hinfo. f_equal.
  erewrite (takenOf_rows leaves factor removed i rows base Hnd).
  - case_decide as Hi; case_decide as Hi'; try done; [set_solver|]. rewrite grossOf_absent; [done|]. rewrite <- Hin. tauto.
  - eapply Forall_impl; [exact Hfmt|]. by intros row [_ ?].
  - exact Hb.
Qed.

Lemma items_requirement db org items taken i : rawIngredientItems db org items = Ok taken → requirement charged db org i items (takenOf i taken).
Proof.
  revert taken. induction items as [|[item info] items IH]; intros taken; cbn [rawIngredientItems].
  - intros [= <-]. constructor.
  - intros (one & Hone & H)%result_bind_ok. apply result_map_ok in H as (more & Hmore & ->). rewrite takenOf_app.
    apply item_requirement; [done|by apply IH].
Qed.

(** ** Properties *)

(** C31: stock is a running balance.  After any requests, each warehouse's movements of each
    ingredient are numbered 1, 2, 3, ..., none is zero, each stores the balance before it plus
    its delta, and every balance fits DECIMAL(12,4); the current stock can always be read, and
    is the balance of the last movement. *)
Theorem stock_is_a_running_balance db0 requests org branch warehouse ingredient :
  unmoved db0 →
  let db := serveAll db0 requests in
  let rows := aggregateRows db org branch warehouse ingredient in
  running 0 0 rows ∧
  getCurrentStock org branch warehouse ingredient db = (db, Ok (decimalText (stockOf rows))) ∧
  match last rows with Some r => StockLedger.balanceAfter r = stockOf rows | None => stockOf rows = 0 end.
Proof.
  intros H0 db rows. destruct (serveAll_keeps_ok db0 requests (unmoved_ok _ H0)) as [[Hb _ _ _] _]. fold db in Hb.
  pose proof (Hb org branch warehouse ingredient) as Hr. fold rows in Hr. split; [exact Hr|].
  pose proof (running_in 0 0 rows eq_refl Hr) as Hin. rewrite Z.add_0_l in Hin. split.
  - unfold getCurrentStock, withTenantTransaction. rewrite prior_balance. change (stockIn db org branch warehouse ingredient) with (stockOf rows).
    rewrite Hin. unfold inventory, lift. by rewrite (proj2 (format_ok (stockOf rows) (decimalText (stockOf rows)))).
  - pose proof (running_last 0 0 rows Hr) as Hl. destruct (last rows) eqn:E; [by rewrite Z.add_0_l in Hl|].
    apply last_None in E as ->. done.
Qed.

(** the identity of an order *)
Definition sameOrder (e e' : KdsOrderProduced.t) : Prop :=
  KdsOrderProduced.organizacionId e = KdsOrderProduced.organizacionId e' ∧ KdsOrderProduced.sucursalId e = KdsOrderProduced.sucursalId e' ∧
  KdsOrderProduced.centroConsumoId e = KdsOrderProduced.centroConsumoId e' ∧ KdsOrderProduced.ordenId e = KdsOrderProduced.ordenId e'.

Lemma sameOrder_filter e e' (l : list StockLedger.t) : sameOrder e e' → filter (ofOrder e) l = filter (ofOrder e') l.
Proof. intros (H1 & H2 & H3 & H4). apply list_filter_iff. intros r. unfold ofOrder. by rewrite H1, H2, H3, H4. Qed.

(** an order that has movements is answered from the tables *)
Lemma order_duplicate draws event resolver db : kardex_ok db → filter (ofOrder event) (InvDb.stock_ledger db) ≠ [] →
  ∃ o, onKdsOrderProduced draws event resolver db =
    (db, Ok (KdsDepletionResult.DUPLICATE_ACCEPTED (KdsOrderProduced.ordenId event) (toEntry <$> orderMovements db event)
      (omap negativeStock (orderMovements db event)) (CloudOutbox.id o))).
Proof.
  intros [_ _ _ He] Hne. unfold onKdsOrderProduced, withTenantTransaction, applyKdsDepletionLockedWithClient. rewrite bind_gets.
  destruct (orderMovements db event) as [|m ms] eqn:E; [by apply orderMovements_filter in E|].
  unfold duplicateDepletion. rewrite bind_gets, bind_require.
  assert (is_Some (findOrderOutbox db event)) as [o Ho]; [|exists o; by rewrite Ho].
  assert (Hm : m ∈ orderMovements db event) by (rewrite E; set_solver). unfold orderMovements in Hm.
  rewrite elem_of_orderAsc, list_elem_of_filter in Hm. destruct Hm as [(H1 & H2 & H3 & H4 & H5) Hm].
  destruct (He m Hm) as [[? _]|(_ & o & Ho & P1 & P2 & P3 & P4 & P5)]; [congruence|]. unfold findOrderOutbox. apply fmap_is_Some.
  destruct (list_find _ _) eqn:F; [done|exfalso]. apply list_find_None in F. rewrite Forall_forall in F. apply (F o Ho).
  rewrite P1, P2, P3, P4, P5, H1, H2, H5. done.
Qed.

Lemma list_find_prefix {A} (P : A → Prop) `{!∀ x, Decision (P x)} l l' i x :
  list_find P l = Some (i, x) → l `prefix_of` l' → list_find P l' = Some (i, x).
Proof. intros Hf [k ->]. by apply list_find_app_l. Qed.

Lemma findWaste_extends db db' org command w : extends db db' → findWaste db org command = Some w → findWaste db' org command = Some w.
Proof.
  intros (_ & Hp & _). unfold findWaste. destruct (list_find _ (InvDb.waste_records db)) as [[i w']|] eqn:H; [|done]. intros [= <-].
  by rewrite (list_find_prefix _ _ _ _ _ H Hp).
Qed.

Lemma findWaste_in db org command w : findWaste db org command = Some w →
  w ∈ InvDb.waste_records db ∧ WasteRecord.organizationId w = org ∧ WasteRecord.commandId w = command.
Proof.
  unfold findWaste. destruct (list_find _ _) as [[i w']|] eqn:H; [|done]. intros [= <-]. apply list_find_Some in H as (Hi & [? ?] & _).
  split; [by eapply list_elem_of_lookup_2|done].
Qed.

(** the movement of a waste is the one row with its id *)
Lemma ledger_find db org id row : NoDup (StockLedger.id <$> InvDb.stock_ledger db) → row ∈ InvDb.stock_ledger db →
  StockLedger.organizationId row = org → StockLedger.id row = id →
  snd <$> list_find (λ r, StockLedger.organizationId r = org ∧ StockLedger.id r = id) (InvDb.stock_ledger db) = Some row.
Proof.
  intros Hnd Hin Ho Hid. destruct (list_find _ _) as [[i r]|] eqn:H.
  - apply list_find_Some in H as (Hi & [_ Hr] & _). apply list_elem_of_lookup in Hin as [j Hj]. cbn. f_equal.
    assert (i = j) as ->; [|congruence]. eapply (NoDup_lookup _ _ _ id Hnd); rewrite list_lookup_fmap; [by rewrite Hi, <- Hr|by rewrite Hj, <- Hid].
  - apply list_find_None in H. rewrite Forall_forall in H. by destruct (H row Hin).
Qed.

(** a command that was applied is answered from the tables *)
Lemma waste_duplicate draws command db u w row : kardex_ok db → validateWasteCommand command = Ok u →
  findWaste db (RegisterWaste.organizationId command) (RegisterWaste.commandId command) = Some w →
  row ∈ InvDb.stock_ledger db → evidences w row →
  registerWaste draws command db = (db, Ok (WasteResult.mk (toEntry row) w (negativeStock row))).
Proof.
  intros [_ Hids _ _] Hv Hw Hrow (Hid & _ & (Ho & _) & _). unfold registerWaste. rewrite bind_inventory, Hv. unfold withTenantTransaction.
  rewrite bind_gets, Hw. unfold replayWaste. rewrite bind_gets. destruct (findWaste_in _ _ _ _ Hw) as (_ & Hwo & _).
  pose proof (ledger_find db (RegisterWaste.organizationId command) (WasteRecord.stockLedgerId w) row Hids Hrow ltac:(congruence) Hid) as Hf.
  destruct (list_find _ (InvDb.stock_ledger db)) as [[i r]|]; [|done]. injection Hf as ->. by rewrite bind_require.
Qed.

(** a successful waste is stored, with its movement *)
Lemma waste_stored draws command db db' r : kardex_ok db → registerWaste draws command db = (db', Ok r) →
  ∃ row, findWaste db' (RegisterWaste.organizationId command) (RegisterWaste.commandId command) = Some (WasteResult.wasteRecord r) ∧
    row ∈ InvDb.stock_ledger db' ∧ evidences (WasteResult.wasteRecord r) row ∧
    r = WasteResult.mk (toEntry row) (WasteResult.wasteRecord r) (negativeStock row).
Proof.
  intros Hok H. pose proof (registerWaste_ok _ _ _ _ _ H) as [(ew & Hf & -> & Hr)|(u & Hval & Hf & (quantity & row & Hq & Hexit & -> & ->)%newWaste_ok)].
  - destruct (findWaste_in _ _ _ _ Hf) as (Hin & _). destruct (ok_wastes _ Hok ew Hin) as (row & Hrow & Hev). exists row. rewrite Hr.
    split_and!; [done..|]. assert (validateWasteCommand command = Ok tt) as Hv.
    { unfold registerWaste in H. rewrite bind_inventory in H. by destruct (validateWasteCommand command) as [[]|]. }
    rewrite (waste_duplicate draws command db tt ew row) in H by done. by injection H as <-.
  - exists row. cbn. split_and!; [|set_solver|by eapply exits_evidence; [eapply validateWasteCommand_positive|]|done].
    unfold findWaste in *. cbn. destruct (list_find _ (InvDb.waste_records db)) eqn:E; [done|].
    rewrite list_find_app_r by done. cbn. by rewrite decide_True.
Qed.

(** Retries change nothing.  Once an order has been applied with movements, or a waste
    registered, then after any further requests a redelivery of the order (whatever its items
    and resolver) answers DUPLICATE_ACCEPTED with the same movements, the outbox event always
    being found, and a command with the same id answers the same record, movement and alert;
    neither writes anything. *)
Theorem retries_change_nothing db0 requests :
  unmoved db0 →
  let db := serveAll db0 requests in
  (∀ draws event resolver db1 o m movements alerts outboxId,
    onKdsOrderProduced draws event resolver db = (db1, Ok (KdsDepletionResult.APPLIED o (m :: movements) alerts outboxId)) →
    ∀ later draws' event' resolver', sameOrder event' event → let db2 := serveAll db1 later in
    ∃ movements' alerts' outboxId',
      onKdsOrderProduced draws' event' resolver' db2 = (db2, Ok (KdsDepletionResult.DUPLICATE_ACCEPTED o movements' alerts' outboxId')) ∧
      movements' ≡ₚ m :: movements) ∧
  (∀ draws command db1 r, registerWaste draws command db = (db1, Ok r) →
    ∀ later draws' command', validateWasteCommand command' = Ok tt →
    RegisterWaste.organizationId command' = RegisterWaste.organizationId command → RegisterWaste.commandId command' = RegisterWaste.commandId command →
    let db2 := serveAll db1 later in registerWaste draws' command' db2 = (db2, Ok r)).
Proof.
  intros H0 db. destruct (serveAll_keeps_ok db0 requests (unmoved_ok _ H0)) as [Hok _]. fold db in Hok. split.
  - intros draws event resolver db1 o m movements alerts outboxId H later draws' event' resolver' Hsame db2.
    assert (Hok1 : kardex_ok db1).
    { pose proof (serve_keeps_ok db (OrderRequest draws event resolver) Hok) as [Hs _]. cbn [serve] in Hs. by rewrite H in Hs. }
    destruct (serveAll_keeps_ok db1 later Hok1) as [Hok2 (_ & _ & Hkeep)]. fold db2 in Hok2, Hkeep.
    unfold onKdsOrderProduced in H. rewrite transaction_ok in H.
    apply order_ok in H as [(? & _ & _ & _ & ?)|[(Hnone & infos & _ & Hnew)|(_ & _ & Hq)]]; [done| |].
    2: { by destruct (quarantine_result _ _ _ _ _ Hq) as (q & ? & _). }
    destruct (newDepletion_ok _ _ _ _ _ _ Hok Hnew) as ((items & agg & rows & _ & _ & Hrows & -> & Hr) & _ & _).
    injection Hr as -> Hm _ _. apply orderMovements_filter in Hnone.
    assert (Hall : filter (ofOrder event) rows = rows).
    { clear -Hrows. induction Hrows as [|a row l rows Hd _ IH]; [done|]. rewrite filter_cons_True by apply Hd. by rewrite IH. }
    assert (Hf1 : filter (ofOrder event) (InvDb.stock_ledger ((appendRows db rows) <| InvDb.outbox ::= λ l, l ++ [orderEvent draws event rows] |>)) = rows).
    { cbn. by rewrite filter_app, Hnone, Hall. }
    assert (Hf2 : filter (ofOrder event') (InvDb.stock_ledger db2) = rows).
    { rewrite (sameOrder_filter event' event) by done. rewrite Hkeep; rewrite Hf1; [done|]. by destruct rows. }
    destruct (order_duplicate draws' event' resolver' db2 Hok2) as [ob Hob]; [rewrite Hf2; by destruct rows|].
    destruct Hsame as (_ & _ & _ & Ho). rewrite Hob, Ho. eexists _, _, _. split; [done|].
    unfold orderMovements. rewrite Hf2, Hm. by rewrite orderAsc_permutation.
  - intros draws command db1 r H later draws' command' Hv Horg Hcmd db2.
    assert (Hok1 : kardex_ok db1) by by eapply registerWaste_keeps_ok.
    destruct (waste_stored _ _ _ _ _ Hok H) as (row & Hf & Hrow & Hev & Hr).
    destruct (serveAll_keeps_ok db1 later Hok1) as [Hok2 Hext]. fold db2 in Hok2, Hext.
    rewrite (waste_duplicate draws' command' db2 tt (WasteResult.wasteRecord r) row); [by rewrite <- Hr|done|done| | |done].
    + rewrite Horg, Hcmd. by eapply findWaste_extends.
    + destruct Hext as ([k Hk] & _). rewrite Hk. set_solver.
Qed.

Lemma aggregate_keys items agg : aggregateIngredientQuantities items = Ok agg → NoDup (fst <$> agg).
Proof.
  unfold aggregateIngredientQuantities. destruct (addAllGross ∅ items) as [m|]; [|done]. intros [= <-].
  rewrite (orderBy_permutation fst (map_to_list m)). apply NoDup_fst_map_to_list.
Qed.

Lemma depletes_ingredients event now agg rows : Forall2 (depletes event now) agg rows → StockLedger.ingredientId <$> rows = fst <$> agg.
Proof. induction 1 as [|a row agg rows (_ & Hi & _) _ IH]; [done|]. by rewrite !fmap_cons, IH, Hi. Qed.

(** C32: an order is depleted once and as a whole.  It ends in one of four ways: an error or a
    duplicate, which write nothing; on hold, when it has modifiers that are not resolved, with
    no movement and no event; or applied, only if it had no movement, with one outbox event that
    carries its movements and at most one movement per ingredient.  If every produced recipe
    makes one unit, the movements take of each ingredient exactly what the documented formula
    requires of the items and their resolved modifiers; in general the quantity ordered is
    divided by the yield once more than documented, see [yield_is_divided_twice]. *)
Theorem order_is_depleted_once db0 requests draws event resolver :
  unmoved db0 →
  let db := serveAll db0 requests in
  let '(db', res) := onKdsOrderProduced draws event resolver db in
  match res with
  | Err _ => db' = db
  | Ok (KdsDepletionResult.DUPLICATE_ACCEPTED _ _ _ _) => db' = db ∧ orderMovements db event ≠ []
  | Ok (KdsDepletionResult.QUARANTINED _ qid _) =>
      hasModifiers event = true ∧ onHold event qid db' ∧ InvDb.stock_ledger db' = InvDb.stock_ledger db ∧
      InvDb.waste_records db' = InvDb.waste_records db ∧ InvDb.outbox db' = InvDb.outbox db
  | Ok (KdsDepletionResult.APPLIED _ movements alerts _) =>
      orderMovements db event = [] ∧ ∃ infos rows,
        resolution db event resolver infos ∧
        db' = (appendRows db rows) <| InvDb.outbox ::= λ l, l ++ [orderEvent draws event rows] |> ∧
        movements = toEntry <$> rows ∧ alerts = omap negativeStock rows ∧
        Forall (ofOrder event) rows ∧ NoDup (StockLedger.ingredientId <$> rows) ∧
        ∀ i, ∃ n, sumZ StockLedger.quantityDelta (filter (λ r, StockLedger.ingredientId r = i) rows) = - n ∧
          let items := zip (KdsOrderProduced.items event) infos in
          requirement charged db (KdsOrderProduced.organizacionId event) i items n ∧
          (unitYields db event → requirement documented db (KdsOrderProduced.organizacionId event) i items n)
  end.
Proof.
  intros H0 db. destruct (serveAll_keeps_ok db0 requests (unmoved_ok _ H0)) as [Hok _]. fold db in Hok.
  destruct (onKdsOrderProduced draws event resolver db) as [db' [r|e]] eqn:H; [|by apply transaction_err in H].
  unfold onKdsOrderProduced in H. rewrite transaction_ok in H.
  apply order_ok in H as [(o & Hne & _ & -> & ->)|[(Hnone & infos & Hres & Hnew)|(_ & Hm & Hq)]]; [done| |].
  - destruct (newDepletion_ok _ _ _ _ _ _ Hok Hnew) as ((items & agg & rows & Hraw & Hagg & Hrows & -> & ->) & _ & _).
    split; [done|]. exists infos, rows. split_and!; try done.
    + clear -Hrows. induction Hrows as [|a row l rows Hd _ IH]; constructor; [apply Hd|done].
    + rewrite (depletes_ingredients _ _ _ _ Hrows). by apply NoDup_fmap_filter, (aggregate_keys items).
    + intros i. exists (takenOf i items). rewrite (depletes_total _ _ _ _ i Hrows), (aggregate_total _ _ i Hagg).
      apply (items_requirement _ _ _ _ i) in Hraw. split; [done|]. cbv zeta. split; [done|]. intros Hu. by apply charged_unit.
  - destruct (quarantine_result _ _ _ _ _ Hq) as (qid & -> & Hh). apply quarantine_only in Hq as (Hl & Hw & Ho & _). done.
Qed.

(** ** A concrete kitchen *)

Definition exampleRow (id yieldQuantity : string) (product : option string) : RecipeRow.t :=
  RecipeRow.mk id "org" product id id yieldQuantity "PZ" "0.0000" true "2026-01-01T00:00:00.000Z" "2026-01-01T00:00:00.000Z".
Definition exampleDb : InvDb.t :=
  InvDb.mk [exampleRow "pizza" "1.0000" (Some "product-pizza"); exampleRow "dough" "2.0000" None]
    (Recipe.items exampleDough ++ Recipe.items examplePizza)
    [IngredientRow.mk "flour" "org" "20.0000"; IngredientRow.mk "salt" "org" "8.5000"] [] [] [] [].
Definition exampleInvDraws (tag : string) : Draws.t :=
  Draws.mk (λ i, tag +:+ "-" +:+ toString (N.of_nat i)) (tag +:+ "-waste") (tag +:+ "-hold") (tag +:+ "-event")
    "2026-02-01T00:00:00.000Z" "2026-02-01T00:00:00.001Z".
(** two pizzas *)
Definition exampleOrder : KdsOrderProduced.t :=
  KdsOrderProduced.mk "org" "branch" "kitchen" "order-1" "2026-02-01T00:00:00.000Z" 12 [KdsProducedItem.mk "product-pizza" "2.0000" None].
Definition exampleWaste : RegisterWaste.t :=
  RegisterWaste.mk "org" "branch" "kitchen" "salt" "0.1000" "SPILL" "https://photos/1" "command-1" None None.

Lemma run_pair {A B} (p : A * B) b : snd p = b → p = (fst p, b).
Proof. by destruct p; intros <-. Qed.

Lemma stock_is_a_running_balance_witness :
  getCurrentStock "org" "branch" "kitchen" "salt" (serveAll exampleDb [OrderRequest (exampleInvDraws "a") exampleOrder None; WasteRequest (exampleInvDraws "b") exampleWaste]) =
    (serveAll exampleDb [OrderRequest (exampleInvDraws "a") exampleOrder None; WasteRequest (exampleInvDraws "b") exampleWaste], Ok "-0.1140").
Proof.
  destruct (stock_is_a_running_balance exampleDb [OrderRequest (exampleInvDraws "a") exampleOrder None; WasteRequest (exampleInvDraws "b") exampleWaste]
    "org" "branch" "kitchen" "salt") as (_ & -> & _); [by split|]. apply f_equal. vm_compute. reflexivity.
Defined.

Definition exampleApplied : result KardexError KdsDepletionResult.t :=
  Eval vm_compute in snd (onKdsOrderProduced (exampleInvDraws "a") exampleOrder None exampleDb).
Definition exampleWasted : result KardexError WasteResult.t :=
  Eval vm_compute in snd (registerWaste (exampleInvDraws "b") exampleWaste exampleDb).

Lemma retries_change_nothing_witness :
  let db1 := fst (onKdsOrderProduced (exampleInvDraws "a") exampleOrder None exampleDb) in
  let db2 := fst (registerWaste (exampleInvDraws "b") exampleWaste exampleDb) in
  (∃ movements alerts outboxId, onKdsOrderProduced (exampleInvDraws "c") exampleOrder None db1 =
    (db1, Ok (KdsDepletionResult.DUPLICATE_ACCEPTED "order-1" movements alerts outboxId))) ∧
  registerWaste (exampleInvDraws "c") exampleWaste db2 = (db2, exampleWasted).
Proof.
  destruct (retries_change_nothing exampleDb []) as [Horder Hwaste]; [by split|]. split.
  - edestruct (Horder (exampleInvDraws "a") exampleOrder None) with (later := @nil request) (draws' := exampleInvDraws "c") (event' := exampleOrder)
      (resolver' := @None ModifierRecipeResolver) as (movements & alerts & outboxId & H & _).
    + apply (run_pair _ exampleApplied). vm_compute. reflexivity.
    + by split_and!.
    + exists movements, alerts, outboxId. exact H.
  - unfold exampleWasted. refine (Hwaste (exampleInvDraws "b") exampleWaste _ _ _ [] (exampleInvDraws "c") exampleWaste eq_refl eq_refl eq_refl).
    apply (run_pair _ exampleWasted). vm_compute. reflexivity.
Defined.

Lemma order_is_depleted_once_witness :
  ∃ infos rows, exampleApplied = Ok (KdsDepletionResult.APPLIED "order-1" (toEntry <$> rows) (omap negativeStock rows) "a-event") ∧
    Forall (ofOrder exampleOrder) rows ∧
    ∀ i, ∃ n, sumZ StockLedger.quantityDelta (filter (λ r, StockLedger.ingredientId r = i) rows) = - n ∧
      requirement documented exampleDb "org" i (zip (KdsOrderProduced.items exampleOrder) infos) n.
Proof.
  pose proof (order_is_depleted_once exampleDb [] (exampleInvDraws "a") exampleOrder None (conj eq_refl eq_refl)) as H. cbv zeta in H.
  rewrite (run_pair (onKdsOrderProduced _ _ _ _) exampleApplied) in H by (vm_compute; reflexivity). unfold exampleApplied in H at 1.
  destruct H as (_ & infos & rows & _ & _ & Hm & Ha & Ho & _ & Hs). exists infos, rows.
  split; [unfold exampleApplied; by rewrite Hm, Ha|]. split; [done|]. intros i. destruct (Hs i) as (n & Hn & _ & Hreq).
  exists n. split; [exact Hn|]. apply Hreq. constructor; [|constructor]. intros recipe Hr. vm_compute in Hr. injection Hr as <-. reflexivity.
Defined.

(** ** Two findings, run *)

(** four portions of a recipe that makes four portions out of 1 kg take 0.25 kg: the explosion
    is per unit of yield, and the item factor divides by the yield again *)
Definition soupDb : InvDb.t :=
  InvDb.mk [exampleRow "soup" "4.0000" (Some "product-soup")] [exampleItem "s1" "soup" (Some "stock") None "1.0000" "1.0000"]
    [IngredientRow.mk "stock" "org" "10.0000"] [] [] [] [].
Definition soupOrder (cantidad : string) : KdsOrderProduced.t :=
  KdsOrderProduced.mk "org" "branch" "kitchen" "order-2" "2026-02-01T00:00:00.000Z" 5 [KdsProducedItem.mk "product-soup" cantidad None].
Example yield_is_divided_twice :
  StockLedger.quantityDelta <$> InvDb.stock_ledger (serve soupDb (OrderRequest (exampleInvDraws "a") (soupOrder "4.0000") None)) = [-2500] ∧
  requirement documented soupDb "org" "stock" (zip (KdsOrderProduced.items (soupOrder "4.0000")) [None]) 10000.
Proof.
  split; [vm_compute; reflexivity|].
  refine (requires_recipe documented soupDb "org" "stock" _ None [] 40000
    (Recipe.mk "soup" "org" (Some "product-soup") "soup" "soup" "4.0000" "PZ" "0.0000" true [exampleItem "s1" "soup" (Some "stock") None "1.0000" "1.0000"]
      "2026-01-01T00:00:00.000Z" "2026-01-01T00:00:00.000Z") 40000 [("stock", (2500, 2500))] 40000 0 _ _ _ _ _ _ _);
    [vm_compute; reflexivity..| |reflexivity|constructor].
  econstructor; [reflexivity|]. eapply unfolds_ingredient; [vm_compute; reflexivity..|constructor].
Qed.

(** an order that takes nothing has no movement to be recognised by, so its redelivery
    publishes a second event *)
Example empty_order_is_published_again :
  CloudOutbox.id <$> InvDb.outbox (serveAll soupDb [OrderRequest (exampleInvDraws "a") (soupOrder "0.0000") None;
    OrderRequest (exampleInvDraws "b") (soupOrder "0.0000") None]) = ["a-event"; "b-event"].
Proof. vm_compute. reflexivity. Qed.
