(* ===== verification/Ingestion.v ===== *)
(** Sync ingestion in the cloud: the batch router of sync/src/sync-ingestion-router.ts and
    IngestedIdempotencyEngine of database/src/outbox/ingested-idempotency-engine.ts, over the
    tables of migration 20260904210000, with the keys of core/src/sync-contracts.ts.

    [processEvent] runs in a transaction of its caller, which takes the advisory lock of the
    event's stream before it reads; it is one step on the tables ([ingest]), and PostgreSQL
    restores them when it throws.  Identifiers of tenants and branches are UUIDs, which the
    columns hold in lower case.  The tables the handler writes are its own state [D]; the
    handler, the receipt issuer and SHA-256 are arguments, as they are in the source.  Row
    identifiers and clocks are drawn values; the identifier of a log row is never read and is
    left out.  Texts bound to columns hold no NUL.  Foreign keys and row-level security are not modelled. *)
From S2P Require Import Prelude Decimals Epochs Json PosTypes EdgeDb AuditTrail.
From Stdlib Require Import Ascii String.

(** ** Contracts *)

Module AuthContext.
(* sync-contracts.ts:16-22 AuthContext *)
Record t := mk { organizationId : string; branchId : string }.
End AuthContext.

Module SyncEvent.
(* sync-contracts.ts:217-228 SyncEventDTO *)
Record t := mk {
  organizationId : option string; branchId : option string; clientOpId : string; aggregateType : string; aggregateId : string;
  aggregateSequenceNumber : Z; action : string; payload : Json; occurredAt : option string; createdAt : option string }.
#[global] Instance eta_t : Eta t := λ e,
  mk (organizationId e) (branchId e) (clientOpId e) (aggregateType e) (aggregateId e) (aggregateSequenceNumber e) (action e) (payload e)
    (occurredAt e) (createdAt e).
End SyncEvent.

Module SyncAckStatus.
(* sync-contracts.ts:102-108 SyncAckStatus *)
Inductive t := RECEIVED | DURABLY_STORED | APPLIED | DUPLICATE_ACCEPTED | REJECTED | REQUIRES_RECONCILIATION.
#[global] Instance eq_dec : EqDecision t.
Proof. solve_decision. Defined.
End SyncAckStatus.

Module CloudTransactionReceipt.
(* sync-contracts.ts:123-129 CloudTransactionReceipt *)
Record t := mk { receiptId : string; appliedAt : string; serverSignature : string; clientOpId : string; aggregateSequenceNumber : Z }.
#[global] Instance eq_dec : EqDecision t.
Proof. solve_decision. Defined.
End CloudTransactionReceipt.

Module ReceiptIssuanceContext.
(* sync-contracts.ts:131-139 ReceiptIssuanceContext *)
Record t := mk {
  organizationId : string; branchId : string; clientOpId : string; aggregateSequenceNumber : Z; aggregateType : option string;
  aggregateId : option string; action : option string }.
End ReceiptIssuanceContext.

Module ProcessEventResult.
(* outbox types.ts:105-112 ProcessEventResult *)
Record t := mk {
  status : SyncAckStatus.t; receipt : option CloudTransactionReceipt.t; responsePayload : Json; gapInterval : option (Z * Z);
  drainedCount : option Z; wasDuplicate : bool }.
End ProcessEventResult.

(** ** Tables *)

Module IdempotencyRow.
(* 20260904210000_transactional_outbox_idempotency.sql:9-28 ingested_idempotency_log *)
Record t := mk {
  organizationId : string; branchId : string; aggregateType : string; aggregateId : string; action : string; clientOpId : string;
  idempotencyKey : string; aggregateSequenceNumber : Z; status : SyncAckStatus.t; responsePayload : Json;
  receiptPayload : CloudTransactionReceipt.t; receiptToken : string }.
End IdempotencyRow.

Module BufferStatus.
(* outbox types.ts:47-47 ReorderingBufferRecord *)
Inductive t := BUFFERED | DRAINED.
#[global] Instance eq_dec : EqDecision t.
Proof. solve_decision. Defined.
End BufferStatus.

Module BufferRow.
(* outbox types.ts:36-50 ReorderingBufferRecord *)
Record t := mk {
  id : string; organizationId : string; branchId : string; aggregateType : string; aggregateId : string; aggregateSequenceNumber : Z;
  action : string; clientOpId : string; idempotencyKey : string; eventPayload : Json; status : BufferStatus.t; receivedAt : string;
  drainedAt : option string }.
#[global] Instance eta_t : Eta t := λ r,
  mk (id r) (organizationId r) (branchId r) (aggregateType r) (aggregateId r) (aggregateSequenceNumber r) (action r) (clientOpId r)
    (idempotencyKey r) (eventPayload r) (status r) (receivedAt r) (drainedAt r).
End BufferRow.

(** an aggregate stream: organisation, branch, aggregate type and identifier *)
Definition Stream : Type := string * string * string * string.

Module SyncDb.
(** [domain] is what the handlers write *)
(* 20260904210000_transactional_outbox_idempotency.sql:43-53 aggregate_sequences *)
Record t {D : Type} := mk {
  ingested_idempotency_log : list IdempotencyRow.t; aggregate_sequences : gmap Stream Z; reordering_buffer_queue : list BufferRow.t;
  domain : D }.
Arguments t : clear implicits.
#[global] Instance eta_t {D} : Eta (t D) := λ d,
  mk D (ingested_idempotency_log d) (aggregate_sequences d) (reordering_buffer_queue d) (domain d).
Definition empty {D} (d : D) : t D := mk D [] ∅ [] d.
End SyncDb.

(** [gen_random_uuid()] of a buffer row and the clock of the transaction *)
Module SyncDraws.
Record t := mk { bufferId : string; now : string }.
End SyncDraws.

Inductive SyncError :=
| Refused (message : string)
| Postgres (constraint : string)
| SyncJs (e : JsError)
| HandlerFailed (message : string)
| IssuerFailed (message : string)
| NotEnded.
#[global] Instance SyncError_eq_dec : EqDecision SyncError.
Proof. solve_decision. Defined.

(** ** Keys and columns *)

(** a UUID as its column returns it *)
Definition uuidColumn (s : string) : string := mapString lowerChar s.

(** a VARCHAR(n) column *)
Definition fits (n : nat) (s : string) : bool := (String.length s <=? n)%nat.

(** [JSON.stringify] of an array of strings *)
Definition stringifyStrings (l : list string) : string :=
  "[" +:+ String.concat "," (quote <$> l) +:+ "]".

(* sync-contracts.ts:38-58 canonicalizeIdempotencyPayload *)
Definition canonicalizeIdempotencyPayload (orgId branchId aggregateType aggregateId action clientOpId : string) : result SyncError string :=
  if existsb (λ s, bool_decide (s = "")) [orgId; branchId; aggregateType; aggregateId; action; clientOpId]
  then Err (Refused "All idempotency key components must be non-empty strings")
  else Ok (stringifyStrings [orgId; branchId; aggregateType; aggregateId; action; clientOpId]).

(** NaN and the infinities are written as null *)
Fixpoint finite (v : Json) : Json :=
  match v with
  | JNaN | JInfinity => JNull
  | JArray vs => JArray (finite <$> vs)
  | JObject ms => JObject ((λ m, (fst m, finite (snd m))) <$> ms)
  | v => v
  end.

(** [JSON.stringify] into a JSONB NOT NULL column, as it is read back *)
Definition jsonb (v : Json) : result SyncError Json :=
  if hasBigInt v then Err (SyncJs (TypeError "Do not know how to serialize a BigInt"))
  else match norm (finite v) with
    | JUndefined => Err (Postgres "null value in a NOT NULL column")
    | v' => if hasNul v' then Err (Postgres "unsupported Unicode escape sequence") else Ok v'
    end.

Section engine.
Context (digest : string → string).
Context {D : Type}.
Context (handler : Json → SyncEvent.t → D → D * result string Json).
Context (issueReceipt : string → ReceiptIssuanceContext.t → result string CloudTransactionReceipt.t).

Abbreviation Tx := (M (SyncDb.t D) SyncError).

(* sync-contracts.ts:64-86 formatIdempotencyKey *)
Definition formatIdempotencyKey (orgId branchId aggregateType aggregateId action clientOpId : string) : result SyncError string :=
  result_map digest (canonicalizeIdempotencyPayload orgId branchId aggregateType aggregateId action clientOpId).

Definition streamOf (auth : AuthContext.t) (event : SyncEvent.t) : Stream :=
  (uuidColumn (AuthContext.organizationId auth), uuidColumn (AuthContext.branchId auth), SyncEvent.aggregateType event,
   SyncEvent.aggregateId event).

Definition logStream (r : IdempotencyRow.t) : Stream :=
  (IdempotencyRow.organizationId r, IdempotencyRow.branchId r, IdempotencyRow.aggregateType r, IdempotencyRow.aggregateId r).

Definition bufferStream (r : BufferRow.t) : Stream :=
  (BufferRow.organizationId r, BufferRow.branchId r, BufferRow.aggregateType r, BufferRow.aggregateId r).

(** ** Statements *)

(** uq_idempotency_log_key, uq_idempotency_log_client_op and uq_ingested_idempotency_tuple *)
(* 20260904210000_transactional_outbox_idempotency.sql:13-27 ingested_idempotency_log *)
Definition insertLog (row : IdempotencyRow.t) : Tx unit :=
  rows ← gets SyncDb.ingested_idempotency_log;
  throw_when (negb (fits 100 (IdempotencyRow.aggregateType row) && fits 100 (IdempotencyRow.aggregateId row) &&
    fits 100 (IdempotencyRow.action row) && fits 255 (IdempotencyRow.receiptToken row))) (Postgres "value too long") ;;
  throw_when (bool_decide ((IdempotencyRow.organizationId row, IdempotencyRow.idempotencyKey row) ∈
    ((λ r, (IdempotencyRow.organizationId r, IdempotencyRow.idempotencyKey r)) <$> rows))) (Postgres "uq_idempotency_log_key") ;;
  throw_when (bool_decide ((logStream row, IdempotencyRow.action row, IdempotencyRow.clientOpId row) ∈
    ((λ r, (logStream r, IdempotencyRow.action r, IdempotencyRow.clientOpId r)) <$> rows))) (Postgres "uq_idempotency_log_client_op") ;;
  throw_when (bool_decide ((logStream row, IdempotencyRow.aggregateSequenceNumber row) ∈
    ((λ r, (logStream r, IdempotencyRow.aggregateSequenceNumber r)) <$> rows))) (Postgres "uq_ingested_idempotency_tuple") ;;
  modify (λ db, db <| SyncDb.ingested_idempotency_log ::= λ l, l ++ [row] |>).

(** ON CONFLICT (organization_id, idempotency_key) DO NOTHING; uq_reordering_buffer_seq *)
(* ingested-idempotency-engine.ts:194-224 processEvent, buffer *)
Definition insertBuffer (row : BufferRow.t) : Tx unit :=
  rows ← gets SyncDb.reordering_buffer_queue;
  throw_when (negb (fits 100 (BufferRow.aggregateType row) && fits 100 (BufferRow.aggregateId row) && fits 100 (BufferRow.action row)))
    (Postgres "value too long") ;;
  if bool_decide ((BufferRow.organizationId row, BufferRow.idempotencyKey row) ∈
    ((λ r, (BufferRow.organizationId r, BufferRow.idempotencyKey r)) <$> rows)) then mret tt
  else
    throw_when (bool_decide (BufferRow.id row ∈ (BufferRow.id <$> rows))) (Postgres "reordering_buffer_queue_pkey") ;;
    throw_when (bool_decide ((bufferStream row, BufferRow.aggregateSequenceNumber row) ∈
      ((λ r, (bufferStream r, BufferRow.aggregateSequenceNumber r)) <$> rows))) (Postgres "uq_reordering_buffer_seq") ;;
    modify (λ db, db <| SyncDb.reordering_buffer_queue ::= λ l, l ++ [row] |>).

(** INSERT ... ON CONFLICT DO UPDATE, and the UPDATE of a stream that exists *)
(* ingested-idempotency-engine.ts:241-257 processEvent, sequence *)
Definition setSequence (stream : Stream) (n : Z) : Tx unit :=
  let '(_, _, aggregateType, aggregateId) := stream in
  throw_when (negb (fits 100 aggregateType && fits 100 aggregateId)) (Postgres "value too long") ;;
  modify (λ db, db <| SyncDb.aggregate_sequences ::= <[stream := n]> |>).

(** [handler(client, payload, event)] *)
Definition applyHandler (event : SyncEvent.t) : Tx Json := λ db,
  let '(d', r) := handler (SyncEvent.payload event) event (SyncDb.domain db) in
  (db <| SyncDb.domain := d' |>, match r with Ok v => Ok v | Err message => Err (HandlerFailed message) end).

Definition issue (now : string) (context : ReceiptIssuanceContext.t) : Tx CloudTransactionReceipt.t :=
  lift (match issueReceipt now context with Ok r => Ok r | Err message => Err (IssuerFailed message) end).

Definition issuanceContext (auth : AuthContext.t) (event : SyncEvent.t) : ReceiptIssuanceContext.t :=
  ReceiptIssuanceContext.mk (AuthContext.organizationId auth) (AuthContext.branchId auth) (SyncEvent.clientOpId event)
    (SyncEvent.aggregateSequenceNumber event) (Some (SyncEvent.aggregateType event)) (Some (SyncEvent.aggregateId event))
    (Some (SyncEvent.action event)).

(** ** Applying an event *)

(** mutation, sequence, receipt and log row, in this order; the arriving event and the drained
    ones go through the same statements *)
(* ingested-idempotency-engine.ts:238-294 processEvent, apply *)
Definition applyEvent (auth : AuthContext.t) (now key : string) (event : SyncEvent.t) : Tx (CloudTransactionReceipt.t * Json) :=
  mutationResult ← applyHandler event;
  setSequence (streamOf auth event) (SyncEvent.aggregateSequenceNumber event) ;;
  receipt ← issue now (issuanceContext auth event);
  stored ← lift (jsonb mutationResult);
  insertLog (IdempotencyRow.mk (uuidColumn (AuthContext.organizationId auth)) (uuidColumn (AuthContext.branchId auth))
    (SyncEvent.aggregateType event) (SyncEvent.aggregateId event) (SyncEvent.action event) (uuidColumn (SyncEvent.clientOpId event)) key
    (SyncEvent.aggregateSequenceNumber event) SyncAckStatus.APPLIED stored receipt (CloudTransactionReceipt.receiptId receipt)) ;;
  mret (receipt, mutationResult).

(* ingested-idempotency-engine.ts:303-327 processEvent, drain *)
Definition bufferedAt (stream : Stream) (seq : Z) (db : SyncDb.t D) : list BufferRow.t :=
  filter (λ r, bufferStream r = stream ∧ BufferRow.aggregateSequenceNumber r = seq ∧ BufferRow.status r = BufferStatus.BUFFERED)
    (SyncDb.reordering_buffer_queue db).

(* ingested-idempotency-engine.ts:329-340 processEvent, drain *)
Definition bufferedEvent (auth : AuthContext.t) (now : string) (event : SyncEvent.t) (item : BufferRow.t) (seq : Z) : SyncEvent.t :=
  SyncEvent.mk (Some (AuthContext.organizationId auth)) (Some (AuthContext.branchId auth)) (BufferRow.clientOpId item)
    (SyncEvent.aggregateType event) (SyncEvent.aggregateId event) seq (BufferRow.action item) (BufferRow.eventPayload item) None (Some now).

(* ingested-idempotency-engine.ts:400-408 processEvent, drain *)
Definition markDrained (id now : string) : Tx unit :=
  modify (λ db, db <| SyncDb.reordering_buffer_queue ::= fmap (λ r, if decide (BufferRow.id r = id)
    then r <| BufferRow.status := BufferStatus.DRAINED |> <| BufferRow.drainedAt := Some now |> else r) |>).

(** [while (draining)], with the number of rows still buffered as fuel *)
(* ingested-idempotency-engine.ts:297-412 processEvent, drain *)
Fixpoint drain (fuel : nat) (auth : AuthContext.t) (now : string) (event : SyncEvent.t) (currentSeq drainedCount : Z) : Tx Z :=
  let nextSeq := currentSeq + 1 in
  rows ← gets (bufferedAt (streamOf auth event) nextSeq);
  match rows, fuel with
  | [], _ => mret drainedCount
  | _, O => mthrow NotEnded
  | item :: _, S fuel' =>
      applyEvent auth now (BufferRow.idempotencyKey item) (bufferedEvent auth now event item nextSeq) ;;
      markDrained (BufferRow.id item) now ;;
      drain fuel' auth now event nextSeq (drainedCount + 1)
  end.

Definition pending (db : SyncDb.t D) : nat :=
  List.length (filter (λ r, BufferRow.status r = BufferStatus.BUFFERED) (SyncDb.reordering_buffer_queue db)).

(** ** The engine *)

Definition mismatch (claimed : option string) (verified : string) : bool :=
  match truthy claimed with Some id => bool_decide (id ≠ verified) | None => false end.

(* ingested-idempotency-engine.ts:53-69 processEvent, guards *)
Definition checkEvent (auth : AuthContext.t) (event : SyncEvent.t) : Tx unit :=
  throw_when (mismatch (SyncEvent.organizationId event) (AuthContext.organizationId auth)) (Refused "UNAUTHORIZED_TENANT") ;;
  throw_when (mismatch (SyncEvent.branchId event) (AuthContext.branchId auth)) (Refused "ORGANIZATION_BRANCH_MISMATCH") ;;
  throw_when (negb (isValidUuidV4 (SyncEvent.clientOpId event))) (Refused "clientOpId must be a valid UUIDv4") ;;
  throw_when (negb (isSafeInteger (SyncEvent.aggregateSequenceNumber event)) || (SyncEvent.aggregateSequenceNumber event <? 1))
    (Refused "aggregateSequenceNumber must be a safe positive integer >= 1").

(* ingested-idempotency-engine.ts:93-123 processEvent, lookup *)
Definition findLogged (organizationId key : string) (db : SyncDb.t D) : option IdempotencyRow.t :=
  snd <$> list_find (λ r, IdempotencyRow.organizationId r = uuidColumn organizationId ∧ IdempotencyRow.idempotencyKey r = key)
    (SyncDb.ingested_idempotency_log db).

(* ingested-idempotency-engine.ts:125-148 processEvent, duplicate *)
Definition answerDuplicate (auth : AuthContext.t) (event : SyncEvent.t) (existing : IdempotencyRow.t) : Tx ProcessEventResult.t :=
  throw_when (bool_decide (IdempotencyRow.branchId existing ≠ AuthContext.branchId auth) ||
    bool_decide (IdempotencyRow.aggregateType existing ≠ SyncEvent.aggregateType event) ||
    bool_decide (IdempotencyRow.aggregateId existing ≠ SyncEvent.aggregateId event) ||
    bool_decide (IdempotencyRow.action existing ≠ SyncEvent.action event) ||
    bool_decide (IdempotencyRow.clientOpId existing ≠ SyncEvent.clientOpId event)) (Refused "IDEMPOTENCY_COLLISION") ;;
  mret (ProcessEventResult.mk SyncAckStatus.DUPLICATE_ACCEPTED (Some (IdempotencyRow.receiptPayload existing))
    (IdempotencyRow.responsePayload existing) None None true).

(* ingested-idempotency-engine.ts:151-164 processEvent, sequence *)
Definition currentSequence (stream : Stream) (db : SyncDb.t D) : Z := default 0 (SyncDb.aggregate_sequences db !! stream).

(* ingested-idempotency-engine.ts:191-236 processEvent, gap *)
Definition bufferEvent (draws : SyncDraws.t) (auth : AuthContext.t) (key : string) (expectedSequence : Z) (event : SyncEvent.t)
    : Tx ProcessEventResult.t :=
  let incomingSequence := SyncEvent.aggregateSequenceNumber event in
  payload ← lift (jsonb (SyncEvent.payload event));
  insertBuffer (BufferRow.mk (SyncDraws.bufferId draws) (uuidColumn (AuthContext.organizationId auth))
    (uuidColumn (AuthContext.branchId auth)) (SyncEvent.aggregateType event) (SyncEvent.aggregateId event) incomingSequence
    (SyncEvent.action event) (uuidColumn (SyncEvent.clientOpId event)) key payload BufferStatus.BUFFERED (SyncDraws.now draws) None) ;;
  mret (ProcessEventResult.mk SyncAckStatus.REQUIRES_RECONCILIATION None
    (JObject [("status", JString "REQUIRES_RECONCILIATION"); ("error", JString "SEQUENCE_GAP");
      ("gapInterval", JObject [("from", JNumber expectedSequence); ("to", JNumber (incomingSequence - 1))])])
    (Some (expectedSequence, incomingSequence - 1)) None false).

(* ingested-idempotency-engine.ts:47-421 processEvent *)
Definition processEvent (draws : SyncDraws.t) (auth : AuthContext.t) (event : SyncEvent.t) : Tx ProcessEventResult.t :=
  checkEvent auth event ;;
  key ← lift (formatIdempotencyKey (AuthContext.organizationId auth) (AuthContext.branchId auth) (SyncEvent.aggregateType event)
    (SyncEvent.aggregateId event) (SyncEvent.action event) (SyncEvent.clientOpId event));
  existing ← gets (findLogged (AuthContext.organizationId auth) key);
  match existing with
  | Some row => answerDuplicate auth event row
  | None =>
      current ← gets (currentSequence (streamOf auth event));
      let expectedSequence := current + 1 in
      let incomingSequence := SyncEvent.aggregateSequenceNumber event in
      if incomingSequence <? expectedSequence then
        receipt ← issue (SyncDraws.now draws) (issuanceContext auth event);
        mret (ProcessEventResult.mk SyncAckStatus.DUPLICATE_ACCEPTED (Some receipt)
          (JObject [("message", JString "Sequence already consumed")]) None None true)
      else if expectedSequence <? incomingSequence then bufferEvent draws auth key expectedSequence event
      else
        applied ← applyEvent auth (SyncDraws.now draws) key event;
        fuel ← gets pending;
        drainedCount ← drain fuel auth (SyncDraws.now draws) event incomingSequence 0;
        mret (ProcessEventResult.mk SyncAckStatus.APPLIED (Some (fst applied)) (snd applied) None (Some drainedCount) false)
  end.

(** the transaction around it *)
(* tenant.ts:32-50 withTenantTransaction *)
Definition ingest (draws : SyncDraws.t) (auth : AuthContext.t) (event : SyncEvent.t) : Tx ProcessEventResult.t := λ db,
  match processEvent draws auth event db with
  | (db', Ok r) => (db', Ok r)
  | (_, Err e) => (db, Err e)
  end.

(** ORDER BY aggregate_sequence_number ASC *)
(* ingested-idempotency-engine.ts:426-459 getBufferedEvents *)
Definition getBufferedEvents (orgId branchId aggregateType aggregateId : string) : Tx (list BufferRow.t) :=
  gets (λ db, orderAsc BufferRow.aggregateSequenceNumber
    (filter (λ r, bufferStream r = (uuidColumn orgId, uuidColumn branchId, aggregateType, aggregateId)) (SyncDb.reordering_buffer_queue db))).
End engine.
