(* ===== verification/IngestionSpec.v ===== *)
(** What ingestion promises: every stream is applied exactly once and in order, a retry is
    answered with the original receipt, and the order of delivery does not matter. *)
From S2P Require Import Prelude Decimals Epochs Json JsonSpec PosTypes EdgeDb AuditTrail Ingestion.
From Stdlib Require Import Ascii String.

(** ** Runs of the statements *)

Section runs.
Context {D : Type}.
Context (handler : Json → SyncEvent.t → D → D * result string Json).
Context (issueReceipt : string → ReceiptIssuanceContext.t → result string CloudTransactionReceipt.t).
Implicit Types (db : SyncDb.t D) (auth : AuthContext.t) (ev event : SyncEvent.t).

(** the log row of an applied event *)
Definition appliedRow (auth : AuthContext.t) (key : string) (ev : SyncEvent.t) (stored : Json) (rc : CloudTransactionReceipt.t) : IdempotencyRow.t :=
  IdempotencyRow.mk (uuidColumn (AuthContext.organizationId auth)) (uuidColumn (AuthContext.branchId auth)) (SyncEvent.aggregateType ev)
    (SyncEvent.aggregateId ev) (SyncEvent.action ev) (uuidColumn (SyncEvent.clientOpId ev)) key (SyncEvent.aggregateSequenceNumber ev)
    SyncAckStatus.APPLIED stored rc (CloudTransactionReceipt.receiptId rc).

Definition afterApply (auth : AuthContext.t) (ev : SyncEvent.t) (row : IdempotencyRow.t) (d' : D) (db : SyncDb.t D) : SyncDb.t D :=
  SyncDb.mk D (SyncDb.ingested_idempotency_log db ++ [row])
    (<[streamOf auth ev := SyncEvent.aggregateSequenceNumber ev]> (SyncDb.aggregate_sequences db)) (SyncDb.reordering_buffer_queue db) d'.

Definition logKey (r : IdempotencyRow.t) := (IdempotencyRow.organizationId r, IdempotencyRow.idempotencyKey r).
Definition logOp (r : IdempotencyRow.t) := (logStream r, IdempotencyRow.action r, IdempotencyRow.clientOpId r).
Definition logPosition (r : IdempotencyRow.t) := (logStream r, IdempotencyRow.aggregateSequenceNumber r).

Definition freshRow (row : IdempotencyRow.t) (rows : list IdempotencyRow.t) : Prop :=
  logKey row ∉ (logKey <$> rows) ∧ logOp row ∉ (logOp <$> rows) ∧ logPosition row ∉ (logPosition <$> rows).

Definition fitting (row : IdempotencyRow.t) : bool :=
  fits 100 (IdempotencyRow.aggregateType row) && fits 100 (IdempotencyRow.aggregateId row) &&
  fits 100 (IdempotencyRow.action row) && fits 255 (IdempotencyRow.receiptToken row).

Lemma insertLog_ok row db db' u :
  insertLog row db = (db', Ok u) ↔
  fitting row = true ∧ freshRow row (SyncDb.ingested_idempotency_log db) ∧
  db' = db <| SyncDb.ingested_idempotency_log ::= λ l, l ++ [row] |>.
Proof.
  destruct u. unfold insertLog, fitting, freshRow. split.
  - intros H. minv H. repeat match goal with H : bool_decide _ = false |- _ => apply bool_decide_eq_false in H end.
    simpl_guards. injection H as <-. split_and!; try done. rewrite !andb_true_iff. tauto.
  - intros (Hf & (Hk & Ho & Hp) & ->). mrun. rewrite Hf. simpl.
    rewrite bool_decide_eq_false_2 by exact Hk. rewrite bool_decide_eq_false_2 by exact Ho. by rewrite bool_decide_eq_false_2 by exact Hp.
Qed.

Lemma applyHandler_ok ev db db' v :
  applyHandler handler ev db = (db', Ok v) ↔
  ∃ d', handler (SyncEvent.payload ev) ev (SyncDb.domain db) = (d', Ok v) ∧ db' = db <| SyncDb.domain := d' |>.
Proof.
  unfold applyHandler. destruct (handler _ _ _) as [d1 [v1|e]]; split; try (by intros [=]); [|naive_solver|naive_solver].
  intros [= <- <-]. eauto.
Qed.

Lemma fitting_stream row : fitting row = true → fits 100 (IdempotencyRow.aggregateType row) && fits 100 (IdempotencyRow.aggregateId row) = true.
Proof. unfold fitting. rewrite !andb_true_iff. tauto. Qed.

Lemma applyEvent_ok auth now key ev db db' rc v :
  applyEvent handler issueReceipt auth now key ev db = (db', Ok (rc, v)) ↔
  ∃ d' stored, handler (SyncEvent.payload ev) ev (SyncDb.domain db) = (d', Ok v) ∧
    issueReceipt now (issuanceContext auth ev) = Ok rc ∧ jsonb v = Ok stored ∧
    let row := appliedRow auth key ev stored rc in
    fitting row = true ∧ freshRow row (SyncDb.ingested_idempotency_log db) ∧ db' = afterApply auth ev row d' db.
Proof.
  unfold applyEvent, setSequence, issue, streamOf. split.
  - intros H. minv H.
    match goal with H1 : applyHandler _ _ _ = _, H2 : insertLog _ _ = _ |- _ =>
      apply applyHandler_ok in H1 as (d' & Hd & ->); apply insertLog_ok in H2 as (Hf & Hfr & ->) end.
    destruct (issueReceipt _ _) as [rc1|] eqn:Hi; simplify_eq. by eexists _, _.
  - intros (d' & stored & Hd & Hi & Hj & Hf & Hfr & ->).
    rewrite (bind_run_ok _ _ _ _ _ (proj2 (applyHandler_ok _ _ _ _) (ex_intro _ d' (conj Hd eq_refl)))).
    mrun. rewrite Hi, Hj. pose proof (fitting_stream _ Hf) as Hs. simpl in Hs. rewrite Hs. simpl. mrun.
    match goal with |- (_ ≫= _) ?s = _ =>
      by rewrite (bind_run_ok _ _ s _ _ (proj2 (insertLog_ok _ s _ tt) (conj Hf (conj Hfr eq_refl)))) end.
Qed.
End runs.

(** ** The history of the domain state *)

Lemma uuidColumn_idemp s : uuidColumn (uuidColumn s) = uuidColumn s.
Proof.
  induction s as [|c s IH]; [done|]. unfold uuidColumn in *. cbn [mapString]. rewrite IH. f_equal. clear.
  by destruct c as [[] [] [] [] [] [] [] []].
Qed.

Section history.
Context {D : Type}.
Context (handler : Json → SyncEvent.t → D → D * result string Json).
Context (issueReceipt : string → ReceiptIssuanceContext.t → result string CloudTransactionReceipt.t).
Context (d0 : D).
Implicit Types (db : SyncDb.t D) (auth : AuthContext.t) (ev event : SyncEvent.t).

(** the handler, run on these events from [d0] with these results *)
Inductive replays : list (SyncEvent.t * Json) → D → Prop :=
| replays_nil : replays [] d0
| replays_snoc l d e v d' : replays l d → handler (SyncEvent.payload e) e d = (d', Ok v) → replays (l ++ [(e, v)]) d'.

Definition Delivery : Type := SyncDraws.t * AuthContext.t * SyncEvent.t.

(** a delivery with this position, identity and content *)
Definition standsFor (reqs : list Delivery) (k : Stream) (seq : Z) (action op : string) (payload : Json) : Prop :=
  ∃ draws auth ev, (draws, auth, ev) ∈ reqs ∧ streamOf auth ev = k ∧ SyncEvent.aggregateSequenceNumber ev = seq ∧
    SyncEvent.action ev = action ∧ uuidColumn (SyncEvent.clientOpId ev) = op ∧
    (payload = SyncEvent.payload ev ∨ jsonb (SyncEvent.payload ev) = Ok payload).

(** the log row of an applied event and its result *)
Definition recorded (reqs : list Delivery) (applied : SyncEvent.t * Json) (row : IdempotencyRow.t) : Prop :=
  let e := fst applied in
  IdempotencyRow.aggregateType row = SyncEvent.aggregateType e ∧ IdempotencyRow.aggregateId row = SyncEvent.aggregateId e ∧
  IdempotencyRow.aggregateSequenceNumber row = SyncEvent.aggregateSequenceNumber e ∧ IdempotencyRow.action row = SyncEvent.action e ∧
  IdempotencyRow.clientOpId row = uuidColumn (SyncEvent.clientOpId e) ∧ IdempotencyRow.status row = SyncAckStatus.APPLIED ∧
  jsonb (snd applied) = Ok (IdempotencyRow.responsePayload row) ∧
  (∃ now auth, streamOf auth e = logStream row ∧ issueReceipt now (issuanceContext auth e) = Ok (IdempotencyRow.receiptPayload row)) ∧
  standsFor reqs (logStream row) (SyncEvent.aggregateSequenceNumber e) (SyncEvent.action e) (uuidColumn (SyncEvent.clientOpId e))
    (SyncEvent.payload e).

Definition waits (reqs : list Delivery) (r : BufferRow.t) : Prop :=
  standsFor reqs (bufferStream r) (BufferRow.aggregateSequenceNumber r) (BufferRow.action r) (uuidColumn (BufferRow.clientOpId r)) (BufferRow.eventPayload r).

Definition bufferPosition (r : BufferRow.t) := (bufferStream r, BufferRow.aggregateSequenceNumber r).

Definition streamSequences (k : Stream) (rows : list IdempotencyRow.t) : list Z :=
  IdempotencyRow.aggregateSequenceNumber <$> filter (λ r, logStream r = k) rows.

Record core (reqs : list Delivery) (db : SyncDb.t D) : Prop := Core {
  core_history : ∃ applied, replays applied (SyncDb.domain db) ∧ Forall2 (recorded reqs) applied (SyncDb.ingested_idempotency_log db);
  core_gapless : ∀ k, streamSequences k (SyncDb.ingested_idempotency_log db) = seqZ 1 (currentSequence k db);
  core_counters : ∀ k, 0 <= currentSequence k db;
  core_keys : NoDup (logKey <$> SyncDb.ingested_idempotency_log db);
  core_ops : NoDup (logOp <$> SyncDb.ingested_idempotency_log db);
  core_ids : NoDup (BufferRow.id <$> SyncDb.reordering_buffer_queue db);
  core_positions : NoDup (bufferPosition <$> SyncDb.reordering_buffer_queue db);
  core_waits : Forall (waits reqs) (SyncDb.reordering_buffer_queue db) }.

(** the rows still buffered for [k] come after [n] *)
Definition ahead (db : SyncDb.t D) (k : Stream) (n : Z) : Prop :=
  ∀ r, r ∈ SyncDb.reordering_buffer_queue db → BufferRow.status r = BufferStatus.BUFFERED → bufferStream r = k →
    n < BufferRow.aggregateSequenceNumber r.

(** what waits, waits behind a gap *)
Definition quiescent (db : SyncDb.t D) : Prop := ∀ k, ahead db k (currentSequence k db + 1).

Lemma standsFor_incl reqs reqs' k n a o p : reqs ⊆ reqs' → standsFor reqs k n a o p → standsFor reqs' k n a o p.
Proof. intros Hsub (draws & auth & ev & Hin & H). exists draws, auth, ev. split; [by apply Hsub|done]. Qed.

Lemma core_incl reqs reqs' db : reqs ⊆ reqs' → core reqs db → core reqs' db.
Proof.
  intros Hsub [(applied & Hr & Hl) Hg Hc Hk Ho Hi Hp Hw]. constructor; try done.
  - exists applied. split; [done|]. eapply Forall2_impl; [exact Hl|]. intros x y Hxy. unfold recorded in *.
    destruct Hxy as (? & ? & ? & ? & ? & ? & ? & ? & ?). split_and!; try done. by eapply standsFor_incl.
  - eapply Forall_impl; [exact Hw|]. intros r. by apply standsFor_incl.
Qed.

Lemma currentSequence_set k k' n (db : SyncDb.t D) :
  currentSequence k' (db <| SyncDb.aggregate_sequences ::= <[k := n]> |>) = if decide (k = k') then n else currentSequence k' db.
Proof. unfold currentSequence. simpl. case_decide as Hk; [subst; by rewrite lookup_insert_eq|by rewrite lookup_insert_ne]. Qed.

Lemma streamSequences_snoc k rows row :
  streamSequences k (rows ++ [row]) =
    streamSequences k rows ++ (if decide (logStream row = k) then [IdempotencyRow.aggregateSequenceNumber row] else []).
Proof. unfold streamSequences. rewrite filter_app, fmap_app. f_equal. rewrite filter_cons. by case_decide. Qed.

Lemma core_apply reqs auth now key ev v stored rc d' db :
  core reqs db → issueReceipt now (issuanceContext auth ev) = Ok rc →
  handler (SyncEvent.payload ev) ev (SyncDb.domain db) = (d', Ok v) → jsonb v = Ok stored →
  SyncEvent.aggregateSequenceNumber ev = currentSequence (streamOf auth ev) db + 1 →
  standsFor reqs (streamOf auth ev) (SyncEvent.aggregateSequenceNumber ev) (SyncEvent.action ev) (uuidColumn (SyncEvent.clientOpId ev))
    (SyncEvent.payload ev) →
  freshRow (appliedRow auth key ev stored rc) (SyncDb.ingested_idempotency_log db) →
  core reqs (afterApply auth ev (appliedRow auth key ev stored rc) d' db).
Proof.
  intros [(applied & Hr & Hl) Hg Hc Hk Ho Hi Hp Hw] Hrc Hh Hj Hseq Hst (Hfk & Hfo & Hfp).
  pose proof (λ k, currentSequence_set (streamOf auth ev) k (SyncEvent.aggregateSequenceNumber ev) db) as Hcur.
  constructor; try done.
  - exists (applied ++ [(ev, v)]). split; [by eapply replays_snoc|]. apply Forall2_app; [done|]. constructor; [|constructor].
    unfold recorded. split_and!; try done. by exists now, auth.
  - intros k. specialize (Hcur k). unfold currentSequence in *. cbn -[streamSequences] in *.
    rewrite Hcur, streamSequences_snoc, Hg.
    change (logStream (appliedRow auth key ev stored rc)) with (streamOf auth ev). case_decide; [|by rewrite app_nil_r].
    subst k. cbn. rewrite Hseq. by apply seqZ_snoc.
  - intros k. specialize (Hcur k). unfold currentSequence in *. cbn in *. rewrite Hcur. pose proof (Hc k).
    case_decide; [|done]. subst k. unfold currentSequence in *. lia.
  - unfold afterApply. cbn. rewrite fmap_app. by apply NoDup_snoc.
  - unfold afterApply. cbn. rewrite fmap_app. by apply NoDup_snoc.
Qed.

Definition marked (id now : string) (db : SyncDb.t D) : SyncDb.t D :=
  db <| SyncDb.reordering_buffer_queue ::= fmap (λ r, if decide (BufferRow.id r = id)
    then r <| BufferRow.status := BufferStatus.DRAINED |> <| BufferRow.drainedAt := Some now |> else r) |>.

Lemma fmap_marked {A} (f : BufferRow.t → A) id now db :
  (∀ r, f (r <| BufferRow.status := BufferStatus.DRAINED |> <| BufferRow.drainedAt := Some now |>) = f r) →
  f <$> SyncDb.reordering_buffer_queue (marked id now db) = f <$> SyncDb.reordering_buffer_queue db.
Proof. intros Hf. unfold marked. cbn. rewrite <- list_fmap_compose. apply list_fmap_ext. intros i r _. simpl. case_decide; [apply Hf|done]. Qed.

Lemma elem_of_marked r id now db :
  r ∈ SyncDb.reordering_buffer_queue (marked id now db) → BufferRow.status r = BufferStatus.BUFFERED →
  r ∈ SyncDb.reordering_buffer_queue db ∧ BufferRow.id r ≠ id.
Proof.
  unfold marked. cbn. intros (r' & -> & Hin)%list_elem_of_fmap. case_decide as Hid; [discriminate|done].
Qed.

Lemma core_marked reqs id now db : core reqs db → core reqs (marked id now db).
Proof.
  intros [Hh Hg Hc Hk Ho Hi Hp Hw]. constructor; try done.
  - by rewrite fmap_marked.
  - by rewrite fmap_marked.
  - unfold marked. cbn. apply Forall_fmap. eapply Forall_impl; [exact Hw|]. intros r Hr. unfold compose. by case_decide.
Qed.
Lemma elem_of_bufferedAt r k n db :
  r ∈ bufferedAt k n db ↔
  (bufferStream r = k ∧ BufferRow.aggregateSequenceNumber r = n ∧ BufferRow.status r = BufferStatus.BUFFERED) ∧
  r ∈ SyncDb.reordering_buffer_queue db.
Proof. unfold bufferedAt. by rewrite list_elem_of_filter. Qed.

(** after the item at [n] is applied and marked, what is buffered comes later *)
Lemma ahead_marked auth ev row d' item now db :
  NoDup (bufferPosition <$> SyncDb.reordering_buffer_queue db) →
  item ∈ bufferedAt (streamOf auth ev) (SyncEvent.aggregateSequenceNumber ev) db →
  (∀ k, streamOf auth ev ≠ k → ahead db k (currentSequence k db + 1)) →
  ahead db (streamOf auth ev) (SyncEvent.aggregateSequenceNumber ev - 1) →
  let db' := marked (BufferRow.id item) now (afterApply auth ev row d' db) in
  (∀ k, streamOf auth ev ≠ k → ahead db' k (currentSequence k db' + 1)) ∧
  ahead db' (streamOf auth ev) (SyncEvent.aggregateSequenceNumber ev).
Proof.
  intros Hnd Hitem Hothers Hown. apply elem_of_bufferedAt in Hitem as [(Hk & Hn & _) Hitem]. split.
  - intros k Hne r Hr Hst Hrk. apply elem_of_marked in Hr as [Hr _]; [|done].
    pose proof (currentSequence_set (streamOf auth ev) k (SyncEvent.aggregateSequenceNumber ev) db) as Hcur.
    rewrite decide_False in Hcur by done. unfold currentSequence in *. cbn in *. rewrite Hcur. by apply (Hothers k Hne r).
  - intros r Hr Hst Hrk. apply elem_of_marked in Hr as [Hr Hid]; [|done]. pose proof (Hown r Hr Hst Hrk).
    assert (BufferRow.aggregateSequenceNumber r ≠ SyncEvent.aggregateSequenceNumber ev); [|lia].
    intros Heq. apply Hid. f_equal. cbn in Hr. apply list_elem_of_lookup in Hr as [i Hi], Hitem as [j Hj].
    assert (i = j) as ->; [|congruence]. eapply (NoDup_lookup _ _ _ (bufferPosition r) Hnd); rewrite list_lookup_fmap, ?Hi, ?Hj; [done|].
    simpl. unfold bufferPosition. congruence.
Qed.

Lemma drain_core reqs fuel auth now event cur n db db' m :
  core reqs db → currentSequence (streamOf auth event) db = cur →
  (∀ k, streamOf auth event ≠ k → ahead db k (currentSequence k db + 1)) → ahead db (streamOf auth event) cur →
  drain handler issueReceipt fuel auth now event cur n db = (db', Ok m) →
  core reqs db' ∧ quiescent db' ∧ SyncDb.ingested_idempotency_log db `prefix_of` SyncDb.ingested_idempotency_log db'.
Proof.
  revert cur n db. induction fuel as [|fuel IH]; intros cur n db Hcore Hcur Hothers Hown H; cbn [drain] in H; rewrite bind_gets in H;
    destruct (bufferedAt _ _ db) as [|item rest] eqn:Hat; try discriminate.
  1,2: injection H as <- _; split_and!; [done| |done]; intros k; destruct (decide (streamOf auth event = k)) as [<-|Hne]; [|by apply Hothers];
    intros r Hr Hst Hrk; pose proof (Hown r Hr Hst Hrk); rewrite Hcur;
    assert (BufferRow.aggregateSequenceNumber r ≠ cur + 1); [|lia]; intros Heq;
    eapply (not_elem_of_nil r); rewrite <- Hat; apply elem_of_bufferedAt; done.
  assert (Hitem : item ∈ bufferedAt (streamOf auth event) (cur + 1) db) by (rewrite Hat; by left).
  pose proof Hitem as Hi. apply elem_of_bufferedAt in Hi as [(Hk & Hn & Hst) Hin].
  apply bind_ok in H as ([rc v] & s1 & Ha & H). apply applyEvent_ok in Ha as (d' & stored & Hh & Hrc & Hj & _ & Hfr & ->).
  unfold markDrained in H. rewrite bind_modify in H.
  pose proof (core_waits _ _ Hcore) as Hw. rewrite Forall_forall in Hw. specialize (Hw _ Hin). unfold waits in Hw.
  rewrite Hk, Hn in Hw.
  set (ev := bufferedEvent auth now event item (cur + 1)) in *.
  destruct (ahead_marked auth ev (appliedRow auth (BufferRow.idempotencyKey item) ev stored rc) d' item now db) as [Ho Hw'];
    [apply Hcore|done|done|by replace (SyncEvent.aggregateSequenceNumber ev - 1) with cur by (simpl; lia)|].
  eapply IH in H as (Hc' & Hq' & Hp'); [split_and!; [done|done|]| | | |].
  - etrans; [|exact Hp']. cbn. by apply prefix_app_r.
  - apply core_marked. eapply core_apply; try done. simpl. by rewrite <- Hcur.
  - pose proof (currentSequence_set (streamOf auth ev) (streamOf auth event) (cur + 1) db) as Hs. rewrite decide_True in Hs by done. exact Hs.
  - exact Ho.
  - exact Hw'.
Qed.
(** *** The loop ends *)

Lemma buffered_marked id now db :
  filter (λ r, BufferRow.status r = BufferStatus.BUFFERED) (SyncDb.reordering_buffer_queue (marked id now db)) =
  filter (λ r, BufferRow.id r ≠ id) (filter (λ r, BufferRow.status r = BufferStatus.BUFFERED) (SyncDb.reordering_buffer_queue db)).
Proof.
  unfold marked. cbn. induction (SyncDb.reordering_buffer_queue db) as [|r l IH]; [done|].
  rewrite fmap_cons, !filter_cons. destruct (decide (BufferRow.id r = id)) as [Hid|Hid].
  - rewrite decide_False by done. rewrite IH. case_decide; [|done]. rewrite filter_cons, decide_False; [done|]. intros Hn. by apply Hn.
  - rewrite IH. case_decide; [|done]. by rewrite filter_cons, decide_True.
Qed.

Lemma pending_marked item now db :
  item ∈ SyncDb.reordering_buffer_queue db → BufferRow.status item = BufferStatus.BUFFERED →
  (pending (marked (BufferRow.id item) now db) < pending db)%nat.
Proof.
  intros Hin Hst. unfold pending. rewrite buffered_marked. apply length_filter_lt with item; [by apply list_elem_of_filter|].
  intros Hn. by apply Hn.
Qed.

Definition ends {A} (m : M (SyncDb.t D) SyncError A) : Prop := ∀ db, snd (m db) ≠ Err NotEnded.

Lemma ends_bind {A B} (m : M (SyncDb.t D) SyncError A) (k : A → M (SyncDb.t D) SyncError B) : ends m → (∀ a, ends (k a)) → ends (m ≫= k).
Proof.
  intros Hm Hk db. specialize (Hm db). unfold mbind, M_bind. destruct (m db) as [s [a|e]]; [apply Hk|]. simpl in *. congruence.
Qed.

Ltac solve_ends :=
  repeat first [ apply ends_bind; [|intros ?] | done |
    match goal with |- ends (match ?x with _ => _ end) => destruct x | |- ends (throw_when ?b _) => destruct b | |- ends (lift (match ?x with _ => _ end)) => destruct x end ].

Lemma jsonb_ended v : jsonb v ≠ Err NotEnded.
Proof. unfold jsonb. repeat case_match; congruence. Qed.

Lemma ends_lift {A} (r : result SyncError A) : r ≠ Err NotEnded → ends (lift r).
Proof. intros H db. exact H. Qed.

Lemma ends_applyEvent auth now key ev : ends (applyEvent handler issueReceipt auth now key ev).
Proof.
  unfold applyEvent, setSequence, issue, insertLog, streamOf. apply ends_bind; [|intros v].
  - intros db. unfold applyHandler. by destruct (handler _ _ _) as [? []].
  - apply ends_bind; [solve_ends|intros _]. apply ends_bind; [solve_ends|intros rc]. apply ends_bind; [|intros stored; solve_ends].
    apply ends_lift, jsonb_ended.
Qed.

Lemma drain_ends fuel auth now event cur n db :
  (pending db <= fuel)%nat → snd (drain handler issueReceipt fuel auth now event cur n db) ≠ Err NotEnded.
Proof.
  revert cur n db. induction fuel as [|fuel IH]; intros cur n db Hle; cbn [drain]; rewrite bind_gets;
    destruct (bufferedAt _ _ db) as [|item rest] eqn:Hat; try done;
    (assert (Hitem : item ∈ bufferedAt (streamOf auth event) (cur + 1) db) by (rewrite Hat; by left));
    apply elem_of_bufferedAt in Hitem as [(_ & _ & Hst) Hin]; pose proof (pending_marked item now db Hin Hst) as Hlt; [lia|].
  pose proof (ends_applyEvent auth now (BufferRow.idempotencyKey item) (bufferedEvent auth now event item (cur + 1)) db) as He.
  destruct (applyEvent _ _ _ _ _ _ db) as [s1 [[rc v]|e]] eqn:Ha; [|rewrite (bind_run_err _ _ _ _ _ Ha); simpl in *; congruence].
  rewrite (bind_run_ok _ _ _ _ _ Ha). apply applyEvent_ok in Ha as (d' & stored & _ & _ & _ & _ & _ & ->).
  unfold markDrained. rewrite bind_modify. apply IH. 
  change (pending (marked (BufferRow.id item) now (afterApply auth (bufferedEvent auth now event item (cur + 1)) (appliedRow auth
    (BufferRow.idempotencyKey item) (bufferedEvent auth now event item (cur + 1)) stored rc) d' db)) ≤ fuel)%nat.
  pose proof (pending_marked item now db Hin Hst). unfold pending in *. rewrite buffered_marked in *. cbn. lia.
Qed.
(** *** One event *)

(** the guards of [processEvent] *)
Definition admitted (auth : AuthContext.t) (ev : SyncEvent.t) : Prop :=
  mismatch (SyncEvent.organizationId ev) (AuthContext.organizationId auth) = false ∧
  mismatch (SyncEvent.branchId ev) (AuthContext.branchId auth) = false ∧
  isValidUuidV4 (SyncEvent.clientOpId ev) = true ∧ 1 <= SyncEvent.aggregateSequenceNumber ev <= MAX_SAFE_INTEGER.

Lemma checkEvent_ok auth ev db db' u : checkEvent auth ev db = (db', Ok u) ↔ db' = db ∧ admitted auth ev.
Proof.
  unfold checkEvent, admitted, isSafeInteger. split.
  - intros H. minv H. apply negb_false_iff in Hguard1. unfold throw_when in H. destruct (_ || _) eqn:Hg; [discriminate|].
    rewrite run_ret in H. injection H as <- _. simpl_guards. split_and!; try done; lia.
  - intros (-> & -> & -> & Hu & Hseq). destruct u. mrun. rewrite Hu. mrun. simpl. unfold throw_when.
    destruct (_ || _) eqn:Hg; [|done]. apply orb_true_iff in Hg as [Hg|Hg]; [|apply Z.ltb_lt in Hg; lia].
    apply negb_true_iff, andb_false_iff in Hg as [Hg|Hg]; apply Z.leb_gt in Hg; unfold MAX_SAFE_INTEGER in *; lia.
Qed.

Lemma insertBuffer_ok (row : BufferRow.t) db db' u :
  insertBuffer row db = (db', Ok u) →
  db' = db ∨
  (BufferRow.id row ∉ (BufferRow.id <$> SyncDb.reordering_buffer_queue db) ∧
   bufferPosition row ∉ (bufferPosition <$> SyncDb.reordering_buffer_queue db) ∧
   db' = db <| SyncDb.reordering_buffer_queue ::= λ l, l ++ [row] |>).
Proof.
  unfold insertBuffer, bufferPosition. intros H. minv H; [by left|right]. simpl_guards. by split_and!.

Qed.

Lemma core_buffered reqs (row : BufferRow.t) db :
  core reqs db → waits reqs row → BufferRow.id row ∉ (BufferRow.id <$> SyncDb.reordering_buffer_queue db) →
  bufferPosition row ∉ (bufferPosition <$> SyncDb.reordering_buffer_queue db) →
  core reqs (db <| SyncDb.reordering_buffer_queue ::= λ l, l ++ [row] |>).
Proof.
  intros [Hh Hg Hc Hk Ho Hi Hp Hw] Hrow Hid Hpos. constructor; try done; cbn.
  - rewrite fmap_app. by apply NoDup_snoc.
  - rewrite fmap_app. by apply NoDup_snoc.
  - apply Forall_app. by repeat constructor.
Qed.

Lemma quiescent_buffered (row : BufferRow.t) db :
  quiescent db → currentSequence (bufferStream row) db + 1 < BufferRow.aggregateSequenceNumber row →
  quiescent (db <| SyncDb.reordering_buffer_queue ::= λ l, l ++ [row] |>).
Proof.
  intros Hq Hrow k r Hr Hst Hk. cbn in Hr. apply elem_of_app in Hr as [Hr| ->%list_elem_of_singleton]; [by apply Hq|]. by subst k.
Qed.

Lemma standsFor_self reqs draws auth ev :
  (draws, auth, ev) ∈ reqs →
  standsFor reqs (streamOf auth ev) (SyncEvent.aggregateSequenceNumber ev) (SyncEvent.action ev) (uuidColumn (SyncEvent.clientOpId ev))
    (SyncEvent.payload ev).
Proof. intros Hin. exists draws, auth, ev. split_and!; try done. by left. Qed.

Context (digest : string → string).

Definition eventKey (auth : AuthContext.t) (ev : SyncEvent.t) : result SyncError string :=
  formatIdempotencyKey digest (AuthContext.organizationId auth) (AuthContext.branchId auth) (SyncEvent.aggregateType ev)
    (SyncEvent.aggregateId ev) (SyncEvent.action ev) (SyncEvent.clientOpId ev).

(** the log holds the row an APPLIED answer reports *)
Definition loggedAs (auth : AuthContext.t) (ev : SyncEvent.t) (r : ProcessEventResult.t) (rows : list IdempotencyRow.t) : Prop :=
  ∃ key stored rc, eventKey auth ev = Ok key ∧ appliedRow auth key ev stored rc ∈ rows ∧
    ProcessEventResult.receipt r = Some rc ∧ jsonb (ProcessEventResult.responsePayload r) = Ok stored.

Lemma processEvent_core reqs draws auth ev db db' r :
  core reqs db → quiescent db → (draws, auth, ev) ∈ reqs →
  processEvent digest handler issueReceipt draws auth ev db = (db', Ok r) →
  core reqs db' ∧ quiescent db' ∧
  SyncDb.ingested_idempotency_log db `prefix_of` SyncDb.ingested_idempotency_log db' ∧
  (ProcessEventResult.status r = SyncAckStatus.APPLIED → loggedAs auth ev r (SyncDb.ingested_idempotency_log db')).
Proof.
  intros Hcore Hq Hin H. unfold processEvent, issue in H. minv H.
  all: match goal with Hc : checkEvent _ _ _ = _ |- _ => apply checkEvent_ok in Hc as [-> Hadm] end.
  - unfold answerDuplicate in H. minv H. by split_and!.
  - by split_and!.
  - unfold bufferEvent in H. minv H. match goal with Hb : insertBuffer _ _ = _ |- _ => apply insertBuffer_ok in Hb as [->|(Hid & Hpos & ->)] end.
    { by split_and!. }
    apply Z.ltb_lt in Hcond0. split_and!; [|by apply quiescent_buffered|done|done].
    apply core_buffered; try done. unfold waits, standsFor. cbn. exists draws, auth, ev. split_and!; try done; [by rewrite uuidColumn_idemp|by right].
  - apply Z.ltb_ge in Hcond, Hcond0.
    match goal with Ha : applyEvent _ _ _ _ _ _ _ = (_, Ok ?x), Hd : drain _ _ _ _ _ _ _ _ _ = _ |- _ =>
      destruct x as [rc v]; apply applyEvent_ok in Ha as (d' & stored & Hh & Hrc & Hj & _ & Hfr & ->);
      eapply (drain_core reqs) in Hd as (Hc' & Hq' & Hpre) end; [|..].
    + assert (Hrow : appliedRow auth val ev stored rc ∈ SyncDb.ingested_idempotency_log db') by
        (eapply elem_of_prefix; [|exact Hpre]; apply elem_of_app; right; by apply list_elem_of_singleton).
      split_and!; [done|done| |].
      * etrans; [|exact Hpre]. cbn. by apply prefix_app_r.
      * intros _. by eexists _, _, _.
    + eapply core_apply; try done; [lia|]. by eapply standsFor_self.
    + pose proof (currentSequence_set (streamOf auth ev) (streamOf auth ev) (SyncEvent.aggregateSequenceNumber ev) db) as Hs.
      rewrite decide_True in Hs by done. exact Hs.
    + intros k Hne r Hr Hst Hk. pose proof (currentSequence_set (streamOf auth ev) k (SyncEvent.aggregateSequenceNumber ev) db) as Hs.
      rewrite decide_False in Hs by done. unfold currentSequence in *. cbn in *. rewrite Hs. by apply (Hq k r).
    + intros r Hr Hst Hk. pose proof (Hq _ r Hr Hst Hk). lia.
Qed.

Lemma ends_processEvent draws auth ev : ends (processEvent digest handler issueReceipt draws auth ev).
Proof.
  unfold processEvent, checkEvent. apply ends_bind; [solve_ends|intros _]. apply ends_bind; [apply ends_lift|intros key].
  { unfold formatIdempotencyKey, canonicalizeIdempotencyPayload. by destruct (existsb _ _). }
  intros db. rewrite bind_gets. destruct (findLogged _ _ _) as [row|]; [unfold answerDuplicate; by destruct (_ || _)|].
  rewrite bind_gets. cbv zeta. generalize (currentSequence (streamOf auth ev) db + 1). intros n0. destruct (_ <? n0); [|destruct (n0 <? _)].
  - revert db. change (ends (receipt ← issue issueReceipt (SyncDraws.now draws) (issuanceContext auth ev);
      mret (ProcessEventResult.mk SyncAckStatus.DUPLICATE_ACCEPTED (Some receipt)
          (JObject [("message", JString "Sequence already consumed")]) None None true) : M (SyncDb.t D) SyncError _)). unfold issue. solve_ends.
  - revert db. change (ends (bufferEvent draws auth key n0 ev)).
    unfold bufferEvent. apply ends_bind; [apply ends_lift, jsonb_ended|intros payload]. unfold insertBuffer. solve_ends.
  - pose proof (ends_applyEvent auth (SyncDraws.now draws) key ev db) as He.
    destruct (applyEvent _ _ _ _ _ _ db) as [s1 [[rc v]|e]] eqn:Ha; [|rewrite (bind_run_err _ _ _ _ _ Ha); simpl in *; congruence].
    rewrite (bind_run_ok _ _ _ _ _ Ha), bind_gets.
    pose proof (drain_ends (pending s1) auth (SyncDraws.now draws) ev (SyncEvent.aggregateSequenceNumber ev) 0 s1 ltac:(done)) as Hd.
    destruct (drain _ _ _ _ _ _ _ _ s1) as [s2 [m|e]] eqn:Hr; [by rewrite (bind_run_ok _ _ _ _ _ Hr)|].
    rewrite (bind_run_err _ _ _ _ _ Hr). simpl in *. congruence.
Qed.

(** *** Any number of deliveries *)

Definition deliver (db : SyncDb.t D) (x : Delivery) : SyncDb.t D :=
  fst (ingest digest handler issueReceipt (fst (fst x)) (snd (fst x)) (snd x) db).

Lemma ingest_core reqs draws auth ev db :
  core reqs db → quiescent db → (draws, auth, ev) ∈ reqs →
  let res := ingest digest handler issueReceipt draws auth ev db in
  core reqs (fst res) ∧ quiescent (fst res) ∧
  SyncDb.ingested_idempotency_log db `prefix_of` SyncDb.ingested_idempotency_log (fst res) ∧ snd res ≠ Err NotEnded ∧
  (∀ r, snd res = Ok r → ProcessEventResult.status r = SyncAckStatus.APPLIED →
    loggedAs auth ev r (SyncDb.ingested_idempotency_log (fst res))).
Proof.
  intros Hcore Hq Hin. unfold ingest. pose proof (ends_processEvent draws auth ev db) as He.
  destruct (processEvent _ _ _ _ _ _ _) as [db' [r|e]] eqn:H; simpl in *; [|split_and!; try done; congruence].
  eapply processEvent_core in H as (? & ? & ? & ?); [|done..]. split_and!; try done. by intros ? [= <-].
Qed.

Lemma deliverAll_core l reqs db :
  core reqs db → quiescent db → (∀ x, x ∈ l → x ∈ reqs) →
  core reqs (foldl deliver db l) ∧ quiescent (foldl deliver db l) ∧
  SyncDb.ingested_idempotency_log db `prefix_of` SyncDb.ingested_idempotency_log (foldl deliver db l).
Proof.
  revert db. induction l as [|[[draws auth] ev] l IH]; intros db Hc Hq Hin; [done|]. simpl.
  destruct (ingest_core reqs draws auth ev db) as (Hc' & Hq' & Hp & _); [done|done|apply Hin; by left|].
  destruct (IH _ Hc' Hq') as (? & ? & ?); [intros x Hx; apply Hin; by right|]. split_and!; try done. by etrans.
Qed.

Lemma core_empty reqs : core reqs (SyncDb.empty d0) ∧ quiescent (SyncDb.empty d0).
Proof.
  split; [constructor; try done; try constructor|].
  - exists []. split; constructor.
  - intros k r Hr. by apply not_elem_of_nil in Hr.
Qed.
(** *** A retry *)

Lemma findLogged_in row org key db :
  NoDup (logKey <$> SyncDb.ingested_idempotency_log db) → row ∈ SyncDb.ingested_idempotency_log db →
  logKey row = (uuidColumn org, key) → findLogged org key db = Some row.
Proof.
  intros Hnd Hin Hkey. unfold findLogged. destruct (list_find _ _) as [[i row']|] eqn:Hf; simpl.
  - apply list_find_Some in Hf as (Hi & [Ho Hk] & _). apply list_elem_of_lookup in Hin as [j Hj]. f_equal.
    assert (i = j) as ->; [|congruence]. eapply (NoDup_lookup _ _ _ (logKey row) Hnd); rewrite list_lookup_fmap, ?Hi, ?Hj; [|done].
    simpl. rewrite Hkey. unfold logKey. congruence.
  - apply list_find_None in Hf. rewrite Forall_forall in Hf. exfalso. apply (Hf row Hin). unfold logKey in Hkey. by injection Hkey.
Qed.

(** the same operation, whatever the envelope *)
Definition sameOperation (ev ev' : SyncEvent.t) : Prop :=
  SyncEvent.aggregateType ev' = SyncEvent.aggregateType ev ∧ SyncEvent.aggregateId ev' = SyncEvent.aggregateId ev ∧
  SyncEvent.action ev' = SyncEvent.action ev ∧ SyncEvent.clientOpId ev' = SyncEvent.clientOpId ev.

(** the text of the identifiers is the one their columns return *)
Definition canonicalIds (auth : AuthContext.t) (ev : SyncEvent.t) : Prop :=
  uuidColumn (AuthContext.branchId auth) = AuthContext.branchId auth ∧ uuidColumn (SyncEvent.clientOpId ev) = SyncEvent.clientOpId ev.
#[global] Instance canonicalIds_dec auth ev : Decision (canonicalIds auth ev).
Proof. unfold canonicalIds. solve_decision. Defined.

Lemma ingest_again draws auth ev ev' key stored rc db :
  NoDup (logKey <$> SyncDb.ingested_idempotency_log db) →
  appliedRow auth key ev stored rc ∈ SyncDb.ingested_idempotency_log db → eventKey auth ev = Ok key →
  sameOperation ev ev' → admitted auth ev' →
  ingest digest handler issueReceipt draws auth ev' db =
    (db, if decide (canonicalIds auth ev)
         then Ok (ProcessEventResult.mk SyncAckStatus.DUPLICATE_ACCEPTED (Some rc) stored None None true)
         else Err (Refused "IDEMPOTENCY_COLLISION")).
Proof.
  intros Hnd Hrow Hkey (Ht & Hi & Ha & Ho) Hadm. unfold eventKey in Hkey. unfold ingest, processEvent.
  rewrite (bind_run_ok _ _ _ _ _ (proj2 (checkEvent_ok auth ev' db db tt) (conj eq_refl Hadm))).
  rewrite bind_lift, Ht, Hi, Ha, Ho, Hkey, bind_gets.
  rewrite (findLogged_in (appliedRow auth key ev stored rc)) by done. unfold answerDuplicate. cbn. rewrite Ht, Hi, Ha, Ho.
  rewrite (bool_decide_eq_false_2 (SyncEvent.aggregateType ev ≠ _)), (bool_decide_eq_false_2 (SyncEvent.aggregateId ev ≠ _)),
    (bool_decide_eq_false_2 (SyncEvent.action ev ≠ _)) by (intros Hn; by apply Hn).
  unfold canonicalIds. destruct (decide (_ ∧ _)) as [[Hb Hop]|Hne].
  - rewrite Hb, Hop, !bool_decide_eq_false_2 by (intros Hn; by apply Hn). done.
  - rewrite !orb_false_r. rewrite <- bool_decide_or. rewrite bool_decide_eq_true_2; [done|].
    destruct (decide (uuidColumn (AuthContext.branchId auth) = AuthContext.branchId auth)); [right|by left]. intros Hop. by apply Hne.
Qed.
End history.

(** ** Properties *)

(** C13: ingestion applies every stream exactly once and in order.  Whatever is delivered, in
    whatever order and how often, by whatever tenants, the domain state is what the handler
    makes of a list of events, one per row of the log and in its order, each of them the
    content of a delivery with the row's stream, position, action and operation, for which the
    row's receipt was issued; the positions
    logged for a stream are 1, 2, ..., up to its counter; no operation of a stream is logged
    twice; what is still buffered is a delivered event behind a gap.  The draining loop always
    ends, and a delivery that fails changes nothing. *)
Theorem log_is_the_history digest {D} handler issueReceipt (d0 : D) (l : list Delivery) :
  let db := foldl (deliver handler issueReceipt digest) (SyncDb.empty d0) l in
  (∃ applied, replays handler d0 applied (SyncDb.domain db) ∧ Forall2 (recorded issueReceipt l) applied (SyncDb.ingested_idempotency_log db)) ∧
  (∀ k, streamSequences k (SyncDb.ingested_idempotency_log db) = seqZ 1 (currentSequence k db)) ∧
  NoDup (logOp <$> SyncDb.ingested_idempotency_log db) ∧
  (∀ r, r ∈ SyncDb.reordering_buffer_queue db → BufferRow.status r = BufferStatus.BUFFERED →
    waits l r ∧ currentSequence (bufferStream r) db + 1 < BufferRow.aggregateSequenceNumber r) ∧
  (∀ draws auth ev, match ingest digest handler issueReceipt draws auth ev db with
    | (_, Ok _) => True
    | (db', Err e) => db' = db ∧ e ≠ NotEnded
    end).
Proof.
  intros db. destruct (core_empty handler issueReceipt d0 l) as [Hc Hq].
  destruct (deliverAll_core handler issueReceipt d0 digest l l (SyncDb.empty d0) Hc Hq) as (Hc' & Hq' & _); [done|]. fold db in Hc', Hq'.
  pose proof (core_waits _ _ _ _ _ Hc') as Hw. rewrite Forall_forall in Hw.
  split_and!; [apply Hc'|apply Hc'|by eapply core_ops| |].
  - intros r Hr Hst. split; [by apply Hw|by apply Hq'].
  - intros draws auth ev. unfold ingest. pose proof (ends_processEvent handler issueReceipt digest draws auth ev db) as He.
    destruct (processEvent _ _ _ _ _ _ _) as [db' [r|e]]; [done|]. split; [done|]. simpl in He. congruence.
Qed.

(** C16: a retry is answered with the receipt of the operation it repeats.  Once a delivery was
    answered APPLIED, any later admitted delivery of the same operation (whatever its payload,
    its position or what came between) is answered DUPLICATE_ACCEPTED with the receipt and the
    stored response of that answer and writes nothing, provided the branch and operation
    identifiers are in lower case; if one is not, the UUID column does not return it as it was
    sent, and every retry is refused as a key collision. *)
Theorem retry_returns_the_receipt digest {D} handler issueReceipt (d0 : D) (before after : list Delivery) draws auth ev db1 r draws' ev' :
  ingest digest handler issueReceipt draws auth ev (foldl (deliver handler issueReceipt digest) (SyncDb.empty d0) before) = (db1, Ok r) →
  ProcessEventResult.status r = SyncAckStatus.APPLIED → sameOperation ev ev' → admitted auth ev' →
  let db := foldl (deliver handler issueReceipt digest) db1 after in
  ∃ rc stored, ProcessEventResult.receipt r = Some rc ∧ jsonb (ProcessEventResult.responsePayload r) = Ok stored ∧
    ingest digest handler issueReceipt draws' auth ev' db =
      (db, if decide (canonicalIds auth ev)
           then Ok (ProcessEventResult.mk SyncAckStatus.DUPLICATE_ACCEPTED (Some rc) stored None None true)
           else Err (Refused "IDEMPOTENCY_COLLISION")).
Proof.
  intros Hrun Hst Hsame Hadm db. set (reqs := before ++ [(draws, auth, ev)] ++ after).
  destruct (core_empty handler issueReceipt d0 reqs) as [Hc Hq].
  destruct (deliverAll_core handler issueReceipt d0 digest before reqs (SyncDb.empty d0) Hc Hq) as (Hc1 & Hq1 & _); [set_solver|].
  destruct (ingest_core handler issueReceipt d0 digest reqs draws auth ev _ Hc1 Hq1) as (Hc2 & Hq2 & _ & _ & Hlog); [set_solver|].
  rewrite Hrun in Hc2, Hq2, Hlog. simpl in Hc2, Hq2, Hlog.
  destruct (Hlog _ eq_refl Hst) as (key & stored & rc & Hkey & Hrow & Hrc & Hj).
  destruct (deliverAll_core handler issueReceipt d0 digest after reqs db1 Hc2 Hq2) as (Hc3 & _ & Hpre); [set_solver|].
  exists rc, stored. split_and!; [done|done|]. eapply ingest_again; try done; [eapply core_keys; exact Hc3|]. by eapply elem_of_prefix.
Qed.

(** ** Witnesses *)

(** a domain that records the positions it applies *)
Definition exampleHandler (payload : Json) (e : SyncEvent.t) (d : list Z) : list Z * result string Json :=
  (d ++ [SyncEvent.aggregateSequenceNumber e], Ok (JNumber (Z.of_nat (List.length d)))).
Definition exampleIssuer (now : string) (c : ReceiptIssuanceContext.t) : result string CloudTransactionReceipt.t :=
  Ok (CloudTransactionReceipt.mk "receipt" now "signature" (ReceiptIssuanceContext.clientOpId c) (ReceiptIssuanceContext.aggregateSequenceNumber c)).
Definition exampleAuth : AuthContext.t := AuthContext.mk "11111111-1111-4111-8111-111111111111" "22222222-2222-4222-8222-222222222222".
Definition exampleSync (op : string) (n : Z) : SyncEvent.t :=
  SyncEvent.mk None (Some "22222222-2222-4222-8222-222222222222") op "CUENTA" "c1" n "ADD_ITEM" (JObject [("n", JNumber n)]) None None.
Definition op1 : string := "aaaaaaaa-aaaa-4aaa-8aaa-000000000001".
Definition op2 : string := "aaaaaaaa-aaaa-4aaa-8aaa-000000000002".
Definition op3 : string := "aaaaaaaa-aaaa-4aaa-8aaa-000000000003".
Definition upperOp : string := "AAAAAAAA-aaaa-4aaa-8aaa-000000000001".
Definition drawn (id : string) : SyncDraws.t := SyncDraws.mk id "2026-01-01T00:00:00.000Z".

(** the third event waits, then the first is applied; it is sent again after the second *)
Definition exampleBefore : list Delivery := [(drawn "b1", exampleAuth, exampleSync op3 3)].
Definition exampleAfter : list Delivery := [(drawn "b2", exampleAuth, exampleSync op2 2)].
Definition exampleRun : SyncDb.t (list Z) * result SyncError ProcessEventResult.t :=
  ingest (λ s, s) exampleHandler exampleIssuer (drawn "b3") exampleAuth (exampleSync op1 1)
    (foldl (deliver exampleHandler exampleIssuer (λ s, s)) (SyncDb.empty []) exampleBefore).

Lemma retry_returns_the_receipt_witness :
  ∃ db1 r rc stored, exampleRun = (db1, Ok r) ∧
    let db := foldl (deliver exampleHandler exampleIssuer (λ s, s)) db1 exampleAfter in
    SyncDb.domain db = [1; 2; 3] ∧
    ingest (λ s, s) exampleHandler exampleIssuer (drawn "b4") exampleAuth (exampleSync op1 7) db =
      (db, Ok (ProcessEventResult.mk SyncAckStatus.DUPLICATE_ACCEPTED (Some rc) stored None None true)).
Proof.
  assert (Hres : match snd exampleRun with Ok r => ProcessEventResult.status r = SyncAckStatus.APPLIED | Err _ => False end) by by vm_compute.
  assert (Hdom : SyncDb.domain (foldl (deliver exampleHandler exampleIssuer (λ s, s)) (fst exampleRun) exampleAfter) = [1; 2; 3]) by by vm_compute.
  destruct exampleRun as [db1 res] eqn:Hrun. simpl in Hres, Hdom.
  destruct res as [r|]; [|done].
  assert (Hadm : admitted exampleAuth (exampleSync op1 7)).
  { split_and!; [by vm_compute..| |]; cbn; unfold MAX_SAFE_INTEGER; lia. }
  assert (Hsame : sameOperation (exampleSync op1 1) (exampleSync op1 7)) by (by split_and!).
  pose proof (retry_returns_the_receipt (λ s, s) exampleHandler exampleIssuer [] exampleBefore exampleAfter (drawn "b3") exampleAuth
    (exampleSync op1 1) db1 r (drawn "b4") (exampleSync op1 7) Hrun Hres Hsame Hadm) as Hagain.
  cbv zeta in Hagain. destruct Hagain as (rc & stored & _ & _ & Hagain).
  exists db1, r, rc, stored. split; [done|]. split; [exact Hdom|]. rewrite Hagain. by rewrite decide_True by by vm_compute.
Defined.

(** an operation identifier with capital letters: its retry is refused *)
Example capital_letters_break_retries :
  let answer n db := ingest (λ s, s) exampleHandler exampleIssuer (drawn n) exampleAuth (exampleSync upperOp 1) db in
  let first := answer "b1" (SyncDb.empty []) in
  (match snd first with Ok r => ProcessEventResult.status r | Err _ => SyncAckStatus.REJECTED end) = SyncAckStatus.APPLIED ∧
  snd (answer "b2" (fst first)) = Err (Refused "IDEMPOTENCY_COLLISION").
Proof. split; by vm_compute. Qed.
