(* ===== verification/DeliverySpec.v ===== *)
(** The order of delivery does not matter: a stream of events sent in any order, with any
    repetitions, leaves the cloud as if it had been delivered once and in order. *)
From S2P Require Import Prelude Decimals Epochs Json JsonSpec PosTypes EdgeDb AuditTrail Ingestion IngestionSpec.
From Stdlib Require Import Ascii String.

Section convergence.
Context (digest : string → string) {D : Type}.
Context (handler : Json → SyncEvent.t → D → D * result string Json).
Context (issueReceipt : string → ReceiptIssuanceContext.t → result string CloudTransactionReceipt.t).
Context (auth : AuthContext.t) (events : list SyncEvent.t) (results : list Json) (d0 dn : D).

(** the same event, as sent or as rebuilt from the reordering buffer *)
Definition sameContent (e e' : SyncEvent.t) : Prop :=
  sameOperation e e' ∧ SyncEvent.aggregateSequenceNumber e' = SyncEvent.aggregateSequenceNumber e ∧
  (SyncEvent.payload e' = SyncEvent.payload e ∨ jsonb (SyncEvent.payload e) = Ok (SyncEvent.payload e')).

Definition eventFits (e : SyncEvent.t) : bool :=
  fits 100 (SyncEvent.aggregateType e) && fits 100 (SyncEvent.aggregateId e) && fits 100 (SyncEvent.action e).

(** a stream an edge node sends: numbered 1, 2, ..., of one aggregate, each event acceptable by
    itself, operations distinct and their keys without a SHA-256 collision *)
Record sendable : Prop := {
  sent_numbered : ∀ i e, events !! i = Some e → SyncEvent.aggregateSequenceNumber e = Z.of_nat i + 1;
  sent_stream : ∀ e e', e ∈ events → e' ∈ events → streamOf auth e = streamOf auth e';
  sent_admitted : ∀ e, e ∈ events → admitted auth e ∧ canonicalIds auth e ∧ eventFits e = true;
  sent_keyed : ∀ e, e ∈ events → ∃ key, eventKey digest auth e = Ok key;
  sent_keys : NoDup (eventKey digest auth <$> events);
  sent_ops : NoDup (SyncEvent.clientOpId <$> events);
  sent_storable : ∀ e, e ∈ events → ∃ p, jsonb (SyncEvent.payload e) = Ok p }.

(** the handler applies the events in order from [d0] to [dn], reads an event only through
    its identity, position and content; the issuer answers *)
Record processable : Prop := {
  processed_content : ∀ e e' d, e ∈ events → sameContent e e' → handler (SyncEvent.payload e') e' d = handler (SyncEvent.payload e) e d;
  processed_results : List.length results = List.length events ∧ Forall (λ v, ∃ stored, jsonb v = Ok stored) results;
  processed_history : replays handler d0 (zip events results) dn;
  processed_receipts : ∀ now context, ∃ rc, issueReceipt now context = Ok rc ∧ fits 255 (CloudTransactionReceipt.receiptId rc) = true }.

Context (HS : sendable) (HP : processable).

Lemma replays_det l d d' : replays handler d0 l d → replays handler d0 l d' → d = d'.
Proof.
  intros H. revert d'. induction H as [|l d e v d2 H IH Hh]; intros d' H'; inversion H'; subst; try done.
  - by destruct l.
  - by destruct l.
  - match goal with Heq : _ ++ [_] = _ ++ [_] |- _ => apply app_inj_tail in Heq as [-> [= -> ->]] end.
    match goal with Hr : replays _ _ _ ?x |- _ => pose proof (IH _ Hr); subst end. congruence.
Qed.

Lemma replays_split l l' d : replays handler d0 (l ++ l') d → ∃ d1, replays handler d0 l d1.
Proof.
  revert d. induction l' as [|x l' IH] using rev_ind; intros d H; [rewrite app_nil_r in H; eauto|].
  rewrite app_assoc in H. inversion H as [Hn|l1 d1 e v d2 Hr Hh Heq]; subst; [by destruct (l ++ l')|].
  apply app_inj_tail in Heq as [-> _]. by eapply IH.
Qed.

Definition history (m : nat) (d : D) : Prop := replays handler d0 (take m (zip events results)) d.

Lemma history_step m e d : events !! m = Some e → history m d →
  ∃ v stored d', jsonb v = Ok stored ∧ handler (SyncEvent.payload e) e d = (d', Ok v) ∧ history (S m) d'.
Proof.
  intros He Hd. destruct (processed_results HP) as [Hlen Hst].
  destruct (lookup_lt_is_Some_2 results m) as [v Hv]; [rewrite Hlen; by eapply lookup_lt_Some|].
  assert (Hz : zip events results !! m = Some (e, v)) by (apply lookup_zip_Some; done).
  rewrite Forall_lookup in Hst. destruct (Hst _ _ Hv) as [stored Hstored].
  pose proof (processed_history HP) as Hall. rewrite <- (take_drop (S m) (zip events results)) in Hall.
  apply replays_split in Hall as [d1 Hr]. pose proof Hr as Hr'. rewrite (take_S_r _ _ _ Hz) in Hr.
  inversion Hr as [Hn|l1 d2 e2 v2 d3 Hr2 Hh Heq]; subst; [by destruct (take m (zip events results))|].
  apply app_inj_tail in Heq as [-> [= -> ->]]. rewrite (replays_det _ _ _ Hd Hr2). by eexists v, stored, d1.
Qed.

Lemma history_end d : history (List.length events) d → d = dn.
Proof.
  unfold history. rewrite take_ge; [|rewrite length_zip_with; lia]. intros H. by eapply replays_det, (processed_history HP).
Qed.

(** ** The state between deliveries *)

(** the buffered row of a sent event *)
Definition represents (e : SyncEvent.t) (r : BufferRow.t) : Prop :=
  bufferStream r = streamOf auth e ∧ BufferRow.aggregateSequenceNumber r = SyncEvent.aggregateSequenceNumber e ∧
  BufferRow.action r = SyncEvent.action e ∧ BufferRow.clientOpId r = SyncEvent.clientOpId e ∧
  eventKey digest auth e = Ok (BufferRow.idempotencyKey r) ∧ jsonb (SyncEvent.payload e) = Ok (BufferRow.eventPayload r).

Definition loggedFor (e : SyncEvent.t) (row : IdempotencyRow.t) : Prop :=
  ∃ key stored rc, eventKey digest auth e = Ok key ∧ row = appliedRow auth key e stored rc.

(** the first [m] events are applied, rows up to position [b] are drained, [X] was delivered *)
Record progress (m b : nat) (X : list SyncEvent.t) (db : SyncDb.t D) : Prop := Progress {
  progress_history : history m (SyncDb.domain db);
  progress_sequence : ∀ e, e ∈ events → currentSequence (streamOf auth e) db = Z.of_nat m;
  progress_log : Forall2 loggedFor (take m events) (SyncDb.ingested_idempotency_log db);
  progress_bound : (m <= List.length events)%nat;
  progress_buffer : ∀ r, r ∈ SyncDb.reordering_buffer_queue db → ∃ i e, events !! i = Some e ∧ e ∈ X ∧ represents e r ∧
    (BufferRow.status r = BufferStatus.BUFFERED ↔ (b <= i)%nat);
  progress_ids : NoDup (BufferRow.id <$> SyncDb.reordering_buffer_queue db);
  progress_positions : NoDup (bufferPosition <$> SyncDb.reordering_buffer_queue db);
  progress_waiting : ∀ i e, events !! i = Some e → e ∈ X → (m <= i)%nat → ∃ r, r ∈ SyncDb.reordering_buffer_queue db ∧ represents e r }.

(** nothing that was delivered could be applied *)
Definition complete (m : nat) (X : list SyncEvent.t) : Prop := ∀ e, events !! m = Some e → e ∉ X.

Lemma event_unique i j e e' : events !! i = Some e → events !! j = Some e' → eventKey digest auth e = eventKey digest auth e' → i = j.
Proof. intros Hi Hj Hk. eapply (NoDup_lookup _ _ _ _ (sent_keys HS)); rewrite list_lookup_fmap, ?Hi, ?Hj; [done|]. simpl. by rewrite Hk. Qed.

Lemma op_unique i j e e' : events !! i = Some e → events !! j = Some e' → SyncEvent.clientOpId e = SyncEvent.clientOpId e' → i = j.
Proof. intros Hi Hj Hk. eapply (NoDup_lookup _ _ _ _ (sent_ops HS)); rewrite list_lookup_fmap, ?Hi, ?Hj; [done|]. simpl. by rewrite Hk. Qed.

(** the row of the next event collides with no logged one *)
Lemma next_fresh m b X db e key stored rc : progress m b X db → events !! m = Some e → eventKey digest auth e = Ok key →
  freshRow (appliedRow auth key e stored rc) (SyncDb.ingested_idempotency_log db).
Proof.
  intros Hp He Hkey. pose proof (progress_log _ _ _ _ Hp) as Hlog.
  assert (Hrow : ∀ row, row ∈ SyncDb.ingested_idempotency_log db → ∃ i e', events !! i = Some e' ∧ (i < m)%nat ∧ loggedFor e' row).
  { intros row [i Hi]%list_elem_of_lookup. destruct (Forall2_lookup_r _ _ _ _ _ Hlog Hi) as (e' & He' & Hl).
    apply lookup_take_Some in He' as [He' Hlt]. by exists i, e'. }
  assert (Hin : e ∈ events) by by eapply list_elem_of_lookup_2. destruct (sent_admitted HS e Hin) as (_ & [_ Hop] & _).
  split_and!; intros (row & Heq & Hr)%list_elem_of_fmap; destruct (Hrow _ Hr) as (i & e' & He' & Hlt & key' & st' & rc' & Hk' & ->).
  - unfold logKey in Heq. cbn in Heq. injection Heq as ->. assert (m = i); [|lia]. eapply event_unique; [done..|congruence].
  - unfold logOp in Heq. cbn in Heq. assert (Hu : uuidColumn (SyncEvent.clientOpId e) = uuidColumn (SyncEvent.clientOpId e')) by congruence. assert (Hin' : e' ∈ events) by by eapply list_elem_of_lookup_2.
    destruct (sent_admitted HS e' Hin') as (_ & [_ Hop'] & _). rewrite Hop, Hop' in Hu. assert (m = i); [|lia]. by eapply op_unique.
  - unfold logPosition in Heq. cbn in Heq. assert (Hs : SyncEvent.aggregateSequenceNumber e = SyncEvent.aggregateSequenceNumber e') by congruence. rewrite (sent_numbered HS _ _ He), (sent_numbered HS _ _ He') in Hs. lia.
Qed.
(** ** Steps *)

Lemma appliedRow_content e ev key stored rc : sameContent e ev → appliedRow auth key ev stored rc = appliedRow auth key e stored rc.
Proof. intros ((Ht & Hi & Ha & Ho) & Hs & _). unfold appliedRow. by rewrite Ht, Hi, Ha, Ho, Hs. Qed.

Lemma streamOf_content e ev : sameContent e ev → streamOf auth ev = streamOf auth e.
Proof. intros ((Ht & Hi & _) & _). unfold streamOf. by rewrite Ht, Hi. Qed.

Lemma apply_next m b X db e ev now key :
  progress m b X db → events !! m = Some e → eventKey digest auth e = Ok key → sameContent e ev →
  ∃ rc v db1, applyEvent handler issueReceipt auth now key ev db = (db1, Ok (rc, v)) ∧ progress (S m) b X db1 ∧
    SyncDb.reordering_buffer_queue db1 = SyncDb.reordering_buffer_queue db.
Proof.
  intros Hp He Hkey Hc. assert (Hin : e ∈ events) by by eapply list_elem_of_lookup_2.
  destruct (history_step _ _ _ He (progress_history _ _ _ _ Hp)) as (v & stored & d' & Hst & Hh & Hnext).
  destruct (processed_receipts HP now (issuanceContext auth ev)) as (rc & Hrc & Hfit).
  destruct (sent_admitted HS e Hin) as (_ & _ & Hfits).
  exists rc, v, (afterApply auth ev (appliedRow auth key ev stored rc) d' db). split_and!; [|constructor|done].
  - apply applyEvent_ok. exists d', stored. cbv zeta. split_and!; try done; [by rewrite (processed_content HP e ev _ Hin Hc)| |].
    + rewrite (appliedRow_content e) by done. change (eventFits e && fits 255 (CloudTransactionReceipt.receiptId rc) = true). by rewrite Hfits.
    + rewrite (appliedRow_content e) by done. by eapply next_fresh.
  - done.
  - intros e' He'. rewrite (sent_stream HS e' e He' Hin), <- (streamOf_content e ev) by done.
    pose proof (currentSequence_set (streamOf auth ev) (streamOf auth ev) (SyncEvent.aggregateSequenceNumber ev) db) as Hs.
    rewrite decide_True in Hs by done. unfold currentSequence in *. cbn in *. rewrite Hs.
    destruct Hc as (_ & -> & _). rewrite (sent_numbered HS _ _ He). lia.
  - unfold afterApply. cbn. rewrite (take_S_r _ _ _ He). apply Forall2_app; [apply Hp|]. constructor; [|constructor].
    exists key, stored, rc. split; [done|]. by apply appliedRow_content.
  - apply lookup_lt_Some in He. lia.
  - apply Hp.
  - apply Hp.
  - apply Hp.
  - intros i e' Hi Hx Hle. apply (progress_waiting _ _ _ _ Hp i e' Hi Hx). lia.
Qed.

Lemma represents_position i j e e' (r : BufferRow.t) : events !! i = Some e → events !! j = Some e' → represents e r → represents e' r → i = j.
Proof.
  intros Hi Hj (_ & Hs & _) (_ & Hs' & _). rewrite (sent_numbered HS _ _ Hi) in Hs. rewrite (sent_numbered HS _ _ Hj) in Hs'. lia.
Qed.

Lemma same_row i e r r' X m b db : progress m b X db → events !! i = Some e →
  r ∈ SyncDb.reordering_buffer_queue db → r' ∈ SyncDb.reordering_buffer_queue db → represents e r → represents e r' → r = r'.
Proof.
  intros Hp He [j Hj]%list_elem_of_lookup [j' Hj']%list_elem_of_lookup (Hk & Hs & _) (Hk' & Hs' & _).
  assert (j = j') as ->; [|congruence].
  eapply (NoDup_lookup _ _ _ (bufferPosition r) (progress_positions _ _ _ _ Hp)); rewrite list_lookup_fmap, ?Hj, ?Hj'; [done|].
  simpl. unfold bufferPosition. congruence.
Qed.

Lemma progress_marked m X db e item now :
  progress (S m) m X db → events !! m = Some e → item ∈ SyncDb.reordering_buffer_queue db → represents e item →
  progress (S m) (S m) X (marked (BufferRow.id item) now db).
Proof.
  intros Hp He Hitem Hrep. constructor; try apply Hp.
  - intros r Hr. unfold marked in Hr. cbn in Hr. apply list_elem_of_fmap in Hr as (r' & -> & Hr).
    destruct (progress_buffer _ _ _ _ Hp r' Hr) as (i & e' & Hi & Hx & Hrep' & Hst). exists i, e'.
    destruct (decide (BufferRow.id r' = BufferRow.id item)) as [Hid|Hid].
    + assert (r' = item) as ->.
      { apply list_elem_of_lookup in Hr as [j Hj], Hitem as [j' Hj']. assert (j = j') as ->; [|congruence].
        eapply (NoDup_lookup _ _ _ (BufferRow.id r') (progress_ids _ _ _ _ Hp)); rewrite list_lookup_fmap, ?Hj, ?Hj'; [done|].
        simpl. congruence. }
      assert (i = m) as -> by (by eapply represents_position). split_and!; try done. cbn. split; [done|lia].
    + split_and!; try done. rewrite Hst. assert (i ≠ m); [|lia]. intros ->. assert (e' = e) as -> by congruence. apply Hid. f_equal.
      by eapply same_row.
  - rewrite fmap_marked; [apply Hp|done].
  - rewrite fmap_marked; [apply Hp|done].
  - intros i e' Hi Hx Hle. destruct (progress_waiting _ _ _ _ Hp i e' Hi Hx Hle) as (r & Hr & Hrep').
    exists (if decide (BufferRow.id r = BufferRow.id item) then r <| BufferRow.status := BufferStatus.DRAINED |> <| BufferRow.drainedAt := Some now |> else r).
    split; [unfold marked; cbn; apply list_elem_of_fmap; by exists r|]. by case_decide.
Qed.

Lemma drain_complete fuel now event e0 n m X db :
  progress m m X db → (pending db <= fuel)%nat → e0 ∈ events → streamOf auth event = streamOf auth e0 →
  ∃ n' m' db', drain handler issueReceipt fuel auth now event (Z.of_nat m) n db = (db', Ok n') ∧ progress m' m' X db' ∧ complete m' X ∧
    (BufferRow.id <$> SyncDb.reordering_buffer_queue db') = (BufferRow.id <$> SyncDb.reordering_buffer_queue db).
Proof.
  intros Hp Hle He0 Hk. revert n m db Hp Hle. induction fuel as [|fuel IH]; intros n m db Hp Hle; cbn [drain]; rewrite bind_gets;
    destruct (bufferedAt _ _ db) as [|item rest] eqn:Hat.
  1, 3: exists n, m, db; split_and!; try done; intros e He Hx; assert (Hin : e ∈ events) by (by eapply list_elem_of_lookup_2);
    destruct (progress_waiting _ _ _ _ Hp m e He Hx ltac:(lia)) as (r & Hr & Hrep);
    destruct (progress_buffer _ _ _ _ Hp r Hr) as (i & e' & Hi & _ & Hrep' & Hst);
    assert (i = m) as -> by (by eapply represents_position); apply (not_elem_of_nil r); rewrite <- Hat; apply elem_of_bufferedAt;
    destruct Hrep as (Hs & Hn & _); split_and!; [|rewrite Hn; by apply (sent_numbered HS)|apply Hst; lia|done];
    rewrite Hs, Hk; by apply (sent_stream HS).
  all: assert (Hitem : item ∈ bufferedAt (streamOf auth event) (Z.of_nat m + 1) db) by (rewrite Hat; by left);
    apply elem_of_bufferedAt in Hitem as [(Hs & Hn & Hst) Hitem]; pose proof (pending_marked item now db Hitem Hst) as Hlt.
  1: lia.
  destruct (progress_buffer _ _ _ _ Hp item Hitem) as (i & e & Hi & Hx & Hrep & _).
  pose proof Hrep as (Hs' & Hn' & Ha & Ho & Hkey & Hpay). rewrite (sent_numbered HS _ _ Hi) in Hn'. assert (i = m) as -> by lia.
  assert (Hc : sameContent e (bufferedEvent auth now event item (Z.of_nat m + 1))).
  { assert (streamOf auth e = streamOf auth event) as Heq by congruence. unfold streamOf in Heq. injection Heq as Ht Hid.
    unfold sameContent, sameOperation. cbn. split_and!; try done; [|by right]. by rewrite (sent_numbered HS _ _ Hi). }
  destruct (apply_next _ _ _ _ _ _ now _ Hp Hi Hkey Hc) as (rc & v & db1 & Hrun & Hp1 & Hbuf).
  rewrite (bind_run_ok _ _ _ _ _ Hrun). unfold markDrained. rewrite bind_modify.
  change (set SyncDb.reordering_buffer_queue _ db1) with (marked (BufferRow.id item) now db1).
  assert (Hp2 : progress (S m) (S m) X (marked (BufferRow.id item) now db1)) by (eapply progress_marked; rewrite ?Hbuf; done).
  replace (Z.of_nat m + 1) with (Z.of_nat (S m)) by lia.
  destruct (IH (n + 1) (S m) _ Hp2) as (n' & m' & db' & Hd & Hp' & Hcomp & Hids).
  { unfold pending in *. rewrite buffered_marked in *. rewrite Hbuf. lia. }
  exists n', m', db'. split_and!; try done. rewrite Hids, fmap_marked by done. by rewrite Hbuf.
Qed.
(** ** One delivery *)

Abbreviation ingestion := (ingest digest handler issueReceipt).

Lemma processEvent_new draws e key m b X db :
  e ∈ events → progress m b X db → eventKey digest auth e = Ok key → findLogged (AuthContext.organizationId auth) key db = None →
  processEvent digest handler issueReceipt draws auth e db =
    (let incoming := SyncEvent.aggregateSequenceNumber e in
     if incoming <? Z.of_nat m + 1 then
        receipt ← issue issueReceipt (SyncDraws.now draws) (issuanceContext auth e);
        mret (ProcessEventResult.mk SyncAckStatus.DUPLICATE_ACCEPTED (Some receipt)
          (JObject [("message", JString "Sequence already consumed")]) None None true)
     else if Z.of_nat m + 1 <? incoming then bufferEvent draws auth key (Z.of_nat m + 1) e
     else
        applied ← applyEvent handler issueReceipt auth (SyncDraws.now draws) key e;
        fuel ← gets pending;
        drainedCount ← drain handler issueReceipt fuel auth (SyncDraws.now draws) e incoming 0;
        mret (ProcessEventResult.mk SyncAckStatus.APPLIED (Some (fst applied)) (snd applied) None (Some drainedCount) false)) db.
Proof.
  intros He Hp Hkey Hnone. destruct (sent_admitted HS e He) as (Hadm & _ & _). unfold processEvent.
  rewrite (bind_run_ok _ _ _ _ _ (proj2 (checkEvent_ok auth e db db tt) (conj eq_refl Hadm))).
  unfold eventKey in Hkey. rewrite bind_lift, Hkey, bind_gets, Hnone, bind_gets, (progress_sequence _ _ _ _ Hp e He). done.
Qed.

Lemma findLogged_new m b X db i e key : progress m b X db → events !! i = Some e → (m <= i)%nat → eventKey digest auth e = Ok key →
  findLogged (AuthContext.organizationId auth) key db = None.
Proof.
  intros Hp He Hle Hkey. unfold findLogged. destruct (list_find _ _) as [[j row]|] eqn:Hf; [|done]. exfalso.
  apply list_find_Some in Hf as (Hj & [_ Hk] & _).
  destruct (Forall2_lookup_r _ _ _ _ _ (progress_log _ _ _ _ Hp) Hj) as (e' & He' & key' & st & rc & Hkey' & ->).
  apply lookup_take_Some in He' as [He' Hlt]. cbn in Hk. subst key'. assert (i = j); [|lia]. eapply event_unique; [done..|congruence].
Qed.

Lemma progress_keys m b X db : progress m b X db → NoDup (logKey <$> SyncDb.ingested_idempotency_log db).
Proof.
  intros Hp. pose proof (progress_log _ _ _ _ Hp) as Hlog. apply NoDup_alt. intros i j k Hi Hj.
  rewrite list_lookup_fmap in Hi, Hj. destruct (_ !! i) as [ri|] eqn:Hri; [|done]. destruct (_ !! j) as [rj|] eqn:Hrj; [|done].
  destruct (Forall2_lookup_r _ _ _ _ _ Hlog Hri) as (ei & Hei & ki & sti & rci & Hki & ->).
  destruct (Forall2_lookup_r _ _ _ _ _ Hlog Hrj) as (ej & Hej & kj & stj & rcj & Hkj & ->).
  apply lookup_take_Some in Hei as [Hei _], Hej as [Hej _]. simpl in Hi, Hj. unfold logKey in Hi, Hj. cbn in Hi, Hj.
  eapply event_unique; [done..|congruence].
Qed.

(** a known event, or one that waits already *)
Lemma progress_seen m X db i e : progress m m X db → events !! i = Some e →
  ((i < m)%nat ∨ ∃ r, r ∈ SyncDb.reordering_buffer_queue db ∧ represents e r) → progress m m (e :: X) db.
Proof.
  intros Hp He Hseen. constructor; try apply Hp.
  - intros r Hr. destruct (progress_buffer _ _ _ _ Hp r Hr) as (j & e' & Hj & Hx & Hrest). exists j, e'. split_and!; try apply Hrest; [done|by right].
  - intros j e' Hj [->|Hx]%elem_of_cons Hle; [|by apply (progress_waiting _ _ _ _ Hp j)].
    destruct Hseen as [Hlt|Hr]; [|done]. assert (i = j); [|lia]. by eapply event_unique.
Qed.

Lemma complete_cons m X i e : events !! i = Some e → i ≠ m → complete m X → complete m (e :: X).
Proof. intros He Hne Hc e' He' [->|Hx]%elem_of_cons; [apply Hne; by eapply event_unique|by apply (Hc e')]. Qed.

Definition bufferRowOf (draws : SyncDraws.t) (e : SyncEvent.t) (key : string) (p : Json) : BufferRow.t :=
  BufferRow.mk (SyncDraws.bufferId draws) (uuidColumn (AuthContext.organizationId auth)) (uuidColumn (AuthContext.branchId auth))
    (SyncEvent.aggregateType e) (SyncEvent.aggregateId e) (SyncEvent.aggregateSequenceNumber e) (SyncEvent.action e)
    (uuidColumn (SyncEvent.clientOpId e)) key p BufferStatus.BUFFERED (SyncDraws.now draws) None.

Lemma represents_new draws e key p : e ∈ events → eventKey digest auth e = Ok key → jsonb (SyncEvent.payload e) = Ok p →
  represents e (bufferRowOf draws e key p).
Proof. intros He Hkey Hp. destruct (sent_admitted HS e He) as (_ & [_ Hop] & _). unfold represents. cbn. rewrite Hop. done. Qed.

Lemma progress_buffered m X db draws i e key p :
  progress m m X db → events !! i = Some e → (m < i)%nat → eventKey digest auth e = Ok key → jsonb (SyncEvent.payload e) = Ok p →
  SyncDraws.bufferId draws ∉ (BufferRow.id <$> SyncDb.reordering_buffer_queue db) →
  bufferPosition (bufferRowOf draws e key p) ∉ (bufferPosition <$> SyncDb.reordering_buffer_queue db) →
  progress m m (e :: X) (db <| SyncDb.reordering_buffer_queue ::= λ l, l ++ [bufferRowOf draws e key p] |>).
Proof.
  intros Hp He Hlt Hkey Hpay Hid Hpos. assert (Hin : e ∈ events) by (by eapply list_elem_of_lookup_2).
  pose proof (represents_new draws e key p Hin Hkey Hpay) as Hrep. constructor; try apply Hp.
  - intros r [Hr| ->%list_elem_of_singleton]%elem_of_app.
    + destruct (progress_buffer _ _ _ _ Hp r Hr) as (j & e' & Hj & Hx & Hrest). exists j, e'. split_and!; try apply Hrest; [done|by right].
    + exists i, e. split_and!; [done|by left|done|]. cbn. split; [lia|done].
  - cbn. rewrite fmap_app. apply NoDup_snoc; [apply Hp|done].
  - cbn. rewrite fmap_app. apply NoDup_snoc; [apply Hp|done].
  - intros j e' Hj [->|Hx]%elem_of_cons Hle.
    + eexists. split; [cbn; apply elem_of_app; right; by apply list_elem_of_singleton|done].
    + destruct (progress_waiting _ _ _ _ Hp j e' Hj Hx Hle) as (r & Hr & Hr'). exists r. split; [cbn; apply elem_of_app; by left|done].
Qed.
(** buffering answers, whether the row is there already or not *)
Lemma buffer_run m X db draws i e key :
  progress m m X db → events !! i = Some e → (m < i)%nat → eventKey digest auth e = Ok key →
  SyncDraws.bufferId draws ∉ (BufferRow.id <$> SyncDb.reordering_buffer_queue db) →
  ∃ r db', bufferEvent draws auth key (Z.of_nat m + 1) e db = (db', Ok r) ∧ progress m m (e :: X) db' ∧
    (∀ id, id ∈ (BufferRow.id <$> SyncDb.reordering_buffer_queue db') → id = SyncDraws.bufferId draws ∨ id ∈ (BufferRow.id <$> SyncDb.reordering_buffer_queue db)).
Proof.
  intros Hp He Hlt Hkey Hid. assert (Hin : e ∈ events) by (by eapply list_elem_of_lookup_2).
  destruct (sent_storable HS e Hin) as [p Hpay]. destruct (sent_admitted HS e Hin) as (_ & _ & Hfits). unfold eventFits in Hfits.
  unfold bufferEvent. rewrite Hpay. cbv zeta. rewrite bind_lift. fold (bufferRowOf draws e key p).
  unfold insertBuffer. mrun. cbn [bufferRowOf BufferRow.aggregateType BufferRow.aggregateId BufferRow.action]. rewrite Hfits. cbn [negb].
  case_bool_decide as Hk.
  - apply list_elem_of_fmap in Hk as (r & Heq & Hr). eexists _, db. split; [done|]. split; [|by right].
    eapply progress_seen; [done..|]. right. exists r. split; [done|].
    destruct (progress_buffer _ _ _ _ Hp r Hr) as (j & e' & Hj & _ & Hrep & _).
    assert (j = i) as ->; [|congruence]. eapply event_unique; [done..|]. destruct Hrep as (_ & _ & _ & _ & -> & _).
    rewrite Hkey. cbn in Heq. congruence.
  - assert (Hpos : bufferPosition (bufferRowOf draws e key p) ∉ (bufferPosition <$> SyncDb.reordering_buffer_queue db)).
    { intros (r & Heq & Hr)%list_elem_of_fmap. apply Hk. apply list_elem_of_fmap. exists r. split; [|done].
      destruct (progress_buffer _ _ _ _ Hp r Hr) as (j & e' & Hj & _ & Hrep & _). destruct Hrep as (Hs & Hn & _ & _ & Hkey' & _).
      unfold bufferPosition in Heq. cbn in Heq. assert (Hseq : SyncEvent.aggregateSequenceNumber e = BufferRow.aggregateSequenceNumber r) by congruence.
      rewrite Hn, (sent_numbered HS _ _ Hj), (sent_numbered HS _ _ He) in Hseq. assert (i = j) as -> by lia. assert (e' = e) as -> by congruence.
      unfold bufferStream, streamOf in Hs. cbn. congruence. }
    rewrite (bool_decide_eq_false_2 (BufferRow.id _ ∈ _)) by done. rewrite (bool_decide_eq_false_2 (_ ∈ _)) by exact Hpos.
    eexists _, _. split; [reflexivity|]. split; [by eapply progress_buffered|].
    intros id. cbn. rewrite fmap_app, elem_of_app. intros [Hi|Hi%list_elem_of_singleton]; [by right|by left].
Qed.

Lemma deliver_progress m X db draws i e :
  progress m m X db → complete m X → events !! i = Some e →
  SyncDraws.bufferId draws ∉ (BufferRow.id <$> SyncDb.reordering_buffer_queue db) →
  ∃ r m' db', ingestion draws auth e db = (db', Ok r) ∧ progress m' m' (e :: X) db' ∧ complete m' (e :: X) ∧
    (∀ id, id ∈ (BufferRow.id <$> SyncDb.reordering_buffer_queue db') → id = SyncDraws.bufferId draws ∨ id ∈ (BufferRow.id <$> SyncDb.reordering_buffer_queue db)).
Proof.
  intros Hp Hcomp He Hid. assert (Hin : e ∈ events) by (by eapply list_elem_of_lookup_2).
  destruct (sent_admitted HS e Hin) as (Hadm & Hcan & _). destruct (sent_keyed HS e Hin) as [key Hkey].
  destruct (decide (i < m)%nat) as [Hlt|Hge].
  - assert (Hlog : take m events !! i = Some e) by (by apply lookup_take_Some).
    destruct (Forall2_lookup_l _ _ _ _ _ (progress_log _ _ _ _ Hp) Hlog) as (row & Hrow & key' & st & rc & Hkey' & ->).
    apply list_elem_of_lookup_2 in Hrow.
    eexists _, m, db. rewrite (ingest_again handler issueReceipt digest draws auth e e key' st rc db); try done; [|by eapply progress_keys].
    rewrite decide_True by done. split_and!; [done|eapply progress_seen; eauto|eapply complete_cons; [done|lia|done]|by right].
  - unfold ingest. rewrite (processEvent_new draws e key m m X db); try done; [|eapply findLogged_new; [done..|lia|done]].
    rewrite (sent_numbered HS _ _ He). cbv zeta. rewrite (proj2 (Z.ltb_ge _ _)) by lia.
    destruct (Z.ltb_spec (Z.of_nat m + 1) (Z.of_nat i + 1)).
    + destruct (buffer_run m X db draws i e key) as (r & db' & Hr & Hp' & Hids); try done; [lia|]. rewrite Hr.
      exists r, m, db'. split_and!; [done|done|eapply complete_cons; [done|lia|done]|done].
    + assert (i = m) as -> by lia.
      destruct (apply_next m m X db e e (SyncDraws.now draws) key Hp He Hkey) as (rc & v & db1 & Hrun & Hp1 & Hbuf).
      { unfold sameContent, sameOperation. split_and!; try done. by left. }
      rewrite (bind_run_ok _ _ _ _ _ Hrun), bind_gets.
      assert (Hp2 : progress (S m) (S m) (e :: X) db1).
      { constructor; try apply Hp1.
        - intros r Hr. destruct (progress_buffer _ _ _ _ Hp1 r Hr) as (j & e' & Hj & Hx & Hrep & Hst). exists j, e'.
          split_and!; [done|by right|done|]. rewrite Hst. assert (j ≠ m); [|lia]. intros ->. apply (Hcomp e'); [done|done].
        - intros j e' Hj [->|Hx]%elem_of_cons Hle; [|by apply (progress_waiting _ _ _ _ Hp1 j)].
          exfalso. assert (j = m); [|lia]. by eapply event_unique. }
      destruct (drain_complete (pending db1) (SyncDraws.now draws) e e 0 (S m) (e :: X) db1 Hp2) as (n' & m' & db' & Hd & Hp' & Hc' & Hids); try done.
      replace (Z.of_nat m + 1) with (Z.of_nat (S m)) by lia. rewrite (bind_run_ok _ _ _ _ _ Hd).
      eexists _, m', db'. split_and!; [done|done|done|]. rewrite Hids, Hbuf. by right.
Qed.

Definition deliveredEvents (l : list (SyncDraws.t * SyncEvent.t)) : list SyncEvent.t := snd <$> l.

(** the deliveries of [l] in turn, with their answers *)
Fixpoint ingestAll (l : list (SyncDraws.t * SyncEvent.t)) (db : SyncDb.t D) : SyncDb.t D * list (result SyncError ProcessEventResult.t) :=
  match l with
  | [] => (db, [])
  | (draws, e) :: l' =>
      let '(db', r) := ingestion draws auth e db in
      let '(db'', rs) := ingestAll l' db' in (db'', r :: rs)
  end.

Lemma ingestAll_progress l m X db :
  progress m m X db → complete m X → (∀ x, x ∈ l → snd x ∈ events) →
  NoDup ((SyncDraws.bufferId ∘ fst <$> l) ++ (BufferRow.id <$> SyncDb.reordering_buffer_queue db)) →
  ∃ m' X', progress m' m' X' (fst (ingestAll l db)) ∧ complete m' X' ∧ (∀ e, e ∈ X ∨ e ∈ deliveredEvents l → e ∈ X') ∧
    Forall (λ r, ∃ a, r = Ok a) (snd (ingestAll l db)).
Proof.
  revert m X db. induction l as [|[draws e] l IH]; intros m X db Hp Hc Hev Hnd.
  - exists m, X. split_and!; try done. intros e [He|He]; [done|by apply not_elem_of_nil in He].
  - assert (He : e ∈ events) by (apply (Hev (draws, e)); by left). apply list_elem_of_lookup in He as [i He].
    rewrite fmap_cons in Hnd. cbn in Hnd. apply NoDup_cons in Hnd as [Hni Hnd]. rewrite elem_of_app in Hni.
    destruct (deliver_progress m X db draws i e) as (r & m1 & db1 & Hrun & Hp1 & Hc1 & Hids); try done; [tauto|].
    cbn [ingestAll]. rewrite Hrun.
    destruct (IH m1 (e :: X) db1) as (m' & X' & Hp' & Hc' & Hsub & Hok); try done; [intros x Hx; apply Hev; by right| |].
    { apply NoDup_app in Hnd as (Hn1 & Hdis & _). apply NoDup_app. split_and!; [done| |apply Hp1].
      intros id Hl Hid. apply Hids in Hid as [->|Hid]; [tauto|by eapply Hdis]. }
    destruct (ingestAll l db1) as [db2 rs]. exists m', X'. split_and!; try done; [|constructor; [by exists r|done]].
    intros e' [Hx|Hx]; [apply Hsub; left; by right|]. unfold deliveredEvents in Hx. rewrite fmap_cons in Hx.
    apply elem_of_cons in Hx as [->|Hx]; apply Hsub; [left; by left|by right].
Qed.

Lemma progress_start : progress 0 0 [] (SyncDb.empty d0).
Proof.
  constructor.
  - exact (replays_nil handler d0).
  - done.
  - constructor.
  - lia.
  - intros r Hr. by apply not_elem_of_nil in Hr.
  - constructor.
  - constructor.
  - intros i e _ Hx. by apply not_elem_of_nil in Hx.
Qed.
End convergence.

(** ** The property *)

(** C14: the order of delivery does not matter.  Take the events an edge node sends for one
    aggregate, numbered 1, 2, ..., each acceptable by itself, and a handler that applies them
    in order and reads only their content.  Deliver them in any order, each at least once and
    as often as one likes: every delivery is answered, and in the end the domain state is the
    one the handler makes of the events in order, the log holds exactly one row per event, in
    order, and nothing is left in the reordering buffer. *)
Theorem delivery_order_is_irrelevant digest {D} handler issueReceipt auth events results (d0 dn : D) l db answers :
  sendable digest auth events → processable handler issueReceipt events results d0 dn →
  (∀ x, x ∈ l → snd x ∈ events) → (∀ e, e ∈ events → e ∈ deliveredEvents l) → NoDup (SyncDraws.bufferId ∘ fst <$> l) →
  ingestAll digest handler issueReceipt auth l (SyncDb.empty d0) = (db, answers) →
  Forall (λ r, ∃ a, r = Ok a) answers ∧
  SyncDb.domain db = dn ∧
  Forall2 (loggedFor digest auth) events (SyncDb.ingested_idempotency_log db) ∧
  (∀ r, r ∈ SyncDb.reordering_buffer_queue db → BufferRow.status r = BufferStatus.DRAINED).
Proof.
  intros HS HP Hsub Hcov Hnd Hrun.
  pose proof (progress_start digest handler auth events results d0) as Hp0.
  destruct (ingestAll_progress digest handler issueReceipt auth events results d0 dn HS HP l 0 [] (SyncDb.empty d0) Hp0)
    as (m & X & Hp & Hcomp & HX & Hok); [by intros e _ Hx%not_elem_of_nil|done|by rewrite app_nil_r|]. rewrite Hrun in Hp, Hok. simpl in Hp, Hok.
  assert (m = List.length events) as ->.
  { pose proof (progress_bound _ _ _ _ _ _ _ _ _ _ Hp). destruct (decide (m < List.length events)%nat) as [Hlt|]; [|lia].
    apply lookup_lt_is_Some_2 in Hlt as [e He]. exfalso. apply (Hcomp e He), HX. right. apply Hcov. by eapply list_elem_of_lookup_2. }
  split_and!; [done| | |].
  - eapply history_end; [exact HP|apply Hp].
  - pose proof (progress_log _ _ _ _ _ _ _ _ _ _ Hp) as Hlog. by rewrite take_ge in Hlog by lia.
  - intros r Hr. destruct (progress_buffer _ _ _ _ _ _ _ _ _ _ Hp r Hr) as (i & e & Hi & _ & _ & Hst).
    apply lookup_lt_Some in Hi. destruct (BufferRow.status r); [|done]. pose proof (proj1 Hst eq_refl). lia.
Qed.

(** ** Witness *)

Definition exampleStream : list SyncEvent.t := [exampleSync op1 1; exampleSync op2 2; exampleSync op3 3].
Definition exampleDeliveries : list (SyncDraws.t * SyncEvent.t) :=
  [(drawn "b1", exampleSync op3 3); (drawn "b2", exampleSync op1 1); (drawn "b3", exampleSync op3 3); (drawn "b4", exampleSync op2 2);
   (drawn "b5", exampleSync op1 1)].

Lemma example_elem e : e ∈ exampleStream ↔ e = exampleSync op1 1 ∨ e = exampleSync op2 2 ∨ e = exampleSync op3 3.
Proof. unfold exampleStream. rewrite !elem_of_cons. split; [|tauto]. intros [?|[?|[?|H]]]; [tauto..|]. by apply not_elem_of_nil in H. Qed.

Lemma example_sendable : sendable (λ s, s) exampleAuth exampleStream.
Proof.
  constructor.
  - intros [|[|[|i]]] e H; cbn in H; simplify_eq; done.
  - intros e e' He He'. apply example_elem in He, He'. by destruct He as [->|[->| ->]], He' as [->|[->| ->]].
  - intros e He. apply example_elem in He. unfold admitted, MAX_SAFE_INTEGER. destruct He as [->|[->| ->]]; split_and!; try (by vm_compute); cbn; lia.
  - intros e He. apply example_elem in He. destruct He as [->|[->| ->]]; eexists; by vm_compute.
  - apply (bool_decide_unpack _). by vm_compute.
  - apply (bool_decide_unpack _). by vm_compute.
  - intros e He. apply example_elem in He. destruct He as [->|[->| ->]]; eexists; by vm_compute.
Qed.

Lemma example_processable : processable exampleHandler exampleIssuer exampleStream [JNumber 0; JNumber 1; JNumber 2] [] [1; 2; 3].
Proof.
  constructor.
  - intros e e' d _ (_ & Hs & _). unfold exampleHandler. by rewrite Hs.
  - split; [done|]. repeat constructor; eexists; by vm_compute.
  - apply (replays_snoc _ _ [(exampleSync op1 1, JNumber 0); (exampleSync op2 2, JNumber 1)] [1; 2]); [|done].
    apply (replays_snoc _ _ [(exampleSync op1 1, JNumber 0)] [1]); [|done]. by apply (replays_snoc _ _ [] []); [constructor|].
  - intros now c. by eexists.
Qed.

Lemma delivery_order_is_irrelevant_witness :
  let '(db, answers) := ingestAll (λ s, s) exampleHandler exampleIssuer exampleAuth exampleDeliveries (SyncDb.empty []) in
  SyncDb.domain db = [1; 2; 3] ∧ List.length answers = 5%nat.
Proof.
  destruct (ingestAll _ _ _ _ _ _) as [db answers] eqn:Hrun.
  destruct (delivery_order_is_irrelevant (λ s, s) exampleHandler exampleIssuer exampleAuth exampleStream [JNumber 0; JNumber 1; JNumber 2] []
    [1; 2; 3] exampleDeliveries db answers example_sendable example_processable) as (_ & Hd & _); [| | |exact Hrun|].
  - intros x Hx. apply example_elem. unfold exampleDeliveries in Hx. rewrite !elem_of_cons in Hx.
    destruct Hx as [->|[->|[->|[->|[->|Hx]]]]]; simpl; try tauto. by apply not_elem_of_nil in Hx.
  - intros e He. apply example_elem in He. unfold deliveredEvents, exampleDeliveries. cbn. rewrite !elem_of_cons. tauto.
  - apply (bool_decide_unpack _). by vm_compute.
  - split; [exact Hd|]. change answers with (snd (db, answers)). rewrite <- Hrun. by vm_compute.
Defined.
