(* ===== verification/EdgeSync.v ===== *)
(** The edge's side of synchronisation: the outbox rows it sends (flushOutbox of
    sync/src/edge-client.ts) and how acknowledgements mark them (markSynced and the backlog of
    edge/src/db/outbox-persistence.ts), with the receipt check of core/src/sync-contracts.ts.

    The JSON text of a payload is an argument ([encode]): sending does not look into it.  The
    socket, its timers and telemetry are not modelled; a batch is the list of its events and an
    answer the list of its acknowledgements. *)
From S2P Require Import Prelude Decimals Epochs Json PosTypes EdgeDb AuditTrail Ingestion.
From Stdlib Require Import Ascii String.

Module SyncEventAck.
(* sync-contracts.ts:245-258 SyncEventAckDTO *)
Record t := mk {
  clientOpId : string; aggregateType : string; aggregateId : string; aggregateSequenceNumber : Z; status : SyncAckStatus.t;
  receipt : option CloudTransactionReceipt.t }.
End SyncEventAck.

(* sync-contracts.ts:169-185 isValidCloudReceipt *)
Definition isValidCloudReceipt (r : CloudTransactionReceipt.t) : bool :=
  negb (bool_decide (CloudTransactionReceipt.receiptId r = "")) && negb (bool_decide (CloudTransactionReceipt.appliedAt r = "")) &&
  negb (bool_decide (CloudTransactionReceipt.serverSignature r = "")) && isValidUuidV4 (CloudTransactionReceipt.clientOpId r) &&
  isSafeInteger (CloudTransactionReceipt.aggregateSequenceNumber r) && (1 <=? CloudTransactionReceipt.aggregateSequenceNumber r).

(** a verifier may be missing, and may answer a promise, which is not accepted *)
(* sync-contracts.ts:147-152 CloudReceiptVerifier *)
Definition CloudReceiptVerifier : Type := CloudTransactionReceipt.t → ReceiptIssuanceContext.t → MaybePromise.

(* outbox-persistence.ts:252-257 markSynced, context *)
Definition rowContext (row : OutboxRecord.t) : ReceiptIssuanceContext.t :=
  ReceiptIssuanceContext.mk (OutboxRecord.organizationId row) (OutboxRecord.branchId row) (OutboxRecord.clientOpId row)
    (OutboxRecord.aggregateSequenceNumber row) None None None.

(* outbox-persistence.ts:230-265 markSynced, checks *)
Definition ackAccepted (verifier : option CloudReceiptVerifier) (row : OutboxRecord.t) (ack : SyncEventAck.t) : option CloudTransactionReceipt.t :=
  if negb (bool_decide (SyncEventAck.status ack ∈ [SyncAckStatus.APPLIED; SyncAckStatus.DUPLICATE_ACCEPTED])) then None
  else
    match SyncEventAck.receipt ack with
    | None => None
    | Some receipt =>
        if negb (isValidCloudReceipt receipt) then None
        else if bool_decide (CloudTransactionReceipt.clientOpId receipt ≠ OutboxRecord.clientOpId row) ||
                bool_decide (CloudTransactionReceipt.aggregateSequenceNumber receipt ≠ OutboxRecord.aggregateSequenceNumber row) then None
        else
          match verifier with
          | None => None
          | Some verifyReceipt => match verifyReceipt receipt (rowContext row) with Sync true => Some receipt | _ => None end
          end
    end.

(** the row as SYNCED *)
Definition syncedRow (receipt : CloudTransactionReceipt.t) (now : string) (row : OutboxRecord.t) : OutboxRecord.t :=
  OutboxRecord.mk (OutboxRecord.id row) (OutboxRecord.organizationId row) (OutboxRecord.branchId row) (OutboxRecord.aggregateType row)
    (OutboxRecord.aggregateId row) (OutboxRecord.action row) (OutboxRecord.clientOpId row) (OutboxRecord.aggregateSequenceNumber row)
    (OutboxRecord.payload row) SYNCED (Some (CloudTransactionReceipt.serverSignature receipt)) (Some (CloudTransactionReceipt.appliedAt receipt))
    (OutboxRecord.retryCount row) (OutboxRecord.createdAt row) (Some now) (OutboxRecord.lastError row).

(* outbox-persistence.ts:203-228 markSynced, fetch *)
Definition outboxRow (id : string) (d : Db.t) : option OutboxRecord.t :=
  snd <$> list_find (λ r, OutboxRecord.id r = id) (Db.outbox_queue d).

(* outbox-persistence.ts:202-281 markSynced *)
Definition markSynced (verifier : option CloudReceiptVerifier) (now id : string) (ack : SyncEventAck.t) : Tx bool :=
  found ← query (outboxRow id);
  match found with
  | None => mret false
  | Some row =>
      match ackAccepted verifier row ack with
      | None => mret false
      | Some receipt =>
          runInTransaction (
            exec (λ d, d <| Db.outbox_queue ::= fmap (λ r, if decide (OutboxRecord.id r = id) then syncedRow receipt now r else r) |>) ;;
            changed ← query (outboxRow id);
            mret (bool_decide (is_Some changed))) None
      end
  end.

(** ORDER BY created_at ASC LIMIT *)
(* outbox-persistence.ts:286-316 getPendingEvents *)
Definition getPendingEvents (limit : nat) : Tx (list OutboxRecord.t) :=
  query (λ d, take limit (orderBy OutboxRecord.createdAt (filter (λ r, OutboxRecord.status r = PENDING) (Db.outbox_queue d)))).

(* outbox-persistence.ts:321-330 getBacklogCount *)
Definition getBacklogCount : Tx Z :=
  query (λ d, Z.of_nat (List.length (filter (λ r, OutboxRecord.status r = PENDING) (Db.outbox_queue d)))).

(* outbox-persistence.ts:336-346 checkBacklogAlert *)
Definition checkBacklogAlert : Tx (Z * bool) :=
  count ← getBacklogCount;
  mret (count, 100 <? count).

Section flush.
Context (encode : OutboxPayload → Json).
Context (verifier : option CloudReceiptVerifier).

(* edge-client.ts:435-444 flushOutbox, events *)
Definition toSyncEvent (row : OutboxRecord.t) : SyncEvent.t :=
  SyncEvent.mk (Some (OutboxRecord.organizationId row)) (Some (OutboxRecord.branchId row)) (OutboxRecord.clientOpId row)
    (OutboxRecord.aggregateType row) (OutboxRecord.aggregateId row) (OutboxRecord.aggregateSequenceNumber row) (OutboxRecord.action row)
    (encode (OutboxRecord.payload row)) None None.

(** the batch a flush sends *)
(* edge-client.ts:427-451 flushOutbox, batch *)
Definition flushBatch (limit : nat) : Tx (list OutboxRecord.t * list SyncEvent.t) :=
  rows ← getPendingEvents limit;
  mret (rows, toSyncEvent <$> rows).

(** the rows the acknowledgements mark, counted *)
(* edge-client.ts:463-472 flushOutbox, acknowledgements *)
Fixpoint applyAcks (now : string) (sent : list OutboxRecord.t) (acks : list SyncEventAck.t) (syncedCount : Z) : Tx Z :=
  match acks with
  | [] => mret syncedCount
  | ack :: rest =>
      match snd <$> list_find (λ p, OutboxRecord.clientOpId p = SyncEventAck.clientOpId ack) sent with
      | None => applyAcks now sent rest syncedCount
      | Some localRecord =>
          marked ← markSynced verifier now (OutboxRecord.id localRecord) ack;
          applyAcks now sent rest (if marked : bool then syncedCount + 1 else syncedCount)
      end
  end.
End flush.
