(* ===== verification/SyncSpec.v ===== *)
(** The edge and the cloud together: an edge node enqueues events, sends them over a network
    that loses, repeats, delays and reorders, and marks them by the acknowledgements; other
    nodes send to the same cloud. *)
From S2P Require Import Prelude Decimals Money Epochs Json PosTypes EdgeDb CashShift CashShiftRepo AuditTrail Ingestion IngestionSpec EdgeSync.
From Stdlib Require Import Ascii String.

Module Sys.
(** [answers]: what the cloud answered, to whom and for which event *)
Record t {D : Type} := mk { edge : Edge.t; cloud : SyncDb.t D; answers : list (AuthContext.t * SyncEvent.t * ProcessEventResult.t) }.
Arguments t : clear implicits.
Definition initial {D} (d0 : D) : t D := mk D Edge.initial (SyncDb.empty d0) [].
End Sys.

(** ** The log as a record of deliveries *)

Section log_facts.
Context {D : Type}.
Context (handler : Json → SyncEvent.t → D → D * result string Json).
Context (issueReceipt : string → ReceiptIssuanceContext.t → result string CloudTransactionReceipt.t).
Context (d0 : D).

Lemma logged_delivery reqs (db : SyncDb.t D) row :
  core handler issueReceipt d0 reqs db → row ∈ SyncDb.ingested_idempotency_log db →
  ∃ e now auth, streamOf auth e = logStream row ∧ issueReceipt now (issuanceContext auth e) = Ok (IdempotencyRow.receiptPayload row) ∧
    IdempotencyRow.clientOpId row = uuidColumn (SyncEvent.clientOpId e) ∧
    IdempotencyRow.aggregateSequenceNumber row = SyncEvent.aggregateSequenceNumber e ∧
    standsFor reqs (logStream row) (IdempotencyRow.aggregateSequenceNumber row) (IdempotencyRow.action row) (IdempotencyRow.clientOpId row)
      (SyncEvent.payload e).
Proof.
  intros [(applied & _ & Hl) _ _ _ _ _ _ _] [i Hi]%list_elem_of_lookup.
  destruct (Forall2_lookup_r _ _ _ _ _ Hl Hi) as ([e v] & _ & Hrec). unfold recorded in Hrec. simpl in Hrec.
  destruct Hrec as (_ & _ & Hs & Ha & Ho & _ & _ & (now & auth & Hst & Hrc) & Hfor). exists e, now, auth. rewrite Hs, Ha, Ho. by split_and!.
Qed.

(** a position up to the counter is logged *)
Lemma position_logged reqs (db : SyncDb.t D) k n :
  core handler issueReceipt d0 reqs db → 1 <= n <= currentSequence k db →
  ∃ row, row ∈ SyncDb.ingested_idempotency_log db ∧ logStream row = k ∧ IdempotencyRow.aggregateSequenceNumber row = n.
Proof.
  intros Hc Hn. pose proof (core_gapless _ _ _ _ _ Hc k) as Hg.
  assert (Hin : n ∈ streamSequences k (SyncDb.ingested_idempotency_log db)) by (rewrite Hg; apply elem_of_seqZ; lia).
  unfold streamSequences in Hin. apply list_elem_of_fmap in Hin as (row & -> & [Hk Hrow]%list_elem_of_filter). by exists row.
Qed.

Lemma log_position reqs (db : SyncDb.t D) row :
  core handler issueReceipt d0 reqs db → row ∈ SyncDb.ingested_idempotency_log db →
  1 <= IdempotencyRow.aggregateSequenceNumber row <= currentSequence (logStream row) db.
Proof.
  intros Hc Hrow. pose proof (core_gapless _ _ _ _ _ Hc (logStream row)) as Hg.
  assert (Hin : IdempotencyRow.aggregateSequenceNumber row ∈ streamSequences (logStream row) (SyncDb.ingested_idempotency_log db)).
  { unfold streamSequences. apply list_elem_of_fmap. exists row. split; [done|]. by apply list_elem_of_filter. }
  rewrite Hg in Hin. apply elem_of_seqZ in Hin. lia.
Qed.

(** a position no delivery has is never passed *)
Lemma missing_position_blocks reqs (db : SyncDb.t D) k n :
  core handler issueReceipt d0 reqs db → 1 <= n →
  (∀ draws auth ev, (draws, auth, ev) ∈ reqs → streamOf auth ev = k → SyncEvent.aggregateSequenceNumber ev ≠ n) →
  currentSequence k db < n.
Proof.
  intros Hc Hn Hmiss. destruct (decide (currentSequence k db < n)); [done|].
  destruct (position_logged reqs db k n Hc) as (row & Hrow & Hk & Hs); [lia|].
  destruct (logged_delivery _ _ _ Hc Hrow) as (_ & _ & _ & _ & _ & _ & _ & (draws & auth & ev & Hin & Hst & Hseq & _)).
  exfalso. apply (Hmiss draws auth ev Hin); congruence.
Qed.
End log_facts.

(** ** The system *)

Section system.
Context (digest : string → string) {D : Type}.
Context (handler : Json → SyncEvent.t → D → D * result string Json).
Context (issueReceipt : string → ReceiptIssuanceContext.t → result string CloudTransactionReceipt.t).
Context (d0 : D) (encode : OutboxPayload → Json) (verifier : option CloudReceiptVerifier) (auth : AuthContext.t).

Abbreviation ingestion := (ingest digest handler issueReceipt).
Abbreviation event := (toSyncEvent encode).
Definition ownStream (k : Stream) : Prop :=
  fst (fst k) = (uuidColumn (AuthContext.organizationId auth), uuidColumn (AuthContext.branchId auth)).

Definition outboxPosition (r : OutboxRecord.t) := (OutboxRecord.aggregateType r, OutboxRecord.aggregateId r, OutboxRecord.aggregateSequenceNumber r).

(** an event of the node's own tenant, its operation id in lower case, at a free position *)
Definition wellNumbered (input : EnqueueInput.t) (s : Edge.t) : Prop :=
  EnqueueInput.organizationId input = AuthContext.organizationId auth ∧ EnqueueInput.branchId input = AuthContext.branchId auth ∧
  uuidColumn (EnqueueInput.clientOpId input) = EnqueueInput.clientOpId input ∧
  (EnqueueInput.aggregateType input, EnqueueInput.aggregateId input, EnqueueInput.aggregateSequenceNumber input) ∉
    (outboxPosition <$> Db.outbox_queue (Edge.db s)).

(** the receipts the verifier accepts for a row are ones the cloud gave to the row's tenant *)
Definition unforgeable (answers : list (AuthContext.t * SyncEvent.t * ProcessEventResult.t)) : Prop :=
  ∀ row ack receipt, ackAccepted verifier row ack = Some receipt →
    ∃ a ev r, (a, ev, r) ∈ answers ∧ ProcessEventResult.receipt r = Some receipt ∧
      AuthContext.organizationId a = OutboxRecord.organizationId row ∧ AuthContext.branchId a = OutboxRecord.branchId row.

Inductive sync_step : Sys.t D → Sys.t D → Prop :=
| step_enqueue s createdAt input edge' row :
    wellNumbered input (Sys.edge s) → enqueue createdAt input (Sys.edge s) = (edge', Ok row) →
    sync_step s (Sys.mk D edge' (Sys.cloud s) (Sys.answers s))
| step_local s edge' :
    Db.outbox_queue (Edge.db edge') = Db.outbox_queue (Edge.db (Sys.edge s)) →
    sync_step s (Sys.mk D edge' (Sys.cloud s) (Sys.answers s))
| step_deliver s draws row cloud' r :
    row ∈ Db.outbox_queue (Edge.db (Sys.edge s)) → ingestion draws auth (event row) (Sys.cloud s) = (cloud', Ok r) →
    sync_step s (Sys.mk D (Sys.edge s) cloud' (Sys.answers s ++ [(auth, event row, r)]))
| step_foreign s draws a ev cloud' r :
    ¬ ownStream (streamOf a ev) → ingestion draws a ev (Sys.cloud s) = (cloud', Ok r) →
    sync_step s (Sys.mk D (Sys.edge s) cloud' (Sys.answers s ++ [(a, ev, r)]))
| step_ack s now id ack edge' marked :
    unforgeable (Sys.answers s) → markSynced verifier now id ack (Sys.edge s) = (edge', Ok marked) →
    sync_step s (Sys.mk D edge' (Sys.cloud s) (Sys.answers s)).

Definition sync_reach : Sys.t D → Prop := rtc sync_step (Sys.initial d0).

(** ** The invariant *)

(** the log has the operation [op] at position [n] of [k] *)
Definition loggedOp (k : Stream) (n : Z) (op : string) (db : SyncDb.t D) : Prop :=
  ∃ row, row ∈ SyncDb.ingested_idempotency_log db ∧ logStream row = k ∧ IdempotencyRow.aggregateSequenceNumber row = n ∧
    IdempotencyRow.clientOpId row = op.

Definition rowOk (r : OutboxRecord.t) : Prop :=
  OutboxRecord.organizationId r = AuthContext.organizationId auth ∧ OutboxRecord.branchId r = AuthContext.branchId auth ∧
  uuidColumn (OutboxRecord.clientOpId r) = OutboxRecord.clientOpId r ∧ 1 <= OutboxRecord.aggregateSequenceNumber r.

Record sync_ok (s : Sys.t D) : Prop := SyncOk {
  ok_rows : Forall rowOk (Db.outbox_queue (Edge.db (Sys.edge s)));
  ok_ops : NoDup (OutboxRecord.clientOpId <$> Db.outbox_queue (Edge.db (Sys.edge s)));
  ok_ids : NoDup (OutboxRecord.id <$> Db.outbox_queue (Edge.db (Sys.edge s)));
  ok_positions : NoDup (outboxPosition <$> Db.outbox_queue (Edge.db (Sys.edge s)));
  ok_cloud : ∃ reqs, core handler issueReceipt d0 reqs (Sys.cloud s) ∧ quiescent (Sys.cloud s) ∧
    ∀ draws a ev, (draws, a, ev) ∈ reqs → ownStream (streamOf a ev) →
      ∃ row, row ∈ Db.outbox_queue (Edge.db (Sys.edge s)) ∧ ev = event row ∧ streamOf a ev = streamOf auth (event row);
  ok_answers : ∀ a ev r rc, (a, ev, r) ∈ Sys.answers s → ownStream (streamOf a ev) → ProcessEventResult.receipt r = Some rc →
    ∃ row, row ∈ Db.outbox_queue (Edge.db (Sys.edge s)) ∧
      loggedOp (streamOf auth (event row)) (CloudTransactionReceipt.aggregateSequenceNumber rc) (uuidColumn (CloudTransactionReceipt.clientOpId rc)) (Sys.cloud s);
  ok_synced : ∀ row, row ∈ Db.outbox_queue (Edge.db (Sys.edge s)) → OutboxRecord.status row = SYNCED →
    loggedOp (streamOf auth (event row)) (OutboxRecord.aggregateSequenceNumber row) (OutboxRecord.clientOpId row) (Sys.cloud s) }.

Context (issuer_binds : ∀ now c rc, issueReceipt now c = Ok rc →
  CloudTransactionReceipt.clientOpId rc = ReceiptIssuanceContext.clientOpId c ∧
  CloudTransactionReceipt.aggregateSequenceNumber rc = ReceiptIssuanceContext.aggregateSequenceNumber c).

Lemma loggedOp_prefix k n op (db db' : SyncDb.t D) :
  SyncDb.ingested_idempotency_log db `prefix_of` SyncDb.ingested_idempotency_log db' → loggedOp k n op db → loggedOp k n op db'.
Proof. intros Hp (row & Hrow & H). exists row. split; [by eapply elem_of_prefix|done]. Qed.

Lemma row_by_op s r r' : sync_ok s → r ∈ Db.outbox_queue (Edge.db (Sys.edge s)) → r' ∈ Db.outbox_queue (Edge.db (Sys.edge s)) →
  OutboxRecord.clientOpId r = OutboxRecord.clientOpId r' → r = r'.
Proof.
  intros Hok [i Hi]%list_elem_of_lookup [j Hj]%list_elem_of_lookup Heq. assert (i = j) as ->; [|congruence].
  eapply (NoDup_lookup _ _ _ _ (ok_ops _ Hok)); rewrite list_lookup_fmap, ?Hi, ?Hj; [done|]. simpl. by rewrite Heq.
Qed.

(** what a log row of this branch records *)
Lemma logged_row s row : sync_ok s → row ∈ SyncDb.ingested_idempotency_log (Sys.cloud s) → ownStream (logStream row) →
  ∃ r, r ∈ Db.outbox_queue (Edge.db (Sys.edge s)) ∧ logStream row = streamOf auth (event r) ∧
    IdempotencyRow.aggregateSequenceNumber row = OutboxRecord.aggregateSequenceNumber r ∧ IdempotencyRow.action row = OutboxRecord.action r ∧
    IdempotencyRow.clientOpId row = OutboxRecord.clientOpId r.
Proof.
  intros Hok Hrow Hown. destruct (ok_cloud _ Hok) as (reqs & Hc & _ & Hreqs).
  destruct (logged_delivery _ _ _ _ _ _ Hc Hrow) as (_ & _ & _ & _ & _ & _ & _ & (draws & a & ev & Hin & Hst & Hseq & Ha & Ho & _)).
  rewrite <- Hst in Hown. destruct (Hreqs _ _ _ Hin Hown) as (r & Hr & -> & Hk). exists r. cbn -[uuidColumn] in Hseq, Ha, Ho.
  pose proof (ok_rows _ Hok) as Hrows. rewrite Forall_forall in Hrows. destruct (Hrows r Hr) as (_ & _ & Hlow & _).
  split_and!; try done; congruence.
Qed.

Lemma ownStream_own ev : ownStream (streamOf auth ev).
Proof. done. Qed.

Lemma row_by_position s r r' : sync_ok s → r ∈ Db.outbox_queue (Edge.db (Sys.edge s)) → r' ∈ Db.outbox_queue (Edge.db (Sys.edge s)) →
  streamOf auth (event r) = streamOf auth (event r') → OutboxRecord.aggregateSequenceNumber r = OutboxRecord.aggregateSequenceNumber r' → r = r'.
Proof.
  intros Hok [i Hi]%list_elem_of_lookup [j Hj]%list_elem_of_lookup Hs Hn. assert (i = j) as ->; [|congruence].
  eapply (NoDup_lookup _ _ _ (outboxPosition r) (ok_positions _ Hok)); rewrite list_lookup_fmap, ?Hi, ?Hj; [done|]. simpl.
  unfold streamOf in Hs. cbn in Hs. unfold outboxPosition. congruence.
Qed.

(** where the receipt of an answer comes from *)
Lemma processEvent_receipt reqs draws a ev db db' r rc :
  core handler issueReceipt d0 reqs db → quiescent db → (draws, a, ev) ∈ reqs →
  processEvent digest handler issueReceipt draws a ev db = (db', Ok r) → ProcessEventResult.receipt r = Some rc →
  (∃ row, row ∈ SyncDb.ingested_idempotency_log db' ∧ logStream row = streamOf a ev ∧ IdempotencyRow.receiptPayload row = rc) ∨
  (∃ now, issueReceipt now (issuanceContext a ev) = Ok rc ∧ db' = db ∧ 1 <= SyncEvent.aggregateSequenceNumber ev <= currentSequence (streamOf a ev) db).
Proof.
  intros Hcore Hq Hin Hrun Hrc. pose proof Hrun as H. unfold processEvent, issue in H. minv H.
  all: match goal with Hc : checkEvent _ _ _ = _ |- _ => apply checkEvent_ok in Hc as [-> Hadm] end.
  - unfold answerDuplicate in H. minv H. left. simpl_guards. cbn in Hrc. injection Hrc as <-.
    match goal with Hf : findLogged _ _ _ = Some ?x |- _ => rename Hf into Hfound; rename x into row end.
    unfold findLogged in Hfound. destruct (list_find _ _) as [[j row']|] eqn:Hfind; [|discriminate]. injection Hfound as ->.
    apply list_find_Some in Hfind as (Hj & [Horg _] & _). apply list_elem_of_lookup_2 in Hj.
    exists row. split_and!; [done| |done].
    destruct (logged_delivery _ _ _ _ _ _ Hcore Hj) as (e & now & a2 & Hst & _).
    unfold logStream, streamOf in *. assert (uuidColumn (IdempotencyRow.branchId row) = IdempotencyRow.branchId row) as Hb.
    { injection Hst as _ <- _ _. apply uuidColumn_idemp. }
    repeat match goal with H : ¬ (_ ≠ _) |- _ => apply dec_stable in H end. congruence.
  - right. cbn in Hrc. injection Hrc as ->. exists (SyncDraws.now draws). destruct (issueReceipt _ _) as [rc'|]; [|discriminate]. simplify_eq.
    destruct Hadm as (_ & _ & _ & Hpos). apply Z.ltb_lt in Hcond. split_and!; [done|done|lia|lia].
  - unfold bufferEvent in H. minv H. discriminate.
  - left. destruct (processEvent_core _ _ _ _ _ _ _ _ _ _ _ Hcore Hq Hin Hrun) as (_ & _ & _ & Hlog).
    destruct (Hlog eq_refl) as (key & stored & rc' & _ & Hrow & Hrc' & _). eexists. split; [exact Hrow|]. split; [done|].
    rewrite Hrc in Hrc'. by injection Hrc' as ->.
Qed.

(** *** Steps *)

Lemma ingestion_core reqs draws a ev db db' r :
  core handler issueReceipt d0 reqs db → quiescent db → (draws, a, ev) ∈ reqs → ingestion draws a ev db = (db', Ok r) →
  core handler issueReceipt d0 reqs db' ∧ quiescent db' ∧ SyncDb.ingested_idempotency_log db `prefix_of` SyncDb.ingested_idempotency_log db' ∧
  processEvent digest handler issueReceipt draws a ev db = (db', Ok r).
Proof.
  intros Hc Hq Hin H. unfold ingest in H. destruct (processEvent _ _ _ _ _ _ _) as [db1 [r1|]] eqn:Hrun; [|discriminate]. injection H as <- <-.
  destruct (processEvent_core _ _ _ _ _ _ _ _ _ _ _ Hc Hq Hin Hrun) as (? & ? & ? & _). by split_and!.
Qed.

(** a delivery keeps the invariant, but for the answer it adds *)
Lemma deliver_ok s draws a ev cloud' r :
  sync_ok s → ingestion draws a ev (Sys.cloud s) = (cloud', Ok r) →
  (ownStream (streamOf a ev) → ∃ row, row ∈ Db.outbox_queue (Edge.db (Sys.edge s)) ∧ ev = event row ∧ streamOf a ev = streamOf auth (event row)) →
  sync_ok (Sys.mk D (Sys.edge s) cloud' (Sys.answers s)) ∧ SyncDb.ingested_idempotency_log (Sys.cloud s) `prefix_of` SyncDb.ingested_idempotency_log cloud'.
Proof.
  intros Hok Hrun Hev. destruct (ok_cloud _ Hok) as (reqs & Hc & Hq & Hreqs).
  destruct (ingestion_core ((draws, a, ev) :: reqs) draws a ev (Sys.cloud s) cloud' r) as (Hc' & Hq' & Hp & _);
    [eapply core_incl; [|exact Hc]; set_solver|done|by left|done|].
  split; [|done]. constructor; try apply Hok.
  - exists ((draws, a, ev) :: reqs). split_and!; [done|done|]. intros draws1 a1 ev1 [[= -> -> ->]|Hin]%elem_of_cons Hown; [by apply Hev|by eapply Hreqs].
  - intros a1 ev1 r1 rc Hin Hown Hrc. destruct (ok_answers _ Hok a1 ev1 r1 rc Hin Hown Hrc) as (row & Hrow & Hl). exists row. split; [done|].
    by eapply loggedOp_prefix.
  - intros row Hrow Hst. eapply loggedOp_prefix; [exact Hp|]. by apply (ok_synced _ Hok).
Qed.

Lemma own_answer_ok s draws row cloud' r rc :
  sync_ok s → row ∈ Db.outbox_queue (Edge.db (Sys.edge s)) → ingestion draws auth (event row) (Sys.cloud s) = (cloud', Ok r) →
  sync_ok (Sys.mk D (Sys.edge s) cloud' (Sys.answers s)) → ProcessEventResult.receipt r = Some rc →
  loggedOp (streamOf auth (event row)) (CloudTransactionReceipt.aggregateSequenceNumber rc) (uuidColumn (CloudTransactionReceipt.clientOpId rc)) cloud'.
Proof.
  intros Hok Hrow Hrun Hok' Hrc. destruct (ok_cloud _ Hok) as (reqs & Hc & Hq & Hreqs).
  assert (Hc1 : core handler issueReceipt d0 ((draws, auth, event row) :: reqs) (Sys.cloud s)) by (eapply core_incl; [|exact Hc]; set_solver).
  destruct (ingestion_core _ draws auth (event row) (Sys.cloud s) cloud' r Hc1 Hq) as (Hc' & _ & _ & Hproc); [by left|done|].
  eapply processEvent_receipt in Hproc as [(lrow & Hl & Hk & Hpay)|(now & Hissue & -> & Hpos)]; try done; [| |by left].
  - destruct (logged_delivery _ _ _ _ _ _ Hc' Hl) as (e & now & a2 & Hst & Hissue & Ho & Hs & _). rewrite Hpay in Hissue.
    destruct (issuer_binds _ _ _ Hissue) as [Hop Hseq]. exists lrow. split_and!; [done|done| |]; rewrite ?Hseq, ?Hop; done.
  - destruct (issuer_binds _ _ _ Hissue) as [Hop Hseq]. cbn in Hpos, Hop, Hseq.
    destruct (position_logged _ _ _ _ _ _ _ Hc Hpos) as (lrow & Hl & Hk & Hn).
    destruct (logged_row _ lrow Hok' Hl) as (r' & Hr' & Hk' & Hn' & _ & Ho'); [by rewrite Hk|]. simpl in Hr'.
    assert (r' = row) as ->. { eapply (row_by_position s); try done; congruence. }
    pose proof (ok_rows _ Hok) as Hrows. rewrite Forall_forall in Hrows. destruct (Hrows row Hrow) as (_ & _ & Hlow & _).
    exists lrow. rewrite Hop, Hseq. split_and!; try done. by rewrite Hlow.
Qed.

Lemma answers_snoc s a ev r :
  sync_ok s → (∀ rc, ownStream (streamOf a ev) → ProcessEventResult.receipt r = Some rc →
    ∃ row, row ∈ Db.outbox_queue (Edge.db (Sys.edge s)) ∧
      loggedOp (streamOf auth (event row)) (CloudTransactionReceipt.aggregateSequenceNumber rc) (uuidColumn (CloudTransactionReceipt.clientOpId rc)) (Sys.cloud s)) →
  sync_ok (Sys.mk D (Sys.edge s) (Sys.cloud s) (Sys.answers s ++ [(a, ev, r)])).
Proof.
  intros Hok Hnew. constructor; try apply Hok. cbn. intros a1 ev1 r1 rc [Hin|[= -> -> ->]%list_elem_of_singleton]%elem_of_app Hown Hrc.
  - by eapply (ok_answers _ Hok).
  - by apply Hnew.
Qed.

(** the edge moves; the rows keep their identity *)
Lemma edge_ok s edge' :
  sync_ok s → Db.outbox_queue (Edge.db edge') = Db.outbox_queue (Edge.db (Sys.edge s)) → sync_ok (Sys.mk D edge' (Sys.cloud s) (Sys.answers s)).
Proof. intros [] Heq. by constructor; cbn; rewrite ?Heq. Qed.

Lemma enqueue_step_ok s createdAt input edge' row :
  sync_ok s → wellNumbered input (Sys.edge s) → enqueue createdAt input (Sys.edge s) = (edge', Ok row) →
  sync_ok (Sys.mk D edge' (Sys.cloud s) (Sys.answers s)).
Proof.
  intros Hok (Horg & Hbr & Hlow & Hpos) (-> & (_ & Hseq) & Hid & Hop & ->)%enqueue_ok. destruct Hok as [Hr Ho Hi Hp Hc Ha Hs].
  assert (Hsub : ∀ r, r ∈ Db.outbox_queue (Edge.db (Sys.edge s)) → r ∈ Db.outbox_queue (Edge.db (Sys.edge s)) ++ [outbox_row createdAt input])
    by (intros r Hin; apply elem_of_app; by left).
  constructor; cbn.
  - apply Forall_app. split; [done|]. constructor; [|constructor]. unfold rowOk. cbn. split_and!; try done. lia.
  - rewrite fmap_app. by apply NoDup_snoc.
  - rewrite fmap_app. by apply NoDup_snoc.
  - rewrite fmap_app. by apply NoDup_snoc.
  - destruct Hc as (reqs & Hc & Hq & Hreqs). exists reqs. split_and!; [done|done|]. intros draws a ev Hin Hown.
    destruct (Hreqs draws a ev Hin Hown) as (r & Hr' & H). exists r. split; [by apply Hsub|done].
  - intros a ev r rc Hin Hown Hrc. destruct (Ha a ev r rc Hin Hown Hrc) as (r' & Hr' & H). exists r'. split; [by apply Hsub|done].
  - intros r [Hin| ->%list_elem_of_singleton]%elem_of_app Hst; [by apply Hs|discriminate].
Qed.

Definition marking (id now : string) (receipt : CloudTransactionReceipt.t) (r : OutboxRecord.t) : OutboxRecord.t :=
  if decide (OutboxRecord.id r = id) then syncedRow receipt now r else r.

Lemma marking_keeps {A} (f : OutboxRecord.t → A) id now receipt r : (∀ r, f (syncedRow receipt now r) = f r) → f (marking id now receipt r) = f r.
Proof. intros Hf. unfold marking. by case_decide. Qed.

Lemma fmap_marking {A} (f : OutboxRecord.t → A) id now receipt (l : list OutboxRecord.t) :
  (∀ r, f (syncedRow receipt now r) = f r) → f <$> (marking id now receipt <$> l) = f <$> l.
Proof. intros Hf. rewrite <- list_fmap_compose. apply list_fmap_ext. intros i r _. by apply marking_keeps. Qed.

Lemma markSynced_ok now id ack s s' b :
  markSynced verifier now id ack s = (s', Ok b) →
  Db.outbox_queue (Edge.db s') = Db.outbox_queue (Edge.db s) ∨
  ∃ row receipt, row ∈ Db.outbox_queue (Edge.db s) ∧ OutboxRecord.id row = id ∧ ackAccepted verifier row ack = Some receipt ∧
    Db.outbox_queue (Edge.db s') = marking id now receipt <$> Db.outbox_queue (Edge.db s).
Proof.
  unfold markSynced. rewrite bind_query. destruct (outboxRow id (Edge.db s)) as [row|] eqn:Hrow; [|intros [= <- _]; by left].
  destruct (ackAccepted verifier row ack) as [receipt|] eqn:Hacc; [|intros [= <- _]; by left]. rewrite runInTransaction_None. intros H.
  destruct (Edge.inTransaction s) eqn:Htx; [by rewrite executeTx_nested in H|].
  apply executeTx_spec in H as (s2 & Hrun & _ & _ & Hdb); [|done].
  rewrite bind_exec, bind_query in Hrun. injection Hrun as <- _. right. exists row, receipt.
  unfold outboxRow in Hrow. destruct (list_find _ _) as [[i r]|] eqn:Hf; [|discriminate]. injection Hrow as ->.
  apply list_find_Some in Hf as (Hi & Hid & _). split_and!; [by eapply list_elem_of_lookup_2|done|done|]. by rewrite Hdb.
Qed.

Lemma accepted_receipt row ack receipt : ackAccepted verifier row ack = Some receipt →
  CloudTransactionReceipt.clientOpId receipt = OutboxRecord.clientOpId row ∧
  CloudTransactionReceipt.aggregateSequenceNumber receipt = OutboxRecord.aggregateSequenceNumber row.
Proof.
  unfold ackAccepted. intros H. repeat case_match; try discriminate. simplify_eq.
  simpl_guards. done.
Qed.

Lemma ack_step_ok s now id ack edge' b :
  sync_ok s → unforgeable (Sys.answers s) → markSynced verifier now id ack (Sys.edge s) = (edge', Ok b) →
  sync_ok (Sys.mk D edge' (Sys.cloud s) (Sys.answers s)).
Proof.
  intros Hok Hunf [Heq|(row & receipt & Hrow & Hid & Hacc & Heq)]%markSynced_ok; [by apply edge_ok|].
  pose proof (ok_rows _ Hok) as Hrows. rewrite Forall_forall in Hrows. destruct (Hrows row Hrow) as (Horg & Hbr & Hlow & _).
  assert (Hnew : loggedOp (streamOf auth (event row)) (OutboxRecord.aggregateSequenceNumber row) (OutboxRecord.clientOpId row) (Sys.cloud s)).
  { destruct (Hunf row ack receipt Hacc) as (a & ev & r & Hans & Hrc & Ha & Hb). rewrite Horg in Ha. rewrite Hbr in Hb.
    assert (Hown : ownStream (streamOf a ev)) by (unfold ownStream, streamOf; cbn -[uuidColumn]; by rewrite Ha, Hb).
    destruct (ok_answers _ Hok a ev r receipt Hans Hown Hrc) as (row1 & _ & (lrow & Hl & Hk & Hs & Ho)).
    destruct (accepted_receipt row ack receipt Hacc) as [Hop Hseq]. rewrite Hop, Hlow in Ho. rewrite Hseq in Hs.
    destruct (logged_row s lrow Hok Hl) as (row2 & Hrow2 & Hk2 & _ & _ & Ho2); [by rewrite Hk|].
    assert (row2 = row) as -> by (eapply row_by_op; try done; congruence). by exists lrow. }
  assert (Hkeep : ∀ r, r ∈ Db.outbox_queue (Edge.db (Sys.edge s)) → marking id now receipt r ∈ Db.outbox_queue (Edge.db edge')).
  { intros r Hr. rewrite Heq. by apply list_elem_of_fmap_2. }
  assert (Hevent : ∀ r, event (marking id now receipt r) = event r) by (intros r; by apply marking_keeps).
  destruct Hok as [Hr Ho Hi Hp Hc Ha Hs]. constructor; cbn.
  - rewrite Heq. apply Forall_fmap. eapply Forall_impl; [exact Hr|]. intros r. unfold compose. unfold marking. by case_decide.
  - by rewrite Heq, fmap_marking.
  - by rewrite Heq, fmap_marking.
  - by rewrite Heq, fmap_marking.
  - destruct Hc as (reqs & Hc & Hq & Hreqs). exists reqs. split_and!; [done|done|]. intros draws a ev Hin Hown.
    destruct (Hreqs draws a ev Hin Hown) as (r & Hr' & H). exists (marking id now receipt r). split; [by apply Hkeep|by rewrite Hevent].
  - intros a ev r rc Hin Hown Hrc. destruct (Ha a ev r rc Hin Hown Hrc) as (r' & Hr' & H). exists (marking id now receipt r').
    split; [by apply Hkeep|by rewrite Hevent].
  - intros r' Hr' Hst. rewrite Heq in Hr'. apply list_elem_of_fmap in Hr' as (r & -> & Hin). rewrite Hevent.
    rewrite (marking_keeps OutboxRecord.aggregateSequenceNumber), (marking_keeps OutboxRecord.clientOpId) by done.
    unfold marking in Hst. case_decide as Hd; [|by apply Hs].
    assert (r = row) as ->; [|done]. apply list_elem_of_lookup in Hin as [i Hi1], Hrow as [j Hj1]. assert (i = j) as ->; [|congruence].
    eapply (NoDup_lookup _ _ _ id Hi); rewrite list_lookup_fmap, ?Hi1, ?Hj1; simpl; congruence.
Qed.

Lemma sync_step_ok s s' : sync_ok s → sync_step s s' → sync_ok s'.
Proof.
  intros Hok Hstep. revert Hok.
  destruct Hstep as [s1 t input edge' row Hw He|s1 edge' Heq|s1 draws row cloud' r Hrow Hrun|s1 draws a ev cloud' r Hf Hrun|s1 now id ack edge' b Hunf Hm]; intros Hok.
  - by eapply enqueue_step_ok.
  - by apply edge_ok.
  - destruct (deliver_ok _ _ _ _ _ _ Hok Hrun) as [Hok' _]; [intros _; by exists row|].
    apply (answers_snoc _ _ _ _ Hok'). intros rc _ Hrc. exists row. split; [done|]. exact (own_answer_ok _ _ _ _ _ _ Hok Hrow Hrun Hok' Hrc).
  - destruct (deliver_ok _ _ _ _ _ _ Hok Hrun) as [Hok' _]; [done|]. by apply (answers_snoc _ _ _ _ Hok').
  - by eapply ack_step_ok.
Qed.

Lemma sync_reach_ok s : sync_reach s → sync_ok s.
Proof.
  intros H. unfold sync_reach in H. assert (Hinit : sync_ok (Sys.initial d0)).
  { constructor; cbn; try constructor; try (by intros ? ?%not_elem_of_nil); [|by intros ? ? ? ? ?%not_elem_of_nil].
    destruct (core_empty handler issueReceipt d0 []) as [Hc Hq]. exists []. split_and!; [done|done|by intros ? ? ? ?%not_elem_of_nil]. }
  revert Hinit. induction H as [|s1 s2 s3 Hstep _ IH]; [done|]. intros Hok. apply IH. by eapply sync_step_ok.
Qed.
End system.

(** ** A position that is missing *)

Lemma no_receipt digest {D} handler issueReceipt draws auth ev (db db' : SyncDb.t D) r :
  processEvent digest handler issueReceipt draws auth ev db = (db', Ok r) → ProcessEventResult.receipt r = None →
  ProcessEventResult.status r = SyncAckStatus.REQUIRES_RECONCILIATION.
Proof.
  intros H Hrc. unfold processEvent, answerDuplicate, bufferEvent in H. minv H; try discriminate. done.
Qed.

(** a stream whose first position is never delivered stays empty *)
Lemma headless_stream digest {D} handler issueReceipt (d0 : D) l draws auth ev :
  SyncEvent.aggregateSequenceNumber ev ≠ 1 →
  (∀ d a e, (d, a, e) ∈ l → streamOf a e = streamOf auth ev → SyncEvent.aggregateSequenceNumber e ≠ 1) →
  let db := foldl (deliver handler issueReceipt digest) (SyncDb.empty d0) l in
  (∀ row, row ∈ SyncDb.ingested_idempotency_log db → logStream row ≠ streamOf auth ev) ∧
  match snd (ingest digest handler issueReceipt draws auth ev db) with
  | Ok r => ProcessEventResult.status r = SyncAckStatus.REQUIRES_RECONCILIATION
  | Err _ => True
  end.
Proof.
  intros Hev Hmiss db. set (reqs := (draws, auth, ev) :: l). destruct (core_empty handler issueReceipt d0 reqs) as [Hc Hq].
  destruct (deliverAll_core handler issueReceipt d0 digest l reqs (SyncDb.empty d0) Hc Hq) as (Hc' & Hq' & _); [set_solver|]. fold db in Hc', Hq'.
  assert (Hmiss' : ∀ d a e, (d, a, e) ∈ reqs → streamOf a e = streamOf auth ev → SyncEvent.aggregateSequenceNumber e ≠ 1).
  { intros d a e [[= -> -> ->]|Hin]%elem_of_cons Hk; [done|by eapply Hmiss]. }
  assert (Hnone : ∀ db1 : SyncDb.t D, core handler issueReceipt d0 reqs db1 →
    ∀ row, row ∈ SyncDb.ingested_idempotency_log db1 → logStream row ≠ streamOf auth ev).
  { intros db1 Hc1 row Hrow Hk. pose proof (missing_position_blocks handler issueReceipt d0 reqs db1 (streamOf auth ev) 1 Hc1 ltac:(lia) Hmiss').
    pose proof (log_position _ _ _ _ _ _ Hc1 Hrow) as Hp. rewrite Hk in Hp. lia. }
  split; [by apply Hnone|]. destruct (ingest digest handler issueReceipt draws auth ev db) as [db' [r|e]] eqn:Hrun; [|done]. simpl.
  destruct (ingestion_core digest handler issueReceipt d0 reqs draws auth ev db db' r Hc' Hq') as (Hc2 & _ & _ & Hproc); [by left|done|].
  destruct (ProcessEventResult.receipt r) as [rc|] eqn:Hrc; [|by eapply no_receipt].
  destruct (processEvent_receipt digest handler issueReceipt d0 reqs draws auth ev db db' r rc Hc' Hq') as [(row & Hrow & Hk & _)|(now & _ & _ & Hpos)];
    [by left|done|done| |].
  - by destruct (Hnone db' Hc2 row Hrow).
  - destruct (position_logged handler issueReceipt d0 reqs db (streamOf auth ev) _ Hc' Hpos) as (row & Hrow & Hk & _). by destruct (Hnone db Hc' row Hrow).
Qed.

(** ** Properties *)

(** C15: a row the edge marks SYNCED is applied in the cloud.  The node enqueues events of its
    tenant, sends any of its rows at any time, any number of times and in any order, other
    tenants send what they like, and rows are marked by whatever acknowledgements arrive.  If
    the issuer binds its receipts to the operation and position, the verifier accepts only
    receipts the cloud gave to the tenant, operation identifiers are in lower case and no two
    rows of one aggregate share a position, then every SYNCED row has its operation logged in
    the cloud, in its stream, at its position and under its action. *)
Theorem synced_means_applied digest {D} handler issueReceipt (d0 : D) encode verifier auth s row :
  (∀ now c rc, issueReceipt now c = Ok rc →
    CloudTransactionReceipt.clientOpId rc = ReceiptIssuanceContext.clientOpId c ∧
    CloudTransactionReceipt.aggregateSequenceNumber rc = ReceiptIssuanceContext.aggregateSequenceNumber c) →
  sync_reach digest handler issueReceipt d0 encode verifier auth s →
  row ∈ Db.outbox_queue (Edge.db (Sys.edge s)) → OutboxRecord.status row = SYNCED →
  ∃ lrow, lrow ∈ SyncDb.ingested_idempotency_log (Sys.cloud s) ∧ logStream lrow = streamOf auth (toSyncEvent encode row) ∧
    IdempotencyRow.aggregateSequenceNumber lrow = OutboxRecord.aggregateSequenceNumber row ∧
    IdempotencyRow.action lrow = OutboxRecord.action row ∧ IdempotencyRow.clientOpId lrow = OutboxRecord.clientOpId row.
Proof.
  intros Hbinds Hreach Hrow Hst. apply sync_reach_ok in Hreach as Hok; [|exact Hbinds].
  destruct (ok_synced _ _ _ _ _ _ Hok row Hrow Hst) as (lrow & Hl & Hk & Hs & Ho).
  destruct (logged_row _ _ _ _ _ _ lrow Hok Hl) as (r & Hr & _ & _ & Ha & Ho'); [by rewrite Hk|].
  assert (r = row) as -> by (eapply row_by_op; try done; congruence). by exists lrow.
Qed.

(** C17: the Corte Z of a later shift never reaches the cloud.  Its outbox event opens a stream
    of its own (the aggregate is the corte) at the position of the shift's number.  From the
    second shift on that position is not 1, so if nothing else is sent for that aggregate,
    whatever is delivered, the cloud logs no row of the stream, and every delivery of the event
    is refused or answered REQUIRES_RECONCILIATION. *)
Theorem late_corte_z_waits_forever digest {D} handler issueReceipt (d0 : D) encode auth draws corte shift createdAt l draws' :
  let event := toSyncEvent encode (outbox_row createdAt (SqliteShifts.corteEvent draws corte shift)) in
  2 <= TurnoCaja.shiftNumber shift →
  (∀ d a e, (d, a, e) ∈ l → streamOf a e = streamOf auth event → e = event) →
  let db := foldl (deliver handler issueReceipt digest) (SyncDb.empty d0) l in
  (∀ row, row ∈ SyncDb.ingested_idempotency_log db → logStream row ≠ streamOf auth event) ∧
  match snd (ingest digest handler issueReceipt draws' auth event db) with
  | Ok r => ProcessEventResult.status r = SyncAckStatus.REQUIRES_RECONCILIATION
  | Err _ => True
  end.
Proof.
  intros event Hshift Honly db.
  assert (Hseq : SyncEvent.aggregateSequenceNumber event ≠ 1).
  { cbn. destruct (Z.leb_spec 1 (TurnoCaja.shiftNumber shift)); lia. }
  apply headless_stream; [done|]. intros d a e Hin Hk. by rewrite (Honly d a e Hin Hk).
Qed.

(** ** Witnesses *)

Definition exampleEncode (p : OutboxPayload) : Json := JNull.
Definition syncInput : EnqueueInput.t :=
  EnqueueInput.mk "o1" (AuthContext.organizationId exampleAuth) (AuthContext.branchId exampleAuth) "CUENTA" "c1" "OPEN_CUENTA" op1 1
    (OpenCuentaPayload "c1" None COMEDOR).
Definition syncRow : OutboxRecord.t := outbox_row "2026-01-01" syncInput.
Definition syncReceipt : CloudTransactionReceipt.t := CloudTransactionReceipt.mk "receipt" "2026-01-01T00:00:00.000Z" "signature" op1 1.
Definition syncEdge : Edge.t := fst (enqueue "2026-01-01" syncInput Edge.initial).
Definition syncRun : SyncDb.t (list Z) * result SyncError ProcessEventResult.t :=
  ingest (λ s, s) exampleHandler exampleIssuer (drawn "b1") exampleAuth (toSyncEvent exampleEncode syncRow) (SyncDb.empty []).
Definition syncAnswer : ProcessEventResult.t :=
  ProcessEventResult.mk SyncAckStatus.APPLIED (Some syncReceipt) (JNumber 0) None (Some 0) false.
Definition syncAck : SyncEventAck.t := SyncEventAck.mk op1 "CUENTA" "c1" 1 SyncAckStatus.APPLIED (Some syncReceipt).
(** a verifier that knows the one receipt the cloud gave *)
Definition syncVerifier : CloudReceiptVerifier := λ rc c,
  Sync (bool_decide (rc = syncReceipt ∧ ReceiptIssuanceContext.organizationId c = AuthContext.organizationId exampleAuth ∧
                     ReceiptIssuanceContext.branchId c = AuthContext.branchId exampleAuth)).
Definition syncMarked : Edge.t * result PosError bool := markSynced (Some syncVerifier) "2026-01-02" "o1" syncAck syncEdge.
Definition syncEnd : Sys.t (list Z) := Sys.mk (list Z) (fst syncMarked) (fst syncRun) [(exampleAuth, toSyncEvent exampleEncode syncRow, syncAnswer)].

Lemma syncEnd_reached : sync_reach (λ s, s) exampleHandler exampleIssuer [] exampleEncode (Some syncVerifier) exampleAuth syncEnd.
Proof.
  eapply rtc_l; [|eapply rtc_l; [|eapply rtc_l; [|constructor]]].
  - apply (step_enqueue _ _ _ _ _ _ (Sys.initial []) "2026-01-01" syncInput syncEdge syncRow).
    + split_and!; [done|done|by vm_compute|]. apply not_elem_of_nil.
    + by vm_compute.
  - apply (step_deliver _ _ _ _ _ _ (Sys.mk _ syncEdge (SyncDb.empty []) []) (drawn "b1") syncRow (fst syncRun) syncAnswer).
    + by apply (bool_decide_unpack _).
    + change (syncRun = (fst syncRun, Ok syncAnswer)). assert (Hr : snd syncRun = Ok syncAnswer) by by vm_compute.
      rewrite <- Hr. by destruct syncRun.
  - apply (step_ack _ _ _ _ _ _ (Sys.mk _ syncEdge (fst syncRun) [(exampleAuth, toSyncEvent exampleEncode syncRow, syncAnswer)])
      "2026-01-02" "o1" syncAck (fst syncMarked) true).
    + intros row ack receipt Hacc. unfold ackAccepted, syncVerifier in Hacc. repeat case_match; try discriminate. simplify_eq.
      match goal with Hv : bool_decide _ = true |- _ => apply bool_decide_eq_true in Hv as (-> & Ho & Hb) end.
      exists exampleAuth, (toSyncEvent exampleEncode syncRow), syncAnswer. split_and!; [by left|done|by rewrite <- Ho|by rewrite <- Hb].
    + by vm_compute.
Qed.

Lemma synced_means_applied_witness :
  ∃ lrow, lrow ∈ SyncDb.ingested_idempotency_log (fst syncRun) ∧ IdempotencyRow.clientOpId lrow = op1 ∧
    IdempotencyRow.action lrow = "OPEN_CUENTA".
Proof.
  destruct (synced_means_applied (λ s, s) exampleHandler exampleIssuer [] exampleEncode (Some syncVerifier) exampleAuth syncEnd
    (syncedRow syncReceipt "2026-01-02" syncRow)) as (lrow & Hl & _ & _ & Ha & Ho).
  - intros now c rc [= <-]. done.
  - exact syncEnd_reached.
  - apply (bool_decide_unpack _). by vm_compute.
  - done.
  - exists lrow. split_and!; [exact Hl|exact Ho|exact Ha].
Defined.

Definition lateShift : TurnoCaja.t :=
  TurnoCaja.mk "s2" (AuthContext.organizationId exampleAuth) (AuthContext.branchId exampleAuth) "st" "u" "u" 2 0 (Some 0) (Some 0) (Some 0)
    CORTE_Z_EMITIDO "TURNO_FIJO" [] "2026-01-01" None 3 "2026-01-01".
Definition lateCorte : CorteCaja.t := CorteCaja.mk op1 "s2" CORTE_Z_TIPO "u" 0 0 0 0 0 (Some 0) (Some 0) [] "2026-01-01".
Definition lateEvent : SyncEvent.t :=
  toSyncEvent exampleEncode (outbox_row "2026-01-01" (SqliteShifts.corteEvent (SqliteShifts.Draws.mk "a" "o" op2 "t") lateCorte lateShift)).

(** delivered twice, the Corte Z of the second shift is still in the buffer *)
Definition lateDeliveries := [(drawn "b1", exampleAuth, lateEvent); (drawn "b2", exampleAuth, lateEvent)].

Lemma late_corte_z_waits_forever_witness :
  Forall (λ row, logStream row ≠ streamOf exampleAuth lateEvent)
    (SyncDb.ingested_idempotency_log (foldl (deliver exampleHandler exampleIssuer (λ s, s)) (SyncDb.empty []) lateDeliveries)).
Proof.
  pose proof (late_corte_z_waits_forever (λ s, s) exampleHandler exampleIssuer [] exampleEncode exampleAuth
    (SqliteShifts.Draws.mk "a" "o" op2 "t") lateCorte lateShift "2026-01-01" lateDeliveries (drawn "b3")) as H.
  destruct H as [H _]; [done| |by apply Forall_forall]. intros d a e Hin _. unfold lateDeliveries in Hin. rewrite !elem_of_cons in Hin.
  destruct Hin as [[= _ _ ->]|[[= _ _ ->]|Hin]]; [done|done|by apply not_elem_of_nil in Hin].
Defined.
