(* ===== verification/Dispatch.v ===== *)
(** The dispatch of the cloud's integration outbox: CloudIntegrationOutboxService of
    database/src/outbox/cloud-integration-outbox.ts over the tables of migration
    20260904210000.

    Times are whole milliseconds and [NOW()] an argument.  An operation is one statement or, for
    a failure, statements on a row it has locked; each is one step on the tables, in a
    transaction of the caller.  The rows other transactions hold are an argument of a claim
    (SKIP LOCKED).  The workers that call the service are not in the source.  The identifiers
    they pass are the ones a claim returned.  The JSON context of a dead letter and fractional
    delays and multipliers are not modelled. *)
From S2P Require Import Prelude Json AuditTrail Ingestion.
From Stdlib Require Import Ascii String.

Module OutboxStatusCloud.
(* outbox types.ts:60-60 CloudIntegrationOutboxRecord *)
Inductive t := PENDING | PROCESSING | PUBLISHED | FAILED | DLQ.
#[global] Instance eq_dec : EqDecision t.
Proof. solve_decision. Defined.
End OutboxStatusCloud.

Module IntegrationEvent.
(* outbox types.ts:52-70 CloudIntegrationOutboxRecord *)
Record t := mk {
  id : string; organizationId : string; branchId : option string; eventType : string; aggregateType : string; aggregateId : string;
  payload : Json; status : OutboxStatusCloud.t; retryCount : Z; deliveryAttempts : Z; maxRetries : Z; nextRetryAt : Z;
  lastError : option string; lockId : option string; lockedAt : option Z; createdAt : Z; publishedAt : option Z }.
#[global] Instance eta_t : Eta t := λ r,
  mk (id r) (organizationId r) (branchId r) (eventType r) (aggregateType r) (aggregateId r) (payload r) (status r) (retryCount r)
    (deliveryAttempts r) (maxRetries r) (nextRetryAt r) (lastError r) (lockId r) (lockedAt r) (createdAt r) (publishedAt r).
End IntegrationEvent.

Module DeadLetter.
(* outbox types.ts:72-87 CloudIntegrationDLQRecord *)
Record t := mk {
  id : string; organizationId : string; branchId : option string; originatingOutboxId : string; eventType : string;
  aggregateType : string; aggregateId : string; rawPayload : Json; errorCode : string; errorMessage : string; errorTrace : option string;
  retryCount : Z; movedToDlqAt : Z }.
End DeadLetter.

Module IntegrationInput.
(* outbox types.ts:89-97 EnqueueIntegrationEventInput *)
Record t := mk {
  organizationId : string; branchId : option string; eventType : string; aggregateType : string; aggregateId : string; payload : Json;
  maxRetries : option Z }.
End IntegrationInput.

Module DispatchDb.
Record t := mk { outbox : list IntegrationEvent.t; dlq : list DeadLetter.t }.
#[global] Instance eta_t : Eta t := λ d, mk (outbox d) (dlq d).
Definition empty : t := mk [] [].
End DispatchDb.

Inductive DispatchError :=
| InvalidMaxRetries
| StaleClaim
| EventNotFound
| DispatchPg (constraint : string)
| DispatchJson (e : SyncError).

(** an [Error] of a delivery: its message and stack *)
Module DeliveryError.
Record t := mk { message : string; stack : option string }.
End DeliveryError.

Abbreviation DTx := (M DispatchDb.t DispatchError).

(* sync-contracts.ts:271-271 CANONICAL_MAX_RETRIES *)
Definition CANONICAL_MAX_RETRIES : Z := 5.

Module ExponentialBackoff.
(* sync-contracts.ts:278-299 ExponentialBackoffPolicy *)
Record t := mk { baseDelayMs : Z; maxDelayMs : Z; multiplier : Z; deterministic : bool }.
End ExponentialBackoff.

(** [jitter] is the drawn part, a function of the capped delay *)
(* sync-contracts.ts:301-315 ExponentialBackoffPolicy.getDelayMs *)
Definition getDelayMs (jitter : Z → Z) (policy : ExponentialBackoff.t) (retryCount : Z) : Z :=
  if retryCount <=? 0 then 0 else
  let exponential := ExponentialBackoff.baseDelayMs policy * ExponentialBackoff.multiplier policy ^ (retryCount - 1) in
  let capped := Z.min exponential (ExponentialBackoff.maxDelayMs policy) in
  if ExponentialBackoff.deterministic policy then capped
  else Z.min (Z.max (capped + jitter capped) 0) (ExponentialBackoff.maxDelayMs policy).

(** INTERVAL '2 minutes' *)
Definition LEASE : Z := 120000.

Definition eventById (id : string) (d : DispatchDb.t) : option IntegrationEvent.t :=
  snd <$> list_find (λ r, IntegrationEvent.id r = id) (DispatchDb.outbox d).

(* cloud-integration-outbox.ts:26-86 enqueue *)
Definition enqueueIntegration (id : string) (now : Z) (input : IntegrationInput.t) : DTx IntegrationEvent.t :=
  throw_when (match IntegrationInput.maxRetries input with Some n => negb (n =? CANONICAL_MAX_RETRIES) | None => false end) InvalidMaxRetries ;;
  payload ← lift (match jsonb (IntegrationInput.payload input) with Ok v => Ok v | Err e => Err (DispatchJson e) end);
  throw_when (negb (fits 100 (IntegrationInput.eventType input) && fits 100 (IntegrationInput.aggregateType input) &&
    fits 100 (IntegrationInput.aggregateId input))) (DispatchPg "value too long") ;;
  rows ← gets DispatchDb.outbox;
  throw_when (bool_decide (id ∈ (IntegrationEvent.id <$> rows))) (DispatchPg "cloud_integration_outbox_pkey") ;;
  let row := IntegrationEvent.mk id (IntegrationInput.organizationId input) (IntegrationInput.branchId input) (IntegrationInput.eventType input)
    (IntegrationInput.aggregateType input) (IntegrationInput.aggregateId input) payload OutboxStatusCloud.PENDING 0 0 CANONICAL_MAX_RETRIES now
    None None None now None in
  modify (λ d, d <| DispatchDb.outbox ::= λ l, l ++ [row] |>) ;;
  mret row.

(** the candidates of a claim *)
(* cloud-integration-outbox.ts:98-108 claimBatch, candidates *)
Definition claimable (busy : list string) (now : Z) (r : IntegrationEvent.t) : Prop :=
  IntegrationEvent.status r ∈ [OutboxStatusCloud.PENDING; OutboxStatusCloud.PROCESSING] ∧
  IntegrationEvent.nextRetryAt r <= now ∧
  match IntegrationEvent.lockedAt r with None => True | Some t => t < now - LEASE end ∧
  IntegrationEvent.id r ∉ busy.
#[global] Instance claimable_dec busy now r : Decision (claimable busy now r).
Proof. unfold claimable. destruct (IntegrationEvent.lockedAt r); solve_decision. Defined.

(* cloud-integration-outbox.ts:109-117 claimBatch, update *)
Definition claimed (workerId : string) (now : Z) (r : IntegrationEvent.t) : IntegrationEvent.t :=
  r <| IntegrationEvent.status := OutboxStatusCloud.PROCESSING |> <| IntegrationEvent.lockId := Some workerId |>
    <| IntegrationEvent.lockedAt := Some now |>.

(** ORDER BY created_at ASC LIMIT; the rows are returned in table order *)
(* cloud-integration-outbox.ts:93-138 claimBatch *)
Definition claimBatch (busy : list string) (now : Z) (workerId : string) (limit : nat) : DTx (list IntegrationEvent.t) :=
  rows ← gets DispatchDb.outbox;
  let candidates := IntegrationEvent.id <$> take limit (orderAsc IntegrationEvent.createdAt (filter (claimable busy now) rows)) in
  throw_when (negb (bool_decide (candidates = [])) && negb (fits 100 workerId)) (DispatchPg "value too long") ;;
  modify (λ d, d <| DispatchDb.outbox ::= fmap (λ r, if decide (IntegrationEvent.id r ∈ candidates) then claimed workerId now r else r) |>) ;;
  mret (claimed workerId now <$> filter (λ r, IntegrationEvent.id r ∈ candidates) rows).

(** the active claim of [token] on a row *)
(* cloud-integration-outbox.ts:153-155 completeEvent *)
Definition owns (id token : string) (r : IntegrationEvent.t) : Prop :=
  IntegrationEvent.id r = id ∧ IntegrationEvent.status r = OutboxStatusCloud.PROCESSING ∧ IntegrationEvent.lockId r = Some token.
#[global] Instance owns_dec id token r : Decision (owns id token r).
Proof. unfold owns. solve_decision. Defined.

(** UPDATE ... WHERE the claim is active; no row updated is an error *)
Definition updateOwned (id token : string) (f : IntegrationEvent.t → IntegrationEvent.t) : DTx unit :=
  rows ← gets DispatchDb.outbox;
  throw_when (negb (bool_decide (Exists (owns id token) rows))) StaleClaim ;;
  modify (λ d, d <| DispatchDb.outbox ::= fmap (λ r, if decide (owns id token r) then f r else r) |>).

(* cloud-integration-outbox.ts:149-151 completeEvent *)
Definition published (now : Z) (r : IntegrationEvent.t) : IntegrationEvent.t :=
  r <| IntegrationEvent.status := OutboxStatusCloud.PUBLISHED |> <| IntegrationEvent.publishedAt := Some now |> <| IntegrationEvent.lockId := None |>.

(* cloud-integration-outbox.ts:145-165 completeEvent *)
Definition completeEvent (now : Z) (id claimToken : string) : DTx unit := updateOwned id claimToken (published now).

(* cloud-integration-outbox.ts:272-283 handleFailure, dead letter *)
Definition deadRow (message : string) (newRetryCount newDeliveryAttempts : Z) (r : IntegrationEvent.t) : IntegrationEvent.t :=
  r <| IntegrationEvent.status := OutboxStatusCloud.DLQ |> <| IntegrationEvent.lastError := Some message |>
    <| IntegrationEvent.retryCount := newRetryCount |> <| IntegrationEvent.deliveryAttempts := newDeliveryAttempts |>
    <| IntegrationEvent.lockId := None |>.

(* cloud-integration-outbox.ts:302-318 handleFailure, retry *)
Definition retryRow (now delayMs : Z) (message : string) (newRetryCount newDeliveryAttempts : Z) (r : IntegrationEvent.t) : IntegrationEvent.t :=
  r <| IntegrationEvent.status := OutboxStatusCloud.PENDING |> <| IntegrationEvent.retryCount := newRetryCount |>
    <| IntegrationEvent.deliveryAttempts := newDeliveryAttempts |> <| IntegrationEvent.nextRetryAt := now + delayMs |>
    <| IntegrationEvent.lastError := Some message |> <| IntegrationEvent.lockId := None |> <| IntegrationEvent.lockedAt := None |>.

(* cloud-integration-outbox.ts:234-267 handleFailure, insert *)
Definition insertDeadLetter (letter : DeadLetter.t) : DTx unit :=
  rows ← gets DispatchDb.dlq;
  throw_when (bool_decide (DeadLetter.id letter ∈ (DeadLetter.id <$> rows))) (DispatchPg "cloud_integration_dlq_pkey") ;;
  modify (λ d, d <| DispatchDb.dlq ::= λ l, l ++ [letter] |>).

(** CHECK (retry_count >= 0 AND retry_count <= 5) *)
Definition retryCountCheck (n : Z) : DTx unit :=
  throw_when (negb ((0 <=? n) && (n <=? 5))) (DispatchPg "chk_cloud_outbox_retry_count").

Module FailureOutcome.
(* cloud-integration-outbox.ts:179-179 handleFailure *)
Record t := mk { routedToDlq : bool; newRetryCount : Z; deliveryAttempts : Z }.
End FailureOutcome.

(** [calculateDelay] is the backoff policy *)
(* cloud-integration-outbox.ts:172-327 handleFailure *)
Definition handleFailure (dlqId : string) (now : Z) (calculateDelay : Z → Z) (id claimToken : string) (error : DeliveryError.t)
    (isNonRetryable : bool) : DTx FailureOutcome.t :=
  found ← gets (eventById id);
  row ← require found EventNotFound;
  throw_when (negb (bool_decide (owns id claimToken row))) StaleClaim ;;
  let newDeliveryAttempts := IntegrationEvent.deliveryAttempts row + 1 in
  let newRetryCount := Z.max 0 (newDeliveryAttempts - 1) in
  if isNonRetryable || (IntegrationEvent.maxRetries row <? newDeliveryAttempts) then
    insertDeadLetter (DeadLetter.mk dlqId (IntegrationEvent.organizationId row) (IntegrationEvent.branchId row) (IntegrationEvent.id row)
      (IntegrationEvent.eventType row) (IntegrationEvent.aggregateType row) (IntegrationEvent.aggregateId row) (IntegrationEvent.payload row)
      (if isNonRetryable then "NON_RETRYABLE_ERROR" else "RETRY_EXHAUSTED") (DeliveryError.message error) (DeliveryError.stack error)
      newRetryCount now) ;;
    retryCountCheck newRetryCount ;;
    updateOwned id claimToken (deadRow (DeliveryError.message error) newRetryCount newDeliveryAttempts) ;;
    mret (FailureOutcome.mk true newRetryCount newDeliveryAttempts)
  else
    retryCountCheck newRetryCount ;;
    updateOwned id claimToken (retryRow now (calculateDelay newRetryCount) (DeliveryError.message error) newRetryCount newDeliveryAttempts) ;;
    mret (FailureOutcome.mk false newRetryCount newDeliveryAttempts).

(** ORDER BY moved_to_dlq_at DESC LIMIT *)
(* cloud-integration-outbox.ts:332-362 queryDLQ *)
Definition queryDLQ (organizationId : string) (limit : nat) : DTx (list DeadLetter.t) :=
  gets (λ d, take limit (orderByDesc DeadLetter.movedToDlqAt (filter (λ l, DeadLetter.organizationId l = organizationId) (DispatchDb.dlq d)))).

(* cloud-integration-outbox.ts:367-380 getOutboxBacklogCount *)
Definition getOutboxBacklogCount (organizationId : string) : DTx Z :=
  gets (λ d, Z.of_nat (List.length (filter (λ r, IntegrationEvent.organizationId r = organizationId ∧
    IntegrationEvent.status r ∈ [OutboxStatusCloud.PENDING; OutboxStatusCloud.PROCESSING]) (DispatchDb.outbox d)))).

(* cloud-integration-outbox.ts:385-395 getDLQBacklogCount *)
Definition getDLQBacklogCount (organizationId : string) : DTx Z :=
  gets (λ d, Z.of_nat (List.length (filter (λ l, DeadLetter.organizationId l = organizationId) (DispatchDb.dlq d)))).
