(* ===== verification/DispatchSpec.v ===== *)
(** The integration outbox as its workers use it: whatever they ask, and in whatever order,
    an event is settled once, is tried at most six times, and belongs to the worker that
    claimed it for two minutes. *)
From S2P Require Import Prelude Json AuditTrail Ingestion Dispatch.
From Stdlib Require Import Ascii String.

(** ** Requests and their history *)

Inductive DispatchRequest :=
| ReqEnqueue (id : string) (now : Z) (input : IntegrationInput.t)
| ReqClaim (busy : list string) (now : Z) (workerId : string) (limit : nat)
| ReqComplete (now : Z) (id claimToken : string)
| ReqFail (dlqId : string) (now : Z) (calculateDelay : Z → Z) (id claimToken : string) (error : DeliveryError.t) (isNonRetryable : bool).

Inductive DispatchAnswer :=
| Enqueued (r : IntegrationEvent.t)
| Handed (rows : list IntegrationEvent.t)
| Completed
| Failed (o : FailureOutcome.t).

Definition perform (q : DispatchRequest) : DTx DispatchAnswer :=
  match q with
  | ReqEnqueue id now input => r ← enqueueIntegration id now input; mret (Enqueued r)
  | ReqClaim busy now w limit => rows ← claimBatch busy now w limit; mret (Handed rows)
  | ReqComplete now id token => completeEvent now id token ;; mret Completed
  | ReqFail dlqId now delay id token error nonRetryable =>
      o ← handleFailure dlqId now delay id token error nonRetryable; mret (Failed o)
  end.

(** in a transaction: a throw restores the tables *)
Definition dispatch (q : DispatchRequest) : DTx DispatchAnswer := λ db,
  match perform q db with (db', Ok a) => (db', Ok a) | (_, Err e) => (db, Err e) end.

Definition History := list (DispatchRequest * result DispatchError DispatchAnswer).

Definition runStep (w : DispatchDb.t * History) (q : DispatchRequest) : DispatchDb.t * History :=
  let '(db', a) := dispatch q (fst w) in (db', snd w ++ [(q, a)]).
Definition runAll (reqs : list DispatchRequest) (db : DispatchDb.t) : DispatchDb.t * History := foldl runStep (db, []) reqs.

(** a failure, or a completion, of the event [id] that was accepted *)
Definition isFailure (id : string) (x : DispatchRequest * result DispatchError DispatchAnswer) : bool :=
  match x with (ReqFail _ _ _ id' _ _ _, Ok _) => bool_decide (id' = id) | _ => false end.
Definition isCompletion (id : string) (x : DispatchRequest * result DispatchError DispatchAnswer) : bool :=
  match x with (ReqComplete _ id' _, Ok _) => bool_decide (id' = id) | _ => false end.
Definition failuresOf (id : string) (h : History) : Z := sumZ (λ x, if isFailure id x then 1 else 0) h.
Definition completionsOf (id : string) (h : History) : Z := sumZ (λ x, if isCompletion id x then 1 else 0) h.

(** what never changes in a row *)
Definition content (r : IntegrationEvent.t) :=
  (IntegrationEvent.id r, IntegrationEvent.organizationId r, IntegrationEvent.branchId r, IntegrationEvent.eventType r,
   IntegrationEvent.aggregateType r, IntegrationEvent.aggregateId r, IntegrationEvent.payload r, IntegrationEvent.createdAt r).
Definition enqueuedContent (x : DispatchRequest * result DispatchError DispatchAnswer) :=
  match snd x with Ok (Enqueued r) => Some (content r) | _ => None end.

Definition lettersOf (id : string) (db : DispatchDb.t) : list DeadLetter.t :=
  filter (λ l, DeadLetter.originatingOutboxId l = id) (DispatchDb.dlq db).

(** the dead letter tells what the row was and why it was given up *)
Definition letterOf (r : IntegrationEvent.t) (l : DeadLetter.t) : Prop :=
  DeadLetter.organizationId l = IntegrationEvent.organizationId r ∧ DeadLetter.branchId l = IntegrationEvent.branchId r ∧
  DeadLetter.eventType l = IntegrationEvent.eventType r ∧ DeadLetter.aggregateType l = IntegrationEvent.aggregateType r ∧
  DeadLetter.aggregateId l = IntegrationEvent.aggregateId r ∧ DeadLetter.rawPayload l = IntegrationEvent.payload r ∧
  Some (DeadLetter.errorMessage l) = IntegrationEvent.lastError r ∧ DeadLetter.retryCount l = IntegrationEvent.retryCount r ∧
  (DeadLetter.errorCode l = "RETRY_EXHAUSTED" ∧ IntegrationEvent.deliveryAttempts r = 6 ∨ DeadLetter.errorCode l = "NON_RETRYABLE_ERROR").

(** an event by its status *)
Definition eventOk (completions : Z) (letters : list DeadLetter.t) (r : IntegrationEvent.t) : Prop :=
  match IntegrationEvent.status r with
  | OutboxStatusCloud.PENDING => IntegrationEvent.deliveryAttempts r <= 5 ∧ completions = 0 ∧ letters = [] ∧ IntegrationEvent.lockId r = None
  | OutboxStatusCloud.PROCESSING => IntegrationEvent.deliveryAttempts r <= 5 ∧ completions = 0 ∧ letters = [] ∧
      is_Some (IntegrationEvent.lockId r) ∧ is_Some (IntegrationEvent.lockedAt r)
  | OutboxStatusCloud.PUBLISHED => IntegrationEvent.deliveryAttempts r <= 5 ∧ completions = 1 ∧ letters = []
  | OutboxStatusCloud.DLQ => 1 <= IntegrationEvent.deliveryAttempts r <= 6 ∧ completions = 0 ∧ ∃ l, letters = [l] ∧ letterOf r l
  | OutboxStatusCloud.FAILED => False
  end.

Record settled (h : History) (db : DispatchDb.t) : Prop := Settled {
  settled_content : content <$> DispatchDb.outbox db = omap enqueuedContent h;
  settled_ids : NoDup (IntegrationEvent.id <$> DispatchDb.outbox db);
  settled_events : ∀ id,
    match eventById id db with
    | None => failuresOf id h = 0 ∧ completionsOf id h = 0 ∧ lettersOf id db = []
    | Some r => IntegrationEvent.deliveryAttempts r = failuresOf id h ∧
        IntegrationEvent.retryCount r = Z.max 0 (IntegrationEvent.deliveryAttempts r - 1) ∧ IntegrationEvent.maxRetries r = 5 ∧
        eventOk (completionsOf id h) (lettersOf id db) r
    end }.

(** ** Lookups *)

Lemma eventById_Some id db r :
  eventById id db = Some r → r ∈ DispatchDb.outbox db ∧ IntegrationEvent.id r = id.
Proof.
  unfold eventById. intros ([i r'] & [Hl Hid]%list_find_Some & ->)%fmap_Some. destruct Hid as [Hid _]. split; [|done].
  by eapply list_elem_of_lookup_2.
Qed.

Lemma eventById_elem db r :
  NoDup (IntegrationEvent.id <$> DispatchDb.outbox db) → r ∈ DispatchDb.outbox db → eventById (IntegrationEvent.id r) db = Some r.
Proof.
  intros Hnd Hr. unfold eventById.
  destruct (list_find (λ r0, IntegrationEvent.id r0 = IntegrationEvent.id r) (DispatchDb.outbox db)) as [[i r']|] eqn:E.
  - apply list_find_Some in E as (Hl & Hid & _). simpl. f_equal. apply list_elem_of_lookup in Hr as [j Hj].
    assert (i = j) as ->; [|congruence]. eapply NoDup_lookup; [exact Hnd|..]; rewrite list_lookup_fmap, ?Hl, ?Hj; simpl; by rewrite ?Hid.
  - apply list_find_None in E. rewrite Forall_forall in E. by destruct (E r Hr).
Qed.

Lemma eventById_None id db : eventById id db = None ↔ id ∉ (IntegrationEvent.id <$> DispatchDb.outbox db).
Proof.
  unfold eventById. rewrite fmap_None, list_find_None, Forall_forall, list_elem_of_fmap. split.
  - intros H (r & -> & Hr). by apply (H r).
  - intros H r Hr Hid. apply H. by exists r.
Qed.

Lemma eventById_fmap f id db :
  (∀ r, IntegrationEvent.id (f r) = IntegrationEvent.id r) →
  eventById id (db <| DispatchDb.outbox ::= fmap f |>) = f <$> eventById id db.
Proof.
  intros Hf. unfold eventById. cbn. rewrite list_find_fmap.
  rewrite (list_find_ext (_ ∘ f) (λ r, IntegrationEvent.id r = id)) by (intros r; unfold compose; rewrite Hf; reflexivity).
  by destruct (list_find _ (DispatchDb.outbox db)) as [[??]|].
Qed.

Lemma eventById_snoc id db r :
  eventById id (db <| DispatchDb.outbox ::= λ l, l ++ [r] |>) =
  match eventById id db with Some r' => Some r' | None => if decide (IntegrationEvent.id r = id) then Some r else None end.
Proof.
  unfold eventById. cbn [DispatchDb.outbox set]. induction (DispatchDb.outbox db) as [|r' l IH]; simpl.
  - by case_decide.
  - destruct (decide (IntegrationEvent.id r' = id)); [done|]. simpl. destruct (list_find _ (l ++ [r])) as [[??]|], (list_find _ l) as [[??]|]; simpl in *; congruence.
Qed.

Lemma history_count_snoc id h x :
  failuresOf id (h ++ [x]) = failuresOf id h + (if isFailure id x then 1 else 0) ∧
  completionsOf id (h ++ [x]) = completionsOf id h + (if isCompletion id x then 1 else 0).
Proof. unfold failuresOf, completionsOf. by rewrite !sumZ_snoc. Qed.

(** ** The invariant *)

Lemma settled_empty : settled [] DispatchDb.empty.
Proof. split; [done|constructor|]. intros id. by cbn. Qed.

(** a refused request *)
Lemma settled_refused h db q e : settled h db → settled (h ++ [(q, Err e)]) db.
Proof.
  intros [Hc Hn He]. split; [|done|].
  - by rewrite omap_app, app_nil_r.
  - intros id. specialize (He id). destruct (history_count_snoc id h (q, Err e)) as [-> ->].
    assert (isFailure id (q, Err e) = false ∧ isCompletion id (q, Err e) = false) as [-> ->] by by destruct q. by rewrite !Z.add_0_r.
Qed.

(** a request that rewrites some rows and neither adds nor removes any *)
Lemma settled_update h db db' q a f :
  settled h db → DispatchDb.outbox db' = f <$> DispatchDb.outbox db → (∀ r, content (f r) = content r) →
  enqueuedContent (q, Ok a) = None →
  (∀ id r, eventById id db = Some r →
    IntegrationEvent.deliveryAttempts r = failuresOf id h →
    IntegrationEvent.retryCount r = Z.max 0 (IntegrationEvent.deliveryAttempts r - 1) → IntegrationEvent.maxRetries r = 5 →
    eventOk (completionsOf id h) (lettersOf id db) r →
    IntegrationEvent.deliveryAttempts (f r) = failuresOf id h + (if isFailure id (q, Ok a) then 1 else 0) ∧
    IntegrationEvent.retryCount (f r) = Z.max 0 (IntegrationEvent.deliveryAttempts (f r) - 1) ∧ IntegrationEvent.maxRetries (f r) = 5 ∧
    eventOk (completionsOf id h + (if isCompletion id (q, Ok a) then 1 else 0)) (lettersOf id db') (f r)) →
  (∀ id, eventById id db = None → isFailure id (q, Ok a) = false ∧ isCompletion id (q, Ok a) = false ∧ lettersOf id db' = lettersOf id db) →
  settled (h ++ [(q, Ok a)]) db'.
Proof.
  intros [Hc Hn He] Hout Hf Hq Hsome Hnone.
  assert (Hid : ∀ r, IntegrationEvent.id (f r) = IntegrationEvent.id r) by (intros r; specialize (Hf r); unfold content in Hf; congruence).
  split.
  - rewrite Hout, omap_app. simpl. rewrite Hq, app_nil_r, <-Hc, <-list_fmap_compose. apply list_fmap_ext. intros _ r _. apply Hf.
  - rewrite Hout, <-list_fmap_compose. erewrite list_fmap_ext; [exact Hn|]. intros _ r _. apply Hid.
  - intros id. assert (eventById id db' = f <$> eventById id db) as ->.
    { rewrite <-(eventById_fmap f) by done. unfold eventById. by rewrite Hout. }
    destruct (history_count_snoc id h (q, Ok a)) as [-> ->]. specialize (He id).
    destruct (eventById id db) as [r|] eqn:Er; cbn [fmap option_fmap option_map].
    + destruct He as (H1 & H2 & H3 & H4). by apply (Hsome id).
    + destruct (Hnone id Er) as (-> & -> & ->). by rewrite !Z.add_0_r.
Qed.

(** ** The requests *)

(** neither published nor given up *)
Definition openEvent (r : IntegrationEvent.t) : Prop :=
  IntegrationEvent.status r ∈ [OutboxStatusCloud.PENDING; OutboxStatusCloud.PROCESSING].

Lemma open_event completions letters r :
  eventOk completions letters r → openEvent r → IntegrationEvent.deliveryAttempts r <= 5 ∧ completions = 0 ∧ letters = [].
Proof.
  unfold eventOk, openEvent. rewrite !elem_of_cons, elem_of_nil. intros H Ho. destruct Ho as [Hst|[Hst|[]]]; rewrite Hst in H; naive_solver.
Qed.

Lemma owned_open id token r : owns id token r → openEvent r.
Proof. intros (_ & Hst & _). unfold openEvent. rewrite Hst. set_solver. Qed.

Lemma claimed_ok w now r n c letters :
  IntegrationEvent.deliveryAttempts r = n → IntegrationEvent.retryCount r = Z.max 0 (IntegrationEvent.deliveryAttempts r - 1) →
  IntegrationEvent.maxRetries r = 5 → IntegrationEvent.deliveryAttempts r <= 5 → c = 0 → letters = [] →
  let r' := claimed w now r in
  IntegrationEvent.deliveryAttempts r' = n ∧ IntegrationEvent.retryCount r' = Z.max 0 (IntegrationEvent.deliveryAttempts r' - 1) ∧
  IntegrationEvent.maxRetries r' = 5 ∧ eventOk c letters r'.
Proof. intros. unfold eventOk. cbn. split_and!; eauto. Qed.


Lemma step_enqueue h db db' id now input a :
  settled h db → perform (ReqEnqueue id now input) db = (db', Ok a) → settled (h ++ [(ReqEnqueue id now input, Ok a)]) db'.
Proof.
  intros [Hc Hn He] H. simpl in H. unfold enqueueIntegration in H. minv H.
  match goal with |- settled (_ ++ [(_, Ok (Enqueued ?r0))]) _ => set (row := r0) in * end.
  rewrite bool_decide_eq_false in Hguard1. split.
  - cbn. rewrite fmap_app, omap_app, Hc. done.
  - cbn. rewrite fmap_app. apply NoDup_app. split_and!; [done| |by apply NoDup_singleton].
    intros x Hx Hx'%list_elem_of_singleton. cbn in Hx'. congruence.
  - intros id'. destruct (history_count_snoc id' h (ReqEnqueue id now input, Ok (Enqueued row))) as [-> ->].
    cbn [isFailure isCompletion]. rewrite !Z.add_0_r, eventById_snoc. specialize (He id').
    destruct (eventById id' db) as [r|]; [done|]. case_decide as Hid; [|done]. destruct He as (Hf & Hcm & Hl).
    unfold lettersOf in *. cbn. rewrite Hf, Hcm, Hl. unfold eventOk. by cbn.
Qed.

Lemma step_claim h db db' busy now w limit a :
  settled h db → perform (ReqClaim busy now w limit) db = (db', Ok a) → settled (h ++ [(ReqClaim busy now w limit, Ok a)]) db'.
Proof.
  intros Hs H. simpl in H. unfold claimBatch in H. minv H.
  match goal with |- settled _ (set _ (fmap ?f0) _) => eapply (settled_update _ db _ _ _ f0) end; [done|done|by intros r; case_decide|done| |done].
  intros id r [Hr <-]%eventById_Some Ha Hrc Hm Hok. cbn [isFailure isCompletion]. rewrite !Z.add_0_r.
  case_decide as Hin; [|by rewrite <-Ha]. apply list_elem_of_fmap in Hin as (r' & Hid & Hin).
  apply elem_of_take in Hin as (i & Hin & _). apply list_elem_of_lookup_2, elem_of_orderAsc, list_elem_of_filter in Hin as [Hcl Hr'].
  assert (r' = r) as -> by (pose proof (eventById_elem db r (settled_ids _ _ Hs) Hr) as E1;
    pose proof (eventById_elem db r' (settled_ids _ _ Hs) Hr') as E2; congruence).
  destruct (open_event _ _ _ Hok (proj1 Hcl)) as (H5 & Hc & Hl). by apply claimed_ok.
Qed.

(** an accepted update finds its row, which is the only one it rewrites *)
Lemma update_owned_ok id token f db db' u :
  updateOwned id token f db = (db', Ok u) →
  Exists (owns id token) (DispatchDb.outbox db) ∧
  db' = db <| DispatchDb.outbox ::= fmap (λ r, if decide (owns id token r) then f r else r) |>.
Proof. intros H. unfold updateOwned in H. minv H. split; [|done]. by apply negb_false_iff, bool_decide_eq_true in Hguard. Qed.

Lemma owner_is id token db :
  NoDup (IntegrationEvent.id <$> DispatchDb.outbox db) → Exists (owns id token) (DispatchDb.outbox db) →
  ∃ r, eventById id db = Some r ∧ owns id token r.
Proof. intros Hn (r & Hr & Ho)%Exists_exists. exists r. split; [|done]. destruct Ho as [<- _]. by apply eventById_elem. Qed.

Lemma step_complete h db db' now id token a :
  settled h db → perform (ReqComplete now id token) db = (db', Ok a) → settled (h ++ [(ReqComplete now id token, Ok a)]) db'.
Proof.
  intros Hs H. cbn [perform] in H. minv H. unfold completeEvent in Hstep. apply update_owned_ok in Hstep as [Hex ->].
  destruct (owner_is _ _ _ (settled_ids _ _ Hs) Hex) as (row & Hrow & Ho).
  eapply (settled_update _ db _ _ _ (λ r, if decide (owns id token r) then published now r else r));
    [done|done|by intros r'; case_decide|done| |].
  - intros id' r' Hr' Ha Hrc Hm Hok. cbn [isFailure isCompletion]. rewrite Z.add_0_r. case_decide as Ho'.
    + assert (id' = id) as -> by (destruct Ho' as [<- _]; symmetry; apply (eventById_Some _ _ _ Hr')).
      destruct (open_event _ _ _ Hok (owned_open _ _ _ Ho')) as (H5 & -> & Hl). rewrite bool_decide_true by done.
      unfold eventOk. cbn. by split_and!.
    + rewrite bool_decide_false, Z.add_0_r; [done|]. intros <-. congruence.
  - intros id' Hnone. cbn. split_and!; [done| |done]. apply bool_decide_false. intros <-. congruence.
Qed.

(** the letter and the row of an event that is given up *)
Definition newLetter (dlqId : string) (now : Z) (error : DeliveryError.t) (isNonRetryable : bool) (row : IntegrationEvent.t) : DeadLetter.t :=
  DeadLetter.mk dlqId (IntegrationEvent.organizationId row) (IntegrationEvent.branchId row) (IntegrationEvent.id row)
    (IntegrationEvent.eventType row) (IntegrationEvent.aggregateType row) (IntegrationEvent.aggregateId row) (IntegrationEvent.payload row)
    (if isNonRetryable then "NON_RETRYABLE_ERROR" else "RETRY_EXHAUSTED") (DeliveryError.message error) (DeliveryError.stack error)
    (Z.max 0 (IntegrationEvent.deliveryAttempts row + 1 - 1)) now.
Definition givenUp (isNonRetryable : bool) (row : IntegrationEvent.t) : bool :=
  isNonRetryable || (IntegrationEvent.maxRetries row <? IntegrationEvent.deliveryAttempts row + 1).
Definition failedRow (now : Z) (delay : Z → Z) (error : DeliveryError.t) (isNonRetryable : bool) (row r : IntegrationEvent.t) : IntegrationEvent.t :=
  let n := IntegrationEvent.deliveryAttempts row + 1 in
  if givenUp isNonRetryable row then deadRow (DeliveryError.message error) (Z.max 0 (n - 1)) n r
  else retryRow now (delay (Z.max 0 (n - 1))) (DeliveryError.message error) (Z.max 0 (n - 1)) n r.

(** a handled failure in one piece *)
Lemma failure_ok dlqId now delay id token error nonRetryable db db' o :
  handleFailure dlqId now delay id token error nonRetryable db = (db', Ok o) →
  ∃ row, eventById id db = Some row ∧ owns id token row ∧
    DispatchDb.outbox db' = (λ r, if decide (owns id token r) then failedRow now delay error nonRetryable row r else r) <$> DispatchDb.outbox db ∧
    DispatchDb.dlq db' = DispatchDb.dlq db ++ (if givenUp nonRetryable row then [newLetter dlqId now error nonRetryable row] else []).
Proof.
  intros H. unfold handleFailure in H. minv_step H. minv_step H. minv_step H. apply negb_false_iff, bool_decide_eq_true in Hguard.
  exists found. split; [done|]. split; [done|]. unfold failedRow. fold (givenUp nonRetryable found) in H. destruct (givenUp nonRetryable found).
  - unfold insertDeadLetter, retryCountCheck in H. minv H. apply update_owned_ok in Hstep as [_ ->]. by cbn.
  - unfold retryCountCheck in H. minv H. apply update_owned_ok in Hstep as [_ ->]. cbn. by rewrite app_nil_r.
Qed.

Lemma lettersOf_snoc id db db' l :
  DispatchDb.dlq db' = DispatchDb.dlq db ++ l → lettersOf id db' = lettersOf id db ++ filter (λ x, DeadLetter.originatingOutboxId x = id) l.
Proof. intros H. unfold lettersOf. by rewrite H, filter_app. Qed.

Lemma failed_content now delay error nonRetryable row r : content (failedRow now delay error nonRetryable row r) = content r.
Proof. unfold failedRow. by destruct (givenUp nonRetryable row). Qed.

(** an open event after one more failure *)
Lemma failed_ok dlqId now delay error nonRetryable r n :
  IntegrationEvent.deliveryAttempts r = n → 0 <= n → IntegrationEvent.maxRetries r = 5 → IntegrationEvent.deliveryAttempts r <= 5 →
  let r' := failedRow now delay error nonRetryable r r in
  IntegrationEvent.deliveryAttempts r' = n + 1 ∧ IntegrationEvent.retryCount r' = Z.max 0 (IntegrationEvent.deliveryAttempts r' - 1) ∧
  IntegrationEvent.maxRetries r' = 5 ∧
  eventOk 0 (if givenUp nonRetryable r then [newLetter dlqId now error nonRetryable r] else []) r'.
Proof.
  intros <- Hn Hm H5. unfold failedRow. destruct (givenUp nonRetryable r) eqn:Hg; unfold eventOk; cbn; split_and!; try done; try lia.
  - exists (newLetter dlqId now error nonRetryable r). split; [done|]. unfold letterOf. cbn. split_and!; try done.
    destruct nonRetryable; [by right|left]. split; [done|]. unfold givenUp in Hg. rewrite Hm in Hg. simpl in Hg. lia.
  - unfold givenUp in Hg. rewrite Hm in Hg. destruct nonRetryable; [done|]. simpl in Hg. lia.
Qed.

(** workers never touch the content of the events *)
Definition isEnqueue (q : DispatchRequest) : bool := match q with ReqEnqueue _ _ _ => true | _ => false end.

Lemma fmap_content f (l : list IntegrationEvent.t) : (∀ r, content (f r) = content r) → content <$> (f <$> l) = content <$> l.
Proof. intros Hf. rewrite <-list_fmap_compose. apply list_fmap_ext. intros _ r _. apply Hf. Qed.

Lemma worker_content q db : isEnqueue q = false → content <$> DispatchDb.outbox (fst (dispatch q db)) = content <$> DispatchDb.outbox db.
Proof.
  intros Hq. unfold dispatch. destruct (perform q db) as [db' [a|e]] eqn:E; [|done]. cbn [fst]. destruct q; cbn [perform] in E; [done|..].
  - unfold claimBatch in E. minv E. apply fmap_content. intros r. by case_decide.
  - minv E. unfold completeEvent in Hstep. apply update_owned_ok in Hstep as [_ ->]. apply fmap_content. intros r'. by case_decide.
  - minv E. apply failure_ok in Hstep as (row & _ & _ & -> & _). apply fmap_content. intros r'. case_decide; [apply failed_content|done].
Qed.

(** an event is appended as it was given *)
Lemma enqueueIntegration_ok id now input db db' row :
  enqueueIntegration id now input db = (db', Ok row) →
  DispatchDb.outbox db' = DispatchDb.outbox db ++ [row] ∧ jsonb (IntegrationInput.payload input) = Ok (IntegrationEvent.payload row) ∧
  IntegrationEvent.organizationId row = IntegrationInput.organizationId input ∧ IntegrationEvent.branchId row = IntegrationInput.branchId input ∧
  IntegrationEvent.eventType row = IntegrationInput.eventType input ∧ IntegrationEvent.aggregateType row = IntegrationInput.aggregateType input ∧
  IntegrationEvent.aggregateId row = IntegrationInput.aggregateId input.
Proof.
  intros H. unfold enqueueIntegration in H. minv H. destruct (jsonb (IntegrationInput.payload input)); [|done]. injection Hval as ->. by cbn.
Qed.

Lemma failuresOf_nonneg id h : 0 <= failuresOf id h.
Proof. apply sumZ_nonneg. intros x _. by destruct (isFailure id x). Qed.

Lemma step_fail h db db' dlqId now delay id token error nonRetryable a :
  settled h db → perform (ReqFail dlqId now delay id token error nonRetryable) db = (db', Ok a) →
  settled (h ++ [(ReqFail dlqId now delay id token error nonRetryable, Ok a)]) db'.
Proof.
  intros Hs H. cbn [perform] in H. minv H. apply failure_ok in Hstep as (row & Hrow & Ho & Hout & Hdlq).
  eapply (settled_update _ db _ _ _ _ Hs Hout); [intros r'; case_decide; [apply failed_content|done]|done| |].
  - intros id' r' Hr' Ha Hrc Hm Hok. rewrite (lettersOf_snoc _ _ _ _ Hdlq). cbn [isFailure isCompletion]. rewrite Z.add_0_r. case_decide as Ho'.
    + assert (id' = id) as -> by (destruct Ho' as [<- _]; symmetry; apply (eventById_Some _ _ _ Hr')).
      assert (r' = row) as -> by congruence. destruct (open_event _ _ _ Hok (owned_open _ _ _ Ho')) as (H5 & -> & ->).
      rewrite bool_decide_true by done. destruct (failed_ok dlqId now delay error nonRetryable row _ Ha (failuresOf_nonneg _ _) Hm H5) as (? & ? & ? & ?).
      split_and!; [done..|]. destruct Ho' as [<- _]. destruct (givenUp nonRetryable row); [|done]. by rewrite filter_cons_True.
    + assert (id ≠ id') as Hne by (intros <-; congruence). rewrite bool_decide_false, Z.add_0_r by done.
      assert (filter (λ x, DeadLetter.originatingOutboxId x = id') (if givenUp nonRetryable row then [newLetter dlqId now error nonRetryable row] else []) = []) as ->.
      { destruct (givenUp nonRetryable row); [|done]. rewrite filter_cons_False; [done|]. destruct Ho as [Hid _]. cbn. congruence. }
      by rewrite app_nil_r.
  - intros id' Hnone. assert (id ≠ id') as Hne by (intros <-; congruence). rewrite (lettersOf_snoc _ _ _ _ Hdlq). cbn [isFailure isCompletion].
    rewrite bool_decide_false by done. split_and!; [done..|]. destruct (givenUp nonRetryable row); [|by rewrite app_nil_r].
    rewrite filter_cons_False; [by rewrite app_nil_r|]. destruct Ho as [Hid _]. cbn. congruence.
Qed.

Lemma settled_step h db q : settled h db → settled (snd (runStep (db, h) q)) (fst (runStep (db, h) q)).
Proof.
  intros Hs. unfold runStep, dispatch. cbn [fst snd]. destruct (perform q db) as [db' [a|e]] eqn:E; cbn [fst snd]; [|by apply settled_refused].
  destruct q; [eapply step_enqueue|eapply step_claim|eapply step_complete|eapply step_fail]; eauto.
Qed.

(** the tables do not depend on the history *)
Lemma run_from reqs db h h' : fst (foldl runStep (db, h) reqs) = fst (foldl runStep (db, h') reqs).
Proof.
  revert db h h'. induction reqs as [|q reqs IH]; intros db h h'; [done|]. cbn [foldl]. unfold runStep at 2 4. cbn [fst snd].
  destruct (dispatch q db). apply IH.
Qed.

Lemma foldl_settled reqs w : settled (snd w) (fst w) → settled (snd (foldl runStep w reqs)) (fst (foldl runStep w reqs)).
Proof. revert w. induction reqs as [|q reqs IH]; intros [db h] Hs; [done|]. apply IH, settled_step, Hs. Qed.

(** ** What the outbox promises *)

(** C18: Whatever workers and producers ask of the integration outbox, and in whatever order, the
    rows are the events enqueued, unchanged and in order; a row counts the failures accepted
    for it, and retries are the failures after the first; an open row has at most five, was
    not published and has no dead letter; a published row was completed once and has none; a
    row given up was never completed and has exactly one dead letter, which repeats it and
    says that it had six failures or one that cannot be retried. *)
Theorem dispatch_settles_once reqs :
  let '(db, h) := runAll reqs DispatchDb.empty in
  content <$> DispatchDb.outbox db = omap enqueuedContent h ∧
  (∀ r, r ∈ DispatchDb.outbox db →
    IntegrationEvent.deliveryAttempts r = failuresOf (IntegrationEvent.id r) h ∧
    IntegrationEvent.retryCount r = Z.max 0 (failuresOf (IntegrationEvent.id r) h - 1) ∧
    eventOk (completionsOf (IntegrationEvent.id r) h) (lettersOf (IntegrationEvent.id r) db) r) ∧
  (∀ l, l ∈ DispatchDb.dlq db → ∃ r, r ∈ DispatchDb.outbox db ∧ IntegrationEvent.id r = DeadLetter.originatingOutboxId l ∧
    IntegrationEvent.status r = OutboxStatusCloud.DLQ).
Proof.
  unfold runAll. pose proof (foldl_settled reqs (DispatchDb.empty, []) settled_empty) as Hs.
  destruct (foldl runStep (DispatchDb.empty, []) reqs) as [db h]. cbn [fst snd] in Hs. destruct Hs as [Hc Hn He]. split_and!; [done| |].
  - intros r Hr. specialize (He (IntegrationEvent.id r)). rewrite (eventById_elem db r Hn Hr) in He.
    destruct He as (Ha & Hrc & _ & Hok). by rewrite <-Ha.
  - intros l Hl. specialize (He (DeadLetter.originatingOutboxId l)).
    assert (l ∈ lettersOf (DeadLetter.originatingOutboxId l) db) as Hin by by apply list_elem_of_filter.
    destruct (eventById (DeadLetter.originatingOutboxId l) db) as [r|] eqn:Er.
    + destruct He as (_ & _ & _ & Hok). exists r. destruct (eventById_Some _ _ _ Er). split_and!; [done..|].
      unfold eventOk in Hok. destruct (IntegrationEvent.status r); try done; exfalso.
      all: assert (lettersOf (DeadLetter.originatingOutboxId l) db = []) as E by tauto; rewrite E in Hin; by apply not_elem_of_nil in Hin.
    + destruct He as (_ & _ & He). rewrite He in Hin. by apply not_elem_of_nil in Hin.
Qed.

(** ** The lease of a claim *)

(** [w] holds the event [id] since [t] *)
Definition held (id w : string) (t : Z) (db : DispatchDb.t) : Prop :=
  ∃ r, eventById id db = Some r ∧ owns id w r ∧ IntegrationEvent.lockedAt r = Some t.

(** a claim made no later than [t] *)
Definition claimsUntil (t : Z) (q : DispatchRequest) : Prop := match q with ReqClaim _ now _ _ => now <= t | _ => True end.
(** an answer of the holder *)
Definition answersClaim (id w : string) (q : DispatchRequest) : Prop :=
  match q with ReqComplete _ id' w' => id' = id ∧ w' = w | ReqFail _ _ _ id' w' _ _ => id' = id ∧ w' = w | _ => False end.

Lemma held_update f id w t db db' :
  held id w t db → DispatchDb.outbox db' = f <$> DispatchDb.outbox db → (∀ r, content (f r) = content r) →
  (∀ r, owns id w r → IntegrationEvent.lockedAt r = Some t → f r = r) → held id w t db'.
Proof.
  intros (r & Hr & Ho & Ht) Hout Hf Hsame. exists r. split; [|done].
  assert (Hid : ∀ r, IntegrationEvent.id (f r) = IntegrationEvent.id r) by (intros r0; specialize (Hf r0); unfold content in Hf; congruence).
  transitivity (f <$> eventById id db); [|rewrite Hr; simpl; by rewrite Hsame].
  rewrite <-(eventById_fmap f) by done. unfold eventById. by rewrite Hout.
Qed.

Lemma not_claimable busy now id w t r :
  owns id w r → IntegrationEvent.lockedAt r = Some t → now <= t + LEASE → ¬ claimable busy now r.
Proof. intros _ Ht Hnow (_ & _ & Hl & _). rewrite Ht in Hl. unfold LEASE in *. lia. Qed.

(** the candidates of a claim are claimable rows *)
Lemma candidate_claimable busy now limit (rows : list IntegrationEvent.t) r :
  NoDup (IntegrationEvent.id <$> rows) → r ∈ rows →
  IntegrationEvent.id r ∈ (IntegrationEvent.id <$> take limit (orderAsc IntegrationEvent.createdAt (filter (claimable busy now) rows))) →
  claimable busy now r.
Proof.
  intros Hn Hr (r' & Hid & Hin)%list_elem_of_fmap. apply elem_of_take in Hin as (i & Hin & _).
  apply list_elem_of_lookup_2, elem_of_orderAsc, list_elem_of_filter in Hin as [Hcl Hr'].
  assert (r' = r) as ->; [|done]. pose (db := DispatchDb.mk rows []). pose proof (eventById_elem db r Hn Hr). pose proof (eventById_elem db r' Hn Hr'). congruence.
Qed.

Lemma held_step h db id w t q :
  settled h db → held id w t db → claimsUntil (t + LEASE) q → ¬ answersClaim id w q → held id w t (fst (dispatch q db)).
Proof.
  intros Hs Hh Ht Hq. unfold dispatch. destruct (perform q db) as [db' [a|e]] eqn:E; [|done]. cbn [fst].
  destruct q as [id0 now input|busy now w0 limit|now id0 w0|dlqId now delay id0 w0 error nr]; cbn [perform claimsUntil answersClaim] in *.
  - unfold enqueueIntegration in E. minv E. destruct Hh as (r & Hr & Hh). exists r. split; [|done]. by rewrite eventById_snoc, Hr.
  - unfold claimBatch in E. minv E. destruct Hh as (r & Hr & Ho & Hl). exists r. split; [|done].
    destruct (eventById_Some _ _ _ Hr) as [Hin Hid]. rewrite eventById_fmap, Hr by (intros r'; by case_decide). cbn [fmap option_fmap option_map].
    rewrite decide_False; [done|]. intros Hc. eapply (not_claimable busy now); [done..|]. eapply candidate_claimable; [|done|exact Hc].
    apply (settled_ids _ _ Hs).
  - minv E. unfold completeEvent in Hstep. apply update_owned_ok in Hstep as [_ ->]. eapply held_update; [done|done| |].
    + intros r'. cbv beta. by case_decide.
    + intros r' (? & _ & Hw) _. cbv beta. rewrite decide_False; [done|]. intros (Hid' & _ & Hw'). apply Hq. split; congruence.
  - minv E. apply failure_ok in Hstep as (row & _ & _ & Hout & _). eapply held_update; [done|exact Hout| |].
    + intros r'. cbv beta. case_decide; [apply failed_content|done].
    + intros r' (? & _ & Hw) _. cbv beta. rewrite decide_False; [done|]. intros (Hid' & _ & Hw'). apply Hq. split; congruence.
Qed.

Lemma held_run h db id w t reqs :
  settled h db → held id w t db → Forall (claimsUntil (t + LEASE)) reqs → Forall (λ q, ¬ answersClaim id w q) reqs →
  ∃ h', settled h' (fst (foldl runStep (db, h) reqs)) ∧ held id w t (fst (foldl runStep (db, h) reqs)).
Proof.
  revert h db. induction reqs as [|q reqs IH]; intros h db Hs Hh Ht Hq; [by exists h|]. inv Ht. inv Hq. cbn [foldl].
  pose proof (settled_step h db q Hs) as Hs'. pose proof (held_step h db id w t q Hs Hh) as Hh'.
  assert (Hfst : fst (runStep (db, h) q) = fst (dispatch q db)) by (unfold runStep; cbn; by destruct (dispatch q db)).
  destruct (runStep (db, h) q) as [db' h'] eqn:E. cbn [fst snd] in *. subst db'. apply IH; auto.
Qed.

(** what the holder and the others are answered *)
Lemma held_complete h db id w t now :
  settled h db → held id w t db → ∃ db', dispatch (ReqComplete now id w) db = (db', Ok Completed).
Proof.
  intros _ (r & Hr & Ho & _). unfold dispatch. cbn [perform]. unfold completeEvent, updateOwned. mrun.
  rewrite bool_decide_true; [by eexists|]. apply Exists_exists. exists r. split; [|done]. by apply eventById_Some in Hr as [? _].
Qed.

Lemma held_fail h db id w t dlqId now delay error nonRetryable :
  settled h db → held id w t db → dlqId ∉ (DeadLetter.id <$> DispatchDb.dlq db) →
  ∃ db' o, dispatch (ReqFail dlqId now delay id w error nonRetryable) db = (db', Ok (Failed o)).
Proof.
  intros Hs (r & Hr & Ho & _) Hd. pose proof (settled_events _ _ Hs id) as He. rewrite Hr in He. destruct He as (Ha & _ & _ & Hok).
  destruct (open_event _ _ _ Hok (owned_open _ _ _ Ho)) as (H5 & _ & _). pose proof (failuresOf_nonneg id h).
  assert (Hex : bool_decide (Exists (owns id w) (DispatchDb.outbox db)) = true).
  { apply bool_decide_true, Exists_exists. exists r. split; [|done]. by apply eventById_Some in Hr as [? _]. }
  assert (Hcheck : (0 <=? Z.max 0 (IntegrationEvent.deliveryAttempts r + 1 - 1)) && (Z.max 0 (IntegrationEvent.deliveryAttempts r + 1 - 1) <=? 5) = true) by lia.
  unfold dispatch. cbn [perform]. unfold handleFailure, insertDeadLetter, retryCountCheck, updateOwned. mrun. rewrite Hr. mrun.
  rewrite bool_decide_true by done. cbn [negb]. destruct (nonRetryable || _).
  - mrun. rewrite bool_decide_false by done. mrun. rewrite Hcheck. cbn [negb]. mrun. cbn [DispatchDb.outbox set]. rewrite Hex. by do 2 eexists.
  - mrun. rewrite Hcheck. cbn [negb]. mrun. rewrite Hex. by do 2 eexists.
Qed.

Lemma not_owner h db id w w' t : settled h db → held id w t db → w' ≠ w → ¬ Exists (owns id w') (DispatchDb.outbox db).
Proof.
  intros Hs (r & Hr & (_ & _ & Hw) & _) Hne Hex. destruct (owner_is _ _ _ (settled_ids _ _ Hs) Hex) as (r' & Hr' & _ & _ & Hw'). congruence.
Qed.

Lemma others_refused h db id w w' t dlqId now delay error nonRetryable :
  settled h db → held id w t db → w' ≠ w →
  dispatch (ReqComplete now id w') db = (db, Err StaleClaim) ∧
  dispatch (ReqFail dlqId now delay id w' error nonRetryable) db = (db, Err StaleClaim).
Proof.
  intros Hs Hh Hne. pose proof (not_owner _ _ _ _ _ _ Hs Hh Hne) as Hno. unfold dispatch. cbn [perform]. split.
  - unfold completeEvent, updateOwned. mrun. by rewrite bool_decide_false.
  - destruct Hh as (r & Hr & _). unfold handleFailure. mrun. rewrite Hr. mrun. rewrite bool_decide_false; [done|].
    intros Ho. apply Hno, Exists_exists. exists r. split; [|done]. by apply eventById_Some in Hr as [? _].
Qed.

Lemma held_not_handed h db id w t busy now w' limit db' rows :
  settled h db → held id w t db → now <= t + LEASE → dispatch (ReqClaim busy now w' limit) db = (db', Ok (Handed rows)) →
  id ∉ (IntegrationEvent.id <$> rows).
Proof.
  intros Hs (r & Hr & Ho & Ht) Hnow H Hin. unfold dispatch in H. destruct (perform _ db) as [db0 [a|e]] eqn:E; [|done]. injection H as -> ->.
  cbn [perform] in E. unfold claimBatch in E. minv E. destruct (eventById_Some _ _ _ Hr) as [Hr' Hid].
  apply list_elem_of_fmap in Hin as (x & -> & (r0 & -> & [Hc Hr0]%list_elem_of_filter)%list_elem_of_fmap).
  eapply (not_claimable busy now _ w t r); [exact Ho|done|done|]. eapply candidate_claimable; [apply (settled_ids _ _ Hs)|done|].
  rewrite Hid. exact Hc.
Qed.

Lemma handed_held h db db' busy now w limit rows r :
  settled h db → dispatch (ReqClaim busy now w limit) db = (db', Ok (Handed rows)) → r ∈ rows → held (IntegrationEvent.id r) w now db'.
Proof.
  intros Hs H Hr. unfold dispatch in H. destruct (perform _ db) as [db0 [a|e]] eqn:E; [|done]. injection H as -> ->.
  cbn [perform] in E. unfold claimBatch in E. minv E. apply list_elem_of_fmap in Hr as (r0 & -> & [Hc Hr0]%list_elem_of_filter).
  exists (claimed w now r0). split; [|done]. change (IntegrationEvent.id (claimed w now r0)) with (IntegrationEvent.id r0).
  rewrite eventById_fmap by (intros r'; by case_decide). rewrite (eventById_elem db r0 (settled_ids _ _ Hs) Hr0).
  cbn [fmap option_fmap option_map]. by rewrite decide_True.
Qed.

(** C19: A claimed event belongs to its worker for two minutes.  After any requests that reach
    the outbox, let a claim hand out a row; until the worker answers, and as long as no claim
    is made more than two minutes later, whatever else happens the worker's completion and
    its failure are accepted, those of any other worker are refused as stale and change
    nothing, and no claim hands the row out again. *)
Theorem claim_is_exclusive reqs busy now w limit db1 rows r later :
  dispatch (ReqClaim busy now w limit) (fst (runAll reqs DispatchDb.empty)) = (db1, Ok (Handed rows)) → r ∈ rows →
  Forall (claimsUntil (now + LEASE)) later → Forall (λ q, ¬ answersClaim (IntegrationEvent.id r) w q) later →
  let id := IntegrationEvent.id r in
  let db2 := fst (runAll later db1) in
  (∀ t, ∃ db3, dispatch (ReqComplete t id w) db2 = (db3, Ok Completed)) ∧
  (∀ dlqId t delay error nonRetryable, dlqId ∉ (DeadLetter.id <$> DispatchDb.dlq db2) →
    ∃ db3 o, dispatch (ReqFail dlqId t delay id w error nonRetryable) db2 = (db3, Ok (Failed o))) ∧
  (∀ w' dlqId t delay error nonRetryable, w' ≠ w →
    dispatch (ReqComplete t id w') db2 = (db2, Err StaleClaim) ∧
    dispatch (ReqFail dlqId t delay id w' error nonRetryable) db2 = (db2, Err StaleClaim)) ∧
  (∀ busy' t w' limit' db3 rows', t <= now + LEASE → dispatch (ReqClaim busy' t w' limit') db2 = (db3, Ok (Handed rows')) →
    id ∉ (IntegrationEvent.id <$> rows')).
Proof.
  intros Hclaim Hr Hl1 Hl2 id db2.
  assert (∃ h, settled h (fst (runAll reqs DispatchDb.empty))) as [h Hs].
  { eexists. apply (foldl_settled reqs (DispatchDb.empty, [])), settled_empty. }
  pose proof (settled_step _ _ (ReqClaim busy now w limit) Hs) as Hs1. unfold runStep in Hs1. cbn [fst snd] in Hs1. rewrite Hclaim in Hs1. cbn [fst snd] in Hs1.
  pose proof (handed_held _ _ _ _ _ _ _ _ _ Hs Hclaim Hr) as Hh1.
  destruct (held_run _ _ _ _ _ later Hs1 Hh1 Hl1 Hl2) as (h2 & Hs2 & Hh2).
  rewrite (run_from _ _ _ []) in Hs2, Hh2. split_and!.
  - intros t. by eapply held_complete.
  - intros. by eapply held_fail.
  - intros. by eapply others_refused.
  - intros. by eapply held_not_handed.
Qed.

(** ** Delays *)

(** no delay before the first retry; later ones stay within the maximum *)
Lemma delay_bounds jitter p n :
  0 <= ExponentialBackoff.baseDelayMs p → 0 <= ExponentialBackoff.maxDelayMs p → 0 <= ExponentialBackoff.multiplier p →
  0 <= getDelayMs jitter p n <= ExponentialBackoff.maxDelayMs p ∧ (n <= 0 → getDelayMs jitter p n = 0).
Proof.
  intros Hb Hm Hk. unfold getDelayMs. destruct (Z.leb_spec n 0); [lia|]. split; [|lia].
  pose proof (Z.pow_nonneg (ExponentialBackoff.multiplier p) (n - 1) Hk).
  assert (0 <= ExponentialBackoff.baseDelayMs p * ExponentialBackoff.multiplier p ^ (n - 1)) by nia. destruct (ExponentialBackoff.deterministic p); lia.
Qed.

(** without jitter a later retry waits at least as long *)
Lemma delay_monotone jitter p n m :
  ExponentialBackoff.deterministic p = true → 0 <= ExponentialBackoff.baseDelayMs p → 0 <= ExponentialBackoff.maxDelayMs p →
  1 <= ExponentialBackoff.multiplier p → n <= m → getDelayMs jitter p n <= getDelayMs jitter p m.
Proof.
  intros Hd Hb Hm Hk Hnm. unfold getDelayMs. rewrite Hd. destruct (Z.leb_spec n 0), (Z.leb_spec m 0); try lia.
  pose proof (Z.pow_le_mono_r (ExponentialBackoff.multiplier p) (n - 1) (m - 1) ltac:(lia) ltac:(lia)) as Hp.
  pose proof (Z.mul_le_mono_nonneg_l _ _ _ Hb Hp). lia.
Qed.

(** ** Examples *)

Definition exampleInput : IntegrationInput.t := IntegrationInput.mk "o" None "OrderProduced" "ORDER" "o1" (JString "x") None.
Definition exampleRow : IntegrationEvent.t :=
  IntegrationEvent.mk "e" "o" None "OrderProduced" "ORDER" "o1" (JString "x") OutboxStatusCloud.PENDING 0 0 5 0 None None None 0 None.
Definition examplePolicy : ExponentialBackoff.t := ExponentialBackoff.mk 1000 60000 2 true.
Definition failOnce (i : nat) : list DispatchRequest :=
  let t := Z.of_nat i * 60000 in
  [ReqClaim [] t "w" 10; ReqFail "d" (t + 1) (getDelayMs id examplePolicy) "e" "w" (DeliveryError.mk "timeout" None) false].

(** the sixth failure is the last; a further claim finds nothing *)
Example six_failures :
  let '(db, h) := runAll (ReqEnqueue "e" 0 exampleInput :: mjoin (failOnce <$> seq 0 7)) DispatchDb.empty in
  (IntegrationEvent.deliveryAttempts <$> DispatchDb.outbox db, IntegrationEvent.retryCount <$> DispatchDb.outbox db,
   DeadLetter.errorCode <$> DispatchDb.dlq db) = ([6], [5], ["RETRY_EXHAUSTED"]) ∧
  snd <$> drop 13 h = [Ok (Handed []); Err StaleClaim].
Proof. by vm_compute. Qed.

Lemma claim_single w t r :
  fits 100 w = true → claimable [] t r → dispatch (ReqClaim [] t w 1) (DispatchDb.mk [r] []) = (DispatchDb.mk [claimed w t r] [], Ok (Handed [claimed w t r])).
Proof.
  intros Hw Hc. unfold dispatch. cbn [perform]. unfold claimBatch. mrun. cbn [DispatchDb.outbox].
  assert (IntegrationEvent.id <$> take 1 (orderAsc IntegrationEvent.createdAt (filter (claimable [] t) [r])) = [IntegrationEvent.id r]) as ->
    by (rewrite filter_cons_True by done; done).
  rewrite Hw, andb_false_r. assert (Hin : IntegrationEvent.id r ∈ [IntegrationEvent.id r]) by set_solver.
  rewrite (filter_cons_True (λ r0, IntegrationEvent.id r0 ∈ [IntegrationEvent.id r])) by done.
  cbv [set DispatchDb.eta_t]. cbn [DispatchDb.outbox DispatchDb.dlq fmap list_fmap]. by rewrite decide_True.
Qed.

Definition unansweredClaim (i : nat) : DispatchRequest := ReqClaim [] (Z.of_nat i * (LEASE + 1)) "w" 1.
Definition handedOver (i : nat) : IntegrationEvent.t := claimed "w" (Z.of_nat i * (LEASE + 1)) exampleRow.

(** A worker that dies with its claims makes no failed attempt: the event is handed out again
    after every lease, without end, and its attempts stay at zero. *)
Lemma unanswered_claims_are_not_counted n :
  let '(db, h) := runAll (ReqEnqueue "e" 0 exampleInput :: (unansweredClaim <$> seq 0 n)) DispatchDb.empty in
  snd <$> h = Ok (Enqueued exampleRow) :: ((λ i, Ok (Handed [handedOver i])) <$> seq 0 n) ∧
  IntegrationEvent.deliveryAttempts <$> DispatchDb.outbox db = [0].
Proof.
  unfold runAll. cbn [foldl].
  assert (Hn : ∃ h, foldl runStep (runStep (DispatchDb.empty, []) (ReqEnqueue "e" 0 exampleInput)) (unansweredClaim <$> seq 0 n) =
    (DispatchDb.mk [match n with O => exampleRow | S i => handedOver i end] [], h) ∧
    snd <$> h = Ok (Enqueued exampleRow) :: ((λ i, Ok (Handed [handedOver i])) <$> seq 0 n)).
  { induction n as [|n (h & IH & Hh)]; [by eexists|]. rewrite seq_S, !fmap_app, foldl_app, IH. cbn [foldl fmap list_fmap Nat.add].
    unfold runStep. cbn [fst snd]. unfold unansweredClaim. rewrite claim_single; [|done|].
    - eexists. split; [by destruct n|]. rewrite fmap_app, Hh. by destruct n.
    - unfold claimable. destruct n as [|i]; cbn; unfold LEASE; split_and!; try apply not_elem_of_nil; try lia; first [done|by left|by right; left]. }
  destruct Hn as (h & -> & Hh). split; [done|]. by destruct n.
Qed.

Definition claimDb : DispatchDb.t := DispatchDb.mk [handedOver 0] [].
Definition otherWorker : list DispatchRequest :=
  [ReqClaim [] 60000 "v" 10; ReqComplete 70000 "e" "v"; ReqFail "d" 80000 id "e" "v" (DeliveryError.mk "late" None) true].

Lemma claim_is_exclusive_witness :
  (∃ db3, dispatch (ReqComplete 90000 "e" "w") (fst (runAll otherWorker claimDb)) = (db3, Ok Completed)) ∧
  dispatch (ReqComplete 90000 "e" "v") (fst (runAll otherWorker claimDb)) = (fst (runAll otherWorker claimDb), Err StaleClaim).
Proof.
  destruct (claim_is_exclusive [ReqEnqueue "e" 0 exampleInput] [] 0 "w" 10 claimDb [handedOver 0] (handedOver 0) otherWorker) as (H & _ & Ho & _).
  - reflexivity.
  - by left.
  - repeat constructor. by compute.
  - repeat constructor; cbn; naive_solver.
  - split; [apply H|apply (Ho "v" "d" 90000 id (DeliveryError.mk "late" None) true); done].
Defined.
