(* ===== verification/Scale4.v ===== *)
(** Exact arithmetic on scale-4 decimal strings, as the numerics modules of procurement and
    finance build it on core/src/money.ts: each parses its operands, computes on integers of
    ten-thousandths and prints.  The two differ in the error a malformed operand raises,
    which is the argument [wrap]. *)
From S2P Require Import Prelude Decimals Money.
From Stdlib Require Import Ascii String.

(** a decimal column [::text] *)
Definition columnText (n : Z) : string := scaledBigIntToDecimalString n.

Definition ZERO4 : string := "0.0000".

Section scale4.
Context {E : Type} (wrap : JsError → E).

Definition parse4 (a : string) : result E Z := match decimalStringToScaledBigInt a with Ok z => Ok z | Err e => Err (wrap e) end.

Definition add4 (a b : string) : result E string :=
  result_bind (parse4 a) (λ x, result_map (λ y, scaledBigIntToDecimalString (x + y)) (parse4 b)).
Definition sub4 (a b : string) : result E string :=
  result_bind (parse4 a) (λ x, result_map (λ y, scaledBigIntToDecimalString (x - y)) (parse4 b)).
Definition mul4 (quantity unitPrice : string) : result E string :=
  result_bind (parse4 quantity) (λ x, result_map (λ y, scaledBigIntToDecimalString (calculateLineSubtotal y x)) (parse4 unitPrice)).
Definition cmp4 (a b : string) : result E comparison :=
  result_bind (parse4 a) (λ x, result_map (λ y, x ?= y) (parse4 b)).
Definition isZero4 (val : string) : result E bool :=
  result_map (λ c, match c with Eq => true | _ => false end) (cmp4 val ZERO4).
Definition isPositive4 (val : string) : result E bool :=
  result_map (λ c, match c with Gt => true | _ => false end) (cmp4 val ZERO4).
Definition isNonNegative4 (val : string) : result E bool :=
  result_map (λ c, match c with Lt => false | _ => true end) (cmp4 val ZERO4).
End scale4.

(** ** Strings that are amounts *)

(** a string the code accepts as an amount *)
Definition amount (s : string) (z : Z) : Prop := decimalStringToScaledBigInt s = Ok z.

Lemma amount_columnText z s : amount (columnText z) s ↔ s = z ∧ isValidScale4Range z = true.
Proof. unfold amount, columnText. rewrite parse_print. destruct (isValidScale4Range z); naive_solver. Qed.

Lemma amount_unique s x y : amount s x → amount s y → x = y.
Proof. unfold amount. congruence. Qed.

Lemma amount_zero : amount ZERO4 0.
Proof. by vm_compute. Qed.

(** an amount parses without trimming, and prints to one that parses to the same number *)
Lemma amount_trim s z : amount s z → trim s = s.
Proof.
  unfold amount, decimalStringToScaledBigInt. destruct (DECIMAL_STRING_REGEX s) eqn:Hre; [|done]. intros _.
  apply DECIMAL_STRING_REGEX_spec in Hre as (w & f & Hs & _ & Hw & Hf & _). apply trim_noSpace.
  assert (Hns : noSpace (strip_minus s).2 = true).
  { rewrite Hs, noSpace_app, (digits_noSpace w Hw). cbn [noSpace]. by rewrite (digits_noSpace f Hf). }
  destruct s as [|c s]; [done|]. cbn in Hns. destruct (ascii_dec c "-") as [->|]; [|exact Hns]. by cbn.
Qed.

Lemma amount_range s z : amount s z → isValidScale4Range z = true.
Proof.
  unfold amount, decimalStringToScaledBigInt, isValidScale4Range. destruct (DECIMAL_STRING_REGEX s); [|done]. cbn [negb].
  destruct (strip_minus s) as [neg c]. destruct (split_dot c) as [w f].
  destruct (BigInt_of_digits w), (BigInt_of_digits f); try done. cbv zeta.
  match goal with |- context [?x <? MIN_SCALE4_BIGINT] => set (v := x) end.
  destruct (Z.ltb_spec v MIN_SCALE4_BIGINT), (Z.ltb_spec MAX_SCALE4_BIGINT v); cbn; try done.
  intros [= <-]. rewrite andb_true_iff, !Z.leb_le. lia.
Qed.

Section scale4_ok.
Context {E : Type} (wrap : JsError → E).

Lemma parse_ok s z : parse4 wrap s = Ok z ↔ amount s z.
Proof. unfold parse4, amount. destruct (decimalStringToScaledBigInt s); naive_solver. Qed.

(** an operation on two amounts *)
Lemma both_ok {A} (f : Z → Z → A) a b r :
  result_bind (parse4 wrap a) (λ x, result_map (λ y, f x y) (parse4 wrap b)) = Ok r ↔ ∃ x y, amount a x ∧ amount b y ∧ r = f x y.
Proof.
  split.
  - intros (x & Hx & (y & Hy & ->)%result_map_ok)%result_bind_ok. exists x, y. by rewrite <-!parse_ok.
  - intros (x & y & Ha & Hb & ->). rewrite <-parse_ok in Ha, Hb. by rewrite Ha, Hb.
Qed.

Lemma addScale4_ok a b s : add4 wrap a b = Ok s ↔ ∃ x y, amount a x ∧ amount b y ∧ s = columnText (x + y).
Proof. apply both_ok. Qed.
Lemma subScale4_ok a b s : sub4 wrap a b = Ok s ↔ ∃ x y, amount a x ∧ amount b y ∧ s = columnText (x - y).
Proof. apply both_ok. Qed.
Lemma mulScale4_ok a b s : mul4 wrap a b = Ok s ↔ ∃ x y, amount a x ∧ amount b y ∧ s = columnText (calculateLineSubtotal y x).
Proof. apply both_ok. Qed.
Lemma cmpScale4_ok a b c : cmp4 wrap a b = Ok c ↔ ∃ x y, amount a x ∧ amount b y ∧ c = (x ?= y).
Proof. apply both_ok. Qed.

(** a comparison with zero *)
Lemma against_zero (f : comparison → bool) s b : result_map f (cmp4 wrap s ZERO4) = Ok b ↔ ∃ x, amount s x ∧ b = f (x ?= 0).
Proof.
  split.
  - intros (c & (x & y & Hx & Hy & ->)%cmpScale4_ok & ->)%result_map_ok. rewrite (amount_unique _ _ _ Hy amount_zero). by exists x.
  - intros (x & Hx & ->). apply result_map_ok. exists (x ?= 0). split; [|done]. apply cmpScale4_ok. exists x, 0. eauto using amount_zero.
Qed.

Lemma zero_ok s b : isZero4 wrap s = Ok b ↔ ∃ x, amount s x ∧ b = (x =? 0).
Proof. unfold isZero4. rewrite against_zero. by setoid_rewrite Z.eqb_compare. Qed.

Lemma positive_ok s : isPositive4 wrap s = Ok true ↔ ∃ x, amount s x ∧ 0 < x.
Proof.
  unfold isPositive4. rewrite against_zero. split; intros (x & Hx & H); exists x; (split; [done|]); destruct (Z.compare_spec x 0); done || lia.
Qed.

Lemma nonnegative_ok s : isNonNegative4 wrap s = Ok true ↔ ∃ x, amount s x ∧ 0 <= x.
Proof.
  unfold isNonNegative4. rewrite against_zero. split; intros (x & Hx & H); exists x; (split; [done|]); destruct (Z.compare_spec x 0); done || lia.
Qed.
End scale4_ok.
