(* ===== verification/Procurement.v ===== *)
(** Procurement: packages/procurement/src and PostgresProcurementService of
    packages/cloud-server/src/index.ts, over the tables of migration 20260905010000.

    A method runs in one transaction that locks the purchase order before it reads, so that
    the requests of one order are serial; it is one step on the tables, restored on a throw.
    Amounts are the scale-4 decimal strings of the contracts and integers of ten-thousandths
    in DECIMAL(12,4) columns.  Identifiers are UUIDs in lower case, as the columns return
    them, for which [localeCompare] is the order of the texts; timestamps are the strings of
    [toISOString]; new identifiers and clocks are drawn values.  The catalogue of branches,
    warehouses and ingredients is read only.  The authorisation policy is an argument.  CHECK
    constraints that repeat a guard, foreign keys and row-level security are left out, as are
    messages. *)
From S2P Require Import Prelude Decimals Money Scale4 Json AuditTrail Ingestion Recipes Dispatch.
From Stdlib Require Import Ascii String.

(** ** Types *)

Module PurchaseOrderStatus.
(* procurement types.ts:6-6 PurchaseOrderStatus *)
Inductive t := DRAFT | SENT | PARTIAL | RECEIVED | CANCELLED.
#[global] Instance eq_dec : EqDecision t.
Proof. solve_decision. Defined.
End PurchaseOrderStatus.

Module ReceiptStatus.
(* procurement types.ts:88-88 PurchaseReceipt *)
Inductive t := CONFIRMED | CANCELLED.
#[global] Instance eq_dec : EqDecision t.
Proof. solve_decision. Defined.
End ReceiptStatus.

Module PriceVarianceDisposition.
(* procurement types.ts:149-150 PriceVarianceDisposition *)
Inductive t := NO_AUTHORIZATION_REQUIRED | SUPERVISOR_AUTHORIZATION_REQUIRED | REJECTED.
#[global] Instance eq_dec : EqDecision t.
Proof. solve_decision. Defined.
End PriceVarianceDisposition.

(* procurement errors.ts:5-118 ProcurementError *)
Inductive ProcurementError :=
| InvalidSupplierError
| InvalidPurchaseOrderError
| InvalidPurchaseOrderTransitionError (fromStatus toStatus : PurchaseOrderStatus.t)
| PurchaseOrderCancelledError
| OverReceiptNotAuthorizedError (orderedQuantity previouslyReceivedQuantity attemptedQuantity totalAttempted : string)
| PriceVariancePolicyRequiredError
| PriceVarianceSupervisorAuthorizationRequiredError
| PriceVarianceRejectedError
| InvalidReceiptItemError
| ReceiptIdempotencyConflictError
| ReceiptOutboxIntegrityError
| ProcurementJs (e : JsError)
| ProcurementPg (constraint : string)
| ProcurementOutbox (e : DispatchError).

Module Supplier.
(* procurement types.ts:8-17 Supplier *)
Record t := mk {
  id : string; organizationId : string; code : string; tradeName : string; taxId : string; creditDays : Z; isActive : bool;
  createdAt : string }.
End Supplier.

Module CreateSupplier.
(* procurement types.ts:19-26 CreateSupplierCommand *)
Record t := mk {
  organizationId : string; code : string; tradeName : string; taxId : string; creditDays : option Z; isActive : option bool }.
End CreateSupplier.

Module PurchaseOrderItem.
(* procurement types.ts:28-37 PurchaseOrderItem *)
Record t := mk {
  id : string; organizationId : string; purchaseOrderId : string; ingredientId : string; orderedQuantity : string; unitCost : string;
  lineAmount : string; createdAt : string }.
End PurchaseOrderItem.

Module PurchaseOrder.
(* procurement types.ts:39-50 PurchaseOrder *)
Record t := mk {
  id : string; organizationId : string; branchId : string; supplierId : string; orderNumber : string; status : PurchaseOrderStatus.t;
  totalAmount : string; items : list PurchaseOrderItem.t; createdAt : string; updatedAt : string }.
End PurchaseOrder.

Module OrderItemInput.
(* procurement types.ts:52-56 CreatePurchaseOrderItemInput *)
Record t := mk { ingredientId : string; orderedQuantity : string; unitCost : string }.
End OrderItemInput.

Module CreatePurchaseOrder.
(* procurement types.ts:58-64 CreatePurchaseOrderCommand *)
Record t := mk { organizationId : string; branchId : string; supplierId : string; orderNumber : string; items : list OrderItemInput.t }.
End CreatePurchaseOrder.

Module PurchaseReceiptItem.
(* procurement types.ts:66-76 PurchaseReceiptItem *)
Record t := mk {
  id : string; organizationId : string; purchaseReceiptId : string; purchaseOrderItemId : string; ingredientId : string;
  receivedQuantity : string; acceptedUnitCost : string; lineAmount : string; createdAt : string }.
End PurchaseReceiptItem.

Module PurchaseReceipt.
(* procurement types.ts:78-92 PurchaseReceipt *)
Record t := mk {
  id : string; organizationId : string; branchId : string; purchaseOrderId : string; supplierId : string; warehouseId : string;
  receiptNumber : string; invoiceReference : option string; totalAmount : string; status : ReceiptStatus.t; receivedAt : string;
  createdAt : string; items : list PurchaseReceiptItem.t }.
End PurchaseReceipt.

Module ReceiptItemInput.
(* procurement types.ts:94-99 ConfirmReceiptItemInput *)
Record t := mk { purchaseOrderItemId : string; ingredientId : string; receivedQuantity : string; acceptedUnitCost : string }.
End ReceiptItemInput.

Module ConfirmReceipt.
(* procurement types.ts:101-113 ConfirmPurchaseReceiptCommand *)
Record t := mk {
  organizationId : string; branchId : string; purchaseOrderId : string; supplierId : string; warehouseId : string; receiptNumber : string;
  invoiceReference : option string; receivedAt : option string; paymentTerms : option string; items : list ReceiptItemInput.t;
  supervisorAuthorizationToken : option string }.
End ConfirmReceipt.

Module RecepcionItem.
(* procurement types.ts:115-125 RecepcionCompraItemPayload *)
Record t := mk {
  ingredientId : string; purchaseOrderItemId : string; orderedQuantity : string; previouslyReceivedQuantity : string;
  receivedQuantity : string; cumulativeReceivedQuantity : string; remainingQuantity : string; acceptedUnitCost : string;
  lineAmount : string }.
End RecepcionItem.

Module Recepcion.
(* procurement types.ts:127-140 RecepcionCompraRegistradaPayload *)
Record t := mk {
  recepcionId : string; organizationId : string; branchId : string; supplierId : string; purchaseOrderId : string; warehouseId : string;
  receiptNumber : string; invoiceReference : option string; receivedAt : string; paymentTerms : option string; totalAmount : string;
  items : list RecepcionItem.t }.
End Recepcion.

Module ConfirmStatus.
(* procurement types.ts:143-143 ConfirmReceiptResult *)
Inductive t := APPLIED | DUPLICATE_ACCEPTED.
End ConfirmStatus.

(** the event is its JSON value: a replay reads it back from the outbox *)
Module ConfirmResult.
(* procurement types.ts:142-147 ConfirmReceiptResult *)
Record t := mk {
  status : ConfirmStatus.t; receipt : PurchaseReceipt.t; eventPayload : Json; updatedPurchaseOrderStatus : PurchaseOrderStatus.t }.
End ConfirmResult.

Module PriceVarianceContext.
(* procurement types.ts:152-160 PriceVarianceContext *)
Record t := mk {
  organizationId : string; branchId : string; supplierId : string; ingredientId : string; orderedUnitCost : string;
  receivedUnitCost : string; supervisorAuthorizationToken : option string }.
End PriceVarianceContext.

(* procurement types.ts:162-166 PurchasePriceVarianceAuthorizationPolicy *)
Definition PriceVariancePolicy : Type := PriceVarianceContext.t → PriceVarianceDisposition.t.

(** ** Exact arithmetic on decimal strings *)

Module ProcurementNumerics.
Abbreviation R := (result ProcurementError).

(* procurement numerics.ts:12-12 ZERO_SCALE4 *)
Definition ZERO_SCALE4 : string := ZERO4.

(* procurement numerics.ts:14-18 addScale4 *)
Definition addScale4 : string → string → R string := add4 ProcurementJs.
(* procurement numerics.ts:20-24 subScale4 *)
Definition subScale4 : string → string → R string := sub4 ProcurementJs.
(* procurement numerics.ts:26-31 mulScale4 *)
Definition mulScale4 : string → string → R string := mul4 ProcurementJs.
(* procurement numerics.ts:33-39 cmpScale4 *)
Definition cmpScale4 : string → string → R comparison := cmp4 ProcurementJs.
(* procurement numerics.ts:45-47 isPositiveScale4 *)
Definition isPositiveScale4 : string → R bool := isPositive4 ProcurementJs.
(* procurement numerics.ts:49-51 isNonNegativeScale4 *)
Definition isNonNegativeScale4 : string → R bool := isNonNegative4 ProcurementJs.
End ProcurementNumerics.
Import (notations) ProcurementNumerics.
Abbreviation R := (result ProcurementError).

(** ** Purchase orders *)

Definition require_that (b : R bool) (e : ProcurementError) : R unit :=
  result_bind b (λ b, if b then Ok tt else Err e).

(* purchase-order.ts:19-31 calculatePoItemLineAmount *)
Definition calculatePoItemLineAmount (orderedQuantity unitCost : string) : R string :=
  result_bind (require_that (ProcurementNumerics.isPositiveScale4 orderedQuantity) InvalidPurchaseOrderError) (λ _,
  result_bind (require_that (ProcurementNumerics.isNonNegativeScale4 unitCost) InvalidPurchaseOrderError) (λ _,
  ProcurementNumerics.mulScale4 orderedQuantity unitCost)).

(** the loop both totals share *)
Fixpoint addAmounts (total : string) (amounts : list string) : R string :=
  match amounts with [] => Ok total | a :: rest => result_bind (ProcurementNumerics.addScale4 total a) (λ total', addAmounts total' rest) end.

(* purchase-order.ts:33-39 calculatePoTotalAmount *)
Definition calculatePoTotalAmount (lineAmounts : list string) : R string := addAmounts ProcurementNumerics.ZERO_SCALE4 lineAmounts.

(* purchase-order.ts:41-78 validatePoTransition *)
Definition validatePoTransition (currentStatus targetStatus : PurchaseOrderStatus.t) : R unit :=
  if bool_decide (currentStatus = targetStatus) then Ok tt else
  let refuse := Err (InvalidPurchaseOrderTransitionError currentStatus targetStatus) in
  match currentStatus, targetStatus with
  | PurchaseOrderStatus.CANCELLED, _ => Err PurchaseOrderCancelledError
  | PurchaseOrderStatus.DRAFT, (PurchaseOrderStatus.SENT | PurchaseOrderStatus.CANCELLED) => Ok tt
  | PurchaseOrderStatus.SENT, (PurchaseOrderStatus.PARTIAL | PurchaseOrderStatus.RECEIVED | PurchaseOrderStatus.CANCELLED) => Ok tt
  | PurchaseOrderStatus.PARTIAL, PurchaseOrderStatus.RECEIVED => Ok tt
  | _, _ => refuse
  end.

(* purchase-order.ts:80-96 validateCanCancelPo *)
Definition validateCanCancelPo (currentStatus : PurchaseOrderStatus.t) (hasConfirmedReceipts : bool) : R unit :=
  match currentStatus with
  | PurchaseOrderStatus.CANCELLED => Ok tt
  | PurchaseOrderStatus.RECEIVED => Err (InvalidPurchaseOrderTransitionError currentStatus PurchaseOrderStatus.CANCELLED)
  | _ =>
      if hasConfirmedReceipts || bool_decide (currentStatus = PurchaseOrderStatus.PARTIAL) then Err InvalidPurchaseOrderError
      else validatePoTransition currentStatus PurchaseOrderStatus.CANCELLED
  end.

(** ** Receiving *)

(* receiving.ts:17-32 calculateReceiptItemLineAmount *)
Definition calculateReceiptItemLineAmount (receivedQuantity acceptedUnitCost : string) : R string :=
  result_bind (require_that (ProcurementNumerics.isPositiveScale4 receivedQuantity) InvalidReceiptItemError) (λ _,
  result_bind (require_that (ProcurementNumerics.isNonNegativeScale4 acceptedUnitCost) InvalidReceiptItemError) (λ _,
  ProcurementNumerics.mulScale4 receivedQuantity acceptedUnitCost)).

(* receiving.ts:34-40 calculateReceiptTotalAmount *)
Definition calculateReceiptTotalAmount (lineAmounts : list string) : R string := addAmounts ProcurementNumerics.ZERO_SCALE4 lineAmounts.

(* receiving.ts:42-58 evaluateOverReceipt *)
Definition evaluateOverReceipt (orderedQuantity previouslyReceivedQuantity currentReceivedQuantity : string) : R unit :=
  result_bind (ProcurementNumerics.addScale4 previouslyReceivedQuantity currentReceivedQuantity) (λ totalAttempted,
  result_bind (ProcurementNumerics.cmpScale4 totalAttempted orderedQuantity) (λ c,
  match c with
  | Gt => Err (OverReceiptNotAuthorizedError orderedQuantity previouslyReceivedQuantity currentReceivedQuantity totalAttempted)
  | _ => Ok tt
  end)).

Module CumulativeQuantity.
(* receiving.ts:60-64 CumulativeQuantityResult *)
Record t := mk { cumulativeReceivedQuantity : string; remainingQuantity : string; isFullyReceived : bool }.
End CumulativeQuantity.

(* receiving.ts:66-80 deriveCumulativeReceivingQuantities *)
Definition deriveCumulativeReceivingQuantities (orderedQuantity previouslyReceivedQuantity currentReceivedQuantity : string) :
    R CumulativeQuantity.t :=
  result_bind (ProcurementNumerics.addScale4 previouslyReceivedQuantity currentReceivedQuantity) (λ cumulativeReceivedQuantity,
  result_bind (ProcurementNumerics.subScale4 orderedQuantity cumulativeReceivedQuantity) (λ remainingQuantity,
  result_map (λ c, CumulativeQuantity.mk cumulativeReceivedQuantity remainingQuantity (match c with Lt => false | _ => true end))
    (ProcurementNumerics.cmpScale4 cumulativeReceivedQuantity orderedQuantity))).

(* receiving.ts:82-84 determinePostReceiptPoStatus *)
Definition determinePostReceiptPoStatus (allItemsFullyReceived : bool) : PurchaseOrderStatus.t :=
  if allItemsFullyReceived then PurchaseOrderStatus.RECEIVED else PurchaseOrderStatus.PARTIAL.

(* price-variance-policy.ts:27-67 evaluatePriceVariance *)
Definition evaluatePriceVariance (context : PriceVarianceContext.t) (policy : option PriceVariancePolicy) : R unit :=
  result_bind (ProcurementNumerics.cmpScale4 (PriceVarianceContext.orderedUnitCost context) (PriceVarianceContext.receivedUnitCost context)) (λ c,
  if bool_decide (c = Eq) then Ok tt else
  match policy with
  | None => Err PriceVariancePolicyRequiredError
  | Some policy =>
      match policy context with
      | PriceVarianceDisposition.REJECTED => Err PriceVarianceRejectedError
      | PriceVarianceDisposition.SUPERVISOR_AUTHORIZATION_REQUIRED =>
          if match PriceVarianceContext.supervisorAuthorizationToken context with None => true | Some token => blank token end
          then Err PriceVarianceSupervisorAuthorizationRequiredError else Ok tt
      | PriceVarianceDisposition.NO_AUTHORIZATION_REQUIRED => Ok tt
      end
  end).

(** ** Tables *)

Module PurchaseOrderRow.
(* 20260905010000_procurement_supplier_receiving.sql:44-61 purchase_orders *)
Record t := mk {
  id : string; organizationId : string; branchId : string; supplierId : string; orderNumber : string; status : PurchaseOrderStatus.t;
  totalAmount : Z; createdAt : string; updatedAt : string }.
#[global] Instance eta_t : Eta t := λ r,
  mk (id r) (organizationId r) (branchId r) (supplierId r) (orderNumber r) (status r) (totalAmount r) (createdAt r) (updatedAt r).
End PurchaseOrderRow.

Module OrderItemRow.
(* 20260905010000_procurement_supplier_receiving.sql:77-92 purchase_order_items *)
Record t := mk {
  id : string; organizationId : string; purchaseOrderId : string; ingredientId : string; orderedQuantity : Z; unitCost : Z;
  lineAmount : Z; createdAt : string }.
End OrderItemRow.

Module ReceiptRow.
(* 20260905010000_procurement_supplier_receiving.sql:107-129 purchase_receipts *)
Record t := mk {
  id : string; organizationId : string; branchId : string; purchaseOrderId : string; supplierId : string; warehouseId : string;
  receiptNumber : string; invoiceReference : option string; totalAmount : Z; status : ReceiptStatus.t; receivedAt : string;
  createdAt : string }.
End ReceiptRow.

Module ReceiptItemRow.
(* 20260905010000_procurement_supplier_receiving.sql:146-163 purchase_receipt_items *)
Record t := mk {
  id : string; organizationId : string; purchaseReceiptId : string; purchaseOrderItemId : string; ingredientId : string;
  receivedQuantity : Z; acceptedUnitCost : Z; lineAmount : Z; createdAt : string }.
End ReceiptItemRow.

Module ProcurementDb.
Record t := mk {
  suppliers : list Supplier.t; purchase_orders : list PurchaseOrderRow.t; purchase_order_items : list OrderItemRow.t;
  purchase_receipts : list ReceiptRow.t; purchase_receipt_items : list ReceiptItemRow.t; integration : DispatchDb.t;
  branches : list (string * string); warehouses : list (string * string * string); ingredients : list (string * string) }.
#[global] Instance eta_t : Eta t := λ d,
  mk (suppliers d) (purchase_orders d) (purchase_order_items d) (purchase_receipts d) (purchase_receipt_items d) (integration d)
    (branches d) (warehouses d) (ingredients d).
End ProcurementDb.

(** [gen_random_uuid()] for each table, by the position of the line for items, and [NOW()] as
    a timestamp and in milliseconds *)
Module ProcurementDraws.
Record t := mk { rowId : string; itemId : nat → string; outboxId : string; now : string; nowMs : Z }.
End ProcurementDraws.

Abbreviation ProcTx := (M ProcurementDb.t ProcurementError).

(* tenant.ts:32-50 withTenantTransaction *)
Definition inTenantTransaction {A} (callback : ProcTx A) : ProcTx A :=
  λ db, match callback db with (db', Ok a) => (db', Ok a) | (_, Err e) => (db, Err e) end.

(** a decimal string in a DECIMAL(12,4) column *)
Definition decimalColumn (s : string) : R Z :=
  match decimalStringToScaledBigInt s with
  | Ok z => Ok z
  | Err (RangeError _) => Err (ProcurementPg "numeric field overflow")
  | Err _ => Err (ProcurementPg "invalid input syntax for type numeric")
  end.

(** ** Suppliers *)

(* cloud-server index.ts:1457-1484 PostgresProcurementService.createSupplier, INSERT *)
Definition insertSupplier (row : Supplier.t) : ProcTx unit :=
  rows ← gets ProcurementDb.suppliers;
  throw_when (negb (fits 50 (Supplier.code row) && fits 255 (Supplier.tradeName row) && fits 50 (Supplier.taxId row)))
    (ProcurementPg "value too long") ;;
  throw_when (2147483647 <? Supplier.creditDays row) (ProcurementPg "integer out of range") ;;
  throw_when (bool_decide (Supplier.id row ∈ (Supplier.id <$> rows))) (ProcurementPg "suppliers_pkey") ;;
  throw_when (bool_decide (Exists (λ r, Supplier.organizationId r = Supplier.organizationId row ∧ Supplier.code r = Supplier.code row) rows))
    (ProcurementPg "uq_suppliers_org_code") ;;
  modify (λ db, db <| ProcurementDb.suppliers ::= λ l, l ++ [row] |>).

(* cloud-server index.ts:1431-1498 PostgresProcurementService.createSupplier *)
Definition createSupplier (draws : ProcurementDraws.t) (command : CreateSupplier.t) : ProcTx Supplier.t :=
  throw_when (blank (CreateSupplier.code command)) InvalidSupplierError ;;
  throw_when (blank (CreateSupplier.tradeName command)) InvalidSupplierError ;;
  throw_when (blank (CreateSupplier.taxId command)) InvalidSupplierError ;;
  let creditDays := default 0 (CreateSupplier.creditDays command) in
  throw_when (creditDays <? 0) InvalidSupplierError ;;
  let isActive := default true (CreateSupplier.isActive command) in
  inTenantTransaction (
    let row := Supplier.mk (ProcurementDraws.rowId draws) (CreateSupplier.organizationId command) (trim (CreateSupplier.code command))
      (trim (CreateSupplier.tradeName command)) (trim (CreateSupplier.taxId command)) creditDays isActive (ProcurementDraws.now draws) in
    insertSupplier row ;;
    mret row).

(* cloud-server index.ts:1500-1535 PostgresProcurementService.getSupplier *)
Definition getSupplier (organizationId supplierId : string) : ProcTx (option Supplier.t) :=
  inTenantTransaction (gets (λ db, snd <$> list_find (λ r, Supplier.organizationId r = organizationId ∧ Supplier.id r = supplierId)
    (ProcurementDb.suppliers db))).

(** ** Orders *)

(* cloud-server index.ts:2446-2455 PostgresProcurementService.getPurchaseOrderWithClient *)
Definition toOrderItem (row : OrderItemRow.t) : PurchaseOrderItem.t :=
  PurchaseOrderItem.mk (OrderItemRow.id row) (OrderItemRow.organizationId row) (OrderItemRow.purchaseOrderId row) (OrderItemRow.ingredientId row)
    (columnText (OrderItemRow.orderedQuantity row)) (columnText (OrderItemRow.unitCost row)) (columnText (OrderItemRow.lineAmount row))
    (OrderItemRow.createdAt row).

(* cloud-server index.ts:2457-2469 PostgresProcurementService.getPurchaseOrderWithClient *)
Definition toOrder (row : PurchaseOrderRow.t) (items : list OrderItemRow.t) : PurchaseOrder.t :=
  PurchaseOrder.mk (PurchaseOrderRow.id row) (PurchaseOrderRow.organizationId row) (PurchaseOrderRow.branchId row)
    (PurchaseOrderRow.supplierId row) (PurchaseOrderRow.orderNumber row) (PurchaseOrderRow.status row)
    (columnText (PurchaseOrderRow.totalAmount row)) (toOrderItem <$> items) (PurchaseOrderRow.createdAt row) (PurchaseOrderRow.updatedAt row).

Definition orderNamed (organizationId id : string) (r : PurchaseOrderRow.t) : Prop :=
  PurchaseOrderRow.organizationId r = organizationId ∧ PurchaseOrderRow.id r = id.
#[global] Instance orderNamed_dec organizationId id r : Decision (orderNamed organizationId id r).
Proof. unfold orderNamed. solve_decision. Defined.

Definition itemOf (organizationId purchaseOrderId : string) (r : OrderItemRow.t) : Prop :=
  OrderItemRow.organizationId r = organizationId ∧ OrderItemRow.purchaseOrderId r = purchaseOrderId.
#[global] Instance itemOf_dec organizationId id r : Decision (itemOf organizationId id r).
Proof. unfold itemOf. solve_decision. Defined.

Definition findOrder (organizationId id : string) (db : ProcurementDb.t) : option PurchaseOrderRow.t :=
  snd <$> list_find (orderNamed organizationId id) (ProcurementDb.purchase_orders db).
Definition orderItems (organizationId id : string) (db : ProcurementDb.t) : list OrderItemRow.t :=
  filter (itemOf organizationId id) (ProcurementDb.purchase_order_items db).

(* cloud-server index.ts:2406-2470 PostgresProcurementService.getPurchaseOrderWithClient *)
Definition getPurchaseOrderWithClient (organizationId purchaseOrderId : string) : ProcTx (option PurchaseOrder.t) :=
  gets (λ db, (λ row, toOrder row (orderItems organizationId (PurchaseOrderRow.id row) db)) <$> findOrder organizationId purchaseOrderId db).

(* cloud-server index.ts:1705-1712 PostgresProcurementService.getPurchaseOrder *)
Definition getPurchaseOrder (organizationId purchaseOrderId : string) : ProcTx (option PurchaseOrder.t) :=
  inTenantTransaction (getPurchaseOrderWithClient organizationId purchaseOrderId).

(* cloud-server index.ts:1604-1631 PostgresProcurementService.createPurchaseOrder, INSERT *)
Definition insertOrder (row : PurchaseOrderRow.t) : ProcTx unit :=
  rows ← gets ProcurementDb.purchase_orders;
  throw_when (negb (fits 100 (PurchaseOrderRow.orderNumber row))) (ProcurementPg "value too long") ;;
  throw_when (bool_decide (PurchaseOrderRow.id row ∈ (PurchaseOrderRow.id <$> rows))) (ProcurementPg "purchase_orders_pkey") ;;
  throw_when (bool_decide (Exists (λ r, PurchaseOrderRow.organizationId r = PurchaseOrderRow.organizationId row ∧
      PurchaseOrderRow.branchId r = PurchaseOrderRow.branchId row ∧ PurchaseOrderRow.orderNumber r = PurchaseOrderRow.orderNumber row) rows))
    (ProcurementPg "uq_purchase_orders_org_branch_number") ;;
  modify (λ db, db <| ProcurementDb.purchase_orders ::= λ l, l ++ [row] |>).

Definition insertOrderItem (row : OrderItemRow.t) : ProcTx unit :=
  rows ← gets ProcurementDb.purchase_order_items;
  throw_when (bool_decide (OrderItemRow.id row ∈ (OrderItemRow.id <$> rows))) (ProcurementPg "purchase_order_items_pkey") ;;
  modify (λ db, db <| ProcurementDb.purchase_order_items ::= λ l, l ++ [row] |>).

(** the items with their amounts, in order *)
(* cloud-server index.ts:1545-1556 PostgresProcurementService.createPurchaseOrder *)
Fixpoint processItems (items : list OrderItemInput.t) : R (list (OrderItemInput.t * string)) :=
  match items with
  | [] => Ok []
  | item :: rest =>
      result_bind (calculatePoItemLineAmount (OrderItemInput.orderedQuantity item) (OrderItemInput.unitCost item)) (λ lineAmount,
      result_map (cons (item, lineAmount)) (processItems rest))
  end.

(** the rows from the [i]-th on *)
(* cloud-server index.ts:1635-1689 PostgresProcurementService.createPurchaseOrder *)
Fixpoint insertOrderItems (draws : ProcurementDraws.t) (organizationId poId : string) (i : nat) (items : list (OrderItemInput.t * string)) :
    ProcTx (list OrderItemRow.t) :=
  match items with
  | [] => mret []
  | (item, lineAmount) :: rest =>
      quantity ← lift (decimalColumn (OrderItemInput.orderedQuantity item));
      cost ← lift (decimalColumn (OrderItemInput.unitCost item));
      amount ← lift (decimalColumn lineAmount);
      let row := OrderItemRow.mk (ProcurementDraws.itemId draws i) organizationId poId (OrderItemInput.ingredientId item) quantity cost amount
        (ProcurementDraws.now draws) in
      insertOrderItem row ;;
      saved ← insertOrderItems draws organizationId poId (S i) rest;
      mret (row :: saved)
  end.

(* cloud-server index.ts:1537-1703 PostgresProcurementService.createPurchaseOrder *)
Definition createPurchaseOrder (draws : ProcurementDraws.t) (command : CreatePurchaseOrder.t) : ProcTx PurchaseOrder.t :=
  let org := CreatePurchaseOrder.organizationId command in
  throw_when (blank (CreatePurchaseOrder.orderNumber command)) InvalidPurchaseOrderError ;;
  throw_when (bool_decide (CreatePurchaseOrder.items command = [])) InvalidPurchaseOrderError ;;
  processedItems ← lift (processItems (CreatePurchaseOrder.items command));
  totalAmount ← lift (calculatePoTotalAmount (snd <$> processedItems));
  inTenantTransaction (
    suppliers ← gets ProcurementDb.suppliers;
    throw_when (negb (bool_decide (Exists (λ r, Supplier.organizationId r = org ∧ Supplier.id r = CreatePurchaseOrder.supplierId command ∧
      Supplier.isActive r = true) suppliers))) InvalidPurchaseOrderError ;;
    branches ← gets ProcurementDb.branches;
    throw_when (negb (bool_decide ((org, CreatePurchaseOrder.branchId command) ∈ branches))) InvalidPurchaseOrderError ;;
    ingredients ← gets ProcurementDb.ingredients;
    let ingredientIds := (λ p, OrderItemInput.ingredientId p.1) <$> processedItems in
    throw_when (negb (bool_decide (List.length (filter (λ p, p.1 = org ∧ p.2 ∈ ingredientIds) ingredients) = List.length ingredientIds)))
      InvalidPurchaseOrderError ;;
    total ← lift (decimalColumn totalAmount);
    let po := PurchaseOrderRow.mk (ProcurementDraws.rowId draws) org (CreatePurchaseOrder.branchId command)
      (CreatePurchaseOrder.supplierId command) (trim (CreatePurchaseOrder.orderNumber command)) PurchaseOrderStatus.DRAFT total
      (ProcurementDraws.now draws) (ProcurementDraws.now draws) in
    insertOrder po ;;
    savedItems ← insertOrderItems draws org (ProcurementDraws.rowId draws) 0 processedItems;
    mret (toOrder po savedItems)).

Definition setOrderStatus (organizationId id now : string) (status : PurchaseOrderStatus.t) : ProcTx unit :=
  modify (λ db, db <| ProcurementDb.purchase_orders ::= fmap (λ r, if decide (orderNamed organizationId id r)
    then r <| PurchaseOrderRow.status := status |> <| PurchaseOrderRow.updatedAt := now |> else r) |>).

(* cloud-server index.ts:1714-1755 PostgresProcurementService.sendPurchaseOrder *)
Definition sendPurchaseOrder (now organizationId purchaseOrderId : string) : ProcTx (option PurchaseOrder.t) :=
  inTenantTransaction (
    found ← gets (findOrder organizationId purchaseOrderId);
    po ← require found InvalidPurchaseOrderError;
    _ ← lift (validatePoTransition (PurchaseOrderRow.status po) PurchaseOrderStatus.SENT);
    setOrderStatus organizationId purchaseOrderId now PurchaseOrderStatus.SENT ;;
    getPurchaseOrderWithClient organizationId purchaseOrderId).

(* cloud-server index.ts:1757-1805 PostgresProcurementService.cancelPurchaseOrder *)
Definition cancelPurchaseOrder (now organizationId purchaseOrderId : string) : ProcTx (option PurchaseOrder.t) :=
  inTenantTransaction (
    found ← gets (findOrder organizationId purchaseOrderId);
    po ← require found InvalidPurchaseOrderError;
    receipts ← gets (λ db, filter (λ r, ReceiptRow.organizationId r = organizationId ∧ ReceiptRow.purchaseOrderId r = purchaseOrderId ∧
      ReceiptRow.status r = ReceiptStatus.CONFIRMED) (ProcurementDb.purchase_receipts db));
    _ ← lift (validateCanCancelPo (PurchaseOrderRow.status po) (negb (bool_decide (receipts = []))));
    setOrderStatus organizationId purchaseOrderId now PurchaseOrderStatus.CANCELLED ;;
    getPurchaseOrderWithClient organizationId purchaseOrderId).

(** ** Receipts *)

(* cloud-server index.ts:1897-1907 PostgresProcurementService.confirmPurchaseReceipt *)
Definition toReceiptItem (row : ReceiptItemRow.t) : PurchaseReceiptItem.t :=
  PurchaseReceiptItem.mk (ReceiptItemRow.id row) (ReceiptItemRow.organizationId row) (ReceiptItemRow.purchaseReceiptId row)
    (ReceiptItemRow.purchaseOrderItemId row) (ReceiptItemRow.ingredientId row) (columnText (ReceiptItemRow.receivedQuantity row))
    (columnText (ReceiptItemRow.acceptedUnitCost row)) (columnText (ReceiptItemRow.lineAmount row)) (ReceiptItemRow.createdAt row).

(* cloud-server index.ts:1965-1981 PostgresProcurementService.confirmPurchaseReceipt *)
Definition toReceipt (row : ReceiptRow.t) (items : list ReceiptItemRow.t) : PurchaseReceipt.t :=
  PurchaseReceipt.mk (ReceiptRow.id row) (ReceiptRow.organizationId row) (ReceiptRow.branchId row) (ReceiptRow.purchaseOrderId row)
    (ReceiptRow.supplierId row) (ReceiptRow.warehouseId row) (ReceiptRow.receiptNumber row) (ReceiptRow.invoiceReference row)
    (columnText (ReceiptRow.totalAmount row)) (ReceiptRow.status row) (ReceiptRow.receivedAt row) (ReceiptRow.createdAt row)
    (toReceiptItem <$> items).

Definition ofReceipt (org receiptId : string) (r : ReceiptItemRow.t) : Prop :=
  ReceiptItemRow.organizationId r = org ∧ ReceiptItemRow.purchaseReceiptId r = receiptId.
#[global] Instance ofReceipt_dec org receiptId r : Decision (ofReceipt org receiptId r).
Proof. unfold ofReceipt. solve_decision. Defined.

Definition receiptItemsOf (organizationId receiptId : string) (db : ProcurementDb.t) : list ReceiptItemRow.t :=
  filter (ofReceipt organizationId receiptId) (ProcurementDb.purchase_receipt_items db).

(** a receipt of the organisation that is confirmed *)
Definition confirmedReceipt (organizationId : string) (db : ProcurementDb.t) (receiptId : string) : Prop :=
  Exists (λ r, ReceiptRow.id r = receiptId ∧ ReceiptRow.organizationId r = organizationId ∧ ReceiptRow.status r = ReceiptStatus.CONFIRMED)
    (ProcurementDb.purchase_receipts db).

(** SELECT COALESCE(SUM(received_quantity), 0.0000) over the confirmed receipts *)
(* cloud-server index.ts:2064-2074 PostgresProcurementService.confirmPurchaseReceipt *)
Definition receivedOf (organizationId purchaseOrderItemId : string) (db : ProcurementDb.t) : Z :=
  sumZ ReceiptItemRow.receivedQuantity (filter (λ r, ReceiptItemRow.purchaseOrderItemId r = purchaseOrderItemId ∧
    confirmedReceipt organizationId db (ReceiptItemRow.purchaseReceiptId r)) (ProcurementDb.purchase_receipt_items db)).

Definition optionalString (o : option string) : Json := match o with Some s => JString s | None => JNull end.

(** the event as JSON *)
(* cloud-server index.ts:2284-2307 PostgresProcurementService.confirmPurchaseReceipt *)
Definition recepcionJson (p : Recepcion.t) : Json :=
  JObject [("recepcionId", JString (Recepcion.recepcionId p)); ("organizationId", JString (Recepcion.organizationId p));
    ("branchId", JString (Recepcion.branchId p)); ("supplierId", JString (Recepcion.supplierId p));
    ("purchaseOrderId", JString (Recepcion.purchaseOrderId p)); ("warehouseId", JString (Recepcion.warehouseId p));
    ("receiptNumber", JString (Recepcion.receiptNumber p)); ("invoiceReference", optionalString (Recepcion.invoiceReference p));
    ("receivedAt", JString (Recepcion.receivedAt p)); ("paymentTerms", optionalString (Recepcion.paymentTerms p));
    ("totalAmount", JString (Recepcion.totalAmount p));
    ("items", JArray ((λ i, JObject [("ingredientId", JString (RecepcionItem.ingredientId i));
      ("purchaseOrderItemId", JString (RecepcionItem.purchaseOrderItemId i)); ("orderedQuantity", JString (RecepcionItem.orderedQuantity i));
      ("previouslyReceivedQuantity", JString (RecepcionItem.previouslyReceivedQuantity i));
      ("receivedQuantity", JString (RecepcionItem.receivedQuantity i));
      ("cumulativeReceivedQuantity", JString (RecepcionItem.cumulativeReceivedQuantity i));
      ("remainingQuantity", JString (RecepcionItem.remainingQuantity i)); ("acceptedUnitCost", JString (RecepcionItem.acceptedUnitCost i));
      ("lineAmount", JString (RecepcionItem.lineAmount i))]) <$> Recepcion.items p))].

(** the event the outbox holds for a receipt *)
(* cloud-server index.ts:1942-1953 PostgresProcurementService.confirmPurchaseReceipt *)
Definition receiptEvents (organizationId branchId receiptId : string) (db : ProcurementDb.t) : list IntegrationEvent.t :=
  filter (λ e, IntegrationEvent.organizationId e = organizationId ∧ IntegrationEvent.branchId e = Some branchId ∧
      IntegrationEvent.eventType e = "RecepcionCompraRegistrada" ∧ IntegrationEvent.aggregateType e = "PURCHASE_RECEIPT" ∧
      IntegrationEvent.aggregateId e = receiptId) (DispatchDb.outbox (ProcurementDb.integration db)).

(** a line of the receipt stored and a line of the command *)
(* cloud-server index.ts:1925-1938 PostgresProcurementService.confirmPurchaseReceipt *)
Definition sameLine (ex : PurchaseReceiptItem.t) (inc : ReceiptItemInput.t) : R unit :=
  if negb (bool_decide (PurchaseReceiptItem.purchaseOrderItemId ex = ReceiptItemInput.purchaseOrderItemId inc)) ||
     negb (bool_decide (PurchaseReceiptItem.ingredientId ex = ReceiptItemInput.ingredientId inc))
  then Err ReceiptIdempotencyConflictError
  else
    let parse s := match parseDecimal12x4 s with Ok z => Ok z | Err (InventoryJs e) => Err (ProcurementJs e) | Err _ => Err (ProcurementPg "") end in
    let same a b := result_bind (parse a) (λ x, result_map (λ y, x =? y) (parse b)) in
    result_bind (same (PurchaseReceiptItem.receivedQuantity ex) (ReceiptItemInput.receivedQuantity inc)) (λ b,
    if negb b then Err ReceiptIdempotencyConflictError else
    result_bind (same (PurchaseReceiptItem.acceptedUnitCost ex) (ReceiptItemInput.acceptedUnitCost inc)) (λ b,
    if negb b then Err ReceiptIdempotencyConflictError else Ok tt)).

Fixpoint sameLines (existing : list PurchaseReceiptItem.t) (incoming : list ReceiptItemInput.t) : R unit :=
  match existing, incoming with
  | ex :: existing', inc :: incoming' => result_bind (sameLine ex inc) (λ _, sameLines existing' incoming')
  | _, _ => Ok tt
  end.

(** the receipt number is taken: the stored receipt and its event, if the command repeats it *)
(* cloud-server index.ts:1865-1989 PostgresProcurementService.confirmPurchaseReceipt *)
Definition replayReceipt (command : ConfirmReceipt.t) (po : PurchaseOrderRow.t) (er : ReceiptRow.t) : ProcTx ConfirmResult.t :=
  throw_when (negb (bool_decide (ReceiptRow.purchaseOrderId er = ConfirmReceipt.purchaseOrderId command ∧
    ReceiptRow.supplierId er = ConfirmReceipt.supplierId command ∧ ReceiptRow.warehouseId er = ConfirmReceipt.warehouseId command)))
    ReceiptIdempotencyConflictError ;;
  rows ← gets (receiptItemsOf (ConfirmReceipt.organizationId command) (ReceiptRow.id er));
  let existingItems := toReceiptItem <$> rows in
  throw_when (negb (List.length existingItems =? List.length (ConfirmReceipt.items command))%nat) ReceiptIdempotencyConflictError ;;
  let sortedExisting := orderBy PurchaseReceiptItem.purchaseOrderItemId (orderBy PurchaseReceiptItem.ingredientId existingItems) in
  let sortedIncoming := orderBy ReceiptItemInput.purchaseOrderItemId (orderBy ReceiptItemInput.ingredientId (ConfirmReceipt.items command)) in
  _ ← lift (sameLines sortedExisting sortedIncoming);
  events ← gets (receiptEvents (ConfirmReceipt.organizationId command) (ConfirmReceipt.branchId command) (ReceiptRow.id er));
  match events with
  | [event] => mret (ConfirmResult.mk ConfirmStatus.DUPLICATE_ACCEPTED (toReceipt er rows) (IntegrationEvent.payload event)
      (PurchaseOrderRow.status po))
  | _ => mthrow ReceiptOutboxIntegrityError
  end.

(** one line of the command against its order item *)
(* cloud-server index.ts:2051-2120 PostgresProcurementService.confirmPurchaseReceipt *)
Definition processLine (policy : option PriceVariancePolicy) (command : ConfirmReceipt.t) (db : ProcurementDb.t) (allPoItems : list OrderItemRow.t)
    (itemInput : ReceiptItemInput.t) : R RecepcionItem.t :=
  match list_find (λ it, OrderItemRow.id it = ReceiptItemInput.purchaseOrderItemId itemInput) allPoItems with
  | None => Err InvalidReceiptItemError
  | Some (_, poItem) =>
      if negb (bool_decide (OrderItemRow.ingredientId poItem = ReceiptItemInput.ingredientId itemInput)) then Err InvalidReceiptItemError else
      let previouslyReceived := columnText (receivedOf (ConfirmReceipt.organizationId command) (ReceiptItemInput.purchaseOrderItemId itemInput) db) in
      let ordered := columnText (OrderItemRow.orderedQuantity poItem) in
      let received := ReceiptItemInput.receivedQuantity itemInput in
      result_bind (evaluatePriceVariance (PriceVarianceContext.mk (ConfirmReceipt.organizationId command) (ConfirmReceipt.branchId command)
        (ConfirmReceipt.supplierId command) (ReceiptItemInput.ingredientId itemInput) (columnText (OrderItemRow.unitCost poItem))
        (ReceiptItemInput.acceptedUnitCost itemInput) (ConfirmReceipt.supervisorAuthorizationToken command)) policy) (λ _,
      result_bind (evaluateOverReceipt ordered previouslyReceived received) (λ _,
      result_bind (calculateReceiptItemLineAmount received (ReceiptItemInput.acceptedUnitCost itemInput)) (λ lineAmount,
      result_map (λ cum, RecepcionItem.mk (ReceiptItemInput.ingredientId itemInput) (ReceiptItemInput.purchaseOrderItemId itemInput) ordered
          previouslyReceived received (CumulativeQuantity.cumulativeReceivedQuantity cum) (CumulativeQuantity.remainingQuantity cum)
          (ReceiptItemInput.acceptedUnitCost itemInput) lineAmount)
        (deriveCumulativeReceivingQuantities ordered previouslyReceived received))))
  end.

Fixpoint processLines (policy : option PriceVariancePolicy) (command : ConfirmReceipt.t) (db : ProcurementDb.t) (allPoItems : list OrderItemRow.t)
    (items : list ReceiptItemInput.t) : R (list RecepcionItem.t) :=
  match items with
  | [] => Ok []
  | item :: rest =>
      result_bind (processLine policy command db allPoItems item) (λ line,
        result_map (cons line) (processLines policy command db allPoItems rest))
  end.

(* cloud-server index.ts:2138-2178 PostgresProcurementService.confirmPurchaseReceipt, INSERT *)
Definition insertReceipt (row : ReceiptRow.t) : ProcTx unit :=
  rows ← gets ProcurementDb.purchase_receipts;
  throw_when (negb (fits 100 (ReceiptRow.receiptNumber row) && match ReceiptRow.invoiceReference row with Some s => fits 100 s | None => true end))
    (ProcurementPg "value too long") ;;
  throw_when (bool_decide (ReceiptRow.id row ∈ (ReceiptRow.id <$> rows))) (ProcurementPg "purchase_receipts_pkey") ;;
  throw_when (bool_decide (Exists (λ r, ReceiptRow.organizationId r = ReceiptRow.organizationId row ∧ ReceiptRow.branchId r = ReceiptRow.branchId row ∧
      ReceiptRow.receiptNumber r = ReceiptRow.receiptNumber row) rows)) (ProcurementPg "uq_purchase_receipts_org_branch_number") ;;
  modify (λ db, db <| ProcurementDb.purchase_receipts ::= λ l, l ++ [row] |>).

Definition insertReceiptItem (row : ReceiptItemRow.t) : ProcTx unit :=
  rows ← gets ProcurementDb.purchase_receipt_items;
  throw_when (bool_decide (ReceiptItemRow.id row ∈ (ReceiptItemRow.id <$> rows))) (ProcurementPg "purchase_receipt_items_pkey") ;;
  modify (λ db, db <| ProcurementDb.purchase_receipt_items ::= λ l, l ++ [row] |>).

(* cloud-server index.ts:2180-2236 PostgresProcurementService.confirmPurchaseReceipt *)
Fixpoint insertReceiptItems (draws : ProcurementDraws.t) (organizationId receiptId : string) (i : nat) (lines : list RecepcionItem.t) :
    ProcTx (list ReceiptItemRow.t) :=
  match lines with
  | [] => mret []
  | line :: rest =>
      quantity ← lift (decimalColumn (RecepcionItem.receivedQuantity line));
      cost ← lift (decimalColumn (RecepcionItem.acceptedUnitCost line));
      amount ← lift (decimalColumn (RecepcionItem.lineAmount line));
      let row := ReceiptItemRow.mk (ProcurementDraws.itemId draws i) organizationId receiptId (RecepcionItem.purchaseOrderItemId line)
        (RecepcionItem.ingredientId line) quantity cost amount (ProcurementDraws.now draws) in
      insertReceiptItem row ;;
      saved ← insertReceiptItems draws organizationId receiptId (S i) rest;
      mret (row :: saved)
  end.

(* cloud-server index.ts:2238-2254 PostgresProcurementService.confirmPurchaseReceipt *)
Fixpoint fullyReceived (organizationId : string) (db : ProcurementDb.t) (allPoItems : list OrderItemRow.t) : R bool :=
  match allPoItems with
  | [] => Ok true
  | poItem :: rest =>
      result_bind (ProcurementNumerics.cmpScale4 (columnText (receivedOf organizationId (OrderItemRow.id poItem) db))
        (columnText (OrderItemRow.orderedQuantity poItem))) (λ c,
      result_map (andb (match c with Lt => false | _ => true end)) (fullyReceived organizationId db rest))
  end.

(** [outboxService.enqueue(client, ...)] *)
Definition onOutbox {A} (m : DTx A) : ProcTx A := λ db,
  let '(d', r) := m (ProcurementDb.integration db) in
  (db <| ProcurementDb.integration := d' |>, match r with Ok a => Ok a | Err e => Err (ProcurementOutbox e) end).

(* cloud-server index.ts:2284-2317 PostgresProcurementService.confirmPurchaseReceipt *)
Definition recepcionOf (command : ConfirmReceipt.t) (receipt : ReceiptRow.t) (lines : list RecepcionItem.t) : Recepcion.t :=
  Recepcion.mk (ReceiptRow.id receipt) (ReceiptRow.organizationId receipt) (ReceiptRow.branchId receipt) (ReceiptRow.supplierId receipt)
    (ReceiptRow.purchaseOrderId receipt) (ReceiptRow.warehouseId receipt) (ReceiptRow.receiptNumber receipt) (ReceiptRow.invoiceReference receipt)
    (ReceiptRow.receivedAt receipt) (ConfirmReceipt.paymentTerms command) (columnText (ReceiptRow.totalAmount receipt)) lines.

(** a receipt with a new number *)
(* cloud-server index.ts:1991-2325 PostgresProcurementService.confirmPurchaseReceipt *)
Definition newReceipt (draws : ProcurementDraws.t) (policy : option PriceVariancePolicy) (command : ConfirmReceipt.t) (po : PurchaseOrderRow.t) :
    ProcTx ConfirmResult.t :=
  let org := ConfirmReceipt.organizationId command in
  throw_when (bool_decide (PurchaseOrderRow.status po = PurchaseOrderStatus.CANCELLED)) PurchaseOrderCancelledError ;;
  throw_when (bool_decide (PurchaseOrderRow.status po = PurchaseOrderStatus.RECEIVED)) InvalidPurchaseOrderError ;;
  throw_when (bool_decide (PurchaseOrderRow.status po = PurchaseOrderStatus.DRAFT)) InvalidPurchaseOrderError ;;
  throw_when (negb (bool_decide (PurchaseOrderRow.supplierId po = ConfirmReceipt.supplierId command))) InvalidPurchaseOrderError ;;
  throw_when (negb (bool_decide (PurchaseOrderRow.branchId po = ConfirmReceipt.branchId command))) InvalidPurchaseOrderError ;;
  warehouses ← gets ProcurementDb.warehouses;
  throw_when (negb (bool_decide ((org, ConfirmReceipt.branchId command, ConfirmReceipt.warehouseId command) ∈ warehouses)))
    InvalidReceiptItemError ;;
  allPoItems ← gets (orderItems org (ConfirmReceipt.purchaseOrderId command));
  processed ← gets (λ db, processLines policy command db allPoItems (ConfirmReceipt.items command));
  lines ← lift processed;
  totalReceiptAmount ← lift (calculateReceiptTotalAmount (RecepcionItem.lineAmount <$> lines));
  total ← lift (decimalColumn totalReceiptAmount);
  let receipt := ReceiptRow.mk (ProcurementDraws.rowId draws) org (ConfirmReceipt.branchId command) (ConfirmReceipt.purchaseOrderId command)
    (ConfirmReceipt.supplierId command) (ConfirmReceipt.warehouseId command) (trim (ConfirmReceipt.receiptNumber command))
    (trim <$> ConfirmReceipt.invoiceReference command) total ReceiptStatus.CONFIRMED
    (default (ProcurementDraws.now draws) (ConfirmReceipt.receivedAt command)) (ProcurementDraws.now draws) in
  insertReceipt receipt ;;
  savedItems ← insertReceiptItems draws org (ReceiptRow.id receipt) 0 lines;
  full ← gets (λ db, fullyReceived org db allPoItems);
  allItemsFullyReceived ← lift full;
  let updatedPoStatus := determinePostReceiptPoStatus allItemsFullyReceived in
  setOrderStatus org (ConfirmReceipt.purchaseOrderId command) (ProcurementDraws.now draws) updatedPoStatus ;;
  let eventPayload := recepcionJson (recepcionOf command receipt lines) in
  _ ← onOutbox (enqueueIntegration (ProcurementDraws.outboxId draws) (ProcurementDraws.nowMs draws)
    (IntegrationInput.mk org (Some (ConfirmReceipt.branchId command)) "RecepcionCompraRegistrada" "PURCHASE_RECEIPT" (ReceiptRow.id receipt)
      eventPayload None));
  mret (ConfirmResult.mk ConfirmStatus.APPLIED (toReceipt receipt savedItems) eventPayload updatedPoStatus).

Definition findReceipt (organizationId branchId receiptNumber : string) (db : ProcurementDb.t) : option ReceiptRow.t :=
  snd <$> list_find (λ r, ReceiptRow.organizationId r = organizationId ∧ ReceiptRow.branchId r = branchId ∧
    ReceiptRow.receiptNumber r = receiptNumber) (ProcurementDb.purchase_receipts db).

(* cloud-server index.ts:1807-1866 PostgresProcurementService.confirmPurchaseReceipt *)
Definition confirmPurchaseReceipt (draws : ProcurementDraws.t) (policy : option PriceVariancePolicy) (command : ConfirmReceipt.t) :
    ProcTx ConfirmResult.t :=
  throw_when (blank (ConfirmReceipt.receiptNumber command)) InvalidReceiptItemError ;;
  throw_when (bool_decide (ConfirmReceipt.items command = [])) InvalidReceiptItemError ;;
  inTenantTransaction (
    found ← gets (findOrder (ConfirmReceipt.organizationId command) (ConfirmReceipt.purchaseOrderId command));
    po ← require found InvalidPurchaseOrderError;
    existing ← gets (findReceipt (ConfirmReceipt.organizationId command) (ConfirmReceipt.branchId command) (trim (ConfirmReceipt.receiptNumber command)));
    match existing with
    | Some er => replayReceipt command po er
    | None => newReceipt draws policy command po
    end).

(* cloud-server index.ts:2328-2404 PostgresProcurementService.getPurchaseReceipt *)
Definition getPurchaseReceipt (organizationId purchaseReceiptId : string) : ProcTx (option PurchaseReceipt.t) :=
  inTenantTransaction (gets (λ db, (λ r, toReceipt r.2 (receiptItemsOf organizationId (ReceiptRow.id r.2) db)) <$>
    list_find (λ r, ReceiptRow.organizationId r = organizationId ∧ ReceiptRow.id r = purchaseReceiptId) (ProcurementDb.purchase_receipts db))).
