(* ===== verification/ProcurementSpec.v ===== *)
(** What procurement guarantees: orders, receipts, lines and events agree; an order item is
    never received beyond what was ordered as long as no receipt names it twice; a receipt is
    confirmed once and its retries are answered with what was stored. *)
From S2P Require Import Prelude Decimals Money Scale4 Json AuditTrail Ingestion Recipes Dispatch DispatchSpec Procurement.
From Stdlib Require Import Ascii String.

(** ** Decimal strings *)

Lemma decimalColumn_ok s z : decimalColumn s = Ok z ↔ amount s z.
Proof. unfold decimalColumn, amount. destruct (decimalStringToScaledBigInt s) as [?|[]]; naive_solver. Qed.

Lemma require_that_ok b e : require_that b e = Ok tt ↔ b = Ok true.
Proof. unfold require_that. destruct b as [[]|]; naive_solver. Qed.

(** an amount per line: quantity times cost, rounded *)
Lemma line_amount_ok e q c s :
  result_bind (require_that (ProcurementNumerics.isPositiveScale4 q) e) (λ _,
    result_bind (require_that (ProcurementNumerics.isNonNegativeScale4 c) e) (λ _, ProcurementNumerics.mulScale4 q c)) = Ok s ↔
  ∃ x y, amount q x ∧ 0 < x ∧ amount c y ∧ 0 <= y ∧ s = columnText (calculateLineSubtotal y x).
Proof.
  split.
  - intros ([] & H1 & ([] & H2 & (x & y & Hx & Hy & ->)%mulScale4_ok)%result_bind_ok)%result_bind_ok. apply require_that_ok, positive_ok in H1 as (x' & Hx' & ?).
    apply require_that_ok, nonnegative_ok in H2 as (y' & Hy' & ?). rewrite (amount_unique _ _ _ Hx' Hx), (amount_unique _ _ _ Hy' Hy) in *. eauto 10.
  - intros (x & y & Hx & ? & Hy & ? & ->). apply result_bind_ok. exists tt. split; [apply require_that_ok, positive_ok; eauto|].
    apply result_bind_ok. exists tt. split; [apply require_that_ok, nonnegative_ok; eauto|]. apply mulScale4_ok. eauto.
Qed.

(** the total of the amounts, if no partial sum leaves the range *)
Lemma addAmounts_ok t z l s zs :
  addAmounts t l = Ok s → t = columnText z → Forall2 amount l zs → s = columnText (z + sumZ (λ x, x) zs).
Proof.
  intros H Ht Hl. revert t z s Ht H. induction Hl as [|a x l zs Ha _ IH]; intros t z s -> H.
  - injection H as <-. by rewrite sumZ_nil, Z.add_0_r.
  - cbn [addAmounts] in H. apply result_bind_ok in H as (t' & Ht' & H). apply addScale4_ok in Ht' as (x1 & x2 & H1 & H2 & ->).
    apply amount_columnText in H1 as [-> _]. rewrite (amount_unique _ _ _ H2 Ha) in H. rewrite (IH _ _ _ eq_refl H), sumZ_cons. f_equal. lia.
Qed.

Lemma total_ok l s zs : addAmounts ProcurementNumerics.ZERO_SCALE4 l = Ok s → Forall2 amount l zs → s = columnText (sumZ (λ x, x) zs).
Proof. intros H Hl. by rewrite (addAmounts_ok _ 0 _ _ _ H eq_refl Hl). Qed.

(** ** Lines of a receipt *)

(** a processed line against the item it receives, with its quantity and cost *)
Record lineOf (org : string) (db : ProcurementDb.t) (allPoItems : list OrderItemRow.t) (line : RecepcionItem.t) (it : OrderItemRow.t) (q c : Z) :
  Prop := LineOf {
  line_in : it ∈ allPoItems;
  line_item : RecepcionItem.purchaseOrderItemId line = OrderItemRow.id it;
  line_ingredient : RecepcionItem.ingredientId line = OrderItemRow.ingredientId it;
  line_quantity : amount (RecepcionItem.receivedQuantity line) q ∧ 0 < q;
  line_cost : amount (RecepcionItem.acceptedUnitCost line) c ∧ 0 <= c;
  line_amount : RecepcionItem.lineAmount line = columnText (calculateLineSubtotal c q);
  line_within : receivedOf org (OrderItemRow.id it) db + q <= OrderItemRow.orderedQuantity it }.

Lemma processLine_ok policy command db allPoItems input line :
  processLine policy command db allPoItems input = Ok line →
  ∃ it q c, lineOf (ConfirmReceipt.organizationId command) db allPoItems line it q c ∧
    RecepcionItem.purchaseOrderItemId line = ReceiptItemInput.purchaseOrderItemId input ∧
    RecepcionItem.ingredientId line = ReceiptItemInput.ingredientId input ∧
    RecepcionItem.receivedQuantity line = ReceiptItemInput.receivedQuantity input ∧
    RecepcionItem.acceptedUnitCost line = ReceiptItemInput.acceptedUnitCost input.
Proof.
  unfold processLine. destruct (list_find _ allPoItems) as [[i it]|] eqn:Hfind; [|done].
  apply list_find_Some in Hfind as (Hl & Hid & _). destruct (bool_decide _) eqn:Hing; [|done]. apply bool_decide_eq_true in Hing. cbn [negb].
  intros ([] & _ & ([] & Hover & (s & Hs & (cum & _ & ->)%result_map_ok)%result_bind_ok)%result_bind_ok)%result_bind_ok.
  apply line_amount_ok in Hs as (q & c & Hq & ? & Hc & ? & ->). exists it, q, c. split; [|done].
  split; cbn; try done; [by eapply list_elem_of_lookup_2|].
  unfold evaluateOverReceipt in Hover. apply result_bind_ok in Hover as (t & (x & y & Hx & Hy & ->)%addScale4_ok & Hover).
  apply result_bind_ok in Hover as (o & (x' & y' & Hx' & Hy' & ->)%cmpScale4_ok & Hover).
  apply amount_columnText in Hx as [-> _], Hx' as [-> _], Hy' as [-> _]. rewrite (amount_unique _ _ _ Hy Hq) in Hover. rewrite <-Hid in Hover.
  destruct (Z.compare_spec (receivedOf (ConfirmReceipt.organizationId command) (OrderItemRow.id it) db + q) (OrderItemRow.orderedQuantity it));
    [lia|lia|done].
Qed.

Lemma processLines_ok policy command db allPoItems inputs lines :
  processLines policy command db allPoItems inputs = Ok lines →
  Forall2 (λ line input, ∃ it q c, lineOf (ConfirmReceipt.organizationId command) db allPoItems line it q c ∧
    RecepcionItem.purchaseOrderItemId line = ReceiptItemInput.purchaseOrderItemId input ∧
    RecepcionItem.ingredientId line = ReceiptItemInput.ingredientId input ∧
    RecepcionItem.receivedQuantity line = ReceiptItemInput.receivedQuantity input ∧
    RecepcionItem.acceptedUnitCost line = ReceiptItemInput.acceptedUnitCost input) lines inputs.
Proof.
  revert lines. induction inputs as [|input inputs IH]; intros lines; cbn [processLines].
  - intros [= <-]. constructor.
  - intros (line & Hline & (lines' & Hl & ->)%result_map_ok)%result_bind_ok. constructor; [by eapply processLine_ok|by apply IH].
Qed.

(** a stored row of a line *)
Definition rowOf (org receiptId now : string) (line : RecepcionItem.t) (row : ReceiptItemRow.t) : Prop :=
  ReceiptItemRow.organizationId row = org ∧ ReceiptItemRow.purchaseReceiptId row = receiptId ∧ ReceiptItemRow.createdAt row = now ∧
  ReceiptItemRow.purchaseOrderItemId row = RecepcionItem.purchaseOrderItemId line ∧ ReceiptItemRow.ingredientId row = RecepcionItem.ingredientId line ∧
  amount (RecepcionItem.receivedQuantity line) (ReceiptItemRow.receivedQuantity row) ∧
  amount (RecepcionItem.acceptedUnitCost line) (ReceiptItemRow.acceptedUnitCost row) ∧
  amount (RecepcionItem.lineAmount line) (ReceiptItemRow.lineAmount row).

Lemma insertReceiptItems_ok draws org receiptId i lines db db' rows :
  insertReceiptItems draws org receiptId i lines db = (db', Ok rows) →
  db' = db <| ProcurementDb.purchase_receipt_items ::= λ l, l ++ rows |> ∧ Forall2 (rowOf org receiptId (ProcurementDraws.now draws)) lines rows ∧
  (NoDup (ReceiptItemRow.id <$> ProcurementDb.purchase_receipt_items db) → NoDup (ReceiptItemRow.id <$> ProcurementDb.purchase_receipt_items db')).
Proof.
  revert i db rows. induction lines as [|line lines IH]; intros i db rows H; cbn [insertReceiptItems] in H.
  - minv H. split_and!; [|constructor|done]. match goal with |- ?d = _ => destruct d end. cbv [set ProcurementDb.eta_t]. cbn. by rewrite app_nil_r.
  - minv H. apply decimalColumn_ok in Hval, Hval0, Hval1. unfold insertReceiptItem in Hstep. minv Hstep. rewrite bool_decide_eq_false in Hguard.
    apply IH in Hstep0 as (-> & Hrows & Hnd). split_and!.
    + destruct db; cbv [set ProcurementDb.eta_t]; cbn. by rewrite <-app_assoc.
    + constructor; [|done]. by split_and!.
    + intros Hn. apply Hnd. cbn. rewrite fmap_app. by apply NoDup_snoc.
Qed.

Lemma fullyReceived_ok org db items b :
  fullyReceived org db items = Ok b → b = true ↔ Forall (λ it, OrderItemRow.orderedQuantity it <= receivedOf org (OrderItemRow.id it) db) items.
Proof.
  revert b. induction items as [|it items IH]; intros b; cbn [fullyReceived].
  - intros [= <-]. split; [constructor|done].
  - intros (c & (x & y & Hx & Hy & ->)%cmpScale4_ok & (b' & Hb & ->)%result_map_ok)%result_bind_ok.
    apply amount_columnText in Hx as [-> _], Hy as [-> _]. rewrite Forall_cons, <-(IH _ Hb), andb_true_iff.
    destruct (Z.compare_spec (receivedOf org (OrderItemRow.id it) db) (OrderItemRow.orderedQuantity it)); intuition (done || lia).
Qed.

(** ** A new receipt in one piece *)

Definition newReceiptRow (draws : ProcurementDraws.t) (command : ConfirmReceipt.t) (total : Z) : ReceiptRow.t :=
  ReceiptRow.mk (ProcurementDraws.rowId draws) (ConfirmReceipt.organizationId command) (ConfirmReceipt.branchId command)
    (ConfirmReceipt.purchaseOrderId command) (ConfirmReceipt.supplierId command) (ConfirmReceipt.warehouseId command)
    (trim (ConfirmReceipt.receiptNumber command)) (trim <$> ConfirmReceipt.invoiceReference command) total ReceiptStatus.CONFIRMED
    (default (ProcurementDraws.now draws) (ConfirmReceipt.receivedAt command)) (ProcurementDraws.now draws).

Definition withStatus (org id now : string) (status : PurchaseOrderStatus.t) (r : PurchaseOrderRow.t) : PurchaseOrderRow.t :=
  if decide (orderNamed org id r) then r <| PurchaseOrderRow.status := status |> <| PurchaseOrderRow.updatedAt := now |> else r.

(** the tables between the insertion of the receipt and the update of the order *)
Definition received (receipt : ReceiptRow.t) (rows : list ReceiptItemRow.t) (db : ProcurementDb.t) : ProcurementDb.t :=
  db <| ProcurementDb.purchase_receipts ::= λ l, l ++ [receipt] |> <| ProcurementDb.purchase_receipt_items ::= λ l, l ++ rows |>.

Definition numberOf (r : ReceiptRow.t) := (ReceiptRow.organizationId r, ReceiptRow.branchId r, ReceiptRow.receiptNumber r).

Record newReceiptSpec (draws : ProcurementDraws.t) (policy : option PriceVariancePolicy) (command : ConfirmReceipt.t) (po : PurchaseOrderRow.t)
    (db db' : ProcurementDb.t) (res : ConfirmResult.t) (lines : list RecepcionItem.t) (rows : list ReceiptItemRow.t) (total : Z) (full : bool)
    (event : IntegrationEvent.t) : Prop := NewReceipt {
  nr_status : PurchaseOrderRow.status po = PurchaseOrderStatus.SENT ∨ PurchaseOrderRow.status po = PurchaseOrderStatus.PARTIAL;
  nr_order : PurchaseOrderRow.supplierId po = ConfirmReceipt.supplierId command ∧ PurchaseOrderRow.branchId po = ConfirmReceipt.branchId command;
  nr_lines : processLines policy command db (orderItems (ConfirmReceipt.organizationId command) (ConfirmReceipt.purchaseOrderId command) db)
    (ConfirmReceipt.items command) = Ok lines;
  nr_rows : Forall2 (rowOf (ConfirmReceipt.organizationId command) (ProcurementDraws.rowId draws) (ProcurementDraws.now draws)) lines rows;
  nr_total : total = sumZ ReceiptItemRow.lineAmount rows;
  nr_fresh : ProcurementDraws.rowId draws ∉ (ReceiptRow.id <$> ProcurementDb.purchase_receipts db) ∧
    numberOf (newReceiptRow draws command total) ∉ (numberOf <$> ProcurementDb.purchase_receipts db);
  nr_ids : NoDup (ReceiptItemRow.id <$> ProcurementDb.purchase_receipt_items db) →
    NoDup (ReceiptItemRow.id <$> ProcurementDb.purchase_receipt_items db ++ rows);
  nr_full : fullyReceived (ConfirmReceipt.organizationId command) (received (newReceiptRow draws command total) rows db)
    (orderItems (ConfirmReceipt.organizationId command) (ConfirmReceipt.purchaseOrderId command) db) = Ok full;
  nr_event : jsonb (recepcionJson (recepcionOf command (newReceiptRow draws command total) lines)) = Ok (IntegrationEvent.payload event) ∧
    IntegrationEvent.organizationId event = ConfirmReceipt.organizationId command ∧
    IntegrationEvent.branchId event = Some (ConfirmReceipt.branchId command) ∧
    IntegrationEvent.eventType event = "RecepcionCompraRegistrada" ∧ IntegrationEvent.aggregateType event = "PURCHASE_RECEIPT" ∧
    IntegrationEvent.aggregateId event = ProcurementDraws.rowId draws;
  nr_db : ProcurementDb.purchase_orders db' = withStatus (ConfirmReceipt.organizationId command) (ConfirmReceipt.purchaseOrderId command)
      (ProcurementDraws.now draws) (determinePostReceiptPoStatus full) <$> ProcurementDb.purchase_orders db ∧
    ProcurementDb.purchase_order_items db' = ProcurementDb.purchase_order_items db ∧
    ProcurementDb.purchase_receipts db' = ProcurementDb.purchase_receipts db ++ [newReceiptRow draws command total] ∧
    ProcurementDb.purchase_receipt_items db' = ProcurementDb.purchase_receipt_items db ++ rows ∧
    DispatchDb.outbox (ProcurementDb.integration db') = DispatchDb.outbox (ProcurementDb.integration db) ++ [event];
  nr_result : res = ConfirmResult.mk ConfirmStatus.APPLIED (toReceipt (newReceiptRow draws command total) rows)
    (recepcionJson (recepcionOf command (newReceiptRow draws command total) lines)) (determinePostReceiptPoStatus full) }.

Lemma rows_amounts org receiptId now lines rows :
  Forall2 (rowOf org receiptId now) lines rows → Forall2 amount (RecepcionItem.lineAmount <$> lines) (ReceiptItemRow.lineAmount <$> rows).
Proof. intros H. apply Forall2_fmap. eapply Forall2_impl; [exact H|]. intros line row Hr. apply Hr. Qed.

Lemma onOutbox_ok {A} (m : DTx A) db db' a :
  onOutbox m db = (db', Ok a) → ∃ d, m (ProcurementDb.integration db) = (d, Ok a) ∧ db' = db <| ProcurementDb.integration := d |>.
Proof. unfold onOutbox. destruct (m _) as [d [a'|e]]; intros H; [|done]. injection H as <- <-. by exists d. Qed.

Lemma newReceipt_ok draws policy command po db db' res :
  newReceipt draws policy command po db = (db', Ok res) →
  ∃ lines rows total full event, newReceiptSpec draws policy command po db db' res lines rows total full event.
Proof.
  intros H. unfold newReceipt in H. minv H. apply decimalColumn_ok in Hval1.
  unfold insertReceipt in Hstep. minv Hstep. apply insertReceiptItems_ok in Hstep0 as (-> & Hrows & Hnd).
  unfold setOrderStatus in Hstep1. minv Hstep1. apply onOutbox_ok in Hstep2 as (d & Henq & ->).
  apply enqueueIntegration_ok in Henq as (Hout & Hjson & Horg & Hbr & Hty & Hag & Hid).
  rewrite bool_decide_eq_false in *. rewrite negb_false_iff, bool_decide_eq_true in *.
  assert (Htotal : val1 = sumZ ReceiptItemRow.lineAmount r0).
  { pose proof (total_ok _ _ _ Hval0 (rows_amounts _ _ _ _ _ Hrows)) as ->. rewrite sumZ_fmap in Hval1.
    by apply amount_columnText in Hval1 as [-> _]. }
  exists val, r0, val1, val2, r2. fold (newReceiptRow draws command val1) in *. split.
  - destruct (PurchaseOrderRow.status po); tauto.
  - done.
  - done.
  - done.
  - done.
  - split; [done|]. intros Hin. apply list_elem_of_fmap in Hin as (r' & Hn & Hin). unfold numberOf in Hn. injection Hn as H1 H2 H3.
    match goal with H : ¬ Exists _ _ |- _ => apply H, Exists_exists; exists r' end. by split_and!.
  - exact Hnd.
  - done.
  - by split_and!.
  - by split_and!.
  - done.
Qed.

(** ** The book *)

(** what all receipts received of an order item *)
Definition receivedQty (itemId : string) (rows : list ReceiptItemRow.t) : Z :=
  sumZ ReceiptItemRow.receivedQuantity (filter (λ r, ReceiptItemRow.purchaseOrderItemId r = itemId) rows).

Definition itemOk (orders : list PurchaseOrderRow.t) (it : OrderItemRow.t) : Prop :=
  0 < OrderItemRow.orderedQuantity it ∧ 0 <= OrderItemRow.unitCost it ∧
  OrderItemRow.lineAmount it = calculateLineSubtotal (OrderItemRow.unitCost it) (OrderItemRow.orderedQuantity it) ∧
  ∃ po, po ∈ orders ∧ PurchaseOrderRow.id po = OrderItemRow.purchaseOrderId it ∧
    PurchaseOrderRow.organizationId po = OrderItemRow.organizationId it.

Definition receiptOk (orders : list PurchaseOrderRow.t) (rows : list ReceiptItemRow.t) (r : ReceiptRow.t) : Prop :=
  ReceiptRow.status r = ReceiptStatus.CONFIRMED ∧
  ReceiptRow.totalAmount r = sumZ ReceiptItemRow.lineAmount (filter (ofReceipt (ReceiptRow.organizationId r) (ReceiptRow.id r)) rows) ∧
  ∃ po, po ∈ orders ∧ PurchaseOrderRow.id po = ReceiptRow.purchaseOrderId r ∧
    PurchaseOrderRow.organizationId po = ReceiptRow.organizationId r ∧ PurchaseOrderRow.branchId po = ReceiptRow.branchId r ∧
    PurchaseOrderRow.supplierId po = ReceiptRow.supplierId r.

Definition rowOk (items : list OrderItemRow.t) (receipts : list ReceiptRow.t) (l : ReceiptItemRow.t) : Prop :=
  0 < ReceiptItemRow.receivedQuantity l ∧ 0 <= ReceiptItemRow.acceptedUnitCost l ∧
  ReceiptItemRow.lineAmount l = calculateLineSubtotal (ReceiptItemRow.acceptedUnitCost l) (ReceiptItemRow.receivedQuantity l) ∧
  ∃ r it, r ∈ receipts ∧ it ∈ items ∧ ReceiptRow.id r = ReceiptItemRow.purchaseReceiptId l ∧
    ReceiptRow.organizationId r = ReceiptItemRow.organizationId l ∧ OrderItemRow.id it = ReceiptItemRow.purchaseOrderItemId l ∧
    OrderItemRow.organizationId it = ReceiptItemRow.organizationId l ∧ OrderItemRow.purchaseOrderId it = ReceiptRow.purchaseOrderId r ∧
    OrderItemRow.ingredientId it = ReceiptItemRow.ingredientId l.

(** orders, items, receipts and lines refer to each other and their amounts add up *)
Record book_ok (db : ProcurementDb.t) : Prop := BookOk {
  bk_orders : NoDup (PurchaseOrderRow.id <$> ProcurementDb.purchase_orders db);
  bk_items : NoDup (OrderItemRow.id <$> ProcurementDb.purchase_order_items db);
  bk_receipts : NoDup (ReceiptRow.id <$> ProcurementDb.purchase_receipts db);
  bk_numbers : NoDup (numberOf <$> ProcurementDb.purchase_receipts db);
  bk_item : Forall (itemOk (ProcurementDb.purchase_orders db)) (ProcurementDb.purchase_order_items db);
  bk_receipt : Forall (receiptOk (ProcurementDb.purchase_orders db) (ProcurementDb.purchase_receipt_items db)) (ProcurementDb.purchase_receipts db);
  bk_row : Forall (rowOk (ProcurementDb.purchase_order_items db) (ProcurementDb.purchase_receipts db)) (ProcurementDb.purchase_receipt_items db);
  bk_total : Forall (λ po, PurchaseOrderRow.totalAmount po = sumZ OrderItemRow.lineAmount
    (orderItems (PurchaseOrderRow.organizationId po) (PurchaseOrderRow.id po) db)) (ProcurementDb.purchase_orders db) }.

(** the status of an order tells what was received *)
Definition statusOk (db : ProcurementDb.t) (po : PurchaseOrderRow.t) : Prop :=
  let items := orderItems (PurchaseOrderRow.organizationId po) (PurchaseOrderRow.id po) db in
  let receipts := filter (λ r, ReceiptRow.purchaseOrderId r = PurchaseOrderRow.id po) (ProcurementDb.purchase_receipts db) in
  let qty it := receivedQty (OrderItemRow.id it) (ProcurementDb.purchase_receipt_items db) in
  match PurchaseOrderRow.status po with
  | PurchaseOrderStatus.PARTIAL => receipts ≠ [] ∧ Exists (λ it, qty it < OrderItemRow.orderedQuantity it) items
  | PurchaseOrderStatus.RECEIVED => receipts ≠ [] ∧ Forall (λ it, OrderItemRow.orderedQuantity it <= qty it) items
  | _ => receipts = []
  end.

Definition eventPayloads (org branch receiptId : string) (db : ProcurementDb.t) : list Json :=
  IntegrationEvent.payload <$> receiptEvents org branch receiptId db.

(** the one event of a receipt repeats its row and lines *)
Definition announced (db : ProcurementDb.t) (r : ReceiptRow.t) : Prop :=
  ∃ payload command lines, eventPayloads (ReceiptRow.organizationId r) (ReceiptRow.branchId r) (ReceiptRow.id r) db = [payload] ∧
    jsonb (recepcionJson (recepcionOf command r lines)) = Ok payload ∧
    Forall2 (rowOf (ReceiptRow.organizationId r) (ReceiptRow.id r) (ReceiptRow.createdAt r)) lines
      (receiptItemsOf (ReceiptRow.organizationId r) (ReceiptRow.id r) db).

(** every event of the kind is that of a receipt *)
Definition eventOf (e : IntegrationEvent.t) (r : ReceiptRow.t) : Prop :=
  IntegrationEvent.organizationId e = ReceiptRow.organizationId r ∧ IntegrationEvent.branchId e = Some (ReceiptRow.branchId r) ∧
  IntegrationEvent.aggregateType e = "PURCHASE_RECEIPT" ∧ IntegrationEvent.aggregateId e = ReceiptRow.id r.

Definition known (db : ProcurementDb.t) : Prop :=
  ∀ e, e ∈ DispatchDb.outbox (ProcurementDb.integration db) → IntegrationEvent.eventType e = "RecepcionCompraRegistrada" →
    Exists (eventOf e) (ProcurementDb.purchase_receipts db).

Definition withinOrder (db : ProcurementDb.t) : Prop :=
  Forall (λ it, receivedQty (OrderItemRow.id it) (ProcurementDb.purchase_receipt_items db) <= OrderItemRow.orderedQuantity it)
    (ProcurementDb.purchase_order_items db).

(** [strict]: no receipt names an order item twice *)
Record proc_ok (strict : Prop) (db : ProcurementDb.t) : Prop := ProcOk {
  ok_book : book_ok db;
  ok_status : Forall (statusOk db) (ProcurementDb.purchase_orders db);
  ok_events : Forall (announced db) (ProcurementDb.purchase_receipts db);
  ok_known : known db;
  ok_within : strict → withinOrder db }.

(** ** Sums over filtered lists *)

Lemma receivedQty_app i l k : receivedQty i (l ++ k) = receivedQty i l + receivedQty i k.
Proof. unfold receivedQty. by rewrite filter_app, sumZ_app. Qed.

Lemma receivedQty_none i l : (∀ r, r ∈ l → ReceiptItemRow.purchaseOrderItemId r ≠ i) → receivedQty i l = 0.
Proof. intros H. unfold receivedQty. by rewrite filter_none. Qed.

Lemma receivedQty_nonneg i l : (∀ r, r ∈ l → 0 < ReceiptItemRow.receivedQuantity r) → 0 <= receivedQty i l.
Proof. intros H. apply sumZ_nonneg. intros r [_ Hr]%list_elem_of_filter. specialize (H r Hr). lia. Qed.

(** an item named once *)
Lemma receivedQty_once l r :
  NoDup (ReceiptItemRow.purchaseOrderItemId <$> l) → r ∈ l → receivedQty (ReceiptItemRow.purchaseOrderItemId r) l = ReceiptItemRow.receivedQuantity r.
Proof.
  intros Hn Hr. apply list_elem_of_split in Hr as (l1 & l2 & ->). rewrite fmap_app, fmap_cons in Hn.
  apply NoDup_app in Hn as (_ & H1 & [H2 _]%NoDup_cons). rewrite receivedQty_app. change (r :: l2) with ([r] ++ l2). rewrite receivedQty_app.
  rewrite (receivedQty_none _ l1), (receivedQty_none _ l2).
  - unfold receivedQty. rewrite filter_cons_True by done. cbn. lia.
  - intros x Hx Heq. apply H2. rewrite <-Heq. by apply list_elem_of_fmap_2.
  - intros x Hx Heq. apply (H1 (ReceiptItemRow.purchaseOrderItemId x)); [by apply list_elem_of_fmap_2|]. rewrite Heq. by left.
Qed.

(** the query of the code counts what the lines hold *)
Lemma receivedOf_qty db it :
  book_ok db → it ∈ ProcurementDb.purchase_order_items db →
  receivedOf (OrderItemRow.organizationId it) (OrderItemRow.id it) db = receivedQty (OrderItemRow.id it) (ProcurementDb.purchase_receipt_items db).
Proof.
  intros Hb Hit. unfold receivedOf, receivedQty. f_equal. apply filter_ext_elem. intros l Hl. split; [by intros [? _]|]. intros Hid. split; [done|].
  pose proof (bk_row _ Hb) as Hrow. rewrite Forall_forall in Hrow. destruct (Hrow l Hl) as (_ & _ & _ & r & it' & Hr & Hit' & Hrid & Hrorg & Hitid & Hitorg & _).
  assert (it' = it) as -> by (eapply NoDup_fmap_unique; [apply (bk_items _ Hb)|done..|congruence]).
  apply Exists_exists. exists r. pose proof (bk_receipt _ Hb) as Hrec. rewrite Forall_forall in Hrec. destruct (Hrec r Hr) as [? _].
  split_and!; congruence || done.
Qed.

(** ** A receipt keeps the book *)

(** a change of status *)
Lemma book_status o i now st db1 db2 :
  ProcurementDb.purchase_orders db2 = withStatus o i now st <$> ProcurementDb.purchase_orders db1 →
  ProcurementDb.purchase_order_items db2 = ProcurementDb.purchase_order_items db1 →
  ProcurementDb.purchase_receipts db2 = ProcurementDb.purchase_receipts db1 →
  ProcurementDb.purchase_receipt_items db2 = ProcurementDb.purchase_receipt_items db1 → book_ok db1 → book_ok db2.
Proof.
  intros E1 E2 E3 E4 [B1 B2 B3 B4 B5 B6 B7 B8].
  assert (Hin : ∀ po, po ∈ ProcurementDb.purchase_orders db1 → withStatus o i now st po ∈ ProcurementDb.purchase_orders db2)
    by (intros po Hpo; rewrite E1; by apply list_elem_of_fmap_2).
  assert (Hsame : ∀ po, PurchaseOrderRow.id (withStatus o i now st po) = PurchaseOrderRow.id po ∧
    PurchaseOrderRow.organizationId (withStatus o i now st po) = PurchaseOrderRow.organizationId po ∧
    PurchaseOrderRow.branchId (withStatus o i now st po) = PurchaseOrderRow.branchId po ∧
    PurchaseOrderRow.supplierId (withStatus o i now st po) = PurchaseOrderRow.supplierId po ∧
    PurchaseOrderRow.totalAmount (withStatus o i now st po) = PurchaseOrderRow.totalAmount po)
    by (intros po; unfold withStatus; by case_decide).
  split; rewrite ?E2, ?E3, ?E4; try done.
  - rewrite E1, <-list_fmap_compose. erewrite list_fmap_ext; [exact B1|]. intros _ po _. apply Hsame.
  - eapply Forall_impl; [exact B5|]. intros it (? & ? & ? & po & Hpo & ? & ?). split_and!; [done..|]. exists (withStatus o i now st po).
    destruct (Hsame po) as (-> & -> & _). by split_and!; [apply Hin|..].
  - eapply Forall_impl; [exact B6|]. intros it (? & ? & po & Hpo & ? & ? & ? & ?). split_and!; [done..|]. exists (withStatus o i now st po).
    destruct (Hsame po) as (-> & -> & -> & -> & _). by split_and!; [apply Hin|..].
  - rewrite E1. apply Forall_fmap. eapply Forall_impl; [exact B8|]. intros po Hpo. cbn. destruct (Hsame po) as (-> & -> & _ & _ & ->).
    unfold orderItems in *. by rewrite E2.
Qed.

Section new_receipt.
Context (draws : ProcurementDraws.t) (policy : option PriceVariancePolicy) (command : ConfirmReceipt.t) (po : PurchaseOrderRow.t).
Context (db db' : ProcurementDb.t) (res : ConfirmResult.t) (lines : list RecepcionItem.t) (rows : list ReceiptItemRow.t) (total : Z) (full : bool).
Context (event : IntegrationEvent.t).
Context (spec : newReceiptSpec draws policy command po db db' res lines rows total full event).
Context (Hpo : findOrder (ConfirmReceipt.organizationId command) (ConfirmReceipt.purchaseOrderId command) db = Some po).
Context (Hbook : book_ok db).

Abbreviation org := (ConfirmReceipt.organizationId command).
Abbreviation receipt := (newReceiptRow draws command total).

Lemma po_facts : po ∈ ProcurementDb.purchase_orders db ∧ PurchaseOrderRow.organizationId po = org ∧
  PurchaseOrderRow.id po = ConfirmReceipt.purchaseOrderId command.
Proof.
  unfold findOrder in Hpo. apply fmap_Some in Hpo as ([i r] & (Hl & [H1 H2] & _)%list_find_Some & ->). split_and!; [|done..].
  by eapply list_elem_of_lookup_2.
Qed.

Lemma row_facts row : row ∈ rows → ∃ it, it ∈ orderItems org (ConfirmReceipt.purchaseOrderId command) db ∧
  OrderItemRow.id it = ReceiptItemRow.purchaseOrderItemId row ∧ OrderItemRow.ingredientId it = ReceiptItemRow.ingredientId row ∧
  0 < ReceiptItemRow.receivedQuantity row ∧ 0 <= ReceiptItemRow.acceptedUnitCost row ∧
  ReceiptItemRow.lineAmount row = calculateLineSubtotal (ReceiptItemRow.acceptedUnitCost row) (ReceiptItemRow.receivedQuantity row) ∧
  ReceiptItemRow.organizationId row = org ∧ ReceiptItemRow.purchaseReceiptId row = ReceiptRow.id receipt ∧
  receivedOf org (OrderItemRow.id it) db + ReceiptItemRow.receivedQuantity row <= OrderItemRow.orderedQuantity it.
Proof.
  intros [i Hi]%list_elem_of_lookup. destruct (Forall2_lookup_r _ _ _ _ _ (nr_rows _ _ _ _ _ _ _ _ _ _ _ _ spec) Hi) as (line & Hline & Hrow).
  destruct (Forall2_lookup_l _ _ _ _ _ (processLines_ok _ _ _ _ _ _ (nr_lines _ _ _ _ _ _ _ _ _ _ _ _ spec)) Hline) as (input & _ & it & q & c & Hof & _).
  destruct Hof as [Hin Hitem Hing [Hq ?] [Hc ?] Hla Hw]. destruct Hrow as (Ho & Hr & _ & Hri & Hring & Hrq & Hrc & Hrl).
  rewrite (amount_unique _ _ _ Hrq Hq), (amount_unique _ _ _ Hrc Hc) in *. rewrite Hla in Hrl. apply amount_columnText in Hrl as [-> _].
  exists it. split_and!; congruence || done.
Qed.

Lemma order_item it : it ∈ orderItems org (ConfirmReceipt.purchaseOrderId command) db →
  it ∈ ProcurementDb.purchase_order_items db ∧ OrderItemRow.organizationId it = org ∧
  OrderItemRow.purchaseOrderId it = ConfirmReceipt.purchaseOrderId command.
Proof. unfold orderItems. intros [[H1 H2] H3]%list_elem_of_filter. done. Qed.

Lemma old_receipt r : r ∈ ProcurementDb.purchase_receipts db → ReceiptRow.id r ≠ ReceiptRow.id receipt.
Proof.
  intros Hr Heq. destruct (nr_fresh _ _ _ _ _ _ _ _ _ _ _ _ spec) as [Hf _]. apply Hf. cbn in Heq. rewrite <-Heq. by apply list_elem_of_fmap_2.
Qed.

Lemma old_row l : l ∈ ProcurementDb.purchase_receipt_items db → ReceiptItemRow.purchaseReceiptId l ≠ ReceiptRow.id receipt.
Proof.
  intros Hl. pose proof (bk_row _ Hbook) as Hrow. rewrite Forall_forall in Hrow. destruct (Hrow l Hl) as (_ & _ & _ & r & _ & Hr & _ & <- & _).
  by apply old_receipt.
Qed.

(** the lines of the old receipts and of the new one *)
Lemma rows_of_old o r : r ∈ ProcurementDb.purchase_receipts db →
  filter (ofReceipt o (ReceiptRow.id r)) (ProcurementDb.purchase_receipt_items db ++ rows) =
  filter (ofReceipt o (ReceiptRow.id r)) (ProcurementDb.purchase_receipt_items db).
Proof.
  intros Hr. rewrite filter_app, (filter_none _ rows), app_nil_r; [done|]. intros row Hrow [_ Hid].
  destruct (row_facts row Hrow) as (_ & _ & _ & _ & _ & _ & _ & _ & Hrid & _). apply (old_receipt r Hr). congruence.
Qed.

Lemma rows_of_new : filter (ofReceipt org (ReceiptRow.id receipt)) (ProcurementDb.purchase_receipt_items db ++ rows) = rows.
Proof.
  rewrite filter_app, (filter_none _ (ProcurementDb.purchase_receipt_items db)), (filter_all _ rows); [done| |].
  - intros row Hrow. destruct (row_facts row Hrow) as (_ & _ & _ & _ & _ & _ & _ & Ho & Hrid & _). by split.
  - intros l Hl [_ Hid]. by apply (old_row l Hl).
Qed.

Lemma book_received : book_ok (received receipt rows db).
Proof.
  destruct po_facts as (Hin & Horg & Hid). destruct (nr_fresh _ _ _ _ _ _ _ _ _ _ _ _ spec) as [Hfresh Hnum].
  destruct (nr_order _ _ _ _ _ _ _ _ _ _ _ _ spec) as [Hsup Hbr]. destruct Hbook as [B1 B2 B3 B4 B5 B6 B7 B8].
  unfold received. split; cbn; try done.
  - rewrite fmap_app. by apply NoDup_snoc.
  - rewrite fmap_app. by apply NoDup_snoc.
  - apply Forall_app. split.
    + apply Forall_forall. intros r Hr. rewrite Forall_forall in B6. destruct (B6 r Hr) as (? & Ht & ?). split_and!; [done| |done].
      by rewrite rows_of_old.
    + apply Forall_singleton. split_and!; [done| |exists po; by split_and!]. cbn [ReceiptRow.totalAmount ReceiptRow.organizationId newReceiptRow].
      rewrite rows_of_new. apply (nr_total _ _ _ _ _ _ _ _ _ _ _ _ spec).
  - apply Forall_app. split.
    + eapply Forall_impl; [exact B7|]. intros l (? & ? & ? & r & it & ? & ?). split_and!; [done..|]. exists r, it. split; [|done].
      apply elem_of_app. by left.
    + apply Forall_forall. intros row Hrow. destruct (row_facts row Hrow) as (it & Hit & ? & ? & ? & ? & ? & ? & ? & _).
      destruct (order_item it Hit) as (? & ? & ?). split_and!; [done..|]. exists receipt, it. split_and!; try done; [|congruence].
      apply elem_of_app. right. by left.
Qed.
(** what the lines add to an item *)
Lemma added_none it : it ∈ ProcurementDb.purchase_order_items db → OrderItemRow.purchaseOrderId it ≠ ConfirmReceipt.purchaseOrderId command →
  receivedQty (OrderItemRow.id it) rows = 0.
Proof.
  intros Hit Hne. apply receivedQty_none. intros row Hrow Hid. destruct (row_facts row Hrow) as (it' & Hit' & Hid' & _).
  destruct (order_item it' Hit') as (Hin & _ & Hp). apply Hne. rewrite <-Hp. f_equal. eapply NoDup_fmap_unique; [apply (bk_items _ Hbook)|done..|congruence].
Qed.

Lemma statuses_kept : Forall (statusOk db) (ProcurementDb.purchase_orders db) → Forall (statusOk db') (ProcurementDb.purchase_orders db').
Proof.
  intros Hst. destruct (nr_db _ _ _ _ _ _ _ _ _ _ _ _ spec) as (E1 & E2 & E3 & E4 & _). destruct po_facts as (Hin & Horg & Hid).
  rewrite E1. apply Forall_fmap, Forall_forall. intros po0 Hpo0. cbn. rewrite Forall_forall in Hst. specialize (Hst po0 Hpo0).
  unfold withStatus. case_decide as Hnamed.
  - destruct Hnamed as [Ho Hi]. unfold statusOk. cbn. unfold orderItems. rewrite E2, E3, E4, Ho, Hi. fold (orderItems org (ConfirmReceipt.purchaseOrderId command) db).
    assert (Hne : filter (λ r, ReceiptRow.purchaseOrderId r = ConfirmReceipt.purchaseOrderId command) (ProcurementDb.purchase_receipts db ++ [receipt]) ≠ []).
    { rewrite filter_app, (filter_cons_True _ receipt) by done. by destruct (filter _ (ProcurementDb.purchase_receipts db)). }
    pose proof (fullyReceived_ok _ _ _ _ (nr_full _ _ _ _ _ _ _ _ _ _ _ _ spec)) as Hfull.
    assert (Hq : ∀ it, it ∈ orderItems org (ConfirmReceipt.purchaseOrderId command) db → receivedOf org (OrderItemRow.id it) (received receipt rows db) =
      receivedQty (OrderItemRow.id it) (ProcurementDb.purchase_receipt_items db ++ rows)).
    { intros it Hit. destruct (order_item it Hit) as (? & <- & _). by rewrite (receivedOf_qty _ _ book_received). }
    destruct full; cbn; (split; [done|]).
    + destruct Hfull as [Hfull _]. specialize (Hfull eq_refl). rewrite Forall_forall in Hfull |- *. intros it Hit. rewrite <-Hq by done. by apply Hfull.
    + destruct Hfull as [_ Hfull]. apply Exists_exists.
      destruct (decide (Forall (λ it, OrderItemRow.orderedQuantity it <= receivedOf org (OrderItemRow.id it) (received receipt rows db))
        (orderItems org (ConfirmReceipt.purchaseOrderId command) db))) as [Hall|Hex]; [by specialize (Hfull Hall)|].
      apply not_Forall_Exists in Hex; [|intros it; apply _]. apply Exists_exists in Hex as (it & Hit & Hlt). exists it. split; [done|].
      rewrite <-Hq by done. unfold compose in Hlt. lia.
  - assert (Hne : PurchaseOrderRow.id po0 ≠ ConfirmReceipt.purchaseOrderId command).
    { intros Hi. apply Hnamed. assert (po0 = po) as -> by (eapply NoDup_fmap_unique; [apply (bk_orders _ Hbook)|done..|congruence]). by split. }
    assert (Hrec : filter (λ r, ReceiptRow.purchaseOrderId r = PurchaseOrderRow.id po0) (ProcurementDb.purchase_receipts db ++ [receipt]) =
      filter (λ r, ReceiptRow.purchaseOrderId r = PurchaseOrderRow.id po0) (ProcurementDb.purchase_receipts db)).
    { rewrite filter_app, (filter_cons_False _ receipt) by (cbn; congruence). by rewrite app_nil_r. }
    assert (Hqty : ∀ it, it ∈ orderItems (PurchaseOrderRow.organizationId po0) (PurchaseOrderRow.id po0) db →
      receivedQty (OrderItemRow.id it) (ProcurementDb.purchase_receipt_items db ++ rows) =
      receivedQty (OrderItemRow.id it) (ProcurementDb.purchase_receipt_items db)).
    { intros it [[_ Hi] Hit]%list_elem_of_filter. rewrite receivedQty_app, added_none by congruence. lia. }
    unfold statusOk, orderItems in *. rewrite E2, E3, E4, Hrec. destruct (PurchaseOrderRow.status po0); try done; destruct Hst as [? Hst]; (split; [done|]).
    + rewrite Exists_exists in Hst |- *. destruct Hst as (it & Hit & Hlt). exists it. split; [done|]. by rewrite Hqty.
    + rewrite Forall_forall in Hst |- *. intros it Hit. rewrite Hqty by done. by apply Hst.
Qed.

Lemma payloads_kept r : r ∈ ProcurementDb.purchase_receipts db →
  eventPayloads (ReceiptRow.organizationId r) (ReceiptRow.branchId r) (ReceiptRow.id r) db' =
  eventPayloads (ReceiptRow.organizationId r) (ReceiptRow.branchId r) (ReceiptRow.id r) db.
Proof.
  intros Hr. destruct (nr_db _ _ _ _ _ _ _ _ _ _ _ _ spec) as (_ & _ & _ & _ & E5). destruct (nr_event _ _ _ _ _ _ _ _ _ _ _ _ spec) as (_ & _ & _ & _ & _ & Hi).
  unfold eventPayloads, receiptEvents. rewrite E5, filter_app, (filter_none _ [event]); [by rewrite app_nil_r|].
  intros e ->%list_elem_of_singleton (_ & _ & _ & _ & He). apply (old_receipt r Hr). cbn. congruence.
Qed.

Lemma payload_new : known db → eventPayloads org (ConfirmReceipt.branchId command) (ReceiptRow.id receipt) db' = [IntegrationEvent.payload event].
Proof.
  intros Hknown. destruct (nr_db _ _ _ _ _ _ _ _ _ _ _ _ spec) as (_ & _ & _ & _ & E5).
  destruct (nr_event _ _ _ _ _ _ _ _ _ _ _ _ spec) as (Hj & Ho & Hb & Ht & Ha & Hi).
  unfold eventPayloads, receiptEvents. rewrite E5, filter_app, (filter_none _ (DispatchDb.outbox (ProcurementDb.integration db))).
  - rewrite filter_all; [done|]. intros e ->%list_elem_of_singleton. by split_and!.
  - intros e He (_ & _ & Hty & _ & Hid). specialize (Hknown e He Hty). apply Exists_exists in Hknown as (r & Hr & _ & _ & _ & Heq).
    apply (old_receipt r Hr). cbn in Hid |- *. congruence.
Qed.

Lemma announced_kept : known db → Forall (announced db) (ProcurementDb.purchase_receipts db) → Forall (announced db') (ProcurementDb.purchase_receipts db').
Proof.
  intros Hknown Hann. destruct (nr_db _ _ _ _ _ _ _ _ _ _ _ _ spec) as (_ & _ & E3 & E4 & _).
  destruct (nr_event _ _ _ _ _ _ _ _ _ _ _ _ spec) as (Hj & _). rewrite E3. apply Forall_app. split.
  - apply Forall_forall. intros r Hr. rewrite Forall_forall in Hann. destruct (Hann r Hr) as (p & c & ls & Hp & Hjs & Hls). exists p, c, ls. split_and!; [|done|].
    + by rewrite payloads_kept.
    + unfold receiptItemsOf. by rewrite E4, rows_of_old.
  - apply Forall_singleton. exists (IntegrationEvent.payload event), command, lines. split_and!; [by apply payload_new|done|].
    unfold receiptItemsOf. rewrite E4. change (ReceiptRow.organizationId receipt) with org. rewrite rows_of_new. apply (nr_rows _ _ _ _ _ _ _ _ _ _ _ _ spec).
Qed.

Lemma within_kept : NoDup (ReceiptItemInput.purchaseOrderItemId <$> ConfirmReceipt.items command) → withinOrder db → withinOrder db'.
Proof.
  intros Hnd Hw. destruct (nr_db _ _ _ _ _ _ _ _ _ _ _ _ spec) as (_ & E2 & _ & E4 & _).
  assert (Hrows : NoDup (ReceiptItemRow.purchaseOrderItemId <$> rows)).
  { assert (ReceiptItemRow.purchaseOrderItemId <$> rows = ReceiptItemInput.purchaseOrderItemId <$> ConfirmReceipt.items command) as ->; [|done].
    transitivity (RecepcionItem.purchaseOrderItemId <$> lines).
    - symmetry. eapply list_fmap_eq_Forall2. eapply Forall2_impl; [apply (nr_rows _ _ _ _ _ _ _ _ _ _ _ _ spec)|]. intros line row Hr. cbn. symmetry. apply Hr.
    - eapply list_fmap_eq_Forall2. eapply Forall2_impl; [apply (processLines_ok _ _ _ _ _ _ (nr_lines _ _ _ _ _ _ _ _ _ _ _ _ spec))|].
      intros line input (_ & _ & _ & _ & ? & _). done. }
  unfold withinOrder in *. rewrite E2, E4. rewrite Forall_forall in Hw |- *. intros it Hit. rewrite receivedQty_app.
  destruct (decide (OrderItemRow.id it ∈ (ReceiptItemRow.purchaseOrderItemId <$> rows))) as [Hin|Hout].
  - apply list_elem_of_fmap in Hin as (row & Hid & Hrow). destruct (row_facts row Hrow) as (it' & Hit' & Hid' & _ & _ & _ & _ & _ & _ & Hle).
    destruct (order_item it' Hit') as (Hin' & Horg' & _).
    assert (it' = it) as -> by (eapply NoDup_fmap_unique; [apply (bk_items _ Hbook)|done..|congruence]).
    rewrite <-Horg', receivedOf_qty in Hle by done. rewrite Hid at 2. rewrite receivedQty_once by done. lia.
  - rewrite (receivedQty_none _ rows); [specialize (Hw it Hit); lia|]. intros row Hrow Hid. apply Hout. rewrite <-Hid. by apply list_elem_of_fmap_2.
Qed.

Lemma new_receipt_ok strict : (strict → NoDup (ReceiptItemInput.purchaseOrderItemId <$> ConfirmReceipt.items command)) →
  proc_ok strict db → proc_ok strict db'.
Proof.
  intros Hstrict [_ Hst Hev Hkn Hwi]. destruct (nr_db _ _ _ _ _ _ _ _ _ _ _ _ spec) as (E1 & E2 & E3 & E4 & E5). split.
  - eapply (book_status _ _ _ _ (received receipt rows db)); [exact E1|exact E2|exact E3|exact E4|]. exact book_received.
  - by apply statuses_kept.
  - by apply announced_kept.
  - intros e He Hty. rewrite E3, Exists_app. rewrite E5 in He. apply elem_of_app in He as [He| ->%list_elem_of_singleton].
    + left. by apply Hkn.
    + right. left. destruct (nr_event _ _ _ _ _ _ _ _ _ _ _ _ spec) as (_ & ? & ? & _ & ? & ?). by split_and!.
  - intros Hs. apply within_kept; auto.
Qed.
End new_receipt.

(** ** A new order *)

(** a row of an order line *)
Definition orderRowOf (org poId : string) (pair : OrderItemInput.t * string) (row : OrderItemRow.t) : Prop :=
  OrderItemRow.organizationId row = org ∧ OrderItemRow.purchaseOrderId row = poId ∧
  OrderItemRow.ingredientId row = OrderItemInput.ingredientId pair.1 ∧
  amount (OrderItemInput.orderedQuantity pair.1) (OrderItemRow.orderedQuantity row) ∧
  amount (OrderItemInput.unitCost pair.1) (OrderItemRow.unitCost row) ∧ amount pair.2 (OrderItemRow.lineAmount row).

Lemma insertOrderItems_ok draws org poId i items db db' rows :
  insertOrderItems draws org poId i items db = (db', Ok rows) →
  db' = db <| ProcurementDb.purchase_order_items ::= λ l, l ++ rows |> ∧ Forall2 (orderRowOf org poId) items rows ∧
  (NoDup (OrderItemRow.id <$> ProcurementDb.purchase_order_items db) → NoDup (OrderItemRow.id <$> ProcurementDb.purchase_order_items db')).
Proof.
  revert i db rows. induction items as [|[input lineAmount] items IH]; intros i db rows H; cbn [insertOrderItems] in H.
  - minv H. split_and!; [|constructor|done]. match goal with |- ?d = _ => destruct d end. cbv [set ProcurementDb.eta_t]. cbn. by rewrite app_nil_r.
  - minv H. apply decimalColumn_ok in Hval, Hval0, Hval1. unfold insertOrderItem in Hstep. minv Hstep. rewrite bool_decide_eq_false in Hguard.
    apply IH in Hstep0 as (-> & Hrows & Hnd). split_and!.
    + destruct db; cbv [set ProcurementDb.eta_t]; cbn. by rewrite <-app_assoc.
    + constructor; [|done]. by split_and!.
    + intros Hn. apply Hnd. cbn. rewrite fmap_app. by apply NoDup_snoc.
Qed.

Lemma processItems_ok items pairs :
  processItems items = Ok pairs → Forall (λ pair, ∃ q c, amount (OrderItemInput.orderedQuantity pair.1) q ∧ 0 < q ∧
    amount (OrderItemInput.unitCost pair.1) c ∧ 0 <= c ∧ pair.2 = columnText (calculateLineSubtotal c q)) pairs.
Proof.
  revert pairs. induction items as [|item items IH]; intros pairs; cbn [processItems]; [intros [= <-]; constructor|].
  intros (s & (q & c & ?)%line_amount_ok & (pairs' & Hp & ->)%result_map_ok)%result_bind_ok. constructor; [by exists q, c|by apply IH].
Qed.

Definition newOrderRow (draws : ProcurementDraws.t) (command : CreatePurchaseOrder.t) (total : Z) : PurchaseOrderRow.t :=
  PurchaseOrderRow.mk (ProcurementDraws.rowId draws) (CreatePurchaseOrder.organizationId command) (CreatePurchaseOrder.branchId command)
    (CreatePurchaseOrder.supplierId command) (trim (CreatePurchaseOrder.orderNumber command)) PurchaseOrderStatus.DRAFT total
    (ProcurementDraws.now draws) (ProcurementDraws.now draws).

Lemma tenant_ok {A} (m : ProcTx A) db db' a : inTenantTransaction m db = (db', Ok a) ↔ m db = (db', Ok a).
Proof. unfold inTenantTransaction. destruct (m db) as [? [?|?]]; naive_solver. Qed.
Lemma tenant_err {A} (m : ProcTx A) db db' e : inTenantTransaction m db = (db', Err e) → db' = db.
Proof. unfold inTenantTransaction. destruct (m db) as [? [?|?]]; naive_solver. Qed.

Lemma createPurchaseOrder_ok draws command db db' o :
  createPurchaseOrder draws command db = (db', Ok o) →
  ∃ total rows, let po := newOrderRow draws command total in
    ProcurementDb.purchase_orders db' = ProcurementDb.purchase_orders db ++ [po] ∧
    ProcurementDb.purchase_order_items db' = ProcurementDb.purchase_order_items db ++ rows ∧
    ProcurementDb.purchase_receipts db' = ProcurementDb.purchase_receipts db ∧
    ProcurementDb.purchase_receipt_items db' = ProcurementDb.purchase_receipt_items db ∧
    ProcurementDb.integration db' = ProcurementDb.integration db ∧
    PurchaseOrderRow.id po ∉ (PurchaseOrderRow.id <$> ProcurementDb.purchase_orders db) ∧
    (NoDup (OrderItemRow.id <$> ProcurementDb.purchase_order_items db) →
      NoDup (OrderItemRow.id <$> ProcurementDb.purchase_order_items db ++ rows)) ∧
    total = sumZ OrderItemRow.lineAmount rows ∧
    Forall (λ row, OrderItemRow.organizationId row = CreatePurchaseOrder.organizationId command ∧
      OrderItemRow.purchaseOrderId row = PurchaseOrderRow.id po ∧ 0 < OrderItemRow.orderedQuantity row ∧ 0 <= OrderItemRow.unitCost row ∧
      OrderItemRow.lineAmount row = calculateLineSubtotal (OrderItemRow.unitCost row) (OrderItemRow.orderedQuantity row)) rows.
Proof.
  intros H. unfold createPurchaseOrder in H. cbv zeta in H. minv H. rewrite tenant_ok in H. minv H. apply decimalColumn_ok in Hval1.
  unfold insertOrder in Hstep. minv Hstep. apply insertOrderItems_ok in Hstep0 as (-> & Hrows & Hnd).
  rewrite bool_decide_eq_false in *. exists val1, r0. fold (newOrderRow draws command val1) in *. split_and!; try done.
  - assert (Hl : Forall2 amount (snd <$> val) (OrderItemRow.lineAmount <$> r0)).
    { apply Forall2_fmap. eapply Forall2_impl; [exact Hrows|]. intros p row Hr. apply Hr. }
    rewrite (total_ok _ _ _ Hval0 Hl), sumZ_fmap in Hval1. by apply amount_columnText in Hval1 as [-> _].
  - apply Forall_forall. intros row [i Hi]%list_elem_of_lookup. destruct (Forall2_lookup_r _ _ _ _ _ Hrows Hi) as (pair & Hpair & Ho & Hp & _ & Hq & Hc & Ha).
    apply list_elem_of_lookup_2 in Hpair. pose proof (processItems_ok _ _ Hval) as Hpi. rewrite Forall_forall in Hpi.
    destruct (Hpi pair Hpair) as (q & c & Hq' & ? & Hc' & ? & Hs). rewrite (amount_unique _ _ _ Hq Hq'), (amount_unique _ _ _ Hc Hc'). rewrite Hs in Ha.
    apply amount_columnText in Ha as [-> _]. by split_and!.
Qed.

Lemma create_ok strict draws command db db' o : createPurchaseOrder draws command db = (db', Ok o) → proc_ok strict db → proc_ok strict db'.
Proof.
  intros (total & rows & E1 & E2 & E3 & E4 & E5 & Hfresh & Hnd & Htotal & Hrows)%createPurchaseOrder_ok [Hb Hst Hev Hkn Hwi].
  set (po := newOrderRow draws command total) in *. destruct Hb as [B1 B2 B3 B4 B5 B6 B7 B8]. rewrite Forall_forall in Hrows.
  assert (Hitems : ∀ o i, i ∈ (PurchaseOrderRow.id <$> ProcurementDb.purchase_orders db) → orderItems o i db' = orderItems o i db).
  { intros o' i Hi. unfold orderItems. rewrite E2, filter_app, (filter_none _ rows), app_nil_r; [done|]. intros row Hrow [_ Hp].
    destruct (Hrows row Hrow) as (_ & Hp' & _). apply Hfresh. by rewrite <-Hp', Hp. }
  assert (Hnew : ∀ row, row ∈ rows → receivedQty (OrderItemRow.id row) (ProcurementDb.purchase_receipt_items db) = 0).
  { intros row Hrow. apply receivedQty_none. intros l Hl Hid. rewrite Forall_forall in B7. destruct (B7 l Hl) as (_ & _ & _ & _ & it & _ & Hit & _ & _ & Hii & _).
    specialize (Hnd B2). rewrite fmap_app in Hnd. apply NoDup_app in Hnd as (_ & Hd & _). apply (Hd (OrderItemRow.id it)); [by apply list_elem_of_fmap_2|].
    rewrite Hii, Hid. by apply list_elem_of_fmap_2. }
  split.
  - split; rewrite ?E1, ?E2, ?E3, ?E4; try done.
    + rewrite fmap_app. by apply NoDup_snoc.
    + by apply Hnd.
    + apply Forall_app. split.
      * eapply Forall_impl; [exact B5|]. intros it (? & ? & ? & p & ? & ?). split_and!; [done..|]. exists p. split; [|done]. apply elem_of_app. by left.
      * apply Forall_forall. intros row Hrow. destruct (Hrows row Hrow) as (? & ? & ? & ? & ?). split_and!; [done..|]. exists po.
        split; [apply elem_of_app; right; by left|done].
    + eapply Forall_impl; [exact B6|]. intros r (? & ? & p & ? & ?). split_and!; [done..|]. exists p. split; [|done]. apply elem_of_app. by left.
    + eapply Forall_impl; [exact B7|]. intros l (? & ? & ? & r & it & ? & ? & ?). split_and!; [done..|]. exists r, it. split; [done|].
      split; [|done]. apply elem_of_app. by left.
    + apply Forall_app. split.
      * rewrite Forall_forall in B8 |- *. intros p Hp. rewrite Hitems by by apply list_elem_of_fmap_2. by apply B8.
      * apply Forall_singleton. unfold orderItems. rewrite E2, filter_app, (filter_none _ (ProcurementDb.purchase_order_items db)), filter_all; [done| |].
        -- intros row Hrow. destruct (Hrows row Hrow) as (? & ? & _). by split.
        -- intros it Hit [_ Hp]. rewrite Forall_forall in B5. destruct (B5 it Hit) as (_ & _ & _ & p & Hin & Hid & _). apply Hfresh.
           rewrite <-Hp, <-Hid. by apply list_elem_of_fmap_2.
  - rewrite E1. apply Forall_app. split.
    + rewrite Forall_forall in Hst |- *. intros p Hp. specialize (Hst p Hp). unfold statusOk in *. rewrite E3, E4, Hitems by by apply list_elem_of_fmap_2. done.
    + apply Forall_singleton. unfold statusOk. cbn [PurchaseOrderRow.status newOrderRow po]. apply filter_none. rewrite E3. intros r Hr Hid.
      rewrite Forall_forall in B6. destruct (B6 r Hr) as (_ & _ & p & Hin & Hp & _). apply Hfresh. rewrite <-Hid, <-Hp. by apply list_elem_of_fmap_2.
  - rewrite E3. eapply Forall_impl; [exact Hev|]. intros r (p & c & ls & ? & ? & ?). exists p, c, ls. unfold eventPayloads, receiptEvents, receiptItemsOf in *.
    by rewrite E5, E4.
  - intros e He Hty. rewrite E3. rewrite E5 in He. by apply Hkn.
  - intros Hs. specialize (Hwi Hs). unfold withinOrder. rewrite E2, E4. apply Forall_app. split; [done|].
    apply Forall_forall. intros row Hrow. rewrite Hnew by done. destruct (Hrows row Hrow) as (_ & _ & ? & _). lia.
Qed.

(** moving an order without receipts between the states that have none *)
Lemma change_ok strict o i now st db db' po :
  proc_ok strict db → findOrder o i db = Some po → setOrderStatus o i now st db = (db', Ok tt) →
  (PurchaseOrderRow.status po ∈ [PurchaseOrderStatus.DRAFT; PurchaseOrderStatus.SENT; PurchaseOrderStatus.CANCELLED]) →
  (st ∈ [PurchaseOrderStatus.SENT; PurchaseOrderStatus.CANCELLED]) → proc_ok strict db'.
Proof.
  intros [Hb Hst Hev Hkn Hwi] Hpo H Hold Hnew. unfold setOrderStatus in H. injection H as <-.
  unfold findOrder in Hpo. apply fmap_Some in Hpo as ([j p] & (Hl & [H1 H2] & _)%list_find_Some & ->). cbn in Hold.
  apply list_elem_of_lookup_2 in Hl. split; try done.
  - by eapply (book_status o i now st db).
  - change (Forall (statusOk (db <| ProcurementDb.purchase_orders ::= fmap (withStatus o i now st) |>)) (withStatus o i now st <$> ProcurementDb.purchase_orders db)).
    apply Forall_fmap, Forall_forall. intros p' Hp'. cbn. rewrite Forall_forall in Hst. specialize (Hst p' Hp').
    set (p'' := withStatus o i now st p'). destruct (decide (orderNamed o i p')) as [[Ho Hi]|Hn];
      [|assert (p'' = p') as -> by (unfold p'', withStatus; by rewrite decide_False); exact Hst].
    assert (p'' = p' <| PurchaseOrderRow.status := st |> <| PurchaseOrderRow.updatedAt := now |>) as ->
      by (unfold p'', withStatus; by rewrite decide_True).
    assert (p' = p) as -> by (eapply NoDup_fmap_unique; [apply (bk_orders _ Hb)|done..|congruence]).
    assert (filter (λ r, ReceiptRow.purchaseOrderId r = PurchaseOrderRow.id p) (ProcurementDb.purchase_receipts db) = []).
    { unfold statusOk in Hst. rewrite !elem_of_cons, elem_of_nil in Hold. destruct Hold as [E|[E|[E|[]]]]; by rewrite E in Hst. }
    unfold statusOk. cbn. rewrite !elem_of_cons, elem_of_nil in Hnew. by destruct Hnew as [->|[->|[]]].
Qed.

Lemma enqueue_dispatched id now input db :
  ∃ l, DispatchDb.outbox (fst (dispatch (ReqEnqueue id now input) db)) = DispatchDb.outbox db ++ l ∧
    ∀ e, e ∈ l → IntegrationEvent.eventType e = IntegrationInput.eventType input.
Proof.
  unfold dispatch. cbn [perform]. destruct ((enqueueIntegration id now input ≫= λ r, mret (Enqueued r)) db) as [db' [a|e]] eqn:E; cbn [fst].
  - minv E. apply enqueueIntegration_ok in Hstep as (-> & _ & _ & _ & ? & _). eexists. split; [done|]. by intros e ->%list_elem_of_singleton.
  - exists []. split; [by rewrite app_nil_r|]. intros e' He%not_elem_of_nil. done.
Qed.

(** events of the same content *)
Lemma receipt_events_content o b i (l k : list IntegrationEvent.t) :
  content <$> l = content <$> k →
  IntegrationEvent.payload <$> filter (λ e, IntegrationEvent.organizationId e = o ∧ IntegrationEvent.branchId e = Some b ∧
      IntegrationEvent.eventType e = "RecepcionCompraRegistrada" ∧ IntegrationEvent.aggregateType e = "PURCHASE_RECEIPT" ∧
      IntegrationEvent.aggregateId e = i) l =
  IntegrationEvent.payload <$> filter (λ e, IntegrationEvent.organizationId e = o ∧ IntegrationEvent.branchId e = Some b ∧
      IntegrationEvent.eventType e = "RecepcionCompraRegistrada" ∧ IntegrationEvent.aggregateType e = "PURCHASE_RECEIPT" ∧
      IntegrationEvent.aggregateId e = i) k.
Proof.
  revert k. induction l as [|x l IH]; intros [|y k] H; try done. rewrite !fmap_cons in H. injection H as H1 H2 H3 H4 H5 H6 H7 H8 H.
  rewrite !filter_cons, H2, H3, H4, H5, H6. case_decide; [|by apply IH]. rewrite !fmap_cons, H7. f_equal. by apply IH.
Qed.

Lemma worker_payloads q db o b i : isEnqueue q = false →
  eventPayloads o b i (db <| ProcurementDb.integration := fst (dispatch q (ProcurementDb.integration db)) |>) = eventPayloads o b i db.
Proof. intros Hq. unfold eventPayloads, receiptEvents. cbn. by apply receipt_events_content, worker_content. Qed.

Lemma event_payloads id now input db o b i : IntegrationInput.eventType input ≠ "RecepcionCompraRegistrada" →
  eventPayloads o b i (db <| ProcurementDb.integration := fst (dispatch (ReqEnqueue id now input) (ProcurementDb.integration db)) |>) =
  eventPayloads o b i db.
Proof.
  intros Hty. destruct (enqueue_dispatched id now input (ProcurementDb.integration db)) as (l & Hl & Hlt).
  unfold eventPayloads, receiptEvents. cbn [ProcurementDb.integration set]. cbn. rewrite Hl, filter_app, (filter_none _ l).
  - by rewrite app_nil_r.
  - intros e He (_ & _ & Ht & _). rewrite (Hlt e He) in Ht. done.
Qed.

(** the outbox moves on by itself: its workers, and events of other kinds *)
Lemma outbox_ok strict db d :
  proc_ok strict db →
  (∀ o b i, eventPayloads o b i (db <| ProcurementDb.integration := d |>) = eventPayloads o b i db) →
  (∀ e, e ∈ DispatchDb.outbox d → IntegrationEvent.eventType e = "RecepcionCompraRegistrada" →
    ∃ e', e' ∈ DispatchDb.outbox (ProcurementDb.integration db) ∧ content e' = content e) →
  proc_ok strict (db <| ProcurementDb.integration := d |>).
Proof.
  intros [Hb Hst Hev Hkn Hwi] Hp Hk. split; try done.
  - destruct Hb. by split.
  - eapply Forall_impl; [exact Hev|]. intros r (p & c & ls & H1 & H2 & H3). exists p, c, ls. by rewrite Hp.
  - intros e He Hty. destruct (Hk e He Hty) as (e' & He' & Hc). unfold content in Hc. injection Hc as H1 H2 H3 H4 H5 H6 H7 H8.
    eapply Exists_impl; [apply (Hkn e' He'); congruence|]. unfold eventOf. intros r. by rewrite H2, H3, H5, H6.
Qed.

(** ** Requests *)

(** an accepted request, or the outbox moving on; [strict] restricts the receipts *)
Inductive proc_step (strict : Prop) (db : ProcurementDb.t) : ProcurementDb.t → Prop :=
| step_supplier draws command db' s : createSupplier draws command db = (db', Ok s) → proc_step strict db db'
| step_create draws command db' o : createPurchaseOrder draws command db = (db', Ok o) → proc_step strict db db'
| step_send now org id db' o : sendPurchaseOrder now org id db = (db', Ok o) → proc_step strict db db'
| step_cancel now org id db' o : cancelPurchaseOrder now org id db = (db', Ok o) → proc_step strict db db'
| step_receive draws policy command db' r :
    (strict → NoDup (ReceiptItemInput.purchaseOrderItemId <$> ConfirmReceipt.items command)) →
    confirmPurchaseReceipt draws policy command db = (db', Ok r) → proc_step strict db db'
| step_worker q : isEnqueue q = false →
    proc_step strict db (db <| ProcurementDb.integration := fst (dispatch q (ProcurementDb.integration db)) |>)
| step_event id now input : IntegrationInput.eventType input ≠ "RecepcionCompraRegistrada" →
    proc_step strict db (db <| ProcurementDb.integration := fst (dispatch (ReqEnqueue id now input) (ProcurementDb.integration db)) |>).

(** no supplier, order or receipt yet *)
Definition newDb (branches : list (string * string)) (warehouses : list (string * string * string)) (ingredients : list (string * string)) :
  ProcurementDb.t := ProcurementDb.mk [] [] [] [] [] DispatchDb.empty branches warehouses ingredients.

Definition proc_reach (strict : Prop) (db : ProcurementDb.t) : Prop :=
  ∃ branches warehouses ingredients, rtc (proc_step strict) (newDb branches warehouses ingredients) db.

Lemma replay_same command po er db db' r : replayReceipt command po er db = (db', Ok r) → db' = db.
Proof.
  intros H. unfold replayReceipt in H. cbv zeta in H. minv_step H. minv_step H. minv_step H. minv_step H. minv_step H.
  destruct (receiptEvents _ _ _ db) as [|e [|??]]; by minv H.
Qed.

Lemma confirm_ok draws policy command db db' r :
  confirmPurchaseReceipt draws policy command db = (db', Ok r) →
  ∃ po, findOrder (ConfirmReceipt.organizationId command) (ConfirmReceipt.purchaseOrderId command) db = Some po ∧
    ((∃ er, findReceipt (ConfirmReceipt.organizationId command) (ConfirmReceipt.branchId command) (trim (ConfirmReceipt.receiptNumber command)) db = Some er ∧
        replayReceipt command po er db = (db', Ok r)) ∨
     ∃ lines rows total full event, newReceiptSpec draws policy command po db db' r lines rows total full event).
Proof.
  intros H. unfold confirmPurchaseReceipt in H. minv_step H. minv_step H. rewrite tenant_ok in H. minv_step H. minv_step H. minv_step H.
  exists found. split; [done|]. destruct (findReceipt _ _ _ db) as [er|] eqn:E; [left; by exists er|]. right. by apply newReceipt_ok.
Qed.

Lemma step_ok strict db db' : proc_step strict db db' → proc_ok strict db → proc_ok strict db'.
Proof.
  intros [draws command db1 s H|draws command db1 o H|now org id db1 o H|now org id db1 o H|draws policy command db1 r Hs H|q Hq|id now input Hty] Hok.
  - unfold createSupplier in H. minv H. rewrite tenant_ok in H. minv H. unfold insertSupplier in Hstep. minv Hstep. by destruct Hok as [[] ? ? ? ?].
  - by eapply create_ok.
  - unfold sendPurchaseOrder, getPurchaseOrderWithClient in H. rewrite tenant_ok in H. minv H. eapply change_ok; [done|done|by destruct r| |by left].
    destruct (PurchaseOrderRow.status found); try done; set_solver.
  - unfold cancelPurchaseOrder, getPurchaseOrderWithClient in H. rewrite tenant_ok in H. minv H. eapply change_ok; [done|done|by destruct r| |by right; left].
    destruct (PurchaseOrderRow.status found) eqn:E; try set_solver; cbn in Hval; try done. by rewrite orb_true_r in Hval.
  - apply confirm_ok in H as (po & Hpo & [(er & _ & ->%replay_same)|(lines & rows & total & full & event & Hspec)]); [done|].
    eapply new_receipt_ok; [exact Hspec|done|apply (ok_book _ _ Hok)|done|done].
  - pose proof (worker_content q (ProcurementDb.integration db) Hq) as Hc. apply outbox_ok; [done| |].
    + intros o b i. by apply worker_payloads.
    + intros e He _. assert (content e ∈ (content <$> DispatchDb.outbox (ProcurementDb.integration db))) as Hin by (rewrite <-Hc; by apply list_elem_of_fmap_2).
      apply list_elem_of_fmap in Hin as (e' & Heq & Hin). by exists e'.
  - destruct (enqueue_dispatched id now input (ProcurementDb.integration db)) as (l & Hl & Hlt). apply outbox_ok; [done| |].
    + intros o b i. by apply event_payloads.
    + intros e He Ht. rewrite Hl in He. apply elem_of_app in He as [He|He]; [by exists e|]. rewrite (Hlt e He) in Ht. done.
Qed.

Lemma new_ok strict branches warehouses ingredients : proc_ok strict (newDb branches warehouses ingredients).
Proof. split; [split|..]; try constructor; intros ? ?%not_elem_of_nil; done. Qed.

Lemma reach_ok strict db : proc_reach strict db → proc_ok strict db.
Proof.
  intros (b & w & i & H). pose proof (new_ok strict b w i) as Hok. induction H as [|x y z Hxy _ IH]; [done|]. apply IH. by eapply step_ok.
Qed.

(** ** What the tables say *)

(** C20: whatever requests are accepted, in any order, and however the outbox is worked on:
    every item, receipt and line refers to rows of the same organisation, branch, supplier
    and order, every amount is quantity times cost rounded, every total is the sum of its
    lines; an order without receipts is a draft, sent or cancelled, and with receipts it is
    received exactly when every item is covered; a receipt number is used once in a branch;
    every receipt has one event, which repeats the stored row and lines, and there are no
    other events of the kind.  When no receipt
    names an item twice, no item is received beyond what was ordered. *)
Theorem procurement_books_agree strict db :
  proc_reach strict db →
  book_ok db ∧ Forall (statusOk db) (ProcurementDb.purchase_orders db) ∧ Forall (announced db) (ProcurementDb.purchase_receipts db) ∧
  known db ∧ (strict → withinOrder db).
Proof. intros H%reach_ok. destruct H. by split_and!. Qed.

Module Sample.
(** one order of ten units, received in two deliveries of four and six *)
Definition db0 : ProcurementDb.t := newDb [("org", "branch")] [("org", "branch", "warehouse")] [("org", "flour")].
Definition draws (row line outbox : string) : ProcurementDraws.t :=
  ProcurementDraws.mk row (λ i, match i with O => line | _ => line +:+ "'" end) outbox "2026-01-01T00:00:00.000Z" 0.
Definition db1 := fst (createSupplier (draws "supplier" "" "") (CreateSupplier.mk "org" "S1" "Mill" "TAX" None None) db0).
Definition order := CreatePurchaseOrder.mk "org" "branch" "supplier" "PO-1" [OrderItemInput.mk "flour" "10.0000" "2.5000"].
Definition db2 := fst (createPurchaseOrder (draws "order" "item" "") order db1).
Definition db3 := fst (sendPurchaseOrder "2026-01-01T00:00:00.000Z" "org" "order" db2).
Definition delivery (number : string) (lines : list string) : ConfirmReceipt.t :=
  ConfirmReceipt.mk "org" "branch" "order" "supplier" "warehouse" number None None None
    ((λ q, ReceiptItemInput.mk "item" "flour" q "2.5000") <$> lines) None.
Definition db4 := fst (confirmPurchaseReceipt (draws "r1" "l1" "e1") None (delivery "R-1" ["4.0000"]) db3).
Definition db5 := fst (confirmPurchaseReceipt (draws "r2" "l2" "e2") None (delivery "R-2" ["6.0000"]) db4).
(** one receipt that names the item twice *)
Definition twice := fst (confirmPurchaseReceipt (draws "r1" "l1" "e1") None (delivery "R-1" ["10.0000"; "10.0000"]) db3).

Lemma accepted {D E A} (p : D * result E A) : match p.2 with Ok _ => true | Err _ => false end = true → ∃ a, p = (p.1, Ok a).
Proof. destruct p as [d [a|e]]; [|done]. intros _. by exists a. Qed.

Lemma reach3 strict : proc_reach strict db3.
Proof.
  exists [("org", "branch")], [("org", "branch", "warehouse")], [("org", "flour")].
  destruct (accepted (createSupplier (draws "supplier" "" "") (CreateSupplier.mk "org" "S1" "Mill" "TAX" None None) db0)) as [s Hs]; [by vm_compute|].
  destruct (accepted (createPurchaseOrder (draws "order" "item" "") order db1)) as [o Ho]; [by vm_compute|].
  destruct (accepted (sendPurchaseOrder "2026-01-01T00:00:00.000Z" "org" "order" db2)) as [p Hp]; [by vm_compute|].
  eapply rtc_l; [eapply step_supplier; exact Hs|]. eapply rtc_l; [eapply step_create; exact Ho|].
  eapply rtc_once, step_send. exact Hp.
Qed.

Lemma reach5 : proc_reach True db5.
Proof.
  destruct (reach3 True) as (b & w & i & H3). exists b, w, i.
  destruct (accepted (confirmPurchaseReceipt (draws "r1" "l1" "e1") None (delivery "R-1" ["4.0000"]) db3)) as [r1 H1]; [by vm_compute|].
  destruct (accepted (confirmPurchaseReceipt (draws "r2" "l2" "e2") None (delivery "R-2" ["6.0000"]) db4)) as [r2 H2]; [by vm_compute|].
  eapply rtc_r; [eapply rtc_r; [exact H3|]|].
  - eapply step_receive; [|exact H1]. intros _. cbn. by apply NoDup_singleton.
  - eapply step_receive; [|exact H2]. intros _. cbn. by apply NoDup_singleton.
Qed.
End Sample.

Theorem procurement_books_agree_witness : proc_reach True Sample.db5 ∧ book_ok Sample.db5 ∧ withinOrder Sample.db5.
Proof.
  split; [exact Sample.reach5|]. split; [exact (proj1 (procurement_books_agree True Sample.db5 Sample.reach5))|].
  exact (proj2 (proj2 (proj2 (proj2 (procurement_books_agree True Sample.db5 Sample.reach5)))) I).
Defined.

(** the check against the quantity ordered sees the stored receipts only: two lines of ten
    units of an item ordered ten times are both accepted in one receipt *)
Example one_receipt_can_exceed_the_order :
  proc_reach False Sample.twice ∧
  (OrderItemRow.orderedQuantity <$> ProcurementDb.purchase_order_items Sample.twice) = [100000] ∧
  receivedQty "item" (ProcurementDb.purchase_receipt_items Sample.twice) = 200000 ∧
  (PurchaseOrderRow.status <$> ProcurementDb.purchase_orders Sample.twice) = [PurchaseOrderStatus.RECEIVED].
Proof.
  split; [|by vm_compute]. destruct (Sample.reach3 False) as (b & w & i & H3). exists b, w, i.
  destruct (Sample.accepted (confirmPurchaseReceipt (Sample.draws "r1" "l1" "e1") None (Sample.delivery "R-1" ["10.0000"; "10.0000"]) Sample.db3)) as [r H];
    [by vm_compute|].
  eapply rtc_r; [exact H3|]. eapply step_receive; [intros []|exact H].
Qed.

(** a refused request leaves the tables as they were *)
Lemma refused_receipt draws policy command db db' e : confirmPurchaseReceipt draws policy command db = (db', Err e) → db' = db.
Proof.
  unfold confirmPurchaseReceipt. intros H. unfold throw_when in H. destruct (blank _); [by injection H|]. destruct (bool_decide _); [by injection H|].
  by apply tenant_err in H.
Qed.
