(* ===== verification/ReceiptSpec.v ===== *)
(** Retries of receipts: a confirmed receipt stays as it was stored, with its lines and its
    event, whatever is requested afterwards, and the same command is answered with it again
    and writes nothing. *)
From S2P Require Import Prelude Decimals Money Scale4 Json Ingestion Recipes Dispatch DispatchSpec Procurement ProcurementSpec.
From Stdlib Require Import Ascii String.

(** ** Stored receipts are kept *)

Lemma findOrder_some o i db :
  is_Some (findOrder o i db) ↔ ∃ po, po ∈ ProcurementDb.purchase_orders db ∧ orderNamed o i po.
Proof.
  unfold findOrder. rewrite fmap_is_Some. split.
  - intros [[j po] (Hl & Hn & _)%list_find_Some]. exists po. split; [by eapply list_elem_of_lookup_2|done].
  - intros (po & Hin & Hn). by eapply list_find_elem_of.
Qed.

Lemma withStatus_named o i now st o' i' po : orderNamed o' i' (withStatus o i now st po) ↔ orderNamed o' i' po.
Proof. unfold withStatus. by case_decide. Qed.

(** orders stay, receipts stay with their lines and events *)
Record keeps (db db' : ProcurementDb.t) : Prop := Keeps {
  kp_orders : ∀ o i, is_Some (findOrder o i db) → is_Some (findOrder o i db');
  kp_receipts : ∀ r, r ∈ ProcurementDb.purchase_receipts db → r ∈ ProcurementDb.purchase_receipts db';
  kp_rows : ∀ r, r ∈ ProcurementDb.purchase_receipts db →
    receiptItemsOf (ReceiptRow.organizationId r) (ReceiptRow.id r) db' = receiptItemsOf (ReceiptRow.organizationId r) (ReceiptRow.id r) db;
  kp_events : ∀ r, r ∈ ProcurementDb.purchase_receipts db →
    eventPayloads (ReceiptRow.organizationId r) (ReceiptRow.branchId r) (ReceiptRow.id r) db' =
    eventPayloads (ReceiptRow.organizationId r) (ReceiptRow.branchId r) (ReceiptRow.id r) db }.

#[global] Instance keeps_preorder : PreOrder keeps.
Proof.
  split.
  - intros db. by split.
  - intros a b c [A1 A2 A3 A4] [B1 B2 B3 B4]. split; [by auto|by auto| |].
    + intros r Hr. by rewrite B3, A3 by auto.
    + intros r Hr. by rewrite B4, A4 by auto.
Qed.

Lemma keeps_orders l db : (∀ o i, Exists (orderNamed o i) (ProcurementDb.purchase_orders db) → Exists (orderNamed o i) l) →
  keeps db (db <| ProcurementDb.purchase_orders := l |>).
Proof.
  intros Hl. split; try done. intros o i. rewrite !findOrder_some, <-!Exists_exists. apply Hl.
Qed.

Lemma keeps_status o i now st db : keeps db (db <| ProcurementDb.purchase_orders ::= fmap (withStatus o i now st) |>).
Proof.
  apply (keeps_orders (withStatus o i now st <$> ProcurementDb.purchase_orders db)). intros o' i' (po & Hin & Hn)%Exists_exists.
  apply Exists_exists. exists (withStatus o i now st po). rewrite withStatus_named. split; [by apply list_elem_of_fmap_2|done].
Qed.

Lemma keeps_new draws policy command po db db' res lines rows total full event :
  newReceiptSpec draws policy command po db db' res lines rows total full event →
  findOrder (ConfirmReceipt.organizationId command) (ConfirmReceipt.purchaseOrderId command) db = Some po → book_ok db → keeps db db'.
Proof.
  intros Hspec Hpo Hb. destruct (nr_db _ _ _ _ _ _ _ _ _ _ _ _ Hspec) as (E1 & _ & E3 & E4 & _). split.
  - intros o i. rewrite !findOrder_some, E1. intros (p & Hin & Hn). eexists. rewrite <-withStatus_named in Hn. split; [|exact Hn].
    by apply list_elem_of_fmap_2.
  - intros r Hr. rewrite E3. apply elem_of_app. by left.
  - intros r Hr. unfold receiptItemsOf. rewrite E4. by eapply rows_of_old.
  - intros r Hr. by eapply payloads_kept.
Qed.

Lemma step_keeps strict db db' : proc_step strict db db' → proc_ok strict db → keeps db db'.
Proof.
  intros [draws command db1 s H|draws command db1 o H|now org id db1 o H|now org id db1 o H|draws policy command db1 r Hs H|q Hq|id now input Hty] Hok.
  - unfold createSupplier in H. minv H. rewrite tenant_ok in H. minv H. unfold insertSupplier in Hstep. minv Hstep. by split.
  - apply createPurchaseOrder_ok in H as (total & rows & E1 & E2 & E3 & E4 & E5 & _). split.
    + intros o' i'. rewrite !findOrder_some, E1. intros (p & Hin & Hn). exists p. split; [|done]. apply elem_of_app. by left.
    + intros r. by rewrite E3.
    + intros r _. unfold receiptItemsOf. by rewrite E4.
    + intros r _. unfold eventPayloads, receiptEvents. by rewrite E5.
  - unfold sendPurchaseOrder, getPurchaseOrderWithClient in H. rewrite tenant_ok in H. minv H. unfold setOrderStatus in Hstep. injection Hstep as <-.
    apply keeps_status.
  - unfold cancelPurchaseOrder, getPurchaseOrderWithClient in H. rewrite tenant_ok in H. minv H. unfold setOrderStatus in Hstep. injection Hstep as <-.
    apply keeps_status.
  - apply confirm_ok in H as (po & Hpo & [(er & _ & ->%replay_same)|(lines & rows & total & full & event & Hspec)]); [done|].
    eapply keeps_new; [exact Hspec|done|apply (ok_book _ _ Hok)].
  - split; try done. intros r _. by apply worker_payloads.
  - split; try done. intros r _. by apply event_payloads.
Qed.

Lemma steps_keep strict db db' : rtc (proc_step strict) db db' → proc_ok strict db → keeps db db' ∧ proc_ok strict db'.
Proof.
  induction 1 as [|x y z Hxy _ IH]; intros Hok; [done|]. destruct (IH (step_ok _ _ _ Hxy Hok)) as [Hk Hz]. split; [|done].
  etransitivity; [by eapply step_keeps|exact Hk].
Qed.

Lemma step_loose strict db db' : proc_step strict db db' → proc_step False db db'.
Proof.
  intros [draws command db1 s H|draws command db1 o H|now org id db1 o H|now org id db1 o H|draws policy command db1 r _ H|q Hq|id now input Hty].
  - exact (step_supplier _ _ _ _ _ _ H).
  - exact (step_create _ _ _ _ _ _ H).
  - exact (step_send _ _ _ _ _ _ _ H).
  - exact (step_cancel _ _ _ _ _ _ _ H).
  - exact (step_receive _ _ _ _ _ _ _ (False_ind _) H).
  - exact (step_worker _ _ _ Hq).
  - exact (step_event _ _ _ _ _ Hty).
Qed.

Lemma reach_loose strict db : proc_reach strict db → proc_reach False db.
Proof.
  intros (b & w & i & H). exists b, w, i. eapply rtc_congruence with (f := λ d, d); [|exact H]. intros x y. apply step_loose.
Qed.

(** ** The lines of the command are the lines stored *)

Section ordering.
Context {A B : Type} (f : A → string) (g : B → string) (R : A → B → Prop).

Lemma insertBy_Forall2 x y (l : list A) (k : list B) : (∀ x y, R x y → f x = g y) → R x y → Forall2 R l k → Forall2 R (insertBy f x l) (insertBy g y k).
Proof.
  intros Hkey Hxy. induction 1 as [|u v l k Huv Hl IH]; [by repeat constructor|]. cbn. rewrite (Hkey _ _ Hxy), (Hkey _ _ Huv).
  destruct (String.leb (g y) (g v)); by repeat constructor.
Qed.

Lemma orderBy_Forall2 (l : list A) (k : list B) : (∀ x y, R x y → f x = g y) → Forall2 R l k → Forall2 R (orderBy f l) (orderBy g k).
Proof. intros Hkey. induction 1 as [|x y l k Hxy _ IH]; [constructor|]. by apply insertBy_Forall2. Qed.
End ordering.

Lemma parse_amount s z : amount s z → parseDecimal12x4 s = Ok z.
Proof. intros H. unfold parseDecimal12x4. rewrite (amount_trim s z H). unfold amount in H. by rewrite H. Qed.

Lemma parse_stored s z : amount s z → parseDecimal12x4 (columnText z) = Ok z.
Proof. intros H. apply parse_amount, amount_columnText. split; [done|by eapply amount_range]. Qed.

(** a stored line of a line of the command *)
Definition storedAs (ex : PurchaseReceiptItem.t) (inc : ReceiptItemInput.t) : Prop :=
  PurchaseReceiptItem.purchaseOrderItemId ex = ReceiptItemInput.purchaseOrderItemId inc ∧
  PurchaseReceiptItem.ingredientId ex = ReceiptItemInput.ingredientId inc ∧
  (∃ q, amount (ReceiptItemInput.receivedQuantity inc) q ∧ PurchaseReceiptItem.receivedQuantity ex = columnText q) ∧
  (∃ c, amount (ReceiptItemInput.acceptedUnitCost inc) c ∧ PurchaseReceiptItem.acceptedUnitCost ex = columnText c).

Lemma storedAs_same ex inc : storedAs ex inc → sameLine ex inc = Ok tt.
Proof.
  intros (H1 & H2 & (q & Hq & H3) & (c & Hc & H4)). unfold sameLine. rewrite H1, H2, H3, H4, !bool_decide_true by done. cbn [negb orb]. cbv zeta.
  rewrite (parse_stored _ _ Hq), (parse_amount _ _ Hq). cbn [result_bind result_map]. rewrite Z.eqb_refl. cbn [negb].
  rewrite (parse_stored _ _ Hc), (parse_amount _ _ Hc). cbn [result_bind result_map]. by rewrite Z.eqb_refl.
Qed.

Lemma storedAs_lines l k : Forall2 storedAs l k → sameLines l k = Ok tt.
Proof. induction 1 as [|x y l k Hxy _ IH]; [done|]. cbn [sameLines]. by rewrite storedAs_same. Qed.

Lemma stored_command draws policy command po db db' res lines rows total full event :
  newReceiptSpec draws policy command po db db' res lines rows total full event →
  Forall2 storedAs (toReceiptItem <$> rows) (ConfirmReceipt.items command).
Proof.
  intros Hspec. pose proof (nr_rows _ _ _ _ _ _ _ _ _ _ _ _ Hspec) as Hrows.
  pose proof (processLines_ok _ _ _ _ _ _ (nr_lines _ _ _ _ _ _ _ _ _ _ _ _ Hspec)) as Hlines.
  apply Forall2_fmap_l. clear Hspec. revert Hlines. generalize (ConfirmReceipt.items command) as inputs.
  induction Hrows as [|line row lines rows Hrow _ IH]; intros inputs Hlines; inversion Hlines as [|? input ? inputs' Hline Hlines']; subst; constructor; [|by apply IH].
  destruct Hrow as (_ & _ & _ & Hri & Hing & Hq & Hc & _), Hline as (it & q & c & _ & Hii & Hig & Hiq & Hic).
  unfold storedAs. cbn. split_and!; [congruence|congruence|exists (ReceiptItemRow.receivedQuantity row)|exists (ReceiptItemRow.acceptedUnitCost row)];
    rewrite <-?Hiq, <-?Hic; by split.
Qed.

(** ** The answer to a retry *)

Lemma findReceipt_unique r db : book_ok db → r ∈ ProcurementDb.purchase_receipts db →
  findReceipt (ReceiptRow.organizationId r) (ReceiptRow.branchId r) (ReceiptRow.receiptNumber r) db = Some r.
Proof.
  intros Hb Hr. unfold findReceipt.
  destruct (list_find_elem_of (λ r', ReceiptRow.organizationId r' = ReceiptRow.organizationId r ∧ ReceiptRow.branchId r' = ReceiptRow.branchId r ∧
    ReceiptRow.receiptNumber r' = ReceiptRow.receiptNumber r) _ _ Hr ltac:(done)) as [[i r'] E]. rewrite E. cbn. f_equal.
  apply list_find_Some in E as (Hl & (H1 & H2 & H3) & _). eapply (NoDup_fmap_unique numberOf); [apply (bk_numbers _ Hb)| |done|].
  - by eapply list_elem_of_lookup_2.
  - unfold numberOf. by rewrite H1, H2, H3.
Qed.

(** the receipt and its event, once stored, answer the command *)
Lemma replayed draws policy command db r rows payload :
  proc_ok False db → r ∈ ProcurementDb.purchase_receipts db →
  receiptItemsOf (ReceiptRow.organizationId r) (ReceiptRow.id r) db = rows →
  eventPayloads (ReceiptRow.organizationId r) (ReceiptRow.branchId r) (ReceiptRow.id r) db = [payload] →
  numberOf r = (ConfirmReceipt.organizationId command, ConfirmReceipt.branchId command, trim (ConfirmReceipt.receiptNumber command)) →
  ReceiptRow.purchaseOrderId r = ConfirmReceipt.purchaseOrderId command → ReceiptRow.supplierId r = ConfirmReceipt.supplierId command →
  ReceiptRow.warehouseId r = ConfirmReceipt.warehouseId command →
  blank (ConfirmReceipt.receiptNumber command) = false → ConfirmReceipt.items command ≠ [] →
  is_Some (findOrder (ConfirmReceipt.organizationId command) (ConfirmReceipt.purchaseOrderId command) db) →
  Forall2 storedAs (toReceiptItem <$> rows) (ConfirmReceipt.items command) →
  ∃ status, confirmPurchaseReceipt draws policy command db =
    (db, Ok (ConfirmResult.mk ConfirmStatus.DUPLICATE_ACCEPTED (toReceipt r rows) payload status)).
Proof.
  intros Hok Hr Hrows Hpay Hnum Hpo Hsup Hwh Hblank Hitems [po Hfound] Hlines. exists (PurchaseOrderRow.status po).
  pose proof (findReceipt_unique r db (ok_book _ _ Hok) Hr) as Hfind. unfold numberOf in Hnum. injection Hnum as N1 N2 N3.
  rewrite N1, N2, N3 in Hfind. rewrite N1 in Hrows, Hpay. rewrite N2 in Hpay.
  unfold confirmPurchaseReceipt. rewrite Hblank, bool_decide_false by done. mrun. cbv iota. apply tenant_ok. mrun. rewrite Hfound. mrun. cbv iota.
  mrun. rewrite Hfind. unfold replayReceipt. rewrite Hpo, Hsup, Hwh, bool_decide_true by done. cbv zeta. mrun. cbn [negb]. cbv iota. mrun.
  rewrite Hrows, (Forall2_length _ _ _ Hlines), Nat.eqb_refl. cbn [negb]. cbv iota. mrun. rewrite storedAs_lines.
  - cbv iota. mrun. unfold eventPayloads in Hpay. destruct (receiptEvents _ _ _ db) as [|e [|? ?]]; try done. cbn in Hpay. by injection Hpay as ->.
  - apply orderBy_Forall2; [by intros x y (? & _)|]. apply orderBy_Forall2; [by intros x y (_ & ? & _)|]. done.
Qed.

(** A command whose receipt was confirmed is, sent again in whatever state other requests
    have led to, accepted as a duplicate: it is answered with the same receipt and with the
    event as stored, whatever the policy and the new draws, and it writes nothing. *)
Theorem receipt_retry_is_answered strict draws policy command db1 db2 res db draws' policy' :
  proc_reach strict db1 → confirmPurchaseReceipt draws policy command db1 = (db2, Ok res) → ConfirmResult.status res = ConfirmStatus.APPLIED →
  rtc (proc_step False) db2 db →
  ∃ payload status, confirmPurchaseReceipt draws' policy' command db =
      (db, Ok (ConfirmResult.mk ConfirmStatus.DUPLICATE_ACCEPTED (ConfirmResult.receipt res) payload status)) ∧
    jsonb (ConfirmResult.eventPayload res) = Ok payload.
Proof.
  intros Hreach%reach_loose%reach_ok H Happlied Hrun. pose proof H as Hconfirm. unfold confirmPurchaseReceipt in Hconfirm. minv_step Hconfirm. minv_step Hconfirm.
  clear Hconfirm. assert (Hok2 : proc_ok False db2) by (eapply step_ok; [eapply step_receive; [intros []|exact H]|exact Hreach]).
  apply confirm_ok in H as (po & Hpo & [(er & _ & H)|(lines & rows & total & full & event & Hspec)]).
  { unfold replayReceipt in H. cbv zeta in H. do 5 minv_step H. destruct (receiptEvents _ _ _ db1) as [|e [|??]]; by minv H. }
  destruct (steps_keep _ _ _ Hrun Hok2) as [Hkeep Hok]. pose proof (keeps_new _ _ _ _ _ _ _ _ _ _ _ _ Hspec Hpo (ok_book _ _ Hreach)) as Hkeep1.
  destruct (nr_db _ _ _ _ _ _ _ _ _ _ _ _ Hspec) as (_ & _ & E3 & E4 & _). set (r := newReceiptRow draws command total) in *.
  assert (Hr2 : r ∈ ProcurementDb.purchase_receipts db2) by (rewrite E3; apply elem_of_app; right; by left).
  destruct (replayed draws' policy' command db r rows (IntegrationEvent.payload event)) as [status Hreplay]; try done.
  - by apply (kp_receipts _ _ Hkeep).
  - rewrite (kp_rows _ _ Hkeep) by done. unfold receiptItemsOf. rewrite E4. eapply rows_of_new; [exact Hspec|apply (ok_book _ _ Hreach)].
  - rewrite (kp_events _ _ Hkeep) by done. eapply payload_new; [exact Hspec|apply (ok_known _ _ Hreach)].
  - by apply bool_decide_eq_false in Hguard0.
  - apply (kp_orders _ _ Hkeep), (kp_orders _ _ Hkeep1). by exists po.
  - by eapply stored_command.
  - exists (IntegrationEvent.payload event), status. rewrite (nr_result _ _ _ _ _ _ _ _ _ _ _ _ Hspec). split; [exact Hreplay|].
    apply (nr_event _ _ _ _ _ _ _ _ _ _ _ _ Hspec).
Qed.

Theorem receipt_retry_is_answered_witness :
  ∃ res payload status, snd (confirmPurchaseReceipt (Sample.draws "r1" "l1" "e1") None (Sample.delivery "R-1" ["4.0000"]) Sample.db3) = Ok res ∧
    confirmPurchaseReceipt (Sample.draws "other" "lines" "later") None (Sample.delivery "R-1" ["4.0000"]) Sample.db5 =
    (Sample.db5, Ok (ConfirmResult.mk ConfirmStatus.DUPLICATE_ACCEPTED (ConfirmResult.receipt res) payload status)).
Proof.
  destruct (Sample.accepted (confirmPurchaseReceipt (Sample.draws "r1" "l1" "e1") None (Sample.delivery "R-1" ["4.0000"]) Sample.db3)) as [r1 H1]; [by vm_compute|].
  destruct (Sample.accepted (confirmPurchaseReceipt (Sample.draws "r2" "l2" "e2") None (Sample.delivery "R-2" ["6.0000"]) Sample.db4)) as [r2 H2]; [by vm_compute|].
  destruct (receipt_retry_is_answered True (Sample.draws "r1" "l1" "e1") None (Sample.delivery "R-1" ["4.0000"]) Sample.db3 Sample.db4 r1 Sample.db5
    (Sample.draws "other" "lines" "later") None (Sample.reach3 True) H1) as (payload & status & H & _).
  - assert (Hs : match snd (confirmPurchaseReceipt (Sample.draws "r1" "l1" "e1") None (Sample.delivery "R-1" ["4.0000"]) Sample.db3) with
        Ok r => ConfirmResult.status r | Err _ => ConfirmStatus.DUPLICATE_ACCEPTED end = ConfirmStatus.APPLIED) by (vm_compute; reflexivity).
    rewrite H1 in Hs. exact Hs.
  - apply rtc_once. eapply step_receive; [intros []|exact H2].
  - exists r1, payload, status. split; [|exact H]. rewrite H1. reflexivity.
Defined.
