(* ===== verification/Finance.v ===== *)
(** Finance: packages/finance/src and PostgresFinanceService of
    packages/cloud-server/src/index.ts, over the tables of migration 20260905020000.

    Payables and receivables are the same code twice, with other statuses, errors and checks
    of a repeated reversal: the transactions on one account are written once over the class
    [Obligation], which holds what differs.  A method runs in one transaction that locks the
    account before it writes; it is one step on the tables, restored on a throw, so that the
    second look for the reference under the lock finds what the first one found and an insert
    meets no concurrent one.

    Amounts are scale-4 strings in commands and integers of ten-thousandths in columns.  An
    optional date of a command is absent, empty, not a date, or an instant in milliseconds;
    calendar dates are the strings YYYY-MM-DD.  New identifiers and clocks are drawn values.
    The due-date resolver and the credit policy are arguments.  CHECK constraints that repeat
    a guard, foreign keys and row-level security are left out, as are messages. *)
From S2P Require Import Prelude Decimals Money Scale4 Json AuditTrail Ingestion Recipes Dispatch Procurement.
From Stdlib Require Import Ascii String.

(** ** Types *)

Module AccountsPayableStatus.
(* finance types.ts:6-6 AccountsPayableStatus *)
Inductive t := PENDING | PARTIAL | PAID | CANCELLED.
#[global] Instance eq_dec : EqDecision t.
Proof. solve_decision. Defined.
End AccountsPayableStatus.

Module AccountsReceivableStatus.
(* finance types.ts:8-8 AccountsReceivableStatus *)
Inductive t := PENDING | PAID | OVERDUE | DEFAULTED.
#[global] Instance eq_dec : EqDecision t.
Proof. solve_decision. Defined.
End AccountsReceivableStatus.

Module ScheduledPaymentStatus.
(* finance types.ts:10-10 ScheduledPaymentStatus *)
Inductive t := PENDING | EXECUTED | CANCELLED.
End ScheduledPaymentStatus.

Module FinanceTransactionKind.
(* finance types.ts:12-12 FinanceTransactionKind *)
Inductive t := APPLY | REVERSAL.
#[global] Instance eq_dec : EqDecision t.
Proof. solve_decision. Defined.
End FinanceTransactionKind.
Import FinanceTransactionKind(APPLY, REVERSAL).

(* finance errors.ts:17-163 FinanceDomainError *)
Inductive FinanceError :=
| AccountsPayableOverpaymentError
| AccountsPayableInvalidStateError
| AccountsReceivableOverpaymentError
| AccountsReceivableInvalidStateError
| CreditPolicyRequiredError
| PaymentTermsResolverRequiredError
| APIdempotencyConflictError
| ARIdempotencyConflictError
| CashReconciliationIdempotencyConflictError
| CreditLimitExceededError
| InvalidFinancialAmountError
| OperatingExpenseError
| CashReconciliationError
| PaymentReferenceRequiredError
| SettlementReferenceRequiredError
| PaymentTransactionNotFoundError
| SettlementTransactionNotFoundError
| PaymentAlreadyReversedError
| SettlementAlreadyReversedError
| PaymentIdempotencyConflictError
| SettlementIdempotencyConflictError
| FinanceJs (e : JsError)
| FinancePg (constraint : string).

(** an optional date: [undefined] or null, the empty string, a string that names no date, or
    the instant a string names *)
Module DateInput.
Inductive t := Absent | Empty | Invalid | At (ms : Z).
End DateInput.

(** AccountsPayable and AccountsReceivable: [counterpartyId] is the supplier or the customer,
    [sourceId] the purchase receipt or the reference account *)
Module Account.
Record t {S : Type} := mk {
  id : string; organizationId : string; branchId : string; counterpartyId : string; sourceId : string; totalAmount : string;
  balanceDue : string; dueDate : string; status : S; createdAt : Z; updatedAt : Z }.
Arguments t : clear implicits.
End Account.

(* finance types.ts:14-26 AccountsPayable *)
Definition AccountsPayable : Type := Account.t AccountsPayableStatus.t.
(* finance types.ts:53-65 AccountsReceivable *)
Definition AccountsReceivable : Type := Account.t AccountsReceivableStatus.t.

(** AccountsPayablePayment and AccountsReceivableSettlement *)
Module Transaction.
(* finance types.ts:28-39 AccountsPayablePayment *)
Record t := mk {
  id : string; organizationId : string; branchId : string; accountId : string; transactionKind : FinanceTransactionKind.t; amount : string;
  date : Z; referenceId : string; reversalOfTransactionId : option string; createdAt : Z }.
End Transaction.

Module ScheduledPayment.
(* finance types.ts:41-51 ScheduledPayment *)
Record t := mk {
  id : string; organizationId : string; branchId : string; accountsPayableId : string; scheduledAmount : string; scheduledDate : string;
  status : ScheduledPaymentStatus.t; createdAt : Z; updatedAt : Z }.
End ScheduledPayment.

Module OperatingExpense.
(* finance types.ts:80-90 BranchOperatingExpense *)
Record t := mk {
  id : string; organizationId : string; branchId : string; amount : string; expenseDate : Z; category : string;
  receiptAttachmentUrl : option string; notes : option string; createdAt : Z }.
End OperatingExpense.

Module CashReconciliation.
(* finance types.ts:92-103 CashReconciliation *)
Record t := mk {
  id : string; organizationId : string; branchId : string; sourceCutId : string; operationalDate : string; expectedCash : string;
  actualCash : string; variance : string; hasVariance : bool; createdAt : Z }.
End CashReconciliation.

Module PaymentTerms.
(* finance types.ts:136-143 PaymentTermsDueDateResolverContext *)
Record t := mk {
  organizationId : string; branchId : string; supplierId : string; purchaseReceiptId : string; receivedAt : string;
  paymentTerms : option string }.
End PaymentTerms.

(* finance types.ts:145-147 PaymentTermsDueDateResolver *)
Definition DueDateResolver : Type := PaymentTerms.t → string.

Module CashClosingFacts.
(* finance types.ts:153-161 CashClosingFacts *)
Record t := mk {
  organizationId : string; branchId : string; sourceCutId : string; operationalDate : string; expectedCash : string; actualCash : string;
  notes : option string }.
End CashClosingFacts.

(** ApplyAccountsPayablePaymentCommand and SettleReceivableCommand *)
Module ApplyTransaction.
(* finance types.ts:166-174 ApplyAccountsPayablePaymentCommand *)
Record t := mk {
  organizationId : string; branchId : string; accountId : string; amount : string; referenceId : option string; reference : option string;
  date : DateInput.t }.
End ApplyTransaction.

(** ReverseAccountsPayablePaymentCommand and ReverseAccountsReceivableSettlementCommand *)
Module ReverseTransaction.
(* finance types.ts:176-183 ReverseAccountsPayablePaymentCommand *)
Record t := mk {
  organizationId : string; branchId : string; accountId : string; originalTransactionId : string; reversalReferenceId : string;
  reversalDate : DateInput.t }.
End ReverseTransaction.

Module CreateScheduledPayment.
(* finance types.ts:185-191 CreateScheduledPaymentCommand *)
Record t := mk { organizationId : string; branchId : string; accountsPayableId : string; scheduledAmount : string; scheduledDate : string }.
End CreateScheduledPayment.

Module CreateReceivableCharge.
(* finance types.ts:193-202 CreateReceivableChargeCommand *)
Record t := mk {
  organizationId : string; branchId : string; customerId : string; referenceAccountId : string; totalAmount : string; dueDate : string;
  requireCreditPolicy : bool; requiresCreditCheck : bool }.
End CreateReceivableCharge.

Module RegisterOperatingExpense.
(* finance types.ts:223-231 RegisterOperatingExpenseCommand *)
Record t := mk {
  organizationId : string; branchId : string; amount : string; category : string; expenseDate : DateInput.t;
  receiptAttachmentUrl : option string; notes : option string }.
End RegisterOperatingExpense.

Module CreditLimitContext.
(* credit-limit-validator.ts:11-18 CreditLimitEvaluationContext *)
Record t := mk {
  organizationId : string; branchId : string; customerId : string; currentReceivableBalance : string; requestedCreditAmount : string;
  referenceAccountId : string }.
End CreditLimitContext.

(** whether the policy authorises; the disposition and the reason are not used *)
(* credit-limit-validator.ts:30-34 CreditLimitValidator *)
Definition CreditLimitValidator : Type := CreditLimitContext.t → bool.

(** ** Exact arithmetic *)

Abbreviation FR := (result FinanceError).

Module FinanceNumerics.
(* finance numerics.ts:15-23 parseDecimal12x4 *)
Definition parseDecimal12x4 : string → FR Z := parse4 (λ _, InvalidFinancialAmountError).
(* finance numerics.ts:29-33 addScale4 *)
Definition addScale4 : string → string → FR string := add4 (λ _, InvalidFinancialAmountError).
(* finance numerics.ts:35-39 subScale4 *)
Definition subScale4 : string → string → FR string := sub4 (λ _, InvalidFinancialAmountError).
(* finance numerics.ts:48-54 cmpScale4 *)
Definition cmpScale4 : string → string → FR comparison := cmp4 (λ _, InvalidFinancialAmountError).
(* finance numerics.ts:56-58 isZeroScale4 *)
Definition isZeroScale4 : string → FR bool := isZero4 (λ _, InvalidFinancialAmountError).
(* finance numerics.ts:60-62 isPositiveScale4 *)
Definition isPositiveScale4 : string → FR bool := isPositive4 (λ _, InvalidFinancialAmountError).
End FinanceNumerics.
Import FinanceNumerics(addScale4, subScale4, cmpScale4, isZeroScale4, isPositiveScale4).

(** [throw] unless the test holds *)
Definition unless (b : FR bool) (e : FinanceError) : FR unit := result_bind b (λ b, if b then Ok tt else Err e).
Definition exceeds (a b : string) : FR bool := result_map (λ c, match c with Gt => true | _ => false end) (cmpScale4 a b).
Definition equals (a b : string) : FR bool := result_map (λ c, match c with Eq => true | _ => false end) (cmpScale4 a b).

(** ** Accounts payable and receivable *)

(* accounts-payable.ts:29-61 applyPaymentToAccountsPayable *)
Definition applyPaymentToAccountsPayable (ap : AccountsPayable) (paymentAmount : string) : FR (string * AccountsPayableStatus.t) :=
  result_bind (unless (isPositiveScale4 paymentAmount) AccountsPayableOverpaymentError) (λ _,
  if bool_decide (Account.status ap = AccountsPayableStatus.PAID) then Err AccountsPayableInvalidStateError else
  if bool_decide (Account.status ap = AccountsPayableStatus.CANCELLED) then Err AccountsPayableInvalidStateError else
  result_bind (exceeds paymentAmount (Account.balanceDue ap)) (λ over,
  if over : bool then Err AccountsPayableOverpaymentError else
  result_bind (subScale4 (Account.balanceDue ap) paymentAmount) (λ newBalanceDue,
  result_map (λ z : bool, (newBalanceDue, if z then AccountsPayableStatus.PAID else AccountsPayableStatus.PARTIAL)) (isZeroScale4 newBalanceDue)))).

(* accounts-payable.ts:66-93 reversePaymentOnAccountsPayable *)
Definition reversePaymentOnAccountsPayable (ap : AccountsPayable) (reversalAmount : string) : FR (string * AccountsPayableStatus.t) :=
  result_bind (unless (isPositiveScale4 reversalAmount) AccountsPayableOverpaymentError) (λ _,
  if bool_decide (Account.status ap = AccountsPayableStatus.CANCELLED) then Err AccountsPayableInvalidStateError else
  result_bind (addScale4 (Account.balanceDue ap) reversalAmount) (λ newBalanceDue,
  result_bind (exceeds newBalanceDue (Account.totalAmount ap)) (λ over,
  if over : bool then Err AccountsPayableOverpaymentError else
  result_map (λ z : bool, (newBalanceDue, if z then AccountsPayableStatus.PENDING else AccountsPayableStatus.PARTIAL))
    (equals newBalanceDue (Account.totalAmount ap))))).

(* accounts-receivable.ts:16-48 applySettlementToAccountsReceivable *)
Definition applySettlementToAccountsReceivable (ar : AccountsReceivable) (settlementAmount : string) : FR (string * AccountsReceivableStatus.t) :=
  result_bind (unless (isPositiveScale4 settlementAmount) AccountsReceivableOverpaymentError) (λ _,
  if bool_decide (Account.status ar = AccountsReceivableStatus.PAID) then Err AccountsReceivableInvalidStateError else
  if bool_decide (Account.status ar = AccountsReceivableStatus.DEFAULTED) then Err AccountsReceivableInvalidStateError else
  result_bind (exceeds settlementAmount (Account.balanceDue ar)) (λ over,
  if over : bool then Err AccountsReceivableOverpaymentError else
  result_bind (subScale4 (Account.balanceDue ar) settlementAmount) (λ newBalanceDue,
  result_map (λ z : bool, (newBalanceDue, if z then AccountsReceivableStatus.PAID else Account.status ar)) (isZeroScale4 newBalanceDue)))).

(* accounts-receivable.ts:53-79 reverseSettlementOnAccountsReceivable *)
Definition reverseSettlementOnAccountsReceivable (ar : AccountsReceivable) (reversalAmount : string) : FR (string * AccountsReceivableStatus.t) :=
  result_bind (unless (isPositiveScale4 reversalAmount) AccountsReceivableOverpaymentError) (λ _,
  if bool_decide (Account.status ar = AccountsReceivableStatus.DEFAULTED) then Err AccountsReceivableInvalidStateError else
  result_bind (addScale4 (Account.balanceDue ar) reversalAmount) (λ newBalanceDue,
  result_bind (exceeds newBalanceDue (Account.totalAmount ar)) (λ over,
  if over : bool then Err AccountsReceivableOverpaymentError else Ok (newBalanceDue, AccountsReceivableStatus.PENDING)))).

(* reconciliation.ts:25-37 calculateCashReconciliation *)
Definition calculateCashReconciliation (expectedCash actualCash : string) : FR (string * bool) :=
  result_bind (subScale4 actualCash expectedCash) (λ variance, result_map (λ z : bool, (variance, negb z)) (isZeroScale4 variance)).

(** ** Tables *)

Module AccountRow.
(* 20260905020000_finance_ap_ar_cash_reconciliation.sql:16-36 accounts_payable *)
Record t {S : Type} := mk {
  id : string; organizationId : string; branchId : string; counterpartyId : string; sourceId : string; totalAmount : Z; balanceDue : Z;
  dueDate : string; status : S; createdAt : Z; updatedAt : Z }.
Arguments t : clear implicits.
#[global] Instance eta_t S : Eta (t S) := λ r,
  mk _ (id r) (organizationId r) (branchId r) (counterpartyId r) (sourceId r) (totalAmount r) (balanceDue r) (dueDate r) (status r)
    (createdAt r) (updatedAt r).
End AccountRow.

Module TransactionRow.
(* 20260905020000_finance_ap_ar_cash_reconciliation.sql:54-75 accounts_payable_payments *)
Record t := mk {
  id : string; organizationId : string; branchId : string; accountId : string; transactionKind : FinanceTransactionKind.t; amount : Z;
  date : Z; referenceId : string; reversalOfTransactionId : option string; createdAt : Z }.
End TransactionRow.

(** one side of the ledger: its accounts and their transactions, in insertion order *)
Module Book.
Record t {S : Type} := mk { accounts : list (AccountRow.t S); transactions : list TransactionRow.t }.
Arguments t : clear implicits.
#[global] Instance eta_t S : Eta (t S) := λ b, mk _ (accounts b) (transactions b).
End Book.

Module FinanceDb.
Record t := mk {
  payable : Book.t AccountsPayableStatus.t; receivable : Book.t AccountsReceivableStatus.t; scheduled_payments : list ScheduledPayment.t;
  branch_operating_expenses : list OperatingExpense.t; cash_reconciliations : list CashReconciliation.t }.
#[global] Instance eta_t : Eta t := λ d,
  mk (payable d) (receivable d) (scheduled_payments d) (branch_operating_expenses d) (cash_reconciliations d).
Definition empty : t := mk (Book.mk _ [] []) (Book.mk _ [] []) [] [] [].
End FinanceDb.

(** [gen_random_uuid()] and [NOW()] *)
Module FinanceDraws.
Record t := mk { rowId : string; now : Z }.
End FinanceDraws.

Abbreviation FinTx := (M FinanceDb.t FinanceError).

Definition inFinanceTransaction {D A} (callback : M D FinanceError A) : M D FinanceError A :=
  λ db, match callback db with (db', Ok a) => (db', Ok a) | (_, Err e) => (db, Err e) end.

Definition onPayable {A} (m : M (Book.t AccountsPayableStatus.t) FinanceError A) : FinTx A := λ db,
  let '(b, r) := m (FinanceDb.payable db) in (db <| FinanceDb.payable := b |>, r).
Definition onReceivable {A} (m : M (Book.t AccountsReceivableStatus.t) FinanceError A) : FinTx A := λ db,
  let '(b, r) := m (FinanceDb.receivable db) in (db <| FinanceDb.receivable := b |>, r).

(** ** Columns *)

(** a decimal string in a DECIMAL(12,4) column *)
Definition amountColumn (s : string) : FR Z :=
  match decimalStringToScaledBigInt s with Ok z => Ok z | Err _ => Err (FinancePg "numeric") end.

(** COALESCE($n, NOW()) in a TIMESTAMPTZ column *)
Definition timestampColumn (now : Z) (d : DateInput.t) : FR Z :=
  match d with
  | DateInput.Absent => Ok now
  | DateInput.At ms => Ok ms
  | _ => Err (FinancePg "invalid input syntax for type timestamp with time zone")
  end.

(** a calendar date, YYYY-MM-DD *)
Definition calendarDate (d : string) : bool :=
  let number from len := let s := substring from len d in if all_digits s then default 0%N (BigInt_of_digits s) else 0%N in
  let '(y, m, dd) := (number 0%nat 4%nat, number 5%nat 2%nat, number 8%nat 2%nat) in
  let leap := ((y mod 4 =? 0) && negb (y mod 100 =? 0) || (y mod 400 =? 0))%N in
  let days := (if (m =? 2)%N then (if leap then 29 else 28) else if (m =? 4)%N || (m =? 6)%N || (m =? 9)%N || (m =? 11)%N then 30 else 31)%N in
  (String.length d =? 10)%nat && bool_decide (substring 4 1 d = "-") && bool_decide (substring 7 1 d = "-") &&
  ((1 <=? y) && (1 <=? m) && (m <=? 12) && (1 <=? dd) && (dd <=? days))%N.
Definition dateColumn (d : string) : FR string :=
  if calendarDate d then Ok d else Err (FinancePg "invalid input syntax for type date").

(* cloud-server index.ts:2666-2672 normalizeDateStr *)
Definition normalizeDateStr (d : string) : string := substring 0 10 d.

(* cloud-server index.ts:2683-2697 matchesTransactionDate *)
Definition matchesTransactionDate (persistedDate : Z) (incomingExplicitDate : DateInput.t) : FR bool :=
  match incomingExplicitDate with
  | DateInput.Absent | DateInput.Empty => Ok true
  | DateInput.Invalid => Err InvalidFinancialAmountError
  | DateInput.At ms => Ok (ms =? persistedDate)
  end.

(** ** Accounts and their transactions *)

(** what payables and receivables do differently *)
Class Obligation (S : Type) := {
  PENDING_status : S;
  applyAmount : Account.t S → string → FR (string * S);
  reverseAmount : Account.t S → string → FR (string * S);
  alreadyReversed : Z → list TransactionRow.t → FR bool;
  referenceRequired : FinanceError;
  transactionConflict : FinanceError;
  invalidState : FinanceError;
  accountVanished : FinanceError;
  transactionNotFound : FinanceError;
  alreadyReversedError : FinanceError }.

(** reversals of at least the amount of the transaction *)
(* cloud-server index.ts:3330-3344 PostgresFinanceService.reverseAccountsPayablePayment *)
Definition payableAlreadyReversed (amount : Z) (reversals : list TransactionRow.t) : FR bool :=
  result_map (λ c, match c with Lt => false | _ => true end)
    (cmpScale4 (columnText (sumZ TransactionRow.amount reversals)) (columnText amount)).

#[global] Instance payable_obligation : Obligation AccountsPayableStatus.t := {
  PENDING_status := AccountsPayableStatus.PENDING;
  applyAmount := applyPaymentToAccountsPayable;
  reverseAmount := reversePaymentOnAccountsPayable;
  alreadyReversed := payableAlreadyReversed;
  referenceRequired := PaymentReferenceRequiredError;
  transactionConflict := PaymentIdempotencyConflictError;
  invalidState := AccountsPayableInvalidStateError;
  accountVanished := FinanceJs (TypeError "undefined");
  transactionNotFound := PaymentTransactionNotFoundError;
  alreadyReversedError := PaymentAlreadyReversedError }.

#[global] Instance receivable_obligation : Obligation AccountsReceivableStatus.t := {
  PENDING_status := AccountsReceivableStatus.PENDING;
  applyAmount := applySettlementToAccountsReceivable;
  reverseAmount := reverseSettlementOnAccountsReceivable;
  alreadyReversed := λ _ reversals, Ok (negb (bool_decide (reversals = [])));
  referenceRequired := SettlementReferenceRequiredError;
  transactionConflict := SettlementIdempotencyConflictError;
  invalidState := AccountsReceivableInvalidStateError;
  accountVanished := AccountsReceivableInvalidStateError;
  transactionNotFound := SettlementTransactionNotFoundError;
  alreadyReversedError := SettlementAlreadyReversedError }.

Section account.
Context {S : Type} `{Obligation S}.

Abbreviation BookTx := (M (Book.t S) FinanceError).

(* cloud-server index.ts:4456-4483 PostgresFinanceService.mapApRow *)
Definition toAccount (row : AccountRow.t S) : Account.t S :=
  Account.mk S (AccountRow.id row) (AccountRow.organizationId row) (AccountRow.branchId row) (AccountRow.counterpartyId row)
    (AccountRow.sourceId row) (columnText (AccountRow.totalAmount row)) (columnText (AccountRow.balanceDue row)) (AccountRow.dueDate row)
    (AccountRow.status row) (AccountRow.createdAt row) (AccountRow.updatedAt row).

(* cloud-server index.ts:4543-4572 PostgresFinanceService.mapApPaymentRow *)
Definition toTransaction (row : TransactionRow.t) : Transaction.t :=
  Transaction.mk (TransactionRow.id row) (TransactionRow.organizationId row) (TransactionRow.branchId row) (TransactionRow.accountId row)
    (TransactionRow.transactionKind row) (columnText (TransactionRow.amount row)) (TransactionRow.date row) (TransactionRow.referenceId row)
    (TransactionRow.reversalOfTransactionId row) (TransactionRow.createdAt row).

Definition findAccount (organizationId id : string) (b : Book.t S) : option (AccountRow.t S) :=
  snd <$> list_find (λ r, AccountRow.organizationId r = organizationId ∧ AccountRow.id r = id) (Book.accounts b).
Definition findBySource (organizationId sourceId : string) (b : Book.t S) : option (AccountRow.t S) :=
  snd <$> list_find (λ r, AccountRow.organizationId r = organizationId ∧ AccountRow.sourceId r = sourceId) (Book.accounts b).
Definition findReference (organizationId referenceId : string) (b : Book.t S) : option TransactionRow.t :=
  snd <$> list_find (λ r, TransactionRow.organizationId r = organizationId ∧ TransactionRow.referenceId r = referenceId) (Book.transactions b).

(* cloud-server index.ts:2809-2826 PostgresFinanceService.processPurchaseReceiptEvent, INSERT *)
Definition insertAccount (draws : FinanceDraws.t) (organizationId branchId counterpartyId sourceId totalAmount dueDate : string) :
    BookTx (AccountRow.t S) :=
  total ← lift (amountColumn totalAmount);
  due ← lift (dateColumn dueDate);
  rows ← gets Book.accounts;
  throw_when (total <=? 0) (FinancePg "chk_total_positive") ;;
  throw_when (bool_decide (FinanceDraws.rowId draws ∈ (AccountRow.id <$> rows))) (FinancePg "pkey") ;;
  let row := AccountRow.mk S (FinanceDraws.rowId draws) organizationId branchId counterpartyId sourceId total total due PENDING_status
    (FinanceDraws.now draws) (FinanceDraws.now draws) in
  modify (λ b, b <| Book.accounts ::= λ l, l ++ [row] |>) ;;
  mret row.

(** the stored facts of an account against the incoming ones *)
(* cloud-server index.ts:2778-2788 PostgresFinanceService.processPurchaseReceiptEvent *)
Definition sameAccount (row : AccountRow.t S) (branchId counterpartyId totalAmount dueDate : string) : FR bool :=
  if negb (bool_decide (AccountRow.branchId row = branchId ∧ AccountRow.counterpartyId row = counterpartyId)) then Ok false else
  result_map (andb (bool_decide (normalizeDateStr (AccountRow.dueDate row) = dueDate)))
    (equals (columnText (AccountRow.totalAmount row)) totalAmount).

(* cloud-server index.ts:3101-3128 PostgresFinanceService.applyAccountsPayablePayment, INSERT *)
Definition insertTransaction (draws : FinanceDraws.t) (organizationId branchId accountId : string) (kind : FinanceTransactionKind.t)
    (amount : string) (date : DateInput.t) (referenceId : string) (reversalOf : option string) : BookTx TransactionRow.t :=
  n ← lift (amountColumn amount);
  at' ← lift (timestampColumn (FinanceDraws.now draws) date);
  rows ← gets Book.transactions;
  throw_when (negb (fits 100 referenceId)) (FinancePg "value too long") ;;
  throw_when (bool_decide (FinanceDraws.rowId draws ∈ (TransactionRow.id <$> rows))) (FinancePg "pkey") ;;
  throw_when (bool_decide (Exists (λ r, TransactionRow.organizationId r = organizationId ∧ TransactionRow.referenceId r = referenceId) rows))
    (FinancePg "uq_org_ref") ;;
  let row := TransactionRow.mk (FinanceDraws.rowId draws) organizationId branchId accountId kind n at' referenceId reversalOf
    (FinanceDraws.now draws) in
  modify (λ b, b <| Book.transactions ::= λ l, l ++ [row] |>) ;;
  mret row.

(* cloud-server index.ts:3131-3139 PostgresFinanceService.applyAccountsPayablePayment, UPDATE *)
Definition setBalance (now : Z) (organizationId id newBalanceDue : string) (newStatus : S) : BookTx unit :=
  n ← lift (amountColumn newBalanceDue);
  modify (λ b, b <| Book.accounts ::= fmap (λ r,
    if decide (AccountRow.organizationId r = organizationId ∧ AccountRow.id r = id)
    then r <| AccountRow.balanceDue := n |> <| AccountRow.status := newStatus |> <| AccountRow.updatedAt := now |> else r) |>).

(** the outcome of a transaction on an account *)
Definition Settled : Type := ConfirmStatus.t * Account.t S * Transaction.t.

(** a transaction with the reference exists and is the one meant *)
(* cloud-server index.ts:2967-3004 PostgresFinanceService.applyAccountsPayablePayment *)
Definition answerStored (organizationId accountId : string) (row : TransactionRow.t) (same : FR bool) : BookTx Settled :=
  same ← lift same;
  throw_when (negb same) transactionConflict ;;
  found ← gets (findAccount organizationId accountId);
  account ← require found accountVanished;
  mret (ConfirmStatus.DUPLICATE_ACCEPTED, toAccount account, toTransaction row).

(** the account, locked, in the branch of the command *)
(* cloud-server index.ts:3007-3041 PostgresFinanceService.applyAccountsPayablePayment *)
Definition lockAccount (organizationId branchId accountId : string) : BookTx (AccountRow.t S) :=
  found ← gets (findAccount organizationId accountId);
  account ← require found invalidState;
  throw_when (negb (bool_decide (AccountRow.branchId account = branchId))) invalidState ;;
  mret account.

(** the insert of the transaction and the update of the account *)
(* cloud-server index.ts:3088-3145 PostgresFinanceService.applyAccountsPayablePayment *)
Definition record (draws : FinanceDraws.t) (account : AccountRow.t S) (branchId : string) (kind : FinanceTransactionKind.t) (amount : string)
    (date : DateInput.t) (referenceId : string) (reversalOf : option string) (newBalanceDue : string) (newStatus : S) : BookTx Settled :=
  row ← insertTransaction draws (AccountRow.organizationId account) branchId (AccountRow.id account) kind amount date referenceId reversalOf;
  setBalance (FinanceDraws.now draws) (AccountRow.organizationId account) (AccountRow.id account) newBalanceDue newStatus ;;
  found ← gets (findAccount (AccountRow.organizationId account) (AccountRow.id account));
  updated ← require found accountVanished;
  mret (ConfirmStatus.APPLIED, toAccount updated, toTransaction row).

(* cloud-server index.ts:2967-2973 PostgresFinanceService.applyAccountsPayablePayment *)
Definition sameApply (command : ApplyTransaction.t) (row : TransactionRow.t) : FR bool :=
  if negb (bool_decide (TransactionRow.accountId row = ApplyTransaction.accountId command ∧
    TransactionRow.branchId row = ApplyTransaction.branchId command ∧ TransactionRow.transactionKind row = APPLY)) then Ok false else
  result_bind (equals (columnText (TransactionRow.amount row)) (ApplyTransaction.amount command)) (λ eq,
  if eq : bool then matchesTransactionDate (TransactionRow.date row) (ApplyTransaction.date command) else Ok false).

(** the trimmed reference, unless there is none *)
Definition referenceOf (reference : option string) : option string :=
  match trim <$> reference with Some "" | None => None | Some r => Some r end.

(* cloud-server index.ts:2935-3147 PostgresFinanceService.applyAccountsPayablePayment *)
Definition applyTransaction (draws : FinanceDraws.t) (command : ApplyTransaction.t) : BookTx Settled :=
  let org := ApplyTransaction.organizationId command in
  referenceId ← require (referenceOf (match ApplyTransaction.referenceId command with None => ApplyTransaction.reference command | r => r end))
    referenceRequired;
  _ ← lift (FinanceNumerics.parseDecimal12x4 (ApplyTransaction.amount command));
  inFinanceTransaction (
    existing ← gets (findReference org referenceId);
    match existing with
    | Some row => answerStored org (ApplyTransaction.accountId command) row (sameApply command row)
    | None =>
        account ← lockAccount org (ApplyTransaction.branchId command) (ApplyTransaction.accountId command);
        next ← lift (applyAmount (toAccount account) (ApplyTransaction.amount command));
        record draws account (ApplyTransaction.branchId command) APPLY (ApplyTransaction.amount command) (ApplyTransaction.date command)
          referenceId None next.1 next.2
    end).

(* cloud-server index.ts:3180-3186 PostgresFinanceService.reverseAccountsPayablePayment *)
Definition sameReversal (command : ReverseTransaction.t) (row : TransactionRow.t) : FR bool :=
  if negb (bool_decide (TransactionRow.accountId row = ReverseTransaction.accountId command ∧
    TransactionRow.branchId row = ReverseTransaction.branchId command ∧ TransactionRow.transactionKind row = REVERSAL ∧
    TransactionRow.reversalOfTransactionId row = Some (ReverseTransaction.originalTransactionId command))) then Ok false else
  matchesTransactionDate (TransactionRow.date row) (ReverseTransaction.reversalDate command).

(* cloud-server index.ts:3331-3336 PostgresFinanceService.reverseAccountsPayablePayment *)
Definition reversalsOf (organizationId id : string) (b : Book.t S) : list TransactionRow.t :=
  filter (λ r, TransactionRow.organizationId r = organizationId ∧ TransactionRow.reversalOfTransactionId r = Some id) (Book.transactions b).

(* cloud-server index.ts:3149-3410 PostgresFinanceService.reverseAccountsPayablePayment *)
Definition reverseTransaction (draws : FinanceDraws.t) (command : ReverseTransaction.t) : BookTx Settled :=
  let org := ReverseTransaction.organizationId command in
  referenceId ← require (referenceOf (Some (ReverseTransaction.reversalReferenceId command))) referenceRequired;
  inFinanceTransaction (
    existing ← gets (findReference org referenceId);
    match existing with
    | Some row => answerStored org (ReverseTransaction.accountId command) row (sameReversal command row)
    | None =>
        account ← lockAccount org (ReverseTransaction.branchId command) (ReverseTransaction.accountId command);
        rows ← gets Book.transactions;
        original ← require (snd <$> list_find (λ r, TransactionRow.organizationId r = org ∧
          TransactionRow.id r = ReverseTransaction.originalTransactionId command ∧
          TransactionRow.accountId r = ReverseTransaction.accountId command) rows) transactionNotFound;
        throw_when (negb (bool_decide (TransactionRow.transactionKind original = APPLY))) invalidState ;;
        reversals ← gets (reversalsOf org (TransactionRow.id original));
        reversed ← lift (alreadyReversed (TransactionRow.amount original) reversals);
        throw_when reversed alreadyReversedError ;;
        next ← lift (reverseAmount (toAccount account) (columnText (TransactionRow.amount original)));
        record draws account (ReverseTransaction.branchId command) REVERSAL (columnText (TransactionRow.amount original))
          (ReverseTransaction.reversalDate command) referenceId (Some (TransactionRow.id original)) next.1 next.2
    end).

(* cloud-server index.ts:2876-2902 PostgresFinanceService.getAccountsPayable *)
Definition getAccount (organizationId id : string) : BookTx (option (Account.t S)) :=
  inFinanceTransaction (gets (λ b, toAccount <$> findAccount organizationId id b)).

(* cloud-server index.ts:2904-2933 PostgresFinanceService.getAccountsPayableByReceipt *)
Definition getBySource (organizationId sourceId : string) : BookTx (option (Account.t S)) :=
  inFinanceTransaction (gets (λ b, toAccount <$> findBySource organizationId sourceId b)).

(** ORDER BY created_at ASC, id ASC *)
(* cloud-server index.ts:3412-3439 PostgresFinanceService.getAccountsPayablePayments *)
Definition getTransactions (organizationId accountId : string) : BookTx (list Transaction.t) :=
  inFinanceTransaction (gets (λ b, toTransaction <$> orderAsc TransactionRow.createdAt (orderBy TransactionRow.id
    (filter (λ r, TransactionRow.organizationId r = organizationId ∧ TransactionRow.accountId r = accountId) (Book.transactions b))))).
End account.

(** ** Payables *)

Definition applyAccountsPayablePayment (draws : FinanceDraws.t) (command : ApplyTransaction.t) : FinTx Settled :=
  onPayable (applyTransaction draws command).

Definition reverseAccountsPayablePayment (draws : FinanceDraws.t) (command : ReverseTransaction.t) : FinTx Settled :=
  onPayable (reverseTransaction draws command).

(** the due date: explicit, or resolved from the terms of the event *)
(* cloud-server index.ts:2722-2751 PostgresFinanceService.processPurchaseReceiptEvent *)
Definition resolveDueDate (event : Recepcion.t) (explicitDueDate : option string) (resolver : option DueDateResolver) : FR string :=
  result_map normalizeDateStr
    (match explicitDueDate, resolver with
     | Some (String _ _ as d), _ => Ok d
     | _, Some resolver => Ok (resolver (PaymentTerms.mk (Recepcion.organizationId event) (Recepcion.branchId event) (Recepcion.supplierId event)
         (Recepcion.recepcionId event) (Recepcion.receivedAt event) (Recepcion.paymentTerms event)))
     | _, None => Err PaymentTermsResolverRequiredError
     end).

(* cloud-server index.ts:2718-2874 PostgresFinanceService.processPurchaseReceiptEvent *)
Definition processPurchaseReceiptEvent (draws : FinanceDraws.t) (event : Recepcion.t) (explicitDueDate : option string)
    (resolver : option DueDateResolver) : FinTx (ConfirmStatus.t * AccountsPayable) :=
  resolvedDueDate ← lift (resolveDueDate event explicitDueDate resolver);
  _ ← lift (FinanceNumerics.parseDecimal12x4 (Recepcion.totalAmount event));
  onPayable (inFinanceTransaction (
    existing ← gets (findBySource (Recepcion.organizationId event) (Recepcion.recepcionId event));
    match existing with
    | Some row =>
        same ← lift (sameAccount row (Recepcion.branchId event) (Recepcion.supplierId event) (Recepcion.totalAmount event) resolvedDueDate);
        throw_when (negb same) APIdempotencyConflictError ;;
        mret (ConfirmStatus.DUPLICATE_ACCEPTED, toAccount row)
    | None =>
        row ← insertAccount draws (Recepcion.organizationId event) (Recepcion.branchId event) (Recepcion.supplierId event)
          (Recepcion.recepcionId event) (Recepcion.totalAmount event) resolvedDueDate;
        mret (ConfirmStatus.APPLIED, toAccount row)
    end)).

(* cloud-server index.ts:2709-2712 PostgresFinanceService.settlePayable *)
Definition settlePayable (draws : FinanceDraws.t) (command : ApplyTransaction.t) : FinTx AccountsPayable :=
  res ← applyAccountsPayablePayment draws command; mret res.1.2.

(* cloud-server index.ts:3441-3499 PostgresFinanceService.createScheduledPayment *)
Definition createScheduledPayment (draws : FinanceDraws.t) (command : CreateScheduledPayment.t) : FinTx ScheduledPayment.t :=
  _ ← lift (FinanceNumerics.parseDecimal12x4 (CreateScheduledPayment.scheduledAmount command));
  inFinanceTransaction (
    found ← gets (λ db, findAccount (CreateScheduledPayment.organizationId command) (CreateScheduledPayment.accountsPayableId command)
      (FinanceDb.payable db));
    _ ← require found AccountsPayableInvalidStateError;
    n ← lift (amountColumn (CreateScheduledPayment.scheduledAmount command));
    date ← lift (dateColumn (CreateScheduledPayment.scheduledDate command));
    rows ← gets FinanceDb.scheduled_payments;
    throw_when (n <=? 0) (FinancePg "chk_sched_pay_amount_positive") ;;
    throw_when (bool_decide (FinanceDraws.rowId draws ∈ (ScheduledPayment.id <$> rows))) (FinancePg "scheduled_payments_pkey") ;;
    let row := ScheduledPayment.mk (FinanceDraws.rowId draws) (CreateScheduledPayment.organizationId command)
      (CreateScheduledPayment.branchId command) (CreateScheduledPayment.accountsPayableId command) (columnText n) date
      ScheduledPaymentStatus.PENDING (FinanceDraws.now draws) (FinanceDraws.now draws) in
    modify (λ db, db <| FinanceDb.scheduled_payments ::= λ l, l ++ [row] |>) ;;
    mret row).

(** ** Receivables *)

(** what the customer owes already *)
(* cloud-server index.ts:3554-3561 PostgresFinanceService.createReceivableCharge *)
Definition currentReceivable (organizationId customerId : string) (b : Book.t AccountsReceivableStatus.t) : Z :=
  sumZ AccountRow.balanceDue (filter (λ r, AccountRow.organizationId r = organizationId ∧ AccountRow.counterpartyId r = customerId ∧
    AccountRow.status r ∈ [AccountsReceivableStatus.PENDING; AccountsReceivableStatus.OVERDUE]) (Book.accounts b)).

(* cloud-server index.ts:3548-3578 PostgresFinanceService.createReceivableCharge *)
Definition checkCredit (validator : option CreditLimitValidator) (command : CreateReceivableCharge.t) :
    M (Book.t AccountsReceivableStatus.t) FinanceError unit :=
  if CreateReceivableCharge.requireCreditPolicy command || CreateReceivableCharge.requiresCreditCheck command then
    evaluateCredit ← require validator CreditPolicyRequiredError;
    current ← gets (currentReceivable (CreateReceivableCharge.organizationId command) (CreateReceivableCharge.customerId command));
    throw_when (negb (evaluateCredit (CreditLimitContext.mk (CreateReceivableCharge.organizationId command)
      (CreateReceivableCharge.branchId command) (CreateReceivableCharge.customerId command) (columnText current)
      (CreateReceivableCharge.totalAmount command) (CreateReceivableCharge.referenceAccountId command)))) CreditLimitExceededError
  else mret tt.

(** CHECK (length(trim(reference_account_id)) > 0) and VARCHAR(100) *)
Definition referenceAccountColumn (s : string) : FR unit :=
  if negb (fits 100 s) then Err (FinancePg "value too long")
  else if forallb (λ c, bool_decide (c = " "%char)) (list_ascii_of_string s) then Err (FinancePg "chk_ar_reference_account_nonempty") else Ok tt.

(* cloud-server index.ts:3501-3657 PostgresFinanceService.createReceivableCharge *)
Definition createReceivableCharge (draws : FinanceDraws.t) (validator : option CreditLimitValidator) (command : CreateReceivableCharge.t) :
    FinTx (ConfirmStatus.t * AccountsReceivable) :=
  _ ← lift (FinanceNumerics.parseDecimal12x4 (CreateReceivableCharge.totalAmount command));
  onReceivable (inFinanceTransaction (
    existing ← gets (findBySource (CreateReceivableCharge.organizationId command) (CreateReceivableCharge.referenceAccountId command));
    match existing with
    | Some row =>
        same ← lift (sameAccount row (CreateReceivableCharge.branchId command) (CreateReceivableCharge.customerId command)
          (CreateReceivableCharge.totalAmount command) (normalizeDateStr (CreateReceivableCharge.dueDate command)));
        throw_when (negb same) ARIdempotencyConflictError ;;
        mret (ConfirmStatus.DUPLICATE_ACCEPTED, toAccount row)
    | None =>
        checkCredit validator command ;;
        _ ← lift (referenceAccountColumn (CreateReceivableCharge.referenceAccountId command));
        row ← insertAccount draws (CreateReceivableCharge.organizationId command) (CreateReceivableCharge.branchId command)
          (CreateReceivableCharge.customerId command) (CreateReceivableCharge.referenceAccountId command)
          (CreateReceivableCharge.totalAmount command) (CreateReceivableCharge.dueDate command);
        mret (ConfirmStatus.APPLIED, toAccount row)
    end)).

(* cloud-server index.ts:3721-3923 PostgresFinanceService.settleReceivable *)
Definition settleReceivable (draws : FinanceDraws.t) (command : ApplyTransaction.t) : FinTx Settled :=
  onReceivable (applyTransaction draws command).

(* cloud-server index.ts:3925-4180 PostgresFinanceService.reverseAccountsReceivableSettlement *)
Definition reverseAccountsReceivableSettlement (draws : FinanceDraws.t) (command : ReverseTransaction.t) : FinTx Settled :=
  onReceivable (reverseTransaction draws command).

(* cloud-server index.ts:3659-3688 PostgresFinanceService.getAccountsReceivable *)
Definition getAccountsReceivable (organizationId id : string) : FinTx (option AccountsReceivable) := onReceivable (getAccount organizationId id).
(* cloud-server index.ts:3690-3719 PostgresFinanceService.getAccountsReceivableByReference *)
Definition getAccountsReceivableByReference (organizationId referenceAccountId : string) : FinTx (option AccountsReceivable) :=
  onReceivable (getBySource organizationId referenceAccountId).
(* cloud-server index.ts:4182-4209 PostgresFinanceService.getAccountsReceivableSettlements *)
Definition getAccountsReceivableSettlements (organizationId accountsReceivableId : string) : FinTx (list Transaction.t) :=
  onReceivable (getTransactions organizationId accountsReceivableId).

(** ** Expenses and cash *)

(* cloud-server index.ts:4211-4262 PostgresFinanceService.registerOperatingExpense *)
Definition registerOperatingExpense (draws : FinanceDraws.t) (command : RegisterOperatingExpense.t) : FinTx OperatingExpense.t :=
  _ ← lift (FinanceNumerics.parseDecimal12x4 (RegisterOperatingExpense.amount command));
  throw_when (blank (RegisterOperatingExpense.category command)) OperatingExpenseError ;;
  inFinanceTransaction (
    n ← lift (amountColumn (RegisterOperatingExpense.amount command));
    date ← lift (timestampColumn (FinanceDraws.now draws) (RegisterOperatingExpense.expenseDate command));
    rows ← gets FinanceDb.branch_operating_expenses;
    throw_when (n <=? 0) (FinancePg "chk_expense_amount_positive") ;;
    throw_when (negb (fits 100 (trim (RegisterOperatingExpense.category command)))) (FinancePg "value too long") ;;
    throw_when (bool_decide (FinanceDraws.rowId draws ∈ (OperatingExpense.id <$> rows))) (FinancePg "branch_operating_expenses_pkey") ;;
    let row := OperatingExpense.mk (FinanceDraws.rowId draws) (RegisterOperatingExpense.organizationId command)
      (RegisterOperatingExpense.branchId command) (columnText n) date (trim (RegisterOperatingExpense.category command))
      (RegisterOperatingExpense.receiptAttachmentUrl command) (RegisterOperatingExpense.notes command) (FinanceDraws.now draws) in
    modify (λ db, db <| FinanceDb.branch_operating_expenses ::= λ l, l ++ [row] |>) ;;
    mret row).

Definition findCut (organizationId sourceCutId : string) (db : FinanceDb.t) : option CashReconciliation.t :=
  snd <$> list_find (λ r, CashReconciliation.organizationId r = organizationId ∧ CashReconciliation.sourceCutId r = sourceCutId)
    (FinanceDb.cash_reconciliations db).

(* cloud-server index.ts:4296-4306 PostgresFinanceService.reconcileCash *)
Definition sameFacts (facts : CashClosingFacts.t) (row : CashReconciliation.t) : FR bool :=
  if negb (bool_decide (CashReconciliation.branchId row = CashClosingFacts.branchId facts ∧
    normalizeDateStr (CashReconciliation.operationalDate row) = normalizeDateStr (CashClosingFacts.operationalDate facts))) then Ok false else
  result_bind (equals (CashReconciliation.expectedCash row) (CashClosingFacts.expectedCash facts)) (λ eq,
  if eq : bool then equals (CashReconciliation.actualCash row) (CashClosingFacts.actualCash facts) else Ok false).

(* cloud-server index.ts:4264-4396 PostgresFinanceService.reconcileCash *)
Definition reconcileCash (draws : FinanceDraws.t) (facts : CashClosingFacts.t) : FinTx (ConfirmStatus.t * CashReconciliation.t) :=
  throw_when (blank (CashClosingFacts.sourceCutId facts)) CashReconciliationError ;;
  _ ← lift (FinanceNumerics.parseDecimal12x4 (CashClosingFacts.expectedCash facts));
  _ ← lift (FinanceNumerics.parseDecimal12x4 (CashClosingFacts.actualCash facts));
  inFinanceTransaction (
    existing ← gets (findCut (CashClosingFacts.organizationId facts) (trim (CashClosingFacts.sourceCutId facts)));
    match existing with
    | Some row =>
        same ← lift (sameFacts facts row);
        throw_when (negb same) CashReconciliationIdempotencyConflictError ;;
        mret (ConfirmStatus.DUPLICATE_ACCEPTED, row)
    | None =>
        calculated ← lift (calculateCashReconciliation (CashClosingFacts.expectedCash facts) (CashClosingFacts.actualCash facts));
        date ← lift (dateColumn (CashClosingFacts.operationalDate facts));
        expected ← lift (amountColumn (CashClosingFacts.expectedCash facts));
        actual ← lift (amountColumn (CashClosingFacts.actualCash facts));
        variance ← lift (amountColumn calculated.1);
        rows ← gets FinanceDb.cash_reconciliations;
        throw_when (negb (fits 100 (trim (CashClosingFacts.sourceCutId facts)))) (FinancePg "value too long") ;;
        throw_when (bool_decide (FinanceDraws.rowId draws ∈ (CashReconciliation.id <$> rows))) (FinancePg "cash_reconciliations_pkey") ;;
        let row := CashReconciliation.mk (FinanceDraws.rowId draws) (CashClosingFacts.organizationId facts) (CashClosingFacts.branchId facts)
          (trim (CashClosingFacts.sourceCutId facts)) date (columnText expected) (columnText actual) (columnText variance) calculated.2
          (FinanceDraws.now draws) in
        modify (λ db, db <| FinanceDb.cash_reconciliations ::= λ l, l ++ [row] |>) ;;
        mret (ConfirmStatus.APPLIED, row)
    end).

(* cloud-server index.ts:4398-4425 PostgresFinanceService.getCashReconciliation *)
Definition getCashReconciliation (organizationId id : string) : FinTx (option CashReconciliation.t) :=
  inFinanceTransaction (gets (λ db, snd <$> list_find (λ r, CashReconciliation.organizationId r = organizationId ∧ CashReconciliation.id r = id)
    (FinanceDb.cash_reconciliations db))).
(* cloud-server index.ts:4427-4454 PostgresFinanceService.getCashReconciliationBySourceCut *)
Definition getCashReconciliationBySourceCut (organizationId sourceCutId : string) : FinTx (option CashReconciliation.t) :=
  inFinanceTransaction (gets (findCut organizationId sourceCutId)).
