(* ===== verification/FinanceSpec.v ===== *)
(** What finance guarantees: every balance is its total less the transactions of the account,
    a payment is recorded once per reference and reversed at most once, whatever is requested
    and in whatever order.  The two sides of the ledger are proved at once, from the laws of
    [ObligationLaws]. *)
From S2P Require Import Prelude Decimals Money Scale4 Json Recipes Procurement ProcurementSpec Finance.
From Stdlib Require Import Ascii String.
Import FinanceTransactionKind(APPLY, REVERSAL).

(** ** The two obligations *)

(** what the functions of finance/src promise to the service *)
Class ObligationLaws (S : Type) `{Obligation S} := {
  (** the statuses an account with this total and balance can have *)
  statusOk : S → Z → Z → Prop;
  pending_ok t : 0 < t → statusOk PENDING_status t t;
  apply_ok row s b' s' : applyAmount (toAccount row) s = Ok (b', s') →
    statusOk (AccountRow.status row) (AccountRow.totalAmount row) (AccountRow.balanceDue row) →
    ∃ n, amount s n ∧ 0 < n <= AccountRow.balanceDue row ∧ b' = columnText (AccountRow.balanceDue row - n) ∧
      statusOk s' (AccountRow.totalAmount row) (AccountRow.balanceDue row - n);
  reverse_ok row n b' s' : reverseAmount (toAccount row) (columnText n) = Ok (b', s') → 0 <= AccountRow.balanceDue row →
    0 < n ∧ AccountRow.balanceDue row + n <= AccountRow.totalAmount row ∧ b' = columnText (AccountRow.balanceDue row + n) ∧
      statusOk s' (AccountRow.totalAmount row) (AccountRow.balanceDue row + n);
  reversed_ok n l : alreadyReversed n l = Ok false → 0 < n → (∀ r, r ∈ l → TransactionRow.amount r = n) → l = [] }.

Lemma unless_ok b e : unless b e = Ok tt ↔ b = Ok true.
Proof. unfold unless. destruct b as [[]|]; naive_solver. Qed.

Lemma exceeds_ok a b r : exceeds a b = Ok r ↔ ∃ x y, amount a x ∧ amount b y ∧ r = (y <? x).
Proof.
  unfold exceeds. rewrite result_map_ok. split.
  - intros (c & (x & y & Hx & Hy & ->)%cmpScale4_ok & ->). exists x, y. split_and!; [done..|]. rewrite Z.ltb_compare, (Z.compare_antisym y x).
    by destruct (y ?= x).
  - intros (x & y & Hx & Hy & ->). exists (x ?= y). split; [apply cmpScale4_ok; by exists x, y|]. rewrite Z.ltb_compare, (Z.compare_antisym x y).
    by destruct (x ?= y).
Qed.

Lemma equals_ok a b r : equals a b = Ok r ↔ ∃ x y, amount a x ∧ amount b y ∧ r = (x =? y).
Proof.
  unfold equals. rewrite result_map_ok. split.
  - intros (c & (x & y & Hx & Hy & ->)%cmpScale4_ok & ->). exists x, y. by rewrite Z.eqb_compare.
  - intros (x & y & Hx & Hy & ->). exists (x ?= y). rewrite Z.eqb_compare. split; [apply cmpScale4_ok; by exists x, y|done].
Qed.

Lemma amountColumn_ok s z : amountColumn s = Ok z ↔ amount s z.
Proof. unfold amountColumn, amount. destruct (decimalStringToScaledBigInt s); naive_solver. Qed.

(** the new balance of a payment, whatever the status rule *)
Lemma pay_amounts {S} (f : bool → S) e1 e2 (c1 c2 : bool) balance s b' s' :
  result_bind (unless (FinanceNumerics.isPositiveScale4 s) e1) (λ _,
    if c1 then Err e2 else if c2 then Err e2 else
    result_bind (exceeds s (columnText balance)) (λ over, if over : bool then Err e1 else
    result_bind (FinanceNumerics.subScale4 (columnText balance) s) (λ nb,
    result_map (λ z : bool, (nb, f z)) (FinanceNumerics.isZeroScale4 nb)))) = Ok (b', s') →
  ∃ n, amount s n ∧ 0 < n <= balance ∧ b' = columnText (balance - n) ∧ s' = f (balance - n =? 0) ∧ c1 = false ∧ c2 = false.
Proof.
  intros ([] & (n & Hn & Hpos)%unless_ok%positive_ok & H)%result_bind_ok. destruct c1; [done|]. destruct c2; [done|].
  apply result_bind_ok in H as (over & (x & y & Hx & Hy & ->)%exceeds_ok & H). apply amount_columnText in Hy as [-> _].
  rewrite (amount_unique _ _ _ Hx Hn) in H. destruct (Z.ltb_spec balance n); [done|].
  apply result_bind_ok in H as (nb & (x' & y' & Hx' & Hy' & ->)%subScale4_ok & (z & (w & Hw & ->)%zero_ok & [= -> ->])%result_map_ok).
  apply amount_columnText in Hx' as [-> _], Hw as [-> _]. rewrite (amount_unique _ _ _ Hy' Hn). exists n. split_and!; done || lia.
Qed.

(** the new balance of a reversal *)
Lemma reverse_amounts {A} (k : string → FR A) e1 e2 (c : bool) total balance n r :
  result_bind (unless (FinanceNumerics.isPositiveScale4 (columnText n)) e1) (λ _,
    if c then Err e2 else
    result_bind (FinanceNumerics.addScale4 (columnText balance) (columnText n)) (λ nb,
    result_bind (exceeds nb (columnText total)) (λ over, if over : bool then Err e1 else k nb))) = Ok r →
  0 < n ∧ balance + n <= total ∧ k (columnText (balance + n)) = Ok r.
Proof.
  intros ([] & (n' & Hn & Hpos)%unless_ok%positive_ok & H)%result_bind_ok. apply amount_columnText in Hn as [-> _]. destruct c; [done|].
  apply result_bind_ok in H as (nb & (x & y & Hx & Hy & ->)%addScale4_ok & H). apply amount_columnText in Hx as [-> _], Hy as [-> _].
  apply result_bind_ok in H as (over & (x & y & Hx & Hy & ->)%exceeds_ok & H). apply amount_columnText in Hx as [-> _], Hy as [-> _].
  destruct (Z.ltb_spec total (balance + n)); [done|]. split_and!; done || lia.
Qed.

Lemma reversals_sum n l : (∀ r, r ∈ l → TransactionRow.amount r = n) → 0 < n → sumZ TransactionRow.amount l < n → l = [].
Proof.
  destruct l as [|r l]; [done|]. intros Hl Hn. rewrite sumZ_cons, (Hl r) by by left.
  assert (0 <= sumZ TransactionRow.amount l); [|lia]. apply sumZ_nonneg. intros x Hx. rewrite (Hl x) by by right. lia.
Qed.

(** a payable is pending while nothing is paid, paid when nothing is due, partial between *)
Definition payableStatus (s : AccountsPayableStatus.t) (total balance : Z) : Prop :=
  match s with
  | AccountsPayableStatus.PENDING => balance = total
  | AccountsPayableStatus.PARTIAL => 0 < balance < total
  | AccountsPayableStatus.PAID => balance = 0
  | AccountsPayableStatus.CANCELLED => False
  end.

(** a receivable is paid when nothing is due and pending otherwise *)
Definition receivableStatus (s : AccountsReceivableStatus.t) (total balance : Z) : Prop :=
  match s with
  | AccountsReceivableStatus.PENDING => 0 < balance
  | AccountsReceivableStatus.PAID => balance = 0
  | _ => False
  end.

#[global] Instance payable_laws : ObligationLaws AccountsPayableStatus.t.
Proof.
  refine {| statusOk := payableStatus |}.
  - done.
  - intros row s b' s' Happ Hst. apply (pay_amounts (λ z : bool, if z then AccountsPayableStatus.PAID else AccountsPayableStatus.PARTIAL)) in Happ
      as (n & Hn & Hle & -> & -> & _ & _).
    exists n. split_and!; [done|lia|lia|done|]. destruct (Z.eqb_spec (AccountRow.balanceDue row - n) 0); [done|].
    destruct (AccountRow.status row); cbn in *; lia.
  - intros row n b' s' Hrev Hb. apply reverse_amounts in Hrev as (Hn & Hle & (z & (x & y & Hx & Hy & ->)%equals_ok & [= -> ->])%result_map_ok).
    split_and!; [done..|]. apply amount_columnText in Hx as [-> _], Hy as [-> _].
    destruct (Z.eqb_spec (AccountRow.balanceDue row + n) (AccountRow.totalAmount row)); cbn; [done|lia].
  - intros n l (c & (x & y & Hx & Hy & ->)%cmpScale4_ok & Hc)%result_map_ok Hn Hl. apply amount_columnText in Hx as [-> _], Hy as [-> _].
    apply (reversals_sum n); [done..|]. destruct (Z.compare_spec (sumZ TransactionRow.amount l) n); done.
Defined.

#[global] Instance receivable_laws : ObligationLaws AccountsReceivableStatus.t.
Proof.
  refine {| statusOk := receivableStatus |}.
  - done.
  - intros row s b' s' Happ Hst. apply (pay_amounts (λ z : bool, if z then AccountsReceivableStatus.PAID else AccountRow.status row)) in Happ
      as (n & Hn & Hle & -> & -> & _ & _).
    exists n. split_and!; [done|lia|lia|done|]. destruct (Z.eqb_spec (AccountRow.balanceDue row - n) 0); [done|].
    destruct (AccountRow.status row); cbn in *; lia.
  - intros row n b' s' Hrev Hb. apply reverse_amounts in Hrev as (Hn & Hle & [= <- <-]). split_and!; [done..|cbn; lia].
  - intros n l [= Hl] _ _. by apply negb_false_iff, bool_decide_eq_true in Hl.
Defined.

(** ** One side of the ledger *)

Section ledger.
Context {S : Type} `{ObligationLaws S}.
Implicit Types (b : Book.t S) (a : AccountRow.t S) (r : TransactionRow.t).

(** what a transaction takes from the balance *)
Definition signed r : Z := match TransactionRow.transactionKind r with APPLY => TransactionRow.amount r | REVERSAL => - TransactionRow.amount r end.

Definition transactionsOf (org id : string) (rows : list TransactionRow.t) : list TransactionRow.t :=
  filter (λ r, TransactionRow.organizationId r = org ∧ TransactionRow.accountId r = id) rows.

Definition accountOk (rows : list TransactionRow.t) a : Prop :=
  0 < AccountRow.totalAmount a ∧ 0 <= AccountRow.balanceDue a <= AccountRow.totalAmount a ∧
  AccountRow.balanceDue a = AccountRow.totalAmount a - sumZ signed (transactionsOf (AccountRow.organizationId a) (AccountRow.id a) rows) ∧
  statusOk (AccountRow.status a) (AccountRow.totalAmount a) (AccountRow.balanceDue a).

(** the account of a transaction, and what a reversal reverses *)
Definition transactionOk (accounts : list (string * string * string)) (rows : list TransactionRow.t) r : Prop :=
  0 < TransactionRow.amount r ∧
  (TransactionRow.organizationId r, TransactionRow.accountId r, TransactionRow.branchId r) ∈ accounts ∧
  match TransactionRow.transactionKind r with
  | APPLY => TransactionRow.reversalOfTransactionId r = None
  | REVERSAL => ∃ o, o ∈ rows ∧ TransactionRow.reversalOfTransactionId r = Some (TransactionRow.id o) ∧ TransactionRow.transactionKind o = APPLY ∧
      TransactionRow.organizationId o = TransactionRow.organizationId r ∧ TransactionRow.accountId o = TransactionRow.accountId r ∧
      TransactionRow.amount o = TransactionRow.amount r
  end.

Definition nameOf a : string * string * string := (AccountRow.organizationId a, AccountRow.id a, AccountRow.branchId a).
Definition sourceOf a : string * string := (AccountRow.organizationId a, AccountRow.sourceId a).
Definition referenceKey r : string * string := (TransactionRow.organizationId r, TransactionRow.referenceId r).

Record ledger_ok b : Prop := LedgerOk {
  lg_ids : NoDup (AccountRow.id <$> Book.accounts b);
  lg_sources : NoDup (sourceOf <$> Book.accounts b);
  lg_transactions : NoDup (TransactionRow.id <$> Book.transactions b);
  lg_references : NoDup (referenceKey <$> Book.transactions b);
  lg_reversals : NoDup (omap TransactionRow.reversalOfTransactionId (Book.transactions b));
  lg_account : Forall (accountOk (Book.transactions b)) (Book.accounts b);
  lg_transaction : Forall (transactionOk (nameOf <$> Book.accounts b) (Book.transactions b)) (Book.transactions b) }.

Lemma financeTx_ok {D A} (m : M D FinanceError A) db db' x : inFinanceTransaction m db = (db', Ok x) ↔ m db = (db', Ok x).
Proof. unfold inFinanceTransaction. destruct (m db) as [? [?|?]]; naive_solver. Qed.
Lemma financeTx_err {D A} (m : M D FinanceError A) db db' e : inFinanceTransaction m db = (db', Err e) → db' = db.
Proof. unfold inFinanceTransaction. destruct (m db) as [? [?|?]]; naive_solver. Qed.

Lemma findAccount_ok org id b a :
  findAccount org id b = Some a → a ∈ Book.accounts b ∧ AccountRow.organizationId a = org ∧ AccountRow.id a = id.
Proof.
  unfold findAccount. intros ([i r] & (Hl & [H1 H2] & _)%list_find_Some & ->)%fmap_Some. split_and!; [by eapply list_elem_of_lookup_2|done..].
Qed.

Lemma findReference_none org ref b :
  findReference org ref b = None → (org, ref) ∉ (referenceKey <$> Book.transactions b).
Proof.
  unfold findReference. intros Hn%fmap_None. apply list_find_None in Hn. rewrite Forall_forall in Hn.
  intros (r & Heq & Hr)%list_elem_of_fmap. apply (Hn r Hr). unfold referenceKey in Heq. by injection Heq as -> ->.
Qed.

(** the account after a transaction *)
Definition updated (now : Z) (org id : string) (balance : Z) (status : S) a : AccountRow.t S :=
  if decide (AccountRow.organizationId a = org ∧ AccountRow.id a = id)
  then a <| AccountRow.balanceDue := balance |> <| AccountRow.status := status |> <| AccountRow.updatedAt := now |> else a.

Record recorded (draws : FinanceDraws.t) a (branch : string) (kind : FinanceTransactionKind.t) (amountText : string) (date : DateInput.t)
    (ref : string) (reversalOf : option string) (balanceText : string) (status : S) b b' (res : Settled (S:=S)) r (balance : Z) : Prop := Recorded {
  rc_row : TransactionRow.id r = FinanceDraws.rowId draws ∧ TransactionRow.organizationId r = AccountRow.organizationId a ∧
    TransactionRow.branchId r = branch ∧ TransactionRow.accountId r = AccountRow.id a ∧ TransactionRow.transactionKind r = kind ∧
    TransactionRow.referenceId r = ref ∧ TransactionRow.reversalOfTransactionId r = reversalOf;
  rc_amount : amount amountText (TransactionRow.amount r);
  rc_date : timestampColumn (FinanceDraws.now draws) date = Ok (TransactionRow.date r);
  rc_balance : amount balanceText balance;
  rc_fresh : TransactionRow.id r ∉ (TransactionRow.id <$> Book.transactions b) ∧ referenceKey r ∉ (referenceKey <$> Book.transactions b);
  rc_book : Book.accounts b' = updated (FinanceDraws.now draws) (AccountRow.organizationId a) (AccountRow.id a) balance status <$> Book.accounts b ∧
    Book.transactions b' = Book.transactions b ++ [r];
  rc_result : ∃ view, res = (ConfirmStatus.APPLIED, view, toTransaction r) }.

Lemma record_ok draws a branch kind amountText date ref reversalOf balanceText status b b' res :
  record draws a branch kind amountText date ref reversalOf balanceText status b = (b', Ok res) →
  ∃ r balance, recorded draws a branch kind amountText date ref reversalOf balanceText status b b' res r balance.
Proof.
  intros Hr. unfold record in Hr. minv Hr. unfold insertTransaction in Hstep. minv Hstep. unfold setBalance in Hstep0. minv Hstep0.
  apply amountColumn_ok in Hval, Hval1. rewrite bool_decide_eq_false in *.
  exists (TransactionRow.mk (FinanceDraws.rowId draws) (AccountRow.organizationId a) branch (AccountRow.id a) kind val val0 ref reversalOf
    (FinanceDraws.now draws)), val1. split; [by split_and!|exact Hval|exact Hval0|exact Hval1| |by split|by eexists].
  split; [done|]. intros (o & Heq & Ho)%list_elem_of_fmap. unfold referenceKey in Heq. cbn in Heq. injection Heq as H1 H2.
  match goal with H : ¬ Exists _ _ |- _ => apply H, Exists_exists; exists o end. by split_and!.
Qed.

Lemma updated_key {B} (f : AccountRow.t S → B) now org id balance status (l : list (AccountRow.t S)) :
  (∀ a, f (updated now org id balance status a) = f a) → f <$> (updated now org id balance status <$> l) = f <$> l.
Proof. intros Hf. rewrite <-list_fmap_compose. apply list_fmap_ext. intros _ a _. apply Hf. Qed.

Lemma transactionsOf_app org id l k : transactionsOf org id (l ++ k) = transactionsOf org id l ++ transactionsOf org id k.
Proof. apply filter_app. Qed.

Section recorded.
Context (draws : FinanceDraws.t) (a : AccountRow.t S) (branch : string) (kind : FinanceTransactionKind.t) (amountText : string) (date : DateInput.t).
Context (ref : string) (reversalOf : option string) (balanceText : string) (status : S) (b b' : Book.t S) (res : Settled (S:=S)).
Context (r : TransactionRow.t) (balance : Z).
Context (rec : recorded draws a branch kind amountText date ref reversalOf balanceText status b b' res r balance).
Context (Hok : ledger_ok b) (Ha : a ∈ Book.accounts b) (Hbranch : AccountRow.branchId a = branch).
Context (Hbalance : balance = AccountRow.balanceDue a - signed r) (Hrange : 0 <= balance <= AccountRow.totalAmount a).
Context (Hstatus : statusOk status (AccountRow.totalAmount a) balance) (Hpos : 0 < TransactionRow.amount r).
Context (Hreversal : match kind with
  | APPLY => reversalOf = None
  | REVERSAL => ∃ o, o ∈ Book.transactions b ∧ reversalOf = Some (TransactionRow.id o) ∧ TransactionRow.transactionKind o = APPLY ∧
      TransactionRow.organizationId o = AccountRow.organizationId a ∧ TransactionRow.accountId o = AccountRow.id a ∧
      TransactionRow.amount o = TransactionRow.amount r ∧
      TransactionRow.id o ∉ omap TransactionRow.reversalOfTransactionId (Book.transactions b) end).

Abbreviation upd := (updated (FinanceDraws.now draws) (AccountRow.organizationId a) (AccountRow.id a) balance status).

Lemma recorded_names : nameOf <$> Book.accounts b' = nameOf <$> Book.accounts b.
Proof.
  destruct (rc_book _ _ _ _ _ _ _ _ _ _ _ _ _ _ _ rec) as [-> _]. apply updated_key. intros x. unfold updated. by case_decide.
Qed.

Lemma recorded_accounts : Forall (accountOk (Book.transactions b')) (Book.accounts b').
Proof.
  destruct (rc_book _ _ _ _ _ _ _ _ _ _ _ _ _ _ _ rec) as [-> ->]. destruct (rc_row _ _ _ _ _ _ _ _ _ _ _ _ _ _ _ rec) as (_ & Ho & _ & Hi & _).
  pose proof (lg_account _ Hok) as Hacc. apply Forall_fmap, Forall_forall. intros x Hx. cbn. rewrite Forall_forall in Hacc.
  destruct (Hacc x Hx) as (Ht & Hb & Heq & Hs). unfold updated. case_decide as Hn.
  - destruct Hn as [_ Hid]. assert (x = a) as -> by (by eapply NoDup_fmap_unique; [apply (lg_ids _ Hok)|..]).
    split_and!; cbn; [done|lia|lia| |done]. rewrite transactionsOf_app, sumZ_app. unfold transactionsOf at 2.
    rewrite filter_cons_True, sumZ_cons by (split; congruence). rewrite filter_nil, sumZ_nil. lia.
  - split_and!; [done|lia|lia| |done]. rewrite transactionsOf_app, sumZ_app. unfold transactionsOf at 2.
    rewrite filter_cons_False by (intros [H1 H2]; apply Hn; split; congruence). rewrite filter_nil, sumZ_nil. lia.
Qed.

Lemma recorded_transactions : Forall (transactionOk (nameOf <$> Book.accounts b') (Book.transactions b')) (Book.transactions b').
Proof.
  rewrite recorded_names. destruct (rc_book _ _ _ _ _ _ _ _ _ _ _ _ _ _ _ rec) as [_ ->].
  destruct (rc_row _ _ _ _ _ _ _ _ _ _ _ _ _ _ _ rec) as (_ & Ho & Hb & Hi & Hk & _ & Hr). apply Forall_app. split.
  - eapply Forall_impl; [apply (lg_transaction _ Hok)|]. intros x (Hx & Hn & Hx'). split_and!; [done..|].
    destruct (TransactionRow.transactionKind x); [done|]. destruct Hx' as (o & Hin & ?). exists o. split; [|done]. apply elem_of_app. by left.
  - apply Forall_singleton. split_and!; [done| |].
    + rewrite Ho, Hi, Hb, <-Hbranch. apply (list_elem_of_fmap_2 nameOf), Ha.
    + rewrite Hk, Hr, Ho, Hi. destruct kind; [done|]. destruct Hreversal as (o & Hin & ? & ? & ? & ? & ? & _). exists o. split; [|done].
      apply elem_of_app. by left.
Qed.

Lemma recorded_ok : ledger_ok b'.
Proof.
  pose proof recorded_accounts as Hacc. pose proof recorded_transactions as Htx. destruct (rc_fresh _ _ _ _ _ _ _ _ _ _ _ _ _ _ _ rec) as [F1 F2].
  destruct (rc_row _ _ _ _ _ _ _ _ _ _ _ _ _ _ _ rec) as (_ & _ & _ & _ & _ & _ & Hr). destruct Hok as [L1 L2 L3 L4 L5 _ _].
  destruct (rc_book _ _ _ _ _ _ _ _ _ _ _ _ _ _ _ rec) as [E1 E2]. split; [| | | | |done|done].
  - rewrite E1, updated_key; [done|]. intros x. unfold updated. by case_decide.
  - rewrite E1, updated_key; [done|]. intros x. unfold updated. by case_decide.
  - rewrite E2, fmap_app. by apply NoDup_snoc.
  - rewrite E2, fmap_app. by apply NoDup_snoc.
  - rewrite E2, omap_app. cbn. rewrite Hr. destruct kind; [by rewrite Hreversal, app_nil_r|].
    destruct Hreversal as (o & _ & -> & _ & _ & _ & _ & Hnew). by apply NoDup_snoc.
Qed.
End recorded.

(** ** The operations *)

Definition givenReference (command : ApplyTransaction.t) : option string :=
  referenceOf (match ApplyTransaction.referenceId command with None => ApplyTransaction.reference command | r => r end).

Lemma answer_ok org accountId row same b b' res :
  answerStored org accountId row same b = (b', Ok res) → b' = b ∧ same = Ok true ∧ ∃ view, res = (ConfirmStatus.DUPLICATE_ACCEPTED, view, toTransaction row).
Proof. intros Hr. unfold answerStored in Hr. minv Hr. apply negb_false_iff in Hguard as ->. split_and!; [done..|by eexists]. Qed.

Lemma applyTransaction_ok draws command b b' res :
  applyTransaction draws command b = (b', Ok res) →
  ∃ ref, givenReference command = Some ref ∧
    match findReference (ApplyTransaction.organizationId command) ref b with
    | Some row => b' = b ∧ sameApply command row = Ok true ∧ ∃ view, res = (ConfirmStatus.DUPLICATE_ACCEPTED, view, toTransaction row)
    | None => ∃ a next r balance, findAccount (ApplyTransaction.organizationId command) (ApplyTransaction.accountId command) b = Some a ∧
        AccountRow.branchId a = ApplyTransaction.branchId command ∧ applyAmount (toAccount a) (ApplyTransaction.amount command) = Ok next ∧
        recorded draws a (ApplyTransaction.branchId command) APPLY (ApplyTransaction.amount command) (ApplyTransaction.date command) ref None
          next.1 next.2 b b' res r balance
    end.
Proof.
  intros Hr. unfold applyTransaction in Hr. cbv zeta in Hr. minv_step Hr. minv_step Hr. rewrite financeTx_ok in Hr. exists found. split; [done|].
  minv_step Hr. destruct (findReference _ found b) as [row|]; [by apply answer_ok in Hr|].
  minv_step Hr. unfold lockAccount in Hstep. minv Hstep. minv_step Hr. apply record_ok in Hr as (row & balance & Hrec).
  apply negb_false_iff, bool_decide_eq_true in Hguard. by eexists _, _, row, balance.
Qed.

Lemma apply_keeps draws command b b' res : applyTransaction draws command b = (b', Ok res) → ledger_ok b → ledger_ok b'.
Proof.
  intros (ref & _ & Hr)%applyTransaction_ok Hok. destruct (findReference _ ref b) as [row|]; [by destruct Hr as [-> _]|].
  destruct Hr as (a & [b0 s0] & r & balance & Ha & Hbr & Happ & Hrec). apply findAccount_ok in Ha as (Ha & _ & _).
  pose proof (lg_account _ Hok) as Hacc. rewrite Forall_forall in Hacc. destruct (Hacc a Ha) as (Ht & Hb & _ & Hs).
  apply apply_ok in Happ as (n & Hn & Hle & -> & Hs'); [|done]. pose proof (rc_balance _ _ _ _ _ _ _ _ _ _ _ _ _ _ _ Hrec) as Hbal.
  apply amount_columnText in Hbal as [-> _]. destruct (rc_row _ _ _ _ _ _ _ _ _ _ _ _ _ _ _ Hrec) as (_ & _ & _ & _ & Hk & _).
  pose proof (amount_unique _ _ _ (rc_amount _ _ _ _ _ _ _ _ _ _ _ _ _ _ _ Hrec) Hn) as Hamt.
  eapply recorded_ok; [exact Hrec|done..| |lia|done|lia|done]. unfold signed. rewrite Hk. lia.
Qed.

Lemma reverseTransaction_ok draws command b b' res :
  reverseTransaction draws command b = (b', Ok res) →
  ∃ ref, referenceOf (Some (ReverseTransaction.reversalReferenceId command)) = Some ref ∧
    match findReference (ReverseTransaction.organizationId command) ref b with
    | Some row => b' = b ∧ sameReversal command row = Ok true ∧ ∃ view, res = (ConfirmStatus.DUPLICATE_ACCEPTED, view, toTransaction row)
    | None => ∃ a o next r balance, findAccount (ReverseTransaction.organizationId command) (ReverseTransaction.accountId command) b = Some a ∧
        AccountRow.branchId a = ReverseTransaction.branchId command ∧ o ∈ Book.transactions b ∧
        TransactionRow.organizationId o = ReverseTransaction.organizationId command ∧
        TransactionRow.accountId o = ReverseTransaction.accountId command ∧ TransactionRow.transactionKind o = APPLY ∧
        alreadyReversed (TransactionRow.amount o) (reversalsOf (ReverseTransaction.organizationId command) (TransactionRow.id o) b) = Ok false ∧
        reverseAmount (toAccount a) (columnText (TransactionRow.amount o)) = Ok next ∧
        recorded draws a (ReverseTransaction.branchId command) REVERSAL (columnText (TransactionRow.amount o)) (ReverseTransaction.reversalDate command)
          ref (Some (TransactionRow.id o)) next.1 next.2 b b' res r balance
    end.
Proof.
  intros Hr. unfold reverseTransaction in Hr. cbv zeta in Hr. minv_step Hr. rewrite financeTx_ok in Hr. exists found. split; [done|].
  minv_step Hr. destruct (findReference _ found b) as [row|]; [by apply answer_ok in Hr|].
  minv_step Hr. unfold lockAccount in Hstep. minv Hstep. do 7 minv_step Hr. apply record_ok in Hr as (row & balance & Hrec).
  rewrite negb_false_iff, bool_decide_eq_true in *. apply fmap_Some in Hfound1 as ([i o] & (Hl & (Ho & Hid & Hacc) & _)%list_find_Some & ->).
  eexists _, o, _, row, balance. split_and!; try done. by eapply list_elem_of_lookup_2.
Qed.

Lemma reversal_of o r b : ledger_ok b → o ∈ Book.transactions b → r ∈ Book.transactions b →
  TransactionRow.reversalOfTransactionId r = Some (TransactionRow.id o) →
  TransactionRow.organizationId r = TransactionRow.organizationId o ∧ TransactionRow.amount r = TransactionRow.amount o.
Proof.
  intros Hok Ho Hr Heq. pose proof (lg_transaction _ Hok) as Htx. rewrite Forall_forall in Htx. destruct (Htx r Hr) as (_ & _ & Hk).
  destruct (TransactionRow.transactionKind r); [congruence|]. destruct Hk as (o' & Ho' & Hid & _ & Horg & _ & Hamt). rewrite Heq in Hid. injection Hid as Hid.
  assert (o' = o) as -> by (by eapply NoDup_fmap_unique; [apply (lg_transactions _ Hok)|..]). by split.
Qed.

Lemma reverse_keeps draws command b b' res : reverseTransaction draws command b = (b', Ok res) → ledger_ok b → ledger_ok b'.
Proof.
  intros (ref & _ & Hr)%reverseTransaction_ok Hok. destruct (findReference _ ref b) as [row|]; [by destruct Hr as [-> _]|].
  destruct Hr as (a & o & [b0 s0] & r & balance & Ha & Hbr & Ho & Horg & Hacc & Hkind & Hrev & Hnext & Hrec). apply findAccount_ok in Ha as (Ha & Hao & Hai).
  pose proof (lg_account _ Hok) as Hall. rewrite Forall_forall in Hall. destruct (Hall a Ha) as (Ht & Hb & _ & _).
  apply reverse_ok in Hnext as (Hn & Hle & -> & Hs'); [|lia]. pose proof (rc_balance _ _ _ _ _ _ _ _ _ _ _ _ _ _ _ Hrec) as Hbal.
  apply amount_columnText in Hbal as [-> _]. destruct (rc_row _ _ _ _ _ _ _ _ _ _ _ _ _ _ _ Hrec) as (_ & _ & _ & _ & Hk & _).
  pose proof (rc_amount _ _ _ _ _ _ _ _ _ _ _ _ _ _ _ Hrec) as Hamt. apply amount_columnText in Hamt as [Hamt _].
  assert (Hnone : reversalsOf (ReverseTransaction.organizationId command) (TransactionRow.id o) b = []).
  { eapply reversed_ok; [exact Hrev|done|]. intros x [[_ Hx] Hin]%list_elem_of_filter. by apply (reversal_of o x b). }
  eapply recorded_ok; [exact Hrec|done..| |lia|done|lia|].
  - unfold signed. rewrite Hk. lia.
  - exists o. split_and!; try congruence; intros (x & Hx & Hid)%list_elem_of_omap.
    assert (x ∈ reversalsOf (ReverseTransaction.organizationId command) (TransactionRow.id o) b) as Hin; [|by rewrite Hnone in Hin; apply not_elem_of_nil in Hin].
    apply list_elem_of_filter. destruct (reversal_of o x b Hok Ho Hx Hid) as [-> _]. by split_and!.
Qed.

Lemma insertAccount_ok draws org branch party source totalText due b b' row :
  insertAccount draws org branch party source totalText due b = (b', Ok row) →
  ∃ total, amount totalText total ∧ 0 < total ∧ calendarDate due = true ∧ FinanceDraws.rowId draws ∉ (AccountRow.id <$> Book.accounts b) ∧
    row = AccountRow.mk S (FinanceDraws.rowId draws) org branch party source total total due PENDING_status (FinanceDraws.now draws) (FinanceDraws.now draws) ∧
    b' = b <| Book.accounts ::= λ l, l ++ [row] |>.
Proof.
  intros Hr. unfold insertAccount in Hr. minv Hr. apply amountColumn_ok in Hval. unfold dateColumn in Hval0. destruct (calendarDate due) eqn:Hd; [|done].
  injection Hval0 as <-. rewrite bool_decide_eq_false, Z.leb_gt in *. eexists. by split_and!.
Qed.

Lemma insert_keeps draws org branch party source totalText due b b' row :
  insertAccount draws org branch party source totalText due b = (b', Ok row) → findBySource org source b = None → ledger_ok b → ledger_ok b'.
Proof.
  intros (total & Ht & Hpos & _ & Hfresh & -> & ->)%insertAccount_ok Hnone Hok. destruct Hok as [L1 L2 L3 L4 L5 L6 L7].
  split; cbn [Book.accounts Book.transactions set]; cbn; try done.
  - rewrite fmap_app. by apply NoDup_snoc.
  - rewrite fmap_app. apply NoDup_snoc; [done|]. intros (a & Heq & Ha)%list_elem_of_fmap. unfold sourceOf in Heq. cbn in Heq. injection Heq as H1 H2.
    unfold findBySource in Hnone. apply fmap_None, list_find_None in Hnone. rewrite Forall_forall in Hnone. by apply (Hnone a Ha).
  - apply Forall_app. split; [done|]. apply Forall_singleton. split_and!; cbn; try lia; [|by apply pending_ok].
    unfold transactionsOf. rewrite filter_none; [rewrite sumZ_nil; lia|]. intros r Hr [_ Hid]. rewrite Forall_forall in L7.
    destruct (L7 r Hr) as (_ & (a & Heq & Ha)%list_elem_of_fmap & _). unfold nameOf in Heq. injection Heq as _ Hai _. apply Hfresh.
    rewrite <-Hid, Hai. by apply list_elem_of_fmap_2.
  - eapply Forall_impl; [exact L7|]. intros r (? & Hn & ?). split_and!; [done| |done]. rewrite fmap_app. apply elem_of_app. by left.
Qed.
End ledger.

(** ** Refused requests write nothing *)

Definition atomic {D A} (m : M D FinanceError A) : Prop := ∀ db db' e, m db = (db', Err e) → db' = db.

Lemma atomic_finance {D A} (m : M D FinanceError A) : atomic (inFinanceTransaction m).
Proof. intros db db' e Hm. by apply financeTx_err in Hm. Qed.
Lemma atomic_lift {D A B} (r : FR A) (k : A → M D FinanceError B) : (∀ a, atomic (k a)) → atomic (lift r ≫= k).
Proof. intros Hk db db' e. rewrite bind_lift. destruct r; [apply Hk|]. intros [= <- _]. done. Qed.
Lemma atomic_require {D A B} (o : option A) er (k : A → M D FinanceError B) : (∀ a, atomic (k a)) → atomic (require o er ≫= k).
Proof. intros Hk db db' e. rewrite bind_require. destruct o; [apply Hk|]. intros [= <- _]. done. Qed.
Lemma atomic_throw_when {D B} (c : bool) er (k : unit → M D FinanceError B) : (∀ u, atomic (k u)) → atomic (throw_when c er ≫= k).
Proof. intros Hk db db' e. rewrite bind_throw_when. destruct c; [intros [= <- _]; done|apply Hk]. Qed.
Lemma atomic_payable {A} (m : M _ FinanceError A) : atomic m → atomic (onPayable m).
Proof.
  intros Hm db db' e. unfold onPayable. destruct (m (FinanceDb.payable db)) as [b r] eqn:E. intros [= <- ->]. apply Hm in E as ->. by destruct db.
Qed.
Lemma atomic_receivable {A} (m : M _ FinanceError A) : atomic m → atomic (onReceivable m).
Proof.
  intros Hm db db' e. unfold onReceivable. destruct (m (FinanceDb.receivable db)) as [b r] eqn:E. intros [= <- ->]. apply Hm in E as ->. by destruct db.
Qed.
Ltac atomic := intros; cbv zeta; repeat (first [apply atomic_payable|apply atomic_receivable|apply atomic_finance|apply atomic_lift|apply atomic_require|
  apply atomic_throw_when]; intros).

(** ** Requests *)

Inductive FinanceRequest :=
| ReqReceipt (draws : FinanceDraws.t) (event : Recepcion.t) (dueDate : option string) (resolver : option DueDateResolver)
| ReqPay (draws : FinanceDraws.t) (command : ApplyTransaction.t)
| ReqReversePayment (draws : FinanceDraws.t) (command : ReverseTransaction.t)
| ReqSchedule (draws : FinanceDraws.t) (command : CreateScheduledPayment.t)
| ReqCharge (draws : FinanceDraws.t) (validator : option CreditLimitValidator) (command : CreateReceivableCharge.t)
| ReqSettle (draws : FinanceDraws.t) (command : ApplyTransaction.t)
| ReqReverseSettlement (draws : FinanceDraws.t) (command : ReverseTransaction.t)
| ReqExpense (draws : FinanceDraws.t) (command : RegisterOperatingExpense.t)
| ReqReconcile (draws : FinanceDraws.t) (facts : CashClosingFacts.t).

Definition performFinance (q : FinanceRequest) : FinTx unit :=
  match q with
  | ReqReceipt draws event due resolver => processPurchaseReceiptEvent draws event due resolver ;; mret tt
  | ReqPay draws command => applyAccountsPayablePayment draws command ;; mret tt
  | ReqReversePayment draws command => reverseAccountsPayablePayment draws command ;; mret tt
  | ReqSchedule draws command => createScheduledPayment draws command ;; mret tt
  | ReqCharge draws validator command => createReceivableCharge draws validator command ;; mret tt
  | ReqSettle draws command => settleReceivable draws command ;; mret tt
  | ReqReverseSettlement draws command => reverseAccountsReceivableSettlement draws command ;; mret tt
  | ReqExpense draws command => registerOperatingExpense draws command ;; mret tt
  | ReqReconcile draws facts => reconcileCash draws facts ;; mret tt
  end.

(** requests one after the other, refused ones included *)
Definition runFinance (reqs : list FinanceRequest) (db : FinanceDb.t) : FinanceDb.t := foldl (λ db q, fst (performFinance q db)) db reqs.

Lemma atomic_unit {D A} (m : M D FinanceError A) : atomic m → atomic (m ;; mret tt).
Proof. intros Hm db db' e He. apply bind_err in He as [He|(s & a & _ & He)]; [by eapply Hm|done]. Qed.

Lemma request_atomic q : atomic (performFinance q).
Proof.
  destruct q; cbn [performFinance]; apply atomic_unit;
    unfold processPurchaseReceiptEvent, applyAccountsPayablePayment, reverseAccountsPayablePayment, createScheduledPayment, createReceivableCharge,
      settleReceivable, reverseAccountsReceivableSettlement, registerOperatingExpense, reconcileCash, applyTransaction, reverseTransaction; atomic.
Qed.

(** a payable or receivable request that was accepted *)
Lemma onPayable_ok {A} (m : M _ FinanceError A) db db' x :
  onPayable m db = (db', Ok x) → ∃ b, m (FinanceDb.payable db) = (b, Ok x) ∧ db' = db <| FinanceDb.payable := b |>.
Proof. unfold onPayable. destruct (m _) as [b r]. intros [= <- ->]. by exists b. Qed.
Lemma onReceivable_ok {A} (m : M _ FinanceError A) db db' x :
  onReceivable m db = (db', Ok x) → ∃ b, m (FinanceDb.receivable db) = (b, Ok x) ∧ db' = db <| FinanceDb.receivable := b |>.
Proof. unfold onReceivable. destruct (m _) as [b r]. intros [= <- ->]. by exists b. Qed.

(** a reconciliation says what is missing or left over *)
Definition cutOk (c : CashReconciliation.t) : Prop :=
  ∃ expected actual, amount (CashReconciliation.expectedCash c) expected ∧ amount (CashReconciliation.actualCash c) actual ∧
    amount (CashReconciliation.variance c) (actual - expected) ∧ CashReconciliation.hasVariance c = negb (actual =? expected).

Definition cutKey (c : CashReconciliation.t) : string * string := (CashReconciliation.organizationId c, CashReconciliation.sourceCutId c).

Record finance_ok (db : FinanceDb.t) : Prop := FinanceOk {
  fo_payable : ledger_ok (FinanceDb.payable db);
  fo_receivable : ledger_ok (FinanceDb.receivable db);
  fo_cuts : NoDup (cutKey <$> FinanceDb.cash_reconciliations db);
  fo_cut : Forall cutOk (FinanceDb.cash_reconciliations db) }.

Lemma receipt_ok draws event due resolver db db' res :
  processPurchaseReceiptEvent draws event due resolver db = (db', Ok res) →
  ∃ dueDate, resolveDueDate event due resolver = Ok dueDate ∧
    match findBySource (Recepcion.organizationId event) (Recepcion.recepcionId event) (FinanceDb.payable db) with
    | Some row => db' = db ∧ res = (ConfirmStatus.DUPLICATE_ACCEPTED, toAccount row) ∧
        sameAccount row (Recepcion.branchId event) (Recepcion.supplierId event) (Recepcion.totalAmount event) dueDate = Ok true
    | None => ∃ b row, res = (ConfirmStatus.APPLIED, toAccount row) ∧ db' = db <| FinanceDb.payable := b |> ∧
        insertAccount draws (Recepcion.organizationId event) (Recepcion.branchId event) (Recepcion.supplierId event)
          (Recepcion.recepcionId event) (Recepcion.totalAmount event) dueDate (FinanceDb.payable db) = (b, Ok row)
    end.
Proof.
  intros Hr. unfold processPurchaseReceiptEvent in Hr. minv_step Hr. minv_step Hr. exists val. split; [done|].
  apply onPayable_ok in Hr as (b & Hr & ->). rewrite financeTx_ok in Hr. minv_step Hr.
  destruct (findBySource _ _ (FinanceDb.payable db)) as [row|].
  - minv Hr. apply negb_false_iff in Hguard as ->. split_and!; [by destruct db|done|done].
  - minv_step Hr. minv Hr. by eexists _, _.
Qed.

Lemma checkCredit_same validator command b b' u : checkCredit validator command b = (b', Ok u) → b' = b.
Proof.
  unfold checkCredit, throw_when. intros Hc. destruct (_ || _); [|by injection Hc]. minv_step Hc. minv_step Hc. by destruct (negb _); injection Hc.
Qed.

Lemma charge_ok draws validator command db db' res :
  createReceivableCharge draws validator command db = (db', Ok res) →
  ∃ b, db' = db <| FinanceDb.receivable := b |> ∧ (b = FinanceDb.receivable db ∨
    ∃ row, findBySource (CreateReceivableCharge.organizationId command) (CreateReceivableCharge.referenceAccountId command) (FinanceDb.receivable db) = None ∧
      insertAccount draws (CreateReceivableCharge.organizationId command) (CreateReceivableCharge.branchId command)
        (CreateReceivableCharge.customerId command) (CreateReceivableCharge.referenceAccountId command) (CreateReceivableCharge.totalAmount command)
        (CreateReceivableCharge.dueDate command) (FinanceDb.receivable db) = (b, Ok row)).
Proof.
  intros Hr. unfold createReceivableCharge in Hr. minv_step Hr. apply onReceivable_ok in Hr as (b & Hr & ->). rewrite financeTx_ok in Hr. minv_step Hr.
  exists b. split; [done|]. destruct (findBySource _ _ (FinanceDb.receivable db)) as [row|]; [minv Hr; by left|]. right.
  apply bind_ok in Hr as ([] & b1 & Hc & Hr). apply checkCredit_same in Hc as ->. minv Hr. by eexists.
Qed.

Lemma reconcile_ok draws facts db db' res :
  reconcileCash draws facts db = (db', Ok res) →
  db' = db ∨ ∃ c, db' = db <| FinanceDb.cash_reconciliations ::= λ l, l ++ [c] |> ∧ cutOk c ∧
    cutKey c ∉ (cutKey <$> FinanceDb.cash_reconciliations db).
Proof.
  intros Hr. unfold reconcileCash in Hr. minv_step Hr. minv_step Hr. minv_step Hr. rewrite financeTx_ok in Hr. minv_step Hr.
  destruct (findCut _ _ db) as [c|] eqn:Hnone; [minv Hr; by left|]. right. minv Hr. eexists. split_and!; [done| |].
  - apply amountColumn_ok in Hval3, Hval4, Hval5. unfold calculateCashReconciliation in Hval1.
    apply result_bind_ok in Hval1 as (v & (x & y & Hx & Hy & ->)%subScale4_ok & (z & (w & Hw & ->)%zero_ok & ->)%result_map_ok). cbn [fst snd] in *.
    apply amount_columnText in Hw as [-> Hv], Hval5 as [-> _]. rewrite (amount_unique _ _ _ Hx Hval4), (amount_unique _ _ _ Hy Hval3) in *.
    exists val3, val4. cbn. rewrite !amount_columnText. split_and!; try done; [by eapply amount_range|by eapply amount_range|].
    by destruct (Z.eqb_spec (val4 - val3) 0), (Z.eqb_spec val4 val3); try lia.
  - intros (c & Heq & Hc)%list_elem_of_fmap. unfold cutKey in Heq. cbn in Heq. injection Heq as H1 H2.
    unfold findCut in Hnone. apply fmap_None, list_find_None in Hnone. rewrite Forall_forall in Hnone. by apply (Hnone c Hc).
Qed.

Lemma schedule_same draws command db db' res : createScheduledPayment draws command db = (db', Ok res) →
  ∃ l, db' = db <| FinanceDb.scheduled_payments := l |>.
Proof. intros Hr. unfold createScheduledPayment in Hr. minv_step Hr. rewrite financeTx_ok in Hr. minv Hr. by eexists. Qed.

Lemma expense_same draws command db db' res : registerOperatingExpense draws command db = (db', Ok res) →
  ∃ l, db' = db <| FinanceDb.branch_operating_expenses := l |>.
Proof. intros Hr. unfold registerOperatingExpense in Hr. minv_step Hr. minv_step Hr. rewrite financeTx_ok in Hr. minv Hr. by eexists. Qed.

(** ** What requests keep *)

(** accounts stay, with their identity and total; transactions are only appended *)
Record book_keeps {S} (b b' : Book.t S) : Prop := BookKeeps {
  bkp_accounts : ∀ a, a ∈ Book.accounts b → ∃ a', a' ∈ Book.accounts b' ∧ nameOf a' = nameOf a ∧ sourceOf a' = sourceOf a ∧
    AccountRow.counterpartyId a' = AccountRow.counterpartyId a ∧ AccountRow.totalAmount a' = AccountRow.totalAmount a;
  bkp_transactions : Book.transactions b `prefix_of` Book.transactions b' }.

#[global] Instance book_keeps_preorder S : PreOrder (@book_keeps S).
Proof.
  split.
  - intros b. split; [|done]. intros a Ha. by exists a.
  - intros x y z [A1 A2] [B1 B2]. split; [|by etransitivity]. intros a Ha. destruct (A1 a Ha) as (a1 & H1 & N1 & S1 & C1 & T1).
    destruct (B1 a1 H1) as (a2 & ? & N2 & S2 & C2 & T2). exists a2. by split_and!; [|etransitivity..].
Qed.

Section keeps.
Context {S : Type} `{ObligationLaws S}.
Implicit Types (b : Book.t S).

Lemma recorded_keeps draws a branch kind amountText date ref reversalOf balanceText status b b' res r balance :
  recorded draws a branch kind amountText date ref reversalOf balanceText status b b' res r balance → book_keeps b b'.
Proof.
  intros Hrec. destruct (rc_book _ _ _ _ _ _ _ _ _ _ _ _ _ _ _ Hrec) as [E1 E2]. split; [|rewrite E2; by apply prefix_app_r].
  intros x Hx. rewrite E1. eexists. split; [by apply list_elem_of_fmap_2|]. unfold updated. by case_decide.
Qed.

Lemma apply_book_keeps draws command b b' res : applyTransaction draws command b = (b', Ok res) → book_keeps b b'.
Proof.
  intros (ref & _ & Hr)%applyTransaction_ok. destruct (findReference _ ref b) as [row|]; [by destruct Hr as [-> _]|].
  destruct Hr as (a & next & r & balance & _ & _ & _ & Hrec). by eapply recorded_keeps.
Qed.

Lemma reverse_book_keeps draws command b b' res : reverseTransaction draws command b = (b', Ok res) → book_keeps b b'.
Proof.
  intros (ref & _ & Hr)%reverseTransaction_ok. destruct (findReference _ ref b) as [row|]; [by destruct Hr as [-> _]|].
  destruct Hr as (a & o & next & r & balance & _ & _ & _ & _ & _ & _ & _ & _ & Hrec). by eapply recorded_keeps.
Qed.

Lemma insert_book_keeps draws org branch party source totalText due b b' row :
  insertAccount draws org branch party source totalText due b = (b', Ok row) → book_keeps b b'.
Proof.
  intros (total & _ & _ & _ & _ & _ & ->)%insertAccount_ok. split; [|done]. intros a Ha. exists a. split; [|done]. apply elem_of_app. by left.
Qed.
End keeps.

Definition finance_keeps (db db' : FinanceDb.t) : Prop :=
  book_keeps (FinanceDb.payable db) (FinanceDb.payable db') ∧ book_keeps (FinanceDb.receivable db) (FinanceDb.receivable db').

#[global] Instance finance_keeps_preorder : PreOrder finance_keeps.
Proof. split; [intros db; by split|]. intros x y z [? ?] [? ?]. split; by etransitivity. Qed.

Lemma request_ok q db : finance_ok db → finance_ok (fst (performFinance q db)) ∧ finance_keeps db (fst (performFinance q db)).
Proof.
  intros Hok. destruct (performFinance q db) as [db' [u|e]] eqn:E; cbn [fst]; [|apply request_atomic in E as ->; split; [done|reflexivity]].
  destruct Hok as [Hp Hr Hcs Hc]. destruct q; cbn [performFinance] in E; apply bind_ok in E as (res & db1 & E & Hret); injection Hret as ->.
  - apply receipt_ok in E as (due & _ & E). destruct (findBySource _ _ (FinanceDb.payable db)) eqn:Hnone; [by destruct E as [-> _]|].
    destruct E as (b & row & _ & -> & Hins). split; [split; cbn; [by eapply insert_keeps|done..]|]. split; [by eapply insert_book_keeps|done].
  - apply onPayable_ok in E as (b & E & ->). split; [split; cbn; [by eapply apply_keeps|done..]|]. split; [by eapply apply_book_keeps|done].
  - apply onPayable_ok in E as (b & E & ->). split; [split; cbn; [by eapply reverse_keeps|done..]|]. split; [by eapply reverse_book_keeps|done].
  - apply schedule_same in E as [l ->]. by split.
  - apply charge_ok in E as (b & -> & [->|(row & Hnone & Hins)]); [by split|].
    split; [split; cbn; [done|by eapply insert_keeps|done..]|]. split; [done|by eapply insert_book_keeps].
  - apply onReceivable_ok in E as (b & E & ->). split; [split; cbn; [done|by eapply apply_keeps|done..]|]. split; [done|by eapply apply_book_keeps].
  - apply onReceivable_ok in E as (b & E & ->). split; [split; cbn; [done|by eapply reverse_keeps|done..]|]. split; [done|by eapply reverse_book_keeps].
  - apply expense_same in E as [l ->]. by split.
  - apply reconcile_ok in E as [->|(c & -> & Hck & Hfresh)]; [by split|]. split; [|by split]. split; cbn; [done|done| |].
    + rewrite fmap_app. by apply NoDup_snoc.
    + apply Forall_app. by split; [|apply Forall_singleton].
Qed.

Lemma run_ok reqs db : finance_ok db → finance_ok (runFinance reqs db) ∧ finance_keeps db (runFinance reqs db).
Proof.
  revert db. induction reqs as [|q reqs IH]; intros db Hok; [by split|]. cbn [runFinance foldl]. fold (runFinance reqs (fst (performFinance q db))).
  destruct (request_ok q db Hok) as [Hok1 Hk1]. destruct (IH _ Hok1) as [Hok2 Hk2]. split; [done|]. by etransitivity.
Qed.

Lemma empty_ok : finance_ok FinanceDb.empty.
Proof. split; [split|split|..]; constructor. Qed.

(** ** What the ledgers say *)

(** C22: After any requests, accepted or refused: every payable and receivable has a positive
    total and owes between nothing and all of it, exactly its total less the transactions
    recorded on it, and its status tells which; a source has one account and a reference one
    transaction in an organisation; every reversal repeats the amount of a payment on the
    same account and no payment is reversed twice; a cut is reconciled once, with the exact
    difference between counted and expected cash. *)
Theorem ledgers_balance reqs : finance_ok (runFinance reqs FinanceDb.empty).
Proof. apply run_ok, empty_ok. Qed.

Section retry.
Context {S : Type} `{ObligationLaws S}.
Implicit Types (b : Book.t S).

(** a stored transaction is found under its reference *)
Lemma findReference_stored r b : ledger_ok b → r ∈ Book.transactions b →
  findReference (TransactionRow.organizationId r) (TransactionRow.referenceId r) b = Some r.
Proof.
  intros Hok Hr. unfold findReference.
  destruct (list_find_elem_of (λ x, TransactionRow.organizationId x = TransactionRow.organizationId r ∧
    TransactionRow.referenceId x = TransactionRow.referenceId r) _ _ Hr ltac:(done)) as [[i x] E]. rewrite E. cbn. f_equal.
  apply list_find_Some in E as (Hl & [H1 H2] & _). eapply (NoDup_fmap_unique referenceKey); [apply (lg_references _ Hok)| |done|].
  - by eapply list_elem_of_lookup_2.
  - unfold referenceKey. by rewrite H1, H2.
Qed.

Lemma findAccount_some org id branch b : (org, id, branch) ∈ (nameOf <$> Book.accounts b) → is_Some (findAccount org id b).
Proof.
  intros (a & Heq & Ha)%list_elem_of_fmap. unfold nameOf in Heq. injection Heq as -> -> ->. unfold findAccount. apply fmap_is_Some.
  by eapply list_find_elem_of.
Qed.

(** the command of a recorded transaction is recognised *)
Lemma recorded_same draws a command ref next b b' res r balance :
  findAccount (ApplyTransaction.organizationId command) (ApplyTransaction.accountId command) b = Some a →
  recorded draws a (ApplyTransaction.branchId command) APPLY (ApplyTransaction.amount command) (ApplyTransaction.date command) ref None
    next.1 next.2 b b' res r balance → sameApply command r = Ok true.
Proof.
  intros (_ & _ & Hid)%findAccount_ok Hrec. destruct (rc_row _ _ _ _ _ _ _ _ _ _ _ _ _ _ _ Hrec) as (_ & _ & Hb & Hi & Hk & _).
  pose proof (rc_amount _ _ _ _ _ _ _ _ _ _ _ _ _ _ _ Hrec) as Hamt. pose proof (rc_date _ _ _ _ _ _ _ _ _ _ _ _ _ _ _ Hrec) as Hdate.
  unfold sameApply. rewrite bool_decide_true by (split_and!; congruence). cbn [negb].
  rewrite (proj2 (equals_ok _ _ true)).
  - cbn [result_bind]. destruct (ApplyTransaction.date command); cbn in Hdate |- *; try done. injection Hdate as ->. by rewrite Z.eqb_refl.
  - exists (TransactionRow.amount r), (TransactionRow.amount r). rewrite amount_columnText, Z.eqb_refl. split_and!; [done|by eapply amount_range|done..].
Qed.

Lemma apply_again draws command b b' acc tx :
  ledger_ok b → applyTransaction draws command b = (b', Ok (ConfirmStatus.APPLIED, acc, tx)) → ∀ draws' b2, ledger_ok b2 → book_keeps b' b2 →
  ∃ view, applyTransaction draws' command b2 = (b2, Ok (ConfirmStatus.DUPLICATE_ACCEPTED, view, tx)).
Proof.
  intros Hok Happ draws' b2 Hok2 [Hk1 Hk2]. pose proof Happ as Hrun. unfold applyTransaction in Hrun. cbv zeta in Hrun. minv_step Hrun. minv_step Hrun. clear Hrun.
  pose proof Happ as (ref & Href & Hr)%applyTransaction_ok. unfold givenReference in Href. rewrite Hfound in Href. injection Href as <-.
  destruct (findReference _ found b) as [row|]; [by destruct Hr as (_ & _ & view & [=])|].
  destruct Hr as (a & next & r & balance & Ha & Hbr & _ & Hrec). pose proof (recorded_same _ _ _ _ _ _ _ _ _ _ Ha Hrec) as Hsame.
  apply findAccount_ok in Ha as (Ha & Horg & Hid). destruct (rc_row _ _ _ _ _ _ _ _ _ _ _ _ _ _ _ Hrec) as (_ & Hro & _ & _ & _ & Hrr & _).
  destruct (rc_book _ _ _ _ _ _ _ _ _ _ _ _ _ _ _ Hrec) as [_ E2]. destruct (rc_result _ _ _ _ _ _ _ _ _ _ _ _ _ _ _ Hrec) as (view & [= -> ->]).
  assert (Hr2 : r ∈ Book.transactions b2).
  { destruct Hk2 as [k ->]. rewrite E2. apply elem_of_app. left. apply elem_of_app. right. by left. }
  destruct (bkp_accounts _ _ (recorded_keeps _ _ _ _ _ _ _ _ _ _ _ _ _ _ _ Hrec) a Ha) as (a1 & Ha1 & Hn1 & _).
  destruct (Hk1 a1 Ha1) as (a2 & Ha2 & Hn2 & _). pose proof (findReference_stored r b2 Hok2 Hr2) as Hfind. rewrite Hro, Hrr, Horg in Hfind.
  destruct (findAccount_some (ApplyTransaction.organizationId command) (ApplyTransaction.accountId command) (AccountRow.branchId a) b2) as [v Hv].
  { apply list_elem_of_fmap. exists a2. split; [|done]. rewrite Hn2, Hn1. unfold nameOf. by rewrite Horg, Hid. }
  exists (toAccount v). unfold applyTransaction. cbv zeta. rewrite Hfound. mrun. cbv iota. mrun. rewrite Hval. mrun. cbv iota. mrun.
  apply financeTx_ok. mrun. rewrite Hfind. unfold answerStored. rewrite Hsame. mrun. cbn [negb]. cbv iota. mrun. rewrite Hv. done.
Qed.
End retry.

(** A payment that was applied is, sent again after any other requests, accepted as a
    duplicate: the answer shows the payment as stored and the payable as it is now, and
    nothing is written. *)
Theorem payment_retry_is_answered reqs draws command db acc payment reqs' draws' :
  applyAccountsPayablePayment draws command (runFinance reqs FinanceDb.empty) = (db, Ok (ConfirmStatus.APPLIED, acc, payment)) →
  let db' := runFinance reqs' db in
  ∃ view, applyAccountsPayablePayment draws' command db' = (db', Ok (ConfirmStatus.DUPLICATE_ACCEPTED, view, payment)).
Proof.
  intros Happ db'. destruct (run_ok reqs _ empty_ok) as [Hok _]. pose proof Happ as (b & Hb & ->)%onPayable_ok.
  assert (Hok1 : finance_ok ((runFinance reqs FinanceDb.empty) <| FinanceDb.payable := b |>)).
  { destruct Hok. split; cbn; [by eapply apply_keeps|done..]. }
  destruct (run_ok reqs' _ Hok1) as [Hok2 [Hk _]]. fold db' in Hok2, Hk.
  destruct (apply_again _ _ _ _ _ _ (fo_payable _ Hok) Hb draws' _ (fo_payable _ Hok2) Hk) as [view Hv]. exists view.
  unfold applyAccountsPayablePayment, onPayable. rewrite Hv. by destruct db'.
Qed.

Module FinanceSample.
(** a receipt of ten units of money, due in a month *)
Definition event : Recepcion.t :=
  Recepcion.mk "receipt" "org" "branch" "supplier" "order" "warehouse" "R-1" None "2026-01-01T00:00:00.000Z" None "10.0000" [].
Definition draws (id : string) : FinanceDraws.t := FinanceDraws.mk id 0.
Definition owed : list FinanceRequest := [ReqReceipt (draws "payable") event (Some "2026-02-01") None].
Definition payment : ApplyTransaction.t := ApplyTransaction.mk "org" "branch" "payable" "4.0000" (Some "P-1") None DateInput.Absent.
Definition reversal : ReverseTransaction.t := ReverseTransaction.mk "org" "branch" "payable" "p1" "R-1" (DateInput.At 5).
End FinanceSample.

(** paid, reversed, and sent again *)
Theorem payment_retry_is_answered_witness :
  ∃ db acc payment view,
    applyAccountsPayablePayment (FinanceSample.draws "p1") FinanceSample.payment (runFinance FinanceSample.owed FinanceDb.empty) =
      (db, Ok (ConfirmStatus.APPLIED, acc, payment)) ∧
    applyAccountsPayablePayment (FinanceSample.draws "p3") FinanceSample.payment
      (runFinance [ReqReversePayment (FinanceSample.draws "p2") FinanceSample.reversal] db) =
      (runFinance [ReqReversePayment (FinanceSample.draws "p2") FinanceSample.reversal] db,
       Ok (ConfirmStatus.DUPLICATE_ACCEPTED, view, payment)) ∧
    (AccountRow.balanceDue <$> Book.accounts (FinanceDb.payable (runFinance [ReqReversePayment (FinanceSample.draws "p2") FinanceSample.reversal] db))) =
      [100000].
Proof.
  destruct (Sample.accepted (applyAccountsPayablePayment (FinanceSample.draws "p1") FinanceSample.payment (runFinance FinanceSample.owed FinanceDb.empty)))
    as [[[st acc] payment] Hpay]; [by vm_compute|].
  assert (Hst : match snd (applyAccountsPayablePayment (FinanceSample.draws "p1") FinanceSample.payment (runFinance FinanceSample.owed FinanceDb.empty)) with
    Ok r => r.1.1 | Err _ => ConfirmStatus.DUPLICATE_ACCEPTED end = ConfirmStatus.APPLIED) by (vm_compute; reflexivity).
  rewrite Hpay in Hst. cbn in Hst. subst st.
  destruct (payment_retry_is_answered FinanceSample.owed (FinanceSample.draws "p1") FinanceSample.payment _ acc payment
    [ReqReversePayment (FinanceSample.draws "p2") FinanceSample.reversal] (FinanceSample.draws "p3") Hpay) as [view Hview].
  eexists _, acc, payment, view. split; [exact Hpay|]. split; [exact Hview|]. vm_compute. reflexivity.
Defined.

(** a receipt without cost can never become a payable: its total is not positive *)
Lemma free_receipt_is_refused draws event due resolver db :
  Recepcion.totalAmount event = "0.0000" → findBySource (Recepcion.organizationId event) (Recepcion.recepcionId event) (FinanceDb.payable db) = None →
  ∃ e, processPurchaseReceiptEvent draws event due resolver db = (db, Err e).
Proof.
  intros Htotal Hnone. destruct (processPurchaseReceiptEvent draws event due resolver db) as [db' [res|e]] eqn:E.
  - apply receipt_ok in E as (d & _ & E). rewrite Hnone in E. destruct E as (b & row & _ & _ & (total & Ht & Hpos & _)%insertAccount_ok).
    rewrite Htotal in Ht. rewrite (amount_unique _ _ _ Ht amount_zero) in Hpos. lia.
  - exists e. f_equal. assert (atomic (processPurchaseReceiptEvent draws event due resolver)) as Hat by (unfold processPurchaseReceiptEvent; atomic).
    by apply Hat in E.
Qed.
