(* ===== verification/PayablesSpec.v ===== *)
(** Procurement and finance together: the events of receipts are delivered to finance, any
    number of times and in any order, by whatever reads the integration outbox.  The payables
    are then exactly those of confirmed receipts, one each, with the receipt's amount. *)
From S2P Require Import Prelude Decimals Money Scale4 Json AuditTrail Ingestion Recipes Dispatch DispatchSpec Procurement ProcurementSpec ReceiptSpec.
From S2P Require Import Finance FinanceSpec.
From Stdlib Require Import Ascii String.

(** ** Reading an event back *)

(** the text members of an object survive the JSONB column *)
Lemma jsonb_members ms j :
  jsonb (JObject ms) = Ok j → NoDup (fst <$> ms) →
  ∃ ms', j = JObject ms' ∧ NoDup (fst <$> ms') ∧ ∀ k s, (k, JString s) ∈ ms → (k, JString s) ∈ ms'.
Proof.
  intros Hj Hnd. unfold jsonb in Hj. destruct (hasBigInt _); [done|]. cbn [finite norm] in Hj. destruct (hasNul _); [done|]. injection Hj as <-.
  set (f := λ m : string * Json, (fst m, norm (snd m))) in *. set (g := λ m : string * Json, (fst m, finite (snd m))) in *.
  eexists. split; [done|]. split.
  - eapply sublist_NoDup; [|apply (fmap_sublist fst), sublist_filter]. rewrite orderBy_permutation, <-!list_fmap_compose. exact Hnd.
  - intros k s Hin. apply list_elem_of_filter. split; [done|]. rewrite elem_of_orderBy. change (k, JString s) with (f (g (k, JString s))).
    by do 2 apply list_elem_of_fmap_2.
Qed.

Lemma member_unique (ms : list (string * Json)) k v w : NoDup (fst <$> ms) → (k, v) ∈ ms → (k, w) ∈ ms → v = w.
Proof. intros Hn Hv Hw. assert ((k, v) = (k, w)) as [= ->]; [|done]. by eapply (NoDup_fmap_unique fst). Qed.

(** the facts of a receipt that finance stores *)
Definition owedFacts (p : Recepcion.t) :=
  (Recepcion.recepcionId p, Recepcion.organizationId p, Recepcion.branchId p, Recepcion.supplierId p, Recepcion.totalAmount p).

Lemma recepcion_injective p q j : jsonb (recepcionJson p) = Ok j → jsonb (recepcionJson q) = Ok j → owedFacts p = owedFacts q.
Proof.
  assert (Hkeys : ∀ x, ∃ ms, recepcionJson x = JObject ms ∧ NoDup (fst <$> ms) ∧ ("recepcionId", JString (Recepcion.recepcionId x)) ∈ ms ∧
    ("organizationId", JString (Recepcion.organizationId x)) ∈ ms ∧ ("branchId", JString (Recepcion.branchId x)) ∈ ms ∧
    ("supplierId", JString (Recepcion.supplierId x)) ∈ ms ∧ ("totalAmount", JString (Recepcion.totalAmount x)) ∈ ms).
  { intros x. eexists. split; [reflexivity|]. split; [cbn; apply (bool_decide_unpack _); by vm_compute|].
    split_and!; repeat first [by left|right]. }
  intros Hp Hq. destruct (Hkeys p) as (ms & Ep & Hn & P1 & P2 & P3 & P4 & P5), (Hkeys q) as (ms' & Eq & Hn' & Q1 & Q2 & Q3 & Q4 & Q5).
  rewrite Ep in Hp. rewrite Eq in Hq. apply jsonb_members in Hp as (l & -> & Hnl & Hl); [|done].
  apply jsonb_members in Hq as (l' & [= <-] & _ & Hl'); [|done]. unfold owedFacts.
  assert (Hs : ∀ k s t, (k, JString s) ∈ ms → (k, JString t) ∈ ms' → s = t).
  { intros k s t H1 H2. assert (JString s = JString t) as [= ->]; [|done]. eapply (member_unique l); eauto. }
  f_equal; [f_equal; [f_equal; [f_equal|]|]|]; eauto.
Qed.

(** ** One system *)

Definition System : Type := ProcurementDb.t * FinanceDb.t.

Definition isReceipt (q : FinanceRequest) : bool := match q with ReqReceipt _ _ _ _ => true | _ => false end.

(** a row of the outbox carries the event [event] *)
Definition carries (p : ProcurementDb.t) (event : Recepcion.t) : Prop :=
  ∃ e, e ∈ DispatchDb.outbox (ProcurementDb.integration p) ∧ IntegrationEvent.eventType e = "RecepcionCompraRegistrada" ∧
    jsonb (recepcionJson event) = Ok (IntegrationEvent.payload e).

(** procurement moves on, finance is asked something, or finance receives an event *)
Inductive system_step : System → System → Prop :=
| step_procurement p p' f : proc_step False p p' → system_step (p, f) (p', f)
| step_finance p f q : isReceipt q = false → system_step (p, f) (p, fst (performFinance q f))
| step_deliver p f event draws due resolver : carries p event →
    system_step (p, f) (p, fst (performFinance (ReqReceipt draws event due resolver) f)).

Definition system_reach (s : System) : Prop :=
  ∃ branches warehouses ingredients, rtc system_step (newDb branches warehouses ingredients, FinanceDb.empty) s.

(** a payable is that of a receipt *)
Definition owes (r : ReceiptRow.t) (a : AccountRow.t AccountsPayableStatus.t) : Prop :=
  AccountRow.sourceId a = ReceiptRow.id r ∧ AccountRow.organizationId a = ReceiptRow.organizationId r ∧
  AccountRow.branchId a = ReceiptRow.branchId r ∧ AccountRow.counterpartyId a = ReceiptRow.supplierId r ∧
  AccountRow.totalAmount a = ReceiptRow.totalAmount r.

Definition mirrored (s : System) : Prop :=
  Forall (λ a, Exists (λ r, owes r a) (ProcurementDb.purchase_receipts (fst s))) (Book.accounts (FinanceDb.payable (snd s))).

(** the event a row carries is that of a stored receipt *)
Lemma carried_receipt p event : proc_ok False p → carries p event →
  ∃ r, r ∈ ProcurementDb.purchase_receipts p ∧ owedFacts event = (ReceiptRow.id r, ReceiptRow.organizationId r, ReceiptRow.branchId r,
    ReceiptRow.supplierId r, columnText (ReceiptRow.totalAmount r)).
Proof.
  intros Hok (e & He & Hty & Hjson). destruct (proj1 (Exists_exists _ _) (ok_known _ _ Hok e He Hty)) as (r & Hr & H1 & H2 & H3 & H4).
  pose proof (ok_events _ _ Hok) as Hev. rewrite Forall_forall in Hev. destruct (Hev r Hr) as (payload & command & lines & Hpay & Hj & _).
  assert (IntegrationEvent.payload e = payload) as Heq.
  { apply list_elem_of_singleton. rewrite <-Hpay. apply list_elem_of_fmap_2, list_elem_of_filter. by split_and!. }
  exists r. split; [done|]. rewrite Heq in Hjson. by rewrite (recepcion_injective _ _ _ Hjson Hj).
Qed.

(** what a payable owes does not change *)
Definition debtOf (a : AccountRow.t AccountsPayableStatus.t) :=
  (AccountRow.sourceId a, AccountRow.organizationId a, AccountRow.branchId a, AccountRow.counterpartyId a, AccountRow.totalAmount a).

Lemma recorded_debts draws a branch kind amountText date ref reversalOf balanceText status (b b' : Book.t AccountsPayableStatus.t) res r balance :
  recorded draws a branch kind amountText date ref reversalOf balanceText status b b' res r balance → debtOf <$> Book.accounts b' = debtOf <$> Book.accounts b.
Proof.
  intros Hrec. destruct (rc_book _ _ _ _ _ _ _ _ _ _ _ _ _ _ _ Hrec) as [-> _]. apply updated_key. intros x. unfold updated. by case_decide.
Qed.

Lemma request_debts q f : isReceipt q = false →
  debtOf <$> Book.accounts (FinanceDb.payable (fst (performFinance q f))) = debtOf <$> Book.accounts (FinanceDb.payable f).
Proof.
  intros Hq. destruct (performFinance q f) as [f' [u|e]] eqn:E; cbn [fst]; [|by apply request_atomic in E as ->].
  destruct q; try done; cbn [performFinance] in E; apply bind_ok in E as (res & f1 & E & Hret); injection Hret as ->.
  - apply onPayable_ok in E as (b & (ref & _ & E)%applyTransaction_ok & ->). destruct (findReference _ ref _); [by destruct E as [-> _]|].
    destruct E as (a & next & r & balance & _ & _ & _ & Hrec). by eapply recorded_debts.
  - apply onPayable_ok in E as (b & (ref & _ & E)%reverseTransaction_ok & ->). destruct (findReference _ ref _); [by destruct E as [-> _]|].
    destruct E as (a & o & next & r & balance & _ & _ & _ & _ & _ & _ & _ & _ & Hrec). by eapply recorded_debts.
  - by apply schedule_same in E as [l ->].
  - by apply charge_ok in E as (b & -> & _).
  - by apply onReceivable_ok in E as (b & _ & ->).
  - by apply onReceivable_ok in E as (b & _ & ->).
  - by apply expense_same in E as [l ->].
  - by apply reconcile_ok in E as [->|(c & -> & _)].
Qed.

Lemma mirrored_debts p f f' :
  debtOf <$> Book.accounts (FinanceDb.payable f') = debtOf <$> Book.accounts (FinanceDb.payable f) → mirrored (p, f) → mirrored (p, f').
Proof.
  unfold mirrored. cbn [fst snd]. rewrite !Forall_forall. intros Heq Hm a Ha.
  assert (debtOf a ∈ (debtOf <$> Book.accounts (FinanceDb.payable f))) as (a' & Hd & Ha')%list_elem_of_fmap by (rewrite <-Heq; by apply list_elem_of_fmap_2).
  eapply Exists_impl; [exact (Hm a' Ha')|]. unfold debtOf in Hd. injection Hd as H1 H2 H3 H4 H5. intros r. unfold owes. by rewrite H1, H2, H3, H4, H5.
Qed.

Lemma deliver_mirrored p f event draws due resolver : proc_ok False p → carries p event → mirrored (p, f) →
  mirrored (p, fst (performFinance (ReqReceipt draws event due resolver) f)).
Proof.
  intros Hok Hc Hm. destruct (performFinance (ReqReceipt draws event due resolver) f) as [f' [u|e]] eqn:E; cbn [fst];
    [|by apply request_atomic in E as ->].
  cbn [performFinance] in E. apply bind_ok in E as (res & f1 & E & Hret). injection Hret as ->.
  apply receipt_ok in E as (d & _ & E). destruct (findBySource _ _ (FinanceDb.payable f)); [by destruct E as [-> _]|].
  destruct E as (b & row & _ & -> & (total & Ht & _ & _ & _ & Hrow & ->)%insertAccount_ok). unfold mirrored. cbn. apply Forall_app. split; [exact Hm|].
  apply Forall_singleton. destruct (carried_receipt p event Hok Hc) as (r & Hr & Hfacts). apply Exists_exists. exists r. split; [done|].
  unfold owedFacts in Hfacts. injection Hfacts as H1 H2 H3 H4 H5. rewrite H5 in Ht. apply amount_columnText in Ht as [-> _].
  rewrite Hrow. by split_and!.
Qed.

Lemma system_ok s s' : system_step s s' →
  proc_ok False (fst s) ∧ finance_ok (snd s) ∧ mirrored s → proc_ok False (fst s') ∧ finance_ok (snd s') ∧ mirrored s'.
Proof.
  intros [p p' f H|p f q Hq|p f event draws due resolver Hc] (Hp & Hf & Hm); cbn [fst snd] in *.
  - split_and!; [by eapply step_ok|done|]. eapply Forall_impl; [exact Hm|]. intros a (r & Hr & Ho)%Exists_exists. apply Exists_exists. exists r.
    split; [|done]. by apply (kp_receipts _ _ (step_keeps _ _ _ H Hp)).
  - split_and!; [done|by apply request_ok|]. by eapply mirrored_debts; [apply request_debts|].
  - split_and!; [done|by apply request_ok|]. by apply deliver_mirrored.
Qed.

Lemma joint_reach_ok s : system_reach s → proc_ok False (fst s) ∧ finance_ok (snd s) ∧ mirrored s.
Proof.
  intros (b & w & i & H). assert (Hinit : proc_ok False (newDb b w i) ∧ finance_ok FinanceDb.empty ∧ mirrored (newDb b w i, FinanceDb.empty))
    by (split_and!; [apply new_ok|apply empty_ok|constructor]).
  change (proc_ok False (fst (newDb b w i, FinanceDb.empty)) ∧ finance_ok (snd (newDb b w i, FinanceDb.empty)) ∧ mirrored (newDb b w i, FinanceDb.empty)) in Hinit.
  induction H as [|x y z Hxy _ IH]; [done|]. apply IH. by eapply system_ok.
Qed.

Lemma findBySource_in {S} org source (b : Book.t S) row :
  findBySource org source b = Some row → row ∈ Book.accounts b ∧ AccountRow.organizationId row = org ∧ AccountRow.sourceId row = source.
Proof. unfold findBySource. intros ([i r] & (Hl & [H1 H2] & _)%list_find_Some & ->)%fmap_Some. split; [by eapply list_elem_of_lookup_2|done]. Qed.

(** a first delivery is applied *)
Lemma first_delivery draws event due resolver d n f :
  findBySource (Recepcion.organizationId event) (Recepcion.recepcionId event) (FinanceDb.payable f) = None →
  amount (Recepcion.totalAmount event) n → 0 < n → resolveDueDate event due resolver = Ok d → calendarDate d = true →
  FinanceDraws.rowId draws ∉ (AccountRow.id <$> Book.accounts (FinanceDb.payable f)) →
  ∃ row, sourceOf row = (Recepcion.organizationId event, Recepcion.recepcionId event) ∧
    processPurchaseReceiptEvent draws event due resolver f =
      (f <| FinanceDb.payable ::= (λ b, b <| Book.accounts ::= λ l, l ++ [row] |>) |>, Ok (ConfirmStatus.APPLIED, toAccount row)).
Proof.
  intros Hfind Hn Hpos Hd Hcal Hfresh.
  set (row := AccountRow.mk AccountsPayableStatus.t (FinanceDraws.rowId draws) (Recepcion.organizationId event) (Recepcion.branchId event)
    (Recepcion.supplierId event) (Recepcion.recepcionId event) n n d PENDING_status (FinanceDraws.now draws) (FinanceDraws.now draws)).
  exists row. split; [done|]. unfold processPurchaseReceiptEvent, FinanceNumerics.parseDecimal12x4. rewrite Hd, (proj2 (parse_ok _ _ _) Hn). mrun.
  assert (Hins : insertAccount draws (Recepcion.organizationId event) (Recepcion.branchId event) (Recepcion.supplierId event)
    (Recepcion.recepcionId event) (Recepcion.totalAmount event) d (FinanceDb.payable f) =
    ((FinanceDb.payable f) <| Book.accounts ::= λ l, l ++ [row] |>, Ok row)).
  { unfold insertAccount, dateColumn. rewrite (proj2 (amountColumn_ok _ _) Hn), Hcal. mrun. rewrite (proj2 (Z.leb_gt _ _) Hpos). mrun.
    rewrite bool_decide_false by done. mrun. done. }
  unfold onPayable, inFinanceTransaction. rewrite bind_gets, Hfind. cbv iota. rewrite (bind_run_ok _ _ _ _ _ Hins). done.
Qed.

(** an event without a positive total is refused, first or repeated *)
Lemma free_event_refused draws event due resolver n f :
  finance_ok f → amount (Recepcion.totalAmount event) n → n <= 0 → ∃ e, performFinance (ReqReceipt draws event due resolver) f = (f, Err e).
Proof.
  intros Hf Hn Hle. destruct (performFinance _ f) as [f' [u|e]] eqn:E; [exfalso|exists e; by apply request_atomic in E as ->].
  cbn [performFinance] in E. apply bind_ok in E as (res & f1 & E & _). apply receipt_ok in E as (d & _ & E).
  destruct (findBySource _ _ (FinanceDb.payable f)) as [row|] eqn:Hfind.
  - destruct E as (_ & _ & Hsame). unfold sameAccount in Hsame. destruct (negb _); [done|].
    apply result_map_ok in Hsame as (b & (x & y & Hx & Hy & ->)%equals_ok & Heq). symmetry in Heq. apply andb_true_iff in Heq as [_ Heq%Z.eqb_eq].
    apply amount_columnText in Hx as [-> _]. rewrite (amount_unique _ _ _ Hy Hn) in Heq. apply findBySource_in in Hfind as (Hrow & _).
    pose proof (lg_account _ (fo_payable _ Hf)) as Hall. rewrite Forall_forall in Hall. destruct (Hall row Hrow). lia.
  - destruct E as (b & row & _ & _ & (total & Ht & Hpos & _)%insertAccount_ok). rewrite (amount_unique _ _ _ Ht Hn) in Hpos. lia.
Qed.

(** ** What is owed *)

(** C21: Procurement and finance over the integration outbox.  Whatever is requested of either
    and however the events of receipts are delivered, repeated, reordered or left out: every
    payable is that of a confirmed receipt of the same organisation, branch and supplier, for
    exactly the receipt's total, which is positive, and no receipt has two.  A delivered event
    with a positive total, a due date and a new row id leaves its receipt with a payable,
    whether it is the first delivery or not; the event of a receipt without a positive total is
    refused on every delivery, and changes nothing. *)
Theorem payables_mirror_receipts p f :
  system_reach (p, f) →
  Forall (λ a, 0 < AccountRow.totalAmount a ∧ Exists (λ r, owes r a) (ProcurementDb.purchase_receipts p)) (Book.accounts (FinanceDb.payable f)) ∧
  NoDup (sourceOf <$> Book.accounts (FinanceDb.payable f)) ∧
  (∀ event draws due resolver d n, carries p event → amount (Recepcion.totalAmount event) n → 0 < n →
    resolveDueDate event due resolver = Ok d → calendarDate d = true → FinanceDraws.rowId draws ∉ (AccountRow.id <$> Book.accounts (FinanceDb.payable f)) →
    Exists (λ a, sourceOf a = (Recepcion.organizationId event, Recepcion.recepcionId event))
      (Book.accounts (FinanceDb.payable (fst (performFinance (ReqReceipt draws event due resolver) f))))) ∧
  (∀ event draws due resolver n, carries p event → amount (Recepcion.totalAmount event) n → n <= 0 →
    ∃ e, performFinance (ReqReceipt draws event due resolver) f = (f, Err e)).
Proof.
  intros (_ & Hf & Hm)%joint_reach_ok. split_and!; [|apply (lg_sources _ (fo_payable _ Hf))| |].
  - pose proof (lg_account _ (fo_payable _ Hf)) as Hall. unfold mirrored in Hm. cbn [fst snd] in *. rewrite Forall_forall in Hall, Hm |- *.
    intros a Ha. split; [apply (Hall a Ha)|by apply Hm].
  - intros event draws due resolver d n _ Hn Hpos Hd Hcal Hfresh.
    destruct (findBySource (Recepcion.organizationId event) (Recepcion.recepcionId event) (FinanceDb.payable f)) as [row|] eqn:Hfind.
    + apply findBySource_in in Hfind as (Hrow & H1 & H2). destruct (proj2 (request_ok (ReqReceipt draws event due resolver) f Hf)) as [[Hk _] _].
      destruct (Hk row Hrow) as (a & Ha & _ & Hs & _). apply Exists_exists. exists a. split; [done|]. rewrite Hs. unfold sourceOf. by rewrite H1, H2.
    + destruct (first_delivery _ _ _ _ _ _ _ Hfind Hn Hpos Hd Hcal Hfresh) as (row & Hs & Hrun). cbn [performFinance].
      rewrite (bind_run_ok _ _ _ _ _ Hrun). cbn. apply Exists_app. right. by left.
  - intros event draws due resolver n _ Hn Hle. by eapply free_event_refused.
Qed.

Module PayableSample.
(** the event of the first delivery of [Sample], of four units for ten *)
Definition event : Recepcion.t :=
  Recepcion.mk "r1" "org" "branch" "supplier" "order" "warehouse" "R-1" None "2026-01-01T00:00:00.000Z" None "10.0000"
    [RecepcionItem.mk "flour" "item" "10.0000" "0.0000" "4.0000" "4.0000" "6.0000" "2.5000" "10.0000"].
Definition deliver (id : string) : FinanceRequest := ReqReceipt (FinanceSample.draws id) event (Some "2026-02-01") None.
(** delivered, then paid in part, then delivered again *)
Definition db : FinanceDb.t := runFinance [deliver "payable"; ReqPay (FinanceSample.draws "p1") FinanceSample.payment; deliver "again"] FinanceDb.empty.

Lemma carried : carries Sample.db5 event.
Proof. eexists. split; [vm_compute; by left|]. split; [by vm_compute|by vm_compute]. Qed.

Lemma procured f p p' : rtc (proc_step False) p p' → rtc system_step (p, f) (p', f).
Proof. induction 1 as [|x y z Hxy _ IH]; [done|]. eapply rtc_l; [by apply step_procurement|exact IH]. Qed.

Lemma reached : system_reach (Sample.db5, db).
Proof.
  destruct (reach_loose _ _ Sample.reach5) as (b & w & i & H). exists b, w, i.
  etransitivity; [exact (procured FinanceDb.empty _ _ H)|].
  eapply rtc_l; [exact (step_deliver _ _ _ (FinanceSample.draws "payable") (Some "2026-02-01") None carried)|].
  eapply rtc_l; [exact (step_finance _ _ (ReqPay (FinanceSample.draws "p1") FinanceSample.payment) eq_refl)|].
  apply rtc_once. exact (step_deliver _ _ _ (FinanceSample.draws "again") (Some "2026-02-01") None carried).
Qed.
End PayableSample.

Theorem payables_mirror_receipts_witness :
  system_reach (Sample.db5, PayableSample.db) ∧ mirrored (Sample.db5, PayableSample.db) ∧
  (AccountRow.balanceDue <$> Book.accounts (FinanceDb.payable PayableSample.db)) = [60000] ∧
  Exists (λ a, sourceOf a = ("org", "r1"))
    (Book.accounts (FinanceDb.payable (fst (performFinance (PayableSample.deliver "third") PayableSample.db)))).
Proof.
  destruct (payables_mirror_receipts _ _ PayableSample.reached) as (Hall & _ & Hdelivered & _).
  split; [exact PayableSample.reached|]. split; [by eapply Forall_impl; [exact Hall|intros a [_ ?]]|]. split; [vm_compute; reflexivity|].
  apply (Hdelivered PayableSample.event (FinanceSample.draws "third") (Some "2026-02-01") None
    "2026-02-01" 100000 PayableSample.carried); [by vm_compute|lia|by vm_compute|by vm_compute|].
  apply (bool_decide_unpack _). by vm_compute.
Defined.
