(* ===== verification/JsonText.v ===== *)
(** JSON texts: [JSON.stringify] and [JSON.parse] on the values of Json.v, as the edge's
    security services use them for token claims, cached roles, key metadata and audit
    metadata, and the round trip between them.

    [parse] follows the JSON grammar.  Two kinds of text are valid JSON but stand for values
    Json.v does not have, and are answered [Outside]: numbers with a fraction, an exponent or
    more than 2^53 - 1, and escapes of code units above 255.  The members of an object are kept
    in the order of the text, a repeated key replacing the value of the first. *)
From S2P Require Import Prelude Decimals Epochs Json JsonSpec.
From Stdlib Require Import Ascii String.

(** ** JSON.stringify *)

(** [None] is the result [undefined] *)
Fixpoint stringify (v : Json) : result JsError (option string) :=
  match v with
  | JUndefined => Ok None
  | JNull | JNaN | JInfinity => Ok (Some "null")
  | JBool b => Ok (Some (if b then "true" else "false"))
  | JNumber n => Ok (Some (Z_toString n))
  | JBigInt _ => Err (TypeError "Do not know how to serialize a BigInt")
  | JString s => Ok (Some (quote s))
  | JArray vs => result_map (λ ts, Some ("[" +:+ joined false ts +:+ "]")) (elementTexts (stringify <$> vs))
  | JObject ms => result_map (λ ts, Some ("{" +:+ joined false ts +:+ "}"))
      (memberTexts ((λ m, (fst m, stringify (snd m))) <$> ms))
  end.

(** ** JSON.parse *)

Inductive parsed (A : Type) :=
| Value (a : A) (rest : string)
| SyntaxError
| Outside
| OutOfFuel.
Arguments Value {A} _ _.
Arguments SyntaxError {A}.
Arguments Outside {A}.
Arguments OutOfFuel {A}.

Definition pbind {A B} (p : parsed A) (k : A → string → parsed B) : parsed B :=
  match p with Value a r => k a r | SyntaxError => SyntaxError | Outside => Outside | OutOfFuel => OutOfFuel end.
Definition pmap {A B} (f : A → B) (p : parsed A) : parsed B := pbind p (λ a r, Value (f a) r).

Definition isJsonSpace (c : ascii) : bool :=
  let n := N_of_ascii c in ((n =? 32) || (n =? 9) || (n =? 10) || (n =? 13))%N.
Fixpoint skipSpace (s : string) : string :=
  match s with String c s' => if isJsonSpace c then skipSpace s' else s | EmptyString => s end.

Definition hexValue (c : ascii) : option N :=
  let n := N_of_ascii c in
  if ((48 <=? n) && (n <=? 57))%N then Some (n - 48)%N
  else if ((97 <=? n) && (n <=? 102))%N then Some (n - 87)%N
  else if ((65 <=? n) && (n <=? 70))%N then Some (n - 55)%N else None.

(** the code unit of the four digits after [\u] *)
Definition hex4 (a b c d : ascii) : option N :=
  match hexValue a, hexValue b, hexValue c, hexValue d with
  | Some w, Some x, Some y, Some z => Some (((w * 16 + x) * 16 + y) * 16 + z)%N
  | _, _, _, _ => None
  end.

(** the character a one-letter escape stands for *)
Definition unescape (e : ascii) : option ascii :=
  if bool_decide (e = "034"%char) || bool_decide (e = backslash) || bool_decide (e = "/"%char) then Some e
  else if bool_decide (e = "b"%char) then Some "008"%char
  else if bool_decide (e = "f"%char) then Some "012"%char
  else if bool_decide (e = "n"%char) then Some "010"%char
  else if bool_decide (e = "r"%char) then Some "013"%char
  else if bool_decide (e = "t"%char) then Some "009"%char else None.

(** the characters of a string after its opening quote *)
Fixpoint parseChars (s : string) : parsed string :=
  match s with
  | EmptyString => SyntaxError
  | String c s' =>
      if bool_decide (c = "034"%char) then Value "" s'
      else if bool_decide (c = backslash) then
        match s' with
        | String e s'' =>
            if bool_decide (e = "u"%char) then
              match s'' with
              | String w (String x (String y (String z r))) =>
                  match hex4 w x y z with
                  | Some n => if (n <? 256)%N then pmap (String (ascii_of_N n)) (parseChars r)
                              else match parseChars r with SyntaxError => SyntaxError | _ => Outside end
                  | None => SyntaxError
                  end
              | _ => SyntaxError
              end
            else match unescape e with Some d => pmap (String d) (parseChars s'') | None => SyntaxError end
        | EmptyString => SyntaxError
        end
      else if (N_of_ascii c <? 32)%N then SyntaxError
      else pmap (String c) (parseChars s')
  end.

(** the characters that make a number more than its digits *)
Definition fractional (r : string) : bool :=
  match r with String c _ => bool_decide (c ∈ ["."; "e"; "E"]%char) | EmptyString => false end.

(** the digits of a number: no leading zero, except the number zero *)
Definition parseDigits (s : string) : parsed N :=
  match s with
  | String c s' =>
      if bool_decide (c = "0"%char) then (if fractional s' then Outside else Value 0%N s')
      else let '(d, r) := span_digits s in
        if bool_decide (d = "") then SyntaxError
        else if fractional r then Outside
        else match BigInt_of_digits d with Some n => Value n r | None => SyntaxError end
  | EmptyString => SyntaxError
  end.

Definition parseNumber (s : string) : parsed Json :=
  pbind (match s with
         | String c s' => if bool_decide (c = "-"%char) then pmap (λ n, - Z.of_N n) (parseDigits s')
                          else pmap Z.of_N (parseDigits s)
         | EmptyString => SyntaxError
         end) (λ n r, if isSafeInteger n then Value (JNumber n) r else Outside).

Definition expect {A} (word s : string) (a : A) : parsed A :=
  if String.prefix word s then Value a (substring (String.length word) (String.length s - String.length word) s)
  else SyntaxError.

(** [obj[key] = value] on an object under construction *)
Fixpoint setMember (key : string) (v : Json) (ms : list (string * Json)) : list (string * Json) :=
  match ms with
  | [] => [(key, v)]
  | (k, w) :: ms' => if bool_decide (k = key) then (key, v) :: ms' else (k, w) :: setMember key v ms'
  end.
Definition objectOf (ms : list (string * Json)) : Json := JObject (foldl (λ acc m, setMember (fst m) (snd m) acc) [] ms).

(** a value; the elements of an array from the next one on; the members of an object *)
Fixpoint parseValue (fuel : nat) (s : string) {struct fuel} : parsed Json :=
  match fuel with
  | O => OutOfFuel
  | S fuel' =>
      match skipSpace s with
      | EmptyString => SyntaxError
      | String c s' as t =>
          if bool_decide (c = "034"%char) then pmap JString (parseChars s')
          else if bool_decide (c = "["%char) then
            match skipSpace s' with
            | String d r => if bool_decide (d = "]"%char) then Value (JArray []) r else pmap JArray (parseElements fuel' s')
            | EmptyString => SyntaxError
            end
          else if bool_decide (c = "{"%char) then
            match skipSpace s' with
            | String d r => if bool_decide (d = "}"%char) then Value (JObject []) r else pmap objectOf (parseMembers fuel' s')
            | EmptyString => SyntaxError
            end
          else if bool_decide (c = "n"%char) then expect "null" t JNull
          else if bool_decide (c = "t"%char) then expect "true" t (JBool true)
          else if bool_decide (c = "f"%char) then expect "false" t (JBool false)
          else parseNumber t
      end
  end
with parseElements (fuel : nat) (s : string) {struct fuel} : parsed (list Json) :=
  match fuel with
  | O => OutOfFuel
  | S fuel' => pbind (parseValue fuel' s) (λ v r,
      match skipSpace r with
      | String d r' =>
          if bool_decide (d = ","%char) then pmap (cons v) (parseElements fuel' r')
          else if bool_decide (d = "]"%char) then Value [v] r' else SyntaxError
      | EmptyString => SyntaxError
      end)
  end
with parseMembers (fuel : nat) (s : string) {struct fuel} : parsed (list (string * Json)) :=
  match fuel with
  | O => OutOfFuel
  | S fuel' =>
      match skipSpace s with
      | String q s' =>
          if bool_decide (q = "034"%char) then
            pbind (parseChars s') (λ key r,
            match skipSpace r with
            | String d r' =>
                if bool_decide (d = ":"%char) then
                  pbind (parseValue fuel' r') (λ v r'',
                  match skipSpace r'' with
                  | String e r3 =>
                      if bool_decide (e = ","%char) then pmap (cons (key, v)) (parseMembers fuel' r3)
                      else if bool_decide (e = "}"%char) then Value [(key, v)] r3 else SyntaxError
                  | EmptyString => SyntaxError
                  end)
                else SyntaxError
            | EmptyString => SyntaxError
            end)
          else SyntaxError
      | EmptyString => SyntaxError
      end
  end.

(** [JSON.parse(s)]: every character is at most two turns of the parser *)
Definition parse (s : string) : parsed Json :=
  pbind (parseValue (2 * String.length s + 2) s) (λ v r, if bool_decide (skipSpace r = "") then Value v "" else SyntaxError).

Example parse_spaces : parse " [ 1, -20,true , null ] " = Value (JArray [JNumber 1; JNumber (-20); JBool true; JNull]) "".
Proof. vm_compute. reflexivity. Qed.
Example parse_escape : parse (dquote +:+ "x\u0041\n" +:+ dquote) = Value (JString (String "x" (String "A" (String "010" "")))) "".
Proof. vm_compute. reflexivity. Qed.
Example parse_repeated_key : parse ("{" +:+ quote "a" +:+ ":1," +:+ quote "a" +:+ ":2}") = Value (JObject [("a", JNumber 2)]) "".
Proof. vm_compute. reflexivity. Qed.
Example parse_bad : parse "[1,]" = SyntaxError ∧ parse "01" = SyntaxError ∧ parse "[1.5]" = Outside.
Proof. vm_compute. repeat split. Qed.

(** ** The text is read back *)

Lemma parseChars_escape c x : parseChars (escape c +:+ x) = pmap (String c) (parseChars x).
Proof. destruct c as [[] [] [] [] [] [] [] []]; reflexivity. Qed.

Lemma parseChars_quote s r : parseChars (escapeAll s +:+ dquote +:+ r) = Value s r.
Proof.
  induction s as [|c s IH]; [done|]. cbn [escapeAll]. by rewrite app_assoc_str, parseChars_escape, IH.
Qed.

Lemma skipSpace_head c s : isJsonSpace c = false → skipSpace (String c s) = String c s.
Proof. intros Hc. simpl. by rewrite Hc. Qed.

(** what can follow a value inside a text *)
Definition follows (r : string) : Prop := ∀ c r', r = String c r' → c ∈ [","; "]"; "}"]%char.

Lemma follows_delimited r : follows r → delimited r ∧ fractional r = false.
Proof.
  intros Hr. destruct r as [|c r]; [done|]. pose proof (Hr c r eq_refl) as Hc. split.
  - intros d r' [= <- <-]. set_unfold in Hc. destruct Hc as [->|[->|[->|[]]]]; done.
  - set_unfold in Hc. destruct Hc as [->|[->|[->|[]]]]; done.
Qed.

Lemma toString_zero_head n s : toString n = String "0" s → n = 0%N ∧ s = "".
Proof.
  unfold toString. intros H. pose proof (DecimalN.Unsigned.to_of (N.to_uint n)) as Hn. rewrite DecimalN.Unsigned.of_to in Hn.
  destruct (N.to_uint n) as [|d|d|d|d|d|d|d|d|d|d] eqn:E; try discriminate H. unfold Decimal.unorm in Hn.
  destruct (Decimal.nzhead (Decimal.D0 d)) as [|e|e|e|e|e|e|e|e|e|e] eqn:Ez; try discriminate Hn.
  - injection Hn as ->. split; [|by injection H as <-]. rewrite <- (DecimalN.Unsigned.of_to n), E. reflexivity.
  - exfalso. by apply DecimalFacts.nzhead_nonzero in Ez.
Qed.

Lemma parseDigits_toString n r : delimited r → fractional r = false → parseDigits (toString n +:+ r) = Value n r.
Proof.
  intros Hd Hf. destruct (toString n) as [|c s] eqn:E; [by apply toString_nonempty in E|].
  pose proof (toString_split n r Hd) as Hs. rewrite E in Hs. change (String c s +:+ r) with (String c (s +:+ r)) in *.
  cbn [parseDigits]. case_bool_decide as Hc.
  - subst c. apply toString_zero_head in E as [-> ->]. change ("" +:+ r) with r. by rewrite Hf.
  - rewrite Hs. rewrite bool_decide_eq_false_2 by done. rewrite Hf, <- E. by rewrite BigInt_toString.
Qed.

Lemma parseNumber_Z n r : follows r → isSafeInteger n = true → parseNumber (Z_toString n +:+ r) = Value (JNumber n) r.
Proof.
  intros [Hd Hf]%follows_delimited Hn. unfold parseNumber, Z_toString. destruct (Z.ltb_spec n 0).
  - rewrite app_assoc_str. change ("-" +:+ ?x) with (String "-" x). cbn match. rewrite bool_decide_eq_true_2 by done. rewrite parseDigits_toString by done. cbn [pbind pmap bool_decide].
    rewrite Z2N.id, Z.opp_involutive by lia. by rewrite Hn.
  - destruct (toString_head (Z.to_N n)) as (c & s & E & Hc). rewrite E. change (String c s +:+ r) with (String c (s +:+ r)).
    cbn match. rewrite bool_decide_eq_false_2 by by intros ->. change (String c (s +:+ r)) with (String c s +:+ r). rewrite <- E.
    rewrite parseDigits_toString by done. cbn [pbind pmap]. rewrite Z2N.id by lia. by rewrite Hn.
Qed.

Lemma length_app_str (a b : string) : String.length (a +:+ b) = (String.length a + String.length b)%nat.
Proof. induction a as [|c a IH]; [done|]. exact (f_equal S IH). Qed.

(** ** Round trip *)

(** numbers are safe integers at every depth *)
Fixpoint safeNumbers (v : Json) : bool :=
  match v with
  | JNumber n => isSafeInteger n
  | JArray vs => forallb safeNumbers vs
  | JObject ms => forallb (λ m, safeNumbers (snd m)) ms
  | _ => true
  end.
Definition plain (v : Json) : Prop := normal v = true ∧ wf_json v = true ∧ safeNumbers v = true.

Lemma plain_array vs : plain (JArray vs) ↔ Forall plain vs.
Proof.
  unfold plain. cbn [normal wf_json safeNumbers]. rewrite !forallb_Forall, !Forall_forall. split; [|intros H; split_and!; intros v Hv; by apply H].
  intros (H1 & H2 & H3) v Hv. split_and!; auto.
Qed.

Lemma plain_object ms : plain (JObject ms) ↔ NoDup (fst <$> ms) ∧ Forall (λ m, plain (snd m)) ms.
Proof.
  unfold plain. cbn [normal wf_json safeNumbers]. rewrite andb_true_iff, bool_decide_eq_true, !forallb_Forall, !Forall_forall. split.
  - intros (H1 & [Hn H2] & H3). split; [done|]. intros m Hm. split_and!; auto.
  - intros [Hn H]. split_and!; try done; intros m Hm; by apply H.
Qed.

(** a text starts with a character that is no white space *)
Lemma text_start v r : normal v = true → ∃ c s, text v +:+ r = String c s ∧ isJsonSpace c = false ∧
  c ≠ "]"%char ∧ c ≠ "}"%char.
Proof.
  intros Hv. destruct (text_head v Hv) as (c & s & E & Hk). exists c, (s +:+ r). rewrite E. split; [done|].
  assert (Hnot : ∀ d, kindOfChar d = 0%nat → c ≠ d).
  { intros d Hd ->. rewrite Hd in Hk. destruct v as [| |[]| | | | | | |]; done. }
  split_and!; [|by apply Hnot..]. unfold isJsonSpace.
  assert (Hs : ∀ n, (n < 256)%N → kindOfChar (ascii_of_N n) = 0%nat → N_of_ascii c ≠ n).
  { intros n Hn Hd <-. rewrite ascii_N_embedding in Hd. by apply (Hnot c). }
  rewrite !orb_false_iff, !N.eqb_neq. split_and!; by apply Hs.
Qed.

Lemma expect_app {A} word r (a : A) : expect word (word +:+ r) a = Value a r.
Proof.
  unfold expect. assert (Hp : String.prefix word (word +:+ r) = true).
  { induction word as [|c w IH]; [by destruct r|]. change (String c w +:+ r) with (String c (w +:+ r)). simpl. rewrite IH. by destruct (ascii_dec c c). }
  rewrite Hp. f_equal. rewrite length_app_str. replace (_ + _ - _)%nat with (String.length r) by lia. clear.
  induction word as [|c w IH]; [|exact IH]. simpl. induction r as [|c r IH]; [done|]. simpl. by f_equal.
Qed.

Lemma setMember_new k v ms : k ∉ fst <$> ms → setMember k v ms = ms ++ [(k, v)].
Proof.
  induction ms as [|[k' w] ms IH]; [done|]. cbn. intros Hk. rewrite bool_decide_eq_false_2 by set_solver. f_equal. apply IH. set_solver.
Qed.

Lemma objectOf_distinct ms : NoDup (fst <$> ms) → objectOf ms = JObject ms.
Proof.
  intros Hn. unfold objectOf. f_equal. change ms with ([] ++ ms) at 2. revert Hn. change (fst <$> ms) with (fst <$> ([] ++ ms)).
  generalize (@nil (string * Json)). induction ms as [|[k v] ms IH]; intros acc Hn; cbn [foldl]; [by rewrite app_nil_r|].
  rewrite fmap_app in Hn. pose proof Hn as (Hacc & Hnot & _)%NoDup_app. cbn [fst snd].
  rewrite setMember_new; [|intros Hin; apply (Hnot k Hin); cbn; by left]. rewrite IH; rewrite <- app_assoc; [done|]. by rewrite fmap_app.
Qed.

Definition memberOf (m : string * Json) : string := memberText (fst m) (text (snd m)).

Definition reads_text (v : Json) : Prop := ∀ n r, plain v → follows r → (2 * String.length (text v) <= n)%nat →
  parseValue n (text v +:+ r) = Value v r.

Lemma follows_char c r : c ∈ [","; "]"; "}"]%char → follows (String c r).
Proof. by intros Hc d r' [= <- <-]. Qed.

Lemma joined_tail ts : joined true ts = match ts with [] => "" | _ => "," +:+ joined false ts end.
Proof. by destruct ts. Qed.

Lemma parseElements_text vs n r : vs ≠ [] → Forall reads_text vs → Forall plain vs →
  (1 + 2 * String.length (joined false (text <$> vs)) <= n)%nat →
  parseElements n (joined false (text <$> vs) +:+ String "]" r) = Value vs r.
Proof.
  intros Hne Hr. revert n Hne. induction Hr as [|v vs Hv _ IH]; intros n Hne Hp Hn; [done|]. apply Forall_cons in Hp as [Hpv Hp].
  rewrite fmap_cons in *. cbn [joined] in *. change ("" +:+ ?x) with x in *. rewrite length_app_str in Hn. destruct n as [|n]; [lia|].
  rewrite app_assoc_str. cbn [parseElements]. rewrite joined_tail in *. destruct vs as [|w vs].
  - cbn in Hn. rewrite (Hv n); [|done|by apply follows_char; set_unfold; auto|lia]. by cbn.
  - rewrite !fmap_cons in *. cbn [list_fmap] in *. rewrite length_app_str in Hn. change (String.length ",") with 1%nat in Hn. rewrite app_assoc_str.
    rewrite (Hv n); [|done|by apply follows_char; set_unfold; auto|lia]. cbn [pbind]. change ("," +:+ ?x) with (String "," x).
    rewrite skipSpace_head by done. cbn match. rewrite bool_decide_eq_true_2 by done. rewrite IH; [done|done|done|lia].
Qed.

Lemma parseMembers_text ms n r : ms ≠ [] → Forall (λ m, reads_text (snd m)) ms → Forall (λ m, plain (snd m)) ms →
  (1 + 2 * String.length (joined false (memberOf <$> ms)) <= n)%nat →
  parseMembers n (joined false (memberOf <$> ms) +:+ String "}" r) = Value ms r.
Proof.
  intros Hne Hr. revert n Hne. induction Hr as [|[k v] ms Hv _ IH]; intros n Hne Hp Hn; [done|]. apply Forall_cons in Hp as [Hpv Hp].
  rewrite fmap_cons in *. cbn [joined] in *. change ("" +:+ ?x) with x in *. rewrite length_app_str in Hn. destruct n as [|n]; [lia|].
  unfold memberOf at 1 in Hn. unfold memberOf at 1. unfold memberText, quote in *. cbn [fst snd] in *. rewrite !length_app_str in Hn. rewrite !app_assoc_str.
  change (dquote +:+ ?x) with (String "034" x) at 1. cbn [parseMembers]. rewrite skipSpace_head by done. cbn match.
  rewrite bool_decide_eq_true_2 by done. rewrite parseChars_quote. cbn [pbind]. change (":" +:+ ?x) with (String ":" x).
  rewrite skipSpace_head by done. cbn match. rewrite bool_decide_eq_true_2 by done. rewrite joined_tail in *. destruct ms as [|m ms].
  - rewrite (Hv n); [|done|by apply follows_char; set_unfold; auto|lia]. by cbn.
  - rewrite !fmap_cons in *. cbn [list_fmap] in *. rewrite length_app_str in Hn. change (String.length ",") with 1%nat in Hn. rewrite app_assoc_str.
    rewrite (Hv n); [|done|by apply follows_char; set_unfold; auto|lia]. cbn [pbind]. change ("," +:+ ?x) with (String "," x).
    rewrite skipSpace_head by done. cbn match. rewrite bool_decide_eq_true_2 by done.
    rewrite IH; [done|done|done|lia].
Qed.

Lemma joined_start started ts c s r : joined started ts +:+ r = String c s → ts ≠ [] → started = false →
  ∃ t ts', ts = t :: ts' ∧ t +:+ joined true ts' +:+ r = String c s.
Proof. intros H Hne ->. destruct ts as [|t ts]; [done|]. exists t, ts. split; [done|]. rewrite <- H. cbn [joined]. change ("" +:+ ?x) with x. by rewrite app_assoc_str. Qed.

Lemma text_nonempty v : normal v = true → (1 <= String.length (text v))%nat.
Proof. intros Hv. destruct (text_head v Hv) as (c & s & -> & _). simpl. lia. Qed.

Lemma parseValue_text v : reads_text v.
Proof.
  induction v as [v Hv|vs IH|ms IH] using json_ind'; intros n r Hp Hr Hn; pose proof Hp as (Hnv & _ & Hs);
    pose proof (text_nonempty _ Hnv); (destruct n as [|n]; [lia|]).
  - destruct v as [| |b|z| | | |s| |]; try done.
    + by rewrite <- (expect_app "null" r JNull).
    + destruct b; [by rewrite <- (expect_app "true" r (JBool true))|by rewrite <- (expect_app "false" r (JBool false))].
    + cbn [text]. rewrite <- (parseNumber_Z z r Hr Hs). destruct (text_head (JNumber z) eq_refl) as (c & s & E & Hk). cbn [text kindOf] in E, Hk.
      rewrite E. change (String c s +:+ r) with (String c (s +:+ r)). unfold kindOfChar in Hk. cbn [parseValue].
      destruct (text_start (JNumber z) r eq_refl) as (c' & s' & E' & Hsp & _). cbn [text] in E'. rewrite E in E'. injection E' as <- _.
      rewrite skipSpace_head by done. repeat (case_bool_decide; [subst; done|]). done.
    + cbn [text]. unfold quote. rewrite !app_assoc_str. change (dquote +:+ ?x) with (String "034" x) at 1. cbn [parseValue].
      rewrite skipSpace_head by done. cbn match. rewrite bool_decide_eq_true_2 by done. by rewrite parseChars_quote.
  - apply plain_array in Hp. cbn [text] in *. rewrite !app_assoc_str. change ("[" +:+ ?x) with (String "[" x). cbn [parseValue].
    rewrite skipSpace_head by done. cbn match. rewrite bool_decide_eq_false_2, bool_decide_eq_true_2 by done.
    change ("]" +:+ r) with (String "]" r). rewrite !length_app_str in Hn. cbn [String.length] in Hn.
    destruct vs as [|v vs]; [done|]. pose proof (parseElements_text (v :: vs) n r ltac:(done) IH Hp ltac:(lia)) as ->.
    rewrite fmap_cons. cbn [joined]. change ("" +:+ ?x) with x. rewrite app_assoc_str. apply Forall_cons in Hp as [[Hv _] _].
    destruct (text_start v (joined true (text <$> vs) +:+ String "]" r) Hv) as (c & s & -> & Hc & Hd & _). rewrite skipSpace_head by done.
    by rewrite bool_decide_eq_false_2 by done.
  - apply plain_object in Hp as [Hk Hp]. cbn [text] in *. change (λ m, memberText (fst m) (text (snd m))) with memberOf in *.
    rewrite !app_assoc_str. change ("{" +:+ ?x) with (String "{" x). cbn [parseValue].
    rewrite skipSpace_head by done. cbn match. rewrite !bool_decide_eq_false_2, bool_decide_eq_true_2 by done.
    change ("}" +:+ r) with (String "}" r). rewrite !length_app_str in Hn. cbn [String.length] in Hn.
    destruct ms as [|m ms]; [done|]. pose proof (parseMembers_text (m :: ms) n r ltac:(done) IH Hp ltac:(lia)) as ->.
    cbn [pmap pbind]. by rewrite objectOf_distinct.
Qed.

Lemma parse_text v : plain v → parse (text v) = Value v "".
Proof.
  intros Hv. unfold parse. rewrite <- (app_nil_str (text v)) at 2. rewrite parseValue_text; [done|done|done|lia].
Qed.

(** ** The parser ends *)

(** no turn is missing, and a value leaves less than it was given *)
Definition ends {A} (p : parsed A) (s : string) : Prop :=
  match p with Value _ r => (String.length r < String.length s)%nat | OutOfFuel => False | _ => True end.

Lemma ends_pmap {A B} (f : A → B) p s : ends p s → ends (pmap f p) s.
Proof. by destruct p. Qed.

Lemma ends_longer {A} (p : parsed A) s s' : ends p s → (String.length s <= String.length s')%nat → ends p s'.
Proof. destruct p; simpl; try done. lia. Qed.

Lemma ends_pbind {A B} (p : parsed A) (k : A → string → parsed B) s :
  ends p s → (∀ a r, (String.length r < String.length s)%nat → ends (k a r) s) → ends (pbind p k) s.
Proof. destruct p; simpl; auto. Qed.

Lemma skipSpace_shorter s : (String.length (skipSpace s) <= String.length s)%nat.
Proof. induction s as [|c s IH]; [done|]. simpl. case_match; simpl; lia. Qed.

Lemma parseChars_ends s : ends (parseChars s) s.
Proof.
  remember (String.length s) as n eqn:Hn. revert s Hn. induction (lt_wf n) as [n _ IH]. intros [|c s] ->; [done|]. cbn [parseChars].
  assert (Hrec : ∀ s' (f : string → string), (String.length s' <= String.length s)%nat → ends (pmap f (parseChars s')) (String c s)).
  { intros s' f Hs. eapply ends_longer; [apply ends_pmap, (IH (String.length s')); [simpl; lia|done]|simpl; lia]. }
  case_bool_decide; [simpl; lia|]. case_bool_decide; [|case_match; [done|by apply Hrec]].
  destruct s as [|e s]; [done|]. case_bool_decide; [|destruct (unescape e); [apply Hrec; simpl; lia|done]].
  destruct s as [|w [|x [|y [|z s]]]]; try done. destruct (hex4 w x y z) as [u|]; [|done]. destruct (u <? 256)%N; [apply Hrec; simpl; lia|].
  assert (Ht : ends (parseChars s) s) by (apply (IH (String.length s)); simpl; [lia|done]). by destruct (parseChars s).
Qed.

Lemma parseDigits_ends s : ends (parseDigits s) s.
Proof.
  destruct s as [|c s]; [done|]. unfold parseDigits. case_bool_decide; [case_match; [done|simpl; lia]|].
  destruct (span_digits (String c s)) as [d r] eqn:E. case_bool_decide as Hd; [done|]. case_match; [done|]. destruct (BigInt_of_digits d); [|done].
  apply span_digits_spec in E as [E _]. unfold ends. rewrite E, length_app_str. destruct d; [done|simpl; lia].
Qed.

Lemma parseNumber_ends s : ends (parseNumber s) s.
Proof.
  unfold parseNumber. apply ends_pbind; [|intros n r ?; by case_match]. destruct s as [|c s]; [done|].
  case_bool_decide; apply ends_pmap; [|apply parseDigits_ends]. eapply ends_longer; [apply parseDigits_ends|simpl; lia].
Qed.

Lemma length_substring n m s : (String.length (substring n m s) <= m)%nat.
Proof. revert n m. induction s as [|c s IH]; intros [|n] [|m]; simpl; try lia; [pose proof (IH 0 m)%nat; lia|pose proof (IH n 0)%nat; lia|apply IH]. Qed.

Lemma expect_ends {A} word s (a : A) : word ≠ "" → ends (expect word s a) s.
Proof.
  intros Hw. unfold expect. destruct (String.prefix word s) eqn:E; [|done]. simpl.
  pose proof (length_substring (String.length word) (String.length s - String.length word) s). destruct word; [done|]. destruct s; [done|]. simpl in *. lia.
Qed.

Lemma parse_ends n : ∀ s,
  ((2 * String.length s + 1 <= n)%nat → ends (parseValue n s) s) ∧
  ((2 * String.length s + 2 <= n)%nat → ends (parseElements n s) s ∧ ends (parseMembers n s) s).
Proof.
  induction n as [|n IH]; intros s; (split; [intros Hn|intros Hn; split]); try lia; cbn [parseValue parseElements parseMembers].
  - pose proof (skipSpace_shorter s) as Hsk. destruct (skipSpace s) as [|c t]; [done|]. simpl in Hsk.
    assert (Hlong : (String.length (String c t) <= String.length s)%nat) by done. pose proof (skipSpace_shorter t) as Hst.
    case_bool_decide; [apply ends_pmap; eapply ends_longer; [apply parseChars_ends|lia]|].
    case_bool_decide. { destruct (skipSpace t) as [|d r]; [done|]. simpl in Hst. case_bool_decide; [simpl; lia|]. apply ends_pmap.
      eapply ends_longer; [apply (IH t); lia|lia]. }
    case_bool_decide. { destruct (skipSpace t) as [|d r]; [done|]. simpl in Hst. case_bool_decide; [simpl; lia|]. apply ends_pmap.
      eapply ends_longer; [apply (IH t); lia|lia]. }
    case_bool_decide; [eapply ends_longer; [by apply expect_ends|done]|]. case_bool_decide; [eapply ends_longer; [by apply expect_ends|done]|].
    case_bool_decide; [eapply ends_longer; [by apply expect_ends|done]|]. eapply ends_longer; [apply parseNumber_ends|done].
  - apply ends_pbind; [apply (IH s); lia|]. intros v r Hr. pose proof (skipSpace_shorter r) as Hsk. destruct (skipSpace r) as [|d r']; [done|].
    simpl in Hsk. case_bool_decide; [|case_bool_decide; simpl; [lia|done]]. apply ends_pmap. eapply ends_longer; [apply (IH r'); lia|lia].
  - pose proof (skipSpace_shorter s) as Hsk. destruct (skipSpace s) as [|q t]; [done|]. simpl in Hsk. case_bool_decide; [|done].
    apply ends_pbind; [eapply ends_longer; [apply parseChars_ends|lia]|]. intros k r Hr. pose proof (skipSpace_shorter r) as Hsk'.
    destruct (skipSpace r) as [|d r']; [done|]. simpl in Hsk'. case_bool_decide; [|done].
    apply ends_pbind; [eapply ends_longer; [apply (IH r'); lia|lia]|]. intros v r2 Hr2. pose proof (skipSpace_shorter r2) as Hsk2.
    destruct (skipSpace r2) as [|e r3]; [done|]. simpl in Hsk2. case_bool_decide; [|case_bool_decide; simpl; [lia|done]].
    apply ends_pmap. eapply ends_longer; [apply (IH r3); lia|lia].
Qed.

Lemma parse_fuel s : parse s ≠ OutOfFuel.
Proof.
  unfold parse. pose proof (proj1 (parse_ends (2 * String.length s + 2) s) ltac:(lia)) as He.
  destruct (parseValue _ s); simpl in *; try done. by case_bool_decide.
Qed.

(** ** Round trip with JSON.stringify *)

(** what a text of [JSON.stringify] stands for *)
Fixpoint plainOf (v : Json) : Json :=
  match v with
  | JNaN | JInfinity => JNull
  | JArray vs => JArray ((λ e, elementValue (plainOf e)) <$> vs)
  | JObject ms => JObject (filter (λ m, isUndefined (snd m) = false) ((λ m, (fst m, plainOf (snd m))) <$> ms))
  | v => v
  end.
Fixpoint noBigInt (v : Json) : bool :=
  match v with
  | JBigInt _ => false
  | JArray vs => forallb noBigInt vs
  | JObject ms => forallb (λ m, noBigInt (snd m)) ms
  | _ => true
  end.

Lemma stringify_array vs : Forall (λ v, stringify v = Ok (if isUndefined (plainOf v) then None else Some (text (plainOf v)))) vs →
  elementTexts (stringify <$> vs) = Ok (text <$> ((λ e, elementValue (plainOf e)) <$> vs)).
Proof.
  induction 1 as [|v vs Hv _ IH]; [done|]. rewrite !fmap_cons. cbn [elementTexts]. rewrite Hv. cbn [result_bind]. rewrite IH. cbn [result_map].
  by destruct (plainOf v).
Qed.

Lemma stringify_object (ms : list (string * Json)) :
  Forall (λ m, stringify (snd m) = Ok (if isUndefined (plainOf (snd m)) then None else Some (text (plainOf (snd m))))) ms →
  memberTexts ((λ m, (fst m, stringify (snd m))) <$> ms) =
  Ok (memberOf <$> filter (λ m, isUndefined (snd m) = false) ((λ m, (fst m, plainOf (snd m))) <$> ms)).
Proof.
  induction 1 as [|[k v] ms Hv _ IH]; [done|]. rewrite !fmap_cons, filter_cons. cbn [memberTexts fst snd] in *. rewrite Hv. cbn [result_bind].
  destruct (isUndefined (plainOf v)); [by rewrite decide_False|]. rewrite decide_True by done. by rewrite IH.
Qed.

(** the text of a value without bigints, or [undefined] *)
Lemma stringify_text v : noBigInt v = true →
  stringify v = Ok (if isUndefined (plainOf v) then None else Some (text (plainOf v))).
Proof.
  induction v as [v Hv|vs IH|ms IH] using json_ind'; intros Hb.
  - by destruct v as [| |[]| | | | | | |].
  - cbn [noBigInt] in Hb. rewrite forallb_Forall in Hb. cbn [stringify]. rewrite stringify_array; [done|].
    rewrite Forall_forall in *. auto.
  - cbn [noBigInt] in Hb. rewrite forallb_Forall in Hb. cbn [stringify]. rewrite stringify_object; [done|].
    rewrite Forall_forall in *. auto.
Qed.

Lemma plainOf_normal v : normal v = true → plainOf v = v ∧ noBigInt v = true.
Proof.
  induction v as [v Hv|vs IH|ms IH] using json_ind'; intros Hn; [by destruct v|..]; cbn [normal plainOf noBigInt] in *; rewrite forallb_Forall in *.
  - assert (Hall : Forall (λ v, elementValue (plainOf v) = v ∧ noBigInt v = true) vs).
    { rewrite Forall_forall in *. intros v Hv. destruct (IH v Hv (Hn v Hv)) as [-> ->]. split; [|done]. pose proof (Hn v Hv). by destruct v. }
    split; [|by eapply Forall_impl; [exact Hall|intros ? []]]. f_equal. clear -Hall. induction Hall as [|v vs [Hv _] _ IH]; [done|]. rewrite fmap_cons. by rewrite Hv, IH.
  - assert (Hall : Forall (λ m, plainOf (snd m) = snd m ∧ isUndefined (snd m) = false ∧ noBigInt (snd m) = true) ms).
    { rewrite Forall_forall in *. intros m Hm. destruct (IH m Hm (Hn m Hm)) as [-> ->]. split_and!; try done. pose proof (Hn m Hm). by destruct (snd m). }
    split; [|by eapply Forall_impl; [exact Hall|intros ? (_ & _ & ?)]]. f_equal. clear -Hall. induction Hall as [|[k v] ms (Hv & Hu & _) _ IH]; [done|].
    rewrite fmap_cons, filter_cons. cbn [fst snd] in *. rewrite Hv, decide_True by done. by rewrite IH.
Qed.

Lemma stringify_plain v : plain v → stringify v = Ok (Some (text v)).
Proof.
  intros (Hn & _ & _). destruct (plainOf_normal v Hn) as [Hp Hb]. rewrite stringify_text, Hp by done. by destruct v.
Qed.

(** JSON round trip.  [JSON.parse] never runs out of turns; what [JSON.stringify] writes of a
    plain value (distinct keys, safe integers, no bigint or [undefined]) it reads back. *)
Lemma json_round_trip v : plain v → ∃ t, stringify v = Ok (Some t) ∧ parse t = Value v "".
Proof. intros Hv. exists (text v). split; [by apply stringify_plain|by apply parse_text]. Qed.
