(* ===== verification/Buffers.v ===== *)
(** Buffers: UTF-8 and base64url as Node's [Buffer] reads and writes them, which the session
    tokens and the secret store of the edge go through.

    A buffer is a list of bytes; a text is the list of its code points (no lone surrogates:
    none is written by the code).  Decoding follows the WHATWG rule Node uses: an ill-formed
    sequence gives U+FFFD for each maximal part of it, and nothing is refused.  Base64url
    decoding reads both alphabets and skips every other character. *)
From S2P Require Import Prelude Decimals Json.
From Stdlib Require Import Ascii String.

Definition isByte (b : Z) : Prop := 0 <= b < 256.
#[global] Instance isByte_dec b : Decision (isByte b) := _.

(** ** UTF-8 *)

(** a code point that is not a surrogate *)
Definition isScalar (c : Z) : Prop := 0 <= c < 0xD800 ∨ 0xE000 <= c < 0x110000.
#[global] Instance isScalar_dec c : Decision (isScalar c) := _.

(** the bytes of a code point *)
Definition utf8Char (c : Z) : list Z :=
  if c <? 0x80 then [c]
  else if c <? 0x800 then [0xC0 + c / 64; 0x80 + c mod 64]
  else if c <? 0x10000 then [0xE0 + c / 4096; 0x80 + c / 64 mod 64; 0x80 + c mod 64]
  else [0xF0 + c / 262144; 0x80 + c / 4096 mod 64; 0x80 + c / 64 mod 64; 0x80 + c mod 64].

(** [Buffer.from(s, 'utf8')] *)
Definition utf8Encode (cs : list Z) : list Z := cs ≫= utf8Char.

Definition REPLACEMENT : Z := 0xFFFD.
Definition between (lo hi b : Z) : bool := (lo <=? b) && (b <=? hi).

(** [buffer.toString('utf8')] *)
Fixpoint utf8Decode (bs : list Z) : list Z :=
  match bs with
  | [] => []
  | b :: r =>
      if b <? 0x80 then b :: utf8Decode r
      else if between 0xC2 0xDF b then
        match r with
        | c :: r1 => if between 0x80 0xBF c then (b - 0xC0) * 64 + (c - 0x80) :: utf8Decode r1
                     else REPLACEMENT :: utf8Decode r
        | [] => [REPLACEMENT]
        end
      else if between 0xE0 0xEF b then
        match r with
        | c :: r1 =>
            if between (if b =? 0xE0 then 0xA0 else 0x80) (if b =? 0xED then 0x9F else 0xBF) c then
              match r1 with
              | d :: r2 => if between 0x80 0xBF d then (b - 0xE0) * 4096 + (c - 0x80) * 64 + (d - 0x80) :: utf8Decode r2
                           else REPLACEMENT :: utf8Decode r1
              | [] => [REPLACEMENT]
              end
            else REPLACEMENT :: utf8Decode r
        | [] => [REPLACEMENT]
        end
      else if between 0xF0 0xF4 b then
        match r with
        | c :: r1 =>
            if between (if b =? 0xF0 then 0x90 else 0x80) (if b =? 0xF4 then 0x8F else 0xBF) c then
              match r1 with
              | d :: r2 =>
                  if between 0x80 0xBF d then
                    match r2 with
                    | e :: r3 =>
                        if between 0x80 0xBF e
                        then (b - 0xF0) * 262144 + (c - 0x80) * 4096 + (d - 0x80) * 64 + (e - 0x80) :: utf8Decode r3
                        else REPLACEMENT :: utf8Decode r2
                    | [] => [REPLACEMENT]
                    end
                  else REPLACEMENT :: utf8Decode r1
              | [] => [REPLACEMENT]
              end
            else REPLACEMENT :: utf8Decode r
        | [] => [REPLACEMENT]
        end
      else REPLACEMENT :: utf8Decode r
  end.

(** the code points of a string of code units below 256, and back *)
Definition codesOf (s : string) : list Z := (λ c, Z.of_N (N_of_ascii c)) <$> list_ascii_of_string s.
Definition stringOf (cs : list Z) : option string :=
  if forallb (λ c, (0 <=? c) && (c <? 256)) cs then Some (string_of_list_ascii ((λ c, ascii_of_N (Z.to_N c)) <$> cs)) else None.

(** [buffer.toString('hex')] *)
Fixpoint hex (bs : list Z) : string :=
  match bs with
  | [] => ""
  | b :: r => String (hex_digit (Z.to_N (b / 16))) (String (hex_digit (Z.to_N (b mod 16))) (hex r))
  end.

(** ** base64url *)

Definition sextet (n : Z) : ascii :=
  ascii_of_N (Z.to_N (if n <? 26 then 65 + n else if n <? 52 then 71 + n else if n <? 62 then n - 4
                      else if n =? 62 then 45 else 95)).

(** the value of a character of either alphabet *)
Definition unsextet (c : ascii) : option Z :=
  let n := Z.of_N (N_of_ascii c) in
  if between 65 90 n then Some (n - 65)
  else if between 97 122 n then Some (n - 71)
  else if between 48 57 n then Some (n + 4)
  else if (n =? 45) || (n =? 43) then Some 62
  else if (n =? 95) || (n =? 47) then Some 63 else None.

(** [buffer.toString('base64url')]: no padding *)
Fixpoint sextets (bs : list Z) : list Z :=
  match bs with
  | [] => []
  | [a] => [a / 4; a mod 4 * 16]
  | [a; b] => [a / 4; a mod 4 * 16 + b / 16; b mod 16 * 4]
  | a :: b :: c :: r => a / 4 :: a mod 4 * 16 + b / 16 :: b mod 16 * 4 + c / 64 :: c mod 64 :: sextets r
  end.
Definition base64url (bs : list Z) : string := string_of_list_ascii (sextet <$> sextets bs).

(** [Buffer.from(s, 'base64url')]; a single left-over character has no byte *)
Fixpoint fromSextets (ns : list Z) : list Z :=
  match ns with
  | a :: b :: c :: d :: r => a * 4 + b / 16 :: b mod 16 * 16 + c / 4 :: c mod 4 * 64 + d :: fromSextets r
  | [a; b; c] => [a * 4 + b / 16; b mod 16 * 16 + c / 4]
  | [a; b] => [a * 4 + b / 16]
  | _ => []
  end.
Definition fromBase64url (s : string) : list Z := fromSextets (omap unsextet (list_ascii_of_string s)).

Example utf8_1 : utf8Encode [0x41; 0xE9; 0x20AC; 0x1F600] = [0x41; 0xC3; 0xA9; 0xE2; 0x82; 0xAC; 0xF0; 0x9F; 0x98; 0x80].
Proof. reflexivity. Qed.
Example utf8_2 : utf8Decode [0x41; 0xF0; 0x9F; 0x41; 0xFF; 0xED; 0xA0; 0x80] = [0x41; REPLACEMENT; 0x41; REPLACEMENT; REPLACEMENT; REPLACEMENT; REPLACEMENT].
Proof. reflexivity. Qed.
Example base64_1 : base64url [0xFB; 0xFF; 0x41; 0x42] = "-_9BQg" ∧ fromBase64url "-_9BQg" = [0xFB; 0xFF; 0x41; 0x42].
Proof. split; vm_compute; reflexivity. Qed.

(** ** UTF-8 reads back *)

Lemma between_true lo hi b : between lo hi b = true ↔ lo <= b <= hi.
Proof. unfold between. rewrite andb_true_iff, !Z.leb_le. done. Qed.
Lemma between_false lo hi b : between lo hi b = false ↔ ¬ lo <= b <= hi.
Proof. rewrite <- between_true. by destruct (between lo hi b). Qed.

Lemma utf8Decode_char c r : isScalar c → utf8Decode (utf8Char c ++ r) = c :: utf8Decode r.
Proof.
  intros Hc. unfold isScalar in Hc. unfold utf8Char.
  assert (Hb : ∀ lo hi b, lo <= b <= hi → between lo hi b = true) by (intros; by apply between_true).
  assert (Hnb : ∀ lo hi b, ¬ lo <= b <= hi → between lo hi b = false) by (intros; by apply between_false).
  destruct (Z.ltb_spec c 0x80); [cbn [app utf8Decode]; by rewrite (proj2 (Z.ltb_lt _ _))|].
  destruct (Z.ltb_spec c 0x800).
  { cbn [app utf8Decode]. rewrite (proj2 (Z.ltb_ge _ _)), !Hb by (Z.div_mod_to_equations; lia). f_equal. Z.div_mod_to_equations; lia. }
  destruct (Z.ltb_spec c 0x10000).
  { cbn [app utf8Decode]. rewrite (proj2 (Z.ltb_ge _ _)) by (Z.div_mod_to_equations; lia).
    rewrite Hnb by (Z.div_mod_to_equations; lia). rewrite Hb by (Z.div_mod_to_equations; lia).
    rewrite Hb; [|repeat case_match; simpl_guards; Z.div_mod_to_equations; lia].
    rewrite Hb by (Z.div_mod_to_equations; lia). f_equal. Z.div_mod_to_equations; lia. }
  cbn [app utf8Decode]. rewrite (proj2 (Z.ltb_ge _ _)) by (Z.div_mod_to_equations; lia).
  rewrite !Hnb by (Z.div_mod_to_equations; lia). rewrite Hb by (Z.div_mod_to_equations; lia).
  rewrite Hb; [|repeat case_match; simpl_guards; Z.div_mod_to_equations; lia].
  rewrite !Hb by (Z.div_mod_to_equations; lia). f_equal. Z.div_mod_to_equations; lia.
Qed.

Lemma utf8Decode_encode cs : Forall isScalar cs → utf8Decode (utf8Encode cs) = cs.
Proof.
  induction 1 as [|c cs Hc _ IH]; [done|]. change (utf8Encode (c :: cs)) with (utf8Char c ++ utf8Encode cs).
  by rewrite utf8Decode_char, IH.
Qed.

Ltac bounds := unfold isScalar, isByte, REPLACEMENT in *; rewrite ?between_true, ?between_false in *; simpl_guards; lia.

Ltac bytes := repeat first [apply Forall_cons_2 | apply Forall_nil_2 | assumption].

(** what decoding gives has an encoding *)
Lemma utf8Decode_scalar bs : Forall isByte bs → Forall isScalar (utf8Decode bs).
Proof.
  remember (List.length bs) as n eqn:Hn. revert bs Hn. induction (lt_wf n) as [n _ IH]. intros bs -> Hbs.
  assert (Hrec : ∀ bs', (List.length bs' < List.length bs)%nat → Forall isByte bs' → Forall isScalar (utf8Decode bs')) by (intros; by eapply IH).
  clear IH. assert (HR : isScalar REPLACEMENT) by (by right).
  destruct Hbs as [|b r Hb Hr]; [constructor|]. cbn [utf8Decode].
  destruct (b <? 0x80) eqn:E1; [constructor; [bounds|apply Hrec; [simpl; lia|done]]|].
  destruct (between 0xC2 0xDF b) eqn:E2.
  { destruct Hr as [|c r Hc Hr]; [by bytes|]. destruct (between 0x80 0xBF c) eqn:E3;
      (constructor; [bounds || done|apply Hrec; [simpl; lia|by bytes]]). }
  destruct (between 0xE0 0xEF b) eqn:E3.
  { destruct Hr as [|c r Hc Hr]; [by bytes|].
    destruct (between _ _ c) eqn:E4; [|constructor; [done|apply Hrec; [simpl; lia|by bytes]]].
    destruct Hr as [|d r Hd Hr]; [by bytes|].
    destruct (between 0x80 0xBF d) eqn:E5; (constructor; [|apply Hrec; [simpl; lia|by bytes]]); [|done].
    repeat case_match; bounds. }
  destruct (between 0xF0 0xF4 b) eqn:E4; [|constructor; [done|apply Hrec; [simpl; lia|done]]].
  destruct Hr as [|c r Hc Hr]; [by bytes|].
  destruct (between _ _ c) eqn:E5; [|constructor; [done|apply Hrec; [simpl; lia|by bytes]]].
  destruct Hr as [|d r Hd Hr]; [by bytes|].
  destruct (between 0x80 0xBF d) eqn:E6; [|constructor; [done|apply Hrec; [simpl; lia|by bytes]]].
  destruct Hr as [|e r He Hr]; [by bytes|].
  destruct (between 0x80 0xBF e) eqn:E7; (constructor; [|apply Hrec; [simpl; lia|by bytes]]); [|done].
  repeat case_match; bounds.
Qed.

Definition validUtf8 (bs : list Z) : Prop := ∃ cs, Forall isScalar cs ∧ bs = utf8Encode cs.

(** decoding loses nothing exactly on well-formed UTF-8 *)
Lemma utf8_lossless bs : Forall isByte bs → utf8Encode (utf8Decode bs) = bs ↔ validUtf8 bs.
Proof.
  intros Hb. split.
  - intros H. exists (utf8Decode bs). split; [by apply utf8Decode_scalar|done].
  - intros (cs & Hcs & ->). by rewrite utf8Decode_encode.
Qed.

Lemma codesOf_scalar s : Forall isScalar (codesOf s).
Proof.
  apply Forall_fmap, Forall_forall. intros c _. unfold compose, isScalar. pose proof (N_ascii_bounded c). lia.
Qed.

Lemma stringOf_codesOf s : stringOf (codesOf s) = Some s.
Proof.
  unfold stringOf. assert (forallb (λ c, (0 <=? c) && (c <? 256)) (codesOf s) = true) as ->.
  { apply forallb_forall. intros x Hx. apply list_elem_of_In, list_elem_of_fmap in Hx as (c & -> & _).
    pose proof (N_ascii_bounded c). apply andb_true_iff. rewrite Z.leb_le, Z.ltb_lt. lia. }
  f_equal. unfold codesOf. rewrite <- list_fmap_compose. rewrite <- (string_of_list_ascii_of_string s) at 2. f_equal.
  induction (list_ascii_of_string s) as [|c l IH]; [done|]. rewrite fmap_cons, IH. unfold compose. by rewrite N2Z.id, ascii_N_embedding.
Qed.

Lemma utf8_string s : stringOf (utf8Decode (utf8Encode (codesOf s))) = Some s.
Proof. rewrite utf8Decode_encode by apply codesOf_scalar. apply stringOf_codesOf. Qed.

Lemma utf8Encode_bytes cs : Forall isScalar cs → Forall isByte (utf8Encode cs).
Proof.
  induction 1 as [|c cs Hc _ IH]; [constructor|]. change (utf8Encode (c :: cs)) with (utf8Char c ++ utf8Encode cs). apply Forall_app. split; [|done].
  unfold utf8Char. repeat case_match; simpl_guards; repeat constructor; unfold isScalar in *; Z.div_mod_to_equations; lia.
Qed.

(** ** base64url reads back *)

Lemma list_ascii_of_string_of l : list_ascii_of_string (string_of_list_ascii l) = l.
Proof. apply list_ascii_of_string_of_list_ascii. Qed.

Lemma sextet_code : forallb (λ n, bool_decide (unsextet (sextet n) = Some n) && negb (bool_decide (sextet n = "."%char))) (seqZ 0 64) = true.
Proof. vm_compute. reflexivity. Qed.

Lemma sextet_reads n : 0 <= n < 64 → unsextet (sextet n) = Some n ∧ sextet n ≠ "."%char.
Proof.
  intros Hn. pose proof sextet_code as H. rewrite forallb_forall in H. specialize (H n).
  assert (Hin : n ∈ seqZ 0 64) by (apply elem_of_seqZ; lia). apply list_elem_of_In in Hin. apply H in Hin. by simpl_guards.
Qed.

Lemma list_ind3 {A} (P : list A → Prop) : P [] → (∀ a, P [a]) → (∀ a b, P [a; b]) → (∀ a b c r, P r → P (a :: b :: c :: r)) → ∀ l, P l.
Proof.
  intros H0 H1 H2 H3. fix go 1. intros [|a [|b [|c r]]]; [apply H0|apply H1|apply H2|apply H3, go].
Qed.

Lemma sextets_spec bs : Forall isByte bs → Forall (λ n, 0 <= n < 64) (sextets bs) ∧ fromSextets (sextets bs) = bs.
Proof.
  unfold isByte. induction bs as [|a|a b|a b c r IH] using list_ind3; intros Hb.
  - by split.
  - inv Hb. split; cbn [sextets fromSextets]; [repeat constructor; Z.div_mod_to_equations; lia|]. repeat f_equal; Z.div_mod_to_equations; lia.
  - inv Hb. match goal with H : Forall _ [_] |- _ => inv H end. split; cbn [sextets fromSextets]; [repeat constructor; Z.div_mod_to_equations; lia|].
    f_equal; [Z.div_mod_to_equations; lia|]. f_equal; Z.div_mod_to_equations; lia.
  - apply Forall_cons in Hb as [Ha Hb]. apply Forall_cons in Hb as [Hb Hc]. apply Forall_cons in Hc as [Hc Hr]. destruct (IH Hr) as [IH1 IH2].
    split; cbn [sextets fromSextets]; [repeat constructor; try done; Z.div_mod_to_equations; lia|]. rewrite IH2.
    f_equal; [Z.div_mod_to_equations; lia|]. f_equal; [Z.div_mod_to_equations; lia|]. f_equal. Z.div_mod_to_equations; lia.
Qed.

Lemma base64url_round_trip bs : Forall isByte bs → fromBase64url (base64url bs) = bs.
Proof.
  intros Hb. destruct (sextets_spec bs Hb) as [Hs Hr]. unfold fromBase64url, base64url. rewrite list_ascii_of_string_of.
  rewrite <- Hr at 2. f_equal. clear Hr. induction Hs as [|n ns Hn _ IH]; [done|]. rewrite fmap_cons. cbn [omap list_omap].
  destruct (sextet_reads n Hn) as [-> _]. by f_equal.
Qed.

Fixpoint noDot (s : string) : bool :=
  match s with EmptyString => true | String c s' => negb (bool_decide (c = "."%char)) && noDot s' end.

Lemma base64url_noDot bs : Forall isByte bs → noDot (base64url bs) = true.
Proof.
  intros Hb. destruct (sextets_spec bs Hb) as [Hs _]. unfold base64url. induction Hs as [|n ns Hn _ IH]; [done|].
  rewrite fmap_cons. cbn [string_of_list_ascii noDot]. destruct (sextet_reads n Hn) as [_ Hd]. by rewrite bool_decide_eq_false_2, IH.
Qed.
