(* ===== verification/SecureStore.v ===== *)
(** The secret stores of the edge: packages/edge/src/enrollment/secure-store.ts.

    Electron's safeStorage is an argument: whether it can encrypt, the name of the keyring it
    chose, and its two functions, whose documented behaviour is that decryption undoes
    encryption ([SafeStorageLaws]).  The directory of the store is a map from key names to
    encrypted bytes; a write is atomic (a temporary file renamed), and faults of the file system
    are not modelled.  The pin store's file holds the list of records its JSON text stands for. *)
From S2P Require Import Prelude Buffers AuditTrail.
From Stdlib Require Import Ascii String.

(* enrollment types.ts:73-134 EnrollmentError *)
Inductive EnrollmentError :=
| EnrollmentFailure
| EnrollmentSecurityError
| EnrollmentContextMismatchError
| EnrollmentExpiredError
| EnrollmentAlreadyConsumedError
| StationPinStoreError
| EdgeSecureStoreError
| EdgeTlsKeyMissingOrCorruptedError
| ClockRollbackLockError
| EnrollmentJs (e : JsError)
| EnrollmentSqlite (constraint : string).
#[global] Instance EnrollmentError_eq_dec : EqDecision EnrollmentError.
Proof. solve_decision. Defined.

(** ** Backends *)

(** [electron.safeStorage]: a text is its code points, a ciphertext a buffer *)
Module SafeStorage.
Record t := mk {
  isEncryptionAvailable : bool;
  selectedStorageBackend : option string;
  encryptString : list Z → option (list Z);
  decryptString : list Z → option (list Z) }.
End SafeStorage.

Class SafeStorageLaws (S : SafeStorage.t) : Prop := {
  decrypt_encrypt : ∀ text blob, SafeStorage.encryptString S text = Some blob → SafeStorage.decryptString S blob = Some text }.

Module SecureStorageBackend.
(* secure-store.ts:23-28 SecureStorageBackend *)
Record t := mk {
  isAvailable : bool;
  getSelectedStorageBackend : string;
  encrypt : list Z → result EnrollmentError (list Z);
  decrypt : list Z → result EnrollmentError (list Z) }.
End SecureStorageBackend.

(* secure-store.ts:30-35 SECURE_LINUX_STORAGE_BACKENDS *)
Definition SECURE_LINUX_STORAGE_BACKENDS : list string := ["gnome_libsecret"; "kwallet"; "kwallet5"; "kwallet6"].

Section electron.
Context (safeStorage : option SafeStorage.t) (platform : string).

(** a [getSelectedStorageBackend] that throws or is missing is [None] *)
(* secure-store.ts:81-92 ElectronSafeStorageBackend.getSelectedStorageBackend *)
Definition selectedBackend : string :=
  match safeStorage with
  | None => "unavailable"
  | Some s =>
      match SafeStorage.selectedStorageBackend s with
      | Some backend => if bool_decide (backend = "") then "unavailable" else backend
      | None => if bool_decide (platform = "linux") then "unavailable" else "os_keyring"
      end
  end.

(* secure-store.ts:65-79 ElectronSafeStorageBackend.isAvailable *)
Definition backendAvailable : bool :=
  match safeStorage with
  | None => false
  | Some s =>
      SafeStorage.isEncryptionAvailable s &&
      (negb (bool_decide (platform = "linux")) || bool_decide (selectedBackend ∈ SECURE_LINUX_STORAGE_BACKENDS))
  end.

(** an exception of the keyring itself propagates *)
Definition keyring {A} (o : option A) : result EnrollmentError A :=
  match o with Some a => Ok a | None => Err (EnrollmentJs (PlainError "safeStorage")) end.

(** [encryptString(plaintext.toString('utf8'))] *)
(* secure-store.ts:94-110 ElectronSafeStorageBackend.encrypt *)
Definition electronEncrypt (plaintext : list Z) : result EnrollmentError (list Z) :=
  match safeStorage with
  | Some s => if backendAvailable then keyring (SafeStorage.encryptString s (utf8Decode plaintext)) else Err EdgeSecureStoreError
  | None => Err EdgeSecureStoreError
  end.

(* secure-store.ts:112-129 ElectronSafeStorageBackend.decrypt *)
Definition electronDecrypt (ciphertext : list Z) : result EnrollmentError (list Z) :=
  match safeStorage with
  | Some s => if backendAvailable then result_map utf8Encode (keyring (SafeStorage.decryptString s ciphertext)) else Err EdgeSecureStoreError
  | None => Err EdgeSecureStoreError
  end.

(* secure-store.ts:43-130 ElectronSafeStorageBackend *)
Definition ElectronSafeStorageBackend : SecureStorageBackend.t :=
  SecureStorageBackend.mk backendAvailable selectedBackend electronEncrypt electronDecrypt.
End electron.

(** ** EdgeSecureStore *)

Definition SecretFiles : Type := gmap string (list Z).
Abbreviation Secrets := (M SecretFiles EnrollmentError).

Section store.
Context (backend : SecureStorageBackend.t).

(* secure-store.ts:141-167 EdgeSecureStore.constructor *)
Definition openSecureStore : result EnrollmentError unit :=
  if negb (SecureStorageBackend.isAvailable backend) then Err EdgeSecureStoreError
  else if bool_decide (SecureStorageBackend.getSelectedStorageBackend backend = "basic_text") then Err EdgeSecureStoreError
  else Ok tt.

(* secure-store.ts:172-179 storeSecret *)
Definition storeSecret (keyName : string) (secretBytes : list Z) : Secrets unit :=
  encrypted ← lift (SecureStorageBackend.encrypt backend secretBytes);
  modify (<[keyName := encrypted]>).

(* secure-store.ts:185-202 loadSecret *)
Definition loadSecret (keyName : string) : Secrets (list Z) :=
  file ← gets (λ files : SecretFiles, files !! keyName);
  rawEncrypted ← require file EdgeTlsKeyMissingOrCorruptedError;
  lift (match SecureStorageBackend.decrypt backend rawEncrypted with
        | Ok b => Ok b
        | Err _ => Err EdgeTlsKeyMissingOrCorruptedError
        end).

(* secure-store.ts:207-210 hasSecret *)
Definition hasSecret (keyName : string) : Secrets bool := gets (λ files : SecretFiles, bool_decide (is_Some (files !! keyName))).

(* secure-store.ts:215-220 deleteSecret *)
Definition deleteSecret (keyName : string) : Secrets unit := modify (λ files : SecretFiles, delete keyName files).
End store.

(** what a store promises its clients: a secret is read back as it was stored *)
Class FaithfulBackend (backend : SecureStorageBackend.t) : Prop := {
  reads_back : ∀ secret blob, Forall isByte secret → SecureStorageBackend.encrypt backend secret = Ok blob →
    SecureStorageBackend.decrypt backend blob = Ok secret }.

(** ** StationPinStore *)

Module StationPinRecord.
(* enrollment types.ts:37-42 StationPinRecord *)
Record t := mk { branchId : string; edgeId : string; edgePublicKeyFingerprint : string; pinnedAt : Z }.
#[global] Instance eq_dec : EqDecision t.
Proof. solve_decision. Defined.
End StationPinRecord.

Module PinStore.
(** the map in memory, and the file *)
(* secure-store.ts:250-253 StationPinStore *)
Record t := mk { pins : gmap string StationPinRecord.t; file : option (gmap string StationPinRecord.t) }.
#[global] Instance eta_t : Eta t := λ s, mk (pins s) (file s).
End PinStore.

(** [s.toUpperCase()] on the characters of a fingerprint *)
Definition upperChar (c : ascii) : ascii :=
  let n := N_of_ascii c in if ((97 <=? n) && (n <=? 122))%N then ascii_of_N (n - 32) else c.
Definition toUpperCase (s : string) : string := mapString upperChar s.

(* secure-store.ts:324-326 getCompositeKey *)
Definition getCompositeKey (branchId edgeId : string) : string := branchId +:+ ":" +:+ edgeId.

(** opening the store reads the file *)
(* secure-store.ts:328-345 loadFromFile *)
Definition loadFromFile (file : option (gmap string StationPinRecord.t)) : PinStore.t := PinStore.mk (default ∅ file) file.

(** [saves]: whether the encryption and the write succeed *)
(* secure-store.ts:347-367 saveToFile *)
Definition saveToFile (saves : bool) : M PinStore.t EnrollmentError unit :=
  throw_when (negb saves) StationPinStoreError ;;
  modify (λ s, s <| PinStore.file := Some (PinStore.pins s) |>).

(* secure-store.ts:369-372 setInitialPin *)
Definition setInitialPin (saves : bool) (r : StationPinRecord.t) : M PinStore.t EnrollmentError unit :=
  modify (λ s, s <| PinStore.pins ::= <[getCompositeKey (StationPinRecord.branchId r) (StationPinRecord.edgeId r) := r]> |>) ;;
  saveToFile saves.

(* secure-store.ts:386-401 verifyOrPin *)
Definition verifyOrPin (saves : bool) (now : Z) (branchId edgeId candidateFingerprint : string) : M PinStore.t EnrollmentError bool :=
  existing ← gets (λ s, PinStore.pins s !! getCompositeKey branchId edgeId);
  match existing with
  | Some pin => mret (bool_decide (toUpperCase (StationPinRecord.edgePublicKeyFingerprint pin) = toUpperCase candidateFingerprint))
  | None =>
      setInitialPin saves (StationPinRecord.mk branchId edgeId (toUpperCase candidateFingerprint) now) ;;
      mret true
  end.
