(* ===== verification/TrustedTime.v ===== *)
(** Trusted time of the edge: packages/edge/src/enrollment/trusted-time.ts.

    Time is the cloud's last authenticated time plus what the monotonic clock has counted since;
    the cloud's time is persisted in an anchor row under an HMAC, and a clock that went back more
    than five minutes locks the process.  HMAC-SHA256 is an argument; the wall clock (in seconds),
    the monotonic clock (in nanoseconds) and random keys are drawn values of the operations.
    The rollback callback only reports and is not modelled. *)
From S2P Require Import Prelude Decimals Json Buffers SecureStore.
From Stdlib Require Import Ascii String.

Module AnchorRow.
(** the row [id = 1] *)
(* trusted-time.ts:62-73 trusted_time_anchors *)
Record t := mk {
  last_known_cloud_time : Z; local_wall_time_at_last_cloud_sync : Z; anchor_version : Z; updated_at : Z;
  integrity_tag : string }.
#[global] Instance eq_dec : EqDecision t.
Proof. solve_decision. Defined.
End AnchorRow.

Module TimeManager.
(** the fields of the running manager, the anchor table and the directory of secrets *)
(* trusted-time.ts:40-52 TrustedTimeManager *)
Record t := mk {
  tCloud : option Z; m0 : option Z; isLocked : bool;
  anchor : option AnchorRow.t; secrets : SecretFiles }.
#[global] Instance eta_t : Eta t := λ s, mk (tCloud s) (m0 s) (isLocked s) (anchor s) (secrets s).
End TimeManager.

Abbreviation Timed := (M TimeManager.t EnrollmentError).

Definition ANCHOR_KEY : string := "trusted_time_anchor_hmac_key".
Definition NANOSECONDS : Z := 1000000000.

(** an operation of the secret store *)
Definition onSecrets {A} (m : Secrets A) : Timed A := λ s,
  let '(files, r) := m (TimeManager.secrets s) in (s <| TimeManager.secrets := files |>, r).

(* trusted-time.ts:194-214 triggerRollbackLock *)
Definition triggerRollbackLock : Timed unit := modify (λ s, s <| TimeManager.isLocked := true |>).

(* trusted-time.ts:297-313 getTrustedEffectiveTime *)
Definition getTrustedEffectiveTime (hrtime : Z) (s : TimeManager.t) : result EnrollmentError Z :=
  if TimeManager.isLocked s then Err ClockRollbackLockError
  else match TimeManager.tCloud s, TimeManager.m0 s with
       | Some tCloud, Some m0 =>
           let elapsedNanoseconds := hrtime - m0 in
           Ok (tCloud + Z.quot elapsedNanoseconds NANOSECONDS)
       | _, _ => Err ClockRollbackLockError
       end.

Section time.
Context (backend : SecureStorageBackend.t) (hmac : list Z → string → list Z).

(** the text the tag authenticates, [id] being 1 *)
(* trusted-time.ts:23-38 computeAnchorIntegrityTag *)
Definition computeAnchorIntegrityTag (key : list Z) (lastKnownCloudTime localWall version updatedAt : Z) : string :=
  hex (hmac key ("TRIDENTPOS:TIME_ANCHOR:v1:1:" +:+ Z_toString lastKnownCloudTime +:+ ":" +:+ Z_toString localWall +:+ ":" +:+
    Z_toString version +:+ ":" +:+ Z_toString updatedAt)).

Definition anchorTag (key : list Z) (row : AnchorRow.t) : string :=
  computeAnchorIntegrityTag key (AnchorRow.last_known_cloud_time row) (AnchorRow.local_wall_time_at_last_cloud_sync row)
    (AnchorRow.anchor_version row) (AnchorRow.updated_at row).

(** [timingSafeEqual] throws on buffers of different lengths *)
Definition timingSafeEqual (a b : list Z) : result JsError bool :=
  if (List.length a =? List.length b)%nat then Ok (bool_decide (a = b))
  else Err (RangeError "Input buffers must have the same byte length").
Definition jsTimed {A} (r : result JsError A) : Timed A :=
  lift (match r with Ok a => Ok a | Err e => Err (EnrollmentJs e) end).

(** the key is there and has been read: tag, then threshold *)
(* trusted-time.ts:130-191 loadPersistedAnchor, integrity and threshold *)
Definition verifyAnchor (integrityKey : list Z) (row : AnchorRow.t) (currentWallTime hrtime : Z) : Timed unit :=
  if negb (List.length integrityKey =? 32)%nat then triggerRollbackLock
  else
    let expectedTag := anchorTag integrityKey row in
    let tag := AnchorRow.integrity_tag row in
    if bool_decide (tag = "") || negb (String.length tag =? String.length expectedTag)%nat then triggerRollbackLock
    else
      tagMatches ← jsTimed (timingSafeEqual (utf8Encode (codesOf tag)) (utf8Encode (codesOf expectedTag)));
      if negb tagMatches then triggerRollbackLock
      else if currentWallTime <? AnchorRow.last_known_cloud_time row - 300 then triggerRollbackLock
      else modify (λ s, s <| TimeManager.tCloud := Some (Z.max (AnchorRow.last_known_cloud_time row) currentWallTime) |>
                          <| TimeManager.m0 := Some hrtime |>).

(* trusted-time.ts:75-192 loadPersistedAnchor *)
Definition loadPersistedAnchor (currentWallTime hrtime : Z) : Timed unit :=
  hasKey ← onSecrets (hasSecret ANCHOR_KEY);
  row ← gets TimeManager.anchor;
  match row with
  | None => if (hasKey : bool) then triggerRollbackLock else mret tt
  | Some row =>
      if negb hasKey then triggerRollbackLock
      else λ s,
        match onSecrets (loadSecret backend ANCHOR_KEY) s with
        | (s', Err _) => triggerRollbackLock s'
        | (s', Ok integrityKey) => verifyAnchor integrityKey row currentWallTime hrtime s'
        end
  end.

(** a process that starts: the fields are fresh, the table and the secrets are what is on disk *)
(* trusted-time.ts:54-60 constructor *)
Definition startManager (anchor : option AnchorRow.t) (secrets : SecretFiles) (currentWallTime hrtime : Z) :
    TimeManager.t * result EnrollmentError unit :=
  loadPersistedAnchor currentWallTime hrtime (TimeManager.mk None None false anchor secrets).

(** [newKey] is [crypto.randomBytes(32)], drawn when there is no key yet *)
(* trusted-time.ts:220-284 syncCloudTime *)
Definition syncCloudTime (tCloudSeconds currentWallTime hrtime : Z) (newKey : list Z) : Timed unit :=
  locked ← gets TimeManager.isLocked;
  throw_when locked ClockRollbackLockError ;;
  known ← gets TimeManager.tCloud;
  match known with
  | Some _ =>
      effective ← gets (getTrustedEffectiveTime hrtime);
      currentEffective ← lift effective;
      if tCloudSeconds <? currentEffective - 300 then triggerRollbackLock ;; mthrow ClockRollbackLockError else mret tt
  | None => mret tt
  end ;;
  hasKey ← onSecrets (hasSecret ANCHOR_KEY);
  (if (hasKey : bool) then mret tt else onSecrets (storeSecret backend ANCHOR_KEY newKey)) ;;
  integrityKey ← onSecrets (loadSecret backend ANCHOR_KEY);
  modify (λ s, s <| TimeManager.tCloud := Some tCloudSeconds |> <| TimeManager.m0 := Some hrtime |>
                 <| TimeManager.isLocked := false |>) ;;
  existing ← gets TimeManager.anchor;
  let nextVersion := default 0 (AnchorRow.anchor_version <$> existing) + 1 in
  let tag := computeAnchorIntegrityTag integrityKey tCloudSeconds currentWallTime nextVersion currentWallTime in
  modify (λ s, s <| TimeManager.anchor := Some (AnchorRow.mk tCloudSeconds currentWallTime nextVersion currentWallTime tag) |>).
End time.
