(* ===== verification/EdgeSecurity.v ===== *)
(** The security tables of the edge and what writes them: packages/edge/src/db/
    enrollment-persistence.ts and iam-persistence.ts, with the hashing and redaction of
    enrollment/crypto.ts.

    The tables are in the edge's SQLite file beside those of EdgeDb.v, which they do not touch.
    Both persistence classes are synchronous and open a transaction only when none is open, so an
    operation is one step on the tables ([inTransaction]).  SHA-256 is an argument ([digest], its
    result the hexadecimal text); identifiers and times are drawn by the callers.  The fault
    injection flags are for tests and stay off. *)
From S2P Require Import Prelude Decimals Json JsonText AuditTrail SecureStore.
From Stdlib Require Import Ascii String.

(** ** Rows *)

Module EnrollmentTokenRow.
(* enrollment-persistence.ts:27-36 EnrollmentTokenRow *)
Record t := mk {
  organization_id : string; branch_id : string; edge_id : string; secret_hash : string;
  expires_at : Z; consumed_at : option Z; created_at : Z }.
#[global] Instance eta_t : Eta t := λ r,
  mk (organization_id r) (branch_id r) (edge_id r) (secret_hash r) (expires_at r) (consumed_at r) (created_at r).
#[global] Instance eq_dec : EqDecision t.
Proof. solve_decision. Defined.
End EnrollmentTokenRow.

Module StationCredentialRow.
(* enrollment-persistence.ts:38-48 StationCredentialRow *)
Record t := mk {
  organization_id : string; branch_id : string; station_code : string; station_type : string;
  station_public_key : string; enrolled_at : Z; is_revoked : bool; revoked_at : option Z }.
#[global] Instance eta_t : Eta t := λ r,
  mk (organization_id r) (branch_id r) (station_code r) (station_type r) (station_public_key r)
     (enrolled_at r) (is_revoked r) (revoked_at r).
#[global] Instance eq_dec : EqDecision t.
Proof. solve_decision. Defined.
End StationCredentialRow.

(* enrollment types.ts:51-51 EdgeSecurityAuditRecord.severity *)
Inductive Severity := INFO | WARN | ERROR | CRITICAL.
#[global] Instance Severity_eq_dec : EqDecision Severity.
Proof. solve_decision. Defined.
Definition severityText (s : Severity) : string :=
  match s with INFO => "INFO" | WARN => "WARN" | ERROR => "ERROR" | CRITICAL => "CRITICAL" end.

Module SecurityAudit.
(* enrollment types.ts:44-58 EdgeSecurityAuditRecord *)
Record t := mk {
  eventId : string; organizationId : string; branchId : string; edgeId : string; stationId : option string;
  eventType : string; severity : Severity; action : string; sequenceNumber : Z; previousRecordHash : string;
  recordHash : string; metadataJson : string; createdAt : Z }.
#[global] Instance eq_dec : EqDecision t.
Proof. solve_decision. Defined.
End SecurityAudit.

Module SecurityEvent.
(* iam-persistence.ts:552-563 appendAuditEvent.auditInput *)
Record t := mk {
  eventId : string; organizationId : string; branchId : string; edgeId : string; stationId : option string;
  eventType : string; severity : Severity; action : string; metadata : Json; createdAt : Z }.
End SecurityEvent.

Module CachedUser.
(* iam types.ts:6-16 CachedUserRecord *)
Record t := mk {
  organizationId : string; fullName : string; pinHash : string; rolesJson : string; credentialVersion : Z;
  issuedAt : string; expiresAt : string; isRevoked : bool }.
#[global] Instance eta_t : Eta t := λ r,
  mk (organizationId r) (fullName r) (pinHash r) (rolesJson r) (credentialVersion r) (issuedAt r) (expiresAt r) (isRevoked r).
#[global] Instance eq_dec : EqDecision t.
Proof. solve_decision. Defined.
End CachedUser.

Module StationSession.
(* iam types.ts:30-44 StationSessionRecord *)
Record t := mk {
  sessionId : string; sessionTokenHash : string; stationId : string; userId : string; organizationId : string;
  branchId : string; rolesJson : string; activeRole : string; issuedAt : Z; expiresAt : Z; isRevoked : bool;
  revokedAt : option Z; createdAt : Z }.
#[global] Instance eta_t : Eta t := λ r,
  mk (sessionId r) (sessionTokenHash r) (stationId r) (userId r) (organizationId r) (branchId r) (rolesJson r)
     (activeRole r) (issuedAt r) (expiresAt r) (isRevoked r) (revokedAt r) (createdAt r).
#[global] Instance eq_dec : EqDecision t.
Proof. solve_decision. Defined.
End StationSession.

Module LockoutState.
(* iam types.ts:46-52 StationLockoutStateRecord *)
Record t := mk { consecutiveFailures : Z; lockedUntil : option Z; lastFailedAt : option Z; updatedAt : Z }.
#[global] Instance eta_t : Eta t := λ r, mk (consecutiveFailures r) (lockedUntil r) (lastFailedAt r) (updatedAt r).
#[global] Instance eq_dec : EqDecision t.
Proof. solve_decision. Defined.
End LockoutState.

Module SecurityDb.
(* iam-persistence.ts:59-110 initializeSchema *)
Record t := mk {
  enrollment_tokens : gmap string EnrollmentTokenRow.t;
  station_credentials : gmap string StationCredentialRow.t;
  edge_security_audit : list SecurityAudit.t;
  cached_users : gmap string CachedUser.t;
  station_sessions : list StationSession.t;
  station_lockout_state : gmap string LockoutState.t }.
#[global] Instance eta_t : Eta t := λ d,
  mk (enrollment_tokens d) (station_credentials d) (edge_security_audit d) (cached_users d) (station_sessions d)
     (station_lockout_state d).
Definition empty : t := mk ∅ ∅ [] ∅ [] ∅.
End SecurityDb.

Abbreviation Sec := (M SecurityDb.t EnrollmentError).
Definition secJs {A} (r : result JsError A) : Sec A :=
  lift (match r with Ok a => Ok a | Err e => Err (EnrollmentJs e) end).

(** BEGIN; fn; COMMIT or ROLLBACK on a connection with no transaction open *)
(* edge-database.ts:259-316 runInTransaction *)
Definition inTransaction {E A} (fn : M SecurityDb.t E A) : M SecurityDb.t E A := λ s,
  match fn s with (s', Ok a) => (s', Ok a) | (_, Err e) => (s, Err e) end.

(** ** Hashing and redaction *)

Module EdgeCrypto.
Definition isLower (c : ascii) : bool := let n := N_of_ascii c in ((97 <=? n) && (n <=? 122))%N.

(* enrollment crypto.ts:400-410 sensitiveKeys *)
Definition sensitiveKeys : list string :=
  ["pairingsecret"; "privatekey"; "stationtoken"; "keypem"; "secret"; "password"; "pin"; "hmackey"; "secrethash"].

(* enrollment crypto.ts:416-423 isSensitive *)
Definition isSensitive (k : string) : bool :=
  let norm := filterString isLower (mapString lowerChar k) in
  bool_decide (norm ∈ sensitiveKeys) ||
  existsb (λ suffix, endsWith suffix norm) ["pin"; "secret"; "token"; "password"; "key"].

(** assigning [__proto__] makes no member *)
(* enrollment crypto.ts:391-435 redactSensitiveData *)
Fixpoint redactSensitiveData (input : Json) : Json :=
  match input with
  | JArray items => JArray (redactSensitiveData <$> items)
  | JObject entries =>
      JObject (filter (λ m, fst m ≠ "__proto__")
        ((λ m, (fst m, if isSensitive (fst m) then JString "[REDACTED]" else redactSensitiveData (snd m))) <$> entries))
  | _ => input
  end.

Section hash.
Context (digest : string → string).

(* enrollment crypto.ts:383-386 computeCanonicalRecordHash *)
Definition computeCanonicalRecordHash (payload : Json) : result JsError string :=
  match canonicalize payload with
  | Some (Ok (Some text)) => Ok (digest text)
  | Some (Err e) => Err e
  | _ => Err (TypeError "The data argument must be of type string")
  end.
End hash.
End EdgeCrypto.

(** ** The audit chain *)

(** [JSON.stringify(v)] bound to a TEXT column: [undefined] cannot be bound *)
Definition jsonColumn (v : Json) : Sec string :=
  text ← secJs (stringify v);
  require text (EnrollmentJs (TypeError "SQLite3 can only bind numbers, strings, bigints, buffers, and null")).

(* iam-persistence.ts:616-629 canonicalPayload *)
Definition canonicalPayload (input : SecurityEvent.t) (metadata : Json) (sequenceNumber : Z) (previousRecordHash : string) : Json :=
  JObject
    [("action", JString (SecurityEvent.action input));
     ("branch_id", JString (SecurityEvent.branchId input));
     ("created_at", JNumber (SecurityEvent.createdAt input));
     ("edge_id", JString (SecurityEvent.edgeId input));
     ("event_id", JString (SecurityEvent.eventId input));
     ("event_type", JString (SecurityEvent.eventType input));
     ("metadata", metadata);
     ("organization_id", JString (SecurityEvent.organizationId input));
     ("previous_record_hash", JString previousRecordHash);
     ("sequence_number", JNumber sequenceNumber);
     ("severity", JString (severityText (SecurityEvent.severity input)));
     ("station_id", jsonOption (SecurityEvent.stationId input))].

Definition inChain (org branch edge : string) (r : SecurityAudit.t) : Prop :=
  SecurityAudit.organizationId r = org ∧ SecurityAudit.branchId r = branch ∧ SecurityAudit.edgeId r = edge.
#[global] Instance inChain_dec org branch edge r : Decision (inChain org branch edge r).
Proof. unfold inChain. solve_decision. Defined.

(** [COALESCE(MAX(sequence_number), 0) + 1] *)
Definition nextSequence (rows : list SecurityAudit.t) : Z := foldr (λ r m, Z.max (SecurityAudit.sequenceNumber r) m) 0 rows + 1.

Section audit.
Context (digest : string → string).

(* iam-persistence.ts:572-674 appendAuditEventInternal *)
Definition appendAuditEventInternal (auditInput : SecurityEvent.t) : Sec SecurityAudit.t :=
  let org := SecurityEvent.organizationId auditInput in
  let branch := SecurityEvent.branchId auditInput in
  let edge := SecurityEvent.edgeId auditInput in
  chain ← gets (λ d, filter (inChain org branch edge) (SecurityDb.edge_security_audit d));
  let sequenceNumber := nextSequence chain in
  let previousRecordHash :=
    match orderByDesc SecurityAudit.sequenceNumber chain with r :: _ => SecurityAudit.recordHash r | [] => GENESIS_PREVIOUS_RECORD_HASH end in
  let sanitizedMeta := EdgeCrypto.redactSensitiveData (SecurityEvent.metadata auditInput) in
  metadataJson ← jsonColumn sanitizedMeta;
  recordHash ← secJs (EdgeCrypto.computeCanonicalRecordHash digest (canonicalPayload auditInput sanitizedMeta sequenceNumber previousRecordHash));
  let row := SecurityAudit.mk (SecurityEvent.eventId auditInput) org branch edge (SecurityEvent.stationId auditInput)
    (SecurityEvent.eventType auditInput) (SecurityEvent.severity auditInput) (SecurityEvent.action auditInput)
    sequenceNumber previousRecordHash recordHash metadataJson (SecurityEvent.createdAt auditInput) in
  rows ← gets SecurityDb.edge_security_audit;
  throw_when (bool_decide (SecurityEvent.eventId auditInput ∈ (SecurityAudit.eventId <$> rows))) (EnrollmentSqlite "edge_security_audit.event_id") ;;
  throw_when (bool_decide (sequenceNumber ∈ (SecurityAudit.sequenceNumber <$> chain))) (EnrollmentSqlite "uq_edge_security_audit_seq") ;;
  throw_when (bool_decide ((org, recordHash) ∈ ((λ r, (SecurityAudit.organizationId r, SecurityAudit.recordHash r)) <$> rows)))
    (EnrollmentSqlite "uq_edge_security_audit_hash") ;;
  modify (λ d, d <| SecurityDb.edge_security_audit ::= (λ l, l ++ [row]) |>) ;;
  mret row.

(* iam-persistence.ts:552-570 appendAuditEvent *)
Definition appendAuditEvent (auditInput : SecurityEvent.t) : Sec SecurityAudit.t :=
  inTransaction (appendAuditEventInternal auditInput).
End audit.

(** ** Enrolment *)

Module PairingToken.
(* enrollment-persistence.ts:140-148 savePairingToken.token *)
Record t := mk {
  pairingId : string; organizationId : string; branchId : string; edgeId : string; secretHash : string;
  expiresAt : Z; createdAt : Z }.
End PairingToken.

Module StationEnrollmentRequest.
(* enrollment types.ts:16-26 StationEnrollmentRequest *)
Record t := mk {
  pairingId : string; pairingSecret : string; stationPublicKey : string; stationId : string; stationCode : string;
  stationType : string; organizationId : string; branchId : string; edgeId : string }.
End StationEnrollmentRequest.

Module EnrollmentPersistence.
(** the same statements as in iam-persistence.ts *)
(* enrollment-persistence.ts:204-306 appendAuditEventInternal *)
Definition appendAuditEventInternal := EdgeSecurity.appendAuditEventInternal.
(* enrollment-persistence.ts:187-202 appendAuditEvent *)
Definition appendAuditEvent (digest : string → string) (auditInput : SecurityEvent.t) : Sec SecurityAudit.t :=
  inTransaction (appendAuditEventInternal digest auditInput).

(* enrollment-persistence.ts:140-162 savePairingToken *)
Definition savePairingToken (token : PairingToken.t) : Sec unit :=
  tokens ← gets SecurityDb.enrollment_tokens;
  throw_when (bool_decide (is_Some (tokens !! PairingToken.pairingId token))) (EnrollmentSqlite "enrollment_tokens.pairing_id") ;;
  modify (λ d, d <| SecurityDb.enrollment_tokens ::= <[PairingToken.pairingId token :=
    EnrollmentTokenRow.mk (PairingToken.organizationId token) (PairingToken.branchId token) (PairingToken.edgeId token)
      (PairingToken.secretHash token) (PairingToken.expiresAt token) None (PairingToken.createdAt token)]> |>).

(* enrollment-persistence.ts:167-172 getPairingToken *)
Definition getPairingToken (pairingId : string) : Sec (option EnrollmentTokenRow.t) :=
  gets (λ d, SecurityDb.enrollment_tokens d !! pairingId).

(* enrollment-persistence.ts:177-182 getStationCredentials *)
Definition getStationCredentials (stationId : string) : Sec (option StationCredentialRow.t) :=
  gets (λ d, SecurityDb.station_credentials d !! stationId).

(** INSERT INTO station_credentials: its primary key and uq_station_credentials_tenant_branch_code *)
(* enrollment-persistence.ts:400-418 executeAtomicEnrollment, INSERT *)
Definition insertCredential (stationId : string) (row : StationCredentialRow.t) : Sec unit :=
  stations ← gets SecurityDb.station_credentials;
  throw_when (bool_decide (is_Some (stations !! stationId))) (EnrollmentSqlite "station_credentials.station_id") ;;
  throw_when (bool_decide (filter (λ x : string * StationCredentialRow.t,
      StationCredentialRow.organization_id (snd x) = StationCredentialRow.organization_id row ∧
      StationCredentialRow.branch_id (snd x) = StationCredentialRow.branch_id row ∧
      StationCredentialRow.station_code (snd x) = StationCredentialRow.station_code row) (map_to_list stations) ≠ []))
    (EnrollmentSqlite "uq_station_credentials_tenant_branch_code") ;;
  modify (λ d, d <| SecurityDb.station_credentials ::= <[stationId := row]> |>).

(** UPDATE enrollment_tokens SET consumed_at = ? WHERE pairing_id = ? AND consumed_at IS NULL, with
    chk_enrollment_tokens_consumed; the result is whether a row changed *)
(* enrollment-persistence.ts:380-391 executeAtomicEnrollment, CAS *)
Definition consumeToken (pairingId : string) (now : Z) : Sec bool :=
  tokens ← gets SecurityDb.enrollment_tokens;
  match tokens !! pairingId with
  | Some row =>
      match EnrollmentTokenRow.consumed_at row with
      | None =>
          throw_when (now <? EnrollmentTokenRow.created_at row) (EnrollmentSqlite "chk_enrollment_tokens_consumed") ;;
          modify (λ d, d <| SecurityDb.enrollment_tokens ::= <[pairingId := row <| EnrollmentTokenRow.consumed_at := Some now |>]> |>) ;;
          mret true
      | Some _ => mret false
      end
  | None => mret false
  end.

(* enrollment-persistence.ts:324-462 executeAtomicEnrollment *)
Definition executeAtomicEnrollment (digest : string → string) (request : StationEnrollmentRequest.t) (trustedEffectiveTime : Z)
    (auditEventId : string) : Sec (StationCredentialRow.t * SecurityAudit.t) :=
  let now := trustedEffectiveTime in
  inTransaction (
    found ← gets (λ d, SecurityDb.enrollment_tokens d !! StationEnrollmentRequest.pairingId request);
    token ← require found EnrollmentSecurityError;
    throw_when (negb (bool_decide (EnrollmentTokenRow.organization_id token = StationEnrollmentRequest.organizationId request))) EnrollmentContextMismatchError ;;
    throw_when (negb (bool_decide (EnrollmentTokenRow.branch_id token = StationEnrollmentRequest.branchId request))) EnrollmentContextMismatchError ;;
    throw_when (negb (bool_decide (EnrollmentTokenRow.edge_id token = StationEnrollmentRequest.edgeId request))) EnrollmentContextMismatchError ;;
    throw_when (EnrollmentTokenRow.expires_at token <? now) EnrollmentExpiredError ;;
    throw_when (bool_decide (is_Some (EnrollmentTokenRow.consumed_at token))) EnrollmentAlreadyConsumedError ;;
    throw_when (negb (bool_decide (EnrollmentTokenRow.secret_hash token = digest (StationEnrollmentRequest.pairingSecret request)))) EnrollmentSecurityError ;;
    consumed ← consumeToken (StationEnrollmentRequest.pairingId request) now;
    throw_when (negb consumed) EnrollmentAlreadyConsumedError ;;
    let row := StationCredentialRow.mk (StationEnrollmentRequest.organizationId request) (StationEnrollmentRequest.branchId request)
      (StationEnrollmentRequest.stationCode request) (StationEnrollmentRequest.stationType request)
      (StationEnrollmentRequest.stationPublicKey request) now false None in
    insertCredential (StationEnrollmentRequest.stationId request) row ;;
    auditRecord ← appendAuditEventInternal digest (SecurityEvent.mk auditEventId (StationEnrollmentRequest.organizationId request)
      (StationEnrollmentRequest.branchId request) (StationEnrollmentRequest.edgeId request) (Some (StationEnrollmentRequest.stationId request))
      "TerminalEnrolada" INFO "ENROLLMENT_SUCCESS"
      (JObject [("pairingId", JString (StationEnrollmentRequest.pairingId request));
                ("stationCode", JString (StationEnrollmentRequest.stationCode request));
                ("stationType", JString (StationEnrollmentRequest.stationType request))]) now);
    mret (row, auditRecord)).
End EnrollmentPersistence.

(** ** Identities, sessions and lockouts *)

Module CachedUserInput.
(* iam types.ts:18-28 CachedUserInput *)
Record t := mk {
  userId : string; organizationId : string; fullName : string; pinHash : string; roles : list string;
  credentialVersion : Z; issuedAt : string + Z; expiresAt : string + Z; isRevoked : option Z }.
End CachedUserInput.

(** [String(x)] *)
Definition textOf (x : string + Z) : string := match x with inl s => s | inr n => Z_toString n end.

Module IamPersistence.
(* iam-persistence.ts:116-149 upsertCachedUser *)
Definition upsertCachedUser (input : CachedUserInput.t) : Sec unit :=
  rolesJson ← jsonColumn (JArray (JString <$> CachedUserInput.roles input));
  let isRevoked := default 0 (CachedUserInput.isRevoked input) in
  throw_when (negb (bool_decide (isRevoked ∈ [0; 1]))) (EnrollmentSqlite "chk_cached_users_revoked") ;;
  modify (λ d, d <| SecurityDb.cached_users ::= <[CachedUserInput.userId input :=
    CachedUser.mk (CachedUserInput.organizationId input) (CachedUserInput.fullName input) (CachedUserInput.pinHash input) rolesJson
      (CachedUserInput.credentialVersion input) (textOf (CachedUserInput.issuedAt input)) (textOf (CachedUserInput.expiresAt input))
      (isRevoked =? 1)]> |>).

(* iam-persistence.ts:151-184 getCachedUser *)
Definition getCachedUser (userId : string) : Sec (option CachedUser.t) := gets (λ d, SecurityDb.cached_users d !! userId).

(* iam-persistence.ts:186-191 invalidateCachedUser *)
Definition invalidateCachedUser (userId : string) : Sec unit :=
  modify (λ d, d <| SecurityDb.cached_users ::= alter (λ u, u <| CachedUser.isRevoked := true |>) userId |>).

(* iam-persistence.ts:193-198 deleteCachedUser *)
Definition deleteCachedUser (userId : string) : Sec unit := modify (λ d, d <| SecurityDb.cached_users ::= delete userId |>).

(* iam-persistence.ts:204-230 getStationCredential *)
Definition getStationCredential (stationId : string) : Sec (option StationCredentialRow.t) :=
  gets (λ d, SecurityDb.station_credentials d !! stationId).

(* iam-persistence.ts:236-260 getLockoutState *)
Definition getLockoutState (stationId : string) : Sec (option LockoutState.t) :=
  gets (λ d, SecurityDb.station_lockout_state d !! stationId).

(* iam-persistence.ts:262-294 recordFailedAttempt *)
Definition recordFailedAttempt (stationId : string) (now : Z) (lockedUntil : option Z) : Sec LockoutState.t :=
  inTransaction (
    existing ← getLockoutState stationId;
    let nextFailures := default 0 (LockoutState.consecutiveFailures <$> existing) + 1 in
    let finalLockedUntil := match lockedUntil with Some _ => lockedUntil | None => existing ≫= LockoutState.lockedUntil end in
    let row := LockoutState.mk nextFailures finalLockedUntil (Some now) now in
    modify (λ d, d <| SecurityDb.station_lockout_state ::= <[stationId := row]> |>) ;;
    mret row).

(* iam-persistence.ts:296-309 resetLockoutState *)
Definition resetLockoutState (stationId : string) (now : Z) : Sec unit :=
  modify (λ d, d <| SecurityDb.station_lockout_state ::= (λ rows, <[stationId :=
    match rows !! stationId with
    | Some row => LockoutState.mk 0 None (LockoutState.lastFailedAt row) now
    | None => LockoutState.mk 0 None None now
    end]> rows) |>).

Section audited.
Context (digest : string → string).

(* iam-persistence.ts:317-343 unlockStationWithAudit *)
Definition unlockStationWithAudit (stationId : string) (currentEffectiveTime : Z) (auditInput : SecurityEvent.t) : Sec SecurityAudit.t :=
  inTransaction (
    resetLockoutState stationId currentEffectiveTime ;;
    appendAuditEventInternal digest auditInput).

(** INSERT INTO station_sessions: primary key, uq_station_sessions_token_hash, chk_station_sessions_time *)
(* iam-persistence.ts:379-401 createSessionWithAudit, INSERT *)
Definition insertSession (row : StationSession.t) : Sec unit :=
  rows ← gets SecurityDb.station_sessions;
  throw_when (bool_decide (StationSession.sessionId row ∈ (StationSession.sessionId <$> rows))) (EnrollmentSqlite "station_sessions.session_id") ;;
  throw_when (bool_decide (StationSession.sessionTokenHash row ∈ (StationSession.sessionTokenHash <$> rows))) (EnrollmentSqlite "uq_station_sessions_token_hash") ;;
  throw_when (StationSession.expiresAt row <=? StationSession.issuedAt row) (EnrollmentSqlite "chk_station_sessions_time") ;;
  modify (λ d, d <| SecurityDb.station_sessions ::= (λ l, l ++ [row]) |>).

(** the roles are stored as their JSON text *)
(* iam-persistence.ts:349-439 createSessionWithAudit *)
Definition createSessionWithAudit (session : StationSession.t) (roles : list Json) (eventId edgeId : string) (eventType : string)
    (severity : Severity) (action : string) (metadata : Json) : Sec (StationSession.t * SecurityAudit.t) :=
  inTransaction (
    rolesJson ← jsonColumn (JArray roles);
    let row := session <| StationSession.rolesJson := rolesJson |> <| StationSession.isRevoked := false |> <| StationSession.revokedAt := None |> in
    insertSession row ;;
    audit ← appendAuditEventInternal digest (SecurityEvent.mk eventId (StationSession.organizationId session) (StationSession.branchId session)
      edgeId (Some (StationSession.stationId session)) eventType severity action metadata (StationSession.createdAt session));
    mret (row, audit)).
End audited.

(* iam-persistence.ts:441-483 getStationSession *)
Definition getStationSession (sessionId : string) : Sec (option StationSession.t) :=
  gets (λ d, head (filter (λ r, StationSession.sessionId r = sessionId) (SecurityDb.station_sessions d))).

(* iam-persistence.ts:485-527 getStationSessionByTokenHash *)
Definition getStationSessionByTokenHash (tokenHash : string) : Sec (option StationSession.t) :=
  gets (λ d, head (filter (λ r, StationSession.sessionTokenHash r = tokenHash) (SecurityDb.station_sessions d))).

Definition revokeWhen (P : StationSession.t → bool) (now : Z) (r : StationSession.t) : StationSession.t :=
  if P r then r <| StationSession.isRevoked := true |> <| StationSession.revokedAt := Some now |> else r.

(* iam-persistence.ts:529-536 revokeStationSession *)
Definition revokeStationSession (sessionId : string) (now : Z) : Sec unit :=
  modify (λ d, d <| SecurityDb.station_sessions ::= fmap (revokeWhen (λ r, bool_decide (StationSession.sessionId r = sessionId)) now) |>).

Definition expiredAt (now : Z) (r : StationSession.t) : bool := (StationSession.expiresAt r <=? now) && negb (StationSession.isRevoked r).

(* iam-persistence.ts:538-546 flushExpiredSessions *)
Definition flushExpiredSessions (now : Z) : Sec Z :=
  changes ← gets (λ d, Z.of_nat (List.length (filter (λ r, expiredAt now r = true) (SecurityDb.station_sessions d))));
  modify (λ d, d <| SecurityDb.station_sessions ::= fmap (revokeWhen (expiredAt now) now) |>) ;;
  mret changes.
End IamPersistence.
