(* ===== verification/Tokens.v ===== *)
(** Signed tokens of the edge: the floor session tokens of packages/edge/src/iam/session-token.ts
    and the station tokens of enrollment/crypto.ts, with the errors of iam/types.ts.

    A token is header, claims and signature in base64url, joined by dots.  HMAC-SHA256 is an
    argument from keys and texts to the bytes of the digest.  Claims are a JSON value, as
    [JSON.parse] gives it back; comparing a claim that is neither a number nor absent is left
    out ([IamOutside]), as are texts outside Json.v. *)
From S2P Require Import Prelude Decimals Json JsonSpec JsonText Buffers SecureStore.
From Stdlib Require Import Ascii String.

(* iam types.ts:95-113 OfflineIamErrorCode *)
Inductive OfflineIamErrorCode :=
| INVALID_INPUT | INVALID_PIN_FORMAT | STATION_NOT_FOUND | STATION_REVOKED | STATION_LOCKED | USER_NOT_CACHED
| USER_REVOKED | CREDENTIAL_EXPIRED | CREDENTIAL_CORRUPT | CREDENTIAL_FUTURE_TIMESTAMP | AUTHENTICATION_FAILED
| INSUFFICIENT_PERMISSIONS | SESSION_NOT_FOUND | SESSION_EXPIRED | SESSION_REVOKED | SESSION_STATION_MISMATCH
| CLOCK_ROLLBACK_LOCKED | INTERNAL_ERROR.
#[global] Instance OfflineIamErrorCode_eq_dec : EqDecision OfflineIamErrorCode.
Proof. solve_decision. Defined.

(** [delayMs] is the pause the call awaits before it throws; the other constructors are the errors
    of the stores, JavaScript errors, and texts this model leaves out *)
(* iam types.ts:115-125 OfflineIamError *)
Inductive IamError :=
| OfflineIamError (code : OfflineIamErrorCode) (retryAfterSeconds : option Z) (delayMs : Z)
| IamStore (e : EnrollmentError)
| IamJs (e : JsError)
| IamOutside.
#[global] Instance IamError_eq_dec : EqDecision IamError.
Proof. solve_decision. Defined.

Definition iamErr {A} (code : OfflineIamErrorCode) : result IamError A := Err (OfflineIamError code None 0).

(** ** Encoding *)

(* session-token.ts:31-34 base64UrlEncode *)
Definition base64UrlEncode (data : string) : string := base64url (utf8Encode (codesOf data)).
(* session-token.ts:36-38 base64UrlDecode *)
Definition base64UrlDecode (str : string) : list Z := fromBase64url str.

(** [s.split('.')] *)
Fixpoint splitDots (s : string) : list string :=
  match s with
  | EmptyString => [""]
  | String c s' =>
      if bool_decide (c = "."%char) then "" :: splitDots s'
      else match splitDots s' with p :: ps => String c p :: ps | [] => [String c ""] end
  end.

(* enrollment crypto.ts:289-295 validateHmacKeyLength *)
Definition validateHmacKeyLength (key : list Z) : result JsError unit :=
  if (List.length key =? 32)%nat then Ok tt else Err (PlainError "Station token HMAC key length violation").

Definition TOKEN_HEADER : Json := JObject [("alg", JString "HS256"); ("typ", JString "JWT")].

(** ** Claims *)

Module FloorSessionTokenClaims.
(* session-token.ts:19-29 FloorSessionTokenClaims *)
Record t := mk {
  sub : string; station_id : string; org_id : string; branch_id : string; session_id : string;
  roles : list Json; active_role : string; iat : Z; exp : Z }.
Definition json (c : t) : Json :=
  JObject [("sub", JString (sub c)); ("station_id", JString (station_id c)); ("org_id", JString (org_id c));
           ("branch_id", JString (branch_id c)); ("session_id", JString (session_id c)); ("roles", JArray (roles c));
           ("active_role", JString (active_role c)); ("iat", JNumber (iat c)); ("exp", JNumber (exp c))].
End FloorSessionTokenClaims.

Module StationTokenClaims.
(* enrollment crypto.ts:265-274 StationTokenClaims *)
Record t := mk {
  sub : string; org_id : string; branch_id : string; edge_id : string; station_code : string; station_type : string;
  iat : Z; exp : Z }.
Definition json (c : t) : Json :=
  JObject [("sub", JString (sub c)); ("org_id", JString (org_id c)); ("branch_id", JString (branch_id c));
           ("edge_id", JString (edge_id c)); ("station_code", JString (station_code c)); ("station_type", JString (station_type c));
           ("iat", JNumber (iat c)); ("exp", JNumber (exp c))].
End StationTokenClaims.

Section signing.
Context (hmac : list Z → string → list Z).

(** the signed text of a payload and its token *)
Definition signed (key : list Z) (payload : string) : string :=
  let signingInput := base64UrlEncode (text TOKEN_HEADER) +:+ "." +:+ base64UrlEncode payload in
  signingInput +:+ "." +:+ base64url (hmac key signingInput).

(** [JSON.stringify] of an object gives a text *)
Definition signToken (claims : Json) (hmacKey : list Z) : result JsError string :=
  result_bind (validateHmacKeyLength hmacKey) (λ _,
  result_bind (stringify claims) (λ payload, Ok (signed hmacKey (default "undefined" payload)))).

(** the three parts, when the signature is that of one of the keys *)
Definition verifiedPayload (token : string) (primary : list Z) (previous : option (list Z)) : option (option string) :=
  match splitDots token with
  | [encodedHeader; encodedPayload; encodedSignature] =>
      let signingInput := encodedHeader +:+ "." +:+ encodedPayload in
      let providedSignature := base64UrlDecode encodedSignature in
      let verified := bool_decide (providedSignature = hmac primary signingInput) ||
        match previous with Some k => bool_decide (providedSignature = hmac k signingInput) | None => false end in
      Some (if verified then Some encodedPayload else None)
  | _ => None
  end.

Definition validateKeys (primary : list Z) (previous : option (list Z)) : result JsError unit :=
  result_bind (validateHmacKeyLength primary) (λ _, match previous with Some k => validateHmacKeyLength k | None => Ok tt end).

(** [JSON.parse(base64UrlDecode(part).toString('utf8'))]; [None] when outside Json.v *)
Definition parsePayload (encodedPayload : string) : option (result JsError Json) :=
  match stringOf (utf8Decode (base64UrlDecode encodedPayload)) with
  | None => None
  | Some payloadJson =>
      match parse payloadJson with
      | Value v _ => Some (Ok v)
      | SyntaxError => Some (Err (PlainError "SyntaxError"))
      | _ => None
      end
  end.

(** [claims.key < n] and [claims.key > n]: [undefined] compares false *)
Definition claimNumber (claims : Json) (key : string) : result IamError (option Z) :=
  match claims with
  | JNull => Err (IamJs (TypeError "Cannot read properties of null"))
  | JObject ms => match property ms key with JNumber n => Ok (Some n) | JUndefined => Ok None | _ => Err IamOutside end
  | _ => Ok None
  end.

(** ** Floor session tokens *)

(* session-token.ts:17-17 SESSION_TOKEN_TTL_SECONDS *)
Definition SESSION_TOKEN_TTL_SECONDS : Z := 43200.

(* session-token.ts:40-52 signFloorSessionToken *)
Definition signFloorSessionToken (claims : FloorSessionTokenClaims.t) (hmacKey : list Z) : result JsError string :=
  signToken (FloorSessionTokenClaims.json claims) hmacKey.

(* session-token.ts:54-132 verifyFloorSessionToken *)
Definition verifyFloorSessionToken (token : string) (primaryHmacKey : list Z) (previousHmacKey : option (list Z))
    (currentEffectiveTime : Z) : result IamError Json :=
  match validateKeys primaryHmacKey previousHmacKey with
  | Err e => Err (IamJs e)
  | Ok _ =>
      match verifiedPayload token primaryHmacKey previousHmacKey with
      | None | Some None => iamErr AUTHENTICATION_FAILED
      | Some (Some encodedPayload) =>
          match parsePayload encodedPayload with
          | None => Err IamOutside
          | Some (Err _) => iamErr AUTHENTICATION_FAILED
          | Some (Ok claims) =>
              result_bind (claimNumber claims "exp") (λ exp,
              if match exp with Some n => n <? currentEffectiveTime | None => false end then iamErr SESSION_EXPIRED
              else result_bind (claimNumber claims "iat") (λ iat,
                if match iat with Some n => currentEffectiveTime + 5 <? n | None => false end then iamErr CLOCK_ROLLBACK_LOCKED
                else Ok claims))
          end
      end
  end.

(** ** Station tokens *)

(* enrollment crypto.ts:300-312 signStationToken *)
Definition signStationToken (claims : StationTokenClaims.t) (hmacKey : list Z) : result JsError string :=
  signToken (StationTokenClaims.json claims) hmacKey.

(** the errors are plain [Error]s *)
(* enrollment crypto.ts:317-378 verifyStationToken *)
Definition verifyStationToken (token : string) (primaryHmacKey : list Z) (previousHmacKey : option (list Z)) (nowSeconds : Z) :
    result IamError Json :=
  match validateKeys primaryHmacKey previousHmacKey with
  | Err e => Err (IamJs e)
  | Ok _ =>
      match verifiedPayload token primaryHmacKey previousHmacKey with
      | None => Err (IamJs (PlainError "Invalid JWT format: token must contain exactly 3 segments"))
      | Some None => Err (IamJs (PlainError "Station token signature verification failed"))
      | Some (Some encodedPayload) =>
          match parsePayload encodedPayload with
          | None => Err IamOutside
          | Some (Err e) => Err (IamJs e)
          | Some (Ok claims) =>
              result_bind (claimNumber claims "exp") (λ exp,
              if match exp with Some n => n <? nowSeconds | None => false end then Err (IamJs (PlainError "Station token expired"))
              else Ok claims)
          end
      end
  end.
End signing.

(** ** A signed token is read back *)

Lemma splitDots_noDot a : noDot a = true → splitDots a = [a].
Proof. induction a as [|c a IH]; [done|]. cbn [noDot splitDots]. intros [Hc Ha]%andb_true_iff. simpl_guards. by rewrite bool_decide_eq_false_2, IH. Qed.

Lemma splitDots_app a b : noDot a = true → splitDots (a +:+ "." +:+ b) = a :: splitDots b.
Proof.
  induction a as [|c a IH]; [done|]. cbn [noDot]. intros [Hc Ha]%andb_true_iff. change (String c a +:+ ?x) with (String c (a +:+ x)). cbn [splitDots].
  simpl_guards. by rewrite bool_decide_eq_false_2, IH.
Qed.

Lemma base64UrlEncode_noDot s : noDot (base64UrlEncode s) = true.
Proof. apply base64url_noDot, utf8Encode_bytes, codesOf_scalar. Qed.

Lemma base64UrlEncode_decode s : stringOf (utf8Decode (base64UrlDecode (base64UrlEncode s))) = Some s.
Proof.
  unfold base64UrlDecode, base64UrlEncode. rewrite base64url_round_trip by apply utf8Encode_bytes, codesOf_scalar. apply utf8_string.
Qed.

(** the bytes of a digest *)
Definition hmacBytes (hmac : list Z → string → list Z) : Prop := ∀ key m, Forall isByte (hmac key m).

(** the text a token signs *)
Definition signedText (claims : Json) : string := base64UrlEncode (text TOKEN_HEADER) +:+ "." +:+ base64UrlEncode (text claims).

(** a token of [key] verifies under keys that sign its text alike *)
Lemma signToken_verified hmac claims key token : hmacBytes hmac → plain claims → signToken hmac claims key = Ok token →
  List.length key = 32%nat ∧ parsePayload (base64UrlEncode (text claims)) = Some (Ok claims) ∧
  ∀ primary previous, verifiedPayload hmac token primary previous =
    Some (if bool_decide (hmac key (signedText claims) = hmac primary (signedText claims)) ||
             match previous with Some k => bool_decide (hmac key (signedText claims) = hmac k (signedText claims)) | None => false end
          then Some (base64UrlEncode (text claims)) else None).
Proof.
  intros Hh Hp. unfold signToken, validateHmacKeyLength. destruct (List.length key =? 32)%nat eqn:Hl; [|done]. cbn [result_bind].
  rewrite stringify_plain by done. cbn [result_bind]. intros [= <-]. apply Nat.eqb_eq in Hl. split_and!; [done|..].
  - unfold parsePayload. rewrite base64UrlEncode_decode. by rewrite parse_text.
  - intros primary previous. unfold verifiedPayload, signed. cbn [default]. rewrite !app_assoc_str.
    rewrite !splitDots_app by apply base64UrlEncode_noDot. rewrite splitDots_noDot by (by apply base64url_noDot, Hh).
    unfold base64UrlDecode. by rewrite base64url_round_trip.
Qed.

Lemma validHmacKeys primary previous : List.length primary = 32%nat → (∀ k, previous = Some k → List.length k = 32%nat) → validateKeys primary previous = Ok tt.
Proof.
  intros H1 H2. unfold validateKeys, validateHmacKeyLength. rewrite H1. cbn. destruct previous as [k|]; [|done]. by rewrite (H2 k eq_refl).
Qed.
