(* ===== verification/Iam.v ===== *)
(** Offline sign-in of floor staff: packages/edge/src/iam (lockout-manager.ts, offline-iam-service.ts,
    auth-router.ts) and the PIN checks of packages/core/src/pin.ts and jwt.ts.

    A sign-in and a supervisor unlock each await the verification of the PIN, which Argon2 runs on
    another thread: what comes before the await ([beginPinAuth], [beginUnlock]) and what comes after
    it ([finishPinAuth], [finishUnlock]) are two steps on the tables, between which other requests
    run.  The pause before a refusal writes nothing and is the [delayMs] of the error.  Argon2,
    SHA-256, HMAC and [Date.parse] are arguments; random identifiers are drawn values.  Requests have
    the types the router casts them to, and messages of errors are left out. *)
From S2P Require Import Prelude Decimals Json JsonSpec JsonText EdgeDb Buffers AuditTrail SecureStore TrustedTime EdgeSecurity Tokens.
From Stdlib Require Import Ascii String.

Abbreviation Iam := (M SecurityDb.t IamError).

(** an operation of the persistence layer *)
Definition store {A} (m : Sec A) : Iam A := λ d,
  match m d with (d', Ok a) => (d', Ok a) | (d', Err e) => (d', Err (IamStore e)) end.
Definition denied {A} (code : OfflineIamErrorCode) : Iam A := mthrow (OfflineIamError code None 0).
Definition denied_when (b : bool) (code : OfflineIamErrorCode) : Iam unit := throw_when b (OfflineIamError code None 0).

(** ** Checks of @trident/core *)

(* jwt.ts:67-69 isValidUuid *)
Definition isValidUuid (val : string) : bool :=
  let hyphen c := bool_decide (c = "-"%char) in
  let hex n := replicate n is_hex in
  matches (hex 8%nat ++ [hyphen] ++ hex 4%nat ++ [hyphen] ++ hex 4%nat ++ [hyphen] ++ hex 4%nat ++ [hyphen] ++ hex 12%nat) val.

(* pin.ts:49-62 validatePinFormat *)
Definition validatePinFormat (pin : string) : bool :=
  all_digits pin && (4 <=? String.length pin)%nat && (String.length pin <=? 8)%nat.

Definition ARGON2ID_PREFIX : string := "$argon2id$".

(** whether the result is [ok(true)]; [argon2verify] is [None] when Argon2 throws *)
(* pin.ts:109-129 verifyBranchPin *)
Definition verifyBranchPin (argon2verify : string → string → option bool) (hash plainPin : string) : bool :=
  String.prefix ARGON2ID_PREFIX hash && validatePinFormat plainPin && default false (argon2verify hash plainPin).

(** ** LockoutManager *)

(* lockout-manager.ts:20-25 LOCKOUT_POLICY *)
Definition FAILURE_THRESHOLD : Z := 5.
Definition LOCKOUT_DURATION_SECONDS : Z := 300.
Definition PROGRESSIVE_DELAY_ATTEMPT_3_MS : Z := 2000.
Definition PROGRESSIVE_DELAY_ATTEMPT_4_MS : Z := 5000.

Module FailureEvaluation.
(* lockout-manager.ts:27-34 FailureEvaluation *)
Record t := mk {
  consecutiveFailures : Z; isLocked : bool; lockedUntil : option Z; remainingSeconds : Z; delayMs : Z; isNewLockout : bool }.
End FailureEvaluation.

Section lockout.
Import IamPersistence.

(** the remaining seconds of a lock that is on *)
(* lockout-manager.ts:47-63 checkLockout *)
Definition checkLockout (stationId : string) (currentEffectiveTime : Z) : Sec (option Z) :=
  state ← getLockoutState stationId;
  mret (match state ≫= LockoutState.lockedUntil with
        | Some lockedUntil => if currentEffectiveTime <? lockedUntil then Some (lockedUntil - currentEffectiveTime) else None
        | None => None
        end).

(** [!lockedUntil || lockedUntil <= now]: zero is no lock *)
Definition lockable (lockedUntil : option Z) (now : Z) : bool :=
  match lockedUntil with Some l => (l =? 0) || (l <=? now) | None => true end.

(* lockout-manager.ts:69-111 recordFailure *)
Definition recordFailure (stationId : string) (currentEffectiveTime : Z) : Sec FailureEvaluation.t :=
  currentState ← getLockoutState stationId;
  let newFailures := default 0 (LockoutState.consecutiveFailures <$> currentState) + 1 in
  let before := currentState ≫= LockoutState.lockedUntil in
  let isNewLockout := (FAILURE_THRESHOLD <=? newFailures) && lockable before currentEffectiveTime in
  let lockedUntil := if isNewLockout then Some (currentEffectiveTime + LOCKOUT_DURATION_SECONDS) else before in
  updated ← recordFailedAttempt stationId currentEffectiveTime lockedUntil;
  let delayMs := if newFailures =? 3 then PROGRESSIVE_DELAY_ATTEMPT_3_MS
                 else if 4 <=? newFailures then PROGRESSIVE_DELAY_ATTEMPT_4_MS else 0 in
  let isLocked := match LockoutState.lockedUntil updated with Some l => currentEffectiveTime <? l | None => false end in
  mret (FailureEvaluation.mk (LockoutState.consecutiveFailures updated) isLocked (LockoutState.lockedUntil updated)
    (if isLocked then default 0 (LockoutState.lockedUntil updated) - currentEffectiveTime else 0) delayMs isNewLockout).

(* lockout-manager.ts:116-118 recordSuccess *)
Definition recordSuccess (stationId : string) (currentEffectiveTime : Z) : Sec unit := resetLockoutState stationId currentEffectiveTime.
(* lockout-manager.ts:123-125 unlock *)
Definition unlock (stationId : string) (currentEffectiveTime : Z) : Sec unit := resetLockoutState stationId currentEffectiveTime.
End lockout.

(** ** OfflineIamService *)

Module PinAuthRequest.
(* iam types.ts:54-59 PinAuthRequest *)
Record t := mk { stationId : string; userId : string; pin : string; activeRole : option string }.
End PinAuthRequest.

Module SupervisorUnlockRequest.
(* iam types.ts:77-82 SupervisorUnlockRequest *)
Record t := mk { stationId : string; supervisorUserId : string; supervisorPin : string; reason : string }.
End SupervisorUnlockRequest.

Module PinAuthSuccess.
(* iam types.ts:61-75 PinAuthSuccessResponse *)
Record t := mk { token : string; session : StationSession.t; roles : list string }.
End PinAuthSuccess.

Module SupervisorUnlockResponse.
(* iam types.ts:84-89 SupervisorUnlockResponse *)
Record t := mk { stationId : string; unlockedByUserId : string; unlockedAt : Z }.
End SupervisorUnlockResponse.

Module IamService.
(* offline-iam-service.ts:48-57 OfflineIamService *)
Record t := mk { edgeId : string; organizationId : string; branchId : string }.
End IamService.

Module IamDraws.
(** the identifiers one call draws *)
Record t := mk { lockoutEventId : string; sessionId : string; eventId : string }.
End IamDraws.

Module PendingAuth.
(** a sign-in that awaits its PIN: the request, the trusted time and the user it read *)
Record t := mk { request : PinAuthRequest.t; now : Z; user : CachedUser.t }.
End PendingAuth.

Module PendingUnlock.
Record t := mk { request : SupervisorUnlockRequest.t; now : Z; supervisor : CachedUser.t }.
End PendingUnlock.

Definition HMAC_KEY : string := "station_token_hmac_key".
Definition HMAC_KEY_PREVIOUS : string := "station_token_hmac_key_previous".

(** [JSON.parse] of the cached roles and their validation; [None] is what a refusal answers *)
(* offline-iam-service.ts:293-315 authenticateWithPin, roles *)
Definition parseRoles (rolesJson : string) : result IamError (option (list string)) :=
  match parse rolesJson with
  | Value (JArray roles) _ =>
      let names := omap (λ r, match r with JString s => if bool_decide (trim s = "") then None else Some s | _ => None end) roles in
      Ok (if bool_decide (roles = []) || negb (List.length names =? List.length roles)%nat then None else Some names)
  | Value _ _ | SyntaxError => Ok None
  | _ => Err IamOutside
  end.

Definition CANONICAL_UNLOCK_PERMISSION : string := "estacion.desbloquear".
Definition TRANSITIONAL_CANONICAL_ROLES : list string := ["ROLE-001"; "ROLE-002"].

(** a role in capitals differs from these codes outside ASCII *)
(* offline-iam-service.ts:610-619 isSupervisor *)
Definition isSupervisor (roles : list string) : bool :=
  existsb (λ r, bool_decide (mapString lowerChar (trim r) = CANONICAL_UNLOCK_PERMISSION)) roles ||
  existsb (λ r, bool_decide (toUpperCase (trim r) ∈ TRANSITIONAL_CANONICAL_ROLES)) roles.

Definition numberOrNull (o : option Z) : Json := match o with Some n => JNumber n | None => JNull end.

Section service.
Context (backend : SecureStorageBackend.t) (digest : string → string) (hmac : list Z → string → list Z).
Context (argon2verify : string → string → option bool) (dateParse : string → option Z).
Context (service : IamService.t).
Import IamPersistence.

(** [None] is the exception CREDENTIAL_CORRUPT, which the callers catch *)
(* offline-iam-service.ts:116-131 parseTimestampSeconds *)
Definition parseTimestampSeconds (val : string) : option Z :=
  if all_digits val && negb (bool_decide (val = "")) then
    (λ num, let num := Z.of_N num in if 100000000000 <? num then num / 1000 else num) <$> BigInt_of_digits val
  else (λ parsed, parsed / 1000) <$> dateParse val.

(** the constructor: a first start draws the key *)
(* offline-iam-service.ts:94-99 ensureHmacKey *)
Definition ensureHmacKey (newKey : list Z) : Secrets unit :=
  has ← hasSecret HMAC_KEY;
  if (has : bool) then mret tt else storeSecret backend HMAC_KEY newKey.

(* offline-iam-service.ts:101-103 getPrimaryHmacKey *)
Definition getPrimaryHmacKey (secrets : SecretFiles) : result IamError (list Z) :=
  match snd (loadSecret backend HMAC_KEY secrets) with Ok k => Ok k | Err e => Err (IamStore e) end.

(* offline-iam-service.ts:105-114 getPreviousHmacKey *)
Definition getPreviousHmacKey (secrets : SecretFiles) : option (list Z) :=
  match snd (loadSecret backend HMAC_KEY_PREVIOUS secrets) with Ok k => Some k | Err _ => None end.

(* offline-iam-service.ts:146-159 authenticateWithPin, trusted time *)
Definition readClock (time : TimeManager.t) (hrtime : Z) : result IamError Z :=
  if TimeManager.isLocked time then iamErr CLOCK_ROLLBACK_LOCKED
  else match getTrustedEffectiveTime hrtime time with Ok now => Ok now | Err _ => iamErr CLOCK_ROLLBACK_LOCKED end.

(** the station is enrolled here and not revoked *)
(* offline-iam-service.ts:161-174 authenticateWithPin, station *)
Definition checkStation (stationId : string) : Iam unit :=
  found ← store (getStationCredential stationId);
  station ← require found (OfflineIamError STATION_NOT_FOUND None 0);
  denied_when (StationCredentialRow.is_revoked station) STATION_REVOKED ;;
  denied_when (negb (bool_decide (StationCredentialRow.branch_id station = IamService.branchId service)) ||
               negb (bool_decide (StationCredentialRow.organization_id station = IamService.organizationId service))) STATION_NOT_FOUND.

(** a refusal that counts as a failure of the station, without an audit event *)
Definition refuse {A} (stationId : string) (now : Z) (code : OfflineIamErrorCode) : Iam A :=
  store (recordFailure stationId now) ;; denied code.

(* offline-iam-service.ts:675-696 emitLockoutAuditEvent *)
Definition emitLockoutAuditEvent (eventId stationId : string) (failureEval : FailureEvaluation.t) (now : Z) : Iam unit :=
  store (appendAuditEvent digest (SecurityEvent.mk eventId (IamService.organizationId service) (IamService.branchId service)
    (IamService.edgeId service) (Some stationId) "PinBruteForceAttemptDetected" CRITICAL "STATION_LOCKOUT"
    (JObject [("stationId", JString stationId);
              ("consecutiveFailures", JNumber (FailureEvaluation.consecutiveFailures failureEval));
              ("lockedUntil", numberOrNull (FailureEvaluation.lockedUntil failureEval))]) now)) ;;
  mret tt.

(** what is checked of a cached user before its PIN *)
(* offline-iam-service.ts:192-243 authenticateWithPin, user *)
Definition checkUser (stationId userId : string) (now : Z) : Iam CachedUser.t :=
  found ← store (getCachedUser userId);
  match found with
  | None => refuse stationId now USER_NOT_CACHED
  | Some user =>
      if negb (bool_decide (CachedUser.organizationId user = IamService.organizationId service)) then refuse stationId now USER_NOT_CACHED
      else if CachedUser.isRevoked user then refuse stationId now USER_REVOKED
      else match parseTimestampSeconds (CachedUser.expiresAt user), parseTimestampSeconds (CachedUser.issuedAt user) with
           | Some expiresAtSec, Some issuedAtSec =>
               if expiresAtSec <=? now then refuse stationId now CREDENTIAL_EXPIRED
               else if now + 300 <? issuedAtSec then refuse stationId now CREDENTIAL_FUTURE_TIMESTAMP
               else if negb (String.prefix ARGON2ID_PREFIX (CachedUser.pinHash user)) then refuse stationId now CREDENTIAL_CORRUPT
               else mret user
           | _, _ => refuse stationId now CREDENTIAL_CORRUPT
           end
  end.

(** up to the await of [verifyBranchPin] *)
(* offline-iam-service.ts:137-243 authenticateWithPin, before the PIN *)
Definition beginPinAuth (time : TimeManager.t) (hrtime : Z) (request : PinAuthRequest.t) : Iam PendingAuth.t :=
  let stationId := PinAuthRequest.stationId request in
  denied_when (negb (isValidUuid stationId)) INVALID_INPUT ;;
  denied_when (negb (isValidUuid (PinAuthRequest.userId request))) INVALID_INPUT ;;
  now ← lift (readClock time hrtime);
  checkStation stationId ;;
  locked ← store (checkLockout stationId now);
  match locked with
  | Some remainingSeconds => mthrow (OfflineIamError STATION_LOCKED (Some remainingSeconds) 0)
  | None => mret tt
  end ;;
  denied_when (negb (validatePinFormat (PinAuthRequest.pin request))) INVALID_PIN_FORMAT ;;
  user ← checkUser stationId (PinAuthRequest.userId request) now;
  mret (PendingAuth.mk request now user).

(** [verifyResult.ok && verifyResult.value === true] *)
(* offline-iam-service.ts:245-247 authenticateWithPin, verifyBranchPin *)
Definition pinMatches (p : PendingAuth.t) : bool :=
  verifyBranchPin argon2verify (CachedUser.pinHash (PendingAuth.user p)) (PinAuthRequest.pin (PendingAuth.request p)).

(** a wrong PIN *)
(* offline-iam-service.ts:249-287 authenticateWithPin, wrong PIN *)
Definition rejectPin (draws : IamDraws.t) (p : PendingAuth.t) : Iam PinAuthSuccess.t :=
  let stationId := PinAuthRequest.stationId (PendingAuth.request p) in
  let now := PendingAuth.now p in
  failureEval ← store (recordFailure stationId now);
  (if FailureEvaluation.isNewLockout failureEval
   then emitLockoutAuditEvent (IamDraws.lockoutEventId draws) stationId failureEval now else mret tt) ;;
  if FailureEvaluation.isLocked failureEval
  then mthrow (OfflineIamError STATION_LOCKED (Some (FailureEvaluation.remainingSeconds failureEval)) (FailureEvaluation.delayMs failureEval))
  else mthrow (OfflineIamError AUTHENTICATION_FAILED None (FailureEvaluation.delayMs failureEval)).

(** [if (request.activeRole) ...] *)
(* offline-iam-service.ts:317-328 authenticateWithPin, active role *)
Definition chooseRole (stationId : string) (now : Z) (requested : option string) (roles : list string) : Iam string :=
  match truthy requested with
  | Some role => if bool_decide (role ∈ roles) then mret role else refuse stationId now INSUFFICIENT_PERMISSIONS
  | None => mret (default "" (head roles))
  end.

(** the claims, the token and the session of a sign-in, in one transaction with its audit event *)
(* offline-iam-service.ts:330-393 authenticateWithPin, session *)
Definition openSession (secrets : SecretFiles) (draws : IamDraws.t) (stationId userId : string) (now : Z) (roles : list string) (activeRole : string) :
    Iam PinAuthSuccess.t :=
  let sessionId := IamDraws.sessionId draws in
  let sessionExpiresAt := now + SESSION_TOKEN_TTL_SECONDS in
  let claims := FloorSessionTokenClaims.mk userId stationId (IamService.organizationId service) (IamService.branchId service) sessionId
    (JString <$> roles) activeRole now sessionExpiresAt in
  primaryKey ← lift (getPrimaryHmacKey secrets);
  sessionToken ← lift (match signFloorSessionToken hmac claims primaryKey with Ok t => Ok t | Err e => Err (IamJs e) end);
  '(session, _) ← store (createSessionWithAudit digest
    (StationSession.mk sessionId (digest sessionToken) stationId userId (IamService.organizationId service) (IamService.branchId service)
      "" activeRole now sessionExpiresAt false None now)
    (JString <$> roles) (IamDraws.eventId draws) (IamService.edgeId service) "FloorUserAuthenticated" INFO "LOGIN_SUCCESS"
    (JObject [("sessionId", JString sessionId); ("stationId", JString stationId); ("userId", JString userId);
              ("activeRole", JString activeRole)]));
  mret (PinAuthSuccess.mk sessionToken session roles).

(* offline-iam-service.ts:289-393 authenticateWithPin, right PIN *)
Definition acceptPin (secrets : SecretFiles) (draws : IamDraws.t) (p : PendingAuth.t) : Iam PinAuthSuccess.t :=
  let stationId := PinAuthRequest.stationId (PendingAuth.request p) in
  let now := PendingAuth.now p in
  store (recordSuccess stationId now) ;;
  parsed ← lift (parseRoles (CachedUser.rolesJson (PendingAuth.user p)));
  match parsed with
  | None => refuse stationId now CREDENTIAL_CORRUPT
  | Some roles =>
      activeRole ← chooseRole stationId now (PinAuthRequest.activeRole (PendingAuth.request p)) roles;
      openSession secrets draws stationId (PinAuthRequest.userId (PendingAuth.request p)) now roles activeRole
  end.

(** from the await on *)
(* offline-iam-service.ts:245-394 authenticateWithPin, after the PIN *)
Definition finishPinAuth (secrets : SecretFiles) (draws : IamDraws.t) (p : PendingAuth.t) : Iam PinAuthSuccess.t :=
  if pinMatches p then acceptPin secrets draws p else rejectPin draws p.

(* offline-iam-service.ts:137-394 authenticateWithPin *)
Definition authenticateWithPin (time : TimeManager.t) (hrtime : Z) (secrets : SecretFiles) (draws : IamDraws.t)
    (request : PinAuthRequest.t) : Iam PinAuthSuccess.t :=
  p ← beginPinAuth time hrtime request;
  finishPinAuth secrets draws p.

(** [claims.station_id !== stationId] *)
(* offline-iam-service.ts:413-419 verifySession, binding *)
Definition boundTo (claims : Json) (stationId : string) : bool :=
  match claims with
  | JObject ms => match property ms "station_id" with JString s => bool_decide (s = stationId) | _ => false end
  | _ => false
  end.

(* offline-iam-service.ts:400-436 verifySession *)
Definition verifySession (time : TimeManager.t) (hrtime : Z) (secrets : SecretFiles) (sessionToken stationId : string) : Iam StationSession.t :=
  now ← lift (match getTrustedEffectiveTime hrtime time with Ok now => Ok now | Err _ => iamErr CLOCK_ROLLBACK_LOCKED end);
  primaryKey ← lift (getPrimaryHmacKey secrets);
  claims ← lift (verifyFloorSessionToken hmac sessionToken primaryKey (getPreviousHmacKey secrets) now);
  denied_when (negb (boundTo claims stationId)) SESSION_STATION_MISMATCH ;;
  found ← store (getStationSessionByTokenHash (digest sessionToken));
  sessionRecord ← require found (OfflineIamError SESSION_NOT_FOUND None 0);
  denied_when (StationSession.isRevoked sessionRecord) SESSION_REVOKED ;;
  denied_when (StationSession.expiresAt sessionRecord <=? now) SESSION_EXPIRED ;;
  mret sessionRecord.

(* offline-iam-service.ts:438-441 revokeSession *)
Definition revokeSession (time : TimeManager.t) (hrtime : Z) (sessionId : string) : Iam unit :=
  now ← lift (match getTrustedEffectiveTime hrtime time with Ok now => Ok now | Err e => Err (IamStore e) end);
  store (revokeStationSession sessionId now).

(** a refusal of the unlock flow: it counts, and a new lock is announced *)
Definition refuseAudited {A} (eventId stationId : string) (now : Z) (code : OfflineIamErrorCode) (delays : bool) : Iam A :=
  failureEval ← store (recordFailure stationId now);
  (if FailureEvaluation.isNewLockout failureEval then emitLockoutAuditEvent eventId stationId failureEval now else mret tt) ;;
  mthrow (OfflineIamError code None (if delays then FailureEvaluation.delayMs failureEval else 0)).

(* offline-iam-service.ts:501-630 supervisorUnlockStation, supervisor *)
Definition checkSupervisor (eventId stationId supervisorUserId : string) (now : Z) : Iam CachedUser.t :=
  let refuse {A} code : Iam A := refuseAudited eventId stationId now code false in
  found ← store (getCachedUser supervisorUserId);
  match found with
  | None => refuse AUTHENTICATION_FAILED
  | Some supervisor =>
      if CachedUser.isRevoked supervisor then refuse AUTHENTICATION_FAILED
      else if negb (bool_decide (CachedUser.organizationId supervisor = IamService.organizationId service)) then refuse AUTHENTICATION_FAILED
      else match parseTimestampSeconds (CachedUser.expiresAt supervisor), parseTimestampSeconds (CachedUser.issuedAt supervisor) with
           | Some expiresAtSec, Some issuedAtSec =>
               if expiresAtSec <=? now then refuse CREDENTIAL_EXPIRED
               else if now + 300 <? issuedAtSec then refuse CREDENTIAL_FUTURE_TIMESTAMP
               else if negb (String.prefix ARGON2ID_PREFIX (CachedUser.pinHash supervisor)) then refuse CREDENTIAL_CORRUPT
               else
                 parsed ← lift (parseRoles (CachedUser.rolesJson supervisor));
                 match parsed with
                 | None => refuse CREDENTIAL_CORRUPT
                 | Some roles => if isSupervisor roles then mret supervisor else refuse INSUFFICIENT_PERMISSIONS
                 end
           | _, _ => refuse CREDENTIAL_CORRUPT
           end
  end.

(* offline-iam-service.ts:447-630 supervisorUnlockStation, before the PIN *)
Definition beginUnlock (time : TimeManager.t) (hrtime : Z) (draws : IamDraws.t) (request : SupervisorUnlockRequest.t) : Iam PendingUnlock.t :=
  let stationId := SupervisorUnlockRequest.stationId request in
  denied_when (negb (isValidUuid stationId)) INVALID_INPUT ;;
  denied_when (negb (isValidUuid (SupervisorUnlockRequest.supervisorUserId request))) INVALID_INPUT ;;
  now ← lift (readClock time hrtime);
  checkStation stationId ;;
  (if validatePinFormat (SupervisorUnlockRequest.supervisorPin request) then mret tt
   else refuseAudited (IamDraws.lockoutEventId draws) stationId now INVALID_PIN_FORMAT false) ;;
  supervisor ← checkSupervisor (IamDraws.lockoutEventId draws) stationId (SupervisorUnlockRequest.supervisorUserId request) now;
  mret (PendingUnlock.mk request now supervisor).

(* offline-iam-service.ts:632-634 supervisorUnlockStation, verifyBranchPin *)
Definition supervisorPinMatches (p : PendingUnlock.t) : bool :=
  verifyBranchPin argon2verify (CachedUser.pinHash (PendingUnlock.supervisor p)) (SupervisorUnlockRequest.supervisorPin (PendingUnlock.request p)).

(* offline-iam-service.ts:632-673 supervisorUnlockStation, after the PIN *)
Definition finishUnlock (draws : IamDraws.t) (p : PendingUnlock.t) : Iam SupervisorUnlockResponse.t :=
  let request := PendingUnlock.request p in
  let stationId := SupervisorUnlockRequest.stationId request in
  let supervisorUserId := SupervisorUnlockRequest.supervisorUserId request in
  let now := PendingUnlock.now p in
  if negb (supervisorPinMatches p) then refuseAudited (IamDraws.lockoutEventId draws) stationId now AUTHENTICATION_FAILED true
  else
    store (unlockStationWithAudit digest stationId now (SecurityEvent.mk (IamDraws.eventId draws) (IamService.organizationId service)
      (IamService.branchId service) (IamService.edgeId service) (Some stationId) "SupervisorStationUnlocked" WARN "SUPERVISOR_UNLOCK"
      (JObject [("stationId", JString stationId); ("unlockedByUserId", JString supervisorUserId); ("actorId", JString supervisorUserId);
                ("success", JNumber 1); ("reason", JString (SupervisorUnlockRequest.reason request))]) now)) ;;
    mret (SupervisorUnlockResponse.mk stationId supervisorUserId now).

(* offline-iam-service.ts:447-673 supervisorUnlockStation *)
Definition supervisorUnlockStation (time : TimeManager.t) (hrtime : Z) (draws : IamDraws.t) (request : SupervisorUnlockRequest.t) :
    Iam SupervisorUnlockResponse.t :=
  p ← beginUnlock time hrtime draws request;
  finishUnlock draws p.
End service.

(** ** EdgeAuthRouter *)

(** the status and the Retry-After header *)
(* auth-router.ts:123-184 mapErrorToResponse *)
Definition mapErrorToResponse (err : IamError) : Z * option Z :=
  match err with
  | OfflineIamError code retryAfterSeconds _ =>
      match code with
      | INVALID_INPUT | INVALID_PIN_FORMAT => (400, None)
      | AUTHENTICATION_FAILED | USER_NOT_CACHED | USER_REVOKED | CREDENTIAL_EXPIRED | CREDENTIAL_CORRUPT
      | CREDENTIAL_FUTURE_TIMESTAMP => (401, None)
      | STATION_NOT_FOUND | STATION_REVOKED | INSUFFICIENT_PERMISSIONS | SESSION_STATION_MISMATCH => (403, None)
      | STATION_LOCKED => (423, match retryAfterSeconds with Some n => if n =? 0 then None else Some n | None => None end)
      | CLOCK_ROLLBACK_LOCKED => (409, None)
      | SESSION_NOT_FOUND | SESSION_EXPIRED | SESSION_REVOKED => (401, None)
      | INTERNAL_ERROR => (500, None)
      end
  | _ => (500, None)
  end.
