(* ===== verification/Enrollment.v ===== *)
(** Enrolment of stations: packages/edge/src/enrollment/pairing-store.ts and the answers of
    enrollment-server.ts.

    The pairing store keeps the HMAC keys of station tokens in memory and in the secret store, and
    hands the consumption of pairing tokens to [EnrollmentPersistence].  The keys, secrets and
    identifiers a call generates are drawn values; trusted time is read from TrustedTime.v.  TLS,
    the discovery of the edge and the socket are not modelled. *)
From S2P Require Import Prelude Decimals Json JsonSpec JsonText Buffers SecureStore TrustedTime EdgeSecurity Tokens.
From Stdlib Require Import Ascii String.

Module PairingStore.
(* pairing-store.ts:45-59 EdgePairingStore *)
Record t := mk {
  organizationId : string; branchId : string; edgeId : string; edgePublicKeyFingerprint : string; defaultTtlSeconds : Z;
  activeHmacKey : list Z; activeKeyVersion : Z;
  previousHmacKey : option (list Z); previousKeyVersion : option Z; previousHmacKeyExpiresAt : option Z }.
#[global] Instance eta_t : Eta t := λ s,
  mk (organizationId s) (branchId s) (edgeId s) (edgePublicKeyFingerprint s) (defaultTtlSeconds s) (activeHmacKey s)
     (activeKeyVersion s) (previousHmacKey s) (previousKeyVersion s) (previousHmacKeyExpiresAt s).
End PairingStore.

Module PairingWorld.
(** the running store, the directory of secrets and the tables *)
Record t := mk { store : PairingStore.t; secrets : SecretFiles; db : SecurityDb.t }.
#[global] Instance eta_t : Eta t := λ w, mk (store w) (secrets w) (db w).
End PairingWorld.

Module EnrollmentQRPayload.
(* enrollment types.ts:7-14 EnrollmentQRPayload *)
Record t := mk {
  branchId : string; edgeId : string; edgePublicKeyFingerprint : string; pairingId : string; expiresAt : Z; pairingSecret : string }.
End EnrollmentQRPayload.

Module StationEnrollmentResponse.
(* enrollment types.ts:28-35 StationEnrollmentResponse *)
Record t := mk { stationToken : string; expiresIn : Z; issuedAt : Z; stationId : string }.
End StationEnrollmentResponse.

Abbreviation Pairing := (M PairingWorld.t EnrollmentError).

Definition ACTIVE_KEY : string := "station_token_hmac_active_key".
Definition PREVIOUS_KEY : string := "station_token_hmac_previous_key".
Definition METADATA : string := "station_token_hmac_metadata".

Definition withSecrets {A} (m : Secrets A) : Pairing A := λ w,
  let '(files, r) := m (PairingWorld.secrets w) in (w <| PairingWorld.secrets := files |>, r).
Definition withDb {A} (m : Sec A) : Pairing A := λ w,
  let '(d, r) := m (PairingWorld.db w) in (w <| PairingWorld.db := d |>, r).
Definition onStore (f : PairingStore.t → PairingStore.t) : Pairing unit := modify (λ w, w <| PairingWorld.store ::= f |>).
Definition pairingJs {A} (r : result JsError A) : Pairing A :=
  lift (match r with Ok a => Ok a | Err e => Err (EnrollmentJs e) end).

Definition noPrevious (s : PairingStore.t) : PairingStore.t :=
  s <| PairingStore.previousHmacKey := None |> <| PairingStore.previousHmacKeyExpiresAt := None |> <| PairingStore.previousKeyVersion := None |>.

(** a number, [null], and what else a member can be *)
Definition orNull (o : option Z) : Json := match o with Some n => JNumber n | None => JNull end.
Definition isVersion (v : Json) : option Z := match v with JNumber n => if 1 <=? n then Some n else None | _ => None end.

(* pairing-store.ts:39-43 HmacKeyMetadata *)
Definition metadataJson (activeKeyVersion : Z) (previousKeyVersion previousKeyExpiresAt : option Z) : Json :=
  JObject [("activeKeyVersion", JNumber activeKeyVersion); ("previousKeyVersion", orNull previousKeyVersion);
           ("previousKeyExpiresAt", orNull previousKeyExpiresAt)].

Section pairing.
Context (backend : SecureStorageBackend.t) (digest : string → string) (hmac : list Z → string → list Z).

(* pairing-store.ts:218-228 saveMetadata *)
Definition saveMetadata : Pairing unit :=
  payload ← gets (λ w, let s := PairingWorld.store w in
    metadataJson (PairingStore.activeKeyVersion s) (PairingStore.previousKeyVersion s) (PairingStore.previousHmacKeyExpiresAt s));
  text ← pairingJs (stringify payload);
  withSecrets (storeSecret backend METADATA (utf8Encode (codesOf (default "undefined" text)))).

(** [if (hasSecret(name)) deleteSecret(name)] *)
Definition purge (keyName : string) : Pairing unit :=
  has ← withSecrets (hasSecret keyName);
  if (has : bool) then withSecrets (deleteSecret keyName) else mret tt.

(** the members of the metadata; a text outside Json.v is never written by [saveMetadata] *)
(* pairing-store.ts:125-158 loadOrInitializeHmacKeys, metadata *)
Definition readMetadata (rawMeta : list Z) : result EnrollmentError (Z * option (Z * Z)) :=
  match stringOf (utf8Decode rawMeta) ≫= λ s, match parse s with Value v _ => Some (Ok v) | SyntaxError => Some (Err tt) | _ => None end with
  | Some (Ok (JObject ms)) =>
      match isVersion (property ms "activeKeyVersion") with
      | None => Err EnrollmentSecurityError
      | Some active =>
          match property ms "previousKeyExpiresAt" with
          | JNull | JUndefined => Ok (active, None)
          | JNumber expires =>
              match isVersion (property ms "previousKeyVersion") with
              | Some previous => Ok (active, Some (previous, expires))
              | None => Err EnrollmentSecurityError
              end
          | _ => Err EnrollmentSecurityError
          end
      end
  | Some _ => Err EnrollmentSecurityError
  | None => Err (EnrollmentJs (PlainError "a text outside this model"))
  end.

(** a previous key is declared *)
(* pairing-store.ts:160-206 loadOrInitializeHmacKeys, previous key *)
Definition restorePrevious (time : TimeManager.t) (hrtime : Z) (previousVersion expires : Z) : Pairing unit :=
  effectiveTime ← lift (match getTrustedEffectiveTime hrtime time with Ok t => Ok t | Err _ => Err EnrollmentSecurityError end);
  if effectiveTime <=? expires then
    has ← withSecrets (hasSecret PREVIOUS_KEY);
    throw_when (negb has) EnrollmentSecurityError ;;
    loaded ← gets (λ w, snd (loadSecret backend PREVIOUS_KEY (PairingWorld.secrets w)));
    prevKey ← lift (match loaded with Ok k => Ok k | Err _ => Err EnrollmentSecurityError end);
    throw_when (negb (List.length (prevKey : list Z) =? 32)%nat) EnrollmentSecurityError ;;
    onStore (λ s, s <| PairingStore.previousHmacKey := Some prevKey |> <| PairingStore.previousHmacKeyExpiresAt := Some expires |>
                    <| PairingStore.previousKeyVersion := Some previousVersion |>)
  else purge PREVIOUS_KEY ;; onStore noPrevious ;; saveMetadata.

(* pairing-store.ts:74-216 loadOrInitializeHmacKeys *)
Definition loadOrInitializeHmacKeys (time : TimeManager.t) (hrtime : Z) (newKey : list Z) : Pairing unit :=
  hasActiveKey ← withSecrets (hasSecret ACTIVE_KEY);
  hasMetadata ← withSecrets (hasSecret METADATA);
  if negb hasActiveKey && negb hasMetadata then
    pairingJs (validateHmacKeyLength newKey) ;;
    onStore (λ s, noPrevious (s <| PairingStore.activeHmacKey := newKey |> <| PairingStore.activeKeyVersion := 1 |>)) ;;
    withSecrets (storeSecret backend ACTIVE_KEY newKey) ;;
    saveMetadata
  else
    throw_when (negb hasActiveKey) EnrollmentSecurityError ;;
    throw_when (negb hasMetadata) EnrollmentSecurityError ;;
    key ← withSecrets (loadSecret backend ACTIVE_KEY);
    onStore (λ s, s <| PairingStore.activeHmacKey := key |>) ;;
    pairingJs (validateHmacKeyLength key) ;;
    loaded ← gets (λ w, snd (loadSecret backend METADATA (PairingWorld.secrets w)));
    rawMeta ← lift (match loaded with Ok b => Ok b | Err _ => Err EnrollmentSecurityError end);
    meta ← lift (readMetadata rawMeta);
    onStore (λ s, s <| PairingStore.activeKeyVersion := fst (meta : Z * option (Z * Z)) |>) ;;
    match snd meta with
    | Some (previousVersion, expires) => restorePrevious time hrtime previousVersion expires
    | None => purge PREVIOUS_KEY ;; onStore noPrevious
    end.

(** the fields before [loadOrInitializeHmacKeys] *)
(* pairing-store.ts:61-72 constructor *)
Definition openPairingStore (organizationId branchId edgeId fingerprint : string) (defaultPairingTtlSeconds : option Z)
    (time : TimeManager.t) (hrtime : Z) (newKey : list Z) (secrets : SecretFiles) (db : SecurityDb.t) :
    PairingWorld.t * result EnrollmentError unit :=
  loadOrInitializeHmacKeys time hrtime newKey (PairingWorld.mk
    (PairingStore.mk organizationId branchId edgeId fingerprint (Z.min (default 600 defaultPairingTtlSeconds) 600) [] 1 None None None) secrets db).

(* pairing-store.ts:247-272 rotateHmacKey *)
Definition rotateHmacKey (time : TimeManager.t) (hrtime : Z) (newKey : list Z) (emergencyImmediateInvalidation : bool) : Pairing unit :=
  effectiveTime ← lift (getTrustedEffectiveTime hrtime time);
  pairingJs (validateHmacKeyLength newKey) ;;
  (if emergencyImmediateInvalidation then onStore noPrevious ;; purge PREVIOUS_KEY
   else
     retired ← gets (λ w, PairingStore.activeHmacKey (PairingWorld.store w));
     onStore (λ s, s <| PairingStore.previousHmacKey := Some retired |>
                     <| PairingStore.previousKeyVersion := Some (PairingStore.activeKeyVersion s) |>
                     <| PairingStore.previousHmacKeyExpiresAt := Some (effectiveTime + 43200) |>) ;;
     withSecrets (storeSecret backend PREVIOUS_KEY retired)) ;;
  onStore (λ s, s <| PairingStore.activeHmacKey := newKey |> <| PairingStore.activeKeyVersion ::= Z.add 1 |>) ;;
  withSecrets (storeSecret backend ACTIVE_KEY newKey) ;;
  saveMetadata.

(** the previous key while it is retained; an expired one is purged *)
(* pairing-store.ts:279-294 verifyStationToken, previous key *)
Definition previousKeyToUse (effectiveTime : Z) : Pairing (option (list Z)) :=
  s ← gets PairingWorld.store;
  match PairingStore.previousHmacKey s, PairingStore.previousHmacKeyExpiresAt s with
  | Some key, Some expires =>
      if effectiveTime <=? expires then mret (Some key)
      else onStore noPrevious ;; purge PREVIOUS_KEY ;; saveMetadata ;; mret None
  | _, _ => mret None
  end.

(** the outcome of the check is apart from the errors of the store *)
(* pairing-store.ts:277-297 verifyStationToken *)
Definition verifyToken (time : TimeManager.t) (hrtime : Z) (token : string) : Pairing (result IamError Json) :=
  effectiveTime ← lift (getTrustedEffectiveTime hrtime time);
  prevKeyToUse ← previousKeyToUse effectiveTime;
  active ← gets (λ w, PairingStore.activeHmacKey (PairingWorld.store w));
  mret (verifyStationToken hmac token active prevKeyToUse effectiveTime).

(* pairing-store.ts:304-331 createPairingPayload *)
Definition createPairingPayload (time : TimeManager.t) (hrtime : Z) (pairingId pairingSecret : string) (customTtlSeconds : option Z) :
    Pairing EnrollmentQRPayload.t :=
  trustedEffectiveTime ← lift (getTrustedEffectiveTime hrtime time);
  s ← gets PairingWorld.store;
  let ttl := Z.min (default (PairingStore.defaultTtlSeconds s) customTtlSeconds) 600 in
  let expiresAt := trustedEffectiveTime + ttl in
  withDb (EnrollmentPersistence.savePairingToken (PairingToken.mk pairingId (PairingStore.organizationId s) (PairingStore.branchId s)
    (PairingStore.edgeId s) (digest pairingSecret) expiresAt trustedEffectiveTime)) ;;
  mret (EnrollmentQRPayload.mk (PairingStore.branchId s) (PairingStore.edgeId s) (PairingStore.edgePublicKeyFingerprint s)
    pairingId expiresAt pairingSecret).

Definition tokenLifetimeSeconds : Z := 43200.

(** signed before the transaction *)
(* pairing-store.ts:340-373 enrollStation *)
Definition enrollStation (time : TimeManager.t) (hrtime : Z) (auditEventId : string) (request : StationEnrollmentRequest.t) :
    Pairing StationEnrollmentResponse.t :=
  trustedEffectiveTime ← lift (getTrustedEffectiveTime hrtime time);
  active ← gets (λ w, PairingStore.activeHmacKey (PairingWorld.store w));
  stationToken ← pairingJs (signStationToken hmac (StationTokenClaims.mk (StationEnrollmentRequest.stationId request)
    (StationEnrollmentRequest.organizationId request) (StationEnrollmentRequest.branchId request) (StationEnrollmentRequest.edgeId request)
    (StationEnrollmentRequest.stationCode request) (StationEnrollmentRequest.stationType request) trustedEffectiveTime
    (trustedEffectiveTime + tokenLifetimeSeconds)) active);
  withDb (EnrollmentPersistence.executeAtomicEnrollment digest request trustedEffectiveTime auditEventId) ;;
  mret (StationEnrollmentResponse.mk stationToken tokenLifetimeSeconds trustedEffectiveTime (StationEnrollmentRequest.stationId request)).
End pairing.

(** the status of the answer to a failed enrolment *)
(* enrollment-server.ts:161-193 handleRequest, errors *)
Definition enrollmentStatus (err : EnrollmentError) : Z :=
  match err with
  | EnrollmentContextMismatchError => 403
  | EnrollmentExpiredError => 410
  | EnrollmentAlreadyConsumedError => 409
  | ClockRollbackLockError => 423
  | EnrollmentSecurityError => 401
  | _ => 500
  end.
