(* ===== verification/Triples.v ===== *)
(** Reasoning about whole runs of the monad, errors included: postconditions ([post]) and
    relations between the state before and after ([keeps]).  The security services are proved
    with them, because their operations write on the way to an error. *)
From S2P Require Import Prelude.

(** ** Postconditions *)

Definition post {S E A} (m : M S E A) (s : S) (Q : S → result E A → Prop) : Prop := Q (fst (m s)) (snd (m s)).

Section post.
Context {S E : Type}.
Implicit Types s : S.

Lemma post_run {A} (m : M S E A) s s' r (Q : S → result E A → Prop) : post m s Q → m s = (s', r) → Q s' r.
Proof. unfold post. intros HQ Hm. by rewrite Hm in HQ. Qed.

Lemma post_of {A} (m : M S E A) s (Q : S → result E A → Prop) : (∀ s' r, m s = (s', r) → Q s' r) → post m s Q.
Proof. unfold post. intros HQ. apply HQ. by destruct (m s). Qed.

Lemma post_weaken {A} (m : M S E A) s (Q Q' : S → result E A → Prop) : post m s Q → (∀ s' r, Q s' r → Q' s' r) → post m s Q'.
Proof. unfold post. auto. Qed.

Lemma post_ret {A} (a : A) s (Q : S → result E A → Prop) : Q s (Ok a) → post (mret a) s Q.
Proof. done. Qed.

Lemma post_throw {A} (e : E) s (Q : S → result E A → Prop) : Q s (Err e) → post (mthrow e) s Q.
Proof. done. Qed.

Lemma post_bind {A B} (m : M S E A) (k : A → M S E B) s (Q : S → result E B → Prop) :
  post m s (λ s1 r, match r with Ok a => post (k a) s1 Q | Err e => Q s1 (Err e) end) → post (m ≫= k) s Q.
Proof. unfold post, mbind, M_bind. by destruct (m s) as [s1 [a|e]]. Qed.

Lemma post_gets {A} (f : S → A) s (Q : S → result E A → Prop) : Q s (Ok (f s)) → post (gets f) s Q.
Proof. done. Qed.

Lemma post_modify (f : S → S) s (Q : S → result E unit → Prop) : Q (f s) (Ok tt) → post (modify f) s Q.
Proof. done. Qed.

Lemma post_throw_when b (e : E) s (Q : S → result E unit → Prop) :
  (b = true → Q s (Err e)) → (b = false → Q s (Ok tt)) → post (throw_when b e) s Q.
Proof. destruct b; intros H1 H2; [by apply H1|by apply H2]. Qed.

Lemma post_require {A} (o : option A) (e : E) s (Q : S → result E A → Prop) :
  (o = None → Q s (Err e)) → (∀ a, o = Some a → Q s (Ok a)) → post (require o e) s Q.
Proof. destruct o; intros H1 H2; [by apply H2|by apply H1]. Qed.

Lemma post_lift {A} (r : result E A) s (Q : S → result E A → Prop) : Q s r → post (lift r) s Q.
Proof. done. Qed.
End post.

(** ** Relations kept by every run *)

Definition keeps {S E A} (R : S → S → Prop) (m : M S E A) : Prop := ∀ s, R s (fst (m s)).

Section keeps.
Context {S E : Type} (R : S → S → Prop) `{!PreOrder R}.

Lemma keeps_ret {A} (a : A) : keeps R (mret a : M S E A).
Proof. intros s. by change (R s s). Qed.
Lemma keeps_throw {A} (e : E) : keeps R (mthrow e : M S E A).
Proof. intros s. by change (R s s). Qed.
Lemma keeps_gets {A} (f : S → A) : keeps R (gets f : M S E A).
Proof. intros s. by change (R s s). Qed.
Lemma keeps_lift {A} (r : result E A) : keeps R (lift r : M S E A).
Proof. intros s. by change (R s s). Qed.
Lemma keeps_require {A} (o : option A) (e : E) : keeps R (require o e : M S E A).
Proof. intros s. by destruct o. Qed.
Lemma keeps_throw_when b (e : E) : keeps R (throw_when b e : M S E unit).
Proof. intros s. by destruct b. Qed.
Lemma keeps_modify (f : S → S) : (∀ s, R s (f s)) → keeps R (modify f : M S E unit).
Proof. done. Qed.
Lemma keeps_bind {A B} (m : M S E A) (k : A → M S E B) : keeps R m → (∀ a, keeps R (k a)) → keeps R (m ≫= k).
Proof.
  intros Hm Hk s. unfold mbind, M_bind. specialize (Hm s). destruct (m s) as [s1 [a|e]]; [|done].
  etrans; [exact Hm|]. apply Hk.
Qed.
End keeps.

Lemma keeps_run {S E A} (R : S → S → Prop) (m : M S E A) s s' r : keeps R m → m s = (s', r) → R s s'.
Proof. intros Hk Hm. specialize (Hk s). by rewrite Hm in Hk. Qed.

Create HintDb keeps.

(** [keeps] walks through a program; what its writes keep are hints of [keeps] *)
Ltac keeps_step :=
  lazymatch goal with
  | |- PreOrder _ => apply _
  | |- keeps _ (mret _) => apply keeps_ret
  | |- keeps _ (mthrow _) => apply keeps_throw
  | |- keeps _ (gets _) => apply keeps_gets
  | |- keeps _ (lift _) => apply keeps_lift
  | |- keeps _ (require _ _) => apply keeps_require
  | |- keeps _ (throw_when _ _) => apply keeps_throw_when
  | |- keeps _ (_ ≫= _) => apply keeps_bind
  | |- keeps _ (match _ with _ => _ end) => case_match
  | |- keeps _ (let _ := _ in _) => cbv zeta
  | |- keeps _ _ => solve [eauto with keeps]
  | |- ∀ _, _ => intros ?
  end.
Ltac keeps := repeat keeps_step.

(** [posts] walks through a program, leaving its calls *)
Ltac posts_step :=
  lazymatch goal with
  | |- post (_ ≫= _) _ _ => apply post_bind
  | |- post (mret _) _ _ => apply post_ret
  | |- post (mthrow _) _ _ => apply post_throw
  | |- post (gets _) _ _ => apply post_gets
  | |- post (modify _) _ _ => apply post_modify
  | |- post (lift _) _ _ => apply post_lift
  | |- post (throw_when _ _) _ _ => apply post_throw_when; intros ?
  | |- post (require _ _) _ _ => apply post_require; intros
  | |- match _ with Ok _ => _ | Err _ => _ end => progress cbv beta iota
  | |- (λ _, _) _ _ => progress cbv beta iota
  end.
Ltac posts := repeat posts_step.
