(* ===== verification/IamSample.v ===== *)
(** A concrete edge for the examples of the security components: a station and two users of one
    branch, the hash as the identity, the HMAC as the bytes of the text, and Argon2 as a comparison
    with the text after its prefix. *)
From S2P Require Import Prelude Decimals Json JsonSpec JsonText Buffers AuditTrail SecureStore TrustedTime EdgeSecurity Tokens Iam.
From Stdlib Require Import Ascii String.

Definition sampleDigest (s : string) : string := s.
Definition sampleHmac (key : list Z) (s : string) : list Z := codesOf s.
Definition sampleArgon (hash pin : string) : option bool := Some (bool_decide (hash = ARGON2ID_PREFIX +:+ pin)).
Definition sampleParse (s : string) : option Z := None.
Definition plainBackend : SecureStorageBackend.t := SecureStorageBackend.mk true "gnome_libsecret" Ok Ok.
#[export] Instance plainBackend_faithful : FaithfulBackend plainBackend.
Proof. split. by intros secret blob _ [= ->]. Qed.

Lemma sampleHmac_bytes : hmacBytes sampleHmac.
Proof.
  intros key m. unfold sampleHmac, codesOf. rewrite Forall_fmap. apply Forall_true. intros c. unfold isByte; simpl.
  pose proof (N_ascii_bounded c). lia.
Qed.

Definition sampleKey : list Z := replicate 32 7.
Definition sampleSecrets : SecretFiles := {[HMAC_KEY := sampleKey]}.
Definition sampleService : IamService.t := IamService.mk "edge-1" "org-1" "branch-1".
Definition station1 : string := "aaaaaaaa-0000-0000-0000-000000000001".
Definition waiter1 : string := "bbbbbbbb-0000-0000-0000-000000000001".
Definition boss1 : string := "bbbbbbbb-0000-0000-0000-000000000002".
Definition sampleUser (pin role : string) : CachedUser.t :=
  CachedUser.mk "org-1" "A" (ARGON2ID_PREFIX +:+ pin) (text (JArray [JString role])) 1 "1000" "900000" false.
Definition sampleDb : SecurityDb.t :=
  SecurityDb.mk ∅ {[station1 := StationCredentialRow.mk "org-1" "branch-1" "POS-1" "POS" "key" 1000 false None]} []
    (<[waiter1 := sampleUser "4321" "ROLE-003"]> {[boss1 := sampleUser "8765" "ROLE-001"]}) [] ∅.

(** trusted time is 2000 plus the seconds of the monotonic clock *)
Definition sampleTime : TimeManager.t := TimeManager.mk (Some 2000) (Some 0) false None ∅.
Definition seconds (n : Z) : Z := n * NANOSECONDS.
Definition samplePin (pin : string) : PinAuthRequest.t := PinAuthRequest.mk station1 waiter1 pin None.
Definition sampleUnlock (pin : string) : SupervisorUnlockRequest.t := SupervisorUnlockRequest.mk station1 boss1 pin "r".
Definition sampleDraws (n : string) : IamDraws.t := IamDraws.mk ("l" +:+ n) ("s" +:+ n) ("e" +:+ n).

(** the usual pair of a run and its projection *)
Definition outcome {S E A} (r : S * result E A) : result E A := snd r.

Example sign_in : ∃ s, outcome (authenticateWithPin plainBackend sampleDigest sampleHmac sampleArgon sampleParse sampleService sampleTime
  (seconds 5) sampleSecrets (sampleDraws "1") (samplePin "4321") sampleDb) = Ok s ∧ PinAuthSuccess.roles s = ["ROLE-003"].
Proof. eexists. split; vm_compute; reflexivity. Qed.
Example wrong_pin : outcome (authenticateWithPin plainBackend sampleDigest sampleHmac sampleArgon sampleParse sampleService sampleTime
  (seconds 5) sampleSecrets (sampleDraws "1") (samplePin "4322") sampleDb) = iamErr AUTHENTICATION_FAILED.
Proof. vm_compute. reflexivity. Qed.
