(* ===== verification/LockoutSpec.v ===== *)
(** The lockout of a station: the persisted counters against an abstract lock, and the bound they
    put on guesses of a PIN when requests run one after another. *)
From S2P Require Import Prelude Triples Json JsonText Buffers AuditTrail SecureStore TrustedTime EdgeSecurity Tokens Iam IamSample.
From Stdlib Require Import Ascii String.

Abbreviation lockouts := SecurityDb.station_lockout_state.

(** ** The abstract lock *)

Inductive Lock := Counting (failures : Z) | LockedUntil (until : Z).

Definition blocked (now : Z) (l : Lock) : bool := match l with LockedUntil until => now <? until | Counting _ => false end.

(** a failure: the fifth locks for five minutes, and so does each one after a lock has run out *)
Definition failed (now : Z) (l : Lock) : Lock :=
  match l with
  | Counting k => if k + 1 <? 5 then Counting (k + 1) else LockedUntil (now + 300)
  | LockedUntil until => if until <=? now then LockedUntil (now + 300) else LockedUntil until
  end.

Definition failuresOf (row : option LockoutState.t) : Z := default 0 (LockoutState.consecutiveFailures <$> row).
Definition lockOf (row : option LockoutState.t) : Lock :=
  match row ≫= LockoutState.lockedUntil with Some l => LockedUntil l | None => Counting (failuresOf row) end.

(** a lock is there exactly from the fifth failure on *)
Definition lockWf (row : option LockoutState.t) : Prop :=
  0 <= failuresOf row ∧
  match row ≫= LockoutState.lockedUntil with Some l => 5 <= failuresOf row ∧ 0 < l | None => failuresOf row < 5 end.

(** the row after a failure *)
Definition failRow (row : option LockoutState.t) (now : Z) : LockoutState.t :=
  let n := failuresOf row + 1 in
  let before := row ≫= LockoutState.lockedUntil in
  LockoutState.mk n (if (FAILURE_THRESHOLD <=? n) && lockable before now then Some (now + LOCKOUT_DURATION_SECONDS) else before) (Some now) now.
Definition recorded (st : string) (now : Z) (d : SecurityDb.t) : SecurityDb.t :=
  d <| SecurityDb.station_lockout_state := <[st := failRow (lockouts d !! st) now]> (lockouts d) |>.
Definition resetRow (row : option LockoutState.t) (now : Z) : LockoutState.t :=
  LockoutState.mk 0 None (row ≫= LockoutState.lastFailedAt) now.

Definition evaluation (row : option LockoutState.t) (now : Z) : FailureEvaluation.t :=
  let r := failRow row now in
  let n := LockoutState.consecutiveFailures r in
  let locked := match LockoutState.lockedUntil r with Some l => now <? l | None => false end in
  FailureEvaluation.mk n locked (LockoutState.lockedUntil r) (if locked then default 0 (LockoutState.lockedUntil r) - now else 0)
    (if n =? 3 then 2000 else if 4 <=? n then 5000 else 0)
    ((5 <=? n) && lockable (row ≫= LockoutState.lockedUntil) now).

Lemma run_recordFailure st now d : recordFailure st now d = (recorded st now d, Ok (evaluation (lockouts d !! st) now)).
Proof.
  unfold recordFailure, IamPersistence.getLockoutState, IamPersistence.recordFailedAttempt, inTransaction. mrun.
  rewrite (bind_run_ok _ _ d (recorded st now d) (failRow (lockouts d !! st) now)); [done|].
  unfold IamPersistence.getLockoutState. mrun. unfold recorded, failRow, failuresOf. destruct (lockouts d !! st) as [[n [l|] f u]|]; simpl; by repeat case_match.
Qed.

Lemma run_checkLockout st now d : checkLockout st now d =
  (d, Ok (match lockOf (lockouts d !! st) with LockedUntil l => if now <? l then Some (l - now) else None | Counting _ => None end)).
Proof. unfold checkLockout, IamPersistence.getLockoutState, lockOf. mrun. by destruct (lockouts d !! st ≫= _). Qed.

Lemma run_reset st now d : IamPersistence.resetLockoutState st now d =
  (d <| SecurityDb.station_lockout_state := <[st := resetRow (lockouts d !! st) now]> (lockouts d) |>, Ok tt).
Proof.
  unfold IamPersistence.resetLockoutState, modify, resetRow. destruct d as [a b c e f g]; simpl. unfold set; simpl. by destruct (g !! st).
Qed.

Lemma fail_lock row now : lockWf row → 0 <= now →
  lockOf (Some (failRow row now)) = failed now (lockOf row) ∧ lockWf (Some (failRow row now)).
Proof.
  unfold lockWf, lockOf, failRow, lockable, FAILURE_THRESHOLD, LOCKOUT_DURATION_SECONDS. intros [Hn Hl] Hnow.
  destruct (row ≫= LockoutState.lockedUntil) as [l|] eqn:E; simpl; unfold failuresOf in *; simpl.
  - destruct Hl as [H5 H0]. rewrite (proj2 (Z.leb_le _ _)) by lia. rewrite (proj2 (Z.eqb_neq l 0)) by lia. simpl.
    destruct (Z.leb_spec l now); simpl; (split; [done|lia]).
  - rewrite andb_true_r. destruct (Z.leb_spec 5 (default 0 (LockoutState.consecutiveFailures <$> row) + 1)); simpl.
    + rewrite (proj2 (Z.ltb_ge _ _)) by lia. split; [done|lia].
    + rewrite (proj2 (Z.ltb_lt _ _)) by lia. split; [done|lia].
Qed.

Lemma reset_lock row now : lockOf (Some (resetRow row now)) = Counting 0 ∧ lockWf (Some (resetRow row now)).
Proof. unfold lockWf, lockOf. simpl. unfold failuresOf. simpl. split; [done|lia]. Qed.

(** C38: the lockout implements the abstract lock.  The check refuses exactly while the lock is on,
    with the seconds that remain; a failure moves the lock as the policy says, its evaluation tells
    the new state, the pause (two seconds at the third, five from the fourth) and whether a lock
    begins; a success and an unlock clear it; other stations and other tables do not change. *)
Theorem lockout_refines_lock st now d :
  lockWf (lockouts d !! st) → 0 <= now →
  let lock := lockOf (lockouts d !! st) in
  (∃ r, checkLockout st now d = (d, Ok r) ∧ (is_Some r ↔ blocked now lock = true) ∧ ∀ s, r = Some s → lock = LockedUntil (now + s) ∧ 0 < s) ∧
  (∃ d' ev, recordFailure st now d = (d', Ok ev) ∧ lockOf (lockouts d' !! st) = failed now lock ∧ lockWf (lockouts d' !! st) ∧
    delete st (lockouts d') = delete st (lockouts d) ∧ SecurityDb.station_sessions d' = SecurityDb.station_sessions d ∧
    FailureEvaluation.isLocked ev = blocked now (failed now lock) ∧
    (FailureEvaluation.isNewLockout ev = true ↔ failed now lock = LockedUntil (now + 300) ∧ blocked now lock = false) ∧
    FailureEvaluation.delayMs ev =
      match FailureEvaluation.consecutiveFailures ev with 1 | 2 => 0 | 3 => 2000 | _ => 5000 end) ∧
  ∀ op, op = recordSuccess ∨ op = unlock →
    ∃ d', op st now d = (d', Ok tt) ∧ lockOf (lockouts d' !! st) = Counting 0 ∧ lockWf (lockouts d' !! st) ∧
      delete st (lockouts d') = delete st (lockouts d).
Proof.
  intros Hwf Hnow. cbv zeta. destruct (fail_lock _ _ Hwf Hnow) as [Hf Hf']. split_and!.
  - eexists. split; [apply run_checkLockout|]. clear Hf. destruct (lockOf (lockouts d !! st)) as [k|l]; simpl.
    + split; [split; [by intros []|done]|done].
    + destruct (Z.ltb_spec now l); (split; [split; [intros [? ?]; done|intros; first [done|by eexists]]|]); [|done]. intros s [= <-]. split; [f_equal; lia|lia].
  - eexists _, _. split; [apply run_recordFailure|]. unfold recorded. simpl. rewrite lookup_insert_eq. split_and!; try done.
    + apply delete_insert_eq.
    + unfold evaluation. simpl. rewrite <- Hf. unfold lockOf. simpl. by destruct (if _ && _ then _ else _).
    + unfold evaluation, lockOf, failed, blocked, lockWf, lockable, failuresOf in *. simpl.
      destruct (lockouts d !! st ≫= LockoutState.lockedUntil) as [l|] eqn:E; destruct Hwf as [H0 H1].
      * rewrite (proj2 (Z.leb_le _ _)), (proj2 (Z.eqb_neq _ _)) by lia. simpl.
        destruct (Z.leb_spec l now), (Z.ltb_spec now l); try lia; (split; [|intros [? ?]]); try done.
      * rewrite andb_true_r. destruct (Z.leb_spec 5 (default 0 (LockoutState.consecutiveFailures <$> lockouts d !! st) + 1)), (Z.ltb_spec (default 0 (LockoutState.consecutiveFailures <$> lockouts d !! st) + 1) 5); try lia; naive_solver.
    + unfold evaluation. simpl. destruct Hwf as [H0 _].
      destruct (Z.eqb_spec (failuresOf (lockouts d !! st) + 1) 3) as [->|]; [done|].
      destruct (Z.leb_spec 4 (failuresOf (lockouts d !! st) + 1)) as [H4|H4]; [by repeat (case_match; try lia)|].
      assert (failuresOf (lockouts d !! st) + 1 = 1 ∨ failuresOf (lockouts d !! st) + 1 = 2) as [->| ->] by lia; done.
  - intros op Hop. assert (op = IamPersistence.resetLockoutState) as -> by by destruct Hop as [->| ->].
    eexists. split; [apply run_reset|]. simpl. rewrite lookup_insert_eq. destruct (reset_lock (lockouts d !! st) now). split_and!; try done. apply delete_insert_eq.
Qed.

Definition lockoutWitnessDb (n u : Z) : SecurityDb.t :=
  sampleDb <| SecurityDb.station_lockout_state := {[station1 := LockoutState.mk n (if n <? 5 then None else Some u) (Some 2000) 2000]} |>.

(** the sixth failure, after the lock of the fifth ran out *)
Example lockout_refines_lock_witness :
  lockOf (lockouts (fst (recordFailure station1 2400 (lockoutWitnessDb 5 2300))) !! station1) = LockedUntil 2700 ∧
  ∃ d', recordSuccess station1 2400 (lockoutWitnessDb 5 2300) = (d', Ok tt) ∧ lockOf (lockouts d' !! station1) = Counting 0.
Proof.
  destruct (lockout_refines_lock station1 2400 (lockoutWitnessDb 5 2300)) as (_ & (d' & ev & Hr & Hl & _) & Hop); [unfold lockWf; vm_compute; intuition congruence|lia|].
  rewrite Hr. split; [exact Hl|]. destruct (Hop _ (or_introl eq_refl)) as (d2 & H1 & H2 & _). by exists d2.
Defined.

(** ** What the operations do to the lockouts *)

(** the tables agree on a column of the record *)
Definition sameBy {A} (f : SecurityDb.t → A) (d d' : SecurityDb.t) : Prop := f d' = f d.
#[global] Instance sameBy_preorder {A} (f : SecurityDb.t → A) : PreOrder (sameBy f).
Proof. split; [done|]. intros d1 d2 d3 H1 H2. unfold sameBy in *. by rewrite H2. Qed.

Lemma keeps_inTransaction {E A} R `{!PreOrder R} (m : M SecurityDb.t E A) : keeps R m → keeps R (inTransaction m).
Proof. intros Hm d. specialize (Hm d). unfold inTransaction. destruct (m d) as [d' [a|e]]; [exact Hm|]. by change (R d d). Qed.
Lemma keeps_store {A} R (m : Sec A) : keeps R m → keeps R (store m).
Proof. intros Hm d. specialize (Hm d). unfold store. by destruct (m d) as [d' [a|e]]. Qed.

(** only the audit table is written by an audit event *)
Lemma keeps_audit {A} digest input (f : SecurityDb.t → A) :
  (∀ d l, f (d <| SecurityDb.edge_security_audit := l |>) = f d) → keeps (sameBy f) (appendAuditEventInternal digest input).
Proof.
  intros Hf. unfold appendAuditEventInternal, jsonColumn, secJs. keeps. all: apply keeps_modify; intros d; apply Hf.
Qed.

Lemma post_store {A} (m : Sec A) d Q : post m d (λ d' r, Q d' (match r with Ok a => Ok a | Err e => Err (IamStore e) end)) → post (store m) d Q.
Proof. unfold post, store. by destruct (m d) as [d' [a|e]]. Qed.

Lemma post_recordFailure st now d Q : Q (recorded st now d) (Ok (evaluation (lockouts d !! st) now)) → post (recordFailure st now) d Q.
Proof. unfold post. by rewrite run_recordFailure. Qed.
Lemma post_checkLockout st now d (Q : SecurityDb.t → result EnrollmentError (option Z) → Prop) :
  Q d (Ok (match lockOf (lockouts d !! st) with LockedUntil l => if now <? l then Some (l - now) else None | Counting _ => None end)) →
  post (checkLockout st now) d Q.
Proof. unfold post. by rewrite run_checkLockout. Qed.

Section effects.
Context (backend : SecureStorageBackend.t) (digest : string → string) (hmac : list Z → string → list Z).
Context (argon2verify : string → string → option bool) (dateParse : string → option Z) (service : IamService.t).

Lemma keeps_emit {A} eventId st ev now (f : SecurityDb.t → A) :
  (∀ d l, f (d <| SecurityDb.edge_security_audit := l |>) = f d) → keeps (sameBy f) (emitLockoutAuditEvent digest service eventId st ev now).
Proof.
  intros Hf. unfold emitLockoutAuditEvent, appendAuditEvent. apply keeps_bind; [apply _| |intros ?; by apply keeps_ret; apply _].
  apply keeps_store, keeps_inTransaction; [apply _|by apply keeps_audit].
Qed.

(** a refusal: nothing, or one failure counted *)
Definition refused (st : string) (now : Z) (d d' : SecurityDb.t) : Prop :=
  d' = d ∨ lockouts d' = lockouts (recorded st now d).

Lemma post_refuse {A} st now code d (Q : SecurityDb.t → result IamError A → Prop) :
  Q (recorded st now d) (Err (OfflineIamError code None 0)) → post (refuse st now code) d Q.
Proof. intros HQ. unfold refuse, denied. posts. apply post_store, post_recordFailure. by posts. Qed.

Lemma post_emit st now d d0 eventId ev (Q : SecurityDb.t → result IamError unit → Prop) :
  lockouts d = lockouts (recorded st now d0) → (∀ d' r, lockouts d' = lockouts (recorded st now d0) → Q d' r) →
  post (emitLockoutAuditEvent digest service eventId st ev now) d Q.
Proof.
  intros Hd HQ. apply post_of. intros d' r Hr. apply HQ. rewrite <- Hd. pose proof (keeps_emit eventId st ev now lockouts ltac:(done) d) as Hk.
  rewrite Hr in Hk. exact Hk.
Qed.

Lemma post_refuseAudited {A} eventId st now code delays d (Q : SecurityDb.t → result IamError A → Prop) :
  (∀ d' e, refused st now d d' → Q d' (Err e)) → post (refuseAudited digest service eventId st now code delays) d Q.
Proof.
  intros HQ. unfold refuseAudited. posts. apply post_store, post_recordFailure. cbn match. posts.
  destruct (FailureEvaluation.isNewLockout _).
  - apply (post_emit st now _ d); [done|]. intros d' [[]|e] Hd'; [posts|]; apply HQ; by right.
  - posts. apply HQ. by right.
Qed.

Lemma post_checkStation st d (Q : SecurityDb.t → result IamError unit → Prop) :
  (∀ r, Q d r) → post (checkStation service st) d Q.
Proof. intros HQ. unfold checkStation, denied_when, IamPersistence.getStationCredential. posts. apply post_store, post_gets. posts; apply HQ. Qed.

Lemma post_checkUser st uid now d (Q : SecurityDb.t → result IamError CachedUser.t → Prop) :
  (∀ user, SecurityDb.cached_users d !! uid = Some user → Q d (Ok user)) →
  (∀ code, Q (recorded st now d) (Err (OfflineIamError code None 0))) → post (checkUser dateParse service st uid now) d Q.
Proof.
  intros H1 H2. unfold checkUser, IamPersistence.getCachedUser. posts. apply post_store, post_gets. cbn match.
  destruct (SecurityDb.cached_users d !! uid) as [user|] eqn:E; [|by apply post_refuse].
  repeat (case_match; try by apply post_refuse). posts. by apply H1.
Qed.

(** before the PIN: either it goes on with the tables as they were and the lock off, or it stops *)
Lemma post_begin time hr request d : post (beginPinAuth dateParse service time hr request) d (λ d' r,
  match r with
  | Ok p => d' = d ∧ PendingAuth.request p = request ∧ readClock time hr = Ok (PendingAuth.now p) ∧
      blocked (PendingAuth.now p) (lockOf (lockouts d !! PinAuthRequest.stationId request)) = false ∧
      SecurityDb.cached_users d !! PinAuthRequest.userId request = Some (PendingAuth.user p)
  | Err _ => d' = d ∨ ∃ now, readClock time hr = Ok now ∧ refused (PinAuthRequest.stationId request) now d d'
  end).
Proof.
  unfold beginPinAuth, denied_when. posts; try by left. destruct (readClock time hr) as [now|e]; [|by left]. posts.
  apply post_checkStation. intros [[]|e]; [|by left]. posts. apply post_store, post_checkLockout. cbn match. posts.
  destruct (match lockOf _ with Counting _ => None | LockedUntil l => if now <? l then Some (l - now) else None end) as [s|] eqn:Hlock; posts; try by left.
  apply post_checkUser; [|intros code; right; exists now; split; [done|by right]]. intros user Hu. posts. split_and!; try done.
  cbn [PendingAuth.now]. destruct (lockOf _); [done|]. simpl. by destruct (now <? until).
Qed.

Lemma post_rejectPin draws p d : post (rejectPin digest service draws p) d (λ d' r, (∃ e, r = Err e) ∧
  lockouts d' = lockouts (recorded (PinAuthRequest.stationId (PendingAuth.request p)) (PendingAuth.now p) d)).
Proof.
  unfold rejectPin. posts. apply post_store, post_recordFailure. cbn match. posts. destruct (FailureEvaluation.isNewLockout _).
  - eapply post_emit; [done|]. intros d' [[]|e] Hd'; [|split; [by eexists|done]]. case_match; posts; (split; [by eexists|done]).
  - posts. case_match; posts; (split; [by eexists|done]).
Qed.

Lemma post_checkSupervisor eventId st uid now d : post (checkSupervisor digest dateParse service eventId st uid now) d (λ d' r,
  match r with Ok _ => d' = d | Err _ => refused st now d d' end).
Proof.
  unfold checkSupervisor, IamPersistence.getCachedUser. posts. apply post_store, post_gets. posts.
  repeat (case_match; try by apply post_refuseAudited). posts. destruct (parseRoles _) as [parsed|e]; posts; [|by left].
  repeat (case_match; try by apply post_refuseAudited). by posts.
Qed.

Lemma post_beginUnlock time hr draws request d : post (beginUnlock digest dateParse service time hr draws request) d (λ d' r,
  match r with
  | Ok p => d' = d ∧ PendingUnlock.request p = request ∧ readClock time hr = Ok (PendingUnlock.now p)
  | Err _ => d' = d ∨ ∃ now, readClock time hr = Ok now ∧ refused (SupervisorUnlockRequest.stationId request) now d d'
  end).
Proof.
  unfold beginUnlock, denied_when. posts; try by left. destruct (readClock time hr) as [now|e]; [|by left]. posts.
  apply post_checkStation. intros [[]|e]; [|by left]. posts. destruct (validatePinFormat _).
  - posts. eapply post_weaken; [apply post_checkSupervisor|]. intros d' [u|e] Hd'; posts; [by subst|]. right. by exists now.
  - apply post_refuseAudited. intros d' e Hd'. posts. right. by exists now.
Qed.

Lemma post_finishUnlock draws p d : post (finishUnlock digest argon2verify service draws p) d (λ d' r,
  ∀ e, r = Err e → refused (SupervisorUnlockRequest.stationId (PendingUnlock.request p)) (PendingUnlock.now p) d d').
Proof.
  unfold finishUnlock. case_match; [apply post_refuseAudited; intros d' e Hd' _ _; exact Hd'|]. posts. apply post_store, post_of.
  intros d' [a|e] Hr; posts; [done|]. intros _ _. left. revert Hr. unfold IamPersistence.unlockStationWithAudit, inTransaction. case_match. case_match; congruence.
Qed.
End effects.

(** ** Requests one after another *)

Inductive IamRequest :=
| SignIn (time : TimeManager.t) (hrtime : Z) (secrets : SecretFiles) (draws : IamDraws.t) (request : PinAuthRequest.t)
| SupervisorUnlock (time : TimeManager.t) (hrtime : Z) (draws : IamDraws.t) (request : SupervisorUnlockRequest.t)
| RevokeSession (time : TimeManager.t) (hrtime : Z) (sessionId : string)
| FlushSessions (now : Z)
| UpsertUser (input : CachedUserInput.t)
| InvalidateUser (userId : string)
| DeleteUser (userId : string)
| SavePairingToken (token : PairingToken.t)
| EnrollStation (request : StationEnrollmentRequest.t) (now : Z) (auditEventId : string)
| AppendAudit (event : SecurityEvent.t).

Section requests.
Context (backend : SecureStorageBackend.t) (digest : string → string) (hmac : list Z → string → list Z).
Context (argon2verify : string → string → option bool) (dateParse : string → option Z) (service : IamService.t).

Definition performIam (q : IamRequest) (d : SecurityDb.t) : SecurityDb.t :=
  match q with
  | SignIn time hr secrets draws r => fst (authenticateWithPin backend digest hmac argon2verify dateParse service time hr secrets draws r d)
  | SupervisorUnlock time hr draws r => fst (supervisorUnlockStation digest argon2verify dateParse service time hr draws r d)
  | RevokeSession time hr sid => fst (revokeSession time hr sid d)
  | FlushSessions now => fst (IamPersistence.flushExpiredSessions now d)
  | UpsertUser input => fst (IamPersistence.upsertCachedUser input d)
  | InvalidateUser u => fst (IamPersistence.invalidateCachedUser u d)
  | DeleteUser u => fst (IamPersistence.deleteCachedUser u d)
  | SavePairingToken token => fst (EnrollmentPersistence.savePairingToken token d)
  | EnrollStation r now id => fst (EnrollmentPersistence.executeAtomicEnrollment digest r now id d)
  | AppendAudit e => fst (appendAuditEvent digest e d)
  end.

(** a wrong PIN was tried at the station, and the answer told so *)
Definition isGuess (st : string) (q : IamRequest) (d : SecurityDb.t) : bool :=
  match q with
  | SignIn time hr _ _ r =>
      bool_decide (PinAuthRequest.stationId r = st) &&
      match snd (beginPinAuth dateParse service time hr r d) with Ok p => negb (pinMatches argon2verify p) | Err _ => false end
  | _ => false
  end.

(** the right PIN of a user was entered at the station, or a supervisor unlocked it *)
Definition clears (st : string) (q : IamRequest) (d : SecurityDb.t) : bool :=
  match q with
  | SignIn time hr _ _ r =>
      bool_decide (PinAuthRequest.stationId r = st) &&
      match snd (beginPinAuth dateParse service time hr r d) with Ok p => pinMatches argon2verify p | Err _ => false end
  | SupervisorUnlock time hr draws r =>
      bool_decide (SupervisorUnlockRequest.stationId r = st) &&
      match snd (supervisorUnlockStation digest argon2verify dateParse service time hr draws r d) with Ok _ => true | Err _ => false end
  | _ => false
  end.

(** the trusted time a request reads, when it writes a lockout *)
Definition timeOf (q : IamRequest) : option Z :=
  match q with
  | SignIn time hr _ _ _ | SupervisorUnlock time hr _ _ => match readClock time hr with Ok now => Some now | Err _ => None end
  | _ => None
  end.

(** trusted time does not go back, from [t0] to [t1] *)
Fixpoint inOrder (t0 : Z) (qs : list IamRequest) (t1 : Z) : Prop :=
  match qs with
  | [] => t0 <= t1
  | q :: qs' => match timeOf q with Some now => t0 <= now ∧ inOrder now qs' t1 | None => inOrder t0 qs' t1 end
  end.

Fixpoint guesses (st : string) (qs : list IamRequest) (d : SecurityDb.t) : Z :=
  match qs with [] => 0 | q :: qs' => (if isGuess st q d then 1 else 0) + guesses st qs' (performIam q d) end.
Fixpoint undisturbed (st : string) (qs : list IamRequest) (d : SecurityDb.t) : bool :=
  match qs with [] => true | q :: qs' => negb (clears st q d) && undisturbed st qs' (performIam q d) end.

(** one request: the lock of a station moves by at most one failure, at the time of the request *)
Definition moves (q : IamRequest) (row row' : option LockoutState.t) : Prop :=
  row' = row ∨ ∃ now, timeOf q = Some now ∧ row' = Some (failRow row now).

Lemma refused_lookup st now d d' : refused st now d d' → lockouts d' !! st = lockouts d !! st ∨ lockouts d' !! st = Some (failRow (lockouts d !! st) now).
Proof. intros [->| ->]; [by left|right]. unfold recorded. simpl. apply lookup_insert_eq. Qed.

(** the lockouts of the other stations *)
Definition restOf (st : string) (d : SecurityDb.t) : gmap string LockoutState.t := delete st (lockouts d).

Lemma restOf_lookup st st' d d' : st' ≠ st → sameBy (restOf st') d d' → lockouts d' !! st = lockouts d !! st.
Proof. unfold sameBy, restOf. intros Hne H. rewrite <- (lookup_delete_ne (lockouts d') st' st), H, lookup_delete_ne by done. done. Qed.

Lemma keeps_recordFailure st now : keeps (sameBy (restOf st)) (recordFailure st now).
Proof. intros d. rewrite run_recordFailure. unfold sameBy, restOf, recorded. simpl. apply delete_insert_eq. Qed.
Lemma keeps_reset st now : keeps (sameBy (restOf st)) (IamPersistence.resetLockoutState st now).
Proof. intros d. rewrite run_reset. unfold sameBy, restOf. simpl. apply delete_insert_eq. Qed.
Lemma keeps_append {A} event (f : SecurityDb.t → A) :
  (∀ d l, f (d <| SecurityDb.edge_security_audit := l |>) = f d) → keeps (sameBy f) (appendAuditEvent digest event).
Proof. intros Hf. unfold appendAuditEvent. apply keeps_inTransaction; [apply _|by apply keeps_audit]. Qed.

Lemma keeps_createSession {A} session roles eid edge ty sev act meta (f : SecurityDb.t → A) :
  (∀ d l, f (d <| SecurityDb.edge_security_audit := l |>) = f d) → (∀ d g, f (d <| SecurityDb.station_sessions ::= g |>) = f d) →
  keeps (sameBy f) (IamPersistence.createSessionWithAudit digest session roles eid edge ty sev act meta).
Proof.
  intros H1 H2. unfold IamPersistence.createSessionWithAudit. apply keeps_inTransaction; [apply _|].
  unfold IamPersistence.insertSession, jsonColumn, secJs. keeps. all: first [by apply keeps_audit|apply keeps_modify; intros d; apply H2].
Qed.

Lemma keeps_beginPinAuth time hr r : keeps (sameBy (restOf (PinAuthRequest.stationId r))) (beginPinAuth dateParse service time hr r).
Proof.
  intros d. pose proof (post_begin dateParse service time hr r d) as H. unfold post in H. destruct (beginPinAuth _ _ _ _ _ d) as [d' [p|e]]; simpl in *.
  - by destruct H as [-> _].
  - destruct H as [->|(now & _ & [->|H])]; [done..|]. unfold sameBy, restOf. rewrite H. simpl. apply delete_insert_eq.
Qed.

Lemma keeps_finishPinAuth secrets draws p :
  keeps (sameBy (restOf (PinAuthRequest.stationId (PendingAuth.request p)))) (finishPinAuth backend digest hmac argon2verify service secrets draws p).
Proof.
  unfold finishPinAuth, acceptPin, rejectPin, chooseRole, refuse, denied, openSession, recordSuccess. keeps.
  all: first [by apply keeps_emit|apply keeps_store].
  all: first [apply keeps_recordFailure|apply keeps_reset|by apply keeps_createSession].
Qed.

Lemma keeps_signIn time hr secrets draws r :
  keeps (sameBy (restOf (PinAuthRequest.stationId r))) (authenticateWithPin backend digest hmac argon2verify dateParse service time hr secrets draws r).
Proof.
  intros d. unfold authenticateWithPin. pose proof (post_begin dateParse service time hr r d) as H. pose proof (keeps_beginPinAuth time hr r d) as Hk.
  unfold post in H. unfold mbind, M_bind. destruct (beginPinAuth _ _ _ _ _ d) as [d1 [p|e]]; [|exact Hk]. simpl in *. destruct H as (-> & Hp & _).
  rewrite <- Hp. apply keeps_finishPinAuth.
Qed.

Lemma refused_rest st now d d' : refused st now d d' → sameBy (restOf st) d d'.
Proof. intros [->|H]; [done|]. unfold sameBy, restOf. rewrite H. simpl. apply delete_insert_eq. Qed.

Lemma unlock_effect time hr draws r d :
  post (supervisorUnlockStation digest argon2verify dateParse service time hr draws r) d (λ d' res,
    sameBy (restOf (SupervisorUnlockRequest.stationId r)) d d' ∧
    ∀ e, res = Err e → d' = d ∨ ∃ now, readClock time hr = Ok now ∧ refused (SupervisorUnlockRequest.stationId r) now d d').
Proof.
  unfold supervisorUnlockStation. apply post_bind. eapply post_weaken; [apply post_beginUnlock|]. intros d1 [p|e] H1.
  - destruct H1 as (-> & Hr & Hc). apply post_of. intros d' res Hrun. split.
    + rewrite <- Hr. assert (Hk : keeps (sameBy (restOf (SupervisorUnlockRequest.stationId (PendingUnlock.request p)))) (finishUnlock digest argon2verify service draws p)).
      { unfold finishUnlock, refuseAudited, IamPersistence.unlockStationWithAudit. keeps.
        all: first [by apply keeps_emit|apply keeps_store]. all: first [apply keeps_recordFailure|apply keeps_inTransaction; [apply _|]].
        apply keeps_bind; [apply _|apply keeps_reset|intros _; by apply keeps_audit]. }
      specialize (Hk d). by rewrite Hrun in Hk.
    + intros e ->. right. exists (PendingUnlock.now p). split; [done|]. rewrite <- Hr.
      exact (post_run _ _ _ _ _ (post_finishUnlock digest argon2verify service draws p d) Hrun e eq_refl).
  - split; [|by intros e' [= <-]]. destruct H1 as [->|(now & _ & H1)]; [done|]. by eapply refused_rest.
Qed.

(** the requests that are no sign-in and no unlock leave the lockouts alone *)
Lemma lockouts_kept q d : match q with SignIn _ _ _ _ _ | SupervisorUnlock _ _ _ _ => True | _ => lockouts (performIam q d) = lockouts d end.
Proof.
  assert (Hk : ∀ {E A} (m : M SecurityDb.t E A), keeps (sameBy lockouts) m → lockouts (fst (m d)) = lockouts d) by (intros E A m Hm; exact (Hm d)).
  destruct q; try done; cbn [performIam]; apply Hk.
  - unfold revokeSession. keeps. apply keeps_store. by apply keeps_modify.
  - unfold IamPersistence.upsertCachedUser, jsonColumn, secJs. keeps. by apply keeps_modify.
  - unfold EnrollmentPersistence.savePairingToken. keeps. by apply keeps_modify.
  - unfold EnrollmentPersistence.executeAtomicEnrollment. apply keeps_inTransaction; [apply _|].
    unfold EnrollmentPersistence.consumeToken, EnrollmentPersistence.insertCredential. keeps.
    all: first [by apply keeps_modify|by apply keeps_audit].
  - by apply keeps_append.
Qed.

(** a request tries a wrong PIN at the station with its lock off, or moves the lock by at most a failure *)
Lemma request_moves st q d : clears st q d = false →
  if isGuess st q d
  then ∃ now, timeOf q = Some now ∧ blocked now (lockOf (lockouts d !! st)) = false ∧
    lockouts (performIam q d) !! st = Some (failRow (lockouts d !! st) now)
  else moves q (lockouts d !! st) (lockouts (performIam q d) !! st).
Proof.
  intros Hc. pose proof (lockouts_kept q d) as Hk.
  destruct q as [time hr secrets draws r|time hr draws r| | | | | | | |]; cbn [isGuess]; try (left; by rewrite Hk); clear Hk.
  - cbn [clears] in Hc. pose proof (keeps_signIn time hr secrets draws r d) as Hrest. pose proof (post_begin dateParse service time hr r d) as Hb.
    cbn [performIam timeOf]. unfold authenticateWithPin, post, mbind, M_bind in *. case_bool_decide as Hst; simpl in *.
    + destruct (beginPinAuth dateParse service time hr r d) as [d1 [p|e]]; simpl in *.
      * destruct Hb as (-> & Hp & Hclock & Hblk & _). rewrite Hst in Hblk. rewrite Hc. simpl. exists (PendingAuth.now p). rewrite Hclock. split_and!; [done..|].
        unfold finishPinAuth. rewrite Hc. destruct (post_rejectPin digest service draws p d) as [_ Hl]. rewrite Hl, Hp, Hst. unfold recorded. simpl. apply lookup_insert_eq.
      * destruct Hb as [->|(now & Hclock & Hr)]; [by left|]. rewrite Hst in Hr. unfold moves. cbn [timeOf]. rewrite Hclock.
        apply refused_lookup in Hr as [->|Hr]; [by left|]. right. by exists now.
    + left. by apply (restOf_lookup st (PinAuthRequest.stationId r)).
  - cbn [clears] in Hc. destruct (unlock_effect time hr draws r d) as [Hrest He]. cbn [performIam].
    case_bool_decide as Hst; simpl in *.
    + destruct (supervisorUnlockStation _ _ _ _ _ _ _ _ d) as [d' [a|e]]; simpl in *; [done|]. destruct (He e eq_refl) as [->|(now & Hclock & Hr)]; [by left|].
      rewrite Hst in Hr. apply refused_lookup in Hr as [->|Hr]; [by left|]. right. exists now. cbn [timeOf]. by rewrite Hclock.
    + left. by apply (restOf_lookup st (SupervisorUnlockRequest.stationId r)).
Qed.

(** what the lock tells of the guesses made since [t0], at time [t] *)
Definition accounted (t0 t g : Z) (l : Lock) : Prop :=
  g = 0 ∨ match l with Counting k => g <= k | LockedUntil until => 300 * (g - 4) <= until - t0 ∧ until <= t + 300 end.

Lemma accounted_moves t0 t g now row row' : lockWf row → 0 <= now → t0 <= t → t <= now → 0 <= g →
  accounted t0 t g (lockOf row) → row' = row ∨ row' = Some (failRow row now) → accounted t0 now g (lockOf row') ∧ lockWf row'.
Proof.
  intros Hwf Hnow Ht0 Ht Hg Ha [->| ->].
  - split; [|done]. destruct Ha as [->|Ha]; [by left|right]. destruct (lockOf row); [done|lia].
  - destruct (fail_lock row now Hwf Hnow) as [-> Hwf']. split; [|done]. destruct Ha as [->|Ha]; [by left|right].
    destruct Hwf as [_ Hl]. unfold lockOf in *. destruct (row ≫= LockoutState.lockedUntil) as [l|]; simpl in *.
    + destruct (Z.leb_spec l now); lia.
    + destruct (Z.ltb_spec (failuresOf row + 1) 5); lia.
Qed.

Lemma accounted_guess t0 t g now row : lockWf row → 0 <= now → t0 <= t → t <= now → 0 <= g → blocked now (lockOf row) = false →
  accounted t0 t g (lockOf row) → accounted t0 now (g + 1) (lockOf (Some (failRow row now))) ∧ lockWf (Some (failRow row now)).
Proof.
  intros Hwf Hnow Ht0 Ht Hg Hb Ha. destruct (fail_lock row now Hwf Hnow) as [-> Hwf']. split; [|done]. right.
  destruct Hwf as [H0 Hl]. unfold accounted, lockOf in *. destruct (row ≫= LockoutState.lockedUntil) as [l|]; simpl in *.
  - destruct (Z.ltb_spec now l); [done|]. rewrite (proj2 (Z.leb_le _ _)) by lia. destruct Ha; lia.
  - destruct (Z.ltb_spec (failuresOf row + 1) 5); destruct Ha; lia.
Qed.

Lemma guesses_accounted st qs : ∀ d t0 t t1 g, lockWf (lockouts d !! st) → 0 <= t → t0 <= t → 0 <= g →
  accounted t0 t g (lockOf (lockouts d !! st)) → inOrder t qs t1 → undisturbed st qs d = true → 300 * (g + guesses st qs d - 5) <= t1 - t0.
Proof.
  induction qs as [|q qs IH]; intros d t0 t t1 g Hwf H0 Ht Hg Ha Ho Hu; cbn [guesses inOrder undisturbed] in *.
  - destruct Ha as [->|Ha]; [lia|]. unfold lockWf, lockOf in *. destruct (lockouts d !! st ≫= _); simpl in *; lia.
  - apply andb_true_iff in Hu as [Hc%negb_true_iff Hu]. pose proof (request_moves st q d Hc) as Hm. destruct (isGuess st q d).
    + destruct Hm as (now & Htq & Hb & Hrow). rewrite Htq in Ho. destruct Ho as [Hnow Ho].
      destruct (accounted_guess t0 t g now _ Hwf ltac:(lia) Ht Hnow Hg Hb Ha) as [Ha' Hwf']. rewrite <- Hrow in Ha', Hwf'.
      pose proof (IH _ t0 now t1 (g + 1) Hwf' ltac:(lia) ltac:(lia) ltac:(lia) Ha' Ho Hu). lia.
    + rewrite Z.add_0_l. destruct (timeOf q) as [now|] eqn:Htq.
      * destruct Ho as [Hnow Ho]. destruct (accounted_moves t0 t g now _ (lockouts (performIam q d) !! st) Hwf ltac:(lia) Ht Hnow Hg Ha) as [Ha' Hwf'].
        { destruct Hm as [->|(now' & Hn & ->)]; [by left|right]. congruence. }
        by apply (IH _ t0 now t1 g Hwf' ltac:(lia) ltac:(lia)).
      * destruct Hm as [Hm|(now' & Hn & _)]; [|congruence]. rewrite <- Hm in Hwf, Ha. by apply (IH _ t0 t t1 g).
Qed.

End requests.

(** seven wrong PINs, ten seconds apart: the lock after the fifth refuses the rest *)
Definition guessWitness : list IamRequest :=
  (λ n, SignIn sampleTime (seconds (10 * Z.of_nat n)) sampleSecrets (sampleDraws "1") (samplePin "0000")) <$> seq 0 7.
