(* ===== verification/IamFrames.v ===== *)
(** What the requests of sign-in leave alone: columns of the tables that are no audit, no session
    and no lockout. *)
From S2P Require Import Prelude Triples Json JsonText Buffers AuditTrail SecureStore TrustedTime EdgeSecurity Tokens Iam LockoutSpec.
From Stdlib Require Import Ascii String.

Lemma post_inTransaction {E A} (m : M SecurityDb.t E A) d (Q : SecurityDb.t → result E A → Prop) :
  post m d (λ d' r, Q (match r with Ok _ => d' | Err _ => d end) r) → post (inTransaction m) d Q.
Proof. unfold post, inTransaction. by destruct (m d) as [d' [a|e]]. Qed.

(** walks to the writes of an operation, which [write] discharges *)
Ltac writes_with write :=
  unfold IamPersistence.getStationCredential, IamPersistence.getLockoutState, IamPersistence.getCachedUser,
    IamPersistence.getStationSessionByTokenHash, EnrollmentPersistence.appendAuditEventInternal, EnrollmentPersistence.appendAuditEvent;
  repeat (keeps; lazymatch goal with
    | |- keeps _ (store _) => apply keeps_store
    | |- keeps _ (inTransaction _) => apply keeps_inTransaction; [apply _|]
    | |- keeps _ (modify _) => write
    | |- _ => idtac
    end).

Section frames.
Context (backend : SecureStorageBackend.t) (digest : string → string) (hmac : list Z → string → list Z).
Context (argon2verify : string → string → option bool) (dateParse : string → option Z) (service : IamService.t).
Context {A : Type} (f : SecurityDb.t → A).
Context (f_audit : ∀ d l, f (d <| SecurityDb.edge_security_audit := l |>) = f d).
Context (f_lockouts : ∀ d l, f (d <| SecurityDb.station_lockout_state := l |>) = f d).

Lemma frame_audit input : keeps (sameBy f) (appendAuditEventInternal digest input).
Proof. by apply keeps_audit. Qed.
Lemma frame_failure st now : keeps (sameBy f) (recordFailure st now).
Proof. intros d. rewrite run_recordFailure. apply f_lockouts. Qed.
Lemma frame_reset st now : keeps (sameBy f) (IamPersistence.resetLockoutState st now).
Proof. intros d. rewrite run_reset. apply f_lockouts. Qed.
Hint Resolve frame_audit frame_failure frame_reset : keeps.

Lemma frame_append event : keeps (sameBy f) (appendAuditEvent digest event).
Proof. unfold appendAuditEvent. writes_with idtac. Qed.
Hint Resolve frame_append : keeps.
Lemma frame_refuse {B} st now code : keeps (sameBy f) (refuse (A:=B) st now code).
Proof. unfold refuse, denied. writes_with idtac. Qed.
Lemma frame_refuseAudited {B} eid st now code b : keeps (sameBy f) (refuseAudited (A:=B) digest service eid st now code b).
Proof. unfold refuseAudited, emitLockoutAuditEvent. writes_with idtac. Qed.
Lemma frame_checkStation st : keeps (sameBy f) (checkStation service st).
Proof. unfold checkStation, denied_when. writes_with idtac. Qed.
Hint Resolve frame_refuse frame_refuseAudited frame_checkStation : keeps.

Lemma frame_begin time hr request : keeps (sameBy f) (beginPinAuth dateParse service time hr request).
Proof. unfold beginPinAuth, checkUser, checkLockout, denied_when. writes_with idtac. Qed.

(** a refused PIN writes no session *)
Lemma frame_reject draws p : keeps (sameBy f) (rejectPin digest service draws p).
Proof. unfold rejectPin, emitLockoutAuditEvent. writes_with idtac. Qed.

Lemma frame_unlock time hr draws request : keeps (sameBy f) (supervisorUnlockStation digest argon2verify dateParse service time hr draws request).
Proof.
  unfold supervisorUnlockStation, beginUnlock, finishUnlock, checkSupervisor, denied_when, IamPersistence.unlockStationWithAudit. writes_with idtac.
Qed.

Context (f_sessions : ∀ d g, f (d <| SecurityDb.station_sessions ::= g |>) = f d).

Lemma frame_signIn time hr secrets draws request :
  keeps (sameBy f) (authenticateWithPin backend digest hmac argon2verify dateParse service time hr secrets draws request).
Proof.
  pose proof (frame_begin time hr request). pose proof frame_reject.
  assert (Hs : ∀ session roles eid edge ty sev act meta, keeps (sameBy f) (IamPersistence.createSessionWithAudit digest session roles eid edge ty sev act meta))
    by (intros; by apply keeps_createSession).
  unfold authenticateWithPin, finishPinAuth, acceptPin, chooseRole, denied, openSession, recordSuccess. writes_with idtac.
Qed.

(** the requests that write audits, lockouts and sessions only *)
Lemma frame_perform q :
  match q with SignIn _ _ _ _ _ | SupervisorUnlock _ _ _ _ | RevokeSession _ _ _ | FlushSessions _ | AppendAudit _ => True | _ => False end →
  ∀ d, f (performIam backend digest hmac argon2verify dateParse service q d) = f d.
Proof.
  assert (Hk : ∀ {E B} (m : M SecurityDb.t E B), keeps (sameBy f) m → ∀ d, f (fst (m d)) = f d) by (intros E B m Hm d; exact (Hm d)).
  destruct q; try done; intros _; cbn [performIam]; apply Hk.
  - apply frame_signIn.
  - apply frame_unlock.
  - unfold revokeSession, IamPersistence.revokeStationSession. writes_with ltac:(apply keeps_modify; intros d; apply f_sessions).
  - unfold IamPersistence.flushExpiredSessions. writes_with ltac:(apply keeps_modify; intros d; apply f_sessions).
  - apply frame_append.
Qed.
End frames.
