(* ===== verification/BruteForce.v ===== *)
(** Two ways around the lockout that the code leaves open: sign-ins that await their PINs at the
    same time, and the unlock of a supervisor. *)
From S2P Require Import Prelude Triples Json JsonText Buffers AuditTrail SecureStore TrustedTime EdgeSecurity Tokens Iam IamSample LockoutSpec IamFrames.
From Stdlib Require Import Ascii String.

(** failures until a lock is on *)
Definition failuresLeft (now : Z) (l : Lock) : Z :=
  match l with Counting k => 5 - k | LockedUntil until => if until <=? now then 1 else 0 end.

Lemma failed_left now l : 0 <= failuresLeft now l → failuresLeft now (failed now l) <= Z.max 0 (failuresLeft now l - 1).
Proof.
  unfold failuresLeft, failed. destruct l as [k|u].
  - destruct (Z.ltb_spec (k + 1) 5); [lia|]. rewrite (proj2 (Z.leb_gt _ _)) by lia. lia.
  - destruct (Z.leb_spec u now); [rewrite (proj2 (Z.leb_gt _ _)) by lia; lia|]. rewrite (proj2 (Z.leb_gt _ _)) by lia. lia.
Qed.

Lemma lockWf_left row now : lockWf row → 0 <= failuresLeft now (lockOf row) <= 5.
Proof.
  intros [H0 Hl]. unfold failuresLeft, lockOf in *. destruct (row ≫= LockoutState.lockedUntil); [destruct (_ <=? now); lia|lia].
Qed.

Lemma left_blocked now l : failuresLeft now l <= 0 → blocked now l = true ∨ ∃ k, l = Counting k ∧ 5 <= k.
Proof. destruct l as [k|u]; simpl; [right; exists k; split; [done|lia]|]. destruct (Z.leb_spec u now); [lia|]. left. by apply Z.ltb_lt. Qed.

Section attacks.
Context (backend : SecureStorageBackend.t) (digest : string → string) (hmac : list Z → string → list Z).
Context (argon2verify : string → string → option bool) (dateParse : string → option Z) (service : IamService.t).

Abbreviation finish := (finishPinAuth backend digest hmac argon2verify service).
Abbreviation begin := (beginPinAuth dateParse service).

(** the continuations of sign-ins, in the order their PINs are verified *)
Definition finishAll (secrets : SecretFiles) (draws : PendingAuth.t → IamDraws.t) (ps : list PendingAuth.t) (d : SecurityDb.t) : SecurityDb.t :=
  foldl (λ d p, fst (finish secrets (draws p) p d)) d ps.

Lemma finish_wrong secrets draws p d st : pinMatches argon2verify p = false → PinAuthRequest.stationId (PendingAuth.request p) = st →
  lockouts (fst (finish secrets draws p d)) !! st = Some (failRow (lockouts d !! st) (PendingAuth.now p)).
Proof.
  intros Hp Hst. unfold finishPinAuth. rewrite Hp. destruct (post_rejectPin digest service draws p d) as [_ Hl]. rewrite Hl, Hst. unfold recorded. simpl. apply lookup_insert_eq.
Qed.

Lemma finishAll_wrong secrets draws st now ps : ∀ d, 0 <= now → lockWf (lockouts d !! st) →
  Forall (λ p, pinMatches argon2verify p = false ∧ PinAuthRequest.stationId (PendingAuth.request p) = st ∧ PendingAuth.now p = now) ps →
  lockWf (lockouts (finishAll secrets draws ps d) !! st) ∧
  failuresLeft now (lockOf (lockouts (finishAll secrets draws ps d) !! st)) <= Z.max 0 (failuresLeft now (lockOf (lockouts d !! st)) - Z.of_nat (List.length ps)).
Proof.
  induction ps as [|p ps IH]; intros d Hnow Hwf Hps; cbn [finishAll foldl List.length]; [split; [done|lia]|].
  apply Forall_cons in Hps as [(Hp & Hst & Hn) Hps]. pose proof (finish_wrong secrets (draws p) p d st Hp Hst) as Hrow. rewrite Hn in Hrow.
  destruct (fail_lock _ _ Hwf Hnow) as [Hf Hwf']. rewrite <- Hrow in Hf, Hwf'. destruct (IH _ Hnow Hwf' Hps) as [H1 H2]. split; [exact H1|].
  rewrite Hf in H2. pose proof (failed_left now (lockOf (lockouts d !! st)) (proj1 (lockWf_left _ now Hwf))).
  fold (finishAll secrets draws ps (fst (finish secrets (draws p) p d))). lia.
Qed.

(** the right PIN clears the lock, whatever it was *)
Lemma finish_right secrets draws p d st : pinMatches argon2verify p = true → PinAuthRequest.stationId (PendingAuth.request p) = st →
  post (finish secrets draws p) d (λ d' r, (lockOf (lockouts d' !! st) = Counting 0 ∨ lockOf (lockouts d' !! st) = Counting 1) ∧
    ∀ s ms, r ≠ Err (OfflineIamError STATION_LOCKED s ms)).
Proof.
  intros Hp Hst. unfold finishPinAuth. rewrite Hp. unfold acceptPin, recordSuccess. posts. rewrite Hst.
  apply post_store. unfold post at 1. rewrite run_reset. cbn [fst snd]. posts.
  set (d1 := set _ _ _). assert (H0 : lockOf (lockouts d1 !! st) = Counting 0) by (unfold d1; simpl; rewrite lookup_insert_eq; apply reset_lock).
  assert (Hw : lockWf (lockouts d1 !! st)) by (unfold d1; simpl; rewrite lookup_insert_eq; apply reset_lock).
  assert (H1 : lockOf (Some (failRow (lockouts d1 !! st) (PendingAuth.now p))) = Counting 1).
  { revert H0 Hw. clear. unfold lockOf, lockWf, failRow. simpl. destruct (_ ≫= LockoutState.lockedUntil); [done|]. intros [= H0] _. rewrite H0. done. }
  clearbody d1. destruct (parseRoles _) as [[roles|]|e] eqn:Hroles; posts.
  - unfold chooseRole. assert (Hopen : ∀ role, post (openSession backend digest hmac service secrets draws st (PinAuthRequest.userId (PendingAuth.request p)) (PendingAuth.now p) roles role) d1
      (λ d' r, (lockOf (lockouts d' !! st) = Counting 0 ∨ lockOf (lockouts d' !! st) = Counting 1) ∧ ∀ s ms, r ≠ Err (OfflineIamError STATION_LOCKED s ms))).
    { intros role. unfold openSession. posts. destruct (getPrimaryHmacKey _ _) as [key|e] eqn:Hkey; posts.
      - destruct (signFloorSessionToken _ _ _) as [token|e]; posts; [|split; [by left|done]]. apply post_store, post_of. intros d2 r Hr.
        assert (Hk : lockouts d2 = lockouts d1).
        { change d2 with (fst (d2, r)). rewrite <- Hr. by apply (keeps_createSession digest _ _ _ _ _ _ _ _ lockouts). }
        destruct r as [[s a]|e]; posts; rewrite Hk; (split; [by left|done]).
      - split; [by left|]. revert Hkey. unfold getPrimaryHmacKey. case_match; congruence. }
    case_match; posts; [case_match; posts; [apply Hopen|]|apply Hopen]. apply post_refuse. split; [|done]. right. unfold recorded. simpl. by rewrite lookup_insert_eq.
  - apply post_refuse. split; [|done]. right. unfold recorded. simpl. by rewrite lookup_insert_eq.
  - split; [by left|]. revert Hroles. unfold parseRoles. repeat case_match; congruence.
Qed.

(** C7: sign-ins that await their PINs together escape the lockout.  Any number of requests that
    reach the verification of the PIN while the lock is off are all verified: when five or more of
    their PINs are wrong the station is locked, no later request reaches a verification, and still
    the one among them with the right PIN is answered and clears the lock. *)
Theorem parallel_guesses_escape_lockout secrets draws st now right guesses d :
  lockWf (lockouts d !! st) → 0 <= now →
  Forall (λ p, ∃ time hrtime request, begin time hrtime request d = (d, Ok p) ∧ PinAuthRequest.stationId request = st ∧
    readClock time hrtime = Ok now) (right :: guesses) →
  Forall (λ p, pinMatches argon2verify p = false) guesses → 5 <= Z.of_nat (List.length guesses) → pinMatches argon2verify right = true →
  let d1 := finishAll secrets draws guesses d in
  blocked now (lockOf (lockouts d1 !! st)) = true ∧
  (∀ time hrtime request p, PinAuthRequest.stationId request = st → readClock time hrtime = Ok now →
    snd (begin time hrtime request d1) ≠ Ok p) ∧
  ∀ d2 r, finish secrets (draws right) right d1 = (d2, r) →
    blocked now (lockOf (lockouts d2 !! st)) = false ∧ ∀ s ms, r ≠ Err (OfflineIamError STATION_LOCKED s ms).
Proof.
  intros Hwf Hnow Hps Hwrong Hlen Hright. cbv zeta.
  assert (Hreq : Forall (λ p, PinAuthRequest.stationId (PendingAuth.request p) = st ∧ PendingAuth.now p = now) (right :: guesses)).
  { eapply Forall_impl; [exact Hps|]. intros p (time & hr & request & Hb & Hst & Hclock).
    destruct (post_run _ _ _ _ _ (post_begin dateParse service time hr request d) Hb) as (_ & Hp & Hc & _). rewrite Hp. split; [done|congruence]. }
  apply Forall_cons in Hreq as [[Hst _] Hreq].
  destruct (finishAll_wrong secrets draws st now guesses d Hnow Hwf) as [Hwf' Hleft].
  { apply Forall_and. by split. }
  pose proof (lockWf_left _ now Hwf). pose proof (lockWf_left _ now Hwf').
  assert (Hb : blocked now (lockOf (lockouts (finishAll secrets draws guesses d) !! st)) = true).
  { destruct (left_blocked now (lockOf (lockouts (finishAll secrets draws guesses d) !! st))) as [?|(k & Hk & H5)]; [lia|done|].
    destruct Hwf' as [_ Hw]. unfold lockOf in Hk. destruct (lockouts (finishAll secrets draws guesses d) !! st ≫= _); [done|]. injection Hk. lia. }
  split_and!; [done|..].
  - intros time hr request p Hs Hclock Hp. pose proof (post_begin dateParse service time hr request (finishAll secrets draws guesses d)) as H'.
    unfold post in H'. rewrite Hp, Hs in H'. destruct H' as (_ & _ & Hc & Hbl & _). congruence.
  - intros d2 r Hr. destruct (post_run _ _ _ _ _ (finish_right secrets (draws right) right _ st Hright Hst) Hr) as [Hl Hn].
    split; [|done]. by destruct Hl as [-> | ->].
Qed.

(** ** Supervisors *)

(** what a supervisor unlock reads before the PIN *)
Definition identities (d : SecurityDb.t) := (SecurityDb.station_credentials d, SecurityDb.cached_users d).

Lemma keeps_identities q : match q with SignIn _ _ _ _ _ | SupervisorUnlock _ _ _ _ => True | _ => False end →
  ∀ d, identities (performIam backend digest hmac argon2verify dateParse service q d) = identities d.
Proof. intros Hq. apply frame_perform; try done. by destruct q. Qed.

(** a success depends on the identities only, and writes nothing *)
Definition readsIdentities {E A} (m : M SecurityDb.t E A) : Prop :=
  ∀ d d' a, identities d' = identities d → snd (m d) = Ok a → m d' = (d', Ok a).

Lemma reads_bind {E A B} (m : M SecurityDb.t E A) (k : A → M SecurityDb.t E B) :
  readsIdentities m → (∀ a, readsIdentities (k a)) → readsIdentities (m ≫= k).
Proof.
  intros Hm Hk d d' b Hd. unfold mbind, M_bind. specialize (Hm d). destruct (m d) as [d1 [a|e]] eqn:Hmd; [|done].
  pose proof (Hm d a eq_refl eq_refl) as Hd1. rewrite Hmd in Hd1. rewrite (Hm d' a Hd eq_refl). injection Hd1 as ->. intros Hb. by apply (Hk a d d').
Qed.
Lemma reads_pure {E A} (r : result E A) : readsIdentities (lift r : M SecurityDb.t E A).
Proof. intros d d' a _ [= ->]. done. Qed.
Lemma reads_throw_when {E} b (e : E) : readsIdentities (throw_when b e : M SecurityDb.t E unit).
Proof. intros d d' a _. destruct b; [done|]. by intros [= <-]. Qed.
Lemma reads_gets {A} (f : SecurityDb.t → A) : (∀ d d', identities d' = identities d → f d' = f d) → readsIdentities (store (gets f)).
Proof. intros Hf d d' a Hd [= <-]. unfold store, gets. by rewrite (Hf d d'). Qed.
Lemma reads_never {A} (m : Iam A) : (∀ d a, snd (m d) ≠ Ok a) → readsIdentities m.
Proof. intros Hm d d' a _ Ha. by destruct (Hm d a). Qed.
Lemma refuseAudited_fails {A} eid st now code b d (a : A) : snd (refuseAudited digest service eid st now code b d) ≠ Ok a.
Proof.
  change (post (refuseAudited (A:=A) digest service eid st now code b) d (λ _ r, r ≠ Ok a)). by apply post_refuseAudited.
Qed.

Lemma reads_beginUnlock time hr draws request : readsIdentities (beginUnlock digest dateParse service time hr draws request).
Proof.
  assert (Hr : ∀ {A} eid st now code b, readsIdentities (refuseAudited (A:=A) digest service eid st now code b)) by (intros; apply reads_never, refuseAudited_fails).
  assert (H1 : ∀ d d', identities d' = identities d → SecurityDb.station_credentials d' = SecurityDb.station_credentials d) by (unfold identities; naive_solver).
  assert (H2 : ∀ d d', identities d' = identities d → SecurityDb.cached_users d' = SecurityDb.cached_users d) by (unfold identities; naive_solver).
  assert (Hret : ∀ {A} (a : A), readsIdentities (mret a : Iam A)) by (intros A a; exact (reads_pure (Ok a))).
  assert (Hreq : ∀ {A} (o : option A) (e : IamError), readsIdentities (require o e : Iam A)) by (intros A [a|] e; [exact (reads_pure (Ok a))|exact (reads_pure (Err e))]).
  unfold beginUnlock, checkStation, checkSupervisor, denied_when.
  repeat lazymatch goal with
  | |- readsIdentities (_ ≫= _) => apply reads_bind; [|intros ?]
  | |- readsIdentities (throw_when _ _) => apply reads_throw_when
  | |- readsIdentities (lift _) => apply reads_pure
  | |- readsIdentities (refuseAudited _ _ _ _ _ _ _) => apply Hr
  | |- readsIdentities (mret _) => apply Hret
  | |- readsIdentities (require _ _) => apply Hreq
  | |- readsIdentities (store _) => apply reads_gets; intros d d' Hd; by rewrite ?(H1 d d' Hd), ?(H2 d d' Hd)
  | |- readsIdentities (match _ with _ => _ end) => case_match
  end.
Qed.

(** Supervisor PINs can be guessed without a limit.  Whatever sign-ins and supervisor unlocks
    came before, wrong or right and at whatever time, an unlock request that once reached the
    verification of its PIN reaches it again, and when the PIN is right the unlock answers so and
    clears the lock unless its own audit event cannot be written. *)
Theorem supervisor_guesses_are_unlimited time hr draws request p qs d :
  snd (beginUnlock digest dateParse service time hr draws request d) = Ok p →
  Forall (λ q, match q with SignIn _ _ _ _ _ | SupervisorUnlock _ _ _ _ => True | _ => False end) qs →
  let d1 := foldl (λ d q, performIam backend digest hmac argon2verify dateParse service q d) d qs in
  beginUnlock digest dateParse service time hr draws request d1 = (d1, Ok p) ∧
  (supervisorPinMatches argon2verify p = true → ∀ d2 r, finishUnlock digest argon2verify service draws p d1 = (d2, r) →
    (∃ e, r = Err (IamStore e)) ∨ (∃ a, r = Ok a) ∧ lockOf (lockouts d2 !! SupervisorUnlockRequest.stationId request) = Counting 0).
Proof.
  intros Hb Hqs. cbv zeta. split.
  - apply (reads_beginUnlock time hr draws request d); [|done]. clear Hb. revert d. induction qs as [|q qs IH]; intros d; [done|]. simpl.
    apply Forall_cons in Hqs as [Hq Hqs]. rewrite IH by done. by apply keeps_identities.
  - intros Hp d2 r Hr. pose proof (post_beginUnlock digest dateParse service time hr draws request d) as Hreq. unfold post in Hreq. rewrite Hb in Hreq.
    destruct Hreq as (_ & Hreq & _). revert d2 r Hr. set (d1 := foldl _ d qs). clearbody d1. intros d2 r. unfold finishUnlock. rewrite Hp, Hreq. cbn [negb].
    apply (post_run _ d1 d2 r (λ d2 r, (∃ e, r = Err (IamStore e)) ∨ (∃ a, r = Ok a) ∧ lockOf (lockouts d2 !! SupervisorUnlockRequest.stationId request) = Counting 0)).
    posts. apply post_store, post_of. intros d3 [a|e] Hr; posts; [right|by left; exists e]. split; [by eexists|]. revert Hr.
    unfold IamPersistence.unlockStationWithAudit, inTransaction. unfold mbind, M_bind. rewrite run_reset. set (d4 := set _ _ _). 
    destruct (appendAuditEventInternal digest _ d4) as [d5 [x|e]] eqn:Ha; [|done]. intros [= <- _].
    assert (Hk : lockouts d5 = lockouts d4).
    { change d5 with (fst (d5, Ok x : result EnrollmentError SecurityAudit.t)). rewrite <- Ha. by apply (keeps_audit digest _ lockouts). }
    rewrite Hk. unfold d4. simpl. rewrite lookup_insert_eq. apply reset_lock.
Qed.
End attacks.

Definition pendingSample (pin : string) : PendingAuth.t := PendingAuth.mk (samplePin pin) 2005 (sampleUser "4321" "ROLE-003").
Definition wrongPins : list PendingAuth.t := pendingSample <$> ["0000"; "0001"; "0002"; "0003"; "0004"; "0005"; "0006"].

(** a well-formed PIN is let through to its verification *)
Lemma pending_begins pin : validatePinFormat pin = true →
  ∃ time hrtime request, beginPinAuth sampleParse sampleService time hrtime request sampleDb = (sampleDb, Ok (pendingSample pin)) ∧
    PinAuthRequest.stationId request = station1 ∧ readClock time hrtime = Ok 2005.
Proof.
  intros Hpin. exists sampleTime, (seconds 5), (samplePin pin). split_and!; [|done..].
  pose proof (post_begin sampleParse sampleService sampleTime (seconds 5) (samplePin pin) sampleDb) as H. unfold post in H.
  assert (Hr : snd (beginPinAuth sampleParse sampleService sampleTime (seconds 5) (samplePin pin) sampleDb) = Ok (pendingSample pin)).
  { unfold beginPinAuth. cbn [PinAuthRequest.pin samplePin]. rewrite Hpin. vm_compute. reflexivity. }
  destruct (beginPinAuth _ _ _ _ _ sampleDb) as [d' r]. simpl in *. subst r. by destruct H as [-> _].
Qed.

Example parallel_guesses_escape_lockout_witness :
  let d1 := finishAll plainBackend sampleDigest sampleHmac sampleArgon sampleService sampleSecrets (λ _, sampleDraws "1") wrongPins sampleDb in
  blocked 2005 (lockOf (lockouts d1 !! station1)) = true ∧
  blocked 2005 (lockOf (lockouts (fst (finishPinAuth plainBackend sampleDigest sampleHmac sampleArgon sampleService sampleSecrets
    (sampleDraws "1") (pendingSample "4321") d1)) !! station1)) = false.
Proof.
  destruct (parallel_guesses_escape_lockout plainBackend sampleDigest sampleHmac sampleArgon sampleParse sampleService sampleSecrets
    (λ _, sampleDraws "1") station1 2005 (pendingSample "4321") wrongPins sampleDb) as (H1 & _ & H2).
  - unfold lockWf; vm_compute; intuition congruence.
  - lia.
  - change (pendingSample "4321" :: wrongPins) with (pendingSample <$> "4321" :: ["0000"; "0001"; "0002"; "0003"; "0004"; "0005"; "0006"]).
    apply Forall_fmap. repeat (apply Forall_cons; split; [apply pending_begins; vm_compute; reflexivity|]). apply Forall_nil; exact I.
  - apply Forall_fmap. repeat (apply Forall_cons; split; [vm_compute; reflexivity|]). apply Forall_nil; exact I.
  - vm_compute. congruence.
  - vm_compute. reflexivity.
  - split; [exact H1|]. destruct (finishPinAuth _ _ _ _ _ _ _ (pendingSample "4321") _) as [d2 r] eqn:E. exact (proj1 (H2 d2 r eq_refl)).
Defined.

(** nine wrong PINs lock the station; the tenth request has the right one *)
Definition unlockAttempts : list IamRequest := SupervisorUnlock sampleTime (seconds 5) (sampleDraws "1") <$> (sampleUnlock <$> replicate 9 "0000").
Example supervisor_guesses_are_unlimited_witness : ∃ p d1,
  d1 = foldl (λ d q, performIam plainBackend sampleDigest sampleHmac sampleArgon sampleParse sampleService q d) sampleDb unlockAttempts ∧
  blocked 2005 (lockOf (lockouts d1 !! station1)) = true ∧
  beginUnlock sampleDigest sampleParse sampleService sampleTime (seconds 5) (sampleDraws "2") (sampleUnlock "8765") d1 = (d1, Ok p) ∧
  supervisorPinMatches sampleArgon p = true.
Proof.
  eexists _, _. split_and!; [reflexivity|vm_compute; reflexivity| |].
  - apply (supervisor_guesses_are_unlimited plainBackend sampleDigest sampleHmac sampleArgon sampleParse sampleService sampleTime (seconds 5)
      (sampleDraws "2") (sampleUnlock "8765") (PendingUnlock.mk (sampleUnlock "8765") 2005 (sampleUser "8765" "ROLE-001")) unlockAttempts sampleDb).
    + vm_compute. reflexivity.
    + apply Forall_fmap. repeat (apply Forall_cons; split; [exact I|]). apply Forall_nil; exact I.
  - vm_compute. reflexivity.
Defined.
