(* ===== verification/SecureStoreSpec.v ===== *)
(** What the secret store gives back: the production backend keeps a secret exactly when its bytes
    are UTF-8, and what becomes of the keys that are not. *)
From S2P Require Import Prelude Triples Json JsonText Buffers AuditTrail SecureStore TrustedTime EdgeSecurity Tokens Iam IamSample.
From Stdlib Require Import Ascii String.

Section electron.
Context (s : SafeStorage.t) `{!SafeStorageLaws s} (platform : string).
Abbreviation backend := (ElectronSafeStorageBackend (Some s) platform).

Lemma electron_reads_back secret blob : SecureStorageBackend.encrypt backend secret = Ok blob →
  SecureStorageBackend.decrypt backend blob = Ok (utf8Encode (utf8Decode secret)).
Proof.
  simpl. unfold electronEncrypt, electronDecrypt. case_match; [|done]. unfold keyring.
  destruct (SafeStorage.encryptString s _) eqn:E; [|done]. intros [= <-]. by rewrite (decrypt_encrypt _ _ E).
Qed.

Lemma electron_stored name secret files files' : storeSecret backend name secret files = (files', Ok tt) →
  loadSecret backend name files' = (files', Ok (utf8Encode (utf8Decode secret))).
Proof.
  intros Hs. unfold storeSecret, lift, modify, mbind, M_bind in Hs. destruct (SecureStorageBackend.encrypt backend secret) as [blob|] eqn:E; [|done].
  injection Hs as <-. unfold loadSecret, gets, mbind, M_bind. assert (Hf : (<[name:=blob]> files : SecretFiles) !! name = Some blob) by apply lookup_insert_eq.
  rewrite Hf. unfold require, lift, mret, M_ret. by rewrite (electron_reads_back _ _ E).
Qed.

(** C11: the production secret store keeps text, not bytes.  What it stored is read back as those
    bytes decoded and encoded as UTF-8 again, which is the secret exactly when the secret is valid
    UTF-8; a random key of the offline sign-in that comes back with another length can neither sign
    nor verify a session token. *)
Theorem secret_survives_iff_utf8 hmac name secret files files' : Forall isByte secret →
  storeSecret backend name secret files = (files', Ok tt) →
  ∃ back, loadSecret backend name files' = (files', Ok back) ∧ (back = secret ↔ validUtf8 secret) ∧
    (∀ other, other ≠ name → files' !! other = files !! other) ∧
    (name = HMAC_KEY → List.length back ≠ 32%nat →
      getPrimaryHmacKey backend files' = Ok back ∧
      (∀ claims, ∃ e, signFloorSessionToken hmac claims back = Err e) ∧
      ∀ token previous now, ∃ e, verifyFloorSessionToken hmac token back previous now = Err (IamJs e)).
Proof.
  intros Hbytes Hs. exists (utf8Encode (utf8Decode secret)). pose proof (electron_stored _ _ _ _ Hs) as Hl. split_and!; [done|by apply utf8_lossless|..].
  - unfold storeSecret, lift, modify, mbind, M_bind in Hs. destruct (SecureStorageBackend.encrypt backend secret); [|done].
    injection Hs as <-. intros other Hne. by apply (lookup_insert_ne (files : gmap string (list Z))).
  - intros -> Hlen%Nat.eqb_neq. split_and!; [unfold getPrimaryHmacKey; by rewrite Hl|..].
    + intros claims. unfold signFloorSessionToken, signToken, validateHmacKeyLength. rewrite Hlen. by eexists.
    + intros token previous now. unfold verifyFloorSessionToken, validateKeys, validateHmacKeyLength. rewrite Hlen. by eexists.
Qed.
End electron.

(** a keyring that keeps the code points of a text as they are *)
Definition sampleKeyring : SafeStorage.t := SafeStorage.mk true (Some "kwallet6") Some Some.
#[export] Instance sampleKeyring_laws : SafeStorageLaws sampleKeyring.
Proof. split. by intros text blob [= ->]. Qed.

(** a key of 32 bytes 0x80 comes back as 96 bytes *)
Example secret_survives_iff_utf8_witness :
  ¬ validUtf8 (replicate 32 0x80) ∧
  ∃ back files', loadSecret (ElectronSafeStorageBackend (Some sampleKeyring) "linux") HMAC_KEY files' = (files', Ok back) ∧
    List.length back = 96%nat ∧ ∀ claims, ∃ e, signFloorSessionToken sampleHmac claims back = Err e.
Proof.
  destruct (secret_survives_iff_utf8 sampleKeyring "linux" sampleHmac HMAC_KEY (replicate 32 0x80) ∅
    (<[HMAC_KEY := replicate 32 REPLACEMENT]> ∅)) as (back & H1 & H2 & _ & H3).
  - apply Forall_replicate. unfold isByte. lia.
  - vm_compute. reflexivity.
  - assert (Hb : back = utf8Encode (replicate 32 REPLACEMENT)).
    { assert (Hr : snd (loadSecret (ElectronSafeStorageBackend (Some sampleKeyring) "linux") HMAC_KEY (<[HMAC_KEY := replicate 32 REPLACEMENT]> ∅))
        = Ok (utf8Encode (replicate 32 REPLACEMENT))) by (vm_compute; reflexivity). rewrite H1 in Hr. by injection Hr. }
    split.
    + intros Hv%H2. rewrite Hb in Hv. vm_compute in Hv. discriminate.
    + exists back, (<[HMAC_KEY := replicate 32 REPLACEMENT]> ∅). split; [exact H1|]. rewrite Hb in H3 |- *. split; [vm_compute; reflexivity|].
      apply H3; [reflexivity|vm_compute; discriminate].
Defined.
