(* ===== verification/TrustedTimeSpec.v ===== *)
(** When a restart accepts the persisted time, and what the clock then shows. *)
From S2P Require Import Prelude Triples Decimals Json Buffers SecureStore TrustedTime AuditTrail EdgeSecurity Tokens Iam IamSample SecureStoreSpec.
From Stdlib Require Import Ascii String.

Lemma utf8_text_inj a b : utf8Encode (codesOf a) = utf8Encode (codesOf b) → a = b.
Proof. intros H. pose proof (utf8_string a) as Ha. rewrite H, utf8_string in Ha. congruence. Qed.

Section time.
Context (backend : SecureStorageBackend.t) (hmac : list Z → string → list Z).

(** the anchor row is the one this key signed, and the wall clock is not far behind it *)
Definition accepted (key : list Z) (row : AnchorRow.t) (wall : Z) : Prop :=
  List.length key = 32%nat ∧ AnchorRow.integrity_tag row = anchorTag hmac key row ∧ AnchorRow.integrity_tag row ≠ "" ∧
  AnchorRow.last_known_cloud_time row - 300 <= wall.
#[global] Instance accepted_dec key row wall : Decision (accepted key row wall).
Proof. unfold accepted. apply _. Defined.

Definition resumed (row : AnchorRow.t) (wall hr : Z) (s : TimeManager.t) : TimeManager.t :=
  s <| TimeManager.tCloud := Some (Z.max (AnchorRow.last_known_cloud_time row) wall) |> <| TimeManager.m0 := Some hr |>.

Lemma run_verifyAnchor key row wall hr s : TimeManager.tCloud s = None →
  (verifyAnchor hmac key row wall hr s = (resumed row wall hr s, Ok tt) ∧ accepted key row wall) ∨
  (TimeManager.tCloud (fst (verifyAnchor hmac key row wall hr s)) = None ∧ ¬ accepted key row wall).
Proof.
  intros Hs. unfold verifyAnchor, accepted. destruct (Nat.eqb_spec (List.length key) 32) as [Hk|Hk]; cbn [negb]; [|right; split; [by destruct s|tauto]].
  destruct (bool_decide (AnchorRow.integrity_tag row = "")) eqn:He; cbn [orb].
  { apply bool_decide_eq_true in He. right. split; [by destruct s|tauto]. }
  apply bool_decide_eq_false in He.
  destruct (Nat.eqb_spec (String.length (AnchorRow.integrity_tag row)) (String.length (anchorTag hmac key row))) as [Hl|Hl]; cbn [negb].
  2: { right. split; [by destruct s|]. intros (_ & Ht & _). by rewrite <- Ht in Hl. }
  unfold timingSafeEqual, jsTimed, lift, mbind, M_bind.
  destruct (Nat.eqb_spec (List.length (utf8Encode (codesOf (AnchorRow.integrity_tag row)))) (List.length (utf8Encode (codesOf (anchorTag hmac key row))))) as [Hlen|Hlen].
  - case_bool_decide as Ht; cbn [negb].
    + apply utf8_text_inj in Ht. destruct (Z.ltb_spec wall (AnchorRow.last_known_cloud_time row - 300)).
      * right. split; [by destruct s|lia].
      * left. split; [done|]. split_and!; [done..|lia].
    + right. split; [by destruct s|]. intros (_ & Ht' & _). congruence.
  - right. split; [done|]. intros (_ & Ht & _). by rewrite <- Ht in Hlen.
Qed.

(** a start shows the time exactly when it accepts the anchor; nothing on disk changes *)
Lemma start_accepts anchor files wall hr s r : startManager backend hmac anchor files wall hr = (s, r) →
  (∃ row key, anchor = Some row ∧ loadSecret backend ANCHOR_KEY files = (files, Ok key) ∧ accepted key row wall ∧
     r = Ok tt ∧ s = resumed row wall hr (TimeManager.mk None None false anchor files)) ∨
  (TimeManager.tCloud s = None ∧ ∀ row key, anchor = Some row → loadSecret backend ANCHOR_KEY files = (files, Ok key) → ¬ accepted key row wall).
Proof.
  unfold startManager, loadPersistedAnchor. unfold mbind, M_bind. set (s0 := TimeManager.mk None None false anchor files).
  cbn [onSecrets hasSecret gets TimeManager.secrets s0].
  change (set TimeManager.secrets (λ _, files) s0) with s0. change (TimeManager.anchor s0) with anchor. destruct anchor as [row|].
  2: { intros Hr. right. split; [|done]. revert Hr. case_match; by intros [= <- _]. }
  case_bool_decide as Hk; cbn [negb].
  2: { intros [= <- _]. right. split; [done|]. intros row' key _ Hl. contradict Hk. revert Hl. unfold loadSecret, gets, mbind, M_bind. by destruct (files !! ANCHOR_KEY). }
  unfold onSecrets. cbn [TimeManager.secrets s0]. destruct (loadSecret backend ANCHOR_KEY files) as [files' [key|e]] eqn:Hl.
  - assert (files' = files) as ->.
    { revert Hl. unfold loadSecret, gets, mbind, M_bind, require, lift, mret, M_ret. by destruct (files !! ANCHOR_KEY); intros [= ? _]. }
    change (set TimeManager.secrets (λ _, files) s0) with s0. destruct (run_verifyAnchor key row wall hr s0 eq_refl) as [[-> Ha]|[Hv Ha]].
    + intros [= <- <-]. left. by exists row, key.
    + intros Hr. rewrite Hr in Hv. right. split; [exact Hv|]. intros row' key' [= <-] [= <-]. exact Ha.
  - intros [= <- _]. by right.
Qed.

Lemma loaded_key name (files files' : SecretFiles) r : loadSecret backend name files = (files', r) → files' = files.
Proof. unfold loadSecret, gets, mbind, M_bind, require, lift, mret, M_ret. by destruct (files !! name); intros [= -> _]. Qed.

Lemma post_hasSecret name s (Q : TimeManager.t → result EnrollmentError bool → Prop) :
  Q s (Ok (bool_decide (is_Some (TimeManager.secrets s !! name)))) → post (onSecrets (hasSecret name)) s Q.
Proof. unfold post, onSecrets. by destruct s. Qed.

(** a sync leaves the key it signed with, and the anchor it signed *)
Lemma post_syncCloudTime tCloud wall hr newKey s : post (syncCloudTime backend hmac tCloud wall hr newKey) s (λ s' r, r = Ok tt →
  ∃ key version, loadSecret backend ANCHOR_KEY (TimeManager.secrets s') = (TimeManager.secrets s', Ok key) ∧
    (TimeManager.secrets s !! ANCHOR_KEY = None → storeSecret backend ANCHOR_KEY newKey (TimeManager.secrets s) = (TimeManager.secrets s', Ok tt)) ∧
    TimeManager.isLocked s' = false ∧ TimeManager.tCloud s' = Some tCloud ∧ TimeManager.m0 s' = Some hr ∧
    TimeManager.anchor s' = Some (AnchorRow.mk tCloud wall version wall (computeAnchorIntegrityTag hmac key tCloud wall version wall))).
Proof.
  unfold syncCloudTime. posts; [done|].
  apply (post_weaken _ _ (λ s1 r, r = Ok tt → s1 = s)).
  { destruct (TimeManager.tCloud s); posts; [|done]. destruct (getTrustedEffectiveTime hr s); posts; [|done]. case_match; [by posts|]. by posts. }
  intros s1 [[]|e] Hs; [rewrite (Hs eq_refl)|done]. clear s1 Hs. posts.
  apply post_hasSecret. posts.
  apply (post_weaken _ _ (λ s1 r, r = Ok tt → TimeManager.secrets s !! ANCHOR_KEY = None →
    storeSecret backend ANCHOR_KEY newKey (TimeManager.secrets s) = (TimeManager.secrets s1, Ok tt))).
  { case_bool_decide as Hk; posts; [intros _ Hn; rewrite Hn in Hk; by destruct Hk|]. unfold post, onSecrets.
    destruct (storeSecret _ _ _ _) as [f r] eqn:E; simpl. by intros -> _. }
  intros s1 [[]|e] Hs1; posts; [|done]. specialize (Hs1 eq_refl). unfold post at 1, onSecrets.
  destruct (loadSecret backend ANCHOR_KEY (TimeManager.secrets s1)) as [files' [key|e]] eqn:Hl; [|done]. pose proof (loaded_key _ _ _ _ Hl) as ->.
  cbn [fst snd]. posts. intros _. eexists key, _. by destruct s1.
Qed.

(** C12: what a restart makes of the last sync.  After a sync with the cloud the trusted time is the
    cloud's, and the anchor on disk is signed with the key the store gives back.  A restart shows
    time again exactly when that key has its 32 bytes and the wall clock is at most five minutes
    behind the cloud's time; it then starts at the later of the two, so time before the restart may
    be shown again but no time before the sync.  Otherwise it stays locked.  A backend that keeps
    secrets gives back the key that was drawn. *)
Theorem restart_resumes_from_the_sync tCloud wall hr newKey s s' :
  (∀ key m, hmac key m ≠ []) →
  syncCloudTime backend hmac tCloud wall hr newKey s = (s', Ok tt) →
  getTrustedEffectiveTime hr s' = Ok tCloud ∧
  ∃ key, loadSecret backend ANCHOR_KEY (TimeManager.secrets s') = (TimeManager.secrets s', Ok key) ∧
    (FaithfulBackend backend → Forall isByte newKey → TimeManager.secrets s !! ANCHOR_KEY = None → key = newKey) ∧
    ∀ wall' hr' later,
      getTrustedEffectiveTime later (fst (startManager backend hmac (TimeManager.anchor s') (TimeManager.secrets s') wall' hr')) =
      if bool_decide (List.length key = 32%nat ∧ tCloud - 300 <= wall')
      then Ok (Z.max tCloud wall' + Z.quot (later - hr') NANOSECONDS)
      else Err ClockRollbackLockError.
Proof.
  intros Hmac Hrun. destruct (post_run _ _ _ _ _ (post_syncCloudTime tCloud wall hr newKey s) Hrun eq_refl) as (key & version & Hl & Hs & Hlock & Ht & Hm & Ha).
  split; [unfold getTrustedEffectiveTime; rewrite Hlock, Ht, Hm; cbv zeta; rewrite Z.sub_diag, Z.quot_0_l, Z.add_0_r by done; done|]. exists key. split_and!; [done|..].
  - intros Hf Hb Hn. specialize (Hs Hn). unfold storeSecret, lift, modify, mbind, M_bind in Hs.
    destruct (SecureStorageBackend.encrypt backend newKey) as [blob|] eqn:E; [|done]. injection Hs as Hs.
    unfold loadSecret, gets, mbind, M_bind in Hl. rewrite <- Hs in Hl. assert (Hlk : (<[ANCHOR_KEY:=blob]> (TimeManager.secrets s) : SecretFiles) !! ANCHOR_KEY = Some blob) by apply lookup_insert_eq.
    rewrite Hlk in Hl. unfold require, lift, mret, M_ret in Hl. rewrite (reads_back _ _ Hb E) in Hl. by injection Hl.
  - intros wall' hr' later. destruct (startManager _ _ _ _ _ _) as [s2 r2] eqn:Hst. rewrite Ha in Hst.
    set (row := AnchorRow.mk _ _ _ _ _) in Hst. assert (Htag : AnchorRow.integrity_tag row ≠ "").
    { simpl. unfold computeAnchorIntegrityTag. pose proof (Hmac key) as Hne. set (t := _ +:+ _). specialize (Hne t). by destruct (hmac key t). }
    destruct (start_accepts _ _ _ _ _ _ Hst) as [(row' & key' & [= <-] & Hl' & Hacc & _ & ->)|[Hnone Hno]].
    + rewrite Hl in Hl'. injection Hl' as <-. rewrite bool_decide_eq_true_2; [done|]. destruct Hacc as (H1 & _ & _ & H4). by split.
    + cbn [fst]. unfold getTrustedEffectiveTime. rewrite Hnone. rewrite bool_decide_eq_false_2; [by case_match|]. intros [H1 H2].
      by apply (Hno row key eq_refl Hl).
Qed.
End time.

(** production, with a first key that is not UTF-8: the next start is locked for good *)
Example restart_resumes_from_the_sync_witness :
  let backend := ElectronSafeStorageBackend (Some sampleKeyring) "linux" in
  let hmac := λ _ _, [0] in
  let synced := syncCloudTime backend hmac 5000 5000 0 (replicate 32 0x80) (TimeManager.mk None None false None ∅) in
  getTrustedEffectiveTime 0 (fst synced) = Ok 5000 ∧
  getTrustedEffectiveTime (seconds 1) (fst (startManager backend hmac (TimeManager.anchor (fst synced)) (TimeManager.secrets (fst synced)) 5010 0)) =
    Err ClockRollbackLockError.
Proof.
  cbv zeta. destruct (restart_resumes_from_the_sync (ElectronSafeStorageBackend (Some sampleKeyring) "linux") (λ _ _, [0]) 5000 5000 0 (replicate 32 0x80)
    (TimeManager.mk None None false None ∅) (fst (syncCloudTime (ElectronSafeStorageBackend (Some sampleKeyring) "linux") (λ _ _, [0]) 5000 5000 0
      (replicate 32 0x80) (TimeManager.mk None None false None ∅)))) as (H1 & key & H2 & _ & H3).
  - discriminate.
  - vm_compute. reflexivity.
  - split; [exact H1|]. rewrite H3. vm_compute in H2. injection H2 as <-. vm_compute. reflexivity.
Defined.
