(* ===== verification/SecurityAuditSpec.v ===== *)
(** The security audit of the edge: every operation of enrolment and sign-in keeps each
    organization's, branch's and edge's records chained, and no record tells a secret. *)
From S2P Require Import Prelude Triples Decimals Json JsonSpec JsonText Buffers AuditTrail SecureStore TrustedTime EdgeSecurity Tokens Iam IamSample LockoutSpec IamFrames.
From Stdlib Require Import Ascii String.

Abbreviation auditRows := SecurityDb.edge_security_audit.

(** no member with a sensitive name tells its value *)
Fixpoint secretFree (v : Json) : Prop :=
  match v with
  | JArray vs => (fix go vs := match vs with [] => True | v :: vs' => secretFree v ∧ go vs' end) vs
  | JObject ms => (fix go ms := match ms with
      | [] => True
      | m :: ms' => (if EdgeCrypto.isSensitive (fst m) then snd m = JString "[REDACTED]" else secretFree (snd m)) ∧ go ms'
      end) ms
  | _ => True
  end.

Lemma redact_secretFree v : secretFree (EdgeCrypto.redactSensitiveData v).
Proof.
  induction v as [v Hv|vs IH|ms IH] using json_ind'; [by destruct v| |]; cbn [EdgeCrypto.redactSensitiveData].
  - change (secretFree (JArray (EdgeCrypto.redactSensitiveData <$> vs))). induction IH; [done|]. by split.
  - induction IH as [|[k v] ms Hv _ IHms]; [done|]. rewrite fmap_cons, filter_cons. case_decide; [|exact IHms]. split; [|exact IHms].
    cbn [fst snd]. by destruct (EdgeCrypto.isSensitive k) eqn:E; cbn [fst snd]; rewrite ?E.
Qed.

Section chain.
Context (digest : string → string).

(** the event a record stands for *)
Definition eventOf (r : SecurityAudit.t) (metadata : Json) : SecurityEvent.t :=
  SecurityEvent.mk (SecurityAudit.eventId r) (SecurityAudit.organizationId r) (SecurityAudit.branchId r) (SecurityAudit.edgeId r)
    (SecurityAudit.stationId r) (SecurityAudit.eventType r) (SecurityAudit.severity r) (SecurityAudit.action r) metadata (SecurityAudit.createdAt r).

(** its hash is that of the record, whose stored metadata hold no secret *)
Definition sealed (r : SecurityAudit.t) : Prop := ∃ metadata,
  secretFree metadata ∧ stringify metadata = Ok (Some (SecurityAudit.metadataJson r)) ∧
  EdgeCrypto.computeCanonicalRecordHash digest
    (canonicalPayload (eventOf r metadata) metadata (SecurityAudit.sequenceNumber r) (SecurityAudit.previousRecordHash r)) = Ok (SecurityAudit.recordHash r).

(** numbered from [n] without gaps, each naming the hash before it *)
Fixpoint linked (n : Z) (previous : string) (rows : list SecurityAudit.t) : Prop :=
  match rows with
  | [] => True
  | r :: rows' => SecurityAudit.sequenceNumber r = n ∧ SecurityAudit.previousRecordHash r = previous ∧ linked (n + 1) (SecurityAudit.recordHash r) rows'
  end.

Definition chainOf (org branch edge : string) (rows : list SecurityAudit.t) : list SecurityAudit.t := filter (inChain org branch edge) rows.

Definition audited (rows : list SecurityAudit.t) : Prop :=
  Forall sealed rows ∧ NoDup (SecurityAudit.eventId <$> rows) ∧
  ∀ org branch edge, linked 1 GENESIS_PREVIOUS_RECORD_HASH (chainOf org branch edge rows).

(** records are added, never changed, and keep the chains *)
Definition extends (d d' : SecurityDb.t) : Prop :=
  (∃ more, auditRows d' = auditRows d ++ more) ∧ (audited (auditRows d) → audited (auditRows d')).
#[global] Instance extends_preorder : PreOrder extends.
Proof.
  split; [intros d; split; [exists []; by rewrite app_nil_r|done]|]. intros d1 d2 d3 [[m1 H1] A1] [[m2 H2] A2]. split; [|auto].
  exists (m1 ++ m2). by rewrite H2, H1, app_assoc.
Qed.

Lemma linked_next n previous rows : 0 < n → linked n previous rows →
  nextSequence rows = (match rows with [] => 1 | _ => n + Z.of_nat (List.length rows) end) ∧
  Forall (λ r, n <= SecurityAudit.sequenceNumber r < n + Z.of_nat (List.length rows)) rows.
Proof.
  revert n previous. unfold nextSequence. induction rows as [|r rows IH]; intros n previous Hn Hl; [by split|].
  destruct Hl as (Hr & _ & Hl). destruct (IH (n + 1) _ ltac:(lia) Hl) as [H1 H2]. cbn [foldr List.length]. split.
  - destruct rows as [|r' rows]; [simpl; lia|]. cbn [List.length] in *. lia.
  - constructor; [lia|]. eapply Forall_impl; [exact H2|]. simpl. intros x. lia.
Qed.

Lemma orderByDesc_last {A} (key : A → Z) l x : Forall (λ y, key y < key x) l → head (orderByDesc key (l ++ [x])) = Some x.
Proof.
  intros Hl. assert (Hh : ∃ t, orderByDesc key (l ++ [x]) = x :: t); [|destruct Hh as [t ->]; done].
  induction Hl as [|y l Hy _ [t IH]]; [by eexists|]. change (orderByDesc key ((y :: l) ++ [x])) with (insertDesc key y (orderByDesc key (l ++ [x]))).
  rewrite IH. cbn. rewrite (proj2 (Z.leb_gt _ _)) by lia. by eexists.
Qed.

Lemma linked_snoc n previous rows r : linked n previous (rows ++ [r]) ↔ linked n previous rows ∧
  SecurityAudit.sequenceNumber r = n + Z.of_nat (List.length rows) ∧
  SecurityAudit.previousRecordHash r = match last rows with Some r' => SecurityAudit.recordHash r' | None => previous end.
Proof.
  revert n previous. induction rows as [|r' rows IH]; intros n previous; cbn [app linked List.length].
  - simpl. rewrite Z.add_0_r. tauto.
  - rewrite IH, last_cons. replace (n + 1 + Z.of_nat (List.length rows)) with (n + Z.of_nat (S (List.length rows))) by lia.
    destruct (last rows); tauto.
Qed.

(** what an append reads of its chain *)
Lemma linked_reads rows : linked 1 GENESIS_PREVIOUS_RECORD_HASH rows →
  nextSequence rows = 1 + Z.of_nat (List.length rows) ∧
  match orderByDesc SecurityAudit.sequenceNumber rows with r :: _ => SecurityAudit.recordHash r | [] => GENESIS_PREVIOUS_RECORD_HASH end =
  match last rows with Some r' => SecurityAudit.recordHash r' | None => GENESIS_PREVIOUS_RECORD_HASH end.
Proof.
  intros Hl. destruct (linked_next 1 _ _ ltac:(lia) Hl) as [H1 H2]. split; [destruct rows; [done|exact H1]|].
  destruct rows as [|r rows _] using rev_ind; [done|]. rewrite last_snoc. apply linked_snoc in Hl as (Hl & Hr & _).
  destruct (linked_next 1 _ _ ltac:(lia) Hl) as [_ H3].
  assert (Ho : head (orderByDesc SecurityAudit.sequenceNumber (rows ++ [r])) = Some r).
  { apply orderByDesc_last. eapply Forall_impl; [exact H3|]. simpl. intros x. lia. }
  destruct (orderByDesc _ _); [done|]. simpl in Ho. by injection Ho as ->.
Qed.

Lemma extends_append d r : SecurityAudit.eventId r ∉ (SecurityAudit.eventId <$> auditRows d) → sealed r →
  (∀ chain, chain = chainOf (SecurityAudit.organizationId r) (SecurityAudit.branchId r) (SecurityAudit.edgeId r) (auditRows d) →
    SecurityAudit.sequenceNumber r = nextSequence chain ∧
    SecurityAudit.previousRecordHash r = match orderByDesc SecurityAudit.sequenceNumber chain with r :: _ => SecurityAudit.recordHash r | [] => GENESIS_PREVIOUS_RECORD_HASH end) →
  extends d (d <| SecurityDb.edge_security_audit ::= (λ l, l ++ [r]) |>).
Proof.
  intros Hid Hs Hlink. assert (Hrows : auditRows (d <| SecurityDb.edge_security_audit ::= (λ l, l ++ [r]) |>) = auditRows d ++ [r]) by (by destruct d).
  split; [by exists [r]|]. rewrite Hrows. clear Hrows. intros (H1 & H2 & H3). split_and!.
  - apply Forall_app. split; [done|]. by apply Forall_singleton.
  - rewrite fmap_app. apply NoDup_app. split_and!; [done| |apply NoDup_singleton]. intros x Hx ->%list_elem_of_singleton. done.
  - intros org branch edge. unfold chainOf. rewrite filter_app, filter_cons, filter_nil. case_decide as Hin; [|rewrite app_nil_r; apply H3].
    destruct Hin as (<- & <- & <-). specialize (H3 (SecurityAudit.organizationId r) (SecurityAudit.branchId r) (SecurityAudit.edgeId r)).
    destruct (Hlink _ eq_refl) as [Hn Hp]. destruct (linked_reads _ H3) as [Hn' Hp']. apply linked_snoc. split_and!; [exact H3|exact (eq_trans Hn Hn')|exact (eq_trans Hp Hp')].
Qed.

Lemma extends_appendInternal input : keeps extends (appendAuditEventInternal digest input).
Proof.
  assert (Hp : ∀ d, post (appendAuditEventInternal digest input) d (λ d' _, extends d d')); [|exact Hp].
  intros d. unfold appendAuditEventInternal, jsonColumn, secJs. posts; try reflexivity.
  destruct (stringify _) as [[m|]|] eqn:Hm; posts; try reflexivity; [|discriminate]. intros. simplify_eq.
  destruct (EdgeCrypto.computeCanonicalRecordHash _ _) as [h|] eqn:Hh; posts; try reflexivity.
  apply extends_append; [| |by intros chain ->].
  - lazymatch goal with Hid : bool_decide (_ ∈ SecurityAudit.eventId <$> _) = false |- _ => exact (bool_decide_eq_false_1 _ Hid) end.
  - exists (EdgeCrypto.redactSensitiveData (SecurityEvent.metadata input)). split_and!; [apply redact_secretFree|exact Hm|exact Hh].
Qed.

Lemma extends_same {E A} (m : M SecurityDb.t E A) : keeps (sameBy auditRows) m → keeps extends m.
Proof. intros Hm d. specialize (Hm d). unfold sameBy in Hm. unfold extends. rewrite Hm. split; [exists []; by rewrite app_nil_r|done]. Qed.
Lemma extends_modify {E} f : (∀ d, auditRows (f d) = auditRows d) → keeps extends (modify f : M SecurityDb.t E unit).
Proof. intros Hf. by apply extends_same, keeps_modify. Qed.
Lemma extends_recordFailure st now : keeps extends (recordFailure st now).
Proof. apply extends_same. intros d. by rewrite run_recordFailure. Qed.
Lemma extends_reset st now : keeps extends (IamPersistence.resetLockoutState st now).
Proof. apply extends_same. intros d. by rewrite run_reset. Qed.
Lemma extends_append_event input : keeps extends (appendAuditEvent digest input).
Proof. apply keeps_inTransaction; [apply _|apply extends_appendInternal]. Qed.
End chain.
#[export] Hint Resolve extends_appendInternal extends_recordFailure extends_reset extends_append_event : keeps.

Section requests.
Context (backend : SecureStorageBackend.t) (digest : string → string) (hmac : list Z → string → list Z).
Context (argon2verify : string → string → option bool) (dateParse : string → option Z) (service : IamService.t).

Ltac writes := writes_with ltac:(by apply extends_modify).

Lemma extends_createSession session roles eid edge ty sev act meta :
  keeps (extends digest) (IamPersistence.createSessionWithAudit digest session roles eid edge ty sev act meta).
Proof. unfold IamPersistence.createSessionWithAudit, IamPersistence.insertSession, jsonColumn, secJs. writes. Qed.
Lemma extends_refuseAudited {A} eid st now code b : keeps (extends digest) (refuseAudited (A:=A) digest service eid st now code b).
Proof. unfold refuseAudited, emitLockoutAuditEvent. writes. Qed.
Lemma extends_refuse {A} st now code : keeps (extends digest) (refuse (A:=A) st now code).
Proof. unfold refuse, denied. writes. Qed.
Hint Resolve extends_createSession : keeps.

Lemma extends_perform q d : extends digest d (performIam backend digest hmac argon2verify dateParse service q d).
Proof.
  assert (Hk : ∀ {E A} (m : M SecurityDb.t E A), keeps (extends digest) m → extends digest d (fst (m d))) by (intros E A m Hm; exact (Hm d)).
  assert (Hr : ∀ {A} st now code, keeps (extends digest) (refuse (A:=A) st now code)) by (intros; apply extends_refuse).
  assert (Ha : ∀ {A} eid st now code b, keeps (extends digest) (refuseAudited (A:=A) digest service eid st now code b)) by (intros; apply extends_refuseAudited).
  destruct q; cbn [performIam]; apply Hk.
  - unfold authenticateWithPin, beginPinAuth, checkStation, checkUser, finishPinAuth, acceptPin, rejectPin, chooseRole, denied, denied_when, openSession, recordSuccess, checkLockout, emitLockoutAuditEvent. writes.
  - unfold supervisorUnlockStation, beginUnlock, finishUnlock, checkStation, checkSupervisor, denied_when, IamPersistence.unlockStationWithAudit. writes.
  - unfold revokeSession, IamPersistence.revokeStationSession. writes.
  - unfold IamPersistence.flushExpiredSessions. writes.
  - unfold IamPersistence.upsertCachedUser, jsonColumn, secJs. writes.
  - unfold IamPersistence.invalidateCachedUser. writes.
  - unfold IamPersistence.deleteCachedUser. writes.
  - unfold EnrollmentPersistence.savePairingToken. writes.
  - unfold EnrollmentPersistence.executeAtomicEnrollment, EnrollmentPersistence.consumeToken, EnrollmentPersistence.insertCredential. writes.
  - writes.
Qed.

(** C8: the security audit is a chain.  Whatever enrolments, sign-ins, unlocks and revocations run,
    wrong or right, the records of each organization, branch and edge are numbered from one without
    gaps, each names the hash of the one before it, and its own hash is that of its content; their
    metadata hold no value of a sensitive member; and records are only ever added. *)
Theorem security_audit_is_chained qs d :
  audited digest (auditRows d) →
  let d' := foldl (λ d q, performIam backend digest hmac argon2verify dateParse service q d) d qs in
  audited digest (auditRows d') ∧ ∃ more, auditRows d' = auditRows d ++ more.
Proof.
  intros Ha. cbv zeta. assert (He : extends digest d (foldl (λ d q, performIam backend digest hmac argon2verify dateParse service q d) d qs)).
  { clear Ha. revert d. induction qs as [|q qs IH]; intros d; [by simpl|]. simpl. etrans; [apply extends_perform|apply IH]. }
  destruct He as [Hm He]. split; [by apply He|done].
Qed.
End requests.

(** an enrolment, five wrong PINs and the unlock: three records *)
Definition auditWitness : list IamRequest :=
  [SavePairingToken (PairingToken.mk "p1" "org-1" "branch-1" "edge-1" "secret" 9000 1000);
   EnrollStation (StationEnrollmentRequest.mk "p1" "secret" "key" "station-2" "POS-2" "POS" "org-1" "branch-1" "edge-1") 2000 "a1"] ++
  ((λ n, SignIn sampleTime (seconds n) sampleSecrets (sampleDraws "1") (samplePin "0000")) <$> [1; 2; 3; 4; 5]) ++
  [SupervisorUnlock sampleTime (seconds 9) (sampleDraws "2") (sampleUnlock "8765")].
Definition auditWitnessRows : list SecurityAudit.t :=
  auditRows (foldl (λ d q, performIam plainBackend sampleDigest sampleHmac sampleArgon sampleParse sampleService q d) sampleDb auditWitness).
Example security_audit_is_chained_witness :
  audited sampleDigest auditWitnessRows ∧ (SecurityAudit.action <$> auditWitnessRows) = ["ENROLLMENT_SUCCESS"; "STATION_LOCKOUT"; "SUPERVISOR_UNLOCK"].
Proof.
  split; [|vm_compute; reflexivity].
  apply (security_audit_is_chained plainBackend sampleDigest sampleHmac sampleArgon sampleParse sampleService auditWitness sampleDb).
  split; [constructor|split; [constructor|intros; exact I]].
Defined.
