(* ===== verification/EnrollmentSpec.v ===== *)
(** Enrolment: a pairing token enrols one station, and the station's token outlives one rotation of
    the signing key. *)
From S2P Require Import Prelude Triples Decimals Json JsonSpec JsonText Buffers AuditTrail SecureStore TrustedTime EdgeSecurity Tokens Iam Epochs IamSample Enrollment LockoutSpec IamFrames.
From Stdlib Require Import Ascii String.

Abbreviation pairings := SecurityDb.enrollment_tokens.
Abbreviation stations := SecurityDb.station_credentials.

Section enrolment.
Context (digest : string → string).

(** the credential an enrolment creates *)
Definition credentialOf (request : StationEnrollmentRequest.t) (now : Z) : StationCredentialRow.t :=
  StationCredentialRow.mk (StationEnrollmentRequest.organizationId request) (StationEnrollmentRequest.branchId request)
    (StationEnrollmentRequest.stationCode request) (StationEnrollmentRequest.stationType request) (StationEnrollmentRequest.stationPublicKey request)
    now false None.

(** what the token of an enrolment must be, and what the enrolment does *)
Definition enrolled (request : StationEnrollmentRequest.t) (now : Z) (d d' : SecurityDb.t) : Prop := ∃ token,
  pairings d !! StationEnrollmentRequest.pairingId request = Some token ∧
  EnrollmentTokenRow.consumed_at token = None ∧
  EnrollmentTokenRow.secret_hash token = digest (StationEnrollmentRequest.pairingSecret request) ∧
  EnrollmentTokenRow.organization_id token = StationEnrollmentRequest.organizationId request ∧
  EnrollmentTokenRow.branch_id token = StationEnrollmentRequest.branchId request ∧
  EnrollmentTokenRow.edge_id token = StationEnrollmentRequest.edgeId request ∧
  EnrollmentTokenRow.created_at token <= now <= EnrollmentTokenRow.expires_at token ∧
  stations d !! StationEnrollmentRequest.stationId request = None ∧
  pairings d' = <[StationEnrollmentRequest.pairingId request := token <| EnrollmentTokenRow.consumed_at := Some now |>]> (pairings d) ∧
  stations d' = <[StationEnrollmentRequest.stationId request := credentialOf request now]> (stations d).

Lemma consumeToken_ok pid now d d1 : EnrollmentPersistence.consumeToken pid now d = (d1, Ok true) →
  ∃ token, pairings d !! pid = Some token ∧ EnrollmentTokenRow.consumed_at token = None ∧ EnrollmentTokenRow.created_at token <= now ∧
    d1 = d <| SecurityDb.enrollment_tokens ::= <[pid := token <| EnrollmentTokenRow.consumed_at := Some now |>]> |>.
Proof.
  unfold EnrollmentPersistence.consumeToken. mrun. destruct (pairings d !! pid) as [token|]; [|done].
  destruct (EnrollmentTokenRow.consumed_at token) eqn:E; [done|]. mrun. destruct (Z.ltb_spec now (EnrollmentTokenRow.created_at token)); [done|].
  mrun. intros [= <-]. by exists token.
Qed.

Lemma insertCredential_ok st row d d1 r : EnrollmentPersistence.insertCredential st row d = (d1, Ok r) →
  stations d !! st = None ∧ d1 = d <| SecurityDb.station_credentials ::= <[st := row]> |>.
Proof.
  unfold EnrollmentPersistence.insertCredential. mrun. case_bool_decide as Hs; [done|]. mrun. case_bool_decide; [done|]. mrun.
  intros [= <- _]. split; [|done]. by apply eq_None_not_Some.
Qed.

Lemma post_enrollment request now id d : post (EnrollmentPersistence.executeAtomicEnrollment digest request now id) d (λ d' r,
  match r with Ok (row, _) => enrolled request now d d' ∧ row = credentialOf request now | Err _ => d' = d end).
Proof.
  unfold EnrollmentPersistence.executeAtomicEnrollment. apply post_inTransaction. posts; [reflexivity..|].
  apply post_of. intros d1 r1 Hc. destruct r1 as [b|e]; [|reflexivity]. posts; [reflexivity|].
  apply post_of. intros d2 r2 Hi. destruct r2 as [[]|e]; [|reflexivity]. posts.
  apply post_of. intros d3 r3 Ha. destruct r3 as [audit|e]; [|reflexivity]. posts. split; [|reflexivity].
  lazymatch goal with Hb : negb b = false |- _ => apply negb_false_iff in Hb; subst b end. apply consumeToken_ok in Hc as (token & Ht & Hn & Hc & ->). apply insertCredential_ok in Hi as [Hfree ->].
  pose proof (keeps_run _ _ _ _ _ (keeps_audit digest _ pairings ltac:(reflexivity)) Ha) as Hp'.
  pose proof (keeps_run _ _ _ _ _ (keeps_audit digest _ stations ltac:(reflexivity)) Ha) as Hs'.
  clear Ha.
  lazymatch goal with Hf : pairings d !! _ = Some a |- _ => rewrite Ht in Hf; injection Hf as <- end. simpl_guards.
  exists token. split_and!; try done; by destruct d.
Qed.

Lemma run_enrollment request now id d d' row audit : EnrollmentPersistence.executeAtomicEnrollment digest request now id d = (d', Ok (row, audit)) →
  enrolled request now d d' ∧ row = credentialOf request now.
Proof. intros Hr. exact (post_run _ _ _ _ _ (post_enrollment request now id d) Hr). Qed.

(** enrolments with a pairing token *)
Definition enrols (pairingId : string) (q : IamRequest) (d : SecurityDb.t) : bool :=
  match q with
  | EnrollStation r now id =>
      bool_decide (StationEnrollmentRequest.pairingId r = pairingId) &&
      match snd (EnrollmentPersistence.executeAtomicEnrollment digest r now id d) with Ok _ => true | Err _ => false end
  | _ => false
  end.

Definition spent (pairingId : string) (d : SecurityDb.t) : Prop :=
  ∃ token, pairings d !! pairingId = Some token ∧ is_Some (EnrollmentTokenRow.consumed_at token).
End enrolment.

Section requests.
Context (backend : SecureStorageBackend.t) (digest : string → string) (hmac : list Z → string → list Z).
Context (argon2verify : string → string → option bool) (dateParse : string → option Z) (service : IamService.t).
Abbreviation perform := (performIam backend digest hmac argon2verify dateParse service).

Fixpoint enrolments (pairingId : string) (qs : list IamRequest) (d : SecurityDb.t) : nat :=
  match qs with [] => 0 | q :: qs' => (if enrols digest pairingId q d then 1 else 0) + enrolments pairingId qs' (perform q d) end.

Lemma enrols_spends pid q d : enrols digest pid q d = true → ¬ spent pid d ∧ spent pid (perform q d).
Proof.
  destruct q; try done. unfold enrols. intros [Hp H]%andb_true_iff. simpl_guards. cbn [performIam].
  pose proof (post_enrollment digest request now auditEventId d) as He. unfold post in He.
  destruct (EnrollmentPersistence.executeAtomicEnrollment _ _ _ _ d) as [d' [[row audit]|e]]; [|done]. simpl in *.
  destruct He as [(token & Ht & Hc & _ & _ & _ & _ & _ & _ & Hp' & _) _]. rewrite Hp in Ht, Hp'. split.
  - intros (token' & Ht' & Hc'). rewrite Ht in Ht'. injection Ht' as <-. rewrite Hc in Hc'. by destruct Hc'.
  - eexists. rewrite Hp', lookup_insert_eq. split; [done|]. simpl. by eexists.
Qed.

Lemma spent_stays pid q d : spent pid d → spent pid (perform q d).
Proof.
  intros Hs. assert (Hk : pairings (perform q d) = pairings d → spent pid (perform q d)) by (intros E; unfold spent; by rewrite E).
  destruct q as [| | | |input|u|u|token|r now id|]; try (apply Hk; by apply frame_perform); clear Hk; cbn [performIam].
  - assert (Hk : keeps (sameBy pairings) (IamPersistence.upsertCachedUser input)) by (unfold IamPersistence.upsertCachedUser, jsonColumn, secJs; keeps; by apply keeps_modify).
    specialize (Hk d). unfold sameBy in Hk. unfold spent. by rewrite Hk.
  - done.
  - done.
  - unfold EnrollmentPersistence.savePairingToken. mrun. case_bool_decide as Hn; mrun; [done|]. destruct Hs as (row & Hr & Hc). exists row. split; [|done].
    destruct d; simpl in *. rewrite lookup_insert_ne; [done|]. intros E. apply Hn. rewrite E. by eexists.
  - pose proof (post_enrollment digest r now id d) as He. unfold post in He.
    destruct (EnrollmentPersistence.executeAtomicEnrollment _ _ _ _ d) as [d' [[row audit]|e]]; simpl in *; [|by subst].
    destruct He as [(token & _ & _ & _ & _ & _ & _ & _ & _ & Hp' & _) _]. destruct Hs as (row' & Hr & Hc). unfold spent. rewrite Hp'.
    destruct (decide (StationEnrollmentRequest.pairingId r = pid)) as [->|Hne].
    + eexists. rewrite lookup_insert_eq. split; [done|]. simpl. by eexists.
    + exists row'. by rewrite lookup_insert_ne.
Qed.

Lemma spent_enrols_no_more pid qs : ∀ d, spent pid d → enrolments pid qs d = 0%nat.
Proof.
  induction qs as [|q qs IH]; intros d Hs; [done|]. cbn [enrolments]. rewrite (IH _ (spent_stays pid q d Hs)).
  destruct (enrols digest pid q d) eqn:E; [|done]. by destruct (enrols_spends _ _ _ E).
Qed.

(** C9: a pairing token enrols one station.  Among any requests, in any order and however often
    repeated, at most one enrolment succeeds with a pairing token, and none with one already
    consumed.  One that succeeds presented the token's secret for its organization, branch and edge,
    before it expired; it consumes the token and creates the credential of a station that had none. *)
Theorem pairing_token_enrols_once pid qs d :
  (enrolments pid qs d <= 1)%nat ∧ (spent pid d → enrolments pid qs d = 0%nat) ∧
  ∀ request now id d1 d2 row audit, EnrollmentPersistence.executeAtomicEnrollment digest request now id d1 = (d2, Ok (row, audit)) →
    enrolled digest request now d1 d2 ∧ row = credentialOf request now.
Proof.
  split_and!; [|by apply spent_enrols_no_more|by intros; eapply run_enrollment].
  revert d. induction qs as [|q qs IH]; intros d; cbn [enrolments]; [lia|]. destruct (enrols digest pid q d) eqn:E; [|apply IH].
  destruct (enrols_spends _ _ _ E) as [_ Hs]. by rewrite (spent_enrols_no_more _ _ _ Hs).
Qed.
End requests.

Definition pairingWitness (station : string) (now : Z) : IamRequest :=
  EnrollStation (StationEnrollmentRequest.mk "p1" "secret" "key" station station "POS" "org-1" "branch-1" "edge-1") now ("a" +:+ station).
(** the same token twice, for two stations *)
Example pairing_token_enrols_once_witness :
  let qs := [SavePairingToken (PairingToken.mk "p1" "org-1" "branch-1" "edge-1" "secret" 2600 2000); pairingWitness "s1" 2100; pairingWitness "s2" 2101] in
  enrolments plainBackend sampleDigest sampleHmac sampleArgon sampleParse sampleService "p1" qs sampleDb = 1%nat ∧
  (enrolments plainBackend sampleDigest sampleHmac sampleArgon sampleParse sampleService "p1" qs sampleDb <= 1)%nat.
Proof.
  split; [vm_compute; reflexivity|]. apply (pairing_token_enrols_once plainBackend sampleDigest sampleHmac sampleArgon sampleParse sampleService).
Defined.

(** ** Station tokens and the rotation of their key *)

Section tokens.
Context (backend : SecureStorageBackend.t) (digest : string → string) (hmac : list Z → string → list Z).

Definition stationClaims (request : StationEnrollmentRequest.t) (issuedAt : Z) : StationTokenClaims.t :=
  StationTokenClaims.mk (StationEnrollmentRequest.stationId request) (StationEnrollmentRequest.organizationId request)
    (StationEnrollmentRequest.branchId request) (StationEnrollmentRequest.edgeId request) (StationEnrollmentRequest.stationCode request)
    (StationEnrollmentRequest.stationType request) issuedAt (issuedAt + tokenLifetimeSeconds).

Lemma stationClaims_plain c : isSafeInteger (StationTokenClaims.iat c) = true → isSafeInteger (StationTokenClaims.exp c) = true →
  plain (StationTokenClaims.json c).
Proof.
  intros H1 H2. unfold StationTokenClaims.json. apply plain_object. split; [by apply (bool_decide_unpack _)|].
  repeat (apply Forall_cons; split; [unfold plain; cbn [snd normal wf_json safeNumbers]; by rewrite ?H1, ?H2|]). by apply Forall_nil.
Qed.

Lemma verify_signed claims key token primary previous now : hmacBytes hmac → plain (StationTokenClaims.json claims) →
  signStationToken hmac claims key = Ok token → validateKeys primary previous = Ok tt →
  let signs k := bool_decide (hmac key (signedText (StationTokenClaims.json claims)) = hmac k (signedText (StationTokenClaims.json claims))) in
  verifyStationToken hmac token primary previous now =
    if signs primary || match previous with Some k => signs k | None => false end
    then if StationTokenClaims.exp claims <? now then Err (IamJs (PlainError "Station token expired")) else Ok (StationTokenClaims.json claims)
    else Err (IamJs (PlainError "Station token signature verification failed")).
Proof.
  intros Hh Hp Hs Hv. cbv zeta. destruct (signToken_verified _ _ _ _ Hh Hp Hs) as (_ & Hparse & Hver). unfold verifyStationToken. rewrite Hv, Hver.
  destruct (_ || _); [|done]. rewrite Hparse. done.
Qed.

Lemma run_enrollStation time hr id request w w1 response : enrollStation digest hmac time hr id request w = (w1, Ok response) →
  getTrustedEffectiveTime hr time = Ok (StationEnrollmentResponse.issuedAt response) ∧ PairingWorld.store w1 = PairingWorld.store w ∧
  PairingWorld.secrets w1 = PairingWorld.secrets w ∧
  signStationToken hmac (stationClaims request (StationEnrollmentResponse.issuedAt response)) (PairingStore.activeHmacKey (PairingWorld.store w)) =
    Ok (StationEnrollmentResponse.stationToken response).
Proof.
  unfold enrollStation, pairingJs. mrun. destruct (getTrustedEffectiveTime hr time) as [now|e]; mrun; [|done].
  destruct (signStationToken _ _ _) as [token|e] eqn:Hs; mrun; [|done]. intros Hr.
  apply bind_ok in Hr as (w2 & x & Hdb & Hr). injection Hr as <- <-. revert Hdb. unfold withDb. destruct (EnrollmentPersistence.executeAtomicEnrollment _ _ _ _ _) as [d r].
  intros [= <- _]. by destruct w.
Qed.

Lemma post_withSecrets {A} (m : Secrets A) w (Q : PairingWorld.t → result EnrollmentError A → Prop) :
  (∀ w' r, PairingWorld.store w' = PairingWorld.store w → Q w' r) → post (withSecrets m) w Q.
Proof. intros HQ. unfold post, withSecrets. destruct (m (PairingWorld.secrets w)) as [f r]. by apply HQ. Qed.

(** a rotation retires the active key for twelve hours *)
Lemma post_rotate time hr newKey w : post (rotateHmacKey backend time hr newKey false) w (λ w1 r, r = Ok tt →
  ∃ now, getTrustedEffectiveTime hr time = Ok now ∧ List.length newKey = 32%nat ∧
    PairingStore.activeHmacKey (PairingWorld.store w1) = newKey ∧
    PairingStore.previousHmacKey (PairingWorld.store w1) = Some (PairingStore.activeHmacKey (PairingWorld.store w)) ∧
    PairingStore.previousHmacKeyExpiresAt (PairingWorld.store w1) = Some (now + 43200)).
Proof.
  unfold rotateHmacKey, pairingJs, saveMetadata, onStore, validateHmacKeyLength. posts.
  destruct (getTrustedEffectiveTime hr time) as [now|e]; [|done]. posts. destruct (Nat.eqb_spec (List.length newKey) 32); posts; [|done].
  apply post_withSecrets. intros w2 [[]|e2] H2; [|done]. posts. apply post_withSecrets. intros w3 [[]|e3] H3; [|done]. posts.
  destruct (stringify _) as [t|]; posts; [|done]. apply post_withSecrets. intros w4 [[]|e4] H4; [|done]. intros _. exists now.
  change (fst (pairingJs (Ok t) w3)) with w3 in H4. rewrite H4, H3. cbn [PairingWorld.store set]. destruct w2 as [s2 f2 d2]. simpl in *. rewrite H2. destruct w as [s f d]. by destruct s.
Qed.

(** The station's token and the rotation of its key.  The token an enrolment answers stays
    valid until it expires, twelve hours after its issue, across one rotation of the key: it is
    checked with the retired key.  A second rotation within these twelve hours replaces the retired
    key, and the token, though it has not expired, is refused as forged (when the signatures of the
    text under the three keys differ). *)
Theorem station_tokens_survive_one_rotation time hr id request w w1 response time2 hr2 key2 w2 time3 hr3 now3 :
  hmacBytes hmac →
  enrollStation digest hmac time hr id request w = (w1, Ok response) →
  let claims := stationClaims request (StationEnrollmentResponse.issuedAt response) in
  isSafeInteger (StationTokenClaims.iat claims) = true → isSafeInteger (StationTokenClaims.exp claims) = true →
  rotateHmacKey backend time2 hr2 key2 false w1 = (w2, Ok tt) →
  (∀ now2, getTrustedEffectiveTime hr2 time2 = Ok now2 → StationEnrollmentResponse.issuedAt response <= now2) →
  getTrustedEffectiveTime hr3 time3 = Ok now3 → now3 <= StationEnrollmentResponse.issuedAt response + 43200 →
  verifyToken backend hmac time3 hr3 (StationEnrollmentResponse.stationToken response) w2 = (w2, Ok (Ok (StationTokenClaims.json claims))) ∧
  ∀ time4 hr4 key4 w4, rotateHmacKey backend time4 hr4 key4 false w2 = (w4, Ok tt) →
    (∀ now4, getTrustedEffectiveTime hr4 time4 = Ok now4 → now3 <= now4 + 43200) →
    (∀ k, k = key2 ∨ k = key4 → hmac (PairingStore.activeHmacKey (PairingWorld.store w)) (signedText (StationTokenClaims.json claims)) ≠
       hmac k (signedText (StationTokenClaims.json claims))) →
    verifyToken backend hmac time3 hr3 (StationEnrollmentResponse.stationToken response) w4 =
      (w4, Ok (Err (IamJs (PlainError "Station token signature verification failed")))).
Proof.
  intros Hh Hen claims Hi He Hrot Ht2 Ht3 Hexp. destruct (run_enrollStation _ _ _ _ _ _ _ Hen) as (Hissued & Hst & _ & Hsign).
  destruct (post_run _ _ _ _ _ (post_rotate time2 hr2 key2 w1) Hrot eq_refl) as (now2 & Hn2 & Hlen2 & Ha2 & Hp2 & He2). specialize (Ht2 _ Hn2).
  pose proof (stationClaims_plain claims Hi He) as Hplain. destruct (signToken_verified _ _ _ _ Hh Hplain Hsign) as (Hlen & _).
  assert (Hverify : ∀ w' key previous expires, PairingStore.activeHmacKey (PairingWorld.store w') = key → PairingStore.previousHmacKey (PairingWorld.store w') = Some previous →
    PairingStore.previousHmacKeyExpiresAt (PairingWorld.store w') = Some expires → now3 <= expires →
    verifyToken backend hmac time3 hr3 (StationEnrollmentResponse.stationToken response) w' =
      (w', Ok (verifyStationToken hmac (StationEnrollmentResponse.stationToken response) key (Some previous) now3))).
  { intros w' key previous expires H1 H2 H3 H4. unfold verifyToken, previousKeyToUse. rewrite Ht3. mrun. rewrite H2, H3, (proj2 (Z.leb_le _ _) H4). mrun. by rewrite H1. }
  split.
  - rewrite (Hverify w2 _ _ _ Ha2 Hp2 He2) by lia. f_equal. f_equal.
    rewrite (verify_signed claims _ _ _ _ _ Hh Hplain Hsign) by (apply validHmacKeys; [done|]; intros k [= <-]; by rewrite Hst).
    cbv zeta. rewrite Hst, (bool_decide_eq_true_2 (hmac (PairingStore.activeHmacKey _) _ = hmac (PairingStore.activeHmacKey _) _)) by done. rewrite orb_true_r.
    simpl. unfold tokenLifetimeSeconds. by rewrite (proj2 (Z.ltb_ge _ _)) by lia.
  - intros time4 hr4 key4 w4 Hrot4 Ht4 Hne.
    destruct (post_run _ _ _ _ _ (post_rotate time4 hr4 key4 w2) Hrot4 eq_refl) as (now4 & Hn4 & Hlen4 & Ha4 & Hp4 & He4). specialize (Ht4 _ Hn4).
    rewrite (Hverify w4 _ _ _ Ha4 Hp4 He4) by lia. f_equal. f_equal. rewrite Ha2.
    rewrite (verify_signed claims _ _ _ _ _ Hh Hplain Hsign) by (apply validHmacKeys; [done|]; by intros k [= <-]).
    cbv zeta. by rewrite !bool_decide_eq_false_2 by (apply Hne; tauto).
Qed.
End tokens.

(** issued at 2005; the key is rotated at 3000 and at 4000, the token checked at 5000 *)
Definition keyHmac (key : list Z) (s : string) : list Z := (λ b, b mod 256) <$> key.
Definition rotationRequest : StationEnrollmentRequest.t :=
  StationEnrollmentRequest.mk "p1" "secret" "key" "s1" "s1" "POS" "org-1" "branch-1" "edge-1".
Definition rotationStart : PairingWorld.t :=
  PairingWorld.mk (PairingStore.mk "org-1" "branch-1" "edge-1" "fp" 600 (replicate 32 1) 1 None None None) ∅
    (sampleDb <| SecurityDb.enrollment_tokens := {["p1" := EnrollmentTokenRow.mk "org-1" "branch-1" "edge-1" "secret" 2600 None 2000]} |>).
Definition rotationEnrolled := enrollStation sampleDigest keyHmac sampleTime (seconds 5) "a1" rotationRequest rotationStart.
Definition rotatedOnce := fst (rotateHmacKey plainBackend sampleTime (seconds 1000) (replicate 32 2) false (fst rotationEnrolled)).
Definition rotatedTwice := fst (rotateHmacKey plainBackend sampleTime (seconds 2000) (replicate 32 3) false rotatedOnce).
Definition rotationToken : string := match snd rotationEnrolled with Ok r => StationEnrollmentResponse.stationToken r | Err _ => "" end.

Example station_tokens_survive_one_rotation_witness :
  snd (verifyToken plainBackend keyHmac sampleTime (seconds 3000) rotationToken rotatedOnce) =
    Ok (Ok (StationTokenClaims.json (stationClaims rotationRequest 2005))) ∧
  snd (verifyToken plainBackend keyHmac sampleTime (seconds 3000) rotationToken rotatedTwice) =
    Ok (Err (IamJs (PlainError "Station token signature verification failed"))).
Proof.
  destruct (station_tokens_survive_one_rotation plainBackend sampleDigest keyHmac sampleTime (seconds 5) "a1" rotationRequest rotationStart
    (fst rotationEnrolled) (StationEnrollmentResponse.mk rotationToken 43200 2005 "s1") sampleTime (seconds 1000) (replicate 32 2) rotatedOnce
    sampleTime (seconds 3000) 5000) as [H1 H2].
  - intros key m. apply Forall_fmap. apply Forall_true. intros b. unfold isByte; simpl. apply Z.mod_pos_bound. lia.
  - unfold rotationEnrolled, rotationToken. vm_compute. reflexivity.
  - vm_compute. reflexivity.
  - vm_compute. reflexivity.
  - vm_compute. reflexivity.
  - intros now2 Hn. vm_compute in Hn. injection Hn as <-. simpl. lia.
  - vm_compute. reflexivity.
  - simpl. lia.
  - split; [exact (f_equal snd H1)|]. apply (f_equal snd (H2 sampleTime (seconds 2000) (replicate 32 3) rotatedTwice ltac:(vm_compute; reflexivity)
      ltac:(intros now4 Hn; vm_compute in Hn; injection Hn as <-; lia) ltac:(intros k [->| ->] Hk; vm_compute in Hk; discriminate Hk))).
Defined.
