(* ===== verification/SessionSpec.v ===== *)
(** Sessions of floor staff: where they come from, and how long their tokens are accepted. *)
From S2P Require Import Prelude Triples Decimals Json JsonSpec JsonText Buffers AuditTrail SecureStore TrustedTime EdgeSecurity Tokens Iam Epochs IamSample LockoutSpec IamFrames.
From Stdlib Require Import Ascii String.

Abbreviation sessions := SecurityDb.station_sessions.

(** the same session, revoked or not *)
Definition sameSession (r r' : StationSession.t) : Prop :=
  r' <| StationSession.isRevoked := StationSession.isRevoked r |> <| StationSession.revokedAt := StationSession.revokedAt r |> = r.

Section sessions.
Context (backend : SecureStorageBackend.t) (digest : string → string) (hmac : list Z → string → list Z).
Context (argon2verify : string → string → option bool) (dateParse : string → option Z) (service : IamService.t).

Lemma post_insertSession row d (Q : SecurityDb.t → result EnrollmentError unit → Prop) :
  (∀ e, Q d (Err e)) →
  (StationSession.sessionTokenHash row ∉ (StationSession.sessionTokenHash <$> sessions d) → StationSession.sessionId row ∉ (StationSession.sessionId <$> sessions d) →
   Q (d <| SecurityDb.station_sessions ::= (λ l, l ++ [row]) |>) (Ok tt)) → post (IamPersistence.insertSession row) d Q.
Proof.
  intros H1 H2. unfold IamPersistence.insertSession. posts; try by apply H1. apply H2; by eapply bool_decide_eq_false_1.
Qed.

(** a session is stored whole, or nothing is *)
Lemma post_createSession session roles eid edge ty sev act meta d :
  post (IamPersistence.createSessionWithAudit digest session roles eid edge ty sev act meta) d (λ d' r,
    match r with
    | Ok (row, _) => sameSession row (session <| StationSession.rolesJson := StationSession.rolesJson row |>) ∧
        stringify (JArray roles) = Ok (Some (StationSession.rolesJson row)) ∧ StationSession.isRevoked row = false ∧
        sessions d' = sessions d ++ [row] ∧ StationSession.sessionTokenHash row ∉ (StationSession.sessionTokenHash <$> sessions d)
    | Err _ => d' = d
    end).
Proof.
  unfold IamPersistence.createSessionWithAudit, jsonColumn, secJs. apply post_inTransaction. posts.
  destruct (stringify _) as [[json|]|e] eqn:Hj; [|reflexivity..]. posts; [reflexivity|]. intros. simplify_eq.
  apply post_insertSession; [reflexivity|]. intros Hhash Hid. posts. apply post_of. intros d2 [audit|e] Ha; [|reflexivity]. posts.
  pose proof (keeps_run _ _ _ _ _ (keeps_audit digest _ sessions ltac:(reflexivity)) Ha) as Hs. split_and!; [by destruct session..|reflexivity| |exact Hhash].
  unfold sameBy in Hs. rewrite Hs. by destruct d.
Qed.

(** the claims of a sign-in *)
Definition claimsOf (p : PendingAuth.t) (sessionId role : string) (roles : list string) : FloorSessionTokenClaims.t :=
  FloorSessionTokenClaims.mk (PinAuthRequest.userId (PendingAuth.request p)) (PinAuthRequest.stationId (PendingAuth.request p))
    (IamService.organizationId service) (IamService.branchId service) sessionId (JString <$> roles) role (PendingAuth.now p) (PendingAuth.now p + 43200).

(** the session and the token that a verified sign-in gave out *)
Definition signedIn (p : PendingAuth.t) (token : string) (row : StationSession.t) : Prop :=
  pinMatches argon2verify p = true ∧
  StationSession.stationId row = PinAuthRequest.stationId (PendingAuth.request p) ∧
  StationSession.userId row = PinAuthRequest.userId (PendingAuth.request p) ∧
  StationSession.issuedAt row = PendingAuth.now p ∧ StationSession.expiresAt row = PendingAuth.now p + 43200 ∧
  StationSession.sessionTokenHash row = digest token ∧ StationSession.isRevoked row = false ∧
  ∃ roles key, parseRoles (CachedUser.rolesJson (PendingAuth.user p)) = Ok (Some roles) ∧
    stringify (JArray (JString <$> roles)) = Ok (Some (StationSession.rolesJson row)) ∧
    StationSession.activeRole row = match truthy (PinAuthRequest.activeRole (PendingAuth.request p)) with Some role => role | None => default "" (head roles) end ∧
    (∀ role, truthy (PinAuthRequest.activeRole (PendingAuth.request p)) = Some role → role ∈ roles) ∧
    signFloorSessionToken hmac (claimsOf p (StationSession.sessionId row) (StationSession.activeRole row) roles) key = Ok token.

(** a finished sign-in: one session more, or none *)
Definition finished (secrets : SecretFiles) (p : PendingAuth.t) (rows : list StationSession.t) (d' : SecurityDb.t) (r : result IamError PinAuthSuccess.t) : Prop :=
  match r with
  | Ok s => signedIn p (PinAuthSuccess.token s) (PinAuthSuccess.session s) ∧ sessions d' = rows ++ [PinAuthSuccess.session s] ∧
      StationSession.sessionTokenHash (PinAuthSuccess.session s) ∉ (StationSession.sessionTokenHash <$> rows) ∧
      ∃ key, getPrimaryHmacKey backend secrets = Ok key ∧
        ∀ roles, parseRoles (CachedUser.rolesJson (PendingAuth.user p)) = Ok (Some roles) →
          signFloorSessionToken hmac (claimsOf p (StationSession.sessionId (PinAuthSuccess.session s)) (StationSession.activeRole (PinAuthSuccess.session s)) roles) key =
            Ok (PinAuthSuccess.token s)
  | Err _ => sessions d' = rows
  end.

Lemma post_finish secrets draws p d : post (finishPinAuth backend digest hmac argon2verify service secrets draws p) d (finished secrets p (sessions d)).
Proof.
  unfold finishPinAuth. destruct (pinMatches argon2verify p) eqn:Hpin.
  2: { apply post_of. intros d' r Hr. pose proof (keeps_run _ _ _ _ _ (frame_reject digest service sessions ltac:(reflexivity) ltac:(reflexivity) draws p) Hr) as Hs.
       destruct (post_run _ _ _ _ _ (post_rejectPin digest service draws p d) Hr) as [[e ->] _]. exact Hs. }
  unfold acceptPin, recordSuccess. posts. apply post_store. unfold post at 1. rewrite run_reset. cbn [fst snd]. posts.
  set (d1 := d <| SecurityDb.station_lockout_state := _ |>). assert (Hd1 : sessions d1 = sessions d) by (by destruct d). rewrite <- Hd1. clearbody d1.
  destruct (parseRoles _) as [[roles|]|e] eqn:Hroles; posts; [| |reflexivity].
  - assert (Hopen : ∀ role, role = match truthy (PinAuthRequest.activeRole (PendingAuth.request p)) with Some role => role | None => default "" (head roles) end →
      (∀ role, truthy (PinAuthRequest.activeRole (PendingAuth.request p)) = Some role → role ∈ roles) → post (openSession backend digest hmac service secrets draws
        (PinAuthRequest.stationId (PendingAuth.request p)) (PinAuthRequest.userId (PendingAuth.request p)) (PendingAuth.now p) roles role) d1 (finished secrets p (sessions d1))); [|
      unfold chooseRole; destruct (truthy _) as [role|] eqn:Hrole; [case_bool_decide|]; posts; [apply Hopen; [done|by intros ? [= <-]]|by apply post_refuse|by apply Hopen]].
    intros role Hrole Hin. unfold openSession. posts. destruct (getPrimaryHmacKey _ _) as [key|e] eqn:Hkey; posts; [|reflexivity].
    destruct (signFloorSessionToken _ _ _) as [token|e] eqn:Hsign; posts; [|reflexivity]. apply post_store.
    eapply post_weaken; [apply post_createSession|]. intros d2 [[row audit]|e]; [|by intros ->]. intros (Hsame & Hj & Hrev & Hrows & Hhash). posts.
    destruct row as [sid hash st uid org br rj ar ia ea rev ra ca]. unfold sameSession in Hsame. simpl in *. injection Hsame; intros; subst.
    split_and!; try done.
    + split_and!; try done. by exists roles, key.
    + exists key. split; [done|]. intros roles' Hr. rewrite Hroles in Hr. by injection Hr as <-.
  - by apply post_refuse.
Qed.

(** ** Verification *)

Lemma head_filter_elem {A} (P : A → Prop) `{!∀ x, Decision (P x)} l x : head (filter P l) = Some x → P x ∧ x ∈ l.
Proof. intros Hh. apply (list_elem_of_filter P l x). destruct (filter P l); [done|]. injection Hh as ->. left. Qed.

Lemma verifySession_ok time hr secrets token st d d' r : verifySession backend digest hmac time hr secrets token st d = (d', Ok r) →
  d' = d ∧ r ∈ sessions d ∧ StationSession.sessionTokenHash r = digest token ∧ StationSession.isRevoked r = false ∧
  ∃ now primary claims, getTrustedEffectiveTime hr time = Ok now ∧ now < StationSession.expiresAt r ∧
    verifyFloorSessionToken hmac token primary (getPreviousHmacKey backend secrets) now = Ok claims ∧ boundTo claims st = true.
Proof.
  unfold verifySession, denied_when, IamPersistence.getStationSessionByTokenHash.
  destruct (getTrustedEffectiveTime hr time) as [now|e]; mrun; [|done]. destruct (getPrimaryHmacKey _ _) as [primary|e]; mrun; [|done].
  destruct (verifyFloorSessionToken _ _ _ _ _) as [claims|e] eqn:Hc; mrun; [|done]. destruct (boundTo claims st) eqn:Hb; mrun; [|done].
  rewrite (bind_run_ok _ _ d d (head (filter (λ r, StationSession.sessionTokenHash r = digest token) (sessions d)))) by done.
  destruct (head (filter _ (sessions d))) as [row|] eqn:Hf; mrun; [|done].
  destruct (StationSession.isRevoked row) eqn:Hrev; mrun; [done|]. destruct (Z.leb_spec (StationSession.expiresAt row) now); mrun; [done|].
  intros [= <- <-]. apply head_filter_elem in Hf as [Hh Hin]. split_and!; try done. by exists now, primary, claims.
Qed.

Lemma floorClaims_plain c : isSafeInteger (FloorSessionTokenClaims.iat c) = true → isSafeInteger (FloorSessionTokenClaims.exp c) = true →
  (∃ roles, FloorSessionTokenClaims.roles c = JString <$> roles) → plain (FloorSessionTokenClaims.json c).
Proof.
  intros H1 H2 [roles Hr]. unfold FloorSessionTokenClaims.json. rewrite Hr. apply plain_object. split; [by apply (bool_decide_unpack _)|].
  assert (Hroles : plain (JArray (JString <$> roles))) by (apply plain_array, Forall_fmap, Forall_true; intros role; by repeat split).
  repeat (apply Forall_cons; split; [first [exact Hroles|unfold plain; cbn [snd normal wf_json safeNumbers]; by rewrite ?H1, ?H2]|]). by apply Forall_nil.
Qed.

(** whichever keys accept it, a token tells the claims it was signed with *)
Lemma verifyFloor_claims c key token primary previous now claims : hmacBytes hmac → plain (FloorSessionTokenClaims.json c) →
  signFloorSessionToken hmac c key = Ok token → verifyFloorSessionToken hmac token primary previous now = Ok claims → claims = FloorSessionTokenClaims.json c.
Proof.
  intros Hh Hp Hs. destruct (signToken_verified _ _ _ _ Hh Hp Hs) as (_ & Hparse & Hver). unfold verifyFloorSessionToken.
  destruct (validateKeys _ _); [|done]. rewrite Hver. destruct (_ || _); [|done]. rewrite Hparse. 
  destruct (claimNumber _ "exp") as [exp|]; [|done]. cbn [result_bind]. destruct (match exp with Some _ => _ | None => _ end); [done|].
  destruct (claimNumber _ "iat") as [iat|]; [|done]. cbn [result_bind]. destruct (match iat with Some _ => _ | None => _ end); [done|]. by intros [= <-].
Qed.

(** ** Sign-ins among other requests *)

End sessions.

Module Login.
(** a sign-in that succeeded: what it had awaited, the token and the session it answered *)
Record t := mk { pending : PendingAuth.t; token : string; row : StationSession.t }.
End Login.

Module Floor.
(** the tables, the sign-ins that await their PINs, and those that succeeded *)
Record t := mk { db : SecurityDb.t; pendings : list PendingAuth.t; logins : list Login.t }.
End Floor.

Section floor.
Context (backend : SecureStorageBackend.t) (digest : string → string) (hmac : list Z → string → list Z).
Context (argon2verify : string → string → option bool) (dateParse : string → option Z) (service : IamService.t).

Definition isSignIn (q : IamRequest) : bool := match q with SignIn _ _ _ _ _ => true | _ => false end.

(** a sign-in begins, one that awaits goes on, or another request runs *)
Inductive floor_step : Floor.t → Floor.t → Prop :=
| step_begin d ps ls time hr request d' r :
    beginPinAuth dateParse service time hr request d = (d', r) →
    floor_step (Floor.mk d ps ls) (Floor.mk d' (match r with Ok p => p :: ps | Err _ => ps end) ls)
| step_finish d ps1 p ps2 ls secrets draws d' r :
    finishPinAuth backend digest hmac argon2verify service secrets draws p d = (d', r) →
    floor_step (Floor.mk d (ps1 ++ p :: ps2) ls)
      (Floor.mk d' (ps1 ++ ps2) (match r with Ok s => Login.mk p (PinAuthSuccess.token s) (PinAuthSuccess.session s) :: ls | Err _ => ls end))
| step_other d ps ls q : isSignIn q = false →
    floor_step (Floor.mk d ps ls) (Floor.mk (performIam backend digest hmac argon2verify dateParse service q d) ps ls).

(** the sign-in had passed the checks that precede its PIN *)
Definition begun (p : PendingAuth.t) : Prop := ∃ d time hr, beginPinAuth dateParse service time hr (PendingAuth.request p) d = (d, Ok p).

Definition accounts_for (ls : list Login.t) (r : StationSession.t) : Prop := ∃ l, l ∈ ls ∧ sameSession r (Login.row l).
Definition floor_inv (w : Floor.t) : Prop :=
  Forall (accounts_for (Floor.logins w)) (sessions (Floor.db w)) ∧ Forall begun (Floor.pendings w) ∧
  Forall (λ l, begun (Login.pending l) ∧ signedIn digest hmac argon2verify service (Login.pending l) (Login.token l) (Login.row l)) (Floor.logins w).

Lemma sameSession_refl r : sameSession r r.
Proof. by destruct r. Qed.
Lemma sameSession_revoked r r' P now : sameSession r r' → sameSession (IamPersistence.revokeWhen P now r) r'.
Proof. unfold IamPersistence.revokeWhen. destruct (P r); [|done]. unfold sameSession. destruct r, r'. simpl. by intros [= -> -> -> -> -> -> -> -> -> -> ->]. Qed.

(** other requests only revoke sessions *)
Lemma other_sessions q d : isSignIn q = false →
  ∃ P now, sessions (performIam backend digest hmac argon2verify dateParse service q d) = IamPersistence.revokeWhen P now <$> sessions d.
Proof.
  intros Hq. assert (Hsame : sessions (performIam backend digest hmac argon2verify dateParse service q d) = sessions d →
    ∃ P now, sessions (performIam backend digest hmac argon2verify dateParse service q d) = IamPersistence.revokeWhen P now <$> sessions d).
  { intros ->. exists (λ _, false), 0. unfold IamPersistence.revokeWhen. symmetry. apply list_fmap_id. }
  assert (Hk : ∀ {E A} (m : M SecurityDb.t E A), keeps (sameBy sessions) m → sessions (fst (m d)) = sessions d) by (intros E A m Hm; exact (Hm d)).
  destruct q as [|time hr draws request|time hr sid|now|input|u|u|token|r now id|event]; try done; cbn [performIam] in *.
  - apply Hsame, Hk. by apply frame_unlock.
  - unfold revokeSession in *. mrun. destruct (getTrustedEffectiveTime hr time) as [now|e]; [|by apply Hsame]. eexists _, now. by destruct d.
  - eexists _, now. by destruct d.
  - apply Hsame, Hk. unfold IamPersistence.upsertCachedUser, jsonColumn, secJs. keeps. by apply keeps_modify.
  - by apply Hsame.
  - by apply Hsame.
  - apply Hsame, Hk. unfold EnrollmentPersistence.savePairingToken. keeps. by apply keeps_modify.
  - apply Hsame, Hk. unfold EnrollmentPersistence.executeAtomicEnrollment, EnrollmentPersistence.consumeToken, EnrollmentPersistence.insertCredential.
    pose proof (frame_audit digest sessions ltac:(reflexivity)). writes_with ltac:(by apply keeps_modify).
  - apply Hsame, Hk. by apply frame_append.
Qed.

Lemma floor_step_inv w w' : floor_step w w' → floor_inv w → floor_inv w'.
Proof.
  intros [d ps ls time hr request d' r Hb|d ps1 p ps2 ls secrets draws d' r Hf|d ps ls q Hq] (H1 & H2 & H3); unfold floor_inv in *; simpl in *.
  - rewrite (keeps_run _ _ _ _ _ (frame_begin dateParse service sessions ltac:(reflexivity) time hr request) Hb : sessions d' = sessions d).
    split_and!; [done| |done]. destruct r as [p|e]; [|done]. constructor; [|done].
    pose proof (post_run _ _ _ _ _ (post_begin dateParse service time hr request d) Hb) as (-> & Hreq & _). exists d, time, hr. by rewrite Hreq.
  - apply Forall_app in H2 as [H2 [Hp H2']%Forall_cons]. pose proof (post_run _ _ _ _ _ (post_finish backend digest hmac argon2verify service secrets draws p d) Hf) as Hr.
    split_and!; [|by apply Forall_app|]; destruct r as [s|e]; simpl in Hr.
    + destruct Hr as (_ & -> & _). apply Forall_app. split.
      * eapply Forall_impl; [exact H1|]. intros row (l & Hl & Hs). exists l. split; [by right|done].
      * apply Forall_singleton. eexists. split; [by left|]. apply sameSession_refl.
    + by rewrite Hr.
    + destruct Hr as (Hs & _). constructor; [by split|done].
    + done.
  - destruct (other_sessions q d Hq) as (P & now & ->). split_and!; try done. apply Forall_fmap. eapply Forall_impl; [exact H1|].
    intros row (l & Hl & Hs). exists l. split; [done|]. by apply sameSession_revoked.
Qed.

(** C5: a verified session comes from a sign-in.  However sign-ins, unlocks, revocations,
    enrolments and changes of users interleave, from a start without sessions: a session that
    verification answers was opened by a sign-in that had passed every check before the PIN and
    whose PIN matched the user's hash; the token presented is the one it answered (but for a
    collision of the hash), presented at its own station, within twelve hours of the sign-in, and
    the session is not revoked.  Verification changes nothing. *)
Theorem sessions_come_from_sign_ins w0 w time hr secrets token st d' r :
  sessions (Floor.db w0) = [] → Floor.pendings w0 = [] → Floor.logins w0 = [] → rtc floor_step w0 w →
  hmacBytes hmac → (∀ t, digest t = digest token → t = token) →
  verifySession backend digest hmac time hr secrets token st (Floor.db w) = (d', Ok r) →
  isSafeInteger (StationSession.issuedAt r) = true → isSafeInteger (StationSession.expiresAt r) = true →
  d' = Floor.db w ∧ ∃ p row, Login.mk p token row ∈ Floor.logins w ∧ begun p ∧
    signedIn digest hmac argon2verify service p token row ∧ sameSession r row ∧ StationSession.isRevoked r = false ∧
    st = PinAuthRequest.stationId (PendingAuth.request p) ∧
    ∃ now, getTrustedEffectiveTime hr time = Ok now ∧ now < PendingAuth.now p + 43200.
Proof.
  intros Hs0 Hp0 Hl0 Hsteps Hh Hcoll Hv Hi He.
  assert (Hinv : floor_inv w).
  { assert (H0 : floor_inv w0) by (unfold floor_inv; rewrite Hs0, Hp0, Hl0; split_and!; constructor). clear -H0 Hsteps.
    induction Hsteps as [|w0 w1 w2 Hstep _ IH]; [done|]. apply IH. by eapply floor_step_inv. }
  destruct Hinv as (H1 & _ & H3). destruct (verifySession_ok _ _ _ _ _ _ _ _ _ _ _ Hv) as (-> & Hin & Hhash & Hrev & now & primary & claims & Hnow & Hlt & Hver & Hbound).
  split; [done|]. destruct (proj1 (Forall_forall _ _) H1 r Hin) as ([p token' row] & Hl & Hsame). destruct (proj1 (Forall_forall _ _) H3 _ Hl) as [Hbegun Hsigned]. simpl in *.
  assert (Hrow : StationSession.sessionTokenHash row = StationSession.sessionTokenHash r ∧ StationSession.issuedAt row = StationSession.issuedAt r ∧
    StationSession.expiresAt row = StationSession.expiresAt r) by (unfold sameSession in Hsame; rewrite <- Hsame; by destruct row).
  destruct Hrow as (E1 & E2 & E3). pose proof Hsigned as (_ & _ & _ & Hiss & Hexp & Hth & _ & roles & key & _ & _ & _ & _ & Hsign).
  assert (token' = token) as -> by (apply Hcoll; congruence). exists p, row. split_and!; try done.
  - assert (Hplain : plain (FloorSessionTokenClaims.json (claimsOf service p (StationSession.sessionId row) (StationSession.activeRole row) roles))).
    { apply floorClaims_plain; simpl; [congruence|congruence|by exists roles]. }
    rewrite (verifyFloor_claims _ _ _ _ _ _ _ _ Hh Hplain Hsign Hver) in Hbound. unfold boundTo in Hbound. simpl in Hbound. by apply bool_decide_eq_true in Hbound.
  - exists now. split; [done|]. lia.
Qed.
End floor.

Section lifetime.
Context (backend : SecureStorageBackend.t) (digest : string → string) (hmac : list Z → string → list Z).
Context (argon2verify : string → string → option bool) (service : IamService.t).

Lemma verifyFloor_signed c key token now : hmacBytes hmac → plain (FloorSessionTokenClaims.json c) →
  signFloorSessionToken hmac c key = Ok token →
  verifyFloorSessionToken hmac token key None now =
    if FloorSessionTokenClaims.exp c <? now then iamErr SESSION_EXPIRED
    else if now + 5 <? FloorSessionTokenClaims.iat c then iamErr CLOCK_ROLLBACK_LOCKED
    else Ok (FloorSessionTokenClaims.json c).
Proof.
  intros Hh Hp Hs. destruct (signToken_verified _ _ _ _ Hh Hp Hs) as (Hlen & Hparse & Hver). unfold verifyFloorSessionToken.
  rewrite validHmacKeys by done. rewrite Hver, bool_decide_eq_true_2 by done. cbn [orb]. rewrite Hparse. done.
Qed.

(** C10: the life of a session.  The session a sign-in opened is found by its token.  As long as its
    row is there, whatever has become of its user, its station and the lockouts, the token is
    answered with that row at its own station, until twelve hours after the sign-in; then it is
    SESSION_EXPIRED, at another station SESSION_STATION_MISMATCH, and SESSION_REVOKED once the row is
    revoked.  (No previous HMAC key is stored: nothing writes one.) *)
Theorem session_lives_twelve_hours secrets draws p d d1 s d2 row time hr now st :
  hmacBytes hmac → finishPinAuth backend digest hmac argon2verify service secrets draws p d = (d1, Ok s) →
  isSafeInteger (PendingAuth.now p) = true → isSafeInteger (PendingAuth.now p + 43200) = true →
  getPreviousHmacKey backend secrets = None → getTrustedEffectiveTime hr time = Ok now → PendingAuth.now p <= now + 5 →
  let find d := snd (IamPersistence.getStationSessionByTokenHash (digest (PinAuthSuccess.token s)) d) in
  find d1 = Ok (Some (PinAuthSuccess.session s)) ∧
  (find d2 = Ok (Some row) → sameSession row (PinAuthSuccess.session s) →
   verifySession backend digest hmac time hr secrets (PinAuthSuccess.token s) st d2 =
     (d2, if PendingAuth.now p + 43200 <? now then iamErr SESSION_EXPIRED
          else if negb (bool_decide (st = PinAuthRequest.stationId (PendingAuth.request p))) then iamErr SESSION_STATION_MISMATCH
          else if StationSession.isRevoked row then iamErr SESSION_REVOKED
          else if now =? PendingAuth.now p + 43200 then iamErr SESSION_EXPIRED
          else Ok row)).
Proof.
  intros Hh Hf Hi He Hprev Hnow Hpast. cbv zeta.
  destruct (post_run _ _ _ _ _ (post_finish backend digest hmac argon2verify service secrets draws p d) Hf) as (Hsigned & Hrows & Hfresh & key & Hkey & Hsign).
  destruct Hsigned as (_ & _ & _ & _ & Hexp & Hhash & _ & roles & _ & Hroles & _). specialize (Hsign roles Hroles). split.
  - unfold IamPersistence.getStationSessionByTokenHash, gets. simpl. rewrite Hrows, filter_app. rewrite filter_none.
    + rewrite filter_cons_True by done. done.
    + intros x Hx Hd. apply Hfresh. rewrite Hhash, <- Hd. by apply list_elem_of_fmap_2.
  - intros Hfind Hsame. assert (Hrow : StationSession.expiresAt row = PendingAuth.now p + 43200).
    { rewrite <- Hexp. unfold sameSession in Hsame. rewrite <- Hsame. by destruct (PinAuthSuccess.session s). }
    assert (Hplain : plain (FloorSessionTokenClaims.json (claimsOf service p (StationSession.sessionId (PinAuthSuccess.session s))
      (StationSession.activeRole (PinAuthSuccess.session s)) roles))) by (apply floorClaims_plain; simpl; [done|done|by exists roles]).
    unfold verifySession, denied_when. rewrite Hnow. mrun. rewrite Hkey. mrun. rewrite Hprev, (verifyFloor_signed _ _ _ _ Hh Hplain Hsign). simpl.
    destruct (Z.ltb_spec (PendingAuth.now p + 43200) now); [done|]. rewrite (proj2 (Z.ltb_ge _ _)) by lia. mrun. unfold boundTo. simpl.
    case_bool_decide as Hst; case_bool_decide as Hst'; simpl; try congruence; mrun; [|done].
    rewrite (bind_run_ok _ _ d2 d2 (Some row)).
    2: { unfold store. destruct (IamPersistence.getStationSessionByTokenHash _ d2) as [d3 r] eqn:E. simpl in Hfind. subst r.
         unfold IamPersistence.getStationSessionByTokenHash, gets in E. by injection E as <-. }
    mrun. destruct (StationSession.isRevoked row); mrun; [done|]. rewrite Hrow.
    destruct (Z.leb_spec (PendingAuth.now p + 43200) now), (Z.eqb_spec now (PendingAuth.now p + 43200)); try lia; by mrun.
Qed.
End lifetime.

(** a sign-in at 2005, and its token an hour later; the user and the station are gone by then *)
Definition sessionPending : PendingAuth.t := PendingAuth.mk (samplePin "4321") 2005 (sampleUser "4321" "ROLE-003").
Definition sessionRun := finishPinAuth plainBackend sampleDigest sampleHmac sampleArgon sampleService sampleSecrets (sampleDraws "1") sessionPending sampleDb.
Definition sessionSuccess : PinAuthSuccess.t :=
  match snd sessionRun with Ok s => s | Err _ => PinAuthSuccess.mk "" (StationSession.mk "" "" "" "" "" "" "" "" 0 0 false None 0) [] end.
Definition sessionsOnly : SecurityDb.t := SecurityDb.empty <| SecurityDb.station_sessions := SecurityDb.station_sessions (fst sessionRun) |>.

Example session_lives_twelve_hours_witness :
  snd (verifySession plainBackend sampleDigest sampleHmac sampleTime (seconds 3605) sampleSecrets (PinAuthSuccess.token sessionSuccess) station1 sessionsOnly) =
    Ok (PinAuthSuccess.session sessionSuccess) ∧
  snd (verifySession plainBackend sampleDigest sampleHmac sampleTime (seconds 43205) sampleSecrets (PinAuthSuccess.token sessionSuccess) station1 sessionsOnly) =
    iamErr SESSION_EXPIRED.
Proof.
  pose proof (λ hr now, session_lives_twelve_hours plainBackend sampleDigest sampleHmac sampleArgon sampleService sampleSecrets (sampleDraws "1")
    sessionPending sampleDb (fst sessionRun) sessionSuccess sessionsOnly (PinAuthSuccess.session sessionSuccess) sampleTime (seconds hr) now station1
    sampleHmac_bytes) as Hlife.
  split.
  - destruct (Hlife 3605 5605) as [_ Hv]; [vm_compute; reflexivity..|vm_compute; discriminate|].
    exact (f_equal snd (Hv ltac:(vm_compute; reflexivity) (sameSession_refl _))).
  - destruct (Hlife 43205 45205) as [_ Hv]; [vm_compute; reflexivity..|vm_compute; discriminate|].
    exact (f_equal snd (Hv ltac:(vm_compute; reflexivity) (sameSession_refl _))).
Defined.

Example sessions_come_from_sign_ins_witness : ∃ row,
  snd (verifySession plainBackend sampleDigest sampleHmac sampleTime (seconds 3605) sampleSecrets (PinAuthSuccess.token sessionSuccess) station1 (fst sessionRun)) =
    Ok row ∧ ∃ p, begun sampleParse sampleService p ∧ pinMatches sampleArgon p = true ∧ station1 = PinAuthRequest.stationId (PendingAuth.request p).
Proof.
  exists (PinAuthSuccess.session sessionSuccess). split; [vm_compute; reflexivity|].
  destruct (sessions_come_from_sign_ins plainBackend sampleDigest sampleHmac sampleArgon sampleParse sampleService (Floor.mk sampleDb [] [])
    (Floor.mk (fst sessionRun) [] [Login.mk sessionPending (PinAuthSuccess.token sessionSuccess) (PinAuthSuccess.session sessionSuccess)])
    sampleTime (seconds 3605) sampleSecrets (PinAuthSuccess.token sessionSuccess) station1 (fst sessionRun) (PinAuthSuccess.session sessionSuccess))
    as (_ & p & row & _ & Hb & (Hpin & _) & _ & _ & Hst & _).
  - reflexivity.
  - reflexivity.
  - reflexivity.
  - eapply rtc_l.
    + apply (step_begin plainBackend sampleDigest sampleHmac sampleArgon sampleParse sampleService sampleDb [] [] sampleTime (seconds 5) (samplePin "4321")
        sampleDb (Ok sessionPending)). vm_compute. reflexivity.
    + apply rtc_once. apply (step_finish plainBackend sampleDigest sampleHmac sampleArgon sampleParse sampleService sampleDb [] sessionPending [] []
        sampleSecrets (sampleDraws "1") (fst sessionRun) (Ok sessionSuccess)). vm_compute. reflexivity.
  - exact sampleHmac_bytes.
  - intros t Ht. exact Ht.
  - vm_compute. reflexivity.
  - vm_compute. reflexivity.
  - vm_compute. reflexivity.
  - exists p. split; [exact Hb|]. split; [exact Hpin|exact Hst].
Defined.
