(* ===== verification/Doubles.v ===== *)
(** The numbers of JavaScript where the cloud uses them for money: [parseFloat] of a decimal
    column, the sum of two numbers, and [toFixed].

    A finite number is the rational [m * 2^e] of a pair of integers; [nearest] rounds a
    rational to the closest number with 53 significant bits, ties to the even one, which is
    what IEEE 754 prescribes for the literals and the sums of the source.  Overflow and
    subnormal numbers are out of reach of amounts of at most twenty digits. *)
From S2P Require Import Prelude Decimals Money Scale4.
From Stdlib Require Import Ascii String.

Module Double.
Record t := mk { mantissa : Z; exponent : Z }.
(** the value is [num x / den x] *)
Definition num (x : t) : Z := mantissa x * 2 ^ Z.max 0 (exponent x).
Definition den (x : t) : Z := 2 ^ Z.max 0 (- exponent x).
End Double.

(** [a / b], ties to even *)
Definition roundHalfEven (a b : Z) : Z :=
  let q := a / b in
  let twice := 2 * (a mod b) in
  if twice <? b then q else if b <? twice then q + 1 else if Z.even q then q else q + 1.

(** the exponent that leaves 53 bits of [n / d] *)
Definition scaleOf (n d : Z) : Z :=
  let k := Z.log2 n - Z.log2 d - 52 in
  if n * 2 ^ Z.max 0 (- k) <? 2 ^ 52 * (d * 2 ^ Z.max 0 k) then k - 1 else k.

Definition nearestPositive (n d : Z) : Double.t :=
  let e := scaleOf n d in
  Double.mk (roundHalfEven (n * 2 ^ Z.max 0 (- e)) (d * 2 ^ Z.max 0 e)) e.

(** the number closest to [n / d], for a positive [d] *)
Definition nearest (n d : Z) : Double.t :=
  if n =? 0 then Double.mk 0 0
  else if n <? 0 then let x := nearestPositive (- n) d in Double.mk (- Double.mantissa x) (Double.exponent x)
  else nearestPositive n d.

(** [parseFloat] of the text of an amount of [n] ten-thousandths *)
Definition parseFloat4 (n : Z) : Double.t := nearest n SCALE_FACTOR.

(** [x + y] *)
Definition plusDouble (x y : Double.t) : Double.t :=
  nearest (Double.num x * Double.den y + Double.num y * Double.den x) (Double.den x * Double.den y).

(** the integer [n] for which [n / 10^f] is closest to [x], the larger of two *)
Definition fixedDigits (f : nat) (x : Double.t) : Z :=
  (2 * 10 ^ Z.of_nat f * Double.num x + Double.den x) / (2 * Double.den x).

(** [n] as a decimal of [f > 0] places *)
Definition fixedText (f : nat) (n : Z) : string :=
  toString (Z.to_N (n / 10 ^ Z.of_nat f)) +:+ "." +:+ padStart0 f (toString (Z.to_N (n mod 10 ^ Z.of_nat f))).

(** [x.toFixed(f)] of a number below [10^21] *)
Definition toFixed (f : nat) (x : Double.t) : string :=
  if Double.mantissa x <? 0
  then "-" +:+ fixedText f (fixedDigits f (Double.mk (- Double.mantissa x) (Double.exponent x)))
  else fixedText f (fixedDigits f x).

Example tie_of_an_eighth : toFixed 2 (parseFloat4 86250) = "8.63". Proof. by vm_compute. Qed.
Example not_a_tie : toFixed 2 (parseFloat4 10050) = "1.00". Proof. by vm_compute. Qed.
Example tenths : toFixed 4 (plusDouble (parseFloat4 1000) (parseFloat4 2000)) = "0.3000". Proof. by vm_compute. Qed.

(** ** Rounding errors *)

Lemma roundHalfEven_error a b : 0 < b → Z.abs (2 * (roundHalfEven a b * b - a)) ≤ b.
Proof.
  intros Hb. unfold roundHalfEven. pose proof (Z.div_mod a b ltac:(lia)) as Hdiv. pose proof (Z.mod_pos_bound a b Hb) as Hmod.
  destruct (Z.ltb_spec (2 * (a mod b)) b); [|destruct (Z.ltb_spec b (2 * (a mod b))); [|destruct (Z.even (a / b))]];
    apply Z.abs_le; nia.
Qed.

Lemma roundHalfEven_nonneg a b : 0 ≤ a → 0 < b → 0 ≤ roundHalfEven a b.
Proof.
  intros Ha Hb. unfold roundHalfEven. pose proof (Z.div_pos a b Ha Hb).
  repeat case_match; lia.
Qed.

Lemma scaleOf_lower n d : 0 < n → 0 < d → 2 ^ 52 * (d * 2 ^ Z.max 0 (scaleOf n d)) ≤ n * 2 ^ Z.max 0 (- scaleOf n d).
Proof.
  intros Hn Hd. unfold scaleOf. cbv zeta. set (k := Z.log2 n - Z.log2 d - 52).
  destruct (Z.ltb_spec (n * 2 ^ Z.max 0 (- k)) (2 ^ 52 * (d * 2 ^ Z.max 0 k))) as [_|Hk]; [|exact Hk].
  destruct (Z.log2_spec n Hn) as [Hln _]. destruct (Z.log2_spec d Hd) as [_ Hld].
  pose proof (Z.log2_nonneg n). pose proof (Z.log2_nonneg d).
  set (p := Z.max 0 (- (k - 1))). set (q := Z.max 0 (k - 1)).
  assert (Hpow : 2 ^ 52 * (2 ^ Z.succ (Z.log2 d) * 2 ^ q) = 2 ^ Z.log2 n * 2 ^ p).
  { rewrite <-!Z.pow_add_r by lia. f_equal. lia. }
  assert (0 < 2 ^ q) by (apply Z.pow_pos_nonneg; lia). assert (0 < 2 ^ p) by (apply Z.pow_pos_nonneg; lia). nia.
Qed.

Lemma den_pos x : 0 < Double.den x.
Proof. apply Z.pow_pos_nonneg; lia. Qed.

(** below [2^B] the closest number is within [2^(B - 54)] *)
Lemma nearest_error B n d : 0 ≤ n → 0 < d → 0 ≤ B ≤ 53 → n < 2 ^ B * d →
  Z.abs (Double.num (nearest n d) * d - n * Double.den (nearest n d)) * 2 ^ (54 - B) ≤ d * Double.den (nearest n d) ∧
  0 ≤ Double.mantissa (nearest n d).
Proof.
  intros Hn Hd HB Hlt. unfold nearest. destruct (Z.eqb_spec n 0) as [->|Hn0].
  { unfold Double.num, Double.den. cbn [Double.mantissa Double.exponent]. split; [|lia].
    change (2 ^ Z.max 0 (- 0)) with 1. change (2 ^ Z.max 0 0) with 1. rewrite !Z.mul_0_l. lia. }
  destruct (Z.ltb_spec n 0); [lia|]. unfold nearestPositive. cbv zeta. set (e := scaleOf n d).
  pose proof (scaleOf_lower n d ltac:(lia) Hd) as Hlow. fold e in Hlow.
  assert (0 < 2 ^ Z.max 0 (- e)) by (apply Z.pow_pos_nonneg; lia). assert (0 < 2 ^ Z.max 0 e) by (apply Z.pow_pos_nonneg; lia).
  assert (He : e ≤ B - 53).
  { destruct (Z.le_gt_cases e (B - 53)) as [|Hgt]; [done|]. exfalso.
    assert (Hpow : 2 ^ B * 2 ^ Z.max 0 (- e) ≤ 2 ^ 52 * 2 ^ Z.max 0 e)
      by (rewrite <-!Z.pow_add_r by lia; apply Z.pow_le_mono_r; lia). nia. }
  assert (Z.max 0 e = 0) as Hz by lia. rewrite Hz, Z.pow_0_r, Z.mul_1_r in *.
  pose proof (roundHalfEven_error (n * 2 ^ Z.max 0 (- e)) d Hd) as Herr.
  split; [|cbn [Double.mantissa]; apply roundHalfEven_nonneg; nia].
  unfold Double.num, Double.den. cbn [Double.mantissa Double.exponent]. rewrite Hz, Z.pow_0_r, Z.mul_1_r.
  set (u := roundHalfEven _ d * d - n * 2 ^ Z.max 0 (- e)) in *. rewrite Z.abs_mul, (Z.abs_eq 2) in Herr by lia.
  assert (Hp : 2 ^ (54 - B) ≤ 2 * 2 ^ Z.max 0 (- e))
    by (rewrite <-(Z.pow_1_r 2) at 2; rewrite <-Z.pow_add_r by lia; apply Z.pow_le_mono_r; lia).
  nia.
Qed.

(** a number close to [v / 10^f] prints as [v] *)
Lemma fixedDigits_exact f x v : 2 * Z.abs (10 ^ Z.of_nat f * Double.num x - v * Double.den x) < Double.den x → fixedDigits f x = v.
Proof.
  intros Hx. unfold fixedDigits. symmetry.
  apply (Z.div_unique _ _ _ (2 * (10 ^ Z.of_nat f * Double.num x - v * Double.den x) + Double.den x)); [left|]; lia.
Qed.

Lemma fixedText4 v : 0 ≤ v → fixedText 4 v = columnText v.
Proof.
  intros Hv. unfold fixedText, columnText, scaledBigIntToDecimalString. destruct (Z.ltb_spec v 0); [lia|]. cbv zeta.
  change (10 ^ Z.of_nat 4) with 10000. unfold SCALE_FACTOR. by rewrite Z.quot_div_nonneg, Z.rem_mod_nonneg by lia.
Qed.

Lemma parseFloat4_error n : 0 ≤ n < 2 ^ 50 →
  Z.abs (Double.num (parseFloat4 n) * 10000 - n * Double.den (parseFloat4 n)) * 2 ^ 17 ≤ 10000 * Double.den (parseFloat4 n) ∧
  0 ≤ Double.mantissa (parseFloat4 n).
Proof. intros Hn. apply (nearest_error 37 n 10000); lia. Qed.

Lemma sum_error a b nx dx ny dy : 0 < dx → 0 < dy →
  Z.abs (nx * 10000 - a * dx) * 131072 ≤ 10000 * dx → Z.abs (ny * 10000 - b * dy) * 131072 ≤ 10000 * dy →
  Z.abs ((nx * dy + ny * dx) * 10000 - (a + b) * (dx * dy)) * 65536 ≤ 10000 * (dx * dy).
Proof.
  intros Hx Hy Ea Eb.
  replace ((nx * dy + ny * dx) * 10000 - (a + b) * (dx * dy)) with ((nx * 10000 - a * dx) * dy + (ny * 10000 - b * dy) * dx) by lia.
  set (u := nx * 10000 - a * dx) in *. set (v := ny * 10000 - b * dy) in *.
  pose proof (Z.abs_triangle (u * dy) (v * dx)) as Ht. rewrite !Z.abs_mul, (Z.abs_eq dx), (Z.abs_eq dy) in Ht by lia. nia.
Qed.

Lemma print_error s n d nz dz : 0 < d → 0 < dz →
  Z.abs (nz * d - n * dz) * 65536 ≤ d * dz → Z.abs (n * 10000 - s * d) * 65536 ≤ 10000 * d →
  2 * Z.abs (10000 * nz - s * dz) < dz.
Proof.
  intros Hd Hz Ez Hn. set (u := nz * d - n * dz) in *. set (v := n * 10000 - s * d) in *.
  assert (Ht : Z.abs (10000 * nz - s * dz) * d ≤ 10000 * Z.abs u + Z.abs v * dz).
  { rewrite <-(Z.abs_eq d) at 1 by lia. rewrite <-(Z.abs_eq dz) at 2 by lia. rewrite <-(Z.abs_eq 10000) at 2 by lia. rewrite <-!Z.abs_mul.
    replace ((10000 * nz - s * dz) * d) with (10000 * u + v * dz) by (unfold u, v; lia). apply Z.abs_triangle. }
  nia.
Qed.

(** sums of amounts below 2^50 ten-thousandths have exact digits *)
Lemma sum_digits a b : 0 ≤ a → 0 ≤ b → a + b < 2 ^ 50 →
  fixedDigits 4 (plusDouble (parseFloat4 a) (parseFloat4 b)) = a + b ∧ 0 ≤ Double.mantissa (plusDouble (parseFloat4 a) (parseFloat4 b)).
Proof.
  intros Ha Hb Hab. destruct (parseFloat4_error a) as [Ea Ma]; [lia|]. destruct (parseFloat4_error b) as [Eb Mb]; [lia|].
  set (x := parseFloat4 a) in *. set (y := parseFloat4 b) in *. pose proof (den_pos x) as Px. pose proof (den_pos y) as Py.
  assert (0 ≤ Double.num x) as Nx by (apply Z.mul_nonneg_nonneg; [done|apply Z.pow_nonneg; lia]).
  assert (0 ≤ Double.num y) as Ny by (apply Z.mul_nonneg_nonneg; [done|apply Z.pow_nonneg; lia]).
  unfold plusDouble. set (n := Double.num x * Double.den y + Double.num y * Double.den x). set (d := Double.den x * Double.den y).
  assert (0 < d) as Pd by (unfold d; nia).
  assert (Hn : Z.abs (n * 10000 - (a + b) * d) * 65536 ≤ 10000 * d) by (by apply sum_error).
  assert (n < 2 ^ 38 * d) as Hlt by nia.
  destruct (nearest_error 38 n d) as [Ez Mz]; [unfold n; nia|done|lia|exact Hlt|].
  set (z := nearest n d) in *. pose proof (den_pos z) as Pz. split; [|exact Mz]. apply fixedDigits_exact.
  change (10 ^ Z.of_nat 4) with 10000. by apply (print_error _ n d).
Qed.

(** and so they are printed exactly *)
Lemma sum_exact a b : 0 ≤ a → 0 ≤ b → a + b < 2 ^ 50 → toFixed 4 (plusDouble (parseFloat4 a) (parseFloat4 b)) = columnText (a + b).
Proof.
  intros Ha Hb Hab. destruct (sum_digits a b Ha Hb Hab) as [Hd Hm]. unfold toFixed.
  destruct (Z.ltb_spec (Double.mantissa (plusDouble (parseFloat4 a) (parseFloat4 b))) 0); [lia|]. rewrite Hd. apply fixedText4. lia.
Qed.

(** an amount printed with two places is within half a cent *)
Lemma cents_error n : 0 ≤ n < 2 ^ 50 → Z.abs (100 * fixedDigits 2 (parseFloat4 n) - n) ≤ 50.
Proof.
  intros Hn. destruct (parseFloat4_error n Hn) as [Ex _]. set (x := parseFloat4 n) in *. pose proof (den_pos x) as Px.
  unfold fixedDigits. change (10 ^ Z.of_nat 2) with 100. set (r := (2 * 100 * Double.num x + Double.den x) / (2 * Double.den x)).
  pose proof (Z.div_mod (2 * 100 * Double.num x + Double.den x) (2 * Double.den x) ltac:(lia)) as Hdiv. fold r in Hdiv.
  pose proof (Z.mod_pos_bound (2 * 100 * Double.num x + Double.den x) (2 * Double.den x) ltac:(lia)) as Hmod.
  change (2 ^ 17) with 131072 in *. apply Z.abs_le. split; nia.
Qed.
