(* ===== verification/FiscalTypes.v ===== *)
(** The billing package: the rows, results and errors of fiscal invoicing (billing/src/types.ts,
    errors.ts, the tables of migrations 20260905030000 and 20261001000000), the checks of
    invoice-lifecycle.ts and rfc-validator.ts, the taxes of tax-calculator.ts, and the contract
    of fiscal events.

    Decimal columns are integers of ten-thousandths, timestamps the texts they are read back as. *)
From S2P Require Import Prelude Decimals Money Scale4 Json AuditTrail Ingestion Dispatch Epochs EdgeDb.
From Stdlib Require Import Ascii String.

(** ** Errors *)

Inductive FiscalError :=
| InvalidRfcError | InvalidPostalCodeError | InvalidRegimenFiscalError | InvalidTaxSchemeError | InvalidEmisorConfigError
| InvalidFiscalInvoiceError | FiscalInvoiceAlreadyStampedError | FiscalInvoiceAlreadyCancelledError | FiscalInvoiceInvalidStateError
| InvoiceIdempotencyConflictError | ReconciliationRequiredError | FiscalSuccessValidationError | FiscalStampingDisabledError
| CsdCredentialsMissingError | CsdMismatchError | CsdSignatureError
| PacTimeoutError | PacCircuitBreakerOpenError | CancellationPendingApprovalError
| PacProvenanceValidationError | PacCapabilityMissingError | PacContractProvenanceMissingError | PacProvenanceScopeMismatchError
| PacProvenanceExpiredError | PacProvenanceRevokedError
| EventContractIncompatibleError | InvalidEventContractVersionError
| FiscalPg (constraint : string)
| FiscalJs (e : JsError)
| FiscalOutbox (e : DispatchError).

Abbreviation FR := (result FiscalError).

(** ** Rows *)

Module TaxScheme.
(* billing types.ts:14-28 TaxScheme *)
Record t := mk { id : string; organizationId : string; code : string; name : string; rate : Z; isInclusive : bool; taxType : string }.
End TaxScheme.

Module FiscalInvoiceStatus.
(* billing types.ts:30-30 FiscalInvoiceStatus *)
Inductive t := DRAFT | STAMPED | CANCELLED | REJECTED.
#[global] Instance eq_dec : EqDecision t.
Proof. solve_decision. Defined.
End FiscalInvoiceStatus.

Module FiscalInvoiceItem.
(* 20260905030000_billing_fiscal_invoicing.sql:108-127 fiscal_invoice_items *)
Record t := mk {
  id : string; organizationId : string; invoiceId : string; lineNumber : Z; productCode : string; description : string;
  satProductCode : string; satUnitCode : string; quantity : Z; unitPrice : Z; subtotal : Z; taxAmount : Z; totalAmount : Z; taxRate : Z }.
End FiscalInvoiceItem.

Module FiscalInvoice.
(* 20260905030000_billing_fiscal_invoicing.sql:59-93 fiscal_invoices *)
Record t := mk {
  id : string; organizationId : string; branchId : string; invoiceUuid : option string; series : string; folio : string;
  customerTaxId : string; customerName : string; customerRegimenFiscal : string; customerPostalCode : string;
  cfdiUse : string; paymentMethod : string; paymentWay : string; subtotal : Z; taxTotal : Z; totalAmount : Z;
  status : FiscalInvoiceStatus.t; cancellationReason : option string; cancellationReplacementUuid : option string;
  stampedAt : option string; cancelledAt : option string; xmlPayload : option string; stampedXml : option string;
  selloEmisor : option string; selloSat : option string; cadenaOriginalHash : option string; pacRequestReferenceId : option string;
  createdAt : string; updatedAt : string }.
#[global] Instance eta_t : Eta t := λ r,
  mk (id r) (organizationId r) (branchId r) (invoiceUuid r) (series r) (folio r) (customerTaxId r) (customerName r)
    (customerRegimenFiscal r) (customerPostalCode r) (cfdiUse r) (paymentMethod r) (paymentWay r) (subtotal r) (taxTotal r) (totalAmount r)
    (status r) (cancellationReason r) (cancellationReplacementUuid r) (stampedAt r) (cancelledAt r) (xmlPayload r) (stampedXml r)
    (selloEmisor r) (selloSat r) (cadenaOriginalHash r) (pacRequestReferenceId r) (createdAt r) (updatedAt r).
End FiscalInvoice.

Module EmisorFiscal.
(* 20260905030000_billing_fiscal_invoicing.sql:31-47 emisor_fiscal_config *)
Record t := mk {
  organizationId : string; rfc : string; razonSocial : string; regimenFiscal : string; codigoPostal : string;
  certificateNumber : option string; privateKeyVaultId : option string; isActive : bool }.
End EmisorFiscal.

Module FiscalOperationType.
(* billing types.ts:249-249 FiscalOperationType *)
Inductive t := STAMP | CANCEL.
#[global] Instance eq_dec : EqDecision t.
Proof. solve_decision. Defined.
Definition text (x : t) : string := match x with STAMP => "STAMP" | CANCEL => "CANCEL" end.
End FiscalOperationType.

Module FiscalOperationStatus.
(* billing types.ts:454-462 FiscalStampingOperationStatus *)
Inductive t := PENDING | READY | IN_FLIGHT | RETRYABLE | RETRYABLE_CONFIRMED | SUCCEEDED | FAILED_TERMINAL | RECONCILIATION_REQUIRED.
#[global] Instance eq_dec : EqDecision t.
Proof. solve_decision. Defined.
End FiscalOperationStatus.

(** [last_error] holds the one text of the sanitizer and is left out *)
Module FiscalOperation.
(* 20260905030000_billing_fiscal_invoicing.sql:174-202 fiscal_stamping_operations *)
Record t := mk {
  id : string; organizationId : string; branchId : string; invoiceId : string; operationType : FiscalOperationType.t;
  idempotencyKey : string; requestHash : string; status : FiscalOperationStatus.t; attemptCount : Z; externalUuid : option string;
  targetUuid : option string; providerName : option string; reconciliationStatus : option string; stampedXml : option string;
  semanticEventId : option string; nextRetryAt : option Z; requestXml : option string; eventContractVersion : option string;
  eventPayload : option Json; updatedAt : Z }.
#[global] Instance eta_t : Eta t := λ r,
  mk (id r) (organizationId r) (branchId r) (invoiceId r) (operationType r) (idempotencyKey r) (requestHash r) (status r)
    (attemptCount r) (externalUuid r) (targetUuid r) (providerName r) (reconciliationStatus r) (stampedXml r) (semanticEventId r)
    (nextRetryAt r) (requestXml r) (eventContractVersion r) (eventPayload r) (updatedAt r).
End FiscalOperation.

(** ** What the PAC answers *)

Module FiscalResultCorrelation.
(* billing types.ts:647-654 FiscalResultCorrelation *)
Record t := mk {
  organizationId : string; invoiceId : string; operationId : string; operationType : FiscalOperationType.t; idempotencyKey : string;
  requestHash : string }.
#[global] Instance eq_dec : EqDecision t.
Proof. solve_decision. Defined.
End FiscalResultCorrelation.

Module PacStampStatus.
(* billing types.ts:212-212 PacStampResult.status *)
Inductive t := STAMPED | REJECTED | TIMEOUT.
#[global] Instance eq_dec : EqDecision t.
Proof. solve_decision. Defined.
End PacStampStatus.

Module PacStampResult.
(* billing types.ts:209-223 PacStampResult *)
Record t := mk {
  correlation : option FiscalResultCorrelation.t; certifiedProviderRfc : option string; status : PacStampStatus.t; uuid : option string;
  selloSat : option string; fechaTimbrado : option string; noCertificadoSat : option string; stampedXml : option string;
  xmlTimbrado : option string; pacProvider : option string }.
End PacStampResult.

Module PacCancelStatus.
(* billing types.ts:241-241 PacCancelResult.status *)
Inductive t := CANCELLED | REJECTED | PENDING_APPROVAL | TIMEOUT.
#[global] Instance eq_dec : EqDecision t.
Proof. solve_decision. Defined.
End PacCancelStatus.

Module PacCancelResult.
(* billing types.ts:238-247 PacCancelResult *)
Record t := mk {
  correlation : option FiscalResultCorrelation.t; status : PacCancelStatus.t; uuid : string; pacProvider : option string }.
End PacCancelResult.

Module StampOutcome.
(* billing types.ts:328-329 NormalizedStampReconciliationOutcome *)
Inductive t := STAMPED_CONFIRMED | REJECTED_CONFIRMED | NOT_FOUND_CONFIRMED | PENDING | UNKNOWN.
#[global] Instance eq_dec : EqDecision t.
Proof. solve_decision. Defined.
End StampOutcome.

Module StampLookup.
(* billing types.ts:331-344 AuthoritativeStampReconciliationResult *)
Record t := mk {
  pacProvider : option string; correlation : option FiscalResultCorrelation.t; certifiedProviderRfc : option string;
  outcome : StampOutcome.t; uuid : option string; stampedXml : option string; selloSat : option string; fechaTimbrado : option string;
  noCertificadoSat : option string }.
End StampLookup.

Module CancelOutcome.
(* billing types.ts:346-351 NormalizedCancellationReconciliationOutcome *)
Inductive t := CANCELLATION_CONFIRMED | PENDING_APPROVAL | REJECTED_CONFIRMED | NOT_FOUND_CONFIRMED | UNKNOWN.
#[global] Instance eq_dec : EqDecision t.
Proof. solve_decision. Defined.
End CancelOutcome.

Module CancelLookup.
(* billing types.ts:353-362 AuthoritativeCancellationReconciliationResult *)
Record t := mk {
  pacProvider : option string; correlation : option FiscalResultCorrelation.t; outcome : CancelOutcome.t; uuid : string }.
End CancelLookup.

(** ** Life cycle *)

(* invoice-lifecycle.ts:117-124 validateCanStamp *)
Definition validateCanStamp (status : FiscalInvoiceStatus.t) : FR unit :=
  match status with
  | FiscalInvoiceStatus.DRAFT => Ok tt
  | FiscalInvoiceStatus.STAMPED => Err FiscalInvoiceAlreadyStampedError
  | _ => Err FiscalInvoiceInvalidStateError
  end.

(* invoice-lifecycle.ts:126-135 validateCanCancel *)
Definition validateCanCancel (status : FiscalInvoiceStatus.t) : FR unit :=
  match status with
  | FiscalInvoiceStatus.CANCELLED => Err FiscalInvoiceAlreadyCancelledError
  | FiscalInvoiceStatus.STAMPED => Ok tt
  | _ => Err FiscalInvoiceInvalidStateError
  end.

(** ** Tax identities *)

(** [s.toUpperCase()] on code units below 256; two characters leave that range and are in no
    tax identity *)
Definition latinUpper (c : ascii) : string :=
  let n := N_of_ascii c in
  if (n =? 223)%N then "SS"
  else if ((97 <=? n) && (n <=? 122) || (224 <=? n) && (n <=? 254) && negb (n =? 247))%N then String (ascii_of_N (n - 32)) ""
  else String c "".
Fixpoint latinUpperCase (s : string) : string :=
  match s with EmptyString => EmptyString | String c s' => latinUpper c +:+ latinUpperCase s' end.

(** [A-Z&Ñ], [A-Z\d] *)
Definition isRfcLetter (c : ascii) : bool :=
  let n := N_of_ascii c in ((65 <=? n) && (n <=? 90) || (n =? 38) || (n =? 209))%N.
Definition isUpperOrDigit (c : ascii) : bool :=
  let n := N_of_ascii c in ((65 <=? n) && (n <=? 90) || (48 <=? n) && (n <=? 57))%N.

(** MMDD: 01 to 12, then 01 to 31 *)
Definition isMonthDay (s : string) : bool :=
  match BigInt_of_digits (String.substring 0 2 s), BigInt_of_digits (String.substring 2 2 s) with
  | Some m, Some d => ((1 <=? m) && (m <=? 12) && (1 <=? d) && (d <=? 31))%N
  | _, _ => false
  end.

(** [letters] letters, the date, and three characters *)
Definition rfcShape (letters : nat) (s : string) : bool :=
  matches (replicate letters isRfcLetter ++ replicate 6 is_digit ++ replicate 3 isUpperOrDigit) s &&
  isMonthDay (String.substring (letters + 2) 4 s).

(* rfc-validator.ts:20-22 isMoralRfc *)
Definition isMoralRfc (rfc : string) : bool := rfcShape 3 (latinUpperCase (trim rfc)).
(* rfc-validator.ts:24-26 isFisicaRfc *)
Definition isFisicaRfc (rfc : string) : bool := rfcShape 4 (latinUpperCase (trim rfc)).
(* rfc-validator.ts:28-31 isGenericRfc *)
Definition isGenericRfc (rfc : string) : bool := bool_decide (latinUpperCase (trim rfc) ∈ ["XAXX010101000"; "XEXX010101000"]).

(* rfc-validator.ts:33-37 isValidRfc *)
Definition isValidRfc (rfc : string) : bool :=
  let normalized := latinUpperCase (trim rfc) in
  negb (bool_decide (rfc = "")) && (isMoralRfc normalized || isFisicaRfc normalized || isGenericRfc normalized).
(* rfc-validator.ts:39-45 assertValidRfc *)
Definition assertValidRfc (rfc : string) : FR unit := if isValidRfc rfc then Ok tt else Err InvalidRfcError.

(** [/^\d{n}$/] *)
Definition digitsOnly (n : nat) (s : string) : bool := all_digits s && (String.length s =? n)%nat.
(* rfc-validator.ts:47-58 assertValidPostalCode *)
Definition assertValidPostalCode (cp : string) : FR unit := if digitsOnly 5 (trim cp) then Ok tt else Err InvalidPostalCodeError.
(* rfc-validator.ts:60-71 assertValidRegimenFiscal *)
Definition assertValidRegimenFiscal (regimen : string) : FR unit := if digitsOnly 3 (trim regimen) then Ok tt else Err InvalidRegimenFiscalError.

(** ** Taxes *)

(* billing numerics.ts:13-15 assertValidBillingScale4 *)
Definition assertValidBillingScale4 (val : string) : FR unit := result_map (λ _, tt) (parse4 FiscalJs val).
(* billing numerics.ts:17-21 addBillingScale4 *)
Definition addBillingScale4 : string → string → FR string := add4 FiscalJs.
(* billing numerics.ts:23-27 subBillingScale4 *)
Definition subBillingScale4 : string → string → FR string := sub4 FiscalJs.
(* billing numerics.ts:29-35 mulBillingScale4 *)
Definition mulBillingScale4 : string → string → FR string := mul4 FiscalJs.
(* billing numerics.ts:37-46 divBillingScale4 *)
Definition divBillingScale4 (amount divisor : string) : FR string :=
  result_bind (parse4 FiscalJs amount) (λ bigAmount, result_bind (parse4 FiscalJs divisor) (λ bigDivisor,
    if bigDivisor =? 0 then Err (FiscalJs (RangeError "Division by zero in billing scale-4 arithmetic"))
    else Ok (scaledBigIntToDecimalString (roundDivNonZero (bigAmount * SCALE_FACTOR) bigDivisor)))).

Module TaxPart.
Record t := mk { code : string; name : string; rate : string; taxType : string; amount : string }.
End TaxPart.

Module ItemTaxCalculation.
(* tax-calculator.ts:15-26 ItemTaxCalculation *)
Record t := mk { subtotal : string; taxAmount : string; totalAmount : string; taxBreakdown : list TaxPart.t }.
End ItemTaxCalculation.

Definition rateText (scheme : TaxScheme.t) : string := columnText (TaxScheme.rate scheme).
Definition taxPart (scheme : TaxScheme.t) (amount : string) : TaxPart.t :=
  TaxPart.mk (TaxScheme.code scheme) (TaxScheme.name scheme) (rateText scheme) (TaxScheme.taxType scheme) amount.

(* tax-calculator.ts:53-56 calculateItemTaxes, rates *)
Fixpoint sumRates (totalRate : string) (taxSchemes : list TaxScheme.t) : FR string :=
  match taxSchemes with
  | [] => Ok totalRate
  | scheme :: rest => result_bind (assertValidBillingScale4 (rateText scheme)) (λ _,
      result_bind (addBillingScale4 totalRate (rateText scheme)) (λ r, sumRates r rest))
  end.

(* tax-calculator.ts:62-71 calculateItemTaxes, parts *)
Fixpoint inclusiveParts (subtotal : string) (taxSchemes : list TaxScheme.t) : FR (list TaxPart.t) :=
  match taxSchemes with
  | [] => Ok []
  | scheme :: rest => result_bind (mulBillingScale4 subtotal (rateText scheme)) (λ amount,
      result_map (cons (taxPart scheme amount)) (inclusiveParts subtotal rest))
  end.

(** the tax added up so far, and the parts *)
(* tax-calculator.ts:81-94 calculateItemTaxes, added *)
Fixpoint exclusiveParts (rawLineAmount totalTax : string) (taxSchemes : list TaxScheme.t) : FR (string * list TaxPart.t) :=
  match taxSchemes with
  | [] => Ok (totalTax, [])
  | scheme :: rest => result_bind (assertValidBillingScale4 (rateText scheme)) (λ _,
      result_bind (mulBillingScale4 rawLineAmount (rateText scheme)) (λ amount,
      result_bind (addBillingScale4 totalTax amount) (λ totalTax',
      result_map (λ '(total, parts), (total, taxPart scheme amount :: parts)) (exclusiveParts rawLineAmount totalTax' rest))))
  end.

(* tax-calculator.ts:28-105 calculateItemTaxes *)
Definition calculateItemTaxes (unitPrice quantity : string) (taxSchemes : list TaxScheme.t) : FR ItemTaxCalculation.t :=
  result_bind (assertValidBillingScale4 unitPrice) (λ _,
  result_bind (assertValidBillingScale4 quantity) (λ _,
  result_bind (mulBillingScale4 unitPrice quantity) (λ rawLineAmount,
  if bool_decide (taxSchemes = []) then Ok (ItemTaxCalculation.mk rawLineAmount ZERO4 rawLineAmount [])
  else if existsb TaxScheme.isInclusive taxSchemes then
    result_bind (sumRates ZERO4 taxSchemes) (λ totalRate,
    result_bind (addBillingScale4 "1.0000" totalRate) (λ divisor,
    result_bind (divBillingScale4 rawLineAmount divisor) (λ subtotal,
    result_bind (subBillingScale4 rawLineAmount subtotal) (λ totalTax,
    result_map (ItemTaxCalculation.mk subtotal totalTax rawLineAmount) (inclusiveParts subtotal taxSchemes)))))
  else
    result_bind (exclusiveParts rawLineAmount ZERO4 taxSchemes) (λ '(totalTax, breakdown),
    result_map (λ totalAmount, ItemTaxCalculation.mk rawLineAmount totalTax totalAmount breakdown) (addBillingScale4 rawLineAmount totalTax))))).

Example inclusive_iva :
  calculateItemTaxes "100.0000" "1.0000" [TaxScheme.mk "s" "o" "IVA" "IVA 16%" 1600 true "IVA"] =
  Ok (ItemTaxCalculation.mk "86.2069" "13.7931" "100.0000" [TaxPart.mk "IVA" "IVA 16%" "0.1600" "IVA" "13.7931"]).
Proof. by vm_compute. Qed.

(** ** The contract of fiscal events *)

Definition FISCAL_EVENT_CONTRACT_VERSION : string := "1.0".

(** [0|[1-9]\d*], as a number *)
Definition versionInteger (s : string) : option Z :=
  if negb (bool_decide (s = "")) && all_digits s && (negb (String.prefix "0" s) || bool_decide (s = "0"))
  then Z.of_N <$> BigInt_of_digits s else None.

(** [None] in place of a text that is not a string *)
(* billing types.ts:590-608 validateEventContractVersion *)
Definition validateEventContractVersion (version : option string) : FR (Z * Z) :=
  match version with
  | None => Err InvalidEventContractVersionError
  | Some v =>
      match splitAt "." v with
      | Some (a, String _ b) =>
          match versionInteger a, versionInteger b with
          | Some major, Some minor =>
              if isSafeInteger major && isSafeInteger minor then Ok (major, minor) else Err InvalidEventContractVersionError
          | _, _ => Err InvalidEventContractVersionError
          end
      | _ => Err InvalidEventContractVersionError
      end
  end.

Module Subscriber.
(* billing types.ts:582-586 SubscriberDeclaration *)
Record t := mk { subscriberName : string; supportedMajors : list Z; requiredFields : list string }.
End Subscriber.

Definition asString (v : Json) : option string := match v with JString s => Some s | _ => None end.

(** [Object.prototype.hasOwnProperty.call(payload, field) && payload[field] != null] *)
Definition hasField (payload : list (string * Json)) (field : string) : bool :=
  match property payload field with JUndefined | JNull => false | _ => true end.

(* billing types.ts:623-645 assertSubscriberCompatibility *)
Definition assertSubscriberCompatibility (version : option string) (payload : list (string * Json)) (subscriber : Subscriber.t)
    (requiredFields : list string) : FR unit :=
  result_bind (validateEventContractVersion version) (λ '(major, _),
  if bool_decide (Subscriber.subscriberName subscriber = "") ||
     negb (bool_decide (major ∈ Subscriber.supportedMajors subscriber)) ||
     existsb (λ field, negb (bool_decide (field ∈ Subscriber.requiredFields subscriber))) requiredFields ||
     existsb (λ field, negb (hasField payload field)) (Subscriber.requiredFields subscriber)
  then Err EventContractIncompatibleError else Ok tt).

Module EventKind.
Inductive t := FacturaFiscalEmitida | FacturaFiscalCancelada.
#[global] Instance eq_dec : EqDecision t.
Proof. solve_decision. Defined.
Definition text (k : t) : string :=
  match k with FacturaFiscalEmitida => "FacturaFiscalEmitida" | FacturaFiscalCancelada => "FacturaFiscalCancelada" end.
(* cloud-server index.ts:6298-6299 PostgresBillingService.enqueueFiscalEvent, eventKind *)
Definition kindOf (ty : FiscalOperationType.t) : t :=
  match ty with FiscalOperationType.STAMP => FacturaFiscalEmitida | FiscalOperationType.CANCEL => FacturaFiscalCancelada end.
End EventKind.

(* billing types.ts:610-621 generateFiscalSemanticEventId *)
Definition generateFiscalSemanticEventId (digest : string → string) (organizationId operationId eventKind : string) : string :=
  digest (organizationId +:+ ":" +:+ operationId +:+ ":" +:+ eventKind).

Example version_1 : validateEventContractVersion (Some "1.0") = Ok (1, 0). Proof. by vm_compute. Qed.
Example version_2 : validateEventContractVersion (Some "01.0") = Err InvalidEventContractVersionError. Proof. by vm_compute. Qed.
Example version_3 : validateEventContractVersion (Some "1.0.0") = Err InvalidEventContractVersionError. Proof. by vm_compute. Qed.
Example rfc_1 : isValidRfc "xaxx010101000" = true ∧ isValidRfc "TRI200101AB1" = true ∧ isValidRfc "TRI201301AB1" = false.
Proof. by vm_compute. Qed.
