(* ===== verification/Cfdi.v ===== *)
(** The CFDI 4.0 document of an invoice: billing/src/cfdi-xml.ts, and the seal of
    billing/src/csd-signer.ts.

    The service passes complete rows and the emisor, so the fallbacks for missing fields are
    those the rows can need.  RSA, X.509 and the vault are arguments; a private key and a
    certificate are their texts. *)
From S2P Require Import Prelude Decimals Money Scale4 Json AuditTrail Doubles FiscalTypes.
From Stdlib Require Import Ascii String.

Definition newline : string := String "010" "".

(* cfdi-xml.ts:25-29 formatCfdiMoney *)
Definition formatCfdiMoney (val : Z) : string := toFixed 2 (parseFloat4 val).
(** [parseFloat(rate).toFixed(6)] *)
Definition formatRate (rate : Z) : string := toFixed 6 (parseFloat4 rate).

(** the five replacements act on different characters, the first before the others *)
Definition escapeXmlChar (c : ascii) : string :=
  let n := N_of_ascii c in
  if (n =? 38)%N then "&amp;" else if (n =? 60)%N then "&lt;" else if (n =? 62)%N then "&gt;"
  else if (n =? 34)%N then "&quot;" else if (n =? 39)%N then "&apos;" else String c "".
(* cfdi-xml.ts:31-39 escapeXml *)
Fixpoint escapeXml (unsafe : string) : string :=
  match unsafe with EmptyString => EmptyString | String c s => escapeXmlChar c +:+ escapeXml s end.

Definition DEFAULT_CERTIFICATE : string := "30001000000500003416".

(** the date and time of [createdAt], without fractions and zone *)
Definition fechaOf (invoice : FiscalInvoice.t) : string := String.substring 0 19 (FiscalInvoice.createdAt invoice).

(** '0.1600' stands in for the rate of an invoice without items *)
Definition firstRate (items : list FiscalInvoiceItem.t) : Z :=
  match items with item :: _ => FiscalInvoiceItem.taxRate item | [] => 1600 end.

(* cfdi-xml.ts:106-129 buildCadenaOriginal40, Conceptos *)
Definition conceptoParts (item : FiscalInvoiceItem.t) : list string :=
  [ FiscalInvoiceItem.satProductCode item; FiscalInvoiceItem.productCode item; formatCfdiMoney (FiscalInvoiceItem.quantity item);
    FiscalInvoiceItem.satUnitCode item; FiscalInvoiceItem.description item; formatCfdiMoney (FiscalInvoiceItem.unitPrice item);
    formatCfdiMoney (FiscalInvoiceItem.subtotal item); "02"; formatCfdiMoney (FiscalInvoiceItem.subtotal item); "002"; "Tasa";
    formatRate (FiscalInvoiceItem.taxRate item); formatCfdiMoney (FiscalInvoiceItem.taxAmount item) ].

(* cfdi-xml.ts:44-142 buildCadenaOriginal40 *)
Definition buildCadenaOriginal40 (invoice : FiscalInvoice.t) (items : list FiscalInvoiceItem.t) (emisor : EmisorFiscal.t) : string :=
  let certNumber := default DEFAULT_CERTIFICATE (EmisorFiscal.certificateNumber emisor) in
  let taxTotal := formatCfdiMoney (FiscalInvoice.taxTotal invoice) in
  let parts :=
    [ "4.0"; FiscalInvoice.series invoice; FiscalInvoice.folio invoice; fechaOf invoice; FiscalInvoice.paymentWay invoice; certNumber;
      formatCfdiMoney (FiscalInvoice.subtotal invoice); "MXN"; formatCfdiMoney (FiscalInvoice.totalAmount invoice); "I"; "01";
      FiscalInvoice.paymentMethod invoice; EmisorFiscal.codigoPostal emisor; EmisorFiscal.rfc emisor; EmisorFiscal.razonSocial emisor;
      EmisorFiscal.regimenFiscal emisor; FiscalInvoice.customerTaxId invoice; FiscalInvoice.customerName invoice;
      FiscalInvoice.customerPostalCode invoice; FiscalInvoice.customerRegimenFiscal invoice; FiscalInvoice.cfdiUse invoice ] ++
    (items ≫= conceptoParts) ++ [ "002"; "Tasa"; formatRate (firstRate items); taxTotal; taxTotal ] in
  "||" +:+ String.concat "|" parts +:+ "||".

(** [name="value"], after a space *)
Definition xmlAttribute (name value : string) : string := " " +:+ name +:+ "=" +:+ dquote +:+ value +:+ dquote.

(** an element's xmlOpen with its attributes, each with the value it is written with *)
Definition xmlOpen (name : string) (attributes : list (string * string)) : string :=
  "<" +:+ name +:+ String.concat "" ((λ a, xmlAttribute (fst a) (snd a)) <$> attributes).

Definition traslado (base rate importe : string) : string :=
  xmlOpen "cfdi:Traslado" [("Base", base); ("Impuesto", "002"); ("TipoFactor", "Tasa"); ("TasaOCuota", rate); ("Importe", importe)] +:+ "/>".

(* cfdi-xml.ts:193-218 generateCfdi40Xml, conceptosXml *)
Definition conceptoXml (item : FiscalInvoiceItem.t) : string :=
  let subtotalFmt := formatCfdiMoney (FiscalInvoiceItem.subtotal item) in
  let lines :=
    [ "    " +:+ xmlOpen "cfdi:Concepto"
        [ ("ClaveProdServ", escapeXml (FiscalInvoiceItem.satProductCode item)); ("NoIdentificacion", escapeXml (FiscalInvoiceItem.productCode item));
          ("Cantidad", formatCfdiMoney (FiscalInvoiceItem.quantity item)); ("ClaveUnidad", escapeXml (FiscalInvoiceItem.satUnitCode item));
          ("Descripcion", escapeXml (FiscalInvoiceItem.description item)); ("ValorUnitario", formatCfdiMoney (FiscalInvoiceItem.unitPrice item));
          ("Importe", subtotalFmt); ("ObjetoImp", "02") ] +:+ ">";
      "      <cfdi:Impuestos>";
      "        <cfdi:Traslados>";
      "          " +:+ traslado subtotalFmt (formatRate (FiscalInvoiceItem.taxRate item)) (formatCfdiMoney (FiscalInvoiceItem.taxAmount item));
      "        </cfdi:Traslados>";
      "      </cfdi:Impuestos>";
      "    </cfdi:Concepto>" ] in
  String.concat newline lines +:+ newline.

(* cfdi-xml.ts:149-250 generateCfdi40Xml *)
Definition generateCfdi40Xml (invoice : FiscalInvoice.t) (items : list FiscalInvoiceItem.t) (emisor : EmisorFiscal.t)
    (sello certificateNumber certificateBase64 : string) : string :=
  let subtotalFormatted := formatCfdiMoney (FiscalInvoice.subtotal invoice) in
  let taxTotalFormatted := formatCfdiMoney (FiscalInvoice.taxTotal invoice) in
  let lines :=
    [ xmlOpen "?xml" [("version", "1.0"); ("encoding", "UTF-8")] +:+ "?>";
      xmlOpen "cfdi:Comprobante"
        [ ("xmlns:cfdi", "http://www.sat.gob.mx/cfd/4"); ("xmlns:xsi", "http://www.w3.org/2001/XMLSchema-instance");
          ("xsi:schemaLocation", "http://www.sat.gob.mx/cfd/4 http://www.sat.gob.mx/sitio_internet/cfd/4/cfdv40.xsd");
          ("Version", "4.0"); ("Serie", escapeXml (FiscalInvoice.series invoice)); ("Folio", escapeXml (FiscalInvoice.folio invoice));
          ("Fecha", fechaOf invoice); ("FormaPago", escapeXml (FiscalInvoice.paymentWay invoice));
          ("NoCertificado", escapeXml certificateNumber); ("Certificado", certificateBase64); ("SubTotal", subtotalFormatted);
          ("Moneda", "MXN"); ("Total", formatCfdiMoney (FiscalInvoice.totalAmount invoice)); ("TipoDeComprobante", "I"); ("Exportacion", "01");
          ("MetodoPago", escapeXml (FiscalInvoice.paymentMethod invoice)); ("LugarExpedicion", escapeXml (EmisorFiscal.codigoPostal emisor));
          ("Sello", sello) ] +:+ ">";
      "  " +:+ xmlOpen "cfdi:Emisor"
        [ ("Rfc", escapeXml (EmisorFiscal.rfc emisor)); ("Nombre", escapeXml (EmisorFiscal.razonSocial emisor));
          ("RegimenFiscal", escapeXml (EmisorFiscal.regimenFiscal emisor)) ] +:+ "/>";
      "  " +:+ xmlOpen "cfdi:Receptor"
        [ ("Rfc", escapeXml (FiscalInvoice.customerTaxId invoice)); ("Nombre", escapeXml (FiscalInvoice.customerName invoice));
          ("DomicilioFiscalReceptor", escapeXml (FiscalInvoice.customerPostalCode invoice));
          ("RegimenFiscalReceptor", escapeXml (FiscalInvoice.customerRegimenFiscal invoice));
          ("UsoCFDI", escapeXml (FiscalInvoice.cfdiUse invoice)) ] +:+ "/>";
      "  <cfdi:Conceptos>";
      String.concat "" (conceptoXml <$> items) +:+ "  </cfdi:Conceptos>";
      "  " +:+ xmlOpen "cfdi:Impuestos" [("TotalImpuestosTrasladados", taxTotalFormatted)] +:+ ">";
      "    <cfdi:Traslados>";
      "      " +:+ traslado subtotalFormatted (formatRate (firstRate items)) taxTotalFormatted;
      "    </cfdi:Traslados>";
      "  </cfdi:Impuestos>";
      "</cfdi:Comprobante>" ] in
  String.concat newline lines.

(** ** The seal *)

(** [s.replace(/pattern/g, '')] for a text without regular operators *)
Fixpoint removeAll (fuel : nat) (pattern s : string) : string :=
  match fuel with
  | O => s
  | S fuel =>
      if String.prefix pattern s
      then removeAll fuel pattern (String.substring (String.length pattern) (String.length s) s)
      else match s with EmptyString => EmptyString | String c s' => String c (removeAll fuel pattern s') end
  end.
Definition without (pattern s : string) : string := removeAll (S (String.length s)) pattern s.

(* csd-signer.ts:79-89 cleanCertificateToSingleLineBase64 *)
Definition cleanCertificateToSingleLineBase64 (certificatePem : string) : FR string :=
  if blank certificatePem then Err CsdCredentialsMissingError
  else Ok (filterString (λ c, negb (is_js_space c))
    (without "-----END PUBLIC KEY-----" (without "-----BEGIN PUBLIC KEY-----"
    (without "-----END CERTIFICATE-----" (without "-----BEGIN CERTIFICATE-----" certificatePem))))).

(** what node:crypto answers about keys and certificates *)
Module Csd.
Record t := mk {
  (** [None] when the key cannot sign *)
  sign : string → string → option string;
  (** whether the certificate verifies what the key signs; [None] when one of them is refused *)
  keyPairMatches : string → string → option bool;
  (** the serial number of a certificate that parses *)
  serialNumber : string → option string }.
End Csd.

(* csd-signer.ts:20-29 signCadenaOriginal *)
Definition signCadenaOriginal (csd : Csd.t) (cadenaOriginal privateKeyPem : string) : FR string :=
  match Csd.sign csd cadenaOriginal privateKeyPem with Some sello => Ok sello | None => Err CsdSignatureError end.

(* csd-signer.ts:55-74 validateCsdKeyPairMatch *)
Definition validateCsdKeyPairMatch (csd : Csd.t) (certificatePem privateKeyPem : string) : FR unit :=
  if default false (Csd.keyPairMatches csd certificatePem privateKeyPem) then Ok tt else Err CsdMismatchError.

(** [Buffer.from(rawHex, 'hex')] of pairs 3x as text: the digits x *)
Fixpoint asciiDigits (rawHex : string) : option string :=
  match rawHex with
  | EmptyString => Some EmptyString
  | String a (String b s) => if bool_decide (a = "3"%char) && is_digit b then String b <$> asciiDigits s else None
  | _ => None
  end.

(* csd-signer.ts:98-126 extractCertNumberFromPem *)
Definition extractCertNumberFromPem (csd : Csd.t) (certPem : string) : FR string :=
  if blank certPem then Err CsdCredentialsMissingError
  else match Csd.serialNumber csd certPem with
  | None | Some EmptyString => Err CsdCredentialsMissingError
  | Some rawHex =>
      let cleanDigits := filterString is_digit rawHex in
      let fallback := if (10 <=? String.length cleanDigits)%nat
        then let padded := padStart0 20 cleanDigits in
             Ok (String.substring (String.length padded - 20) 20 padded)
        else Err CsdCredentialsMissingError in
      match asciiDigits rawHex with
      | Some decoded => if ((10 <=? String.length decoded) && (String.length decoded <=? 20))%nat then Ok decoded else fallback
      | None => fallback
      end
  end.

(** ** Lemmas *)

(** the character an entity stands for, and the rest *)
Definition entity (s : string) : option (ascii * string) :=
  let try pattern c := if String.prefix pattern s then Some (c, String.substring (String.length pattern) (String.length s) s) else None in
  match try "amp;" "038"%char with Some r => Some r | None =>
  match try "lt;" "060"%char with Some r => Some r | None =>
  match try "gt;" "062"%char with Some r => Some r | None =>
  match try "quot;" "034"%char with Some r => Some r | None => try "apos;" "039"%char end end end end.

(** the text an XML attribute value stands for *)
Fixpoint unescapeXml (fuel : nat) (s : string) : string :=
  match fuel, s with
  | S fuel, String c r =>
      if bool_decide (c = "038"%char)
      then match entity r with Some (d, r') => String d (unescapeXml fuel r') | None => String c (unescapeXml fuel r) end
      else String c (unescapeXml fuel r)
  | _, _ => ""
  end.

(** none of the characters that end a value or open markup *)
Definition isMarkup (c : ascii) : bool := let n := N_of_ascii c in ((n =? 60) || (n =? 62) || (n =? 34) || (n =? 39))%N.

Lemma append_cons c (a b : string) : String c a +:+ b = String c (a +:+ b).
Proof. done. Qed.

Lemma allString_app (p : ascii → bool) a b : allString p (a +:+ b) = allString p a && allString p b.
Proof. induction a as [|c a IH]; [done|]. rewrite append_cons. cbn. by rewrite IH, andb_assoc. Qed.

Lemma length_app_string (a b : string) : String.length (a +:+ b) = (String.length a + String.length b)%nat.
Proof. induction a as [|c a IH]; [done|]. rewrite append_cons. cbn. by rewrite IH. Qed.

(** the five characters that [escapeXml] replaces, or another one *)
Lemma escapeXmlChar_cases (P : ascii → string → Prop) c :
  P "038"%char "&amp;" → P "060"%char "&lt;" → P "062"%char "&gt;" → P "034"%char "&quot;" → P "039"%char "&apos;" →
  (isMarkup c = false → c ≠ "038"%char → P c (String c "")) → P c (escapeXmlChar c).
Proof.
  intros H1 H2 H3 H4 H5 Hother. unfold escapeXmlChar. cbv zeta.
  assert (Hchar : ∀ n, N_of_ascii c = n → c = ascii_of_N n) by (intros n <-; by rewrite ascii_N_embedding).
  destruct (N.eqb_spec (N_of_ascii c) 38) as [E|N1]; [by rewrite (Hchar _ E)|].
  destruct (N.eqb_spec (N_of_ascii c) 60) as [E|N2]; [by rewrite (Hchar _ E)|].
  destruct (N.eqb_spec (N_of_ascii c) 62) as [E|N3]; [by rewrite (Hchar _ E)|].
  destruct (N.eqb_spec (N_of_ascii c) 34) as [E|N4]; [by rewrite (Hchar _ E)|].
  destruct (N.eqb_spec (N_of_ascii c) 39) as [E|N5]; [by rewrite (Hchar _ E)|].
  apply Hother; [|by intros ->]. unfold isMarkup. cbv zeta.
  by rewrite (proj2 (N.eqb_neq _ _) N2), (proj2 (N.eqb_neq _ _) N3), (proj2 (N.eqb_neq _ _) N4), (proj2 (N.eqb_neq _ _) N5).
Qed.

Lemma escapeXml_no_markup s : allString (λ c, negb (isMarkup c)) (escapeXml s) = true.
Proof.
  induction s as [|c s IH]; [done|]. cbn [escapeXml]. rewrite allString_app, IH, andb_true_r.
  apply (escapeXmlChar_cases (λ _ t, allString _ t = true)); try done. intros Hm _. cbn. by rewrite Hm.
Qed.

Lemma substring_all n (s : string) : (String.length s ≤ n)%nat → String.substring 0 n s = s.
Proof. revert n. induction s as [|c s IH]; intros [|n] Hn; try done; cbn in *; [lia|]. f_equal. apply IH. lia. Qed.

Lemma entities r : entity ("amp;" +:+ r) = Some ("038"%char, r) ∧ entity ("lt;" +:+ r) = Some ("060"%char, r) ∧
  entity ("gt;" +:+ r) = Some ("062"%char, r) ∧ entity ("quot;" +:+ r) = Some ("034"%char, r) ∧ entity ("apos;" +:+ r) = Some ("039"%char, r).
Proof.
  rewrite !append_cons. change ("" +:+ r) with r.
  assert (Hp : String.prefix "" r = true) by (by destruct r).
  split_and!; unfold entity; cbn; rewrite ?Hp, ?substring_all by lia; done.
Qed.

(** ampersands of escaped text open entities only, so the value read is the value written *)
Lemma unescape_escape s fuel : (String.length (escapeXml s) ≤ fuel)%nat → unescapeXml fuel (escapeXml s) = s.
Proof.
  revert fuel. induction s as [|c s IH]; intros fuel; [by destruct fuel|]. cbn [escapeXml]. rewrite length_app_string.
  destruct (entities (escapeXml s)) as (E1 & E2 & E3 & E4 & E5).
  apply (escapeXmlChar_cases (λ c t, (String.length t + String.length (escapeXml s) ≤ fuel)%nat →
    unescapeXml fuel (t +:+ escapeXml s) = String c s)); destruct fuel as [|fuel]; try (cbn; lia).
  1-5: intros Hf; cbn in Hf; rewrite append_cons; cbn [unescapeXml]; rewrite bool_decide_eq_true_2 by done;
    rewrite ?E1, ?E2, ?E3, ?E4, ?E5; f_equal; apply IH; lia.
  intros _ Hc Hf. cbn in Hf. rewrite append_cons. change ("" +:+ escapeXml s) with (escapeXml s). cbn [unescapeXml].
  rewrite bool_decide_eq_false_2 by done. f_equal. apply IH. lia.
Qed.

(** eight lines of 10.00 with IVA included: the printed lines add up to 68.96, the printed
    subtotal is 68.97 *)
Example printed_lines_do_not_add_up :
  calculateItemTaxes "10.0000" "1.0000" [TaxScheme.mk "s" "o" "IVA" "IVA 16%" 1600 true "IVA"] =
    Ok (ItemTaxCalculation.mk "8.6207" "1.3793" "10.0000" [TaxPart.mk "IVA" "IVA 16%" "0.1600" "IVA" "1.3793"]) ∧
  formatCfdiMoney 86207 = "8.62" ∧ formatCfdiMoney (8 * 86207) = "68.97" ∧ 8 * 862 = 6896.
Proof. by vm_compute. Qed.
