(* ===== verification/Tfd.v ===== *)
(** Certified documents: billing/src/xml-validator.ts.

    The XML parser saxes is an argument: the events it calls back with, in order, and whether
    it reports or throws an error.  The order of attributes ([localeCompare]) and [Date.parse]
    are arguments.  A node is a value of [XmlNode]; the one place where the code compares
    nodes by identity looks for a node that is the only one of its name. *)
From S2P Require Import Prelude Decimals Json JsonText AuditTrail EdgeDb Buffers FiscalTypes.
From Stdlib Require Import Ascii String.

(** an element, with its children and texts in order, or a text *)
#[warnings="-register-all"]
Inductive XmlNode :=
| Element (name : string) (namespaceUri : option string) (attributes : list (string * string)) (orderedChildren : list XmlNode)
| TextNode (text : string).

Definition nodeName (n : XmlNode) : string := match n with Element name _ _ _ => name | TextNode _ => "" end.
Definition nodeUri (n : XmlNode) : option string := match n with Element _ uri _ _ => uri | TextNode _ => None end.
Definition nodeAttributes (n : XmlNode) : list (string * string) := match n with Element _ _ attributes _ => attributes | TextNode _ => [] end.
(** [node.children]: the elements *)
Definition nodeChildren (n : XmlNode) : list XmlNode :=
  match n with Element _ _ _ l => filter (λ c, match c with Element _ _ _ _ => true | TextNode _ => false end = true) l | TextNode _ => [] end.
Definition attributeOf (n : XmlNode) (name : string) : option string :=
  snd ∘ snd <$> list_find (λ a, fst a = name) (nodeAttributes n).

Inductive XmlEvent :=
| OpenTag (local uri : string) (attributes : list (string * string))
| TextEvent (text : string)
| CloseTag.

(** an open element with its children so far, the last first *)
Module OpenNode.
Record t := mk { name : string; uri : option string; attributes : list (string * string); reversed : list XmlNode }.
#[global] Instance eta_t : Eta t := λ n, mk (name n) (uri n) (attributes n) (reversed n).
Definition close (n : t) : XmlNode := Element (name n) (uri n) (attributes n) (reverse (reversed n)).
End OpenNode.

Module XmlBuilder.
Record t := mk { root : option XmlNode; stack : list OpenNode.t; rootCount : nat; failed : bool }.
#[global] Instance eta_t : Eta t := λ b, mk (root b) (stack b) (rootCount b) (failed b).
Definition empty : t := mk None [] 0 false.
End XmlBuilder.

(** the node goes to its parent when it closes; a document with nodes left open is refused *)
(* xml-validator.ts:68-121 parseXmlStructure, handlers *)
Definition onEvent (b : XmlBuilder.t) (e : XmlEvent) : XmlBuilder.t :=
  if XmlBuilder.failed b then b else
  match e, XmlBuilder.stack b with
  | OpenTag local uri attributes, stack =>
      let node := OpenNode.mk local (if bool_decide (uri = "") then None else Some uri) attributes [] in
      if bool_decide (stack = []) then
        if (0 <? XmlBuilder.rootCount b)%nat then b <| XmlBuilder.rootCount ::= S |> <| XmlBuilder.failed := true |>
        else b <| XmlBuilder.rootCount ::= S |> <| XmlBuilder.stack := [node] |>
      else b <| XmlBuilder.stack := node :: stack |>
  | TextEvent text, [] => b
  | TextEvent text, current :: rest =>
      let merged := match OpenNode.reversed current with
        | TextNode last :: others => TextNode (last +:+ text) :: others
        | others => TextNode text :: others
        end in
      b <| XmlBuilder.stack := (current <| OpenNode.reversed := merged |>) :: rest |>
  | CloseTag, [] => b
  | CloseTag, [current] => b <| XmlBuilder.root := Some (OpenNode.close current) |> <| XmlBuilder.stack := [] |>
  | CloseTag, current :: parent :: rest =>
      b <| XmlBuilder.stack := (parent <| OpenNode.reversed ::= cons (OpenNode.close current) |>) :: rest |>
  end.

(** [pattern] occurs in [s], which is in lower case *)
Fixpoint occurs (pattern s : string) : bool :=
  String.prefix pattern s || match s with EmptyString => false | String _ s' => occurs pattern s' end.

Definition TFD_NAMESPACE : string := "http://www.sat.gob.mx/TimbreFiscalDigital".
Definition CFDI_NAMESPACE : string := "http://www.sat.gob.mx/cfd/4".

(* xml-validator.ts:160-160 UUID_REGEX *)
Definition UUID_REGEX (s : string) : bool :=
  let hyphen c := bool_decide (c = "-"%char) in
  let hex n := replicate n is_hex in
  matches (hex 8%nat ++ [hyphen] ++ hex 4%nat ++ [hyphen] ++ hex 4%nat ++ [hyphen] ++ hex 4%nat ++ [hyphen] ++ hex 12%nat) s.

Definition isChar (d c : ascii) : bool := bool_decide (c = d).
(* xml-validator.ts:316-316 FechaTimbrado *)
Definition isFecha (s : string) : bool :=
  let stamp := replicate 4 is_digit ++ [isChar "-"] ++ replicate 2 is_digit ++ [isChar "-"] ++ replicate 2 is_digit ++ [isChar "T"] ++
    replicate 2 is_digit ++ [isChar ":"] ++ replicate 2 is_digit ++ [isChar ":"] ++ replicate 2 is_digit in
  matches stamp s || matches (stamp ++ [isChar "Z"]) s ||
  matches (stamp ++ [λ c, isChar "+" c || isChar "-" c] ++ replicate 2 is_digit ++ [isChar ":"] ++ replicate 2 is_digit) s.

Definition isBase64Char (c : ascii) : bool :=
  let n := N_of_ascii c in
  ((65 <=? n) && (n <=? 90) || (97 <=? n) && (n <=? 122) || (48 <=? n) && (n <=? 57) || (n =? 43) || (n =? 47))%N.
(** characters of base64, at least one, then at most two equal signs *)
Fixpoint isBase64 (started : bool) (s : string) : bool :=
  match s with
  | EmptyString => started
  | String c s' => if isBase64Char c then isBase64 true s' else started && bool_decide (s ∈ ["="; "=="])
  end.

(* xml-validator.ts:332-332 RfcProvCertif *)
Definition isProviderRfc (s : string) : bool :=
  let shape n := matches (replicate n isRfcLetter ++ replicate 6 is_digit ++ replicate 3 isUpperOrDigit) s in shape 3%nat || shape 4%nat.

Module Timbre.
(* xml-validator.ts:23-31 TimbreFiscalDigitalData *)
Record t := mk { uuid : string; fechaTimbrado : string; rfcProvCertif : string; noCertificadoSat : string; selloSat : string }.
End Timbre.

Definition lower : string → string := mapString lowerChar.

(** the nodes of a name, each before its descendants *)
(* xml-validator.ts:146-158 findNodesByName *)
Fixpoint findNodesByName (name : string) (n : XmlNode) : list XmlNode :=
  match n with
  | TextNode _ => []
  | Element own _ _ l =>
      (if bool_decide (lower own = lower name) then [n] else []) ++
      (fix go l := match l with [] => [] | c :: l' => findNodesByName name c ++ go l' end) l
  end.

Definition isTimbre (n : XmlNode) : bool :=
  bool_decide (nodeName n = "TimbreFiscalDigital") && bool_decide (nodeUri n = Some TFD_NAMESPACE).
Definition isComplemento (n : XmlNode) : bool :=
  bool_decide (nodeName n = "Complemento") && bool_decide (nodeUri n = Some CFDI_NAMESPACE).

Section validator.
Context (saxes : string → option (list XmlEvent)) (localeCompare : string → string → comparison) (dateParse : string → option Z).

(** a text of more than 1 MB or with a DTD is not parsed; [None] is an error of the parser *)
(* xml-validator.ts:37-141 parseXmlStructure *)
Definition parseXmlStructure (xmlText : string) : FR XmlNode :=
  if blank xmlText then Err FiscalSuccessValidationError
  else if 1024 * 1024 <? Z.of_nat (List.length (utf8Encode (codesOf xmlText))) then Err FiscalSuccessValidationError
  else if existsb (λ pattern, occurs pattern (lower xmlText)) ["<!doctype"; "<!entity"; "<?xml-stylesheet"] then Err FiscalSuccessValidationError
  else match saxes xmlText with
  | None => Err FiscalSuccessValidationError
  | Some events =>
      let b := foldl onEvent XmlBuilder.empty events in
      match XmlBuilder.root b, XmlBuilder.stack b with
      | Some root, [] => if XmlBuilder.failed b then Err FiscalSuccessValidationError else Ok root
      | _, _ => Err FiscalSuccessValidationError
      end
  end.

(** [entries.sort((a, b) => a.localeCompare(b))], stable *)
Fixpoint insertAttribute (a : string * string) (l : list (string * string)) : list (string * string) :=
  match l with
  | [] => [a]
  | b :: l' => match localeCompare (fst a) (fst b) with Gt => b :: insertAttribute a l' | _ => a :: l end
  end.
Definition sortedAttributes (l : list (string * string)) : list (string * string) :=
  foldr insertAttribute [] (filter (λ a, String.prefix "xmlns" (fst a) = false) l).

(* xml-validator.ts:180-205 canonicalizeNode, Complemento *)
Definition omitted (isStamped originalHadComplement : bool) (child : XmlNode) : bool :=
  isStamped && (isTimbre child ||
    isComplemento child && negb originalHadComplement && forallb isTimbre (nodeChildren child)).

(* xml-validator.ts:166-218 canonicalizeNode *)
Fixpoint canonicalizeNode (isStamped originalHadComplement : bool) (node : XmlNode) : Json :=
  match node with
  | TextNode text => JArray [JString "#text"; JString text]
  | Element name uri attributes l =>
      JArray [JString name; JString (default "" uri);
        JArray ((λ a, JArray [JString (fst a); JString (snd a)]) <$> sortedAttributes attributes);
        JArray ((fix go l := match l with
          | [] => []
          | child :: l' => if omitted isStamped originalHadComplement child then go l'
                           else canonicalizeNode isStamped originalHadComplement child :: go l'
          end) l)]
  end.

(** the first of the attributes that is there *)
Fixpoint firstAttribute (n : XmlNode) (names : list string) : option string :=
  match names with [] => None | name :: rest => match attributeOf n name with Some v => Some v | None => firstAttribute n rest end end.

(* xml-validator.ts:292-351 validateAndExtractTimbreFiscalDigital, attributes *)
Definition timbreData (timbre : XmlNode) (expectedUuid expectedProvider : option string) : FR Timbre.t :=
  if negb (bool_decide (attributeOf timbre "Version" = Some "1.1")) then Err FiscalSuccessValidationError else
  match firstAttribute timbre ["UUID"; "uuid"], firstAttribute timbre ["FechaTimbrado"; "fechaTimbrado"],
        firstAttribute timbre ["SelloSAT"; "selloSAT"; "selloSat"],
        firstAttribute timbre ["NoCertificadoSAT"; "noCertificadoSAT"; "noCertificadoSat"],
        firstAttribute timbre ["RfcProvCertif"; "rfcProvCertif"] with
  | Some uuid, Some fecha, Some sello, Some certificado, Some rfc =>
      if UUID_REGEX uuid && isFecha fecha && bool_decide (is_Some (dateParse fecha)) &&
         isBase64 false sello && (32 <=? String.length sello)%nat && digitsOnly 20 certificado && isProviderRfc rfc &&
         match truthy expectedProvider with Some p => bool_decide (rfc = p) | None => true end &&
         match truthy expectedUuid with Some u => bool_decide (latinUpperCase u = latinUpperCase uuid) | None => true end
      then Ok (Timbre.mk uuid fecha rfc certificado sello) else Err FiscalSuccessValidationError
  | _, _, _, _, _ => Err FiscalSuccessValidationError
  end.

(* xml-validator.ts:278-290 validateAndExtractTimbreFiscalDigital, comparison *)
Definition sameDocument (root : XmlNode) (expectedOriginalXml : string) : FR unit :=
  result_bind (parseXmlStructure expectedOriginalXml) (λ original,
    let originalHasComplement := existsb isComplemento (nodeChildren original) in
    if bool_decide (stringify (canonicalizeNode true originalHasComplement root) = stringify (canonicalizeNode false originalHasComplement original))
    then Ok tt else Err FiscalSuccessValidationError).

(* xml-validator.ts:225-351 validateAndExtractTimbreFiscalDigital *)
Definition validateAndExtractTimbreFiscalDigital (stampedXml : string) (expectedUuid expectedProvider expectedOriginalXml : option string)
    : FR Timbre.t :=
  if blank stampedXml then Err FiscalSuccessValidationError else
  result_bind (parseXmlStructure stampedXml) (λ root,
  if negb (bool_decide (nodeName root = "Comprobante" ∧ nodeUri root = Some CFDI_NAMESPACE)) then Err FiscalSuccessValidationError
  else if negb (bool_decide (attributeOf root "Version" = Some "4.0")) then Err FiscalSuccessValidationError
  else match findNodesByName "TimbreFiscalDigital" root with
  | [timbre] =>
      if negb (existsb (λ comp, isComplemento comp &&
          existsb (λ c, bool_decide (lower (nodeName c) = lower "TimbreFiscalDigital")) (nodeChildren comp)) (nodeChildren root)) ||
         negb (isTimbre timbre)
      then Err FiscalSuccessValidationError
      else result_bind (match truthy expectedOriginalXml with Some xml => sameDocument root xml | None => Ok tt end)
        (λ _, timbreData timbre expectedUuid expectedProvider)
  | _ => Err FiscalSuccessValidationError
  end).
End validator.
