(* ===== verification/Pac.v ===== *)
(** What the PAC may be used for: capabilities, the contracts that approve them, their
    authorisation at every use, and the circuit breaker (billing/src/pac-connector.ts).

    SHA-256, signatures and [Date] are arguments.  The registry of the organisation is an
    interface without an implementation in the source; what it answers to one use is a value
    of [RegistryAnswer].  Errors of the validation reach no caller: the use that failed
    throws one error for all of them. *)
From S2P Require Import Prelude Decimals Epochs Json JsonText AuditTrail EdgeDb FiscalTypes Tfd.
From Stdlib Require Import Ascii String.

Module PacCapabilityName.
(* billing types.ts:251-259 PacCapabilityName *)
Inductive t := supportsStamp | supportsCancel | supportsStampIdempotencyKey | supportsCancellationIdempotencyKey
| supportsAuthoritativeStampLookup | supportsAuthoritativeCancellationLookup
| supportsSafeStampReplayAfterConfirmedNotFound | supportsSafeCancellationReplayAfterConfirmedNotFound.
#[global] Instance eq_dec : EqDecision t.
Proof. solve_decision. Defined.
Definition text (c : t) : string :=
  match c with
  | supportsStamp => "supportsStamp" | supportsCancel => "supportsCancel"
  | supportsStampIdempotencyKey => "supportsStampIdempotencyKey"
  | supportsCancellationIdempotencyKey => "supportsCancellationIdempotencyKey"
  | supportsAuthoritativeStampLookup => "supportsAuthoritativeStampLookup"
  | supportsAuthoritativeCancellationLookup => "supportsAuthoritativeCancellationLookup"
  | supportsSafeStampReplayAfterConfirmedNotFound => "supportsSafeStampReplayAfterConfirmedNotFound"
  | supportsSafeCancellationReplayAfterConfirmedNotFound => "supportsSafeCancellationReplayAfterConfirmedNotFound"
  end.
End PacCapabilityName.

Module ApprovedScope.
(* billing types.ts:261-266 PacApprovedScope *)
Record t := mk { organizationId : option string; operationType : string; capability : string; recoveryCondition : option string }.
End ApprovedScope.

Module RevocationStatus.
(* billing types.ts:286-286 PacContractProvenance.revocationStatus *)
Inductive t := ACTIVE | REVOKED | SUPERSEDED | Unknown (text : string).
#[global] Instance eq_dec : EqDecision t.
Proof. solve_decision. Defined.
Definition text (s : t) : string := match s with ACTIVE => "ACTIVE" | REVOKED => "REVOKED" | SUPERSEDED => "SUPERSEDED" | Unknown x => x end.
End RevocationStatus.

Module Provenance.
(* billing types.ts:268-291 PacContractProvenance *)
Record t := mk {
  providerName : string; contractIdentifier : string; contractVersion : string; evidenceUriOrReference : string; evidenceMediaType : string;
  evidenceByteLength : Z; evidenceDigestAlgorithm : string; evidenceDigest : string; approvalAuthorityId : string; approvalKeyId : string;
  approvalAttestation : string; approvedScope : ApprovedScope.t; effectiveFrom : string; effectiveUntil : string;
  revocationAuthorityId : string; revocationKeyId : string; revocationSequence : Z; revocationStatus : RevocationStatus.t;
  revocationAttestation : string; revocationSnapshotIssuedAt : string; revocationSnapshotValidUntil : string;
  guaranteeScopeOrLimitations : option string }.
End Provenance.

Module AllowedScope.
(* billing types.ts:297-301 TrustedApprovalAuthority.allowedScopes *)
Record t := mk { providerName : string; scope : string; allowedOperations : list FiscalOperationType.t }.
End AllowedScope.

Module Authority.
(* billing types.ts:293-303 TrustedApprovalAuthority *)
Record t := mk { publicKeyPem : string; allowedScopes : list AllowedScope.t; active : bool }.
End Authority.

Module UseContext.
(* billing types.ts:305-313 ProvenanceValidationContext *)
Record t := mk { organizationId : string; operationType : FiscalOperationType.t; recoveryCondition : option string }.
End UseContext.

Module Connector.
(* pac-connector.ts:34-58 IPacConnector *)
Record t := mk {
  providerName : string; certifiedProviderRfc : option string; capabilities : PacCapabilityName.t → bool;
  contractProvenance : option Provenance.t;
  (** [consultarTimbre] and [consultarCancelacion] are there *)
  hasStampLookup : bool; hasCancelLookup : bool }.
End Connector.

(** what the organisation's registry answers when it is read for one use *)
Module RegistryAnswer.
(* pac-connector.ts:764-783 PacAuthorizationRegistry *)
Record t := mk {
  provenance : Provenance.t; evidenceBytes : list Z; evidenceMediaType : string; authorities : string → option Authority.t;
  maxStatusAgeMs : Z; acceptSequence : option bool }.
End RegistryAnswer.

Definition optional (o : option string) : Json := match o with Some s => JString s | None => JUndefined end.

Section provenance.
Context (digestBytes : list Z → string) (verify : string → string → string → bool) (dateParse : string → option Z).

(** [JSON.stringify] of an array of strings, integers and undefined *)
Definition stringifyArray (l : list Json) : string := match stringify (JArray l) with Ok (Some text) => text | _ => "" end.

Definition attested (p : Provenance.t) : list Json :=
  let scope := Provenance.approvedScope p in
  [ JString (Provenance.providerName p); JString (Provenance.contractIdentifier p); JString (Provenance.contractVersion p);
    JString (Provenance.evidenceUriOrReference p); JString (Provenance.evidenceMediaType p); JNumber (Provenance.evidenceByteLength p);
    JString (Provenance.evidenceDigestAlgorithm p); JString (Provenance.evidenceDigest p); JString (Provenance.approvalAuthorityId p);
    JString (Provenance.approvalKeyId p); JString (ApprovedScope.operationType scope); JString (ApprovedScope.capability scope);
    optional (ApprovedScope.organizationId scope); JString (default "NONE" (ApprovedScope.recoveryCondition scope));
    JString (Provenance.effectiveFrom p); JString (Provenance.effectiveUntil p);
    JString (default "" (Provenance.guaranteeScopeOrLimitations p)) ].

(* pac-connector.ts:73-94 buildProvenanceAttestationPayload *)
Definition buildProvenanceAttestationPayload (p : Provenance.t) : string := stringifyArray (attested p).

(* pac-connector.ts:751-761 buildRevocationAttestationPayload *)
Definition buildRevocationAttestationPayload (p : Provenance.t) : string :=
  stringifyArray [ JString (buildProvenanceAttestationPayload p); JString (Provenance.revocationAuthorityId p);
    JString (Provenance.revocationKeyId p); JNumber (Provenance.revocationSequence p);
    JString (RevocationStatus.text (Provenance.revocationStatus p)); JString (Provenance.revocationSnapshotIssuedAt p);
    JString (Provenance.revocationSnapshotValidUntil p) ].

Definition ensure (b : bool) (e : FiscalError) : FR unit := if b then Ok tt else Err e.
Notation "r ;; k" := (result_bind r (λ _, k)) (at level 100, right associativity).

(* pac-connector.ts:155-187 validatePacCapabilityProvenance, evidence *)
Definition checkEvidence (connector : Connector.t) (provenance : Provenance.t) (evidenceBytes : list Z) (evidenceMediaType : string) : FR unit :=
  ensure (bool_decide (Provenance.evidenceDigestAlgorithm provenance = "SHA-256")) PacProvenanceValidationError ;;
  ensure (allString is_hex (Provenance.evidenceDigest provenance) && (String.length (Provenance.evidenceDigest provenance) =? 64)%nat)
    PacProvenanceValidationError ;;
  ensure (0 <? Provenance.evidenceByteLength provenance) PacProvenanceValidationError ;;
  ensure (bool_decide (evidenceMediaType = Provenance.evidenceMediaType provenance)) PacProvenanceValidationError ;;
  ensure (bool_decide (Provenance.providerName provenance = Connector.providerName connector)) PacProvenanceScopeMismatchError ;;
  ensure (bool_decide (lower (digestBytes evidenceBytes) = lower (Provenance.evidenceDigest provenance))) PacProvenanceValidationError ;;
  ensure (Z.of_nat (List.length evidenceBytes) =? Provenance.evidenceByteLength provenance) PacProvenanceValidationError.

(* pac-connector.ts:189-211 validatePacCapabilityProvenance, scope *)
Definition checkScope (capability : PacCapabilityName.t) (context : UseContext.t) (scope : ApprovedScope.t) : FR unit :=
  ensure (bool_decide (ApprovedScope.capability scope = PacCapabilityName.text capability)) PacProvenanceScopeMismatchError ;;
  ensure (bool_decide (ApprovedScope.operationType scope = FiscalOperationType.text (UseContext.operationType context))) PacProvenanceScopeMismatchError ;;
  ensure (negb (bool_decide (UseContext.organizationId context = "")) &&
    match truthy (ApprovedScope.organizationId scope) with
    | Some o => bool_decide (o = "GLOBAL") || bool_decide (o = UseContext.organizationId context)
    | None => false
    end &&
    bool_decide (default "NONE" (ApprovedScope.recoveryCondition scope) = default "NONE" (UseContext.recoveryCondition context)))
    PacProvenanceScopeMismatchError.

(* pac-connector.ts:213-235 validatePacCapabilityProvenance, validity *)
Definition checkValidity (now : Z) (provenance : Provenance.t) : FR unit :=
  match dateParse (Provenance.effectiveFrom provenance), dateParse (Provenance.effectiveUntil provenance) with
  | Some from, Some until =>
      ensure (from <? until) PacProvenanceValidationError ;;
      ensure (from <=? now) PacProvenanceExpiredError ;;
      ensure (now <=? until) PacProvenanceExpiredError
  | _, _ => Err PacProvenanceValidationError
  end.

(* pac-connector.ts:237-286 validatePacCapabilityProvenance, revocation *)
Definition checkRevocation (now maxStatusAgeMs : Z) (provenance : Provenance.t) : FR unit :=
  ensure (negb (bool_decide (Provenance.revocationStatus provenance ∈ [RevocationStatus.REVOKED; RevocationStatus.SUPERSEDED]))) PacProvenanceRevokedError ;;
  ensure (bool_decide (Provenance.revocationStatus provenance = RevocationStatus.ACTIVE)) PacProvenanceValidationError ;;
  ensure (isSafeInteger (Provenance.revocationSequence provenance) && (0 <=? Provenance.revocationSequence provenance)) PacProvenanceValidationError ;;
  match dateParse (Provenance.revocationSnapshotIssuedAt provenance), dateParse (Provenance.revocationSnapshotValidUntil provenance) with
  | Some issued, Some validUntil =>
      ensure ((issued <=? now) && (issued <? validUntil)) PacProvenanceValidationError ;;
      ensure (now <=? validUntil) PacProvenanceExpiredError ;;
      ensure ((0 <? maxStatusAgeMs) && (now - issued <=? maxStatusAgeMs)) PacProvenanceExpiredError
  | _, _ => Err PacProvenanceValidationError
  end.

(* pac-connector.ts:287-322 validatePacCapabilityProvenance, authority *)
Definition checkAttestation (connector : Connector.t) (context : UseContext.t) (authorities : string → option Authority.t)
    (id keyId signature payload : string) : FR unit :=
  match authorities (id +:+ ":" +:+ keyId) with
  | Some authority =>
      ensure (Authority.active authority && existsb (λ allowed,
        bool_decide (AllowedScope.providerName allowed = Connector.providerName connector) &&
        (bool_decide (AllowedScope.scope allowed = "GLOBAL") || bool_decide (AllowedScope.scope allowed = UseContext.organizationId context)) &&
        bool_decide (UseContext.operationType context ∈ AllowedScope.allowedOperations allowed)) (Authority.allowedScopes authority))
        PacProvenanceValidationError ;;
      ensure (negb (bool_decide (signature = "")) && verify payload (Authority.publicKeyPem authority) signature) PacProvenanceValidationError
  | None => Err PacProvenanceValidationError
  end.

(** the connector's provenance is the registry's *)
(* pac-connector.ts:101-323 validatePacCapabilityProvenance *)
Definition validatePacCapabilityProvenance (connector : Connector.t) (capability : PacCapabilityName.t) (context : UseContext.t) (now : Z)
    (answer : RegistryAnswer.t) : FR unit :=
  let provenance := RegistryAnswer.provenance answer in
  ensure (Connector.capabilities connector capability) PacCapabilityMissingError ;;
  checkEvidence connector provenance (RegistryAnswer.evidenceBytes answer) (RegistryAnswer.evidenceMediaType answer) ;;
  checkScope capability context (Provenance.approvedScope provenance) ;;
  checkValidity now provenance ;;
  checkRevocation now (RegistryAnswer.maxStatusAgeMs answer) provenance ;;
  checkAttestation connector context (RegistryAnswer.authorities answer) (Provenance.approvalAuthorityId provenance)
    (Provenance.approvalKeyId provenance) (Provenance.approvalAttestation provenance) (buildProvenanceAttestationPayload provenance) ;;
  checkAttestation connector context (RegistryAnswer.authorities answer) (Provenance.revocationAuthorityId provenance)
    (Provenance.revocationKeyId provenance) (Provenance.revocationAttestation provenance) (buildRevocationAttestationPayload provenance).

(** [None] for no registry, or one that throws when it is read *)
(* pac-connector.ts:785-836 authorizePacCapabilityUse *)
Definition authorizePacCapabilityUse (connector : Connector.t) (capability : PacCapabilityName.t) (context : UseContext.t) (now : Z)
    (registry : option RegistryAnswer.t) : FR unit :=
  match registry with
  | None => Err PacProvenanceValidationError
  | Some answer =>
      let p := RegistryAnswer.provenance answer in
      if negb (bool_decide (UseContext.organizationId context = "")) &&
         match Connector.contractProvenance connector with
         | Some c => bool_decide (Provenance.contractIdentifier c = Provenance.contractIdentifier p) &&
                     bool_decide (Provenance.contractVersion c = Provenance.contractVersion p)
         | None => false
         end &&
         match validatePacCapabilityProvenance connector capability context now answer with Ok _ => true | Err _ => false end &&
         default false (RegistryAnswer.acceptSequence answer)
      then Ok tt else Err PacProvenanceValidationError
  end.
End provenance.

(** ** The circuit breaker *)

Module CircuitState.
(* pac-connector.ts:423-423 CircuitState *)
Inductive t := CLOSED | OPEN | HALF_OPEN.
#[global] Instance eq_dec : EqDecision t.
Proof. solve_decision. Defined.
End CircuitState.

Module Breaker.
(* pac-connector.ts:430-440 PacCircuitBreaker *)
Record t := mk { state : CircuitState.t; failureCount : Z; lastFailureTime : Z; failureThreshold : Z; cooldownMs : Z }.
#[global] Instance eta_t : Eta t := λ b, mk (state b) (failureCount b) (lastFailureTime b) (failureThreshold b) (cooldownMs b).
(* pac-connector.ts:437-440 PacCircuitBreaker.constructor *)
Definition new (failureThreshold cooldownMs : option Z) : t := mk CircuitState.CLOSED 0 0 (default 3 failureThreshold) (default 5000 cooldownMs).
(* pac-connector.ts:442-450 PacCircuitBreaker.getState *)
Definition getState (now : Z) : M t FiscalError CircuitState.t :=
  b ← gets (λ b, b);
  (if bool_decide (state b = CircuitState.OPEN) && (cooldownMs b <=? now - lastFailureTime b)
   then modify (λ b, b <| state := CircuitState.HALF_OPEN |>) else mret tt) ;;
  gets state.
(* pac-connector.ts:452-455 PacCircuitBreaker.recordSuccess *)
Definition recordSuccess : M t FiscalError unit := modify (λ b, b <| failureCount := 0 |> <| state := CircuitState.CLOSED |>).
(* pac-connector.ts:457-463 PacCircuitBreaker.recordFailure *)
Definition recordFailure (now : Z) : M t FiscalError unit :=
  modify (λ b, b <| failureCount ::= Z.add 1 |> <| lastFailureTime := now |>) ;;
  b ← gets (λ b, b);
  if failureThreshold b <=? failureCount b then modify (λ b, b <| state := CircuitState.OPEN |>) else mret tt.
(* pac-connector.ts:465-472 PacCircuitBreaker.checkExecutionAllowed *)
Definition checkExecutionAllowed (now : Z) : M t FiscalError unit :=
  current ← getState now;
  throw_when (bool_decide (current = CircuitState.OPEN)) PacCircuitBreakerOpenError.
End Breaker.
