(* ===== verification/Invoicing.v ===== *)
(** Fiscal invoices in the cloud: PostgresBillingService of cloud-server/src/index.ts, over the
    tables of migrations 20260905030000 and 20261001000000 and the integration outbox.

    Stamping and cancelling submit to the PAC between two transactions, so each is two
    programs: [beginStamp] and [finishStamp], [beginCancel] and [finishCancel]; other requests
    run in between.  A transaction locks the invoice, and the operation of the idempotency key,
    before it reads, and restores the tables on a throw; the audit logger has a connection of
    its own, so what it wrote stays.  What the PAC, the organisation's registry and the vault
    answer are drawn values, as are clocks and identifiers.  The one text of the error
    sanitizer, foreign keys and row-level security are not modelled. *)
From S2P Require Import Prelude Decimals Money Scale4 Json AuditTrail Ingestion Dispatch FiscalTypes Cfdi Tfd Pac.
From Stdlib Require Import Ascii String.

Module FiscalDb.
Record t := mk {
  tax_schemes : list TaxScheme.t; emisor_fiscal_config : list EmisorFiscal.t; fiscal_invoices : list FiscalInvoice.t;
  fiscal_invoice_items : list FiscalInvoiceItem.t; operations : list FiscalOperation.t; integration : DispatchDb.t; audit : AuditTable }.
#[global] Instance eta_t : Eta t := λ d,
  mk (tax_schemes d) (emisor_fiscal_config d) (fiscal_invoices d) (fiscal_invoice_items d) (operations d) (integration d) (audit d).
Definition empty : t := mk [] [] [] [] [] DispatchDb.empty [].
End FiscalDb.

Abbreviation FTx := (M FiscalDb.t FiscalError).

(** [withTenantTransaction] *)
(* tenant.ts:32-50 withTenantTransaction *)
Definition inFiscalTransaction {A} (callback : FTx A) : FTx A := λ db,
  match callback db with
  | (db', Ok a) => (db', Ok a)
  | (db', Err e) => (db <| FiscalDb.audit := FiscalDb.audit db' |>, Err e)
  end.

Module StampCommand.
(* billing types.ts:492-497 StampFiscalInvoiceCommand *)
Record t := mk { organizationId : string; invoiceId : string; idempotencyKey : option string }.
End StampCommand.

Module CancelCommand.
(* billing types.ts:499-506 CancelFiscalInvoiceCommand *)
Record t := mk { organizationId : string; invoiceId : string; motivo : string; uuidSustitucion : option string; idempotencyKey : option string }.
End CancelCommand.

Module FiscalDraws.
(** clocks and identifiers of one transaction *)
Record t := mk { now : Z; nowText : string; operationId : string; outboxId : string; auditDraws : AuditDraws.t }.
End FiscalDraws.

Module VaultAnswer.
(** the key and the certificate of the vault; [None] when it throws or has none *)
Record t := mk { privateKeyPem : option string; certificatePem : option string }.
End VaultAnswer.

Module PacAnswers.
(** the registry's answers at each use, and whether it vouches for a result, the second time
    a stamping or a cancellation asks included; [None] when it throws or has no such check *)
Record t := mk { registry : PacCapabilityName.t → option string → option RegistryAnswer.t; evidence : option bool; laterEvidence : option bool }.
End PacAnswers.

Module PacStampRequest.
(* billing types.ts:197-207 PacStampRequest *)
Record t := mk { correlation : FiscalResultCorrelation.t; xmlPayload : string }.
End PacStampRequest.

Module PacCancelRequest.
(* billing types.ts:225-236 PacCancelRequest *)
Record t := mk {
  correlation : FiscalResultCorrelation.t; uuid : string; rfcEmisor : string; total : Z; reason : string; replacementUuid : option string }.
End PacCancelRequest.

(** an invoice with its items *)
Abbreviation FullInvoice := (FiscalInvoice.t * list FiscalInvoiceItem.t)%type.

Module Submission.
(** what phase 1 of a stamping hands to the next phases *)
Record t := mk {
  opId : string; invoice : FiscalInvoice.t; cfdiXml : string; requestHash : string; selloEmisor : string; cadenaOriginal : string;
  emisor : EmisorFiscal.t; idempotencyKey : string }.
End Submission.

Module CancelSubmission.
Record t := mk { opId : string; targetUuid : string; requestHash : string; invoice : FiscalInvoice.t; emisorRfc : string; idempotencyKey : string }.
End CancelSubmission.

(** ** Statements *)

Definition findInvoice (organizationId invoiceId : string) (db : FiscalDb.t) : option FiscalInvoice.t :=
  snd <$> list_find (λ r, FiscalInvoice.organizationId r = organizationId ∧ FiscalInvoice.id r = invoiceId) (FiscalDb.fiscal_invoices db).

Definition findOperation (organizationId idempotencyKey : string) (db : FiscalDb.t) : option FiscalOperation.t :=
  snd <$> list_find (λ r, FiscalOperation.organizationId r = organizationId ∧ FiscalOperation.idempotencyKey r = idempotencyKey)
    (FiscalDb.operations db).

Definition findEmisor (organizationId : string) (db : FiscalDb.t) : option EmisorFiscal.t :=
  snd <$> list_find (λ r, EmisorFiscal.organizationId r = organizationId) (FiscalDb.emisor_fiscal_config db).

(** ORDER BY line_number ASC *)
Definition itemsOf (organizationId invoiceId : string) (db : FiscalDb.t) : list FiscalInvoiceItem.t :=
  orderAsc FiscalInvoiceItem.lineNumber (filter (λ r, FiscalInvoiceItem.organizationId r = organizationId ∧
    FiscalInvoiceItem.invoiceId r = invoiceId) (FiscalDb.fiscal_invoice_items db)).

(* cloud-server index.ts:6431-6454 PostgresBillingService.getInvoiceInternal *)
Definition getInvoiceInternal (organizationId invoiceId : string) (db : FiscalDb.t) : option FullInvoice :=
  (λ invoice, (invoice, itemsOf organizationId invoiceId db)) <$> findInvoice organizationId invoiceId db.

Definition isInvoice (organizationId invoiceId : string) (r : FiscalInvoice.t) : Prop :=
  FiscalInvoice.organizationId r = organizationId ∧ FiscalInvoice.id r = invoiceId.
#[global] Instance isInvoice_dec o i r : Decision (isInvoice o i r).
Proof. unfold isInvoice. solve_decision. Defined.

Definition isOperation (organizationId operationId : string) (r : FiscalOperation.t) : Prop :=
  FiscalOperation.organizationId r = organizationId ∧ FiscalOperation.id r = operationId.
#[global] Instance isOperation_dec o i r : Decision (isOperation o i r).
Proof. unfold isOperation. solve_decision. Defined.

(** another invoice of the organisation has the value in a UNIQUE column *)
Definition taken (rows : list FiscalInvoice.t) (organizationId invoiceId : string) (column : FiscalInvoice.t → option string)
    (value : option string) : bool :=
  match value with
  | Some v => existsb (λ r, bool_decide (FiscalInvoice.organizationId r = organizationId) && negb (bool_decide (FiscalInvoice.id r = invoiceId)) &&
      bool_decide (column r = Some v)) rows
  | None => false
  end.

Definition fitsColumn (n : nat) (o : option string) : bool := match o with Some s => fits n s | None => true end.

(** UPDATE fiscal_invoices, with uq_fiscal_invoices_uuid, uq_fiscal_invoices_pac_ref and the
    lengths of the columns *)
Definition updateInvoice (organizationId invoiceId : string) (f : FiscalInvoice.t → FiscalInvoice.t) : FTx unit :=
  found ← gets (findInvoice organizationId invoiceId);
  match found with
  | None => mret tt
  | Some r =>
      let r' := f r in
      rows ← gets FiscalDb.fiscal_invoices;
      throw_when (negb (fitsColumn 100 (FiscalInvoice.invoiceUuid r') && fitsColumn 10 (FiscalInvoice.cancellationReason r') &&
        fitsColumn 100 (FiscalInvoice.cancellationReplacementUuid r') && fitsColumn 100 (FiscalInvoice.pacRequestReferenceId r')))
        (FiscalPg "value too long") ;;
      throw_when (taken rows organizationId invoiceId FiscalInvoice.invoiceUuid (FiscalInvoice.invoiceUuid r'))
        (FiscalPg "uq_fiscal_invoices_uuid") ;;
      throw_when (taken rows organizationId invoiceId FiscalInvoice.pacRequestReferenceId (FiscalInvoice.pacRequestReferenceId r'))
        (FiscalPg "uq_fiscal_invoices_pac_ref") ;;
      modify (λ db, db <| FiscalDb.fiscal_invoices ::= fmap (λ r, if decide (isInvoice organizationId invoiceId r) then f r else r) |>)
  end.

(** payload->>'field' *)
Definition payloadText (payload : Json) (field : string) : option string :=
  match payload with JObject ms => asString (property ms field) | _ => None end.

(* 20261001000000_wp021_security_event_integrity.sql:34-39 fiscal_envelope_consistent *)
Definition envelopeConsistent (r : FiscalOperation.t) : bool :=
  match FiscalOperation.eventPayload r, FiscalOperation.eventContractVersion r with
  | None, None => true
  | Some payload, Some version =>
      bool_decide (payloadText payload "eventContractVersion" = Some version) &&
      bool_decide (is_Some (FiscalOperation.semanticEventId r)) &&
      bool_decide (payloadText payload "semanticEventId" = FiscalOperation.semanticEventId r)
  | _, _ => false
  end.

(* 20261001000000_wp021_security_event_integrity.sql:11-22 protect_fiscal_event_envelope *)
Definition envelopeKept (old new : FiscalOperation.t) : bool :=
  match FiscalOperation.eventPayload old with
  | None => true
  | Some _ => bool_decide (FiscalOperation.semanticEventId new = FiscalOperation.semanticEventId old)
  end.

(** UPDATE fiscal_stamping_operations, with its trigger and its CHECK; no statement changes a
    payload, a version or an organisation that is there *)
Definition updateOperation (organizationId operationId : string) (f : FiscalOperation.t → FiscalOperation.t) : FTx unit :=
  rows ← gets FiscalDb.operations;
  let touched := filter (isOperation organizationId operationId) rows in
  throw_when (negb (forallb (λ r, envelopeKept r (f r)) touched)) (FiscalPg "Immutable fiscal event envelope") ;;
  throw_when (negb (forallb (λ r, envelopeConsistent (f r)) touched)) (FiscalPg "fiscal_envelope_consistent") ;;
  throw_when (negb (forallb (λ r, fitsColumn 100 (FiscalOperation.providerName (f r))) touched)) (FiscalPg "value too long") ;;
  modify (λ db, db <| FiscalDb.operations ::= fmap (λ r, if decide (isOperation organizationId operationId r) then f r else r) |>).

(** INSERT INTO fiscal_stamping_operations: uq_stamping_ops_org_id and uq_stamping_ops_org_idempotency *)
Definition insertOperation (row : FiscalOperation.t) : FTx unit :=
  rows ← gets FiscalDb.operations;
  throw_when (negb (fits 100 (FiscalOperation.idempotencyKey row))) (FiscalPg "value too long") ;;
  throw_when (bool_decide (FiscalOperation.id row ∈ (FiscalOperation.id <$> rows))) (FiscalPg "fiscal_stamping_operations_pkey") ;;
  throw_when (bool_decide ((FiscalOperation.organizationId row, FiscalOperation.idempotencyKey row) ∈
    ((λ r, (FiscalOperation.organizationId r, FiscalOperation.idempotencyKey r)) <$> rows))) (FiscalPg "uq_stamping_ops_org_idempotency") ;;
  modify (λ db, db <| FiscalDb.operations ::= λ l, l ++ [row] |>).

(** [outboxService.enqueue(client, ...)] *)
Definition onFiscalOutbox {A} (m : DTx A) : FTx A := λ db,
  let '(d', r) := m (FiscalDb.integration db) in
  (db <| FiscalDb.integration := d' |>, match r with Ok a => Ok a | Err e => Err (FiscalOutbox e) end).

(** [auditLogger.logAuditEvent(...).catch(...)] *)
Definition onAudit (m : AuditTx string) : FTx unit := λ db,
  (db <| FiscalDb.audit := fst (m (FiscalDb.audit db)) |>, Ok tt).

Module BillingService.
(* cloud-server index.ts:4606-4634 PostgresBillingService *)
Record t := mk { connector : Connector.t; fiscalSubscribers : option (list Subscriber.t); isFiscalStampingEnabled : bool }.
End BillingService.

(** what the code uses of node:crypto, saxes and Intl *)
Module FiscalHost.
Record t := mk {
  digest : string → string; digestBytes : list Z → string; verify : string → string → string → bool; csd : Csd.t;
  saxes : string → option (list XmlEvent); localeCompare : string → string → comparison; dateParse : string → option Z }.
End FiscalHost.

Section service.
Context (host : FiscalHost.t) (service : BillingService.t).
Abbreviation connector := (BillingService.connector service).
Abbreviation digest := (FiscalHost.digest host).

(* cloud-server index.ts:6341-6347 PostgresBillingService.authorizeCapability *)
Definition authorizeCapability (draws : FiscalDraws.t) (answers : PacAnswers.t) (organizationId : string) (operationType : FiscalOperationType.t)
    (capability : PacCapabilityName.t) (recoveryCondition : option string) : FTx unit :=
  lift (authorizePacCapabilityUse (FiscalHost.digestBytes host) (FiscalHost.verify host) (FiscalHost.dateParse host) connector capability
    (UseContext.mk organizationId operationType recoveryCondition) (FiscalDraws.now draws) (PacAnswers.registry answers capability recoveryCondition)).

(* cloud-server index.ts:6370-6378 PostgresBillingService.validateResultCorrelation *)
Definition validateResultCorrelation (pacProvider : option string) (correlation : option FiscalResultCorrelation.t)
    (expected : FiscalResultCorrelation.t) : FR unit :=
  if bool_decide (pacProvider = Some (Connector.providerName connector)) && bool_decide (correlation = Some expected)
  then Ok tt else Err FiscalSuccessValidationError.

(* cloud-server index.ts:6349-6366 PostgresBillingService.validateFiscalEvidence *)
Definition validateFiscalEvidence (evidence : option bool) (pacProvider : option string) (correlation : option FiscalResultCorrelation.t)
    (expected : FiscalResultCorrelation.t) : FR unit :=
  result_bind (validateResultCorrelation pacProvider correlation expected) (λ _,
    if default false evidence then Ok tt else Err FiscalSuccessValidationError).

(* cloud-server index.ts:6380-6415 PostgresBillingService.validateAuthoritativeStampResult *)
Definition validateAuthoritativeStampResult (result : PacStampResult.t) (expectedUuid originalXml : option string) : FR unit :=
  if negb (bool_decide (PacStampResult.status result = PacStampStatus.STAMPED)) then Err FiscalSuccessValidationError else
  match PacStampResult.uuid result,
        (match PacStampResult.stampedXml result with Some x => Some x | None => PacStampResult.xmlTimbrado result end),
        truthy (Connector.certifiedProviderRfc connector) with
  | Some uuid, Some stampedXml, Some provider =>
      if blank uuid || blank stampedXml || negb (bool_decide (PacStampResult.certifiedProviderRfc result = Some provider))
      then Err FiscalSuccessValidationError
      else result_bind (validateAndExtractTimbreFiscalDigital (FiscalHost.saxes host) (FiscalHost.localeCompare host) (FiscalHost.dateParse host)
          stampedXml (Some (default uuid expectedUuid)) (Some provider) originalXml) (λ tfd,
        if bool_decide (PacStampResult.selloSat result = Some (Timbre.selloSat tfd)) &&
           bool_decide (PacStampResult.fechaTimbrado result = Some (Timbre.fechaTimbrado tfd)) &&
           bool_decide (PacStampResult.noCertificadoSat result = Some (Timbre.noCertificadoSat tfd))
        then Ok tt else Err FiscalSuccessValidationError)
  | _, _, _ => Err FiscalSuccessValidationError
  end.

(* cloud-server index.ts:6417-6429 PostgresBillingService.validateAuthoritativeCancellationResult *)
Definition validateAuthoritativeCancellationResult (status : PacCancelStatus.t) (uuid targetUuid : string) : FR unit :=
  match status with
  | PacCancelStatus.PENDING_APPROVAL => Err CancellationPendingApprovalError
  | PacCancelStatus.CANCELLED =>
      if negb (bool_decide (uuid = "")) && bool_decide (latinUpperCase uuid = latinUpperCase targetUuid)
      then Ok tt else Err FiscalSuccessValidationError
  | _ => Err FiscalSuccessValidationError
  end.

(** ** Events *)

Definition REQUIRED_FIELDS : list string := ["eventContractVersion"; "semanticEventId"; "invoiceId"; "uuid"].

Definition checkSubscribers (subscribers : list Subscriber.t) (payload : list (string * Json)) : FTx unit :=
  for_each (λ subscriber, lift (assertSubscriberCompatibility (asString (property payload "eventContractVersion")) payload subscriber
    REQUIRED_FIELDS)) subscribers.

(** the payload stored with the operation, stored now if there is none *)
(* cloud-server index.ts:6309-6330 PostgresBillingService.enqueueFiscalEvent, durablePayload *)
Definition durablePayload (organizationId : string) (row : FiscalOperation.t) (payload : list (string * Json)) : FTx (list (string * Json)) :=
  match FiscalOperation.eventPayload row with
  | Some (JObject stored) =>
      lift (result_map (λ _, tt) (validateEventContractVersion (FiscalOperation.eventContractVersion row))) ;;
      throw_when (negb (bool_decide (asString (property stored "eventContractVersion") = FiscalOperation.eventContractVersion row)) ||
        negb (bool_decide (asString (property stored "semanticEventId") = asString (property payload "semanticEventId")))) EventContractIncompatibleError ;;
      mret stored
  | Some _ => mthrow EventContractIncompatibleError
  | None =>
      column ← lift (match jsonb (JObject payload) with Ok v => Ok v | Err e => Err (FiscalOutbox (DispatchJson e)) end);
      updateOperation organizationId (FiscalOperation.id row) (λ r, match FiscalOperation.eventPayload r with
        | Some _ => r
        | None => r <| FiscalOperation.eventContractVersion := asString (property payload "eventContractVersion") |>
                    <| FiscalOperation.eventPayload := Some column |>
        end) ;;
      mret payload
  end.

(* cloud-server index.ts:6277-6339 PostgresBillingService.enqueueFiscalEvent *)
Definition enqueueFiscalEvent (draws : FiscalDraws.t) (organizationId branchId : string) (kind : EventKind.t) (aggregateId : string)
    (payload : list (string * Json)) : FTx unit :=
  lift (result_map (λ _, tt) (validateEventContractVersion (asString (property payload "eventContractVersion")))) ;;
  subscribers ← require (BillingService.fiscalSubscribers service) EventContractIncompatibleError;
  checkSubscribers subscribers payload ;;
  stored ← gets (λ db, filter (λ r, FiscalOperation.organizationId r = organizationId ∧
    FiscalOperation.semanticEventId r = asString (property payload "semanticEventId") ∧ is_Some (FiscalOperation.semanticEventId r))
    (FiscalDb.operations db));
  match stored with
  | [row] =>
      let eventKind := EventKind.kindOf (FiscalOperation.operationType row) in
      throw_when (negb (bool_decide (kind = eventKind)) || negb (bool_decide (aggregateId = FiscalOperation.invoiceId row)) ||
        negb (bool_decide (asString (property payload "semanticEventId") =
          Some (generateFiscalSemanticEventId digest organizationId (FiscalOperation.id row) (EventKind.text eventKind)))))
        EventContractIncompatibleError ;;
      durable ← durablePayload organizationId row payload;
      checkSubscribers subscribers durable ;;
      _ ← onFiscalOutbox (enqueueIntegration (FiscalDraws.outboxId draws) (FiscalDraws.now draws)
        (IntegrationInput.mk organizationId (Some branchId) (EventKind.text kind) "FiscalInvoice" aggregateId (JObject durable) None));
      mret tt
  | _ => mthrow EventContractIncompatibleError
  end.

(* cloud-server index.ts:6255-6275 PostgresBillingService.replayFiscalEvent *)
Definition replayFiscalEvent (draws : FiscalDraws.t) (organizationId operationId : string) : FTx unit :=
  inFiscalTransaction (
    found ← gets (λ db, snd <$> list_find (λ r, isOperation organizationId operationId r ∧
      FiscalOperation.status r = FiscalOperationStatus.SUCCEEDED) (FiscalDb.operations db));
    op ← require found EventContractIncompatibleError;
    match FiscalOperation.eventPayload op with
    | Some (JObject payload) => enqueueFiscalEvent draws organizationId (FiscalOperation.branchId op)
        (EventKind.kindOf (FiscalOperation.operationType op)) (FiscalOperation.invoiceId op) payload
    | _ => mthrow EventContractIncompatibleError
    end).

Definition semanticId (organizationId opId : string) (kind : EventKind.t) : string :=
  generateFiscalSemanticEventId digest organizationId opId (EventKind.text kind).

(** the invoice after a transaction wrote it *)
Definition reread (organizationId invoiceId : string) : FTx FullInvoice :=
  full ← gets (getInvoiceInternal organizationId invoiceId);
  require full InvalidFiscalInvoiceError.

Definition optionalText (o : option string) : Json := match o with Some s => JString s | None => JUndefined end.

(** the status of a kill switch that is off, in the audit trail, without a client's time *)
(* cloud-server index.ts:5295-5327 PostgresBillingService.stampFiscalInvoice, kill switch *)
Definition rejectDisabled (draws : FiscalDraws.t) (organizationId invoiceId : string) : FTx unit :=
  onAudit (logAuditEvent digest (λ _, None) (FiscalDraws.auditDraws draws) (AuditEvent.mk organizationId None None None "SECURITY_ALERT"
    "FISCAL_STAMPING_REJECTED" "FiscalInvoice" (Some invoiceId) (Some "WARN") "CLOUD" None
    (Some (JObject [("reason", JString "FISCAL_STAMPING_DISABLED"); ("killSwitch", JString "OFF")])) None)) ;;
  mthrow FiscalStampingDisabledError.

(** [status = 'RECONCILIATION_REQUIRED'], in a transaction of its own *)
Definition markUnsettled (draws : FiscalDraws.t) (org opId : string) (retry : bool) : FTx unit :=
  inFiscalTransaction (updateOperation org opId (λ r, r
    <| FiscalOperation.status := FiscalOperationStatus.RECONCILIATION_REQUIRED |>
    <| FiscalOperation.nextRetryAt ::= (λ x, if retry then Some (FiscalDraws.now draws + 5000) else x) |>
    <| FiscalOperation.updatedAt := FiscalDraws.now draws |>)).

Definition markUncorrelated (org opId : string) : FTx unit :=
  inFiscalTransaction (updateOperation org opId (λ r, r <| FiscalOperation.status := FiscalOperationStatus.RECONCILIATION_REQUIRED |>)).

Definition markFailed (draws : FiscalDraws.t) (org opId : string) : FTx unit :=
  inFiscalTransaction (updateOperation org opId (λ r, r
    <| FiscalOperation.status := FiscalOperationStatus.FAILED_TERMINAL |> <| FiscalOperation.updatedAt := FiscalDraws.now draws |>)).

Definition failTerminal (draws : FiscalDraws.t) (org : string) (existingOp : FiscalOperation.t) : FTx unit :=
  updateOperation org (FiscalOperation.id existingOp) (λ r, r
    <| FiscalOperation.status := FiscalOperationStatus.FAILED_TERMINAL |> <| FiscalOperation.updatedAt := FiscalDraws.now draws |>).

(** ** Stamping *)

Section stamp.
Context (draws : FiscalDraws.t) (answers : PacAnswers.t) (command : StampCommand.t).
Abbreviation org := (StampCommand.organizationId command).
Abbreviation invoiceId := (StampCommand.invoiceId command).

Definition stampKey : string := default invoiceId (StampCommand.idempotencyKey command).

(* cloud-server index.ts:5025-5031 PostgresBillingService.stampFiscalInvoice, requestHash *)
Definition stampHash (invoice : FiscalInvoice.t) : string :=
  digest (invoiceId +:+ ":" +:+ FiscalInvoice.series invoice +:+ ":" +:+ FiscalInvoice.folio invoice +:+ ":" +:+
    columnText (FiscalInvoice.totalAmount invoice) +:+ ":" +:+ FiscalInvoice.customerTaxId invoice).

Definition stampCorrelation (opId requestHash : string) : FiscalResultCorrelation.t :=
  FiscalResultCorrelation.mk org invoiceId opId FiscalOperationType.STAMP stampKey requestHash.

(** the answer of a lookup as the result of a stamping *)
Definition asResult (reconciled : StampLookup.t) : PacStampResult.t :=
  PacStampResult.mk None (StampLookup.certifiedProviderRfc reconciled) PacStampStatus.STAMPED (StampLookup.uuid reconciled)
    (StampLookup.selloSat reconciled) (StampLookup.fechaTimbrado reconciled) (StampLookup.noCertificadoSat reconciled)
    (StampLookup.stampedXml reconciled) None None.

(** the lookup found the certificate of the submitted document *)
(* cloud-server index.ts:5144-5216 PostgresBillingService.stampFiscalInvoice, confirmed *)
Definition commitFoundStamp (existingOp : FiscalOperation.t) (invoice : FiscalInvoice.t) (reconciled : StampLookup.t) : FTx FullInvoice :=
  requestXml ← require (truthy (FiscalOperation.requestXml existingOp)) FiscalSuccessValidationError;
  lift (validateAuthoritativeStampResult (asResult reconciled) None (Some requestXml)) ;;
  let semanticEventId := semanticId org (FiscalOperation.id existingOp) EventKind.FacturaFiscalEmitida in
  updateOperation org (FiscalOperation.id existingOp) (λ r, r
    <| FiscalOperation.status := FiscalOperationStatus.SUCCEEDED |> <| FiscalOperation.externalUuid := StampLookup.uuid reconciled |>
    <| FiscalOperation.stampedXml := StampLookup.stampedXml reconciled |> <| FiscalOperation.semanticEventId := Some semanticEventId |>
    <| FiscalOperation.updatedAt := FiscalDraws.now draws |>) ;;
  updateInvoice org invoiceId (λ r, r
    <| FiscalInvoice.status := FiscalInvoiceStatus.STAMPED |> <| FiscalInvoice.invoiceUuid := StampLookup.uuid reconciled |>
    <| FiscalInvoice.selloSat := StampLookup.selloSat reconciled |>
    <| FiscalInvoice.stampedAt := Some (default (FiscalDraws.nowText draws) (StampLookup.fechaTimbrado reconciled)) |>
    <| FiscalInvoice.stampedXml := StampLookup.stampedXml reconciled |> <| FiscalInvoice.updatedAt := FiscalDraws.nowText draws |>) ;;
  enqueueFiscalEvent draws org (FiscalInvoice.branchId invoice) EventKind.FacturaFiscalEmitida invoiceId
    [ ("invoiceId", JString invoiceId); ("uuid", optionalText (StampLookup.uuid reconciled));
      ("totalAmount", JString (columnText (FiscalInvoice.totalAmount invoice))); ("series", JString (FiscalInvoice.series invoice));
      ("folio", JString (FiscalInvoice.folio invoice)); ("fechaTimbrado", optionalText (StampLookup.fechaTimbrado reconciled));
      ("pacProvider", JString (Connector.providerName connector)); ("semanticEventId", JString semanticEventId);
      ("eventContractVersion", JString FISCAL_EVENT_CONTRACT_VERSION) ] ;;
  reread org invoiceId.

(** what an operation without an answer needs before its document is sent again: [Some] when
    the lookup settles it, [None] when it may be sent *)
(* cloud-server index.ts:5097-5282 PostgresBillingService.stampFiscalInvoice, recovery *)
Definition recoverStamp (lookup : option StampLookup.t) (existingOp : FiscalOperation.t) (invoice : FiscalInvoice.t) : FTx (option FullInvoice) :=
  let caps := Connector.capabilities connector in
  let authorize capability condition :=
    authorizeCapability draws answers org FiscalOperationType.STAMP capability (Some condition) in
  if caps PacCapabilityName.supportsAuthoritativeStampLookup && Connector.hasStampLookup connector then
    authorize PacCapabilityName.supportsAuthoritativeStampLookup "RECONCILIATION_LOOKUP" ;;
    reconciled ← require lookup ReconciliationRequiredError;
    lift (validateFiscalEvidence (PacAnswers.evidence answers) (StampLookup.pacProvider reconciled) (StampLookup.correlation reconciled)
      (stampCorrelation (FiscalOperation.id existingOp) (FiscalOperation.requestHash existingOp))) ;;
    match StampLookup.outcome reconciled, truthy (StampLookup.uuid reconciled) with
    | StampOutcome.STAMPED_CONFIRMED, Some _ => full ← commitFoundStamp existingOp invoice reconciled; mret (Some full)
    | StampOutcome.STAMPED_CONFIRMED, None => mret None
    | StampOutcome.REJECTED_CONFIRMED, _ => failTerminal draws org existingOp ;; mthrow InvalidFiscalInvoiceError
    | StampOutcome.NOT_FOUND_CONFIRMED, _ =>
        throw_when (negb (caps PacCapabilityName.supportsSafeStampReplayAfterConfirmedNotFound)) ReconciliationRequiredError ;;
        authorize PacCapabilityName.supportsSafeStampReplayAfterConfirmedNotFound "NOT_FOUND_REPLAY" ;;
        mret None
    | _, _ => mthrow ReconciliationRequiredError
    end
  else if caps PacCapabilityName.supportsStampIdempotencyKey then
    authorize PacCapabilityName.supportsStampIdempotencyKey "IDEMPOTENT_RETRY" ;; mret None
  else mthrow ReconciliationRequiredError.

(** an operation of the key exists: it is settled, or marked IN_FLIGHT once more *)
(* cloud-server index.ts:5056-5293 PostgresBillingService.stampFiscalInvoice, existingOp *)
Definition resumeStamp (lookup : option StampLookup.t) (existingOp : FiscalOperation.t) (invoice : FiscalInvoice.t) : FTx (FullInvoice + string) :=
  throw_when (negb (bool_decide (FiscalOperation.requestHash existingOp = stampHash invoice))) InvoiceIdempotencyConflictError ;;
  match FiscalOperation.status existingOp, truthy (FiscalOperation.externalUuid existingOp) with
  | FiscalOperationStatus.SUCCEEDED, Some uuid =>
      updateInvoice org invoiceId (λ r, r
        <| FiscalInvoice.status := FiscalInvoiceStatus.STAMPED |> <| FiscalInvoice.invoiceUuid := Some uuid |>
        <| FiscalInvoice.stampedXml ::= (λ x, match x with Some _ => x | None => FiscalOperation.stampedXml existingOp end) |>
        <| FiscalInvoice.stampedAt ::= (λ x, Some (default (FiscalDraws.nowText draws) x)) |>
        <| FiscalInvoice.updatedAt := FiscalDraws.nowText draws |>) ;;
      full ← reread org invoiceId; mret (inl full)
  | FiscalOperationStatus.FAILED_TERMINAL, _ => mthrow InvalidFiscalInvoiceError
  | status, _ =>
      settled ← (if bool_decide (status ∈ [FiscalOperationStatus.RECONCILIATION_REQUIRED; FiscalOperationStatus.IN_FLIGHT])
                 then recoverStamp lookup existingOp invoice else mret None);
      match settled with
      | Some full => mret (inl full)
      | None =>
          updateOperation org (FiscalOperation.id existingOp) (λ r, r
            <| FiscalOperation.status := FiscalOperationStatus.IN_FLIGHT |> <| FiscalOperation.attemptCount ::= Z.add 1 |>
            <| FiscalOperation.updatedAt := FiscalDraws.now draws |>) ;;
          mret (inr (FiscalOperation.id existingOp))
      end
  end.

(* cloud-server index.ts:5295-5342 PostgresBillingService.stampFiscalInvoice, new operation *)
Definition openStamp (invoice : FiscalInvoice.t) : FTx string :=
  (if BillingService.isFiscalStampingEnabled service then mret tt else rejectDisabled draws org invoiceId) ;;
  insertOperation (FiscalOperation.mk (FiscalDraws.operationId draws) org (FiscalInvoice.branchId invoice) invoiceId FiscalOperationType.STAMP
    stampKey (stampHash invoice) FiscalOperationStatus.IN_FLIGHT 1 None None None None None None None None None None (FiscalDraws.now draws)) ;;
  mret (FiscalDraws.operationId draws).

(** /^-----BEGIN CERTIFICATE-----[\s\S]*-----END CERTIFICATE-----\s*$/ without a private key *)
(* cloud-server index.ts:5390-5396 PostgresBillingService.stampFiscalInvoice, certificatePem *)
Definition isCertificatePem (pem : string) : bool :=
  let header := "-----BEGIN CERTIFICATE-----" in
  let footer := "-----END CERTIFICATE-----" in
  String.prefix header pem && endsWith footer (trim_end pem) &&
  (String.length header + String.length footer <=? String.length (trim_end pem))%nat && negb (occurs "PRIVATE KEY" pem).

(** the signed document *)
(* cloud-server index.ts:5363-5433 PostgresBillingService.stampFiscalInvoice, signing *)
Definition signInvoice (vault : VaultAnswer.t) (invoice : FiscalInvoice.t) (items : list FiscalInvoiceItem.t) (emisor : EmisorFiscal.t) :
    FR (string * string * string) :=
  match truthy (EmisorFiscal.privateKeyVaultId emisor), truthy (VaultAnswer.privateKeyPem vault), truthy (VaultAnswer.certificatePem vault) with
  | Some _, Some privateKeyPem, Some certificatePem =>
      if negb (isCertificatePem certificatePem) then Err CsdCredentialsMissingError else
      result_bind (match EmisorFiscal.certificateNumber emisor with
        | Some n => if blank n then extractCertNumberFromPem (FiscalHost.csd host) certificatePem else Ok n
        | None => extractCertNumberFromPem (FiscalHost.csd host) certificatePem
        end) (λ noCertificado,
      result_bind (validateCsdKeyPairMatch (FiscalHost.csd host) certificatePem privateKeyPem) (λ _,
      result_bind (cleanCertificateToSingleLineBase64 certificatePem) (λ certificadoBase64,
      let cadenaOriginal := buildCadenaOriginal40 invoice items emisor in
      result_map (λ sello, (generateCfdi40Xml invoice items emisor sello noCertificado certificadoBase64, sello, cadenaOriginal))
        (signCadenaOriginal (FiscalHost.csd host) cadenaOriginal privateKeyPem))))
  | _, _, _ => Err CsdCredentialsMissingError
  end.

(** the document of an operation is that of its first submission *)
(* cloud-server index.ts:5344-5454 PostgresBillingService.stampFiscalInvoice, document *)
Definition pinDocument (vault : VaultAnswer.t) (invoice : FiscalInvoice.t) (opId : string) : FTx Submission.t :=
  items ← gets (itemsOf org invoiceId);
  found ← gets (findEmisor org);
  emisor ← require found InvalidEmisorConfigError;
  signed ← lift (signInvoice vault invoice items emisor);
  let '(cfdiXml, selloEmisor, cadenaOriginal) := (signed : string * string * string) in
  updateOperation org opId (λ r, r <| FiscalOperation.requestXml ::= (λ x, Some (default cfdiXml x)) |>) ;;
  pinned ← gets (λ db, snd <$> list_find (isOperation org opId) (FiscalDb.operations db));
  throw_when (negb (bool_decide ((pinned ≫= FiscalOperation.requestXml) = Some cfdiXml))) ReconciliationRequiredError ;;
  mret (Submission.mk opId invoice cfdiXml (stampHash invoice) selloEmisor cadenaOriginal emisor stampKey).

(* cloud-server index.ts:4996-5456 PostgresBillingService.stampFiscalInvoice, phase 1 *)
Definition prepareStamp (vault : VaultAnswer.t) (lookup : option StampLookup.t) : FTx (FullInvoice + Submission.t) :=
  inFiscalTransaction (
    found ← gets (findInvoice org invoiceId);
    invoice ← require found InvalidFiscalInvoiceError;
    if bool_decide (FiscalInvoice.status invoice = FiscalInvoiceStatus.STAMPED) then full ← reread org invoiceId; mret (inl full) else
    lift (validateCanStamp (FiscalInvoice.status invoice)) ;;
    existing ← gets (findOperation org stampKey);
    opened ← match existing with
      | Some existingOp => resumeStamp lookup existingOp invoice
      | None => opId ← openStamp invoice; mret (inr opId)
      end;
    match opened with
    | inl full => mret (inl full)
    | inr opId => submission ← pinDocument vault invoice opId; mret (inr submission)
    end).

Definition stampRequest (submission : Submission.t) : PacStampRequest.t :=
  PacStampRequest.mk (stampCorrelation (Submission.opId submission) (Submission.requestHash submission)) (Submission.cfdiXml submission).

(** the document goes to the PAC when the capability to stamp is authorised; the operation
    stays IN_FLIGHT when it is not *)
(* cloud-server index.ts:4993-5491 PostgresBillingService.stampFiscalInvoice *)
Definition beginStamp (vault : VaultAnswer.t) (lookup : option StampLookup.t) : FTx (FullInvoice + Submission.t) :=
  prepared ← prepareStamp vault lookup;
  match prepared with
  | inl full => mret (inl full)
  | inr submission =>
      authorizeCapability draws answers org FiscalOperationType.STAMP PacCapabilityName.supportsStamp None ;;
      mret (inr submission)
  end.

(* cloud-server index.ts:5593-5682 PostgresBillingService.stampFiscalInvoice, commit *)
Definition commitStamp (submission : Submission.t) (stampResult : PacStampResult.t) : FTx FullInvoice :=
  let invoice := Submission.invoice submission in
  let cadenaHash := digest (Submission.cadenaOriginal submission) in
  let pacProviderName := default (Connector.providerName connector) (PacStampResult.pacProvider stampResult) in
  let stampedXml := match PacStampResult.stampedXml stampResult with Some x => Some x | None => PacStampResult.xmlTimbrado stampResult end in
  let semanticEventId := semanticId org (Submission.opId submission) EventKind.FacturaFiscalEmitida in
  inFiscalTransaction (
    updateOperation org (Submission.opId submission) (λ r, r
      <| FiscalOperation.status := FiscalOperationStatus.SUCCEEDED |> <| FiscalOperation.externalUuid := PacStampResult.uuid stampResult |>
      <| FiscalOperation.stampedXml := stampedXml |> <| FiscalOperation.providerName := Some pacProviderName |>
      <| FiscalOperation.semanticEventId := Some semanticEventId |> <| FiscalOperation.updatedAt := FiscalDraws.now draws |>) ;;
    updateInvoice org invoiceId (λ r, r
      <| FiscalInvoice.status := FiscalInvoiceStatus.STAMPED |> <| FiscalInvoice.invoiceUuid := PacStampResult.uuid stampResult |>
      <| FiscalInvoice.selloSat := PacStampResult.selloSat stampResult |>
      <| FiscalInvoice.stampedAt := Some (default (FiscalDraws.nowText draws) (PacStampResult.fechaTimbrado stampResult)) |>
      <| FiscalInvoice.xmlPayload := Some (Submission.cfdiXml submission) |> <| FiscalInvoice.stampedXml := stampedXml |>
      <| FiscalInvoice.selloEmisor := Some (Submission.selloEmisor submission) |> <| FiscalInvoice.cadenaOriginalHash := Some cadenaHash |>
      <| FiscalInvoice.pacRequestReferenceId := Some invoiceId |> <| FiscalInvoice.updatedAt := FiscalDraws.nowText draws |>) ;;
    enqueueFiscalEvent draws org (FiscalInvoice.branchId invoice) EventKind.FacturaFiscalEmitida invoiceId
      [ ("eventContractVersion", JString FISCAL_EVENT_CONTRACT_VERSION); ("invoiceId", JString invoiceId);
        ("uuid", optionalText (PacStampResult.uuid stampResult)); ("rfcEmisor", JString (EmisorFiscal.rfc (Submission.emisor submission)));
        ("rfcReceptor", JString (FiscalInvoice.customerTaxId invoice));
        ("totalAmount", JString (columnText (FiscalInvoice.totalAmount invoice))); ("series", JString (FiscalInvoice.series invoice));
        ("folio", JString (FiscalInvoice.folio invoice)); ("fechaTimbrado", optionalText (PacStampResult.fechaTimbrado stampResult));
        ("pacProvider", JString pacProviderName); ("semanticEventId", JString semanticEventId) ] ;;
    reread org invoiceId).

(** [None] for a call to the PAC that throws *)
(* cloud-server index.ts:5471-5683 PostgresBillingService.stampFiscalInvoice, answer *)
Definition finishStamp (submission : Submission.t) (answer : option PacStampResult.t) : FTx FullInvoice :=
  let opId := Submission.opId submission in
  match answer with
  | None => markUnsettled draws org opId true ;; mthrow PacTimeoutError
  | Some stampResult =>
      let evidence seen := validateFiscalEvidence seen (PacStampResult.pacProvider stampResult) (PacStampResult.correlation stampResult)
        (stampCorrelation opId (Submission.requestHash submission)) in
      match evidence (PacAnswers.evidence answers), PacStampResult.status stampResult with
      | Err _, _ => markUncorrelated org opId ;; mthrow FiscalSuccessValidationError
      | Ok _, PacStampStatus.TIMEOUT => markUnsettled draws org opId true ;; mthrow PacTimeoutError
      | Ok _, PacStampStatus.REJECTED => markFailed draws org opId ;; mthrow InvalidFiscalInvoiceError
      | Ok _, PacStampStatus.STAMPED =>
          match result_bind (evidence (PacAnswers.laterEvidence answers)) (λ _,
              validateAuthoritativeStampResult stampResult None (Some (Submission.cfdiXml submission))) with
          | Err _ => markUnsettled draws org opId false ;; mthrow FiscalSuccessValidationError
          | Ok _ => commitStamp submission stampResult
          end
      end
  end.
End stamp.

(** ** Cancelling *)

Section cancel.
Context (draws : FiscalDraws.t) (answers : PacAnswers.t) (command : CancelCommand.t).
Abbreviation org := (CancelCommand.organizationId command).
Abbreviation invoiceId := (CancelCommand.invoiceId command).
Abbreviation motivo := (CancelCommand.motivo command).
Abbreviation uuidSustitucion := (CancelCommand.uuidSustitucion command).

Definition cancelKey : string := default (invoiceId +:+ ":cancel") (CancelCommand.idempotencyKey command).

(* cloud-server index.ts:5731-5737 PostgresBillingService.cancelFiscalInvoice, requestHash *)
Definition cancelHash (targetUuid : string) : string :=
  digest (invoiceId +:+ ":" +:+ targetUuid +:+ ":" +:+ motivo +:+ ":" +:+ default "" uuidSustitucion).

Definition cancelCorrelation (opId requestHash : string) : FiscalResultCorrelation.t :=
  FiscalResultCorrelation.mk org invoiceId opId FiscalOperationType.CANCEL cancelKey requestHash.

Definition cancelled (cancelledAt : option string → option string) (r : FiscalInvoice.t) : FiscalInvoice.t :=
  r <| FiscalInvoice.status := FiscalInvoiceStatus.CANCELLED |> <| FiscalInvoice.cancellationReason := Some motivo |>
    <| FiscalInvoice.cancellationReplacementUuid := uuidSustitucion |> <| FiscalInvoice.cancelledAt ::= cancelledAt |>
    <| FiscalInvoice.updatedAt := FiscalDraws.nowText draws |>.

(** the operation succeeded, the invoice is CANCELLED, the event is on its way *)
(* cloud-server index.ts:6194-6251 PostgresBillingService.cancelFiscalInvoice, commit *)
Definition commitCancel (opId targetUuid : string) (invoice : FiscalInvoice.t) : FTx FullInvoice :=
  let semanticEventId := semanticId org opId EventKind.FacturaFiscalCancelada in
  updateOperation org opId (λ r, r
    <| FiscalOperation.status := FiscalOperationStatus.SUCCEEDED |> <| FiscalOperation.semanticEventId := Some semanticEventId |>
    <| FiscalOperation.updatedAt := FiscalDraws.now draws |>) ;;
  updateInvoice org invoiceId (cancelled (λ _, Some (FiscalDraws.nowText draws))) ;;
  enqueueFiscalEvent draws org (FiscalInvoice.branchId invoice) EventKind.FacturaFiscalCancelada invoiceId
    [ ("eventContractVersion", JString FISCAL_EVENT_CONTRACT_VERSION); ("invoiceId", JString invoiceId); ("uuid", JString targetUuid);
      ("cancellationReason", JString motivo);
      ("cancellationReplacementUuid", match uuidSustitucion with Some u => JString u | None => JNull end);
      ("cancelledAt", JString (FiscalDraws.nowText draws)); ("semanticEventId", JString semanticEventId) ] ;;
  reread org invoiceId.

(* cloud-server index.ts:5799-5975 PostgresBillingService.cancelFiscalInvoice, recovery *)
Definition recoverCancel (lookup : option CancelLookup.t) (existingOp : FiscalOperation.t) (invoice : FiscalInvoice.t) (targetUuid : string) :
    FTx (option FullInvoice) :=
  let caps := Connector.capabilities connector in
  let authorize capability condition :=
    authorizeCapability draws answers org FiscalOperationType.CANCEL capability (Some condition) in
  if caps PacCapabilityName.supportsAuthoritativeCancellationLookup && Connector.hasCancelLookup connector then
    authorize PacCapabilityName.supportsAuthoritativeCancellationLookup "RECONCILIATION_LOOKUP" ;;
    reconciled ← require lookup ReconciliationRequiredError;
    lift (validateFiscalEvidence (PacAnswers.evidence answers) (CancelLookup.pacProvider reconciled) (CancelLookup.correlation reconciled)
      (cancelCorrelation (FiscalOperation.id existingOp) (FiscalOperation.requestHash existingOp))) ;;
    match CancelLookup.outcome reconciled with
    | CancelOutcome.CANCELLATION_CONFIRMED =>
        lift (validateAuthoritativeCancellationResult PacCancelStatus.CANCELLED (CancelLookup.uuid reconciled) targetUuid) ;;
        full ← commitCancel (FiscalOperation.id existingOp) targetUuid invoice; mret (Some full)
    | CancelOutcome.PENDING_APPROVAL => mthrow CancellationPendingApprovalError
    | CancelOutcome.REJECTED_CONFIRMED => failTerminal draws org existingOp ;; mthrow InvalidFiscalInvoiceError
    | CancelOutcome.NOT_FOUND_CONFIRMED =>
        throw_when (negb (caps PacCapabilityName.supportsSafeCancellationReplayAfterConfirmedNotFound)) ReconciliationRequiredError ;;
        authorize PacCapabilityName.supportsSafeCancellationReplayAfterConfirmedNotFound "NOT_FOUND_REPLAY" ;;
        mret None
    | CancelOutcome.UNKNOWN => mthrow ReconciliationRequiredError
    end
  else if caps PacCapabilityName.supportsCancellationIdempotencyKey then
    authorize PacCapabilityName.supportsCancellationIdempotencyKey "IDEMPOTENT_RETRY" ;; mret None
  else mthrow ReconciliationRequiredError.

(* cloud-server index.ts:5759-5984 PostgresBillingService.cancelFiscalInvoice, existingOp *)
Definition resumeCancel (lookup : option CancelLookup.t) (existingOp : FiscalOperation.t) (invoice : FiscalInvoice.t) (targetUuid : string) :
    FTx (FullInvoice + string) :=
  throw_when (negb (bool_decide (FiscalOperation.requestHash existingOp = cancelHash targetUuid))) InvoiceIdempotencyConflictError ;;
  match FiscalOperation.status existingOp with
  | FiscalOperationStatus.SUCCEEDED =>
      updateInvoice org invoiceId (cancelled (λ x, Some (default (FiscalDraws.nowText draws) x))) ;;
      full ← reread org invoiceId; mret (inl full)
  | FiscalOperationStatus.FAILED_TERMINAL => mthrow InvalidFiscalInvoiceError
  | status =>
      settled ← (if bool_decide (status ∈ [FiscalOperationStatus.RECONCILIATION_REQUIRED; FiscalOperationStatus.IN_FLIGHT])
                 then recoverCancel lookup existingOp invoice targetUuid else mret None);
      match settled with
      | Some full => mret (inl full)
      | None =>
          updateOperation org (FiscalOperation.id existingOp) (λ r, r
            <| FiscalOperation.status := FiscalOperationStatus.IN_FLIGHT |> <| FiscalOperation.attemptCount ::= Z.add 1 |>
            <| FiscalOperation.updatedAt := FiscalDraws.now draws |>) ;;
          mret (inr (FiscalOperation.id existingOp))
      end
  end.

(* cloud-server index.ts:5985-6034 PostgresBillingService.cancelFiscalInvoice, new operation *)
Definition openCancel (invoice : FiscalInvoice.t) (targetUuid : string) : FTx string :=
  (if BillingService.isFiscalStampingEnabled service then mret tt else rejectDisabled draws org invoiceId) ;;
  insertOperation (FiscalOperation.mk (FiscalDraws.operationId draws) org (FiscalInvoice.branchId invoice) invoiceId FiscalOperationType.CANCEL
    cancelKey (cancelHash targetUuid) FiscalOperationStatus.IN_FLIGHT 1 None (Some targetUuid) None None None None None None None None
    (FiscalDraws.now draws)) ;;
  mret (FiscalDraws.operationId draws).

(* cloud-server index.ts:5685-6057 PostgresBillingService.cancelFiscalInvoice, phase 1 *)
Definition prepareCancel (lookup : option CancelLookup.t) : FTx (FullInvoice + CancelSubmission.t) :=
  throw_when (bool_decide (motivo = "")) InvalidFiscalInvoiceError ;;
  throw_when (bool_decide (motivo = "01") && negb (bool_decide (is_Some (truthy uuidSustitucion)))) InvalidFiscalInvoiceError ;;
  inFiscalTransaction (
    found ← gets (findInvoice org invoiceId);
    invoice ← require found InvalidFiscalInvoiceError;
    if bool_decide (FiscalInvoice.status invoice = FiscalInvoiceStatus.CANCELLED) then full ← reread org invoiceId; mret (inl full) else
    lift (validateCanCancel (FiscalInvoice.status invoice)) ;;
    targetUuid ← require (truthy (FiscalInvoice.invoiceUuid invoice)) InvalidFiscalInvoiceError;
    existing ← gets (findOperation org cancelKey);
    opened ← match existing with
      | Some existingOp => resumeCancel lookup existingOp invoice targetUuid
      | None => opId ← openCancel invoice targetUuid; mret (inr opId)
      end;
    match opened with
    | inl full => mret (inl full)
    | inr opId =>
        emisor ← gets (findEmisor org);
        mret (inr (CancelSubmission.mk opId targetUuid (cancelHash targetUuid) invoice
          (match emisor with Some e => EmisorFiscal.rfc e | None => "XAXX010101000" end) cancelKey))
    end).

Definition cancelRequest (submission : CancelSubmission.t) : PacCancelRequest.t :=
  PacCancelRequest.mk (cancelCorrelation (CancelSubmission.opId submission) (CancelSubmission.requestHash submission))
    (CancelSubmission.targetUuid submission) (CancelSubmission.emisorRfc submission)
    (FiscalInvoice.totalAmount (CancelSubmission.invoice submission)) motivo uuidSustitucion.

(* cloud-server index.ts:5685-6087 PostgresBillingService.cancelFiscalInvoice *)
Definition beginCancel (lookup : option CancelLookup.t) : FTx (FullInvoice + CancelSubmission.t) :=
  prepared ← prepareCancel lookup;
  match prepared with
  | inl full => mret (inl full)
  | inr submission =>
      authorizeCapability draws answers org FiscalOperationType.CANCEL PacCapabilityName.supportsCancel None ;;
      mret (inr submission)
  end.

(** the receiver of the invoice has to approve: the operation is READY again *)
(* cloud-server index.ts:6127-6148 PostgresBillingService.cancelFiscalInvoice, pending *)
Definition markPending (opId : string) : FTx unit :=
  inFiscalTransaction (updateOperation org opId (λ r, r
    <| FiscalOperation.status := FiscalOperationStatus.READY |> <| FiscalOperation.reconciliationStatus := Some "PENDING_APPROVAL" |>
    <| FiscalOperation.updatedAt := FiscalDraws.now draws |>)).

(* cloud-server index.ts:6066-6252 PostgresBillingService.cancelFiscalInvoice, answer *)
Definition finishCancel (submission : CancelSubmission.t) (answer : option PacCancelResult.t) : FTx FullInvoice :=
  let opId := CancelSubmission.opId submission in
  let targetUuid := CancelSubmission.targetUuid submission in
  match answer with
  | None => markUnsettled draws org opId true ;; mthrow PacTimeoutError
  | Some cancelResult =>
      let evidence seen := validateFiscalEvidence seen (PacCancelResult.pacProvider cancelResult) (PacCancelResult.correlation cancelResult)
        (cancelCorrelation opId (CancelSubmission.requestHash submission)) in
      match evidence (PacAnswers.evidence answers), PacCancelResult.status cancelResult with
      | Err _, _ => markUncorrelated org opId ;; mthrow FiscalSuccessValidationError
      | Ok _, PacCancelStatus.PENDING_APPROVAL => markPending opId ;; mthrow CancellationPendingApprovalError
      | Ok _, PacCancelStatus.REJECTED => markFailed draws org opId ;; mthrow InvalidFiscalInvoiceError
      | Ok _, status =>
          match result_bind (evidence (PacAnswers.laterEvidence answers)) (λ _,
              validateAuthoritativeCancellationResult status (PacCancelResult.uuid cancelResult) targetUuid) with
          | Err _ => markUnsettled draws org opId false ;; mthrow FiscalSuccessValidationError
          | Ok _ => inFiscalTransaction (commitCancel opId targetUuid (CancelSubmission.invoice submission))
          end
      end
  end.
End cancel.
End service.

(** ** Transactions *)

Lemma fiscal_transaction_ok {A} (m : FTx A) db db' a : inFiscalTransaction m db = (db', Ok a) → m db = (db', Ok a).
Proof. unfold inFiscalTransaction. destruct (m db) as [? [?|?]]; naive_solver. Qed.

Lemma fiscal_transaction_err {A} (m : FTx A) db db' e : inFiscalTransaction m db = (db', Err e) →
  ∃ db1, m db = (db1, Err e) ∧ db' = db <| FiscalDb.audit := FiscalDb.audit db1 |>.
Proof. unfold inFiscalTransaction. destruct (m db) as [? [?|?]]; naive_solver. Qed.

Lemma reread_ok organizationId invoiceId db db' full :
  reread organizationId invoiceId db = (db', Ok full) → db' = db ∧ getInvoiceInternal organizationId invoiceId db = Some full.
Proof. unfold reread. rewrite bind_gets. unfold require. destruct (getInvoiceInternal organizationId invoiceId db); [|done]. by intros [= <- <-]. Qed.
