(* ===== verification/Drafts.v ===== *)
(** Before stamping: the configuration of the issuer and the draft of an invoice
    (PostgresBillingService of cloud-server/src/index.ts).

    The totals of a draft are added with JavaScript numbers ([Doubles]); the items are computed
    with exact decimals. *)
From S2P Require Import Prelude Decimals Money Scale4 Json AuditTrail Ingestion Doubles FiscalTypes Cfdi Tfd Invoicing.
From Stdlib Require Import Ascii String.

Module ConfigureEmisor.
(* billing types.ts:399-418 ConfigureEmisorFiscalCommand *)
Record t := mk {
  id : option string; organizationId : string; rfc : string; razonSocial : string; regimenFiscal : string; codigoPostal : string; curp : option string;
  certificateNumber : option string; certificadoSatNumber : option string; privateKeyVaultId : option string;
  pacEnvironment : option string; pacSecretRef : option string; pacPrimaryProvider : option string; pacFallbackProvider : option string;
  isActive : option bool;
  (** certificatePem, certificadoPem, pacUsername or any other key is there *)
  otherKeys : bool }.
End ConfigureEmisor.

(** [/password\s*[:=]/] at the start *)
Fixpoint separatorNext (s : string) : bool :=
  match s with
  | EmptyString => false
  | String c s' => if is_js_space c then separatorNext s' else bool_decide (c ∈ [":"; "="]%char)
  end.
Fixpoint namesPassword (s : string) : bool :=
  String.prefix "password" s && separatorNext (String.substring 8 (String.length s) s) ||
  match s with EmptyString => false | String _ s' => namesPassword s' end.

(* cloud-server index.ts:4742-4749 PostgresBillingService.configureEmisorFiscal, secrets *)
Definition holdsSecret (value : string) : bool :=
  let l := lower value in occurs "-----begin" l || occurs "private key" l || namesPassword l.

Definition isAlphanumeric (c : ascii) : bool := is_digit c || isLetter c.
(** /^[A-Za-z0-9][A-Za-z0-9_./:-]{0,254}$/ *)
(* cloud-server index.ts:4753-4757 PostgresBillingService.configureEmisorFiscal, references *)
Definition isVaultReference (ref : string) : bool :=
  match ref with
  | EmptyString => false
  | String c rest => isAlphanumeric c && (String.length rest <=? 254)%nat &&
      allString (λ d, isAlphanumeric d || bool_decide (d ∈ ["_"; "."; "/"; ":"; "-"]%char)) rest
  end.

Definition stringValues (command : ConfigureEmisor.t) : list string :=
  [ ConfigureEmisor.organizationId command; ConfigureEmisor.rfc command; ConfigureEmisor.razonSocial command;
    ConfigureEmisor.regimenFiscal command; ConfigureEmisor.codigoPostal command ] ++
  omap id [ ConfigureEmisor.id command; ConfigureEmisor.curp command; ConfigureEmisor.certificateNumber command; ConfigureEmisor.certificadoSatNumber command;
    ConfigureEmisor.privateKeyVaultId command; ConfigureEmisor.pacEnvironment command; ConfigureEmisor.pacSecretRef command;
    ConfigureEmisor.pacPrimaryProvider command; ConfigureEmisor.pacFallbackProvider command ].

(* cloud-server index.ts:4721-4817 PostgresBillingService.configureEmisorFiscal *)
Definition configureEmisorFiscal (command : ConfigureEmisor.t) : FTx EmisorFiscal.t :=
  throw_when (ConfigureEmisor.otherKeys command) InvalidEmisorConfigError ;;
  throw_when (existsb holdsSecret (stringValues command)) InvalidEmisorConfigError ;;
  throw_when (match truthy (ConfigureEmisor.certificateNumber command) with Some n => negb (digitsOnly 20 n) | None => false end)
    InvalidEmisorConfigError ;;
  throw_when (existsb (λ ref, negb (isVaultReference ref))
    (omap id [ConfigureEmisor.privateKeyVaultId command; ConfigureEmisor.pacSecretRef command])) InvalidEmisorConfigError ;;
  lift (assertValidRfc (ConfigureEmisor.rfc command)) ;;
  lift (assertValidRegimenFiscal (ConfigureEmisor.regimenFiscal command)) ;;
  lift (assertValidPostalCode (ConfigureEmisor.codigoPostal command)) ;;
  throw_when (blank (ConfigureEmisor.razonSocial command)) InvalidEmisorConfigError ;;
  let org := ConfigureEmisor.organizationId command in
  let row := EmisorFiscal.mk org (latinUpperCase (trim (ConfigureEmisor.rfc command))) (trim (ConfigureEmisor.razonSocial command))
    (trim (ConfigureEmisor.regimenFiscal command)) (trim (ConfigureEmisor.codigoPostal command))
    (match ConfigureEmisor.certificateNumber command with Some n => Some n | None => ConfigureEmisor.certificadoSatNumber command end)
    (ConfigureEmisor.privateKeyVaultId command) (default true (ConfigureEmisor.isActive command)) in
  inFiscalTransaction (
    throw_when (negb (fits 255 (EmisorFiscal.razonSocial row) && fitsColumn 50 (EmisorFiscal.certificateNumber row))) (FiscalPg "value too long") ;;
    modify (λ db, db <| FiscalDb.emisor_fiscal_config ::= λ rows,
      filter (λ r, EmisorFiscal.organizationId r ≠ org) rows ++ [row] |>) ;;
    mret row).

Module DraftItem.
(* billing types.ts:420-432 CreateDraftInvoiceItemInput *)
Record t := mk {
  id : option string; lineNumber : option Z; productCode : option string; sku : option string; description : string;
  claveProdServ : string; claveUnidad : string; quantity : string; unitPrice : string; taxSchemeId : option string }.
End DraftItem.

Module CreateDraft.
(* billing types.ts:434-452 CreateDraftInvoiceCommand *)
Record t := mk {
  id : option string; organizationId : string; branchId : string; serie : option string; folio : option string; receptorRfc : string;
  receptorNombre : string; receptorRegimenFiscal : string; receptorCodigoPostal : string; receptorUsoCfdi : string;
  formaPago : option string; metodoPago : option string; items : list DraftItem.t }.
End CreateDraft.

Module DraftDraws.
(** the identifiers and the clock of one draft; items are numbered from 0 *)
Record t := mk { invoiceId : string; itemId : nat → string; nowMs : Z; nowText : string }.
End DraftDraws.

(** [(parseFloat(a) + parseFloat(b)).toFixed(4)], as ten-thousandths *)
Definition addFloat4 (a b : Z) : Z :=
  let x := plusDouble (parseFloat4 a) (parseFloat4 b) in
  if Double.mantissa x <? 0 then - fixedDigits 4 (Double.mk (- Double.mantissa x) (Double.exponent x)) else fixedDigits 4 x.

(** the text of a computed amount in a DECIMAL(12,4) column *)
Definition amountColumn (text : string) : FR Z :=
  match decimalStringToScaledBigInt text with Ok n => Ok n | Err _ => Err (FiscalPg "numeric field overflow") end.

Module DraftTotals.
Record t := mk { subtotal : Z; tax : Z; total : Z }.
End DraftTotals.

(** a computed line, and the totals with it *)
(* cloud-server index.ts:4886-4912 PostgresBillingService.createDraftInvoice, item *)
Definition draftItem (draws : DraftDraws.t) (schemes : list TaxScheme.t) (command : CreateDraft.t) (invoiceId : string) (i : nat)
    (itemInput : DraftItem.t) (totals : DraftTotals.t) : FR (FiscalInvoiceItem.t * DraftTotals.t) :=
  let scheme := DraftItem.taxSchemeId itemInput ≫= (λ id, snd <$> list_find (λ s, TaxScheme.id s = id) schemes) in
  result_bind (calculateItemTaxes (DraftItem.unitPrice itemInput) (DraftItem.quantity itemInput) (option_list scheme)) (λ calc,
  result_bind (amountColumn (ItemTaxCalculation.subtotal calc)) (λ subtotal,
  result_bind (amountColumn (ItemTaxCalculation.taxAmount calc)) (λ taxAmount,
  result_bind (amountColumn (ItemTaxCalculation.totalAmount calc)) (λ totalAmount,
  result_bind (amountColumn (DraftItem.quantity itemInput)) (λ quantity,
  result_map (λ unitPrice,
    (FiscalInvoiceItem.mk (default (DraftDraws.itemId draws i) (DraftItem.id itemInput)) (CreateDraft.organizationId command) invoiceId
       (default (Z.of_nat i + 1) (DraftItem.lineNumber itemInput))
       (match DraftItem.sku itemInput with Some s => s | None => default "ITEM" (DraftItem.productCode itemInput) end)
       (DraftItem.description itemInput) (DraftItem.claveProdServ itemInput) (DraftItem.claveUnidad itemInput) quantity unitPrice subtotal
       taxAmount totalAmount (match scheme with Some s => TaxScheme.rate s | None => 0 end),
     DraftTotals.mk (addFloat4 (DraftTotals.subtotal totals) subtotal) (addFloat4 (DraftTotals.tax totals) taxAmount)
       (addFloat4 (DraftTotals.total totals) totalAmount)))
    (amountColumn (DraftItem.unitPrice itemInput))))))).

(* cloud-server index.ts:4885-4913 PostgresBillingService.createDraftInvoice, items *)
Fixpoint draftItems (draws : DraftDraws.t) (schemes : list TaxScheme.t) (command : CreateDraft.t) (invoiceId : string) (i : nat)
    (items : list DraftItem.t) (totals : DraftTotals.t) : FR (list FiscalInvoiceItem.t * DraftTotals.t) :=
  match items with
  | [] => Ok ([], totals)
  | item :: rest =>
      result_bind (draftItem draws schemes command invoiceId i item totals) (λ '(row, totals'),
        result_map (λ '(rows, final), (row :: rows, final)) (draftItems draws schemes command invoiceId (S i) rest totals'))
  end.

(** INSERT INTO fiscal_invoices with its keys and checks *)
(* 20260905030000_billing_fiscal_invoicing.sql:59-94 fiscal_invoices *)
Definition insertInvoice (row : FiscalInvoice.t) : FTx unit :=
  rows ← gets FiscalDb.fiscal_invoices;
  throw_when (negb (fits 20 (FiscalInvoice.series row) && fits 50 (FiscalInvoice.folio row) && fits 255 (FiscalInvoice.customerName row) &&
    fits 10 (FiscalInvoice.cfdiUse row) && fits 10 (FiscalInvoice.paymentMethod row) && fits 10 (FiscalInvoice.paymentWay row)))
    (FiscalPg "value too long") ;;
  throw_when (negb (isValidScale4Range (FiscalInvoice.subtotal row) && isValidScale4Range (FiscalInvoice.taxTotal row) &&
    isValidScale4Range (FiscalInvoice.totalAmount row))) (FiscalPg "numeric field overflow") ;;
  throw_when ((FiscalInvoice.subtotal row <? 0) || (FiscalInvoice.taxTotal row <? 0) || (FiscalInvoice.totalAmount row <? 0))
    (FiscalPg "chk_fiscal_invoices_total") ;;
  throw_when (bool_decide (FiscalInvoice.id row ∈ (FiscalInvoice.id <$> rows))) (FiscalPg "fiscal_invoices_pkey") ;;
  throw_when (bool_decide ((FiscalInvoice.organizationId row, FiscalInvoice.series row, FiscalInvoice.folio row) ∈
    ((λ r, (FiscalInvoice.organizationId r, FiscalInvoice.series r, FiscalInvoice.folio r)) <$> rows))) (FiscalPg "uq_fiscal_invoices_folio") ;;
  modify (λ db, db <| FiscalDb.fiscal_invoices ::= λ l, l ++ [row] |>).

(* 20260905030000_billing_fiscal_invoicing.sql:108-127 fiscal_invoice_items *)
Definition insertItem (row : FiscalInvoiceItem.t) : FTx unit :=
  rows ← gets FiscalDb.fiscal_invoice_items;
  throw_when (negb (fits 100 (FiscalInvoiceItem.productCode row) && fits 255 (FiscalInvoiceItem.description row) &&
    fits 50 (FiscalInvoiceItem.satProductCode row) && fits 50 (FiscalInvoiceItem.satUnitCode row))) (FiscalPg "value too long") ;;
  throw_when ((FiscalInvoiceItem.quantity row <=? 0) || (FiscalInvoiceItem.subtotal row <? 0) || (FiscalInvoiceItem.taxAmount row <? 0) ||
    (FiscalInvoiceItem.totalAmount row <? 0)) (FiscalPg "chk_fiscal_invoice_items") ;;
  throw_when (bool_decide (FiscalInvoiceItem.id row ∈ (FiscalInvoiceItem.id <$> rows))) (FiscalPg "fiscal_invoice_items_pkey") ;;
  throw_when (bool_decide ((FiscalInvoiceItem.organizationId row, FiscalInvoiceItem.invoiceId row, FiscalInvoiceItem.lineNumber row) ∈
    ((λ r, (FiscalInvoiceItem.organizationId r, FiscalInvoiceItem.invoiceId r, FiscalInvoiceItem.lineNumber r)) <$> rows)))
    (FiscalPg "uq_fiscal_invoice_items_line") ;;
  modify (λ db, db <| FiscalDb.fiscal_invoice_items ::= λ l, l ++ [row] |>).

Definition draftId (draws : DraftDraws.t) (command : CreateDraft.t) : string := default (DraftDraws.invoiceId draws) (CreateDraft.id command).

(* cloud-server index.ts:4915-4953 PostgresBillingService.createDraftInvoice, invoice *)
Definition draftRow (draws : DraftDraws.t) (command : CreateDraft.t) (totals : DraftTotals.t) : FiscalInvoice.t :=
  FiscalInvoice.mk (draftId draws command) (CreateDraft.organizationId command) (CreateDraft.branchId command) None
    (default "FAC" (CreateDraft.serie command)) (default (Z_toString (DraftDraws.nowMs draws)) (CreateDraft.folio command))
    (latinUpperCase (trim (CreateDraft.receptorRfc command))) (trim (CreateDraft.receptorNombre command))
    (trim (CreateDraft.receptorRegimenFiscal command)) (trim (CreateDraft.receptorCodigoPostal command))
    (trim (CreateDraft.receptorUsoCfdi command)) (default "PUE" (CreateDraft.metodoPago command))
    (default "01" (CreateDraft.formaPago command)) (DraftTotals.subtotal totals) (DraftTotals.tax totals) (DraftTotals.total totals)
    FiscalInvoiceStatus.DRAFT None None None None None None None None None None (DraftDraws.nowText draws) (DraftDraws.nowText draws).

(* cloud-server index.ts:4830-4991 PostgresBillingService.createDraftInvoice *)
Definition createDraftInvoice (draws : DraftDraws.t) (command : CreateDraft.t) : FTx FullInvoice :=
  let org := CreateDraft.organizationId command in
  lift (assertValidRfc (CreateDraft.receptorRfc command)) ;;
  lift (assertValidRegimenFiscal (CreateDraft.receptorRegimenFiscal command)) ;;
  lift (assertValidPostalCode (CreateDraft.receptorCodigoPostal command)) ;;
  throw_when (bool_decide (CreateDraft.items command = [])) InvalidFiscalInvoiceError ;;
  inFiscalTransaction (
    found ← gets (findEmisor org);
    _ ← require found InvalidEmisorConfigError;
    schemes ← gets (λ db, filter (λ s, TaxScheme.organizationId s = org) (FiscalDb.tax_schemes db));
    computed ← lift (draftItems draws schemes command (draftId draws command) 0 (CreateDraft.items command) (DraftTotals.mk 0 0 0));
    let '(items, totals) := (computed : list FiscalInvoiceItem.t * DraftTotals.t) in
    insertInvoice (draftRow draws command totals) ;;
    for_each insertItem items ;;
    reread org (draftId draws command)).
