(* ===== verification/InvoicingSample.v ===== *)
(** A concrete invoicing service for the examples: an organisation with one issuer, a PAC
    whose every capability is approved, hashes as the identity, and an XML parser that knows
    two certificates and reads any other text as an empty document. *)
From S2P Require Import Prelude Decimals Money Scale4 Json AuditTrail Ingestion Dispatch FiscalTypes Cfdi Tfd Pac Invoicing Drafts.
From Stdlib Require Import Ascii String.

Definition sampleUuid1 : string := "11111111-1111-1111-1111-111111111111".
Definition sampleUuid2 : string := "22222222-2222-2222-2222-222222222222".
Definition sampleSello : string := "AAAAAAAAAAAAAAAAAAAAAAAAAAAAAAAA".
Definition sampleFecha : string := "2026-11-02T10:00:00".
Definition sampleCertNumber : string := "00001000000500000001".

Definition sampleCertificate (uuid : string) : list XmlEvent :=
  [ OpenTag "Comprobante" CFDI_NAMESPACE [("Version", "4.0")]; OpenTag "Complemento" CFDI_NAMESPACE [];
    OpenTag "TimbreFiscalDigital" TFD_NAMESPACE [("Version", "1.1"); ("UUID", uuid); ("FechaTimbrado", sampleFecha);
      ("SelloSAT", sampleSello); ("NoCertificadoSAT", sampleCertNumber); ("RfcProvCertif", "SPR190613I52")];
    CloseTag; CloseTag; CloseTag ].
Definition sampleSaxes (s : string) : option (list XmlEvent) :=
  Some (if bool_decide (s = "CERT-1") then sampleCertificate sampleUuid1
        else if bool_decide (s = "CERT-2") then sampleCertificate sampleUuid2
        else [OpenTag "Comprobante" CFDI_NAMESPACE [("Version", "4.0")]; CloseTag]).

(** 64 digits *)
Definition sampleEvidenceDigest : string := String.concat "" (replicate 4 "0123456789abcdef").
Definition sampleDate (s : string) : option Z := Some (if bool_decide (s = "from") then 0 else 1000000).
Definition sampleHost : FiscalHost.t :=
  FiscalHost.mk (λ s, s) (λ _, sampleEvidenceDigest) (λ _ _ _, true)
    (Csd.mk (λ _ _, Some "SELLO") (λ _ _, Some true) (λ _, Some sampleCertNumber)) sampleSaxes String.compare sampleDate.

(** the contract of one use *)
Definition sampleContract (capability : PacCapabilityName.t) (condition : option string) : Provenance.t :=
  Provenance.mk "SPR" "contract" "1" "uri" "text/plain" 1 "SHA-256" sampleEvidenceDigest "authority" "key" "signature"
    (ApprovedScope.mk (Some "org") (match capability with PacCapabilityName.supportsCancel | PacCapabilityName.supportsCancellationIdempotencyKey
        | PacCapabilityName.supportsAuthoritativeCancellationLookup
        | PacCapabilityName.supportsSafeCancellationReplayAfterConfirmedNotFound => "CANCEL" | _ => "STAMP" end)
      (PacCapabilityName.text capability) condition)
    "from" "until" "authority" "key" 1 RevocationStatus.ACTIVE "signature" "from" "until" None.
Definition sampleAuthority : Authority.t :=
  Authority.mk "pem" [AllowedScope.mk "SPR" "GLOBAL" [FiscalOperationType.STAMP; FiscalOperationType.CANCEL]] true.
Definition sampleRegistry (capability : PacCapabilityName.t) (condition : option string) : option RegistryAnswer.t :=
  Some (RegistryAnswer.mk (sampleContract capability condition) [0] "text/plain" (λ _, Some sampleAuthority) 1000000 (Some true)).
Definition sampleAnswers : PacAnswers.t := PacAnswers.mk sampleRegistry (Some true) (Some true).

Definition sampleConnector : Connector.t :=
  Connector.mk "SPR" (Some "SPR190613I52") (λ _, true) (Some (sampleContract PacCapabilityName.supportsStamp None)) true true.
Definition sampleBilling : BillingService.t := BillingService.mk sampleConnector (Some [Subscriber.mk "crm" [1] REQUIRED_FIELDS]) true.
(** without authoritative lookups *)
Definition sampleBlind : BillingService.t :=
  BillingService.mk (Connector.mk "SPR" (Some "SPR190613I52") (λ _, true) (Some (sampleContract PacCapabilityName.supportsStamp None)) false false)
    (Some [Subscriber.mk "crm" [1] REQUIRED_FIELDS]) true.

Definition sampleScheme : TaxScheme.t := TaxScheme.mk "iva" "org" "IVA" "IVA 16%" 1600 true "IVA".
Definition sampleEmisor : ConfigureEmisor.t :=
  ConfigureEmisor.mk None "org" "TRI200101AB1" "Trident" "601" "06600" None None None (Some "vault/key") None None None None None false.
Definition sampleVault : VaultAnswer.t :=
  VaultAnswer.mk (Some "key") (Some "-----BEGIN CERTIFICATE-----MIIB-----END CERTIFICATE-----").
Definition sampleItem : DraftItem.t := DraftItem.mk None None None (Some "TACO") "Taco" "90101500" "E48" "2.0000" "50.0000" (Some "iva").
Definition sampleDraft : CreateDraft.t :=
  CreateDraft.mk (Some "inv") "org" "branch" None (Some "1") "XAXX010101000" "Publico" "616" "06600" "S01" None None [sampleItem].
Definition sampleDraftDraws : DraftDraws.t := DraftDraws.mk "unused" (λ i, "item") 0 "2026-11-02T09:00:00.000Z".
Definition sampleFiscalDraws (n : string) : FiscalDraws.t :=
  FiscalDraws.mk 1000 "2026-11-02T10:00:00.000Z" ("op" +:+ n) ("out" +:+ n) (AuditDraws.mk ("a" +:+ n) "2026-11-02T10:00:00.000Z" "2026-11-02T10:00:00.000Z").

Definition sampleStamp (key : string) : StampCommand.t := StampCommand.mk "org" "inv" (Some key).
Definition sampleCancel : CancelCommand.t := CancelCommand.mk "org" "inv" "02" None None.

(** the text that [stampHash] digests *)
Definition sampleHash : string := "inv:FAC:1:100.0000:XAXX010101000".
Definition sampleCorrelation (opId key : string) : FiscalResultCorrelation.t :=
  FiscalResultCorrelation.mk "org" "inv" opId FiscalOperationType.STAMP key sampleHash.
(** the PAC stamped the operation *)
Definition sampleStamped (opId key uuid certificate : string) : option PacStampResult.t :=
  Some (PacStampResult.mk (Some (sampleCorrelation opId key)) (Some "SPR190613I52") PacStampStatus.STAMPED (Some uuid) (Some sampleSello)
    (Some sampleFecha) (Some sampleCertNumber) (Some certificate) None (Some "SPR")).
(** a lookup that does not know the operation *)
Definition sampleNotFound (opId key : string) : option StampLookup.t :=
  Some (StampLookup.mk (Some "SPR") (Some (sampleCorrelation opId key)) None StampOutcome.NOT_FOUND_CONFIRMED None None None None None).
Definition sampleCancelled : option PacCancelResult.t :=
  Some (PacCancelResult.mk (Some (FiscalResultCorrelation.mk "org" "inv" "opC" FiscalOperationType.CANCEL "inv:cancel"
    ("inv:" +:+ sampleUuid1 +:+ ":02:"))) PacCancelStatus.CANCELLED sampleUuid1 (Some "SPR")).
