(* ===== verification/DraftsSpec.v ===== *)
(** The totals of a draft invoice are the sums of its lines, although they are added with
    JavaScript numbers. *)
From S2P Require Import Prelude Decimals Money Scale4 Json Ingestion Doubles FiscalTypes Cfdi Tfd Invoicing Drafts InvoicingSample.
From Stdlib Require Import Ascii String.

Lemma addFloat4_exact a b : 0 ≤ a → 0 ≤ b → a + b < 2 ^ 50 → addFloat4 a b = a + b.
Proof.
  intros Ha Hb Hab. destruct (sum_digits a b Ha Hb Hab) as [Hd Hm]. unfold addFloat4. cbv zeta.
  by rewrite (proj2 (Z.ltb_ge _ _) Hm), Hd.
Qed.

(** ** Taxes *)

Lemma amount_of_sum n s : amount (columnText n) s → s = n.
Proof. intros H. by apply amount_columnText in H as [-> _]. Qed.

Lemma draftAmount_ok text n : amountColumn text = Ok n ↔ amount text n.
Proof. unfold amountColumn, amount. destruct (decimalStringToScaledBigInt text); naive_solver. Qed.

(** the tax of a line is the difference of its total and its subtotal *)
Lemma taxes_add_up price quantity schemes calc s t u :
  calculateItemTaxes price quantity schemes = Ok calc → amount (ItemTaxCalculation.subtotal calc) s →
  amount (ItemTaxCalculation.taxAmount calc) t → amount (ItemTaxCalculation.totalAmount calc) u → u = s + t.
Proof.
  unfold calculateItemTaxes. rewrite !result_bind_ok. intros (? & _ & Hc). rewrite result_bind_ok in Hc. destruct Hc as (? & _ & Hc).
  rewrite result_bind_ok in Hc. destruct Hc as (raw & _ & Hc). destruct (bool_decide (schemes = [])).
  { injection Hc as <-. cbn. intros Hs Ht Hu. rewrite (amount_unique _ _ _ Hs Hu). pose proof (amount_unique _ _ _ Ht amount_zero). lia. }
  destruct (existsb TaxScheme.isInclusive schemes).
  - rewrite result_bind_ok in Hc. destruct Hc as (rate & _ & Hc). rewrite result_bind_ok in Hc. destruct Hc as (divisor & _ & Hc).
    rewrite result_bind_ok in Hc. destruct Hc as (subtotal & _ & Hc). rewrite result_bind_ok in Hc. destruct Hc as (tax & Htax & Hc).
    rewrite result_map_ok in Hc. destruct Hc as (parts & _ & ->). cbn. intros Hs Ht Hu.
    apply subScale4_ok in Htax as (n & m & Hx & Hy & ->). apply amount_of_sum in Ht as ->.
    rewrite (amount_unique _ _ _ Hs Hy), (amount_unique _ _ _ Hu Hx). lia.
  - rewrite result_bind_ok in Hc. destruct Hc as ([tax parts] & _ & Hc). rewrite result_map_ok in Hc. destruct Hc as (total & Htotal & ->).
    cbn. intros Hs Ht Hu. apply addScale4_ok in Htotal as (n & m & Hx & Hy & ->). apply amount_of_sum in Hu as ->.
    by rewrite (amount_unique _ _ _ Hs Hx), (amount_unique _ _ _ Ht Hy).
Qed.

(** ** Totals *)

Definition MAX_ITEMS : nat := 1000.

Lemma range_bound n : isValidScale4Range n = true → n ≤ MAX_SCALE4_BIGINT.
Proof. unfold isValidScale4Range. rewrite andb_true_iff, !Z.leb_le. lia. Qed.

(** a line that its table accepts *)
Definition acceptable (r : FiscalInvoiceItem.t) : Prop :=
  0 ≤ FiscalInvoiceItem.subtotal r ∧ 0 ≤ FiscalInvoiceItem.taxAmount r ∧ 0 ≤ FiscalInvoiceItem.totalAmount r.

(** the totals so far, of [k] lines *)
Definition bounded (k : nat) (t : DraftTotals.t) : Prop :=
  let ok n := 0 ≤ n ≤ Z.of_nat k * MAX_SCALE4_BIGINT in ok (DraftTotals.subtotal t) ∧ ok (DraftTotals.tax t) ∧ ok (DraftTotals.total t).

Definition plusLine (t : DraftTotals.t) (r : FiscalInvoiceItem.t) : DraftTotals.t :=
  DraftTotals.mk (DraftTotals.subtotal t + FiscalInvoiceItem.subtotal r) (DraftTotals.tax t + FiscalInvoiceItem.taxAmount r)
    (DraftTotals.total t + FiscalInvoiceItem.totalAmount r).

Lemma add_line k n a : (k < MAX_ITEMS)%nat → 0 ≤ n ≤ Z.of_nat k * MAX_SCALE4_BIGINT → 0 ≤ a ≤ MAX_SCALE4_BIGINT →
  addFloat4 n a = n + a ∧ 0 ≤ n + a ≤ Z.of_nat (S k) * MAX_SCALE4_BIGINT.
Proof.
  unfold MAX_ITEMS, MAX_SCALE4_BIGINT. intros Hk Hn Ha. split; [|lia]. apply addFloat4_exact; lia.
Qed.

Lemma draftItem_exact draws schemes command invoiceId i item totals row totals' k :
  draftItem draws schemes command invoiceId i item totals = Ok (row, totals') → (k < MAX_ITEMS)%nat → bounded k totals → acceptable row →
  totals' = plusLine totals row ∧ bounded (S k) totals' ∧
  FiscalInvoiceItem.totalAmount row = FiscalInvoiceItem.subtotal row + FiscalInvoiceItem.taxAmount row.
Proof.
  unfold draftItem. cbv zeta. intros Hd Hk (Bs & Bt & Bu) Hacc. rewrite result_bind_ok in Hd. destruct Hd as (calc & Hcalc & Hd).
  rewrite result_bind_ok in Hd. destruct Hd as (s & Hs%draftAmount_ok & Hd). rewrite result_bind_ok in Hd. destruct Hd as (t & Ht%draftAmount_ok & Hd).
  rewrite result_bind_ok in Hd. destruct Hd as (u & Hu%draftAmount_ok & Hd). rewrite result_bind_ok in Hd. destruct Hd as (q & _ & Hd).
  rewrite result_map_ok in Hd. destruct Hd as (p & _ & [= -> ->]). destruct Hacc as (As & At & Au). cbn in As, At, Au |- *.
  pose proof (range_bound _ (amount_range _ _ Hs)). pose proof (range_bound _ (amount_range _ _ Ht)). pose proof (range_bound _ (amount_range _ _ Hu)).
  destruct (add_line k _ s Hk Bs ltac:(lia)) as [-> ?]. destruct (add_line k _ t Hk Bt ltac:(lia)) as [-> ?].
  destruct (add_line k _ u Hk Bu ltac:(lia)) as [-> ?]. split_and!; [done|done|]. by eapply taxes_add_up.
Qed.

Lemma draftItems_exact draws schemes command invoiceId items :
  ∀ i totals rows final k, draftItems draws schemes command invoiceId i items totals = Ok (rows, final) →
  (k + List.length items ≤ MAX_ITEMS)%nat → bounded k totals → Forall acceptable rows →
  final = foldl plusLine totals rows ∧ List.length rows = List.length items ∧
  Forall (λ r, FiscalInvoiceItem.totalAmount r = FiscalInvoiceItem.subtotal r + FiscalInvoiceItem.taxAmount r) rows.
Proof.
  induction items as [|item items IH]; intros i totals rows final k; cbn [draftItems].
  { intros [= <- <-] _ _ _. by split_and!; [| |constructor]. }
  rewrite result_bind_ok. intros ([row totals'] & Hrow & Hrest). rewrite result_map_ok in Hrest. destruct Hrest as ([rows' final'] & Hrest & [= -> ->]).
  cbn [List.length]. intros Hk Hb [Ha Hall]%Forall_cons. destruct (draftItem_exact _ _ _ _ _ _ _ _ _ k Hrow ltac:(lia) Hb Ha) as (-> & Hb' & Hline).
  destruct (IH _ _ _ _ (S k) Hrest ltac:(lia) Hb' Hall) as (-> & Hlen & Hlines). split_and!; [done|by rewrite Hlen|by constructor].
Qed.

Lemma foldl_totals rows t :
  DraftTotals.subtotal (foldl plusLine t rows) = DraftTotals.subtotal t + sumZ FiscalInvoiceItem.subtotal rows ∧
  DraftTotals.tax (foldl plusLine t rows) = DraftTotals.tax t + sumZ FiscalInvoiceItem.taxAmount rows ∧
  DraftTotals.total (foldl plusLine t rows) = DraftTotals.total t + sumZ FiscalInvoiceItem.totalAmount rows.
Proof.
  revert t. induction rows as [|r rows IH]; intros t; [rewrite !sumZ_nil; cbn; lia|]. cbn [foldl].
  destruct (IH (plusLine t r)) as (-> & -> & ->). rewrite !sumZ_cons. cbn. lia.
Qed.

(** ** What is written *)

(** the rows an insertion accepts, one after the other *)
Lemma insertItems_run rows db db' : for_each insertItem rows db = (db', Ok tt) →
  Forall acceptable rows ∧ FiscalDb.fiscal_invoice_items db' = FiscalDb.fiscal_invoice_items db ++ rows ∧
  FiscalDb.fiscal_invoices db' = FiscalDb.fiscal_invoices db.
Proof.
  revert db. induction rows as [|r rows IH]; intros db Hrun; cbn [for_each] in Hrun.
  { rewrite run_ret in Hrun. injection Hrun as <-. by rewrite app_nil_r. }
  apply bind_ok in Hrun as ([] & db1 & Hr & Hrun). apply IH in Hrun as (Hall & -> & ->). unfold insertItem in Hr. minv Hr. simpl_guards.
  injection Hr as <-. cbn. rewrite <-app_assoc. split_and!; [constructor; [unfold acceptable; lia|done]|done|done].
Qed.

Lemma insertInvoice_run row db db' : insertInvoice row db = (db', Ok tt) →
  db' = db <| FiscalDb.fiscal_invoices ::= λ l, l ++ [row] |> ∧ FiscalInvoice.id row ∉ FiscalInvoice.id <$> FiscalDb.fiscal_invoices db.
Proof. intros Hr. unfold insertInvoice in Hr. minv Hr. simpl_guards. by injection Hr as <-. Qed.

Lemma find_new_invoice row db db' : insertInvoice row db = (db', Ok tt) →
  findInvoice (FiscalInvoice.organizationId row) (FiscalInvoice.id row) db' = Some row.
Proof.
  intros [-> Hnew]%insertInvoice_run. unfold findInvoice. cbn. rewrite list_find_app_r.
  - cbn. by rewrite decide_True.
  - apply list_find_None, Forall_forall. intros r Hr [_ He]. apply Hnew. rewrite <-He. by apply list_elem_of_fmap_2.
Qed.

(** C26: the stored totals of a draft of up to a thousand lines are exactly the sums of its
    stored lines, although they are added with floating-point numbers and printed, and the
    total of every line is its subtotal and its tax *)
Theorem draft_totals_are_exact draws command db db' invoice items :
  (List.length (CreateDraft.items command) ≤ MAX_ITEMS)%nat → createDraftInvoice draws command db = (db', Ok (invoice, items)) →
  ∃ lines, FiscalDb.fiscal_invoice_items db' = FiscalDb.fiscal_invoice_items db ++ lines ∧
    List.length lines = List.length (CreateDraft.items command) ∧
    FiscalInvoice.subtotal invoice = sumZ FiscalInvoiceItem.subtotal lines ∧
    FiscalInvoice.taxTotal invoice = sumZ FiscalInvoiceItem.taxAmount lines ∧
    FiscalInvoice.totalAmount invoice = sumZ FiscalInvoiceItem.totalAmount lines ∧
    Forall (λ r, FiscalInvoiceItem.totalAmount r = FiscalInvoiceItem.subtotal r + FiscalInvoiceItem.taxAmount r) lines.
Proof.
  intros Hlen Hrun. unfold createDraftInvoice in Hrun. cbv zeta in Hrun. minv Hrun. apply fiscal_transaction_ok in Hrun. minv Hrun.
  match goal with H : draftItems _ _ _ _ _ _ _ = Ok (?l, ?t), H' : for_each _ ?l _ = (?s, Ok ?u), H'' : insertInvoice _ _ = (_, Ok ?v) |- _ =>
    rename H into Hlines, H' into Hitems, H'' into Hrow, l into lines, t into totals; destruct u, v end.
  apply insertItems_run in Hitems as (Hacc & Erows & Einv). pose proof (find_new_invoice _ _ _ Hrow) as Hfind.
  apply insertInvoice_run in Hrow as [-> _]. exists lines. apply reread_ok in Hrun as [-> Hfull].
  unfold getInvoiceInternal in Hfull. replace (findInvoice _ _ s0) with (Some (draftRow draws command totals)) in Hfull;
    [|symmetry; etrans; [|exact Hfind]; unfold findInvoice; by rewrite Einv].
  injection Hfull as <- _.
  destruct (draftItems_exact _ _ _ _ _ _ _ _ _ 0 Hlines Hlen) as (-> & Hl & Hadd); [|done|].
  { unfold bounded, MAX_SCALE4_BIGINT. cbn. lia. }
  destruct (foldl_totals lines (DraftTotals.mk 0 0 0)) as (E1 & E2 & E3). cbn in E1, E2, E3. cbn.
  by split_and!; [rewrite Erows| | | | |].
Qed.

(** three lines with IVA included, whose taxes are not whole cents *)
Definition threeLines : CreateDraft.t :=
  CreateDraft.mk (Some "inv") "org" "branch" None (Some "1") "XAXX010101000" "Publico" "616" "06600" "S01" None None
    [ DraftItem.mk (Some "i1") None None None "Taco" "90101500" "E48" "1.0000" "10.0000" (Some "iva");
      DraftItem.mk (Some "i2") None None None "Agua" "90101500" "E48" "3.0000" "0.3333" (Some "iva");
      DraftItem.mk (Some "i3") None None None "Sopa" "90101500" "E48" "1.0000" "19.9900" (Some "iva") ].

Lemma draft_totals_are_exact_witness :
  let start := FiscalDb.empty <| FiscalDb.tax_schemes := [sampleScheme] |> in
  let db := fst (configureEmisorFiscal sampleEmisor start) in
  match createDraftInvoice sampleDraftDraws threeLines db with
  | (db', Ok (invoice, items)) => FiscalInvoice.totalAmount invoice = sumZ FiscalInvoiceItem.totalAmount (FiscalDb.fiscal_invoice_items db') ∧
      FiscalInvoice.totalAmount invoice = 309899
  | _ => False
  end.
Proof.
  cbv zeta. destruct (createDraftInvoice _ _ _) as [db' [[invoice items]|e]] eqn:E; [|exfalso; revert E; vm_compute; discriminate].
  split; [|revert E; vm_compute; by intros [= _ <- _]].
  assert (List.length (CreateDraft.items threeLines) ≤ MAX_ITEMS)%nat as Hlen by (vm_compute; lia).
  by destruct (draft_totals_are_exact _ _ _ _ _ _ Hlen E) as (lines & -> & _ & _ & _ & -> & _).
Defined.
