(* ===== verification/InvoicingFrames.v ===== *)
(** What every transaction of the invoicing service does to the tables: rows stay what they
    are, operations keep their documents, and a UUID is written only with a certificate. *)
From S2P Require Import Prelude Decimals Money Scale4 Json AuditTrail Ingestion Dispatch Triples FiscalTypes Cfdi Tfd Pac Invoicing Drafts.
From Stdlib Require Import Ascii String.

(** ** Rows that only gain content *)

(** rows are changed in place, as [R] says, and added at the end *)
Definition grows {A} (R : relation A) (l l' : list A) : Prop := ∃ old new, l' = old ++ new ∧ Forall2 R l old.

#[global] Instance grows_preorder {A} (R : relation A) `{!PreOrder R} : PreOrder (grows R).
Proof.
  split.
  - intros l. exists l, []. split; [by rewrite app_nil_r|]. by apply Forall_Forall2_diag, Forall_true.
  - intros l1 l2 l3 (o & n & -> & H1) (o' & n' & -> & H2). apply Forall2_app_inv_l in H2 as (p & q & Hp & Hq & ->).
    exists p, (q ++ n'). rewrite app_assoc. split; [done|]. by etrans.
Qed.

Lemma grows_elem {A} (R : relation A) l l' x : grows R l l' → x ∈ l → ∃ y, y ∈ l' ∧ R x y.
Proof.
  intros (old & new & -> & Hall) [i Hx]%list_elem_of_lookup_1. destruct (Forall2_lookup_l _ _ _ _ _ Hall Hx) as (y & Hy & HR).
  exists y. split; [|done]. apply elem_of_app. left. by eapply list_elem_of_lookup_2.
Qed.

Lemma grows_fmap {A} (R : relation A) (f : A → A) l : (∀ x, R x (f x)) → grows R l (f <$> l).
Proof.
  intros Hf. exists (f <$> l), []. rewrite app_nil_r. split; [done|]. apply Forall2_fmap_r, Forall_Forall2_diag, Forall_forall. auto.
Qed.

Lemma grows_snoc {A} (R : relation A) `{!Reflexive R} l x : grows R l (l ++ [x]).
Proof. exists l, [x]. split; [done|]. by apply Forall_Forall2_diag, Forall_true. Qed.

(** an operation keeps what it is and, once it has one, its document *)
Record sameOp (o o' : FiscalOperation.t) : Prop := {
  same_op_id : FiscalOperation.id o' = FiscalOperation.id o;
  same_op_org : FiscalOperation.organizationId o' = FiscalOperation.organizationId o;
  same_op_key : FiscalOperation.idempotencyKey o' = FiscalOperation.idempotencyKey o;
  same_op_hash : FiscalOperation.requestHash o' = FiscalOperation.requestHash o;
  same_op_xml : ∀ x, FiscalOperation.requestXml o = Some x → FiscalOperation.requestXml o' = Some x }.

#[global] Instance sameOp_preorder : PreOrder sameOp.
Proof. split; [by split|]. intros a b c [] []. split; [congruence..|auto]. Qed.

(** an invoice keeps what it is and, once it has one, a UUID *)
Record sameInvoice (r r' : FiscalInvoice.t) : Prop := {
  same_invoice_id : FiscalInvoice.id r' = FiscalInvoice.id r;
  same_invoice_org : FiscalInvoice.organizationId r' = FiscalInvoice.organizationId r;
  same_invoice_uuid : is_Some (FiscalInvoice.invoiceUuid r) → is_Some (FiscalInvoice.invoiceUuid r') }.

#[global] Instance sameInvoice_preorder : PreOrder sameInvoice.
Proof. split; [by split|]. intros a b c [] []. split; [congruence..|auto]. Qed.

Definition operationKey (o : FiscalOperation.t) : string * string := (FiscalOperation.organizationId o, FiscalOperation.idempotencyKey o).

(** the keys of the tables *)
Record unique (d : FiscalDb.t) : Prop := {
  unique_operations : NoDup (FiscalOperation.id <$> FiscalDb.operations d);
  unique_keys : NoDup (operationKey <$> FiscalDb.operations d);
  unique_invoices : NoDup (FiscalInvoice.id <$> FiscalDb.fiscal_invoices d) }.

Lemma fmap_if {A B} (P : A → Prop) `{!∀ x, Decision (P x)} (f : A → A) (g : A → B) (l : list A) :
  (∀ x, P x → g (f x) = g x) → g <$> ((λ x, if decide (P x) then f x else x) <$> l) = g <$> l.
Proof. intros Hf. rewrite <-list_fmap_compose. apply list_fmap_ext. intros i x _. cbn. case_decide; auto. Qed.

Lemma find_in {A} (P : A → Prop) `{!∀ x, Decision (P x)} l x : snd <$> list_find P l = Some x → x ∈ l ∧ P x.
Proof. destruct (list_find P l) as [[i y]|] eqn:E; [|done]. intros [= <-]. apply list_find_Some in E as (Hi & HP & _). split; [by eapply list_elem_of_lookup_2|done]. Qed.

Lemma truthy_ok o t : truthy o = Some t → o = Some t.
Proof. destruct o as [[|]|]; naive_solver. Qed.

Section system.
Context (host : FiscalHost.t) (service : BillingService.t).
Abbreviation connector := (BillingService.connector service).

(** ** Certificates *)

(** the certificate [s] seals the document [xml] with the UUID [u], for the provider *)
Definition seals (s u xml : string) : Prop :=
  ∃ provider tfd, truthy (Connector.certifiedProviderRfc connector) = Some provider ∧
    validateAndExtractTimbreFiscalDigital (FiscalHost.saxes host) (FiscalHost.localeCompare host) (FiscalHost.dateParse host)
      s (Some u) (Some provider) (Some xml) = Ok tfd.

Section received.
(** the certificates the PAC answered *)
Context (received : list string).

(** one of them seals a document that the organisation recorded before it sent it *)
Definition certified (d : FiscalDb.t) (organizationId u : string) : Prop :=
  ∃ o xml s, o ∈ FiscalDb.operations d ∧ FiscalOperation.organizationId o = organizationId ∧
    FiscalOperation.requestXml o = Some xml ∧ s ∈ received ∧ seals s u xml.

Record certs (d : FiscalDb.t) : Prop := {
  certs_operations : ∀ o u, o ∈ FiscalDb.operations d → FiscalOperation.externalUuid o = Some u →
    certified d (FiscalOperation.organizationId o) u;
  certs_invoices : ∀ r u, r ∈ FiscalDb.fiscal_invoices d → FiscalInvoice.invoiceUuid r = Some u →
    certified d (FiscalInvoice.organizationId r) u;
  certs_issued : ∀ r, r ∈ FiscalDb.fiscal_invoices d →
    FiscalInvoice.status r ∈ [FiscalInvoiceStatus.STAMPED; FiscalInvoiceStatus.CANCELLED] → is_Some (FiscalInvoice.invoiceUuid r) }.

(** what every request does to the tables *)
Record evolves (d d' : FiscalDb.t) : Prop := {
  evolves_operations : grows sameOp (FiscalDb.operations d) (FiscalDb.operations d');
  evolves_invoices : grows sameInvoice (FiscalDb.fiscal_invoices d) (FiscalDb.fiscal_invoices d');
  evolves_unique : unique d → unique d';
  evolves_certs : certs d → certs d' }.

#[global] Instance evolves_preorder : PreOrder evolves.
Proof. split; [by split|]. intros a b c [] []. split; [by etrans|by etrans|auto|auto]. Qed.

Lemma certified_mono d d' organizationId u : grows sameOp (FiscalDb.operations d) (FiscalDb.operations d') →
  certified d organizationId u → certified d' organizationId u.
Proof.
  intros Hg (o & xml & s & Ho & Horg & Hxml & Hs & Hseals). destruct (grows_elem _ _ _ _ Hg Ho) as (o' & Ho' & Hsame).
  exists o', xml, s. split_and!; [done|by rewrite (same_op_org _ _ Hsame)|by apply (same_op_xml _ _ Hsame)|done|done].
Qed.

(** a fact [P] about the tables that requests keep, and [evolves] where it holds *)
Definition evolvesFrom (P : FiscalDb.t → Prop) (d d' : FiscalDb.t) : Prop := P d → evolves d d' ∧ P d'.

#[global] Instance evolvesFrom_preorder P : PreOrder (evolvesFrom P).
Proof.
  split; [by intros d|]. intros a b c Hab Hbc HP. destruct (Hab HP) as [? HP']. destruct (Hbc HP') as [? ?]. split; [by etrans|done].
Qed.

Definition stable (P : FiscalDb.t → Prop) : Prop := ∀ d d', evolves d d' → P d → P d'.

Lemma keeps_from {A} P (m : FTx A) : stable P → keeps evolves m → keeps (evolvesFrom P) m.
Proof. intros HP Hm d Hd. specialize (Hm d). split; [done|]. by eapply HP. Qed.

(** ** Statements *)

Lemma evolves_same d d' : FiscalDb.operations d' = FiscalDb.operations d → FiscalDb.fiscal_invoices d' = FiscalDb.fiscal_invoices d → evolves d d'.
Proof.
  destruct d as [???????], d' as [???????]; cbn. intros -> ->. split; cbn; [done|done|by intros []|].
  intros [H1 H2 H3]. by split.
Qed.

Lemma keeps_transaction {A} (m : FTx A) : keeps evolves m → keeps evolves (inFiscalTransaction m).
Proof.
  intros Hm d. specialize (Hm d). unfold inFiscalTransaction. destruct (m d) as [d' [a|e]]; [done|]. by apply evolves_same.
Qed.

Lemma keeps_same {A} (m : FTx A) : (∀ d, FiscalDb.operations (fst (m d)) = FiscalDb.operations d ∧
  FiscalDb.fiscal_invoices (fst (m d)) = FiscalDb.fiscal_invoices d) → keeps evolves m.
Proof. intros H d. by apply evolves_same; apply H. Qed.

Lemma onAudit_keeps (m : AuditTx string) : keeps evolves (onAudit m).
Proof. by apply keeps_same. Qed.

Lemma onFiscalOutbox_keeps {A} (m : DTx A) : keeps evolves (onFiscalOutbox m).
Proof. apply keeps_same. intros d. unfold onFiscalOutbox. by destruct (m (FiscalDb.integration d)). Qed.

Lemma updateOperation_run organizationId operationId f d d' r : updateOperation organizationId operationId f d = (d', r) → d' = d ∨
  d' = d <| FiscalDb.operations ::= fmap (λ o, if decide (isOperation organizationId operationId o) then f o else o) |>.
Proof.
  unfold updateOperation. rewrite bind_gets. cbv zeta. rewrite !bind_throw_when. repeat case_match; intros [= <- _]; auto.
Qed.

Lemma updateInvoice_run organizationId invoiceId f d d' r : updateInvoice organizationId invoiceId f d = (d', r) → d' = d ∨
  d' = d <| FiscalDb.fiscal_invoices ::= fmap (λ r, if decide (isInvoice organizationId invoiceId r) then f r else r) |>.
Proof.
  unfold updateInvoice. rewrite bind_gets. case_match; [|intros [= <- _]; auto]. cbv zeta.
  rewrite bind_gets, !bind_throw_when.
  repeat case_match; intros [= <- _]; auto.
Qed.

(** an update of an operation gives it no UUID but a certified one *)
Lemma updateOperation_keeps P organizationId operationId f : stable P → (∀ o, sameOp o (f o)) →
  (∀ d o u, P d → FiscalOperation.externalUuid (f o) = Some u → FiscalOperation.externalUuid o = Some u ∨ certified d organizationId u) →
  keeps (evolvesFrom P) (updateOperation organizationId operationId f).
Proof.
  intros HP Hsame Hu d Hd. destruct (updateOperation _ _ _ d) as [d' r] eqn:E. cbn.
  assert (evolves d d') as Hev; [|split; [done|by eapply HP]].
  apply updateOperation_run in E as [->| ->]; [done|]. set (g := λ o, if decide _ then f o else o).
  assert (Hg : ∀ o, sameOp o (g o)) by (intros o; unfold g; by case_decide).
  assert (Hgrow : grows sameOp (FiscalDb.operations d) (g <$> FiscalDb.operations d)) by by apply grows_fmap.
  split; cbn; [done|done| |].
  - intros [H1 H2 H3]. split; cbn; [| |done].
    + unfold g. rewrite fmap_if; [done|]. intros o _. apply Hsame.
    + unfold g. rewrite fmap_if; [done|]. intros o _. unfold operationKey. by rewrite (same_op_org _ _ (Hsame o)), (same_op_key _ _ (Hsame o)).
  - intros [H1 H2 H3]. split; cbn; [|intros r' u Hr Hs; eapply certified_mono; [|by eapply H2]; done|done].
    intros o' u [o [-> Ho]]%list_elem_of_fmap Hs. rewrite (same_op_org _ _ (Hg o)). eapply certified_mono; [exact Hgrow|].
    unfold g in Hs. case_decide as Hop; [|by apply H1]. destruct Hop as [<- _]. destruct (Hu _ _ _ Hd Hs); [by apply H1|done].
Qed.

(** an update of an invoice gives it no UUID but a certified one, and issues none without *)
Lemma updateInvoice_keeps P organizationId invoiceId f : stable P → (∀ r, sameInvoice r (f r)) →
  (∀ d r u, P d → FiscalInvoice.invoiceUuid (f r) = Some u → FiscalInvoice.invoiceUuid r = Some u ∨ certified d organizationId u) →
  (∀ d r, P d → r ∈ FiscalDb.fiscal_invoices d → isInvoice organizationId invoiceId r → is_Some (FiscalInvoice.invoiceUuid (f r))) →
  keeps (evolvesFrom P) (updateInvoice organizationId invoiceId f).
Proof.
  intros HP Hsame Hu Hissued d Hd. destruct (updateInvoice _ _ _ d) as [d' r] eqn:E. cbn.
  assert (evolves d d') as Hev; [|split; [done|by eapply HP]].
  apply updateInvoice_run in E as [->| ->]; [done|]. set (g := λ o, if decide _ then f o else o).
  assert (Hg : ∀ r, sameInvoice r (g r)) by (intros r'; unfold g; by case_decide).
  split; cbn; [done|by apply grows_fmap| |].
  - intros [H1 H2 H3]. split; cbn; [done|done|]. unfold g. rewrite fmap_if; [done|]. intros o _. apply Hsame.
  - intros [H1 H2 H3]. split; cbn; [done| |].
    + intros r' u [o [-> Ho]]%list_elem_of_fmap Hs. rewrite (same_invoice_org _ _ (Hg o)).
      unfold g in Hs. case_decide as Hop; [|by apply H2]. destruct Hop as [<- _]. destruct (Hu _ _ _ Hd Hs) as [?|Hc]; [by apply H2|exact Hc].
    + intros r' [o [-> Ho]]%list_elem_of_fmap Hs. unfold g in *. case_decide; [by eapply Hissued|by apply H3].
Qed.

Lemma evolves_of_from {A} (m : FTx A) : keeps (evolvesFrom (λ _, True)) m → keeps evolves m.
Proof. intros Hm d. by apply Hm. Qed.

(** an update that touches no UUID *)
Lemma updateOperation_quiet organizationId operationId f : (∀ o, sameOp o (f o)) →
  (∀ o, FiscalOperation.externalUuid (f o) = FiscalOperation.externalUuid o) → keeps evolves (updateOperation organizationId operationId f).
Proof. intros Hs Hu. apply evolves_of_from, updateOperation_keeps; [done|done|]. intros d o u _. rewrite Hu. auto. Qed.

Lemma insertOperation_keeps row : FiscalOperation.externalUuid row = None → keeps evolves (insertOperation row).
Proof.
  intros Hnone d. unfold insertOperation. rewrite bind_gets, !bind_throw_when. case_match; [done|]. case_match; [done|]. case_match; [done|].
  case_bool_decide; [done|]. case_bool_decide; [done|].
  unfold modify. cbn. split; cbn; [by apply grows_snoc|done| |].
  - intros [K1 K2 K3]. split; cbn; [| |done]; rewrite fmap_app; apply NoDup_app; (split_and!; [done| |apply NoDup_singleton]);
      intros x Hx ->%list_elem_of_singleton; by eauto.
  - intros [K1 K2 K3]. split; cbn; [|intros r u Hr Hs; eapply certified_mono; [|by eapply K2]; by apply grows_snoc|done].
    intros o u [Ho| ->%list_elem_of_singleton]%elem_of_app Hs; [|by rewrite Hnone in Hs].
    eapply certified_mono; [|by apply K1]. by apply grows_snoc.
Qed.

Lemma insertInvoice_keeps row : FiscalInvoice.status row = FiscalInvoiceStatus.DRAFT → FiscalInvoice.invoiceUuid row = None →
  keeps evolves (insertInvoice row).
Proof.
  intros Hdraft Hnone d. unfold insertInvoice. rewrite bind_gets, !bind_throw_when. case_match; [done|]. case_match; [done|]. case_match; [done|].
  case_bool_decide; [done|]. case_match; [done|]. unfold modify. cbn. split; cbn; [done|by apply grows_snoc| |].
  - intros [K1 K2 K3]. split; cbn; [done|done|]. rewrite fmap_app. apply NoDup_app. split_and!; [done| |apply NoDup_singleton].
    intros x Hx ->%list_elem_of_singleton. done.
  - intros [K1 K2 K3]. split; cbn; [done| |].
    + intros r u [Hr| ->%list_elem_of_singleton]%elem_of_app Hs; [by apply K2|by rewrite Hnone in Hs].
    + intros r [Hr| ->%list_elem_of_singleton]%elem_of_app Hs; [by apply K3|]. rewrite Hdraft in Hs. set_solver.
Qed.

#[local] Hint Resolve onAudit_keeps onFiscalOutbox_keeps : keeps.

(** ** Programs that settle no certificate *)

(** the update of an operation that touches no UUID, by computation *)
Ltac quiet := apply updateOperation_quiet; intros o; [split|]; cbn; repeat case_match; cbn; congruence.

Lemma reread_keeps organizationId invoiceId : keeps evolves (reread organizationId invoiceId).
Proof. unfold reread. keeps. Qed.

Lemma checkSubscribers_keeps subscribers payload : keeps evolves (checkSubscribers subscribers payload).
Proof. unfold checkSubscribers. induction subscribers; cbn [for_each]; keeps. Qed.

#[local] Hint Resolve reread_keeps checkSubscribers_keeps : keeps.

Lemma durablePayload_keeps organizationId row payload : keeps evolves (durablePayload organizationId row payload).
Proof. unfold durablePayload. keeps. quiet. Qed.

#[local] Hint Resolve durablePayload_keeps : keeps.

Lemma enqueueFiscalEvent_keeps draws organizationId branchId kind aggregateId payload :
  keeps evolves (enqueueFiscalEvent host service draws organizationId branchId kind aggregateId payload).
Proof. unfold enqueueFiscalEvent. keeps. Qed.

#[local] Hint Resolve enqueueFiscalEvent_keeps : keeps.

Lemma replayFiscalEvent_keeps draws organizationId operationId : keeps evolves (replayFiscalEvent host service draws organizationId operationId).
Proof. unfold replayFiscalEvent. apply keeps_transaction. keeps. Qed.

Lemma rejectDisabled_keeps draws organizationId invoiceId : keeps evolves (rejectDisabled host draws organizationId invoiceId).
Proof. unfold rejectDisabled. keeps. Qed.

Lemma failTerminal_keeps draws organizationId existingOp : keeps evolves (failTerminal draws organizationId existingOp).
Proof. unfold failTerminal. quiet. Qed.

Lemma markUnsettled_keeps draws organizationId operationId retry : keeps evolves (markUnsettled draws organizationId operationId retry).
Proof. unfold markUnsettled. apply keeps_transaction. quiet. Qed.

Lemma markUncorrelated_keeps organizationId operationId : keeps evolves (markUncorrelated organizationId operationId).
Proof. unfold markUncorrelated. apply keeps_transaction. quiet. Qed.

Lemma markFailed_keeps draws organizationId operationId : keeps evolves (markFailed draws organizationId operationId).
Proof. unfold markFailed. apply keeps_transaction. quiet. Qed.

Lemma authorizeCapability_keeps draws answers organizationId operationType capability condition :
  keeps evolves (authorizeCapability host service draws answers organizationId operationType capability condition).
Proof. unfold authorizeCapability. keeps. Qed.

#[local] Hint Resolve replayFiscalEvent_keeps rejectDisabled_keeps failTerminal_keeps markUnsettled_keeps markUncorrelated_keeps markFailed_keeps
  authorizeCapability_keeps : keeps.

Lemma openStamp_keeps draws command invoice : keeps evolves (openStamp host service draws command invoice).
Proof. unfold openStamp. keeps. by apply insertOperation_keeps. Qed.

Lemma openCancel_keeps draws command invoice targetUuid : keeps evolves (openCancel host service draws command invoice targetUuid).
Proof. unfold openCancel. keeps. by apply insertOperation_keeps. Qed.

Lemma pinDocument_keeps command vault invoice opId : keeps evolves (pinDocument host command vault invoice opId).
Proof.
  unfold pinDocument. keeps. apply updateOperation_quiet; [|done]. intros o. split; cbn; [done..|]. by intros x ->.
Qed.

Lemma markPending_keeps draws command opId : keeps evolves (markPending draws command opId).
Proof. unfold markPending. apply keeps_transaction. quiet. Qed.

#[local] Hint Resolve openStamp_keeps openCancel_keeps pinDocument_keeps markPending_keeps : keeps.

Lemma insertItem_keeps row : keeps evolves (insertItem row).
Proof. apply keeps_same. intros d. unfold insertItem. rewrite bind_gets, !bind_throw_when. by repeat case_match. Qed.

#[local] Hint Resolve insertItem_keeps : keeps.

Lemma insertItems_keeps rows : keeps evolves (for_each insertItem rows).
Proof. induction rows; cbn [for_each]; keeps. Qed.

Lemma createDraftInvoice_keeps draws command : keeps evolves (createDraftInvoice draws command).
Proof.
  unfold createDraftInvoice. cbv zeta. keeps. apply keeps_transaction. keeps.
  - by apply insertInvoice_keeps.
  - by apply insertItems_keeps.
Qed.

Lemma configureEmisorFiscal_keeps command : keeps evolves (configureEmisorFiscal command).
Proof. unfold configureEmisorFiscal. cbv zeta. keeps. apply keeps_transaction. keeps. by apply keeps_same. Qed.

(** ** Programs that settle a certificate *)

Lemma from_transaction {A} P (m : FTx A) : stable P → keeps (evolvesFrom P) m → keeps (evolvesFrom P) (inFiscalTransaction m).
Proof.
  intros HP Hm d Hd. destruct (Hm d Hd) as [Hev ?]. unfold inFiscalTransaction. destruct (m d) as [d' [a|e]]; [done|].
  assert (evolves d (d <| FiscalDb.audit := FiscalDb.audit d' |>)) as Hsame by by apply evolves_same. split; [done|]. by eapply HP.
Qed.

Lemma from_weaker {A} P P' (m : FTx A) : stable P → (∀ d, P d → P' d) → keeps (evolvesFrom P') m → keeps (evolvesFrom P) m.
Proof. intros HP Hw Hm d Hd. destruct (Hm d (Hw d Hd)) as [? _]. split; [done|]. by eapply HP. Qed.

Lemma certified_stable organizationId u : stable (λ d, certified d organizationId u).
Proof. intros d d' [Hops _ _ _]. by apply certified_mono. Qed.

(** the operation as it was read is there *)
Definition recorded (o : FiscalOperation.t) (d : FiscalDb.t) : Prop := ∃ o', o' ∈ FiscalDb.operations d ∧ sameOp o o'.

Lemma recorded_stable o : stable (recorded o).
Proof.
  intros d d' [Hops _ _ _] (o1 & Ho1 & H1). destruct (grows_elem _ _ _ _ Hops Ho1) as (o2 & Ho2 & H2). exists o2. split; [done|]. by etrans.
Qed.

Definition known (o : FiscalOperation.t) (d : FiscalDb.t) : Prop :=
  recorded o d ∧ ∀ u, FiscalOperation.externalUuid o = Some u → certified d (FiscalOperation.organizationId o) u.

Lemma known_stable o : stable (known o).
Proof.
  intros d d' Hev [Hr Hc]. split; [by eapply recorded_stable|]. intros u Hu. eapply certified_stable; [exact Hev|by apply Hc].
Qed.

(** the invoice has a UUID *)
Definition hasUuid (organizationId invoiceId : string) (d : FiscalDb.t) : Prop :=
  unique d ∧ ∃ r, r ∈ FiscalDb.fiscal_invoices d ∧ isInvoice organizationId invoiceId r ∧ is_Some (FiscalInvoice.invoiceUuid r).

Lemma hasUuid_stable organizationId invoiceId : stable (hasUuid organizationId invoiceId).
Proof.
  intros d d' [_ Hinv Huniq _] (Hu & r & Hr & [<- <-] & Hs). split; [by apply Huniq|].
  destruct (grows_elem _ _ _ _ Hinv Hr) as (r' & Hr' & []). exists r'. split_and!; [done|by split|auto].
Qed.

Lemma hasUuid_all organizationId invoiceId d r : hasUuid organizationId invoiceId d → r ∈ FiscalDb.fiscal_invoices d →
  isInvoice organizationId invoiceId r → is_Some (FiscalInvoice.invoiceUuid r).
Proof.
  intros (Hu & r' & Hr' & [_ E'] & Hs) Hr [_ E]. by rewrite (NoDup_fmap_unique _ _ _ _ (unique_invoices _ Hu) Hr Hr' (eq_trans E (eq_sym E'))).
Qed.

#[local] Hint Resolve keeps_from certified_stable recorded_stable known_stable hasUuid_stable : keeps.

Definition textOf (result : PacStampResult.t) : option string :=
  match PacStampResult.stampedXml result with Some x => Some x | None => PacStampResult.xmlTimbrado result end.

Lemma validated_stamp result xml u0 : validateAuthoritativeStampResult host service result None (Some xml) = Ok u0 →
  ∃ u s, PacStampResult.uuid result = Some u ∧ textOf result = Some s ∧ seals s u xml.
Proof.
  unfold validateAuthoritativeStampResult. fold (textOf result). case_match; [done|].
  destruct (PacStampResult.uuid result) as [u|]; [|done]. destruct (textOf result) as [s|]; [|done].
  destruct (truthy _) as [provider|] eqn:Ep; [|done]. case_match; [done|]. rewrite result_bind_ok. intros (tfd & Htfd & _).
  exists u, s. split_and!; [done|done|]. by exists provider, tfd.
Qed.

Lemma commitStamp_keeps draws command submission result u : PacStampResult.uuid result = Some u →
  keeps (evolvesFrom (λ d, certified d (StampCommand.organizationId command) u)) (commitStamp host service draws command submission result).
Proof.
  intros Hu. unfold commitStamp. cbv zeta. apply from_transaction; [apply certified_stable|]. keeps.
  - apply updateOperation_keeps; [apply certified_stable|by intros o; split|]. intros d o u' Hc. cbn. rewrite Hu. intros [= ->]. by right.
  - apply updateInvoice_keeps; [apply certified_stable|intros r; split; cbn; rewrite ?Hu; eauto| |].
    + intros d r u' Hc. cbn. rewrite Hu. intros [= ->]. by right.
    + intros d r _ _ _. cbn. rewrite Hu. eauto.
Qed.

Lemma recorded_certified o d u s xml : recorded o d → FiscalOperation.requestXml o = Some xml → s ∈ received → seals s u xml →
  certified d (FiscalOperation.organizationId o) u.
Proof. intros (o' & Ho' & [_ Horg _ _ Hxml]) Hx Hs Hseals. exists o', xml, s. split_and!; auto. Qed.

(** a state that requires what the tables hold *)
Lemma keeps_at {A} P (m : FTx A) : (∀ d, P d → evolvesFrom P d (fst (m d))) → keeps (evolvesFrom P) m.
Proof. intros Hm d Hd. by apply Hm. Qed.

Lemma keeps_require_bind {A B} (R : relation FiscalDb.t) `{!PreOrder R} (o : option A) e (k : A → FTx B) :
  (∀ a, o = Some a → keeps R (k a)) → keeps R (require o e ≫= k).
Proof. intros Hk d. rewrite bind_require. destruct o; [by apply Hk|done]. Qed.

Section stamp.
Context (draws : FiscalDraws.t) (answers : PacAnswers.t) (command : StampCommand.t).
Abbreviation org := (StampCommand.organizationId command).

(** the certificates among what a lookup answered are received *)
Definition lookedUp (lookup : option StampLookup.t) : Prop := ∀ found s, lookup = Some found → StampLookup.stampedXml found = Some s → s ∈ received.

Lemma commitFoundStamp_keeps existingOp invoice reconciled :
  FiscalOperation.organizationId existingOp = org → (∀ s, StampLookup.stampedXml reconciled = Some s → s ∈ received) →
  keeps (evolvesFrom (known existingOp)) (commitFoundStamp host service draws command existingOp invoice reconciled).
Proof.
  intros Horg Htext. apply keeps_at. intros d Hd. unfold commitFoundStamp. rewrite bind_require.
  destruct (truthy (FiscalOperation.requestXml existingOp)) as [xml|] eqn:Exml; [|done]. rewrite bind_lift.
  destruct (validateAuthoritativeStampResult _ _ _ _ _) as [u0|] eqn:Hval; [|done].
  apply validated_stamp in Hval as (u & s & Hu & Hs & Hseals). cbv zeta.
  assert (FiscalOperation.requestXml existingOp = Some xml) as Hxml.
  { by apply truthy_ok. }
  assert (StampLookup.stampedXml reconciled = Some s) as Hs'.
  { revert Hs. unfold textOf, asResult. cbn. by destruct (StampLookup.stampedXml reconciled). }
  assert (certified d org u) as Hcert.
  { rewrite <-Horg. by eapply recorded_certified; [apply Hd| |by apply Htext|]. }
  change (StampLookup.uuid reconciled = Some u) in Hu. intros _. 
  match goal with |- evolves d (fst (?m d)) ∧ _ =>
    assert (keeps (evolvesFrom (λ d, certified d org u)) m) as Hkeeps; [|destruct (Hkeeps d Hcert) as [Hev _]; split; [done|by eapply known_stable]] end.
  keeps.
  - apply updateOperation_keeps; [apply certified_stable|by intros o; split|]. intros d' o u' Hc. cbn. rewrite Hu. intros [= ->]. by right.
  - apply updateInvoice_keeps; [apply certified_stable|intros r; split; cbn; rewrite ?Hu; eauto| |].
    + intros d' r u' Hc. cbn. rewrite Hu. intros [= ->]. by right.
    + intros d' r _ _ _. cbn. rewrite Hu. eauto.
Qed.

Lemma recoverStamp_keeps lookup existingOp invoice : FiscalOperation.organizationId existingOp = org → lookedUp lookup →
  keeps (evolvesFrom (known existingOp)) (recoverStamp host service draws answers command lookup existingOp invoice).
Proof.
  intros Horg Hlook. unfold recoverStamp. cbv zeta. case_match; [|keeps]. apply keeps_bind; [apply _|keeps|intros _].
  apply keeps_require_bind; [apply _|]. intros reconciled ->. keeps; (apply commitFoundStamp_keeps; [done|]; intros s' Hs; by apply (Hlook reconciled s')).
Qed.

Lemma resumeStamp_keeps lookup existingOp invoice : FiscalOperation.organizationId existingOp = org → lookedUp lookup →
  keeps (evolvesFrom (known existingOp)) (resumeStamp host service draws answers command lookup existingOp invoice).
Proof.
  intros Horg Hlook. unfold resumeStamp. keeps; first [by apply recoverStamp_keeps|apply keeps_from; [apply known_stable|quiet]|idtac].
  apply updateInvoice_keeps; [apply known_stable|intros r; split; cbn; eauto| |by intros; eexists].
  intros d r u [_ Hc]. cbn. intros [= <-]. right. rewrite <-Horg. by apply Hc, truthy_ok.
Qed.

Lemma prepareStamp_keeps vault lookup : lookedUp lookup →
  keeps (evolvesFrom certs) (prepareStamp host service draws answers command vault lookup).
Proof.
  intros Hlook. assert (stable certs) as Hstable by by intros d d' [].
  unfold prepareStamp. apply from_transaction; [done|]. apply keeps_bind; [apply _|keeps|intros found].
  apply keeps_bind; [apply _|keeps|intros invoice]. case_match; [keeps|]. apply keeps_bind; [apply _|keeps|intros _].
  apply keeps_at. intros d Hd _. rewrite bind_gets. destruct (findOperation _ _ d) as [existingOp|] eqn:Efind; [|by apply (keeps_from certs); [|keeps|]].
  apply find_in in Efind as (Hin & Horg & _).
  match goal with |- evolves d (fst (?m d)) ∧ _ =>
    assert (keeps (evolvesFrom (known existingOp)) m) as Hkeeps; [|destruct (Hkeeps d) as [Hev _]; [|split; [done|by eapply Hstable]]] end.
  - keeps. by apply resumeStamp_keeps.
  - split; [by exists existingOp|]. intros u Hu. by apply (certs_operations _ Hd).
Qed.

Lemma beginStamp_keeps vault lookup : lookedUp lookup →
  keeps (evolvesFrom certs) (beginStamp host service draws answers command vault lookup).
Proof.
  intros Hlook. assert (stable certs) as Hstable by by intros d d' [].
  unfold beginStamp. apply keeps_bind; [apply _|by apply prepareStamp_keeps|intros prepared]. keeps.
Qed.

(** the operation of a submission, with its document *)
Definition submitted (submission : Submission.t) (d : FiscalDb.t) : Prop := ∃ o, o ∈ FiscalDb.operations d ∧
  FiscalOperation.id o = Submission.opId submission ∧ FiscalOperation.organizationId o = org ∧
  FiscalOperation.requestXml o = Some (Submission.cfdiXml submission).

Lemma finishStamp_keeps submission answer : (∀ result s, answer = Some result → textOf result = Some s → s ∈ received) →
  keeps (evolvesFrom (submitted submission)) (finishStamp host service draws answers command submission answer).
Proof.
  intros Htext. assert (stable (submitted submission)) as Hstable.
  { intros d d' [Hops _ _ _] (o & Ho & Hid & Horg & Hxml). destruct (grows_elem _ _ _ _ Hops Ho) as (o' & Ho' & []).
    exists o'. split_and!; [done|congruence|congruence|auto]. }
  unfold finishStamp. cbv zeta. destruct answer as [result|]; [|keeps].
  repeat case_match; try (by keeps). rename H1 into Hval. apply result_bind_ok in Hval as (u1 & _ & Hval).
  apply validated_stamp in Hval as (u & s & Hu & Hs & Hseals).
  eapply from_weaker; [done| |by apply (commitStamp_keeps _ _ _ _ u)]. intros d (o & Ho & _ & Horg & Hxml).
  exists o, (Submission.cfdiXml submission), s. split_and!; [done..|by eapply Htext|done].
Qed.
End stamp.

Section cancel.
Context (draws : FiscalDraws.t) (answers : PacAnswers.t) (command : CancelCommand.t).
Abbreviation org := (CancelCommand.organizationId command).
Abbreviation invoiceId := (CancelCommand.invoiceId command).
Abbreviation P := (hasUuid org invoiceId).

Lemma cancelled_keeps cancelledAt : keeps (evolvesFrom P) (updateInvoice org invoiceId (cancelled draws command cancelledAt)).
Proof.
  apply updateInvoice_keeps; [apply hasUuid_stable|by intros r; split|by left|]. intros d r Hd Hr Hinv. by eapply (hasUuid_all _ _ d r).
Qed.

Lemma commitCancel_keeps opId targetUuid invoice : keeps (evolvesFrom P) (commitCancel host service draws command opId targetUuid invoice).
Proof.
  unfold commitCancel. keeps; first [apply cancelled_keeps|apply keeps_from; [apply hasUuid_stable|quiet]].
Qed.

Lemma recoverCancel_keeps lookup existingOp invoice targetUuid :
  keeps (evolvesFrom P) (recoverCancel host service draws answers command lookup existingOp invoice targetUuid).
Proof. unfold recoverCancel. keeps. all: apply commitCancel_keeps. Qed.

Lemma resumeCancel_keeps lookup existingOp invoice targetUuid :
  keeps (evolvesFrom P) (resumeCancel host service draws answers command lookup existingOp invoice targetUuid).
Proof.
  unfold resumeCancel.
  keeps; first [apply recoverCancel_keeps|apply cancelled_keeps|apply keeps_from; [apply hasUuid_stable|quiet]].
Qed.

Lemma unique_stable : stable unique.
Proof. by intros d d' []. Qed.

Lemma prepareCancel_keeps lookup : keeps (evolvesFrom unique) (prepareCancel host service draws answers command lookup).
Proof.
  unfold prepareCancel. keeps. apply from_transaction; [apply unique_stable|]. apply keeps_at. intros d Hd _. rewrite bind_gets, bind_require.
  destruct (findInvoice _ _ d) as [invoice|] eqn:Efind; [|done]. apply find_in in Efind as [Hin Hinv].
  case_match; [by apply (keeps_from unique); [apply unique_stable|keeps|]|]. rewrite bind_lift.
  destruct (validateCanCancel _); [|done]. rewrite bind_require. destruct (truthy _) as [targetUuid|] eqn:Eu; [|done].
  match goal with |- evolves d (fst (?m d)) ∧ _ =>
    assert (keeps (evolvesFrom P) m) as Hkeeps; [|destruct (Hkeeps d) as [Hev _]; [|split; [done|by eapply unique_stable]]] end.
  - keeps. apply resumeCancel_keeps.
  - split; [done|]. exists invoice. split_and!; [done|done|]. apply truthy_ok in Eu. by rewrite Eu.
Qed.

Lemma beginCancel_keeps lookup : keeps (evolvesFrom unique) (beginCancel host service draws answers command lookup).
Proof.
  unfold beginCancel. apply keeps_bind; [apply _|apply prepareCancel_keeps|intros prepared]. pose proof unique_stable. keeps.
Qed.

Lemma finishCancel_keeps submission answer : keeps (evolvesFrom P) (finishCancel host service draws answers command submission answer).
Proof.
  unfold finishCancel. cbv zeta. destruct answer as [result|]; [|keeps].
  repeat case_match; try (by keeps). all: apply from_transaction; [apply hasUuid_stable|apply commitCancel_keeps].
Qed.

(** a submission is of an invoice that has a UUID *)
Lemma beginCancel_submits lookup d d' submission :
  beginCancel host service draws answers command lookup d = (d', Ok (inr submission)) → unique d → hasUuid org invoiceId d'.
Proof.
  intros Hrun Hd. assert (hasUuid org invoiceId d) as Hin.
  { unfold beginCancel, prepareCancel in Hrun. minv Hrun. apply fiscal_transaction_ok in Hstep. minv Hstep; [by inversion Hrun|].
    apply find_in in Hfound as [Hr Hinv]. split; [done|]. eexists. split_and!; [exact Hr|done|].
    match goal with H : truthy _ = Some _ |- _ => apply truthy_ok in H; rewrite H; eauto end. }
  destruct (beginCancel_keeps lookup d Hd) as [Hev _]. rewrite Hrun in Hev. by eapply hasUuid_stable.
Qed.
End cancel.

End received.

(** ** Submissions *)

Lemma resumeStamp_submits draws answers command lookup existingOp invoice d d' opId :
  resumeStamp host service draws answers command lookup existingOp invoice d = (d', Ok (inr opId)) →
  opId = FiscalOperation.id existingOp ∧ FiscalOperation.requestHash existingOp = stampHash host command invoice.
Proof.
  intros Hrun. unfold resumeStamp in Hrun. rewrite bind_throw_when in Hrun. destruct (negb _) eqn:Ehash; [done|].
  split; [|by apply negb_false_iff, bool_decide_eq_true in Ehash]. clear Ehash.
  assert (∀ m, (settled ← (m : FTx (option FullInvoice)); match settled with Some full => mret (inl full) | None =>
    updateOperation (StampCommand.organizationId command) (FiscalOperation.id existingOp) (λ r, r
      <| FiscalOperation.status := FiscalOperationStatus.IN_FLIGHT |> <| FiscalOperation.attemptCount ::= Z.add 1 |>
      <| FiscalOperation.updatedAt := FiscalDraws.now draws |>) ;; mret (inr (FiscalOperation.id existingOp)) end) d = (d', Ok (inr opId)) →
    opId = FiscalOperation.id existingOp) as Hcase.
  { intros m Hm. apply bind_ok in Hm as (settled & s1 & _ & Hm). destruct settled; minv Hm; congruence. }
  destruct (FiscalOperation.status existingOp), (truthy (FiscalOperation.externalUuid existingOp)); try (by eapply Hcase, Hrun); try done.
  apply bind_ok in Hrun as (? & ? & _ & Hrun). apply bind_ok in Hrun as (? & ? & _ & Hrun). by inversion Hrun.
Qed.

(** the operation of a request is there, with its key, hash and document *)
Definition answers_to (q : PacStampRequest.t) (o : FiscalOperation.t) : Prop :=
  let c := PacStampRequest.correlation q in
  FiscalOperation.id o = FiscalResultCorrelation.operationId c ∧ FiscalOperation.organizationId o = FiscalResultCorrelation.organizationId c ∧
  FiscalOperation.idempotencyKey o = FiscalResultCorrelation.idempotencyKey c ∧
  FiscalOperation.requestHash o = FiscalResultCorrelation.requestHash c ∧ FiscalOperation.requestXml o = Some (PacStampRequest.xmlPayload q).

Definition on_file (d : FiscalDb.t) (q : PacStampRequest.t) : Prop := ∃ o, o ∈ FiscalDb.operations d ∧ answers_to q o.

Lemma on_file_grows d d' q : grows sameOp (FiscalDb.operations d) (FiscalDb.operations d') → on_file d q → on_file d' q.
Proof.
  intros Hg (o & Ho & H1 & H2 & H3 & H4 & H5). destruct (grows_elem _ _ _ _ Hg Ho) as (o' & Ho' & []).
  exists o'. split; [done|]. split_and!; [congruence..|auto].
Qed.

(** what is pinned is the document of the operation that was opened *)
Lemma pinDocument_run command vault invoice opId d d' submission : pinDocument host command vault invoice opId d = (d', Ok submission) →
  Submission.opId submission = opId ∧ Submission.requestHash submission = stampHash host command invoice ∧
  ∃ o, o ∈ FiscalDb.operations d' ∧ FiscalOperation.id o = opId ∧ FiscalOperation.requestXml o = Some (Submission.cfdiXml submission).
Proof.
  intros Hrun. unfold pinDocument in Hrun. minv Hrun. cbn. split_and!; [done|done|].
  apply negb_false_iff, bool_decide_eq_true in Hguard. apply bind_Some in Hguard as (o & Hfind & Hxml).
  apply find_in in Hfind as [Ho [_ Hid]]. by exists o.
Qed.

(** what it takes to submit *)
Lemma beginStamp_run draws answers command vault lookup d d' submission :
  beginStamp host service draws answers command vault lookup d = (d', Ok (inr submission)) →
  ∃ invoice opId s, findInvoice (StampCommand.organizationId command) (StampCommand.invoiceId command) d = Some invoice ∧
    FiscalInvoice.status invoice = FiscalInvoiceStatus.DRAFT ∧
    authorizePacCapabilityUse (FiscalHost.digestBytes host) (FiscalHost.verify host) (FiscalHost.dateParse host) connector
      PacCapabilityName.supportsStamp (UseContext.mk (StampCommand.organizationId command) FiscalOperationType.STAMP None)
      (FiscalDraws.now draws) (PacAnswers.registry answers PacCapabilityName.supportsStamp None) = Ok tt ∧
    match findOperation (StampCommand.organizationId command) (stampKey command) d with
    | Some existingOp => resumeStamp host service draws answers command lookup existingOp invoice d = (s, Ok (inr opId))
    | None => openStamp host service draws command invoice d = (s, Ok opId)
    end ∧ pinDocument host command vault invoice opId s = (d', Ok submission).
Proof.
  intros Hrun. unfold beginStamp in Hrun. apply bind_ok in Hrun as (prepared & d1 & Hprep & Hrun).
  destruct prepared as [full|s0]; [by inversion Hrun|]. unfold authorizeCapability in Hrun. minv Hrun. destruct val.
  apply fiscal_transaction_ok in Hprep. unfold prepareStamp in Hprep. minv Hprep; [congruence|].
  destruct r as [full|opId]; minv Hprep; [congruence|]. simplify_eq. exists found, opId, s. split_and!; [done| |done| |done].
  - revert Hval0. by destruct (FiscalInvoice.status found).
  - destruct (findOperation _ _ d); [done|]. minv Hstep. by simplify_eq.
Qed.

Lemma beginStamp_submits received draws answers command vault lookup d d' submission :
  beginStamp host service draws answers command vault lookup d = (d', Ok (inr submission)) →
  lookedUp received lookup → unique d → certs received d → on_file d' (stampRequest command submission).
Proof.
  intros Hrun Hlook Hd Hcerts. destruct (beginStamp_keeps received draws answers command vault lookup Hlook d Hcerts) as [Hev _].
  rewrite Hrun in Hev. apply evolves_unique in Hev; [|done]. apply beginStamp_run in Hrun as (invoice & opId & s & _ & _ & _ & Hop & Hpin).
  assert (∃ o, o ∈ FiscalDb.operations s ∧ FiscalOperation.id o = opId ∧
    FiscalOperation.organizationId o = StampCommand.organizationId command ∧ FiscalOperation.idempotencyKey o = stampKey command ∧
    FiscalOperation.requestHash o = stampHash host command invoice) as (o1 & Ho1 & Hid & Horg & Hkey & Hhash).
  { destruct (findOperation _ _ d) as [existingOp|] eqn:Efind.
    - apply find_in in Efind as (Hin & Horg & Hkey).
      destruct (resumeStamp_keeps received draws answers command lookup existingOp invoice Horg Hlook d) as [Hev' _].
      { split; [by exists existingOp|]. intros u Hu. by apply (certs_operations _ _ Hcerts). }
      rewrite Hop in Hev'. apply resumeStamp_submits in Hop as [-> Hhash].
      destruct (grows_elem _ _ _ _ (evolves_operations _ _ _ Hev') Hin) as (o & Ho & []). exists o. split_and!; [done|congruence..].
    - unfold openStamp, insertOperation in Hop. minv Hop. cbn. eexists. split; [apply elem_of_app; right; by apply list_elem_of_singleton|done]. }
  pose proof (pinDocument_keeps received command vault invoice opId s) as Hev'. rewrite Hpin in Hev'.
  destruct (grows_elem _ _ _ _ (evolves_operations _ _ _ Hev') Ho1) as (o2 & Ho2 & Hsame).
  apply pinDocument_run in Hpin as (Eop & Ehash & o3 & Ho3 & Hid3 & Hxml3).
  assert (o3 = o2) as ->.
  { eapply (NoDup_fmap_unique _ _ _ _ (unique_operations _ Hev)); [done|done|]. rewrite (same_op_id _ _ Hsame). congruence. }
  destruct Hsame. exists o2. split; [done|]. unfold answers_to. cbn. split_and!; congruence.
Qed.

End system.
