(* ===== verification/InvoicingSpec.v ===== *)
(** What invoicing promises, however stampings, cancellations, their late answers and other
    requests interleave: one document per operation, a certificate behind every UUID, and what
    it takes to send a document again. *)
From S2P Require Import Prelude Decimals Money Scale4 Json AuditTrail Ingestion Dispatch Triples FiscalTypes Cfdi Tfd Pac Invoicing Drafts InvoicingFrames InvoicingSample.
From Stdlib Require Import Ascii String.

(** ** The service and its requests *)

(** the tables, the submissions whose answers are awaited, what was sent and which certificates
    were received *)
Module FiscalWorld.
Record t := mk {
  db : FiscalDb.t; stamping : list (StampCommand.t * Submission.t); cancelling : list (CancelCommand.t * CancelSubmission.t);
  sent : list PacStampRequest.t; received : list string }.
#[global] Instance eta_t : Eta t := λ w, mk (db w) (stamping w) (cancelling w) (sent w) (received w).
Definition start : t := mk FiscalDb.empty [] [] [] [].
End FiscalWorld.

Inductive FiscalRequest :=
| ReqEmisor (command : ConfigureEmisor.t)
| ReqDraft (draws : DraftDraws.t) (command : CreateDraft.t)
| ReqStamp (draws : FiscalDraws.t) (answers : PacAnswers.t) (vault : VaultAnswer.t) (lookup : option StampLookup.t) (command : StampCommand.t)
| ReqStampAnswer (i : nat) (draws : FiscalDraws.t) (answers : PacAnswers.t) (answer : option PacStampResult.t)
| ReqCancel (draws : FiscalDraws.t) (answers : PacAnswers.t) (lookup : option CancelLookup.t) (command : CancelCommand.t)
| ReqCancelAnswer (i : nat) (draws : FiscalDraws.t) (answers : PacAnswers.t) (answer : option PacCancelResult.t)
| ReqReplay (draws : FiscalDraws.t) (organizationId operationId : string)
(** other services write their own tables *)
| ReqElsewhere (schemes : list TaxScheme.t) (integration : DispatchDb.t) (audit : AuditTable).

Section requests.
Context (host : FiscalHost.t) (service : BillingService.t).
Implicit Types w : FiscalWorld.t.

Definition receive (text : option string) w : FiscalWorld.t := w <| FiscalWorld.received ::= λ l, l ++ option_list text |>.
Definition onDb {A} (m : FTx A) w : FiscalWorld.t := w <| FiscalWorld.db ::= λ d, fst (m d) |>.

Definition submitStamp draws answers vault (lookup : option StampLookup.t) command w : FiscalWorld.t :=
  let m := beginStamp host service draws answers command vault lookup in
  let w' := receive (lookup ≫= StampLookup.stampedXml) (onDb m w) in
  match snd (m (FiscalWorld.db w)) with
  | Ok (inr submission) => w' <| FiscalWorld.stamping ::= λ l, l ++ [(command, submission)] |>
      <| FiscalWorld.sent ::= λ l, l ++ [stampRequest command submission] |>
  | _ => w'
  end.

Definition submitCancel draws answers lookup command w : FiscalWorld.t :=
  let m := beginCancel host service draws answers command lookup in
  match snd (m (FiscalWorld.db w)) with
  | Ok (inr submission) => onDb m w <| FiscalWorld.cancelling ::= λ l, l ++ [(command, submission)] |>
  | _ => onDb m w
  end.

Definition handleFiscal (w : FiscalWorld.t) (request : FiscalRequest) : FiscalWorld.t :=
  match request with
  | ReqEmisor command => onDb (configureEmisorFiscal command) w
  | ReqDraft draws command => onDb (createDraftInvoice draws command) w
  | ReqStamp draws answers vault lookup command => submitStamp draws answers vault lookup command w
  | ReqStampAnswer i draws answers answer =>
      match FiscalWorld.stamping w !! i with
      | Some (command, submission) =>
          receive (answer ≫= textOf) (onDb (finishStamp host service draws answers command submission answer) w)
            <| FiscalWorld.stamping ::= delete i |>
      | None => w
      end
  | ReqCancel draws answers lookup command => submitCancel draws answers lookup command w
  | ReqCancelAnswer i draws answers answer =>
      match FiscalWorld.cancelling w !! i with
      | Some (command, submission) =>
          onDb (finishCancel host service draws answers command submission answer) w <| FiscalWorld.cancelling ::= delete i |>
      | None => w
      end
  | ReqReplay draws organizationId operationId => onDb (replayFiscalEvent host service draws organizationId operationId) w
  | ReqElsewhere schemes integration audit =>
      w <| FiscalWorld.db ::= λ d, d <| FiscalDb.tax_schemes := schemes |> <| FiscalDb.integration := integration |> <| FiscalDb.audit := audit |> |>
  end.

Definition fiscalRun : FiscalWorld.t → list FiscalRequest → FiscalWorld.t := foldl handleFiscal.

Record fiscal_ok w : Prop := {
  ok_unique : unique (FiscalWorld.db w);
  ok_certs : certs host service (FiscalWorld.received w) (FiscalWorld.db w);
  ok_sent : Forall (on_file (FiscalWorld.db w)) (FiscalWorld.sent w);
  ok_stamping : ∀ c s, (c, s) ∈ FiscalWorld.stamping w → stampRequest c s ∈ FiscalWorld.sent w;
  ok_cancelling : ∀ c s, (c, s) ∈ FiscalWorld.cancelling w →
    hasUuid (CancelCommand.organizationId c) (CancelCommand.invoiceId c) (FiscalWorld.db w) }.

Abbreviation Evolves r := (evolves host service r).

Lemma certs_more received more d : certs host service received d → certs host service (received ++ more) d.
Proof.
  assert (∀ o u, certified host service received d o u → certified host service (received ++ more) d o u) as Hc.
  { intros o u (op & xml & s & Ho & Horg & Hx & Hs & Hseals). exists op, xml, s. split_and!; [done..| |done]. apply elem_of_app. by left. }
  intros [H1 H2 H3]. split; eauto.
Qed.

(** a request that evolves the tables and adds nothing else *)
Lemma ok_evolves w w' more : fiscal_ok w → FiscalWorld.received w' = FiscalWorld.received w ++ more →
  Evolves (FiscalWorld.received w ++ more) (FiscalWorld.db w) (FiscalWorld.db w') →
  FiscalWorld.sent w' = FiscalWorld.sent w → FiscalWorld.stamping w' ⊆ FiscalWorld.stamping w →
  FiscalWorld.cancelling w' ⊆ FiscalWorld.cancelling w → fiscal_ok w'.
Proof.
  intros [Hu Hc Hs Hst Hca] Er [Hops Hinv Huniq Hcerts] Es Hst' Hca'. split.
  - auto.
  - rewrite Er. by apply Hcerts, certs_more.
  - rewrite Es. eapply Forall_impl; [exact Hs|]. intros q. by apply on_file_grows.
  - rewrite Es. auto.
  - intros c s Hin. eapply (hasUuid_stable host service (FiscalWorld.received w ++ more)); [|by eapply Hca, Hca']. by split.
Qed.

Lemma ok_elsewhere {A} w (m : FTx A) : keeps (Evolves (FiscalWorld.received w)) m → fiscal_ok w → fiscal_ok (onDb m w).
Proof.
  intros Hm Hw. eapply (ok_evolves _ _ [] Hw); cbn; [by rewrite app_nil_r| |done|done|done]. rewrite app_nil_r. apply Hm.
Qed.

Lemma ok_start : fiscal_ok FiscalWorld.start.
Proof. split; cbn; [split; apply NoDup_nil_2|split; set_solver|done|set_solver|set_solver]. Qed.

(** the request that was sent is on file, its operation with the document *)
Lemma ok_submitStamp draws answers vault lookup command w : fiscal_ok w →
  fiscal_ok (submitStamp draws answers vault lookup command w).
Proof.
  intros Hw. set (more := option_list (lookup ≫= StampLookup.stampedXml)).
  assert (lookedUp (FiscalWorld.received w ++ more) lookup) as Hlook.
  { intros found s -> Hs. apply elem_of_app. right. unfold more. cbn. rewrite Hs. set_solver. }
  pose proof (certs_more (FiscalWorld.received w) more _ (ok_certs _ Hw)) as Hcerts.
  destruct (beginStamp_keeps host service _ draws answers command vault lookup Hlook (FiscalWorld.db w) Hcerts) as [Hev _].
  unfold submitStamp. cbv zeta. set (w1 := receive _ _). assert (fiscal_ok w1) as Hw1 by by eapply (ok_evolves w w1 more Hw).
  destruct (beginStamp _ _ _ _ _ _ _ _) as [d' r] eqn:Erun. cbn [snd]. destruct r as [[|submission]|]; [done| |done].
  assert (on_file d' (stampRequest command submission)) as Hfile by (eapply beginStamp_submits; [exact Erun|exact Hlook|apply Hw|exact Hcerts]).
  assert (FiscalWorld.db w1 = d') as Edb by (unfold w1, receive, onDb; cbn; by rewrite Erun).
  destruct Hw1 as [H1 H2 H3 H4 H5]. split; [exact H1|exact H2| | |exact H5].
  - apply Forall_app. split; [exact H3|]. rewrite <-Edb in Hfile. by constructor.
  - intros c s. cbn. rewrite !elem_of_app, !list_elem_of_singleton. intros [Hin|[= -> ->]]; [left; by apply H4|by right].
Qed.

Lemma ok_submitCancel draws answers lookup command w : fiscal_ok w → fiscal_ok (submitCancel draws answers lookup command w).
Proof.
  intros Hw. destruct (beginCancel_keeps host service (FiscalWorld.received w) draws answers command lookup (FiscalWorld.db w) (ok_unique _ Hw)) as [Hev _].
  unfold submitCancel. cbv zeta. set (w1 := onDb _ w).
  assert (fiscal_ok w1) as Hw1 by (eapply (ok_evolves w w1 [] Hw); [cbn; by rewrite app_nil_r|by rewrite app_nil_r|done..]).
  destruct (beginCancel _ _ _ _ _ _ _) as [d' r] eqn:Erun. cbn [snd]. destruct r as [[|submission]|]; [done| |done].
  apply (beginCancel_submits host service (FiscalWorld.received w)) in Erun as Huuid; [|apply Hw].
  assert (FiscalWorld.db w1 = d') as Edb by (unfold w1, onDb; cbn; by rewrite Erun).
  destruct Hw1 as [H1 H2 H3 H4 H5]. split; [exact H1|exact H2|exact H3|exact H4|].
  intros c s. cbn. rewrite elem_of_app, list_elem_of_singleton. rewrite <-Edb in Huuid. intros [Hin|[= -> ->]]; [exact (H5 _ _ Hin)|done].
Qed.

Lemma handleFiscal_ok w request : fiscal_ok w → fiscal_ok (handleFiscal w request).
Proof.
  intros Hw. destruct request as [command|draws command|draws answers vault lookup command|i draws answers answer|draws answers lookup command|
    i draws answers answer|draws o op|schemes integration audit]; cbn [handleFiscal].
  - apply ok_elsewhere; [apply configureEmisorFiscal_keeps|done].
  - apply ok_elsewhere; [apply createDraftInvoice_keeps|done].
  - by apply ok_submitStamp.
  - destruct (FiscalWorld.stamping w !! i) as [[command submission]|] eqn:Ei; [|done].
    destruct (proj1 (Forall_forall _ _) (ok_sent _ Hw) _ (ok_stamping _ Hw _ _ (list_elem_of_lookup_2 _ _ _ Ei))) as (o & Ho & Hid & Horg & _ & _ & Hxml).
    destruct (finishStamp_keeps host service (FiscalWorld.received w ++ option_list (answer ≫= textOf)) draws answers command submission answer) with (s := FiscalWorld.db w) as [Hev _].
    { intros result s -> Hs. apply elem_of_app. right. cbn. rewrite Hs. set_solver. }
    { by exists o. }
    eapply (ok_evolves w _ _ Hw); [done|exact Hev|done|apply sublist_subseteq, sublist_delete|done].
  - by apply ok_submitCancel.
  - destruct (FiscalWorld.cancelling w !! i) as [[command submission]|] eqn:Ei; [|done].
    destruct (finishCancel_keeps host service (FiscalWorld.received w) draws answers command submission answer (FiscalWorld.db w)) as [Hev _].
    { eapply (ok_cancelling _ Hw), list_elem_of_lookup_2, Ei. }
    eapply (ok_evolves w _ [] Hw); [cbn; by rewrite app_nil_r|rewrite app_nil_r; exact Hev|done|done|apply sublist_subseteq, sublist_delete].
  - apply ok_elsewhere; [apply replayFiscalEvent_keeps|done].
  - eapply (ok_evolves w _ [] Hw); [cbn; by rewrite app_nil_r| |done|done|done]. by apply evolves_same.
Qed.

Lemma fiscalRun_ok requests w : fiscal_ok w → fiscal_ok (fiscalRun w requests).
Proof. revert w. induction requests as [|r rs IH]; intros w Hw; [done|]. by apply IH, handleFiscal_ok. Qed.

End requests.

(** ** Runs of the sample service *)

Definition sampleSetup : list FiscalRequest :=
  [ReqElsewhere [sampleScheme] DispatchDb.empty []; ReqEmisor sampleEmisor; ReqDraft sampleDraftDraws sampleDraft].
Definition sampleRun (requests : list FiscalRequest) : FiscalWorld.t :=
  fiscalRun sampleHost sampleBilling FiscalWorld.start (sampleSetup ++ requests).
Definition submit (n key : string) (lookup : option StampLookup.t) : FiscalRequest :=
  ReqStamp (sampleFiscalDraws n) sampleAnswers sampleVault lookup (sampleStamp key).
Definition answered (n opId key uuid certificate : string) : FiscalRequest :=
  ReqStampAnswer 0 (sampleFiscalDraws n) sampleAnswers (sampleStamped opId key uuid certificate).
Definition theInvoice (w : FiscalWorld.t) : FiscalInvoice.t :=
  default (draftRow sampleDraftDraws sampleDraft (DraftTotals.mk 0 0 0)) (head (FiscalDb.fiscal_invoices (FiscalWorld.db w))).

(** one stamping, its answer lost; asked again, the PAC does not know it; sent again, answered *)
Definition lostAnswer : FiscalWorld.t :=
  sampleRun [submit "1" "k" None; submit "2" "k" (sampleNotFound "op1" "k"); answered "3" "op1" "k" sampleUuid1 "CERT-1"].

(** C23: however drafts, stampings, cancellations, their late answers, replays and other
    services interleave, an invoice that is STAMPED or CANCELLED has a UUID, and the UUID of an
    invoice is one that a certificate received from the PAC gives, under the provider's RFC, to
    a document that the organisation had recorded with an operation: the certificate without
    its seal is that document. *)
Theorem issued_invoices_are_certified host service requests w r :
  fiscalRun host service FiscalWorld.start requests = w → r ∈ FiscalDb.fiscal_invoices (FiscalWorld.db w) →
  (FiscalInvoice.status r ∈ [FiscalInvoiceStatus.STAMPED; FiscalInvoiceStatus.CANCELLED] → is_Some (FiscalInvoice.invoiceUuid r)) ∧
  ∀ u, FiscalInvoice.invoiceUuid r = Some u → ∃ o xml s, o ∈ FiscalDb.operations (FiscalWorld.db w) ∧
    FiscalOperation.organizationId o = FiscalInvoice.organizationId r ∧ FiscalOperation.requestXml o = Some xml ∧
    s ∈ FiscalWorld.received w ∧ seals host service s u xml.
Proof.
  intros <- Hr. destruct (fiscalRun_ok host service requests _ (ok_start host service)) as [_ [_ H2 H3] _ _ _].
  split; [by apply H3|]. intros u Hu. by apply (H2 r u).
Qed.

Lemma issued_invoices_are_certified_witness :
  FiscalInvoice.status (theInvoice lostAnswer) = FiscalInvoiceStatus.STAMPED ∧
  ∃ o xml s, o ∈ FiscalDb.operations (FiscalWorld.db lostAnswer) ∧ FiscalOperation.requestXml o = Some xml ∧
    s ∈ FiscalWorld.received lostAnswer ∧ seals sampleHost sampleBilling s sampleUuid1 xml.
Proof.
  split; [by vm_compute|].
  destruct (issued_invoices_are_certified sampleHost sampleBilling _ lostAnswer (theInvoice lostAnswer) eq_refl) as [_ H].
  { apply (list_elem_of_lookup_2 _ 0). by vm_compute. }
  destruct (H sampleUuid1) as (o & xml & s & Ho & _ & Hx & Hs & Hseals); [by vm_compute|]. by exists o, xml, s.
Defined.

(** C24: a stamping operation submits one document: requests to the PAC with the same
    operation, or with the same idempotency key of an organisation, agree in operation, key,
    request hash and document, whatever happened between them. *)
Theorem one_document_per_operation host service requests w q1 q2 :
  fiscalRun host service FiscalWorld.start requests = w → q1 ∈ FiscalWorld.sent w → q2 ∈ FiscalWorld.sent w →
  let c1 := PacStampRequest.correlation q1 in
  let c2 := PacStampRequest.correlation q2 in
  FiscalResultCorrelation.operationId c1 = FiscalResultCorrelation.operationId c2 ∨
  FiscalResultCorrelation.organizationId c1 = FiscalResultCorrelation.organizationId c2 ∧
    FiscalResultCorrelation.idempotencyKey c1 = FiscalResultCorrelation.idempotencyKey c2 →
  FiscalResultCorrelation.operationId c1 = FiscalResultCorrelation.operationId c2 ∧
  FiscalResultCorrelation.organizationId c1 = FiscalResultCorrelation.organizationId c2 ∧
  FiscalResultCorrelation.idempotencyKey c1 = FiscalResultCorrelation.idempotencyKey c2 ∧
  FiscalResultCorrelation.requestHash c1 = FiscalResultCorrelation.requestHash c2 ∧
  PacStampRequest.xmlPayload q1 = PacStampRequest.xmlPayload q2.
Proof.
  intros <- H1 H2 c1 c2 Hsame. destruct (fiscalRun_ok host service requests _ (ok_start host service)) as [[Hids Hkeys _] _ Hsent _ _].
  rewrite Forall_forall in Hsent. destruct (Hsent _ H1) as (o1 & Ho1 & Hq1). destruct (Hsent _ H2) as (o2 & Ho2 & Hq2).
  destruct Hq1 as (E1 & E2 & E3 & E4 & E5), Hq2 as (F1 & F2 & F3 & F4 & F5). subst c1 c2.
  assert (o1 = o2) as ->; [|split_and!; congruence]. destruct Hsame as [Hid|[Horg Hkey]].
  - eapply (NoDup_fmap_unique _ _ _ _ Hids); [done|done|]. by rewrite E1, F1.
  - eapply (NoDup_fmap_unique _ _ _ _ Hkeys); [done|done|]. unfold operationKey. by rewrite E2, F2, E3, F3, Horg, Hkey.
Qed.

Lemma one_document_per_operation_witness : ∃ q1 q2, FiscalWorld.sent lostAnswer = [q1; q2] ∧
  PacStampRequest.xmlPayload q1 = PacStampRequest.xmlPayload q2.
Proof.
  destruct (FiscalWorld.sent lostAnswer) as [|q1 [|q2 [|]]] eqn:E; try (exfalso; revert E; vm_compute; discriminate).
  exists q1, q2. split; [done|]. eapply (one_document_per_operation sampleHost sampleBilling _ lostAnswer q1 q2 eq_refl).
  - rewrite E. by apply elem_of_cons; left.
  - rewrite E. by apply elem_of_cons; right; apply list_elem_of_singleton.
  - left. revert E. vm_compute. by intros [= <- <-].
Defined.

Section licence.
Context (host : FiscalHost.t) (service : BillingService.t) (draws : FiscalDraws.t) (answers : PacAnswers.t) (command : StampCommand.t).
Abbreviation connector := (BillingService.connector service).

(** the organisation's registry authorises the capability for this use *)
Definition authorised (capability : PacCapabilityName.t) (condition : option string) : Prop :=
  authorizePacCapabilityUse (FiscalHost.digestBytes host) (FiscalHost.verify host) (FiscalHost.dateParse host) connector capability
    (UseContext.mk (StampCommand.organizationId command) FiscalOperationType.STAMP condition) (FiscalDraws.now draws)
    (PacAnswers.registry answers capability condition) = Ok tt.

(** a lookup about the operation that the registry vouches for *)
Definition vouchedFor (op : FiscalOperation.t) (found : StampLookup.t) : Prop :=
  PacAnswers.evidence answers = Some true ∧ StampLookup.pacProvider found = Some (Connector.providerName connector) ∧
  StampLookup.correlation found = Some (stampCorrelation command (FiscalOperation.id op) (FiscalOperation.requestHash op)).

(** why the document of an operation without an answer may be sent again *)
Inductive licence (lookup : option StampLookup.t) (op : FiscalOperation.t) : Prop :=
| licence_not_found found :
    authorised PacCapabilityName.supportsAuthoritativeStampLookup (Some "RECONCILIATION_LOOKUP") → lookup = Some found →
    vouchedFor op found → StampLookup.outcome found = StampOutcome.NOT_FOUND_CONFIRMED →
    authorised PacCapabilityName.supportsSafeStampReplayAfterConfirmedNotFound (Some "NOT_FOUND_REPLAY") → licence lookup op
| licence_idempotent :
    Connector.capabilities connector PacCapabilityName.supportsAuthoritativeStampLookup && Connector.hasStampLookup connector = false →
    authorised PacCapabilityName.supportsStampIdempotencyKey (Some "IDEMPOTENT_RETRY") → licence lookup op
| licence_without_uuid found :
    authorised PacCapabilityName.supportsAuthoritativeStampLookup (Some "RECONCILIATION_LOOKUP") → lookup = Some found →
    vouchedFor op found → StampLookup.outcome found = StampOutcome.STAMPED_CONFIRMED → truthy (StampLookup.uuid found) = None → licence lookup op.

Lemma evidence_ok evidence pacProvider correlation expected u : validateFiscalEvidence service evidence pacProvider correlation expected = Ok u →
  evidence = Some true ∧ pacProvider = Some (Connector.providerName connector) ∧ correlation = Some expected.
Proof.
  unfold validateFiscalEvidence, validateResultCorrelation. case_match eqn:E; [|done]. apply andb_true_iff in E as [E1%bool_decide_eq_true E2%bool_decide_eq_true].
  cbn. destruct evidence as [[|]|]; naive_solver.
Qed.

Lemma authorize_ok {A} capability condition (k : unit → FTx A) d s a :
  (authorizeCapability host service draws answers (StampCommand.organizationId command) FiscalOperationType.STAMP capability condition ≫= k) d =
    (s, Ok a) → authorised capability condition ∧ k tt d = (s, Ok a).
Proof.
  unfold authorizeCapability, authorised. rewrite bind_lift. by destruct (authorizePacCapabilityUse _ _ _ _ _ _ _ _) as [[]|].
Qed.

Lemma recoverStamp_licence lookup op invoice d s : recoverStamp host service draws answers command lookup op invoice d = (s, Ok None) → licence lookup op.
Proof.
  intros Hrun. unfold recoverStamp in Hrun. cbv zeta in Hrun. case_match eqn:Ehas.
  - apply authorize_ok in Hrun as [Ha Hrun]. rewrite bind_require in Hrun. destruct lookup as [found|]; [|done]. rewrite bind_lift in Hrun.
    destruct (validateFiscalEvidence _ _ _ _ _) eqn:Hev; [|done]. apply evidence_ok in Hev.
    destruct (StampLookup.outcome found) eqn:Eout, (truthy (StampLookup.uuid found)) eqn:Eu; try done.
    all: try (apply bind_ok in Hrun as (? & ? & _ & Hrun); by inversion Hrun).
    all: try (by eapply licence_without_uuid).
    all: rewrite bind_throw_when in Hrun; destruct (negb _); [done|]; apply authorize_ok in Hrun as [Hb _]; by eapply licence_not_found.
  - case_match; [|done]. apply authorize_ok in Hrun as [Ha _]. by apply licence_idempotent.
Qed.

Lemma resumeStamp_licence lookup op invoice d s opId :
  resumeStamp host service draws answers command lookup op invoice d = (s, Ok (inr opId)) →
  FiscalOperation.status op ≠ FiscalOperationStatus.FAILED_TERMINAL ∧
  (FiscalOperation.status op ∈ [FiscalOperationStatus.IN_FLIGHT; FiscalOperationStatus.RECONCILIATION_REQUIRED] → licence lookup op).
Proof.
  intros Hop. unfold resumeStamp in Hop. rewrite bind_throw_when in Hop. destruct (negb _); [done|].
  destruct (FiscalOperation.status op) eqn:Es; (split; [done|]); intros Hin; try set_solver.
  all: rewrite bool_decide_eq_true_2 in Hop by set_solver; apply bind_ok in Hop as (settled & d1 & Hrec & Hop);
    destruct settled; [by inversion Hop|]; by eapply recoverStamp_licence.
Qed.

(** C25: a submission needs a draft, the same request hash as its operation and the
    authorisation to stamp; while the operation of the key awaits an answer it also needs a
    licence: the PAC's lookup does not know the request and replaying is authorised, or no
    lookup is offered and retrying under the idempotency key is authorised, or the lookup
    confirms a stamping without a UUID, which the code does not refuse. *)
Theorem resubmission_needs_a_licence vault lookup d d' submission :
  beginStamp host service draws answers command vault lookup d = (d', Ok (inr submission)) →
  authorised PacCapabilityName.supportsStamp None ∧
  (∃ invoice, findInvoice (StampCommand.organizationId command) (StampCommand.invoiceId command) d = Some invoice ∧
    FiscalInvoice.status invoice = FiscalInvoiceStatus.DRAFT ∧ Submission.requestHash submission = stampHash host command invoice) ∧
  ∀ op, findOperation (StampCommand.organizationId command) (stampKey command) d = Some op →
    FiscalOperation.requestHash op = Submission.requestHash submission ∧ FiscalOperation.status op ≠ FiscalOperationStatus.FAILED_TERMINAL ∧
    (FiscalOperation.status op ∈ [FiscalOperationStatus.IN_FLIGHT; FiscalOperationStatus.RECONCILIATION_REQUIRED] → licence lookup op).
Proof.
  intros Hrun. apply beginStamp_run in Hrun as (invoice & opId & s & Hfind & Hdraft & Hauth & Hop & Hpin).
  apply pinDocument_run in Hpin as (_ & Ehash & _). split_and!; [done|by exists invoice|]. intros op Eop. rewrite Eop in Hop.
  destruct (resumeStamp_submits _ _ _ _ _ _ _ _ _ _ _ Hop) as [_ Hh]. split; [congruence|]. by eapply resumeStamp_licence.
Qed.
End licence.

Lemma resubmission_needs_a_licence_witness :
  let w := sampleRun [submit "1" "k" None] in
  let d := FiscalWorld.db w in
  match snd (beginStamp sampleHost sampleBilling (sampleFiscalDraws "2") sampleAnswers (sampleStamp "k") sampleVault (sampleNotFound "op1" "k") d) with
  | Ok (inr submission) => ∃ op, findOperation "org" "k" d = Some op ∧
      licence sampleHost sampleBilling (sampleFiscalDraws "2") sampleAnswers (sampleStamp "k") (sampleNotFound "op1" "k") op
  | _ => False
  end.
Proof.
  cbv zeta. destruct (beginStamp _ _ _ _ _ _ _ _) as [d' [[full|submission]|e]] eqn:E; try (exfalso; revert E; vm_compute; discriminate).
  cbn [snd]. apply resubmission_needs_a_licence in E as (_ & _ & H).
  destruct (findOperation "org" "k" _) as [op|] eqn:Eop; [|exfalso; revert Eop; vm_compute; discriminate].
  exists op. split; [done|]. apply (H op); [done|]. revert Eop. vm_compute. intros [= <-]. constructor.
Defined.

(** ** Behaviours found *)

(** two idempotency keys for one draft: both documents are sent and certified, the invoice
    keeps the second UUID, and the first one is in no invoice *)
Theorem two_keys_stamp_one_invoice_twice :
  let w := sampleRun [submit "1" "k1" None; submit "2" "k2" None; answered "3" "op1" "k1" sampleUuid1 "CERT-1";
    answered "4" "op2" "k2" sampleUuid2 "CERT-2"] in
  List.length (FiscalWorld.sent w) = 2%nat ∧
  FiscalOperation.externalUuid <$> FiscalDb.operations (FiscalWorld.db w) = [Some sampleUuid1; Some sampleUuid2] ∧
  FiscalInvoice.invoiceUuid <$> FiscalDb.fiscal_invoices (FiscalWorld.db w) = [Some sampleUuid2].
Proof. by vm_compute. Qed.

Definition cancelRequests : list FiscalRequest :=
  [ReqCancel (FiscalDraws.mk 1000 "2026-11-02T11:00:00.000Z" "opC" "outC" (AuditDraws.mk "aC" "" "")) sampleAnswers None sampleCancel;
   ReqCancelAnswer 0 (sampleFiscalDraws "C") sampleAnswers sampleCancelled].

(** an answer that comes after the cancellation makes the cancelled invoice STAMPED again *)
Theorem late_answer_revives_a_cancelled_invoice :
  let before := [submit "1" "k1" None; submit "2" "k2" None; answered "3" "op1" "k1" sampleUuid1 "CERT-1"] ++ cancelRequests in
  FiscalInvoice.status (theInvoice (sampleRun before)) = FiscalInvoiceStatus.CANCELLED ∧
  FiscalInvoice.status (theInvoice (sampleRun (before ++ [answered "4" "op2" "k2" sampleUuid2 "CERT-2"]))) = FiscalInvoiceStatus.STAMPED.
Proof. by vm_compute. Qed.

(** stamping that is not authorised is refused after its operation is IN_FLIGHT: nothing was
    sent, and without lookups and idempotent retries no further attempt is possible *)
Theorem refused_stamping_stays_in_flight :
  let refusing := PacAnswers.mk (λ _ _, None) (Some true) (Some true) in
  let attempt n answers := ReqStamp (sampleFiscalDraws n) answers sampleVault None (sampleStamp "k") in
  let connector := Connector.mk "SPR" (Some "SPR190613I52") (λ c, bool_decide (c = PacCapabilityName.supportsStamp))
    (Some (sampleContract PacCapabilityName.supportsStamp None)) false false in
  let run requests := fiscalRun sampleHost (BillingService.mk connector (Some []) true) FiscalWorld.start (sampleSetup ++ requests) in
  FiscalWorld.sent (run [attempt "1" refusing; attempt "2" sampleAnswers]) = [] ∧
  FiscalOperation.status <$> FiscalDb.operations (FiscalWorld.db (run [attempt "1" refusing; attempt "2" sampleAnswers])) =
    [FiscalOperationStatus.IN_FLIGHT] ∧
  List.length (FiscalWorld.sent (run [attempt "1" sampleAnswers])) = 1%nat.
Proof. by vm_compute. Qed.

(** a PAC answer that stamps an invoice cannot be recorded while no subscriber is configured *)
Theorem stamped_without_subscribers_is_not_recorded :
  let run requests := fiscalRun sampleHost (BillingService.mk sampleConnector None true) FiscalWorld.start (sampleSetup ++ requests) in
  let w := run [submit "1" "k" None; answered "3" "op1" "k" sampleUuid1 "CERT-1"] in
  List.length (FiscalWorld.sent w) = 1%nat ∧ FiscalInvoice.status (theInvoice w) = FiscalInvoiceStatus.DRAFT ∧
  FiscalOperation.externalUuid <$> FiscalDb.operations (FiscalWorld.db w) = [None].
Proof. by vm_compute. Qed.
